(* ===== verification/_CoqProject ===== *)
-Q . S2P
Prelude.v
Chain.v
Devices.v
LwpQueue.v
LwpHeap.v
LwpHeapInv.v
LwpHeapProofs.v
LwpHeapFree.v
LwpHeapSpec.v
KState.v
KTick.v
KThread.v
KLists.v
KSched.v
KSchedOps.v
KBlock.v
KLife.v
KSync.v
KPrio.v
KMutexProofs.v
KSetPrio.v
KSound.v
KTheorems.v
KRest.v
KMailbox.v
KCond.v
KSystem.v
KCalls.v
KReach.v
Arq.v
ArqSpec.v
ArqProofs.v
ArqTheorems.v
KTickProofs.v
KTickDemo.v
Lwpc.v
LwpcProofs.v
Clock.v
Irq.v
Exi.v
ExiLock.v
ExiSystem.v
ExiReach.v
ExiXfer.v
ExiDemo.v
CardState.v
Card.v
CardFat.v
CardProofs.v
CardRecover.v
CardApi.v
CardDemo.v
CardCipher.v
Conf.v
ConfProofs.v
ConfDemo.v
DspDev.v
Dsp.v
DspProofs.v
DspTheorems.v
DspDemo.v
Aram.v
AramProofs.v
AramDemo.v
DvdPatch.v
DvdState.v
Dvd.v
DvdSpec.v
DvdProofs.v
DvdInv.v
DvdSafe.v
DvdCircle.v
DvdTheorems.v
DvdFatal.v
DvdBus.v
DvdRead.v
DvdUpload.v
DvdDemo.v
