(* ===== verification/Prelude.v ===== *)
(** * Verification of libogc

    libogc is the system library of the GameCube and Wii homebrew toolchain:
    a small preemptive kernel, device drivers and the services built on them,
    in C for a 32-bit big-endian PowerPC. This library models the parts of it
    that carry state and invariants of their own, from the source, and proves
    what makes them correct.

    ** The parts of the program and the files that model them

    - [Prelude]: machine integers ([wrap], [swrap] with the abbreviations [u32],
      [s64], ...), the state monad [M] with faults, its weakest preconditions and
      the tactics and hints all files share. [Chain]: the word memory [mem] and
      doubly linked chains in it.
    - [LwpQueue] models libogc/lwp_queue.c and .inl: intrusive queues whose
      control block overlaps with its two sentinel nodes. Theorem: any sequence
      of operations behaves as on a list.
    - [LwpHeap] (code), [LwpHeapInv] (layout invariant), [LwpHeapProofs],
      [LwpHeapFree], [LwpHeapSpec] (theorems): libogc/lwp_heap.c and .inl, the
      boundary-tag allocator behind the system workspace. Allocation, release
      with its four ways of merging, refusal of bad pointers, the round trip.
    - The tuxedo kernel, src/tuxedo and gc/tuxedo. [KState]: [struct KThread] and
      the processor, one function per field ([k_prio s t] is [t->prio]), and the
      resumption monad [K] for code that can switch contexts: a run ends with a
      result or with the code left to execute when the thread runs again.
      [KThread]: thread.c and thread_priv.h. [KSync]: sync.c and sync.h.
      [KMailbox]: mailbox.c and mailbox.h. [KTick]: tick.c and tick.h.
      The proofs: [KLists] (thread list and wait queues refine sorted lists),
      [KSched], [KSchedOps], [KBlock], [KLife] (scheduler), [KPrio],
      [KMutexProofs], [KSetPrio] (priority inheritance), [KSound], [KTheorems]
      (one theorem per operation on the whole invariant [ksound]), [KRest] and
      [KCond] (code left by a switched out call, condition variables),
      [KTickProofs] and [KTickDemo] (timed tasks).
      [KSystem] puts the operations together: threads call the kernel in any
      interleaving that respects the contract of each call, switched out calls
      are resumed when their thread is scheduled. [KCalls] discharges each call,
      [KReach] has the theorems on all reachable states: the invariant, mutual
      exclusion, and that no call faults or hangs.
    - [Lwpc], [LwpcProofs]: libogc/lwpcompat, the LWP interface (threads,
      queues, semaphores, mutexes, condition variables, message queues, alarms)
      as a client of the kernel: slots and semaphores.
    - [Clock]: gc/tuxedo/ppc/clock.h, gc/ogc/lwp_watchdog.h and the clock calls
      of libogc/timesupp.c. [Irq]: tuxedo/interrupt.c and gc/tuxedo/interrupt.h,
      the interrupt controller.
    - [CardState], [Card]: libogc/card.c, the memory card driver and its file
      system, from the EXI commands to the asynchronous interface with its chain
      of callbacks. [CardFat], [CardProofs]: the allocation table as disjoint
      chains. [CardRecover]: checksums and the choice between the two copies of
      directory and table at mount. [CardApi]: files and names. [CardCipher]:
      the bit reversal of the unlock sequence. [CardDemo]: whole runs.
    - [Arq] models libogc/arqueue.c, the ARAM transfer queue, on the queues of
      [LwpQueue] in memory; [ArqSpec] is an abstract machine with lists,
      [ArqProofs] the simulation, [ArqTheorems] what every history of posts and
      interrupts guarantees.
    - [Devices] has the data of the interrupt controller and of the EXI driver,
      which the kernel state carries. [Exi] models libogc/exi.c, the expansion
      bus: locking with waiting clients, selection, transfers, interrupts,
      identification and the serial adapter. [ExiLock]: the requests for a
      channel as queues of nodes in memory. [ExiSystem]: threads that share the
      bus in any interleaving, and the contract of each call; [ExiReach]:
      theorems on all their runs. [ExiXfer]: the accesses to the transfer
      registers read as traffic. [ExiDemo]: concrete runs.
    - [Conf] models libogc/conf.c, the console's settings: lookup, reading and
      writing of items in the image of SYSCONF, decryption of setting.txt and the
      search of its lines. [ConfProofs]: the image as a list of typed entries,
      the text as a list of lines; [ConfDemo]: concrete images.
    - [DspDev] models the registers of the signal processor and the part of
      libogc/dsp.c that only touches them, [Dsp] its task scheduler. [DspProofs]:
      the doubly linked task list, and an abstract scheduler on a list sorted by
      priority; [DspTheorems]: every history refines it; [DspDemo]: concrete runs.
    - [Aram] models libogc/aram.c, the auxiliary memory behind the same registers:
      transfers, the search for its size, and a stack of blocks. [AramProofs]: the
      theorems; [AramDemo]: concrete memories.
    - The optical drive, libogc/dvd.c. [DvdPatch]: the code for four models of the
      drive; [DvdState]: variables, command blocks, registers and the functions
      that only start a command; [Dvd]: the callbacks, the states they lead to,
      requests, interrupt, timeout, initialisation and the synchronous calls. The
      functions call each other in a circle, which is cut at one argument and
      closed by [exec] with a number of turns. [DvdSpec]: an abstract scheduler
      with four priorities, and events. [DvdProofs], [DvdInv], [DvdSafe],
      [DvdCircle]: the invariant, and that every callback keeps it and returns
      within its turns; [DvdTheorems]: the history is a run of the scheduler;
      [DvdFatal]: nothing is started after a fatal error; [DvdBus]: the commands on
      the bus; [DvdRead]: a read covers its buffer; [DvdUpload]: the patch arrives;
      [DvdDemo]: concrete drives.
    ** What the groups of theorems show

    - Invariants: [ksound] for the kernel, [heap_inv] for the heap, [fat_inv] for
      the card; each operation preserves its own, and the theorem on an operation
      also says what it does on every branch.
    - Refinement: queues, mailboxes, the task lists, the ARAM queue, the stack of
      ARAM blocks, the settings and the optical drive's four queues implement
      list-level specifications.
    - Safety of whole histories: [kernel_always_sound], [mutual_exclusion],
      [arq_serves_all], [exi_channel_exclusive], [exi_no_lost_wakeup],
      [dsp_refines_tasks], [dsp_tasks_take_turns], [dvd_refines_scheduler],
      [dvd_completes_once] and [dvd_fatal_is_final] are by induction on runs of a
      step relation or of a list of events.
    - Data: [immex_exchanges] and [transfer_covers_buffer] show that transfers
      move every byte of a buffer exactly once and in order, [dvd_read_covers] and
      [dvd_patch_uploads] the same of a read in parts and of the upload of code.
    - Termination: [kernel_progress], [KThreadUpdateDynamicPrio_ok] and the
      theorem on the timer interrupt show that loops end. No theorem is of
      the form "if it returns".
    - Recovery: [fat_update_atomic] and [dir_update_atomic] consider every way
      in which the write of a copy can be cut short.

    ** Fuel

    A loop of the source is a [Fixpoint] with fuel whose exhaustion is the fault
    [OutOfFuel]; the theorems conclude [Ok], so the fuel is enough in all states
    they speak of. Walks over the thread list and the wait queues have the
    number of threads plus one ([thr_fuel]), walks over the task list the number
    of tasks plus one ([task_fuel]), walks over blocks of the heap the number of
    words of memory plus one ([mem_fuel]), the search of the card driver one
    round over the table ([alloc_fuel]), the release of a chain the length of
    the table ([free_fuel]). The timer interrupt runs as long as tasks are due:
    its fuel is an argument, and the theorem gives the bound from the periods
    and the speed of the clock. The gcd has 130 steps, twice the bits of its
    arguments and more. A callback of the optical drive has three turns of
    the circle for every block there is, and eight more ([turns]).

    ** Parameters

    The values the time base returns are a sequence in the state. The callbacks
    of clients (tick tasks, ARAM requests, interrupt handlers) are arguments.
    The answers of the EXI driver to the card driver are an input list on which
    no theorem puts a condition. What the devices on the EXI bus answer is the
    class [ExiHw]; the theorems on transfers ask that a transfer ends within the
    number of polls the model allows for ([device_answers]), those on locking
    ask nothing of the devices. The attempts of a thread to lock a channel are
    bounded by an argument, since nothing in the code prevents that others are
    always faster. The files IOS holds are the class [IosFiles].
    What the signal processor delivers and what a transfer to the auxiliary memory
    does are the classes [DspHw] and [AramHw]; the theorems ask that the processor
    takes its mails and finishes transfers within the polls the model allows for,
    and that a transfer copies. What the optical drive's registers read is the class
    [DvdHw], on which the theorems about its scheduler ask nothing; those on a read
    and on the upload ask that the drive reports the end of each command. A client's
    callback issues at most one command, on the block it was called for.
    [malloc], [free] and the addresses of static
    objects are arguments of the functions that use them. Theorems whose
    hypotheses speak of parameters come with a witness at concrete ones.

    ** Not modelled

    - Calls of the kernel from interrupt handlers in [KSystem] (they are in the
      theorems on single operations), the thread switch callback, floating point
      context and newlib's reent structure.
    - Cache maintenance, the barriers around device registers and delays: they
      have no effect in a sequential memory.
    - Of dvd.c the bytes a DMA transfer writes (but for the disc's identity) and the
      write of the SRAM to its chip. [DVD_LowGetStatus], whose only caller is
      dvdio_IsInserted, is modelled but not among the events of the theorems: it
      replaces the callback of a command that is running.
    - Of card.c the unlock transfer through the signal processor, the reset hook
      and CARD_Probe; of timesupp.c what uses the real time clock.
    - The graphics, video, console and matrix code (tables, register
      programming, floating point); the Wii services that forward requests to
      the IOS coprocessor (ipc.c, ios.c, es.c, isfs.c, usb.c and others), whose
      behaviour is that of another processor; the network and input drivers; and the vendored libraries (libmad, libmodplay, lwip, lwbt,
      libdb's uIP and others).

    The theorems that state a property of the code name their claim id; the
    lemmas that show where the code departs from its interface are concrete
    runs of the same definitions. *)

From stdpp Require Import base gmap list fin_maps strings.
From Stdlib Require Import ZArith Lia.

Open Scope Z_scope.

(** ** Machine integers *)

(** The value of a [w]-bit unsigned object after storing [x]. *)
Definition wrap (w x : Z) : Z := x mod 2 ^ w.

Abbreviation u8 := (wrap 8).
Abbreviation u16 := (wrap 16).
Abbreviation u32 := (wrap 32).
Abbreviation u64 := (wrap 64).

(** The value of a [w]-bit two's complement object after storing [x]. *)
Definition swrap (w x : Z) : Z :=
  let y := wrap w x in if y <? 2 ^ (w - 1) then y else y - 2 ^ w.

Abbreviation s8 := (swrap 8).
Abbreviation s16 := (swrap 16).
Abbreviation s32 := (swrap 32).
Abbreviation s64 := (swrap 64).

(** C's [NULL], [FALSE] and [TRUE]. *)
Definition NULL : Z := 0.
Definition C_FALSE : Z := 0.
Definition C_TRUE : Z := 1.

Definition b2z (b : bool) : Z := if b then 1 else 0.

(** ** Results and the state monad

    A computation of the modelled code either returns a value and a new state
    or stops with a fault: an access to memory that is not there, a loop of the
    source that never ends, or a fuel bound that was too small. *)

Inductive fault :=
| BadAccess    (* a load or store at an address that is not mapped *)
| Hang         (* an endless loop of the source, [for(;;);] *)
| OutOfFuel.   (* the bound given to a modelled loop was reached *)

Inductive res (A : Type) :=
| Ok (a : A)
| Fault (f : fault).
Arguments Ok {A} a.
Arguments Fault {A} f.

Definition M (S A : Type) : Type := S -> res (A * S).

Definition ret {S A} (a : A) : M S A := fun s => Ok (a, s).
Definition bind {S A B} (c : M S A) (k : A -> M S B) : M S B :=
  fun s => match c s with
           | Ok (a, s') => k a s'
           | Fault f => Fault f
           end.
Definition fail {S A} (f : fault) : M S A := fun _ => Fault f.
Definition get {S} : M S S := fun s => Ok (s, s).
Definition gets {S A} (f : S -> A) : M S A := fun s => Ok (f s, s).
Definition put {S} (s : S) : M S unit := fun _ => Ok (tt, s).
Definition modify {S} (f : S -> S) : M S unit := fun s => Ok (tt, f s).
Definition when {S} (b : bool) (c : M S unit) : M S unit :=
  if b then c else ret tt.
(** A partial read of the state: faults where the projection has no value. *)
Definition getopt {S A} (f : S -> option A) : M S A :=
  fun s => match f s with Some a => Ok (a, s) | None => Fault BadAccess end.

Declare Scope c_scope.
Delimit Scope c_scope with c.
Notation "c ;; k" := (bind c (fun _ => k)) (at level 100, right associativity) : c_scope.
Notation "x <- c ; k" := (bind c (fun x => k)) (c at next level, at level 100, right associativity) : c_scope.
Open Scope c_scope.

(** ** Weakest preconditions (total correctness)

    [wp c Q s]: started in [s], [c] returns, and the value and the final state
    satisfy [Q]. A faulting run satisfies no [wp]. *)

Definition wp {S A} (c : M S A) (Q : A -> S -> Prop) (s : S) : Prop :=
  match c s with Ok (a, s') => Q a s' | Fault _ => False end.

#[global] Arguments wp {S A} _ _ _ : simpl never.
#[global] Arguments bind {S A B} _ _ _ : simpl never.

Section WpRules.
Context {S : Type}.
Implicit Types s : S.

Lemma wp_ret {A} (a : A) Q s : Q a s -> wp (ret a) Q s.
Proof. done. Qed.

Lemma wp_bind {A B} (c : M S A) (k : A -> M S B) Q s :
  wp c (fun a s' => wp (k a) Q s') s -> wp (bind c k) Q s.
Proof. unfold wp, bind. by destruct (c s) as [[a s']|]. Qed.

(** Reassociation: the first three steps of a sequence as one computation. *)
Lemma wp_assoc {A B C D E} (a : M S A) (b : M S B) (c : M S C) (d : C -> M S D) (k : D -> M S E) Q s :
  wp (bind (bind a (fun _ => bind b (fun _ => bind c d))) k) Q s ->
  wp (bind a (fun _ => bind b (fun _ => bind c (fun z => bind (d z) k)))) Q s.
Proof.
  unfold wp, bind. destruct (a s) as [[? s1]|]; [|done]. destruct (b s1) as [[? s2]|]; [|done].
  by destruct (c s2) as [[? s3]|].
Qed.

Lemma wp_assoc2 {A B C} (a : M S A) (b : M S B) (k : B -> M S C) Q s :
  wp (bind (bind a (fun _ => b)) k) Q s -> wp (bind a (fun _ => bind b k)) Q s.
Proof. unfold wp, bind. by destruct (a s) as [[? s1]|]. Qed.

Lemma wp_assoc3 {A B C D} (a : M S A) (b : M S B) (c : M S C) (k : C -> M S D) Q s :
  wp (bind (bind a (fun _ => bind b (fun _ => c))) k) Q s ->
  wp (bind a (fun _ => bind b (fun _ => bind c k))) Q s.
Proof.
  unfold wp, bind. destruct (a s) as [[? s1]|]; [|done]. by destruct (b s1) as [[? s2]|].
Qed.

Lemma wp_get Q s : Q s s -> wp get Q s.
Proof. done. Qed.

Lemma wp_gets {A} (f : S -> A) Q s : Q (f s) s -> wp (gets f) Q s.
Proof. done. Qed.

Lemma wp_put s' Q s : Q tt s' -> wp (put s') Q s.
Proof. done. Qed.

Lemma wp_modify f Q s : Q tt (f s) -> wp (modify f) Q s.
Proof. done. Qed.

Lemma wp_getopt {A} (f : S -> option A) a Q s :
  f s = Some a -> Q a s -> wp (getopt f) Q s.
Proof. unfold wp, getopt. by intros ->. Qed.

Lemma wp_when b c Q s :
  (b = true -> wp c Q s) -> (b = false -> Q tt s) -> wp (when b c) Q s.
Proof. destruct b; naive_solver. Qed.

Lemma wp_mono {A} (c : M S A) (Q Q' : A -> S -> Prop) s :
  wp c Q s -> (forall a s', Q a s' -> Q' a s') -> wp c Q' s.
Proof. unfold wp. destruct (c s) as [[a s']|]; auto. Qed.

Lemma wp_conj {A} (c : M S A) (Q Q' : A -> S -> Prop) s :
  wp c Q s -> wp c Q' s -> wp c (fun a s' => Q a s' /\ Q' a s') s.
Proof. unfold wp. destruct (c s) as [[a s']|]; auto. Qed.

Lemma wp_run {A} (c : M S A) Q s :
  wp c Q s <-> exists a s', c s = Ok (a, s') /\ Q a s'.
Proof.
  unfold wp. destruct (c s) as [[a s']|] eqn:E; naive_solver.
Qed.
End WpRules.

(** ** Function update *)

Definition fupd {A B} `{EqDecision A} (f : A -> B) (a : A) (v : B) : A -> B :=
  fun x => if decide (x = a) then v else f x.

Section Fupd.
Context {A B : Type} `{EqDecision A}.
Implicit Types f : A -> B.

Lemma fupd_eq f a v : fupd f a v a = v.
Proof. unfold fupd. by rewrite decide_True. Qed.
Lemma fupd_ne f a v x : x <> a -> fupd f a v x = f x.
Proof. intros. unfold fupd. by rewrite decide_False. Qed.
End Fupd.

#[global] Arguments fupd : simpl never.

(** ** Integer lemmas shared by the components *)

Lemma wrap_small w x : 0 <= x < 2 ^ w -> wrap w x = x.
Proof. apply Z.mod_small. Qed.

Lemma wrap_range w x : 0 <= w -> 0 <= wrap w x < 2 ^ w.
Proof. intros. apply Z.mod_pos_bound. lia. Qed.

Lemma wrap_wrap w x : 0 <= w -> wrap w (wrap w x) = wrap w x.
Proof. intros. apply Z.mod_mod. lia. Qed.

Lemma swrap_small w x : 0 < w -> - 2 ^ (w - 1) <= x < 2 ^ (w - 1) -> swrap w x = x.
Proof.
  intros Hw Hx. unfold swrap, wrap.
  assert (H2 : 2 ^ w = 2 * 2 ^ (w - 1)) by (rewrite <- Z.pow_succ_r by lia; f_equal; lia).
  destruct (Z.ltb_spec (x mod 2 ^ w) (2 ^ (w - 1))) as [H|H];
    destruct (Z_lt_le_dec x 0) as [Hn|Hn].
  - rewrite <- (Z.mod_add x 1) in H by lia. rewrite Z.mod_small in H by lia. lia.
  - apply Z.mod_small. lia.
  - rewrite <- (Z.mod_add x 1) by lia. rewrite Z.mod_small by lia. lia.
  - rewrite Z.mod_small in H by lia. lia.
Qed.

(** The low bit as a flag beside a multiple of four. *)
Lemma land_1_mod x : Z.land x 1 = x mod 2.
Proof. exact (Z.land_ones x 1 ltac:(lia)). Qed.

Lemma ldiff_land x y : Z.ldiff x y + Z.land x y = x.
Proof.
  rewrite Z.add_nocarry_lxor.
  - apply Z.bits_inj'. intros n Hn. rewrite Z.lxor_spec, Z.ldiff_spec, Z.land_spec.
    destruct (Z.testbit x n), (Z.testbit y n); done.
  - apply Z.bits_inj'. intros n Hn.
    rewrite Z.land_spec, Z.ldiff_spec, Z.land_spec, Z.bits_0.
    destruct (Z.testbit x n), (Z.testbit y n); done.
Qed.

Lemma ldiff_1 x : Z.ldiff x 1 = x - x mod 2.
Proof. rewrite <- land_1_mod. pose proof (ldiff_land x 1). lia. Qed.

Lemma land_upper x y : 0 <= y -> 0 <= Z.land x y <= y.
Proof.
  intros Hy. split; [apply Z.land_nonneg; auto|].
  pose proof (ldiff_land y x). rewrite Z.land_comm.
  assert (0 <= Z.ldiff y x) by (apply Z.ldiff_nonneg; auto). lia.
Qed.

Lemma land_mod4 x y : x mod 4 = 0 -> Z.land x y mod 4 = 0.
Proof.
  change 4 with (2 ^ 2). rewrite <- !(Z.land_ones _ 2) by lia. intros Hx.
  rewrite <- Z.land_assoc, (Z.land_comm y), Z.land_assoc, Hx. apply Z.land_0_l.
Qed.

Lemma lor_1_even x : x mod 2 = 0 -> Z.lor x 1 = x + 1.
Proof.
  intros H. rewrite <- land_1_mod in H. pose proof (Z.add_lor_land x 1). lia.
Qed.
