(* ===== verification/Chain.v ===== *)
(** * Word memory and intrusive doubly linked chains

    The 32-bit word memory the queue and heap models run on, and the theory of
    doubly linked chains whose [next] word lies [on] bytes and whose [prev] word
    lies [on + 4] bytes into a node. Both the request queues (offset 0,
    [lwp_node]) and the free list of the heap (offset 8, [heap_block]) are such
    chains, closed by a pair of sentinels that overlap in the control structure. *)

From stdpp Require Import base gmap list fin_maps.
From Stdlib Require Import ZArith Lia.
From S2P Require Import Prelude.

Open Scope Z_scope.

(** ** Word memory *)

Abbreviation mem := (gmap Z Z).

(** A load of the word at address [a]. *)
Definition load (a : Z) : M mem Z := getopt (fun m => m !! a).
(** A store: faults where no word is mapped. *)
Definition store (a v : Z) : M mem unit :=
  fun m => match m !! a with
           | Some _ => Ok (tt, <[a := v]> m)
           | None => Fault BadAccess
           end.

(** [n] zeroed words from address [a] on. *)
Fixpoint zero_words (n : nat) (a : Z) : mem :=
  match n with O => ∅ | S n' => <[a := 0]> (zero_words n' (a + 4)) end.

Lemma wp_load a v Q m : m !! a = Some v -> Q v m -> wp (load a) Q m.
Proof. apply wp_getopt. Qed.

Lemma wp_store a v Q (m : mem) :
  is_Some (m !! a) -> Q tt (<[a := v]> m) -> wp (store a v) Q m.
Proof. unfold wp, store. by intros [x ->]. Qed.

(** Agreement of two memories on the addresses a predicate selects. *)
Definition agree (P : Z -> Prop) (m m' : mem) : Prop :=
  forall a, P a -> m' !! a = m !! a.

(** ** Chains *)

Create HintDb chain.

Section Chain.
Context (on : Z).

(** [links m N]: every two neighbours of the node list [N] point at each
    other through the [next] and [prev] words. *)
Fixpoint links (m : mem) (N : list Z) : Prop :=
  match N with
  | a :: ((b :: _) as r) =>
      m !! (a + on) = Some b /\ m !! (b + on + 4) = Some a /\ links m r
  | _ => True
  end.

(** The words that hold the links of [N]: the [next] word of every node but
    the last and the [prev] word of every node but the first. *)
Definition link_word (N : list Z) (w : Z) : Prop :=
  (exists a, a ∈ removelast N /\ w = a + on) \/
  (exists b, b ∈ tail N /\ w = b + on + 4).

(** No two of those words coincide. *)
Definition chain_wf (N : list Z) : Prop :=
  NoDup N /\
  forall a b, a ∈ removelast N -> b ∈ tail N -> a <> b + 4.

Lemma links_cons2 m a b N :
  links m (a :: b :: N) <->
  m !! (a + on) = Some b /\ m !! (b + on + 4) = Some a /\ links m (b :: N).
Proof. done. Qed.

Lemma links_app m N1 a N2 :
  links m (N1 ++ a :: N2) <-> links m (N1 ++ [a]) /\ links m (a :: N2).
Proof.
  induction N1 as [|x [|y N1] IH]; simpl in *; [naive_solver..|].
  rewrite IH. naive_solver.
Qed.

Lemma removelast_mid N1 (a b : Z) N2 :
  removelast (N1 ++ a :: b :: N2) = N1 ++ a :: removelast (b :: N2).
Proof. by rewrite removelast_app. Qed.

Lemma elem_of_removelast (x : Z) N : x ∈ removelast N -> x ∈ N.
Proof.
  induction N as [|y [|z N] IH]; simpl; [set_solver..|].
  rewrite !elem_of_cons. rewrite elem_of_cons in IH. naive_solver.
Qed.

Lemma elem_of_tail (x : Z) N : x ∈ tail N -> x ∈ N.
Proof. destruct N; set_solver. Qed.

Lemma links_frame m m' N :
  agree (link_word N) m m' -> links m N -> links m' N.
Proof.
  induction N as [|a [|b N] IH]; [done..|].
  intros Hag (H1 & H2 & H3). split_and!.
  - rewrite Hag; [done|]. left. exists a. split; [by left|done].
  - rewrite Hag; [done|]. right. exists b. split; [by left|lia].
  - apply IH; [|done]. intros w [(x & Hx & ->)|(x & Hx & ->)]; apply Hag.
    + left. exists x. split; [by right|done].
    + right. exists x. split; [by right|lia].
Qed.

(** A store outside the link words keeps the chain. *)
Lemma links_insert_other m N w v :
  ~ link_word N w -> links m N -> links (<[w := v]> m) N.
Proof.
  intros Hw. apply links_frame. intros x Hx.
  rewrite lookup_insert_ne; [done|]. by intros ->.
Qed.

Lemma links_next m N1 a b N2 :
  links m (N1 ++ a :: b :: N2) ->
  m !! (a + on) = Some b /\ m !! (b + on + 4) = Some a.
Proof. rewrite links_app. simpl. naive_solver. Qed.

(** [NoDup] facts of a split list, in the form the word arguments need. *)
Lemma NoDup_split3 N1 (a b : Z) N2 :
  NoDup (N1 ++ a :: b :: N2) ->
  a ∉ N1 /\ b ∉ N1 /\ a <> b /\ a ∉ N2 /\ b ∉ N2 /\
  NoDup (N1 ++ [a]) /\ NoDup (b :: N2) /\ (forall x, x ∈ N1 -> x ∉ N2).
Proof.
  rewrite NoDup_app, !NoDup_cons. intros (H1 & H2 & H3 & H4 & H5).
  setoid_rewrite elem_of_cons in H2. setoid_rewrite elem_of_cons in H2.
  rewrite elem_of_cons in H3. split_and!; try set_solver.
  apply NoDup_app. split_and!; [done|set_solver|]. apply NoDup_singleton.
Qed.

Lemma elem_of_tail_mid N1 (a x : Z) N2 :
  x ∈ tail (N1 ++ [a]) \/ x ∈ N2 -> x ∈ tail (N1 ++ a :: N2).
Proof. destruct N1; set_solver. Qed.

(** In a well-formed chain the link words left of the pair [a, b] meet
    neither the words of the pair nor those to the right, and conversely. *)
Lemma left_words N1 a b N2 w :
  chain_wf (N1 ++ a :: b :: N2) -> link_word (N1 ++ [a]) w ->
  w <> a + on /\ w <> b + on + 4 /\
  (forall x, x ∈ N2 -> w <> x + on + 4) /\
  (forall x, x ∈ removelast (b :: N2) -> w <> x + on).
Proof.
  intros [Hnd Hsep]. rewrite removelast_mid in Hsep.
  apply NoDup_split3 in Hnd as (Ha1 & Hb1 & Hab & Ha2 & Hb2 & Hn1 & Hn2 & Hd).
  intros [(x & Hx & ->)|(x & Hx & ->)].
  - rewrite removelast_last in Hx. split_and!.
    + intros ?. assert (x = a) by lia. set_solver.
    + intros ?. eapply (Hsep x b); [set_solver|apply elem_of_tail_mid; set_solver|lia].
    + intros y Hy ?. eapply (Hsep x y); [set_solver|apply elem_of_tail_mid; set_solver|lia].
    + intros y Hy ?. apply elem_of_removelast in Hy. assert (x = y) by lia. set_solver.
  - pose proof (elem_of_tail _ _ Hx) as Hx'. split_and!.
    + intros ?. eapply (Hsep a x); [set_solver|apply elem_of_tail_mid; by left|lia].
    + intros ?. assert (x = b) by lia. set_solver.
    + intros y Hy ?. assert (x = y) by lia. set_solver.
    + intros y Hy ?. eapply (Hsep y x); [set_solver|apply elem_of_tail_mid; by left|lia].
Qed.

Lemma right_words N1 a b N2 w :
  chain_wf (N1 ++ a :: b :: N2) -> link_word (b :: N2) w ->
  w <> a + on /\ w <> b + on + 4 /\
  (forall x, x ∈ N1 -> w <> x + on) /\
  (forall x, x ∈ tail (N1 ++ [a]) -> w <> x + on + 4).
Proof.
  intros [Hnd Hsep]. rewrite removelast_mid in Hsep.
  apply NoDup_split3 in Hnd as (Ha1 & Hb1 & Hab & Ha2 & Hb2 & Hn1 & Hn2 & Hd).
  intros [(x & Hx & ->)|(x & Hx & ->)].
  - pose proof (elem_of_removelast _ _ Hx) as Hx'. split_and!.
    + intros ?. assert (x = a) by lia. set_solver.
    + intros ?. eapply (Hsep x b); [set_solver|apply elem_of_tail_mid; set_solver|lia].
    + intros y Hy ?. assert (x = y) by lia. set_solver.
    + intros y Hy ?. eapply (Hsep x y); [set_solver|apply elem_of_tail_mid; by left|lia].
  - simpl in Hx. split_and!.
    + intros ?. eapply (Hsep a x); [set_solver|apply elem_of_tail_mid; set_solver|lia].
    + intros ?. assert (x = b) by lia. set_solver.
    + intros y Hy ?. eapply (Hsep y x); [set_solver|apply elem_of_tail_mid; set_solver|lia].
    + intros y Hy ?. apply elem_of_tail in Hy. assert (x = y) by lia. set_solver.
Qed.

Lemma link_word_left N1 a N2 w : link_word (N1 ++ [a]) w -> link_word (N1 ++ a :: N2) w.
Proof.
  intros [(x & Hx & ->)|(x & Hx & ->)]; [left|right]; exists x; split; try done.
  - rewrite removelast_last in Hx. destruct N2; [by rewrite removelast_last|].
    rewrite removelast_mid. set_solver.
  - apply elem_of_tail_mid. by left.
Qed.

Lemma link_word_right N1 a b N2 w :
  link_word (b :: N2) w -> link_word (N1 ++ a :: b :: N2) w.
Proof.
  intros [(x & Hx & ->)|(x & Hx & ->)]; [left|right]; exists x; split; try done.
  - rewrite removelast_mid. set_solver.
  - apply elem_of_tail_mid. right. set_solver.
Qed.

Lemma chain_wf_triple N1 a x b N2 :
  chain_wf (N1 ++ a :: x :: b :: N2) ->
  a <> x /\ b <> x /\ a <> b + 4 /\ x <> b + 4 /\ a <> x + 4.
Proof.
  intros [Hnd Hsep].
  apply NoDup_split3 in Hnd as (_ & _ & Hax & _ & Hxb & _).
  assert (Ha : a ∈ removelast (N1 ++ a :: x :: b :: N2)).
  { rewrite removelast_mid. apply elem_of_app. right. by left. }
  assert (Hx : x ∈ removelast (N1 ++ a :: x :: b :: N2)).
  { rewrite removelast_mid. apply elem_of_app. right. right. by left. }
  assert (Hxt : x ∈ tail (N1 ++ a :: x :: b :: N2)).
  { apply elem_of_tail_mid. right. by left. }
  assert (Hbt : b ∈ tail (N1 ++ a :: x :: b :: N2)).
  { apply elem_of_tail_mid. right. right. by left. }
  split_and!; auto. intros ->. apply Hxb. by left.
Qed.

(** Relinking: a memory in which [a] and [b] point at each other and that
    keeps the words of [N1 ++ [a]] and of [b :: N2] holds the joined chain. *)
Lemma links_join m m' N1 a b N2 :
  chain_wf (N1 ++ a :: b :: N2) ->
  links m (N1 ++ [a]) -> links m (b :: N2) ->
  m' !! (a + on) = Some b -> m' !! (b + on + 4) = Some a ->
  agree (fun w => link_word (N1 ++ [a]) w \/ link_word (b :: N2) w) m m' ->
  links m' (N1 ++ a :: b :: N2).
Proof.
  intros Hwf H1 H2 Ha Hb Hag. rewrite links_app, links_cons2. split_and!; [|done..|].
  - apply links_frame with m; [|done]. intros w Hw. apply Hag; auto.
  - apply links_frame with m; [|done]. intros w Hw. apply Hag; auto.
Qed.

Lemma removelast_sub N1 (a x b : Z) N2 y :
  y ∈ removelast (N1 ++ a :: b :: N2) -> y ∈ removelast (N1 ++ a :: x :: b :: N2).
Proof. rewrite !removelast_mid. simpl. set_solver. Qed.

Lemma tail_sub N1 (a x b : Z) N2 y :
  y ∈ tail (N1 ++ a :: b :: N2) -> y ∈ tail (N1 ++ a :: x :: b :: N2).
Proof. destruct N1; set_solver. Qed.

(** Dropping a node keeps the link words apart. *)
Lemma chain_wf_drop N1 a x b N2 :
  chain_wf (N1 ++ a :: x :: b :: N2) -> chain_wf (N1 ++ a :: b :: N2).
Proof.
  intros [Hnd Hsep]. split.
  - revert Hnd. rewrite !NoDup_app, !NoDup_cons. set_solver.
  - intros c d Hc Hd. apply Hsep; [by apply removelast_sub|by apply tail_sub].
Qed.

(** Extraction of [x]: its neighbours are linked to each other, every other
    word is kept. *)
Lemma links_extract m m' N1 a x b N2 :
  chain_wf (N1 ++ a :: x :: b :: N2) ->
  links m (N1 ++ a :: x :: b :: N2) ->
  m' !! (a + on) = Some b -> m' !! (b + on + 4) = Some a ->
  (forall w, w <> a + on -> w <> b + on + 4 ->
     link_word (N1 ++ a :: x :: b :: N2) w -> m' !! w = m !! w) ->
  links m' (N1 ++ a :: b :: N2).
Proof.
  intros Hwf Hl Ha Hb Hag. apply chain_wf_drop in Hwf as Hwf'.
  rewrite links_app, !links_cons2 in Hl. destruct Hl as (H1 & _ & _ & _ & _ & H2).
  apply links_join with m; try done. intros w [Hw|Hw].
  - pose proof Hw as Hw'. eapply left_words in Hw as (?&?&_); [|done].
    apply Hag; try done. by apply link_word_left.
  - pose proof Hw as Hw'. eapply right_words in Hw as (?&?&_); [|done].
    apply Hag; try done. rewrite cons_middle, app_assoc. by apply link_word_right.
Qed.

(** A node [n] between [a] and [b], whatever stood there before. *)
Lemma links_place m m' N1 a n b N2 :
  chain_wf (N1 ++ a :: n :: b :: N2) ->
  links m (N1 ++ [a]) -> links m (b :: N2) ->
  m' !! (a + on) = Some n -> m' !! (n + on + 4) = Some a ->
  m' !! (n + on) = Some b -> m' !! (b + on + 4) = Some n ->
  (forall w, w <> a + on -> w <> n + on + 4 -> w <> n + on -> w <> b + on + 4 ->
     link_word (N1 ++ [a]) w \/ link_word (b :: N2) w -> m' !! w = m !! w) ->
  links m' (N1 ++ a :: n :: b :: N2).
Proof.
  intros Hwf Hl1 Hl2 H1 H2 H3 H4 Hag. rewrite links_app, !links_cons2.
  split_and!; try done; apply links_frame with m; try done; intros w Hw.
  - pose proof Hw as Hw'. eapply left_words in Hw as (?&?&Hr&Hr'); [|done].
    apply Hag; [done..|apply Hr'; by left|apply Hr; by left|by left].
  - pose proof Hw as Hw'.
    change (N1 ++ a :: n :: b :: N2) with (N1 ++ [a] ++ n :: b :: N2) in Hwf.
    rewrite app_assoc in Hwf.
    eapply right_words in Hw as (?&?&Hr&Hr'); [|done].
    apply Hag; [apply Hr|apply Hr'|..]; try done; [destruct N1; set_solver..|by right].
Qed.

(** Insertion of [n] between the neighbours [a] and [b]. *)
Lemma links_insert m m' N1 a n b N2 :
  chain_wf (N1 ++ a :: n :: b :: N2) ->
  links m (N1 ++ a :: b :: N2) ->
  m' !! (a + on) = Some n -> m' !! (n + on + 4) = Some a ->
  m' !! (n + on) = Some b -> m' !! (b + on + 4) = Some n ->
  (forall w, w <> a + on -> w <> n + on + 4 -> w <> n + on -> w <> b + on + 4 ->
     m' !! w = m !! w) ->
  links m' (N1 ++ a :: n :: b :: N2).
Proof.
  intros Hwf Hl H1 H2 H3 H4 Hag. rewrite links_app, links_cons2 in Hl.
  destruct Hl as (Hl1 & _ & _ & Hl2). apply links_place with m; auto.
Qed.

(** Adding a node whose words overlap none of the chain keeps the words apart. *)
Lemma chain_wf_add N1 a n b N2 :
  chain_wf (N1 ++ a :: b :: N2) ->
  (forall x, x ∈ N1 ++ a :: b :: N2 -> n <> x /\ n <> x + 4 /\ n + 4 <> x) ->
  chain_wf (N1 ++ a :: n :: b :: N2).
Proof.
  intros [Hnd Hsep] Hn. split.
  - assert (n ∉ N1 ++ a :: b :: N2) by (intros Hin; by destruct (Hn n Hin)).
    revert Hnd. rewrite !NoDup_app, !NoDup_cons. set_solver.
  - intros c d Hc Hd.
    assert (Hc' : c = n \/ c ∈ removelast (N1 ++ a :: b :: N2)).
    { revert Hc. rewrite !removelast_mid. simpl. set_solver. }
    assert (Hd' : d = n \/ d ∈ tail (N1 ++ a :: b :: N2)).
    { revert Hd. destruct N1; set_solver. }
    destruct Hc' as [->|Hc'], Hd' as [->|Hd']; [lia|..].
    + apply elem_of_tail in Hd'. apply Hn in Hd'. lia.
    + apply elem_of_removelast in Hc'. apply Hn in Hc'. lia.
    + by apply Hsep.
Qed.

Lemma link_word_drop N1 a x b N2 w :
  link_word (N1 ++ a :: b :: N2) w -> link_word (N1 ++ a :: x :: b :: N2) w.
Proof.
  intros [(y & Hy & ->)|(y & Hy & ->)]; [left|right]; exists y; split; auto.
  - by apply removelast_sub.
  - by apply tail_sub.
Qed.

Lemma link_word_add N1 a n b N2 w :
  link_word (N1 ++ a :: n :: b :: N2) w ->
  link_word (N1 ++ a :: b :: N2) w \/ w = n + on \/ w = n + on + 4.
Proof.
  intros [(y & Hy & ->)|(y & Hy & ->)].
  - rewrite removelast_mid in Hy. change (removelast (n :: b :: N2))
      with (n :: removelast (b :: N2)) in Hy.
    destruct (decide (y = n)) as [->|]; [auto|]. left; left. exists y.
    rewrite removelast_mid. set_solver.
  - destruct (decide (y = n)) as [->|]; [auto|]. left; right. exists y.
    split; [|done]. destruct N1; set_solver.
Qed.

(** The words two neighbours write when they are relinked are link words. *)
Lemma link_word_next N1 a b N2 : link_word (N1 ++ a :: b :: N2) (a + on).
Proof. left. exists a. rewrite removelast_mid. set_solver. Qed.

Lemma link_word_prev N1 a b N2 : link_word (N1 ++ a :: b :: N2) (b + on + 4).
Proof. right. exists b. destruct N1; set_solver. Qed.

Lemma link_word_next2 N1 a n b N2 : link_word (N1 ++ a :: n :: b :: N2) (n + on).
Proof. left. exists n. rewrite removelast_mid. simpl. set_solver. Qed.

Lemma link_word_prev2 N1 a n b N2 : link_word (N1 ++ a :: n :: b :: N2) (b + on + 4).
Proof. right. exists b. destruct N1; set_solver. Qed.

(** Every link word of a linked chain is mapped. *)
Lemma links_mapped m N w : links m N -> link_word N w -> is_Some (m !! w).
Proof.
  induction N as [|a [|b N] IH]; [intros _ [(?&?&_)|(?&?&_)]; set_solver..|].
  rewrite links_cons2. intros (H1 & H2 & H3).
  intros [(x & Hx & ->)|(x & Hx & ->)].
  - change (x ∈ a :: removelast (b :: N)) in Hx.
    apply elem_of_cons in Hx as [->|Hx]; [eauto|]. apply IH; [done|]. left; eauto.
  - simpl in Hx. apply elem_of_cons in Hx as [->|Hx]; [eauto|].
    apply IH; [done|]. right; eauto.
Qed.
End Chain.

#[export] Hint Resolve link_word_next link_word_prev link_word_next2 link_word_prev2 : chain.

(** ** Automation

    [mem_lookup] evaluates lookups in a memory that is a tower of stores, the
    addresses being compared by [lia]; [mem_run] runs a straight line of loads
    and stores, leaving the lookups it cannot see to the caller. *)

Ltac mem_lookup :=
  repeat match goal with
  | |- context [ <[?a := ?v]> ?m !! ?b ] =>
      first
        [ rewrite (lookup_insert_ne m a b v) by lia
        | replace b with a by lia; rewrite (lookup_insert_eq m a v) ]
  end.

Lemma mapped_insert (m : mem) a v b :
  is_Some (m !! b) -> is_Some (<[a := v]> m !! b).
Proof. rewrite lookup_insert. case_decide; eauto. Qed.

Create HintDb mem discriminated.
#[export] Hint Resolve mapped_insert : mem.

Ltac mem_step :=
  match goal with
  | |- wp (bind _ _) _ _ => apply wp_bind
  | |- wp (load _) _ _ => eapply wp_load; [mem_lookup; first [eassumption|reflexivity]|cbv beta]
  | |- wp (store _ _) _ _ =>
      apply wp_store; [repeat apply mapped_insert; solve [eauto] |cbv beta]
  | |- wp (ret _) _ _ => apply wp_ret
  end.
Ltac mem_run := repeat mem_step.
