(* ===== verification/Devices.v ===== *)
(** * Device registers and the state of drivers

    The data of the interrupt controller (tuxedo/interrupt.c) and of the EXI bus
    driver (libogc/exi.c); the kernel state carries them, so that driver code can
    block and wake threads. The operations are in [Irq] and [Exi]. *)

From stdpp Require Import base gmap list.
From Stdlib Require Import ZArith Lia.
From S2P Require Import Prelude.

Open Scope Z_scope.

(** ** The interrupt controller *)

(** The registers: [HWREG_PI[0]], [HWREG_PI[1]], [HWREG_MI[14]], [HWREG_MI[15]],
    [HWREG_DSP[5]], [HWREG_AI[0]], [HWREG_EXI[0]], [HWREG_EXI[5]],
    [HWREG_EXI[10]]. *)
Record irqregs := mk_regs
  { pi0 : Z; pi1 : Z; mi14 : Z; mi15 : Z; dsp5 : Z; ai0 : Z; exi0 : Z; exi5 : Z; exi10 : Z }.

(** [s_irqCookies]: handler and its argument, by source. *)
Record irqst := mk_irqst { ir_regs : irqregs; ir_fn : Z -> Z; ir_user : Z -> Z }.

(** ** The EXI bus *)

(** [struct _exibus_priv] without [lckd_dev], which is a queue in memory. *)
Record exibus := mk_bus {
  CallbackEXI : Z; CallbackTC : Z; CallbackEXT : Z;
  imm_len : Z; imm_buff : Z; lockeddev : Z; flags : Z; exi_id : Z; exi_idtime : Z }.

(** An access to one of the transfer registers, [_exiReg[r]] for an [r] that is
    not a multiple of five. *)
Inductive regev := RdReg (r v : Z) | WrReg (r v : Z).

(** The variables of the driver: [eximap], [last_exi_idtime], the interrupt
    controller with the status registers of the channels, the accesses to the
    other registers so far, the bytes of the buffers of its clients, and the
    [exi_uart_*] variables. *)
Record exist := mk_exi {
  ex_map : Z -> exibus; ex_last : Z -> Z; ex_irq : irqst; ex_log : list regev; ex_ram : gmap Z Z;
  ex_uart_chan : Z; ex_uart_dev : Z; ex_uart_barnacle : Z; ex_uart_enabled : Z }.

Definition bus0 : exibus := mk_bus NULL NULL NULL 0 NULL 0 0 0 0.
Definition exi_boot : exist :=
  mk_exi (fun _ => bus0) (fun _ => 0) (mk_irqst (mk_regs 0 0 0 0 0 0 0 0 0) (fun _ => NULL) (fun _ => 0)) [] ∅ 0 0 0 0.
