(* ===== verification/LwpQueue.v ===== *)
(** * The intrusive queues of libogc ([lwp_queue.c], [lwp_queue.inl])

    A [lwp_queue] is three words, [first], [perm_null] and [last]. Read as a
    [lwp_node] at the queue's own address it is the head sentinel, read as a
    node four bytes further on it is the tail sentinel; the two overlap in
    [perm_null]. The model keeps that layout: operations are loads and stores of
    32-bit words. The interrupt brackets ([_CPU_ISR_Disable]/[Restore]) of the
    exported functions make each of them one atomic step. *)

From stdpp Require Import base gmap list fin_maps.
From Stdlib Require Import ZArith Lia.
From S2P Require Import Prelude Chain.

Open Scope Z_scope.

(** ** Layout *)

(** [struct _lwpnode]: addresses of the fields of the node at [n]. *)
Definition node_next (n : Z) : Z := n + 0.
Definition node_prev (n : Z) : Z := n + 0 + 4.

(** [struct _lwpqueue]: addresses of the fields of the queue at [q]. *)
Definition q_first (q : Z) : Z := q + 0.
Definition q_perm_null (q : Z) : Z := q + 4.
Definition q_last (q : Z) : Z := q + 4 + 0 + 4.

Definition lwp_queue_head (q : Z) : Z := q.
Definition lwp_queue_tail (q : Z) : Z := q + 4.

(** ** Operations *)

Definition lwp_queue_istail (q node : Z) : bool := node =? lwp_queue_tail q.
Definition lwp_queue_ishead (q node : Z) : bool := node =? lwp_queue_head q.

Definition lwp_queue_firstnodeI (q : Z) : M mem Z :=
  ret_ <- load (q_first q);
  new_first <- load (node_next ret_);
  store (q_first q) new_first ;;
  store (node_prev new_first) (lwp_queue_head q) ;;
  ret ret_.

Definition lwp_queue_init_empty (q : Z) : M mem unit :=
  store (q_first q) (lwp_queue_tail q) ;;
  store (q_perm_null q) NULL ;;
  store (q_last q) (lwp_queue_head q).

Definition lwp_queue_isempty (q : Z) : M mem bool :=
  first <- load (q_first q);
  ret (first =? lwp_queue_tail q).

Definition lwp_queue_onenode (q : Z) : M mem bool :=
  first <- load (q_first q);
  last <- load (q_last q);
  ret (first =? last).

Definition lwp_queue_appendI (q node : Z) : M mem unit :=
  store (node_next node) (lwp_queue_tail q) ;;
  old <- load (q_last q);
  store (q_last q) node ;;
  store (node_next old) node ;;
  store (node_prev node) old.

Definition lwp_queue_extractI (node : Z) : M mem unit :=
  next <- load (node_next node);
  prev <- load (node_prev node);
  store (node_prev next) prev ;;
  store (node_next prev) next.

Definition lwp_queue_insertI (after node : Z) : M mem unit :=
  store (node_prev node) after ;;
  before <- load (node_next after);
  store (node_next after) node ;;
  store (node_next node) before ;;
  store (node_prev before) node.

Definition lwp_queue_insert (after node : Z) : M mem unit :=
  lwp_queue_insertI after node.

Definition lwp_queue_prepend (q node : Z) : M mem unit :=
  lwp_queue_insert (lwp_queue_head q) node.

Definition lwp_queue_prependI (q node : Z) : M mem unit :=
  lwp_queue_insertI (lwp_queue_head q) node.

Definition lwp_queue_getI (q : Z) : M mem Z :=
  e <- lwp_queue_isempty q;
  if negb e then lwp_queue_firstnodeI q else ret NULL.

Definition lwp_queue_get (q : Z) : M mem Z :=
  e <- lwp_queue_isempty q;
  if negb e then lwp_queue_firstnodeI q else ret NULL.

Definition lwp_queue_append (q node : Z) : M mem unit := lwp_queue_appendI q node.
Definition lwp_queue_extract (node : Z) : M mem unit := lwp_queue_extractI node.

(** The loop [while(count--)] of the initialiser: [curr] is the last node
    linked, [next] the storage of the one after it. *)
Fixpoint lwp_queue_initialize_loop (count : nat) (curr next node_size : Z) : M mem Z :=
  match count with
  | O => ret curr
  | S count' =>
      store (node_next curr) next ;;
      store (node_prev next) curr ;;
      lwp_queue_initialize_loop count' next (next + node_size) node_size
  end.

Definition lwp_queue_initialize (q start_addr num_nodes node_size : Z) : M mem unit :=
  store (q_perm_null q) NULL ;;
  curr <- lwp_queue_initialize_loop (Z.to_nat num_nodes) (lwp_queue_head q)
            start_addr node_size;
  store (node_next curr) (lwp_queue_tail q) ;;
  store (q_last q) curr.

(** ** Representation *)

Definition nodes (q : Z) (L : list Z) : list Z :=
  lwp_queue_head q :: L ++ [lwp_queue_tail q].

(** Memory [m] holds at [q] a queue of the nodes [L], first to last. *)
Definition queue_repr (m : mem) (q : Z) (L : list Z) : Prop :=
  links 0 m (nodes q L) /\ chain_wf (nodes q L) /\
  m !! q_perm_null q = Some NULL /\ ~ link_word 0 (nodes q L) (q_perm_null q).

(** The words a queue of the nodes [L] occupies. *)
Definition footprint (q : Z) (L : list Z) (w : Z) : Prop :=
  link_word 0 (nodes q L) w \/ w = q_perm_null q.

(** [n] can join the queue: its two words are mapped and overlap no word of
    the queue. *)
Definition fresh_node (m : mem) (q : Z) (L : list Z) (n : Z) : Prop :=
  is_Some (m !! node_next n) /\ is_Some (m !! node_prev n) /\
  (forall x, x ∈ nodes q L -> n <> x /\ n <> x + 4 /\ n + 4 <> x).

(** ** Structure of the node list *)

Lemma nodes_split q L1 L2 : exists N1 a b N2,
  q :: L1 = N1 ++ [a] /\ L2 ++ [lwp_queue_tail q] = b :: N2 /\
  nodes q (L1 ++ L2) = N1 ++ a :: b :: N2 /\
  (forall n, nodes q (L1 ++ n :: L2) = N1 ++ a :: n :: b :: N2).
Proof.
  destruct (exists_last (l := q :: L1)) as (N1 & a & Ha); [done|].
  destruct (L2 ++ [lwp_queue_tail q]) as [|b N2] eqn:Hb; [by destruct L2|].
  exists N1, a, b, N2. unfold nodes, lwp_queue_head. split_and!; [done..| |].
  - rewrite <- app_assoc, app_comm_cons, Hb, Ha. by rewrite <- app_assoc.
  - intros n. rewrite <- app_assoc, app_comm_cons. simpl. rewrite Hb.
    rewrite app_comm_cons, Ha. by rewrite <- app_assoc.
Qed.

Section Proofs.
Implicit Types m : mem.

Lemma queue_repr_frame m m' q L :
  agree (footprint q L) m m' -> queue_repr m q L -> queue_repr m' q L.
Proof.
  intros Hag (Hl & Hwf & Hp & Hn). unfold queue_repr. split_and!; try done.
  - eapply links_frame; [|done]. intros w Hw. apply Hag. by left.
  - rewrite Hag; [done|by right].
Qed.

Lemma nodes_tail_elem q L : lwp_queue_tail q ∈ nodes q L.
Proof. unfold nodes. set_solver. Qed.
Lemma nodes_head_elem q L : lwp_queue_head q ∈ nodes q L.
Proof. unfold nodes. set_solver. Qed.

(** The memory after a node has been linked in represents the longer queue. *)
Lemma queue_repr_insert m m' q L1 L2 n N1 a b N2 :
  queue_repr m q (L1 ++ L2) -> fresh_node m q (L1 ++ L2) n ->
  nodes q (L1 ++ L2) = N1 ++ a :: b :: N2 ->
  (forall x, nodes q (L1 ++ x :: L2) = N1 ++ a :: x :: b :: N2) ->
  m' !! (a + 0) = Some n -> m' !! (n + 0 + 4) = Some a ->
  m' !! (n + 0) = Some b -> m' !! (b + 0 + 4) = Some n ->
  (forall w, w <> a + 0 -> w <> n + 0 + 4 -> w <> n + 0 -> w <> b + 0 + 4 ->
     m' !! w = m !! w) ->
  queue_repr m' q (L1 ++ n :: L2) /\
  agree (fun w => ~ footprint q (L1 ++ n :: L2) w) m m'.
Proof.
  intros (Hl & Hwf & Hp & Hnp) (Hm1 & Hm2 & Hf) HN HN' H1 H2 H3 H4 Hag.
  pose proof (Hf _ (nodes_tail_elem q _)) as Ht.
  pose proof (Hf _ (nodes_head_elem q _)) as Hh.
  unfold lwp_queue_tail, lwp_queue_head in Ht, Hh.
  assert (Hnp' : ~ link_word 0 (nodes q (L1 ++ n :: L2)) (q_perm_null q)).
  { rewrite HN'. intros [Hw| [Hw|Hw] ]%link_word_add; [by rewrite <- HN in Hw|..];
      unfold q_perm_null in Hw; lia. }
  rewrite HN in Hl, Hwf, Hnp, Hf.
  assert (Hwf' : chain_wf (N1 ++ a :: n :: b :: N2)) by by apply chain_wf_add.
  assert (Hlw : forall w, ~ link_word 0 (N1 ++ a :: n :: b :: N2) w -> m' !! w = m !! w).
  { intros w Hw. apply Hag; intros ->; apply Hw; auto with chain. }
  unfold queue_repr, agree, footprint. rewrite HN' in *. split_and!; [|done| |done|].
  - by apply (links_insert 0 m).
  - by rewrite Hlw.
  - intros w Hw. apply Hlw. tauto.
Qed.

Lemma insertI_spec m q L1 L2 after n :
  queue_repr m q (L1 ++ L2) -> fresh_node m q (L1 ++ L2) n ->
  last (q :: L1) = Some after ->
  wp (lwp_queue_insertI after n)
    (fun _ m' => queue_repr m' q (L1 ++ n :: L2) /\
                 agree (fun w => ~ footprint q (L1 ++ n :: L2) w) m m') m.
Proof.
  intros Hr Hf Hlast. pose proof Hr as (Hl & [Hnd Hsep] & _). pose proof Hf as ([x1 Hx1] & [x2 Hx2] & Hd).
  destruct (nodes_split q L1 L2) as (N1 & a & b & N2 & Ha & Hb & HN & HN').
  rewrite Ha, last_snoc in Hlast. injection Hlast as ->. rewrite HN in Hl, Hsep, Hd, Hnd.
  pose proof (links_next _ _ _ _ _ _ Hl) as [Hab Hba].
  assert (after <> b + 4).
  { apply Hsep; [rewrite removelast_mid; set_solver|apply elem_of_tail_mid; set_solver]. }
  assert (n <> after /\ n <> after + 4 /\ n + 4 <> after) as (?&?&?) by (apply Hd; set_solver).
  assert (n <> b /\ n <> b + 4 /\ n + 4 <> b) as (?&?&?) by (apply Hd; set_solver).
  unfold lwp_queue_insertI, node_next, node_prev in *. mem_run.
  eapply queue_repr_insert; try done; try (by mem_lookup).
  intros w ????. by mem_lookup.
Qed.

Lemma appendI_spec m q L n :
  queue_repr m q L -> fresh_node m q L n ->
  wp (lwp_queue_appendI q n)
    (fun _ m' => queue_repr m' q (L ++ [n]) /\
                 agree (fun w => ~ footprint q (L ++ [n]) w) m m') m.
Proof.
  intros Hr Hf. rewrite <- (app_nil_r L) in Hr, Hf.
  pose proof Hr as (Hl & [Hnd Hsep] & _). pose proof Hf as ([x1 Hx1] & [x2 Hx2] & Hd).
  destruct (nodes_split q L []) as (N1 & a & b & N2 & Ha & Hb & HN & HN').
  injection Hb as <- <-. rewrite HN in Hl, Hsep, Hd, Hnd.
  pose proof (links_next _ _ _ _ _ _ Hl) as [Hab Hba].
  assert (a <> lwp_queue_tail q + 4).
  { apply Hsep; [rewrite removelast_mid; set_solver|apply elem_of_tail_mid; set_solver]. }
  assert (n <> a /\ n <> a + 4 /\ n + 4 <> a) as (?&?&?) by (apply Hd; set_solver).
  assert (n <> lwp_queue_tail q /\ n <> lwp_queue_tail q + 4 /\ n + 4 <> lwp_queue_tail q)
    as (?&?&?) by (apply Hd; set_solver).
  unfold lwp_queue_appendI, node_next, node_prev, q_last, lwp_queue_tail in *. mem_run.
  eapply queue_repr_insert; try done; try (by mem_lookup).
  intros w ????. by mem_lookup.
Qed.

(** Unlinking one node, whichever operation does it. *)
Lemma queue_repr_extract m m' q L1 x L2 N1 a b N2 :
  queue_repr m q (L1 ++ x :: L2) ->
  nodes q (L1 ++ L2) = N1 ++ a :: b :: N2 ->
  nodes q (L1 ++ x :: L2) = N1 ++ a :: x :: b :: N2 ->
  m' !! (a + 0) = Some b -> m' !! (b + 0 + 4) = Some a ->
  (forall w, w <> a + 0 -> w <> b + 0 + 4 -> m' !! w = m !! w) ->
  queue_repr m' q (L1 ++ L2) /\ agree (fun w => ~ footprint q (L1 ++ L2) w) m m'.
Proof.
  intros (Hl & Hwf & Hp & Hnp) HN HN' H1 H2 Hag.
  rewrite HN' in Hl, Hwf, Hnp. unfold queue_repr, agree, footprint. rewrite HN.
  assert (Hnp' : ~ link_word 0 (N1 ++ a :: b :: N2) (q_perm_null q)).
  { intros Hw. apply Hnp. by apply link_word_drop. }
  assert (Hlw : forall w, ~ link_word 0 (N1 ++ a :: b :: N2) w -> m' !! w = m !! w).
  { intros w Hw. apply Hag; intros ->; apply Hw; auto with chain. }
  split_and!; [|by eapply chain_wf_drop| |done|].
  - apply (links_extract 0 m m' N1 a x); auto.
  - by rewrite Hlw.
  - intros w Hw. apply Hlw. tauto.
Qed.

Lemma extractI_spec m q L1 x L2 :
  queue_repr m q (L1 ++ x :: L2) ->
  wp (lwp_queue_extractI x)
    (fun _ m' => queue_repr m' q (L1 ++ L2) /\
                 agree (fun w => ~ footprint q (L1 ++ L2) w) m m') m.
Proof.
  intros Hr. pose proof Hr as (Hl & [Hnd Hsep] & _).
  destruct (nodes_split q L1 L2) as (N1 & a & b & N2 & Ha & Hb & HN & HN').
  rewrite HN' in Hl, Hsep, Hnd. pose proof Hl as Hl'.
  rewrite links_app, !links_cons2 in Hl'. destruct Hl' as (_ & Hax & Hxa & Hxb & Hbx & _).
  assert (a <> b + 4).
  { apply Hsep; [rewrite removelast_mid; set_solver|apply elem_of_tail_mid; set_solver]. }
  unfold lwp_queue_extractI, node_next, node_prev in *. mem_run.
  eapply queue_repr_extract; try done; try (by mem_lookup).
  intros w ??. by mem_lookup.
Qed.

Lemma firstnodeI_spec m q x L :
  queue_repr m q (x :: L) ->
  wp (lwp_queue_firstnodeI q)
    (fun r m' => r = x /\ queue_repr m' q L /\
                 agree (fun w => ~ footprint q L w) m m') m.
Proof.
  intros Hr. pose proof Hr as (Hl & [Hnd Hsep] & _).
  destruct (nodes_split q [] L) as (N1 & a & b & N2 & Ha & Hb & HN & HN').
  assert (N1 = [] /\ a = q) as [-> ->] by (destruct N1 as [|? [|? ?] ]; naive_solver).
  simpl in HN, HN'. rewrite HN' in Hl, Hsep, Hnd. simpl in Hsep.
  rewrite !links_cons2 in Hl. destruct Hl as (Hax & Hxa & Hxb & Hbx & _).
  assert (q <> b + 4) by (apply Hsep; set_solver).
  unfold lwp_queue_firstnodeI, node_next, node_prev, q_first, lwp_queue_head in *. mem_run.
  split; [done|].
  eapply (queue_repr_extract _ _ q [] x L []);
    [done|exact HN|exact (HN' x)|by mem_lookup|by mem_lookup|].
  intros w ??. by mem_lookup.
Qed.

Lemma isempty_spec m q L :
  queue_repr m q L ->
  wp (lwp_queue_isempty q) (fun r m' => r = bool_decide (L = []) /\ m' = m) m.
Proof.
  intros (Hl & [Hnd _] & _). destruct L as [|x L]; unfold nodes in *; simpl in *.
  - destruct Hl as (Hq & _). unfold lwp_queue_isempty, q_first. mem_run.
    by rewrite Z.eqb_refl.
  - destruct Hl as (Hq & _). unfold lwp_queue_isempty, q_first. mem_run.
    split; [|done]. apply Z.eqb_neq. intros ->.
    apply NoDup_cons in Hnd as [_ Hnd]. apply NoDup_cons in Hnd as [Hnd _]. set_solver.
Qed.

Lemma getI_spec m q L :
  queue_repr m q L ->
  wp (lwp_queue_getI q)
    (fun r m' => match L with
                 | [] => r = NULL /\ m' = m
                 | x :: L' => r = x /\ queue_repr m' q L' /\
                              agree (fun w => ~ footprint q L' w) m m'
                 end) m.
Proof.
  intros Hr. unfold lwp_queue_getI. apply wp_bind.
  eapply wp_mono; [by apply isempty_spec|]. intros e m' [-> ->].
  destruct L as [|x L]; [by apply wp_ret|]. by apply firstnodeI_spec.
Qed.

Lemma onenode_spec m q L :
  queue_repr m q L ->
  wp (lwp_queue_onenode q) (fun r m' => r = bool_decide (length L = 1%nat) /\ m' = m) m.
Proof.
  intros (Hl & [Hnd Hsep] & _).
  destruct (nodes_split q L []) as (N1 & a & b & N2 & Ha & Hb & HN & _).
  rewrite app_nil_r in HN. injection Hb as <- <-. rewrite HN in Hl.
  pose proof (links_next _ _ _ _ _ _ Hl) as [_ Hlast].
  destruct L as [|x L].
  - assert (a = q) as -> by (destruct N1 as [|? [|? ?] ]; naive_solver).
    rewrite <- HN in Hl. unfold nodes in Hl. simpl in Hl. destruct Hl as (Hq & _).
    unfold lwp_queue_onenode, q_first, q_last, lwp_queue_tail, lwp_queue_head in *. mem_run.
    split; [|done]. apply Z.eqb_neq. lia.
  - rewrite <- HN in Hl. unfold nodes in Hl. simpl in Hl. destruct Hl as (Hq & _).
    unfold lwp_queue_onenode, q_first, q_last, lwp_queue_tail, lwp_queue_head in *. mem_run.
    split; [|done]. destruct L as [|y L].
    + assert (a = x) as -> by (destruct N1 as [|? [|? [|? ?] ] ]; naive_solver).
      apply Z.eqb_refl.
    + apply Z.eqb_neq. intros ->. unfold nodes in Hnd. simpl in Hnd.
      apply NoDup_cons in Hnd as [_ Hnd]. apply NoDup_cons in Hnd as [Hnd _].
      apply Hnd. destruct N1 as [|? [|? N1] ]; simplify_eq/=. destruct N1; set_solver.
Qed.

(** The nodes an array of [n] elements of [sz] bytes at [a] provides. *)
Fixpoint node_addrs (n : nat) (a sz : Z) : list Z :=
  match n with O => [] | S n' => a :: node_addrs n' (a + sz) sz end.

Lemma initialize_loop_spec n m N1 curr next sz T :
  chain_wf (N1 ++ curr :: node_addrs n next sz ++ [T]) ->
  links 0 m (N1 ++ [curr]) ->
  is_Some (m !! (curr + 0)) ->
  (forall x, x ∈ node_addrs n next sz -> is_Some (m !! (x + 0)) /\ is_Some (m !! (x + 0 + 4))) ->
  wp (lwp_queue_initialize_loop n curr next sz)
    (fun r m' => links 0 m' (N1 ++ curr :: node_addrs n next sz) /\
                 last (curr :: node_addrs n next sz) = Some r /\
                 (forall w, is_Some (m !! w) -> is_Some (m' !! w)) /\
                 agree (fun w => ~ link_word 0 (N1 ++ curr :: node_addrs n next sz) w) m m') m.
Proof.
  revert m N1 curr next. induction n as [|n IH]; intros m N1 curr next Hwf Hl Hc Hm.
  - simpl. mem_run. done.
  - cbn [lwp_queue_initialize_loop node_addrs] in *. unfold node_next, node_prev.
    assert (Hnext : is_Some (m !! (next + 0)) /\ is_Some (m !! (next + 0 + 4)))
      by (apply Hm; by left).
    destruct Hnext as [Hn1 Hn2]. mem_run.
    assert (curr <> next + 4).
    { destruct Hwf as [_ Hsep]. simpl in Hsep. apply Hsep;
        [rewrite removelast_mid; set_solver|apply elem_of_tail_mid; set_solver]. }
    set (m1 := <[next + 0 + 4 := curr]> (<[curr + 0 := next]> m)).
    change (N1 ++ curr :: (next :: node_addrs n (next + sz) sz) ++ [T])
      with (N1 ++ [curr] ++ next :: node_addrs n (next + sz) sz ++ [T]) in Hwf.
    assert (Hl1 : links 0 m1 ((N1 ++ [curr]) ++ [next])).
    { rewrite <- app_assoc. apply links_frame with m1; [done|]. simpl.
      rewrite links_app, links_cons2. unfold m1. split_and!; [|by mem_lookup..|done].
      eapply links_frame; [|exact Hl]. intros w Hw.
      eapply left_words in Hw as (?&?&_); [|exact Hwf]. by mem_lookup. }
    rewrite app_assoc in Hwf.
    eapply wp_mono; [apply (IH m1 (N1 ++ [curr]) next (next + sz)); try done|].
    + unfold m1. by repeat apply mapped_insert.
    + intros x Hx. unfold m1. destruct (Hm x) as [? ?]; [by right|].
      split; by repeat apply mapped_insert.
    + rewrite <- !app_assoc. intros r m' (H1 & H2 & H3 & H4). simpl in *. split_and!; try done.
      * intros w Hw. apply H3. unfold m1. by repeat apply mapped_insert.
      * intros w Hw. rewrite H4 by done. unfold m1.
        assert (w <> next + 0 + 4 /\ w <> curr + 0) as [? ?].
        { split; intros ->; apply Hw; auto with chain. }
        by mem_lookup.
Qed.

Lemma node_addrs_elem n a sz x :
  0 <= sz -> x ∈ node_addrs n a sz -> a <= x /\ x + sz <= a + Z.of_nat n * sz.
Proof.
  intros Hsz. revert a. induction n as [|n IH]; intros a; [set_solver|].
  cbn [node_addrs]. rewrite elem_of_cons. intros [->|Hx]; [nia|]. apply IH in Hx. nia.
Qed.

Lemma node_addrs_gap n a sz x y :
  8 <= sz -> x ∈ node_addrs n a sz -> y ∈ node_addrs n a sz -> x = y \/ x + 8 <= y \/ y + 8 <= x.
Proof.
  intros Hsz. revert a. induction n as [|n IH]; intros a; [set_solver|].
  cbn [node_addrs]. rewrite !elem_of_cons.
  intros [->|Hx] [->|Hy]; [lia| | |by eapply IH]; apply node_addrs_elem in Hy || apply node_addrs_elem in Hx; lia.
Qed.

Lemma node_addrs_NoDup n a sz : 8 <= sz -> NoDup (node_addrs n a sz).
Proof.
  intros Hsz. revert a. induction n as [|n IH]; intros a; cbn [node_addrs]; [constructor|].
  apply NoDup_cons. split; [|done]. intros Hx. apply node_addrs_elem in Hx; lia.
Qed.

(** A node array beside the queue structure gives a well-formed chain. *)
Lemma node_array_wf q n a sz :
  8 <= sz -> q + 12 <= a \/ a + Z.of_nat n * sz <= q ->
  chain_wf (nodes q (node_addrs n a sz)) /\
  ~ link_word 0 (nodes q (node_addrs n a sz)) (q_perm_null q).
Proof.
  intros Hsz Hd.
  assert (Hin : forall x, x ∈ node_addrs n a sz -> x + 8 <= q \/ q + 12 <= x).
  { intros x Hx. apply node_addrs_elem in Hx; lia. }
  unfold nodes, lwp_queue_head, lwp_queue_tail.
  assert (Hrl : forall L : list Z, removelast (q :: L ++ [q + 4]) = q :: L).
  { intros L. rewrite app_comm_cons. apply removelast_last. }
  split; [split|].
  - apply NoDup_cons. split; [|apply NoDup_app; split_and!].
    + rewrite elem_of_app, list_elem_of_singleton. intros [Hx|Hx]; [apply Hin in Hx|]; lia.
    + by apply node_addrs_NoDup.
    + intros x Hx. rewrite list_elem_of_singleton. apply Hin in Hx. lia.
    + apply NoDup_singleton.
  - intros x y. rewrite Hrl. simpl. rewrite elem_of_cons, elem_of_app, list_elem_of_singleton.
    intros [->|Hx] [Hy| ->].
    + apply Hin in Hy. lia.
    + lia.
    + pose proof (node_addrs_gap n a sz x y Hsz Hx Hy). lia.
    + apply Hin in Hx. lia.
  - unfold q_perm_null. intros [(x & Hx & Hw)|(x & Hx & Hw)].
    + rewrite Hrl in Hx. apply elem_of_cons in Hx as [->|Hx]; [lia|]. apply Hin in Hx. lia.
    + simpl in Hx. rewrite elem_of_app, list_elem_of_singleton in Hx.
      destruct Hx as [Hx| ->]; [apply Hin in Hx|]; lia.
Qed.

Lemma initialize_spec m q start num sz :
  0 <= num -> 8 <= sz -> q + 12 <= start \/ start + num * sz <= q ->
  is_Some (m !! q_first q) -> is_Some (m !! q_perm_null q) -> is_Some (m !! q_last q) ->
  (forall x, x ∈ node_addrs (Z.to_nat num) start sz ->
     is_Some (m !! node_next x) /\ is_Some (m !! node_prev x)) ->
  wp (lwp_queue_initialize q start num sz)
    (fun _ m' => queue_repr m' q (node_addrs (Z.to_nat num) start sz)) m.
Proof.
  intros Hnum Hsz Hd Hm1 Hm2 Hm3 Hm4. set (L := node_addrs _ _ _) in *.
  destruct (node_array_wf q (Z.to_nat num) start sz) as [Hwf Hnp]; [done|lia|]. fold L in Hwf, Hnp.
  unfold lwp_queue_initialize. mem_run.
  eapply wp_mono.
  { apply (initialize_loop_spec (Z.to_nat num) _ [] q start sz (lwp_queue_tail q)); [done|done| |].
    - by apply mapped_insert.
    - intros x Hx. destruct (Hm4 x Hx). split; by apply mapped_insert. }
  fold L. intros r m1 (Hl & Hlast & Hmap & Hag).
  change ([] ++ q :: L) with (q :: L) in Hl, Hag.
  destruct (exists_last (l := q :: L)) as (N1 & a & Ha); [done|].
  assert (r = a) as ->.
  { rewrite Ha, last_snoc in Hlast. congruence. }
  assert (HN : nodes q L = N1 ++ a :: [lwp_queue_tail q]).
  { unfold nodes, lwp_queue_head. rewrite app_comm_cons, Ha. by rewrite <- app_assoc. }
  rewrite Ha in Hl, Hag. rewrite HN in Hwf, Hnp.
  assert (a <> lwp_queue_tail q + 4).
  { destruct Hwf as [_ Hsep]. apply Hsep; [rewrite removelast_mid; set_solver|
      apply elem_of_tail_mid; set_solver]. }
  assert (a <> lwp_queue_tail q).
  { destruct Hwf as [Hnd _]. apply NoDup_split3 in Hnd. tauto. }
  assert (Hma : is_Some (m1 !! (a + 0))).
  { destruct (decide (a ∈ L)) as [HaL|HaL].
    - apply Hmap, mapped_insert. by apply Hm4.
    - assert (a = q) as -> by (assert (a ∈ q :: L) by (rewrite Ha; set_solver); set_solver).
      apply Hmap, mapped_insert. done. }
  assert (Hml : is_Some (m1 !! q_last q)) by by apply Hmap, mapped_insert.
  unfold node_next, q_last, q_perm_null in *. mem_run.
  unfold queue_repr. rewrite HN. unfold lwp_queue_tail in *. split_and!; [|done| |done].
  - eapply (links_join 0 m1); [done|done|done|by mem_lookup..|].
    intros w [Hw|Hw]; [eapply left_words in Hw as (?&?&_)|eapply right_words in Hw as (?&?&_)];
      try done; by mem_lookup.
  - unfold q_perm_null. mem_lookup. rewrite Hag; [by mem_lookup|].
    intros Hw. apply Hnp.
    destruct Hw as [(x & Hx & Hw)|(x & Hx & Hw)].
    + left. exists x. rewrite removelast_last in Hx. rewrite removelast_mid. set_solver.
    + right. exists x. split; [apply elem_of_tail_mid; by left|done].
Qed.

Lemma init_empty_spec m q :
  is_Some (m !! q_first q) -> is_Some (m !! q_perm_null q) -> is_Some (m !! q_last q) ->
  wp (lwp_queue_init_empty q)
    (fun _ m' => queue_repr m' q [] /\ agree (fun w => ~ footprint q [] w) m m') m.
Proof.
  intros Hm1 Hm2 Hm3. unfold lwp_queue_init_empty. mem_run.
  assert (Hlw : forall w, link_word 0 (nodes q []) w <-> w = q_first q \/ w = q_last q).
  { intros w. unfold nodes, link_word, q_first, q_last. simpl. set_solver by lia. }
  unfold q_first, q_perm_null, q_last, lwp_queue_tail, lwp_queue_head in *.
  unfold queue_repr. split_and!.
  - unfold nodes, lwp_queue_head, lwp_queue_tail. simpl. split_and!; [by mem_lookup..|done].
  - split.
    + unfold nodes, lwp_queue_head, lwp_queue_tail. simpl. apply NoDup_cons.
      split; [set_solver by lia|apply NoDup_singleton].
    + unfold nodes, lwp_queue_head, lwp_queue_tail. simpl. intros a b. set_solver by lia.
  - unfold q_perm_null. by mem_lookup.
  - rewrite Hlw. unfold q_perm_null. lia.
  - intros w Hw. unfold footprint in Hw. rewrite Hlw in Hw. unfold q_perm_null in Hw.
    by mem_lookup.
Qed.
End Proofs.

(** ** The contract offered to clients

    Clients of the queues (the ARAM request queue) reason against this
    interface: a queue is a list of nodes, appending adds at the end, getting
    takes from the front and answers [NULL] exactly on the empty queue, and
    every operation leaves the words outside the queue it works on alone. *)
Class FifoLaws (repr : mem -> Z -> list Z -> Prop) (foot : Z -> list Z -> Z -> Prop)
    (fresh : mem -> Z -> list Z -> Z -> Prop)
    (init : Z -> M mem unit) (append : Z -> Z -> M mem unit)
    (getq : Z -> M mem Z) (extract : Z -> M mem unit) : Prop := {
  fifo_frame m m' q L : agree (foot q L) m m' -> repr m q L -> repr m' q L;
  fifo_append m q L n : repr m q L -> fresh m q L n ->
    wp (append q n) (fun _ m' => repr m' q (L ++ [n]) /\
                                 agree (fun w => ~ foot q (L ++ [n]) w) m m') m;
  fifo_get m q L : repr m q L ->
    wp (getq q) (fun r m' => match L with
                             | [] => r = NULL /\ m' = m
                             | x :: L' => r = x /\ repr m' q L' /\
                                          agree (fun w => ~ foot q L' w) m m'
                             end) m;
  fifo_extract m q L1 x L2 : repr m q (L1 ++ x :: L2) ->
    wp (extract x) (fun _ m' => repr m' q (L1 ++ L2) /\
                                agree (fun w => ~ foot q (L1 ++ L2) w) m m') m;
}.

#[export] Instance lwp_queue_fifo :
  FifoLaws queue_repr footprint fresh_node
    lwp_queue_init_empty lwp_queue_appendI lwp_queue_getI lwp_queue_extractI.
Proof.
  split; [apply queue_repr_frame|apply appendI_spec|apply getI_spec|apply extractI_spec].
Qed.

(** ** Sequences of operations

    The operations a client issues on one queue, their meaning on lists, and
    the refinement between the two. *)

Inductive qop :=
| QAppend (n : Z)
| QPrepend (n : Z)
| QGet
| QExtract (n : Z).

(** List semantics: the value returned and the new list; [None] for a misuse
    (linking a node that is queued, extracting one that is not). *)
Definition spec_op (op : qop) (L : list Z) : option (Z * list Z) :=
  match op with
  | QAppend n => if bool_decide (n ∈ L) then None else Some (0, L ++ [n])
  | QPrepend n => if bool_decide (n ∈ L) then None else Some (0, n :: L)
  | QGet => match L with [] => Some (NULL, []) | x :: L' => Some (x, L') end
  | QExtract n => if bool_decide (n ∈ L) then Some (0, remove Z.eq_dec n L) else None
  end.

Fixpoint spec_ops (ops : list qop) (L : list Z) : option (list Z * list Z) :=
  match ops with
  | [] => Some ([], L)
  | op :: ops' =>
      match spec_op op L with
      | Some (r, L1) =>
          match spec_ops ops' L1 with
          | Some (rs, L2) => Some (r :: rs, L2)
          | None => None
          end
      | None => None
      end
  end.

(** The same operations on memory. *)
Definition run_op (q : Z) (op : qop) : M mem Z :=
  match op with
  | QAppend n => lwp_queue_append q n ;; ret 0
  | QPrepend n => lwp_queue_prepend q n ;; ret 0
  | QGet => lwp_queue_get q
  | QExtract n => lwp_queue_extract n ;; ret 0
  end.

Fixpoint run_ops (q : Z) (ops : list qop) : M mem (list Z) :=
  match ops with
  | [] => ret []
  | op :: ops' => r <- run_op q op; rs <- run_ops q ops'; ret (r :: rs)
  end.

Definition op_node (op : qop) : list Z :=
  match op with QAppend n | QPrepend n | QExtract n => [n] | QGet => [] end.

(** A pool of node storage: mapped, pairwise at least a node apart, and clear
    of the queue structure. *)
Definition pool_ok (q : Z) (P : list Z) (m : mem) : Prop :=
  (forall x, x ∈ P -> is_Some (m !! node_next x) /\ is_Some (m !! node_prev x)) /\
  (forall x y, x ∈ P -> y ∈ P -> x = y \/ x + 8 <= y \/ y + 8 <= x) /\
  (forall x, x ∈ P -> x + 8 <= q \/ q + 12 <= x).

Section Refinement.
Implicit Types m : mem.

Lemma pool_fresh q P m L n :
  pool_ok q P m -> L ⊆ P -> n ∈ P -> n ∉ L -> fresh_node m q L n.
Proof.
  intros (Hm & Hs & Hq) HL Hn HnL. destruct (Hm n Hn). split_and!; [done..|].
  intros x. unfold nodes, lwp_queue_head, lwp_queue_tail.
  rewrite elem_of_cons, elem_of_app, list_elem_of_singleton. pose proof (Hq n Hn).
  intros [->|[Hx| ->] ]; [lia| |lia].
  destruct (Hs n x Hn (HL x Hx)) as [->|]; [done|lia].
Qed.

Lemma queue_repr_mapped m q L w : queue_repr m q L -> footprint q L w -> is_Some (m !! w).
Proof.
  intros (Hl & _ & Hp & _) [Hw| ->]; [by eapply links_mapped|by eexists].
Qed.

Lemma pool_ok_step q P m m' L' :
  queue_repr m' q L' -> agree (fun w => ~ footprint q L' w) m m' ->
  (forall w, footprint q L' w \/ ~ footprint q L' w) ->
  pool_ok q P m -> pool_ok q P m'.
Proof.
  intros Hr Hag Hdec (Hm & Hs & Hq). split_and!; [|done..].
  assert (Hmap : forall w, is_Some (m !! w) -> is_Some (m' !! w)).
  { intros w Hw. destruct (Hdec w) as [Hf|Hf]; [by eapply queue_repr_mapped|].
    by rewrite Hag. }
  intros x Hx. destruct (Hm x Hx). auto.
Qed.

Lemma footprint_dec q L w : footprint q L w \/ ~ footprint q L w.
Proof.
  unfold footprint, link_word.
  destruct (decide (Exists (fun a => w = a + 0) (removelast (nodes q L)))) as [H|H];
    [left; left; left; by apply Exists_exists in H|].
  destruct (decide (Exists (fun a => w = a + 0 + 4) (tail (nodes q L)))) as [H'|H'];
    [left; left; right; by apply Exists_exists in H'|].
  destruct (decide (w = q_perm_null q)); [left; by right|].
  right. rewrite Exists_exists in H, H'. naive_solver.
Qed.

Lemma remove_mid L1 x L2 : x ∉ L1 -> x ∉ L2 -> remove Z.eq_dec x (L1 ++ x :: L2) = L1 ++ L2.
Proof.
  intros H1 H2. rewrite remove_app, remove_cons, !notin_remove; [done|..];
    by rewrite <- list_elem_of_In.
Qed.

Lemma repr_NoDup m q L : queue_repr m q L -> NoDup L.
Proof.
  intros (_ & [Hnd _] & _). unfold nodes in Hnd. apply NoDup_cons in Hnd as [_ Hnd].
  by apply NoDup_app in Hnd as (? & _).
Qed.

Lemma run_op_spec q P m L op r L' :
  pool_ok q P m -> queue_repr m q L -> L ⊆ P -> op_node op ⊆ P ->
  spec_op op L = Some (r, L') ->
  wp (run_op q op)
    (fun r' m' => r' = r /\ queue_repr m' q L' /\ L' ⊆ P /\ pool_ok q P m') m.
Proof.
  intros HP Hr HL Hop Hs.
  assert (Hpost : forall m' L0, queue_repr m' q L0 ->
            agree (fun w => ~ footprint q L0 w) m m' -> pool_ok q P m').
  { intros m' L0 ??. eapply pool_ok_step; [done..|apply footprint_dec|done]. }
  destruct op as [n|n| |n]; simpl in Hs, Hop.
  - case_bool_decide as Hn; [done|]. injection Hs as <- <-. simpl. apply wp_bind.
    eapply wp_mono; [apply appendI_spec; [done|eapply pool_fresh; set_solver]|].
    intros _ m' [Hr' Hag]. apply wp_ret. split_and!; [done..|set_solver|eauto].
  - case_bool_decide as Hn; [done|]. injection Hs as <- <-. simpl. apply wp_bind.
    eapply wp_mono; [apply (insertI_spec m q [] L); [done|eapply pool_fresh; set_solver|done]|].
    intros _ m' [Hr' Hag]. apply wp_ret. split_and!; [done..|set_solver|eauto].
  - simpl. eapply wp_mono; [by apply getI_spec|].
    destruct L as [|x L]; injection Hs as <- <-; [naive_solver|].
    intros r' m' (-> & Hr' & Hag). split_and!; [done..|set_solver|eauto].
  - case_bool_decide as Hn; [|done]. injection Hs as <- <-.
    apply list_elem_of_split in Hn as (L1 & L2 & ->).
    pose proof (repr_NoDup _ _ _ Hr) as Hnd. apply NoDup_app in Hnd as (_ & Hd & Hnd).
    apply NoDup_cons in Hnd as [Hx _].
    rewrite remove_mid; [|intros ?; eapply Hd; [done|set_solver]|done].
    simpl. apply wp_bind. eapply wp_mono; [by apply extractI_spec|].
    intros _ m' [Hr' Hag]. apply wp_ret. split_and!; [done..|set_solver|eauto].
Qed.

(** C16. Refinement of the intrusive queues: from memory that represents the
    list [L], any sequence of append, prepend, get and extract operations on
    nodes of a pool runs without a bad access, returns exactly the values the
    list semantics returns (get answers the oldest node, or NULL on an empty
    queue) and ends in memory that represents the resulting list. *)
Theorem lwp_queue_refines_list q P m L ops rs L' :
  pool_ok q P m -> queue_repr m q L -> L ⊆ P ->
  Forall (fun op => op_node op ⊆ P) ops ->
  spec_ops ops L = Some (rs, L') ->
  wp (run_ops q ops) (fun rs' m' => rs' = rs /\ queue_repr m' q L') m.
Proof.
  intros HP Hr HL Hops. revert m L rs HP Hr HL.
  induction Hops as [|op ops Hop Hops IH]; intros m L rs HP Hr HL Hs; simpl in Hs.
  - injection Hs as <- <-. by apply wp_ret.
  - destruct (spec_op op L) as [ [r L1]|] eqn:E1; [|done].
    destruct (spec_ops ops L1) as [ [rs1 L2]|] eqn:E2; [|done]. injection Hs as <- <-.
    simpl. apply wp_bind. eapply wp_mono; [by eapply run_op_spec|].
    intros r' m1 (-> & Hr1 & HL1 & HP1). apply wp_bind.
    eapply wp_mono; [by eapply IH|]. intros rs' m2 [-> Hr2]. by apply wp_ret.
Qed.

(** Initialisation from an array: [__lwp_queue_initialize] threads the
    [num] elements of the array at [start] into the queue, in address order. *)
Theorem lwp_queue_initialize_ok m q start num sz :
  0 <= num -> 8 <= sz -> q + 12 <= start \/ start + num * sz <= q ->
  is_Some (m !! q_first q) -> is_Some (m !! q_perm_null q) -> is_Some (m !! q_last q) ->
  (forall x, x ∈ node_addrs (Z.to_nat num) start sz ->
     is_Some (m !! node_next x) /\ is_Some (m !! node_prev x)) ->
  wp (lwp_queue_initialize q start num sz)
    (fun _ m' => queue_repr m' q (node_addrs (Z.to_nat num) start sz)) m.
Proof. apply initialize_spec. Qed.
End Refinement.

(** ** Witnesses *)

(** A queue at 100 and three nodes at 200, 208 and 216 in zeroed memory. *)
Definition queue_mem : mem :=
  <[100 := 104]> (<[108 := 100]> (zero_words 3 100 ∪ zero_words 6 200)).

Lemma lwp_queue_refines_list_witness :
  wp (run_ops 100 [QAppend 200; QAppend 208; QGet; QPrepend 216; QExtract 208])
    (fun rs m' => rs = [0; 0; 200; 0; 0] /\ queue_repr m' 100 [216]) queue_mem.
Proof.
  apply (lwp_queue_refines_list 100 [200; 208; 216] queue_mem []).
  - split_and!.
    + intros x. rewrite !elem_of_cons. intros [->|[->|[->|Hx] ] ]; [..|set_solver];
        split; vm_compute; eauto.
    + intros x y. set_solver by lia.
    + intros x. set_solver by lia.
  - split_and!; [vm_compute; done|split|vm_compute; done|].
    + apply (bool_decide_unpack _). vm_compute. done.
    + intros a b. unfold nodes, lwp_queue_head, lwp_queue_tail. simpl. set_solver by lia.
    + intros [(x & Hx & Hw)|(x & Hx & Hw)];
        unfold nodes, lwp_queue_head, lwp_queue_tail, q_perm_null in *; simpl in *;
        set_solver by lia.
  - set_solver.
  - repeat (apply List.Forall_cons; [simpl; set_solver|]). apply List.Forall_nil.
  - vm_compute. reflexivity.
Defined.

Lemma lwp_queue_initialize_ok_witness :
  wp (lwp_queue_initialize 100 200 3 8) (fun _ m' => queue_repr m' 100 [200; 208; 216])
    (zero_words 3 100 ∪ zero_words 6 200).
Proof.
  apply (lwp_queue_initialize_ok _ 100 200 3 8); try lia; try (vm_compute; by eexists).
  intros x. simpl. rewrite !elem_of_cons. intros [->|[->|[->|Hx] ] ]; [..|set_solver];
    split; vm_compute; eauto.
Defined.
