(* ===== verification/LwpHeap.v ===== *)
(** * The workspace heap allocator ([lwp_heap.c], [lwp_heap.inl])

    A boundary-tag allocator over 32-bit words. A block starts with the size and
    use flag of its left neighbour ([back_flag]) and its own ([front_flag]); a
    free block also carries the links of the free list. The control structure
    doubles as the two sentinels of that list: read as a [heap_block] at
    [&start] it is the head, at [&final] the tail.

    The model works on the words themselves, with the source's unsigned 32-bit
    arithmetic. The interrupt brackets make each call one atomic step. *)

From stdpp Require Import base gmap list fin_maps.
From Stdlib Require Import ZArith Lia.
From S2P Require Import Prelude Chain.

Open Scope Z_scope.

(** ** Layout and constants *)

Definition HEAP_BLOCK_USED : Z := 1.
Definition HEAP_DUMMY_FLAG : Z := 0 + HEAP_BLOCK_USED.
Definition HEAP_OVERHEAD : Z := 4 * 2.
Definition HEAP_BLOCK_USED_OVERHEAD : Z := 4 * 2.
Definition SIZEOF_heap_block : Z := 16.
Definition HEAP_MIN_SIZE : Z := HEAP_OVERHEAD + SIZEOF_heap_block.
Definition PPC_ALIGNMENT : Z := 8.

(** [struct _heap_block_st]: field addresses of the block at [b]. *)
Definition back_flag (b : Z) : Z := b.
Definition front_flag (b : Z) : Z := b + 4.
Definition blk_next (b : Z) : Z := b + 8.
Definition blk_prev (b : Z) : Z := b + 8 + 4.

(** [struct _heap_cntrl_st]: field addresses of the control structure at [h]. *)
Definition hc_start (h : Z) : Z := h.
Definition hc_final (h : Z) : Z := h + 4.
Definition hc_first (h : Z) : Z := h + 8.
Definition hc_perm_null (h : Z) : Z := h + 12.
Definition hc_last (h : Z) : Z := h + 16.
Definition hc_pg_size (h : Z) : Z := h + 20.

(** [heap_iblock], filled in by [__lwp_heap_getinfo]. *)
Record heap_iblock := mk_iblock {
  free_blocks : Z; free_size : Z; used_blocks : Z; used_size : Z
}.

(** ** [lwp_heap.inl] *)

Definition lwp_heap_head (h : Z) : Z := h.
Definition lwp_heap_tail (h : Z) : Z := h + 4.

Definition lwp_heap_prevblock (b : Z) : M mem Z :=
  f <- load (back_flag b); ret (u32 (b - Z.ldiff f HEAP_BLOCK_USED)).
Definition lwp_heap_nextblock (b : Z) : M mem Z :=
  f <- load (front_flag b); ret (u32 (b + Z.ldiff f HEAP_BLOCK_USED)).
Definition lwp_heap_blockat (b offset : Z) : Z := u32 (b + offset).
Definition lwp_heap_usrblockat (ptr : Z) : M mem Z :=
  offset <- load (ptr - 4);
  ret (lwp_heap_blockat ptr (u32 (- offset + - HEAP_BLOCK_USED_OVERHEAD))).
Definition lwp_heap_prev_blockfree (b : Z) : M mem bool :=
  f <- load (back_flag b); ret (Z.land f HEAP_BLOCK_USED =? 0).
Definition lwp_heap_blockfree (b : Z) : M mem bool :=
  f <- load (front_flag b); ret (Z.land f HEAP_BLOCK_USED =? 0).
Definition lwp_heap_blockused (b : Z) : M mem bool :=
  f <- load (front_flag b); ret (negb (Z.land f HEAP_BLOCK_USED =? 0)).
Definition lwp_heap_blocksize (b : Z) : M mem Z :=
  f <- load (front_flag b); ret (Z.ldiff f HEAP_BLOCK_USED).
Definition lwp_heap_startuser (b : Z) : Z := blk_next b.
Definition lwp_heap_blockin (h b : Z) : M mem bool :=
  s <- load (hc_start h);
  f <- load (hc_final h);
  ret ((s <=? b) && (b <=? f)).
Definition lwp_heap_pgsize_valid (pgsize : Z) : bool :=
  negb (pgsize =? 0) && (pgsize mod PPC_ALIGNMENT =? 0).
Definition lwp_heap_buildflag (size flag : Z) : Z := Z.lor size flag.

(** ** [lwp_heap.c] *)

Definition lwp_heap_init (h start_addr size pg_size : Z) : M mem Z :=
  if negb (lwp_heap_pgsize_valid pg_size) || (size <? HEAP_MIN_SIZE) then ret 0
  else
    store (hc_pg_size h) pg_size ;;
    let dsize := u32 (size - HEAP_OVERHEAD) in
    let block := start_addr in
    store (back_flag block) HEAP_DUMMY_FLAG ;;
    store (front_flag block) dsize ;;
    store (blk_next block) (lwp_heap_tail h) ;;
    store (blk_prev block) (lwp_heap_head h) ;;
    store (hc_start h) block ;;
    store (hc_first h) block ;;
    store (hc_perm_null h) NULL ;;
    store (hc_last h) block ;;
    final <- lwp_heap_nextblock block;
    store (back_flag final) dsize ;;
    store (front_flag final) HEAP_DUMMY_FLAG ;;
    store (hc_final h) final ;;
    ret (u32 (dsize - HEAP_BLOCK_USED_OVERHEAD)).

(** The size a block must have to serve a request of [size] bytes. *)
Definition heap_dsize (pg_size size : Z) : Z :=
  let excess := size mod pg_size in
  let dsize := u32 (size + pg_size + HEAP_BLOCK_USED_OVERHEAD) in
  let dsize := if negb (excess =? 0) then u32 (dsize + (pg_size - excess)) else dsize in
  if dsize <? SIZEOF_heap_block then SIZEOF_heap_block else dsize.

(** [for(block=theheap->first;;block=block->next)]: the first free block of at
    least [dsize] bytes, [None] when the tail is reached. *)
Fixpoint heap_search (fuel : nat) (h dsize block : Z) : M mem (option Z) :=
  match fuel with
  | O => fail OutOfFuel
  | S fuel' =>
      if block =? lwp_heap_tail h then ret None
      else
        f <- load (front_flag block);
        if dsize <=? f then ret (Some block)
        else next <- load (blk_next block); heap_search fuel' h dsize next
  end.

(** The number of words of the memory bounds the length of any list in it. *)
Definition mem_fuel (m : mem) : nat := S (size m).

(** Both ways of carving [dsize] bytes out of [block]; the result is the start
    of the user area. *)
Definition heap_carve (pg_size block dsize : Z) : M mem Z :=
  f <- load (front_flag block);
  if u32 (pg_size + HEAP_BLOCK_USED_OVERHEAD) <? u32 (f - dsize) then
    store (front_flag block) (u32 (f - dsize)) ;;
    next_block <- lwp_heap_nextblock block;
    f' <- load (front_flag block);
    store (back_flag next_block) f' ;;
    let tmp_block := lwp_heap_blockat next_block dsize in
    store (front_flag next_block) (lwp_heap_buildflag dsize HEAP_BLOCK_USED) ;;
    store (back_flag tmp_block) (lwp_heap_buildflag dsize HEAP_BLOCK_USED) ;;
    ret (lwp_heap_startuser next_block)
  else
    next_block <- lwp_heap_nextblock block;
    f' <- load (front_flag block);
    store (back_flag next_block) (lwp_heap_buildflag f' HEAP_BLOCK_USED) ;;
    bf <- load (back_flag next_block);
    store (front_flag block) bf ;;
    next <- load (blk_next block);
    prev <- load (blk_prev block);
    store (blk_prev next) prev ;;
    prev' <- load (blk_prev block);
    next' <- load (blk_next block);
    store (blk_next prev') next' ;;
    ret (lwp_heap_startuser block).

Definition lwp_heap_allocate (h size : Z) : M mem Z :=
  if u32 (-1 - HEAP_BLOCK_USED_OVERHEAD) <=? size then ret NULL
  else
    pg_size <- load (hc_pg_size h);
    let dsize := heap_dsize pg_size size in
    first <- load (hc_first h);
    fuel <- gets mem_fuel;
    found <- heap_search fuel h dsize first;
    match found with
    | None => ret NULL
    | Some block =>
        ptr <- heap_carve pg_size block dsize;
        let offset := u32 (pg_size - Z.land ptr (u32 (pg_size - 1))) in
        let ptr := u32 (ptr + offset) in
        store (ptr - 4) offset ;;
        ret ptr
    end.

(** The part of [__lwp_heap_free] after its checks: the block goes back to the
    free list, merged with free neighbours. *)
Definition heap_release (h block next_block dsize : Z) : M mem Z :=
  pfree <- lwp_heap_prev_blockfree block;
  if pfree then
    prev_block <- lwp_heap_prevblock block;
    pin <- lwp_heap_blockin h prev_block;
    if negb pin then ret C_FALSE
    else
      nfree <- lwp_heap_blockfree next_block;
      if nfree then
        pf <- load (front_flag prev_block);
        nf <- load (front_flag next_block);
        store (front_flag prev_block) (u32 (pf + (nf + dsize))) ;;
        tmp_block <- lwp_heap_nextblock prev_block;
        pf' <- load (front_flag prev_block);
        store (back_flag tmp_block) pf' ;;
        nn <- load (blk_next next_block);
        np <- load (blk_prev next_block);
        store (blk_prev nn) np ;;
        np' <- load (blk_prev next_block);
        nn' <- load (blk_next next_block);
        store (blk_next np') nn' ;;
        ret C_TRUE
      else
        pf <- load (front_flag prev_block);
        store (back_flag next_block) (u32 (pf + dsize)) ;;
        store (front_flag prev_block) (u32 (pf + dsize)) ;;
        ret C_TRUE
  else
    nfree <- lwp_heap_blockfree next_block;
    if nfree then
      nf <- load (front_flag next_block);
      store (front_flag block) (u32 (dsize + nf)) ;;
      new_next <- lwp_heap_nextblock block;
      bf <- load (front_flag block);
      store (back_flag new_next) bf ;;
      nn <- load (blk_next next_block);
      store (blk_next block) nn ;;
      np <- load (blk_prev next_block);
      store (blk_prev block) np ;;
      np' <- load (blk_prev next_block);
      store (blk_next np') block ;;
      nn' <- load (blk_next next_block);
      store (blk_prev nn') block ;;
      first <- load (hc_first h);
      when (first =? next_block) (store (hc_first h) block) ;;
      ret C_TRUE
    else
      store (front_flag block) dsize ;;
      store (back_flag next_block) dsize ;;
      store (blk_prev block) (lwp_heap_head h) ;;
      first <- load (hc_first h);
      store (blk_next block) first ;;
      store (hc_first h) block ;;
      nn <- load (blk_next block);
      store (blk_prev nn) block ;;
      ret C_TRUE.

Definition lwp_heap_free (h ptr : Z) : M mem Z :=
  block <- lwp_heap_usrblockat ptr;
  bin <- lwp_heap_blockin h block;
  if negb bin then ret C_FALSE
  else
    bfree <- lwp_heap_blockfree block;
    if (bfree : bool) then ret C_FALSE
    else
      dsize <- lwp_heap_blocksize block;
      let next_block := lwp_heap_blockat block dsize in
      nin <- lwp_heap_blockin h next_block;
      if negb nin then ret C_FALSE
      else
        ff <- load (front_flag block);
        bf <- load (back_flag next_block);
        if negb (ff =? bf) then ret C_FALSE
        else heap_release h block next_block dsize.

(** The walk of [__lwp_heap_getinfo]; the accumulator is the record the source
    fills in place, the result is the return code. *)
Fixpoint heap_walk (fuel : nat) (theblock : Z) (info : heap_iblock) : M mem (Z * heap_iblock) :=
  match fuel with
  | O => fail OutOfFuel
  | S fuel' =>
      bfree <- lwp_heap_blockfree theblock;
      bsize <- lwp_heap_blocksize theblock;
      let info :=
        if bfree : bool
        then mk_iblock (u32 (free_blocks info + 1)) (u32 (free_size info + bsize))
               (used_blocks info) (used_size info)
        else mk_iblock (free_blocks info) (free_size info)
               (u32 (used_blocks info + 1)) (u32 (used_size info + bsize)) in
      ff <- load (front_flag theblock);
      if ff =? HEAP_DUMMY_FLAG then ret (0, info)
      else
        nextblock <- lwp_heap_nextblock theblock;
        bf <- load (back_flag nextblock);
        if negb (ff =? bf) then ret (2, info)
        else heap_walk fuel' nextblock info
  end.

Definition lwp_heap_getinfo (h : Z) : M mem (Z * heap_iblock) :=
  theblock <- load (hc_start h);
  bf <- load (back_flag theblock);
  if negb (bf =? HEAP_DUMMY_FLAG) then ret (2, mk_iblock 0 0 0 0)
  else fuel <- gets mem_fuel; heap_walk fuel theblock (mk_iblock 0 0 0 0).
