(* ===== verification/LwpHeapInv.v ===== *)
(** * Layout theory of the workspace heap

    The abstract state of the heap is the list of its blocks in address order,
    each with its size and use flag, and the order of the free list. This file
    defines when a memory represents such a state ([heap_inv]) and proves the
    lemma every operation is verified with ([heap_inv_update]): a change confined
    to some adjacent blocks and to the words of the free list re-establishes the
    invariant as soon as those blocks and the list are in order. *)

From stdpp Require Import base gmap list fin_maps.
From Stdlib Require Import ZArith Lia.
From S2P Require Import Prelude Chain LwpHeap.

Open Scope Z_scope.

(** A block: its size in bytes, header included, and whether it is in use. *)
Abbreviation block := (Z * bool)%type.

(** The flag word that describes a block. *)
Definition flag (b : block) : Z := b.1 + b2z b.2.

Definition total (bs : list block) : Z := foldr (fun b n => b.1 + n) 0 bs.
Definition ends (a : Z) (bs : list block) : Z := a + total bs.
(** The flag of the last block, [pf] for none. *)
Definition lastf (pf : Z) (bs : list block) : Z := foldl (fun _ b => flag b) pf bs.

(** [seg m a pf bs]: the headers of [bs] lie in [m] from [a] on, the first
    with back flag [pf]. *)
Fixpoint seg (m : mem) (a pf : Z) (bs : list block) : Prop :=
  match bs with
  | [] => True
  | b :: r => m !! a = Some pf /\ m !! (a + 4) = Some (flag b) /\
              seg m (a + b.1) (flag b) r
  end.

(** The same up to and including the dummy header that closes the heap. *)
Fixpoint tiles (m : mem) (a pf : Z) (bs : list block) : Prop :=
  match bs with
  | [] => m !! a = Some pf /\ m !! (a + 4) = Some HEAP_DUMMY_FLAG
  | b :: r => m !! a = Some pf /\ m !! (a + 4) = Some (flag b) /\
              tiles m (a + b.1) (flag b) r
  end.

(** The header words of [seg] and [tiles]. *)
Fixpoint hdr (a : Z) (bs : list block) (x : Z) : Prop :=
  match bs with
  | [] => False
  | b :: r => x = a \/ x = a + 4 \/ hdr (a + b.1) r x
  end.
Fixpoint whdr (a : Z) (bs : list block) (x : Z) : Prop :=
  match bs with
  | [] => x = a \/ x = a + 4
  | b :: r => x = a \/ x = a + 4 \/ whdr (a + b.1) r x
  end.

Definition block_ok (b : block) : Prop := SIZEOF_heap_block <= b.1 /\ b.1 mod 4 = 0.
Abbreviation sizes_ok := (Forall block_ok).

(** Addresses of the free and of all blocks. *)
Fixpoint free_addrs (a : Z) (bs : list block) : list Z :=
  match bs with
  | [] => []
  | b :: r => (if b.2 then [] else [a]) ++ free_addrs (a + b.1) r
  end.

(** No two neighbours are both free. *)
Fixpoint coalesced (bs : list block) : Prop :=
  match bs with
  | b :: ((c :: _) as r) => (b.2 || c.2 = true) /\ coalesced r
  | _ => True
  end.

(** ** Basic lemmas *)

Lemma total_app b1 b2 : total (b1 ++ b2) = total b1 + total b2.
Proof. induction b1; simpl; lia. Qed.
Lemma ends_app a b1 b2 : ends a (b1 ++ b2) = ends (ends a b1) b2.
Proof. unfold ends. rewrite total_app. lia. Qed.
Lemma ends_cons a b r : ends a (b :: r) = ends (a + b.1) r.
Proof. unfold ends. simpl. lia. Qed.
Lemma ends_nil a : ends a [] = a.
Proof. unfold ends. simpl. lia. Qed.
Lemma lastf_app pf b1 b2 : lastf pf (b1 ++ b2) = lastf (lastf pf b1) b2.
Proof. apply foldl_app. Qed.

Lemma total_nonneg bs : sizes_ok bs -> 0 <= total bs.
Proof. induction 1 as [|b r [H _] _ IH]; simpl; unfold SIZEOF_heap_block in *; lia. Qed.
Lemma total_mod4 bs : sizes_ok bs -> total bs mod 4 = 0.
Proof.
  induction 1 as [|b r [_ H] _ IH]; simpl; [done|]. rewrite Z.add_mod, H, IH by lia. done.
Qed.

Lemma seg_app m a pf b1 b2 :
  seg m a pf (b1 ++ b2) <-> seg m a pf b1 /\ seg m (ends a b1) (lastf pf b1) b2.
Proof.
  revert a pf. induction b1 as [|b r IH]; intros a pf; simpl.
  - rewrite ends_nil. naive_solver.
  - rewrite IH, ends_cons. naive_solver.
Qed.
Lemma tiles_app m a pf b1 b2 :
  tiles m a pf (b1 ++ b2) <-> seg m a pf b1 /\ tiles m (ends a b1) (lastf pf b1) b2.
Proof.
  revert a pf. induction b1 as [|b r IH]; intros a pf; simpl.
  - rewrite ends_nil. naive_solver.
  - rewrite IH, ends_cons. naive_solver.
Qed.
Lemma whdr_app a b1 b2 x : whdr a (b1 ++ b2) x <-> hdr a b1 x \/ whdr (ends a b1) b2 x.
Proof.
  revert a. induction b1 as [|b r IH]; intros a; simpl.
  - rewrite ends_nil. naive_solver.
  - rewrite IH, ends_cons. naive_solver.
Qed.

Lemma hdr_range a bs x : sizes_ok bs -> hdr a bs x -> a <= x /\ x + 12 <= ends a bs.
Proof.
  intros Hs. revert a. induction Hs as [|b r [Hb _] Hr IH]; intros a; simpl; [done|].
  rewrite ends_cons. unfold SIZEOF_heap_block in Hb.
  pose proof (total_nonneg _ Hr). intros [->|[->|Hx] ]; [unfold ends; lia..|].
  apply IH in Hx. lia.
Qed.
Lemma whdr_range a bs x : sizes_ok bs -> whdr a bs x -> x = a \/ a + 4 <= x.
Proof.
  intros Hs. revert a. induction Hs as [|b r [Hb _] Hr IH]; intros a; simpl; [lia|].
  unfold SIZEOF_heap_block in Hb. intros [->|[->|Hx] ]; [lia..|]. apply IH in Hx. lia.
Qed.
Lemma whdr_end a bs x : sizes_ok bs -> whdr a bs x -> a <= x <= ends a bs + 4.
Proof.
  intros Hs. revert a. induction Hs as [|b r [Hb _] Hr IH]; intros a; simpl.
  - rewrite ends_nil. lia.
  - unfold SIZEOF_heap_block in Hb. rewrite ends_cons. pose proof (total_nonneg _ Hr).
    intros [->|[->|Hx] ]; [unfold ends; lia..|]. apply IH in Hx. lia.
Qed.

Lemma seg_frame m m' a pf bs :
  agree (hdr a bs) m m' -> seg m a pf bs -> seg m' a pf bs.
Proof.
  revert a pf. induction bs as [|b r IH]; intros a pf Hag; simpl; [done|].
  intros (H1 & H2 & H3). rewrite !Hag by (simpl; auto). split_and!; auto.
  apply IH; [|done]. intros x Hx. apply Hag. simpl. auto.
Qed.

(** The back flag of the first header may be replaced. *)
Lemma tiles_frame m m' a pf pf' bs :
  sizes_ok bs -> m' !! a = Some pf' ->
  (forall x, whdr a bs x -> x <> a -> m' !! x = m !! x) ->
  tiles m a pf bs -> tiles m' a pf' bs.
Proof.
  intros Hs. revert a pf pf'. induction Hs as [|b r [Hb _] Hr IH]; intros a pf pf' Ha Hag; simpl.
  - intros [_ H]. split; [done|]. rewrite Hag; simpl; [done|auto|lia].
  - unfold SIZEOF_heap_block in Hb. intros (_ & H2 & H3). split_and!; [done| |].
    + rewrite Hag; simpl; [done|auto|lia].
    + assert (Hn : m !! (a + b.1) = Some (flag b)) by (destruct r; simpl in H3; tauto).
      assert (Hw : whdr (a + b.1) r (a + b.1)) by (destruct r; simpl; auto).
      eapply IH; [|intros x Hx Hne|exact H3].
      * rewrite Hag; [done|simpl; auto|lia].
      * apply Hag; [simpl; auto|]. apply whdr_range in Hx; [lia|done].
Qed.

Lemma free_addrs_app a b1 b2 :
  free_addrs a (b1 ++ b2) = free_addrs a b1 ++ free_addrs (ends a b1) b2.
Proof.
  revert a. induction b1 as [|b r IH]; intros a; simpl; [by rewrite ends_nil|].
  by rewrite IH, ends_cons, app_assoc.
Qed.

Lemma free_addrs_range a bs x :
  sizes_ok bs -> x ∈ free_addrs a bs -> a <= x /\ x + 16 <= ends a bs.
Proof.
  intros Hs. revert a. induction Hs as [|b r [Hb _] Hr IH]; intros a; simpl; [set_solver|].
  rewrite ends_cons, elem_of_app. unfold SIZEOF_heap_block in Hb.
  pose proof (total_nonneg _ Hr). intros [Hx|Hx]; [|apply IH in Hx; lia].
  destruct (b.2); [set_solver|]. apply list_elem_of_singleton in Hx as ->. unfold ends. lia.
Qed.

Lemma free_addrs_aligned a bs x :
  sizes_ok bs -> a mod 4 = 0 -> x ∈ free_addrs a bs -> x mod 4 = 0.
Proof.
  intros Hs. revert a. induction Hs as [|b r [_ Hb] Hr IH]; intros a Ha; simpl; [set_solver|].
  rewrite elem_of_app. intros [Hx|Hx]; [destruct (b.2); set_solver|].
  eapply IH; [|done]. rewrite Z.add_mod, Ha, Hb by lia. done.
Qed.

Lemma free_addrs_gap a bs x y :
  sizes_ok bs -> x ∈ free_addrs a bs -> y ∈ free_addrs a bs ->
  x = y \/ x + 16 <= y \/ y + 16 <= x.
Proof.
  intros Hs. revert a. induction Hs as [|b r [Hb _] Hr IH]; intros a; simpl; [set_solver|].
  unfold SIZEOF_heap_block in Hb. rewrite !elem_of_app.
  assert (Hhd : forall z, z ∈ (if b.2 then [] else [a]) -> z = a) by (destruct (b.2); set_solver).
  intros [Hx%Hhd|Hx] [Hy%Hhd|Hy]; [lia| | |by eapply IH].
  - apply free_addrs_range in Hy; [lia|done].
  - apply free_addrs_range in Hx; [lia|done].
Qed.

Lemma free_addrs_NoDup a bs : sizes_ok bs -> NoDup (free_addrs a bs).
Proof.
  intros Hs. revert a. induction Hs as [|b r [Hb _] Hr IH]; intros a; simpl; [constructor|].
  apply NoDup_app. split_and!; [destruct (b.2); [constructor|apply NoDup_singleton]| |apply IH].
  intros x Hx Hx'. apply free_addrs_range in Hx' as [Hx' _]; [|done].
  unfold SIZEOF_heap_block in Hb. destruct (b.2); set_solver by lia.
Qed.

(** The interior of a block holds no header word. *)
Lemma interior_not_hdr a b1 b b2 y :
  sizes_ok (b1 ++ b :: b2) ->
  ends a b1 + 8 <= y < ends a b1 + b.1 -> ~ whdr a (b1 ++ b :: b2) y.
Proof.
  intros Hs Hy. apply Forall_app in Hs as [Hs1 Hs2]. apply Forall_cons in Hs2 as [_ Hs2].
  rewrite whdr_app. simpl. intros [Hx|[Hx|[Hx|Hx] ] ]; [|lia..|].
  - apply hdr_range in Hx; [lia|done].
  - apply whdr_range in Hx; [lia|done].
Qed.

Lemma free_addrs_split a bs x :
  x ∈ free_addrs a bs -> exists b1 sz b2, bs = b1 ++ (sz, false) :: b2 /\ x = ends a b1.
Proof.
  revert a. induction bs as [|[sz u] r IH]; intros a; simpl; [set_solver|].
  rewrite elem_of_app. intros [Hx|Hx].
  - destruct u; simpl in Hx; [set_solver|]. apply list_elem_of_singleton in Hx as ->.
    exists [], sz, r. by rewrite ends_nil.
  - apply IH in Hx as (b1 & sz' & b2 & -> & ->). exists ((sz, u) :: b1), sz', b2.
    by rewrite ends_cons.
Qed.

Lemma free_interior_not_hdr a bs x y :
  sizes_ok bs -> x ∈ free_addrs a bs -> x + 8 <= y < x + 16 -> ~ whdr a bs y.
Proof.
  intros Hs Hx Hy. apply free_addrs_split in Hx as (b1 & sz & b2 & -> & ->).
  apply interior_not_hdr; [done|]. apply Forall_app in Hs as [_ Hs].
  apply Forall_cons in Hs as [ [Hb _] _]. unfold SIZEOF_heap_block in Hb. simpl in *. lia.
Qed.

(** ** The invariant *)

(** The nodes of the free list with its two sentinels. *)
Definition fnodes (h : Z) (fl : list Z) : list Z := lwp_heap_head h :: fl ++ [lwp_heap_tail h].

(** The managed area [lo .. hi+8) is aligned, does not wrap around and does not
    overlap the control structure. *)
Definition geometry (h lo hi : Z) : Prop :=
  0 < lo /\ lo mod 4 = 0 /\ hi + 8 <= 2 ^ 32 /\ 0 <= h /\ h + 28 <= 2 ^ 32 /\
  (h + 28 <= lo \/ hi + 8 <= h).

Definition pg_ok (pg : Z) : Prop := lwp_heap_pgsize_valid pg = true /\ 0 < pg < 2 ^ 31.

Record heap_inv (m : mem) (h pg start : Z) (bs : list block) (fl : list Z) : Prop := {
  hi_start : m !! hc_start h = Some start;
  hi_final : m !! hc_final h = Some (ends start bs);
  hi_pnull : m !! hc_perm_null h = Some NULL;
  hi_pg : m !! hc_pg_size h = Some pg;
  hi_pgok : pg_ok pg;
  hi_links : links 8 m (fnodes h fl);
  hi_tiles : tiles m start HEAP_DUMMY_FLAG bs;
  hi_sizes : sizes_ok bs;
  hi_perm : fl ≡ₚ free_addrs start bs;
  hi_coal : coalesced bs;
  hi_geo : geometry h start (ends start bs);
  hi_mapped : forall a, start <= a < ends start bs + 8 -> a mod 4 = 0 -> is_Some (m !! a)
}.

(** Every free-list node is a free block of the heap. *)
Lemma fl_elem fl start bs x :
  fl ≡ₚ free_addrs start bs -> x ∈ fl <-> x ∈ free_addrs start bs.
Proof. by intros ->. Qed.

Lemma removelast_fnodes h fl : removelast (fnodes h fl) = h :: fl.
Proof. unfold fnodes, lwp_heap_head. rewrite app_comm_cons. apply removelast_last. Qed.

Lemma fnodes_link_word h fl x :
  link_word 8 (fnodes h fl) x <->
  x = h + 8 \/ x = h + 16 \/ exists f, f ∈ fl /\ (x = f + 8 \/ x = f + 12).
Proof.
  unfold link_word. rewrite removelast_fnodes. unfold fnodes, lwp_heap_tail. simpl. split.
  - intros [(a & Ha & ->)|(a & Ha & ->)].
    + apply elem_of_cons in Ha as [->|Ha]; [auto|]. right; right. exists a. auto.
    + rewrite elem_of_app, list_elem_of_singleton in Ha. destruct Ha as [Ha| ->]; [|lia].
      right; right. exists a. split; [done|lia].
  - intros [->|[->|(f & Hf & [->| ->])] ].
    + left. exists h. set_solver.
    + right. exists (h + 4). split; [set_solver|lia].
    + left. exists f. set_solver.
    + right. exists f. split; [set_solver|lia].
Qed.

Section Facts.
Context (h start : Z) (bs : list block).
Hypothesis Hs : sizes_ok bs.
Hypothesis Hgeo : geometry h start (ends start bs).

Lemma fnodes_wf fl : fl ≡ₚ free_addrs start bs -> chain_wf (fnodes h fl).
Proof.
  intros Hp. destruct Hgeo as (G1 & G2 & G3 & G4 & G5 & G6).
  assert (Hr : forall x, x ∈ fl -> start <= x /\ x + 16 <= ends start bs).
  { intros x Hx. rewrite fl_elem in Hx by done. by apply free_addrs_range. }
  unfold fnodes, lwp_heap_head, lwp_heap_tail. split.
  - apply NoDup_cons. split; [|apply NoDup_app; split_and!].
    + rewrite elem_of_app, list_elem_of_singleton. intros [Hx|Hx]; [apply Hr in Hx|]; lia.
    + rewrite Hp. by apply free_addrs_NoDup.
    + intros x Hx%Hr. rewrite list_elem_of_singleton. lia.
    + apply NoDup_singleton.
  - intros a b. rewrite (removelast_fnodes h fl : removelast (h :: fl ++ [h + 4]) = _). simpl.
    rewrite elem_of_cons, elem_of_app, list_elem_of_singleton.
    intros [->|Ha] [Hb| ->]; [apply Hr in Hb; lia|lia| |apply Hr in Ha; lia].
    rewrite fl_elem in Ha, Hb by done.
    destruct (free_addrs_gap start bs a b) as [?|[?|?] ]; [done..|lia|lia|lia].
Qed.

Lemma link_word_not_hdr fl x :
  fl ≡ₚ free_addrs start bs -> link_word 8 (fnodes h fl) x -> ~ whdr start bs x.
Proof.
  intros Hp. rewrite fnodes_link_word. destruct Hgeo as (G1 & G2 & G3 & G4 & G5 & G6).
  intros [->|[->|(f & Hf & Hx)] ].
  - intros Hw%whdr_end; [|done]. lia.
  - intros Hw%whdr_end; [|done]. lia.
  - rewrite fl_elem in Hf by done. eapply free_interior_not_hdr; [done..|lia].
Qed.

(** The words of the control structure outside the list are not link words. *)
Lemma control_not_link fl x :
  fl ≡ₚ free_addrs start bs ->
  x = h \/ x = h + 4 \/ x = h + 12 \/ x = h + 20 ->
  ~ link_word 8 (fnodes h fl) x /\ ~ (start <= x <= ends start bs).
Proof.
  intros Hp Hx. rewrite fnodes_link_word. destruct Hgeo as (G1 & G2 & G3 & G4 & G5 & G6).
  split; [|lia]. intros [?|[?|(f & Hf & ?)] ]; [lia..|].
  rewrite fl_elem in Hf by done. apply free_addrs_range in Hf; [lia|done].
Qed.

(** Link words lie inside the managed area or in the list heads. *)
Lemma link_word_range fl x :
  fl ≡ₚ free_addrs start bs -> link_word 8 (fnodes h fl) x ->
  x = h + 8 \/ x = h + 16 \/ start + 8 <= x < ends start bs.
Proof.
  intros Hp. rewrite fnodes_link_word. intros [?|[?|(f & Hf & ?)] ]; [auto..|].
  rewrite fl_elem in Hf by done. apply free_addrs_range in Hf; [lia|done].
Qed.
End Facts.

Lemma total_eq_ends a b1 mid mid' b2 :
  total mid = total mid' -> ends a (b1 ++ mid ++ b2) = ends a (b1 ++ mid' ++ b2).
Proof. intros H. unfold ends. rewrite !total_app. lia. Qed.

(** Replacing the blocks [mid] by [mid'] of the same total size. *)
Lemma heap_inv_update m m' h pg start b1 mid mid' b2 fl fl' :
  heap_inv m h pg start (b1 ++ mid ++ b2) fl ->
  total mid = total mid' -> mid' <> [] ->
  sizes_ok mid' -> coalesced (b1 ++ mid' ++ b2) ->
  fl' ≡ₚ free_addrs start (b1 ++ mid' ++ b2) ->
  links 8 m' (fnodes h fl') ->
  seg m' (ends start b1) (lastf HEAP_DUMMY_FLAG b1) mid' ->
  m' !! ends (ends start b1) mid = Some (lastf HEAP_DUMMY_FLAG (b1 ++ mid')) ->
  (forall x, is_Some (m !! x) -> is_Some (m' !! x)) ->
  (forall x, x < ends start b1 \/ ends (ends start b1) mid < x ->
     ~ link_word 8 (fnodes h fl) x -> m' !! x = m !! x) ->
  heap_inv m' h pg start (b1 ++ mid' ++ b2) fl'.
Proof.
  intros Hinv Htot Hne Hsz Hco Hp' Hl' Hseg Hend Hmap Hag.
  pose proof (hi_sizes _ _ _ _ _ _ Hinv) as Hs. pose proof (hi_geo _ _ _ _ _ _ Hinv) as Hg.
  pose proof (hi_perm _ _ _ _ _ _ Hinv) as Hp.
  pose proof (total_eq_ends start b1 mid mid' b2 Htot) as Hends.
  assert (Hs' := Hs). apply Forall_app in Hs' as [Hs1 Hs23]. apply Forall_app in Hs23 as [Hs2 Hs3].
  assert (Ha0 : start <= ends start b1) by (unfold ends; pose proof (total_nonneg _ Hs1); lia).
  assert (Ha1 : ends (ends start b1) mid <= ends start (b1 ++ mid ++ b2)).
  { unfold ends. rewrite !total_app. pose proof (total_nonneg _ Hs3). lia. }
  assert (Hctl : forall x, x = h \/ x = h + 4 \/ x = h + 12 \/ x = h + 20 -> m' !! x = m !! x).
  { intros x Hx. destruct (control_not_link h start _ Hs Hg fl x Hp Hx). apply Hag; [lia|done]. }
  assert (Hh1 : forall x, hdr start b1 x -> m' !! x = m !! x).
  { intros x Hx. pose proof (hdr_range _ _ _ Hs1 Hx). apply Hag; [lia|].
    intros Hw. apply (link_word_not_hdr h start _ Hs Hg fl x Hp Hw). apply whdr_app. by left. }
  assert (Hh2 : forall x, whdr (ends (ends start b1) mid) b2 x ->
            x <> ends (ends start b1) mid -> m' !! x = m !! x).
  { intros x Hx Hnx. apply whdr_range in Hx as Hx'; [|done]. apply Hag; [lia|].
    intros Hw. apply (link_word_not_hdr h start _ Hs Hg fl x Hp Hw).
    rewrite app_assoc, whdr_app, ends_app. by right. }
  pose proof (hi_tiles _ _ _ _ _ _ Hinv) as Ht. rewrite app_assoc, tiles_app, ends_app in Ht.
  destruct Ht as [Ht1 Ht2]. apply seg_app in Ht1 as [Ht1 _].
  destruct Hinv. constructor; try done.
  - by rewrite Hctl by (unfold hc_start; auto).
  - rewrite <- Hends. by rewrite Hctl by (unfold hc_final; auto).
  - by rewrite Hctl by (unfold hc_perm_null; auto).
  - by rewrite Hctl by (unfold hc_pg_size; auto).
  - rewrite app_assoc, tiles_app, seg_app, ends_app. split_and!; [|done|].
    + eapply seg_frame; [|done]. intros x Hx. auto.
    + assert (Heq : ends (ends start b1) mid = ends (ends start b1) mid')
        by (unfold ends; lia). rewrite <- Heq.
      eapply tiles_frame; [done|done| |exact Ht2]. done.
  - apply Forall_app; split; [done|]. by apply Forall_app.
  - by rewrite <- Hends.
  - intros a Ha Ha4. rewrite <- Hends in Ha. auto.
Qed.
