(* ===== verification/LwpHeapProofs.v ===== *)
(** * Correctness of the workspace heap

    Allocation, release, statistics and initialisation of [lwp_heap.c] against
    the layout invariant of [LwpHeapInv]. *)

From stdpp Require Import base gmap list fin_maps.
From Stdlib Require Import ZArith Lia.
From S2P Require Import Prelude Chain LwpHeap LwpHeapInv.

Open Scope Z_scope.

(** ** Flags *)

Lemma block_ok_even b : block_ok b -> b.1 mod 2 = 0 /\ 16 <= b.1.
Proof.
  intros [H1 H2]. unfold SIZEOF_heap_block in H1. split; [|done].
  rewrite (Z.div_mod (b.1) 4), H2 by lia. rewrite Z.add_0_r.
  rewrite Z.mul_comm. replace (b.1 / 4 * 4) with (b.1 / 4 * 2 * 2) by lia.
  apply Z.mod_mul. lia.
Qed.

Lemma flag_mod2 b : block_ok b -> flag b mod 2 = b2z b.2.
Proof.
  intros [H _]%block_ok_even. unfold flag. rewrite Z.add_mod, H by lia. by destruct (b.2).
Qed.

Lemma flag_used b : block_ok b -> (Z.land (flag b) HEAP_BLOCK_USED =? 0) = negb b.2.
Proof.
  intros H. unfold HEAP_BLOCK_USED. rewrite land_1_mod, flag_mod2 by done. by destruct (b.2).
Qed.

Lemma flag_size b : block_ok b -> Z.ldiff (flag b) HEAP_BLOCK_USED = b.1.
Proof.
  intros H. unfold HEAP_BLOCK_USED. rewrite ldiff_1, flag_mod2 by done. unfold flag. lia.
Qed.

Lemma buildflag_used sz : block_ok (sz, true) ->
  lwp_heap_buildflag sz HEAP_BLOCK_USED = flag (sz, true).
Proof. intros [H _]%block_ok_even. by apply lor_1_even. Qed.

Lemma flag_free sz : flag (sz, false) = sz.
Proof. unfold flag. simpl. lia. Qed.

(** ** What the invariant says of one block *)

Section Block.
Context (m : mem) (h pg start : Z) (b1 : list block) (b : block) (b2 : list block) (fl : list Z).
Hypothesis Hinv : heap_inv m h pg start (b1 ++ b :: b2) fl.
Local Notation a0 := (ends start b1).

Lemma inv_sizes : sizes_ok b1 /\ block_ok b /\ sizes_ok b2.
Proof.
  pose proof (hi_sizes _ _ _ _ _ _ Hinv) as Hs. apply Forall_app in Hs as [H1 H2].
  by apply Forall_cons in H2 as [H2 H3].
Qed.

Lemma inv_words :
  m !! a0 = Some (lastf HEAP_DUMMY_FLAG b1) /\ m !! (a0 + 4) = Some (flag b) /\
  m !! (a0 + b.1) = Some (flag b) /\ tiles m (a0 + b.1) (flag b) b2.
Proof.
  pose proof (hi_tiles _ _ _ _ _ _ Hinv) as Ht. rewrite tiles_app in Ht.
  destruct Ht as [_ (H1 & H2 & H3)]. split_and!; try done. destruct b2; simpl in H3; tauto.
Qed.

Lemma inv_bounds :
  0 < start /\ start <= a0 /\ a0 mod 4 = 0 /\ 16 <= b.1 /\ b.1 mod 4 = 0 /\
  a0 + b.1 <= ends start (b1 ++ b :: b2) /\ a0 + b.1 + 8 <= 2 ^ 32 /\
  (a0 + b.1) mod 4 = 0.
Proof.
  destruct inv_sizes as (H1 & [H2 H2'] & H3).
  destruct (hi_geo _ _ _ _ _ _ Hinv) as (G1 & G2 & G3 & _).
  pose proof (total_nonneg _ H1). pose proof (total_nonneg _ H3).
  assert (Hm : a0 mod 4 = 0).
  { unfold ends. rewrite Z.add_mod, G2, total_mod4 by (done || lia). done. }
  assert (He : ends start (b1 ++ b :: b2) = a0 + b.1 + total b2)
    by (unfold ends; rewrite total_app; simpl; lia).
  unfold SIZEOF_heap_block in H2. split_and!; try lia; try done.
  - unfold ends. lia.
  - rewrite Z.add_mod, Hm, H2' by lia. done.
Qed.

Lemma inv_mapped x : a0 <= x < a0 + b.1 + 8 -> x mod 4 = 0 -> is_Some (m !! x).
Proof.
  intros Hx Hx4. apply (hi_mapped _ _ _ _ _ _ Hinv); [|done].
  pose proof inv_bounds. lia.
Qed.

(** Link words inside the block are its own, and only if it is free. *)
Lemma inv_link_word x : link_word 8 (fnodes h fl) x ->
  x < a0 \/ (b.2 = false /\ (x = a0 + 8 \/ x = a0 + 12)) \/ a0 + b.1 < x.
Proof.
  intros Hx%fnodes_link_word. destruct (hi_geo _ _ _ _ _ _ Hinv) as (G1&G2&G3&G4&G5&G6).
  pose proof inv_bounds as (B1&B2&B3&B4&B5&B6&B7&B8). destruct inv_sizes as (S1 & S2 & S3).
  destruct Hx as [->|[->|(f & Hf & Hx)] ]; [lia..|].
  rewrite fl_elem in Hf by apply (hi_perm _ _ _ _ _ _ Hinv).
  rewrite free_addrs_app, elem_of_app in Hf. destruct Hf as [Hf|Hf].
  - apply free_addrs_range in Hf; [lia|done].
  - simpl in Hf. apply elem_of_app in Hf as [Hf|Hf].
    + destruct (b.2); [set_solver|]. apply list_elem_of_singleton in Hf as ->. lia.
    + apply free_addrs_range in Hf; [lia|done].
Qed.

Lemma inv_chain_wf : chain_wf (fnodes h fl).
Proof.
  eapply fnodes_wf; [apply (hi_sizes _ _ _ _ _ _ Hinv)|apply (hi_geo _ _ _ _ _ _ Hinv)|
    apply (hi_perm _ _ _ _ _ _ Hinv)].
Qed.
End Block.

(** Words of a used block are no words of the free list. *)
Lemma used_not_link m h pg start b1 sz b2 fl x :
  heap_inv m h pg start (b1 ++ (sz, true) :: b2) fl ->
  ends start b1 <= x <= ends start b1 + sz -> ~ link_word 8 (fnodes h fl) x.
Proof.
  intros Hinv Hx Hw. apply (inv_link_word _ _ _ _ _ _ _ _ Hinv) in Hw. simpl in Hw. lia.
Qed.

(** A write of the user into the area behind the header of a used block. *)
Lemma heap_inv_user_store m h pg start b1 sz b2 fl x v :
  heap_inv m h pg start (b1 ++ (sz, true) :: b2) fl ->
  ends start b1 + 8 <= x < ends start b1 + sz ->
  heap_inv (<[x := v]> m) h pg start (b1 ++ (sz, true) :: b2) fl.
Proof.
  intros Hinv Hx. destruct (inv_sizes _ _ _ _ _ _ _ _ Hinv) as (S1&S2&S3).
  destruct (inv_words _ _ _ _ _ _ _ _ Hinv) as (W1&W2&W3&_). simpl in W3.
  apply (heap_inv_update m _ h pg start b1 [(sz, true)] [(sz, true)] b2 fl fl Hinv); try done.
  - by apply Forall_singleton.
  - apply (hi_coal _ _ _ _ _ _ Hinv).
  - apply (hi_perm _ _ _ _ _ _ Hinv).
  - apply links_insert_other; [|apply (hi_links _ _ _ _ _ _ Hinv)].
    eapply used_not_link; [done|lia].
  - simpl. split_and!; [by rewrite lookup_insert_ne by lia..|done].
  - unfold ends at 1. simpl. rewrite Z.add_0_r, lastf_app.
    rewrite lookup_insert_ne by (unfold ends in *; lia). done.
  - intros y Hy. by apply mapped_insert.
  - intros y Hy _. rewrite lookup_insert_ne; [done|]. unfold ends in *. simpl in Hy. lia.
Qed.

(** ** First-fit search *)

(** Size of the free block at [f], as its header gives it. *)
Definition free_size_at (start : Z) (bs : list block) (f sz : Z) : Prop :=
  exists b1 b2, bs = b1 ++ (sz, false) :: b2 /\ f = ends start b1.

(** The result of the search over the free list [fl]: the first block that is
    large enough, or nothing when every block is too small. *)
Definition first_fit (start : Z) (bs : list block) (dsize : Z) (fl : list Z) (r : option Z) : Prop :=
  match r with
  | None => forall f, f ∈ fl -> exists sz, free_size_at start bs f sz /\ sz < dsize
  | Some a => exists f1 f2 sz, fl = f1 ++ a :: f2 /\ free_size_at start bs a sz /\ dsize <= sz /\
      forall f, f ∈ f1 -> exists sz, free_size_at start bs f sz /\ sz < dsize
  end.

Section Search.
Context (m : mem) (h pg start : Z) (bs : list block) (fl : list Z).
Hypothesis Hinv : heap_inv m h pg start bs fl.

Lemma free_front f : f ∈ fl -> exists sz, free_size_at start bs f sz /\ m !! (f + 4) = Some sz.
Proof.
  rewrite (fl_elem fl start bs) by apply (hi_perm _ _ _ _ _ _ Hinv).
  intros (b1 & sz & b2 & -> & ->)%free_addrs_split. exists sz. split; [by exists b1, b2|].
  destruct (inv_words _ _ _ _ _ _ _ _ Hinv) as (_ & H & _). by rewrite flag_free in H.
Qed.

Lemma free_not_tail f : f ∈ fl -> f <> lwp_heap_tail h.
Proof.
  intros Hf ->. assert (Hwf : chain_wf (fnodes h fl)).
  { eapply fnodes_wf; [by eapply hi_sizes|by eapply hi_geo|by eapply hi_perm]. }
  destruct Hwf as [Hnd _]. apply NoDup_cons in Hnd as [_ Hnd].
  apply NoDup_app in Hnd as (_ & Hnd & _). eapply Hnd; [done|set_solver].
Qed.

Lemma free_next pre f rest :
  fl = pre ++ f :: rest -> m !! (f + 8) = Some (hd (lwp_heap_tail h) rest).
Proof.
  intros ->. pose proof (hi_links _ _ _ _ _ _ Hinv) as Hl. unfold fnodes in Hl.
  rewrite <- app_assoc, app_comm_cons in Hl. destruct rest as [|f' rest]; simpl in *.
  - by apply (links_next 8 m (lwp_heap_head h :: pre) f (lwp_heap_tail h) []) in Hl as [? _].
  - by apply (links_next 8 m (lwp_heap_head h :: pre) f f' (rest ++ [lwp_heap_tail h])) in Hl as [? _].
Qed.

Lemma heap_search_spec dsize fuel rest pre :
  fl = pre ++ rest -> (length rest < fuel)%nat ->
  wp (heap_search fuel h dsize (hd (lwp_heap_tail h) rest))
    (fun r m' => m' = m /\ first_fit start bs dsize rest r) m.
Proof.
  revert rest pre. induction fuel as [|fuel IH]; intros rest pre Hfl Hlen; [lia|].
  destruct rest as [|f rest]; simpl.
  - rewrite Z.eqb_refl. apply wp_ret. split; [done|]. intros f Hf. set_solver.
  - assert (Hf : f ∈ fl) by (rewrite Hfl; set_solver).
    pose proof (free_not_tail f Hf). destruct (Z.eqb_spec f (lwp_heap_tail h)); [done|].
    destruct (free_front f Hf) as (sz & Hsz & Hw). apply wp_bind.
    eapply wp_load; [exact Hw|]. destruct (Z.leb_spec dsize sz).
    + apply wp_ret. split; [done|]. exists [], rest, sz. split_and!; try done. set_solver.
    + apply wp_bind. eapply wp_load; [by eapply free_next|].
      eapply wp_mono; [apply (IH rest (pre ++ [f])); [by rewrite <- app_assoc|simpl in Hlen; lia]|].
      intros r m' [-> Hr]. split; [done|]. destruct r as [a|]; simpl in *.
      * destruct Hr as (f1 & f2 & sz' & -> & H1 & H2 & H3). exists (f :: f1), f2, sz'.
        split_and!; try done. intros g. rewrite elem_of_cons. intros [->|Hg]; eauto.
      * intros g. rewrite elem_of_cons. intros [->|Hg]; eauto.
Qed.

(** The fuel the model gives the search is enough. *)
Lemma fl_length : (length fl < mem_fuel m)%nat.
Proof.
  unfold mem_fuel. apply Nat.lt_succ_r.
  assert (Hnd : NoDup ((fun f => f + 8) <$> fl)).
  { apply NoDup_fmap_2; [intros x y ?; lia|].
    rewrite (hi_perm _ _ _ _ _ _ Hinv). apply free_addrs_NoDup. by eapply hi_sizes. }
  rewrite <- (length_fmap (fun f => f + 8)), <- (size_list_to_set (C := gset Z)) by done.
  rewrite <- size_dom. apply subseteq_size. intros x.
  rewrite elem_of_list_to_set, list_elem_of_fmap. intros (f & -> & Hf).
  apply elem_of_dom. apply list_elem_of_split in Hf as (f1 & f2 & Hfl).
  rewrite (free_next f1 f f2 Hfl). eauto.
Qed.
End Search.

(** ** Runs of the inline helpers *)

Section Helpers.
Context (m : mem).

Lemma wp_nextblock a b Q :
  m !! (a + 4) = Some (flag b) -> block_ok b -> 0 <= a -> a + b.1 < 2 ^ 32 ->
  Q (a + b.1) m -> wp (lwp_heap_nextblock a) Q m.
Proof.
  intros Hm Hb Ha Hlt HQ. unfold lwp_heap_nextblock, front_flag. apply wp_bind.
  eapply wp_load; [done|]. apply wp_ret. rewrite flag_size by done.
  apply block_ok_even in Hb. by rewrite wrap_small by lia.
Qed.

Lemma wp_blockfree a b Q :
  m !! (a + 4) = Some (flag b) -> block_ok b -> Q (negb b.2) m -> wp (lwp_heap_blockfree a) Q m.
Proof.
  intros Hm Hb HQ. unfold lwp_heap_blockfree, front_flag. apply wp_bind.
  eapply wp_load; [done|]. apply wp_ret. by rewrite flag_used.
Qed.

Lemma wp_prev_blockfree a b Q :
  m !! a = Some (flag b) -> block_ok b -> Q (negb b.2) m -> wp (lwp_heap_prev_blockfree a) Q m.
Proof.
  intros Hm Hb HQ. unfold lwp_heap_prev_blockfree, back_flag. apply wp_bind.
  eapply wp_load; [done|]. apply wp_ret. by rewrite flag_used.
Qed.

Lemma wp_prevblock a b Q :
  m !! a = Some (flag b) -> block_ok b -> 0 <= a - b.1 -> a < 2 ^ 32 ->
  Q (a - b.1) m -> wp (lwp_heap_prevblock a) Q m.
Proof.
  intros Hm Hb Ha Hlt HQ. unfold lwp_heap_prevblock, back_flag. apply wp_bind.
  eapply wp_load; [done|]. apply wp_ret. rewrite flag_size by done.
  apply block_ok_even in Hb. by rewrite wrap_small by lia.
Qed.

Lemma wp_blocksize a b Q :
  m !! (a + 4) = Some (flag b) -> block_ok b -> Q (b.1) m -> wp (lwp_heap_blocksize a) Q m.
Proof.
  intros Hm Hb HQ. unfold lwp_heap_blocksize, front_flag. apply wp_bind.
  eapply wp_load; [done|]. apply wp_ret. by rewrite flag_size.
Qed.

Lemma wp_blockin h s f a Q :
  m !! hc_start h = Some s -> m !! hc_final h = Some f ->
  s <= a <= f -> Q true m -> wp (lwp_heap_blockin h a) Q m.
Proof.
  intros H1 H2 Ha HQ. unfold lwp_heap_blockin. apply wp_bind. eapply wp_load; [done|].
  apply wp_bind. eapply wp_load; [done|]. apply wp_ret.
  destruct (Z.leb_spec s a), (Z.leb_spec a f); done || lia.
Qed.
End Helpers.

(** The neighbours of a block in the free list. *)
Record neighbours (m : mem) (h : Z) (fl : list Z) (x : Z) (f1 f2 N1 : list Z) (a b : Z)
    (N2 : list Z) : Prop := {
  nb_old : fnodes h fl = N1 ++ a :: x :: b :: N2;
  nb_put y : fnodes h (f1 ++ y :: f2) = N1 ++ a :: y :: b :: N2;
  nb_del : fnodes h (f1 ++ f2) = N1 ++ a :: b :: N2;
  nb_next_a : m !! (a + 8) = Some x;
  nb_prev_x : m !! (x + 8 + 4) = Some a;
  nb_next_x : m !! (x + 8) = Some b;
  nb_prev_b : m !! (b + 8 + 4) = Some x;
  nb_word_a : link_word 8 (fnodes h fl) (a + 8);
  nb_word_b : link_word 8 (fnodes h fl) (b + 8 + 4);
  nb_dist : a <> x /\ b <> x /\ a <> b + 4 /\ x <> b + 4 /\ a <> x + 4;
  nb_first : a = h \/ (a <> h /\ h <> b + 4 /\ exists g, m !! (h + 8) = Some g /\ g <> x)
}.

Lemma fl_neighbours m h fl f1 x f2 :
  links 8 m (fnodes h fl) -> chain_wf (fnodes h fl) -> fl = f1 ++ x :: f2 ->
  exists N1 a b N2, neighbours m h fl x f1 f2 N1 a b N2.
Proof.
  intros Hl [Hnd Hsep] Hfl.
  destruct (exists_last (l := h :: f1)) as (N1 & a & Ha); [done|].
  destruct (f2 ++ [lwp_heap_tail h]) as [|b N2] eqn:Hb; [by destruct f2|].
  assert (Hput : forall y, fnodes h (f1 ++ y :: f2) = N1 ++ a :: y :: b :: N2).
  { intros y. unfold fnodes, lwp_heap_head. rewrite <- app_assoc, app_comm_cons, Ha. simpl.
    rewrite Hb. by rewrite <- app_assoc. }
  assert (Hold := Hput x). rewrite <- Hfl in Hold.
  exists N1, a, b, N2. rewrite Hold in Hl, Hnd, Hsep. pose proof Hl as Hl'.
  rewrite links_app, !links_cons2 in Hl'. destruct Hl' as (_ & La & Lpa & Lna & Lb & _).
  constructor; try done.
  - unfold fnodes, lwp_heap_head. rewrite <- app_assoc, app_comm_cons, Ha, Hb.
    by rewrite <- app_assoc.
  - rewrite Hold. auto with chain.
  - rewrite Hold. auto with chain.
  - eapply chain_wf_triple. split; [exact Hnd|exact Hsep].
  - destruct f1 as [|g f1]; [left; destruct N1 as [|? [|? ?] ]; naive_solver|right].
    assert (Hg : NoDup (fnodes h fl)) by by rewrite Hold.
    assert (Hag : a ∈ g :: f1).
    { destruct N1 as [|y N1]; [done|]. injection Ha as -> ->. apply elem_of_app. right. by left. }
    assert (Hhb : h <> b + 4).
    { destruct N1 as [|y N1]; [done|]. injection Ha as -> Ha. apply Hsep.
      - rewrite removelast_mid. apply elem_of_app. left. by left.
      - apply elem_of_tail_mid. right. right. by left. }
    unfold fnodes, lwp_heap_head in Hg. rewrite Hfl in Hg. apply NoDup_cons in Hg as [Hgh Hg].
    split; [|split; [done|] ].
    + intros ->. apply Hgh. apply elem_of_app. left. apply elem_of_app. by left.
    + exists g. split.
      * assert (Hl2 : links 8 m (fnodes h fl)) by by rewrite Hold.
        rewrite Hfl in Hl2. apply Hl2.
      * intros ->. rewrite <- app_assoc in Hg. simpl in Hg.
        apply NoDup_cons in Hg as [Hg _]. apply Hg. apply elem_of_app. right. by left.
Qed.

Lemma pg_ok_ge pg : pg_ok pg -> 8 <= pg < 2 ^ 31 /\ pg mod 8 = 0.
Proof.
  intros [Hv Hr]. unfold lwp_heap_pgsize_valid, PPC_ALIGNMENT in Hv.
  apply andb_true_iff in Hv as [_ Hv]. apply Z.eqb_eq in Hv. split; [|done].
  pose proof (Z.div_mod pg 8). lia.
Qed.

(** ** Neighbouring free blocks *)

Lemma coalesced_cons b r :
  coalesced (b :: r) <-> (forall c, head r = Some c -> b.2 || c.2 = true) /\ coalesced r.
Proof. destruct r as [|c r]; simpl; naive_solver. Qed.

Lemma coalesced_snoc l b :
  coalesced (l ++ [b]) <-> coalesced l /\ (forall c, last l = Some c -> c.2 || b.2 = true).
Proof.
  induction l as [|x [|y l] IH]; simpl in *; [naive_solver..|].
  rewrite IH. naive_solver.
Qed.

Lemma coalesced_ctx l b r :
  coalesced (l ++ b :: r) <->
  coalesced l /\ coalesced r /\
  (forall c, last l = Some c -> c.2 || b.2 = true) /\
  (forall c, head r = Some c -> b.2 || c.2 = true).
Proof.
  assert (H : coalesced (l ++ b :: r) <-> coalesced (l ++ [b]) /\ coalesced (b :: r)).
  { induction l as [|x [|y l] IH]; simpl in *; [naive_solver..|]. rewrite IH. naive_solver. }
  rewrite H, coalesced_snoc, coalesced_cons. naive_solver.
Qed.

(** ** Carving *)

(** A change confined to the words of block [a .. a+sz] and of the free list. *)
Definition confined (m m' : mem) (h : Z) (fl : list Z) (a sz : Z) : Prop :=
  forall x, x < a \/ a + sz < x -> ~ link_word 8 (fnodes h fl) x -> m' !! x = m !! x.

Section Carve.
Context (m : mem) (h pg start : Z) (b1 : list block) (sz : Z) (b2 : list block) (fl : list Z).
Hypothesis Hinv : heap_inv m h pg start (b1 ++ (sz, false) :: b2) fl.
Local Notation a0 := (ends start b1).

(** The block is larger than needed by more than a minimal block: its end is
    cut off, the free remainder keeps its place in the list. *)
Lemma carve_split dsize :
  16 <= dsize -> dsize mod 4 = 0 -> dsize <= sz -> pg + 8 < sz - dsize ->
  wp (heap_carve pg a0 dsize)
    (fun p m' => p = a0 + (sz - dsize) + 8 /\ confined m m' h fl a0 sz /\
       heap_inv m' h pg start (b1 ++ (sz - dsize, false) :: (dsize, true) :: b2) fl) m.
Proof.
  intros Hd Hd4 Hle Hgt.
  destruct (inv_bounds _ _ _ _ _ _ _ _ Hinv) as (B1&B2&B3&B4&B5&B6&B7&B8). simpl in *.
  destruct (inv_words _ _ _ _ _ _ _ _ Hinv) as (W1&W2&W3&_). simpl in W3.
  destruct (pg_ok_ge _ (hi_pgok _ _ _ _ _ _ Hinv)) as [Hpg _].
  rewrite flag_free in W2, W3.
  assert (Hrem4 : (sz - dsize) mod 4 = 0) by (rewrite Zminus_mod, B5, Hd4; done).
  assert (Hokf : block_ok (sz - dsize, false)) by (split; simpl; unfold SIZEOF_heap_block; lia).
  assert (Hoku : block_ok (dsize, true)) by (split; simpl; unfold SIZEOF_heap_block; lia).
  assert (Hmap := inv_mapped _ _ _ _ _ _ _ _ Hinv). simpl in Hmap.
  assert (Hm1 : is_Some (m !! (a0 + (sz - dsize)))).
  { apply Hmap; [lia|]. rewrite Z.add_mod, B3, Hrem4 by lia. done. }
  assert (Hm2 : is_Some (m !! (a0 + (sz - dsize) + 4))).
  { apply Hmap; [lia|]. rewrite Z.add_mod, (Z.add_mod a0), B3, Hrem4 by lia. done. }
  unfold heap_carve. mem_step. unfold front_flag at 1. mem_step.
  unfold HEAP_BLOCK_USED_OVERHEAD. rewrite !wrap_small by lia.
  destruct (Z.ltb_spec (pg + 4 * 2) (sz - dsize)); [|lia]. unfold front_flag, back_flag.
  mem_step. mem_step. apply wp_bind.
  apply (wp_nextblock _ _ (sz - dsize, false)); [mem_lookup; by rewrite flag_free|done|lia|simpl; lia|].
  simpl. mem_step. mem_step. mem_step. mem_step.
  unfold lwp_heap_blockat. rewrite wrap_small by lia.
  replace (a0 + (sz - dsize) + dsize) with (a0 + sz) by lia.
  mem_run. rewrite buildflag_used by done. unfold lwp_heap_startuser, blk_next.
  split_and!; [done| |].
  - intros x Hx _. mem_lookup. done.
  - apply (heap_inv_update m _ h pg start b1 [(sz, false)] [(sz - dsize, false); (dsize, true)]
      b2 fl fl Hinv); try done.
    + simpl. lia.
    + repeat (apply List.Forall_cons; [done|]). apply List.Forall_nil.
    + pose proof (hi_coal _ _ _ _ _ _ Hinv) as (C1&C2&C3&C4)%coalesced_ctx.
      apply coalesced_ctx. split_and!; [done|apply coalesced_cons; done|done|naive_solver].
    + pose proof (hi_perm _ _ _ _ _ _ Hinv) as Hp. rewrite Hp.
      rewrite !free_addrs_app. simpl. by replace (ends a0 [(sz - dsize, false); (dsize, true)]) with (a0 + sz)
        by (unfold ends; simpl; lia).
    + eapply links_frame; [|by eapply hi_links]. intros x Hx.
      apply (inv_link_word _ _ _ _ _ _ _ _ Hinv) in Hx. simpl in Hx. by mem_lookup.
    + simpl. rewrite !flag_free. split_and!; [by mem_lookup..|done].
    + unfold ends at 1. simpl. rewrite Z.add_0_r, lastf_app. simpl. by mem_lookup.
    + intros x Hx. by repeat apply mapped_insert.
    + unfold ends in *. simpl. intros x Hx _. by mem_lookup.
Qed.

(** Otherwise the whole block is taken and unlinked from the free list. *)
Lemma carve_whole dsize :
  dsize <= sz -> sz - dsize <= pg + 8 ->
  wp (heap_carve pg a0 dsize)
    (fun p m' => p = a0 + 8 /\ confined m m' h fl a0 sz /\
       exists f1 f2, fl = f1 ++ a0 :: f2 /\
         heap_inv m' h pg start (b1 ++ (sz, true) :: b2) (f1 ++ f2)) m.
Proof.
  intros Hle Hgt.
  destruct (inv_bounds _ _ _ _ _ _ _ _ Hinv) as (B1&B2&B3&B4&B5&B6&B7&B8). simpl in *.
  destruct (inv_words _ _ _ _ _ _ _ _ Hinv) as (W1&W2&W3&_). simpl in W3.
  destruct (inv_sizes _ _ _ _ _ _ _ _ Hinv) as (S1&S2&S3).
  destruct (pg_ok_ge _ (hi_pgok _ _ _ _ _ _ Hinv)) as [Hpg _].
  pose proof (hi_perm _ _ _ _ _ _ Hinv) as Hp.
  pose proof (hi_links _ _ _ _ _ _ Hinv) as Hl.
  pose proof (inv_chain_wf _ _ _ _ _ _ _ _ Hinv) as Hwf.
  assert (Ha0 : a0 ∈ fl).
  { rewrite (fl_elem _ _ _ _ Hp), free_addrs_app. simpl. set_solver. }
  apply list_elem_of_split in Ha0 as (f1 & f2 & Hfl).
  destruct (fl_neighbours m h fl f1 a0 f2 Hl Hwf Hfl) as (N1 & a & b & N2 & Hnb).
  destruct Hnb as [HN _ HN' La Lpa Lna Lb Hlwa Hlwb (D1&D2&D3&D4&D5) _].
  pose proof (inv_link_word _ _ _ _ _ _ _ _ Hinv _ Hlwa) as Ra. simpl in Ra.
  pose proof (inv_link_word _ _ _ _ _ _ _ _ Hinv _ Hlwb) as Rb. simpl in Rb.
  rewrite flag_free in W2, W3.
  assert (Hoku : block_ok (sz, true)) by done.
  unfold heap_carve. mem_step. unfold front_flag at 1. mem_step.
  unfold HEAP_BLOCK_USED_OVERHEAD. rewrite !wrap_small by lia.
  destruct (Z.ltb_spec (pg + 4 * 2) (sz - dsize)); [lia|].
  unfold front_flag, back_flag, blk_next, blk_prev. apply wp_bind.
  apply (wp_nextblock _ _ (sz, false)); [by rewrite flag_free|done|lia|simpl; lia|]. simpl.
  mem_step. mem_step. rewrite buildflag_used by done. mem_step. mem_step. mem_step.
  eapply wp_load; [by mem_lookup|]. mem_run.
  split_and!; [done| |exists f1, f2; split; [done|] ].
  - intros x Hx Hn. rewrite !lookup_insert_ne; [done|try lia; intros <-; contradiction..].
  - apply (heap_inv_update m _ h pg start b1 [(sz, false)] [(sz, true)] b2 fl (f1 ++ f2) Hinv); try done.
    + by apply Forall_singleton.
    + pose proof (hi_coal _ _ _ _ _ _ Hinv) as (C1&C2&C3&C4)%coalesced_ctx.
      apply coalesced_ctx. split_and!; [done..|intros; apply orb_true_r|done].
    + apply (Permutation_cons_inv (a := a0)). rewrite Permutation_middle, <- Hfl, Hp.
      rewrite !free_addrs_app. simpl. rewrite Permutation_middle.
      by replace (ends a0 [(sz, true)]) with (a0 + sz) by (unfold ends; simpl; lia).
    + rewrite HN'. rewrite HN in Hl, Hwf. eapply (links_extract 8 m _ N1 a a0 b N2); try done.
      * by mem_lookup.
      * by mem_lookup.
      * rewrite <- HN. intros x ?? Hx. apply (inv_link_word _ _ _ _ _ _ _ _ Hinv) in Hx.
        simpl in Hx. by mem_lookup.
    + simpl. split_and!; [by mem_lookup..|done].
    + unfold ends at 1. simpl. rewrite Z.add_0_r, lastf_app. simpl. by mem_lookup.
    + intros x Hx. by repeat apply mapped_insert.
    + unfold ends in *. simpl. intros x Hx Hn. rewrite !lookup_insert_ne; [done|try lia; intros <-; contradiction..].
Qed.
End Carve.

(** ** Allocation *)

(** No wrap-around in the size computation for a request of [size] bytes. *)
Definition request_ok (pg size : Z) : Prop := 0 <= size /\ size + 2 * pg + 8 < 2 ^ 32.

Lemma heap_dsize_ok pg size :
  pg_ok pg -> request_ok pg size ->
  size + pg + 8 <= heap_dsize pg size <= size + 2 * pg + 8 /\
  heap_dsize pg size mod 4 = 0 /\ 16 <= heap_dsize pg size.
Proof.
  intros Hpg [Hs0 Hs]. apply pg_ok_ge in Hpg as [Hpg Hpg8].
  unfold heap_dsize, HEAP_BLOCK_USED_OVERHEAD, SIZEOF_heap_block. change (4 * 2) with 8.
  pose proof (Z.mod_pos_bound size pg ltac:(lia)) as Hmod.
  rewrite (wrap_small 32 (size + pg + 8)) by lia.
  assert (exists q, pg = 8 * q) as [q ->] by (exists (pg / 8); pose proof (Z.div_mod pg 8); lia).
  pose proof (Z.div_mod size (8 * q) ltac:(lia)) as Hdiv.
  set (t := size / (8 * q)) in *. set (r := size mod (8 * q)) in *.
  assert (Hm4 : forall k, (8 * k) mod 4 = 0)
    by (intros k; replace (8 * k) with (2 * k * 4) by lia; apply Z.mod_mul; lia).
  destruct (Z.eqb_spec r 0) as [E|E]; simpl.
  - destruct (Z.ltb_spec (size + 8 * q + 8) 16); [lia|]. split_and!; try lia.
    replace (size + 8 * q + 8) with (8 * (q * t + q + 1)) by lia. apply Hm4.
  - rewrite wrap_small by lia.
    destruct (Z.ltb_spec (size + 8 * q + 8 + (8 * q - r)) 16); [lia|]. split_and!; try lia.
    replace (size + 8 * q + 8 + (8 * q - r)) with (8 * (q * t + 2 * q + 1)) by lia. apply Hm4.
Qed.

(** The payload words of the blocks in use. *)
Definition payload (start : Z) (bs : list block) (x : Z) : Prop :=
  exists b1 sz b2, bs = b1 ++ (sz, true) :: b2 /\ ends start b1 + 8 <= x < ends start b1 + sz.

(** What an allocation does to the layout: the first sufficient block of the
    free list is split, or taken whole when the rest would be too small; the
    used block handed out is [d] bytes at [a]. *)
Definition alloc_step (pg dsize start : Z) (fl : list Z) (bs bs' : list block) (a d : Z) : Prop :=
  exists b1 sz b2,
    bs = b1 ++ (sz, false) :: b2 /\ dsize <= sz /\
    first_fit start bs dsize fl (Some (ends start b1)) /\
    ((pg + 8 < sz - dsize /\ d = dsize /\ a = ends start b1 + (sz - dsize) /\
      bs' = b1 ++ (sz - dsize, false) :: (dsize, true) :: b2) \/
     (sz - dsize <= pg + 8 /\ d = sz /\ a = ends start b1 /\ bs' = b1 ++ (sz, true) :: b2)).

(** Two decompositions of a layout at different blocks do not overlap. *)
Lemma blocks_disjoint start b1 b b2 c1 c c2 :
  sizes_ok (b1 ++ b :: b2) -> b1 ++ b :: b2 = c1 ++ c :: c2 ->
  (ends start b1 = ends start c1 /\ b = c) \/
  ends start b1 + b.1 <= ends start c1 \/ ends start c1 + c.1 <= ends start b1.
Proof.
  revert start c1. induction b1 as [|x b1 IH]; intros start [|y c1] Hs Heq; simplify_eq/=.
  - by left.
  - right; left. rewrite ends_nil, ends_cons. apply Forall_cons in Hs as [_ Hs].
    apply Forall_app in Hs as [Hs _]. unfold ends. pose proof (total_nonneg _ Hs). lia.
  - right; right. rewrite ends_nil, ends_cons. apply Forall_cons in Hs as [_ Hs].
    apply Forall_app in Hs as [Hs _]. unfold ends. pose proof (total_nonneg _ Hs). lia.
  - rewrite !ends_cons. apply Forall_cons in Hs as [_ Hs]. by apply IH.
Qed.

(** Payloads of other blocks are outside a block being worked on. *)
Lemma payload_outside m h pg start b1 sz u b2 fl x :
  heap_inv m h pg start (b1 ++ (sz, u) :: b2) fl ->
  payload start (b1 ++ (sz, u) :: b2) x ->
  ~ link_word 8 (fnodes h fl) x /\
  (u = false -> x < ends start b1 \/ ends start b1 + sz < x).
Proof.
  intros Hinv (c1 & s & c2 & Heq & Hx).
  pose proof (hi_sizes _ _ _ _ _ _ Hinv) as Hs.
  split.
  - rewrite Heq in Hinv. eapply used_not_link; [done|lia].
  - intros ->. destruct (blocks_disjoint start _ _ _ _ _ _ Hs Heq) as [ [_ ?]|[?|?] ];
      simpl in *; [done|lia..].
Qed.

(** The alignment step at the end of the allocator, for a user area at [u]. *)
Lemma align_offset pg u :
  pg_ok pg -> u mod 4 = 0 ->
  let offset := pg - Z.land u (pg - 1) in
  4 <= offset <= pg /\ offset mod 4 = 0 /\
  (forall k, 0 <= k -> pg = 2 ^ k -> (u + offset) mod pg = 0).
Proof.
  intros Hpg Hu. apply pg_ok_ge in Hpg as [Hpg Hpg8]. simpl.
  pose proof (land_upper u (pg - 1) ltac:(lia)) as Hl.
  pose proof (land_mod4 u (pg - 1) Hu) as Hl4.
  assert (Hpg4 : pg mod 4 = 0).
  { rewrite (Z.div_mod pg 8), Hpg8 by lia. rewrite Z.add_0_r.
    replace (8 * (pg / 8)) with (2 * (pg / 8) * 4) by lia. apply Z.mod_mul. lia. }
  assert (Ho4 : (pg - Z.land u (pg - 1)) mod 4 = 0) by (rewrite Zminus_mod, Hpg4, Hl4; done).
  split_and!; [|lia|done|].
  - pose proof (Z.div_mod (pg - Z.land u (pg - 1)) 4). lia.
  - intros k Hk ->. replace (2 ^ k - 1) with (Z.ones k) by (rewrite Z.ones_equiv; lia).
    rewrite Z.land_ones by lia. pose proof (Z.div_mod u (2 ^ k) ltac:(lia)).
    replace (u + (2 ^ k - u mod 2 ^ k)) with ((u / 2 ^ k + 1) * 2 ^ k) by lia.
    apply Z.mod_mul. lia.
Qed.

Section Allocate.
Context (m : mem) (h pg start : Z) (bs : list block) (fl : list Z) (size : Z).
Hypothesis Hinv : heap_inv m h pg start bs fl.
Hypothesis Hreq : request_ok pg size.
Local Notation dsize := (heap_dsize pg size).

(** The outcome of a successful allocation at user address [p]. *)
Definition allocated (p : Z) (m' : mem) : Prop :=
  exists bs' fl' c1 a d c2,
    alloc_step pg dsize start fl bs bs' a d /\
    bs' = c1 ++ (d, true) :: c2 /\ a = ends start c1 /\
    heap_inv m' h pg start bs' fl' /\
    a + 12 <= p /\ p + size <= a + d /\
    (forall k, 0 <= k -> pg = 2 ^ k -> p mod pg = 0) /\
    m' !! (p - 4) = Some (p - (a + 8)) /\
    (forall x, payload start bs x -> m' !! x = m !! x /\ ~ (a <= x <= a + d)).

(** The offset word and the alignment, once a used block has been carved. *)
Lemma allocate_finish m1 bs' fl' c1 d c2 :
  heap_inv m1 h pg start bs' fl' ->
  alloc_step pg dsize start fl bs bs' (ends start c1) d ->
  bs' = c1 ++ (d, true) :: c2 -> dsize <= d ->
  (forall x, payload start bs x -> m1 !! x = m !! x /\ ~ (ends start c1 <= x <= ends start c1 + d)) ->
  wp (let ptr := ends start c1 + 8 in
      let offset := u32 (pg - Z.land ptr (u32 (pg - 1))) in
      let ptr := u32 (ptr + offset) in
      store (ptr - 4) offset ;; ret ptr) allocated m1.
Proof.
  intros Hi Hst -> Hd Hpay. cbv zeta.
  destruct (inv_bounds _ _ _ _ _ _ _ _ Hi) as (B1&B2&B3&B4&B5&B6&B7&B8). simpl in *.
  destruct (pg_ok_ge _ (hi_pgok _ _ _ _ _ _ Hi)) as [Hpg _].
  assert (Hu4 : (ends start c1 + 8) mod 4 = 0) by (rewrite Z.add_mod, B3 by lia; done).
  destruct (align_offset pg _ (hi_pgok _ _ _ _ _ _ Hi) Hu4) as (O1 & O2 & O3).
  destruct (heap_dsize_ok pg size (hi_pgok _ _ _ _ _ _ Hi) Hreq) as (S1 & S2 & S3).
  destruct Hreq as [Hr0 Hr1].
  rewrite (wrap_small 32 (pg - 1)) by lia. set (o := pg - Z.land _ _) in *.
  rewrite (wrap_small 32 o) by lia. rewrite wrap_small by lia.
  assert (Hp4 : (ends start c1 + 8 + o - 4) mod 4 = 0).
  { rewrite Zminus_mod, Z.add_mod, Hu4, O2 by lia. done. }
  assert (Hmp : is_Some (m1 !! (ends start c1 + 8 + o - 4))).
  { eapply inv_mapped; [done|simpl; lia|done]. }
  mem_run. exists (c1 ++ (d, true) :: c2), fl', c1, (ends start c1), d, c2.
  split_and!; try done; try lia.
  - apply heap_inv_user_store; [done|lia].
  - mem_lookup. f_equal. lia.
  - intros x Hx. destruct (Hpay x Hx) as [Hx1 Hx2]. split; [|done].
    rewrite lookup_insert_ne by lia. done.
Qed.

Lemma allocate_spec :
  wp (lwp_heap_allocate h size)
    (fun p m' => (p = NULL /\ m' = m /\ first_fit start bs dsize fl None) \/
                 (p <> NULL /\ allocated p m')) m.
Proof.
  destruct (heap_dsize_ok pg size (hi_pgok _ _ _ _ _ _ Hinv) Hreq) as (S1 & S2 & S3).
  destruct (pg_ok_ge _ (hi_pgok _ _ _ _ _ _ Hinv)) as [Hpg _].
  destruct Hreq as [Hr0 Hr1].
  unfold lwp_heap_allocate, HEAP_BLOCK_USED_OVERHEAD.
  destruct (Z.leb_spec (u32 (-1 - 4 * 2)) size) as [Hle|_]; [change (u32 (-1 - 4 * 2)) with 4294967287 in Hle; lia|].
  apply wp_bind. eapply wp_load; [by eapply hi_pg|]. apply wp_bind.
  assert (Hfirst : m !! hc_first h = Some (hd (lwp_heap_tail h) fl)).
  { pose proof (hi_links _ _ _ _ _ _ Hinv) as Hl. unfold fnodes, hc_first, lwp_heap_head in *.
    destruct fl; simpl in *; tauto. }
  eapply wp_load; [exact Hfirst|]. apply wp_bind, wp_gets, wp_bind.
  eapply wp_mono; [eapply (heap_search_spec m h pg start bs fl Hinv dsize _ fl []); [done|by eapply fl_length]|].
  intros r m0 [-> Hff]. destruct r as [blk|]; [|apply wp_ret; by left].
  pose proof Hff as (f1 & f2 & sz & Hfl & (b1 & b2 & Hbs & ->) & Hle & _).
  assert (Hinv' := Hinv). rewrite Hbs in Hinv'. apply wp_bind.
  assert (Hmono : forall p m', allocated p m' ->
    (p = NULL /\ m' = m /\ first_fit start bs dsize fl None) \/ (p <> NULL /\ allocated p m')).
  { intros p m' Hal. right. split; [|done].
    destruct Hal as (bs' & fl' & c1 & a & d & c2 & _ & -> & -> & Hi & Hp & _).
    pose proof (inv_bounds _ _ _ _ _ _ _ _ Hi). unfold NULL. lia. }
  destruct (Z_lt_le_dec (pg + 8) (sz - dsize)) as [Hgt|Hgt].
  - eapply wp_mono; [apply (carve_split m h pg start b1 sz b2 fl Hinv' dsize); try done; lia|].
    intros p m1 (-> & Hcf & Hi). eapply wp_mono; [|exact Hmono].
    replace (ends start b1 + (sz - dsize)) with (ends start (b1 ++ [(sz - dsize, false)]))
      by (unfold ends; rewrite total_app; simpl; lia).
    eapply (allocate_finish m1 _ fl (b1 ++ [(sz - dsize, false)]) dsize b2); [exact Hi| |..].
    + exists b1, sz, b2. split_and!; try done. left. split_and!; try done.
      unfold ends. rewrite total_app. simpl. lia.
    + by rewrite <- app_assoc.
    + lia.
    + rewrite Hbs. intros x Hx. destruct (payload_outside _ _ _ _ _ _ _ _ _ _ Hinv' Hx) as [Hx1 Hx2].
      specialize (Hx2 eq_refl). split; [by apply Hcf|].
      unfold ends in *. rewrite total_app. simpl. lia.
  - eapply wp_mono; [apply (carve_whole m h pg start b1 sz b2 fl Hinv' dsize); done|].
    intros p m1 (-> & Hcf & f1' & f2' & _ & Hi). eapply wp_mono; [|exact Hmono].
    eapply (allocate_finish m1 _ (f1' ++ f2') b1 sz b2); [exact Hi| |done|done|].
    + exists b1, sz, b2. split_and!; try done. by right.
    + rewrite Hbs. intros x Hx. destruct (payload_outside _ _ _ _ _ _ _ _ _ _ Hinv' Hx) as [Hx1 Hx2].
      specialize (Hx2 eq_refl). split; [by apply Hcf|lia].
Qed.
End Allocate.
