(* ===== verification/LwpHeapFree.v ===== *)
(** * Release of heap blocks

    [__lwp_heap_free]: the four ways a block rejoins the free list, by whether
    its neighbours are free, and the theorems on the whole allocator. *)

From stdpp Require Import base gmap list fin_maps.
From Stdlib Require Import ZArith Lia.
From S2P Require Import Prelude Chain LwpHeap LwpHeapInv LwpHeapProofs.

Open Scope Z_scope.

(** ** Release *)

(** A block merges with the free block that follows it. *)
Definition merge_next (sz : Z) (b2 : list block) : list block :=
  match b2 with
  | (n, false) :: r => (sz + n, false) :: r
  | _ => (sz, false) :: b2
  end.

(** The layout after releasing the block [(sz, true)] between [b1] and [b2]. *)
Definition released (b1 : list block) (sz : Z) (b2 : list block) : list block :=
  match last b1 with
  | Some (p, false) => removelast b1 ++ merge_next (p + sz) b2
  | _ => b1 ++ merge_next sz b2
  end.

Lemma lastf_used b1 : sizes_ok b1 -> (forall p, last b1 <> Some (p, false)) ->
  Z.land (lastf HEAP_DUMMY_FLAG b1) HEAP_BLOCK_USED = 1.
Proof.
  destruct b1 as [|x l _] using rev_ind; [done|]. intros S1 Hp. rewrite lastf_app. simpl.
  apply Forall_app in S1 as [_ S1]. rewrite Forall_singleton in S1.
  unfold HEAP_BLOCK_USED. rewrite land_1_mod, flag_mod2 by done.
  rewrite last_snoc in Hp. destruct x as [p [|] ]; [done|]. by destruct (Hp p).
Qed.

(** The front flag behind a used block that no free block follows. *)
Lemma next_not_free m a pf b2 :
  sizes_ok b2 -> tiles m a pf b2 -> (forall n r, b2 <> (n, false) :: r) ->
  exists nf, m !! (a + 4) = Some nf /\ (Z.land nf HEAP_BLOCK_USED =? 0) = false.
Proof.
  intros S3 Wt Hn. destruct b2 as [|[n [|] ] r]; simpl in Wt; [| |by destruct (Hn n r)].
  - eexists. split; [apply Wt|done].
  - apply Forall_cons in S3 as [S3 _]. eexists. split; [apply Wt|]. by rewrite flag_used.
Qed.

Section Release.
Context (m : mem) (h pg start : Z) (b1 : list block) (sz : Z) (b2 : list block) (fl : list Z).
Hypothesis Hinv : heap_inv m h pg start (b1 ++ (sz, true) :: b2) fl.
Local Notation a0 := (ends start b1).

(** Neither neighbour is free: the block goes to the front of the list. *)
Lemma release_alone :
  (forall p, last b1 <> Some (p, false)) -> (forall n r, b2 <> (n, false) :: r) ->
  wp (heap_release h a0 (a0 + sz) sz)
    (fun r m' => r = C_TRUE /\ confined m m' h fl a0 sz /\
       heap_inv m' h pg start (b1 ++ (sz, false) :: b2) (a0 :: fl)) m.
Proof.
  intros Hp Hn.
  destruct (inv_bounds _ _ _ _ _ _ _ _ Hinv) as (B1&B2&B3&B4&B5&B6&B7&B8). simpl in *.
  destruct (inv_words _ _ _ _ _ _ _ _ Hinv) as (W1&W2&W3&Wt). simpl in W3, Wt.
  destruct (inv_sizes _ _ _ _ _ _ _ _ Hinv) as (S1&S2&S3).
  pose proof (hi_links _ _ _ _ _ _ Hinv) as Hl.
  assert (Hok : block_ok (sz, false)) by done.
  assert (Hperm : a0 :: fl ≡ₚ free_addrs start (b1 ++ (sz, false) :: b2)).
  { rewrite (hi_perm _ _ _ _ _ _ Hinv), !free_addrs_app. simpl. apply Permutation_middle. }
  assert (Hwf : chain_wf (fnodes h (a0 :: fl))).
  { apply (fnodes_wf h start (b1 ++ (sz, false) :: b2)); [..|done].
    - apply Forall_app; split; [done|]. by apply Forall_cons.
    - pose proof (hi_geo _ _ _ _ _ _ Hinv) as Hg.
      by replace (ends start (b1 ++ (sz, false) :: b2)) with (ends start (b1 ++ (sz, true) :: b2))
        by (unfold ends; rewrite !total_app; done). }
  destruct (next_not_free m _ _ b2 S3 Wt Hn) as (nf & Wn & Hnf).
  set (g := hd (lwp_heap_tail h) fl).
  assert (HN : exists N2, fnodes h fl = h :: g :: N2 /\ fnodes h (a0 :: fl) = h :: a0 :: g :: N2).
  { unfold g, fnodes, lwp_heap_head. destruct fl as [|f r]; simpl; eexists; done. }
  destruct HN as (N2 & HN & HN').
  assert (Hg : link_word 8 (fnodes h fl) (g + 8 + 4)) by (rewrite HN; apply (link_word_prev 8 [])).
  assert (Hh : link_word 8 (fnodes h fl) (h + 8)) by (rewrite HN; apply (link_word_next 8 [])).
  assert (Hmg : is_Some (m !! (g + 8 + 4))) by (by eapply links_mapped).
  assert (Rg := inv_link_word _ _ _ _ _ _ _ _ Hinv _ Hg). simpl in Rg.
  assert (Rh := inv_link_word _ _ _ _ _ _ _ _ Hinv _ Hh). simpl in Rh.
  rewrite HN in Hl. pose proof Hl as Hl'. rewrite links_cons2 in Hl'. destruct Hl' as (L1 & L2 & _).
  assert (Hd : h <> a0 /\ g <> a0 /\ h <> g + 4 /\ a0 <> g + 4 /\ h <> a0 + 4).
  { rewrite HN' in Hwf. by apply (chain_wf_triple []) in Hwf. }
  destruct Hd as (D1&D2&D3&D4&D5).
  assert (Hmap := inv_mapped _ _ _ _ _ _ _ _ Hinv). simpl in Hmap.
  assert (Hm8 : is_Some (m !! (a0 + 8))) by (apply Hmap; [lia|rewrite Z.add_mod, B3 by lia; done]).
  assert (Hm12 : is_Some (m !! (a0 + 8 + 4))).
  { apply Hmap; [lia|]. rewrite <- Z.add_assoc, Z.add_mod, B3 by lia. done. }
  unfold heap_release, lwp_heap_prev_blockfree, lwp_heap_blockfree, front_flag, back_flag,
    blk_next, blk_prev, hc_first.
  mem_run. rewrite (lastf_used b1) by done. simpl. mem_run. rewrite Hnf. mem_run.
  split_and!; [done| |].
  - intros x Hx Hn'. rewrite !lookup_insert_ne; [done|try lia; intros <-; contradiction..].
  - apply (heap_inv_update m _ h pg start b1 [(sz, true)] [(sz, false)] b2 fl (a0 :: fl) Hinv); try done.
    + by apply Forall_singleton.
    + pose proof (hi_coal _ _ _ _ _ _ Hinv) as (C1&C2&C3&C4)%coalesced_ctx.
      apply coalesced_ctx. split_and!; try done.
      * intros [p [|] ] Hc; [done|]. by destruct (Hp p).
      * intros [n [|] ] Hc; [done|]. destruct b2 as [|? r]; [done|]. simplify_eq/=. by destruct (Hn n r).
    + rewrite HN' in Hwf |- *. rewrite links_cons2 in Hl. destruct Hl as (_ & _ & Hl).
      eapply (links_place 8 m _ [] h a0 g N2); try done; try (by mem_lookup).
      intros x ???? [Hx|Hx].
      * assert (Hx' : link_word 8 (fnodes h fl) x) by (rewrite HN; by apply (link_word_left 8 [])).
        apply (inv_link_word _ _ _ _ _ _ _ _ Hinv) in Hx'. simpl in Hx'. by mem_lookup.
      * assert (Hx' : link_word 8 (fnodes h fl) x) by (rewrite HN; by apply (link_word_right 8 [])).
        apply (inv_link_word _ _ _ _ _ _ _ _ Hinv) in Hx'. simpl in Hx'. by mem_lookup.
    + simpl. rewrite flag_free. split_and!; [by mem_lookup..|done].
    + unfold ends at 1. simpl. rewrite Z.add_0_r, lastf_app. simpl. rewrite flag_free. by mem_lookup.
    + intros x Hx. by repeat apply mapped_insert.
    + unfold ends in *. simpl. intros x Hx Hn'. rewrite !lookup_insert_ne; [done|try lia; intros <-; contradiction..].
Qed.
End Release.

Section ReleasePrev.
Context (m : mem) (h pg start : Z) (c1 : list block) (p sz : Z) (b2 : list block) (fl : list Z).
Hypothesis Hinv : heap_inv m h pg start (c1 ++ (p, false) :: (sz, true) :: b2) fl.
Local Notation a := (ends start c1).

Lemma prev_inv : heap_inv m h pg start ((c1 ++ [(p, false)]) ++ (sz, true) :: b2) fl.
Proof. by rewrite <- app_assoc. Qed.

Lemma prev_end : ends start (c1 ++ [(p, false)]) = a + p.
Proof. unfold ends. rewrite total_app. simpl. lia. Qed.

(** The words and bounds of the free block and of the used one behind it. *)
Lemma prev_facts :
  m !! (a + p) = Some p /\ m !! (a + 4) = Some p /\ m !! a = Some (lastf HEAP_DUMMY_FLAG c1) /\
  m !! (a + p + 4) = Some (flag (sz, true)) /\ m !! (a + p + sz) = Some (flag (sz, true)) /\
  tiles m (a + p + sz) (flag (sz, true)) b2 /\
  block_ok (p, false) /\ block_ok (sz, true) /\ sizes_ok b2 /\
  0 < start <= a /\ a mod 4 = 0 /\ 16 <= p /\ 16 <= sz /\ p mod 4 = 0 /\ sz mod 4 = 0 /\
  a + p + sz <= ends start (c1 ++ (p, false) :: (sz, true) :: b2) /\ a + p + sz + 8 <= 2 ^ 32.
Proof.
  pose proof prev_inv as Hi.
  destruct (inv_words _ _ _ _ _ _ _ _ Hi) as (W1&W2&W3&Wt). simpl in W3, Wt.
  destruct (inv_words _ _ _ _ _ _ _ _ Hinv) as (V1&V2&V3&_). simpl in V3.
  destruct (inv_bounds _ _ _ _ _ _ _ _ Hi) as (B1&B2&B3&B4&B5&B6&B7&B8). simpl in *.
  destruct (inv_bounds _ _ _ _ _ _ _ _ Hinv) as (D1&D2&D3&D4&D5&D6&D7&D8). simpl in *.
  destruct (inv_sizes _ _ _ _ _ _ _ _ Hi) as (_&S2&S3).
  destruct (inv_sizes _ _ _ _ _ _ _ _ Hinv) as (_&S1&_).
  rewrite <- app_assoc in B6. rewrite prev_end in *. rewrite flag_free in V2, V3. simpl in B6.
  split_and!; try done; lia.
Qed.

(** Link words meet the pair of blocks only in the free one. *)
Lemma prev_link_word x : link_word 8 (fnodes h fl) x ->
  x < a \/ x = a + 8 \/ x = a + 12 \/ a + p + sz < x.
Proof.
  intros Hx. pose proof (inv_link_word _ _ _ _ _ _ _ _ prev_inv _ Hx) as H1.
  pose proof (inv_link_word _ _ _ _ _ _ _ _ Hinv _ Hx) as H2. rewrite prev_end in H1.
  simpl in *. naive_solver lia.
Qed.

(** Free block before, none behind: the free block grows in place. *)
Lemma release_prev :
  (forall n r, b2 <> (n, false) :: r) ->
  wp (heap_release h (a + p) (a + p + sz) sz)
    (fun r m' => r = C_TRUE /\ confined m m' h fl a (p + sz) /\
       heap_inv m' h pg start (c1 ++ (p + sz, false) :: b2) fl) m.
Proof.
  intros Hn. destruct prev_facts as (W1&W2&W0&W3&W4&Wt&O1&O2&O3&B1&B2&B3&B4&B5&B6&B7&B8).
  destruct (next_not_free m _ _ b2 O3 Wt Hn) as (nf & Wn & Hnf).
  pose proof (hi_start _ _ _ _ _ _ Hinv) as Hs. pose proof (hi_final _ _ _ _ _ _ Hinv) as Hf.
  assert (Hok : block_ok (p + sz, false)).
  { split; simpl; [unfold SIZEOF_heap_block; lia|]. rewrite Z.add_mod, B5, B6 by lia. done. }
  assert (Wp : m !! (a + p) = Some (flag (p, false))) by by rewrite flag_free.
  unfold heap_release. mem_step. apply (wp_prev_blockfree _ _ _ _ Wp O1). simpl. mem_step.
  apply (wp_prevblock _ _ _ _ Wp O1); [simpl; lia|lia|]. simpl.
  replace (a + p - p) with a by lia. apply wp_bind.
  eapply wp_blockin; [exact Hs|exact Hf|lia|]. simpl. unfold lwp_heap_blockfree, front_flag, back_flag.
  mem_run. rewrite Hnf. mem_run. rewrite wrap_small by lia.
  split_and!; [done| |].
  - intros x Hx Hnl. by mem_lookup.
  - apply (heap_inv_update m _ h pg start c1 [(p, false); (sz, true)] [(p + sz, false)] b2 fl fl Hinv); try done.
    + simpl. lia.
    + by apply Forall_singleton.
    + pose proof (hi_coal _ _ _ _ _ _ Hinv) as (C1&C2&C3&C4)%coalesced_ctx.
      apply coalesced_ctx. apply coalesced_cons in C2 as [_ C2]. split_and!; try done.
      intros [n [|] ] Hc; [done|]. destruct b2 as [|? r]; [done|]. simplify_eq/=. by destruct (Hn n r).
    + rewrite (hi_perm _ _ _ _ _ _ Hinv), !free_addrs_app. simpl.
      by replace (a + p + sz) with (ends a [(p + sz, false)]) by (unfold ends; simpl; lia).
    + eapply links_frame; [|by eapply hi_links]. intros x Hx. apply prev_link_word in Hx. by mem_lookup.
    + simpl. rewrite flag_free. split_and!; [by mem_lookup..|done].
    + replace (ends a _) with (a + p + sz) by (unfold ends; simpl; lia).
      rewrite lastf_app. simpl. rewrite flag_free. by mem_lookup.
    + intros x Hx. by repeat apply mapped_insert.
    + intros x Hx Hnl. assert (x < a \/ a + p + sz < x) by (unfold ends in *; simpl in Hx; lia).
      by mem_lookup.
Qed.
End ReleasePrev.

Section ReleaseNext.
Context (m : mem) (h pg start : Z) (b1 : list block) (sz n : Z) (r2 : list block) (fl : list Z).
Hypothesis Hinv : heap_inv m h pg start (b1 ++ (sz, true) :: (n, false) :: r2) fl.
Local Notation a := (ends start b1).

Lemma next_inv : heap_inv m h pg start ((b1 ++ [(sz, true)]) ++ (n, false) :: r2) fl.
Proof. by rewrite <- app_assoc. Qed.

Lemma next_end : ends start (b1 ++ [(sz, true)]) = a + sz.
Proof. unfold ends. rewrite total_app. simpl. lia. Qed.

Lemma next_facts :
  m !! a = Some (lastf HEAP_DUMMY_FLAG b1) /\ m !! (a + 4) = Some (flag (sz, true)) /\
  m !! (a + sz + 4) = Some n /\ m !! (a + sz + n) = Some n /\
  block_ok (sz, true) /\ block_ok (n, false) /\ sizes_ok b1 /\ sizes_ok r2 /\
  0 < start <= a /\ a mod 4 = 0 /\ 16 <= sz /\ 16 <= n /\ sz mod 4 = 0 /\ n mod 4 = 0 /\
  a + sz + n <= ends start (b1 ++ (sz, true) :: (n, false) :: r2) /\ a + sz + n + 8 <= 2 ^ 32 /\
  is_Some (m !! (a + 8)) /\ is_Some (m !! (a + 8 + 4)).
Proof.
  pose proof next_inv as Hi.
  destruct (inv_words _ _ _ _ _ _ _ _ Hi) as (W1&W2&W3&_). simpl in W3.
  destruct (inv_words _ _ _ _ _ _ _ _ Hinv) as (V1&V2&V3&_). simpl in V3.
  destruct (inv_bounds _ _ _ _ _ _ _ _ Hi) as (B1&B2&B3&B4&B5&B6&B7&B8). simpl in *.
  destruct (inv_bounds _ _ _ _ _ _ _ _ Hinv) as (D1&D2&D3&D4&D5&D6&D7&D8). simpl in *.
  destruct (inv_sizes _ _ _ _ _ _ _ _ Hi) as (_&S2&S3).
  destruct (inv_sizes _ _ _ _ _ _ _ _ Hinv) as (S0&S1&_).
  rewrite <- app_assoc in B6. rewrite next_end in *. rewrite flag_free in W2, W3. simpl in B6.
  pose proof (inv_mapped _ _ _ _ _ _ _ _ Hinv) as Hmap. simpl in Hmap.
  split_and!; try done; try lia; apply Hmap; try lia.
  - rewrite Z.add_mod, D3 by lia. done.
  - rewrite <- Z.add_assoc, Z.add_mod, D3 by lia. done.
Qed.

Lemma next_link_word x : link_word 8 (fnodes h fl) x ->
  x < a \/ x = a + sz + 8 \/ x = a + sz + 12 \/ a + sz + n < x.
Proof.
  intros Hx. pose proof (inv_link_word _ _ _ _ _ _ _ _ next_inv _ Hx) as H1.
  pose proof (inv_link_word _ _ _ _ _ _ _ _ Hinv _ Hx) as H2. rewrite next_end in H1.
  simpl in *. naive_solver lia.
Qed.

(** The free block behind and its neighbours in the free list. *)
Lemma next_in_list : exists f1 f2 N1 x y N2,
  fl = f1 ++ (a + sz) :: f2 /\ neighbours m h fl (a + sz) f1 f2 N1 x y N2 /\
  chain_wf (fnodes h fl).
Proof.
  pose proof (hi_perm _ _ _ _ _ _ Hinv) as Hp.
  pose proof (hi_links _ _ _ _ _ _ Hinv) as Hl.
  pose proof (inv_chain_wf _ _ _ _ _ _ _ _ Hinv) as Hwf.
  assert (Ha0 : a + sz ∈ fl).
  { rewrite (fl_elem _ _ _ _ Hp), free_addrs_app. simpl. apply elem_of_app. right. by left. }
  apply list_elem_of_split in Ha0 as (f1 & f2 & Hfl).
  destruct (fl_neighbours m h fl f1 _ f2 Hl Hwf Hfl) as (N1 & x & y & N2 & Hnb).
  by exists f1, f2, N1, x, y, N2.
Qed.

(** No free block before: the block takes the place of the one behind it. *)
Lemma release_next :
  (forall p, last b1 <> Some (p, false)) ->
  wp (heap_release h a (a + sz) sz)
    (fun r m' => r = C_TRUE /\ confined m m' h fl a (sz + n) /\
       exists f1 f2, fl = f1 ++ (a + sz) :: f2 /\
         heap_inv m' h pg start (b1 ++ (sz + n, false) :: r2) (f1 ++ a :: f2)) m.
Proof.
  intros Hpn.
  destruct next_facts as (W1&W2&W3&W4&O1&O2&O3&O4&B1&B2&B3&B4&B5&B6&B7&B8&M1&M2).
  destruct next_in_list as (f1 & f2 & N1 & x & y & N2 & Hfl & Hnb & Hwf).
  destruct Hnb as [HN HNp _ Lx Lpx Lnx Ly Hlwx Hlwy (D1&D2&D3&D4&D5) Hfirst].
  pose proof (next_link_word _ Hlwx) as Rx. pose proof (next_link_word _ Hlwy) as Ry.
  assert (Hok : block_ok (sz + n, false)).
  { split; simpl; [unfold SIZEOF_heap_block; lia|]. rewrite Z.add_mod, B5, B6 by lia. done. }
  assert (Hperm : f1 ++ a :: f2 ≡ₚ free_addrs start (b1 ++ (sz + n, false) :: r2)).
  { pose proof (hi_perm _ _ _ _ _ _ Hinv) as Hp. rewrite Hfl in Hp.
    rewrite <- Permutation_middle in Hp |- *. rewrite free_addrs_app in Hp |- *. simpl in Hp |- *.
    replace (a + (sz + n)) with (a + sz + n) by lia.
    rewrite <- Permutation_middle in Hp |- *. by apply Permutation_cons_inv in Hp as ->. }
  assert (Hends : ends start (b1 ++ (sz, true) :: (n, false) :: r2) =
                  ends start (b1 ++ (sz + n, false) :: r2))
    by (unfold ends; rewrite !total_app; simpl; lia).
  assert (Hwf' : chain_wf (fnodes h (f1 ++ a :: f2))).
  { apply (fnodes_wf h start (b1 ++ (sz + n, false) :: r2)); [..|done].
    - apply Forall_app; split; [done|]. by apply Forall_cons.
    - rewrite <- Hends. apply (hi_geo _ _ _ _ _ _ Hinv). }
  rewrite HNp in Hwf'. destruct (chain_wf_triple _ _ _ _ _ Hwf') as (E1&E2&E3&E4&E5).
  pose proof (hi_links _ _ _ _ _ _ Hinv) as Hl. rewrite HN in Hl.
  rewrite links_app, !links_cons2 in Hl. destruct Hl as (Hl1 & _ & _ & _ & _ & Hl2).
  destruct (hi_geo _ _ _ _ _ _ Hinv) as (G1&G2&G3&G4&G5&G6).
  assert (Rx' : x + 8 < a \/ a + sz + n < x + 8) by (clear Ry; lia).
  assert (Ry' : y + 8 + 4 < a \/ a + sz + n < y + 8 + 4) by (clear Rx Rx'; lia).
  clear B2 B5 B6 G2 Rx Ry D1 D2 D4 D5.
  unfold heap_release, lwp_heap_prev_blockfree. mem_step. unfold back_flag at 1. mem_run.
  rewrite (lastf_used b1) by done. simpl. mem_step.
  apply (wp_blockfree _ _ (n, false)); [by rewrite flag_free|done|]. simpl.
  unfold front_flag, back_flag, blk_next, blk_prev, hc_first. mem_step. mem_step. mem_step. mem_step.
  rewrite wrap_small by lia. mem_step.
  apply (wp_nextblock _ _ (sz + n, false)); [mem_lookup; by rewrite flag_free|done|lia|simpl; lia|].
  simpl. replace (a + (sz + n)) with (a + sz + n) by lia.
  do 21 mem_step.
  match goal with |- wp (load (h + 8)) _ ?M => set (m' := M) end.
  assert (Hf : exists g, m' !! (h + 8) = Some g /\ g <> a + sz).
  { unfold m'. destruct Hfirst as [->|(Hxh & Hhy & g & Hg & Hne)].
    - exists a. split; [by mem_lookup|lia].
    - exists g. split; [|done]. by mem_lookup. }
  destruct Hf as (g & Hg & Hgne). eapply wp_load; [exact Hg|].
  destruct (Z.eqb_spec g (a + sz)) as [?|_]; [done|]. mem_run.
  subst m'. clear Hg Hgne Hfirst G1 G3 G4 G5 G6.
  assert (Hother : forall w, ~ link_word 8 (fnodes h fl) w -> w <> x + 8 /\ w <> y + 8 + 4).
  { intros w Hnl. split; intros ->; by apply Hnl. }
  split_and!; [done| |exists f1, f2; split; [done|] ].
  - intros w Hw Hnl. destruct (Hother w Hnl). by mem_lookup.
  - apply (heap_inv_update m _ h pg start b1 [(sz, true); (n, false)] [(sz + n, false)] r2
      fl (f1 ++ a :: f2) Hinv); try done.
    + simpl. lia.
    + by apply Forall_singleton.
    + pose proof (hi_coal _ _ _ _ _ _ Hinv) as (C1&C2&C3&C4)%coalesced_ctx.
      apply coalesced_ctx. apply coalesced_cons in C2 as [C5 C2]. split_and!; try done.
      intros [p [|] ] Hc; [done|]. by destruct (Hpn p).
    + rewrite HNp. eapply (links_place 8 m _ N1 x a y N2); try done; try (by mem_lookup).
      pose proof next_link_word as Hnlw. rewrite HN in Hnlw.
      intros w ???? [Hw|Hw].
      * assert (Hx' := link_word_left 8 N1 x (a + sz :: y :: N2) w Hw).
        apply Hnlw in Hx'. clear Hnlw. by mem_lookup.
      * assert (Hx' := link_word_right 8 (N1 ++ [x]) (a + sz) y N2 w Hw). rewrite <- app_assoc in Hx'.
        apply Hnlw in Hx'. clear Hnlw. by mem_lookup.
    + simpl. rewrite flag_free. split_and!; [by mem_lookup..|done].
    + replace (ends a _) with (a + sz + n) by (unfold ends; simpl; lia).
      rewrite lastf_app. simpl. rewrite flag_free. by mem_lookup.
    + intros w Hw. by repeat apply mapped_insert.
    + intros w Hw Hnl. assert (w < a \/ a + sz + n < w) by (unfold ends in *; simpl in Hw; lia).
      destruct (Hother w Hnl). by mem_lookup.
Qed.
End ReleaseNext.

Section ReleaseBoth.
Context (m : mem) (h pg start : Z) (c1 : list block) (p sz n : Z) (r2 : list block) (fl : list Z).
Hypothesis Hinv : heap_inv m h pg start (c1 ++ (p, false) :: (sz, true) :: (n, false) :: r2) fl.
Local Notation a := (ends start c1).

Lemma both_inv : heap_inv m h pg start ((c1 ++ [(p, false)]) ++ (sz, true) :: (n, false) :: r2) fl.
Proof. by rewrite <- app_assoc. Qed.

(** Free blocks on both sides: the one before absorbs the other two. *)
Lemma release_both :
  wp (heap_release h (a + p) (a + p + sz) sz)
    (fun r m' => r = C_TRUE /\ confined m m' h fl a (p + sz + n) /\
       exists f1 f2, fl = f1 ++ (a + p + sz) :: f2 /\
         heap_inv m' h pg start (c1 ++ (p + sz + n, false) :: r2) (f1 ++ f2)) m.
Proof.
  destruct (prev_facts m h pg start c1 p sz _ fl Hinv)
    as (W1&W2&W0&_&_&_&O1&_&O3&B1&B2&B3&B4&B5&B6&_&_).
  pose proof (next_facts m h pg start _ sz n r2 fl both_inv) as Hnf.
  pose proof (next_link_word m h pg start _ sz n r2 fl both_inv) as Hnl.
  pose proof (prev_link_word m h pg start _ p sz _ fl Hinv) as Hpl.
  destruct (next_in_list m h pg start _ sz n r2 fl both_inv)
    as (f1 & f2 & N1 & x & y & N2 & Hfl & Hnb & Hwf).
  rewrite (prev_end start c1 p) in *.
  destruct Hnf as (_&_&V3&V4&_&Q2&_&Q4&_&_&_&F4&_&F6&F7&F8&_&_).
  rewrite <- app_assoc in F7. simpl in F7.
  destruct Hnb as [HN _ HNd Lx Lpx Lnx Ly Hlwx Hlwy (D1&D2&D3&D4&D5) _].
  pose proof (Hnl _ Hlwx) as Rx. pose proof (Hnl _ Hlwy) as Ry.
  pose proof (Hpl _ Hlwx) as Px. pose proof (Hpl _ Hlwy) as Py.
  assert (Rx' : x + 8 < a \/ x + 8 = a + 8 \/ x + 8 = a + 12 \/ a + p + sz + n < x + 8)
    by (clear Ry Py; lia).
  assert (Ry' : y + 8 + 4 < a \/ y + 8 + 4 = a + 8 \/ y + 8 + 4 = a + 12 \/
                a + p + sz + n < y + 8 + 4) by (clear Rx Px Rx'; lia).
  pose proof (hi_start _ _ _ _ _ _ Hinv) as Hs. pose proof (hi_final _ _ _ _ _ _ Hinv) as Hf.
  assert (Hok : block_ok (p + sz + n, false)).
  { split; simpl; [unfold SIZEOF_heap_block; clear Rx Ry Px Py Rx' Ry'; lia|].
    rewrite Z.add_mod, (Z.add_mod p), B5, B6, F6 by lia. done. }
  assert (Wp : m !! (a + p) = Some (flag (p, false))) by by rewrite flag_free.
  clear B2 B5 B6 F6 Rx Ry Px Py.
  unfold heap_release. mem_step. apply (wp_prev_blockfree _ _ _ _ Wp O1). simpl. mem_step.
  apply (wp_prevblock _ _ _ _ Wp O1); [simpl; lia|lia|]. simpl.
  replace (a + p - p) with a by lia. apply wp_bind.
  eapply wp_blockin; [exact Hs|exact Hf|lia|]. simpl. mem_step.
  apply (wp_blockfree _ _ (n, false)); [by rewrite flag_free|done|]. simpl.
  unfold front_flag, back_flag, blk_next, blk_prev. do 6 mem_step.
  rewrite wrap_small by lia. replace (p + (n + sz)) with (p + sz + n) by lia. mem_step.
  apply (wp_nextblock _ _ (p + sz + n, false)); [mem_lookup; by rewrite flag_free|done|lia|simpl; lia|].
  simpl. replace (a + (p + sz + n)) with (a + p + sz + n) by lia. mem_run.
  assert (Hother : forall w, ~ link_word 8 (fnodes h fl) w -> w <> x + 8 /\ w <> y + 8 + 4).
  { intros w Hw. split; intros ->; by apply Hw. }
  split_and!; [done| |exists f1, f2; split; [done|] ].
  - intros w Hw Hn'. destruct (Hother w Hn'). by mem_lookup.
  - apply (heap_inv_update m _ h pg start c1 [(p, false); (sz, true); (n, false)]
      [(p + sz + n, false)] r2 fl (f1 ++ f2) Hinv); try done.
    + simpl. lia.
    + by apply Forall_singleton.
    + pose proof (hi_coal _ _ _ _ _ _ Hinv) as (C1&C2&C3&C4)%coalesced_ctx.
      apply coalesced_ctx. apply coalesced_cons in C2 as [_ C2].
      apply coalesced_cons in C2 as [C5 C2]. by split_and!.
    + pose proof (hi_perm _ _ _ _ _ _ Hinv) as Hp. rewrite Hfl in Hp.
      rewrite <- Permutation_middle in Hp. rewrite free_addrs_app in Hp |- *. simpl in Hp |- *.
      replace (a + (p + sz + n)) with (a + p + sz + n) by lia.
      apply (Permutation_cons_inv (a := a + p + sz)). rewrite Hp.
      rewrite (Permutation_cons_append (free_addrs start c1 ++ _)), <- app_assoc. simpl.
      f_equiv. f_equiv. apply Permutation_cons_append.
    + rewrite HNd. pose proof (hi_links _ _ _ _ _ _ Hinv) as Hl. rewrite HN in Hl, Hwf.
      eapply (links_extract 8 m _ N1 x (a + p + sz) y N2); try done.
      * by mem_lookup.
      * by mem_lookup.
      * rewrite <- HN. intros w ?? Hw. assert (H1 := Hnl w Hw). assert (H2 := Hpl w Hw).
        clear Hnl Hpl Rx' Ry'. by mem_lookup.
    + simpl. rewrite flag_free. split_and!; [by mem_lookup..|done].
    + replace (ends a _) with (a + p + sz + n) by (unfold ends; simpl; lia).
      rewrite lastf_app. simpl. rewrite flag_free. by mem_lookup.
    + intros w Hw. by repeat apply mapped_insert.
    + intros w Hw Hn'. assert (w < a \/ a + p + sz + n < w) by (unfold ends in *; simpl in Hw; lia).
      destruct (Hother w Hn'). by mem_lookup.
Qed.
End ReleaseBoth.

(** ** The whole of [__lwp_heap_free] *)

Lemma payload_app start l1 l2 x :
  payload start (l1 ++ l2) x <-> payload start l1 x \/ payload (ends start l1) l2 x.
Proof.
  split.
  - intros (b1 & s & b2 & Heq & Hx). revert start b1 Heq Hx.
    induction l1 as [|y l1 IH]; intros start b1 Heq Hx; simpl in Heq.
    + right. rewrite ends_nil. by exists b1, s, b2.
    + destruct b1 as [|z b1]; simpl in Heq.
      * injection Heq as -> Heq. left. by exists [], s, l1.
      * injection Heq as -> Heq. rewrite ends_cons in Hx. destruct (IH _ b1 Heq Hx) as [(c1 & t & c2 & -> & Hc)|Hr].
        -- left. exists (z :: c1), t, c2. by rewrite ends_cons.
        -- right. by rewrite ends_cons.
  - intros [(b1 & s & b2 & -> & Hx)|(b1 & s & b2 & -> & Hx)].
    + exists b1, s, (b2 ++ l2). by rewrite <- app_assoc.
    + exists (l1 ++ b1), s, b2. rewrite <- app_assoc, ends_app. done.
Qed.

(** Merging blocks into one free block loses no payload but theirs. *)
Lemma payload_merge start l mid s r x :
  total mid = s -> payload start (l ++ (s, false) :: r) x -> payload start (l ++ mid ++ r) x.
Proof.
  intros <- Hx. rewrite !payload_app. rewrite payload_app in Hx. destruct Hx as [Hx|Hx]; [by left|].
  right; right. destruct Hx as ([|b b1] & t & b2 & Heq & Hx); simplify_eq/=.
  exists b1, t, b2. split; [done|]. unfold ends in *. simpl in Hx. lia.
Qed.

Section Free.
Context (m : mem) (h pg start : Z) (b1 : list block) (sz : Z) (b2 : list block) (fl : list Z).
Hypothesis Hinv : heap_inv m h pg start (b1 ++ (sz, true) :: b2) fl.
Local Notation a0 := (ends start b1).

(** What releasing the block leaves: the merged layout, the data of every
    other block in use untouched. *)
Definition freed (r : Z) (m' : mem) : Prop :=
  r = C_TRUE /\ (exists fl', heap_inv m' h pg start (released b1 sz b2) fl') /\
  (forall x, payload start (released b1 sz b2) x -> m' !! x = m !! x).

(** From a release confined to the merged block to the statement above. *)
Lemma freed_intro m' l s mid r fl' :
  b1 ++ (sz, true) :: b2 = l ++ mid ++ r -> total mid = s ->
  released b1 sz b2 = l ++ (s, false) :: r ->
  confined m m' h fl (ends start l) s ->
  heap_inv m' h pg start (l ++ (s, false) :: r) fl' ->
  freed C_TRUE m'.
Proof.
  intros Heq Htot Hrel Hcf Hi. split_and!; [done|exists fl'; by rewrite Hrel|].
  rewrite Hrel. intros x Hx. pose proof (payload_merge _ _ _ _ _ _ Htot Hx) as Hx'.
  rewrite <- Heq in Hx'. destruct (payload_outside _ _ _ _ _ _ _ _ _ _ Hi Hx) as [_ Hout].
  apply Hcf; [by apply Hout|]. by apply (payload_outside _ _ _ _ _ _ _ _ _ _ Hinv Hx').
Qed.

End Free.

Lemma release_spec m h pg start b1 sz b2 fl :
  heap_inv m h pg start (b1 ++ (sz, true) :: b2) fl ->
  wp (heap_release h (ends start b1) (ends start b1 + sz) sz) (freed m h pg start b1 sz b2) m.
Proof.
  intros Hinv.
  assert (Hcase : (exists p, last b1 = Some (p, false)) \/ forall p, last b1 <> Some (p, false)).
  { destruct (last b1) as [ [p [|] ]|]; naive_solver. }
  destruct Hcase as [ [p Hp]|Hp'].
  - apply last_Some in Hp as [c1 ->]. assert (Hinv' := Hinv). rewrite <- app_assoc in Hinv'. simpl in Hinv'.
    rewrite (prev_end start c1 p).
    assert (Hrel : released (c1 ++ [(p, false)]) sz b2 = c1 ++ merge_next (p + sz) b2).
    { unfold released. by rewrite last_snoc, removelast_last. }
    destruct b2 as [|[n [|] ] r].
    + eapply wp_mono; [apply (release_prev _ _ _ _ _ _ _ _ _ Hinv'); [intros; done]|].
      intros r m' (-> & Hcf & Hi).
      eapply (freed_intro _ _ _ _ _ _ _ _ Hinv m' c1 (p + sz) [(p, false); (sz, true)] []); try done;
        [by rewrite <- app_assoc|simpl; lia].
    + eapply wp_mono; [apply (release_prev _ _ _ _ _ _ _ _ _ Hinv'); [intros; done]|].
      intros r' m' (-> & Hcf & Hi).
      eapply (freed_intro _ _ _ _ _ _ _ _ Hinv m' c1 (p + sz) [(p, false); (sz, true)] ((n, true) :: r)); try done;
        [by rewrite <- app_assoc|simpl; lia].
    + eapply wp_mono; [by apply (release_both _ _ _ _ _ _ _ _ _ _ Hinv')|].
      intros r' m' (-> & Hcf & f1 & f2 & _ & Hi).
      eapply (freed_intro _ _ _ _ _ _ _ _ Hinv m' c1 (p + sz + n) [(p, false); (sz, true); (n, false)] r); try done;
        [by rewrite <- app_assoc|simpl; lia].
  - assert (Hrel : released b1 sz b2 = b1 ++ merge_next sz b2).
    { unfold released. destruct (last b1) as [ [p [|] ]|] eqn:E; try done. by destruct (Hp' p). }
    destruct b2 as [|[n [|] ] r].
    + eapply wp_mono; [apply (release_alone _ _ _ _ _ _ _ _ Hinv); [done|intros; done]|].
      intros r m' (-> & Hcf & Hi).
      eapply (freed_intro _ _ _ _ _ _ _ _ Hinv m' b1 sz [(sz, true)] []); try done. simpl; lia.
    + eapply wp_mono; [apply (release_alone _ _ _ _ _ _ _ _ Hinv); [done|intros; done]|].
      intros r' m' (-> & Hcf & Hi).
      eapply (freed_intro _ _ _ _ _ _ _ _ Hinv m' b1 sz [(sz, true)] ((n, true) :: r)); try done. simpl; lia.
    + eapply wp_mono; [by apply (release_next _ _ _ _ _ _ _ _ _ Hinv)|].
      intros r' m' (-> & Hcf & f1 & f2 & _ & Hi).
      eapply (freed_intro _ _ _ _ _ _ _ _ Hinv m' b1 (sz + n) [(sz, true); (n, false)] r); try done. simpl; lia.
Qed.


Section FreeCall.
Context (m : mem) (h pg start : Z) (b1 : list block) (sz : Z) (b2 : list block) (fl : list Z).
Hypothesis Hinv : heap_inv m h pg start (b1 ++ (sz, true) :: b2) fl.
Local Notation a0 := (ends start b1).

Lemma usrblockat_spec (a ptr : Z) Q :
  0 <= a < 2 ^ 32 -> a + 8 <= ptr < 2 ^ 32 ->
  m !! (ptr - 4) = Some (ptr - (a + 8)) -> Q a m -> wp (lwp_heap_usrblockat ptr) Q m.
Proof.
  intros Ha Hp Hm HQ. unfold lwp_heap_usrblockat, lwp_heap_blockat, HEAP_BLOCK_USED_OVERHEAD.
  mem_run. replace (u32 (ptr + u32 (- (ptr - (a + 8)) + - (4 * 2)))) with a; [done|].
  unfold wrap. rewrite Zplus_mod_idemp_r.
  replace (ptr + (- (ptr - (a + 8)) + - (4 * 2))) with a by lia. symmetry. apply Z.mod_small. lia.
Qed.

Lemma free_spec ptr :
  a0 + 8 <= ptr <= a0 + sz -> m !! (ptr - 4) = Some (ptr - (a0 + 8)) ->
  wp (lwp_heap_free h ptr) (freed m h pg start b1 sz b2) m.
Proof.
  intros Hptr Hoff.
  destruct (inv_bounds _ _ _ _ _ _ _ _ Hinv) as (B1&B2&B3&B4&B5&B6&B7&B8). simpl in *.
  destruct (inv_words _ _ _ _ _ _ _ _ Hinv) as (W1&W2&W3&Wt). simpl in W3.
  destruct (inv_sizes _ _ _ _ _ _ _ _ Hinv) as (_&S2&_).
  pose proof (hi_start _ _ _ _ _ _ Hinv) as Hs. pose proof (hi_final _ _ _ _ _ _ Hinv) as Hf.
  unfold lwp_heap_free. mem_step. apply (usrblockat_spec a0); [lia|lia|done|]. mem_step.
  eapply wp_blockin; [exact Hs|exact Hf|lia|]. simpl. mem_step.
  apply (wp_blockfree _ _ _ _ W2 S2). simpl. mem_step.
  apply (wp_blocksize _ _ _ _ W2 S2). simpl. unfold lwp_heap_blockat.
  rewrite wrap_small by lia. mem_step. eapply wp_blockin; [exact Hs|exact Hf|lia|]. simpl.
  unfold front_flag, back_flag. mem_run. rewrite Z.eqb_refl. simpl. by eapply release_spec.
Qed.
End FreeCall.
