(* ===== verification/LwpHeapSpec.v ===== *)
(** * The contract of the workspace heap

    Initialisation and statistics, and the theorems on the operations of
    [lwp_heap.c] as a whole, with their witnesses on a concrete heap. *)

From stdpp Require Import base gmap list fin_maps.
From Stdlib Require Import ZArith Lia.
From S2P Require Import Prelude Chain LwpHeap LwpHeapInv LwpHeapProofs LwpHeapFree.

Open Scope Z_scope.

(** ** Initialisation *)

(** The words [__lwp_heap_init] needs: the control structure and the area. *)
Definition heap_area (m : mem) (h start size : Z) : Prop :=
  (forall i, 0 <= i < 6 -> is_Some (m !! (h + 4 * i))) /\
  (forall a, start <= a < start + size -> a mod 4 = 0 -> is_Some (m !! a)).

Lemma init_spec m h start size pg :
  pg_ok pg -> HEAP_MIN_SIZE <= size -> size mod 4 = 0 ->
  geometry h start (start + size - 8) -> heap_area m h start size ->
  wp (lwp_heap_init h start size pg)
    (fun r m' => r = size - 16 /\ heap_inv m' h pg start [(size - 8, false)] [start]) m.
Proof.
  intros Hpg Hsz Hsz4 Hgeo [Hc Ha].
  assert (Hgeo' := Hgeo). destruct Hgeo' as (G1&G2&G3&G4&G5&G6).
  unfold HEAP_MIN_SIZE, HEAP_OVERHEAD, SIZEOF_heap_block in Hsz.
  assert (Hs4 : forall k, k mod 4 = 0 -> 0 <= k < size -> is_Some (m !! (start + k))).
  { intros k Hk Hk'. apply Ha; [lia|]. rewrite Z.add_mod, G2, Hk by lia. done. }
  assert (C0 := Hc 0 ltac:(lia)). assert (C1 := Hc 1 ltac:(lia)). assert (C2 := Hc 2 ltac:(lia)).
  assert (C3 := Hc 3 ltac:(lia)). assert (C4 := Hc 4 ltac:(lia)). assert (C5 := Hc 5 ltac:(lia)).
  replace (h + 4 * 0) with h in C0 by lia. change (4 * 1) with 4 in *. change (4 * 2) with 8 in *.
  change (4 * 3) with 12 in *. change (4 * 4) with 16 in *. change (4 * 5) with 20 in *.
  assert (M0 := Hs4 0 eq_refl ltac:(lia)). rewrite Z.add_0_r in M0.
  assert (M1 := Hs4 4 eq_refl ltac:(lia)). assert (M2 := Hs4 8 eq_refl ltac:(lia)).
  assert (M3 := Hs4 12 eq_refl ltac:(lia)).
  assert (H84 : (size - 8) mod 4 = 0) by (rewrite Zminus_mod, Hsz4; done).
  assert (M4 := Hs4 (size - 8) H84 ltac:(lia)).
  assert (M5 := Hs4 (size - 4) ltac:(rewrite Zminus_mod, Hsz4; done) ltac:(lia)).
  replace (start + (size - 4)) with (start + (size - 8) + 4) in M5 by lia.
  replace (start + 12) with (start + 8 + 4) in M3 by lia.
  assert (Hok : block_ok (size - 8, false)) by (split; simpl; unfold SIZEOF_heap_block; lia).
  unfold lwp_heap_init. rewrite (proj1 Hpg). unfold HEAP_MIN_SIZE, HEAP_OVERHEAD, SIZEOF_heap_block.
  destruct (Z.ltb_spec size (4 * 2 + 16)); [lia|]. simpl orb. cbv iota zeta.
  change (4 * 2) with 8. rewrite (wrap_small 32 (size - 8)) by lia.
  unfold hc_pg_size, back_flag, front_flag, blk_next, blk_prev, hc_start, hc_first, hc_perm_null,
    hc_last, hc_final. clear Hc Hs4 Hsz4 H84. assert (G2' := G2). clear G2.
  do 18 mem_step.
  mem_step. apply (wp_nextblock _ _ (size - 8, false)); [mem_lookup; by rewrite flag_free|done|lia|simpl; lia|].
  simpl. mem_run. unfold HEAP_BLOCK_USED_OVERHEAD. change (4 * 2) with 8.
  rewrite wrap_small by lia. split; [lia|].
  assert (He : ends start [(size - 8, false)] = start + (size - 8)) by (unfold ends; simpl; lia).
  constructor; rewrite ?He; try done; unfold hc_start, hc_final, hc_perm_null, hc_pg_size; try (by mem_lookup).
  - unfold fnodes, lwp_heap_head, lwp_heap_tail. simpl. split_and!; try done; by mem_lookup.
  - simpl. rewrite flag_free. split_and!; by mem_lookup.
  - by apply Forall_singleton.
  - by replace (start + (size - 8)) with (start + size - 8) by lia.
  - intros a Hr Ha4. repeat apply mapped_insert. apply Ha; [lia|done].
Qed.

(** ** Statistics *)

Definition count_used (bs : list block) : Z := foldr (fun (b : block) n => b2z b.2 + n) 0 bs.
Definition count_free (bs : list block) : Z := foldr (fun (b : block) n => b2z (negb b.2) + n) 0 bs.
Definition bytes_used (bs : list block) : Z := foldr (fun (b : block) n => (if b.2 then b.1 else 0) + n) 0 bs.
Definition bytes_free (bs : list block) : Z := foldr (fun (b : block) n => (if b.2 then 0 else b.1) + n) 0 bs.

Lemma counts_bound bs : sizes_ok bs ->
  0 <= count_used bs /\ 0 <= count_free bs /\ 0 <= bytes_used bs /\ 0 <= bytes_free bs /\
  16 * (count_used bs + count_free bs) <= total bs /\ bytes_used bs + bytes_free bs = total bs.
Proof.
  induction 1 as [|[sz u] r [Hb _] _ IH]; simpl; [lia|].
  unfold SIZEOF_heap_block in Hb. simpl in Hb. destruct u; simpl; lia.
Qed.

Fixpoint all_addrs (a : Z) (bs : list block) : list Z :=
  match bs with [] => [a] | b :: r => a :: all_addrs (a + b.1) r end.

Lemma all_addrs_ge a bs x : sizes_ok bs -> x ∈ all_addrs a bs -> a <= x.
Proof.
  intros Hs. revert a. induction Hs as [|b r [Hb _] _ IH]; intros a; simpl; [set_solver by lia|].
  unfold SIZEOF_heap_block in Hb. rewrite elem_of_cons. intros [->|Hx]; [lia|]. apply IH in Hx. lia.
Qed.

Lemma all_addrs_NoDup a bs : sizes_ok bs -> NoDup (all_addrs a bs).
Proof.
  intros Hs. revert a. induction Hs as [|b r [Hb _] Hr IH]; intros a; simpl; [apply NoDup_singleton|].
  unfold SIZEOF_heap_block in Hb. apply NoDup_cons. split; [|done].
  intros Hx%all_addrs_ge; [lia|done].
Qed.

Lemma all_addrs_mapped m a pf bs x : tiles m a pf bs -> x ∈ all_addrs a bs -> is_Some (m !! x).
Proof.
  revert a pf. induction bs as [|b r IH]; intros a pf; simpl.
  - intros [H _] ->%list_elem_of_singleton. eauto.
  - intros (H & _ & Ht). rewrite elem_of_cons. intros [->|Hx]; eauto.
Qed.

(** The walk visits each header once, so the size of memory bounds it. *)
Lemma walk_fuel m a pf bs : sizes_ok bs -> tiles m a pf bs -> (length bs < mem_fuel m)%nat.
Proof.
  intros Hs Ht. assert (Hlen : length (all_addrs a bs) = S (length bs)).
  { clear. revert a. induction bs; intros; simpl; auto. }
  unfold mem_fuel. enough (S (length bs) <= size m)%nat by lia. rewrite <- Hlen.
  rewrite <- (size_list_to_set (C := gset Z)) by by apply all_addrs_NoDup.
  rewrite <- size_dom. apply subseteq_size. intros x. rewrite elem_of_list_to_set.
  intros Hx. apply elem_of_dom. by eapply all_addrs_mapped.
Qed.

Lemma walk_spec m fuel a pf bs info :
  sizes_ok bs -> tiles m a pf bs -> 0 < a -> ends a bs + 8 <= 2 ^ 32 -> (length bs < fuel)%nat ->
  0 <= free_blocks info -> free_blocks info + count_free bs < 2 ^ 32 ->
  0 <= free_size info -> free_size info + bytes_free bs < 2 ^ 32 ->
  0 <= used_blocks info -> used_blocks info + count_used bs + 1 < 2 ^ 32 ->
  0 <= used_size info -> used_size info + bytes_used bs < 2 ^ 32 ->
  wp (heap_walk fuel a info)
    (fun r m' => m' = m /\ r = (0, mk_iblock (free_blocks info + count_free bs)
       (free_size info + bytes_free bs) (used_blocks info + count_used bs + 1)
       (used_size info + bytes_used bs))) m.
Proof.
  intros Hs. revert fuel a pf info.
  induction Hs as [|[sz u] r Hb Hr IH]; intros fuel a pf [fb fs ub us] Ht Ha0 He Hfuel; simpl;
    intros F1 F2 F3 F4 F5 F6 F7 F8; (destruct fuel as [|fuel]; [simpl in Hfuel; lia|]); cbn [heap_walk].
  - destruct Ht as [H1 H2]. unfold lwp_heap_blockfree, lwp_heap_blocksize, front_flag.
    mem_run. simpl. mem_run. simpl. rewrite !Z.add_0_r in *. unfold HEAP_DUMMY_FLAG, HEAP_BLOCK_USED.
    simpl. apply wp_ret. split; [done|]. f_equal. f_equal; [|apply wrap_small; lia].
    apply wrap_small. lia.
  - destruct Ht as (H1 & H2 & H3). simpl in H3.
    assert (Hsz := Hb). destruct Hsz as [Hsz _]. unfold SIZEOF_heap_block in Hsz. simpl in Hsz.
    assert (H4 : m !! (a + sz) = Some (flag (sz, u))) by (destruct r; simpl in H3; tauto).
    rewrite ends_cons in He. simpl in He. destruct (counts_bound r Hr) as (N1&N2&N3&N4&N5&N6).
    assert (Hend : a + sz <= ends (a + sz) r) by (unfold ends; pose proof (total_nonneg _ Hr); lia).
    mem_step. apply (wp_blockfree _ _ _ _ H2 Hb). mem_step. apply (wp_blocksize _ _ _ _ H2 Hb).
    unfold front_flag, back_flag. mem_run.
    assert (Hne : flag (sz, u) =? HEAP_DUMMY_FLAG = false).
    { apply Z.eqb_neq. unfold flag, HEAP_DUMMY_FLAG, HEAP_BLOCK_USED. destruct u; simpl; lia. }
    rewrite Hne. mem_step. apply (wp_nextblock _ _ _ _ H2 Hb); [lia|simpl; lia|]. simpl. mem_run.
    rewrite Z.eqb_refl. simpl. destruct u; simpl in *.
    + rewrite (wrap_small 32 (ub + 1)), (wrap_small 32 (us + sz)) by lia.
      eapply wp_mono; [eapply IH; simpl; try done; try lia|].
      intros rr m' [-> ->]. split; [done|]. simpl. do 2 f_equal; lia.
    + rewrite (wrap_small 32 (fb + 1)), (wrap_small 32 (fs + sz)) by lia.
      eapply wp_mono; [eapply IH; simpl; try done; try lia|].
      intros rr m' [-> ->]. split; [done|]. simpl. do 2 f_equal; lia.
Qed.

Lemma getinfo_spec m h pg start bs fl :
  heap_inv m h pg start bs fl ->
  wp (lwp_heap_getinfo h)
    (fun r m' => m' = m /\ r = (0, mk_iblock (count_free bs) (bytes_free bs)
                                    (count_used bs + 1) (bytes_used bs))) m.
Proof.
  intros Hinv. pose proof (hi_start _ _ _ _ _ _ Hinv) as Hs.
  pose proof (hi_tiles _ _ _ _ _ _ Hinv) as Ht. pose proof (hi_sizes _ _ _ _ _ _ Hinv) as Hz.
  destruct (hi_geo _ _ _ _ _ _ Hinv) as (G1&G2&G3&_).
  destruct (counts_bound bs Hz) as (N1&N2&N3&N4&N5&N6).
  assert (Hb : m !! start = Some HEAP_DUMMY_FLAG) by (destruct bs; simpl in Ht; tauto).
  unfold lwp_heap_getinfo, back_flag. mem_run. simpl. mem_step. apply wp_gets.
  eapply wp_mono; [eapply walk_spec; simpl; try done; try lia|done].
  - by eapply walk_fuel.
  - unfold ends in G3. lia.
  - unfold ends in G3. lia.
  - unfold ends in G3. lia.
  - unfold ends in G3. lia.
Qed.

(** ** Theorems *)

Lemma split_unique start b1 b b2 c1 c c2 :
  sizes_ok (b1 ++ b :: b2) -> b1 ++ b :: b2 = c1 ++ c :: c2 -> ends start b1 = ends start c1 ->
  b1 = c1 /\ b = c /\ b2 = c2.
Proof.
  revert start c1. induction b1 as [|x b1 IH]; intros start [|y c1] Hs Heq He;
    simpl in Heq; injection Heq as -> Heq; [by subst| | |].
  - subst b2. apply Forall_cons in Hs as [ [Hb _] Hs]. apply Forall_app in Hs as [Hs _].
    pose proof (total_nonneg _ Hs). rewrite ends_nil, ends_cons in He.
    unfold ends, SIZEOF_heap_block in *. lia.
  - apply Forall_cons in Hs as [ [Hb _] Hs]. apply Forall_app in Hs as [Hs _].
    pose proof (total_nonneg _ Hs). rewrite ends_nil, ends_cons in He.
    unfold ends, SIZEOF_heap_block in *. lia.
  - rewrite !ends_cons in He. apply Forall_cons in Hs as [_ Hs].
    by destruct (IH _ _ Hs Heq He) as (-> & -> & ->).
Qed.

(** Releasing what an allocation took restores the layout. *)
Lemma released_alloc m h pg start bs fl dsize bs' c1 d c2 :
  heap_inv m h pg start bs fl -> sizes_ok bs' ->
  alloc_step pg dsize start fl bs bs' (ends start c1) d ->
  bs' = c1 ++ (d, true) :: c2 -> released c1 d c2 = bs.
Proof.
  intros Hinv Hs' (b1 & sz & b2 & -> & Hle & _ & Hcase) ->.
  pose proof (hi_coal _ _ _ _ _ _ Hinv) as (_&_&Cl&Cr)%coalesced_ctx.
  assert (Hmerge : forall s, merge_next s b2 = (s, false) :: b2).
  { intros s. destruct b2 as [|[n [|] ] r]; try done. by specialize (Cr _ eq_refl). }
  destruct Hcase as [(_ & -> & Ha & Heq)|(_ & -> & Ha & Heq)].
  - assert (Heq' : c1 ++ (dsize, true) :: c2 = (b1 ++ [(sz - dsize, false)]) ++ (dsize, true) :: b2)
      by by rewrite <- app_assoc.
    destruct (split_unique start _ _ _ _ _ _ Hs' Heq') as (-> & _ & ->).
    { rewrite Ha. unfold ends. rewrite total_app. simpl. lia. }
    unfold released. rewrite last_snoc, removelast_last, Hmerge. do 3 f_equal. lia.
  - destruct (split_unique start _ _ _ _ _ _ Hs' Heq Ha) as (-> & _ & ->).
    unfold released. destruct (last b1) as [ [p [|] ]|] eqn:E; rewrite ?Hmerge; try done.
    by specialize (Cl _ eq_refl).
Qed.

(** Initialisation: on a mapped, aligned area that does not wrap around,
    [__lwp_heap_init] establishes the heap invariant with a single free block
    spanning the area and returns the bytes available; with an invalid page size
    or an area that is too small it returns 0 and writes nothing. *)
Theorem lwp_heap_init_ok m h start size pg :
  (lwp_heap_pgsize_valid pg = false \/ size < HEAP_MIN_SIZE ->
     lwp_heap_init h start size pg m = Ok (0, m)) /\
  (pg_ok pg -> HEAP_MIN_SIZE <= size -> size mod 4 = 0 ->
   geometry h start (start + size - 8) -> heap_area m h start size ->
   wp (lwp_heap_init h start size pg)
     (fun r m' => r = size - 16 /\ heap_inv m' h pg start [(size - 8, false)] [start]) m).
Proof.
  split; [|by apply init_spec]. intros Hbad. unfold lwp_heap_init.
  destruct (Z.ltb_spec size HEAP_MIN_SIZE); [by rewrite orb_true_r|].
  destruct Hbad as [->|?]; [done|lia].
Qed.

(** C4. Allocation: for every request whose rounded size does not wrap around,
    [__lwp_heap_allocate] terminates without a bad access. It returns NULL, with
    the heap unchanged, only if every free block is too small; otherwise it takes
    the first sufficient block of the free list (split when the rest is large
    enough), the invariant holds again, the returned area of [size] bytes lies
    inside the new used block behind its header and offset word, is aligned to a
    power-of-two page size, overlaps no block that was in use, and the contents
    of all blocks in use are unchanged. *)
Theorem lwp_heap_allocate_ok m h pg start bs fl size :
  heap_inv m h pg start bs fl -> request_ok pg size ->
  wp (lwp_heap_allocate h size)
    (fun p m' =>
       (p = NULL /\ m' = m /\ first_fit start bs (heap_dsize pg size) fl None) \/
       (p <> NULL /\ allocated m h pg start bs fl size p m')) m.
Proof. intros Hinv Hreq. by apply allocate_spec. Qed.

(** C5. Release: given the user address of a block in use, [__lwp_heap_free]
    returns TRUE, merges the block with free neighbours on either side, and
    re-establishes the invariant (so no two free blocks are ever adjacent);
    the contents of every other block in use are unchanged. *)
Theorem lwp_heap_free_ok m h pg start b1 sz b2 fl ptr :
  heap_inv m h pg start (b1 ++ (sz, true) :: b2) fl ->
  ends start b1 + 8 <= ptr <= ends start b1 + sz ->
  m !! (ptr - 4) = Some (ptr - (ends start b1 + 8)) ->
  wp (lwp_heap_free h ptr)
    (fun r m' => r = C_TRUE /\ (exists fl', heap_inv m' h pg start (released b1 sz b2) fl') /\
       (forall x, payload start (released b1 sz b2) x -> m' !! x = m !! x)) m.
Proof. intros Hinv H1 H2. by apply (free_spec _ _ _ _ _ _ _ _ Hinv). Qed.

(** Rejected releases: a pointer whose header lies outside the managed area,
    or belongs to a block that is already free (a double free), makes
    [__lwp_heap_free] return FALSE and leaves the memory unchanged. *)
Theorem lwp_heap_free_rejects m h pg start bs fl a ptr :
  heap_inv m h pg start bs fl ->
  0 <= a < 2 ^ 32 -> a + 8 <= ptr < 2 ^ 32 -> m !! (ptr - 4) = Some (ptr - (a + 8)) ->
  a < start \/ ends start bs < a \/ a ∈ free_addrs start bs ->
  lwp_heap_free h ptr m = Ok (C_FALSE, m).
Proof.
  intros Hinv Ha Hptr Hoff Hbad.
  enough (Hw : wp (lwp_heap_free h ptr) (fun r m' => r = C_FALSE /\ m' = m) m).
  { apply wp_run in Hw as (r & m' & E & -> & ->). done. }
  pose proof (hi_start _ _ _ _ _ _ Hinv) as Hs. pose proof (hi_final _ _ _ _ _ _ Hinv) as Hf.
  unfold lwp_heap_free. mem_step. apply (usrblockat_spec m a); try done.
  destruct (decide (start <= a <= ends start bs)) as [Hin|Hout].
  - destruct Hbad as [?|[?|Hbad] ]; [lia..|].
    apply free_addrs_split in Hbad as (b1 & sz & b2 & -> & ->).
    destruct (inv_words _ _ _ _ _ _ _ _ Hinv) as (_&W2&_).
    destruct (inv_sizes _ _ _ _ _ _ _ _ Hinv) as (_&S2&_).
    mem_step. eapply wp_blockin; [exact Hs|exact Hf|lia|]. simpl. mem_step.
    apply (wp_blockfree _ _ _ _ W2 S2). simpl. by apply wp_ret.
  - unfold lwp_heap_blockin. mem_run.
    destruct (Z.leb_spec start a), (Z.leb_spec a (ends start bs)); simpl; try (by apply wp_ret). lia.
Qed.

(** Allocate and release at once. *)
Definition alloc_free (h size : Z) : M mem Z :=
  p <- lwp_heap_allocate h size;
  if p =? NULL then ret C_FALSE else lwp_heap_free h p.

(** C6. Round trip: allocating a block and releasing it restores the layout of
    the heap exactly, whether the block was split off or taken whole. *)
Theorem lwp_heap_alloc_free_roundtrip m h pg start bs fl size :
  heap_inv m h pg start bs fl -> request_ok pg size ->
  wp (alloc_free h size)
    (fun r m' => (r = C_FALSE /\ m' = m) \/
                 (r = C_TRUE /\ exists fl', heap_inv m' h pg start bs fl')) m.
Proof.
  intros Hinv Hreq. unfold alloc_free. apply wp_bind.
  eapply wp_mono; [by apply allocate_spec|]. intros p m1 [(-> & -> & _)|(Hp & Hal)].
  - apply wp_ret. by left.
  - destruct (Z.eqb_spec p NULL); [done|].
    destruct Hal as (bs' & fl' & c1 & a & d & c2 & Hst & Hbs' & -> & Hi & H1 & H2 & _ & Hoff & _).
    assert (Hs' := hi_sizes _ _ _ _ _ _ Hi).
    assert (Hrel := released_alloc _ _ _ _ _ _ _ _ _ _ _ Hinv Hs' Hst Hbs'). subst bs'.
    destruct Hreq as [Hr0 _].
    eapply wp_mono; [apply (free_spec _ _ _ _ _ _ _ _ Hi); [lia|done]|].
    intros r m2 (-> & Hinv2 & _). right. rewrite Hrel in Hinv2. done.
Qed.

(** Statistics: on a well-formed heap [__lwp_heap_getinfo] returns 0 and
    reports the number and total size of the free and of the used blocks; the
    closing dummy header is counted as one used block of size 0. *)
Theorem lwp_heap_getinfo_ok m h pg start bs fl :
  heap_inv m h pg start bs fl ->
  wp (lwp_heap_getinfo h)
    (fun r m' => m' = m /\ r = (0, mk_iblock (count_free bs) (bytes_free bs)
                                    (count_used bs + 1) (bytes_used bs))) m.
Proof. apply getinfo_spec. Qed.

(** ** A concrete heap *)

(** The control structure at 1000 and a 1 KiB area at 2000, zeroed. *)
Definition blank : mem := zero_words 7 1000 ∪ zero_words 256 2000.
Definition run_mem {A} (c : M mem A) (m : mem) : mem :=
  match c m with Ok (_, m') => m' | Fault _ => ∅ end.
Definition heap0 : mem := run_mem (lwp_heap_init 1000 2000 1024 8) blank.
(** One block of 20 bytes allocated; the user address is 2992. *)
Definition heap1 : mem := run_mem (lwp_heap_allocate 1000 20) heap0.

(** Overflow of the size computation: the guard of [__lwp_heap_allocate]
    only rejects requests of 0xFFFFFFF7 bytes and more, but the rounded size of
    slightly smaller requests wraps around to 16 bytes, so a 1 KiB heap hands out
    a block for a request of 0xFFFFFFF0 bytes. *)
Theorem lwp_heap_allocate_wraps :
  (forall size, 2 ^ 32 - 16 <= size <= 2 ^ 32 - 10 -> heap_dsize 8 size = 16) /\
  (exists m', lwp_heap_allocate 1000 (2 ^ 32 - 16) heap0 = Ok (3016, m')).
Proof.
  split.
  - intros size Hs. assert (Hc : exists k, size = 2 ^ 32 - 16 + k /\ 0 <= k <= 6)
      by (exists (size - (2 ^ 32 - 16)); lia).
    destruct Hc as (k & -> & Hk).
    assert (k = 0 \/ k = 1 \/ k = 2 \/ k = 3 \/ k = 4 \/ k = 5 \/ k = 6)
      as [->|[->|[->|[->|[->|[->| ->] ] ] ] ] ] by lia; reflexivity.
  - eexists. vm_compute. reflexivity.
Qed.

(** ** Witnesses *)

Lemma zero_words_mapped n a x : a <= x < a + 4 * Z.of_nat n -> (x - a) mod 4 = 0 ->
  is_Some (zero_words n a !! x).
Proof.
  revert a. induction n as [|n IH]; intros a Hx Hm; [lia|]. cbn [zero_words].
  destruct (decide (x = a)) as [->|Hne]; [rewrite lookup_insert_eq; eauto|].
  rewrite lookup_insert_ne by done. apply IH.
  - pose proof (Z.div_mod (x - a) 4 ltac:(lia)). lia.
  - replace (x - (a + 4)) with (x - a + (-1) * 4) by lia. by rewrite Z.mod_add by lia.
Qed.

Lemma union_mapped (m1 m2 : mem) x :
  is_Some (m1 !! x) \/ is_Some (m2 !! x) -> is_Some ((m1 ∪ m2) !! x).
Proof. rewrite lookup_union_is_Some. done. Qed.

Lemma blank_area : heap_area blank 1000 2000 1024.
Proof.
  split.
  - intros i Hi. apply union_mapped. left. apply zero_words_mapped; [lia|].
    replace (1000 + 4 * i - 1000) with (i * 4) by lia. apply Z.mod_mul. lia.
  - intros a Ha Ha4. apply union_mapped. right. apply zero_words_mapped; [lia|].
    rewrite Zminus_mod, Ha4. done.
Qed.

Lemma heap_ok_8 : pg_ok 8 /\ request_ok 8 20 /\ geometry 1000 2000 (2000 + 1024 - 8).
Proof. split_and!; [split; [done|lia]|split; lia|unfold geometry; split_and!; try lia; done]. Qed.

Lemma lwp_heap_init_ok_witness :
  wp (lwp_heap_init 1000 2000 1024 8)
    (fun r m' => r = 1008 /\ heap_inv m' 1000 8 2000 [(1016, false)] [2000]) blank.
Proof.
  destruct heap_ok_8 as (H1 & _ & H2).
  apply (proj2 (lwp_heap_init_ok blank 1000 2000 1024 8)); try done. apply blank_area.
Defined.

Lemma heap0_inv : heap_inv heap0 1000 8 2000 [(1016, false)] [2000].
Proof.
  pose proof (init_spec blank 1000 2000 1024 8) as H.
  destruct heap_ok_8 as (H1 & _ & H2).
  destruct (proj1 (wp_run _ _ _) (H H1 ltac:(done) eq_refl H2 blank_area)) as (r & m' & E & _ & Hi).
  unfold heap0, run_mem. rewrite E. exact Hi.
Qed.

Lemma lwp_heap_allocate_ok_witness :
  wp (lwp_heap_allocate 1000 20)
    (fun p m' =>
       (p = NULL /\ m' = heap0 /\ first_fit 2000 [(1016, false)] (heap_dsize 8 20) [2000] None) \/
       (p <> NULL /\ allocated heap0 1000 8 2000 [(1016, false)] [2000] 20 p m')) heap0.
Proof.
  apply (lwp_heap_allocate_ok heap0 1000 8 2000 [(1016, false)] [2000] 20); [apply heap0_inv|].
  apply heap_ok_8.
Defined.

(** The layout after the allocation: 40 of the 1016 bytes are cut off. *)
Lemma heap1_inv : exists fl, heap_inv heap1 1000 8 2000 ([(976, false)] ++ [(40, true)]) fl.
Proof.
  destruct (proj1 (wp_run _ _ _) (carve_split heap0 1000 8 2000 [] 1016 [] [2000] heap0_inv 40
    ltac:(lia) eq_refl ltac:(lia) ltac:(lia))) as (p & m' & E & -> & _ & Hi). exists [2000].
  assert (Hh : heap1 = <[2988 := 8]> m').
  { assert (Hm' : m' = run_mem (heap_carve 8 (ends 2000 []) 40) heap0) by (unfold run_mem; by rewrite E).
    rewrite Hm'. vm_compute. reflexivity. }
  rewrite Hh. apply (heap_inv_user_store _ _ _ _ [(976, false)] 40 [] _ 2988 8 Hi).
  unfold ends. simpl. lia.
Qed.

Lemma lwp_heap_free_ok_witness :
  wp (lwp_heap_free 1000 2992)
    (fun r m' => r = C_TRUE /\
       (exists fl', heap_inv m' 1000 8 2000 [(1016, false)] fl') /\
       (forall x, payload 2000 [(1016, false)] x -> m' !! x = heap1 !! x)) heap1.
Proof.
  destruct heap1_inv as [fl Hi].
  apply (lwp_heap_free_ok heap1 1000 8 2000 [(976, false)] 40 [] fl 2992 Hi);
    [unfold ends; simpl; lia|vm_compute; reflexivity].
Defined.

(** The first words of the area do not lie behind a block header: the link
    stored at 2012 is read as an offset and leads below the area. *)
Lemma lwp_heap_free_rejects_witness : lwp_heap_free 1000 2016 heap0 = Ok (C_FALSE, heap0).
Proof.
  apply (lwp_heap_free_rejects heap0 1000 8 2000 [(1016, false)] [2000] 1008 2016 heap0_inv);
    [lia|lia|vm_compute; reflexivity|left; lia].
Defined.

Lemma lwp_heap_alloc_free_roundtrip_witness :
  wp (alloc_free 1000 20)
    (fun r m' => (r = C_FALSE /\ m' = heap0) \/
       (r = C_TRUE /\ exists fl', heap_inv m' 1000 8 2000 [(1016, false)] fl')) heap0.
Proof.
  apply (lwp_heap_alloc_free_roundtrip heap0 1000 8 2000 [(1016, false)] [2000] 20 heap0_inv).
  apply heap_ok_8.
Defined.

Lemma lwp_heap_getinfo_ok_witness :
  wp (lwp_heap_getinfo 1000) (fun r m' => m' = heap0 /\ r = (0, mk_iblock 1 1016 1 0)) heap0.
Proof.
  apply (lwp_heap_getinfo_ok heap0 1000 8 2000 [(1016, false)] [2000] heap0_inv).
Defined.
