(* ===== verification/KState.v ===== *)
(** * The state of the tuxedo kernel and its two monads

    [struct KThread] (gc/tuxedo/thread.h) and the objects that refer to threads.
    Memory is modelled one field at a time: the field [f] of the thread at
    address [t] is [k_f s t], for the addresses in [k_thr s]; an access to
    another address faults. A wait queue is either a static object or the
    [waiters] field of a thread.

    Kernel code that cannot change the running thread is written in the state
    monad [M kst]. Code that can is written in the resumption monad [K], where a
    context switch ends the run with the code that is left to execute when the
    thread is scheduled again. *)

From stdpp Require Import base gmap list fin_maps.
From Stdlib Require Import ZArith Lia.
From S2P Require Import Prelude Chain Devices.

Open Scope Z_scope.

(** ** Data *)

Inductive KThrState :=
| KTHR_STATE_UNINIT
| KTHR_STATE_FINISHED
| KTHR_STATE_RUNNING
| KTHR_STATE_WAITING
| KTHR_STATE_WAITING_MUTEX.

#[global] Instance KThrState_eq : EqDecision KThrState.
Proof. solve_decision. Defined.

(** The numbering of the enumeration, for the comparison in [KThreadJoin]. *)
Definition state_num (x : KThrState) : Z :=
  match x with
  | KTHR_STATE_UNINIT => 0 | KTHR_STATE_FINISHED => 1 | KTHR_STATE_RUNNING => 2
  | KTHR_STATE_WAITING => 3 | KTHR_STATE_WAITING_MUTEX => 4
  end.

Definition KTHR_MAX_PRIO : Z := 0.
Definition KTHR_MAIN_PRIO : Z := 0x3f.
Definition KTHR_MIN_PRIO : Z := 0x7f.

(** A [KThrQueue*]: a static queue, or [&t->waiters]. *)
Inductive qref := QStatic (a : Z) | QWaiters (t : Z).

#[global] Instance qref_eq : EqDecision qref.
Proof. solve_decision. Defined.

(** [s_firstThread] and the [next] field of every thread. *)
Record tlinks := mk_tlinks { tl_first : Z; tl_next : Z -> Z }.

(** [wait.link.next] and [wait.link.prev] of every thread, [next] and [prev] of
    every queue. The exit code of a finished thread, [finish.rc], lies over
    [wait.link.next] in the union. *)
Record wlinks := mk_wlinks { ln : Z -> Z; lp : Z -> Z; qn : qref -> Z; qp : qref -> Z }.

(** The fields of [PPCContext] the kernel's C code sets. *)
Record PPCContext := mk_ctx
  { c_pc : Z; c_msr : Z; c_lr : Z; c_gpr1 : Z; c_gpr2 : Z; c_gpr3 : Z; c_gpr13 : Z }.

Record KMailbox := mk_box
  { mb_slots : Z; mb_num_slots : Z; mb_cur_slot : Z; mb_pending_slots : Z;
    mb_send_waiters : Z; mb_recv_waiters : Z }.

(** The [KTickTask] objects: [s_firstTask], the addresses of the tasks, and
    their fields. *)
Record ticks := mk_ticks
  { tk_first : Z; tk_valid : gset Z; tk_next : Z -> Z; tk_fn : Z -> Z;
    tk_target : Z -> Z; tk_period : Z -> Z }.

(** The static tables of libogc/lwpcompat. *)
Record lwpc := mk_lwpc
  { lw_queue_used : Z; lw_sem_used : Z; lw_sem_table : Z -> Z;
    lw_mutex_used : Z; lw_mutex_recursive : Z; lw_cond_used : Z }.

(** The whole state. *)
Record kst := mk_kst {
  k_thr : gset Z; (* addresses that hold a [KThread] *)
  k_tl : tlinks; (* [s_firstThread] and the [next] fields *)
  k_lk : wlinks; (* wait links of the threads, heads of the queues *)
  k_wq : Z -> option qref; (* [wait.queue] *)
  k_token : Z -> Z; (* [wait.token] *)
  k_state : Z -> KThrState; (* [state] *)
  k_suspend : Z -> Z; (* [suspend], 16 bits *)
  k_prio : Z -> Z; (* [prio] *)
  k_baseprio : Z -> Z; (* [baseprio] *)
  k_ctx : Z -> PPCContext; (* [ctx] *)
  k_owner : Z -> Z; (* [owner] of the [KMutex] at an address *)
  k_counter : Z -> Z; (* [counter] of the [KRMutex] at an address *)
  k_box : Z -> KMailbox; (* the [KMailbox] at an address *)
  k_mem : mem; (* plain words: stacks and mailbox slots *)
  k_self : Z; (* SPRG2, the current thread *)
  k_fpu : Z; (* SPRG3, the owner of the FPU *)
  k_msr : Z; (* the machine state register *)
  k_next_ctx : Z; (* [__ppc_next_ctx] *)
  k_tick : ticks; (* the tick tasks *)
  k_dec : Z; (* DEC, the decrementer *)
  k_clock : nat -> Z; (* successive readings of the time base *)
  k_reads : nat; (* readings made so far *)
  k_lwp : lwpc; (* tables of the LWP compatibility layer *)
  k_exi : exist; (* the EXI bus driver and the device registers *)
}.

Definition set_thr (x : gset Z) (s : kst) : kst :=
  mk_kst
    x s.(k_tl) s.(k_lk) s.(k_wq) s.(k_token) s.(k_state) s.(k_suspend) s.(k_prio)
    s.(k_baseprio) s.(k_ctx) s.(k_owner) s.(k_counter) s.(k_box) s.(k_mem) s.(k_self)
    s.(k_fpu) s.(k_msr) s.(k_next_ctx) s.(k_tick) s.(k_dec) s.(k_clock) s.(k_reads)
    s.(k_lwp)
    s.(k_exi).
Definition set_tl (x : tlinks) (s : kst) : kst :=
  mk_kst
    s.(k_thr) x s.(k_lk) s.(k_wq) s.(k_token) s.(k_state) s.(k_suspend) s.(k_prio)
    s.(k_baseprio) s.(k_ctx) s.(k_owner) s.(k_counter) s.(k_box) s.(k_mem) s.(k_self)
    s.(k_fpu) s.(k_msr) s.(k_next_ctx) s.(k_tick) s.(k_dec) s.(k_clock) s.(k_reads)
    s.(k_lwp)
    s.(k_exi).
Definition set_lk (x : wlinks) (s : kst) : kst :=
  mk_kst
    s.(k_thr) s.(k_tl) x s.(k_wq) s.(k_token) s.(k_state) s.(k_suspend) s.(k_prio)
    s.(k_baseprio) s.(k_ctx) s.(k_owner) s.(k_counter) s.(k_box) s.(k_mem) s.(k_self)
    s.(k_fpu) s.(k_msr) s.(k_next_ctx) s.(k_tick) s.(k_dec) s.(k_clock) s.(k_reads)
    s.(k_lwp)
    s.(k_exi).
Definition set_wq (x : Z -> option qref) (s : kst) : kst :=
  mk_kst
    s.(k_thr) s.(k_tl) s.(k_lk) x s.(k_token) s.(k_state) s.(k_suspend) s.(k_prio)
    s.(k_baseprio) s.(k_ctx) s.(k_owner) s.(k_counter) s.(k_box) s.(k_mem) s.(k_self)
    s.(k_fpu) s.(k_msr) s.(k_next_ctx) s.(k_tick) s.(k_dec) s.(k_clock) s.(k_reads)
    s.(k_lwp)
    s.(k_exi).
Definition set_token (x : Z -> Z) (s : kst) : kst :=
  mk_kst
    s.(k_thr) s.(k_tl) s.(k_lk) s.(k_wq) x s.(k_state) s.(k_suspend) s.(k_prio)
    s.(k_baseprio) s.(k_ctx) s.(k_owner) s.(k_counter) s.(k_box) s.(k_mem) s.(k_self)
    s.(k_fpu) s.(k_msr) s.(k_next_ctx) s.(k_tick) s.(k_dec) s.(k_clock) s.(k_reads)
    s.(k_lwp)
    s.(k_exi).
Definition set_state (x : Z -> KThrState) (s : kst) : kst :=
  mk_kst
    s.(k_thr) s.(k_tl) s.(k_lk) s.(k_wq) s.(k_token) x s.(k_suspend) s.(k_prio)
    s.(k_baseprio) s.(k_ctx) s.(k_owner) s.(k_counter) s.(k_box) s.(k_mem) s.(k_self)
    s.(k_fpu) s.(k_msr) s.(k_next_ctx) s.(k_tick) s.(k_dec) s.(k_clock) s.(k_reads)
    s.(k_lwp)
    s.(k_exi).
Definition set_suspend (x : Z -> Z) (s : kst) : kst :=
  mk_kst
    s.(k_thr) s.(k_tl) s.(k_lk) s.(k_wq) s.(k_token) s.(k_state) x s.(k_prio) s.(k_baseprio)
    s.(k_ctx) s.(k_owner) s.(k_counter) s.(k_box) s.(k_mem) s.(k_self) s.(k_fpu) s.(k_msr)
    s.(k_next_ctx) s.(k_tick) s.(k_dec) s.(k_clock) s.(k_reads) s.(k_lwp)
    s.(k_exi).
Definition set_prio (x : Z -> Z) (s : kst) : kst :=
  mk_kst
    s.(k_thr) s.(k_tl) s.(k_lk) s.(k_wq) s.(k_token) s.(k_state) s.(k_suspend) x
    s.(k_baseprio) s.(k_ctx) s.(k_owner) s.(k_counter) s.(k_box) s.(k_mem) s.(k_self)
    s.(k_fpu) s.(k_msr) s.(k_next_ctx) s.(k_tick) s.(k_dec) s.(k_clock) s.(k_reads)
    s.(k_lwp)
    s.(k_exi).
Definition set_baseprio (x : Z -> Z) (s : kst) : kst :=
  mk_kst
    s.(k_thr) s.(k_tl) s.(k_lk) s.(k_wq) s.(k_token) s.(k_state) s.(k_suspend) s.(k_prio) x
    s.(k_ctx) s.(k_owner) s.(k_counter) s.(k_box) s.(k_mem) s.(k_self) s.(k_fpu) s.(k_msr)
    s.(k_next_ctx) s.(k_tick) s.(k_dec) s.(k_clock) s.(k_reads) s.(k_lwp)
    s.(k_exi).
Definition set_ctx (x : Z -> PPCContext) (s : kst) : kst :=
  mk_kst
    s.(k_thr) s.(k_tl) s.(k_lk) s.(k_wq) s.(k_token) s.(k_state) s.(k_suspend) s.(k_prio)
    s.(k_baseprio) x s.(k_owner) s.(k_counter) s.(k_box) s.(k_mem) s.(k_self) s.(k_fpu)
    s.(k_msr) s.(k_next_ctx) s.(k_tick) s.(k_dec) s.(k_clock) s.(k_reads) s.(k_lwp)
    s.(k_exi).
Definition set_owner (x : Z -> Z) (s : kst) : kst :=
  mk_kst
    s.(k_thr) s.(k_tl) s.(k_lk) s.(k_wq) s.(k_token) s.(k_state) s.(k_suspend) s.(k_prio)
    s.(k_baseprio) s.(k_ctx) x s.(k_counter) s.(k_box) s.(k_mem) s.(k_self) s.(k_fpu)
    s.(k_msr) s.(k_next_ctx) s.(k_tick) s.(k_dec) s.(k_clock) s.(k_reads) s.(k_lwp)
    s.(k_exi).
Definition set_counter (x : Z -> Z) (s : kst) : kst :=
  mk_kst
    s.(k_thr) s.(k_tl) s.(k_lk) s.(k_wq) s.(k_token) s.(k_state) s.(k_suspend) s.(k_prio)
    s.(k_baseprio) s.(k_ctx) s.(k_owner) x s.(k_box) s.(k_mem) s.(k_self) s.(k_fpu)
    s.(k_msr) s.(k_next_ctx) s.(k_tick) s.(k_dec) s.(k_clock) s.(k_reads) s.(k_lwp)
    s.(k_exi).
Definition set_box (x : Z -> KMailbox) (s : kst) : kst :=
  mk_kst
    s.(k_thr) s.(k_tl) s.(k_lk) s.(k_wq) s.(k_token) s.(k_state) s.(k_suspend) s.(k_prio)
    s.(k_baseprio) s.(k_ctx) s.(k_owner) s.(k_counter) x s.(k_mem) s.(k_self) s.(k_fpu)
    s.(k_msr) s.(k_next_ctx) s.(k_tick) s.(k_dec) s.(k_clock) s.(k_reads) s.(k_lwp)
    s.(k_exi).
Definition set_mem (x : mem) (s : kst) : kst :=
  mk_kst
    s.(k_thr) s.(k_tl) s.(k_lk) s.(k_wq) s.(k_token) s.(k_state) s.(k_suspend) s.(k_prio)
    s.(k_baseprio) s.(k_ctx) s.(k_owner) s.(k_counter) s.(k_box) x s.(k_self) s.(k_fpu)
    s.(k_msr) s.(k_next_ctx) s.(k_tick) s.(k_dec) s.(k_clock) s.(k_reads) s.(k_lwp)
    s.(k_exi).
Definition set_self (x : Z) (s : kst) : kst :=
  mk_kst
    s.(k_thr) s.(k_tl) s.(k_lk) s.(k_wq) s.(k_token) s.(k_state) s.(k_suspend) s.(k_prio)
    s.(k_baseprio) s.(k_ctx) s.(k_owner) s.(k_counter) s.(k_box) s.(k_mem) x s.(k_fpu)
    s.(k_msr) s.(k_next_ctx) s.(k_tick) s.(k_dec) s.(k_clock) s.(k_reads) s.(k_lwp)
    s.(k_exi).
Definition set_fpu (x : Z) (s : kst) : kst :=
  mk_kst
    s.(k_thr) s.(k_tl) s.(k_lk) s.(k_wq) s.(k_token) s.(k_state) s.(k_suspend) s.(k_prio)
    s.(k_baseprio) s.(k_ctx) s.(k_owner) s.(k_counter) s.(k_box) s.(k_mem) s.(k_self) x
    s.(k_msr) s.(k_next_ctx) s.(k_tick) s.(k_dec) s.(k_clock) s.(k_reads) s.(k_lwp)
    s.(k_exi).
Definition set_msr (x : Z) (s : kst) : kst :=
  mk_kst
    s.(k_thr) s.(k_tl) s.(k_lk) s.(k_wq) s.(k_token) s.(k_state) s.(k_suspend) s.(k_prio)
    s.(k_baseprio) s.(k_ctx) s.(k_owner) s.(k_counter) s.(k_box) s.(k_mem) s.(k_self)
    s.(k_fpu) x s.(k_next_ctx) s.(k_tick) s.(k_dec) s.(k_clock) s.(k_reads) s.(k_lwp)
    s.(k_exi).
Definition set_next_ctx (x : Z) (s : kst) : kst :=
  mk_kst
    s.(k_thr) s.(k_tl) s.(k_lk) s.(k_wq) s.(k_token) s.(k_state) s.(k_suspend) s.(k_prio)
    s.(k_baseprio) s.(k_ctx) s.(k_owner) s.(k_counter) s.(k_box) s.(k_mem) s.(k_self)
    s.(k_fpu) s.(k_msr) x s.(k_tick) s.(k_dec) s.(k_clock) s.(k_reads) s.(k_lwp)
    s.(k_exi).
Definition set_tick (x : ticks) (s : kst) : kst :=
  mk_kst
    s.(k_thr) s.(k_tl) s.(k_lk) s.(k_wq) s.(k_token) s.(k_state) s.(k_suspend) s.(k_prio)
    s.(k_baseprio) s.(k_ctx) s.(k_owner) s.(k_counter) s.(k_box) s.(k_mem) s.(k_self)
    s.(k_fpu) s.(k_msr) s.(k_next_ctx) x s.(k_dec) s.(k_clock) s.(k_reads) s.(k_lwp)
    s.(k_exi).
Definition set_dec (x : Z) (s : kst) : kst :=
  mk_kst
    s.(k_thr) s.(k_tl) s.(k_lk) s.(k_wq) s.(k_token) s.(k_state) s.(k_suspend) s.(k_prio)
    s.(k_baseprio) s.(k_ctx) s.(k_owner) s.(k_counter) s.(k_box) s.(k_mem) s.(k_self)
    s.(k_fpu) s.(k_msr) s.(k_next_ctx) s.(k_tick) x s.(k_clock) s.(k_reads) s.(k_lwp)
    s.(k_exi).
Definition set_clock (x : nat -> Z) (s : kst) : kst :=
  mk_kst
    s.(k_thr) s.(k_tl) s.(k_lk) s.(k_wq) s.(k_token) s.(k_state) s.(k_suspend) s.(k_prio)
    s.(k_baseprio) s.(k_ctx) s.(k_owner) s.(k_counter) s.(k_box) s.(k_mem) s.(k_self)
    s.(k_fpu) s.(k_msr) s.(k_next_ctx) s.(k_tick) s.(k_dec) x s.(k_reads) s.(k_lwp)
    s.(k_exi).
Definition set_reads (x : nat) (s : kst) : kst :=
  mk_kst
    s.(k_thr) s.(k_tl) s.(k_lk) s.(k_wq) s.(k_token) s.(k_state) s.(k_suspend) s.(k_prio)
    s.(k_baseprio) s.(k_ctx) s.(k_owner) s.(k_counter) s.(k_box) s.(k_mem) s.(k_self)
    s.(k_fpu) s.(k_msr) s.(k_next_ctx) s.(k_tick) s.(k_dec) s.(k_clock) x s.(k_lwp)
    s.(k_exi).
Definition set_lwp (x : lwpc) (s : kst) : kst :=
  mk_kst
    s.(k_thr) s.(k_tl) s.(k_lk) s.(k_wq) s.(k_token) s.(k_state) s.(k_suspend) s.(k_prio)
    s.(k_baseprio) s.(k_ctx) s.(k_owner) s.(k_counter) s.(k_box) s.(k_mem) s.(k_self)
    s.(k_fpu) s.(k_msr) s.(k_next_ctx) s.(k_tick) s.(k_dec) s.(k_clock) s.(k_reads) x s.(k_exi).
Definition set_exi (x : exist) (s : kst) : kst :=
  mk_kst
    s.(k_thr) s.(k_tl) s.(k_lk) s.(k_wq) s.(k_token) s.(k_state) s.(k_suspend) s.(k_prio)
    s.(k_baseprio) s.(k_ctx) s.(k_owner) s.(k_counter) s.(k_box) s.(k_mem) s.(k_self)
    s.(k_fpu) s.(k_msr) s.(k_next_ctx) s.(k_tick) s.(k_dec) s.(k_clock) s.(k_reads)
    s.(k_lwp) x.

(** ** Field access *)

(** A read of a field of the thread at [t]. *)
Definition rd {A} (f : kst -> Z -> A) (t : Z) : M kst A :=
  getopt (fun s => if decide (t ∈ k_thr s) then Some (f s t) else None).
(** A write to a field of the thread at [t]. *)
Definition wr (u : kst -> kst) (t : Z) : M kst unit :=
  fun s => if decide (t ∈ k_thr s) then Ok (tt, u s) else Fault BadAccess.

Definition next (s : kst) : Z -> Z := tl_next (k_tl s).
Definition set_next (t v : Z) (s : kst) : kst :=
  set_tl (mk_tlinks (tl_first (k_tl s)) (fupd (tl_next (k_tl s)) t v)) s.
Definition set_first (v : Z) (s : kst) : kst :=
  set_tl (mk_tlinks v (tl_next (k_tl s))) s.
Definition link_next (s : kst) : Z -> Z := ln (k_lk s).
Definition link_prev (s : kst) : Z -> Z := lp (k_lk s).

Definition set_ln (t v : Z) (s : kst) : kst :=
  let k := k_lk s in set_lk (mk_wlinks (fupd (ln k) t v) (lp k) (qn k) (qp k)) s.
Definition set_lp (t v : Z) (s : kst) : kst :=
  let k := k_lk s in set_lk (mk_wlinks (ln k) (fupd (lp k) t v) (qn k) (qp k)) s.
Definition set_qn (q : qref) (v : Z) (s : kst) : kst :=
  let k := k_lk s in set_lk (mk_wlinks (ln k) (lp k) (fupd (qn k) q v) (qp k)) s.
Definition set_qp (q : qref) (v : Z) (s : kst) : kst :=
  let k := k_lk s in set_lk (mk_wlinks (ln k) (lp k) (qn k) (fupd (qp k) q v)) s.

(** Evaluate projections of updated states. *)
Tactic Notation "ksimpl" :=
  cbn [k_thr k_tl k_lk k_wq k_token k_state k_suspend k_prio k_baseprio k_ctx k_owner k_counter
    k_box k_mem k_self k_fpu k_msr k_next_ctx k_tick k_dec k_clock k_reads k_lwp k_exi
    set_thr set_tl set_lk set_wq set_token set_state set_suspend set_prio set_baseprio
    set_ctx set_owner set_counter set_box set_mem set_self set_fpu set_msr set_next_ctx
    set_tick set_dec set_clock set_reads set_lwp set_exi
    set_next set_first set_ln set_lp set_qn set_qp tl_first tl_next ln lp qn qp].
Tactic Notation "ksimpl" "in" hyp(H) :=
  cbn [k_thr k_tl k_lk k_wq k_token k_state k_suspend k_prio k_baseprio k_ctx k_owner k_counter
    k_box k_mem k_self k_fpu k_msr k_next_ctx k_tick k_dec k_clock k_reads k_lwp k_exi
    set_thr set_tl set_lk set_wq set_token set_state set_suspend set_prio set_baseprio
    set_ctx set_owner set_counter set_box set_mem set_self set_fpu set_msr set_next_ctx
    set_tick set_dec set_clock set_reads set_lwp set_exi
    set_next set_first set_ln set_lp set_qn set_qp tl_first tl_next ln lp qn qp] in H.

Definition wr_next (t v : Z) : M kst unit := wr (set_next t v) t.
Definition wr_link_next (t v : Z) : M kst unit := wr (set_ln t v) t.
Definition wr_link_prev (t v : Z) : M kst unit := wr (set_lp t v) t.
Definition wr_queue (t : Z) (q : option qref) : M kst unit :=
  wr (fun s => set_wq (fupd (k_wq s) t q) s) t.
Definition wr_token (t v : Z) : M kst unit := wr (fun s => set_token (fupd (k_token s) t v) s) t.
Definition wr_state (t : Z) (v : KThrState) : M kst unit :=
  wr (fun s => set_state (fupd (k_state s) t v) s) t.
Definition wr_suspend (t v : Z) : M kst unit :=
  wr (fun s => set_suspend (fupd (k_suspend s) t v) s) t.
Definition wr_prio (t v : Z) : M kst unit := wr (fun s => set_prio (fupd (k_prio s) t v) s) t.
Definition wr_baseprio (t v : Z) : M kst unit :=
  wr (fun s => set_baseprio (fupd (k_baseprio s) t v) s) t.
Definition wr_ctx (t : Z) (c : PPCContext) : M kst unit :=
  wr (fun s => set_ctx (fupd (k_ctx s) t c) s) t.

(** A queue inside a thread needs that thread. *)
Definition q_valid (s : kst) (q : qref) : bool :=
  match q with QStatic _ => true | QWaiters t => bool_decide (t ∈ k_thr s) end.
Definition rd_q (f : wlinks -> qref -> Z) (q : qref) : M kst Z :=
  getopt (fun s => if q_valid s q then Some (f (k_lk s) q) else None).
Definition wr_q (u : kst -> kst) (q : qref) : M kst unit :=
  fun s => if q_valid s q then Ok (tt, u s) else Fault BadAccess.
Definition wr_q_next (q : qref) (v : Z) : M kst unit := wr_q (set_qn q v) q.
Definition wr_q_prev (q : qref) (v : Z) : M kst unit := wr_q (set_qp q v) q.

(** An upper bound on the length of a list of distinct threads. *)
Definition thr_fuel (s : kst) : nat := S (size (k_thr s)).

(** ** The processor *)

Definition PPCBIT (n : Z) : Z := Z.shiftr 0x80000000 n.
Definition MSR_EE : Z := PPCBIT 16.
Definition MSR_FP : Z := PPCBIT 18.
Definition MSR_ME : Z := PPCBIT 19.
Definition MSR_IR : Z := PPCBIT 26.
Definition MSR_DR : Z := PPCBIT 27.
Definition MSR_RI : Z := PPCBIT 30.

Definition PPCIrqLockByMsr : M kst Z :=
  msr <- gets k_msr;
  modify (set_msr (Z.ldiff msr (Z.lor MSR_EE MSR_FP)));;
  ret (Z.land msr MSR_EE).

Definition PPCIrqUnlockByMsr (st : Z) : M kst unit :=
  msr <- gets (fun s => Z.ldiff (k_msr s) MSR_EE);
  modify (set_msr (Z.lor msr st)).

Definition PPCIsInExcpt : M kst bool := gets (fun s => Z.land (k_msr s) MSR_RI =? 0).

Definition KThreadGetSelf : M kst Z := gets k_self.

(** One reading of the 64-bit time base. *)
Definition PPCGetTickCount : M kst Z :=
  s <- get;
  put (set_reads (S (k_reads s)) s);;
  ret (u64 (k_clock s (k_reads s))).

(** ** The resumption monad *)

Inductive K (A : Type) :=
| mkK (run : kst -> res ((A + K A) * kst)).
Arguments mkK {A} run.

Definition runK {A} (c : K A) : kst -> res ((A + K A) * kst) :=
  match c with mkK r => r end.

Definition kret {A} (a : A) : K A := mkK (fun s => Ok (inl a, s)).
(** Code that cannot switch. *)
Definition lift {A} (c : M kst A) : K A :=
  mkK (fun s => match c s with Ok (a, s') => Ok (inl a, s') | Fault f => Fault f end).

Fixpoint kbind {A B} (c : K A) (f : A -> K B) : K B :=
  mkK (fun s =>
    match c with
    | mkK r =>
        match r s with
        | Ok (inl a, s') => runK (f a) s'
        | Ok (inr c', s') => Ok (inr (kbind c' f), s')
        | Fault e => Fault e
        end
    end).

(** Perform [j] and give up the processor; [c] is left to run. *)
Definition kswitch {A} (j : M kst unit) (c : K A) : K A :=
  mkK (fun s => match j s with Ok (_, s') => Ok (inr c, s') | Fault f => Fault f end).

Definition kwhen (b : bool) (c : K unit) : K unit := if b then c else kret tt.

Declare Scope k_scope.
Delimit Scope k_scope with k.
Notation "'let!' x := c1 'in' c2" := (kbind c1 (fun x => c2))
  (at level 200, x name, c1 at level 100, c2 at level 200) : k_scope.
Notation "'do!' c1 'then' c2" := (kbind c1 (fun _ => c2))
  (at level 200, c1 at level 100, c2 at level 200) : k_scope.
Open Scope k_scope.

(** [wpk c Q R s]: started in [s], [c] does not fault; if it returns the value
    and the state satisfy [Q], if it switches away the rest and the state
    satisfy [R]. *)
Definition wpk {A} (c : K A) (Q : A -> kst -> Prop) (R : K A -> kst -> Prop) (s : kst) : Prop :=
  match runK c s with
  | Ok (inl a, s') => Q a s'
  | Ok (inr k, s') => R k s'
  | Fault _ => False
  end.

#[global] Arguments wpk {A} _ _ _ _ : simpl never.
#[global] Arguments kbind {A B} _ _ : simpl never.

Lemma wpk_ret {A} (a : A) Q R s : Q a s -> wpk (kret a) Q R s.
Proof. done. Qed.

Lemma wpk_lift {A} (c : M kst A) Q R s : wp c Q s -> wpk (lift c) Q R s.
Proof. unfold wp, wpk, lift. simpl. by destruct (c s) as [ [a s']|]. Qed.

Lemma wpk_bind {A B} (c : K A) (f : A -> K B) Q R s :
  wpk c (fun a s' => wpk (f a) Q R s') (fun k s' => R (kbind k f) s') s -> wpk (kbind c f) Q R s.
Proof. destruct c as [r]. unfold wpk. simpl. by destruct (r s) as [ [ [a|k] s']|]. Qed.

Lemma wpk_lift_bind {A B} (c : M kst A) (f : A -> K B) Q R s :
  wp c (fun a s' => wpk (f a) Q R s') s -> wpk (kbind (lift c) f) Q R s.
Proof. intros H. apply wpk_bind, wpk_lift, H. Qed.

Lemma wpk_switch {A} j (c : K A) Q R s :
  wp j (fun _ s' => R c s') s -> wpk (kswitch j c) Q R s.
Proof. unfold wp, wpk, kswitch. simpl. by destruct (j s) as [ [a s']|]. Qed.

Lemma wpk_when b c Q R s :
  (b = true -> wpk c Q R s) -> (b = false -> Q tt s) -> wpk (kwhen b c) Q R s.
Proof. destruct b; naive_solver. Qed.

Lemma wpk_mono {A} (c : K A) (Q Q' : A -> kst -> Prop) (R R' : K A -> kst -> Prop) s :
  wpk c Q R s -> (forall a s', Q a s' -> Q' a s') -> (forall k s', R k s' -> R' k s') ->
  wpk c Q' R' s.
Proof. unfold wpk. destruct (runK c s) as [ [ [a|k] s']|]; auto. Qed.

(** ** Rules for field access *)

Lemma wp_rd {A} (f : kst -> Z -> A) t Q s : t ∈ k_thr s -> Q (f s t) s -> wp (rd f t) Q s.
Proof. intros H HQ. eapply wp_getopt; [by rewrite decide_True|done]. Qed.

Lemma wp_wr u t Q s : t ∈ k_thr s -> Q tt (u s) -> wp (wr u t) Q s.
Proof. intros H HQ. unfold wp, wr. by rewrite decide_True. Qed.

Lemma wp_rd_q f q Q s : q_valid s q = true -> Q (f (k_lk s) q) s -> wp (rd_q f q) Q s.
Proof. intros H HQ. eapply wp_getopt; [by rewrite H|done]. Qed.

Lemma wp_wr_q u q Q s : q_valid s q = true -> Q tt (u s) -> wp (wr_q u q) Q s.
Proof. intros H HQ. unfold wp, wr_q. by rewrite H. Qed.

(** One step of a straight-line kernel computation. *)
Ltac kstep :=
  lazymatch goal with
  | |- wp (bind _ _) _ _ => apply wp_bind
  | |- wp (ret _) _ _ => apply wp_ret
  | |- wp get _ _ => apply wp_get
  | |- wp (gets _) _ _ => apply wp_gets
  | |- wp (modify _) _ _ => apply wp_modify
  | |- wp (put _) _ _ => apply wp_put
  | |- wp (rd _ _) _ _ => apply wp_rd; [ksimpl; try done|]
  | |- wp (wr _ _) _ _ => apply wp_wr; [ksimpl; try done|]
  | |- wp (rd_q _ _) _ _ => apply wp_rd_q; [ksimpl; try done|]
  | |- wp (wr_q _ _) _ _ => apply wp_wr_q; [ksimpl; try done|]
  | |- wp KThreadGetSelf _ _ => apply wp_gets
  | |- wp PPCIsInExcpt _ _ => apply wp_gets
  | |- wp (wr_next _ _) _ _ => unfold wr_next
  | |- wp (wr_link_next _ _) _ _ => unfold wr_link_next
  | |- wp (wr_link_prev _ _) _ _ => unfold wr_link_prev
  | |- wp (wr_queue _ _) _ _ => unfold wr_queue
  | |- wp (wr_token _ _) _ _ => unfold wr_token
  | |- wp (wr_state _ _) _ _ => unfold wr_state
  | |- wp (wr_suspend _ _) _ _ => unfold wr_suspend
  | |- wp (wr_prio _ _) _ _ => unfold wr_prio
  | |- wp (wr_baseprio _ _) _ _ => unfold wr_baseprio
  | |- wp (wr_ctx _ _) _ _ => unfold wr_ctx
  | |- wp (wr_q_next _ _) _ _ => unfold wr_q_next
  | |- wp (wr_q_prev _ _) _ _ => unfold wr_q_prev
  | |- wpk (kbind (lift _) _) _ _ _ => apply wpk_lift_bind
  | |- wpk (kbind _ _) _ _ _ => apply wpk_bind
  | |- wpk (lift _) _ _ _ => apply wpk_lift
  | |- wpk (kret _) _ _ _ => apply wpk_ret
  end.
Ltac krun := repeat kstep.
