(* ===== verification/KTick.v ===== *)
(** * Timed tasks ([tuxedo/tick.c])

    Tick tasks wait in a singly linked list ordered by their 64-bit target time;
    the decrementer is programmed for the first of them, and its interrupt runs
    all tasks that are due. *)

From stdpp Require Import base gmap list fin_maps.
From Stdlib Require Import ZArith Lia.
From S2P Require Import Prelude Chain KState.

Open Scope Z_scope.

(** ** Field access *)

Definition rd_task (f : ticks -> Z -> Z) (t : Z) : M kst Z :=
  getopt (fun s => if decide (t ∈ tk_valid (k_tick s)) then Some (f (k_tick s) t) else None).
Definition wr_task (u : ticks -> ticks) (t : Z) : M kst unit :=
  fun s => if decide (t ∈ tk_valid (k_tick s))
           then Ok (tt, set_tick (u (k_tick s)) s) else Fault BadAccess.

Definition wr_task_next (t v : Z) : M kst unit :=
  wr_task (fun k => mk_ticks (tk_first k) (tk_valid k) (fupd (tk_next k) t v) (tk_fn k)
                      (tk_target k) (tk_period k)) t.
Definition wr_task_fn (t v : Z) : M kst unit :=
  wr_task (fun k => mk_ticks (tk_first k) (tk_valid k) (tk_next k) (fupd (tk_fn k) t v)
                      (tk_target k) (tk_period k)) t.
Definition wr_task_target (t v : Z) : M kst unit :=
  wr_task (fun k => mk_ticks (tk_first k) (tk_valid k) (tk_next k) (tk_fn k)
                      (fupd (tk_target k) t v) (tk_period k)) t.
Definition wr_task_period (t v : Z) : M kst unit :=
  wr_task (fun k => mk_ticks (tk_first k) (tk_valid k) (tk_next k) (tk_fn k)
                      (tk_target k) (fupd (tk_period k) t v)) t.
Definition rd_first_task : M kst Z := gets (fun s => tk_first (k_tick s)).
Definition wr_first_task (v : Z) : M kst unit :=
  modify (fun s => let k := k_tick s in
    set_tick (mk_ticks v (tk_valid k) (tk_next k) (tk_fn k) (tk_target k) (tk_period k)) s).
Definition task_fuel (s : kst) : nat := S (size (tk_valid (k_tick s))).

(** ** Operations *)

(** The wrap-around order of 64-bit times: [lhs] lies before [rhs]. *)
Definition KTickIsSequential (lhs rhs : Z) : bool := 0 <? s64 (u64 (rhs - lhs)).

Fixpoint task_position_loop (fuel : nat) (target cur pos : Z) : M kst Z :=
  match fuel with
  | O => fail OutOfFuel
  | S n =>
      if cur =? NULL then ret pos else
      ct <- rd_task tk_target cur;
      if KTickIsSequential ct target
      then (nx <- rd_task tk_next cur; task_position_loop n target nx cur)
      else ret pos
  end.

Definition KTickTaskGetInsertPosition (t : Z) : M kst Z :=
  fuel <- gets task_fuel;
  first <- rd_first_task;
  target <- rd_task tk_target t;
  task_position_loop fuel target first NULL.

Fixpoint task_previous_loop (fuel : nat) (t cur : Z) : M kst Z :=
  match fuel with
  | O => fail OutOfFuel
  | S n =>
      if cur =? NULL then ret NULL else
      nx <- rd_task tk_next cur;
      if nx =? t then ret cur else task_previous_loop n t nx
  end.

Definition KTickTaskGetPrevious (t : Z) : M kst Z :=
  fuel <- gets task_fuel;
  first <- rd_first_task;
  task_previous_loop fuel t first.

Definition KTickTaskEnqueue (t : Z) : M kst unit :=
  pos <- KTickTaskGetInsertPosition t;
  if negb (pos =? NULL) then
    nx <- rd_task tk_next pos;
    wr_task_next t nx;;
    wr_task_next pos t
  else
    first <- rd_first_task;
    wr_task_next t first;;
    wr_first_task t.

Definition KTickTaskDequeue (t : Z) : M kst unit :=
  first <- rd_first_task;
  if first =? t then
    nx <- rd_task tk_next t;
    wr_first_task nx
  else
    prev <- KTickTaskGetPrevious t;
    when (negb (prev =? NULL))
      (nx <- rd_task tk_next t; wr_task_next prev nx).

Definition INT32_MAX : Z := 0x7fffffff.

(** The decrementer value for the distance [diff] (a signed 64-bit value). *)
Definition decr_for (diff : Z) : Z :=
  if diff <? 0 then 0 else if diff <=? INT32_MAX then u32 diff else INT32_MAX.

Definition KTickTaskReschedule : M kst unit :=
  first <- rd_first_task;
  if first =? NULL then ret tt else
  target <- rd_task tk_target first;
  now <- PPCGetTickCount;
  let diff := s64 (u64 (target - now)) in
  modify (set_dec (decr_for diff)).

(** The interrupt handler's loop; [call fn t] is the call of the function
    pointer [fn] with the task [t]. *)
Fixpoint KTickTaskRun_loop (call : Z -> Z -> K unit) (fuel : nat) : K unit :=
  match fuel with
  | O => lift (fail OutOfFuel)
  | S n =>
      let! first := lift rd_first_task in
      if first =? NULL then kret tt else
      let! now := lift PPCGetTickCount in
      let! target := lift (rd_task tk_target first) in
      if KTickIsSequential now target then kret tt else
      let cur := first in
      let! nx := lift (rd_task tk_next cur) in
      do! lift (wr_first_task nx) then
      let! fn := lift (rd_task tk_fn cur) in
      let! period := lift (rd_task tk_period cur) in
      do! (if negb (period =? 0) then
             lift (wr_task_target cur (u64 (target + period));; KTickTaskEnqueue cur)
           else lift (wr_task_fn cur NULL)) then
      do! call fn cur then
      KTickTaskRun_loop call n
  end.

Definition KTickTaskRun (call : Z -> Z -> K unit) (fuel : nat) : K unit :=
  do! KTickTaskRun_loop call fuel then
  lift KTickTaskReschedule.

Definition KTickTaskStart (t fn delay_ticks period_ticks : Z) : M kst unit :=
  st <- PPCIrqLockByMsr;
  old <- rd_first_task;
  ofn <- rd_task tk_fn t;
  when (negb (ofn =? NULL)) (KTickTaskDequeue t);;
  now <- PPCGetTickCount;
  wr_task_target t (u64 (now + delay_ticks));;
  wr_task_period t period_ticks;;
  wr_task_fn t fn;;
  KTickTaskEnqueue t;;
  first <- rd_first_task;
  when (negb (first =? old)) KTickTaskReschedule;;
  PPCIrqUnlockByMsr st.

Definition KTickTaskStop (t : Z) : M kst unit :=
  st <- PPCIrqLockByMsr;
  fn <- rd_task tk_fn t;
  if fn =? NULL then PPCIrqUnlockByMsr st else
  first <- rd_first_task;
  let need_resched := first =? t in
  KTickTaskDequeue t;;
  when need_resched KTickTaskReschedule;;
  wr_task_fn t NULL;;
  PPCIrqUnlockByMsr st.

(** The comparison [diff >= ticks] of a signed with an unsigned 64-bit value is
    made on unsigned values. *)
Fixpoint busy_wait_loop (fuel : nat) (ref ticks : Z) : M kst unit :=
  match fuel with
  | O => fail OutOfFuel
  | S n =>
      now <- PPCGetTickCount;
      let diff := s64 (u64 (now - ref)) in
      if ticks <=? u64 diff then ret tt else busy_wait_loop n ref ticks
  end.

Definition PPCBusyWaitTicks (fuel : nat) (ticks : Z) : M kst unit :=
  ref <- PPCGetTickCount;
  busy_wait_loop fuel ref ticks.
