(* ===== verification/KThread.v ===== *)
(** * Threads ([tuxedo/thread.c], [tuxedo/thread_priv.h])

    The scheduler: the list of all threads ordered by priority, the wait queues,
    and the operations that resume, suspend, block and wake threads. Every
    operation runs with external interrupts off, so it is one atomic step up to
    its context switch. *)

From stdpp Require Import base gmap list fin_maps.
From Stdlib Require Import ZArith Lia.
From S2P Require Import Prelude Chain KState KTick.

Open Scope Z_scope.

Inductive KThrUnblockMode := KTHR_UNBLOCK_ANY | KTHR_UNBLOCK_BY_VALUE | KTHR_UNBLOCK_BY_MASK.

(** The static queues, as distinct objects. *)
Definition s_joinQueue : qref := QStatic 1.
Definition s_sleepQueue : qref := QStatic 2.
Definition s_cvWaitQueue : qref := QStatic 3.
Definition s_mailboxRecvQueue : qref := QStatic 4.

Definition is_running (x : KThrState) : bool :=
  match x with KTHR_STATE_RUNNING => true | _ => false end.
Definition s_firstThread : M kst Z := gets (fun s => tl_first (k_tl s)).

(** ** The list of threads *)

Fixpoint position_loop (fuel : nat) (prio cur pos : Z) : M kst Z :=
  match fuel with
  | O => fail OutOfFuel
  | S n =>
      if cur =? NULL then ret pos else
      p <- rd k_prio cur;
      if p <=? prio then (nx <- rd next cur; position_loop n prio nx cur) else ret pos
  end.

Definition KThreadGetInsertPosition (t : Z) : M kst Z :=
  fuel <- gets thr_fuel;
  first <- s_firstThread;
  prio <- rd k_prio t;
  position_loop fuel prio first NULL.

Fixpoint previous_loop (fuel : nat) (t cur : Z) : M kst Z :=
  match fuel with
  | O => fail OutOfFuel
  | S n =>
      if cur =? NULL then ret NULL else
      nx <- rd next cur;
      if nx =? t then ret cur else previous_loop n t nx
  end.

Definition KThreadGetPrevious (t : Z) : M kst Z :=
  fuel <- gets thr_fuel;
  first <- s_firstThread;
  previous_loop fuel t first.

Definition KThreadEnqueue (t : Z) : M kst unit :=
  pos <- KThreadGetInsertPosition t;
  if negb (pos =? NULL) then
    nx <- rd next pos;
    wr_next t nx;;
    wr_next pos t
  else
    first <- s_firstThread;
    wr_next t first;;
    modify (set_first t).

Definition KThreadDequeue (t : Z) : M kst unit :=
  first <- s_firstThread;
  if first =? t then
    nx <- rd next t;
    modify (set_first nx)
  else
    prev <- KThreadGetPrevious t;
    when (negb (prev =? NULL)) (nx <- rd next t; wr_next prev nx).

Fixpoint runnable_loop (fuel : nat) (t : Z) : M kst Z :=
  match fuel with
  | O => fail OutOfFuel
  | S n =>
      if t =? NULL then ret NULL else
      st <- rd k_state t;
      if is_running st then ret t else (nx <- rd next t; runnable_loop n nx)
  end.

Definition KThreadFindRunnable (first : Z) : M kst Z :=
  fuel <- gets thr_fuel;
  runnable_loop fuel first.

(** ** Wait queues *)

Fixpoint qposition_loop (fuel : nat) (q : qref) (prio pos : Z) : M kst Z :=
  match fuel with
  | O => fail OutOfFuel
  | S n =>
      if pos =? NULL then rd_q qp q else
      p <- rd k_prio pos;
      if p <=? prio then (nx <- rd link_next pos; qposition_loop n q prio nx)
      else rd link_prev pos
  end.

Definition KThrQueueGetInsertPosition (q : qref) (t : Z) : M kst Z :=
  fuel <- gets thr_fuel;
  pos <- rd_q qn q;
  prio <- rd k_prio t;
  qposition_loop fuel q prio pos.

Definition KThrQueueInsert (q : qref) (t : Z) : M kst unit :=
  pos <- KThrQueueGetInsertPosition q t;
  (if negb (pos =? NULL) then
     nx <- rd link_next pos;
     wr_link_next t nx;;
     wr_link_prev t pos;;
     wr_link_next pos t
   else
     nx <- rd_q qn q;
     wr_link_next t nx;;
     wr_link_prev t NULL;;
     wr_q_next q t);;
  nx <- rd link_next t;
  (if negb (nx =? NULL) then wr_link_prev nx t else wr_q_prev q t);;
  wr_queue t (Some q).

Definition KThrQueueRemove (q : qref) (t : Z) : M kst unit :=
  wq <- rd k_wq t;
  if negb (bool_decide (wq = Some q)) then ret tt else
  wr_queue t None;;
  pv <- rd link_prev t;
  nx <- rd link_next t;
  (if negb (pv =? NULL) then wr_link_next pv nx else wr_q_next q nx);;
  pv' <- rd link_prev t;
  nx' <- rd link_next t;
  (if negb (nx' =? NULL) then wr_link_prev nx' pv' else wr_q_prev q pv').

Definition KThrQueueTestUnblock (t : Z) (mode : KThrUnblockMode) (ref : Z) : M kst bool :=
  match mode with
  | KTHR_UNBLOCK_ANY => ret true
  | KTHR_UNBLOCK_BY_VALUE => tok <- rd k_token t; ret (tok =? ref)
  | KTHR_UNBLOCK_BY_MASK => tok <- rd k_token t; ret (negb (Z.land tok ref =? 0))
  end.

(** ** Context switches *)

(** [__PPCContextPrepareToJump]: the saved machine state has EE from [st]; the
    processor runs on with EE, FP and RI off. *)
Definition PPCContextPrepareToJump (st : Z) : M kst unit :=
  self <- KThreadGetSelf;
  msr <- gets k_msr;
  c <- rd k_ctx self;
  wr_ctx self (mk_ctx (c_pc c) (Z.lor (Z.ldiff msr MSR_EE) st) (c_lr c) (c_gpr1 c) (c_gpr2 c)
                 (c_gpr3 c) (c_gpr13 c));;
  modify (set_msr (Z.ldiff msr (Z.lor MSR_EE (Z.lor MSR_FP MSR_RI)))).

(** [__PPCContextJump], with no switch callback installed: [t] becomes the
    current thread with its saved machine state, FP only if it owns the FPU. *)
Definition PPCContextJump (t : Z) : M kst unit :=
  c <- rd k_ctx t;
  fpu <- gets k_fpu;
  modify (set_next_ctx NULL);;
  modify (set_self t);;
  modify (set_msr (let m := Z.ldiff (c_msr c) MSR_FP in if fpu =? t then Z.lor m MSR_FP else m)).

Definition KThreadSwitchTo (t st : Z) : K unit :=
  let! ex := lift PPCIsInExcpt in
  if ex then
    lift (nc <- gets k_next_ctx;
          replace <- (if nc =? NULL then ret true
                      else tp <- rd k_prio t; np <- rd k_prio nc; ret (tp <? np));
          when replace (modify (set_next_ctx t));;
          PPCIrqUnlockByMsr st)
  else
    do! lift (PPCContextPrepareToJump st) then
    kswitch (PPCContextJump t) (kret tt).

Definition KThreadReschedule (t st : Z) : K unit :=
  let! better := lift (if t =? NULL then ret false else
                       tp <- rd k_prio t;
                       self <- KThreadGetSelf;
                       sp <- rd k_prio self;
                       ret (tp <? sp)) in
  if better then KThreadSwitchTo t st else lift (PPCIrqUnlockByMsr st).

(** ** Resuming and suspending *)

Definition KThreadResume (t : Z) : K unit :=
  let! self := lift KThreadGetSelf in
  let! st := lift PPCIrqLockByMsr in
  let! stay := lift (
    sus <- rd k_suspend t;
    if sus =? 0 then ret true else
    wr_suspend t (u16 (sus - 1));;
    sus' <- rd k_suspend t;
    if negb (sus' =? 0) then ret true else
    wq <- rd k_wq t;
    ret (bool_decide (wq <> None))) in
  if stay then lift (PPCIrqUnlockByMsr st) else
  do! lift (wr_state t KTHR_STATE_RUNNING) then
  if negb (t =? self) then KThreadReschedule t st
  else lift (
    tp <- rd k_prio t;
    nc <- gets k_next_ctx;
    np <- rd k_prio nc;
    when (tp <? np) (modify (set_next_ctx NULL));;
    PPCIrqUnlockByMsr st).

Definition KThreadSuspend (t : Z) : K unit :=
  let! self := lift KThreadGetSelf in
  let! st := lift PPCIrqLockByMsr in
  let! stay := lift (
    sus <- rd k_suspend t;
    wr_suspend t (u16 (sus + 1));;
    if negb (sus =? 0) then ret true else
    x <- rd k_state t;
    ret (negb (is_running x))) in
  if stay then lift (PPCIrqUnlockByMsr st) else
  do! lift (wr_state t KTHR_STATE_WAITING;; wr_queue t None) then
  let! nc := lift (gets k_next_ctx) in
  let! nx := lift (if (t =? self) || (t =? nc)
                   then first <- s_firstThread; KThreadFindRunnable first
                   else ret NULL) in
  if t =? self then KThreadSwitchTo nx st
  else lift (
    when (t =? nc) (modify (set_next_ctx (if negb (nx =? self) then nx else NULL)));;
    PPCIrqUnlockByMsr st).

Definition KThreadYield : K unit :=
  let! self := lift KThreadGetSelf in
  let! st := lift PPCIrqLockByMsr in
  let! t := lift (
    sn <- rd next self;
    t <- KThreadFindRunnable sn;
    again <- (if t =? NULL then ret true
              else tp <- rd k_prio t; sp <- rd k_prio self; ret (sp <? tp));
    if again then first <- s_firstThread; KThreadFindRunnable first else ret t) in
  if negb (t =? self) then KThreadSwitchTo t st else lift (PPCIrqUnlockByMsr st).

(** ** Blocking and waking *)

Definition KThrQueueBlock (q : qref) (token : Z) : K Z :=
  let! self := lift KThreadGetSelf in
  let! st := lift PPCIrqLockByMsr in
  let! nx := lift (
    wr_state self KTHR_STATE_WAITING;;
    wr_token self token;;
    KThrQueueInsert q self;;
    first <- s_firstThread;
    KThreadFindRunnable first) in
  do! KThreadSwitchTo nx st then
  lift (rd k_token self).

(** The loop of [KThrQueueUnblockCommon]: the value is [resched]. *)
Fixpoint unblock_loop (fuel : nat) (q : qref) (max : Z) (mode : KThrUnblockMode) (ref : Z)
    (cur resched : Z) : M kst Z :=
  match fuel with
  | O => fail OutOfFuel
  | S n =>
      if (max =? 0) || (cur =? NULL) then ret resched else
      nx <- rd link_next cur;
      hit <- KThrQueueTestUnblock cur mode ref;
      if negb hit then unblock_loop n q max mode ref nx resched else
      KThrQueueRemove q cur;;
      (match mode with
       | KTHR_UNBLOCK_BY_MASK => tok <- rd k_token cur; wr_token cur (Z.land tok ref)
       | _ => wr_token cur 1
       end);;
      sus <- rd k_suspend cur;
      resched' <- (if sus =? 0 then
                     wr_state cur KTHR_STATE_RUNNING;;
                     ret (if resched =? NULL then cur else resched)
                   else ret resched);
      unblock_loop n q (if 0 <? max then max - 1 else max) mode ref nx resched'
  end.

Definition KThrQueueUnblockCommon (q : qref) (max : Z) (mode : KThrUnblockMode) (ref : Z) : K unit :=
  let! st := lift PPCIrqLockByMsr in
  let! resched := lift (
    fuel <- gets thr_fuel;
    cur <- rd_q qn q;
    unblock_loop fuel q max mode ref cur NULL) in
  KThreadReschedule resched st.

Definition KThrQueueUnblockOneByValue (q : qref) (ref : Z) : K unit :=
  KThrQueueUnblockCommon q 1 KTHR_UNBLOCK_BY_VALUE ref.
Definition KThrQueueUnblockOneByMask (q : qref) (ref : Z) : K unit :=
  KThrQueueUnblockCommon q 1 KTHR_UNBLOCK_BY_MASK ref.
Definition KThrQueueUnblockAllByValue (q : qref) (ref : Z) : K unit :=
  KThrQueueUnblockCommon q (-1) KTHR_UNBLOCK_BY_VALUE ref.
Definition KThrQueueUnblockAllByMask (q : qref) (ref : Z) : K unit :=
  KThrQueueUnblockCommon q (-1) KTHR_UNBLOCK_BY_MASK ref.

Definition KThrQueueCancel (q : qref) (t : Z) : K unit :=
  let! st := lift PPCIrqLockByMsr in
  let! stay := lift (
    x <- rd k_state t;
    wq <- rd k_wq t;
    ret (negb (bool_decide (x = KTHR_STATE_WAITING)) || negb (bool_decide (wq = Some q)))) in
  if stay then lift (PPCIrqUnlockByMsr st) else
  let! resched := lift (
    KThrQueueRemove q t;;
    wr_token t 0;;
    sus <- rd k_suspend t;
    if sus =? 0 then wr_state t KTHR_STATE_RUNNING;; ret t else ret NULL) in
  KThreadReschedule resched st.

(** ** Creation, joining, sleeping and exit *)

Section Lifecycle.
(** Addresses of code and of the small data areas, fixed by the linker. *)
Context (addr_KThreadExit addr_KThreadIdleMain SDA_BASE SDA2_BASE : Z).
(** The two threads that exist statically. *)
Context (mainThread idleThread : Z).

Definition thread_msr : Z :=
  Z.lor MSR_EE (Z.lor MSR_ME (Z.lor MSR_IR (Z.lor MSR_DR MSR_RI))).

Definition KThreadInit : M kst unit :=
  modify (set_first mainThread);;
  wr_next mainThread idleThread;;
  wr_state mainThread KTHR_STATE_RUNNING;;
  wr_prio mainThread KTHR_MAIN_PRIO;;
  mp <- rd k_prio mainThread;
  wr_baseprio mainThread mp;;
  c <- rd k_ctx idleThread;
  wr_ctx idleThread (mk_ctx addr_KThreadIdleMain thread_msr (c_lr c) (c_gpr1 c) (c_gpr2 c)
                       (c_gpr3 c) (c_gpr13 c));;
  wr_state idleThread KTHR_STATE_RUNNING;;
  wr_prio idleThread (KTHR_MIN_PRIO + 1);;
  ip <- rd k_prio idleThread;
  wr_baseprio idleThread ip;;
  modify (set_self mainThread);;
  modify (set_fpu mainThread).

(** [memset(t, 0, sizeof( *t))]. *)
Definition KThread_clear (t : Z) : M kst unit :=
  wr_next t NULL;; wr_state t KTHR_STATE_UNINIT;; wr_suspend t 0;; wr_prio t 0;;
  wr_baseprio t 0;; wr_q_next (QWaiters t) NULL;; wr_q_prev (QWaiters t) NULL;;
  wr_link_next t NULL;; wr_link_prev t NULL;; wr_queue t None;; wr_token t 0;;
  wr_ctx t (mk_ctx 0 0 0 0 0 0 0).

Definition KThreadPrepare (t entrypoint arg stack_top prio : Z) : M kst unit :=
  KThread_clear t;;
  let sp := Z.ldiff stack_top 7 in
  wr_ctx t (mk_ctx entrypoint thread_msr addr_KThreadExit sp SDA2_BASE arg SDA_BASE);;
  wr_state t KTHR_STATE_WAITING;;
  wr_suspend t 1;;
  wr_prio t (Z.land prio KTHR_MIN_PRIO);;
  p <- rd k_prio t;
  wr_baseprio t p;;
  when (negb (sp =? 0))
    (c <- rd k_ctx t;
     wr_ctx t (mk_ctx (c_pc c) (c_msr c) (c_lr c) (u32 (c_gpr1 c - 8)) (c_gpr2 c) (c_gpr3 c)
                 (c_gpr13 c));;
     c' <- rd k_ctx t;
     modify (fun s => set_mem (<[c_gpr1 c' := 0xffffffff]> (k_mem s)) s));;
  st <- PPCIrqLockByMsr;
  KThreadEnqueue t;;
  PPCIrqUnlockByMsr st.
End Lifecycle.

Definition KThreadJoin (t : Z) : K Z :=
  let! st := lift PPCIrqLockByMsr in
  let! x := lift (rd k_state t) in
  do! kwhen (state_num KTHR_STATE_RUNNING <=? state_num x)
        (do! KThrQueueBlock s_joinQueue t then kret tt) then
  let! rc := lift (rd link_next t) in
  do! lift (PPCIrqUnlockByMsr st) then
  kret rc.

(** The code address of [KThreadSleepWakeup], as stored in a task. *)
Definition fn_KThreadSleepWakeup : Z := 1.
Definition KThreadSleepWakeup (task : Z) : K unit :=
  KThrQueueUnblockAllByValue s_sleepQueue task.

(** [task] is the address of the local variable. *)
Definition KThreadSleepTicks (task ticks : Z) : K unit :=
  let! st := lift PPCIrqLockByMsr in
  do! lift (KTickTaskStart task fn_KThreadSleepWakeup ticks 0) then
  do! KThrQueueBlock s_sleepQueue task then
  lift (PPCIrqUnlockByMsr st).

(** The jump at the end does not return. *)
Definition KThreadExit (rc : Z) : K unit :=
  let! self := lift KThreadGetSelf in
  do! lift (
    msr <- gets k_msr;
    modify (set_msr (Z.ldiff msr (Z.lor MSR_EE (Z.lor MSR_FP MSR_RI))));;
    fpu <- gets k_fpu;
    when (fpu =? self) (modify (set_fpu 0));;
    KThreadDequeue self;;
    wr_state self KTHR_STATE_FINISHED;;
    wr_link_next self rc) then
  do! KThrQueueUnblockAllByValue s_joinQueue self then
  let! nx := lift (
    nc <- gets k_next_ctx;
    if nc =? NULL then first <- s_firstThread; KThreadFindRunnable first else ret nc) in
  kswitch (PPCContextJump nx) (lift (fail Hang)).
