(* ===== verification/KLists.v ===== *)
(** * The lists of the kernel as lists

    The singly linked list of threads and the doubly linked wait queues of
    [thread_priv.h] refine lists of thread addresses: insertion puts a thread
    behind all threads of the same or a higher priority, removal deletes it. *)

From stdpp Require Import base gmap list fin_maps.
From Stdlib Require Import ZArith Lia Sorted.
From S2P Require Import Prelude Chain KState KTick KThread.

Open Scope Z_scope.

(** ** Insertion by a predicate *)

Section Ins.
Context (ok : Z -> bool).

(** The longest prefix whose elements satisfy [ok], and the rest. *)
Fixpoint pre (L : list Z) : list Z :=
  match L with x :: r => if ok x then x :: pre r else [] | [] => [] end.
Fixpoint suf (L : list Z) : list Z :=
  match L with x :: r => if ok x then suf r else L | [] => [] end.

Definition ins (t : Z) (L : list Z) : list Z := pre L ++ t :: suf L.

Lemma pre_suf L : pre L ++ suf L = L.
Proof. induction L as [|x r IH]; simpl; [done|]. destruct (ok x); simpl; by f_equal. Qed.

Lemma pre_ok L x : x ∈ pre L -> ok x = true.
Proof.
  induction L as [|y r IH]; simpl; [by intros ?%not_elem_of_nil|].
  destruct (ok y) eqn:E; [|by intros ?%not_elem_of_nil].
  rewrite elem_of_cons. intros [->|?]; auto.
Qed.

Lemma suf_head L x r : suf L = x :: r -> ok x = false.
Proof.
  induction L as [|y l IH]; simpl; [done|]. destruct (ok y) eqn:E; [done|]. by intros [= <- _].
Qed.

Lemma ins_perm t L : ins t L ≡ₚ t :: L.
Proof. unfold ins. rewrite <- Permutation_middle. by rewrite pre_suf. Qed.

Lemma elem_of_ins t L x : x ∈ ins t L <-> x = t \/ x ∈ L.
Proof. by rewrite ins_perm, elem_of_cons. Qed.

Lemma ins_NoDup t L : t ∉ L -> NoDup L -> NoDup (ins t L).
Proof. intros. rewrite ins_perm. by constructor. Qed.
End Ins.

Definition at_most (f : Z -> Z) (p x : Z) : bool := f x <=? p.
(** Insertion of [t] by the priorities [f]. *)
Definition ins_prio (f : Z -> Z) (t : Z) (L : list Z) : list Z := ins (at_most f (f t)) t L.
(** Deletion. *)
Definition rem (t : Z) (L : list Z) : list Z := filter (fun x => x <> t) L.

Lemma filter_all {A} (P : A -> Prop) `{forall x, Decision (P x)} (l : list A) :
  (forall x, x ∈ l -> P x) -> filter P l = l.
Proof.
  induction l as [|x r IH]; intros H'; [done|]. rewrite filter_cons_True by (apply H'; set_solver).
  rewrite IH; [done|set_solver].
Qed.

Lemma rem_notin t L : t ∉ L -> rem t L = L.
Proof.
  unfold rem. induction L as [|x r IH]; intros H; [done|].
  apply not_elem_of_cons in H as [? ?]. rewrite filter_cons_True by done. by rewrite IH.
Qed.

Lemma rem_split t L1 L2 : NoDup (L1 ++ t :: L2) -> rem t (L1 ++ t :: L2) = L1 ++ L2.
Proof.
  intros (_ & H1 & H2%NoDup_cons)%NoDup_app. unfold rem. rewrite filter_app.
  rewrite filter_cons_False by naive_solver. f_equal; apply rem_notin; [|tauto].
  intros H. apply (H1 t H). apply elem_of_cons. by left.
Qed.

Lemma elem_of_rem t L x : x ∈ rem t L <-> x ∈ L /\ x <> t.
Proof. unfold rem. rewrite list_elem_of_filter. tauto. Qed.

Lemma rem_NoDup t L : NoDup L -> NoDup (rem t L).
Proof. apply NoDup_filter. Qed.

(** Sorted by the priorities [f]. *)
Definition sorted (f : Z -> Z) : list Z -> Prop := StronglySorted (fun x y => f x <= f y).

Lemma sorted_app f L1 L2 :
  sorted f (L1 ++ L2) <->
  sorted f L1 /\ sorted f L2 /\ (forall x y, x ∈ L1 -> y ∈ L2 -> f x <= f y).
Proof.
  unfold sorted. induction L1 as [|a L1 IH]; simpl.
  { split; [|tauto]. intros H. split_and!; [constructor|done|]. by intros ? ? ?%not_elem_of_nil. }
  split.
  - intros H. inversion H as [|? ? Hs Hf]; subst. apply IH in Hs as (H1 & H2 & H3).
    apply Forall_app in Hf as [F1 F2]. split_and!; [by constructor|done|].
    intros x y [->|Hx]%elem_of_cons Hy; [|by auto]. rewrite Forall_forall in F2. auto.
  - intros (H1 & H2 & H3). inversion H1 as [|? ? Hs Hf]; subst. constructor.
    + apply IH. split_and!; [done..|]. intros x y Hx. apply H3. apply elem_of_cons. by right.
    + apply Forall_app. split; [done|]. apply Forall_forall. intros y Hy. apply H3; [|done].
      apply elem_of_cons. by left.
Qed.

Lemma sorted_ext f g L : (forall x, x ∈ L -> f x = g x) -> sorted f L -> sorted g L.
Proof.
  intros H Hs. unfold sorted in *. induction Hs as [|a L Hs IH Hf]; [constructor|].
  constructor; [apply IH; intros; apply H, elem_of_cons; by right|].
  rewrite Forall_forall in *. intros x Hx.
  rewrite <- !H by (rewrite elem_of_cons; auto). auto.
Qed.

Lemma sorted_head f a L x : sorted f (a :: L) -> x ∈ a :: L -> f a <= f x.
Proof.
  intros H Hx. inversion H as [|? ? _ Hf]; subst. apply elem_of_cons in Hx as [->|Hx]; [lia|].
  rewrite Forall_forall in Hf. auto.
Qed.

Lemma sorted_filter f P `{forall x, Decision (P x)} L : sorted f L -> sorted f (filter P L).
Proof.
  induction 1 as [|a L Hs IH Hf]; [constructor|]. destruct (decide (P a)).
  - rewrite filter_cons_True by done. constructor; [done|]. apply Forall_forall.
    intros x [_ Hx]%list_elem_of_filter. rewrite Forall_forall in Hf. auto.
  - by rewrite filter_cons_False.
Qed.

Lemma sorted_rem f t L : sorted f L -> sorted f (rem t L).
Proof. apply sorted_filter. Qed.

Lemma ins_sorted f t L : sorted f L -> sorted f (ins_prio f t L).
Proof.
  unfold ins_prio. set (ok := at_most f (f t)). intros Hs. pose proof Hs as Hs'.
  rewrite <- (pre_suf ok L) in Hs'. apply sorted_app in Hs' as (H1 & H2 & H3).
  assert (Hp : forall x, x ∈ pre ok L -> f x <= f t).
  { intros x Hx%pre_ok. unfold ok, at_most in Hx. lia. }
  assert (Hq : forall y, y ∈ suf ok L -> f t <= f y).
  { destruct (suf ok L) as [|z r] eqn:E; [by intros ? ?%not_elem_of_nil|].
    apply suf_head in E. intros y Hy. pose proof (sorted_head _ _ _ _ H2 Hy).
    unfold ok, at_most in E. lia. }
  apply sorted_app. split_and!; [done| |].
  - constructor; [done|]. apply Forall_forall. auto.
  - intros x y Hx [->|Hy]%elem_of_cons; auto.
Qed.

(** ** Singly linked segments *)

Fixpoint lseg (nx : Z -> Z) (p : Z) (L : list Z) (e : Z) : Prop :=
  match L with
  | [] => p = e
  | t :: r => p = t /\ t <> NULL /\ lseg nx (nx t) r e
  end.

Lemma lseg_app nx p L1 L2 e :
  lseg nx p (L1 ++ L2) e <-> exists m, lseg nx p L1 m /\ lseg nx m L2 e.
Proof.
  revert p. induction L1 as [|t r IH]; intros p; simpl; [naive_solver|].
  rewrite IH. naive_solver.
Qed.

Lemma lseg_frame nx nx' p L e :
  (forall t, t ∈ L -> nx' t = nx t) -> lseg nx p L e -> lseg nx' p L e.
Proof.
  revert p. induction L as [|t r IH]; intros p H; simpl; [done|].
  intros (-> & ? & Hr). split_and!; [done..|]. rewrite H by (apply elem_of_cons; by left).
  apply IH; [|done]. intros. apply H, elem_of_cons. by right.
Qed.

Lemma lseg_set_end nx p L a m e :
  NoDup (L ++ [a]) -> lseg nx p (L ++ [a]) m -> lseg (fupd nx a e) p (L ++ [a]) e.
Proof.
  intros (_ & Hd & _)%NoDup_app (z & H1 & H2)%lseg_app. apply lseg_app. exists z. simpl in *.
  destruct H2 as (-> & Ha & _). rewrite fupd_eq. split; [|done].
  apply (lseg_frame nx); [|done]. intros t Ht. apply fupd_ne. intros ->.
  by apply (Hd a Ht), list_elem_of_singleton.
Qed.

Lemma lseg_head nx p L : lseg nx p L NULL -> p = NULL <-> L = [].
Proof. destruct L; simpl; naive_solver. Qed.

Lemma lseg_next_fupd nx p L e t v :
  t ∉ L -> lseg nx p L e -> lseg (fupd nx t v) p L e.
Proof.
  intros Ht. apply lseg_frame. intros x Hx. apply fupd_ne. by intros ->.
Qed.

(** Distinct members of a finite set. *)
Lemma NoDup_size (L : list Z) (X : gset Z) :
  NoDup L -> (forall t, t ∈ L -> t ∈ X) -> (length L <= size X)%nat.
Proof.
  intros Hn Hs. rewrite <- (size_list_to_set (C := gset Z)) by done.
  apply subseteq_size. intros x. rewrite elem_of_list_to_set. auto.
Qed.

(** ** Doubly linked segments *)

(** From [p] to [e], with [pv] before the first node and [l] the last node (or
    [pv] where there is none). *)
Fixpoint dseg (n b : Z -> Z) (pv p : Z) (L : list Z) (e l : Z) : Prop :=
  match L with
  | [] => p = e /\ l = pv
  | t :: r => p = t /\ t <> NULL /\ b t = pv /\ dseg n b t (n t) r e l
  end.

Lemma dseg_app n b pv p L1 L2 e l :
  dseg n b pv p (L1 ++ L2) e l <->
  exists m y, dseg n b pv p L1 m y /\ dseg n b y m L2 e l.
Proof.
  revert pv p. induction L1 as [|t r IH]; intros pv p; simpl; [naive_solver|].
  rewrite IH. naive_solver.
Qed.

Lemma dseg_frame n b n' b' pv p L e l :
  (forall t, t ∈ L -> n' t = n t) -> (forall t, t ∈ L -> b' t = b t) ->
  dseg n b pv p L e l -> dseg n' b' pv p L e l.
Proof.
  revert pv p. induction L as [|t r IH]; intros pv p Hn Hb; simpl; [done|].
  assert (Ht : t ∈ t :: r) by (apply elem_of_cons; by left).
  rewrite (Hn t Ht), (Hb t Ht). intros (-> & ? & ? & Hr). split_and!; [done..|].
  apply IH; [intros; apply Hn, elem_of_cons; by right|intros; apply Hb, elem_of_cons; by right|done].
Qed.

Lemma dseg_fupd n b pv p L e l x y u v :
  x ∉ L -> y ∉ L -> dseg n b pv p L e l -> dseg (fupd n x u) (fupd b y v) pv p L e l.
Proof.
  intros Hx Hy. apply dseg_frame; intros z Hz; apply fupd_ne; by intros ->.
Qed.

Lemma dseg_fupd_n n b pv p L e l x u :
  x ∉ L -> dseg n b pv p L e l -> dseg (fupd n x u) b pv p L e l.
Proof. intros Hx. apply dseg_frame; [|done]. intros z Hz. apply fupd_ne. by intros ->. Qed.

Lemma dseg_fupd_b n b pv p L e l y v :
  y ∉ L -> dseg n b pv p L e l -> dseg n (fupd b y v) pv p L e l.
Proof. intros Hy. apply dseg_frame; [done|]. intros z Hz. apply fupd_ne. by intros ->. Qed.

(** The last node: [l] itself, or none and [l] is the predecessor. *)
Lemma dseg_last n b pv p L e l : dseg n b pv p L e l -> l = default pv (last L).
Proof.
  revert pv p. induction L as [|t r IH]; intros pv p; [by intros [_ ->]|].
  intros (_ & _ & _ & Hr). apply IH in Hr. subst. rewrite last_cons. by destruct (last r).
Qed.

Lemma dseg_head n b pv p L e l : dseg n b pv p L e l -> p = default e (head L).
Proof. destruct L; simpl; naive_solver. Qed.

(** Redirecting the end of a segment and the back link of its first node. *)
Lemma dseg_set_end n b pv p L a m l e :
  NoDup (L ++ [a]) -> dseg n b pv p (L ++ [a]) m l -> dseg (fupd n a e) b pv p (L ++ [a]) e a.
Proof.
  intros (_ & Hd & _)%NoDup_app (z & y & H1 & H2)%dseg_app. apply dseg_app. exists z, y. simpl in *.
  destruct H2 as (-> & Ha & Hb & _ & _). rewrite fupd_eq. split; [|repeat (split; [done|]); done].
  apply dseg_fupd_n; [|done]. intros Ht. by apply (Hd a Ht), list_elem_of_singleton.
Qed.

Lemma dseg_set_begin n b pv p a L e l pv' :
  a ∉ L -> dseg n b pv p (a :: L) e l -> dseg n (fupd b a pv') pv' p (a :: L) e l.
Proof.
  intros Ha. simpl. intros (-> & ? & _ & H). rewrite fupd_eq. do 3 (split; [done|]).
  by apply dseg_fupd_b.
Qed.

(** ** The list of threads *)

(** The first running thread of a list, NULL if there is none. *)
Fixpoint first_running (st : Z -> KThrState) (L : list Z) : Z :=
  match L with
  | [] => NULL
  | t :: r => if is_running (st t) then t else first_running st r
  end.

Section ThreadList.
Context (s : kst).

Lemma position_loop_spec fuel p cur pos L :
  lseg (next s) cur L NULL -> (forall t, t ∈ L -> t ∈ k_thr s) -> (length L < fuel)%nat ->
  wp (position_loop fuel p cur pos)
    (fun r s' => s' = s /\ r = default pos (last (pre (at_most (k_prio s) p) L))) s.
Proof.
  revert cur pos L. induction fuel as [|n IH]; intros cur pos L Hl Hv Hf; [lia|]. cbn [position_loop].
  destruct L as [|t r]; simpl in Hl.
  { subst cur. by apply wp_ret. }
  destruct Hl as (-> & Hn & Hl). destruct (Z.eqb_spec t NULL); [done|].
  apply wp_bind, wp_rd; [apply Hv; set_solver|]. cbn [pre]. change (at_most (k_prio s) p t) with (k_prio s t <=? p).
  destruct (k_prio s t <=? p); [|by kstep].
  apply wp_bind, wp_rd; [apply Hv; set_solver|].
  eapply wp_mono; [apply (IH _ t r); [done|set_solver|simpl in Hf; lia]|].
  intros a s' [-> ->]. split; [done|]. rewrite last_cons.
  by destruct (last (pre (at_most (k_prio s) p) r)).
Qed.

Lemma previous_loop_spec fuel t cur L1 L2 :
  NoDup (L1 ++ t :: L2) -> cur <> t ->
  lseg (next s) cur (L1 ++ t :: L2) NULL -> (forall x, x ∈ L1 -> x ∈ k_thr s) ->
  (length L1 < fuel)%nat ->
  wp (previous_loop fuel t cur) (fun r s' => s' = s /\ last L1 = Some r) s.
Proof.
  revert cur L1. induction fuel as [|n IH]; intros cur L1 Hd Hc Hl Hv Hf; [lia|].
  destruct L1 as [|x r]; simpl in Hl; [naive_solver|].
  destruct Hl as (-> & Hn & Hl). cbn [previous_loop]. destruct (Z.eqb_spec x NULL); [done|].
  apply wp_bind, wp_rd; [apply Hv; set_solver|]. destruct (Z.eqb_spec (next s x) t) as [E|E].
  - kstep. split; [done|]. destruct r as [|y r]; [done|]. simpl in Hl. destruct Hl as (E' & _).
    exfalso. apply NoDup_cons in Hd as [_ Hd]. simpl in Hd. apply NoDup_cons in Hd as [Hd _].
    apply Hd. rewrite <- E', E. set_solver.
  - eapply wp_mono; [apply (IH _ r); try done|].
    + by apply NoDup_cons in Hd as [_ Hd].
    + set_solver.
    + simpl in Hf. lia.
    + intros a s' [-> H]. split; [done|]. rewrite last_cons, H. done.
Qed.

Lemma runnable_loop_spec fuel cur L :
  lseg (next s) cur L NULL -> (forall t, t ∈ L -> t ∈ k_thr s) -> (length L < fuel)%nat ->
  wp (runnable_loop fuel cur) (fun r s' => s' = s /\ r = first_running (k_state s) L) s.
Proof.
  revert cur L. induction fuel as [|n IH]; intros cur L Hl Hv Hf; [lia|].
  destruct L as [|t r]; simpl in Hl.
  { subst cur. by apply wp_ret. }
  destruct Hl as (-> & Hn & Hl). cbn [runnable_loop first_running].
  destruct (Z.eqb_spec t NULL); [done|].
  apply wp_bind, wp_rd; [apply Hv; set_solver|].
  destruct (is_running (k_state s t)); [by kstep|].
  apply wp_bind, wp_rd; [apply Hv; set_solver|].
  apply IH; [done|set_solver|simpl in Hf; lia].
Qed.

(** The thread list represents [L]. *)
Definition tlist (T : tlinks) (L : list Z) : Prop := lseg (tl_next T) (tl_first T) L NULL.

Context (L : list Z) (Hl : tlist (k_tl s) L) (Hd : NoDup L) (Hv : forall t, t ∈ L -> t ∈ k_thr s).

Lemma tlist_fuel L1 L2 : L = L1 ++ L2 -> (length L1 < thr_fuel s /\ length L2 < thr_fuel s)%nat.
Proof.
  intros ->. pose proof (NoDup_size _ _ Hd Hv) as H. rewrite length_app in H. unfold thr_fuel. lia.
Qed.

Lemma enqueue_spec t :
  t ∈ k_thr s -> t <> NULL -> t ∉ L ->
  wp (KThreadEnqueue t)
    (fun _ s' => exists T, s' = set_tl T s /\ tlist T (ins_prio (k_prio s) t L)) s.
Proof.
  intros Ht Hn Hni. unfold KThreadEnqueue, KThreadGetInsertPosition, s_firstThread.
  krun.
  eapply wp_mono; [apply (position_loop_spec _ _ _ _ L Hl Hv)|].
  { apply (tlist_fuel L []). by rewrite app_nil_r. }
  set (ok := at_most (k_prio s) (k_prio s t)).
  intros pos s' [-> ->]. unfold tlist in Hl. rewrite <- (pre_suf ok L) in Hl, Hv, Hd, Hni.
  unfold ins_prio, ins. fold ok.
  destruct (pre ok L) as [|a B _] eqn:E using rev_ind; simpl.
  - krun. eexists. split; [reflexivity|]. unfold tlist. ksimpl. simpl.
    rewrite fupd_eq. split_and!; [done..|]. by apply lseg_next_fupd.
  - rewrite last_snoc. simpl. apply lseg_app in Hl as (m & H1 & H2).
    assert (Ha : next s a = m).
    { apply lseg_app in H1 as (? & _ & ? & _ & ?). by simplify_eq. }
    assert (a <> NULL) by (apply lseg_app in H1 as (? & _ & ? & ? & ?); done).
    destruct (Z.eqb_spec a NULL); [done|]. simpl. assert (Hav : a ∈ k_thr s) by (apply Hv; set_solver).
    apply not_elem_of_app in Hni as [N1 N2]. apply NoDup_app in Hd as (D1 & D2 & D3).
    krun. eexists. split; [reflexivity|]. unfold tlist. ksimpl.
    apply lseg_app. exists t. split.
    + eapply lseg_set_end; [done|]. by apply lseg_next_fupd.
    + simpl. rewrite fupd_ne by set_solver. rewrite fupd_eq, Ha. split_and!; [done..|].
      apply lseg_next_fupd; [set_solver|]. by apply lseg_next_fupd.
Qed.

Lemma dequeue_spec t :
  t ∈ L ->
  wp (KThreadDequeue t) (fun _ s' => exists T, s' = set_tl T s /\ tlist T (rem t L)) s.
Proof.
  intros (L1 & L2 & HL)%list_elem_of_split. pose proof (tlist_fuel L1 (t :: L2) HL) as [Hf _].
  unfold tlist in Hl. rewrite HL in Hl, Hv, Hd.
  rewrite HL, rem_split by done.
  assert (Htv : t ∈ k_thr s) by (apply Hv; set_solver).
  unfold KThreadDequeue, KThreadGetPrevious, s_firstThread. krun.
  destruct (Z.eqb_spec (tl_first (k_tl s)) t) as [E|E].
  - assert (L1 = []) as ->.
    { destruct L1 as [|x r]; [done|]. simpl in Hl. destruct Hl as (E' & _). exfalso.
      apply NoDup_cons in Hd as [Hd _]. apply Hd. rewrite <- E', E. set_solver. }
    krun. eexists. split; [reflexivity|]. unfold tlist. ksimpl. simpl in *. tauto.
  - krun. eapply wp_mono; [apply (previous_loop_spec _ _ _ L1 L2); try done; set_solver|].
    intros a s' [-> Hlast]. destruct L1 as [|y B _] using rev_ind; [done|].
    rewrite last_snoc in Hlast. injection Hlast as ->.
    apply lseg_app in Hl as (m & H1 & H2).
    assert (a <> NULL) by (apply lseg_app in H1 as (? & _ & ? & ? & ?); done).
    destruct (Z.eqb_spec a NULL); [done|]. simpl. assert (Hav : a ∈ k_thr s) by (apply Hv; set_solver).
    apply NoDup_app in Hd as (D1 & D2 & D3). apply NoDup_cons in D3 as [D3 D4].
    krun. eexists. split; [reflexivity|]. unfold tlist. ksimpl.
    simpl in H2. destruct H2 as (-> & Hn & H2).
    apply lseg_app. exists (next s t). split; [by eapply lseg_set_end|].
    apply lseg_next_fupd; [|done]. intros Hin. apply (D2 a); [set_solver|]. apply elem_of_cons. by right.
Qed.

Lemma find_runnable_spec L1 L2 first :
  L = L1 ++ L2 -> lseg (next s) first L2 NULL ->
  wp (KThreadFindRunnable first) (fun r s' => s' = s /\ r = first_running (k_state s) L2) s.
Proof.
  intros HL Hs. unfold KThreadFindRunnable. krun. apply runnable_loop_spec; [done| |].
  - intros t Ht. apply Hv. rewrite HL. set_solver.
  - by apply (tlist_fuel L1 L2).
Qed.
End ThreadList.

(** ** Wait queues *)

(** The wait links of [s] represent the queues [W]: a thread is in queue [q]
    exactly if its [wait.queue] says so. *)
Record waits (s : kst) (W : qref -> list Z) : Prop := {
  w_links : forall q, dseg (ln (k_lk s)) (lp (k_lk s)) NULL (qn (k_lk s) q) (W q) NULL (qp (k_lk s) q);
  w_nodup : forall q, NoDup (W q);
  w_in : forall q t, t ∈ W q <-> t ∈ k_thr s /\ k_wq s t = Some q;
}.

Section Waits.
Context (s : kst) (W : qref -> list Z) (Hw : waits s W).

Lemma w_valid q t : t ∈ W q -> t ∈ k_thr s.
Proof. intros [? _]%(w_in _ _ Hw). done. Qed.

Lemma w_disjoint q q' t : t ∈ W q -> q' <> q -> t ∉ W q'.
Proof. intros [_ H]%(w_in _ _ Hw) Hne [_ H']%(w_in _ _ Hw). congruence. Qed.

Lemma w_fuel q : (length (W q) < thr_fuel s)%nat.
Proof. pose proof (NoDup_size _ _ (w_nodup _ _ Hw q) (w_valid q)). unfold thr_fuel. lia. Qed.

Lemma qposition_loop_spec fuel q p pv pos L l :
  q_valid s q = true -> (forall t, t ∈ L -> t ∈ k_thr s) ->
  dseg (link_next s) (link_prev s) pv pos L NULL l -> l = qp (k_lk s) q ->
  (length L < fuel)%nat ->
  wp (qposition_loop fuel q p pos)
    (fun r s' => s' = s /\ r = default pv (last (pre (at_most (k_prio s) p) L))) s.
Proof.
  intros Hq. revert pv pos L. induction fuel as [|n IH]; intros pv pos L Hv Hs Hl Hf; [lia|].
  destruct L as [|t r]; simpl in Hs.
  { destruct Hs as (-> & ->). cbn [qposition_loop]. rewrite Z.eqb_refl.
    by apply wp_rd_q. }
  destruct Hs as (-> & Hn & Hp & Hs). cbn [qposition_loop pre].
  change (at_most (k_prio s) p t) with (k_prio s t <=? p).
  assert (Htv : t ∈ k_thr s) by (apply Hv; set_solver).
  destruct (Z.eqb_spec t NULL); [done|]. krun.
  destruct (k_prio s t <=? p); [|by apply wp_rd]. krun.
  eapply wp_mono; [apply (IH t _ r); [set_solver|done|done|simpl in Hf; lia]|].
  intros a s' [-> ->]. split; [done|]. rewrite last_cons.
  by destruct (last (pre (at_most (k_prio s) p) r)).
Qed.

(** The links after [t] has been put between the two parts of a queue. *)
Lemma waits_place q t A B k' :
  W q = A ++ B -> (forall q, t ∉ W q) -> t ∈ k_thr s ->
  dseg (ln k') (lp k') NULL (qn k' q) (A ++ t :: B) NULL (qp k' q) ->
  (forall q', q' <> q -> qn k' q' = qn (k_lk s) q' /\ qp k' q' = qp (k_lk s) q') ->
  (forall x, x ∉ W q -> x <> t -> ln k' x = ln (k_lk s) x /\ lp k' x = lp (k_lk s) x) ->
  waits (set_wq (fupd (k_wq s) t (Some q)) (set_lk k' s)) (fupd W q (A ++ t :: B)).
Proof.
  intros HW Ht Htv Hs Hq Hx. split; ksimpl.
  - intros q'. destruct (decide (q' = q)) as [->|Hne]; [by rewrite fupd_eq|].
    rewrite fupd_ne by done. destruct (Hq q' Hne) as [-> ->].
    eapply dseg_frame; [..|apply (w_links _ _ Hw)]; intros x Hin; apply Hx.
    all: try (by eapply w_disjoint); intros ->; by apply (Ht q').
  - intros q'. destruct (decide (q' = q)) as [->|Hne]; [|rewrite fupd_ne by done; apply (w_nodup _ _ Hw)].
    rewrite fupd_eq. rewrite <- Permutation_middle, <- HW. constructor; [apply Ht|apply (w_nodup _ _ Hw)].
  - intros q' x. destruct (decide (x = t)) as [->|Hxt].
    + rewrite fupd_eq. destruct (decide (q' = q)) as [->|Hne].
      * rewrite fupd_eq. split; [done|]. intros _. set_solver.
      * rewrite fupd_ne by done. split; [intros H; by destruct (Ht q')|naive_solver].
    + rewrite (fupd_ne (k_wq s)) by done. rewrite <- (w_in _ _ Hw).
      destruct (decide (q' = q)) as [->|Hne]; [|by rewrite fupd_ne].
      rewrite fupd_eq, HW. set_solver.
Qed.

(** The links between the two halves of an insertion of [t] at the end of [A]. *)
Definition half_placed (q : qref) (t : Z) (A B : list Z) (m : Z) (k : wlinks) : Prop :=
  dseg (ln k) (lp k) NULL (qn k q) (A ++ [t]) m t /\
  (exists y, dseg (ln k) (lp k) y m B NULL (qp k q)) /\
  (forall q', q' <> q -> qn k q' = qn (k_lk s) q' /\ qp k q' = qp (k_lk s) q') /\
  (forall x, x ∉ W q -> x <> t -> ln k x = ln (k_lk s) x /\ lp k x = lp (k_lk s) x).

Lemma half_place_spec q t A B m y :
  W q = A ++ B -> q_valid s q = true -> t ∈ k_thr s -> t <> NULL -> t ∉ A -> t ∉ B ->
  dseg (ln (k_lk s)) (lp (k_lk s)) NULL (qn (k_lk s) q) A m y ->
  dseg (ln (k_lk s)) (lp (k_lk s)) y m B NULL (qp (k_lk s) q) ->
  wp (if negb (y =? NULL) then
        nx <- rd link_next y; wr_link_next t nx;; wr_link_prev t y;; wr_link_next y t
      else
        nx <- rd_q qn q; wr_link_next t nx;; wr_link_prev t NULL;; wr_q_next q t)
    (fun _ s' => exists k, s' = set_lk k s /\ half_placed q t A B m k) s.
Proof.
  intros HW Hq Htv Hn NA NB HA HB. pose proof (w_valid q) as Hv. pose proof (w_nodup _ _ Hw q) as Hd.
  rewrite HW in Hd, Hv. apply NoDup_app in Hd as (DA & DAB & DB).
  destruct A as [|a A _] using rev_ind.
  - destruct HA as [<- ->]. rewrite Z.eqb_refl. simpl. krun.
    eexists. split; [reflexivity|]. unfold half_placed. ksimpl. simpl. rewrite !fupd_eq.
    split_and!; try done; [exists NULL; by apply dseg_fupd|..].
    + intros q' Hne. by rewrite fupd_ne.
    + intros x _ Hx. by rewrite !fupd_ne.
  - pose proof (dseg_last _ _ _ _ _ _ _ HA) as Hy. rewrite last_snoc in Hy. simpl in Hy. subst y.
    pose proof HA as HA'. apply dseg_app in HA' as (m' & y' & _ & HA'). simpl in HA'.
    destruct HA' as (-> & Hna & _ & Hm & _). destruct (Z.eqb_spec a NULL); [done|]. simpl.
    assert (Hav : a ∈ k_thr s) by (apply Hv; set_solver). krun.
    eexists. split; [reflexivity|]. unfold half_placed, link_next. ksimpl. rewrite Hm.
    split_and!; try done; [|exists a|].
    + apply dseg_app. exists t, a. split; [|simpl].
      * eapply dseg_set_end; [done|]. by apply dseg_fupd.
      * rewrite (fupd_ne _ a) by set_solver. by rewrite !fupd_eq.
    + apply dseg_fupd_n; [set_solver|]. by apply dseg_fupd.
    + intros x Hx Hxt. rewrite HW in Hx. rewrite !fupd_ne by set_solver. done.
Qed.

Lemma queue_insert_spec q t :
  q_valid s q = true -> t ∈ k_thr s -> t <> NULL -> (forall q, t ∉ W q) ->
  wp (KThrQueueInsert q t)
    (fun _ s' => exists k', s' = set_wq (fupd (k_wq s) t (Some q)) (set_lk k' s) /\
       waits s' (fupd W q (ins_prio (k_prio s) t (W q)))) s.
Proof.
  intros Hq Htv Hn Ht. unfold KThrQueueInsert, KThrQueueGetInsertPosition. krun.
  eapply wp_mono; [apply (qposition_loop_spec _ _ _ NULL _ (W q) (qp (k_lk s) q)); try done|].
  { apply w_valid. } { apply (w_links _ _ Hw). } { apply w_fuel. }
  set (ok := at_most (k_prio s) (k_prio s t)). intros pos s' [-> ->].
  unfold ins_prio, ins. fold ok. pose proof (w_links _ _ Hw q) as Hs. pose proof (Ht q) as Htq.
  pose proof (w_nodup _ _ Hw q) as Hd. pose proof (w_valid q) as Hv.
  remember (pre ok (W q)) as A eqn:EA. remember (suf ok (W q)) as B eqn:EB.
  assert (HW : W q = A ++ B) by (subst; by rewrite pre_suf). clear EA EB.
  rewrite HW in Hs, Htq, Hd, Hv. apply not_elem_of_app in Htq as [NA NB].
  apply NoDup_app in Hd as (DA & DAB & DB). apply dseg_app in Hs as (m & y & HA & HB).
  rewrite <- (dseg_last _ _ _ _ _ _ _ HA). krun.
  eapply wp_mono; [by apply (half_place_spec _ _ A B m)|].
  intros _ s1 (k & -> & H1 & (y' & H2) & H3 & H4). krun.
  assert (Hm : ln k t = m) by (apply dseg_app in H1 as (? & ? & _ & H1); simpl in H1; tauto).
  change (link_next (set_lk k s) t) with (ln k t). rewrite Hm. destruct B as [|b B].
  - destruct H2 as [-> Hl]. simpl. krun. ksimpl.
    eexists. split; [reflexivity|]. eapply waits_place; try done; ksimpl.
    + rewrite fupd_eq. done.
    + intros q' Hne. rewrite fupd_ne by done. auto.
  - pose proof (dseg_head _ _ _ _ _ _ _ H2) as Hb. simpl in Hb. rewrite Hb in *. clear m Hb.
    assert (Hbn : b <> NULL) by (simpl in H2; tauto). destruct (Z.eqb_spec b NULL); [done|].
    cbn [negb]. assert (Hbv : b ∈ k_thr s) by (apply Hv; set_solver). krun.
    eexists. split; [reflexivity|]. eapply waits_place; try done; ksimpl.
    + rewrite cons_middle, app_assoc. apply dseg_app. exists b, t. split.
      * apply dseg_fupd_b; [|done]. intros [Hb| ->%list_elem_of_singleton]%elem_of_app; [|set_solver].
        apply (DAB b Hb). set_solver.
      * eapply dseg_set_begin; [|done]. by apply NoDup_cons in DB as [? _].
    + intros x Hx Hxt. rewrite HW in Hx. rewrite fupd_ne by set_solver. apply H4; [|done]. by rewrite HW.
Qed.

Lemma waits_drop q t A B k' :
  W q = A ++ t :: B ->
  dseg (ln k') (lp k') NULL (qn k' q) (A ++ B) NULL (qp k' q) ->
  (forall q', q' <> q -> qn k' q' = qn (k_lk s) q' /\ qp k' q' = qp (k_lk s) q') ->
  (forall x, x ∉ W q -> ln k' x = ln (k_lk s) x /\ lp k' x = lp (k_lk s) x) ->
  waits (set_lk k' (set_wq (fupd (k_wq s) t None) s)) (fupd W q (A ++ B)).
Proof.
  intros HW Hs Hq Hx. assert (Ht : t ∈ W q) by (rewrite HW; set_solver).
  pose proof (w_nodup _ _ Hw q) as Hd. rewrite HW in Hd. pose proof Hd as Hd'.
  rewrite <- Permutation_middle in Hd'. apply NoDup_cons in Hd' as [Hn Hd'].
  split; ksimpl.
  - intros q'. destruct (decide (q' = q)) as [->|Hne]; [by rewrite fupd_eq|].
    rewrite fupd_ne by done. destruct (Hq q' Hne) as [-> ->].
    eapply dseg_frame; [..|apply (w_links _ _ Hw)]; intros x Hin; apply Hx; by eapply w_disjoint.
  - intros q'. destruct (decide (q' = q)) as [->|Hne]; [by rewrite fupd_eq|].
    rewrite fupd_ne by done. apply (w_nodup _ _ Hw).
  - intros q' x. destruct (decide (x = t)) as [->|Hxt].
    + rewrite fupd_eq. split; [|naive_solver]. intros Hin. exfalso.
      destruct (decide (q' = q)) as [->|Hne]; [by rewrite fupd_eq in Hin|].
      rewrite fupd_ne in Hin by done. by apply (w_disjoint q q' t).
    + rewrite (fupd_ne (k_wq s)) by done. rewrite <- (w_in _ _ Hw).
      destruct (decide (q' = q)) as [->|Hne]; [|by rewrite fupd_ne].
      rewrite fupd_eq, HW. set_solver.
Qed.

Lemma queue_remove_spec q t :
  q_valid s q = true -> t ∈ W q ->
  wp (KThrQueueRemove q t)
    (fun _ s' => exists k', s' = set_lk k' (set_wq (fupd (k_wq s) t None) s) /\
       waits s' (fupd W q (rem t (W q))) /\
       (forall x, k_wq s x = None -> ln k' x = ln (k_lk s) x)) s.
Proof.
  intros Hq Ht. pose proof (w_valid q) as Hv. assert (Htv := Hv t Ht).
  assert (Hwq : k_wq s t = Some q) by by apply (w_in _ _ Hw) in Ht as [_ ?].
  pose proof (w_links _ _ Hw q) as Hs. pose proof (w_nodup _ _ Hw q) as Hd.
  apply list_elem_of_split in Ht as (A & B & HW).
  rewrite HW in Hs, Hd, Hv. rewrite HW, rem_split by done.
  apply NoDup_app in Hd as (DA & DAB & [DB1 DB2]%NoDup_cons).
  apply dseg_app in Hs as (m & y & HA & HB). simpl in HB. destruct HB as (-> & Htn & Hy & HB).
  assert (Hout : forall x, k_wq s x = None -> x ∉ A).
  { intros x Hx Hin. assert (x ∈ W q) as [_ ?]%(w_in _ _ Hw) by (rewrite HW; set_solver). congruence. }
  unfold KThrQueueRemove. krun. rewrite Hwq, bool_decide_true by done. cbn [negb]. krun.
  change (link_prev (set_wq (fupd (k_wq s) t None) s) t) with (lp (k_lk s) t).
  change (link_next (set_wq (fupd (k_wq s) t None) s) t) with (ln (k_lk s) t). rewrite Hy.
  set (m := ln (k_lk s) t) in *.
  (* the forward link *)
  assert (H1 : wp (if negb (y =? NULL) then wr_link_next y m else wr_q_next q m)
    (fun _ s' => exists k, s' = set_lk k (set_wq (fupd (k_wq s) t None) s) /\
       dseg (ln k) (lp k) NULL (qn k q) A m y /\ dseg (ln k) (lp k) t m B NULL (qp k q) /\
       (forall q', q' <> q -> qn k q' = qn (k_lk s) q') /\ qp k = qp (k_lk s) /\
       (forall x, x ∉ A -> ln k x = ln (k_lk s) x) /\ lp k = lp (k_lk s))
    (set_wq (fupd (k_wq s) t None) s)).
  { destruct A as [|a A _] using rev_ind.
    - destruct HA as [_ ->]. simpl. krun. eexists. split; [reflexivity|]. ksimpl.
      simpl. rewrite fupd_eq. split_and!; try done. intros. by rewrite fupd_ne.
    - pose proof (dseg_last _ _ _ _ _ _ _ HA) as Ea. rewrite last_snoc in Ea. simpl in Ea. rewrite Ea in *. clear y Ea.
      assert (Hna : a <> NULL) by (apply dseg_app in HA as (? & ? & _ & HA); simpl in HA; tauto).
      destruct (Z.eqb_spec a NULL); [done|]. cbn [negb].
      assert (Hav : a ∈ k_thr s) by (apply Hv; set_solver). krun.
      eexists. split; [reflexivity|]. ksimpl. split_and!; try done.
      + by eapply dseg_set_end.
      + apply dseg_fupd_n; [|done]. intros Hin. apply (DAB a); set_solver.
      + intros x Hx. apply fupd_ne. set_solver. }
  krun. eapply wp_mono; [exact H1|]. clear H1.
  intros _ s1 (k & -> & H1 & H2 & H3 & H4 & H5 & H6). krun.
  change (link_prev (set_lk k (set_wq (fupd (k_wq s) t None) s)) t) with (lp k t).
  change (link_next (set_lk k (set_wq (fupd (k_wq s) t None) s)) t) with (ln k t).
  rewrite H6, Hy, H5 by (intros Hin; apply (DAB t Hin); set_solver). fold m.
  (* the backward link *)
  destruct B as [|b B].
  - destruct H2 as [-> _]. simpl. krun. eexists. split; [reflexivity|].
    split; [|ksimpl; auto]. eapply (waits_drop q t A []); [done|..]; ksimpl.
    + rewrite app_nil_r, fupd_eq. done.
    + intros q' Hne. rewrite fupd_ne by done. rewrite H4. auto.
    + intros x Hx. rewrite H6, H5 by (rewrite HW in Hx; set_solver). done.
  - pose proof (dseg_head _ _ _ _ _ _ _ H2) as Em. simpl in Em. rewrite Em in *.
    assert (Hbn : b <> NULL) by (simpl in H2; tauto). destruct (Z.eqb_spec b NULL); [done|].
    cbn [negb]. assert (Hbv : b ∈ k_thr s) by (apply Hv; set_solver). krun.
    eexists. split; [reflexivity|]. split; [|ksimpl; auto].
    eapply (waits_drop q t A (b :: B)); [done|..]; ksimpl.
    + apply dseg_app. exists b, y. split.
      * apply dseg_fupd_b; [|done]. intros Hin. apply (DAB b Hin). set_solver.
      * eapply dseg_set_begin; [|done]. by apply NoDup_cons in DB2 as [? _].
    + intros q' Hne. rewrite H4. auto.
    + intros x Hx. rewrite HW in Hx. rewrite fupd_ne, H6, H5 by set_solver. done.
Qed.
End Waits.
