(* ===== verification/KSched.v ===== *)
(** * The scheduler: invariant and context switches

    The invariant of the kernel's thread structures and the scheduling
    property: the current thread (or, inside an exception, the one that will be
    current on return) is runnable and no runnable thread has a higher
    priority. *)

From stdpp Require Import base gmap list fin_maps.
From Stdlib Require Import ZArith Lia Sorted.
From S2P Require Import Prelude Chain KState KTick KThread KLists.

Open Scope Z_scope.

Create HintDb ksched.

(** ** Invariants *)

Definition running (s : kst) (t : Z) : Prop := k_state s t = KTHR_STATE_RUNNING.

(** The dynamic priority: the base priority or, if that is higher, the
    priority of the first thread that waits for a mutex the thread owns. *)
Definition dyn_prio (s : kst) (W : qref -> list Z) (t : Z) : Z :=
  match W (QWaiters t) with
  | [] => k_baseprio s t
  | w :: _ => Z.min (k_prio s w) (k_baseprio s t)
  end.

(** State, suspension count and wait queue of a live thread fit together: a
    runnable thread is not suspended and in no queue, a thread waiting for a
    mutex is in the queue of a thread, any other waiting thread is suspended or
    in a static queue. *)
Definition status_ok (x : KThrState) (n : Z) (q : option qref) : Prop :=
  0 <= n < 2 ^ 16 /\
  match x, q with
  | KTHR_STATE_RUNNING, None => n = 0
  | KTHR_STATE_WAITING, None => n <> 0
  | KTHR_STATE_WAITING, Some (QStatic _) => True
  | KTHR_STATE_WAITING_MUTEX, Some (QWaiters _) => True
  | _, _ => False
  end.

(** [L] is the list of live threads, [W] gives the members of each queue. *)
Record kbase (s : kst) (L : list Z) (W : qref -> list Z) : Prop := {
  ki_null : NULL ∉ k_thr s;
  ki_tl : tlist (k_tl s) L;
  ki_nodup : NoDup L;
  ki_valid : forall t, t ∈ L -> t ∈ k_thr s;
  ki_sorted : sorted (k_prio s) L;
  ki_waits : waits s W;
  ki_live : forall q t, t ∈ W q -> t ∈ L;
  ki_wsorted : forall q, sorted (k_prio s) (W q);
  ki_owner : forall o t, t ∈ W (QWaiters o) -> o ∈ L;
  ki_status : forall t, t ∈ L -> status_ok (k_state s t) (k_suspend s t) (k_wq s t);
}.

(** A thread in the queue of another waits for a mutex that one owns. *)
Record kinv (s : kst) (L : list Z) (W : qref -> list Z) : Prop := {
  ki_base :> kbase s L W;
  ki_token : forall o t, t ∈ W (QWaiters o) -> k_owner s (k_token s t) = o;
}.

Definition in_excpt (s : kst) : bool := Z.land (k_msr s) MSR_RI =? 0.

(** The thread that runs now or on return from the exception. *)
Definition cur (s : kst) : Z := if k_next_ctx s =? NULL then k_self s else k_next_ctx s.

(** Saved machine states of threads that can be switched to. *)
Definition ctx_ok (s : kst) (L : list Z) : Prop :=
  forall t, t ∈ L -> t <> k_self s -> Z.land (c_msr (k_ctx s t)) MSR_RI <> 0.

Definition best (s : kst) (L : list Z) (t : Z) : Prop :=
  t ∈ L /\ running s t /\ forall x, x ∈ L -> running s x -> k_prio s t <= k_prio s x.

Record sched (s : kst) (L : list Z) : Prop := {
  sc_self : k_self s ∈ L;
  sc_ctx : ctx_ok s L;
  sc_next : in_excpt s = false -> k_next_ctx s = NULL;
  sc_ne : k_next_ctx s <> k_self s;
  sc_best : best s L (cur s);
}.

(** Only processor state and saved contexts differ. *)
Definition cpu_step (s s' : kst) : Prop :=
  exists m x c f, s' = set_msr m (set_self x (set_next_ctx c (set_ctx f s))).

Lemma is_running_true x : is_running x = true <-> x = KTHR_STATE_RUNNING.
Proof. by destruct x. Qed.

(** ** Machine state bits *)

Lemma land_ldiff_disjoint m c r : Z.land c r = 0 -> Z.land (Z.ldiff m c) r = Z.land m r.
Proof.
  intros H. apply Z.bits_inj'. intros n Hn. rewrite !Z.land_spec, Z.ldiff_spec.
  assert (Hb : Z.testbit (Z.land c r) n = false) by by rewrite H, Z.bits_0.
  rewrite Z.land_spec in Hb. destruct (Z.testbit m n), (Z.testbit c n), (Z.testbit r n); done.
Qed.

Lemma land_lor_disjoint m c r : Z.land c r = 0 -> Z.land (Z.lor m c) r = Z.land m r.
Proof. intros H. by rewrite Z.land_lor_distr_l, H, Z.lor_0_r. Qed.

(** Values [PPCIrqLockByMsr] returns. *)
Definition irq_state (st : Z) : Prop := Z.land st MSR_RI = 0.

Lemma land_irq m : irq_state (Z.land m MSR_EE).
Proof. unfold irq_state. rewrite <- Z.land_assoc. apply Z.land_0_r. Qed.

Lemma unlock_excpt m st : irq_state st ->
  Z.land (Z.lor (Z.ldiff m MSR_EE) st) MSR_RI = Z.land m MSR_RI.
Proof. intros H. rewrite land_lor_disjoint by done. by apply land_ldiff_disjoint. Qed.

(** Locking and unlocking restores EE and leaves FP off. *)
Lemma lock_unlock m :
  Z.lor (Z.ldiff (Z.ldiff m (Z.lor MSR_EE MSR_FP)) MSR_EE) (Z.land m MSR_EE) = Z.ldiff m MSR_FP.
Proof.
  apply Z.bits_inj'. intros n Hn. rewrite Z.lor_spec, !Z.ldiff_spec, Z.lor_spec, Z.land_spec.
  assert (Hb : Z.testbit (Z.land MSR_EE MSR_FP) n = false) by apply Z.bits_0.
  rewrite Z.land_spec in Hb.
  destruct (Z.testbit m n), (Z.testbit MSR_EE n), (Z.testbit MSR_FP n); done.
Qed.

Lemma wp_irq_lock Q s :
  (forall st, irq_state st ->
     Z.lor (Z.ldiff (Z.ldiff (k_msr s) (Z.lor MSR_EE MSR_FP)) MSR_EE) st = Z.ldiff (k_msr s) MSR_FP ->
     Q st (set_msr (Z.ldiff (k_msr s) (Z.lor MSR_EE MSR_FP)) s)) -> wp PPCIrqLockByMsr Q s.
Proof. intros H. unfold PPCIrqLockByMsr. krun. apply H; [apply land_irq|apply lock_unlock]. Qed.

Lemma wp_irq_unlock st Q s :
  Q tt (set_msr (Z.lor (Z.ldiff (k_msr s) MSR_EE) st) s) -> wp (PPCIrqUnlockByMsr st) Q s.
Proof. intros H. unfold PPCIrqUnlockByMsr. by krun. Qed.

(** ** The invariant and processor state *)

Lemma waits_ext s s' W :
  k_lk s' = k_lk s -> k_thr s' = k_thr s -> k_wq s' = k_wq s -> waits s W -> waits s' W.
Proof. intros E1 E2 E3 [H1 H2 H3]. split; rewrite ?E1, ?E2, ?E3; done. Qed.

(** The thread structures do not involve the processor. *)
Lemma kinv_cpu s s' L W : cpu_step s s' -> kinv s L W -> kinv s' L W.
Proof.
  intros (m & x & c & f & ->) [ [] ?]. split; [split|]; try done. by apply (waits_ext s).
Qed.

Lemma cpu_step_trans s1 s2 s3 : cpu_step s1 s2 -> cpu_step s2 s3 -> cpu_step s1 s3.
Proof. intros (m & x & c & f & ->) (m' & x' & c' & f' & ->). by exists m', x', c', f'. Qed.

Lemma cpu_step_msr s m : cpu_step s (set_msr m s).
Proof. exists m, (k_self s), (k_next_ctx s), (k_ctx s). by destruct s. Qed.

Lemma cpu_step_next s x : cpu_step s (set_next_ctx x s).
Proof. exists (k_msr s), (k_self s), x, (k_ctx s). by destruct s. Qed.

Lemma cpu_step_refl s : cpu_step s s.
Proof. exists (k_msr s), (k_self s), (k_next_ctx s), (k_ctx s). by destruct s. Qed.

#[export] Hint Resolve cpu_step_msr cpu_step_next cpu_step_refl kinv_cpu : ksched.

Lemma sched_msr s L m : Z.land m MSR_RI = Z.land (k_msr s) MSR_RI -> sched s L -> sched (set_msr m s) L.
Proof.
  intros H [H1 H2 H3 H4 H5]. split; try done. unfold in_excpt. ksimpl. by rewrite H.
Qed.

Lemma cur_self s : k_next_ctx s = NULL -> cur s = k_self s.
Proof. unfold cur. by intros ->. Qed.

(** ** Context switches *)

(** What a switch to [t] needs: [t] is runnable, and every runnable thread is
    no better than [t] or than the thread already chosen. *)
Record switchable (s : kst) (L : list Z) (t : Z) : Prop := {
  sw_self : k_self s ∈ k_thr s;
  sw_null : NULL ∉ k_thr s;
  sw_valid : forall x, x ∈ L -> x ∈ k_thr s;
  sw_ctx : ctx_ok s L;
  sw_next : in_excpt s = false -> k_next_ctx s = NULL;
  sw_chosen : k_next_ctx s <> NULL -> k_next_ctx s ∈ L /\ running s (k_next_ctx s);
  sw_in : t ∈ L;
  sw_run : running s t;
  sw_best : forall x, x ∈ L -> running s x ->
    k_prio s t <= k_prio s x \/ (k_next_ctx s <> NULL /\ k_prio s (k_next_ctx s) <= k_prio s x);
}.

(** The outcome of an operation: the processor state changed, the scheduling
    property holds, and the thread either goes on or was switched out with its
    saved machine state as on return. *)
Definition switched (s : kst) (L : list Z) (ret : bool) (s' : kst) : Prop :=
  cpu_step s s' /\ best s' L (cur s') /\ ctx_ok s' L /\
  (in_excpt s' = false -> k_next_ctx s' = NULL) /\
  (if ret then k_self s' = k_self s /\ in_excpt s' = in_excpt s
   else in_excpt s = false /\ in_excpt s' = false /\ k_self s' = cur s').


Lemma wp_jump t Q s :
  t ∈ k_thr s ->
  (forall m, Z.land m MSR_RI = Z.land (c_msr (k_ctx s t)) MSR_RI ->
     Q tt (set_msr m (set_self t (set_next_ctx NULL s)))) ->
  wp (PPCContextJump t) Q s.
Proof.
  intros Ht H. unfold PPCContextJump. krun. apply H.
  destruct (k_fpu s =? t); [rewrite land_lor_disjoint by done|]; by apply land_ldiff_disjoint.
Qed.

Lemma switch_spec s L t st :
  switchable s L t -> irq_state st ->
  wpk (KThreadSwitchTo t st)
    (fun _ s' => switched s L true s' /\ k_msr s' = Z.lor (Z.ldiff (k_msr s) MSR_EE) st /\
       (k_next_ctx s' = t \/ k_next_ctx s' = k_next_ctx s) /\ in_excpt s = true)
    (fun _ s' => switched s L false s' /\ k_self s' = t /\
       (k_self s <> t -> c_msr (k_ctx s' (k_self s)) = Z.lor (Z.ldiff (k_msr s) MSR_EE) st)) s.
Proof.
  intros [H1 H2 H3 H4 H5 H6 H7 H8 H9] Hst. unfold KThreadSwitchTo. krun.
  change (Z.land (k_msr s) MSR_RI =? 0) with (in_excpt s). destruct (in_excpt s) eqn:Ex.
  - assert (Hend : forall nc, nc ∈ L -> nc <> NULL -> running s nc ->
      (forall x, x ∈ L -> running s x -> k_prio s nc <= k_prio s x) ->
      nc = t \/ nc = k_next_ctx s ->
      wp (PPCIrqUnlockByMsr st)
        (fun _ s' => switched s L true s' /\ k_msr s' = Z.lor (Z.ldiff (k_msr s) MSR_EE) st /\
           (k_next_ctx s' = t \/ k_next_ctx s' = k_next_ctx s) /\ true = true)
        (set_next_ctx nc s)).
    { intros nc N1 N2 N3 N4 N5. apply wp_irq_unlock.
      change (k_msr (set_next_ctx nc s)) with (k_msr s). split; [|done].
      assert (Ein : forall x, in_excpt (set_msr (Z.lor (Z.ldiff (k_msr s) MSR_EE) st) x) = true).
      { intros x. unfold in_excpt in *. ksimpl. by rewrite unlock_excpt. }
      split_and!.
      - by eexists _, _, _, _.
      - unfold best, cur. ksimpl. destruct (Z.eqb_spec nc NULL); [done|]. by split_and!.
      - exact H4.
      - by rewrite Ein.
      - done.
      - by rewrite Ein. }
    assert (Htn : t <> NULL) by (intros ->; auto). krun.
    destruct (Z.eqb_spec (k_next_ctx s) NULL) as [En|En].
    + krun. apply Hend; try done; [|by left]. intros x X1 X2. destruct (H9 x X1 X2) as [?|[? _] ]; done.
    + destruct (H6 En) as [N1 N2]. assert (Htv := H3 _ H7). assert (Hnv := H3 _ N1). krun.
      destruct (Z.ltb_spec (k_prio s t) (k_prio s (k_next_ctx s))) as [Hlt|Hge]; cbn [when]; krun.
      * apply Hend; try done; [|by left]. intros x X1 X2. destruct (H9 x X1 X2); lia.
      * specialize (Hend (k_next_ctx s) N1 En N2).
        assert (Hs : set_next_ctx (k_next_ctx s) s = s) by by destruct s. rewrite Hs in Hend.
        apply Hend; [|by right]. intros x X1 X2. destruct (H9 x X1 X2); lia.
  - unfold PPCContextPrepareToJump. krun. apply wpk_switch, wp_jump; [ksimpl; auto|].
    assert (Hri : forall x, Z.land (c_msr (fupd (k_ctx s) (k_self s)
        (mk_ctx (c_pc (k_ctx s (k_self s))) (Z.lor (Z.ldiff (k_msr s) MSR_EE) st)
          (c_lr (k_ctx s (k_self s))) (c_gpr1 (k_ctx s (k_self s))) (c_gpr2 (k_ctx s (k_self s)))
          (c_gpr3 (k_ctx s (k_self s))) (c_gpr13 (k_ctx s (k_self s)))) x)) MSR_RI <> 0
        \/ x ∉ L).
    { intros x. destruct (decide (x ∈ L)); [left|by right]. destruct (decide (x = k_self s)) as [->|Hne].
      - rewrite fupd_eq. simpl. rewrite unlock_excpt by done. unfold in_excpt in Ex. lia.
      - rewrite fupd_ne by done. by apply H4. }
    intros m. ksimpl. intros Hm. split; [|split; [done|] ].
    + assert (Ein : Z.land m MSR_RI =? 0 = false).
      { destruct (Hri t) as [Hr|]; [|done]. rewrite <- Hm in Hr. lia. }
      split; [by exists m, t, NULL, (fupd (k_ctx s) (k_self s) (mk_ctx (c_pc (k_ctx s (k_self s)))
        (Z.lor (Z.ldiff (k_msr s) MSR_EE) st) (c_lr (k_ctx s (k_self s))) (c_gpr1 (k_ctx s (k_self s)))
        (c_gpr2 (k_ctx s (k_self s))) (c_gpr3 (k_ctx s (k_self s))) (c_gpr13 (k_ctx s (k_self s)))))|].
      split; [|split; [|done] ].
      * unfold cur. ksimpl. split_and!; [done|exact H8|]. intros x X1 X2.
        destruct (H9 x X1 X2) as [?|[Hc _] ]; [done|]. destruct (Hc (H5 eq_refl)).
      * intros x X1 _. destruct (Hri x); [done|tauto].
    + intros Hne. ksimpl. rewrite fupd_eq. done.
Qed.

(** ** Outcomes of operations *)

(** One postcondition for both ways an operation ends: [true] if it returned,
    [false] if it was switched out. *)
Definition wpb {A} (c : K A) (P : bool -> kst -> Prop) (s : kst) : Prop :=
  wpk c (fun _ s' => P true s') (fun _ s' => P false s') s.

Lemma wpb_mono {A} (c : K A) (P P' : bool -> kst -> Prop) s :
  wpb c P s -> (forall b s', P b s' -> P' b s') -> wpb c P' s.
Proof. intros H HP. eapply wpk_mono; [exact H|auto..]. Qed.

(** An operation called in [s0] whose effect on the threads is [s1]: the
    scheduling property holds, and either the caller goes on with its interrupt
    state restored (FP off), or another thread runs and the caller's saved
    machine state is what it would have been on return. *)
Definition outcome (s0 s1 : kst) (L : list Z) (b : bool) (s' : kst) : Prop :=
  cpu_step s1 s' /\ sched s' L /\
  (if b then k_self s' = k_self s0 /\ k_msr s' = Z.ldiff (k_msr s0) MSR_FP
   else in_excpt s0 = false /\ in_excpt s' = false /\ k_self s' <> k_self s0 /\
        c_msr (k_ctx s' (k_self s0)) = Z.ldiff (k_msr s0) MSR_FP).

(** What the operations of a thread guarantee to the others: no runnable thread
    other than [d] stops, a thread that waits for a mutex goes on waiting for it
    or now owns it, and no mutex of another thread changes hands. *)
Definition calm (d : Z) (s s' : kst) : Prop :=
  k_thr s' = k_thr s /\
  (forall x, x <> d -> running s x -> running s' x) /\
  (forall x o, x ∈ k_thr s -> k_wq s x = Some (QWaiters o) ->
     (exists o', k_wq s' x = Some (QWaiters o')) /\ k_token s' x = k_token s x \/
     k_owner s' (k_token s x) = x) /\
  (forall m, k_owner s m <> NULL -> k_owner s m <> k_self s -> k_owner s' m = k_owner s m).

(** Enough for the operations that leave the mutexes and their waiters alone. *)
Lemma calm_intro d s s' :
  k_thr s' = k_thr s -> k_owner s' = k_owner s -> (forall x, x <> d -> running s x -> running s' x) ->
  (forall x o, x ∈ k_thr s -> k_wq s x = Some (QWaiters o) ->
     (exists o', k_wq s' x = Some (QWaiters o')) /\ k_token s' x = k_token s x) -> calm d s s'.
Proof. intros E1 E2 H1 H2. split_and!; try done; [|by rewrite E2]. intros x o Hx Ho. left. by eapply H2. Qed.

Lemma calm_refl d s : calm d s s.
Proof. apply calm_intro; eauto. Qed.

Lemma calm_cpu d s s1 s' : cpu_step s1 s' -> calm d s s1 -> calm d s s'.
Proof. by intros (? & ? & ? & ? & ->). Qed.

Lemma outcome_calm d s0 s1 L b s' :
  outcome s0 s1 L b s' -> in_excpt s0 = false -> calm d s0 s1 -> calm d s0 s' /\ in_excpt s' = false.
Proof.
  intros (H1 & _ & H2) He Hc. split; [by eapply calm_cpu|].
  destruct b; [|tauto]. destruct H2 as [_ Hm]. unfold in_excpt in *. rewrite Hm. by rewrite land_ldiff_disjoint.
Qed.

(** Between lock and unlock: [st] restores the interrupt state of [s0]. *)
Record locked (s0 s1 s : kst) (st : Z) : Prop := {
  lk_step : cpu_step s1 s;
  lk_irq : irq_state st;
  lk_self : k_self s = k_self s0;
  lk_excpt : Z.land (k_msr s) MSR_RI = Z.land (k_msr s0) MSR_RI;
  lk_msr : Z.lor (Z.ldiff (k_msr s) MSR_EE) st = Z.ldiff (k_msr s0) MSR_FP;
}.

Lemma locked_excpt s0 s1 s st : locked s0 s1 s st -> in_excpt s = in_excpt s0.
Proof. intros H. unfold in_excpt. by rewrite (lk_excpt _ _ _ _ H). Qed.

Lemma locked_start s st :
  irq_state st ->
  Z.lor (Z.ldiff (Z.ldiff (k_msr s) (Z.lor MSR_EE MSR_FP)) MSR_EE) st = Z.ldiff (k_msr s) MSR_FP ->
  locked s s (set_msr (Z.ldiff (k_msr s) (Z.lor MSR_EE MSR_FP)) s) st.
Proof.
  intros H1 H2. split; try done; [auto with ksched|]. ksimpl. by apply land_ldiff_disjoint.
Qed.

Lemma switch_outcome_to s0 s1 s L t st :
  switchable s L t -> k_self s ∈ L -> k_next_ctx s <> k_self s -> t <> k_self s -> locked s0 s1 s st ->
  wpk (KThreadSwitchTo t st) (fun _ s' => outcome s0 s1 L true s' /\ in_excpt s0 = true)
    (fun _ s' => outcome s0 s1 L false s' /\ k_self s' = t) s.
Proof.
  intros Hsw Hself Hnc Hne Hl. assert (He := locked_excpt _ _ _ _ Hl). destruct Hl as [L1 L2 L3 L4 L5].
  eapply wpk_mono; [by apply switch_spec|..].
  - intros _ s' ((S1 & S2 & S3 & S4 & S5 & S6) & S7 & S8 & S9). split; [|congruence].
    split; [by eapply cpu_step_trans|]. split.
    + split; try done; rewrite S5; [done|]. by destruct S8 as [-> | ->].
    + by rewrite S5, L3, S7, L5.
  - intros _ s' ((S1 & S2 & S3 & S4 & S5 & S6 & S7) & S8 & S9). split; [|done].
    split; [by eapply cpu_step_trans|]. split.
    + split; try done; rewrite S8; [apply (sw_in _ _ _ Hsw)|]. rewrite S4 by done. intros <-.
      by apply (sw_null _ _ _ Hsw), (sw_valid _ _ _ Hsw), (sw_in _ _ _ Hsw).
    + rewrite <- He, S8, <- L3, S9, L5 by congruence. done.
Qed.

Lemma switch_outcome s0 s1 s L t st :
  switchable s L t -> k_self s ∈ L -> k_next_ctx s <> k_self s -> t <> k_self s -> locked s0 s1 s st ->
  wpb (KThreadSwitchTo t st) (outcome s0 s1 L) s.
Proof.
  intros. eapply wpk_mono; [by apply (switch_outcome_to s0 s1)|..]; by intros ? ? [? _].
Qed.

Lemma unlock_outcome s0 s1 s L st :
  sched s L -> locked s0 s1 s st ->
  wp (PPCIrqUnlockByMsr st) (fun _ s' => outcome s0 s1 L true s') s.
Proof.
  intros Hs [L1 L2 L3 L4 L5]. apply wp_irq_unlock. split; [|split; [|by rewrite L5] ].
  - eapply cpu_step_trans; [exact L1|auto with ksched].
  - apply sched_msr; [by apply unlock_excpt|done].
Qed.

(** ** Rescheduling after threads became runnable *)

(** [s] is a state that satisfied the scheduling property before some threads,
    the best of which is [t] (or none, NULL), became runnable. *)
Record resched (s : kst) (L : list Z) (t : Z) : Prop := {
  rs_null : NULL ∉ k_thr s;
  rs_valid : forall x, x ∈ L -> x ∈ k_thr s;
  rs_self : k_self s ∈ L;
  rs_ctx : ctx_ok s L;
  rs_next : in_excpt s = false -> k_next_ctx s = NULL;
  rs_ne : k_next_ctx s <> k_self s;
  rs_cur : cur s ∈ L /\ running s (cur s) /\ k_prio s (cur s) <= k_prio s (k_self s);
  rs_t : t <> NULL -> t ∈ L /\ running s t;
  rs_best : forall x, x ∈ L -> running s x ->
    k_prio s (cur s) <= k_prio s x \/ (t <> NULL /\ k_prio s t <= k_prio s x);
}.

Lemma reschedule_outcome s0 s1 s L t st :
  resched s L t -> locked s0 s1 s st -> wpb (KThreadReschedule t st) (outcome s0 s1 L) s.
Proof.
  intros [R1 R2 R3 R4 R5 R6 (C1 & C2 & C3) R7 R8] Hl. assert (Hself := R2 _ R3).
  assert (Hun : (forall x, x ∈ L -> running s x -> k_prio s (cur s) <= k_prio s x) ->
    wp (PPCIrqUnlockByMsr st) (fun _ s' => outcome s0 s1 L true s') s).
  { intros Hb. by apply unlock_outcome. }
  unfold wpb, KThreadReschedule. destruct (Z.eqb_spec t NULL) as [->|Hn].
  - krun. apply Hun. intros x X1 X2. destruct (R8 x X1 X2) as [|[? _] ]; done.
  - destruct (R7 Hn) as [T1 T2]. assert (Htv := R2 _ T1). krun.
    destruct (Z.ltb_spec (k_prio s t) (k_prio s (k_self s))) as [Hlt|Hge].
    + apply switch_outcome; try done; [|intros ->; lia]. split; try done.
      * intros Hc. unfold cur in C1, C2. destruct (Z.eqb_spec (k_next_ctx s) NULL); done.
      * intros x X1 X2. destruct (R8 x X1 X2) as [Hx|[_ Hx] ]; [|by left].
        unfold cur in Hx. destruct (Z.eqb_spec (k_next_ctx s) NULL); [left; lia|by right].
    + apply wpk_lift, Hun. intros x X1 X2. destruct (R8 x X1 X2) as [|[_ ?] ]; lia.
Qed.

(** The scheduling property and a set of threads made runnable. *)
Lemma resched_from s s' L t :
  sched s L -> running s (k_self s) -> NULL ∉ k_thr s -> (forall x, x ∈ L -> x ∈ k_thr s) ->
  k_thr s' = k_thr s -> k_self s' = k_self s -> k_next_ctx s' = k_next_ctx s ->
  k_ctx s' = k_ctx s -> k_prio s' = k_prio s ->
  Z.land (k_msr s') MSR_RI = Z.land (k_msr s) MSR_RI ->
  (forall x, x ∈ L -> running s x -> running s' x) ->
  (t <> NULL -> t ∈ L /\ running s' t) ->
  (forall x, x ∈ L -> running s' x -> running s x \/ (t <> NULL /\ k_prio s t <= k_prio s x)) ->
  resched s' L t.
Proof.
  intros [S1 S2 S3 S4 (B1 & B2 & B3)] Hr Hn Hv E1 E2 E3 E4 E5 E6 Hrun Ht Hnew.
  assert (Ec : cur s' = cur s) by (unfold cur; by rewrite E2, E3).
  split; rewrite ?Ec, ?E1, ?E2, ?E3, ?E5; try done.
  - intros x. rewrite E2, E4. apply S2.
  - unfold in_excpt. by rewrite E6.
  - split_and!; auto.
  - intros x X1 X2. destruct (Hnew x X1 X2) as [?|?]; auto.
Qed.
