(* ===== verification/KSchedOps.v ===== *)
(** * Scheduler operations

    Resuming, suspending, yielding, blocking and waking: the effect of each
    operation on the thread structures, its invariant and the scheduling
    property. *)

From stdpp Require Import base gmap list fin_maps.
From Stdlib Require Import ZArith Lia Sorted.
From S2P Require Import Prelude Chain KState KTick KThread KLists KSched.

Open Scope Z_scope.

(** The kernel at rest: invariant and scheduling property. *)
Definition kernel (s : kst) (L : list Z) (W : qref -> list Z) : Prop := kinv s L W /\ sched s L.

(** Start of an operation: interrupts are locked. *)
Ltac lock st Hl :=
  apply wpk_lift_bind, wp_irq_lock;
  let H1 := fresh in let H2 := fresh in
  intros st H1 H2; pose proof (locked_start _ _ H1 H2) as Hl; clear H1 H2.

(** The machine state register changes, nothing else. *)
Ltac gen_msr s m :=
  lazymatch goal with |- context [set_msr ?x s] => generalize dependent x; intros m end.

(** ** Effects *)

Definition with_state (t : Z) (x : KThrState) (s : kst) : kst :=
  set_state (fupd (k_state s) t x) s.
Definition with_suspend (t n : Z) (s : kst) : kst := set_suspend (fupd (k_suspend s) t n) s.
Definition with_token (t n : Z) (s : kst) : kst := set_token (fupd (k_token s) t n) s.
Definition with_wq (t : Z) (q : option qref) (s : kst) : kst := set_wq (fupd (k_wq s) t q) s.

(** Changes of the status of one thread. *)
Lemma kinv_status s L W t x n :
  kinv s L W -> status_ok x n (k_wq s t) -> kinv (with_state t x (with_suspend t n s)) L W.
Proof.
  intros [ [] ?] H. split; [split|]; try done; [by apply (waits_ext s)|].
  intros y Hy. unfold with_state, with_suspend. ksimpl.
  destruct (decide (y = t)) as [->|Hne]; [by rewrite !fupd_eq|]. rewrite !fupd_ne by done. auto.
Qed.

Lemma kinv_suspend s L W t n :
  kinv s L W -> status_ok (k_state s t) n (k_wq s t) -> kinv (with_suspend t n s) L W.
Proof.
  intros [ [] ?] H. split; [split|]; try done; [by apply (waits_ext s)|].
  intros y Hy. unfold with_suspend. ksimpl.
  destruct (decide (y = t)) as [->|Hne]; [by rewrite !fupd_eq|]. rewrite !fupd_ne by done. auto.
Qed.

Lemma status_running s L W t :
  kinv s L W -> t ∈ L -> running s t -> k_wq s t = None /\ k_suspend s t = 0.
Proof.
  intros Hk Ht Hr. pose proof (ki_status _ _ _ Hk t Ht) as [_ H]. rewrite Hr in H.
  by destruct (k_wq s t).
Qed.

(** ** Resuming *)

Definition resume_effect (t : Z) (s : kst) : kst :=
  if k_suspend s t =? 0 then s else
  let s1 := with_suspend t (k_suspend s t - 1) s in
  if (k_suspend s t - 1 =? 0) && bool_decide (k_wq s t = None)
  then with_state t KTHR_STATE_RUNNING s1 else s1.

Lemma resume_kinv s L W t : kinv s L W -> t ∈ L -> kinv (resume_effect t s) L W.
Proof.
  intros Hk Ht. unfold resume_effect. destruct (Z.eqb_spec (k_suspend s t) 0) as [|Hn]; [done|].
  pose proof (ki_status _ _ _ Hk t Ht) as [H1 H2].
  destruct (Z.eqb_spec (k_suspend s t - 1) 0) as [E|E]; simpl.
  - destruct (k_wq s t) as [q|] eqn:Eq.
    + rewrite bool_decide_false by done. apply kinv_suspend; [done|]. rewrite Eq.
      split; [lia|]. by destruct (k_state s t).
    + rewrite bool_decide_true by done. apply kinv_status; [done|]. rewrite Eq. split; lia.
  - apply kinv_suspend; [done|]. split; [lia|].
    destruct (k_state s t), (k_wq s t) as [ []|]; try done; lia.
Qed.

Lemma outcome_kernel s0 s1 L W b s' : outcome s0 s1 L b s' -> kinv s1 L W -> kernel s' L W.
Proof. intros (H1 & H2 & _) Hk. split; [by eapply kinv_cpu|done]. Qed.

(** A locked operation that changed the threads from [s] to [u]. *)
Lemma locked_effect s st u m :
  locked s s (set_msr m s) st -> (forall x, u (set_msr x s) = set_msr x (u s)) ->
  k_self (u s) = k_self s -> locked s (u s) (u (set_msr m s)) st.
Proof.
  intros [H1 H2 H3 H4 H5] Hu Hself. rewrite Hu. split; try done. auto with ksched.
Qed.

(** One more runnable thread. *)
Lemma resched_running s s' L W t :
  kernel s L W -> running s (k_self s) -> t ∈ L ->
  k_thr s' = k_thr s -> k_self s' = k_self s -> k_next_ctx s' = k_next_ctx s ->
  k_ctx s' = k_ctx s -> k_prio s' = k_prio s ->
  Z.land (k_msr s') MSR_RI = Z.land (k_msr s) MSR_RI ->
  k_state s' = fupd (k_state s) t KTHR_STATE_RUNNING -> resched s' L t.
Proof.
  intros [Hk Hs] Hr Ht E1 E2 E3 E4 E5 E6 E7.
  assert (Htn : t <> NULL) by (intros ->; by apply (ki_null _ _ _ Hk), (ki_valid _ _ _ Hk)).
  apply (resched_from s); try done.
  - apply (ki_null _ _ _ Hk).
  - apply (ki_valid _ _ _ Hk).
  - intros x _ Hx. unfold running. rewrite E7. destruct (decide (x = t)) as [->|]; [apply fupd_eq|].
    by rewrite fupd_ne.
  - intros _. split; [done|]. unfold running. rewrite E7. apply fupd_eq.
  - intros x _. unfold running. rewrite E7. destruct (decide (x = t)) as [->|Hne]; [right; lia|].
    rewrite fupd_ne by done. by left.
Qed.

(** The interrupted thread is resumed before the exception returns. *)
Lemma resume_self s L W s1 st m :
  kernel s L W -> k_suspend s (k_self s) <> 0 ->
  let s' := with_state (k_self s) KTHR_STATE_RUNNING
              (with_suspend (k_self s) (k_suspend s (k_self s) - 1) (set_msr m s)) in
  locked s s1 s' st ->
  wpk (lift (tp <- rd k_prio (k_self s);
             nc <- gets k_next_ctx;
             np <- rd k_prio nc;
             when (tp <? np) (modify (set_next_ctx NULL));; PPCIrqUnlockByMsr st))
    (fun _ s' => outcome s s1 L true s') (fun _ s' => outcome s s1 L false s') s'.
Proof.
  intros [Hk [S1 S2 S3 S4 (B1 & B2 & B3)] ] Hsus s' Hl.
  assert (Hsv := ki_valid _ _ _ Hk _ S1).
  assert (Hnr : ~ running s (k_self s)).
  { intros Hr. by destruct (status_running _ _ _ _ Hk S1 Hr). }
  assert (Hnc : k_next_ctx s <> NULL).
  { intros Hc. apply Hnr. by rewrite <- (cur_self s Hc). }
  assert (Hex : in_excpt s = true) by (destruct (in_excpt s); [done|by destruct Hnc; apply S3]).
  assert (Hcur : cur s = k_next_ctx s) by (unfold cur; by destruct (Z.eqb_spec (k_next_ctx s) NULL)).
  rewrite Hcur in B1, B2, B3. assert (Hcv := ki_valid _ _ _ Hk _ B1).
  assert (Hne : k_next_ctx s <> k_self s) by (intros E; by rewrite E in B2).
  krun. subst s'. unfold with_state, with_suspend in *. ksimpl.
  destruct (Z.ltb_spec (k_prio s (k_self s)) (k_prio s (k_next_ctx s))) as [Hlt|Hge]; cbn [when]; krun.
  - apply unlock_outcome.
    + split; try done; [ksimpl; intros E; rewrite <- E in Hsv; by apply (ki_null _ _ _ Hk)|].
      unfold best, cur, running. ksimpl. simpl. split_and!; [done|by apply fupd_eq|].
      intros x X1. destruct (decide (x = k_self s)) as [->|Hx]; [lia|].
      rewrite fupd_ne by done. intros X2. specialize (B3 x X1 X2). lia.
    + destruct Hl as [L1 L2 L3 L4 L5]. split; try done.
      eapply cpu_step_trans; [exact L1|apply cpu_step_next].
  - apply unlock_outcome; [|done]. split; try done.
    + pose proof (locked_excpt _ _ _ _ Hl) as He. rewrite Hex in He. intros E.
      by assert (true = false) by (etransitivity; [symmetry; exact He|exact E]).
    + unfold best, cur, running. ksimpl. destruct (Z.eqb_spec (k_next_ctx s) NULL); [done|].
      split_and!; [done|by rewrite fupd_ne|].
      intros x X1. destruct (decide (x = k_self s)) as [->|Hx]; [lia|].
      rewrite fupd_ne by done. intros X2. by apply B3.
Qed.

Lemma resume_spec s L W t :
  kernel s L W -> t ∈ L -> running s (k_self s) \/ t = k_self s ->
  wpb (KThreadResume t) (outcome s (resume_effect t s) L) s.
Proof.
  intros [Hk Hs] Ht Hrs. assert (Htv := ki_valid _ _ _ Hk t Ht).
  pose proof (ki_status _ _ _ Hk t Ht) as [Hn Hst].
  unfold KThreadResume, wpb. kstep. kstep. lock st Hl. gen_msr s m. intros Hl.
  assert (Hsl : sched (set_msr m s) L) by (apply sched_msr; [apply (lk_excpt _ _ _ _ Hl)|done]).
  unfold resume_effect. kstep. krun. ksimpl. destruct (Z.eqb_spec (k_suspend s t) 0) as [E0|E0].
  { krun. by apply (unlock_outcome s). }
  krun. ksimpl. rewrite fupd_eq, wrap_small by lia.
  destruct (Z.eqb_spec (k_suspend s t - 1) 0) as [E1|E1]; cbn [negb andb].
  - krun. ksimpl. destruct (k_wq s t) as [q|] eqn:Eq.
    + rewrite bool_decide_true, bool_decide_false by done. krun.
      apply unlock_outcome; [|by apply (locked_effect s _ (with_suspend t (k_suspend s t - 1)))].
      destruct Hsl; by split.
    + rewrite bool_decide_false, bool_decide_true by naive_solver. krun.
      set (s1 := with_state t KTHR_STATE_RUNNING (with_suspend t (k_suspend s t - 1) s)).
      change (set_state _ _) with (with_state t KTHR_STATE_RUNNING
        (with_suspend t (k_suspend s t - 1) (set_msr m s))).
      assert (Hl1 : locked s s1 (with_state t KTHR_STATE_RUNNING
        (with_suspend t (k_suspend s t - 1) (set_msr m s))) st).
      { by apply (locked_effect s _ (fun s => with_state t KTHR_STATE_RUNNING
          (with_suspend t (k_suspend s t - 1) s))). }
      destruct (Z.eqb_spec t (k_self s)) as [->|Hne]; cbn [negb].
      * by apply (resume_self s L W).
      * destruct Hrs as [Hrs|?]; [|done]. apply reschedule_outcome; [|done].
        apply (resched_running s _ L W); try done. apply (lk_excpt _ _ _ _ Hl).
  - krun. apply unlock_outcome; [|by apply (locked_effect s _ (with_suspend t (k_suspend s t - 1)))].
    destruct Hsl; by split.
Qed.

(** ** Choosing a thread *)

(** The first running thread of the sorted list is a best one. *)
Lemma first_running_best s L :
  sorted (k_prio s) L -> (exists x, x ∈ L /\ running s x) -> best s L (first_running (k_state s) L).
Proof.
  unfold running. induction 1 as [|a L Hs IH Hf]; intros (x & Hx & Hr); [by apply not_elem_of_nil in Hx|].
  cbn [first_running]. destruct (is_running (k_state s a)) eqn:E.
  - apply is_running_true in E. split_and!; [set_solver|done|].
    intros y [->|Hy]%elem_of_cons _; [lia|]. rewrite Forall_forall in Hf. auto.
  - assert (Hne : k_state s a <> KTHR_STATE_RUNNING) by (intros E'; by rewrite E' in E).
    assert (Hex : exists x, x ∈ L /\ k_state s x = KTHR_STATE_RUNNING).
    { exists x. split; [|done]. apply elem_of_cons in Hx as [->|]; done. }
    destruct (IH Hex) as (I1 & I2 & I3). split_and!; [set_solver|done|].
    intros y [->|Hy]%elem_of_cons Hyr; [done|auto].
Qed.

(** [KThreadFindRunnable(s_firstThread)]. *)
Lemma find_first_spec s L W Q :
  kinv s L W -> (exists x, x ∈ L /\ running s x) ->
  (forall t, best s L t -> t = first_running (k_state s) L -> Q t s) ->
  wp (bind s_firstThread KThreadFindRunnable) Q s.
Proof.
  intros Hk Hx HQ. unfold s_firstThread. krun.
  eapply wp_mono; [apply (find_runnable_spec s L (ki_tl _ _ _ Hk) (ki_nodup _ _ _ Hk) (ki_valid _ _ _ Hk) [] L); try done|].
  - apply (ki_tl _ _ _ Hk).
  - intros t s' [-> ->]. apply HQ; [|done]. apply first_running_best; [apply (ki_sorted _ _ _ Hk)|done].
Qed.

(** ** Suspending *)

Definition suspend_effect (t : Z) (s : kst) : kst :=
  let s1 := with_suspend t (k_suspend s t + 1) s in
  if (k_suspend s t =? 0) && is_running (k_state s t)
  then with_wq t None (with_state t KTHR_STATE_WAITING s1) else s1.

Lemma waits_wq_same s W t q : waits s W -> k_wq s t = q -> waits (with_wq t q s) W.
Proof.
  intros [H1 H2 H3] <-. split; try done. intros q x. unfold with_wq. ksimpl.
  destruct (decide (x = t)) as [->|Hne]; [rewrite fupd_eq|rewrite fupd_ne by done]; apply H3.
Qed.

Lemma suspend_kinv s L W t :
  kinv s L W -> t ∈ L -> k_suspend s t + 1 < 2 ^ 16 -> kinv (suspend_effect t s) L W.
Proof.
  intros Hk Ht Hb. unfold suspend_effect. pose proof (ki_status _ _ _ Hk t Ht) as [H1 H2].
  destruct (is_running (k_state s t)) eqn:E.
  - apply is_running_true in E. destruct (status_running _ _ _ _ Hk Ht E) as [Eq Es]. rewrite Es. simpl.
    assert (Hk' : kinv (with_state t KTHR_STATE_WAITING (with_suspend t (0 + 1) s)) L W).
    { apply kinv_status; [done|]. rewrite Eq. split; lia. }
    destruct Hk' as [ [] ?]. split; [split|]; try done; [by apply waits_wq_same|].
    intros y Hy. unfold with_wq. ksimpl. destruct (decide (y = t)) as [->|Hne].
    + rewrite fupd_eq, <- Eq. auto.
    + rewrite fupd_ne by done. auto.
  - rewrite andb_false_r. apply kinv_suspend; [done|]. split; [lia|].
    destruct (k_state s t), (k_wq s t) as [ []|]; try done; lia.
Qed.

(** A thread was taken out of the runnable ones. *)
Record stopped (s s' : kst) (L : list Z) (t : Z) : Prop := {
  sp_thr : k_thr s' = k_thr s;
  sp_self : k_self s' = k_self s;
  sp_next : k_next_ctx s' = k_next_ctx s;
  sp_ctx : k_ctx s' = k_ctx s;
  sp_prio : k_prio s' = k_prio s;
  sp_msr : Z.land (k_msr s') MSR_RI = Z.land (k_msr s) MSR_RI;
  sp_run : forall x, x ∈ L -> (running s' x <-> running s x /\ x <> t);
}.

Lemma stopped_switchable s s' L W t x :
  kernel s L W -> stopped s s' L t -> t = k_self s -> best s' L x -> switchable s' L x.
Proof.
  intros [Hk [S1 S2 S3 S4 (B1 & B2 & B3)] ] [P1 P2 P3 P4 P5 P6 P7] -> (X1 & X2 & X3).
  split; rewrite ?P1, ?P2, ?P3, ?P5; try done.
  - apply (ki_valid _ _ _ Hk _ S1).
  - apply (ki_null _ _ _ Hk).
  - apply (ki_valid _ _ _ Hk).
  - intros y. rewrite P2, P4. apply S2.
  - unfold in_excpt. by rewrite P6.
  - intros Hc. unfold cur in B1, B2. destruct (Z.eqb_spec (k_next_ctx s) NULL); [done|].
    split; [done|]. by apply P7.
  - intros y Y1 Y2. rewrite <- P5. left. auto.
Qed.

(** A thread that is not the current one stops. *)
Lemma stopped_sched s s' L t :
  sched s L -> stopped s s' L t -> t <> cur s -> sched s' L.
Proof.
  intros [S1 S2 S3 S4 (B1 & B2 & B3)] [P1 P2 P3 P4 P5 P6 P7] Hne.
  assert (Ec : cur s' = cur s) by (unfold cur; by rewrite P2, P3).
  split; rewrite ?P2, ?P3; try done.
  - intros y. rewrite P2, P4. apply S2.
  - unfold in_excpt. by rewrite P6.
  - rewrite Ec. split_and!; [done|by apply P7; auto|]. rewrite P5.
    intros x X1 X2%P7; [|done]. apply B3; tauto.
Qed.

(** The thread chosen to run on return from the exception stops. *)
Lemma stopped_next s s' L W t x :
  kernel s L W -> stopped s s' L t -> t ∈ L -> t = k_next_ctx s -> best s' L x ->
  sched (set_next_ctx (if negb (x =? k_self s) then x else NULL) s') L.
Proof.
  intros [Hk [S1 S2 S3 S4 (B1 & B2 & B3)] ] [P1 P2 P3 P4 P5 P6 P7] Ht -> (X1 & X2 & X3).
  assert (Hn : forall y, y ∈ L -> y <> NULL).
  { intros y Hy ->. by apply (ki_null _ _ _ Hk), (ki_valid _ _ _ Hk). }
  assert (Hex : in_excpt s = true).
  { destruct (in_excpt s); [done|]. by destruct (Hn _ Ht); apply S3. }
  assert (Hc : cur (set_next_ctx (if negb (x =? k_self s) then x else NULL) s') = x).
  { unfold cur. ksimpl. rewrite P2. destruct (Z.eqb_spec x (k_self s)) as [->|]; simpl; [done|].
    destruct (Z.eqb_spec x NULL) as [->|]; [by destruct (Hn _ X1)|done]. }
  split; ksimpl; rewrite ?P2; try done.
  - intros y. ksimpl. rewrite P2, P4. apply S2.
  - intros E. assert (in_excpt s = false) as E' by (unfold in_excpt; by rewrite <- P6). congruence.
  - destruct (Z.eqb_spec x (k_self s)); simpl; [by apply not_eq_sym, Hn|done].
  - rewrite Hc. done.
Qed.

Lemma suspend_stopped s L m t :
  k_suspend s t = 0 -> running s t -> Z.land m MSR_RI = Z.land (k_msr s) MSR_RI ->
  stopped s (suspend_effect t (set_msr m s)) L t.
Proof.
  intros E Hr Hm. unfold suspend_effect. ksimpl. rewrite E, Hr. simpl. split; try done.
  intros x Hx. unfold running, with_wq, with_state, with_suspend. ksimpl.
  destruct (decide (x = t)) as [->|Hne]; [rewrite fupd_eq|rewrite fupd_ne by done]; naive_solver.
Qed.

Lemma suspend_spec s L W t :
  kernel s L W -> t ∈ L -> k_suspend s t + 1 < 2 ^ 16 -> (exists x, x ∈ L /\ running s x /\ x <> t) ->
  wpb (KThreadSuspend t) (outcome s (suspend_effect t s) L) s.
Proof.
  intros [Hk Hs] Ht Hb (i & Hi & Hir & Hit). assert (Htv := ki_valid _ _ _ Hk t Ht).
  pose proof (ki_status _ _ _ Hk t Ht) as [Hn _]. pose proof (suspend_kinv s L W t Hk Ht Hb) as Hk1.
  unfold KThreadSuspend, wpb. kstep. kstep. lock st Hl. gen_msr s m. intros Hl.
  assert (Hm := lk_excpt _ _ _ _ Hl). ksimpl in Hm.
  assert (Hl1 : locked s (suspend_effect t s) (suspend_effect t (set_msr m s)) st).
  { apply locked_effect; [done|..]; unfold suspend_effect; ksimpl;
      by destruct ((k_suspend s t =? 0) && is_running (k_state s t)). }
  pose proof (fun E1 E2 => suspend_stopped s L m t E1 E2 Hm) as Hsp.
  kstep. krun. ksimpl. rewrite wrap_small by lia. revert Hl1 Hsp Hk1. unfold suspend_effect. ksimpl.
  destruct (Z.eqb_spec (k_suspend s t) 0) as [E0|E0]; cbn [negb andb].
  2:{ krun. intros Hl1 _ _. apply unlock_outcome; [|done]. apply sched_msr with (m := m) in Hs; [|done].
      destruct Hs; by split. }
  destruct (is_running (k_state s t)) eqn:Er; intros Hl1 Hsp Hk1; krun; ksimpl; rewrite Er; cbn [negb].
  2:{ krun. apply unlock_outcome; [|done]. apply sched_msr with (m := m) in Hs; [|done].
      destruct Hs; by split. }
  apply is_running_true in Er. specialize (Hsp E0 Er). krun.
  match type of Hsp with stopped _ ?x _ _ => set (s1 := x) in * end.
  change (set_wq _ _) with s1. change (k_next_ctx s1) with (k_next_ctx s).
  assert (Hk2 : kinv s1 L W) by (eapply kinv_cpu; [apply (lk_step _ _ _ _ Hl1)|done]).
  assert (Hrun : exists x, x ∈ L /\ running s1 x).
  { exists i. split; [done|]. by apply (sp_run _ _ _ _ Hsp). }
  destruct (Z.eqb_spec t (k_self s)) as [Ets|Ets]; cbn [orb].
  - apply (find_first_spec s1 L W); [done..|]. intros x Hx _. apply switch_outcome; try done.
    + by apply (stopped_switchable s s1 L W t).
    + apply (sc_self _ _ Hs).
    + apply (sc_ne _ _ Hs).
    + destruct Hx as (X1 & X2 & _). apply (sp_run _ _ _ _ Hsp) in X2; [|done].
      rewrite (sp_self _ _ _ _ Hsp). naive_solver.
  - destruct (Z.eqb_spec t (k_next_ctx s)) as [Etn|Etn].
    + apply (find_first_spec s1 L W); [done..|]. intros x Hx _. cbn [when]. krun.
      apply unlock_outcome; [by apply (stopped_next s s1 L W t)|].
      destruct Hl1 as [L1 L2 L3 L4 L5]. split; try done.
      eapply cpu_step_trans; [exact L1|apply cpu_step_next].
    + krun. cbn [when]. krun. apply unlock_outcome; [|done]. apply (stopped_sched s s1 L t); try done.
      unfold cur. by destruct (k_next_ctx s =? NULL).
Qed.

(** ** Yielding *)

(** The next runnable thread behind the current one at its priority, or the
    first runnable thread of the list. *)
Definition yield_choice (s : kst) (L L2 : list Z) : Z :=
  let t := first_running (k_state s) L2 in
  if (t =? NULL) || (k_prio s (k_self s) <? k_prio s t) then first_running (k_state s) L else t.

Lemma yield_spec s L W L1 L2 :
  kernel s L W -> running s (k_self s) -> L = L1 ++ k_self s :: L2 ->
  wpk KThreadYield
    (fun _ s' => outcome s s L true s' /\ (in_excpt s = false -> yield_choice s L L2 = k_self s))
    (fun _ s' => outcome s s L false s' /\ k_self s' = yield_choice s L L2) s.
Proof.
  intros Hks Hr HL. assert (H := Hks). destruct H as [Hk Hs].
  assert (Hself := ki_valid _ _ _ Hk _ (sc_self _ _ Hs)).
  unfold KThreadYield. kstep. kstep. lock st Hl. gen_msr s m. intros Hl.
  assert (Hm := lk_excpt _ _ _ _ Hl). ksimpl in Hm. set (s1 := set_msr m s) in *.
  assert (Hs1 : sched s1 L) by by apply sched_msr.
  assert (Hk1 : kinv s1 L W) by (eapply kinv_cpu; [apply cpu_step_msr|done]).
  assert (Hseg : lseg (next s1) (next s1 (k_self s)) L2 NULL).
  { pose proof (ki_tl _ _ _ Hk1) as Ht. rewrite HL in Ht.
    apply lseg_app in Ht as (z & _ & Ht). simpl in Ht. tauto. }
  kstep. krun.
  eapply wp_mono; [apply (find_runnable_spec s1 L (ki_tl _ _ _ Hk1) (ki_nodup _ _ _ Hk1)
    (ki_valid _ _ _ Hk1) (L1 ++ [k_self s]) L2); [by rewrite HL, <- app_assoc|done]|].
  change (k_state s1) with (k_state s). intros t s' [-> Ht]. krun.
  (* the thread chosen *)
  assert (Hch : forall c, best s L c \/ (c ∈ L /\ running s c /\ k_prio s c <= k_prio s (k_self s)) ->
    c = yield_choice s L L2 ->
    wpk (if negb (c =? k_self s) then KThreadSwitchTo c st else lift (PPCIrqUnlockByMsr st))
      (fun _ s' => outcome s s L true s' /\ (in_excpt s = false -> yield_choice s L L2 = k_self s))
      (fun _ s' => outcome s s L false s' /\ k_self s' = yield_choice s L L2) s1).
  { intros c Hc Ey. destruct (Z.eqb_spec c (k_self s)) as [E|Hne]; cbn [negb].
    - krun. eapply wp_mono; [by apply (unlock_outcome s s s1 L st)|]. intros ? s' Ho. by rewrite <- Ey.
    - assert (Hsw : switchable s1 L c).
      { destruct Hs as [S1 S2 S3 S4 (B1 & B2 & B3)]. split; try done.
        - apply (ki_null _ _ _ Hk).
        - apply (ki_valid _ _ _ Hk).
        - apply (sc_next _ _ Hs1).
        - change (k_next_ctx s1) with (k_next_ctx s). intros Hn. unfold cur in B1, B2.
          by destruct (Z.eqb_spec (k_next_ctx s) NULL).
        - by destruct Hc as [(? & _)|(? & _)].
        - by destruct Hc as [(_ & ? & _)|(_ & ? & _)].
        - intros x X1 X2. change (k_prio s1) with (k_prio s). change (k_next_ctx s1) with (k_next_ctx s).
          destruct Hc as [(_ & _ & Hc)|(_ & _ & Hc)]; [left; by apply Hc|]. specialize (B3 x X1 X2).
          unfold cur in B3. destruct (Z.eqb_spec (k_next_ctx s) NULL); [left; lia|by right]. }
      eapply wpk_mono; [apply (switch_outcome_to s s s1 L c st Hsw); try done; apply Hs|..].
      + intros _ s' [Ho Hex]. split; [done|]. by rewrite Hex.
      + intros _ s' [Ho Hsel]. by rewrite Hsel. }
  assert (Hfirst : wp (bind s_firstThread KThreadFindRunnable)
    (fun c s' => s' = s1 /\ best s L c /\ c = first_running (k_state s) L) s1).
  { apply (find_first_spec s1 L W); [done|by exists (k_self s); split; [apply Hs|]|]. by intros c ? ->. }
  revert Hch. unfold yield_choice. rewrite <- Ht. destruct (Z.eqb_spec t NULL) as [En|En]; cbn [orb]; intros Hch.
  - apply wp_ret. eapply wp_mono; [exact Hfirst|]. intros c s' (-> & Hb & Hc). apply Hch; auto.
  - assert (HtL : t ∈ L2 /\ running s t).
    { clear -Ht En. subst t. unfold running. induction L2 as [|a r IH]; [done|]. cbn [first_running] in *.
      destruct (is_running (k_state s a)) eqn:E; [split; [set_solver|by apply is_running_true]|].
      destruct (IH En). split; [set_solver|done]. }
    assert (Hin : t ∈ L) by (rewrite HL; set_solver). assert (Htv := ki_valid _ _ _ Hk _ Hin).
    krun. change (k_prio s1) with (k_prio s). revert Hch.
    destruct (Z.ltb_spec (k_prio s (k_self s)) (k_prio s t)); intros Hch.
    + eapply wp_mono; [exact Hfirst|]. intros c s' (-> & Hb & Hc). apply Hch; auto.
    + krun. apply Hch; [right; tauto|done].
Qed.
