(* ===== verification/KBlock.v ===== *)
(** * Blocking and waking

    [KThrQueueBlock], the four [KThrQueueUnblock*] functions and
    [KThrQueueCancel]: which threads are woken, in which order, with which
    result, and that the kernel invariant and the scheduling property hold
    afterwards. *)

From stdpp Require Import base gmap list fin_maps.
From Stdlib Require Import ZArith Lia Sorted.
From S2P Require Import Prelude Chain KState KTick KThread KLists KSched KSchedOps.

Open Scope Z_scope.

Lemma kinv_queues s L W W' : (forall q, W' q = W q) -> kinv s L W -> kinv s L W'.
Proof.
  intros E [ [] ?]. split; [split|]; try done; intros *; rewrite ?E; eauto.
  destruct ki_waits. split; intros *; rewrite E; eauto.
Qed.

(** A change of queues and status that leaves the list of threads alone. *)
Lemma kinv_change s s' L W W' :
  kinv s L W ->
  k_thr s' = k_thr s -> k_tl s' = k_tl s -> k_prio s' = k_prio s ->
  waits s' W' ->
  (forall q t, t ∈ W' q -> t ∈ L) -> (forall q, sorted (k_prio s) (W' q)) ->
  (forall o t, t ∈ W' (QWaiters o) -> o ∈ L /\ k_owner s' (k_token s' t) = o) ->
  (forall t, t ∈ L -> status_ok (k_state s' t) (k_suspend s' t) (k_wq s' t)) ->
  kinv s' L W'.
Proof.
  intros [ [] ?] E1 E2 E3 Hw H1 H2 H3 H4. split; [split|]; rewrite ?E1, ?E2, ?E3; try done;
    intros o t Ht; by apply H3 in Ht as [? ?].
Qed.

(** ** Blocking *)

Definition blocked (t : Z) (x : KThrState) (tok : Z) (q : qref) (k' : wlinks) (s : kst) : kst :=
  set_wq (fupd (k_wq s) t (Some q)) (set_lk k' (with_token t tok (with_state t x s))).

Lemma blocked_kinv s L W t x tok q k' :
  kinv s L W -> t ∈ L -> k_wq s t = None -> status_ok x (k_suspend s t) (Some q) ->
  (forall o, q = QWaiters o -> o ∈ L /\ k_owner s tok = o) ->
  let W' := fupd W q (ins_prio (k_prio s) t (W q)) in
  waits (blocked t x tok q k' s) W' -> kinv (blocked t x tok q k' s) L W'.
Proof.
  intros Hk Ht Hq Hst Ho W' Hw.
  assert (Hni : forall q', t ∉ W q').
  { intros q' [_ ?]%(w_in _ _ (ki_waits _ _ _ Hk)). congruence. }
  apply (kinv_change s _ L W); try done.
  - intros q' y. unfold W'. destruct (decide (q' = q)) as [->|Hne].
    + rewrite fupd_eq. unfold ins_prio. rewrite elem_of_ins. intros [->|Hy]; [done|].
      by eapply (ki_live _ _ _ Hk).
    + rewrite fupd_ne by done. apply (ki_live _ _ _ Hk).
  - intros q'. unfold W'. destruct (decide (q' = q)) as [->|Hne].
    + rewrite fupd_eq. apply ins_sorted, (ki_wsorted _ _ _ Hk).
    + rewrite fupd_ne by done. apply (ki_wsorted _ _ _ Hk).
  - intros o y. unfold W', blocked, with_token. ksimpl.
    assert (Hold : y ∈ W (QWaiters o) -> o ∈ L /\ k_owner s (fupd (k_token s) t tok y) = o).
    { intros Hy. split; [by eapply (ki_owner _ _ _ Hk)|]. rewrite fupd_ne; [by eapply (ki_token _ _ _ Hk)|].
      intros ->. by apply (Hni (QWaiters o)). }
    destruct (decide (QWaiters o = q)) as [E|Hne].
    + rewrite E, fupd_eq. unfold ins_prio. rewrite elem_of_ins. intros [->|Hy].
      * rewrite fupd_eq. by apply Ho.
      * apply Hold. by rewrite E.
    + rewrite fupd_ne by done. done.
  - intros y Hy. unfold blocked, with_token, with_state. ksimpl.
    destruct (decide (y = t)) as [->|Hne]; [by rewrite !fupd_eq|].
    rewrite !fupd_ne by done. by apply (ki_status _ _ _ Hk).
Qed.

(** The caller need not be the best thread, provided that the best of the
    others can be switched to. *)
Lemma block_from s L W q tok :
  kinv s L W -> k_self s ∈ L -> k_next_ctx s <> k_self s ->
  (forall s2 x, stopped s s2 L (k_self s) -> best s2 L x -> switchable s2 L x) ->
  running s (k_self s) -> (exists a, q = QStatic a) ->
  (exists x, x ∈ L /\ running s x /\ x <> k_self s) ->
  let W' := fupd W q (ins_prio (k_prio s) (k_self s) (W q)) in
  wpk (KThrQueueBlock q tok)
    (fun _ s' => exists k', outcome s (blocked (k_self s) KTHR_STATE_WAITING tok q k' s) L true s' /\
       kernel s' L W' /\ in_excpt s = true)
    (fun _ s' => exists k', outcome s (blocked (k_self s) KTHR_STATE_WAITING tok q k' s) L false s' /\
       kernel s' L W') s.
Proof.
  intros Hk Ht Hnc Hsw Hr [a ->] (i & Hi & Hir & His) W'.
  set (t := k_self s) in *. assert (Htv := ki_valid _ _ _ Hk _ Ht).
  destruct (status_running _ _ _ _ Hk Ht Hr) as [Hq Hsus].
  unfold KThrQueueBlock. kstep. kstep. lock st Hl. gen_msr s m. intros Hl. fold t.
  assert (Hm := lk_excpt _ _ _ _ Hl). ksimpl in Hm. kstep. krun.
  set (s1 := set_token _ _). assert (Hw1 : waits s1 W) by by apply (waits_ext s), (ki_waits _ _ _ Hk).
  assert (Hni : forall q', t ∉ W q').
  { intros q' [_ ?]%(w_in _ _ (ki_waits _ _ _ Hk)). congruence. }
  assert (Htn : t <> NULL) by (intros E; apply (ki_null _ _ _ Hk); by rewrite <- E).
  eapply wp_mono; [apply (queue_insert_spec s1 W Hw1 (QStatic a) t); done|].
  intros ? s2 (k' & -> & Hw2). set (s2 := set_wq _ _) in *.
  change (k_prio s1) with (k_prio s) in Hw2. fold W' in Hw2.
  set (e := blocked t KTHR_STATE_WAITING tok (QStatic a) k' s).
  assert (Hl2 : locked s e s2 st).
  { by apply (locked_effect s st (blocked t KTHR_STATE_WAITING tok (QStatic a) k') m). }
  assert (Hke : kinv e L W').
  { apply blocked_kinv; try done; [rewrite Hsus; split; [lia|done]|]. by apply (waits_ext s2). }
  assert (Hk2 : kinv s2 L W') by (eapply kinv_cpu; [apply (lk_step _ _ _ _ Hl2)|done]).
  assert (Hsp : stopped s s2 L t).
  { split; try done. intros x _. unfold running, s2, s1. ksimpl.
    destruct (decide (x = t)) as [->|Hne]; [rewrite fupd_eq|rewrite fupd_ne by done]; naive_solver. }
  apply (find_first_spec s2 L W'); [done| |].
  { exists i. split; [done|]. by apply (sp_run _ _ _ _ Hsp). }
  intros x Hx _. kstep. eapply wpk_mono; [apply (switch_outcome_to s e s2 L x st)|..].
  - by apply Hsw.
  - done.
  - done.
  - destruct Hx as (X1 & X2 & _). apply (sp_run _ _ _ _ Hsp) in X2; [|done]. naive_solver.
  - done.
  - intros _ s' [Ho Hex]. assert (Hks' : kernel s' L W') by by eapply outcome_kernel.
    krun; [|by exists k']. by apply (ki_valid _ _ _ (proj1 Hks')).
  - intros _ s' [Ho _]. exists k'. split; [done|]. by eapply outcome_kernel.
Qed.

Lemma block_spec s L W q tok :
  kernel s L W -> running s (k_self s) -> (exists a, q = QStatic a) ->
  (exists x, x ∈ L /\ running s x /\ x <> k_self s) ->
  let W' := fupd W q (ins_prio (k_prio s) (k_self s) (W q)) in
  wpk (KThrQueueBlock q tok)
    (fun _ s' => exists k', outcome s (blocked (k_self s) KTHR_STATE_WAITING tok q k' s) L true s' /\
       kernel s' L W' /\ in_excpt s = true)
    (fun _ s' => exists k', outcome s (blocked (k_self s) KTHR_STATE_WAITING tok q k' s) L false s' /\
       kernel s' L W') s.
Proof.
  intros Hks Hr Hq Hi. apply block_from; try done; [apply Hks|apply Hks|apply Hks|].
  intros s2 x Hst Hb. by apply (stopped_switchable s s2 L W (k_self s)).
Qed.

(** Outside an exception. *)
Lemma block_off s L W q tok :
  kinv s L W -> k_self s ∈ L -> ctx_ok s L -> in_excpt s = false -> k_next_ctx s = NULL ->
  running s (k_self s) -> (exists a, q = QStatic a) ->
  (exists x, x ∈ L /\ running s x /\ x <> k_self s) ->
  let W' := fupd W q (ins_prio (k_prio s) (k_self s) (W q)) in
  wpk (KThrQueueBlock q tok) (fun _ _ => False)
    (fun _ s' => exists k', outcome s (blocked (k_self s) KTHR_STATE_WAITING tok q k' s) L false s' /\
       kernel s' L W') s.
Proof.
  intros Hk Ht Hc Hex Hn Hr Hq Hi. eapply wpk_mono; [apply (block_from s L W q tok); try done| |done].
  - rewrite Hn. intros E. apply (ki_null _ _ _ Hk). rewrite E. by apply (ki_valid _ _ _ Hk).
  - intros s2 x [P1 P2 P3 P4 P5 P6 P7] (X1 & X2 & X3).
    split; rewrite ?P1, ?P2, ?P3, ?P5, ?Hn; try done.
    + by apply (ki_valid _ _ _ Hk).
    + apply (ki_null _ _ _ Hk).
    + apply (ki_valid _ _ _ Hk).
    + intros y. rewrite P2, P4. apply Hc.
    + intros y Y1 Y2. left. rewrite <- P5. auto.
  - intros ? s' (k' & _ & _ & ?). congruence.
Qed.

(** ** Waking *)

(** [s'] is [s] with the threads [wk] taken out of their queue: their tokens
    became [f] of the old ones, and those not suspended became runnable. *)
Definition woke (f : Z -> Z) (wk : list Z) (s s' : kst) : Prop :=
  exists a b c d,
    s' = set_state a (set_token b (set_wq c (set_lk d s))) /\
    (forall x, a x = if decide (x ∈ wk /\ k_suspend s x = 0) then KTHR_STATE_RUNNING else k_state s x) /\
    (forall x, b x = if decide (x ∈ wk) then f (k_token s x) else k_token s x) /\
    (forall x, c x = if decide (x ∈ wk) then None else k_wq s x) /\
    (forall x, k_wq s x = None -> ln d x = ln (k_lk s) x).

Lemma woke_nil f s : woke f [] s s.
Proof.
  exists (k_state s), (k_token s), (k_wq s), (k_lk s). split; [by destruct s|].
  assert (H : forall x : Z, x ∉ []) by apply not_elem_of_nil.
  split_and!; intros x; specialize (H x); try case_decide; naive_solver.
Qed.

Lemma woke_cons f t wk s s1 s2 :
  t ∉ wk -> woke f [t] s s1 -> woke f wk s1 s2 -> woke f (t :: wk) s s2.
Proof.
  intros Ht (a & b & c & d & -> & A & B & C & D) (a' & b' & c' & d' & -> & A' & B' & C' & D').
  exists a', b', c', d'. split; [done|]. split_and!; intros x.
  - rewrite A'. ksimpl. rewrite A. repeat case_decide; set_solver.
  - rewrite B'. ksimpl. rewrite B. repeat case_decide; set_solver.
  - rewrite C'. ksimpl. rewrite C. repeat case_decide; set_solver.
  - intros Hx. rewrite D'; ksimpl; [by apply D|]. rewrite C. by case_decide.
Qed.

(** The queues after the threads [wk] left [q]. *)
Definition without (W : qref -> list Z) (q : qref) (wk : list Z) : qref -> list Z :=
  fupd W q (filter (fun x => x ∉ wk) (W q)).

Lemma woke_kinv f wk a s s' L W :
  let q := QStatic a in
  kinv s L W -> woke f wk s s' -> (forall x, x ∈ wk -> x ∈ W q) ->
  waits s' (without W q wk) -> kinv s' L (without W q wk).
Proof.
  intros q Hk (st & b & c & d & -> & A & B & C & D) Hin Hw.
  apply (kinv_change s _ L W); try done; unfold without.
  - intros q' x. destruct (decide (q' = q)) as [->|Hne].
    + rewrite fupd_eq, list_elem_of_filter. intros [_ ?]. by eapply (ki_live _ _ _ Hk).
    + rewrite fupd_ne by done. apply (ki_live _ _ _ Hk).
  - intros q'. destruct (decide (q' = q)) as [->|Hne].
    + rewrite fupd_eq. apply sorted_filter, (ki_wsorted _ _ _ Hk).
    + rewrite fupd_ne by done. apply (ki_wsorted _ _ _ Hk).
  - intros o x. rewrite fupd_ne by done. intros Hx. ksimpl.
    split; [by eapply (ki_owner _ _ _ Hk)|]. rewrite B, decide_False; [by eapply (ki_token _ _ _ Hk)|].
    intros Hwk%Hin. by apply (w_disjoint _ _ (ki_waits _ _ _ Hk) q (QWaiters o) x).
  - intros x Hx. ksimpl. rewrite A, C. pose proof (ki_status _ _ _ Hk x Hx) as [S1 S2].
    destruct (decide (x ∈ wk)) as [Hwk|Hwk]; [|by rewrite decide_False by tauto].
    assert (Hq : k_wq s x = Some q).
    { apply Hin in Hwk. by apply (w_in _ _ (ki_waits _ _ _ Hk)) in Hwk as [_ ?]. }
    rewrite Hq in S2. split; [done|]. destruct (decide (k_suspend s x = 0)).
    + rewrite decide_True by done. done.
    + rewrite decide_False by tauto. by destruct (k_state s x).
Qed.

(** ** The loop *)

(** The test of [KThrQueueTestUnblock] and the new token, on token values. *)
Definition hit (mode : KThrUnblockMode) (ref tok : Z) : bool :=
  match mode with
  | KTHR_UNBLOCK_ANY => true
  | KTHR_UNBLOCK_BY_VALUE => tok =? ref
  | KTHR_UNBLOCK_BY_MASK => negb (Z.land tok ref =? 0)
  end.
Definition new_token (mode : KThrUnblockMode) (ref tok : Z) : Z :=
  match mode with KTHR_UNBLOCK_BY_MASK => Z.land tok ref | _ => 1 end.

(** The threads of a queue that are woken: those that match, at most [max] of
    them if [max] is not negative. *)
Fixpoint woken (tok : Z -> Z) (mode : KThrUnblockMode) (ref max : Z) (R : list Z) : list Z :=
  match R with
  | [] => []
  | t :: r =>
      if max =? 0 then []
      else if hit mode ref (tok t)
           then t :: woken tok mode ref (if 0 <? max then max - 1 else max) r
           else woken tok mode ref max r
  end.

(** The first of them that is not suspended. *)
Fixpoint first_free (sus : Z -> Z) (wk : list Z) : Z :=
  match wk with [] => NULL | t :: r => if sus t =? 0 then t else first_free sus r end.

Lemma woken_sub tok mode ref max R : forall x, x ∈ woken tok mode ref max R -> x ∈ R.
Proof.
  revert max. induction R as [|t r IH]; intros max x; cbn [woken]; [done|].
  destruct (max =? 0); [by intros ?%not_elem_of_nil|].
  destruct (hit mode ref (tok t)); rewrite !elem_of_cons; [intros [->|?]|]; eauto.
Qed.

Lemma woken_ext tok tok' mode ref max R :
  (forall x, x ∈ R -> tok' x = tok x) -> woken tok' mode ref max R = woken tok mode ref max R.
Proof.
  revert max. induction R as [|t r IH]; intros max H; cbn [woken]; [done|].
  rewrite (H t) by set_solver. destruct (max =? 0); [done|].
  destruct (hit mode ref (tok t)); [f_equal|]; apply IH; set_solver.
Qed.

(** One thread woken; [c] writes its token. *)
Lemma wake_one s L W a t f c resched :
  let q := QStatic a in
  kinv s L W -> t ∈ W q ->
  (forall (Q : unit -> kst -> Prop) s, t ∈ k_thr s -> Q tt (with_token t (f (k_token s t)) s) -> wp c Q s) ->
  wp (KThrQueueRemove q t;;
      c;;
      sus <- rd k_suspend t;
      if sus =? 0 then
        wr_state t KTHR_STATE_RUNNING;; ret (if resched =? NULL then t else resched)
      else ret resched)
    (fun r s' => woke f [t] s s' /\ kinv s' L (without W q [t]) /\
       r = if k_suspend s t =? 0 then if resched =? NULL then t else resched else resched) s.
Proof.
  intros q Hk Ht Hc. assert (HtL := ki_live _ _ _ Hk _ _ Ht). assert (Htv := ki_valid _ _ _ Hk _ HtL).
  krun. eapply wp_mono; [by apply (queue_remove_spec s W (ki_waits _ _ _ Hk))|].
  intros ? s1 (k' & -> & Hw & Hln). krun. set (s1 := set_lk _ _) in *.
  assert (Hw' : waits s1 (without W q [t])).
  { assert (E : without W q [t] = fupd W q (rem t (W q))); [|by rewrite E]. unfold without. f_equal.
    apply list_filter_iff. intros x. by rewrite list_elem_of_singleton. }
  assert (Hend : forall s' , s' = (if k_suspend s t =? 0
      then with_state t KTHR_STATE_RUNNING (with_token t (f (k_token s t)) s1)
      else with_token t (f (k_token s t)) s1) ->
      woke f [t] s s' /\ kinv s' L (without W q [t])).
  { intros s' Es'. assert (Hwk : woke f [t] s s').
    { exists (k_state s'), (k_token s'), (k_wq s'), (k_lk s').
      assert (Hone : forall x, x ∈ [t] <-> x = t) by (intros; by rewrite list_elem_of_singleton).
      destruct (Z.eqb_spec (k_suspend s t) 0) as [E|E]; subst s'; (split; [done|]);
        (split_and!; intros x; unfold with_state, with_token, s1; ksimpl; unfold fupd;
         repeat case_decide; rewrite ?Hone in *; naive_solver). }
    split; [done|]. apply (woke_kinv f [t] a s); try done.
    - by intros x ->%list_elem_of_singleton.
    - apply (waits_ext s1); destruct (k_suspend s t =? 0); by subst s'. }
  apply Hc; [done|]. krun. revert Hend.
  change (k_suspend (with_token t (f (k_token s1 t)) s1) t) with (k_suspend s t).
  destruct (Z.eqb_spec (k_suspend s t) 0) as [E|E]; intros Hend; krun;
    (destruct (Hend _ eq_refl); done).
Qed.

Lemma without_nil W q q' : without W q [] q' = W q'.
Proof.
  unfold without. destruct (decide (q' = q)) as [->|Hne]; [rewrite fupd_eq|by rewrite fupd_ne].
  apply filter_all. intros x _. apply not_elem_of_nil.
Qed.

Lemma without_cons W q t wk q' : without W q (t :: wk) q' = without (without W q [t]) q wk q'.
Proof.
  unfold without. destruct (decide (q' = q)) as [->|Hne]; [|by rewrite !fupd_ne].
  rewrite !fupd_eq, list_filter_filter. apply list_filter_iff. intros x. set_solver.
Qed.

(** What the loop over the threads [R] of the queue [q] achieves. *)
Definition unblocked (mode : KThrUnblockMode) (ref : Z) (q : qref) (s : kst) (L : list Z)
    (W : qref -> list Z) (wk : list Z) (s' : kst) : Prop :=
  woke (new_token mode ref) wk s s' /\ kinv s' L (without W q wk).

Lemma unblock_loop_spec L a mode ref fuel :
  let q := QStatic a in
  forall max R D resched s W cur,
  kinv s L W -> W q = D ++ R -> cur = default NULL (head R) -> (length R < fuel)%nat ->
  wp (unblock_loop fuel q max mode ref cur resched)
    (fun r s' => let wk := woken (k_token s) mode ref max R in
       unblocked mode ref q s L W wk s' /\
       r = if resched =? NULL then first_free (k_suspend s) wk else resched) s.
Proof.
  intros q. induction fuel as [|n IH]; intros max R D resched s W cur Hk HW Hc Hf; [lia|].
  cbn [unblock_loop].
  assert (Hnil : wp (ret resched) (fun r s' => unblocked mode ref q s L W [] s' /\
    r = if resched =? NULL then NULL else resched) s).
  { apply wp_ret. split; [split; [apply woke_nil|]|by destruct (Z.eqb_spec resched NULL)].
    apply (kinv_queues _ _ W); [|done]. apply without_nil. }
  destruct R as [|t r]; simpl in Hc; subst cur; [rewrite orb_true_r; apply Hnil|].
  cbn [woken]. destruct (Z.eqb_spec max 0) as [->|Hmax]; [apply Hnil|]. cbn [orb].
  assert (Ht : t ∈ W q) by (rewrite HW; set_solver).
  assert (Htv := ki_valid _ _ _ Hk _ (ki_live _ _ _ Hk _ _ Ht)).
  assert (Htn : t <> NULL) by (intros ->; by apply (ki_null _ _ _ Hk)).
  destruct (Z.eqb_spec t NULL); [done|].
  pose proof (w_links _ _ (ki_waits _ _ _ Hk) q) as Hs. rewrite HW in Hs.
  apply dseg_app in Hs as (m0 & y0 & _ & _ & _ & _ & Hs). apply dseg_head in Hs.
  pose proof (w_nodup _ _ (ki_waits _ _ _ Hk) q) as Hd. rewrite HW in Hd. krun.
  change (link_next s t) with (ln (k_lk s) t). rewrite Hs.
  assert (Htest : forall Q, Q (hit mode ref (k_token s t)) s -> wp (KThrQueueTestUnblock t mode ref) Q s)
    by (intros Q HQ; unfold KThrQueueTestUnblock; destruct mode; by krun).
  apply Htest. clear Htest. destruct (hit mode ref (k_token s t)) eqn:Eh; cbn [negb].
  - apply wp_assoc, wp_bind. eapply wp_mono; [apply (wake_one s L W a t (new_token mode ref)); [done..|]|].
    { intros Q s1 Htv1 HQ. destruct mode; by krun. }
    intros res s1 (Hwk & Hk1 & ->).
    set (max' := if 0 <? max then max - 1 else max).
    assert (Htr : t ∉ r) by (apply NoDup_app in Hd as (_ & _ & Hd); by apply NoDup_cons in Hd as [? _]).
    assert (Etok : woken (k_token s1) mode ref max' r = woken (k_token s) mode ref max' r).
    { apply woken_ext. intros z Hz. destruct Hwk as (? & b & ? & ? & -> & _ & B & _). ksimpl.
      rewrite B, decide_False; [done|]. intros ->%list_elem_of_singleton. done. }
    assert (Esus : k_suspend s1 = k_suspend s) by (by destruct Hwk as (? & ? & ? & ? & -> & _)).
    eapply wp_mono; [apply (IH max' r D _ s1 (without W q [t])); [done| |done|simpl in Hf; lia]|].
    { unfold without. rewrite fupd_eq, HW, filter_app, filter_cons_False by set_solver.
      apply NoDup_app in Hd as (_ & Hd & _). f_equal; apply filter_all; intros x Hx;
        rewrite list_elem_of_singleton; [|set_solver]. intros ->. apply (Hd _ Hx). set_solver. }
    intros res s2 [ [Hwk2 Hk2] ->]. rewrite Etok, Esus in *. split.
    + split; [eapply woke_cons; [|done..]; by intros ?%woken_sub|].
      eapply kinv_queues; [apply without_cons|done].
    + cbn [first_free]. destruct (Z.eqb_spec (k_suspend s t) 0); [|done].
      destruct (Z.eqb_spec resched NULL) as [->|Hr]; [by destruct (Z.eqb_spec t NULL)|].
      by destruct (Z.eqb_spec resched NULL).
  - apply (IH max r (D ++ [t])); [done|by rewrite HW, <- app_assoc|done|simpl in Hf; lia].
Qed.

(** ** The operations *)

Lemma woken_sorted f tok mode ref max R : sorted f R -> sorted f (woken tok mode ref max R).
Proof.
  intros Hs. revert max. induction Hs as [|t r Hs IH Hf]; intros max; cbn [woken]; [constructor|].
  destruct (max =? 0); [constructor|]. destruct (hit mode ref (tok t)); [|apply IH].
  constructor; [apply IH|]. rewrite Forall_forall in *. intros x Hx. by eapply Hf, woken_sub.
Qed.

Lemma first_free_in sus wk : first_free sus wk <> NULL ->
  first_free sus wk ∈ wk /\ sus (first_free sus wk) = 0.
Proof.
  induction wk as [|t r IH]; cbn [first_free]; [done|].
  destruct (Z.eqb_spec (sus t) 0); [split; [set_solver|done]|]. intros H. destruct (IH H). set_solver.
Qed.

Lemma first_free_best f sus wk x : NULL ∉ wk -> sorted f wk -> x ∈ wk -> sus x = 0 ->
  first_free sus wk <> NULL /\ f (first_free sus wk) <= f x.
Proof.
  intros Hn Hs Hx Hsx. induction Hs as [|t r Hs IH Hf]; [by apply not_elem_of_nil in Hx|].
  cbn [first_free]. destruct (Z.eqb_spec (sus t) 0) as [E|E].
  - split; [set_solver|]. apply elem_of_cons in Hx as [->|Hx]; [lia|].
    rewrite Forall_forall in Hf. auto.
  - apply elem_of_cons in Hx as [->|Hx]; [done|]. apply IH; [set_solver|done].
Qed.

(** The state of the loop without the interrupt lock. *)
Lemma woke_unlocked f wk s m s2 : woke f wk (set_msr m s) s2 ->
  exists s1, woke f wk s s1 /\ s2 = set_msr m s1 /\ cpu_step s2 s1.
Proof.
  intros (a & b & c & d & -> & A & B & C & D).
  exists (set_state a (set_token b (set_wq c (set_lk d s)))). split; [by exists a, b, c, d|].
  split; [done|]. by exists (k_msr s), (k_self s), (k_next_ctx s), (k_ctx s).
Qed.

Lemma woke_resched f wk s s2 m L W :
  kernel s L W -> running s (k_self s) -> woke f wk s s2 ->
  Z.land m MSR_RI = Z.land (k_msr s) MSR_RI ->
  (forall x, x ∈ wk -> x ∈ L) -> sorted (k_prio s) wk ->
  resched (set_msr m s2) L (first_free (k_suspend s) wk).
Proof.
  intros [Hk Hs] Hr (a & b & c & d & -> & A & B & C & D) Hm Hin Hso.
  assert (Hn : NULL ∉ wk).
  { intros H%Hin. by apply (ki_null _ _ _ Hk), (ki_valid _ _ _ Hk). }
  apply (resched_from s); try done.
  - apply (ki_null _ _ _ Hk).
  - apply (ki_valid _ _ _ Hk).
  - intros x _ Hx. unfold running. ksimpl. rewrite A. by case_decide.
  - intros [H1 H2]%first_free_in. split; [by apply Hin|]. unfold running. ksimpl.
    rewrite A, decide_True; done.
  - intros x _. unfold running. ksimpl. rewrite A. case_decide as Hd; [|by left].
    intros _. right. destruct Hd. by apply first_free_best.
Qed.

(** The loop over a whole queue. *)
Lemma unblock_queue_spec s L W a max mode ref :
  let q := QStatic a in
  let wk := woken (k_token s) mode ref max (W q) in
  kinv s L W ->
  wp (fuel <- gets thr_fuel; cur <- rd_q qn q; unblock_loop fuel q max mode ref cur NULL)
    (fun r s' => unblocked mode ref q s L W wk s' /\ r = first_free (k_suspend s) wk) s.
Proof.
  intros q wk Hk. krun. apply (unblock_loop_spec L a mode ref _ max (W q) [] NULL s W); try done.
  - apply (dseg_head _ _ _ _ _ _ _ (w_links _ _ (ki_waits _ _ _ Hk) q)).
  - apply (w_fuel _ _ (ki_waits _ _ _ Hk)).
Qed.

Lemma unblock_spec s L W a max mode ref :
  kernel s L W -> running s (k_self s) ->
  let q := QStatic a in
  let wk := woken (k_token s) mode ref max (W q) in
  wpb (KThrQueueUnblockCommon q max mode ref)
    (fun b s' => (exists s1, woke (new_token mode ref) wk s s1 /\ outcome s s1 L b s') /\
       kernel s' L (without W q wk)) s.
Proof.
  intros Hks Hr q wk. assert (H := Hks). destruct H as [Hk Hs].
  unfold wpb, KThrQueueUnblockCommon. lock st Hl. gen_msr s m. intros Hl.
  assert (Hm := lk_excpt _ _ _ _ Hl). ksimpl in Hm.
  assert (Hk1 : kinv (set_msr m s) L W) by (eapply kinv_cpu; [apply cpu_step_msr|done]).
  kstep. eapply wp_mono; [by apply (unblock_queue_spec (set_msr m s) L W a max mode ref)|].
  intros t s2 [ [Hwk Hk2] ->]. change (k_token (set_msr m s)) with (k_token s) in *.
  change (k_suspend (set_msr m s)) with (k_suspend s). fold q wk in Hwk, Hk2 |- *.
  apply woke_unlocked in Hwk as (s1 & Hwk & -> & Hst).
  assert (Hin : forall x, x ∈ wk -> x ∈ L).
  { intros x Hx%woken_sub. by eapply (ki_live _ _ _ Hk). }
  eapply wpk_mono; [apply (reschedule_outcome s s1 (set_msr m s1) L)|..].
  - apply (woke_resched (new_token mode ref) wk s s1 m L W); try done.
    apply woken_sorted, (ki_wsorted _ _ _ Hk).
  - destruct Hl as [L1 L2 L3 L4 L5]. destruct Hwk as (? & ? & ? & ? & -> & _).
    split; try done. apply cpu_step_msr.
  - intros ? s' Ho. split; [by exists s1|]. eapply outcome_kernel; [exact Ho|]. by eapply kinv_cpu.
  - intros ? s' Ho. split; [by exists s1|]. eapply outcome_kernel; [exact Ho|]. by eapply kinv_cpu.
Qed.

(** Cancelling a wait: only a thread that waits in [q] is affected. *)
Lemma cancel_spec s L W a t :
  kernel s L W -> running s (k_self s) -> t ∈ L ->
  let q := QStatic a in
  let wk := if bool_decide (k_wq s t = Some q) then [t] else [] in
  wpb (KThrQueueCancel q t)
    (fun b s' => (exists s1, woke (fun _ => 0) wk s s1 /\ outcome s s1 L b s') /\
       kernel s' L (without W q wk)) s.
Proof.
  intros Hks Hr Ht q wk. assert (H := Hks). destruct H as [Hk Hs]. assert (Htv := ki_valid _ _ _ Hk _ Ht).
  unfold wpb, KThrQueueCancel. lock st Hl. gen_msr s m. intros Hl.
  assert (Hm := lk_excpt _ _ _ _ Hl). ksimpl in Hm.
  assert (Hk1 : kinv (set_msr m s) L W) by (eapply kinv_cpu; [apply cpu_step_msr|done]).
  kstep. krun. ksimpl. pose proof (ki_status _ _ _ Hk t Ht) as [_ Hst]. unfold wk.
  destruct (decide (k_wq s t = Some q)) as [Eq|Eq].
  - rewrite Eq in *. rewrite (bool_decide_true (k_state s t = _)) by by destruct (k_state s t).
    rewrite !(bool_decide_true (Some q = Some q)) by done. cbn [negb orb]. kstep.
    eapply wp_mono; [apply (wake_one (set_msr m s) L W a t (fun _ => 0) (wr_token t 0) NULL); [done|..]|].
    { by apply (w_in _ _ (ki_waits _ _ _ Hk)). } { intros Q s1 Htv1 HQ. by krun. }
    intros r s2 (Hwk & Hk2 & ->). apply woke_unlocked in Hwk as (s1 & Hwk & -> & Hst1). ksimpl.
    change (if k_suspend s t =? 0 then if NULL =? NULL then t else NULL else NULL)
      with (first_free (k_suspend s) [t]).
    eapply wpk_mono; [apply (reschedule_outcome s s1 (set_msr m s1) L)|..].
    + apply (woke_resched (fun _ => 0) [t] s s1 m L W); try done.
      * by intros x ->%list_elem_of_singleton.
      * by repeat constructor.
    + destruct Hl as [L1 L2 L3 L4 L5]. destruct Hwk as (? & ? & ? & ? & -> & _).
      split; try done. apply cpu_step_msr.
    + intros ? s' Ho. split; [by exists s1|]. eapply outcome_kernel; [exact Ho|]. by eapply kinv_cpu.
    + intros ? s' Ho. split; [by exists s1|]. eapply outcome_kernel; [exact Ho|]. by eapply kinv_cpu.
  - rewrite (bool_decide_false (k_wq s t = _)) by done. rewrite orb_true_r. krun.
    assert (Hs1 : sched (set_msr m s) L) by by apply sched_msr.
    eapply wp_mono; [by apply (unlock_outcome s s)|]. intros ? s' Ho.
    split; [exists s; split; [apply woke_nil|done]|]. eapply outcome_kernel; [exact Ho|].
    eapply kinv_queues; [apply without_nil|done].
Qed.
