(* ===== verification/KLife.v ===== *)
(** * Life cycle of threads

    Start of the kernel, creation of a thread, exit with the wake-up of joining
    threads. *)

From stdpp Require Import base gmap list fin_maps.
From Stdlib Require Import ZArith Lia Sorted.
From S2P Require Import Prelude Chain Devices KState KTick KThread KLists KSched KSchedOps KBlock.

Open Scope Z_scope.

(** ** Start *)

(** Zero-initialised memory, with [msr] at entry of [KThreadInit]. *)
Definition boot_kst (thr : gset Z) (msr : Z) (clock : nat -> Z) : kst :=
  mk_kst thr (mk_tlinks NULL (fun _ => NULL))
    (mk_wlinks (fun _ => NULL) (fun _ => NULL) (fun _ => NULL) (fun _ => NULL))
    (fun _ => None) (fun _ => 0) (fun _ => KTHR_STATE_UNINIT) (fun _ => 0) (fun _ => 0) (fun _ => 0)
    (fun _ => mk_ctx 0 0 0 0 0 0 0) (fun _ => NULL) (fun _ => 0) (fun _ => mk_box 0 0 0 0 0 0)
    ∅ NULL NULL msr NULL
    (mk_ticks NULL ∅ (fun _ => NULL) (fun _ => NULL) (fun _ => 0) (fun _ => 0))
    0 clock 0 (mk_lwpc 0 0 (fun _ => 0) 0 0 0) exi_boot.

Lemma init_kernel_spec thr msr clock addr main idle :
  NULL ∉ thr -> main ∈ thr -> idle ∈ thr -> main <> idle -> Z.land msr MSR_RI <> 0 ->
  wp (KThreadInit addr main idle)
    (fun _ s' => kernel s' [main; idle] (fun _ => []) /\ k_self s' = main /\ k_fpu s' = main /\
       running s' main /\ running s' idle /\ k_prio s' main = KTHR_MAIN_PRIO /\
       k_prio s' idle = KTHR_MIN_PRIO + 1 /\
       (forall t, t ∈ [main; idle] -> k_baseprio s' t = k_prio s' t))
    (boot_kst thr msr clock).
Proof.
  intros Hn Hm Hi Hne Hri. assert (main <> NULL) by (intros ->; done).
  assert (idle <> NULL) by (intros ->; done).
  unfold KThreadInit. krun. unfold boot_kst. ksimpl. rewrite !fupd_eq.
  assert (Hnil : forall x : Z, x ∉ []) by apply not_elem_of_nil.
  assert (Hrun : forall p : Z -> Z, p main <= p idle -> sorted p [main; idle]).
  { intros p Hp. constructor; [repeat constructor|]. by apply Forall_singleton. }
  split; [split|].
  - split; [split|]; ksimpl; try done.
    + unfold tlist. ksimpl. simpl. rewrite fupd_eq. split_and!; try done. by rewrite fupd_ne.
    + apply NoDup_cons. split; [set_solver|apply NoDup_singleton].
    + set_solver.
    + apply Hrun. rewrite fupd_ne by done. rewrite !fupd_eq. done.
    + split; ksimpl; [done|constructor|]. set_solver.
    + set_solver.
    + constructor.
    + set_solver.
    + intros t Ht. split; [done|]. assert (t = main \/ t = idle) as [->| ->] by set_solver.
      * rewrite fupd_ne by done. by rewrite fupd_eq.
      * by rewrite fupd_eq.
    + set_solver.
  - split; ksimpl; try done; [set_solver|..].
    + intros t Ht. ksimpl. intros Htm. assert (t = idle) as -> by set_solver. by rewrite fupd_eq.
    + unfold best, cur, running. ksimpl. simpl. split_and!; [set_solver|..].
      * rewrite fupd_ne by done. by rewrite fupd_eq.
      * intros x Hx _. assert (x = main \/ x = idle) as [->| ->] by set_solver; [done|].
        rewrite fupd_ne by done. rewrite !fupd_eq. done.
  - unfold running. ksimpl. rewrite !fupd_eq. split_and!; try done.
    all: try (rewrite fupd_ne by done; by rewrite fupd_eq).
Qed.

(** ** Creation *)

Lemma sorted_fupd f t v L : t ∉ L -> sorted f L -> sorted (fupd f t v) L.
Proof.
  intros Ht. apply sorted_ext. intros x Hx. rewrite fupd_ne; [done|]. by intros ->.
Qed.

(** A thread object that is not in use. *)
Definition unused (s : kst) (L : list Z) (W : qref -> list Z) (t : Z) : Prop :=
  t ∈ k_thr s /\ t ∉ L /\ W (QWaiters t) = [] /\ t <> k_self s.

Lemma unused_wq s L W t : kinv s L W -> unused s L W t -> forall q, t ∉ W q.
Proof. intros Hk (_ & H & _) q Hq. by eapply H, (ki_live _ _ _ Hk). Qed.

(** Only fields of the thread at [t] differ. *)
Record touch (t : Z) (s s1 : kst) : Prop := {
  to_thr : k_thr s1 = k_thr s;
  to_first : tl_first (k_tl s1) = tl_first (k_tl s);
  to_next : forall x, x <> t -> tl_next (k_tl s1) x = tl_next (k_tl s) x;
  to_links : forall x, x <> t -> ln (k_lk s1) x = ln (k_lk s) x /\ lp (k_lk s1) x = lp (k_lk s) x;
  to_queues : forall q, q <> QWaiters t -> qn (k_lk s1) q = qn (k_lk s) q /\ qp (k_lk s1) q = qp (k_lk s) q;
  to_other : forall x, x <> t ->
    k_wq s1 x = k_wq s x /\ k_token s1 x = k_token s x /\ k_state s1 x = k_state s x /\
    k_suspend s1 x = k_suspend s x /\ k_prio s1 x = k_prio s x /\ k_baseprio s1 x = k_baseprio s x /\
    k_ctx s1 x = k_ctx s x;
  to_cpu : k_self s1 = k_self s /\ k_next_ctx s1 = k_next_ctx s /\ k_msr s1 = k_msr s /\
    k_owner s1 = k_owner s;
}.

Lemma touch_trans t s1 s2 s3 : touch t s1 s2 -> touch t s2 s3 -> touch t s1 s3.
Proof.
  intros [A1 A2 A3 A4 A5 A6 A7] [B1 B2 B3 B4 B5 B6 B7]. split; try congruence.
  - intros x Hx. by rewrite B3, A3.
  - intros x Hx. destruct (B4 x Hx) as [-> ->]. auto.
  - intros x Hx. destruct (B5 x Hx) as [-> ->]. auto.
  - intros x Hx. destruct (B6 x Hx) as (-> & -> & -> & -> & -> & -> & ->). auto.
  - destruct B7 as (-> & -> & -> & ->). auto.
Qed.

Lemma clear_spec s t :
  t ∈ k_thr s ->
  wp (KThread_clear t)
    (fun _ s1 => touch t s s1 /\ (qn (k_lk s1) (QWaiters t) = NULL /\ qp (k_lk s1) (QWaiters t) = NULL) /\
       k_wq s1 t = None) s.
Proof.
  intros Ht. assert (Hq : q_valid s (QWaiters t) = true) by by apply bool_decide_eq_true.
  unfold KThread_clear. krun. split; [|ksimpl; by rewrite !fupd_eq].
  split; ksimpl; try done.
  - intros x Hx. by rewrite fupd_ne.
  - intros x Hx. by rewrite !fupd_ne.
  - intros q Hq'. by rewrite !fupd_ne.
  - intros x Hx. by rewrite !fupd_ne.
Qed.

(** The fields of a cleared thread are filled in. *)
Lemma fill_spec {A} s t c prio (k : M kst A) Q :
  t ∈ k_thr s ->
  (forall s1, touch t s s1 -> k_lk s1 = k_lk s -> k_wq s1 t = k_wq s t ->
     k_state s1 t = KTHR_STATE_WAITING -> k_suspend s1 t = 1 -> k_prio s1 t = prio ->
     k_baseprio s1 t = prio -> k_ctx s1 t = c -> wp k Q s1) ->
  wp (wr_ctx t c;; wr_state t KTHR_STATE_WAITING;; wr_suspend t 1;; wr_prio t prio;;
      p <- rd k_prio t; wr_baseprio t p;; k) Q s.
Proof.
  intros Ht Hk. krun. ksimpl. apply Hk; ksimpl; rewrite ?fupd_eq; try done.
  split; ksimpl; try done. intros x Hx. by rewrite !fupd_ne.
Qed.

(** The state of a new thread before it enters the list. *)
Record prepared (s : kst) (t prio : Z) (s1 : kst) : Prop := {
  pp_touch : touch t s s1;
  pp_own : qn (k_lk s1) (QWaiters t) = NULL /\ qp (k_lk s1) (QWaiters t) = NULL;
  pp_t : k_wq s1 t = None /\ k_state s1 t = KTHR_STATE_WAITING /\ k_suspend s1 t = 1 /\
    k_prio s1 t = Z.land prio KTHR_MIN_PRIO /\ k_baseprio s1 t = Z.land prio KTHR_MIN_PRIO /\
    c_msr (k_ctx s1 t) = thread_msr;
}.

Lemma waits_prepared s t prio s1 W :
  waits s W -> prepared s t prio s1 -> (forall q, t ∉ W q) -> W (QWaiters t) = [] -> waits s1 W.
Proof.
  intros Hw [ [P1 P2 P3 P4 P5 P7 P9] P6 P8] Ht Hnil. split; [|apply (w_nodup _ _ Hw)|].
  - intros q. destruct (decide (q = QWaiters t)) as [->|Hne].
    + rewrite Hnil. destruct P6 as [-> ->]. done.
    + destruct (P5 q Hne) as [-> ->].
      eapply dseg_frame; [..|apply (w_links _ _ Hw)]; intros x Hx; apply P4; intros ->; by apply (Ht q).
  - intros q x. rewrite P1. destruct (decide (x = t)) as [->|Hne].
    + destruct P8 as [-> _]. split; [intros H; by apply Ht in H|by intros [_ ?] ].
    + destruct (P7 x Hne) as [-> _]. apply (w_in _ _ Hw).
Qed.

Lemma prepared_kernel s L W t prio s1 s2 T m :
  kernel s L W -> unused s L W t -> prepared s t prio s1 ->
  s2 = set_msr m (set_tl T s1) -> Z.land m MSR_RI = Z.land (k_msr s) MSR_RI ->
  tlist T (ins_prio (k_prio s1) t L) -> kernel s2 (ins_prio (k_prio s1) t L) W.
Proof.
  intros [Hk Hs] Hu Hp -> Hm HT. pose proof (unused_wq _ _ _ _ Hk Hu) as Hni.
  destruct Hu as (Htv & HtL & HtW & Hts). assert (Hp' := Hp). destruct Hp' as [ [P1 P2 P3 P4 P5 P7 P9] P6 P8].
  assert (Hso : forall X, t ∉ X -> sorted (k_prio s) X -> sorted (k_prio s1) X).
  { intros X HX. apply sorted_ext. intros x Hx. symmetry. apply P7. by intros ->. }
  assert (Hin : forall x, x ∈ ins_prio (k_prio s1) t L <-> x = t \/ x ∈ L) by (intros; apply elem_of_ins).
  assert (Hne : forall x, x ∈ L -> x <> t) by (by intros x Hx ->).
  assert (HWne : forall q x, x ∈ W q -> x <> t) by (intros q x Hx ->; by apply (Hni q)).
  destruct P8 as (T1 & T2 & T3 & T4 & T5 & T6). destruct P9 as (C1 & C2 & C3 & C4). split.
  - split; [split|]; ksimpl; rewrite ?P1, ?C4.
    + apply (ki_null _ _ _ Hk).
    + done.
    + apply ins_NoDup; [done|apply (ki_nodup _ _ _ Hk)].
    + intros x [->|Hx]%Hin; [done|by apply (ki_valid _ _ _ Hk)].
    + apply ins_sorted, Hso; [done|apply (ki_sorted _ _ _ Hk)].
    + apply (waits_ext s1); try done. by apply (waits_prepared s t prio s1 W (ki_waits _ _ _ Hk)).
    + intros q x Hx. apply Hin. right. by eapply (ki_live _ _ _ Hk).
    + intros q. apply Hso; [apply Hni|apply (ki_wsorted _ _ _ Hk)].
    + intros o x Hx. apply Hin. right. by eapply (ki_owner _ _ _ Hk).
    + intros x [->|Hx]%Hin; [rewrite T1, T2, T3; split; [lia|done]|].
      destruct (P7 x (Hne x Hx)) as (-> & _ & -> & -> & _). by apply (ki_status _ _ _ Hk).
    + intros o x Hx. destruct (P7 x (HWne _ x Hx)) as (_ & -> & _). by apply (ki_token _ _ _ Hk).
  - destruct Hs as [S1 S2 S3 S4 (B1 & B2 & B3)].
    assert (Hc : forall T m, cur (set_msr m (set_tl T s1)) = cur s) by (intros; unfold cur; ksimpl; by rewrite C1, C2).
    split; ksimpl; rewrite ?C1, ?C2; try done.
    + apply Hin. by right.
    + intros x [->|Hx]%Hin; ksimpl; [by rewrite T6|]. rewrite C1.
      destruct (P7 x (Hne x Hx)) as (_ & _ & _ & _ & _ & _ & ->). by apply S2.
    + unfold in_excpt. ksimpl. by rewrite Hm.
    + rewrite Hc. unfold best, running. ksimpl. destruct (P7 _ (Hne _ B1)) as (_ & _ & -> & _ & -> & _).
      split_and!; [apply Hin; by right|done|].
      intros x [->|Hx]%Hin; [by rewrite T2|]. destruct (P7 x (Hne x Hx)) as (_ & _ & -> & _ & -> & _).
      by apply B3.
Qed.

Lemma prepare_spec s L W t entry arg sp prio exit sda sda2 :
  kernel s L W -> unused s L W t ->
  wp (KThreadPrepare exit sda sda2 t entry arg sp prio)
    (fun _ s' => exists s1, prepared s t prio s1 /\
       kernel s' (ins_prio (k_prio s1) t L) W /\ k_prio s' = k_prio s1 /\ k_baseprio s' = k_baseprio s1 /\
       k_state s' t = KTHR_STATE_WAITING /\ k_suspend s' t = 1 /\
       k_msr s' = Z.ldiff (k_msr s) MSR_FP /\ cpu_step (set_tl (k_tl s') s1) s' /\
       c_pc (k_ctx s' t) = entry /\ c_gpr3 (k_ctx s' t) = arg /\ c_lr (k_ctx s' t) = exit) s.
Proof.
  intros Hks Hu. assert (H := Hu). destruct H as (Htv & HtL & HtW & Hts). assert (Hk := proj1 Hks).
  assert (Hq : q_valid s (QWaiters t) = true) by by apply bool_decide_eq_true.
  assert (Htn : t <> NULL) by (intros ->; by apply (ki_null _ _ _ Hk)).
  assert (Hend : forall s1, prepared s t prio s1 -> c_pc (k_ctx s1 t) = entry ->
    c_gpr3 (k_ctx s1 t) = arg -> c_lr (k_ctx s1 t) = exit ->
    wp (st <- PPCIrqLockByMsr; KThreadEnqueue t;; PPCIrqUnlockByMsr st)
    (fun _ s' => exists s1, prepared s t prio s1 /\
       kernel s' (ins_prio (k_prio s1) t L) W /\ k_prio s' = k_prio s1 /\ k_baseprio s' = k_baseprio s1 /\
       k_state s' t = KTHR_STATE_WAITING /\ k_suspend s' t = 1 /\
       k_msr s' = Z.ldiff (k_msr s) MSR_FP /\ cpu_step (set_tl (k_tl s') s1) s' /\
       c_pc (k_ctx s' t) = entry /\ c_gpr3 (k_ctx s' t) = arg /\ c_lr (k_ctx s' t) = exit) s1).
  { intros s1 Hp E1 E2 E3. assert (Hp' := Hp). destruct Hp' as [ [P1 P2 P3 P4 P5 P7 P9] P6 P8].
    apply wp_bind, wp_irq_lock. intros st Hst Hmsr.
    set (s2 := set_msr _ _). apply wp_bind.
    assert (Hl2 : tlist (k_tl s2) L).
    { unfold tlist, s2. ksimpl. rewrite P2. apply (lseg_frame (tl_next (k_tl s))); [|apply (ki_tl _ _ _ Hk)].
      intros x Hx. apply P3. by intros ->. }
    eapply wp_mono; [apply (enqueue_spec s2 L Hl2 (ki_nodup _ _ _ Hk))|]; unfold s2; ksimpl; rewrite ?P1; try done.
    { apply (ki_valid _ _ _ Hk). }
    intros ? s3 (T & -> & HT). apply wp_irq_unlock. exists s1. ksimpl in HT. ksimpl.
    destruct P8 as (T1 & T2 & T3 & T4 & T5 & T6). destruct P9 as (C1 & C2 & C3 & C4).
    rewrite Hmsr, C3. split_and!; try done; [|by eexists _, (k_self s1), (k_next_ctx s1), (k_ctx s1); destruct s1].
    eapply (prepared_kernel s L W t prio s1 _ T); try done.
    by apply land_ldiff_disjoint. }
  unfold KThreadPrepare. apply wp_bind. eapply wp_mono; [by apply clear_spec|].
  intros _ s0 (H0 & Hown & Hwq). clear Hq. assert (Htv0 : t ∈ k_thr s0) by by rewrite (to_thr _ _ _ H0).
  eapply fill_spec; [done|]. intros s1 H1 F1 F2 F3 F4 F5 F6 F7.
  assert (Htv1 : t ∈ k_thr s1) by by rewrite (to_thr _ _ _ H1).
  assert (Hp : prepared s t prio s1).
  { split; [by eapply touch_trans|by rewrite F1|]. by rewrite F2, F3, F4, F5, F6, F7. }
  destruct (Z.eqb_spec (Z.ldiff sp 7) 0) as [E|E]; cbn [negb when].
  - apply wp_bind, wp_ret. apply Hend; [done|by rewrite F7..].
  - apply wp_bind. krun. ksimpl. rewrite !fupd_eq. destruct Hp as [HT HO HV].
    apply Hend; [|ksimpl; by rewrite fupd_eq, F7..]. split; [|done|ksimpl; rewrite fupd_eq; exact HV].
    eapply touch_trans; [exact HT|]. split; ksimpl; try done. intros x Hx. by rewrite fupd_ne.
Qed.

(** ** Exit *)

(** The exiting thread has left the list of threads. *)
Record exited (s : kst) (rc : Z) (s1 : kst) : Prop := {
  ex_thr : k_thr s1 = k_thr s;
  ex_prio : k_prio s1 = k_prio s;
  ex_base : k_baseprio s1 = k_baseprio s;
  ex_state : k_state s1 = fupd (k_state s) (k_self s) KTHR_STATE_FINISHED;
  ex_suspend : k_suspend s1 = k_suspend s;
  ex_token : k_token s1 = k_token s;
  ex_wq : k_wq s1 = k_wq s;
  ex_owner : k_owner s1 = k_owner s;
  ex_rc : link_next s1 (k_self s) = rc;
  ex_ctx : k_ctx s1 = k_ctx s;
  ex_cpu : k_self s1 = k_self s /\ k_next_ctx s1 = k_next_ctx s /\
    k_msr s1 = Z.ldiff (k_msr s) (Z.lor MSR_EE (Z.lor MSR_FP MSR_RI));
  ex_fpu : k_fpu s1 <> k_self s \/ k_self s = NULL;
}.

Lemma waits_link_out s W t v : waits s W -> (forall q, t ∉ W q) -> waits (set_ln t v s) W.
Proof.
  intros Hw Ht. split; [|apply (w_nodup _ _ Hw)|apply (w_in _ _ Hw)].
  intros q. ksimpl. eapply dseg_fupd_n; [apply Ht|apply (w_links _ _ Hw)].
Qed.

Lemma exit_start_spec s L W rc :
  kernel s L W -> running s (k_self s) -> W (QWaiters (k_self s)) = [] ->
  wp (msr <- gets k_msr;
      modify (set_msr (Z.ldiff msr (Z.lor MSR_EE (Z.lor MSR_FP MSR_RI))));;
      fpu <- gets k_fpu;
      when (fpu =? k_self s) (modify (set_fpu 0));;
      KThreadDequeue (k_self s);;
      wr_state (k_self s) KTHR_STATE_FINISHED;;
      wr_link_next (k_self s) rc)
    (fun _ s1 => exited s rc s1 /\ kinv s1 (rem (k_self s) L) W) s.
Proof.
  intros [Hk Hs] Hr HW. set (t := k_self s) in *. assert (Ht : t ∈ L) by apply Hs.
  assert (Htv := ki_valid _ _ _ Hk _ Ht). destruct (status_running _ _ _ _ Hk Ht Hr) as [Hq _].
  assert (Hni : forall q, t ∉ W q).
  { intros q [_ ?]%(w_in _ _ (ki_waits _ _ _ Hk)). congruence. }
  assert (Htn : t <> NULL) by (intros E; apply (ki_null _ _ _ Hk); by rewrite <- E).
  set (m := Z.ldiff (k_msr s) (Z.lor MSR_EE (Z.lor MSR_FP MSR_RI))).
  assert (Hmain : forall f, f <> t -> wp (KThreadDequeue t;; wr_state t KTHR_STATE_FINISHED;; wr_link_next t rc)
    (fun _ s1 => exited s rc s1 /\ kinv s1 (rem t L) W) (set_fpu f (set_msr m s))).
  { intros f Hf. apply wp_bind. eapply wp_mono;
      [by apply (dequeue_spec (set_fpu f (set_msr m s)) L (ki_tl _ _ _ Hk) (ki_nodup _ _ _ Hk)
        (ki_valid _ _ _ Hk))|].
    intros _ s2 (T & -> & HT). krun. ksimpl. split.
    - split; try done; [|by left]. unfold link_next. ksimpl. by rewrite fupd_eq.
    - split; [split|]; ksimpl; try done.
      + apply (ki_null _ _ _ Hk).
      + apply rem_NoDup, (ki_nodup _ _ _ Hk).
      + intros x [Hx _]%elem_of_rem. by apply (ki_valid _ _ _ Hk).
      + apply sorted_rem, (ki_sorted _ _ _ Hk).
      + apply (waits_ext (set_ln t rc s)); try done. by apply waits_link_out; [apply (ki_waits _ _ _ Hk)|].
      + intros q x Hx. apply elem_of_rem. split; [by eapply (ki_live _ _ _ Hk)|]. intros ->. by apply (Hni q).
      + apply (ki_wsorted _ _ _ Hk).
      + intros o x Hx. apply elem_of_rem. split; [by eapply (ki_owner _ _ _ Hk)|]. intros ->.
        rewrite HW in Hx. by apply not_elem_of_nil in Hx.
      + intros x [Hx Hne]%elem_of_rem. rewrite fupd_ne by done. by apply (ki_status _ _ _ Hk).
      + apply (ki_token _ _ _ Hk). }
  do 6 kstep. fold m. change (k_fpu (set_msr m s)) with (k_fpu s).
  destruct (Z.eqb_spec (k_fpu s) t) as [E|E]; cbn [when]; apply wp_bind.
  - apply wp_modify. apply Hmain. by apply not_eq_sym.
  - apply wp_ret. by apply (Hmain (k_fpu s)).
Qed.

(** Jumping to the best thread from exception state, when the old thread is no
    longer in the list. *)
Lemma exit_jump_spec s L W t (c : K unit) :
  kinv s L W -> best s L t -> ctx_ok s L -> k_self s ∉ L ->
  wpk (kswitch (PPCContextJump t) c) (fun _ _ => False)
    (fun _ s' => cpu_step s s' /\ kernel s' L W /\ k_self s' = t /\ in_excpt s' = false) s.
Proof.
  intros Hk (H1 & H2 & H3) Hc Hself. assert (Htv := ki_valid _ _ _ Hk _ H1).
  apply wpk_switch, wp_jump; [done|]. intros m Hm.
  assert (Hst : cpu_step s (set_msr m (set_self t (set_next_ctx NULL s)))).
  { exists m, t, NULL, (k_ctx s). by destruct s. }
  assert (Hri : Z.land m MSR_RI <> 0) by (rewrite Hm; apply Hc; [done|congruence]).
  split; [done|]. split_and!; [|done|unfold in_excpt; ksimpl; lia]. split; [by eapply kinv_cpu|].
  split; ksimpl; try done.
  - intros x Hx _. ksimpl. apply Hc; [done|congruence].
  - intros E. rewrite <- E in Htv. by apply (ki_null _ _ _ Hk).
Qed.

(** Rescheduling inside an exception only records the better thread. *)
Lemma reschedule_excpt s t st (Q : unit -> kst -> Prop) R :
  in_excpt s = true -> k_next_ctx s = NULL -> k_self s ∈ k_thr s -> (t <> NULL -> t ∈ k_thr s) ->
  (forall m, Q tt (set_msr m (set_next_ctx (if negb (t =? NULL) && (k_prio s t <? k_prio s (k_self s))
                                            then t else NULL) s))) ->
  wpk (KThreadReschedule t st) Q R s.
Proof.
  intros Hex Hn Hself Ht HQ.
  assert (Hs : set_next_ctx NULL s = s) by (destruct s; simpl in Hn; by subst).
  unfold KThreadReschedule. destruct (Z.eqb_spec t NULL) as [->|Htn]; cbn [negb andb] in HQ.
  - krun. apply wp_irq_unlock. rewrite Hs in HQ. apply HQ.
  - specialize (Ht Htn). krun. destruct (k_prio s t <? k_prio s (k_self s)).
    + unfold KThreadSwitchTo. krun. unfold in_excpt in Hex. rewrite Hex. kstep. krun. rewrite Hn.
      cbn [Z.eqb]. krun. cbn [when]. krun. apply wp_irq_unlock, HQ.
    + krun. apply wp_irq_unlock. rewrite Hs in HQ. apply HQ.
Qed.

(** The threads that wait for the exit of the current thread. *)
Definition joiners (s : kst) (W : qref -> list Z) : list Z :=
  woken (k_token s) KTHR_UNBLOCK_BY_VALUE (k_self s) (-1) (W s_joinQueue).

(** What the exit of the thread that was current in [s] leaves behind. *)
Definition exit_post (s : kst) (L : list Z) (W : qref -> list Z) (rc : Z) (s' : kst) : Prop :=
  let t := k_self s in
  kernel s' (rem t L) (without W s_joinQueue (joiners s W)) /\
  k_prio s' = k_prio s /\ k_baseprio s' = k_baseprio s /\
  k_state s' t = KTHR_STATE_FINISHED /\ link_next s' t = rc /\ in_excpt s' = false /\
  (forall x, x ∈ joiners s W ->
     k_wq s' x = None /\ k_token s' x = 1 /\ (k_suspend s x = 0 -> running s' x)) /\
  calm t s s' /\ k_owner s' = k_owner s.

Section Exit.
Context (s : kst) (L : list Z) (W : qref -> list Z) (rc : Z) (s1 s2 : kst) (m : Z).
Context (Hk : kinv s L W) (Hs : sched s L) (Hr : running s (k_self s)).
Context (Hx : exited s rc s1) (Hwk : woke (fun _ => 1) (joiners s W) (set_msr m s1) s2).
Context (Hk2 : kinv s2 (rem (k_self s) L) (without W s_joinQueue (joiners s W))).
Let t := k_self s.
Let wk := joiners s W.

Lemma joiners_live x : x ∈ wk -> x ∈ rem t L.
Proof.
  intros H%woken_sub. apply elem_of_rem. split; [by eapply (ki_live _ _ _ Hk)|]. intros ->.
  apply (w_in _ _ (ki_waits _ _ _ Hk)) in H as [_ H].
  destruct (status_running _ _ _ _ Hk (sc_self _ _ Hs) Hr) as [Hq _]. unfold t in H. congruence.
Qed.

Lemma exit_running x : x ∈ rem t L -> running s2 x <-> (running s x \/ x ∈ wk /\ k_suspend s x = 0).
Proof.
  intros [H1 Hne]%elem_of_rem. destruct Hwk as (a & b & c & d & -> & A & B & C & D). unfold running.
  ksimpl. rewrite A. ksimpl. rewrite (ex_state _ _ _ Hx), (ex_suspend _ _ _ Hx), fupd_ne by done. fold wk.
  case_decide; tauto.
Qed.

Lemma exit_best y :
  y ∈ rem t L -> running s2 y ->
  (forall x, x ∈ rem t L -> running s x -> k_prio s y <= k_prio s x) ->
  (forall x, x ∈ wk -> k_suspend s x = 0 -> k_prio s y <= k_prio s x) -> best s2 (rem t L) y.
Proof.
  intros Y1 Y2 Y3 Y4. split_and!; [done..|].
  assert (Hp : k_prio s2 = k_prio s1) by (by destruct Hwk as (? & ? & ? & ? & -> & _)).
  rewrite Hp, (ex_prio _ _ _ Hx). intros x Z1 [?|[? ?] ]%(exit_running x Z1); auto.
Qed.

Lemma exit_finish y n m' (c : K unit) :
  best s2 (rem t L) y ->
  wpk (kswitch (PPCContextJump y) c) (fun _ _ => False)
    (fun _ s' => exit_post s L W rc s') (set_msr m' (set_next_ctx n s2)).
Proof.
  intros Hy. set (s3 := set_msr m' (set_next_ctx n s2)).
  assert (Hk4 : kinv s3 (rem t L) (without W s_joinQueue wk)).
  { eapply kinv_cpu; [|exact Hk2]. exists m', (k_self s2), n, (k_ctx s2). by destruct s2. }
  assert (Hctx : k_ctx s3 = k_ctx s /\ k_self s3 = t).
  { unfold s3. destruct Hwk as (? & ? & ? & ? & -> & _). ksimpl. destruct (ex_cpu _ _ _ Hx) as (-> & _).
    by rewrite (ex_ctx _ _ _ Hx). }
  destruct Hctx as [Hc1 Hc2].
  eapply wpk_mono; [apply (exit_jump_spec s3 (rem t L) (without W s_joinQueue wk) y)|done|]; [done..| | |].
  - intros x [H1 H2]%elem_of_rem _. rewrite Hc1. by apply (sc_ctx _ _ Hs).
  - rewrite Hc2. by intros [_ ?]%elem_of_rem.
  - intros _ s' ((m5 & x5 & c5 & f5 & ->) & Hk5 & Hself5 & Hex5). clear Hk4 Hy Hc1 Hc2.
    assert (Htw : t ∉ wk) by (by intros [_ ?]%joiners_live%elem_of_rem).
    destruct (status_running _ _ _ _ Hk (sc_self _ _ Hs) Hr) as [Htq _].
    destruct Hwk as (a & b & cc & d & E2 & A & B & C & D). ksimpl in A. ksimpl in B. ksimpl in C. ksimpl in D.
    rewrite (ex_suspend _ _ _ Hx), (ex_state _ _ _ Hx) in A.
    assert (Eb : k_state s2 = a /\ k_token s2 = b /\ k_wq s2 = cc /\ k_lk s2 = d) by by subst s2.
    assert (Ep : k_prio s2 = k_prio s1 /\ k_baseprio s2 = k_baseprio s1) by by subst s2. destruct Ep as [Ep1 Ep2].
    assert (Eo : k_thr s2 = k_thr s /\ k_owner s2 = k_owner s)
      by (subst s2; ksimpl; by rewrite (ex_thr _ _ _ Hx), (ex_owner _ _ _ Hx)). destruct Eo as [Eo1 Eo2].
    clear E2. destruct Eb as (<- & <- & <- & <-). split; [done|]. split_and!.
    + change (k_prio s2 = k_prio s). by rewrite Ep1, (ex_prio _ _ _ Hx).
    + change (k_baseprio s2 = k_baseprio s). by rewrite Ep2, (ex_base _ _ _ Hx).
    + change (k_state s2 t = KTHR_STATE_FINISHED). rewrite A, fupd_eq, decide_False; [done|tauto].
    + change (ln (k_lk s2) t = rc). rewrite D; [exact (ex_rc _ _ _ Hx)|]. by rewrite (ex_wq _ _ _ Hx).
    + done.
    + intros x Hxw. change (k_wq s2 x = None /\ k_token s2 x = 1 /\
        (k_suspend s x = 0 -> k_state s2 x = KTHR_STATE_RUNNING)).
      rewrite A, B, C, !(decide_True (P := x ∈ joiners s W)) by done.
      split_and!; try done. intros Hx0. by rewrite decide_True.
    + apply (calm_cpu t s s2); [by exists m5, x5, c5, f5|]. apply calm_intro; [done..| |].
      * intros x Hxt Hxr. unfold running. rewrite A, fupd_ne by done. by case_decide.
      * intros x o Hxv Hq. rewrite B, C, (ex_wq _ _ _ Hx), (ex_token _ _ _ Hx).
        assert (x ∉ joiners s W).
        { intros Hin%woken_sub. apply (w_in _ _ (ki_waits _ _ _ Hk)) in Hin as [_ Hin]. by rewrite Hin in Hq. }
        rewrite !decide_False by done. eauto.
    + done.
Qed.
End Exit.

Lemma exit_spec s L W rc :
  kernel s L W -> running s (k_self s) -> in_excpt s = false -> W (QWaiters (k_self s)) = [] ->
  (exists x, x ∈ L /\ running s x /\ x <> k_self s) ->
  wpk (KThreadExit rc) (fun _ _ => False) (fun _ s' => exit_post s L W rc s') s.
Proof.
  intros Hks Hr Hex HW (i & Hi & Hir & Hit). assert (H := Hks). destruct H as [Hk Hs]. set (t := k_self s) in *.
  unfold KThreadExit. kstep. kstep. kstep. eapply wp_mono; [by apply (exit_start_spec s L W rc)|].
  intros _ s1 [Hx Hk1]. destruct (ex_cpu _ _ _ Hx) as (X9 & X10 & X11).
  assert (Hin : in_excpt s1 = true).
  { unfold in_excpt. rewrite X11. apply Z.eqb_eq. rewrite Z.ldiff_land, <- Z.land_assoc.
    replace (Z.land (Z.lnot (Z.lor MSR_EE (Z.lor MSR_FP MSR_RI))) MSR_RI) with 0 by done. apply Z.land_0_r. }
  assert (Hnc : k_next_ctx s = NULL) by by apply (sc_next _ _ Hs).
  unfold KThrQueueUnblockAllByValue, KThrQueueUnblockCommon. kstep. lock st Hl. gen_msr s1 m. intros Hl.
  assert (Hm := lk_excpt _ _ _ _ Hl). ksimpl in Hm. clear Hl.
  assert (Hk2 : kinv (set_msr m s1) (rem t L) W) by (eapply kinv_cpu; [apply cpu_step_msr|done]).
  kstep. eapply wp_mono; [by apply (unblock_queue_spec (set_msr m s1) (rem t L) W 1 (-1))|].
  intros r s2 [ [Hwk Hk3] ->]. change (k_token (set_msr m s1)) with (k_token s1) in *.
  change (k_suspend (set_msr m s1)) with (k_suspend s1).
  rewrite (ex_token _ _ _ Hx) in Hwk, Hk3 |- *. rewrite (ex_suspend _ _ _ Hx).
  change (woken _ _ _ _ _) with (joiners s W) in *. change (new_token _ _) with (fun _ : Z => 1) in Hwk.
  assert (E2 : k_prio s2 = k_prio s /\ k_self s2 = t /\ k_next_ctx s2 = NULL /\ k_thr s2 = k_thr s /\
    k_msr s2 = m).
  { destruct Hwk as (? & ? & ? & ? & -> & _). ksimpl. by rewrite (ex_prio _ _ _ Hx), (ex_thr _ _ _ Hx), X9, X10. }
  destruct E2 as (E2 & E3 & E4 & E5 & E6). assert (Hlive := joiners_live s L W Hk Hs Hr).
  apply reschedule_excpt; [unfold in_excpt; rewrite E6, Hm; exact Hin|done|..].
  { rewrite E3, E5. apply (ki_valid _ _ _ Hk), Hs. }
  { intros [H1 _]%first_free_in. by apply (ki_valid _ _ _ Hk3), Hlive. }
  intros m'. rewrite E2, E3. set (r := first_free (k_suspend s) (joiners s W)).
  assert (Hself_best : forall x, x ∈ rem t L -> running s x -> k_prio s t <= k_prio s x).
  { intros x [H1 _]%elem_of_rem H2. destruct (sc_best _ _ Hs) as (_ & _ & Hb).
    rewrite (cur_self s Hnc) in Hb. by apply Hb. }
  destruct (negb (r =? NULL) && (k_prio s r <? k_prio s t)) eqn:Eb.
  - apply andb_true_iff in Eb as [Er%negb_true_iff Hlt]. apply Z.ltb_lt in Hlt. kstep. krun. ksimpl.
    rewrite Er. apply Z.eqb_neq in Er. destruct (first_free_in _ _ Er) as [F1 F2]. krun.
    apply (exit_finish s L W rc s1 s2 m); try done. apply (exit_best s L W rc s1 s2 m); try done.
    + by apply Hlive.
    + apply (exit_running s L W rc s1 s2 m); auto.
    + intros x Z1 Z2. specialize (Hself_best x Z1 Z2). lia.
    + intros x Z1 Z2. apply (first_free_best (k_prio s)); try done.
      * intros Hn%Hlive. by apply (ki_null _ _ _ Hk1), (ki_valid _ _ _ Hk1).
      * apply woken_sorted, (ki_wsorted _ _ _ Hk).
  - kstep. krun. ksimpl. cbn [Z.eqb]. set (s3 := set_msr m' (set_next_ctx NULL s2)).
    assert (Hk4 : kinv s3 (rem t L) (without W s_joinQueue (joiners s W))).
    { eapply kinv_cpu; [|exact Hk3]. exists m', (k_self s2), NULL, (k_ctx s2). by destruct s2. }
    apply (find_first_spec s3 _ _ _ Hk4).
    + exists i. assert (i ∈ rem t L) by by apply elem_of_rem. split; [done|].
      apply (exit_running s L W rc s1 s2 m); auto.
    + intros y Hy _. by apply (exit_finish s L W rc s1 s2 m).
Qed.
