(* ===== verification/KSync.v ===== *)
(** * Mutexes and condition variables ([tuxedo/sync.c], [gc/tuxedo/sync.h])

    Mutexes with priority inheritance: a thread that waits for a mutex is in
    the [waiters] queue of the thread that owns it, and the owner's dynamic
    priority is at least that of its first waiter. *)

From stdpp Require Import base gmap list fin_maps.
From Stdlib Require Import ZArith Lia.
From S2P Require Import Prelude Chain KState KTick KThread.

Open Scope Z_scope.

Definition rd_owner (m : Z) : M kst Z := gets (fun s => k_owner s m).
Definition wr_owner (m t : Z) : M kst unit := modify (fun s => set_owner (fupd (k_owner s) m t) s).

(** ** Priority inheritance *)

(** The loop of [KThreadUpdateDynamicPrio] along the chain of owners. *)
Fixpoint update_prio_loop (fuel : nat) (t : Z) : M kst unit :=
  match fuel with
  | O => fail OutOfFuel
  | S n =>
      base <- rd k_baseprio t;
      first <- rd_q qn (QWaiters t);
      prio <- (if negb (first =? NULL)
               then waiter_prio <- rd k_prio first; ret (if waiter_prio <? base then waiter_prio else base)
               else ret base);
      old <- rd k_prio t;
      if old =? prio then ret tt else
      KThreadDequeue t;;
      wr_prio t (u16 prio);;
      KThreadEnqueue t;;
      x <- rd k_state t;
      if is_running x then ret tt else
      wq <- rd k_wq t;
      match wq with
      | None => ret tt
      | Some q =>
          KThrQueueRemove q t;;
          KThrQueueInsert q t;;
          x' <- rd k_state t;
          if negb (bool_decide (x' = KTHR_STATE_WAITING_MUTEX)) then ret tt else
          tok <- rd k_token t;
          owner <- rd_owner tok;
          update_prio_loop n owner
      end
  end.

Definition KThreadUpdateDynamicPrio (t : Z) : M kst unit :=
  fuel <- gets thr_fuel;
  update_prio_loop fuel t.

(** [KThreadSetPrio] of thread.c, which needs the update. *)
Definition KThreadSetPrio (t prio : Z) : K unit :=
  let! self := lift KThreadGetSelf in
  let! st := lift PPCIrqLockByMsr in
  let! nx := lift (
    curprio <- rd k_prio self;
    wr_baseprio t (Z.land prio KTHR_MIN_PRIO);;
    KThreadUpdateDynamicPrio t;;
    if t =? self then
      sp <- rd k_prio self;
      if curprio <? sp then first <- s_firstThread; KThreadFindRunnable first else ret NULL
    else
      x <- rd k_state t;
      ret (if is_running x then t else NULL)) in
  KThreadReschedule nx st.

(** ** Handing over a mutex *)

Fixpoint remove_waiter_loop (fuel : nat) (t token cur next_owner : Z) : M kst Z :=
  match fuel with
  | O => fail OutOfFuel
  | S n =>
      if cur =? NULL then ret next_owner else
      next_waiter <- rd link_next cur;
      tok <- rd k_token cur;
      if negb (tok =? token) then remove_waiter_loop n t token next_waiter next_owner else
      KThrQueueRemove (QWaiters t) cur;;
      (if next_owner =? NULL then
         sus <- rd k_suspend cur;
         wr_state cur (if sus =? 0 then KTHR_STATE_RUNNING else KTHR_STATE_WAITING);;
         remove_waiter_loop n t token next_waiter cur
       else
         KThrQueueInsert (QWaiters next_owner) cur;;
         remove_waiter_loop n t token next_waiter next_owner)
  end.

Definition KThreadRemoveWaiter (t token : Z) : M kst Z :=
  fuel <- gets thr_fuel;
  cur <- rd_q qn (QWaiters t);
  next_owner <- remove_waiter_loop fuel t token cur NULL;
  when (negb (next_owner =? NULL))
    (KThreadUpdateDynamicPrio t;; KThreadUpdateDynamicPrio next_owner);;
  ret next_owner.

(** ** Mutexes *)

(** The atomic compare-and-exchange of the owner. *)
Definition KMutexTryLockImpl (m self : Z) : M kst bool :=
  o <- rd_owner m;
  if o =? NULL then wr_owner m self;; ret true else ret false.

Definition KMutexTryLock (m : Z) : M kst bool :=
  self <- KThreadGetSelf;
  KMutexTryLockImpl m self.

Definition KMutexLock (m : Z) : K unit :=
  let! self := lift KThreadGetSelf in
  let! ok := lift (KMutexTryLockImpl m self) in
  if ok then kret tt else
  let! st := lift PPCIrqLockByMsr in
  let! o := lift (rd_owner m) in
  if o =? NULL then lift (wr_owner m self;; PPCIrqUnlockByMsr st) else
  let! nx := lift (
    wr_state self KTHR_STATE_WAITING_MUTEX;;
    wr_token self m;;
    o <- rd_owner m;
    KThrQueueInsert (QWaiters o) self;;
    sp <- rd k_prio self;
    o <- rd_owner m;
    op <- rd k_prio o;
    nx <- (if sp <? op then
             KThreadUpdateDynamicPrio o;;
             o' <- rd_owner m;
             x <- rd k_state o';
             ret (if is_running x then o' else NULL)
           else ret NULL);
    if nx =? NULL then first <- s_firstThread; KThreadFindRunnable first else ret nx) in
  KThreadSwitchTo nx st.

Definition KMutexUnlock (m : Z) : K unit :=
  let! self := lift KThreadGetSelf in
  let! st := lift PPCIrqLockByMsr in
  let! o := lift (rd_owner m) in
  if negb (o =? self) then lift (fail Hang) else
  let! nx := lift (
    old_prio <- rd k_prio self;
    o' <- KThreadRemoveWaiter self m;
    wr_owner m o';;
    sp <- rd k_prio self;
    if old_prio <? sp then first <- s_firstThread; KThreadFindRunnable first else ret self) in
  if negb (nx =? self) then KThreadReschedule nx st else lift (PPCIrqUnlockByMsr st).

(** ** Recursive mutexes *)

Definition KMutexIsLockedByCurrentThread (m : Z) : M kst bool :=
  o <- rd_owner m; self <- KThreadGetSelf; ret (o =? self).
Definition rd_counter (m : Z) : M kst Z := gets (fun s => k_counter s m).
Definition wr_counter (m v : Z) : M kst unit :=
  modify (fun s => set_counter (fupd (k_counter s) m v) s).

Definition KRMutexLock (m : Z) : K unit :=
  let! mine := lift (KMutexIsLockedByCurrentThread m) in
  if mine then lift (c <- rd_counter m; wr_counter m (u32 (c + 1)))
  else do! KMutexLock m then lift (wr_counter m 1).

Definition KRMutexTryLock (m : Z) : M kst bool :=
  mine <- KMutexIsLockedByCurrentThread m;
  if mine then c <- rd_counter m; wr_counter m (u32 (c + 1));; ret true
  else rc <- KMutexTryLock m; when rc (wr_counter m 1);; ret rc.

Definition KRMutexUnlock (m : Z) : K unit :=
  let! c := lift (rd_counter m) in
  do! lift (wr_counter m (u32 (c - 1))) then
  if u32 (c - 1) =? 0 then KMutexUnlock m else kret tt.

(** ** Condition variables *)

Definition KCondVarSignal (cv : Z) : K unit := KThrQueueUnblockOneByValue s_cvWaitQueue cv.
Definition KCondVarBroadcast (cv : Z) : K unit := KThrQueueUnblockAllByValue s_cvWaitQueue cv.

Definition KCondVarWait (cv m : Z) : K unit :=
  let! self := lift KThreadGetSelf in
  let! st := lift PPCIrqLockByMsr in
  let! o := lift (rd_owner m) in
  if negb (o =? self) then lift (fail Hang) else
  do! lift (o' <- KThreadRemoveWaiter self m; wr_owner m o') then
  do! KThrQueueBlock s_cvWaitQueue cv then
  do! KMutexLock m then
  lift (PPCIrqUnlockByMsr st).

(** The code address of [KCondVarTimeoutFn]; [self] is read from the structure
    that holds the task. *)
Definition fn_KCondVarTimeoutFn : Z := 2.
Definition KCondVarTimeoutFn (self : Z) : K unit := KThrQueueCancel s_cvWaitQueue self.

(** [task] is the address of the local [KCondVarTimeout]. *)
Definition KCondVarWaitTimeoutTicks (task cv m timeout_ticks : Z) : K bool :=
  if timeout_ticks =? 0 then kret false else
  let! self := lift KThreadGetSelf in
  let! st := lift PPCIrqLockByMsr in
  let! o := lift (rd_owner m) in
  if negb (o =? self) then lift (fail Hang) else
  do! lift (o' <- KThreadRemoveWaiter self m; wr_owner m o';;
            KTickTaskStart task fn_KCondVarTimeoutFn timeout_ticks 0) then
  let! tok := KThrQueueBlock s_cvWaitQueue cv in
  do! lift (KTickTaskStop task) then
  do! KMutexLock m then
  do! lift (PPCIrqUnlockByMsr st) then
  kret (negb (tok =? 0)).
