(* ===== verification/KPrio.v ===== *)
(** * Priority inheritance

    [KThreadUpdateDynamicPrio] walks from a thread along the owners of the
    mutexes the threads wait for. Where no cycle of waiting threads exists it
    terminates, and afterwards every thread has its dynamic priority: its base
    priority or, if higher, that of its first waiter. *)

From stdpp Require Import base gmap list fin_maps.
From Stdlib Require Import ZArith Lia Sorted.
From S2P Require Import Prelude Chain KState KTick KThread KLists KSched KSchedOps KBlock KSync.

Open Scope Z_scope.

(** ** Chains of waiting threads *)

(** [path W t p]: [p] is the chain that starts at [t] and leads from each
    thread to the owner of the mutex it waits for. *)
Inductive path (W : qref -> list Z) : Z -> list Z -> Prop :=
| path_end t : (forall o, t ∉ W (QWaiters o)) -> path W t [t]
| path_step t o p : t ∈ W (QWaiters o) -> path W o p -> path W t (t :: p).

(** Each thread waits in at most one queue. *)
Definition single (W : qref -> list Z) : Prop := forall q q' t, t ∈ W q -> t ∈ W q' -> q = q'.

Lemma path_head W t p : path W t p -> exists p', p = t :: p'.
Proof. destruct 1; eauto. Qed.

Lemma path_det W t p p' : single W -> path W t p -> path W t p' -> p = p'.
Proof.
  intros Hs H. revert p'. induction H as [t Ht|t o p Ho Hp IH]; intros p' H'.
  - destruct H' as [|t o p Ho]; [done|]. by destruct (Ht o).
  - destruct H' as [t Ht|t o' p'' Ho' Hp']; [by destruct (Ht o)|].
    assert (o' = o) as -> by (by injection (Hs _ _ _ Ho' Ho)). f_equal. auto.
Qed.

Lemma path_suffix W t p x : path W t p -> x ∈ p -> exists p', path W x p' /\ (length p' <= length p)%nat.
Proof.
  induction 1 as [t Ht|t o p Ho Hp IH]; intros Hx.
  - apply list_elem_of_singleton in Hx as ->. exists [t]. split; [by constructor|done].
  - apply elem_of_cons in Hx as [->|Hx]; [exists (t :: p); split; [by econstructor|done]|].
    destruct (IH Hx) as (p' & H1 & H2). exists p'. simpl. auto with lia.
Qed.

Lemma path_NoDup W t p : single W -> path W t p -> NoDup p.
Proof.
  intros Hs. induction 1 as [t Ht|t o p Ho Hp IH]; [apply NoDup_singleton|].
  apply NoDup_cons. split; [|done]. intros Hin. destruct (path_suffix _ _ _ _ Hp Hin) as (p' & H1 & H2).
  assert (p' = t :: p) as -> by (eapply path_det; [done..|by econstructor]). simpl in H2. lia.
Qed.

Lemma path_irrefl W t p : single W -> path W t p -> t ∉ W (QWaiters t).
Proof.
  intros Hs Hp Ht. pose proof (path_step _ _ _ _ Ht Hp) as Hp'.
  pose proof (path_det _ _ _ _ Hs Hp Hp') as E. apply (f_equal length) in E. simpl in E. lia.
Qed.

Lemma path_next W t o p : single W -> path W t (t :: p) -> t ∈ W (QWaiters o) -> path W o p.
Proof.
  intros Hs Hp Ho. inversion Hp as [? Hn|? o' ? Ho' Hp']; subst; [by destruct (Hn o)|].
  by injection (Hs _ _ _ Ho Ho') as ->.
Qed.

Lemma path_live W t p (L : list Z) :
  (forall o x, x ∈ W (QWaiters o) -> o ∈ L) -> t ∈ L -> path W t p -> forall x, x ∈ p -> x ∈ L.
Proof.
  intros Ho Ht H. induction H as [t Hn|t o p Hin Hp IH]; intros x; [by intros ->%list_elem_of_singleton|].
  intros [->|Hx]%elem_of_cons; [done|]. apply IH; [|done]. by eapply Ho.
Qed.

Lemma path_ext W W' t p : (forall q x, x ∈ W' q <-> x ∈ W q) -> path W t p -> path W' t p.
Proof.
  intros E. induction 1 as [t Ht|t o p Ho Hp IH].
  - constructor. intros o. by rewrite E.
  - apply (path_step _ _ o); [by rewrite E|done].
Qed.

Lemma kbase_single s L W : kbase s L W -> single W.
Proof.
  intros Hk q q' t [_ H]%(w_in _ _ (ki_waits _ _ _ Hk)) [_ H']%(w_in _ _ (ki_waits _ _ _ Hk)). congruence.
Qed.

(** ** Priority inheritance *)

Definition has_dyn_prio (s : kst) (W : qref -> list Z) (t : Z) : Prop := k_prio s t = dyn_prio s W t.

(** Every thread has its dynamic priority, and no threads wait in a cycle. *)
Record pinh (s : kst) (L : list Z) (W : qref -> list Z) : Prop := {
  pi_dyn : forall t, t ∈ L -> has_dyn_prio s W t;
  pi_path : forall t, t ∈ L -> exists p, path W t p;
  pi_base : forall t, t ∈ L -> 0 <= k_baseprio s t < 2 ^ 16 /\ 0 <= k_prio s t < 2 ^ 16;
}.

(** The dynamic priority depends on the first waiter only. *)
Lemma dyn_prio_ext s s' W W' t :
  k_baseprio s' t = k_baseprio s t -> W' (QWaiters t) = W (QWaiters t) ->
  (forall w, w ∈ W (QWaiters t) -> k_prio s' w = k_prio s w) -> dyn_prio s' W' t = dyn_prio s W t.
Proof.
  intros E1 E2 E3. unfold dyn_prio. rewrite E1, E2. destruct (W (QWaiters t)) as [|w r]; [done|].
  rewrite E3; [done|set_solver].
Qed.

(** With sorted queues the dynamic priority is the best of all waiters. *)
Lemma dyn_prio_waiters s W t w :
  sorted (k_prio s) (W (QWaiters t)) -> has_dyn_prio s W t -> w ∈ W (QWaiters t) -> k_prio s t <= k_prio s w.
Proof.
  unfold has_dyn_prio, dyn_prio. intros Hs -> Hw. destruct (W (QWaiters t)) as [|x r]; [by apply not_elem_of_nil in Hw|].
  pose proof (sorted_head _ _ _ _ Hs Hw). lia.
Qed.

(** Priorities changed along [p], everything else up to the order of lists. *)
Record bumped (p : list Z) (s s' : kst) (L L' : list Z) (W W' : qref -> list Z) : Prop := {
  bu_eq : exists T k wq pr, s' = set_tl T (set_lk k (set_wq wq (set_prio pr s)));
  bu_wq : forall x, k_wq s' x = k_wq s x;
  bu_L : L' ≡ₚ L;
  bu_W : forall q, W' q ≡ₚ W q;
  bu_prio : forall x, x ∉ p -> k_prio s' x = k_prio s x;
  bu_base : kbase s' L' W';
}.

Lemma bumped_refl s L W : kbase s L W -> bumped [] s s L L W W.
Proof.
  intros H. split; try done. exists (k_tl s), (k_lk s), (k_wq s), (k_prio s). by destruct s.
Qed.

Lemma bumped_trans p1 p2 s1 s2 s3 L1 L2 L3 W1 W2 W3 :
  bumped p1 s1 s2 L1 L2 W1 W2 -> bumped p2 s2 s3 L2 L3 W2 W3 -> bumped (p1 ++ p2) s1 s3 L1 L3 W1 W3.
Proof.
  intros [A1 A2 A3 A4 A5 A6] [B1 B2 B3 B4 B5 B6]. split; try done.
  - destruct A1 as (? & ? & ? & ? & ->), B1 as (T & k & wq & pr & ->). by exists T, k, wq, pr.
  - intros x. by rewrite B2.
  - by rewrite B3.
  - intros q. by rewrite B4.
  - intros x [? ?]%not_elem_of_app. rewrite B5, A5; done.
Qed.

Lemma bumped_mono p p' s s' L L' W W' :
  (forall x, x ∈ p -> x ∈ p') -> bumped p s s' L L' W W' -> bumped p' s s' L L' W W'.
Proof. intros H [A1 A2 A3 A4 A5 A6]. split; try done. intros x Hx. apply A5. auto. Qed.

(** ** One step *)

(** The thread moves to its place in the list of threads. *)
Lemma relist_spec s L W t p :
  kbase s L W -> t ∈ L ->
  wp (KThreadDequeue t;; wr_prio t p;; KThreadEnqueue t)
    (fun _ s' => exists T L', s' = set_tl T (set_prio (fupd (k_prio s) t p) s) /\
       tlist T L' /\ L' ≡ₚ L /\ sorted (fupd (k_prio s) t p) L') s.
Proof.
  intros Hk Ht. assert (Htv := ki_valid _ _ _ Hk _ Ht). assert (Hd := ki_nodup _ _ _ Hk).
  assert (Htn : t <> NULL) by (intros ->; by apply (ki_null _ _ _ Hk)).
  apply wp_bind. eapply wp_mono; [by apply (dequeue_spec s L (ki_tl _ _ _ Hk) Hd (ki_valid _ _ _ Hk))|].
  intros _ s1 (T1 & -> & H1). krun. set (s1 := set_prio _ (set_tl T1 s)).
  assert (Hni : t ∉ rem t L) by (by intros [_ ?]%elem_of_rem).
  assert (Hv : forall x, x ∈ rem t L -> x ∈ k_thr s1).
  { intros x [Hx _]%elem_of_rem. by apply (ki_valid _ _ _ Hk). }
  eapply wp_mono; [by apply (enqueue_spec s1 (rem t L) H1 (rem_NoDup t L Hd) Hv)|].
  intros _ s2 (T2 & -> & H2). exists T2, (ins_prio (fupd (k_prio s) t p) t (rem t L)).
  split; [done|]. split; [exact H2|]. split.
  - unfold ins_prio. rewrite ins_perm. apply list_elem_of_split in Ht as (A & B & ->).
    rewrite rem_split by done. by rewrite Permutation_middle.
  - apply ins_sorted. apply (sorted_ext (k_prio s)); [|apply sorted_rem, (ki_sorted _ _ _ Hk)].
    intros x Hx. rewrite fupd_ne; [done|]. by intros ->.
Qed.

(** A thread in no queue: the queues stay as they are. *)
Lemma bump_free s L W t p T L' :
  kbase s L W -> t ∈ L -> (forall q, t ∉ W q) ->
  tlist T L' -> L' ≡ₚ L -> sorted (fupd (k_prio s) t p) L' ->
  bumped [t] s (set_tl T (set_prio (fupd (k_prio s) t p) s)) L L' W W.
Proof.
  intros Hk Ht Hni HT HL Hso. split; try done.
  - exists T, (k_lk s), (k_wq s), (fupd (k_prio s) t p). by destruct s.
  - intros x Hx. ksimpl. apply fupd_ne. set_solver.
  - destruct Hk. split; ksimpl; try done.
    + by rewrite HL.
    + intros x. rewrite HL. auto.
    + by apply (waits_ext s).
    + intros q x. rewrite HL. eauto.
    + intros q. apply (sorted_ext (k_prio s)); [|auto]. intros x Hx. rewrite fupd_ne; [done|].
      intros ->. by apply (Hni q).
    + intros o x. rewrite HL. eauto.
    + intros x. rewrite HL. auto.
Qed.

(** A waiting thread also moves to its place in its queue. *)
Lemma requeue_spec s L W t p T L' q :
  kbase s L W -> t ∈ W q ->
  tlist T L' -> L' ≡ₚ L -> sorted (fupd (k_prio s) t p) L' ->
  let s1 := set_tl T (set_prio (fupd (k_prio s) t p) s) in
  let W' := fupd W q (ins_prio (fupd (k_prio s) t p) t (rem t (W q))) in
  wp (KThrQueueRemove q t;; KThrQueueInsert q t)
    (fun _ s' => bumped [t] s s' L L' W W' /\ k_prio s' = fupd (k_prio s) t p) s1.
Proof.
  intros Hk Ht HT HL Hso s1 W'. assert (Hw := ki_waits _ _ _ Hk). assert (Hsi := kbase_single _ _ _ Hk).
  assert (HtL := ki_live _ _ _ Hk _ _ Ht). assert (Htv := ki_valid _ _ _ Hk _ HtL).
  assert (Htn : t <> NULL) by (intros ->; by apply (ki_null _ _ _ Hk)).
  assert (Hw1 : waits s1 W) by by apply (waits_ext s).
  assert (Hq : q_valid s1 q = true).
  { destruct q as [|o]; [done|]. apply bool_decide_eq_true. apply (ki_valid _ _ _ Hk).
    by eapply (ki_owner _ _ _ Hk). }
  assert (Htq : k_wq s t = Some q) by by apply (w_in _ _ Hw) in Ht as [_ ?].
  apply wp_bind. eapply wp_mono; [by apply (queue_remove_spec s1 W Hw1)|].
  intros _ s2 (k1 & -> & Hw2 & _). set (W1 := fupd W q (rem t (W q))) in *.
  assert (Hni : forall q', t ∉ W1 q').
  { intros q' Hin. unfold W1 in Hin. destruct (decide (q' = q)) as [->|Hne].
    - rewrite fupd_eq in Hin. by apply elem_of_rem in Hin as [_ ?].
    - rewrite fupd_ne in Hin by done. by apply Hne, (Hsi _ _ t). }
  eapply wp_mono; [by apply (queue_insert_spec _ W1 Hw2 q t)|].
  intros _ s3 (k2 & -> & Hw3). ksimpl in Hw3. change (k_prio s1) with (fupd (k_prio s) t p) in Hw3.
  assert (HW3 : forall q', W' q' = fupd W1 q (ins_prio (fupd (k_prio s) t p) t (W1 q)) q').
  { intros q'. unfold W', W1. destruct (decide (q' = q)) as [->|Hne]; [by rewrite !fupd_eq|by rewrite !fupd_ne]. }
  assert (Hperm : forall q', W' q' ≡ₚ W q').
  { intros q'. unfold W'. destruct (decide (q' = q)) as [->|Hne]; [|by rewrite fupd_ne]. rewrite fupd_eq.
    unfold ins_prio. rewrite ins_perm. pose proof (w_nodup _ _ Hw q) as Hd.
    apply list_elem_of_split in Ht as (A & B & E). rewrite E in *. rewrite rem_split by done.
    by rewrite Permutation_middle. }
  split; [|done]. split; try done.
  - exists T, k2, (fupd (fupd (k_wq s) t None) t (Some q)), (fupd (k_prio s) t p). by destruct s.
  - intros x. ksimpl. destruct (decide (x = t)) as [->|Hne]; [by rewrite fupd_eq|by rewrite !fupd_ne].
  - intros x Hx. ksimpl. apply fupd_ne. set_solver.
  - destruct Hk. split; ksimpl; try done.
    + by rewrite HL.
    + intros x. rewrite HL. auto.
    + destruct Hw3 as [V1 V2 V3]. ksimpl in V1. ksimpl in V2. ksimpl in V3. split; ksimpl; intros *; rewrite HW3; auto.
    + intros q' x. rewrite Hperm, HL. eauto.
    + intros q'. change (sorted (fupd (k_prio s) t p) (W' q')). unfold W'.
      destruct (decide (q' = q)) as [->|Hne].
      * rewrite fupd_eq. apply ins_sorted, (sorted_ext (k_prio s)); [|by apply sorted_rem].
        intros x [_ Hx]%elem_of_rem. by rewrite fupd_ne.
      * rewrite fupd_ne by done. apply (sorted_ext (k_prio s)); [|auto]. intros x Hx.
        rewrite fupd_ne; [done|]. intros ->. by apply Hne, (Hsi _ _ t).
    + intros o x. rewrite Hperm, HL. eauto.
    + intros x. rewrite HL. intros Hx.
      change (status_ok (k_state s x) (k_suspend s x) (fupd (fupd (k_wq s) t None) t (Some q) x)).
      destruct (decide (x = t)) as [->|Hne]; [rewrite fupd_eq, <- Htq|rewrite !fupd_ne by done]; auto.
Qed.

(** ** The walk *)

(** The priority computed at the head of the loop. *)
Lemma compute_prio_spec {A} s L W t (k : Z -> M kst A) Q :
  kbase s L W -> t ∈ L -> wp (k (dyn_prio s W t)) Q s ->
  wp (base <- rd k_baseprio t;
      first <- rd_q qn (QWaiters t);
      prio <- (if negb (first =? NULL)
               then waiter_prio <- rd k_prio first; ret (if waiter_prio <? base then waiter_prio else base)
               else ret base);
      k prio) Q s.
Proof.
  intros Hk Ht HQ. assert (Htv := ki_valid _ _ _ Hk _ Ht).
  assert (Hq : q_valid s (QWaiters t) = true) by by apply bool_decide_eq_true.
  pose proof (dseg_head _ _ _ _ _ _ _ (w_links _ _ (ki_waits _ _ _ Hk) (QWaiters t))) as Hh.
  krun. rewrite Hh. revert HQ. unfold dyn_prio.
  destruct (W (QWaiters t)) as [|w r] eqn:EW; simpl; intros HQ; [by krun|].
  assert (Hwv : w ∈ k_thr s) by (apply (w_valid _ _ (ki_waits _ _ _ Hk) (QWaiters t)); rewrite EW; set_solver).
  destruct (Z.eqb_spec w NULL) as [->|Hwn]; [by destruct (ki_null _ _ _ Hk)|]. simpl. krun.
  replace (if k_prio s w <? k_baseprio s t then k_prio s w else k_baseprio s t)
    with (Z.min (k_prio s w) (k_baseprio s t)); [done|].
  destruct (Z.ltb_spec (k_prio s w) (k_baseprio s t)); lia.
Qed.

(** After one step the thread itself has its dynamic priority, and so have all
    others but the owner of the queue it is in. *)
Lemma bumped_dyn s s' L L' W W' t :
  bumped [t] s s' L L' W W' -> kbase s L W -> t ∉ W (QWaiters t) ->
  k_prio s' t = dyn_prio s W t -> (forall q, t ∉ W q -> W' q = W q) ->
  forall x, x ∈ L' -> t ∉ W (QWaiters x) -> x = t \/ has_dyn_prio s W x -> has_dyn_prio s' W' x.
Proof.
  intros [B1 B2 B3 B4 B5 B6] Hk Htt Hp HW x Hx Htx Hd. rewrite B3 in Hx.
  assert (Hbase : k_baseprio s' = k_baseprio s) by (by destruct B1 as (? & ? & ? & ? & ->)).
  unfold has_dyn_prio. rewrite (dyn_prio_ext s s' W W' x).
  - destruct (decide (x = t)) as [->|Hne]; [done|]. destruct Hd as [?|Hd]; [done|].
    rewrite B5; [done|]. by intros ?%list_elem_of_singleton.
  - by rewrite Hbase.
  - by apply HW.
  - intros w Hw. apply B5. intros ->%list_elem_of_singleton. done.
Qed.

Lemma dyn_prio_range s L W t :
  kbase s L W -> (forall x, x ∈ L -> 0 <= k_baseprio s x < 2 ^ 16 /\ 0 <= k_prio s x < 2 ^ 16) -> t ∈ L ->
  0 <= dyn_prio s W t < 2 ^ 16.
Proof.
  intros Hk Hr Ht. pose proof (Hr t Ht). unfold dyn_prio. destruct (W (QWaiters t)) as [|w r] eqn:E; [lia|].
  assert (w ∈ L) as Hw by (apply (ki_live _ _ _ Hk (QWaiters t)); rewrite E; set_solver).
  pose proof (Hr w Hw). lia.
Qed.

Lemma update_loop_spec (G : Z -> Prop) p : forall fuel t s L W,
  path W t p -> kbase s L W -> t ∈ L -> (length p <= fuel)%nat ->
  (forall x o, x ∈ p -> x ∈ W (QWaiters o) -> k_owner s (k_token s x) = o) ->
  (forall x, x ∈ L -> 0 <= k_baseprio s x < 2 ^ 16 /\ 0 <= k_prio s x < 2 ^ 16) ->
  (forall x, x ∈ L -> x <> t -> G x -> has_dyn_prio s W x) ->
  wp (update_prio_loop fuel t)
    (fun _ s' => exists L' W', bumped p s s' L L' W W' /\ (forall x, x ∈ L' -> G x -> has_dyn_prio s' W' x) /\
       (forall x, x ∈ L' -> 0 <= k_prio s' x < 2 ^ 16)) s.
Proof.
  induction p as [|t' p IH]; intros fuel t s L W Hp Hk Ht Hf Htok Hrange Hd.
  { by apply path_head in Hp as [? ?]. }
  assert (t' = t) as -> by (by apply path_head in Hp as [? [=] ]).
  destruct fuel as [|n]; [simpl in Hf; lia|]. cbn [update_prio_loop].
  assert (Htv := ki_valid _ _ _ Hk _ Ht). assert (Hsi := kbase_single _ _ _ Hk).
  assert (Hpd := dyn_prio_range s L W t Hk Hrange Ht).
  apply (compute_prio_spec s L W t); [done..|]. krun.
  destruct (Z.eqb_spec (k_prio s t) (dyn_prio s W t)) as [Heq|Hne].
  { krun. exists L, W. split; [|split].
    - eapply bumped_mono; [|by apply bumped_refl]. by intros x Hx%not_elem_of_nil.
    - intros x Hx HG. destruct (decide (x = t)) as [->|]; [done|auto].
    - intros x Hx. apply Hrange. done. }
  rewrite (wrap_small 16) by lia.
  apply wp_assoc3, wp_bind. eapply wp_mono; [by apply (relist_spec s L W)|].
  intros _ s1 (T & L1 & -> & HT & HL & Hso). set (pr := fupd (k_prio s) t (dyn_prio s W t)) in *.
  assert (Hprt : pr t = dyn_prio s W t) by apply fupd_eq.
  assert (Hprange : forall x, x ∈ L -> 0 <= pr x < 2 ^ 16).
  { intros x Hx. unfold pr, fupd. case_decide; [lia|by apply Hrange]. }
  (* in no queue *)
  assert (Hfree : (forall q, t ∉ W q) -> exists L' W', bumped (t :: p) s (set_tl T (set_prio pr s)) L L' W W' /\
    (forall x, x ∈ L' -> G x -> has_dyn_prio (set_tl T (set_prio pr s)) W' x) /\
    (forall x, x ∈ L' -> 0 <= pr x < 2 ^ 16)).
  { intros Hni. pose proof (bump_free s L W t _ T L1 Hk Ht Hni HT HL Hso) as Hb. exists L1, W. split_and!.
    - eapply bumped_mono; [|exact Hb]. intros x ->%list_elem_of_singleton. apply elem_of_cons. by left.
    - intros x Hx HG. eapply (bumped_dyn s _ L L1 W W t); try done; [apply Hni..|].
      destruct (decide (x = t)) as [->|Hxt]; [by left|right]. rewrite HL in Hx. auto.
    - intros x Hx. apply Hprange. by rewrite <- HL. }
  krun. ksimpl. pose proof (ki_status _ _ _ Hk t Ht) as [_ Hst].
  destruct (is_running (k_state s t)) eqn:Er.
  { krun. apply Hfree. apply is_running_true in Er. rewrite Er in Hst.
    intros q [_ Hq]%(w_in _ _ (ki_waits _ _ _ Hk)). by rewrite Hq in Hst. }
  krun. ksimpl. destruct (k_wq s t) as [q|] eqn:Eq.
  2:{ krun. apply Hfree. intros q [_ Hq]%(w_in _ _ (ki_waits _ _ _ Hk)). congruence. }
  assert (Htq : t ∈ W q) by by apply (w_in _ _ (ki_waits _ _ _ Hk)).
  apply wp_assoc2, wp_bind. eapply wp_mono; [by apply (requeue_spec s L W t _ T L1 q)|].
  fold pr. set (W1 := fupd W q (ins_prio pr t (rem t (W q)))). intros ? s2 [Hb Epr].
  assert (Hs2 : k_state s2 = k_state s /\ k_token s2 = k_token s /\ k_owner s2 = k_owner s /\
    k_baseprio s2 = k_baseprio s /\ k_thr s2 = k_thr s).
  { by destruct (bu_eq _ _ _ _ _ _ _ Hb) as (? & ? & ? & ? & ->). }
  destruct Hs2 as (E1 & E2 & E3 & E4 & E5).
  assert (Hd2 : forall x, x ∈ L1 -> t ∉ W (QWaiters x) -> G x -> has_dyn_prio s2 W1 x).
  { intros x Hx Htx HG. apply (bumped_dyn s s2 L L1 W W1 t); try done.
    - by eapply path_irrefl.
    - by rewrite Epr.
    - intros q' Hq'. unfold W1. rewrite fupd_ne; [done|]. by intros ->.
    - destruct (decide (x = t)) as [->|Hxt]; [by left|right]. rewrite HL in Hx. auto. }
  assert (Hr2 : forall x, x ∈ L1 -> 0 <= k_baseprio s2 x < 2 ^ 16 /\ 0 <= k_prio s2 x < 2 ^ 16).
  { intros x Hx. rewrite HL in Hx. rewrite E4, Epr. split; [by apply Hrange|by apply Hprange]. }
  krun; [by rewrite E5|]. rewrite E1. destruct (k_state s t) eqn:Es; try done.
  - (* waiting in a static queue *)
    destruct q as [qa|]; [|done]. rewrite bool_decide_false by done. cbn [negb]. krun. exists L1, W1. split_and!.
    + eapply bumped_mono; [|exact Hb]. intros x ->%list_elem_of_singleton. apply elem_of_cons. by left.
    + intros x Hx. apply Hd2; [done|]. intros Hin. by pose proof (Hsi _ _ _ Hin Htq).
    + intros x Hx. by apply Hr2.
  - (* waiting for a mutex *)
    destruct q as [|o]; [done|]. rewrite bool_decide_true by done. cbn [negb]. krun; [by rewrite E5|].
    unfold rd_owner. krun. rewrite E2, E3, (Htok t o) by (done || apply elem_of_cons; by left).
    assert (Hpo := path_next _ _ _ _ Hsi Hp Htq).
    assert (Hmem : forall q x, x ∈ W1 q <-> x ∈ W q) by (intros q x; by rewrite (bu_W _ _ _ _ _ _ _ Hb)).
    eapply wp_mono; [apply (IH n o s2 L1 W1)|].
    + by eapply path_ext.
    + apply (bu_base _ _ _ _ _ _ _ Hb).
    + rewrite HL. by eapply (ki_owner _ _ _ Hk).
    + simpl in Hf. lia.
    + intros x o' Hx. rewrite Hmem, E2, E3. apply Htok. apply elem_of_cons. by right.
    + done.
    + intros x Hx Hxo. apply Hd2; [done|]. intros Hin. apply Hxo. by injection (Hsi _ _ _ Hin Htq).
    + intros _ s3 (L2 & W2 & Hb2 & Hd3 & Hr3). exists L2, W2. split; [|done].
      apply (bumped_trans [t] p s s2 s3 L L1 L2 W W1 W2 Hb Hb2).
Qed.

(** The invariant along the owners. *)
Lemma path_fuel s L W t p :
  kbase s L W -> t ∈ L -> path W t p -> (length p <= thr_fuel s)%nat.
Proof.
  intros Hk Ht Hp. unfold thr_fuel. apply le_S, NoDup_size.
  - by eapply path_NoDup; [eapply kbase_single|].
  - intros x Hx. apply (ki_valid _ _ _ Hk). by eapply path_live; [apply (ki_owner _ _ _ Hk)|..].
Qed.

Lemma update_prio_spec (G : Z -> Prop) s L W t p :
  path W t p -> kbase s L W -> t ∈ L ->
  (forall x o, x ∈ p -> x ∈ W (QWaiters o) -> k_owner s (k_token s x) = o) ->
  (forall x, x ∈ L -> 0 <= k_baseprio s x < 2 ^ 16 /\ 0 <= k_prio s x < 2 ^ 16) ->
  (forall x, x ∈ L -> x <> t -> G x -> has_dyn_prio s W x) ->
  wp (KThreadUpdateDynamicPrio t)
    (fun _ s' => exists L' W', bumped p s s' L L' W W' /\ (forall x, x ∈ L' -> G x -> has_dyn_prio s' W' x) /\
       (forall x, x ∈ L' -> 0 <= k_prio s' x < 2 ^ 16)) s.
Proof.
  intros Hp Hk Ht Htok Hr Hd. unfold KThreadUpdateDynamicPrio. krun.
  apply update_loop_spec; try done. by eapply path_fuel.
Qed.
