(* ===== verification/KMutexProofs.v ===== *)
(** * Mutexes: locking, handing over and releasing

    Contended locking inherits priorities along the chain of owners; unlocking
    hands the mutex to the waiter with the best priority. *)

From stdpp Require Import base gmap list fin_maps.
From Stdlib Require Import ZArith Lia Sorted.
From S2P Require Import Prelude Chain KState KTick KThread KLists KSched KSchedOps KBlock KSync KPrio.

Open Scope Z_scope.

(** ** Taking a free mutex *)

Lemma kinv_take s L W m t :
  kinv s L W -> k_owner s m = NULL -> kinv (set_owner (fupd (k_owner s) m t) s) L W.
Proof.
  intros Hk Hm. split.
  - destruct (ki_base _ _ _ Hk). split; try done. by apply (waits_ext s).
  - intros o x Hx. ksimpl. rewrite fupd_ne; [by apply (ki_token _ _ _ Hk)|].
    intros E. pose proof (ki_token _ _ _ Hk _ _ Hx) as Ho. rewrite E, Hm in Ho. subst o.
    by apply (ki_null _ _ _ Hk), (ki_valid _ _ _ Hk), (ki_owner _ _ _ Hk _ _ Hx).
Qed.

(** ** Joining the waiters of the owner *)

Lemma ins_head f t L : sorted f L ->
  (exists r, ins_prio f t L = t :: r /\ forall x, x ∈ L -> f t < f x) \/
  (exists w r r', L = w :: r /\ ins_prio f t L = w :: r' /\ f w <= f t).
Proof.
  intros Hs. unfold ins_prio, ins. destruct L as [|w r]; [left; exists []; split; [done|set_solver]|].
  cbn [pre suf]. destruct (at_most f (f t) w) eqn:E; unfold at_most in E.
  - right. exists w, r. eexists. split; [done|]. split; [done|lia].
  - left. exists (w :: r). split; [done|]. intros x Hx. pose proof (sorted_head _ _ _ _ Hs Hx). lia.
Qed.

(** The owner is at least as good as the new waiter: no priority changes. *)
Lemma dyn_prio_join s s' W o t :
  sorted (k_prio s) (W (QWaiters o)) -> has_dyn_prio s W o -> k_prio s o <= k_prio s t ->
  k_prio s' = k_prio s -> k_baseprio s' = k_baseprio s ->
  has_dyn_prio s' (fupd W (QWaiters o) (ins_prio (k_prio s) t (W (QWaiters o)))) o.
Proof.
  intros Hs Hd Hle E1 E2. unfold has_dyn_prio, dyn_prio in *. rewrite fupd_eq, E1, E2.
  destruct (ins_head (k_prio s) t _ Hs) as [(r & -> & Hall)|(w & r & r' & E & -> & Hw)].
  - destruct (W (QWaiters o)) as [|w r'] eqn:E; [lia|]. specialize (Hall w ltac:(set_solver)). lia.
  - by rewrite E in Hd.
Qed.

(** The chains after [t], which waited for nothing, has joined the waiters of [o]. *)
Lemma path_join (W W' : qref -> list Z) t o po :
  (forall q, t ∉ W q) -> path W o po -> t ∉ po ->
  (forall q x, x ∈ W' q <-> x ∈ W q \/ (q = QWaiters o /\ x = t)) ->
  path W' o po /\ forall x p, path W x p -> exists p', path W' x p'.
Proof.
  intros Ht Hpo Hni HW.
  assert (Hsame : forall x p, path W x p -> t ∉ p -> path W' x p).
  { induction 1 as [x Hx|x o' p Ho Hp IH]; intros Hn.
    - constructor. intros o' [H|[_ ->] ]%HW; [by apply (Hx o')|set_solver].
    - apply (path_step _ _ o'); [apply HW; by left|]. apply IH. set_solver. }
  assert (Hpo' : path W' o po) by auto. split; [done|].
  induction 1 as [x Hx|x o' p Ho Hp IH].
  - destruct (decide (x = t)) as [->|Hne].
    + exists (t :: po). apply (path_step _ _ o); [apply HW; by right|done].
    + exists [x]. constructor. intros o' [H|[_ ->] ]%HW; [by apply (Hx o')|done].
  - destruct IH as [p' Hp']. exists (x :: p'). apply (path_step _ _ o'); [apply HW; by left|done].
Qed.

(** Chains do not depend on the order in the queues. *)
Lemma pinh_bumped p s s' L L' W W' :
  bumped p s s' L L' W W' -> (forall x, x ∈ L -> exists q, path W x q) ->
  (forall x, x ∈ L -> 0 <= k_baseprio s x < 2 ^ 16) ->
  (forall x, x ∈ L' -> has_dyn_prio s' W' x) -> (forall x, x ∈ L' -> 0 <= k_prio s' x < 2 ^ 16) ->
  pinh s' L' W'.
Proof.
  intros [B1 B2 B3 B4 B5 B6] Hpath Hbase Hd Hr. split; [done| |].
  - intros x Hx. rewrite B3 in Hx. destruct (Hpath x Hx) as [q Hq]. exists q. eapply path_ext; [|exact Hq].
    intros q' y. by rewrite B4.
  - intros x Hx. split; [|auto]. rewrite B3 in Hx. destruct B1 as (? & ? & ? & ? & ->). ksimpl. auto.
Qed.

Lemma bumped_kinv p s s' L L' W W' : kinv s L W -> bumped p s s' L L' W W' -> kinv s' L' W'.
Proof.
  intros Hk [B1 B2 B3 B4 B5 B6]. split; [done|]. intros o x. rewrite B4. intros Hx.
  destruct B1 as (? & ? & ? & ? & ->). ksimpl. by apply (ki_token _ _ _ Hk).
Qed.

(** Processor state, saved contexts and the set of threads are the same. *)
Definition same_cpu (s s' : kst) : Prop :=
  k_thr s' = k_thr s /\ k_self s' = k_self s /\ k_msr s' = k_msr s /\ k_next_ctx s' = k_next_ctx s /\
  k_ctx s' = k_ctx s.

Lemma bumped_cpu p s s' L L' W W' : bumped p s s' L L' W W' -> same_cpu s s'.
Proof. intros [ (? & ? & ? & ? & ->) _ _ _ _ _]. done. Qed.

(** ** Contended locking *)

Section Lock.
Context (s : kst) (L : list Z) (W : qref -> list Z) (t m o : Z) (po : list Z).
Context (Hk : kinv s L W) (Hpi : pinh s L W) (Hb : best s L t).
Context (Ho : k_owner s m = o) (HoL : o ∈ L) (Hpo : path W o po) (Hni : t ∉ po).
Context (Hi : exists i, i ∈ L /\ running s i /\ i <> t).

(** The state once [t] waits for [m]. *)
Definition lock_post (nx : Z) (s' : kst) : Prop :=
  exists L' W', L' ≡ₚ L /\ kinv s' L' W' /\ pinh s' L' W' /\ best s' L' nx /\ nx <> t /\
    same_cpu s s' /\ k_owner s' = k_owner s /\ k_token s' = fupd (k_token s) t m /\
    (forall x, k_state s' x = fupd (k_state s) t KTHR_STATE_WAITING_MUTEX x) /\
    (forall x, k_wq s' x = fupd (k_wq s) t (Some (QWaiters o)) x) /\
    (forall x, x ∉ po -> k_prio s' x = k_prio s x) /\ k_prio s' o <= k_prio s' t.

Lemma lock_t : t ∈ L /\ k_wq s t = None /\ k_suspend s t = 0 /\ (forall q, t ∉ W q).
Proof.
  destruct Hb as (H1 & H2 & _). destruct (status_running _ _ _ _ Hk H1 H2) as [H3 H4].
  split_and!; try done. intros q [_ ?]%(w_in _ _ (ki_waits _ _ _ Hk)). congruence.
Qed.

Lemma lock_join k' :
  let s1 := blocked t KTHR_STATE_WAITING_MUTEX m (QWaiters o) k' s in
  let W1 := fupd W (QWaiters o) (ins_prio (k_prio s) t (W (QWaiters o))) in
  waits s1 W1 ->
  kinv s1 L W1 /\ path W1 o po /\ (forall x, x ∈ L -> exists p, path W1 x p) /\
  (forall x, x ∈ L -> x <> o -> has_dyn_prio s1 W1 x) /\ t ∈ W1 (QWaiters o).
Proof.
  intros s1 W1 Hw. destruct lock_t as (HtL & Htq & Hts & Hnt).
  assert (HW : forall q x, x ∈ W1 q <-> x ∈ W q \/ (q = QWaiters o /\ x = t)).
  { intros q x. unfold W1. destruct (decide (q = QWaiters o)) as [->|Hne].
    - rewrite fupd_eq. unfold ins_prio. rewrite elem_of_ins. naive_solver.
    - rewrite fupd_ne by done. naive_solver. }
  destruct (path_join W W1 t o po Hnt Hpo Hni HW) as [P1 P2]. split_and!.
  - apply blocked_kinv; try done; [rewrite Hts; split; [lia|done]|]. by intros ? [= <-].
  - done.
  - intros x Hx. destruct (pi_path _ _ _ Hpi x Hx) as [p Hp]. by apply (P2 x p).
  - intros x Hx Hxo. unfold has_dyn_prio. rewrite (dyn_prio_ext s s1 W W1 x); try done.
    + by apply (pi_dyn _ _ _ Hpi).
    + unfold W1. rewrite fupd_ne; [done|]. congruence.
  - apply HW. by right.
Qed.

(** From the joined state, after the priorities have been settled. *)
Lemma lock_settled k' p s2 L2 W2 nx :
  let s1 := blocked t KTHR_STATE_WAITING_MUTEX m (QWaiters o) k' s in
  let W1 := fupd W (QWaiters o) (ins_prio (k_prio s) t (W (QWaiters o))) in
  waits s1 W1 -> bumped p s1 s2 L L2 W1 W2 -> (forall x, x ∈ p -> x ∈ po) ->
  (forall x, x ∈ L2 -> has_dyn_prio s2 W2 x) -> (forall x, x ∈ L2 -> 0 <= k_prio s2 x < 2 ^ 16) ->
  best s2 L2 nx -> lock_post nx s2.
Proof.
  intros s1 W1 Hw Hbu Hsub Hd Hr Hnx. destruct (lock_join k' Hw) as (J1 & J2 & J3 & J4 & J5).
  assert (Hs2 : k_state s2 = k_state s1 /\ k_token s2 = k_token s1 /\ k_owner s2 = k_owner s1)
    by (by destruct (bu_eq _ _ _ _ _ _ _ Hbu) as (? & ? & ? & ? & ->)).
  destruct Hs2 as (E1 & E2 & E3). exists L2, W2. split_and!.
  - apply (bu_L _ _ _ _ _ _ _ Hbu).
  - by eapply bumped_kinv.
  - eapply pinh_bumped; [exact Hbu|done| |done..]. intros x Hx. by apply (pi_base _ _ _ Hpi).
  - done.
  - intros ->. destruct Hnx as (_ & Hr2 & _). unfold running in Hr2. rewrite E1 in Hr2.
    unfold s1, blocked, with_token, with_state in Hr2. ksimpl in Hr2. by rewrite fupd_eq in Hr2.
  - apply (bumped_cpu _ _ _ _ _ _ _ Hbu).
  - by rewrite E3.
  - by rewrite E2.
  - intros x. by rewrite E1.
  - intros x. by rewrite (bu_wq _ _ _ _ _ _ _ Hbu).
  - intros x Hx. rewrite (bu_prio _ _ _ _ _ _ _ Hbu); [done|]. auto.
  - apply (dyn_prio_waiters s2 W2).
    + apply (ki_wsorted _ _ _ (bu_base _ _ _ _ _ _ _ Hbu)).
    + apply Hd. rewrite (bu_L _ _ _ _ _ _ _ Hbu). done.
    + rewrite (bu_W _ _ _ _ _ _ _ Hbu). done.
Qed.

(** A running owner that inherited the priority is the best choice. *)
Lemma lock_owner_best k' s2 L2 W2 :
  let s1 := blocked t KTHR_STATE_WAITING_MUTEX m (QWaiters o) k' s in
  let W1 := fupd W (QWaiters o) (ins_prio (k_prio s) t (W (QWaiters o))) in
  waits s1 W1 -> bumped po s1 s2 L L2 W1 W2 -> (forall x, x ∈ L2 -> has_dyn_prio s2 W2 x) ->
  running s2 o -> best s2 L2 o.
Proof.
  intros s1 W1 Hw Hbu Hd Hro. destruct (lock_join k' Hw) as (J1 & J2 & J3 & J4 & J5).
  assert (E1 : k_state s2 = k_state s1) by (by destruct (bu_eq _ _ _ _ _ _ _ Hbu) as (? & ? & ? & ? & ->)).
  assert (HL := bu_L _ _ _ _ _ _ _ Hbu). split_and!; [by rewrite HL|done|].
  assert (Hot : k_prio s2 o <= k_prio s2 t).
  { apply (dyn_prio_waiters s2 W2).
    - apply (ki_wsorted _ _ _ (bu_base _ _ _ _ _ _ _ Hbu)).
    - apply Hd. by rewrite HL.
    - by rewrite (bu_W _ _ _ _ _ _ _ Hbu). }
  rewrite (bu_prio _ _ _ _ _ _ _ Hbu t Hni) in Hot. change (k_prio s1 t) with (k_prio s t) in Hot.
  assert (Hstate : forall x, running s2 x -> x <> t /\ running s x).
  { intros x. unfold running. rewrite E1. unfold s1, blocked, with_token, with_state. ksimpl.
    destruct (decide (x = t)) as [->|Hne]; [by rewrite fupd_eq|rewrite fupd_ne by done; done]. }
  (* a running owner waits for nothing *)
  assert (Epo : po = [o]).
  { destruct (Hstate o Hro) as [_ Hro']. destruct (status_running _ _ _ _ Hk HoL Hro') as [Hq _].
    destruct Hpo as [|x o' p Hin]; [done|]. apply (w_in _ _ (ki_waits _ _ _ Hk)) in Hin as [_ Hin]. congruence. }
  intros x Hx Hxr. destruct (decide (x = o)) as [->|Hxo]; [lia|]. rewrite HL in Hx.
  rewrite (bu_prio _ _ _ _ _ _ _ Hbu x) by (rewrite Epo; by intros ?%list_elem_of_singleton).
  change (k_prio s1 x) with (k_prio s x). destruct (Hstate x Hxr) as [_ Hxr']. destruct Hb as (_ & _ & Hb').
  specialize (Hb' x Hx Hxr'). lia.
Qed.

Lemma lock_wait_spec :
  wp (wr_state t KTHR_STATE_WAITING_MUTEX;;
      wr_token t m;;
      o <- rd_owner m;
      KThrQueueInsert (QWaiters o) t;;
      sp <- rd k_prio t;
      o <- rd_owner m;
      op <- rd k_prio o;
      nx <- (if sp <? op then
               KThreadUpdateDynamicPrio o;;
               o' <- rd_owner m;
               x <- rd k_state o';
               ret (if is_running x then o' else NULL)
             else ret NULL);
      if nx =? NULL then first <- s_firstThread; KThreadFindRunnable first else ret nx) lock_post s.
Proof.
  destruct lock_t as (HtL & Htq & Hts & Hnt). assert (Htv := ki_valid _ _ _ Hk _ HtL).
  assert (Hov := ki_valid _ _ _ Hk _ HoL). unfold rd_owner. krun. ksimpl. rewrite Ho.
  set (s0 := set_token _ _). assert (Hw0 : waits s0 W) by by apply (waits_ext s), (ki_waits _ _ _ Hk).
  eapply wp_mono; [apply (queue_insert_spec s0 W Hw0 (QWaiters o) t); try done|].
  { by apply bool_decide_eq_true. } { intros E. apply (ki_null _ _ _ Hk). by rewrite <- E. }
  intros ? s1 (k' & -> & Hw1). change (k_prio s0) with (k_prio s) in Hw1.
  set (s1 := set_wq _ _) in *. change s1 with (blocked t KTHR_STATE_WAITING_MUTEX m (QWaiters o) k' s) in *.
  clear s0 Hw0 s1. set (s1 := blocked t KTHR_STATE_WAITING_MUTEX m (QWaiters o) k' s) in *.
  destruct (lock_join k' Hw1) as (J1 & J2 & J3 & J4 & J5). fold s1 in J1, J4.
  set (W1 := fupd W (QWaiters o) _) in *.
  assert (Hov1 : o ∈ k_thr s1) by exact Hov. assert (Htv1 : t ∈ k_thr s1) by exact Htv.
  assert (Ho1 : k_owner s1 m = o) by exact Ho.
  krun; [by rewrite Ho1|]. rewrite Ho1.
  change (k_prio s1) with (k_prio s).
  destruct Hi as (i & HiL & Hir & Hit).
  assert (Hex : forall p s2 L2 W2, bumped p s1 s2 L L2 W1 W2 -> exists x, x ∈ L2 /\ running s2 x).
  { intros p s2 L2 W2 Hbu. exists i. rewrite (bu_L _ _ _ _ _ _ _ Hbu). split; [done|]. unfold running.
    destruct (bu_eq _ _ _ _ _ _ _ Hbu) as (? & ? & ? & ? & ->).
    unfold s1, blocked, with_token, with_state. ksimpl. by rewrite fupd_ne. }
  destruct (Z.ltb_spec (k_prio s t) (k_prio s o)) as [Hlt|Hge].
  - krun. eapply wp_mono; [apply (update_prio_spec (fun _ => True) s1 L W1 o po); try done|].
    { apply J1. } { intros x o' _. apply (ki_token _ _ _ J1). } { apply (pi_base _ _ _ Hpi). } { auto. }
    intros ? s2 (L2 & W2 & Hbu & Hd & Hr). assert (Hd' := fun x Hx => Hd x Hx I).
    assert (Hv2 : k_thr s2 = k_thr s /\ k_owner s2 = k_owner s)
      by (by destruct (bu_eq _ _ _ _ _ _ _ Hbu) as (? & ? & ? & ? & ->)).
    destruct Hv2 as [Ev Eo]. krun; [by rewrite Ev, Eo, Ho|]. rewrite Eo, Ho.
    destruct (is_running (k_state s2 o)) eqn:Er.
    + apply is_running_true in Er. destruct (Z.eqb_spec o NULL) as [->|Hon]; [by destruct (ki_null _ _ _ Hk)|].
      krun. apply (lock_settled k' po s2 L2 W2); try done. by apply (lock_owner_best k' s2 L2 W2).
    + apply (find_first_spec s2 L2 W2); [by eapply bumped_kinv|by eapply Hex|].
      intros nx Hnx _. by apply (lock_settled k' po s2 L2 W2).
  - krun. assert (Hbu : bumped [] s1 s1 L L W1 W1) by (apply bumped_refl, J1).
    assert (Hd : forall x, x ∈ L -> has_dyn_prio s1 W1 x).
    { intros x Hx. destruct (decide (x = o)) as [->|Hxo]; [|auto].
      apply (dyn_prio_join s s1 W o t); try done; [apply (ki_wsorted _ _ _ Hk)|by apply (pi_dyn _ _ _ Hpi)]. }
    apply (find_first_spec s1 L W1); [done|by eapply Hex|].
    intros nx Hnx _. apply (lock_settled k' [] s1 L W1); try done.
    + by intros x ?%not_elem_of_nil.
    + intros x Hx. by apply (pi_base _ _ _ Hpi).
Qed.
End Lock.

(** ** The lock operation *)

Lemma pinh_cpu s s' L W : cpu_step s s' -> pinh s L W -> pinh s' L W.
Proof. intros (? & ? & ? & ? & ->) []. by split. Qed.

(** The processor fields that [outcome] refers to. *)
Lemma locked_same s s0 st m s2 :
  locked s s0 (set_msr m s) st -> same_cpu (set_msr m s) s2 -> locked s s2 s2 st.
Proof.
  intros [L1 L2 L3 L4 L5] (E1 & E2 & E3 & E4 & E5).
  split; [apply cpu_step_refl|done|by rewrite E2|by rewrite E3|by rewrite E3].
Qed.

(** Outside exceptions a switch needs only the best thread. *)
Lemma same_cpu_switchable s s2 L L2 W2 t :
  sched s L -> in_excpt s = false -> L2 ≡ₚ L -> kinv s2 L2 W2 ->
  k_self s2 = k_self s -> k_next_ctx s2 = k_next_ctx s -> k_ctx s2 = k_ctx s ->
  Z.land (k_msr s2) MSR_RI = Z.land (k_msr s) MSR_RI -> best s2 L2 t -> switchable s2 L2 t.
Proof.
  intros [S1 S2 S3 S4 S5] Hex HL Hk2 E1 E2 E3 E4 (B1 & B2 & B3). specialize (S3 Hex).
  split; try done.
  - rewrite E1. apply (ki_valid _ _ _ Hk2). by rewrite HL.
  - apply (ki_null _ _ _ Hk2).
  - apply (ki_valid _ _ _ Hk2).
  - intros x. rewrite HL, E1, E3. apply S2.
  - by rewrite E2.
  - rewrite E2, S3. done.
  - intros x X1 X2. left. auto.
Qed.

Lemma mutex_lock_spec s L W m o po :
  kernel s L W -> pinh s L W -> in_excpt s = false -> running s (k_self s) ->
  k_owner s m = o -> o ∈ L -> path W o po -> k_self s ∉ po ->
  (exists i, i ∈ L /\ running s i /\ i <> k_self s) ->
  wpk (KMutexLock m) (fun _ _ => False)
    (fun _ s' => exists L' W', L' ≡ₚ L /\ kernel s' L' W' /\ pinh s' L' W' /\
       k_owner s' = k_owner s /\ k_token s' (k_self s) = m /\ k_self s ∈ W' (QWaiters o) /\
       k_prio s' o <= k_prio s' (k_self s) /\ (forall x, x ∉ po -> k_prio s' x = k_prio s x) /\
       c_msr (k_ctx s' (k_self s)) = Z.ldiff (k_msr s) MSR_FP /\
       calm (k_self s) s s' /\ in_excpt s' = false) s.
Proof.
  intros Hks Hpi Hex Hr Ho HoL Hpo Hni Hi. assert (H := Hks). destruct H as [Hk Hs]. set (t := k_self s) in *.
  assert (Hon : o <> NULL) by (intros ->; by apply (ki_null _ _ _ Hk), (ki_valid _ _ _ Hk)).
  assert (Hb : best s L t) by (pose proof (sc_best _ _ Hs) as Hb; by rewrite (cur_self s (sc_next _ _ Hs Hex)) in Hb).
  unfold KMutexLock, KMutexTryLockImpl, rd_owner. kstep. kstep. kstep. krun. fold t. rewrite Ho.
  rewrite (proj2 (Z.eqb_neq o NULL) Hon). krun. lock st Hl. gen_msr s mm. intros Hl.
  assert (Hm := lk_excpt _ _ _ _ Hl). ksimpl in Hm. kstep. krun. ksimpl. rewrite Ho, (proj2 (Z.eqb_neq o NULL) Hon).
  assert (Hc : cpu_step s (set_msr mm s)) by apply cpu_step_msr.
  kstep. eapply wp_mono; [apply (lock_wait_spec (set_msr mm s) L W t m o po); try done|].
  { by eapply kinv_cpu. } { by eapply pinh_cpu. }
  intros nx s2 (L2 & W2 & HL & Hk2 & Hp2 & Hb2 & Hnt & Hcpu & E1 & E2 & E3 & E4 & E5 & E6).
  assert (Hl2 := locked_same s s st mm s2 Hl Hcpu). destruct Hcpu as (C1 & C2 & C3 & C4 & C5).
  assert (Ht2 : k_self s2 = t) by by rewrite C2.
  assert (HtL : t ∈ L) by apply Hs.
  eapply wpk_mono; [apply (switch_outcome_to s s2 s2 L2 nx st)|..].
  - apply (same_cpu_switchable s s2 L L2 W2); try done. by rewrite C3.
  - by rewrite Ht2, HL.
  - rewrite Ht2, C4. apply Hs.
  - by rewrite Ht2.
  - done.
  - intros _ s' [_ Hex']. congruence.
  - intros _ s' [Ho' _]. exists L2, W2. pose proof (outcome_kernel _ _ _ _ _ _ Ho' Hk2) as Hks'.
    assert (Hca : calm t s s2).
    { destruct (status_running _ _ _ _ Hk HtL Hr) as [Htq _]. apply calm_intro; [done..| |].
      - intros x Hx. unfold running. by rewrite E3, fupd_ne.
      - intros x y _ Hx. assert (x <> t) by congruence. rewrite E2, E4, !fupd_ne by done. eauto. }
    destruct (outcome_calm _ _ _ _ _ _ Ho' Hex Hca) as [Hca' Hex'].
    destruct Ho' as (Hst & _ & _ & _ & _ & Hmsr). split; [done|]. split; [done|]. split; [by eapply pinh_cpu|].
    destruct Hst as (? & ? & ? & ? & ->). ksimpl. split; [by rewrite E1|].
    split; [by rewrite E2, fupd_eq|]. split; [|done].
    apply (w_in _ _ (ki_waits _ _ _ Hk2)). rewrite E4, fupd_eq, C1. split; [|done]. by apply (ki_valid _ _ _ Hk).
Qed.

(** ** Handing over *)

(** The queues changed; the thread list, states and priorities did not. *)
Lemma kbase_change s s' L W W' :
  kbase s L W ->
  k_thr s' = k_thr s -> k_tl s' = k_tl s -> k_prio s' = k_prio s ->
  waits s' W' ->
  (forall q t, t ∈ W' q -> t ∈ L) -> (forall q, sorted (k_prio s) (W' q)) ->
  (forall o t, t ∈ W' (QWaiters o) -> o ∈ L) ->
  (forall t, t ∈ L -> status_ok (k_state s' t) (k_suspend s' t) (k_wq s' t)) ->
  kbase s' L W'.
Proof. intros [] E1 E2 E3 Hw H1 H2 H3 H4. split; rewrite ?E1, ?E2, ?E3; done. Qed.

(** The threads of [R] that wait with the token were moved to the waiters of [nx]. *)
Definition moved (t token nx : Z) (R : list Z) (s s' : kst) (L : list Z) (W W' : qref -> list Z) : Prop :=
  (exists k wq, s' = set_lk k (set_wq wq s)) /\
  (forall x, k_wq s' x = if decide (x ∈ R /\ k_token s x = token) then Some (QWaiters nx) else k_wq s x) /\
  kbase s' L W' /\
  (forall q, q <> QWaiters t -> q <> QWaiters nx -> W' q = W q).

Lemma moved_nil t token nx s L W : kbase s L W -> moved t token nx [] s s L W W.
Proof.
  intros Hk. split; [exists (k_lk s), (k_wq s); by destruct s|]. by split_and!.
Qed.

(** Taking a thread out of the waiters of [t]. *)
Lemma take_waiter_spec s L W t cur :
  kbase s L W -> cur ∈ W (QWaiters t) ->
  wp (KThrQueueRemove (QWaiters t) cur)
    (fun _ s' => exists k, s' = set_lk k (set_wq (fupd (k_wq s) cur None) s) /\
       waits s' (fupd W (QWaiters t) (rem cur (W (QWaiters t))))) s.
Proof.
  intros Hk Hc. eapply wp_mono; [apply (queue_remove_spec s W (ki_waits _ _ _ Hk)); [|done]|].
  - apply bool_decide_eq_true, (ki_valid _ _ _ Hk), (ki_owner _ _ _ Hk _ _ Hc).
  - intros _ s' (k & -> & Hw & _). by exists k.
Qed.

Lemma move_one_spec s L W t nx cur :
  kbase s L W -> cur ∈ W (QWaiters t) -> nx ∈ L -> nx <> t ->
  wp (KThrQueueRemove (QWaiters t) cur;; KThrQueueInsert (QWaiters nx) cur)
    (fun _ s' => (exists k, s' = set_lk k (set_wq (fupd (fupd (k_wq s) cur None) cur (Some (QWaiters nx))) s)) /\
       exists W', kbase s' L W' /\ W' (QWaiters t) = rem cur (W (QWaiters t)) /\
         (forall q, q <> QWaiters t -> q <> QWaiters nx -> W' q = W q)) s.
Proof.
  intros Hk Hc Hnx Hne. assert (HcL := ki_live _ _ _ Hk _ _ Hc). assert (Hcv := ki_valid _ _ _ Hk _ HcL).
  assert (Hcn : cur <> NULL) by (intros ->; by apply (ki_null _ _ _ Hk)).
  assert (Hsi := kbase_single _ _ _ Hk).
  apply wp_bind. eapply wp_mono; [by apply (take_waiter_spec s L W)|]. intros _ s1 (k & -> & Hw1).
  set (W1 := fupd W (QWaiters t) (rem cur (W (QWaiters t)))) in *.
  assert (HW1 : forall q x, x ∈ W1 q <-> x ∈ W q /\ x <> cur).
  { intros q x. unfold W1. destruct (decide (q = QWaiters t)) as [->|Hq]; [rewrite fupd_eq; apply elem_of_rem|].
    rewrite fupd_ne by done. split; [|tauto]. intros Hx. split; [done|]. intros ->. apply Hq. by apply (Hsi _ _ cur). }
  eapply wp_mono; [apply (queue_insert_spec _ W1 Hw1 (QWaiters nx) cur); try done|].
  { apply bool_decide_eq_true. ksimpl. by apply (ki_valid _ _ _ Hk). } { intros q [_ ?]%HW1. done. }
  intros _ s2 (k2 & -> & Hw2). ksimpl in Hw2. split; [by exists k2|].
  set (W2 := fupd W1 _ _) in *. exists W2.
  assert (HW2 : forall q x, x ∈ W2 q <-> (x = cur /\ q = QWaiters nx) \/ x ∈ W1 q).
  { intros q x. unfold W2. destruct (decide (q = QWaiters nx)) as [->|Hq].
    - rewrite fupd_eq. unfold ins_prio. rewrite elem_of_ins. naive_solver.
    - rewrite fupd_ne by done. naive_solver. }
  assert (Hso1 : forall q, sorted (k_prio s) (W1 q)).
  { intros q. unfold W1. destruct (decide (q = QWaiters t)) as [->|Hq]; [rewrite fupd_eq; apply sorted_rem|rewrite fupd_ne by done];
      apply (ki_wsorted _ _ _ Hk). }
  split_and!.
  - apply (kbase_change s _ L W); try done.
    + intros q x [ [-> _]|[Hx _]%HW1]%HW2; [done|]. by eapply (ki_live _ _ _ Hk).
    + intros q. unfold W2. destruct (decide (q = QWaiters nx)) as [->|Hq]; [rewrite fupd_eq; by apply ins_sorted|].
      by rewrite fupd_ne.
    + intros o x [ [_ [= ->] ]|[Hx _]%HW1]%HW2; [done|]. by eapply (ki_owner _ _ _ Hk).
    + intros x Hx. ksimpl. destruct (decide (x = cur)) as [->|Hxc].
      * rewrite fupd_eq. pose proof (ki_status _ _ _ Hk cur HcL) as [S1 S2].
        apply (w_in _ _ (ki_waits _ _ _ Hk)) in Hc as [_ Hc]. rewrite Hc in S2. split; [done|]. by destruct (k_state s cur).
      * rewrite !fupd_ne by done. by apply (ki_status _ _ _ Hk).
  - unfold W2. rewrite fupd_ne by congruence. unfold W1. by rewrite fupd_eq.
  - intros q Hq1 Hq2. unfold W2. rewrite fupd_ne by done. unfold W1. by rewrite fupd_ne.
Qed.

Lemma move_loop_spec L t nx token fuel : forall R D s W cur,
  kbase s L W -> W (QWaiters t) = D ++ R -> cur = default NULL (head R) -> (length R < fuel)%nat ->
  nx ∈ L -> nx <> t ->
  wp (remove_waiter_loop fuel t token cur nx)
    (fun r s' => r = nx /\ exists W', moved t token nx R s s' L W W') s.
Proof.
  induction fuel as [|n IH]; intros R D s W cur Hk HW Hc Hf HnL Hnt; [lia|]. cbn [remove_waiter_loop].
  destruct R as [|c r]; simpl in Hc; subst cur.
  { krun. split; [done|]. exists W. by apply moved_nil. }
  assert (Hc : c ∈ W (QWaiters t)) by (rewrite HW; set_solver).
  assert (HcL := ki_live _ _ _ Hk _ _ Hc). assert (Hcv := ki_valid _ _ _ Hk _ HcL).
  assert (Hcn : c <> NULL) by (intros ->; by apply (ki_null _ _ _ Hk)).
  assert (Hnn : nx <> NULL) by (intros ->; by apply (ki_null _ _ _ Hk), (ki_valid _ _ _ Hk)).
  pose proof (w_links _ _ (ki_waits _ _ _ Hk) (QWaiters t)) as Hs. rewrite HW in Hs.
  apply dseg_app in Hs as (? & ? & _ & _ & _ & _ & Hs). apply dseg_head in Hs.
  pose proof (w_nodup _ _ (ki_waits _ _ _ Hk) (QWaiters t)) as Hd. rewrite HW in Hd.
  rewrite (proj2 (Z.eqb_neq c NULL) Hcn). krun. change (link_next s c) with (ln (k_lk s) c). rewrite Hs.
  destruct (Z.eqb_spec (k_token s c) token) as [Et|Et]; cbn [negb].
  - rewrite (proj2 (Z.eqb_neq nx NULL) Hnn). apply wp_assoc2, wp_bind.
    eapply wp_mono; [by apply (move_one_spec s L W t nx c)|].
    intros ? s1 ((k & ->) & W1 & Hk1 & HW1 & Ho1).
    rewrite HW, rem_split in HW1 by done. eapply wp_mono; [apply (IH r D _ W1); try done; simpl in Hf; lia|].
    intros res s2 (-> & W2 & (k2 & wq2 & ->) & M2 & M3 & M4). split; [done|]. exists W2.
    split; [by eexists _, _|]. split_and!; [|done|].
    + intros y. rewrite M2. ksimpl. destruct (decide (y = c)) as [->|Hyc].
      * rewrite fupd_eq. rewrite (decide_True (P := c ∈ c :: r /\ _)) by (split; [set_solver|done]). by case_decide.
      * rewrite !fupd_ne by done. apply NoDup_app in Hd as (_ & _ & Hd).
        repeat case_decide; try done; exfalso; set_solver.
    + intros q Q1 Q2. rewrite M4, Ho1; done.
  - eapply wp_mono; [apply (IH r (D ++ [c]) s W); try done; [by rewrite HW, <- app_assoc|simpl in Hf; lia]|].
    intros res s2 (-> & W2 & M1 & M2 & M3 & M4). split; [done|]. exists W2. split; [done|]. split_and!; [|done..].
    intros y. rewrite M2. repeat case_decide; try done; exfalso; set_solver.
Qed.

(** The mutex goes to [nx], which leaves the waiters of [t]; the others that
    wait for it wait for [nx] now. *)
Record handed (t token nx : Z) (R : list Z) (s s' : kst) (L : list Z) (W W' : qref -> list Z) : Prop := {
  ha_eq : exists a k wq, s' = set_state a (set_lk k (set_wq wq s));
  ha_in : nx ∈ R /\ k_token s nx = token;
  ha_first : forall x, x ∈ R -> k_token s x = token -> k_prio s nx <= k_prio s x;
  ha_state : forall x, k_state s' x =
    fupd (k_state s) nx (if k_suspend s nx =? 0 then KTHR_STATE_RUNNING else KTHR_STATE_WAITING) x;
  ha_wq : forall x, k_wq s' x =
    if decide (x = nx) then None
    else if decide (x ∈ R /\ k_token s x = token) then Some (QWaiters nx) else k_wq s x;
  ha_base : kbase s' L W';
  ha_same : forall q, q <> QWaiters t -> q <> QWaiters nx -> W' q = W q;
}.

Lemma hand_loop_spec L t token fuel : forall R D s W cur,
  kbase s L W -> W (QWaiters t) = D ++ R -> cur = default NULL (head R) -> (length R < fuel)%nat ->
  t ∉ W (QWaiters t) ->
  wp (remove_waiter_loop fuel t token cur NULL)
    (fun nx s' => (nx = NULL /\ s' = s /\ forall x, x ∈ R -> k_token s x <> token) \/
                  (exists W', handed t token nx R s s' L W W')) s.
Proof.
  induction fuel as [|n IH]; intros R D s W cur Hk HW Hc Hf Htt; [lia|]. cbn [remove_waiter_loop].
  destruct R as [|c r]; simpl in Hc; subst cur.
  { krun. left. split_and!; try done. by intros x ?%not_elem_of_nil. }
  assert (Hc : c ∈ W (QWaiters t)) by (rewrite HW; set_solver).
  assert (HcL := ki_live _ _ _ Hk _ _ Hc). assert (Hcv := ki_valid _ _ _ Hk _ HcL).
  assert (Hcn : c <> NULL) by (intros ->; by apply (ki_null _ _ _ Hk)).
  pose proof (w_links _ _ (ki_waits _ _ _ Hk) (QWaiters t)) as Hs. rewrite HW in Hs.
  apply dseg_app in Hs as (m0 & y0 & _ & _ & _ & _ & Hs). apply dseg_head in Hs.
  pose proof (w_nodup _ _ (ki_waits _ _ _ Hk) (QWaiters t)) as Hd. rewrite HW in Hd.
  pose proof (ki_wsorted _ _ _ Hk (QWaiters t)) as Hso. rewrite HW in Hso. apply sorted_app in Hso as (_ & Hso & _).
  rewrite (proj2 (Z.eqb_neq c NULL) Hcn). krun. change (link_next s c) with (ln (k_lk s) c). rewrite Hs.
  destruct (Z.eqb_spec (k_token s c) token) as [Et|Et]; cbn [negb].
  2:{ eapply wp_mono; [apply (IH r (D ++ [c]) s W); try done; [by rewrite HW, <- app_assoc|simpl in Hf; lia]|].
      intros nx s2 [(-> & -> & Hno)|(W2 & [ ? [H1 H2] H3 H4 H5 H6 H7])].
      - left. split_and!; try done. intros y [->|Hy]%elem_of_cons; [done|auto].
      - right. exists W2. split; try done.
        + split; [set_solver|done].
        + intros y [->|Hy]%elem_of_cons; [done|auto].
        + intros y. rewrite H5. repeat case_decide; try done; exfalso; set_solver. }
  rewrite Z.eqb_refl. krun. eapply wp_mono; [by apply (take_waiter_spec s L W)|].
  intros ? s1 (k & -> & Hw1). krun. ksimpl.
  set (x := if k_suspend s c =? 0 then KTHR_STATE_RUNNING else KTHR_STATE_WAITING).
  set (W1 := fupd W (QWaiters t) (rem c (W (QWaiters t)))) in *. set (s2 := set_state _ _).
  assert (Hk2 : kbase s2 L W1).
  { apply (kbase_change s _ L W); try done.
    - by apply (waits_ext (set_lk k (set_wq (fupd (k_wq s) c None) s))).
    - intros q y. unfold W1. destruct (decide (q = QWaiters t)) as [->|Hq].
      + rewrite fupd_eq, elem_of_rem. intros [Hy _]. by eapply (ki_live _ _ _ Hk).
      + rewrite fupd_ne by done. apply (ki_live _ _ _ Hk).
    - intros q. unfold W1. destruct (decide (q = QWaiters t)) as [->|Hq];
        [rewrite fupd_eq; apply sorted_rem|rewrite fupd_ne by done]; apply (ki_wsorted _ _ _ Hk).
    - intros o y. unfold W1. destruct (decide (o = t)) as [->|Hq].
      + rewrite fupd_eq, elem_of_rem. intros [Hy _]. by eapply (ki_owner _ _ _ Hk).
      + rewrite fupd_ne by congruence. apply (ki_owner _ _ _ Hk).
    - intros y Hy. unfold s2. ksimpl. pose proof (ki_status _ _ _ Hk y Hy) as [S1 S2].
      destruct (decide (y = c)) as [->|Hyc]; [|by rewrite !fupd_ne].
      rewrite !fupd_eq. split; [done|]. unfold x. by destruct (Z.eqb_spec (k_suspend s c) 0). }
  assert (HW1 : W1 (QWaiters t) = D ++ r) by (unfold W1; rewrite fupd_eq, HW; by apply rem_split).
  assert (Hct : c <> t) by (by intros ->).
  eapply wp_mono; [apply (move_loop_spec L t c token n r D s2 W1); try done; simpl in Hf; lia|].
  intros nx s3 (-> & W3 & (k3 & wq3 & ->) & M2 & M3 & M4). right. exists W3. split.
  - by eexists _, _, _.
  - split; [set_solver|done].
  - intros y Hy _. by eapply sorted_head.
  - done.
  - intros y. rewrite M2. unfold s2. ksimpl. apply NoDup_app in Hd as (_ & _ & [Hcr _]%NoDup_cons).
    destruct (decide (y = c)) as [->|Hyc].
    + rewrite fupd_eq. case_decide as Hd'; [|done]. by destruct Hd'.
    + rewrite fupd_ne by done. repeat case_decide; try done; exfalso; set_solver.
  - done.
  - intros q Q1 Q2. rewrite M4 by done. unfold W1. by rewrite fupd_ne.
Qed.

Lemma path_hand s' L' (W W' : qref -> list Z) nx :
  single W -> kbase s' L' W' -> (forall q, nx ∉ W' q) ->
  (forall o x, x ∈ W' (QWaiters o) -> o = nx \/ x ∈ W (QWaiters o)) ->
  forall x p, path W x p -> exists p', path W' x p'.
Proof.
  intros Hsi Hk Hnx Hstep.
  assert (Hend : path W' nx [nx]) by (constructor; auto).
  assert (Hdec : forall x, (forall o, x ∉ W' (QWaiters o)) \/ exists o, x ∈ W' (QWaiters o)).
  { intros x. pose proof (fun o => w_in _ _ (ki_waits _ _ _ Hk) (QWaiters o) x) as Hw.
    destruct (k_wq s' x) as [ [a|o]|]; [left; intros o [_ ?]%Hw; congruence| |left; intros o [_ ?]%Hw; congruence].
    destruct (decide (x ∈ k_thr s')); [right; exists o; by apply Hw|left; intros o' [? _]%Hw; done]. }
  induction 1 as [x Hx|x o p Ho Hp IH]; destruct (Hdec x) as [Hn|[o' Ho'] ].
  - exists [x]. by constructor.
  - destruct (Hstep _ _ Ho') as [->|Hin]; [|by destruct (Hx o')]. exists [x; nx]. by apply (path_step _ _ nx).
  - exists [x]. by constructor.
  - destruct (Hstep _ _ Ho') as [->|Hin]; [exists [x; nx]; by apply (path_step _ _ nx)|].
    injection (Hsi _ _ _ Hin Ho) as ->. destruct IH as [p' Hp']. exists (x :: p'). by apply (path_step _ _ o).
Qed.

Section Unlock.
Context (s : kst) (L : list Z) (W : qref -> list Z) (t m : Z).
Context (Hk : kinv s L W) (Hpi : pinh s L W) (Ht : t ∈ L) (Hr : running s t).
Let R := W (QWaiters t).

(** The state after the mutex was handed to [nx] and the priorities settled. *)
Record released_to (nx : Z) (s' : kst) (L' : list Z) (W' : qref -> list Z) : Prop := {
  re_L : L' ≡ₚ L;
  re_base : kbase s' L' W';
  re_pinh : pinh s' L' W';
  re_in : nx ∈ R /\ k_token s nx = m;
  re_first : forall x, x ∈ R -> k_token s x = m -> k_prio s nx <= k_prio s x;
  re_state : forall x, k_state s' x =
    fupd (k_state s) nx (if k_suspend s nx =? 0 then KTHR_STATE_RUNNING else KTHR_STATE_WAITING) x;
  re_wq : forall x, k_wq s' x =
    if decide (x = nx) then None
    else if decide (x ∈ R /\ k_token s x = m) then Some (QWaiters nx) else k_wq s x;
  re_cpu : same_cpu s s';
  re_fields : k_owner s' = k_owner s /\ k_token s' = k_token s /\ k_suspend s' = k_suspend s;
  re_prio : forall x, x <> t -> x <> nx -> k_prio s' x = k_prio s x;
  re_ge : k_prio s t <= k_prio s' t /\ k_prio s t <= k_prio s' nx;
}.

Lemma unlock_free : k_wq s t = None /\ (forall q, t ∉ W q).
Proof.
  destruct (status_running _ _ _ _ Hk Ht Hr) as [H _]. split; [done|].
  intros q [_ ?]%(w_in _ _ (ki_waits _ _ _ Hk)). congruence.
Qed.

(** Waiters and base priority are no better than the dynamic priority. *)
Lemma dyn_bounds x : x ∈ L -> k_prio s x <= k_baseprio s x /\ forall w, w ∈ W (QWaiters x) -> k_prio s x <= k_prio s w.
Proof.
  intros Hx. pose proof (pi_dyn _ _ _ Hpi x Hx) as Hd. split.
  - unfold has_dyn_prio, dyn_prio in Hd. destruct (W (QWaiters x)); lia.
  - intros w Hw. by apply (dyn_prio_waiters s W); [apply (ki_wsorted _ _ _ Hk)|..].
Qed.

Lemma handed_prio nx s1 W1 s3 L3 W3 p :
  handed t m nx R s s1 L W W1 -> bumped p s1 s3 L L3 W1 W3 -> (forall x, x ∈ p -> x = t \/ x = nx) ->
  (forall x, x ∈ L3 -> has_dyn_prio s3 W3 x) ->
  forall y, y = t \/ y = nx -> k_prio s t <= k_prio s3 y.
Proof.
  intros Hh Hb Hp Hd y Hy. destruct (ha_in _ _ _ _ _ _ _ _ _ Hh) as [Hn1 Hn2]. destruct unlock_free as [Htq Hni].
  assert (HnL : nx ∈ L) by (by eapply (ki_live _ _ _ Hk)).
  destruct (dyn_bounds t Ht) as [Bt1 Bt2]. destruct (dyn_bounds nx HnL) as [Bn1 Bn2].
  assert (Hnt : k_prio s t <= k_prio s nx) by by apply Bt2.
  assert (HyL : y ∈ L3) by (rewrite (bu_L _ _ _ _ _ _ _ Hb); by destruct Hy as [->| ->]).
  assert (Eb : k_baseprio s3 = k_baseprio s /\ k_prio s1 = k_prio s).
  { destruct (bu_eq _ _ _ _ _ _ _ Hb) as (? & ? & ? & ? & ->), (ha_eq _ _ _ _ _ _ _ _ _ Hh) as (? & ? & ? & ->). done. }
  destruct Eb as [Eb1 Eb2].
  rewrite (Hd y HyL). unfold dyn_prio. rewrite Eb1.
  assert (Hbase : k_prio s t <= k_baseprio s y) by (destruct Hy as [->| ->]; lia).
  destruct (W3 (QWaiters y)) as [|w r] eqn:EW; [done|].
  assert (Hw : k_wq s3 w = Some (QWaiters y)).
  { assert (w ∈ W3 (QWaiters y)) as [_ ?]%(w_in _ _ (ki_waits _ _ _ (bu_base _ _ _ _ _ _ _ Hb)));
      [rewrite EW; set_solver|done]. }
  rewrite (bu_wq _ _ _ _ _ _ _ Hb), (ha_wq _ _ _ _ _ _ _ _ _ Hh) in Hw.
  destruct (decide (w = nx)) as [|Hwn]; [done|].
  assert (Hwt : w <> t).
  { intros ->. rewrite decide_False in Hw; [congruence|]. intros [Hin _]. by apply (Hni (QWaiters t)). }
  rewrite (bu_prio _ _ _ _ _ _ _ Hb w), Eb2 by (intros Hin; by destruct (Hp w Hin)).
  enough (k_prio s t <= k_prio s w) by lia. destruct (decide (w ∈ R /\ k_token s w = m)) as [ [Hin _]|_]; [by apply Bt2|].
  assert (w ∈ W (QWaiters y)).
  { apply (w_in _ _ (ki_waits _ _ _ Hk)). split; [|done].
    assert (w ∈ W3 (QWaiters y)) as [Hv _]%(w_in _ _ (ki_waits _ _ _ (bu_base _ _ _ _ _ _ _ Hb))) by (rewrite EW; set_solver).
    destruct (bu_eq _ _ _ _ _ _ _ Hb) as (? & ? & ? & ? & ->), (ha_eq _ _ _ _ _ _ _ _ _ Hh) as (? & ? & ? & ->). done. }
  destruct Hy as [->| ->]; [by apply Bt2|]. specialize (Bn2 w ltac:(done)). lia.
Qed.
(** From the handed-over state to the one where priorities are settled. *)
Lemma settle_spec nx s1 W1 :
  handed t m nx R s s1 L W W1 ->
  wp (KThreadUpdateDynamicPrio t;; KThreadUpdateDynamicPrio nx)
    (fun _ s' => exists L' W', released_to nx s' L' W') s1.
Proof.
  intros Hh. destruct (ha_in _ _ _ _ _ _ _ _ _ Hh) as [Hn1 Hn2]. destruct unlock_free as [Htq Hni].
  assert (HnL : nx ∈ L) by (by eapply (ki_live _ _ _ Hk)).
  assert (Hnt : nx <> t) by (intros ->; by apply (Hni (QWaiters t))).
  assert (Hk1 := ha_base _ _ _ _ _ _ _ _ _ Hh).
  assert (E : k_prio s1 = k_prio s /\ k_baseprio s1 = k_baseprio s /\ k_owner s1 = k_owner s /\
    k_token s1 = k_token s /\ k_suspend s1 = k_suspend s /\ same_cpu s s1).
  { by destruct (ha_eq _ _ _ _ _ _ _ _ _ Hh) as (? & ? & ? & ->). }
  destruct E as (E1 & E2 & E3 & E4 & E5 & E6).
  assert (Hfree : forall s2 L2 W2 p y, bumped p s1 s2 L L2 W1 W2 -> k_wq s1 y = None -> path W2 y [y]).
  { intros s2 L2 W2 p y Hb Hy. constructor. intros o [_ Ho]%(w_in _ _ (ki_waits _ _ _ (bu_base _ _ _ _ _ _ _ Hb))).
    rewrite (bu_wq _ _ _ _ _ _ _ Hb) in Ho. congruence. }
  assert (Htq1 : k_wq s1 t = None).
  { rewrite (ha_wq _ _ _ _ _ _ _ _ _ Hh). rewrite decide_False by done. rewrite decide_False; [done|].
    intros [Hin _]. by apply (Hni (QWaiters t)). }
  assert (Hnq1 : k_wq s1 nx = None) by (rewrite (ha_wq _ _ _ _ _ _ _ _ _ Hh); by rewrite decide_True).
  assert (Hrng : forall x, x ∈ L -> 0 <= k_baseprio s x < 2 ^ 16 /\ 0 <= k_prio s x < 2 ^ 16) by apply (pi_base _ _ _ Hpi).
  assert (Htok : forall (W2 : qref -> list Z) y z o, path W2 y [y] -> z ∈ [y] -> z ∈ W2 (QWaiters o) -> False).
  { intros W2 y z o Hp ->%list_elem_of_singleton Hin. inversion Hp as [? Hn|? ? ? ? Hp']; subst; [by apply (Hn o)|].
    by apply path_head in Hp' as [? ?]. }
  pose proof (bumped_refl s1 L W1 Hk1) as Hb0.
  apply wp_bind. eapply wp_mono; [apply (update_prio_spec (fun x => x <> nx) s1 L W1 t [t]); try done|].
  { by apply (Hfree s1 L W1 []). } { intros x o Hx Ho. exfalso. by eapply (Htok W1 t); [apply (Hfree s1 L W1 [])|..]. }
  { by rewrite E1, E2. }
  { intros x Hx Hxt Hxn. unfold has_dyn_prio. rewrite (dyn_prio_ext s s1 W W1 x), E1; [by apply (pi_dyn _ _ _ Hpi)|by rewrite E2| |by rewrite E1].
    apply (ha_same _ _ _ _ _ _ _ _ _ Hh); congruence. }
  intros _ s2 (L2 & W2 & Hb2 & Hd2 & Hr2).
  assert (E2' : k_baseprio s2 = k_baseprio s1) by (by destruct (bu_eq _ _ _ _ _ _ _ Hb2) as (? & ? & ? & ? & ->)).
  assert (HnL2 : nx ∈ L2) by by rewrite (bu_L _ _ _ _ _ _ _ Hb2).
  eapply wp_mono; [apply (update_prio_spec (fun _ => True) s2 L2 W2 nx [nx]); try done|].
  { by apply (Hfree s2 L2 W2 [t]). } { apply (bu_base _ _ _ _ _ _ _ Hb2). }
  { intros x o Hx Ho. exfalso. by eapply (Htok W2 nx); [apply (Hfree s2 L2 W2 [t])|..]. }
  { intros x Hx. split; [|auto]. rewrite E2', E2. apply Hrng. by rewrite <- (bu_L _ _ _ _ _ _ _ Hb2). }
  { auto. }
  intros _ s3 (L3 & W3 & Hb3 & Hd3 & Hr3). assert (Hd3' := fun x Hx => Hd3 x Hx I).
  pose proof (bumped_trans _ _ _ _ _ _ _ _ _ _ _ Hb2 Hb3) as Hb. simpl in Hb.
  assert (Hsub : forall x, x ∈ [t; nx] -> x = t \/ x = nx) by set_solver.
  exists L3, W3. split; try done.
  - apply (bu_L _ _ _ _ _ _ _ Hb).
  - apply (bu_base _ _ _ _ _ _ _ Hb).
  - apply (pinh_bumped _ s1 s3 L L3 W1 W3 Hb); [|rewrite E2; intros; by apply Hrng|done..].
    intros x Hx. destruct (pi_path _ _ _ Hpi x Hx) as [p Hp].
    apply (path_hand s1 L W W1 nx (kbase_single _ _ _ Hk) Hk1) with (p := p); [| |done].
    + intros q [_ ?]%(w_in _ _ (ki_waits _ _ _ Hk1)). congruence.
    + intros o y [Hv Ho]%(w_in _ _ (ki_waits _ _ _ Hk1)). rewrite (ha_wq _ _ _ _ _ _ _ _ _ Hh) in Ho.
      destruct (decide (y = nx)); [done|]. destruct (decide (y ∈ R /\ k_token s y = m)); [left; congruence|].
      right. apply (w_in _ _ (ki_waits _ _ _ Hk)). split; [|done]. by rewrite <- (proj1 E6).
  - apply (ha_first _ _ _ _ _ _ _ _ _ Hh).
  - intros x. rewrite <- (ha_state _ _ _ _ _ _ _ _ _ Hh). by destruct (bu_eq _ _ _ _ _ _ _ Hb) as (? & ? & ? & ? & ->).
  - intros x. rewrite (bu_wq _ _ _ _ _ _ _ Hb). apply (ha_wq _ _ _ _ _ _ _ _ _ Hh).
  - by destruct (bu_eq _ _ _ _ _ _ _ Hb) as (? & ? & ? & ? & ->).
  - destruct (bu_eq _ _ _ _ _ _ _ Hb) as (? & ? & ? & ? & ->). ksimpl. by rewrite E3, E4, E5.
  - intros x Hxt Hxn. rewrite (bu_prio _ _ _ _ _ _ _ Hb), E1; [done|]. intros Hin. by destruct (Hsub x Hin).
  - split; apply (handed_prio nx s1 W1 s3 L3 W3 [t; nx]); auto.
Qed.

Lemma remove_waiter_spec :
  wp (KThreadRemoveWaiter t m)
    (fun nx s' => (nx = NULL /\ s' = s /\ forall x, x ∈ R -> k_token s x <> m) \/
                  (nx <> NULL /\ exists L' W', released_to nx s' L' W')) s.
Proof.
  destruct unlock_free as [Htq Hni]. assert (Htv := ki_valid _ _ _ Hk _ Ht).
  assert (Hq : q_valid s (QWaiters t) = true) by by apply bool_decide_eq_true.
  unfold KThreadRemoveWaiter. krun.
  eapply wp_mono; [apply (hand_loop_spec L t m (thr_fuel s) R [] s W); try done|].
  { apply Hk. } { apply (dseg_head _ _ _ _ _ _ _ (w_links _ _ (ki_waits _ _ _ Hk) (QWaiters t))). }
  { apply (w_fuel _ _ (ki_waits _ _ _ Hk)). }
  intros nx s1 [(-> & -> & Hno)|(W1 & Hh)]; [cbn [Z.eqb negb when]; krun; by left|].
  assert (Hn : nx <> NULL).
  { intros ->. destruct (ha_in _ _ _ _ _ _ _ _ _ Hh) as [Hin _]. apply (ki_null _ _ _ Hk).
    by apply (ki_valid _ _ _ Hk), (ki_live _ _ _ Hk _ _ Hin). }
  rewrite (proj2 (Z.eqb_neq nx NULL) Hn). cbn [negb when]. apply wp_bind.
  eapply wp_mono; [by apply (settle_spec nx s1 W1)|]. intros ? s2 Hrel. krun. by right.
Qed.
End Unlock.

(** ** The unlock operation *)

(** Writing the new owner re-establishes the invariant. *)
Lemma released_kinv s L W t m nx s' L' W' :
  kinv s L W -> k_owner s m = t -> released_to s L W t m nx s' L' W' ->
  kinv (set_owner (fupd (k_owner s') m nx) s') L' W'.
Proof.
  intros Hk Ho Hre. destruct (re_fields _ _ _ _ _ _ _ _ _ Hre) as (E1 & E2 & _). split.
  - destruct (re_base _ _ _ _ _ _ _ _ _ Hre). split; try done. by apply (waits_ext s').
  - intros o x Hx. ksimpl. apply (w_in _ _ (ki_waits _ _ _ (re_base _ _ _ _ _ _ _ _ _ Hre))) in Hx as [Hv Hx].
    rewrite (proj1 (re_cpu _ _ _ _ _ _ _ _ _ Hre)) in Hv. rewrite (re_wq _ _ _ _ _ _ _ _ _ Hre) in Hx.
    rewrite E1, E2. destruct (decide (x = nx)); [done|].
    destruct (decide (x ∈ W (QWaiters t) /\ k_token s x = m)) as [ [_ Hm]|Hn].
    + rewrite Hm, fupd_eq. congruence.
    + assert (Hin : x ∈ W (QWaiters o)) by by apply (w_in _ _ (ki_waits _ _ _ Hk)).
      pose proof (ki_token _ _ _ Hk _ _ Hin) as Htok. rewrite fupd_ne; [done|].
      intros Em. apply Hn. split; [|done]. rewrite Em, Ho in Htok. by rewrite Htok.
Qed.

Lemma kinv_release s L W t m :
  kinv s L W -> k_owner s m = t -> (forall x, x ∈ W (QWaiters t) -> k_token s x <> m) ->
  kinv (set_owner (fupd (k_owner s) m NULL) s) L W.
Proof.
  intros Hk Ho Hno. split.
  - destruct (ki_base _ _ _ Hk). split; try done. by apply (waits_ext s).
  - intros o x Hx. ksimpl. pose proof (ki_token _ _ _ Hk _ _ Hx) as Htok. rewrite fupd_ne; [done|].
    intros E. rewrite E, Ho in Htok. subst o. by apply (Hno x).
Qed.

Lemma pinh_owner s L W f : pinh s L W -> pinh (set_owner f s) L W.
Proof. intros []. by split. Qed.

(** A running thread other than the new owner was running before. *)
Lemma released_running s L W t m nx s' L' W' x :
  released_to s L W t m nx s' L' W' -> running s' x -> x <> nx -> running s x.
Proof. intros Hre Hx Hn. unfold running in *. by rewrite (re_state _ _ _ _ _ _ _ _ _ Hre), fupd_ne in Hx. Qed.

(** If the owner keeps its priority it stays the best thread. *)
Lemma released_best s L W t m nx s' L' W' :
  best s L t -> released_to s L W t m nx s' L' W' -> k_prio s' t <= k_prio s t -> nx <> t -> best s' L' t.
Proof.
  intros (B1 & B2 & B3) Hre Hle Hnt. destruct (re_ge _ _ _ _ _ _ _ _ _ Hre) as [G1 G2].
  split_and!; [by rewrite (re_L _ _ _ _ _ _ _ _ _ Hre)|..].
  - unfold running in *. by rewrite (re_state _ _ _ _ _ _ _ _ _ Hre), fupd_ne.
  - intros x Hx Hxr. rewrite (re_L _ _ _ _ _ _ _ _ _ Hre) in Hx.
    destruct (decide (x = nx)) as [->|Hxn]; [lia|]. destruct (decide (x = t)) as [->|Hxt]; [lia|].
    rewrite (re_prio _ _ _ _ _ _ _ _ _ Hre x Hxt Hxn).
    specialize (B3 x Hx (released_running _ _ _ _ _ _ _ _ _ _ Hre Hxr Hxn)). lia.
Qed.

(** What an unlock leaves: the mutex is free, or owned by the first of its
    waiters. *)
Definition unlock_post (s : kst) (L : list Z) (W : qref -> list Z) (m : Z) (s' : kst) : Prop :=
  exists L' W', L' ≡ₚ L /\ kernel s' L' W' /\ pinh s' L' W' /\
    (calm NULL s s' /\ in_excpt s' = false /\ forall m', m' <> m -> k_owner s' m' = k_owner s m') /\
    ((k_owner s' m = NULL /\ forall x, x ∈ W (QWaiters (k_self s)) -> k_token s x <> m) \/
     (let nx := k_owner s' m in
      nx ∈ W (QWaiters (k_self s)) /\ k_token s nx = m /\ k_wq s' nx = None /\
      (forall x, x ∈ W (QWaiters (k_self s)) -> k_token s x = m -> k_prio s nx <= k_prio s x) /\
      (forall x, x ∈ W (QWaiters (k_self s)) -> k_token s x = m -> x <> nx -> k_wq s' x = Some (QWaiters nx)) /\
      (k_suspend s nx = 0 -> running s' nx))).

(** The waiters of the mutex wait for it still or own it. *)
Lemma released_calm d s L W m s2 L' W' nx :
  kinv s L W -> k_owner s m = k_self s -> released_to s L W (k_self s) m nx s2 L' W' ->
  calm d s (set_owner (fupd (k_owner s2) m nx) s2).
Proof.
  intros Hk Ho Hre. destruct (re_fields _ _ _ _ _ _ _ _ _ Hre) as (F1 & F2 & F3).
  destruct (re_in _ _ _ _ _ _ _ _ _ Hre) as [I1 I2]. split_and!; ksimpl.
  - apply (re_cpu _ _ _ _ _ _ _ _ _ Hre).
  - intros x _ Hr. unfold running. ksimpl. rewrite (re_state _ _ _ _ _ _ _ _ _ Hre), fupd_ne; [done|].
    intros ->. destruct (status_running _ _ _ _ Hk (ki_live _ _ _ Hk _ _ I1) Hr) as [Hq _].
    apply (w_in _ _ (ki_waits _ _ _ Hk)) in I1 as [_ ?]. congruence.
  - intros x o _ Hx. rewrite (re_wq _ _ _ _ _ _ _ _ _ Hre), F1, F2.
    destruct (decide (x = nx)) as [->|Hn]; [right; by rewrite I2, fupd_eq|left]. case_decide; eauto.
  - intros m' _ Hm'. rewrite F1, fupd_ne; [done|]. by intros ->.
Qed.

Lemma unlock_post_cpu s L W m s2 s' L' W' nx :
  kinv s L W -> k_owner s m = k_self s ->
  released_to s L W (k_self s) m nx s2 L' W' -> kernel s' L' W' -> in_excpt s' = false ->
  cpu_step (set_owner (fupd (k_owner s2) m nx) s2) s' -> unlock_post s L W m s'.
Proof.
  intros Hk Ho Hre Hks Hex Hst. exists L', W'. split; [apply (re_L _ _ _ _ _ _ _ _ _ Hre)|]. split; [done|].
  split; [eapply pinh_cpu; [exact Hst|]; apply pinh_owner, (re_pinh _ _ _ _ _ _ _ _ _ Hre)|]. split.
  { split; [eapply calm_cpu; [exact Hst|by eapply released_calm]|split; [done|] ]. intros m' Hm'.
    destruct Hst as (? & ? & ? & ? & ->). ksimpl. rewrite fupd_ne by done.
    by destruct (re_fields _ _ _ _ _ _ _ _ _ Hre) as (-> & _). }
  right.
  destruct Hst as (m5 & x5 & c5 & f5 & ->). unfold running. ksimpl. rewrite fupd_eq.
  destruct (re_in _ _ _ _ _ _ _ _ _ Hre) as [I1 I2]. split_and!; try done.
  - rewrite (re_wq _ _ _ _ _ _ _ _ _ Hre). by rewrite decide_True.
  - apply (re_first _ _ _ _ _ _ _ _ _ Hre).
  - intros x X1 X2 X3. rewrite (re_wq _ _ _ _ _ _ _ _ _ Hre), decide_False by done. by rewrite decide_True.
  - intros Hs0. rewrite (re_state _ _ _ _ _ _ _ _ _ Hre), fupd_eq, Hs0. done.
Qed.

(** The scheduling property from the best thread, outside exceptions. *)
Lemma same_cpu_sched s s3 L L' W' :
  sched s L -> in_excpt s = false -> L' ≡ₚ L -> kinv s3 L' W' -> same_cpu s s3 ->
  best s3 L' (k_self s) -> sched s3 L'.
Proof.
  intros [S1 S2 S3 S4 S5] Hex HL Hk (C1 & C2 & C3 & C4 & C5) Hb. specialize (S3 Hex). split.
  - by rewrite C2, HL.
  - intros x. rewrite HL, C2, C5. apply S2.
  - by rewrite C4.
  - by rewrite C4, C2.
  - unfold cur. by rewrite C4, S3, C2.
Qed.

Lemma same_cpu_resched s s3 L L' W' t :
  sched s L -> in_excpt s = false -> L' ≡ₚ L -> kinv s3 L' W' -> same_cpu s s3 ->
  running s3 (k_self s) -> best s3 L' t -> resched s3 L' t.
Proof.
  intros [S1 S2 S3 S4 S5] Hex HL Hk (C1 & C2 & C3 & C4 & C5) Hr Hb. specialize (S3 Hex).
  assert (Hc : cur s3 = k_self s) by (unfold cur; by rewrite C4, S3, C2). destruct Hb as (B1 & B2 & B3).
  assert (Htn : t <> NULL) by (intros ->; by apply (ki_null _ _ _ Hk), (ki_valid _ _ _ Hk)).
  split; rewrite ?Hc, ?C2; try done.
  - apply (ki_null _ _ _ Hk).
  - apply (ki_valid _ _ _ Hk).
  - by rewrite HL.
  - intros x. rewrite HL, C2, C5. apply S2.
  - by rewrite C4.
  - by rewrite C4.
  - split_and!; [by rewrite HL|done|lia].
  - intros x X1 X2. right. auto.
Qed.

Lemma mutex_unlock_spec s L W m :
  kernel s L W -> pinh s L W -> in_excpt s = false -> running s (k_self s) -> k_owner s m = k_self s ->
  wpb (KMutexUnlock m) (fun _ s' => unlock_post s L W m s') s.
Proof.
  intros Hks Hpi Hex Hr Ho. assert (H := Hks). destruct H as [Hk Hs]. set (t := k_self s) in *.
  assert (Ht : t ∈ L) by apply Hs.
  assert (Hb : best s L t) by (pose proof (sc_best _ _ Hs) as Hb; by rewrite (cur_self s (sc_next _ _ Hs Hex)) in Hb).
  unfold wpb, KMutexUnlock, rd_owner. kstep. kstep. lock st Hl. gen_msr s mm. intros Hl.
  assert (Hm := lk_excpt _ _ _ _ Hl). ksimpl in Hm. fold t. kstep. krun. ksimpl. rewrite Ho, Z.eqb_refl. cbn [negb].
  set (sl := set_msr mm s) in *. assert (Hc : cpu_step s sl) by apply cpu_step_msr.
  assert (Hkl : kinv sl L W) by by eapply kinv_cpu. assert (Hpl : pinh sl L W) by by eapply pinh_cpu.
  assert (Hsl : sched sl L) by by apply sched_msr.
  assert (Hxl : in_excpt sl = false) by (unfold in_excpt, sl; ksimpl; by rewrite Hm).
  destruct (unlock_free sl L W t Hkl Ht Hr) as [Htq Hni].
  assert (Htv : t ∈ k_thr sl) by by apply (ki_valid _ _ _ Hkl).
  kstep. krun. eapply wp_mono; [by apply (remove_waiter_spec sl L W t m)|].
  intros nx s2 [(-> & -> & Hno)|(Hn & L2 & W2 & Hre)].
  - unfold wr_owner. krun. ksimpl. rewrite Z.ltb_irrefl. krun. rewrite Z.eqb_refl. cbn [negb]. krun.
    set (s3 := set_owner _ _). assert (Hk3 : kinv s3 L W) by by apply (kinv_release sl L W t).
    assert (Hcpu3 : same_cpu sl s3) by by unfold same_cpu.
    assert (Hs3 : sched s3 L) by (destruct Hsl; by split).
    assert (Hl3 : locked s s3 s3 st) by (by eapply (locked_same s s st mm s3 Hl)).
    eapply wp_mono; [by apply (unlock_outcome s s3 s3 L)|]. intros ? s' Hout. exists L, W.
    assert (Hst := proj1 Hout). split; [done|]. split; [eapply outcome_kernel; [exact Hout|done]|].
    split; [eapply pinh_cpu; [exact Hst|by apply pinh_owner]|]. split.
    { assert (Hca : calm NULL s s3).
      { split_and!; try done; [by intros x o _ Hx; left; eauto|]. intros m' _ Hm'. unfold s3. ksimpl.
        apply fupd_ne. by intros ->. }
      destruct (outcome_calm _ _ _ _ _ _ Hout Hex Hca) as [? ?]. split_and!; try done.
      intros m' Hm'. destruct Hst as (? & ? & ? & ? & ->). ksimpl. by apply fupd_ne. }
    left. split; [|done]. destruct Hst as (? & ? & ? & ? & ->). ksimpl. apply fupd_eq.
  - assert (Hcpu := re_cpu _ _ _ _ _ _ _ _ _ Hre). destruct (re_fields _ _ _ _ _ _ _ _ _ Hre) as (F1 & F2 & F3).
    assert (Hnt : nx <> t) by (intros ->; by apply (Hni (QWaiters t)), (re_in _ _ _ _ _ _ _ _ _ Hre)).
    assert (Htv2 : t ∈ k_thr s2) by by rewrite (proj1 Hcpu).
    unfold wr_owner. krun. set (s3 := set_owner _ _). change (k_prio s3) with (k_prio s2).
    assert (Hk3 : kinv s3 L2 W2) by by apply (released_kinv sl L W t).
    assert (HL := re_L _ _ _ _ _ _ _ _ _ Hre). assert (Hcpu3 : same_cpu sl s3) by exact Hcpu.
    assert (Hl3 : locked s s3 s3 st) by (by eapply (locked_same s s st mm s3 Hl)).
    assert (Hr3 : running s3 t).
    { unfold running. change (k_state s3) with (k_state s2). rewrite (re_state _ _ _ _ _ _ _ _ _ Hre).
      by rewrite fupd_ne. }
    assert (Hfin : forall b s', outcome s s3 L2 b s' -> unlock_post sl L W m s').
    { intros b s' Hout. eapply (unlock_post_cpu sl L W m s2 s' L2 W2 nx); [done..| | |apply Hout].
      - by eapply outcome_kernel.
      - apply (outcome_calm NULL _ _ _ _ _ Hout Hex). by apply (released_calm NULL sl L W m s2 L2 W2 nx). }
    assert (Hun : best s3 L2 t -> wpk (lift (PPCIrqUnlockByMsr st)) (fun _ s' => unlock_post sl L W m s')
      (fun _ s' => unlock_post sl L W m s') s3).
    { intros Hb3. krun. eapply wp_mono; [apply (unlock_outcome s s3 s3 L2 st); [|done]|intros ?; apply Hfin].
      by apply (same_cpu_sched sl s3 L L2 W2). }
    destruct (Z.ltb_spec (k_prio sl t) (k_prio s2 t)) as [Hlt|Hge].
    + apply (find_first_spec s3 L2 W2); [done|exists t; split; [by rewrite HL|done]|]. intros y Hy _.
      destruct (Z.eqb_spec y t) as [->|Hyt]; cbn [negb]; [by apply Hun|].
      eapply wpk_mono; [apply (reschedule_outcome s s3 s3 L2 y st); [|done]|intros ?; apply Hfin..].
      by apply (same_cpu_resched sl s3 L L2 W2).
    + krun. rewrite Z.eqb_refl. cbn [negb]. apply Hun. apply (released_best sl L W t m nx s2 L2 W2); try done.
Qed.
