(* ===== verification/KSetPrio.v ===== *)
(** * Changing priorities

    Priority inheritance is kept by the scheduler operations that do not touch
    mutexes, and [KThreadSetPrio] re-establishes it for a new base priority. *)

From stdpp Require Import base gmap list fin_maps.
From Stdlib Require Import ZArith Lia Sorted.
From S2P Require Import Prelude Chain KState KTick KThread KLists KSched KSchedOps KBlock KSync KPrio KMutexProofs.

Open Scope Z_scope.

(** Priority inheritance depends on priorities and on the waiters of threads. *)
Lemma pinh_ext s s' L W W' :
  k_prio s' = k_prio s -> k_baseprio s' = k_baseprio s ->
  (forall o, W' (QWaiters o) = W (QWaiters o)) -> pinh s L W -> pinh s' L W'.
Proof.
  intros E1 E2 EW [P1 P2 P3]. split.
  - intros t Ht. unfold has_dyn_prio. rewrite (dyn_prio_ext s s' W W' t), E1; [by apply P1|by rewrite E2|done|by rewrite E1].
  - intros t Ht. destruct (P2 t Ht) as [p Hp]. exists p. clear P1 P2 P3 Ht. induction Hp as [t Hn|t o p Ho Hp IH].
    + constructor. intros o. by rewrite EW.
    + apply (path_step _ _ o); [by rewrite EW|done].
  - by rewrite E1, E2.
Qed.

Lemma land_min_prio x : 0 <= Z.land x KTHR_MIN_PRIO < 2 ^ 16.
Proof. pose proof (land_upper x KTHR_MIN_PRIO). unfold KTHR_MIN_PRIO in *. lia. Qed.

(** At most the thread [y] (or none, NULL) is better than the current one. *)
Lemma self_resched s s3 L L' W' y :
  sched s L -> in_excpt s = false -> L' ≡ₚ L -> kinv s3 L' W' -> same_cpu s s3 ->
  running s3 (k_self s) -> (y <> NULL -> y ∈ L' /\ running s3 y) ->
  (forall x, x ∈ L' -> running s3 x ->
     k_prio s3 (k_self s) <= k_prio s3 x \/ (y <> NULL /\ k_prio s3 y <= k_prio s3 x)) -> resched s3 L' y.
Proof.
  intros [S1 S2 S3 S4 S5] Hex HL Hk (C1 & C2 & C3 & C4 & C5) Hr Hy Hb. specialize (S3 Hex).
  assert (Hc : cur s3 = k_self s) by (unfold cur; by rewrite C4, S3, C2).
  split; rewrite ?Hc, ?C2; try done.
  - apply (ki_null _ _ _ Hk).
  - apply (ki_valid _ _ _ Hk).
  - by rewrite HL.
  - intros x. rewrite HL, C2, C5. apply S2.
  - by rewrite C4.
  - by rewrite C4.
  - split_and!; [by rewrite HL|done|lia].
Qed.

Lemma set_prio_spec s L W t prio :
  kernel s L W -> pinh s L W -> in_excpt s = false -> running s (k_self s) -> t ∈ L ->
  k_state s t <> KTHR_STATE_WAITING_MUTEX ->
  wpb (KThreadSetPrio t prio)
    (fun _ s' => exists L' W', L' ≡ₚ L /\ kernel s' L' W' /\ pinh s' L' W' /\
       k_baseprio s' = fupd (k_baseprio s) t (Z.land prio KTHR_MIN_PRIO) /\
       (forall x, x <> t -> k_prio s' x = k_prio s x) /\ calm NULL s s' /\ k_owner s' = k_owner s /\ in_excpt s' = false) s.
Proof.
  intros Hks Hpi Hex Hr Ht Hnm. assert (H := Hks). destruct H as [Hk Hs]. set (u := k_self s) in *.
  assert (HuL : u ∈ L) by apply Hs. assert (Huv := ki_valid _ _ _ Hk _ HuL). assert (Htv := ki_valid _ _ _ Hk _ Ht).
  assert (Hb : best s L u) by (pose proof (sc_best _ _ Hs) as Hb; by rewrite (cur_self s (sc_next _ _ Hs Hex)) in Hb).
  unfold wpb, KThreadSetPrio. kstep. kstep. lock st Hl. gen_msr s mm. intros Hl.
  assert (Hm := lk_excpt _ _ _ _ Hl). ksimpl in Hm. kstep. krun. fold u. ksimpl.
  set (s1 := set_baseprio _ _).
  assert (Hk1 : kinv s1 L W) by (destruct Hk as [ [] ?]; split; [split|]; try done; by apply (waits_ext s)).
  (* the thread waits for no mutex, so its chain is itself *)
  assert (Hnw : forall o, t ∉ W (QWaiters o)).
  { intros o [_ Hq]%(w_in _ _ (ki_waits _ _ _ Hk)). pose proof (ki_status _ _ _ Hk t Ht) as [_ Hst].
    rewrite Hq in Hst. by destruct (k_state s t). }
  eapply wp_mono; [apply (update_prio_spec (fun _ => True) s1 L W t [t]); try done|].
  { by constructor. } { apply Hk1. } { intros x o ->%list_elem_of_singleton Hin. by destruct (Hnw o). }
  { intros x Hx. change (k_prio s1) with (k_prio s). unfold s1. ksimpl. split; [|by apply (pi_base _ _ _ Hpi)].
    unfold fupd. case_decide; [apply land_min_prio|by apply (pi_base _ _ _ Hpi)]. }
  { intros x Hx Hxt _. unfold has_dyn_prio. rewrite (dyn_prio_ext s s1 W W x); try done; [by apply (pi_dyn _ _ _ Hpi)|].
    unfold s1. ksimpl. by apply fupd_ne. }
  intros ? s2 (L2 & W2 & Hbu & Hd & Hrg).
  assert (Hcpu : same_cpu (set_msr mm s) s2) by (destruct (bu_eq _ _ _ _ _ _ _ Hbu) as (? & ? & ? & ? & ->); done).
  assert (Hl2 := locked_same s s st mm s2 Hl Hcpu). assert (Hk2 : kinv s2 L2 W2) by by eapply bumped_kinv.
  assert (Hp2 : pinh s2 L2 W2).
  { eapply pinh_bumped; [exact Hbu|apply (pi_path _ _ _ Hpi)| |auto|done]. intros x Hx. unfold s1. ksimpl.
    unfold fupd. case_decide; [apply land_min_prio|by apply (pi_base _ _ _ Hpi)]. }
  assert (HL := bu_L _ _ _ _ _ _ _ Hbu).
  assert (E : k_state s2 = k_state s /\ k_baseprio s2 = fupd (k_baseprio s) t (Z.land prio KTHR_MIN_PRIO))
    by (by destruct (bu_eq _ _ _ _ _ _ _ Hbu) as (? & ? & ? & ? & ->)). destruct E as [Est Ebase].
  assert (Eprio : forall x, x <> t -> k_prio s2 x = k_prio s x).
  { intros x Hx. apply (bu_prio _ _ _ _ _ _ _ Hbu). by intros ?%list_elem_of_singleton. }
  assert (Hfin : forall b s', outcome s s2 L2 b s' -> exists L' W', L' ≡ₚ L /\ kernel s' L' W' /\ pinh s' L' W' /\
    k_baseprio s' = fupd (k_baseprio s) t (Z.land prio KTHR_MIN_PRIO) /\
    (forall x, x <> t -> k_prio s' x = k_prio s x) /\ calm NULL s s' /\ k_owner s' = k_owner s /\ in_excpt s' = false).
  { intros b s' Hout. exists L2, W2. split; [done|]. split; [by eapply outcome_kernel|].
    assert (Hca : calm NULL s s2).
    { destruct (bu_eq _ _ _ _ _ _ _ Hbu) as (b1 & b2 & b3 & b4 & E2). apply calm_intro; [by rewrite E2..| |].
      - intros x _. unfold running. by rewrite Est.
      - intros x o _ Hx. rewrite (bu_wq _ _ _ _ _ _ _ Hbu). rewrite E2. eauto. }
    destruct (outcome_calm _ _ _ _ _ _ Hout Hex Hca) as [Hca' Hex'].
    destruct Hout as (Hst & _). split; [by eapply pinh_cpu|].
    assert (Eo : k_owner s2 = k_owner s) by (by destruct (bu_eq _ _ _ _ _ _ _ Hbu) as (? & ? & ? & ? & ->)).
    split_and!; try done; by destruct Hst as (? & ? & ? & ? & ->). }
  assert (Hr2 : running s2 u) by (unfold running; by rewrite Est).
  assert (Hsl : sched (set_msr mm s) L) by by apply sched_msr.
  assert (Hxl : in_excpt (set_msr mm s) = false) by (unfold in_excpt; ksimpl; by rewrite Hm).
  assert (Hgo : forall y, resched s2 L2 y -> wpk (KThreadReschedule y st)
    (fun _ s' => exists L' W', L' ≡ₚ L /\ kernel s' L' W' /\ pinh s' L' W' /\
       k_baseprio s' = fupd (k_baseprio s) t (Z.land prio KTHR_MIN_PRIO) /\
       (forall x, x <> t -> k_prio s' x = k_prio s x) /\ calm NULL s s' /\ k_owner s' = k_owner s /\ in_excpt s' = false)
    (fun _ s' => exists L' W', L' ≡ₚ L /\ kernel s' L' W' /\ pinh s' L' W' /\
       k_baseprio s' = fupd (k_baseprio s) t (Z.land prio KTHR_MIN_PRIO) /\
       (forall x, x <> t -> k_prio s' x = k_prio s x) /\ calm NULL s s' /\ k_owner s' = k_owner s /\ in_excpt s' = false) s2).
  { intros y Hy. eapply wpk_mono; [by apply (reschedule_outcome s s2 s2 L2 y st)|intros ?; apply Hfin..]. }
  clear Hfin. destruct Hb as (_ & _ & Hb).
  destruct (Z.eqb_spec t u) as [->|Htu]; krun; try (by rewrite (proj1 Hcpu)).
  - destruct (Z.ltb_spec (k_prio s u) (k_prio s2 u)) as [Hlt|Hge].
    + apply (find_first_spec s2 L2 W2); [done|exists u; split; [by rewrite HL|done]|]. intros y Hy _.
      apply Hgo. by apply (same_cpu_resched (set_msr mm s) s2 L L2 W2).
    + krun. apply Hgo. apply (self_resched (set_msr mm s) s2 L L2 W2); try done.
      intros x Hx Hxr. change (k_self (set_msr mm s)) with u. left.
      destruct (decide (x = u)) as [->|Hxu]; [done|]. rewrite (Eprio x Hxu). rewrite HL in Hx.
      unfold running in Hxr. rewrite Est in Hxr. specialize (Hb x Hx Hxr). lia.
  - assert (Hself : forall x, x ∈ L2 -> running s2 x -> x <> t -> k_prio s2 u <= k_prio s2 x).
    { intros x Hx Hxr Hxt. rewrite HL in Hx. unfold running in Hxr. rewrite Est in Hxr.
      rewrite !Eprio by done. by apply Hb. }
    assert (Htn : t <> NULL) by (intros ->; by apply (ki_null _ _ _ Hk)).
    rewrite Est. apply Hgo, (self_resched (set_msr mm s) s2 L L2 W2); try done;
      change (k_self (set_msr mm s)) with u; destruct (is_running (k_state s t)) eqn:Er; try done.
    + intros _. split; [by rewrite HL|]. unfold running. rewrite Est. by apply is_running_true.
    + intros x Hx Hxr. destruct (decide (x = t)) as [->|Hxt]; [by right|left; by apply Hself].
    + intros x Hx Hxr. left. apply Hself; try done. intros ->. unfold running in Hxr. rewrite Est in Hxr.
      by rewrite Hxr in Er.
Qed.
