(* ===== verification/KSound.v ===== *)
(** * The kernel's invariant with priority inheritance

    [ksound] is the whole invariant of the kernel at rest. The lemmas of this
    file combine the effect of each operation with both parts of it, and run
    the kernel to concrete states that satisfy it. *)

From stdpp Require Import base gmap list fin_maps.
From Stdlib Require Import ZArith Lia Sorted.
From S2P Require Import Prelude Chain KState KTick KThread KLists KSched KSchedOps KBlock KLife KSync KPrio KMutexProofs KSetPrio.

Open Scope Z_scope.

(** The kernel at rest, with priority inheritance. *)
Definition ksound (s : kst) (L : list Z) (W : qref -> list Z) : Prop := kernel s L W /\ pinh s L W.

(** Some thread other than [t] can run; the idle thread always can. *)
Definition other_running (s : kst) (L : list Z) (t : Z) : Prop := exists x, x ∈ L /\ running s x /\ x <> t.

Lemma outcome_sound s0 s1 L W b s' :
  outcome s0 s1 L b s' -> kinv s1 L W -> pinh s1 L W -> ksound s' L W.
Proof.
  intros Ho Hk Hp. split; [by eapply outcome_kernel|]. destruct Ho as (Hst & _). by eapply pinh_cpu.
Qed.

Lemma woke_pinh f wk a s s1 L W :
  woke f wk s s1 -> pinh s L W -> pinh s1 L (without W (QStatic a) wk).
Proof.
  intros (? & ? & ? & ? & -> & _). by apply pinh_ext.
Qed.

Lemma prepared_pinh s L W t prio s1 s2 :
  pinh s L W -> unused s L W t -> kinv s L W -> prepared s t prio s1 ->
  k_prio s2 = k_prio s1 -> k_baseprio s2 = k_baseprio s1 -> pinh s2 (ins_prio (k_prio s1) t L) W.
Proof.
  intros [P1 P2 P3] Hu Hk [HT _ (_ & _ & _ & T4 & T5 & _)] E1 E2. pose proof (unused_wq _ _ _ _ Hk Hu) as Hni.
  destruct Hu as (_ & HtL & HtW & _).
  assert (Hne : forall x, x ∈ L -> x <> t) by (by intros x Hx ->).
  assert (Hin : forall x, x ∈ ins_prio (k_prio s1) t L -> x = t \/ x ∈ L) by (intros x; apply elem_of_ins).
  split.
  - intros x [->|Hx]%Hin; unfold has_dyn_prio.
    + unfold dyn_prio. rewrite HtW, E1, E2. by rewrite T4, T5.
    + destruct (to_other _ _ _ HT x (Hne x Hx)) as (_ & _ & _ & _ & F1 & F2 & _).
      rewrite (dyn_prio_ext s s2 W W x), E1; [rewrite F1; by apply P1|by rewrite E2|done|].
      intros w Hw. rewrite E1. apply (to_other _ _ _ HT). intros ->. by apply (Hni (QWaiters x)).
  - intros x [->|Hx]%Hin; [|by apply P2]. exists [t]. constructor. intros o. apply Hni.
  - intros x [->|Hx]%Hin; rewrite E1, E2.
    + rewrite T4, T5. split; apply land_min_prio.
    + destruct (to_other _ _ _ HT x (Hne x Hx)) as (_ & _ & _ & _ & -> & -> & _). by apply P3.
Qed.


Lemma init_sound thr msr clock addr main idle :
  NULL ∉ thr -> main ∈ thr -> idle ∈ thr -> main <> idle -> Z.land msr MSR_RI <> 0 ->
  wp (KThreadInit addr main idle)
    (fun _ s' => ksound s' [main; idle] (fun _ => []) /\ k_self s' = main /\ running s' main /\
       running s' idle) (boot_kst thr msr clock).
Proof.
  intros H1 H2 H3 H4 H5. eapply wp_mono; [by apply init_kernel_spec|].
  intros _ s' (K1 & K2 & K3 & K4 & K5 & K6 & K7 & K8). split; [|done]. split; [done|].
  assert (Hp : forall t, t ∈ [main; idle] -> 0 <= k_prio s' t < 2 ^ 16).
  { intros t Ht. assert (t = main \/ t = idle) as [->| ->] by set_solver; [rewrite K6|rewrite K7];
      unfold KTHR_MAIN_PRIO, KTHR_MIN_PRIO; lia. }
  split.
  - intros t Ht. unfold has_dyn_prio, dyn_prio. by rewrite K8.
  - intros t Ht. exists [t]. constructor. intros o. apply not_elem_of_nil.
  - intros t Ht. rewrite K8 by done. auto.
Qed.

Lemma prepared_calm s L W t prio s1 T :
  kinv s L W -> unused s L W t -> prepared s t prio s1 ->
  calm t s (set_tl T s1) /\ k_owner s1 = k_owner s.
Proof.
  intros Hk Hu [HT _ _]. destruct (to_cpu _ _ _ HT) as (_ & _ & _ & Eo). split; [|done].
  assert (Ho := to_other _ _ _ HT). apply calm_intro; [apply (to_thr _ _ _ HT)|done|..].
  - intros x Hx Hr. unfold running. ksimpl. by destruct (Ho x Hx) as (_ & _ & -> & _).
  - intros x o Hv Hq. assert (Hx : x <> t).
    { intros ->. by apply (unused_wq _ _ _ _ Hk Hu (QWaiters o)), (w_in _ _ (ki_waits _ _ _ Hk)). }
    ksimpl. destruct (Ho x Hx) as (-> & -> & _). eauto.
Qed.

Lemma prepare_sound s L W t entry arg sp prio exit sda sda2 :
  ksound s L W -> unused s L W t ->
  wp (KThreadPrepare exit sda sda2 t entry arg sp prio)
    (fun _ s' => ksound s' (ins_prio (k_prio s') t L) W /\
       k_prio s' t = Z.land prio KTHR_MIN_PRIO /\ k_state s' t = KTHR_STATE_WAITING /\ k_suspend s' t = 1 /\
       c_pc (k_ctx s' t) = entry /\ c_gpr3 (k_ctx s' t) = arg /\ c_lr (k_ctx s' t) = exit /\
       (forall x, x <> t -> k_prio s' x = k_prio s x) /\ k_msr s' = Z.ldiff (k_msr s) MSR_FP /\
       calm t s s' /\ k_owner s' = k_owner s) s.
Proof.
  intros [Hk Hp] Hu. eapply wp_mono; [by apply prepare_spec|].
  intros ? s' (s1 & H1 & H2 & H3 & H3' & H4 & H5 & H6 & Hst & H7 & H8 & H9). rewrite H3.
  assert (Ho := fun x Hx => to_other _ _ _ (pp_touch _ _ _ _ H1) x Hx).
  destruct (pp_t _ _ _ _ H1) as (_ & _ & _ & T4 & _). split; [split; [done|]|].
  - by apply (prepared_pinh s L W t prio s1 s' Hp Hu (proj1 Hk)).
  - destruct (prepared_calm _ _ _ _ _ _ (k_tl s') (proj1 Hk) Hu H1) as [Hc Hw].
    split_and!; try done; [intros x Hx; by destruct (Ho x Hx) as (_ & _ & _ & _ & -> & _)|by eapply calm_cpu|].
    by destruct Hst as (? & ? & ? & ? & ->).
Qed.

Lemma resume_sound s L W t :
  ksound s L W -> t ∈ L -> running s (k_self s) \/ t = k_self s ->
  wpb (KThreadResume t) (fun b s' => ksound s' L W /\ outcome s (resume_effect t s) L b s') s.
Proof.
  intros [Hk Hp] Ht Hr. eapply wpb_mono; [exact (resume_spec s L W t Hk Ht Hr)|]. intros b s' Ho. split; [|done].
  eapply outcome_sound; [exact Ho|apply (resume_kinv s L W t); [apply Hk|done]|].
  revert Hp. unfold resume_effect. repeat case_match; by apply pinh_ext.
Qed.

Lemma suspend_sound s L W t :
  ksound s L W -> t ∈ L -> k_suspend s t + 1 < 2 ^ 16 -> other_running s L t ->
  wpb (KThreadSuspend t) (fun b s' => ksound s' L W /\ outcome s (suspend_effect t s) L b s') s.
Proof.
  intros [Hk Hp] Ht Hn Ho. eapply wpb_mono; [exact (suspend_spec s L W t Hk Ht Hn Ho)|]. intros b s' Hou. split; [|done].
  eapply outcome_sound; [exact Hou|apply (suspend_kinv s L W t); [apply Hk|done..]|].
  revert Hp. unfold suspend_effect. case_match; by apply pinh_ext.
Qed.

Lemma yield_sound s L W L1 L2 :
  ksound s L W -> running s (k_self s) -> L = L1 ++ k_self s :: L2 ->
  wpk KThreadYield
    (fun _ s' => ksound s' L W /\ outcome s s L true s' /\ (in_excpt s = false -> yield_choice s L L2 = k_self s))
    (fun _ s' => ksound s' L W /\ outcome s s L false s' /\ k_self s' = yield_choice s L L2) s.
Proof.
  intros [Hk Hp] Hr HL. eapply wpk_mono; [by apply (yield_spec s L W L1 L2)|..]; intros ? s' [Ho ?];
    (split; [by eapply outcome_sound; [exact Ho|apply Hk|]|done]).
Qed.

Lemma block_sound s L W a tok :
  let q := QStatic a in
  ksound s L W -> running s (k_self s) -> other_running s L (k_self s) ->
  wpb (KThrQueueBlock q tok)
    (fun b s' => ksound s' L (fupd W q (ins_prio (k_prio s) (k_self s) (W q))) /\
       exists k', outcome s (blocked (k_self s) KTHR_STATE_WAITING tok q k' s) L b s') s.
Proof.
  intros q [Hk Hp] Hr Ho.
  assert (Hend : forall b k' s', outcome s (blocked (k_self s) KTHR_STATE_WAITING tok q k' s) L b s' ->
    pinh s' L (fupd W q (ins_prio (k_prio s) (k_self s) (W q)))).
  { intros b k' s' (Hst & _). eapply pinh_cpu; [exact Hst|]. revert Hp. by apply pinh_ext. }
  eapply wpk_mono; [eapply (block_spec s L W q tok); try done; by exists a|..].
  - intros ? s' (k' & H1 & H2 & H3). split; [split; [done|by eapply Hend]|by exists k'].
  - intros ? s' (k' & H1 & H2). split; [split; [done|by eapply Hend]|by exists k'].
Qed.

(** Outside an exception a block always gives up the processor. *)
Lemma block_away s L W a tok :
  let q := QStatic a in
  ksound s L W -> running s (k_self s) -> other_running s L (k_self s) -> in_excpt s = false ->
  wpk (KThrQueueBlock q tok) (fun _ _ => False)
    (fun _ s' => ksound s' L (fupd W q (ins_prio (k_prio s) (k_self s) (W q))) /\
       exists k', outcome s (blocked (k_self s) KTHR_STATE_WAITING tok q k' s) L false s') s.
Proof.
  intros q [Hk Hp] Hr Ho Hex. eapply wpk_mono; [eapply (block_spec s L W q tok); try done; by exists a|..].
  - intros ? s' (k' & _ & _ & H). congruence.
  - intros ? s' (k' & H1 & H2). split; [split; [done|]|by exists k']. destruct H1 as [Hst _].
    eapply pinh_cpu; [exact Hst|]. revert Hp. by apply pinh_ext.
Qed.

Lemma unblock_sound s L W a max mode ref :
  let q := QStatic a in
  let wk := woken (k_token s) mode ref max (W q) in
  ksound s L W -> running s (k_self s) ->
  wpb (KThrQueueUnblockCommon q max mode ref)
    (fun b s' => ksound s' L (without W q wk) /\
       exists s1, woke (new_token mode ref) wk s s1 /\ outcome s s1 L b s') s.
Proof.
  intros q wk [Hk Hp] Hr. eapply wpb_mono; [exact (unblock_spec s L W a max mode ref Hk Hr)|].
  intros b s' [ (s1 & H1 & H2) H3]. split; [split; [done|]|by exists s1].
  destruct H2 as [Hst _]. eapply pinh_cpu; [exact Hst|]. by eapply woke_pinh.
Qed.

Lemma cancel_sound s L W a t :
  let q := QStatic a in
  let wk := if bool_decide (k_wq s t = Some q) then [t] else [] in
  ksound s L W -> running s (k_self s) -> t ∈ L ->
  wpb (KThrQueueCancel q t)
    (fun b s' => ksound s' L (without W q wk) /\
       exists s1, woke (fun _ => 0) wk s s1 /\ outcome s s1 L b s') s.
Proof.
  intros q wk [Hk Hp] Hr Ht. eapply wpb_mono; [exact (cancel_spec s L W a t Hk Hr Ht)|].
  intros b s' [ (s1 & H1 & H2) H3]. split; [split; [done|]|by exists s1].
  destruct H2 as [Hst _]. eapply pinh_cpu; [exact Hst|]. by eapply woke_pinh.
Qed.

Lemma exit_sound s L W rc :
  ksound s L W -> running s (k_self s) -> in_excpt s = false -> W (QWaiters (k_self s)) = [] ->
  other_running s L (k_self s) ->
  wpk (KThreadExit rc) (fun _ _ => False)
    (fun _ s' => ksound s' (rem (k_self s) L) (without W s_joinQueue (joiners s W)) /\ exit_post s L W rc s') s.
Proof.
  intros [Hk Hp] Hr Hex HW Ho. eapply wpk_mono; [by apply (exit_spec s L W rc)|done|].
  intros ? s' Hpost. split; [|done]. destruct Hpost as (H1 & H2 & H3 & _). split; [done|].
  assert (Hp' : pinh s' L (without W s_joinQueue (joiners s W))) by by revert Hp; apply pinh_ext.
  destruct Hp' as [P1 P2 P3]. split; intros t Ht; apply elem_of_rem in Ht as [? ?]; auto.
Qed.

(** Mutexes that are free or held by the caller. *)
Lemma take_sound s L W m t :
  ksound s L W -> k_owner s m = NULL -> ksound (set_owner (fupd (k_owner s) m t) s) L W.
Proof.
  intros [ [Hk Hs] Hp] Hm. split; [split; [by apply kinv_take|by destruct Hs]|by apply pinh_owner].
Qed.

(** The base priorities are not part of the thread structures. *)
Lemma kinv_baseprio s f L W : kinv s L W -> kinv (set_baseprio f s) L W.
Proof. intros [ [] ?]. split; [split|]; try done. by apply (waits_ext s). Qed.

(** ** Concrete states *)

(** Decidable facts by evaluation. *)
Ltac decide_vm :=
  lazymatch goal with |- ?P => refine (proj1 (bool_decide_eq_true P) _); vm_compute; reflexivity end.

(** The state after a run. *)
Definition out {A} (c : M kst A) (s : kst) : kst :=
  match c s with Ok (_, s') => s' | Fault _ => s end.
Definition outk {A} (c : K A) (s : kst) : kst :=
  match runK c s with Ok (_, s') => s' | Fault _ => s end.

Lemma out_wp {A} (c : M kst A) (P : kst -> Prop) s : wp c (fun _ s' => P s') s -> P (out c s).
Proof. unfold wp, out. by destruct (c s) as [ [? ?]|]. Qed.

Lemma outk_wp {A} (c : K A) (P : kst -> Prop) s : wpb c (fun _ s' => P s') s -> P (outk c s).
Proof. unfold wpb, wpk, outk. by destruct (runK c s) as [ [ [?|?] ?]|]. Qed.

Lemma outk_wpb {A} (c : K A) (P : kst -> Prop) Q s :
  wpb c (fun b s' => P s' /\ Q b s') s -> P (outk c s).
Proof. intros H. apply (outk_wp c P), (wpb_mono _ _ _ _ H). by intros ? ? [? ?]. Qed.

(** Boot: main thread 100 and idle thread 300; then thread 200 at priority 0x20
    and thread 400 at the priority of the main thread are created. *)
Definition demo_boot : kst := boot_kst {[100; 200; 300; 400]} MSR_RI (fun _ => 0).
Definition demo0 : kst := out (KThreadInit 0x1000 100 300) demo_boot.
Definition prepare (t prio : Z) : M kst unit := KThreadPrepare 0x2000 0 0 t 0x3000 5 0x8000 prio.
Definition demo1 : kst := out (prepare 200 0x20) demo0.
Definition demo2 : kst := out (prepare 400 0x3f) demo1.
(** Thread 400 resumed; the main thread goes on. *)
Definition demo3 : kst := outk (KThreadResume 400) demo2.
(** The main thread waits in the queue [QStatic 7] with token 5; 400 runs. *)
Definition demo4 : kst := outk (KThrQueueBlock (QStatic 7) 5) demo3.
(** Instead, the main thread takes the mutex 1000 and yields to 400. *)
Definition demo5 : kst := outk KThreadYield (out (KMutexTryLock 1000) demo3).
(** 400 tries to lock the mutex, which the main thread holds. *)
Definition demo6 : kst := outk (KMutexLock 1000) demo5.

Definition noq : qref -> list Z := fun _ => [].

Lemma demo0_sound : ksound demo0 [100; 300] noq.
Proof.
  apply (out_wp _ (fun s => ksound s [100; 300] noq)).
  eapply wp_mono; [apply init_sound; [decide_vm..|done|done]|]. by intros ? s' [? _].
Qed.

(** [t] has a free object. *)
Lemma prepare_demo s L W t prio L' :
  ksound s L W -> bool_decide (unused s L W t) = true ->
  ins_prio (k_prio (out (prepare t prio) s)) t L = L' -> ksound (out (prepare t prio) s) L' W.
Proof.
  intros Hs Hu%bool_decide_eq_true <-. apply (out_wp _ (fun s' => ksound s' (ins_prio (k_prio s') t L) W)).
  eapply wp_mono; [by apply prepare_sound|]. by intros ? s' [? _].
Qed.

Lemma demo1_sound : ksound demo1 [200; 100; 300] noq.
Proof. by eapply prepare_demo; [apply demo0_sound|vm_compute..]. Qed.

Lemma demo2_sound : ksound demo2 [200; 100; 400; 300] noq.
Proof. by eapply prepare_demo; [apply demo1_sound|vm_compute..]. Qed.

Lemma demo3_sound : ksound demo3 [200; 100; 400; 300] noq.
Proof.
  eapply (outk_wpb (KThreadResume 400) (fun s => ksound s _ _) _ demo2), resume_sound; [apply demo2_sound|decide_vm|left]. by vm_compute.
Qed.

Lemma demo4_sound :
  ksound demo4 [200; 100; 400; 300] (fupd noq (QStatic 7) [100]).
Proof.
  eapply (outk_wpb (KThrQueueBlock (QStatic 7) 5) (fun s => ksound s _ _) _ demo3),
    (block_sound demo3 _ noq 7); [apply demo3_sound|by vm_compute|].
  exists 400. split_and!; [decide_vm|by vm_compute|by vm_compute].
Qed.

(** The mutex is taken by the running thread itself. *)
Lemma trylock_sound s L W m :
  ksound s L W -> k_owner s m = NULL -> ksound (out (KMutexTryLock m) s) L W.
Proof.
  intros Hs Hm. apply (out_wp _ (fun s => ksound s L W)).
  unfold KMutexTryLock, KMutexTryLockImpl, rd_owner, wr_owner. krun. rewrite Hm. krun. by apply take_sound.
Qed.

Lemma demo5_sound : ksound demo5 [200; 100; 400; 300] noq.
Proof.
  eapply (outk_wp KThreadYield (fun s => ksound s _ _)).
  eapply wpk_mono; [apply (yield_sound _ [200; 100; 400; 300] noq [200] [400; 300])|..].
  - apply trylock_sound; [apply demo3_sound|by vm_compute].
  - by vm_compute.
  - by vm_compute.
  - by intros ? ? [? _].
  - by intros ? ? [? _].
Qed.

Lemma demo5_free : path noq 100 [100].
Proof. constructor. intros o. apply not_elem_of_nil. Qed.

Lemma demo6_sound : exists L W, ksound demo6 L W.
Proof.
  eapply (outk_wp (KMutexLock 1000) (fun s => exists L W, ksound s L W)).
  destruct demo5_sound as [Hk Hp].
  eapply wpk_mono; [apply (mutex_lock_spec demo5 _ noq 1000 100 [100] Hk Hp)|done|].
  - by vm_compute.
  - by vm_compute.
  - by vm_compute.
  - decide_vm.
  - apply demo5_free.
  - decide_vm.
  - exists 100. split_and!; [decide_vm|by vm_compute|by vm_compute].
  - intros ? s' (L' & W' & _ & H1 & H2 & _). by exists L', W'.
Qed.
