(* ===== verification/KTheorems.v ===== *)
(** * The kernel's threads and mutexes: theorems

    Each operation of [thread.c] and [sync.c] preserves the invariant of the
    thread structures, the scheduling property and priority inheritance, with
    its effect on the threads; and two sequences of calls after which the
    scheduling property does not hold. *)

From stdpp Require Import base gmap list fin_maps.
From Stdlib Require Import ZArith Lia Sorted.
From S2P Require Import Prelude Chain KState KTick KThread KLists KSched KSchedOps KBlock KLife KSync KPrio KMutexProofs KSetPrio KSound.

Open Scope Z_scope.

(** ** Start and creation *)

(** Start: on zeroed memory [KThreadInit] establishes the kernel invariant
    with the main thread current and the idle thread behind it. *)
Theorem KThreadInit_ok thr msr clock addr main idle :
  NULL ∉ thr -> main ∈ thr -> idle ∈ thr -> main <> idle -> Z.land msr MSR_RI <> 0 ->
  wp (KThreadInit addr main idle)
    (fun _ s' => ksound s' [main; idle] (fun _ => []) /\ k_self s' = main /\ running s' main /\
       running s' idle) (boot_kst thr msr clock).
Proof. apply init_sound. Qed.

Lemma KThreadInit_ok_witness :
  wp (KThreadInit 0x1000 100 300)
    (fun _ s' => ksound s' [100; 300] (fun _ => []) /\ k_self s' = 100 /\ running s' 100 /\
       running s' 300) (boot_kst {[100; 200; 300; 400]} MSR_RI (fun _ => 0)).
Proof. apply KThreadInit_ok; [decide_vm..|done|done]. Defined.

(** Creation: [KThreadPrepare] on an unused thread object puts a thread with
    the given entry point and argument, suspended once, into the list at its
    priority, behind the threads of the same priority, and leaves the priority
    of every other thread. *)
Theorem KThreadPrepare_ok s L W t entry arg sp prio exit sda sda2 :
  ksound s L W -> unused s L W t ->
  wp (KThreadPrepare exit sda sda2 t entry arg sp prio)
    (fun _ s' => ksound s' (ins_prio (k_prio s') t L) W /\
       k_prio s' t = Z.land prio KTHR_MIN_PRIO /\ k_state s' t = KTHR_STATE_WAITING /\ k_suspend s' t = 1 /\
       c_pc (k_ctx s' t) = entry /\ c_gpr3 (k_ctx s' t) = arg /\ c_lr (k_ctx s' t) = exit /\
       (forall x, x <> t -> k_prio s' x = k_prio s x) /\ k_msr s' = Z.ldiff (k_msr s) MSR_FP) s.
Proof.
  intros Hs Hu. eapply wp_mono; [by apply prepare_sound|]. cbv beta. intros ? s' H. tauto.
Qed.

Lemma KThreadPrepare_ok_witness :
  wp (KThreadPrepare 0x2000 0 0 400 0x3000 7 0x8004 0xff)
    (fun _ s' => ksound s' (ins_prio (k_prio s') 400 [200; 100; 300]) noq /\
       k_prio s' 400 = 0x7f /\ k_state s' 400 = KTHR_STATE_WAITING /\ k_suspend s' 400 = 1 /\
       c_pc (k_ctx s' 400) = 0x3000 /\ c_gpr3 (k_ctx s' 400) = 7 /\ c_lr (k_ctx s' 400) = 0x2000 /\
       (forall x, x <> 400 -> k_prio s' x = k_prio demo1 x) /\ k_msr s' = Z.ldiff (k_msr demo1) MSR_FP) demo1.
Proof.
  apply (KThreadPrepare_ok demo1 [200; 100; 300] noq 400 0x3000 7 0x8004 0xff); [apply demo1_sound|].
  split_and!; [decide_vm|decide_vm|done|by vm_compute].
Defined.

(** ** Resuming, suspending and yielding *)

(** [KThreadResume] takes back one suspension. At the last one a thread that
    is in no queue becomes runnable, and the processor goes to it at once (or on
    return from the exception) exactly if it has a higher priority than the
    running thread: after the call no runnable thread is better than the one
    that runs. The interrupt state is restored for the caller. *)
Theorem KThreadResume_ok s L W t :
  ksound s L W -> t ∈ L -> running s (k_self s) \/ t = k_self s ->
  wpb (KThreadResume t) (fun b s' => ksound s' L W /\ outcome s (resume_effect t s) L b s') s.
Proof. apply resume_sound. Qed.

Lemma KThreadResume_ok_witness :
  wpb (KThreadResume 200) (fun b s' => ksound s' [200; 100; 400; 300] noq /\
    outcome demo3 (resume_effect 200 demo3) [200; 100; 400; 300] b s') demo3 /\
  k_self demo3 = 100 /\ k_self (outk (KThreadResume 200) demo3) = 200.
Proof.
  split; [|by vm_compute].
  apply KThreadResume_ok; [apply demo3_sound|decide_vm|left; by vm_compute].
Defined.

(** [KThreadSuspend] adds a suspension. A runnable thread stops, the running
    thread gives up the processor to the best runnable one, and a thread that was
    chosen to run after the current exception is replaced by the best one. *)
Theorem KThreadSuspend_ok s L W t :
  ksound s L W -> t ∈ L -> k_suspend s t + 1 < 2 ^ 16 -> other_running s L t ->
  wpb (KThreadSuspend t) (fun b s' => ksound s' L W /\ outcome s (suspend_effect t s) L b s') s.
Proof. apply suspend_sound. Qed.

Lemma KThreadSuspend_ok_witness :
  wpb (KThreadSuspend 100) (fun b s' => ksound s' [200; 100; 400; 300] noq /\
    outcome demo3 (suspend_effect 100 demo3) [200; 100; 400; 300] b s') demo3 /\
  k_self (outk (KThreadSuspend 100) demo3) = 400.
Proof.
  split; [|by vm_compute]. apply KThreadSuspend_ok; [apply demo3_sound|decide_vm|by vm_compute|].
  exists 400. split_and!; [decide_vm|by vm_compute|by vm_compute].
Defined.

(** Round robin: [KThreadYield] passes the processor to the next runnable
    thread behind the caller in the list if it has the same priority, and
    otherwise to the first runnable thread; the caller goes on only if that is
    itself. *)
Theorem KThreadYield_ok s L W L1 L2 :
  ksound s L W -> running s (k_self s) -> L = L1 ++ k_self s :: L2 ->
  wpk KThreadYield
    (fun _ s' => ksound s' L W /\ outcome s s L true s' /\ (in_excpt s = false -> yield_choice s L L2 = k_self s))
    (fun _ s' => ksound s' L W /\ outcome s s L false s' /\ k_self s' = yield_choice s L L2) s.
Proof. apply yield_sound. Qed.

Lemma KThreadYield_ok_witness :
  wpk KThreadYield
    (fun _ s' => ksound s' [200; 100; 400; 300] noq /\ outcome demo3 demo3 [200; 100; 400; 300] true s' /\
       (in_excpt demo3 = false -> yield_choice demo3 [200; 100; 400; 300] [400; 300] = k_self demo3))
    (fun _ s' => ksound s' [200; 100; 400; 300] noq /\ outcome demo3 demo3 [200; 100; 400; 300] false s' /\
       k_self s' = yield_choice demo3 [200; 100; 400; 300] [400; 300]) demo3 /\
  k_self (outk KThreadYield demo3) = 400 /\ k_self (outk KThreadYield (outk KThreadYield demo3)) = 100.
Proof.
  split; [|by vm_compute].
  apply (KThreadYield_ok demo3 _ noq [200] [400; 300]); [apply demo3_sound|by vm_compute..].
Defined.

(** ** Waiting *)

(** [KThrQueueBlock]: the caller enters the queue at its priority, behind
    the waiting threads of the same priority, and the best of the other runnable
    threads gets the processor. *)
Theorem KThrQueueBlock_ok s L W a tok :
  let q := QStatic a in
  ksound s L W -> running s (k_self s) -> other_running s L (k_self s) ->
  wpb (KThrQueueBlock q tok)
    (fun b s' => ksound s' L (fupd W q (ins_prio (k_prio s) (k_self s) (W q))) /\
       exists k', outcome s (blocked (k_self s) KTHR_STATE_WAITING tok q k' s) L b s') s.
Proof. apply block_sound. Qed.

Lemma KThrQueueBlock_ok_witness :
  wpb (KThrQueueBlock (QStatic 7) 5)
    (fun b s' => ksound s' [200; 100; 400; 300] (fupd noq (QStatic 7) [100]) /\
       exists k', outcome demo3 (blocked 100 KTHR_STATE_WAITING 5 (QStatic 7) k' demo3) [200; 100; 400; 300] b s')
    demo3 /\ k_self (outk (KThrQueueBlock (QStatic 7) 5) demo3) = 400.
Proof.
  split; [|by vm_compute].
  apply (KThrQueueBlock_ok demo3 _ noq 7 5); [apply demo3_sound|by vm_compute|].
  exists 400. split_and!; [decide_vm|by vm_compute|by vm_compute].
Defined.

(** Waking: the threads of the queue whose token matches leave it, in
    queue order and at most [max] of them (all, if [max] is negative); each gets
    its new token, those not suspended become runnable, and the processor is
    given up exactly if the best of them has a higher priority than the
    caller. *)
Theorem KThrQueueUnblockCommon_ok s L W a max mode ref :
  let q := QStatic a in
  let wk := woken (k_token s) mode ref max (W q) in
  ksound s L W -> running s (k_self s) ->
  wpb (KThrQueueUnblockCommon q max mode ref)
    (fun b s' => ksound s' L (without W q wk) /\
       exists s1, woke (new_token mode ref) wk s s1 /\ outcome s s1 L b s') s.
Proof. apply unblock_sound. Qed.

Lemma KThrQueueUnblockCommon_ok_witness :
  let W := fupd noq (QStatic 7) [100] in
  let wk := woken (k_token demo4) KTHR_UNBLOCK_BY_MASK 4 1 (W (QStatic 7)) in
  wpb (KThrQueueUnblockCommon (QStatic 7) 1 KTHR_UNBLOCK_BY_MASK 4)
    (fun b s' => ksound s' [200; 100; 400; 300] (without W (QStatic 7) wk) /\
       exists s1, woke (new_token KTHR_UNBLOCK_BY_MASK 4) wk demo4 s1 /\ outcome demo4 s1 [200; 100; 400; 300] b s')
    demo4 /\ wk = [100].
Proof.
  intros W wk. split; [|by vm_compute].
  apply (KThrQueueUnblockCommon_ok demo4 _ W 7); [apply demo4_sound|by vm_compute].
Defined.

(** [KThrQueueCancel] ends the wait of a thread that waits in the queue,
    with token 0, and leaves any other thread alone. *)
Theorem KThrQueueCancel_ok s L W a t :
  let q := QStatic a in
  let wk := if bool_decide (k_wq s t = Some q) then [t] else [] in
  ksound s L W -> running s (k_self s) -> t ∈ L ->
  wpb (KThrQueueCancel q t)
    (fun b s' => ksound s' L (without W q wk) /\
       exists s1, woke (fun _ => 0) wk s s1 /\ outcome s s1 L b s') s.
Proof. apply cancel_sound. Qed.

Lemma KThrQueueCancel_ok_witness :
  let W := fupd noq (QStatic 7) [100] in
  let wk := if bool_decide (k_wq demo4 100 = Some (QStatic 7)) then [100] else [] in
  wpb (KThrQueueCancel (QStatic 7) 100)
    (fun b s' => ksound s' [200; 100; 400; 300] (without W (QStatic 7) wk) /\
       exists s1, woke (fun _ => 0) wk demo4 s1 /\ outcome demo4 s1 [200; 100; 400; 300] b s') demo4 /\
  wk = [100].
Proof.
  intros W wk. split; [|by vm_compute].
  refine (KThrQueueCancel_ok demo4 [200; 100; 400; 300] W 7 100 demo4_sound _ _); [by vm_compute|decide_vm].
Defined.

(** [KThreadExit] never returns: the caller leaves the list of threads,
    finished with its exit code, every thread that waits to join it is woken, and
    the best runnable thread runs. *)
Theorem KThreadExit_ok s L W rc :
  ksound s L W -> running s (k_self s) -> in_excpt s = false -> W (QWaiters (k_self s)) = [] ->
  other_running s L (k_self s) ->
  wpk (KThreadExit rc) (fun _ _ => False)
    (fun _ s' => ksound s' (rem (k_self s) L) (without W s_joinQueue (joiners s W)) /\ exit_post s L W rc s') s.
Proof. apply exit_sound. Qed.

Lemma KThreadExit_ok_witness :
  wpk (KThreadExit 3) (fun _ _ => False)
    (fun _ s' => ksound s' (rem 100 [200; 100; 400; 300]) (without noq s_joinQueue (joiners demo3 noq)) /\
       exit_post demo3 [200; 100; 400; 300] noq 3 s') demo3 /\ k_self (outk (KThreadExit 3) demo3) = 400.
Proof.
  split; [|by vm_compute].
  apply (KThreadExit_ok demo3 _ noq 3); [apply demo3_sound|by vm_compute..|].
  exists 400. split_and!; [decide_vm|by vm_compute|by vm_compute].
Defined.

(** ** Mutexes and priorities *)

(** C10. Priority inheritance: if every thread except possibly [t] has its
    dynamic priority, [KThreadUpdateDynamicPrio] ends (the chain of owners is
    finite and free of cycles) with every thread at its dynamic priority, the
    list and the queues sorted again, and no priority changed outside the chain
    of owners from [t]. *)
Theorem KThreadUpdateDynamicPrio_ok s L W t p :
  kinv s L W -> t ∈ L -> path W t p ->
  (forall x, x ∈ L -> 0 <= k_baseprio s x < 2 ^ 16 /\ 0 <= k_prio s x < 2 ^ 16) ->
  (forall x, x ∈ L -> x <> t -> has_dyn_prio s W x) ->
  wp (KThreadUpdateDynamicPrio t)
    (fun _ s' => exists L' W', L' ≡ₚ L /\ (forall q, W' q ≡ₚ W q) /\ kinv s' L' W' /\
       (forall x, x ∈ L' -> has_dyn_prio s' W' x) /\ (forall x, x ∉ p -> k_prio s' x = k_prio s x) /\
       k_state s' = k_state s /\ (forall x, k_wq s' x = k_wq s x)) s.
Proof.
  intros Hk Ht Hp Hr Hd. eapply wp_mono.
  - apply (update_prio_spec (fun _ => True) s L W t p Hp (ki_base _ _ _ Hk) Ht).
    + intros x o _. apply (ki_token _ _ _ Hk).
    + done.
    + auto.
  - intros ? s' (L' & W' & Hb & H1 & _). exists L', W'.
    split_and!; [apply (bu_L _ _ _ _ _ _ _ Hb)|apply (bu_W _ _ _ _ _ _ _ Hb)|by eapply bumped_kinv|auto|
      apply (bu_prio _ _ _ _ _ _ _ Hb)| |apply (bu_wq _ _ _ _ _ _ _ Hb)].
    by destruct (bu_eq _ _ _ _ _ _ _ Hb) as (? & ? & ? & ? & ->).
Qed.

(** The base priority of the main thread lowered behind its back. *)
Definition demo_stale : kst := set_baseprio (fupd (k_baseprio demo3) 100 0x70) demo3.

Lemma KThreadUpdateDynamicPrio_ok_witness :
  wp (KThreadUpdateDynamicPrio 100)
    (fun _ s' => exists L' W', L' ≡ₚ [200; 100; 400; 300] /\ (forall q, W' q ≡ₚ noq q) /\ kinv s' L' W' /\
       (forall x, x ∈ L' -> has_dyn_prio s' W' x) /\ (forall x, x ∉ [100] -> k_prio s' x = k_prio demo_stale x) /\
       k_state s' = k_state demo_stale /\ (forall x, k_wq s' x = k_wq demo_stale x)) demo_stale.
Proof.
  apply (KThreadUpdateDynamicPrio_ok demo_stale [200; 100; 400; 300] noq 100 [100]).
  - apply kinv_baseprio, (proj1 demo3_sound).
  - decide_vm.
  - apply demo5_free.
  - intros x Hx. assert (x = 200 \/ x = 100 \/ x = 400 \/ x = 300) as [-> | [-> | [-> | ->] ] ] by set_solver;
      vm_compute; split; split; done.
  - intros x Hx Hn. assert (x = 200 \/ x = 400 \/ x = 300) as [-> | [-> | ->] ] by set_solver; by vm_compute.
Defined.

(** C7. Locking a mutex that another thread holds: the caller does not get it,
    waits in the owner's queue, and the owner and everything it waits for run
    with at least the caller's priority; no other priority changes, and the
    kernel is sound again with the best runnable thread running. *)
Theorem KMutexLock_ok s L W m po :
  ksound s L W -> in_excpt s = false -> running s (k_self s) ->
  k_owner s m ∈ L -> path W (k_owner s m) po -> k_self s ∉ po -> other_running s L (k_self s) ->
  wpk (KMutexLock m) (fun _ _ => False)
    (fun _ s' => exists L' W', L' ≡ₚ L /\ ksound s' L' W' /\ k_owner s' = k_owner s /\
       k_token s' (k_self s) = m /\ k_self s ∈ W' (QWaiters (k_owner s m)) /\
       k_prio s' (k_owner s m) <= k_prio s' (k_self s) /\ (forall x, x ∉ po -> k_prio s' x = k_prio s x) /\
       c_msr (k_ctx s' (k_self s)) = Z.ldiff (k_msr s) MSR_FP) s.
Proof.
  intros [Hk Hp] Hex Hr Ho Hpo Hni Hi. eapply wpk_mono; [by apply (mutex_lock_spec s L W m (k_owner s m) po)|done|].
  intros ? s' (L' & W' & H1 & H2 & H3 & H). exists L', W'. unfold ksound. tauto.
Qed.

Lemma KMutexLock_ok_witness :
  wpk (KMutexLock 1000) (fun _ _ => False)
    (fun _ s' => exists L' W', L' ≡ₚ [200; 100; 400; 300] /\ ksound s' L' W' /\ k_owner s' = k_owner demo5 /\
       k_token s' 400 = 1000 /\ 400 ∈ W' (QWaiters (k_owner demo5 1000)) /\
       k_prio s' (k_owner demo5 1000) <= k_prio s' 400 /\
       (forall x, x ∉ [100] -> k_prio s' x = k_prio demo5 x) /\
       c_msr (k_ctx s' 400) = Z.ldiff (k_msr demo5) MSR_FP) demo5 /\ k_owner demo5 1000 = 100.
Proof.
  split; [|by vm_compute].
  refine (KMutexLock_ok demo5 [200; 100; 400; 300] noq 1000 [100] demo5_sound _ _ _ _ _ _).
  - by vm_compute.
  - by vm_compute.
  - decide_vm.
  - apply demo5_free.
  - decide_vm.
  - exists 100. split_and!; [decide_vm|by vm_compute|by vm_compute].
Defined.

(** C8. Unlocking: with no waiter the mutex becomes free; otherwise it goes to
    the waiter of highest priority (the first in line among equals), which is
    runnable unless suspended, the remaining waiters now wait on the new owner,
    and both owners have their dynamic priorities. *)
Theorem KMutexUnlock_ok s L W m :
  ksound s L W -> in_excpt s = false -> running s (k_self s) -> k_owner s m = k_self s ->
  wpb (KMutexUnlock m) (fun _ s' => unlock_post s L W m s') s.
Proof. intros [Hk Hp]. by apply mutex_unlock_spec. Qed.

Lemma KMutexUnlock_ok_witness :
  exists L W, wpb (KMutexUnlock 1000) (fun _ s' => unlock_post demo6 L W 1000 s') demo6 /\
    k_owner (outk (KMutexUnlock 1000) demo6) 1000 = 400.
Proof.
  destruct demo6_sound as (L & W & Hs). exists L, W. split; [|by vm_compute].
  apply (KMutexUnlock_ok demo6 L W 1000 Hs); by vm_compute.
Defined.

(** [KThreadSetPrio] on a thread that does not wait for a mutex sets its
    base priority, gives it its dynamic priority and reschedules; no other
    thread's priority changes. *)
Theorem KThreadSetPrio_ok s L W t prio :
  ksound s L W -> in_excpt s = false -> running s (k_self s) -> t ∈ L ->
  k_state s t <> KTHR_STATE_WAITING_MUTEX ->
  wpb (KThreadSetPrio t prio)
    (fun _ s' => exists L' W', L' ≡ₚ L /\ ksound s' L' W' /\
       k_baseprio s' = fupd (k_baseprio s) t (Z.land prio KTHR_MIN_PRIO) /\
       (forall x, x <> t -> k_prio s' x = k_prio s x)) s.
Proof.
  intros [Hk Hp] Hex Hr Ht Hn. eapply wpb_mono; [exact (set_prio_spec s L W t prio Hk Hp Hex Hr Ht Hn)|].
  intros ? s' (L' & W' & H1 & H2 & H3 & H). exists L', W'. unfold ksound. tauto.
Qed.

Lemma KThreadSetPrio_ok_witness :
  wpb (KThreadSetPrio 100 0x50)
    (fun _ s' => exists L' W', L' ≡ₚ [200; 100; 400; 300] /\ ksound s' L' W' /\
       k_baseprio s' = fupd (k_baseprio demo3) 100 0x50 /\
       (forall x, x <> 100 -> k_prio s' x = k_prio demo3 x)) demo3 /\
  k_self (outk (KThreadSetPrio 100 0x50) demo3) = 400.
Proof.
  split; [|by vm_compute].
  refine (KThreadSetPrio_ok demo3 [200; 100; 400; 300] noq 100 0x50 demo3_sound _ _ _ _);
    [by vm_compute|by vm_compute|decide_vm|by vm_compute].
Defined.

(** ** Where the scheduling property fails *)

(** Threads 200 and 400 with priorities 0x45 and 0x50; 400 is resumed; then an
    interrupt handler suspends the interrupted main thread and resumes 200. *)
Definition handler_demo : kst :=
  outk (KThreadResume 200) (outk (KThreadSuspend 100) (set_msr 0
    (outk (KThreadResume 400) (out (prepare 400 0x50) (out (prepare 200 0x45) demo0))))).

(** In an exception [KThreadReschedule] compares a thread that became
    runnable with the interrupted thread only. After the interrupted thread was
    suspended that is wrong: a runnable thread is passed over for the thread
    chosen before, which has a lower priority. *)
Theorem KThreadResume_in_handler :
  cur handler_demo = 400 /\ running handler_demo 200 /\ k_prio handler_demo 200 < k_prio handler_demo 400.
Proof. by vm_compute. Qed.

(** Main thread 100 runs at 0x3f. Thread 200 (0x20) takes the mutex 1000, thread
    400 (0x10) is resumed and waits for it, so that 200 runs at 0x10; 200 lowers
    its own base priority to 0x60, then that of 400 to 0x70. *)
Definition setprio_demo : kst :=
  let s1 := out (prepare 400 0x10) demo1 in
  let s2 := outk (KThreadResume 200) s1 in
  let s3 := out (KMutexTryLock 1000) s2 in
  let s4 := outk (KThreadResume 400) s3 in
  let s5 := outk (KMutexLock 1000) s4 in
  let s6 := outk (KThreadSetPrio 200 0x60) s5 in
  outk (KThreadSetPrio 400 0x70) s6.

(** [KThreadSetPrio] on a thread that waits for a mutex changes the priority
    of the owner, possibly the caller, but does not reschedule: the caller goes
    on although a thread with a higher priority is runnable. *)
Theorem KThreadSetPrio_waiting_mutex :
  cur setprio_demo = 200 /\ k_prio setprio_demo 200 = 0x60 /\ running setprio_demo 100 /\
  k_prio setprio_demo 100 = 0x3f.
Proof. by vm_compute. Qed.
