(* ===== verification/KRest.v ===== *)
(** * The code left after a context switch

    A call that is switched out leaves code to run when its thread is scheduled
    again. For the scheduler's operations that code changes nothing. *)

From stdpp Require Import base gmap list fin_maps.
From Stdlib Require Import ZArith Lia.
From S2P Require Import Prelude Chain KState KTick KThread KLists KSched KSync.

Open Scope Z_scope.

(** If [c] is switched out when run from [s], the code left satisfies [R]. *)
Definition wlpk {A} (c : K A) (R : K A -> Prop) (s : kst) : Prop :=
  match runK c s with Ok (inr k, _) => R k | _ => True end.

(** Code that returns without changing the state, where [P] holds. *)
Definition inert {A} (P : kst -> Prop) (k : K A) : Prop :=
  forall s, P s -> exists a, runK k s = Ok (inl a, s).

(** Code with no effect that needs nothing. *)
Definition idle_code {A} : K A -> Prop := inert (fun _ => True).

Lemma wpk_rest {A} (c : K A) Q R R' s :
  wpk c Q R s -> wlpk c R' s -> wpk c Q (fun k s' => R k s' /\ R' k) s.
Proof. unfold wpk, wlpk. by destruct (runK c s) as [ [ [?|?] ?]|]. Qed.

Lemma wlpk_mono {A} (c : K A) (R R' : K A -> Prop) s : (forall k, R k -> R' k) -> wlpk c R s -> wlpk c R' s.
Proof. unfold wlpk. intros H. destruct (runK c s) as [ [ [?|?] ?]|]; auto. Qed.

Lemma wlpk_lift {A} (c : M kst A) R s : wlpk (lift c) R s.
Proof. unfold wlpk, lift. simpl. by destruct (c s) as [ [? ?]|]. Qed.

Lemma wlpk_ret {A} (a : A) R s : wlpk (kret a) R s.
Proof. done. Qed.

Lemma wlpk_bind {A B} (c : K A) (f : A -> K B) R s :
  wlpk c (fun k => R (kbind k f)) s ->
  (forall a s', runK c s = Ok (inl a, s') -> wlpk (f a) R s') -> wlpk (kbind c f) R s.
Proof. destruct c as [r]. unfold wlpk. simpl. destruct (r s) as [ [ [a|k] s']|]; intros H1 H2; [by apply H2|done|done]. Qed.

Lemma wlpk_lift_bind {A B} (c : M kst A) (f : A -> K B) R s :
  (forall a s', c s = Ok (a, s') -> wlpk (f a) R s') -> wlpk (kbind (lift c) f) R s.
Proof.
  intros H. apply wlpk_bind; [apply wlpk_lift|]. intros a s'. unfold lift. simpl.
  destruct (c s) as [ [? ?]|] eqn:E; [|done]. intros [= -> ->]. by apply H.
Qed.

Lemma wlpk_switch {A} j (k : K A) R s : R k -> wlpk (kswitch j k) R s.
Proof. unfold wlpk, kswitch. simpl. by destruct (j s) as [ [? ?]|]. Qed.

(** Sequencing of inert code. *)
Lemma inert_bind {A B} (P : kst -> Prop) (k : K A) (f : A -> K B) :
  inert P k -> (forall a, inert P (f a)) -> inert P (kbind k f).
Proof.
  intros Hk Hf s Hs. destruct (Hk s Hs) as [a Ha]. destruct (Hf a s Hs) as [b Hb]. exists b.
  destruct k as [r]. simpl in *. by rewrite Ha.
Qed.

Lemma inert_ret {A} P (a : A) : inert P (kret a).
Proof. intros s _. by exists a. Qed.

Lemma switch_rest t st s : wlpk (KThreadSwitchTo t st) idle_code s.
Proof.
  unfold KThreadSwitchTo. apply wlpk_lift_bind. intros ex s1 _. destruct ex; [apply wlpk_lift|].
  apply wlpk_lift_bind. intros ? s2 _. apply wlpk_switch, inert_ret.
Qed.

Lemma reschedule_rest t st s : wlpk (KThreadReschedule t st) idle_code s.
Proof.
  unfold KThreadReschedule. apply wlpk_lift_bind. intros b s1 _.
  destruct b; [apply switch_rest|apply wlpk_lift].
Qed.

Lemma unblock_rest q max mode ref s : wlpk (KThrQueueUnblockCommon q max mode ref) idle_code s.
Proof.
  unfold KThrQueueUnblockCommon. do 2 (apply wlpk_lift_bind; intros ? ? _). apply reschedule_rest.
Qed.

(** The code after a block reads the thread's token. *)
Lemma block_rest q tok s : wlpk (KThrQueueBlock q tok) (inert (fun s2 => k_self s ∈ k_thr s2)) s.
Proof.
  unfold KThrQueueBlock. apply wlpk_lift_bind. intros t s1 [= <- <-].
  do 2 (apply wlpk_lift_bind; intros ? ? _). apply wlpk_bind; [|intros; apply wlpk_lift].
  eapply wlpk_mono; [|apply switch_rest]. intros k Hk. apply inert_bind.
  - intros s2 _. by apply Hk.
  - intros _ s2 Hs2. exists (k_token s2 (k_self s)). unfold lift, rd, getopt. simpl. by rewrite decide_True.
Qed.
