(* ===== verification/KMailbox.v ===== *)
(** * Mailboxes ([tuxedo/mailbox.c], [gc/tuxedo/mailbox.h])

    A mailbox is a ring buffer of messages with a queue of receiving threads.
    It refines a bounded FIFO queue; the receiving side assumes that a woken
    thread finds the message that woke it. *)

From stdpp Require Import base gmap list fin_maps.
From Stdlib Require Import ZArith Lia.
From S2P Require Import Prelude Chain KState KTick KThread KLists KSched KSchedOps KBlock KLife KSync KPrio KMutexProofs KSetPrio KSound KRest.

Open Scope Z_scope.

(** ** Operations *)

Definition rd_box {A} (f : KMailbox -> A) (mb : Z) : M kst A := gets (fun s => f (k_box s mb)).
Definition wr_box (mb : Z) (u : KMailbox -> KMailbox) : M kst unit :=
  modify (fun s => set_box (fupd (k_box s) mb (u (k_box s mb))) s).
Definition rd_word (a : Z) : M kst Z := getopt (fun s => k_mem s !! a).
Definition wr_word (a v : Z) : M kst unit :=
  fun s => match k_mem s !! a with
           | Some _ => Ok (tt, set_mem (<[a := v]> (k_mem s)) s)
           | None => Fault BadAccess
           end.

(** Field updates, at the width of the fields. *)
Definition upd_cur_slot (v : Z) (b : KMailbox) : KMailbox :=
  mk_box (mb_slots b) (mb_num_slots b) (u16 v) (mb_pending_slots b) (mb_send_waiters b) (mb_recv_waiters b).
Definition upd_pending_slots (v : Z) (b : KMailbox) : KMailbox :=
  mk_box (mb_slots b) (mb_num_slots b) (mb_cur_slot b) (u16 v) (mb_send_waiters b) (mb_recv_waiters b).
Definition upd_recv_waiters (v : Z) (b : KMailbox) : KMailbox :=
  mk_box (mb_slots b) (mb_num_slots b) (mb_cur_slot b) (mb_pending_slots b) (mb_send_waiters b) (u8 v).

Definition KMailboxPrepare (mb slots num_slots : Z) : M kst unit :=
  wr_box mb (fun _ => mk_box slots (u16 num_slots) 0 0 0 0).

(** The address of [mb->slots[i]]. *)
Definition slot_addr (b : KMailbox) (i : Z) : Z := u32 (mb_slots b + 4 * i).

(** The part of [KMailboxTrySend] that stores the message. *)
Definition put_message (mb message pending num : Z) : M kst unit :=
  cur_slot <- rd_box mb_cur_slot mb;
  wr_box mb (upd_pending_slots (pending + 1));;
  (let next_slot := u32 (cur_slot + pending) in
   let next_slot := if num <=? next_slot then u32 (next_slot - num) else next_slot in
   b <- rd_box id mb;
   wr_word (slot_addr b next_slot) message).

Definition KMailboxTrySend (mb message : Z) : K bool :=
  let! st := lift PPCIrqLockByMsr in
  let! pending := lift (rd_box mb_pending_slots mb) in
  let! num := lift (rd_box mb_num_slots mb) in
  if pending =? num then (do! lift (PPCIrqUnlockByMsr st) then kret false) else
  do! lift (put_message mb message pending num) then
  let! waiters := lift (rd_box mb_recv_waiters mb) in
  do! kwhen (negb (waiters =? 0))
        (do! lift (wr_box mb (upd_recv_waiters (waiters - 1))) then
         KThrQueueUnblockOneByValue s_mailboxRecvQueue mb) then
  do! lift (PPCIrqUnlockByMsr st) then
  kret true.

(** The common end of both receive operations. *)
Definition take_message (mb : Z) : M kst Z :=
  cur_slot <- rd_box mb_cur_slot mb;
  b <- rd_box id mb;
  message <- rd_word (slot_addr b cur_slot);
  wr_box mb (upd_cur_slot (cur_slot + 1));;
  pending <- rd_box mb_pending_slots mb;
  wr_box mb (upd_pending_slots (pending - 1));;
  cur_slot' <- rd_box mb_cur_slot mb;
  num <- rd_box mb_num_slots mb;
  when (num <=? cur_slot') (wr_box mb (upd_cur_slot (cur_slot' - num)));;
  ret message.

(** [None] for [false]; the message stored through [out] otherwise. *)
Definition KMailboxTryRecv (mb : Z) : M kst (option Z) :=
  st <- PPCIrqLockByMsr;
  pending <- rd_box mb_pending_slots mb;
  if pending =? 0 then PPCIrqUnlockByMsr st;; ret None else
  message <- take_message mb;
  PPCIrqUnlockByMsr st;;
  ret (Some message).

Definition KMailboxRecv (mb : Z) : K Z :=
  let! st := lift PPCIrqLockByMsr in
  let! pending := lift (rd_box mb_pending_slots mb) in
  do! kwhen (pending =? 0)
        (do! lift (waiters <- rd_box mb_recv_waiters mb; wr_box mb (upd_recv_waiters (waiters + 1))) then
         do! KThrQueueBlock s_mailboxRecvQueue mb then kret tt) then
  let! message := lift (take_message mb) in
  do! lift (PPCIrqUnlockByMsr st) then
  kret message.

(** ** The bounded queue *)

(** The index of the [i]-th message from the head. *)
Definition ring (b : KMailbox) (i : Z) : Z :=
  let j := mb_cur_slot b + i in if mb_num_slots b <=? j then j - mb_num_slots b else j.

(** The mailbox holds the messages [q], the oldest first; [n] slots of memory
    belong to it. *)
Record box_ok (s : kst) (mb : Z) (n : Z) (q : list Z) : Prop := {
  bx_num : mb_num_slots (k_box s mb) = n;
  bx_range : 0 < n < 2 ^ 16;
  bx_cur : 0 <= mb_cur_slot (k_box s mb) < n;
  bx_pending : mb_pending_slots (k_box s mb) = Z.of_nat (length q);
  bx_len : Z.of_nat (length q) <= n;
  bx_space : 0 <= mb_slots (k_box s mb) /\ mb_slots (k_box s mb) + 4 * n <= 2 ^ 32;
  bx_mapped : forall i, 0 <= i < n -> is_Some (k_mem s !! (mb_slots (k_box s mb) + 4 * i));
  bx_msgs : forall i x, q !! i = Some x ->
    k_mem s !! (mb_slots (k_box s mb) + 4 * ring (k_box s mb) (Z.of_nat i)) = Some x;
}.

Lemma box_frame s s' mb n q :
  k_box s' mb = k_box s mb -> k_mem s' = k_mem s -> box_ok s mb n q -> box_ok s' mb n q.
Proof. intros E1 E2 []. split; rewrite ?E1, ?E2; done. Qed.

Lemma ring_range s mb n q i :
  box_ok s mb n q -> 0 <= i <= n -> i < n \/ 0 < mb_cur_slot (k_box s mb) ->
  0 <= ring (k_box s mb) i < n.
Proof. intros H Hi Hc. destruct H. unfold ring. destruct (Z.leb_spec (mb_num_slots (k_box s mb)) (mb_cur_slot (k_box s mb) + i)); lia. Qed.

(** Distinct positions have distinct slots. *)
Lemma ring_inj s mb n q i j :
  box_ok s mb n q -> 0 <= i < n -> 0 <= j < n -> ring (k_box s mb) i = ring (k_box s mb) j -> i = j.
Proof.
  intros [H1 H2 H3 H4 H5 H6 H7 H8]. unfold ring. rewrite H1.
  destruct (Z.leb_spec n (mb_cur_slot (k_box s mb) + i)), (Z.leb_spec n (mb_cur_slot (k_box s mb) + j)); lia.
Qed.

Lemma wp_rd_word a v Q s : k_mem s !! a = Some v -> Q v s -> wp (rd_word a) Q s.
Proof. intros H HQ. by eapply wp_getopt. Qed.
Lemma wp_wr_word a v Q s :
  is_Some (k_mem s !! a) -> Q tt (set_mem (<[a := v]> (k_mem s)) s) -> wp (wr_word a v) Q s.
Proof. intros [x H] HQ. unfold wp, wr_word. by rewrite H. Qed.

(** Only the mailbox [mb] and memory changed. *)
Definition box_step (mb : Z) (s s' : kst) : Prop :=
  exists B M, s' = set_mem M (set_box B s) /\ forall x, x <> mb -> B x = k_box s x.

Lemma pop_spec s mb n x q :
  box_ok s mb n (x :: q) ->
  wp (take_message mb) (fun r s' => r = x /\ box_ok s' mb n q /\ box_step mb s s' /\ k_mem s' = k_mem s /\
    mb_recv_waiters (k_box s' mb) = mb_recv_waiters (k_box s mb)) s.
Proof.
  intros Hb. assert (H := Hb). destruct H as [H1 H2 H3 H4 H5 H6 H7 H8]. simpl in H4, H5.
  assert (H0 := H8 0%nat x eq_refl). unfold ring in H0. rewrite H1, Z.add_0_r in H0.
  rewrite (proj2 (Z.leb_gt n _)) in H0 by lia.
  unfold take_message, rd_box, wr_box, id. krun. apply wp_rd_word with x.
  { unfold slot_addr. by rewrite wrap_small by lia. }
  krun. ksimpl. rewrite !fupd_eq. cbn [upd_cur_slot upd_pending_slots mb_num_slots mb_cur_slot].
  rewrite (wrap_small 16 (mb_cur_slot (k_box s mb) + 1)) by lia. rewrite H1.
  set (c := mb_cur_slot (k_box s mb)) in *.
  assert (Hend : forall f, (forall x, x <> mb -> f x = k_box s x) ->
    f mb = mk_box (mb_slots (k_box s mb)) n (if n <=? c + 1 then c + 1 - n else c + 1)
           (Z.of_nat (length q)) (mb_send_waiters (k_box s mb)) (mb_recv_waiters (k_box s mb)) ->
    x = x /\ box_ok (set_box f s) mb n q /\ box_step mb s (set_box f s) /\ k_mem (set_box f s) = k_mem s /\
    mb_recv_waiters (k_box (set_box f s) mb) = mb_recv_waiters (k_box s mb)).
  { intros f Hf Hfm. split_and!; [done| |exists f, (k_mem s); by destruct s|done|ksimpl; by rewrite Hfm].
    split; ksimpl; rewrite ?Hfm; cbn [mb_num_slots mb_cur_slot mb_pending_slots mb_slots]; try done; try lia.
    - destruct (Z.leb_spec n (c + 1)); lia.
    - intros i y Hy. specialize (H8 (S i) y Hy). rewrite <- H8. do 2 f_equal. f_equal. unfold ring.
      cbn [mb_num_slots mb_cur_slot]. rewrite H1. apply lookup_lt_Some in Hy. fold c. destruct (Z.leb_spec n (c + 1)).
      + destruct (Z.leb_spec n (c + 1 - n + Z.of_nat i)), (Z.leb_spec n (c + Z.of_nat (S i))); lia.
      + destruct (Z.leb_spec n (c + 1 + Z.of_nat i)), (Z.leb_spec n (c + Z.of_nat (S i))); lia. }
  destruct (Z.leb_spec n (c + 1)) as [Hn|Hn]; cbn [when]; krun.
  - apply Hend; [intros y Hy; ksimpl; by rewrite !fupd_ne|]. ksimpl. rewrite !fupd_eq.
    unfold upd_cur_slot, upd_pending_slots. cbn. rewrite H1, !wrap_small by lia. f_equal. lia.
  - apply Hend; [intros y Hy; ksimpl; by rewrite !fupd_ne|]. ksimpl. rewrite !fupd_eq.
    unfold upd_cur_slot, upd_pending_slots. cbn. rewrite H1, !wrap_small by lia. f_equal. lia.
Qed.

Lemma push_spec s mb n q msg :
  box_ok s mb n q -> Z.of_nat (length q) < n ->
  wp (put_message mb msg (Z.of_nat (length q)) n)
    (fun _ s' => box_ok s' mb n (q ++ [msg]) /\ box_step mb s s' /\
       mb_recv_waiters (k_box s' mb) = mb_recv_waiters (k_box s mb)) s.
Proof.
  intros Hb Hlt. assert (H := Hb). destruct H as [H1 H2 H3 H4 H5 H6 H7 H8].
  set (len := Z.of_nat (length q)) in *. pose proof (ring_range s mb n q len Hb) as Hr.
  unfold put_message, rd_box, wr_box, id. krun. ksimpl. rewrite fupd_eq.
  rewrite (wrap_small 32 (_ + len)) by lia.
  set (b := upd_pending_slots (len + 1) (k_box s mb)).
  assert (Hs : slot_addr b (if n <=? mb_cur_slot (k_box s mb) + len
                 then u32 (mb_cur_slot (k_box s mb) + len - n) else mb_cur_slot (k_box s mb) + len) =
               mb_slots (k_box s mb) + 4 * ring (k_box s mb) len).
  { unfold slot_addr, ring. rewrite H1. simpl.
    destruct (Z.leb_spec n (mb_cur_slot (k_box s mb) + len));
      [rewrite (wrap_small 32 (_ - n)) by lia|]; by rewrite wrap_small by lia. }
  rewrite Hs. apply wp_wr_word; [ksimpl; apply H7; lia|]. ksimpl.
  split_and!; [|eexists _, _; split; [done|]; intros x Hx; by rewrite fupd_ne|ksimpl; by rewrite fupd_eq].
  assert (Eb : forall i, ring b i = ring (k_box s mb) i) by done.
  split; ksimpl; rewrite ?fupd_eq, ?length_app, ?Nat2Z.inj_add; try done; fold len; simpl length; try lia.
  - unfold b, upd_pending_slots. simpl. rewrite wrap_small; lia.
  - intros i Hi. change (mb_slots b) with (mb_slots (k_box s mb)).
    destruct (decide (mb_slots (k_box s mb) + 4 * i = mb_slots (k_box s mb) + 4 * ring (k_box s mb) len)) as [->|Hne];
      [rewrite lookup_insert_eq; eauto|rewrite lookup_insert_ne by done; auto].
  - intros i x Hx. rewrite Eb. change (mb_slots b) with (mb_slots (k_box s mb)).
    apply lookup_snoc_Some in Hx as [ [Hi Hx]|[-> <-] ]; [|by rewrite lookup_insert_eq].
    rewrite lookup_insert_ne; [by apply H8|]. intros E.
    assert (Z.of_nat i = len) by (eapply (ring_inj s mb n q); eauto; lia). lia.
Qed.

(** ** The operations *)

Lemma box_step_sound mb s s' L W : box_step mb s s' -> ksound s L W -> ksound s' L W.
Proof.
  intros (b & M & -> & _) [ [ [ [] ?] []] []]. split; [split|]; split; try done. split; try done.
  by apply (waits_ext s).
Qed.

Lemma ksound_msr s L W m :
  Z.land m MSR_RI = Z.land (k_msr s) MSR_RI -> ksound s L W -> ksound (set_msr m s) L W.
Proof.
  intros Hm [ [Hk Hs] Hp]. split; [split|].
  - eapply kinv_cpu; [apply cpu_step_msr|done].
  - by apply sched_msr.
  - eapply pinh_cpu; [apply cpu_step_msr|done].
Qed.

Lemma wpk_inert_bind {A B} (P : kst -> Prop) (k : K A) (f : A -> K B) Q R s :
  inert P k -> P s -> (forall a, wpk (f a) Q R s) -> wpk (kbind k f) Q R s.
Proof.
  intros Hk HP Hf. apply wpk_bind. destruct (Hk s HP) as [a Ha]. unfold wpk at 1. rewrite Ha. apply Hf.
Qed.

(** The code left by a switched out [KMailboxTrySend] returns true. *)
Definition sent (k : K bool) : Prop :=
  forall s, wpk k (fun r s' => r = true /\ exists m, s' = set_msr m s) (fun _ _ => False) s.

(** The threads a send wakes. *)
Definition receivers (s : kst) (W : qref -> list Z) (mb : Z) : list Z :=
  if mb_recv_waiters (k_box s mb) =? 0 then []
  else woken (k_token s) KTHR_UNBLOCK_BY_VALUE mb 1 (W s_mailboxRecvQueue).

Lemma ksound_queues s L W W' : (forall q, W' q = W q) -> ksound s L W -> ksound s L W'.
Proof.
  intros E [ [Hk Hs] Hp]. split; [split; [by eapply kinv_queues|done]|]. by apply (pinh_ext s s L W).
Qed.

Lemma outcome_box s0 s1 L b s' : outcome s0 s1 L b s' -> k_box s' = k_box s1 /\ k_mem s' = k_mem s1.
Proof. intros ( (m & x & c & f & ->) & _). done. Qed.

Lemma send_wake_spec s L W mb msg n q :
  ksound s L W -> running s (k_self s) -> box_ok s mb n (q ++ [msg]) -> 
  wpb (KThrQueueUnblockOneByValue s_mailboxRecvQueue mb)
    (fun b s' => ksound s' L (without W s_mailboxRecvQueue (woken (k_token s) KTHR_UNBLOCK_BY_VALUE mb 1 (W s_mailboxRecvQueue))) /\
       box_ok s' mb n (q ++ [msg]) /\
       if b then k_msr s' = Z.ldiff (k_msr s) MSR_FP else True) s.
Proof.
  intros Hs Hr Hb. eapply wpb_mono; [exact (unblock_sound s L W 4 1 KTHR_UNBLOCK_BY_VALUE mb Hs Hr)|].
  intros b s' [H1 (s1 & H2 & H3)]. split; [done|]. split.
  - destruct (outcome_box _ _ _ _ _ H3) as [E1 E2]. destruct H2 as (? & ? & ? & ? & -> & _).
    apply (box_frame s); [by rewrite E1|by rewrite E2|done].
  - destruct b; [|done]. apply H3.
Qed.

Lemma ldiff_absorb m : Z.ldiff (Z.ldiff m (Z.lor MSR_EE MSR_FP)) MSR_FP = Z.ldiff m (Z.lor MSR_EE MSR_FP).
Proof.
  apply Z.bits_inj'. intros i Hi. rewrite !Z.ldiff_spec, Z.lor_spec.
  by destruct (Z.testbit m i), (Z.testbit MSR_EE i), (Z.testbit MSR_FP i).
Qed.

(** C36. A mailbox is a bounded FIFO queue on the sending side: [KMailboxTrySend]
    refuses a message exactly if all slots are in use; otherwise the message is
    behind the earlier ones, and if threads wait for a message of this mailbox
    the first of them is woken. A sender that loses the processor to the
    receiver has sent its message and returns true when it runs again. *)
Theorem KMailboxTrySend_ok s L W mb n q msg :
  let W' := without W s_mailboxRecvQueue (receivers s W mb) in
  ksound s L W -> running s (k_self s) -> box_ok s mb n q ->
  wpk (KMailboxTrySend mb msg)
    (fun r s' => k_msr s' = Z.ldiff (k_msr s) MSR_FP /\
       if r then Z.of_nat (length q) < n /\ ksound s' L W' /\ box_ok s' mb n (q ++ [msg])
       else Z.of_nat (length q) = n /\ ksound s' L W /\ box_ok s' mb n q)
    (fun k s' => Z.of_nat (length q) < n /\ ksound s' L W' /\ box_ok s' mb n (q ++ [msg]) /\ sent k) s.
Proof.
  intros W' Hs Hr Hb. unfold KMailboxTrySend, rd_box. kstep. apply wp_irq_lock. intros st Hst Hmsr.
  set (m := Z.ldiff (k_msr s) _) in *.
  assert (Hm : Z.land m MSR_RI = Z.land (k_msr s) MSR_RI) by by apply land_ldiff_disjoint.
  assert (Hs1 : ksound (set_msr m s) L W) by by apply ksound_msr.
  assert (Hb1 : box_ok (set_msr m s) mb n q) by by apply (box_frame s).
  do 4 kstep. ksimpl. rewrite (bx_pending _ _ _ _ Hb), (bx_num _ _ _ _ Hb).
  destruct (Z.eqb_spec (Z.of_nat (length q)) n) as [E|E].
  { kstep. apply wp_irq_unlock, wpk_ret. split; [done|]. ksimpl. rewrite Hmsr. split; [done|]. split.
    - apply (ksound_msr s); [by apply land_ldiff_disjoint|done].
    - by apply (box_frame s). }
  assert (Hlt : Z.of_nat (length q) < n) by (pose proof (bx_len _ _ _ _ Hb); lia).
  kstep. eapply wp_mono; [by apply push_spec|]. intros ? s2 (Hb2 & Hst2 & Hw). kstep. kstep. rewrite Hw. ksimpl.
  assert (Hs2 : ksound s2 L W) by by eapply box_step_sound.
  assert (Em : k_msr s2 = m) by by destruct Hst2 as (? & ? & -> & _).
  assert (Er : k_self s2 = k_self s /\ k_state s2 = k_state s /\ k_token s2 = k_token s) by by destruct Hst2 as (? & ? & -> & _).
  destruct Er as (Er1 & Er2 & Er3). unfold W', receivers. destruct (Z.eqb_spec (mb_recv_waiters (k_box s mb)) 0) as [Ew|Ew]; cbn [negb kwhen].
  - apply wpk_bind, wpk_ret. kstep. apply wp_irq_unlock, wpk_ret. rewrite Em. split; [done|]. split; [done|]. split.
    + apply ksound_msr; [by rewrite Em; apply unlock_excpt|].
      eapply ksound_queues; [|exact Hs2]. intros x. apply without_nil.
    + by apply (box_frame s2).
  - apply wpk_bind. kstep. unfold wr_box. kstep.
    set (s3 := set_box _ _). assert (Hst3 : box_step mb s2 s3).
    { exists (k_box s3), (k_mem s2). split; [done|]. intros x Hx. unfold s3. ksimpl. by rewrite fupd_ne. }
    assert (Hb3 : box_ok s3 mb n (q ++ [msg])).
    { destruct Hb2 as [B1 B2 B3 B4 B5 B6 B7 B8]. split; unfold s3; ksimpl; rewrite ?fupd_eq; done. }
    eapply wpk_mono; [apply wpk_rest; [apply (send_wake_spec s3 L W mb msg n q)|apply unblock_rest]|..].
    + by eapply box_step_sound.
    + unfold running, s3. ksimpl. rewrite Er1, Er2. exact Hr.
    + exact Hb3.
    + intros ? s' (F1 & F2 & F3). change (k_msr s3) with (k_msr s2) in F3. rewrite Em in F3. unfold m in F3.
      rewrite ldiff_absorb in F3. kstep. apply wp_irq_unlock, wpk_ret. change (k_token s3) with (k_token s2) in F1.
      rewrite Er3 in F1. fold m in F3. split; [rewrite F3; exact Hmsr|]. split; [done|]. split.
      * apply ksound_msr; [by apply unlock_excpt|done].
      * by apply (box_frame s').
    + intros k s' ( (F1 & F2 & _) & F3). change (k_token s3) with (k_token s2) in F1. rewrite Er3 in F1.
      split; [done|]. split; [done|]. split; [done|]. intros s4.
      eapply (wpk_inert_bind (fun _ => True)); [exact F3|done|]. intros _. kstep. apply wp_irq_unlock, wpk_ret. eauto.
Qed.

Lemma KMailboxPrepare_box s mb slots num :
  0 < num < 2 ^ 16 -> 0 <= slots -> slots + 4 * num <= 2 ^ 32 ->
  (forall i, 0 <= i < num -> is_Some (k_mem s !! (slots + 4 * i))) ->
  wp (KMailboxPrepare mb slots num) (fun _ s' => box_ok s' mb num [] /\ box_step mb s s') s.
Proof.
  intros H1 H2 H3 H4. unfold KMailboxPrepare, wr_box. krun. split.
  - split; ksimpl; rewrite ?fupd_eq; cbn [mb_num_slots mb_cur_slot mb_pending_slots mb_slots length]; try done; try lia.
    rewrite wrap_small; lia.
  - exists (fupd (k_box s) mb (mk_box slots (u16 num) 0 0 0 0)), (k_mem s).
    split; [done|]. intros x Hx. by rewrite fupd_ne.
Qed.

(** Thread 100 runs with an empty mailbox of two slots at 5000. *)
Definition box_demo : kst :=
  out (KMailboxPrepare 5000 0x100 2) (set_mem {[0x100 := 0; 0x104 := 0]} demo3).

Lemma demo_mem_sound s L W m : ksound s L W -> ksound (set_mem m s) L W.
Proof. intros [ [ [ [] ?] []] []]. split; [split|]; split; try done. split; try done. by apply (waits_ext s). Qed.

Lemma box_demo_ok : ksound box_demo [200; 100; 400; 300] noq /\ box_ok box_demo 5000 2 [].
Proof.
  apply (out_wp _ (fun s => ksound s [200; 100; 400; 300] noq /\ box_ok s 5000 2 [])).
  eapply wp_mono; [apply KMailboxPrepare_box; [lia..|]|].
  - intros i Hi. assert (i = 0 \/ i = 1) as [-> | ->] by lia; by eexists.
  - intros ? s' [H1 H2]. split; [|done]. eapply box_step_sound; [exact H2|]. apply demo_mem_sound, demo3_sound.
Qed.

Lemma KMailboxTrySend_ok_witness :
  let W' := without noq s_mailboxRecvQueue (receivers box_demo noq 5000) in
  wpk (KMailboxTrySend 5000 77)
    (fun r s' => k_msr s' = Z.ldiff (k_msr box_demo) MSR_FP /\
       if r then Z.of_nat (length (@nil Z)) < 2 /\ ksound s' [200; 100; 400; 300] W' /\ box_ok s' 5000 2 [77]
       else Z.of_nat (length (@nil Z)) = 2 /\ ksound s' [200; 100; 400; 300] noq /\ box_ok s' 5000 2 [])
    (fun k s' => Z.of_nat (length (@nil Z)) < 2 /\ ksound s' [200; 100; 400; 300] W' /\ box_ok s' 5000 2 [77] /\ sent k)
    box_demo.
Proof.
  refine (KMailboxTrySend_ok box_demo [200; 100; 400; 300] noq 5000 2 [] 77 _ _ _);
    [apply box_demo_ok|by vm_compute|apply box_demo_ok].
Defined.

(** Receiving without waiting takes the oldest message, or reports that
    there is none; the kernel's threads are not touched. *)
Theorem KMailboxTryRecv_ok s L W mb n q :
  ksound s L W -> box_ok s mb n q ->
  wp (KMailboxTryRecv mb)
    (fun r s' => r = head q /\ box_ok s' mb n (tail q) /\ ksound s' L W /\ k_msr s' = Z.ldiff (k_msr s) MSR_FP) s.
Proof.
  intros Hs Hb. unfold KMailboxTryRecv, rd_box. apply wp_bind, wp_irq_lock. intros st Hst Hmsr.
  set (m := Z.ldiff (k_msr s) _) in *. apply wp_bind, wp_gets. ksimpl. rewrite (bx_pending _ _ _ _ Hb).
  assert (Hm : Z.land (Z.ldiff (k_msr s) MSR_FP) MSR_RI = Z.land (k_msr s) MSR_RI) by by apply land_ldiff_disjoint.
  destruct q as [|x q]; cbn [length].
  - apply wp_bind, wp_irq_unlock, wp_ret. split_and!; [done|by apply (box_frame s)| |done].
    apply (ksound_msr s); [by ksimpl; rewrite Hmsr|done].
  - apply wp_bind. eapply wp_mono; [apply (pop_spec (set_msr m s) mb n x q); by apply (box_frame s)|].
    intros r s2 (-> & Hb2 & Hst2 & _). apply wp_bind, wp_irq_unlock, wp_ret.
    assert (Em : k_msr s2 = m) by by destruct Hst2 as (? & ? & -> & _).
    split_and!; [done|by apply (box_frame s2)| |ksimpl; by rewrite Em].
    apply ksound_msr; [rewrite Em; by apply unlock_excpt|].
    eapply box_step_sound; [exact Hst2|]. apply ksound_msr; [by apply land_ldiff_disjoint|done].
Qed.

Lemma KMailboxTryRecv_ok_witness :
  wp (KMailboxTryRecv 5000)
    (fun r s' => r = None /\ box_ok s' 5000 2 [] /\ ksound s' [200; 100; 400; 300] noq /\
       k_msr s' = Z.ldiff (k_msr box_demo) MSR_FP) box_demo.
Proof. refine (KMailboxTryRecv_ok box_demo [200; 100; 400; 300] noq 5000 2 [] _ _); apply box_demo_ok. Defined.

(** [KMailboxRecv] returns the oldest message. With none it counts itself
    among the receivers and waits; when it runs again and finds the mailbox not
    empty it returns the oldest message. *)
Theorem KMailboxRecv_ok s L W mb n q :
  ksound s L W -> running s (k_self s) -> in_excpt s = false -> other_running s L (k_self s) -> box_ok s mb n q ->
  wpk (KMailboxRecv mb)
    (fun r s' => head q = Some r /\ box_ok s' mb n (tail q) /\ ksound s' L W)
    (fun k s' => q = [] /\ box_ok s' mb n [] /\
       mb_recv_waiters (k_box s' mb) = u8 (mb_recv_waiters (k_box s mb) + 1) /\
       ksound s' L (fupd W s_mailboxRecvQueue (ins_prio (k_prio s) (k_self s) (W s_mailboxRecvQueue))) /\
       forall s2 x q2, k_self s ∈ k_thr s2 -> box_ok s2 mb n (x :: q2) ->
         wpk k (fun r s3 => r = x /\ box_ok s3 mb n q2) (fun _ _ => False) s2) s.
Proof.
  intros Hs Hr Hex Ho Hb. unfold KMailboxRecv, rd_box. kstep. apply wp_irq_lock. intros st Hst Hmsr.
  set (m := Z.ldiff (k_msr s) _) in *.
  assert (Hm : Z.land m MSR_RI = Z.land (k_msr s) MSR_RI) by by apply land_ldiff_disjoint.
  assert (Hs1 : ksound (set_msr m s) L W) by by apply ksound_msr.
  assert (Hb1 : box_ok (set_msr m s) mb n q) by by apply (box_frame s).
  do 2 kstep. ksimpl. rewrite (bx_pending _ _ _ _ Hb). destruct q as [|x q]; cbn [length]; cbn [Z.of_nat Z.eqb kwhen].
  - apply wpk_bind, wpk_lift_bind. unfold wr_box. krun. ksimpl. set (s2 := set_box _ _).
    assert (Hst2 : box_step mb (set_msr m s) s2).
    { exists (k_box s2), (k_mem s). split; [done|]. intros x Hx. unfold s2. ksimpl. by rewrite fupd_ne. }
    assert (Hb2 : box_ok s2 mb n []).
    { destruct Hb as [B1 B2 B3 B4 B5 B6 B7 B8]. split; unfold s2; ksimpl; rewrite ?fupd_eq; done. }
    assert (Hs2 : ksound s2 L W) by by eapply box_step_sound.
    assert (Ex2 : in_excpt s2 = false) by (unfold in_excpt, s2; ksimpl; by rewrite Hm).
    eapply wpk_mono; [apply wpk_rest; [apply (block_away s2 L W 4 mb Hs2)|apply block_rest]|..].
    + exact Hr.
    + exact Ho.
    + exact Ex2.
    + done.
    + intros k s' ( (F1 & k' & F2) & F3). destruct (outcome_box _ _ _ _ _ F2) as [E1 E2].
      change (k_box (blocked (k_self s2) KTHR_STATE_WAITING mb (QStatic 4) k' s2)) with (k_box s2) in E1.
      change (k_mem (blocked (k_self s2) KTHR_STATE_WAITING mb (QStatic 4) k' s2)) with (k_mem s2) in E2.
      split; [done|]. split; [apply (box_frame s2); [by rewrite E1|done|done]|]. split.
      { rewrite E1. unfold s2. ksimpl. by rewrite fupd_eq. }
      split; [exact F1|]. intros s3 x q2 Hin Hb3.
      eapply (wpk_inert_bind (fun s2 => k_self s ∈ k_thr s2)); [|exact Hin|].
      { apply inert_bind; [exact F3|]. intros _. apply inert_ret. }
      intros _. kstep. eapply wp_mono; [by apply pop_spec|]. intros r s4 (-> & Hb4 & _).
      kstep. apply wp_irq_unlock, wpk_ret. split; [done|]. by apply (box_frame s4).
  - apply wpk_bind, wpk_ret. kstep. eapply wp_mono; [by apply (pop_spec (set_msr m s) mb n x q)|].
    intros r s2 (-> & Hb2 & Hst2 & _). kstep. apply wp_irq_unlock, wpk_ret. split; [done|].
    split; [by apply (box_frame s2)|]. apply ksound_msr; [by apply unlock_excpt|by eapply box_step_sound].
Qed.

Lemma KMailboxRecv_ok_witness :
  wpk (KMailboxRecv 5000)
    (fun r s' => None = Some r /\ box_ok s' 5000 2 [] /\ ksound s' [200; 100; 400; 300] noq)
    (fun k s' => @nil Z = [] /\ box_ok s' 5000 2 [] /\
       mb_recv_waiters (k_box s' 5000) = u8 (mb_recv_waiters (k_box box_demo 5000) + 1) /\
       ksound s' [200; 100; 400; 300]
         (fupd noq s_mailboxRecvQueue (ins_prio (k_prio box_demo) (k_self box_demo) (noq s_mailboxRecvQueue))) /\
       forall s2 x q2, k_self box_demo ∈ k_thr s2 -> box_ok s2 5000 2 (x :: q2) ->
         wpk k (fun r s3 => r = x /\ box_ok s3 5000 2 q2) (fun _ _ => False) s2) box_demo.
Proof.
  refine (KMailboxRecv_ok box_demo [200; 100; 400; 300] noq 5000 2 [] _ _ _ _ _);
    [apply box_demo_ok|by vm_compute|by vm_compute| |apply box_demo_ok].
  exists 400. split_and!; [decide_vm|by vm_compute|by vm_compute].
Defined.

(** The code a call leaves when it is switched out. *)
Definition restk {A} (c : K A) (s : kst) : K A :=
  match runK c s with Ok (inr k, _) => k | _ => c end.

(** The main thread waits for a message; thread 400 sends one, takes it back
    before the woken main thread runs, and yields to it. *)
Definition stolen_demo : kst :=
  outk KThreadYield (out (KMailboxTryRecv 5000) (outk (KMailboxTrySend 5000 77) (outk (KMailboxRecv 5000) box_demo))).

(** A receiver that was woken does not test again whether a message is
    there: if another thread took it in between, the main thread returns from
    [KMailboxRecv] with a stale slot and the count of messages wraps around. *)
Theorem KMailboxRecv_stolen :
  let s' := outk (restk (KMailboxRecv 5000) box_demo) stolen_demo in
  k_self stolen_demo = 100 /\ mb_pending_slots (k_box stolen_demo 5000) = 0 /\
  mb_pending_slots (k_box s' 5000) = 0xffff.
Proof. by vm_compute. Qed.
