(* ===== verification/KCond.v ===== *)
(** * Waiting on a condition variable

    [KCondVarWait] releases the mutex and blocks the caller in one step of the
    kernel: no other thread runs in between, so that no signal is lost. The code
    that is left takes the mutex again. *)

From stdpp Require Import base gmap list fin_maps.
From Stdlib Require Import ZArith Lia.
From S2P Require Import Prelude Chain KState KTick KThread KLists KSched KSchedOps KBlock KLife KSync KPrio KMutexProofs KSetPrio KSound KRest.

Open Scope Z_scope.

(** A further change that leaves mutexes and mutex waiters alone. *)
Lemma calm_then d s s1 s2 :
  calm d s s1 -> k_thr s2 = k_thr s1 -> k_owner s2 = k_owner s1 ->
  (forall x, x <> d -> running s1 x -> running s2 x) ->
  (forall x o, k_wq s1 x = Some (QWaiters o) -> k_wq s2 x = k_wq s1 x /\ k_token s2 x = k_token s1 x) ->
  calm d s s2.
Proof.
  intros (C1 & C2 & C3 & C4) E1 E2 E3 E4. split_and!.
  - congruence.
  - auto.
  - intros x o Hx Ho. rewrite E2. destruct (C3 x o Hx Ho) as [ [ [o' Hq] Ht]|?]; [left|by right].
    destruct (E4 x o' Hq) as [-> ->]. eauto.
  - by rewrite E2.
Qed.

Lemma blocked_calm d s s1 tok q k' :
  calm d s s1 -> k_wq s1 d = None -> calm d s (blocked d KTHR_STATE_WAITING tok q k' s1).
Proof.
  intros Hc Hq. apply (calm_then d s s1); try done; unfold blocked, with_token, with_state.
  - intros x Hx. unfold running. ksimpl. by rewrite fupd_ne.
  - intros x o Ho. ksimpl. assert (x <> d) by congruence. by rewrite !fupd_ne.
Qed.

(** The mutex [m] of the running thread given away: to nobody, or to its waiter
    of highest priority. *)
Definition handed (s : kst) (W : qref -> list Z) (m nx : Z) : Prop :=
  (nx = NULL /\ forall x, x ∈ W (QWaiters (k_self s)) -> k_token s x <> m) \/
  (nx ∈ W (QWaiters (k_self s)) /\ k_token s nx = m /\
   forall x, x ∈ W (QWaiters (k_self s)) -> k_token s x = m -> k_prio s nx <= k_prio s x).

Lemma hand_over_spec s L W m :
  kinv s L W -> pinh s L W -> k_self s ∈ L -> running s (k_self s) -> k_owner s m = k_self s ->
  wp (o' <- KThreadRemoveWaiter (k_self s) m; wr_owner m o')
    (fun _ s' => exists L' W', L' ≡ₚ L /\ kinv s' L' W' /\ pinh s' L' W' /\ same_cpu s s' /\
       calm (k_self s) s s' /\ running s' (k_self s) /\ k_wq s' (k_self s) = None /\
       handed s W m (k_owner s' m) /\ forall m', m' <> m -> k_owner s' m' = k_owner s m') s.
Proof.
  intros Hk Hp Ht Hr Ho. set (t := k_self s) in *. destruct (unlock_free s L W t Hk Ht Hr) as [Htq Hni].
  kstep. eapply wp_mono; [by apply (remove_waiter_spec s L W t m)|].
  intros nx s2 [(-> & -> & Hno)|(Hn & L2 & W2 & Hre)]; unfold wr_owner; krun.
  - exists L, W. split_and!; try done.
    + by apply (kinv_release s L W t).
    + by apply pinh_owner.
    + split_and!; try done; [intros x o _ Hx; left; eauto|]. intros m' _ Hm'. ksimpl. apply fupd_ne. by intros ->.
    + ksimpl. rewrite fupd_eq. by left.
    + intros m' Hm'. ksimpl. by apply fupd_ne.
  - destruct (re_fields _ _ _ _ _ _ _ _ _ Hre) as (F1 & F2 & F3). destruct (re_in _ _ _ _ _ _ _ _ _ Hre) as [I1 I2].
    assert (Hnt : t <> nx) by (intros E; apply (Hni (QWaiters t)); by rewrite E at 1).
    exists L2, W2. split_and!.
    + apply (re_L _ _ _ _ _ _ _ _ _ Hre).
    + by apply (released_kinv s L W t).
    + apply pinh_owner, (re_pinh _ _ _ _ _ _ _ _ _ Hre).
    + apply (re_cpu _ _ _ _ _ _ _ _ _ Hre).
    + by apply (released_calm t s L W m s2 L2 W2 nx).
    + unfold running. ksimpl. by rewrite (re_state _ _ _ _ _ _ _ _ _ Hre), fupd_ne.
    + ksimpl. rewrite (re_wq _ _ _ _ _ _ _ _ _ Hre), !decide_False; [done|..].
      * intros [? _]. by apply (Hni (QWaiters t)).
      * done.
    + ksimpl. rewrite fupd_eq. right. split_and!; try done. apply (re_first _ _ _ _ _ _ _ _ _ Hre).
    + intros m' Hm'. ksimpl. by rewrite fupd_ne, F1.
Qed.

(** The code left after the wait. *)
Definition relock (m st : Z) : K unit := do! KMutexLock m then lift (PPCIrqUnlockByMsr st).

Definition cond_wait_post (s : kst) (L : list Z) (W : qref -> list Z) (cv m : Z) (k : K unit) (s' : kst) : Prop :=
  exists L' W', L' ≡ₚ L /\ ksound s' L' W' /\ in_excpt s' = false /\ calm (k_self s) s s' /\
    k_self s ∈ W' s_cvWaitQueue /\ k_token s' (k_self s) = cv /\
    handed s W m (k_owner s' m) /\ (forall m', m' <> m -> k_owner s' m' = k_owner s m') /\
    exists st, irq_state st /\ forall s2, k_self s ∈ k_thr s2 -> runK k s2 = runK (relock m st) s2.

(** The block itself, from a state in which the caller need not be the best
    thread any more. *)
Lemma wait_block_spec s L cv s3 L3 W3 :
  sched s L -> in_excpt s = false -> running s (k_self s) -> other_running s L (k_self s) ->
  L3 ≡ₚ L -> kinv s3 L3 W3 -> pinh s3 L3 W3 -> same_cpu s s3 -> calm (k_self s) s s3 ->
  running s3 (k_self s) -> k_wq s3 (k_self s) = None ->
  wpk (KThrQueueBlock s_cvWaitQueue cv) (fun _ _ => False)
    (fun k s' => exists W', ksound s' L3 W' /\ in_excpt s' = false /\ calm (k_self s) s s' /\
       k_self s ∈ W' s_cvWaitQueue /\ k_token s' (k_self s) = cv /\ k_owner s' = k_owner s3 /\
       inert (fun s2 => k_self s ∈ k_thr s2) k) s3.
Proof.
  intros Hs Hex Hr (i & Hi & Hir & Hit) HL Hk Hp Hcpu Hca Hr3 Hq3. set (t := k_self s) in *.
  assert (Hcpu' := Hcpu). destruct Hcpu as (C1 & C2 & C3 & C4 & C5).
  assert (Hrest : wlpk (KThrQueueBlock s_cvWaitQueue cv) (inert (fun s2 => t ∈ k_thr s2)) s3).
  { assert (E : t = k_self s3) by done. rewrite E. apply block_rest. }
  assert (Hex3 : in_excpt s3 = false) by (unfold in_excpt in *; by rewrite C3).
  eapply wpk_mono; [apply (wpk_rest _ _ _ _ _ (block_off s3 L3 W3 s_cvWaitQueue cv Hk ltac:(by rewrite C2, HL; apply Hs)
    ltac:(intros x; rewrite HL, C2, C5; apply Hs) Hex3 ltac:(rewrite C4; by apply Hs) ltac:(by rewrite C2) ltac:(by eexists)
    ltac:(exists i; rewrite HL, C2; split_and!; [done|by apply Hca|done])) Hrest)|done|].
  rewrite C2. fold t. intros k s' [ (k' & Hout & Hks) Hk']. eexists.
  assert (Hca' : calm t s (blocked t KTHR_STATE_WAITING cv s_cvWaitQueue k' s3)) by by apply blocked_calm.
  pose proof Hout as (Hst & _ & _ & Hex' & _).
  split; [split; [exact Hks|]|].
  { eapply pinh_cpu; [exact Hst|]. revert Hp. by apply pinh_ext. }
  split_and!; try done.
  - by eapply calm_cpu.
  - rewrite fupd_eq. apply elem_of_ins. by left.
  - destruct Hst as (? & ? & ? & ? & ->). unfold blocked, with_token. ksimpl. apply fupd_eq.
  - by destruct Hst as (? & ? & ? & ? & ->).
Qed.

Lemma cond_wait_sound s L W cv m :
  ksound s L W -> in_excpt s = false -> running s (k_self s) -> k_owner s m = k_self s ->
  other_running s L (k_self s) ->
  wpk (KCondVarWait cv m) (fun _ _ => False) (cond_wait_post s L W cv m) s.
Proof.
  intros [ [Hk Hs] Hp] Hex Hr Ho Hi. unfold KCondVarWait, rd_owner. kstep. kstep. lock st Hl. gen_msr s mm. intros Hl.
  assert (Hm := lk_excpt _ _ _ _ Hl). ksimpl in Hm. kstep. krun. ksimpl. rewrite Ho, Z.eqb_refl. cbn [negb].
  set (sl := set_msr mm s). assert (Hc : cpu_step s sl) by apply cpu_step_msr. kstep.
  assert (Hxl : in_excpt sl = false) by (unfold in_excpt, sl; ksimpl; by rewrite Hm).
  eapply wp_mono; [apply (hand_over_spec sl L W m)|]; try done.
  { by eapply kinv_cpu. } { by eapply pinh_cpu. } { apply Hs. }
  intros _ s3 (L3 & W3 & HL & Hk3 & Hp3 & Hcpu & Hca & Hr3 & Hq3 & Hh & Hm3).
  apply wpk_bind. eapply wpk_mono; [apply (wait_block_spec sl L cv s3 L3 W3); try done|done|].
  { by apply sched_msr. }
  intros k s' (W' & H1 & H2 & H3 & H4 & H5 & H6 & H7). exists L3, W'.
  split_and!; try done; [by rewrite H6|by rewrite H6|]. exists st. split; [apply (lk_irq _ _ _ _ Hl)|].
  intros s2 Hs2. destruct (H7 s2 Hs2) as [a Ha]. destruct k as [r]. simpl in Ha |- *. by rewrite Ha.
Qed.

(** C9. [KCondVarWait] releases the mutex and waits in one step: when another
    thread gets the processor the caller is already in the queue of condition
    variables with [cv] as its token, and the mutex is free or belongs to its
    waiter of highest priority, so that no signal sent under the mutex is lost.
    The call cannot return before it has locked the mutex again. *)
Theorem KCondVarWait_ok s L W cv m :
  ksound s L W -> in_excpt s = false -> running s (k_self s) -> k_owner s m = k_self s ->
  other_running s L (k_self s) ->
  wpk (KCondVarWait cv m) (fun _ _ => False) (cond_wait_post s L W cv m) s.
Proof. apply cond_wait_sound. Qed.

(** The main thread holds the mutex 1000 and waits on the condition variable 77. *)
Definition wait_demo : kst := out (KMutexTryLock 1000) demo3.

Lemma KCondVarWait_ok_witness :
  wpk (KCondVarWait 77 1000) (fun _ _ => False) (cond_wait_post wait_demo [200; 100; 400; 300] noq 77 1000) wait_demo /\
  k_owner (outk (KCondVarWait 77 1000) wait_demo) 1000 = NULL /\
  k_self (outk (KCondVarWait 77 1000) wait_demo) = 400.
Proof.
  split; [|by vm_compute]. apply KCondVarWait_ok; [|by vm_compute..|].
  - apply trylock_sound; [apply demo3_sound|by vm_compute].
  - exists 400. split_and!; [decide_vm|by vm_compute|by vm_compute].
Defined.
