(* ===== verification/KSystem.v ===== *)
(** * Threads that call the kernel

    The kernel as the threads of a program use it: the running thread makes
    kernel calls, a call that is switched out leaves code behind, and that code
    runs when the thread is scheduled again. A program is any interleaving of
    calls that respects the contract of each call.

    Calls made by interrupt handlers and the timed waits that depend on them are
    not part of this system. *)

From stdpp Require Import base gmap list fin_maps relations.
From Stdlib Require Import ZArith Lia.
From S2P Require Import Prelude Chain KState KTick KThread KLists KSched KSync.

Open Scope Z_scope.

(** ** Calls *)

Inductive kcall :=
| CPrepare (t entry arg sp prio : Z)
| CResume (t : Z)
| CSuspend (t : Z)
| CYield
| CSetPrio (t prio : Z)
| CJoin (t : Z)
| CExit (rc : Z)
| CBlock (a tok : Z)
| CUnblock (a max : Z) (mode : KThrUnblockMode) (ref : Z)
| CCancel (a t : Z)
| CTryLock (m : Z)
| CLock (m : Z)
| CUnlock (m : Z)
| CWait (cv m : Z)
| CSignal (cv : Z)
| CBroadcast (cv : Z).

Section System.
(** The addresses that [KThreadPrepare] stores, and the idle thread. *)
Context (exit sda sda2 idle : Z).

Definition done_k (c : K unit) : K Z := do! c then kret 0.

(** The code of a call; the result is the value the C function returns. *)
Definition exec (c : kcall) : K Z :=
  match c with
  | CPrepare t entry arg sp prio => done_k (lift (KThreadPrepare exit sda sda2 t entry arg sp prio))
  | CResume t => done_k (KThreadResume t)
  | CSuspend t => done_k (KThreadSuspend t)
  | CYield => done_k KThreadYield
  | CSetPrio t prio => done_k (KThreadSetPrio t prio)
  | CJoin t => KThreadJoin t
  | CExit rc => done_k (KThreadExit rc)
  | CBlock a tok => KThrQueueBlock (QStatic a) tok
  | CUnblock a max mode ref => done_k (KThrQueueUnblockCommon (QStatic a) max mode ref)
  | CCancel a t => done_k (KThrQueueCancel (QStatic a) t)
  | CTryLock m => let! b := lift (KMutexTryLock m) in kret (b2z b)
  | CLock m => done_k (KMutexLock m)
  | CUnlock m => done_k (KMutexUnlock m)
  | CWait cv m => done_k (KCondVarWait cv m)
  | CSignal cv => done_k (KCondVarSignal cv)
  | CBroadcast cv => done_k (KCondVarBroadcast cv)
  end.

(** The mutex a call gives up when it is made. *)
Definition releases (c : kcall) : option Z :=
  match c with CUnlock m | CWait _ m => Some m | _ => None end.
(** The mutex a call has taken when it returns [v]. *)
Definition takes (c : kcall) (v : Z) : option Z :=
  match c with
  | CLock m | CWait _ m => Some m
  | CTryLock m => if v =? 1 then Some m else None
  | _ => None
  end.

(** ** Configurations *)

(** The kernel, the code left of each thread that was switched out in a call,
    and the mutexes each thread holds by the calls it made: those it locked and
    has not unlocked since. *)
Record sys := mk_sys {
  y_st : kst;
  y_pend : Z -> option (kcall * K Z);
  y_holds : Z -> Z -> bool;
}.

Definition drop (t : Z) (m : option Z) (h : Z -> Z -> bool) : Z -> Z -> bool :=
  match m with Some m => fupd h t (fupd (h t) m false) | None => h end.
Definition add (t : Z) (m : option Z) (h : Z -> Z -> bool) : Z -> Z -> bool :=
  match m with Some m => fupd h t (fupd (h t) m true) | None => h end.

(** The configuration after [t] ran code of the call [c] with result [r]. *)
Definition settle (t : Z) (c : kcall) (p : Z -> option (kcall * K Z)) (h : Z -> Z -> bool)
    (r : Z + K Z) (s' : kst) : sys :=
  match r with
  | inl v => mk_sys s' (fupd p t None) (add t (takes c v) h)
  | inr k => mk_sys s' (fupd p t (Some (c, k))) h
  end.

(** After a wait on a condition variable what is left is to lock the mutex. *)
Definition rest_of (c : kcall) : kcall := match c with CWait _ m => CLock m | _ => c end.

(** A new thread starts afresh. *)
Definition forget (c : kcall) (p : Z -> option (kcall * K Z)) : Z -> option (kcall * K Z) :=
  match c with CPrepare t _ _ _ _ => fupd p t None | _ => p end.

(** The running thread calls [c]. *)
Definition sys_call (c : kcall) (y : sys) : res sys :=
  let s := y_st y in
  match runK (exec c) s with
  | Ok (r, s') => Ok (settle (k_self s) c (forget c (y_pend y)) (drop (k_self s) (releases c) (y_holds y)) r s')
  | Fault f => Fault f
  end.

(** The running thread goes on with the code left of its call. *)
Definition sys_resume (c : kcall) (k : K Z) (y : sys) : res sys :=
  let s := y_st y in
  match runK k s with
  | Ok (r, s') => Ok (settle (k_self s) (rest_of c) (y_pend y) (y_holds y) r s')
  | Fault f => Fault f
  end.

(** ** Contracts *)

Fixpoint walk (fuel : nat) (nx : Z -> Z) (t : Z) : list Z :=
  match fuel with
  | O => []
  | S n => if t =? NULL then [] else t :: walk n nx (nx t)
  end.

(** The threads that were created and have not exited. *)
Definition threads (s : kst) : list Z := walk (thr_fuel s) (tl_next (k_tl s)) (tl_first (k_tl s)).

(** [x] waits for a mutex that [o] owns. *)
Definition waits_for (s : kst) (x o : Z) : Prop := x ∈ k_thr s /\ k_wq s x = Some (QWaiters o).

(** Locking [m] closes no cycle: its owner is not the caller and does not wait
    for the caller, directly or through other threads. *)
Definition no_deadlock (s : kst) (m : Z) : Prop := ~ rtc (waits_for s) (k_owner s m) (k_self s).

(** What a call needs. The idle thread only yields and wakes others. *)
Definition contract (c : kcall) (s : kst) : Prop :=
  let self := k_self s in
  match c with
  | CPrepare t _ _ _ _ => t ∈ k_thr s /\ t ∉ threads s
  | CResume t => t ∈ threads s
  | CCancel _ t => t ∈ threads s
  | CSuspend t => t ∈ threads s /\ k_suspend s t + 1 < 2 ^ 16 /\ t <> idle
  | CSetPrio t _ => t ∈ threads s /\ k_state s t <> KTHR_STATE_WAITING_MUTEX
  | CJoin t => t ∈ k_thr s /\ self <> idle
  | CExit _ => self <> idle /\ forall m, k_owner s m <> self
  | CBlock _ _ => self <> idle
  | CLock m => self <> idle /\ no_deadlock s m
  | CUnlock m => k_owner s m = self
  | CWait _ m => self <> idle /\ k_owner s m = self
  | CYield | CUnblock _ _ _ _ | CTryLock _ | CSignal _ | CBroadcast _ => True
  end.

(** The code left of a wait on a condition variable locks the mutex. *)
Definition resumable (c : kcall) (s : kst) : Prop :=
  match c with CWait _ m => no_deadlock s m | _ => True end.

(** ** Runs *)

Definition boot (s : kst) : sys := mk_sys s (fun _ => None) (fun _ _ => false).

Inductive reach (s0 : kst) : sys -> Prop :=
| reach_boot : reach s0 (boot s0)
| reach_call y c y' :
    reach s0 y -> y_pend y (k_self (y_st y)) = None -> contract c (y_st y) ->
    sys_call c y = Ok y' -> reach s0 y'
| reach_resume y c k y' :
    reach s0 y -> y_pend y (k_self (y_st y)) = Some (c, k) -> resumable c (y_st y) ->
    sys_resume c k y = Ok y' -> reach s0 y'.
End System.
