(* ===== verification/KCalls.v ===== *)
(** * What each kernel call guarantees to the system

    Every call of [KSystem], made by the running thread outside of exceptions
    under its contract, ends without a fault in a sound kernel state, leaves the
    other threads and their mutexes alone, and if it is switched out leaves code
    that is harmless or locks a mutex. *)

From stdpp Require Import base gmap list fin_maps relations.
From Stdlib Require Import ZArith Lia.
From S2P Require Import Prelude Chain KState KTick KThread KLists KSched KSchedOps KBlock KLife KSync KPrio KMutexProofs KSetPrio KSound KRest KMailbox KCond KSystem.

Open Scope Z_scope.

(** ** The threads of a state *)

Lemma walk_lseg n nx p L :
  lseg nx p L NULL -> (length L < n)%nat -> walk n nx p = L.
Proof.
  revert p n. induction L as [|t r IH]; intros p n; cbn [lseg length]; (destruct n as [|n]; [lia|]); cbn [walk].
  - intros -> _. done.
  - intros (-> & Hn & Hr) Hl. destruct (Z.eqb_spec t NULL); [done|]. f_equal. apply IH; [done|lia].
Qed.

Lemma threads_eq s L W : kbase s L W -> threads s = L.
Proof.
  intros Hk. apply walk_lseg; [apply (ki_tl _ _ _ Hk)|].
  pose proof (NoDup_size _ _ (ki_nodup _ _ _ Hk) (ki_valid _ _ _ Hk)). unfold thr_fuel. lia.
Qed.

(** Every thread on the chain of owners is waited for. *)
Lemma path_waits s L W t p x : kinv s L W -> path W t p -> x ∈ p -> rtc (waits_for s) t x.
Proof.
  intros Hk Hp. induction Hp as [t Ht|t o p Hto Hp IH]; rewrite elem_of_cons.
  - intros [->|?%not_elem_of_nil]; [constructor|done].
  - intros [->|Hx]; [constructor|]. eapply rtc_l; [|by apply IH]. by apply (w_in _ _ (ki_waits _ _ _ Hk)).
Qed.

(** ** Code that only restores the interrupt state *)

Definition quiet {A} (T : gset Z) (k : K A) : Prop :=
  forall s, k_thr s = T -> exists a m, runK k s = Ok (inl a, set_msr m s) /\
    Z.land m MSR_RI = Z.land (k_msr s) MSR_RI.

Lemma quiet_inert {A} T t (k : K A) : t ∈ T -> inert (fun s => t ∈ k_thr s) k -> quiet T k.
Proof.
  intros Ht H s Hs. destruct (H s) as [a Ha]; [by rewrite Hs|]. exists a, (k_msr s). split; [|done].
  rewrite Ha. by destruct s.
Qed.

Lemma quiet_idle {A} T (k : K A) : idle_code k -> quiet T k.
Proof.
  intros H s Hs. destruct (H s I) as [a Ha]. exists a, (k_msr s). split; [|done]. rewrite Ha. by destruct s.
Qed.

Lemma quiet_ret {A} T (a : A) : quiet T (kret a).
Proof. apply quiet_idle, inert_ret. Qed.

Lemma quiet_bind {A B} T (k : K A) (f : A -> K B) :
  quiet T k -> (forall a, quiet T (f a)) -> quiet T (kbind k f).
Proof.
  intros Hk Hf s Hs. destruct (Hk s Hs) as (a & m & Ha & Hm).
  destruct (Hf a (set_msr m s) Hs) as (b & m' & Hb & Hm'). exists b, m'. split; [|by rewrite Hm'].
  destruct k as [r]. simpl in *. by rewrite Ha, Hb.
Qed.

Lemma quiet_unlock T st : irq_state st -> quiet T (lift (PPCIrqUnlockByMsr st)).
Proof.
  intros Hst s Hs. eexists _, _. split; [reflexivity|]. ksimpl. by apply unlock_excpt.
Qed.

Lemma quiet_rd {A} T (f : kst -> Z -> A) x : x ∈ T -> quiet T (lift (rd f x)).
Proof.
  intros Hx s Hs. exists (f s x), (k_msr s). split; [|done]. unfold lift, rd, getopt. simpl.
  rewrite decide_True by (by rewrite Hs). by destruct s.
Qed.

#[export] Hint Resolve quiet_idle quiet_ret quiet_bind quiet_unlock quiet_rd : kcalls.

Section Calls.
Context (exit sda sda2 idle : Z).

(** ** The system at rest *)

Record rest (s : kst) (L : list Z) (W : qref -> list Z) : Prop := {
  r_sound : ksound s L W;
  r_excpt : in_excpt s = false;
  r_idle : idle ∈ L /\ running s idle;
  r_owner : forall m, k_owner s m = NULL \/ k_owner s m ∈ L;
}.

Lemma rest_null s L W : rest s L W -> NULL ∉ L.
Proof. intros [ [ [Hk _] _] _ _ _] H. by apply (ki_null _ _ _ Hk), (ki_valid _ _ _ Hk). Qed.

Lemma rest_self s L W :
  rest s L W -> best s L (k_self s) /\ k_self s ∈ k_thr s /\ k_self s <> NULL.
Proof.
  intros H. pose proof (rest_null _ _ _ H) as Hn. destruct H as [ [ [Hk Hs] _] He _ _].
  pose proof (sc_best _ _ Hs) as Hb. rewrite (cur_self s (sc_next _ _ Hs He)) in Hb.
  split; [done|]. destruct Hb as (Hb & _). split; [by apply (ki_valid _ _ _ Hk)|]. by intros E; rewrite E in Hb.
Qed.

Lemma rest_other s L W t : rest s L W -> t <> idle -> other_running s L t.
Proof. intros [_ _ [H1 H2] _] Ht. exists idle. by split_and!. Qed.

Lemma rest_threads s L W : rest s L W -> threads s = L.
Proof. intros [ [ [Hk _] _] _ _ _]. eapply threads_eq, Hk. Qed.

(** [t] waits for the mutex [m] or has got it. *)
Definition waits_lock (s : kst) (t m : Z) : Prop :=
  (exists o, k_wq s t = Some (QWaiters o)) /\ k_token s t = m \/ k_owner s m = t.

(** The code left of the call [c] of the thread [t]. *)
Definition left_ok (s : kst) (t : Z) (c : kcall) (k : K Z) : Prop :=
  match c with
  | CLock m => quiet (k_thr s) k /\ waits_lock s t m
  | CWait _ m => t <> idle /\ exists st, irq_state st /\
      forall s2, k_thr s2 = k_thr s -> runK k s2 = runK (done_k (relock m st)) s2
  | CTryLock _ => False
  | _ => quiet (k_thr s) k
  end.

(** The thread that a call may stop. *)
Definition stops (c : kcall) (s : kst) : Z :=
  match c with
  | CPrepare t _ _ _ _ | CSuspend t => t
  | CJoin _ | CExit _ | CBlock _ _ | CLock _ | CWait _ _ => k_self s
  | _ => NULL
  end.
Definition creates (c : kcall) : option Z :=
  match c with CPrepare t _ _ _ _ => Some t | _ => None end.

(** What code of the call [c] of the running thread leaves. *)
Definition post (d : Z) (rel cre : option Z) (c : kcall) (s : kst) (L : list Z) (r : Z + K Z) (s' : kst) : Prop :=
  exists L' W', rest s' L' W' /\ calm d s s' /\
    (forall m, k_owner s m = k_self s -> rel <> Some m -> k_owner s' m = k_self s) /\
    (forall x, x ∈ L' -> x ∈ L \/ cre = Some x) /\
    match r with
    | inl v => forall m, takes c v = Some m -> k_owner s' m = k_self s
    | inr k => k_self s ∈ L' -> left_ok s' (k_self s) c k
    end.

Definition call_ok (c : kcall) (s : kst) (L : list Z) : Prop :=
  let p := post (stops c s) (releases c) (creates c) c s L in
  wpk (exec exit sda sda2 c) (fun v s' => p (inl v) s') (fun k s' => p (inr k) s') s.

Lemma rest_after s L W s' L' W' d :
  rest s L W -> ksound s' L' W' -> in_excpt s' = false -> calm d s s' -> idle <> d -> idle ∈ L' ->
  (forall m, k_owner s' m = NULL \/ k_owner s' m ∈ L') -> rest s' L' W'.
Proof. intros [_ _ [H1 H2] _] Hs He (_ & Hr & _) Hd Hi Ho. split; auto. Qed.

(** A call that leaves the mutexes and the list of threads alone, by its effect
    on the threads. *)
Lemma outcome_post s L W c s1 b W' s' r d rel :
  rest s L W -> idle <> d -> ksound s' L W' -> outcome s s1 L b s' -> calm d s s1 -> k_owner s1 = k_owner s ->
  match r with
  | inl v => takes c v = None
  | inr k => left_ok s' (k_self s) c k
  end -> post d rel None c s L r s'.
Proof.
  intros Hr Hd Hs Ho Hc Eo Hk. destruct (outcome_calm _ _ _ _ _ _ Ho (r_excpt _ _ _ Hr) Hc) as [Hc' He'].
  assert (Eo' : k_owner s' = k_owner s) by (destruct Ho as ((? & ? & ? & ? & ->) & _); done).
  exists L, W'. split; [|split; [done|split; [by rewrite Eo'|split; [auto|] ] ] ].
  - apply (rest_after s L W _ _ _ d); try done; [apply (r_idle _ _ _ Hr)|]. rewrite Eo'. apply (r_owner _ _ _ Hr).
  - destruct r; [|done]. intros m Hm. congruence.
Qed.
(** ** Effects on the other threads *)

Lemma resume_calm d t s : calm d s (resume_effect t s).
Proof.
  unfold resume_effect. case_match; [apply calm_refl|].
  assert (H0 : calm d s (with_suspend t (k_suspend s t - 1) s)) by (apply calm_intro; eauto).
  case_match; [|done]. apply (calm_then d s _ _ H0); try done. intros x _ Hx. unfold running, with_state. ksimpl.
  unfold fupd. by case_decide.
Qed.

Lemma suspend_calm s L W t : kinv s L W -> t ∈ L -> calm t s (suspend_effect t s).
Proof.
  intros Hk Ht. unfold suspend_effect.
  assert (H0 : calm t s (with_suspend t (k_suspend s t + 1) s)) by (apply calm_intro; eauto).
  destruct ((k_suspend s t =? 0) && is_running (k_state s t)) eqn:E; [|done].
  apply andb_true_iff in E as [_ Hr%is_running_true]. destruct (status_running _ _ _ _ Hk Ht Hr) as [Hq _].
  apply (calm_then t s _ _ H0); try done; unfold with_wq, with_state, with_suspend.
  - intros x Hx. unfold running. ksimpl. by rewrite fupd_ne.
  - intros x o. ksimpl. intros Hx. assert (x <> t) by congruence. by rewrite fupd_ne.
Qed.

Lemma woke_calm d f wk a s s1 W :
  waits s W -> (forall x, x ∈ wk -> x ∈ W (QStatic a)) -> woke f wk s s1 -> calm d s s1.
Proof.
  intros Hw Hin (st & b & c & l & -> & A & B & C & _). apply calm_intro; try done.
  - intros x _ Hx. unfold running. ksimpl. rewrite A. by case_decide.
  - intros x o Hv Hx. ksimpl. assert (x ∉ wk).
    { intros H%Hin. apply (w_in _ _ Hw) in H as [_ H]. by rewrite H in Hx. }
    rewrite B, C, !decide_False by done. eauto.
Qed.

Lemma woke_owner f wk s s1 : woke f wk s s1 -> k_owner s1 = k_owner s.
Proof. by intros (? & ? & ? & ? & -> & _). Qed.

(** ** The code that is left *)

Lemma resume_rest t s : wlpk (KThreadResume t) idle_code s.
Proof.
  unfold KThreadResume. do 3 (apply wlpk_lift_bind; intros ? ? _). case_match; [apply wlpk_lift|].
  apply wlpk_lift_bind. intros ? ? _. case_match; [apply reschedule_rest|apply wlpk_lift].
Qed.

Lemma suspend_rest t s : wlpk (KThreadSuspend t) idle_code s.
Proof.
  unfold KThreadSuspend. do 3 (apply wlpk_lift_bind; intros ? ? _). case_match; [apply wlpk_lift|].
  do 3 (apply wlpk_lift_bind; intros ? ? _). case_match; [apply switch_rest|apply wlpk_lift].
Qed.

Lemma yield_rest s : wlpk KThreadYield idle_code s.
Proof.
  unfold KThreadYield. do 3 (apply wlpk_lift_bind; intros ? ? _). case_match; [apply switch_rest|apply wlpk_lift].
Qed.

Lemma setprio_rest t p s : wlpk (KThreadSetPrio t p) idle_code s.
Proof. unfold KThreadSetPrio. do 3 (apply wlpk_lift_bind; intros ? ? _). apply reschedule_rest. Qed.

Lemma cancel_rest q t s : wlpk (KThrQueueCancel q t) idle_code s.
Proof.
  unfold KThrQueueCancel. do 2 (apply wlpk_lift_bind; intros ? ? _). case_match; [apply wlpk_lift|].
  apply wlpk_lift_bind. intros ? ? _. apply reschedule_rest.
Qed.

Lemma lock_rest m s : wlpk (KMutexLock m) idle_code s.
Proof.
  unfold KMutexLock. do 2 (apply wlpk_lift_bind; intros ? ? _). case_match; [apply wlpk_ret|].
  do 2 (apply wlpk_lift_bind; intros ? ? _). case_match; [apply wlpk_lift|].
  apply wlpk_lift_bind. intros ? ? _. apply switch_rest.
Qed.

Lemma mutex_unlock_rest m s : wlpk (KMutexUnlock m) idle_code s.
Proof.
  unfold KMutexUnlock. do 3 (apply wlpk_lift_bind; intros ? ? _). case_match; [apply wlpk_lift|].
  apply wlpk_lift_bind. intros ? ? _. case_match; [apply reschedule_rest|apply wlpk_lift].
Qed.

#[local] Hint Resolve resume_rest suspend_rest yield_rest setprio_rest cancel_rest lock_rest mutex_unlock_rest
  unblock_rest : kcalls.

Lemma wpk_done c (Q : Z -> kst -> Prop) R s :
  wpk c (fun _ s' => Q 0 s') (fun k s' => R (done_k k) s') s -> wpk (done_k c) Q R s.
Proof. intros H. apply wpk_bind, H. Qed.

Lemma quiet_done T (k : K unit) : idle_code k -> quiet T (done_k k).
Proof. unfold done_k. auto with kcalls. Qed.

(** ** Calls that leave the mutexes alone *)

(** The calls whose leftover code is harmless. *)
Definition plain (c : kcall) : bool :=
  match c with CLock _ | CWait _ _ | CTryLock _ => false | _ => true end.

Lemma plain_left s t c k : plain c = true -> quiet (k_thr s) k -> left_ok s t c k.
Proof. by destruct c. Qed.
Lemma plain_takes c v : plain c = true -> takes c v = None.
Proof. by destruct c. Qed.

Lemma plain_call s L W c code d rel :
  rest s L W -> idle <> d -> plain c = true -> wlpk code idle_code s ->
  wpb code (fun b s' => exists W' s1, ksound s' L W' /\ outcome s s1 L b s' /\ calm d s s1 /\
    k_owner s1 = k_owner s) s ->
  wpk (done_k code) (fun v s' => post d rel None c s L (inl v) s')
    (fun k s' => post d rel None c s L (inr k) s') s.
Proof.
  intros Hr Hd Hp Hl Hc. apply wpk_done. eapply wpk_mono; [apply (wpk_rest _ _ _ _ _ Hc Hl)|..]; cbv beta.
  - intros _ s' (W' & s1 & H1 & H2 & H3 & H4). eapply outcome_post; try done. by apply plain_takes.
  - intros k s' [ (W' & s1 & H1 & H2 & H3 & H4) Hk]. eapply outcome_post; try done.
    apply plain_left; [done|by apply quiet_done].
Qed.

Lemma idle_null s L W : rest s L W -> idle <> NULL.
Proof. intros H E. apply (rest_null _ _ _ H). rewrite <- E. apply (r_idle _ _ _ H). Qed.

Lemma call_resume s L W t : rest s L W -> contract idle (CResume t) s -> call_ok (CResume t) s L.
Proof.
  intros Hr Ht. change (t ∈ threads s) in Ht. rewrite (rest_threads _ _ _ Hr) in Ht. destruct (rest_self _ _ _ Hr) as ((_ & Hself & _) & _).
  apply (plain_call s L W); auto with kcalls; [by eapply idle_null|]. eapply wpb_mono; [apply (resume_sound s L W t)|].
  - apply Hr.
  - done.
  - by left.
  - intros b s' [H1 H2]. exists W, (resume_effect t s). split_and!; try done; [apply resume_calm|].
    unfold resume_effect. by repeat case_match.
Qed.

Lemma call_suspend s L W t : rest s L W -> contract idle (CSuspend t) s -> call_ok (CSuspend t) s L.
Proof.
  intros Hr (Ht & Hn & Hi). rewrite (rest_threads _ _ _ Hr) in Ht.
  apply (plain_call s L W); auto with kcalls. eapply wpb_mono; [apply (suspend_sound s L W t)|].
  - apply Hr.
  - done.
  - done.
  - by apply (rest_other s L W).
  - intros b s' [H1 H2]. exists W, (suspend_effect t s).
    split_and!; try done; [apply (suspend_calm s L W); [apply Hr|done]|]. unfold suspend_effect. by case_match.
Qed.

Lemma call_yield s L W : rest s L W -> call_ok CYield s L.
Proof.
  intros Hr. destruct (rest_self _ _ _ Hr) as ((Hin & Hself & _) & _).
  destruct (list_elem_of_split _ _ Hin) as (L1 & L2 & HL).
  apply (plain_call s L W); auto with kcalls; [by eapply idle_null|].
  eapply wpk_mono; [apply (yield_sound s L W L1 L2); [apply Hr|done|done]|..]; intros ? s' (H1 & H2 & _);
    exists W, s; split_and!; try done; apply calm_refl.
Qed.

Lemma unblock_call s L W c a max mode ref :
  rest s L W -> plain c = true ->
  let p := post NULL None None c s L in
  wpk (done_k (KThrQueueUnblockCommon (QStatic a) max mode ref)) (fun v s' => p (inl v) s')
    (fun k s' => p (inr k) s') s.
Proof.
  intros Hr Hp. destruct (rest_self _ _ _ Hr) as ((Hin & Hself & _) & _).
  apply (plain_call s L W); auto with kcalls; [by eapply idle_null|].
  eapply wpb_mono; [apply (unblock_sound s L W a max mode ref); [apply Hr|done]|].
  intros b s' [H1 (s1 & H2 & H3)]. eexists _, s1. split_and!; [done..| |by eapply woke_owner].
  eapply (woke_calm _ _ _ a _ _ W); [apply Hr|apply woken_sub|done].
Qed.

Lemma call_cancel s L W a t : rest s L W -> contract idle (CCancel a t) s -> call_ok (CCancel a t) s L.
Proof.
  intros Hr Ht. change (t ∈ threads s) in Ht. rewrite (rest_threads _ _ _ Hr) in Ht. destruct (rest_self _ _ _ Hr) as ((Hin & Hself & _) & _).
  apply (plain_call s L W); auto with kcalls; [by eapply idle_null|].
  eapply wpb_mono; [apply (cancel_sound s L W a t); [apply Hr|done|done]|].
  intros b s' [H1 (s1 & H2 & H3)]. eexists _, s1. split_and!; [done..| |by eapply woke_owner].
  eapply (woke_calm _ _ _ a _ _ W); [apply Hr| |done]. intros x. case_bool_decide as E; [|by intros ?%not_elem_of_nil].
  intros ->%list_elem_of_singleton. apply (w_in _ _ (ki_waits _ _ _ (proj1 (proj1 (r_sound _ _ _ Hr))))). split; [|done].
  by apply (ki_valid _ _ _ (proj1 (proj1 (r_sound _ _ _ Hr)))).
Qed.
(** Blocking: the caller stops, unless it is the idle thread. *)
Lemma block_step s L W a tok :
  rest s L W -> k_self s <> idle ->
  wpk (KThrQueueBlock (QStatic a) tok) (fun _ _ => False)
    (fun k s' => exists W' s1, ksound s' L W' /\ outcome s s1 L false s' /\ calm (k_self s) s s1 /\
       k_owner s1 = k_owner s /\ k_thr s' = k_thr s /\ quiet (k_thr s) k) s.
Proof.
  intros Hr Hi. destruct (rest_self _ _ _ Hr) as ((Hin & Hself & _) & Hv & _).
  eapply wpk_mono; [eapply (wpk_rest _ _ _ _ _ (block_away s L W a tok _ Hself (rest_other _ _ _ _ Hr Hi)
    (r_excpt _ _ _ Hr)) (block_rest _ tok s))|done|]; cbv beta.
  intros k s' [ [H1 (k' & H2)] H3]. eexists _, _. split; [exact H1|]. split; [exact H2|]. split_and!; try done.
  - apply blocked_calm; [apply calm_refl|]. eapply status_running; [|done..]. apply Hr.
  - by destruct H2 as ((? & ? & ? & ? & ->) & _).
  - by eapply quiet_inert.
Unshelve. apply Hr.
Qed.

Lemma call_block s L W a tok : rest s L W -> contract idle (CBlock a tok) s -> call_ok (CBlock a tok) s L.
Proof.
  intros Hr Hi. change (k_self s <> idle) in Hi. eapply wpk_mono; [apply (block_step s L W a tok Hr Hi)|done|].
  intros k s' (W' & s1 & H1 & H2 & H3 & H4 & H5 & H6). eapply outcome_post; try done.
  cbn. by rewrite H5.
Qed.

Lemma call_setprio s L W t p : rest s L W -> contract idle (CSetPrio t p) s -> call_ok (CSetPrio t p) s L.
Proof.
  intros Hr (Ht & Hm). rewrite (rest_threads _ _ _ Hr) in Ht. destruct (rest_self _ _ _ Hr) as ((Hin & Hself & _) & Hv & _).
  apply wpk_done. assert (Hend : forall s' r, (exists L' W', L' ≡ₚ L /\ kernel s' L' W' /\ pinh s' L' W' /\
      k_baseprio s' = fupd (k_baseprio s) t (Z.land p KTHR_MIN_PRIO) /\
      (forall x, x <> t -> k_prio s' x = k_prio s x) /\ calm NULL s s' /\ k_owner s' = k_owner s /\
      in_excpt s' = false) ->
      match r with inl v => True | inr k => quiet (k_thr s') k end ->
      post NULL None None (CSetPrio t p) s L r s').
  { intros s' r (L' & W' & HL & H1 & H2 & _ & _ & H3 & H5 & H4) Hk. exists L', W'. split_and!.
    - apply (rest_after s L W _ _ _ NULL); try done; [by eapply idle_null|rewrite HL; apply (r_idle _ _ _ Hr)|].
      intros m. rewrite H5, HL. apply (r_owner _ _ _ Hr).
    - done.
    - by rewrite H5.
    - intros x. rewrite HL. auto.
    - by destruct r. }
  eapply wpk_mono; [apply (wpk_rest _ _ _ _ _ (set_prio_spec s L W t p (proj1 (r_sound _ _ _ Hr)) (proj2 (r_sound _ _ _ Hr))
    (r_excpt _ _ _ Hr) Hself Ht Hm) (setprio_rest t p s))|..].
  - intros v s' H. by apply Hend.
  - intros k s' [H Hk]. apply Hend; [done|by apply quiet_done].
Qed.
(** ** Creation, joining and exit *)

Lemma call_prepare s L W t entry arg sp prio :
  let c := CPrepare t entry arg sp prio in rest s L W -> contract idle c s -> call_ok c s L.
Proof.
  intros c Hr [Hv Ht]. rewrite (rest_threads _ _ _ Hr) in Ht. assert (Hs := r_sound _ _ _ Hr).
  assert (Hu : unused s L W t).
  { split_and!; try done.
    - destruct (W (QWaiters t)) as [|x r] eqn:E; [done|]. destruct Ht.
      apply (ki_owner _ _ _ (proj1 (proj1 Hs)) t x). rewrite E. by left.
    - intros ->. apply Ht, (rest_self _ _ _ Hr). }
  apply wpk_done, wpk_lift. eapply wp_mono; [by apply (prepare_sound s L W)|].
  intros _ s' (H1 & _ & _ & _ & _ & _ & _ & _ & Hmsr & Hc & Ho). exists (ins_prio (k_prio s') t L), W.
  assert (Hin : forall x, x ∈ ins_prio (k_prio s') t L <-> x = t \/ x ∈ L) by (intros; apply elem_of_ins).
  split_and!; try done.
  - apply (rest_after s L W _ _ _ t); try done.
    + pose proof (r_excpt _ _ _ Hr) as He. unfold in_excpt in *. rewrite Hmsr. by rewrite land_ldiff_disjoint.
    + intros E. apply Ht. rewrite <- E. apply (r_idle _ _ _ Hr).
    + apply Hin. right. apply (r_idle _ _ _ Hr).
    + intros m. rewrite Ho, Hin. destruct (r_owner _ _ _ Hr m); auto.
  - by rewrite Ho.
  - intros x [->|Hx]%Hin; auto.
Qed.

Lemma call_exit s L W rc : rest s L W -> contract idle (CExit rc) s -> call_ok (CExit rc) s L.
Proof.
  intros Hr [Hi Hm]. destruct (rest_self _ _ _ Hr) as ((Hin & Hself & _) & Hv & _). assert (Hs := r_sound _ _ _ Hr).
  assert (Hw : W (QWaiters (k_self s)) = []).
  { destruct (W (QWaiters (k_self s))) as [|x r] eqn:E; [done|]. destruct (Hm (k_token s x)).
    apply (ki_token _ _ _ (proj1 (proj1 Hs))). rewrite E. by left. }
  apply wpk_done. eapply wpk_mono;
    [apply (exit_sound s L W rc Hs Hself (r_excpt _ _ _ Hr) Hw (rest_other _ _ _ _ Hr Hi))|done|].
  intros k s' [H1 (_ & _ & _ & _ & _ & He & _ & Hc & Ho)]. eexists _, _. split; [|split; [done|split] ].
  - apply (rest_after s L W _ _ _ (k_self s) Hr H1); try done.
    + apply elem_of_rem. split; [apply (r_idle _ _ _ Hr)|done].
    + intros m. rewrite Ho, elem_of_rem. destruct (r_owner _ _ _ Hr m); auto.
  - intros m E. by destruct (Hm m).
  - split; [|by intros [_ ?]%elem_of_rem]. intros x [? _]%elem_of_rem. auto.
Qed.

(** The interrupt state is restored or saved around a call. *)
Lemma rest_msr s L W m :
  Z.land m MSR_RI = Z.land (k_msr s) MSR_RI -> rest s L W -> rest (set_msr m s) L W.
Proof.
  intros Hm [H1 H2 H3 H4]. split; try done; [by apply ksound_msr|]. unfold in_excpt in *. ksimpl. by rewrite Hm.
Qed.

Lemma call_join s L W t : rest s L W -> contract idle (CJoin t) s -> call_ok (CJoin t) s L.
Proof.
  intros Hr [Hv Hi]. unfold call_ok. cbn [exec]. unfold KThreadJoin. kstep. apply wp_irq_lock. intros st Hst _.
  set (sl := set_msr _ s). assert (Hrl : rest sl L W) by (apply rest_msr; [by apply land_ldiff_disjoint|done]).
  kstep. apply wp_rd; [done|]. change (k_state sl t) with (k_state s t).
  assert (Hend : forall s2, k_thr s2 = k_thr s -> quiet (k_thr s)
    (kbind (lift (rd link_next t)) (fun rc => kbind (lift (PPCIrqUnlockByMsr st)) (fun _ => kret rc)))).
  { auto with kcalls. }
  apply wpk_bind, wpk_when; intros _.
  - apply wpk_bind. eapply wpk_mono; [apply (block_step sl L W 1 t Hrl Hi)|done|].
    intros k s' (W' & s1 & H1 & H2 & H3 & H4 & H5 & H6).
    assert (Hp : post (k_self s) None None (CJoin t) sl L
      (inr (kbind (do! k then kret tt) (fun _ => let! rc := lift (rd link_next t) in
        do! lift (PPCIrqUnlockByMsr st) then kret rc))) s'); [|exact Hp].
    eapply (outcome_post sl L W); try done. cbn [left_ok]. rewrite H5. apply quiet_bind; [auto with kcalls|].
    intros _. by apply (Hend s).
  - destruct (Hend sl eq_refl sl eq_refl) as (rc & m & E & Em). unfold wpk. rewrite E. exists L, W.
    split; [by apply rest_msr|]. split; [apply (calm_cpu _ _ sl); [apply cpu_step_msr|];
      apply (calm_cpu _ _ s); [apply cpu_step_msr|apply calm_refl] |]. split_and!; try done. auto.
Qed.
(** ** Mutexes *)

(** A free mutex is taken. *)
Lemma take_post s L W m d c v :
  rest s L W -> idle <> d -> k_owner s m = NULL -> takes c v = Some m ->
  post d None None c s L (inl v) (set_owner (fupd (k_owner s) m (k_self s)) s).
Proof.
  intros Hr Hd E Hv. destruct (rest_self _ _ _ Hr) as ((Hin & _) & _ & Hn). set (s' := set_owner _ s).
  assert (Hc : calm d s s').
  { split_and!; try done; [intros x o _ Hx; left; eauto|]. intros m' Hm' _. unfold s'. ksimpl. apply fupd_ne. by intros ->. }
  exists L, W. split; [|split; [done|split_and!] ].
  - apply (rest_after s L W _ _ _ d); try done; [apply take_sound; [apply Hr|done]|apply Hr|apply Hr|].
    intros m'. unfold s'. ksimpl. unfold fupd. case_decide; [auto|apply (r_owner _ _ _ Hr)].
  - intros m' Hm' _. unfold s'. ksimpl. unfold fupd. by case_decide.
  - auto.
  - intros m'. rewrite Hv. intros [= <-]. apply fupd_eq.
Qed.

Lemma call_trylock s L W m : rest s L W -> call_ok (CTryLock m) s L.
Proof.
  intros Hr. assert (Hn := idle_null _ _ _ Hr). apply wpk_lift_bind.
  unfold KMutexTryLock, KMutexTryLockImpl, rd_owner, wr_owner. krun.
  destruct (Z.eqb_spec (k_owner s m) NULL) as [E|E]; krun; cbn [b2z].
  - by apply (take_post s L W).
  - exists L, W. split_and!; try done; [apply calm_refl|auto].
Qed.

(** Locking, as a call or after a wait; what is left of it is harmless. *)
Lemma lock_step s L W m :
  rest s L W -> k_self s <> idle -> no_deadlock s m ->
  wpk (KMutexLock m) (fun _ s' => post (k_self s) None None (CLock m) s L (inl 0) s')
    (fun k s' => idle_code k /\ forall k', quiet (k_thr s) k' ->
       post (k_self s) None None (CLock m) s L (inr k') s') s.
Proof.
  intros Hr Hi Hd. destruct (rest_self _ _ _ Hr) as ((Hin & Hself & _) & Hv & _). destruct (r_sound _ _ _ Hr) as [Hk Hp].
  destruct (r_owner _ _ _ Hr m) as [E|Ho].
  - unfold KMutexLock, KMutexTryLockImpl, rd_owner, wr_owner. kstep. kstep. kstep. krun. rewrite E. cbn [Z.eqb]. krun.
    by apply (take_post s L W).
  - destruct (pi_path _ _ _ Hp _ Ho) as [po Hpo].
    assert (Hni : k_self s ∉ po) by (intros Hx; by apply Hd, (path_waits s L W _ po); [apply Hk|..]).
    eapply wpk_mono; [apply (wpk_rest _ _ _ _ _ (mutex_lock_spec s L W m _ po Hk Hp (r_excpt _ _ _ Hr) Hself eq_refl Ho
      Hpo Hni (rest_other _ _ _ _ Hr Hi)) (lock_rest m s))|done|]; cbv beta.
    intros k s' [ (L' & W' & HL & K1 & K2 & K3 & K4 & K5 & _ & _ & _ & K6 & K7) Hl]. split; [done|]. intros k' Hk'.
    exists L', W'. split_and!; try done.
    + apply (rest_after s L W _ _ _ (k_self s)); try done; [rewrite HL; apply (r_idle _ _ _ Hr)|].
      intros m'. rewrite K3, HL. apply (r_owner _ _ _ Hr).
    + by rewrite K3.
    + intros x. rewrite HL. auto.
    + intros _. split; [by rewrite (proj1 K6)|]. left. split; [|done].
      apply (w_in _ _ (ki_waits _ _ _ (proj1 K1))) in K5 as [_ K5]. eauto.
Qed.

Lemma call_lock s L W m : rest s L W -> contract idle (CLock m) s -> call_ok (CLock m) s L.
Proof.
  intros Hr [Hi Hd]. apply wpk_done. eapply wpk_mono; [by apply (lock_step s L W m)|done|].
  intros k s' [Hk H]. by apply H, quiet_done.
Qed.

(** The owner after a hand-over is live. *)
Lemma handed_owner s L W m s' L' :
  rest s L W -> L' ≡ₚ L -> (k_owner s' m = NULL \/ k_owner s' m ∈ W (QWaiters (k_self s))) ->
  (forall m', m' <> m -> k_owner s' m' = k_owner s m') -> forall m', k_owner s' m' = NULL \/ k_owner s' m' ∈ L'.
Proof.
  intros Hr HL Ho Hm m'. destruct (decide (m' = m)) as [->|Hn].
  - destruct Ho as [?|Ho]; [by left|right]. rewrite HL. by apply (ki_live _ _ _ (proj1 (proj1 (r_sound _ _ _ Hr)))) in Ho.
  - rewrite Hm, HL by done. apply (r_owner _ _ _ Hr).
Qed.

Lemma call_unlock s L W m : rest s L W -> contract idle (CUnlock m) s -> call_ok (CUnlock m) s L.
Proof.
  intros Hr Ho. change (k_owner s m = k_self s) in Ho. destruct (rest_self _ _ _ Hr) as ((Hin & Hself & _) & Hv & _).
  destruct (r_sound _ _ _ Hr) as [Hk Hp]. assert (Hn := idle_null _ _ _ Hr).
  assert (Hend : forall s' r, unlock_post s L W m s' -> match r with inl v => True | inr k => quiet (k_thr s') k end ->
      post NULL (Some m) None (CUnlock m) s L r s').
  { intros s' r (L' & W' & HL & H1 & H2 & (H3 & H4 & H5) & H6) Hk'. exists L', W'. split_and!; try done.
    - apply (rest_after s L W _ _ _ NULL); try done; [rewrite HL; apply (r_idle _ _ _ Hr)|].
      apply (handed_owner s L W m); try done. destruct H6 as [ [? _]|[? _] ]; auto.
    - intros m' Hm' Hne. rewrite H5; [done|congruence].
    - intros x. rewrite HL. auto.
    - by destruct r. }
  apply wpk_done. eapply wpk_mono; [apply (wpk_rest _ _ _ _ _ (mutex_unlock_spec s L W m Hk Hp (r_excpt _ _ _ Hr) Hself Ho)
    (mutex_unlock_rest m s))|..].
  - intros v s' H. by apply Hend.
  - intros k s' [H Hl]. apply Hend; [done|by apply quiet_done].
Qed.

Lemma call_wait s L W cv m : rest s L W -> contract idle (CWait cv m) s -> call_ok (CWait cv m) s L.
Proof.
  intros Hr [Hi Ho]. destruct (rest_self _ _ _ Hr) as ((Hin & Hself & _) & Hv & _).
  apply wpk_done. eapply wpk_mono; [apply (cond_wait_sound s L W cv m (r_sound _ _ _ Hr) (r_excpt _ _ _ Hr) Hself Ho
    (rest_other _ _ _ _ Hr Hi))|done|].
  intros k s' (L' & W' & HL & H1 & H2 & H3 & _ & _ & H4 & H5 & st & H6 & H7). exists L', W'. split_and!; try done.
  - apply (rest_after s L W _ _ _ (k_self s)); try done; [rewrite HL; apply (r_idle _ _ _ Hr)|].
    apply (handed_owner s L W m); try done. destruct H4 as [ [? _]|[? _] ]; auto.
  - intros m' Hm' Hne. rewrite H5; [done|]. intros ->. by destruct Hne.
  - intros x. rewrite HL. auto.
  - intros _. split; [done|]. exists st. split; [done|]. intros s2 Hs2. rewrite (proj1 H3) in Hs2.
    assert (E := H7 s2 ltac:(by rewrite Hs2)). unfold done_k. destruct k as [r]. unfold relock in *. simpl in E |- *.
    by rewrite E.
Qed.
(** ** All calls *)

Lemma call_any s L W c : rest s L W -> contract idle c s -> call_ok c s L.
Proof.
  intros Hr Hc. destruct c.
  - by apply (call_prepare s L W).
  - by apply (call_resume s L W).
  - by apply (call_suspend s L W).
  - by apply (call_yield s L W).
  - by apply (call_setprio s L W).
  - by apply (call_join s L W).
  - by apply (call_exit s L W).
  - by apply (call_block s L W).
  - by apply (unblock_call s L W).
  - by apply (call_cancel s L W).
  - by apply (call_trylock s L W).
  - by apply (call_lock s L W).
  - by apply (call_unlock s L W).
  - by apply (call_wait s L W).
  - by apply (unblock_call s L W).
  - by apply (unblock_call s L W).
Qed.

(** A change of the interrupt state after the call. *)
Lemma post_msr d rel cre c s L v m s' :
  Z.land m MSR_RI = Z.land (k_msr s') MSR_RI -> post d rel cre c s L (inl v) s' ->
  post d rel cre c s L (inl v) (set_msr m s').
Proof.
  intros Hm (L' & W' & H1 & H2 & H3). exists L', W'. split; [by apply rest_msr|]. split; [|done].
  eapply calm_cpu; [apply cpu_step_msr|done].
Qed.

(** Going on with the code left of a call. *)
Lemma resume_any s L W c k :
  rest s L W -> left_ok s (k_self s) c k -> resumable c s ->
  let p := post (k_self s) None None (rest_of c) s L in
  wpk k (fun v s' => p (inl v) s') (fun k' s' => p (inr k') s') s.
Proof.
  intros Hr Hl Hc. destruct (rest_self _ _ _ Hr) as ((Hin & Hself & _) & Hv & _).
  assert (Hquiet : quiet (k_thr s) k -> (forall v m, takes (rest_of c) v = Some m -> k_owner s m = k_self s) ->
    wpk k (fun v s' => post (k_self s) None None (rest_of c) s L (inl v) s')
      (fun k' s' => post (k_self s) None None (rest_of c) s L (inr k') s') s).
  { intros Hq Ht. destruct (Hq s eq_refl) as (v & m & E & Hm). unfold wpk. rewrite E. apply post_msr; [done|].
    exists L, W. split_and!; try done; [apply calm_refl|auto|apply Ht]. }
  destruct c; try (by apply Hquiet).
  - destruct Hl as [Hq Hw]. apply Hquiet; [done|]. cbn. intros _ m' [= <-]. destruct Hw as [ [ [o Ho] _]|?]; [|done].
    destruct (status_running _ _ _ _ (proj1 (proj1 (r_sound _ _ _ Hr))) Hin Hself) as [Hn _]. congruence.
  - destruct Hl as (Hi & st & Hst & Hk). unfold wpk. rewrite (Hk s eq_refl).
    change (wpk (done_k (relock m st)) (fun v s' => post (k_self s) None None (CLock m) s L (inl v) s')
      (fun k' s' => post (k_self s) None None (CLock m) s L (inr k') s') s).
    apply wpk_done, wpk_bind. eapply wpk_mono; [by apply (lock_step s L W m)|..]; cbv beta.
    + intros _ s' Hp. apply wpk_lift, wp_irq_unlock. apply post_msr; [by apply unlock_excpt|done].
    + intros k' s' [Hk' Hp]. apply Hp. unfold done_k. auto with kcalls.
Qed.
End Calls.
