(* ===== verification/Arq.v ===== *)
(** * The queue of ARAM transfers ([libogc/arqueue.c], [gc/ogc/arqueue.h])

    Requests to copy between main memory and the audio memory are put into two
    queues, of high and of low priority. One transfer is in flight at a time; at
    its end an interrupt starts the next one. Requests of low priority are sent
    in chunks, so that one of high priority waits for a chunk at most.

    A request is an object of ten words in memory whose first two are the links
    of the queue it is in: the queues are those of [LwpQueue]. *)

From stdpp Require Import base gmap list fin_maps.
From Stdlib Require Import ZArith Lia.
From S2P Require Import Prelude Chain LwpQueue.

Open Scope Z_scope.

Definition ARQ_DEF_CHUNK_SIZE : Z := 4096.
Definition ARQ_PRIO_LO : Z := 0.
Definition ARQ_PRIO_HI : Z := 1.
Definition ARQ_TASK_READY : Z := 0.
Definition ARQ_TASK_RUNNING : Z := 1.
Definition ARQ_TASK_FINISHED : Z := 2.

(** Offsets in [struct _arq_request]. *)
Definition f_owner : Z := 8.
Definition f_dir : Z := 12.
Definition f_prio : Z := 16.
Definition f_state : Z := 20.
Definition f_aram : Z := 24.
Definition f_mram : Z := 28.
Definition f_len : Z := 32.
Definition f_callback : Z := 36.

(** What leaves the component: a transfer started by [AR_StartDMA], and a
    callback invoked for a request. *)
Inductive arq_event :=
| EvDma (dir mram aram len : Z)
| EvCall (cb req : Z).

(** The static variables of arqueue.c beside the two queues, the memory, and the
    events so far. *)
Record arq := mk_arq {
  a_mem : mem;
  ARQChunkSize : Z;
  ARQInitFlag : Z;
  ARQReqPendingLo : Z;
  ARQReqPendingHi : Z;
  ARQCallbackLo : Z;
  ARQCallbackHi : Z;
  a_events : list arq_event;
}.

Definition set_mem (m : mem) (s : arq) : arq :=
  mk_arq m (ARQChunkSize s) (ARQInitFlag s) (ARQReqPendingLo s) (ARQReqPendingHi s) (ARQCallbackLo s)
    (ARQCallbackHi s) (a_events s).
Definition set_chunk (x : Z) (s : arq) : arq :=
  mk_arq (a_mem s) x (ARQInitFlag s) (ARQReqPendingLo s) (ARQReqPendingHi s) (ARQCallbackLo s)
    (ARQCallbackHi s) (a_events s).
Definition set_init (x : Z) (s : arq) : arq :=
  mk_arq (a_mem s) (ARQChunkSize s) x (ARQReqPendingLo s) (ARQReqPendingHi s) (ARQCallbackLo s)
    (ARQCallbackHi s) (a_events s).
Definition set_pendLo (x : Z) (s : arq) : arq :=
  mk_arq (a_mem s) (ARQChunkSize s) (ARQInitFlag s) x (ARQReqPendingHi s) (ARQCallbackLo s)
    (ARQCallbackHi s) (a_events s).
Definition set_pendHi (x : Z) (s : arq) : arq :=
  mk_arq (a_mem s) (ARQChunkSize s) (ARQInitFlag s) (ARQReqPendingLo s) x (ARQCallbackLo s)
    (ARQCallbackHi s) (a_events s).
Definition set_cbLo (x : Z) (s : arq) : arq :=
  mk_arq (a_mem s) (ARQChunkSize s) (ARQInitFlag s) (ARQReqPendingLo s) (ARQReqPendingHi s) x
    (ARQCallbackHi s) (a_events s).
Definition set_cbHi (x : Z) (s : arq) : arq :=
  mk_arq (a_mem s) (ARQChunkSize s) (ARQInitFlag s) (ARQReqPendingLo s) (ARQReqPendingHi s) (ARQCallbackLo s)
    x (a_events s).
Definition emit (e : arq_event) (s : arq) : arq :=
  mk_arq (a_mem s) (ARQChunkSize s) (ARQInitFlag s) (ARQReqPendingLo s) (ARQReqPendingHi s) (ARQCallbackLo s)
    (ARQCallbackHi s) (a_events s ++ [e]).

(** An operation on the memory. *)
Definition onmem {A} (c : M mem A) : M arq A :=
  fun s => match c (a_mem s) with Ok (a, m) => Ok (a, set_mem m s) | Fault f => Fault f end.
Definition rd_f (req off : Z) : M arq Z := onmem (load (req + off)).
Definition wr_f (req off v : Z) : M arq unit := onmem (store (req + off) v).

Definition AR_StartDMA (dir mram aram len : Z) : M arq unit := modify (emit (EvDma dir mram aram len)).

Section Arq.
(** The addresses of [__ARQReqQueueLo] and [__ARQReqQueueHi], and of the two
    callbacks of this file. *)
Context (ReqQueueLo ReqQueueHi ARQCallbackDummy ARQCallbackSync : Z).
(** The callbacks of other files, by their address. *)
Context (user_callback : Z -> Z -> M arq unit).

(** [__ARQCallbackDummy] does nothing; [__ARQCallbackSync] wakes the threads that
    wait in [ARQ_PostRequest], which look at the state of their request. *)
Definition call_back (cb req : Z) : M arq unit :=
  modify (emit (EvCall cb req));;
  if (cb =? ARQCallbackDummy) || (cb =? ARQCallbackSync) then ret tt else user_callback cb req.

Definition ARQPopTaskQueueHi : M arq unit :=
  req <- onmem (lwp_queue_getI ReqQueueHi);
  if req =? NULL then ret tt else
  wr_f req f_state ARQ_TASK_RUNNING;;
  dir <- rd_f req f_dir; mram <- rd_f req f_mram; aram <- rd_f req f_aram; len <- rd_f req f_len;
  AR_StartDMA dir mram aram len;;
  cb <- rd_f req f_callback;
  modify (set_cbHi cb);;
  modify (set_pendHi req).

Definition ARQServiceQueueLo : M arq unit :=
  p <- gets ARQReqPendingLo;
  when (p =? NULL) (req <- onmem (lwp_queue_getI ReqQueueLo); modify (set_pendLo req));;
  req <- gets ARQReqPendingLo;
  if req =? NULL then ret tt else
  wr_f req f_state ARQ_TASK_RUNNING;;
  len <- rd_f req f_len;
  chunk <- gets ARQChunkSize;
  dir <- rd_f req f_dir; mram <- rd_f req f_mram; aram <- rd_f req f_aram;
  if len <=? chunk then
    AR_StartDMA dir mram aram len;;
    cb <- rd_f req f_callback;
    modify (set_cbLo cb)
  else
    AR_StartDMA dir mram aram chunk;;
    wr_f req f_len (u32 (len - chunk));;
    wr_f req f_aram (u32 (aram + chunk));;
    wr_f req f_mram (u32 (mram + chunk)).

Definition ARInterruptServiceRoutine : M arq unit :=
  hi <- gets ARQCallbackHi;
  lo <- gets ARQCallbackLo;
  (if negb (hi =? NULL) then
     req <- gets ARQReqPendingHi;
     wr_f req f_state ARQ_TASK_FINISHED;;
     call_back hi req;;
     modify (set_pendHi NULL);;
     modify (set_cbHi NULL)
   else if negb (lo =? NULL) then
     req <- gets ARQReqPendingLo;
     wr_f req f_state ARQ_TASK_FINISHED;;
     call_back lo req;;
     modify (set_pendLo NULL);;
     modify (set_cbLo NULL)
   else ret tt);;
  ARQPopTaskQueueHi;;
  p <- gets ARQReqPendingHi;
  if p =? NULL then ARQServiceQueueLo else ret tt.

Definition ARQ_Init : M arq unit :=
  i <- gets ARQInitFlag;
  if negb (i =? 0) then ret tt else
  modify (set_pendLo NULL);; modify (set_pendHi NULL);;
  modify (set_cbLo NULL);; modify (set_cbHi NULL);;
  modify (set_chunk ARQ_DEF_CHUNK_SIZE);;
  onmem (lwp_queue_init_empty ReqQueueLo);;
  onmem (lwp_queue_init_empty ReqQueueHi);;
  modify (set_init 1).

Definition ARQ_Reset : M arq unit := modify (set_init 0).
Definition ARQ_SetChunkSize (size : Z) : M arq unit := modify (set_chunk (Z.ldiff (u32 (size + 31)) 31)).
Definition ARQ_GetChunkSize : M arq Z := gets ARQChunkSize.

Definition ARQ_FlushQueue : M arq unit :=
  onmem (lwp_queue_init_empty ReqQueueLo);;
  onmem (lwp_queue_init_empty ReqQueueHi);;
  cb <- gets ARQCallbackLo;
  when (cb =? NULL) (modify (set_pendLo NULL)).

(** The fields of a new request. *)
Definition fill_request (req owner dir prio aram mram len cb : Z) : M arq unit :=
  wr_f req f_state ARQ_TASK_READY;;
  wr_f req f_dir dir;;
  wr_f req f_owner owner;;
  wr_f req f_aram aram;;
  wr_f req f_mram mram;;
  wr_f req f_len len;;
  wr_f req f_prio prio;;
  wr_f req f_callback (if cb =? NULL then ARQCallbackDummy else cb).

Definition ARQ_PostRequestAsync (req owner dir prio aram mram len cb : Z) : M arq unit :=
  fill_request req owner dir prio aram mram len cb;;
  (if prio =? ARQ_PRIO_LO then onmem (lwp_queue_appendI ReqQueueLo req)
   else onmem (lwp_queue_appendI ReqQueueHi req));;
  lo <- gets ARQReqPendingLo;
  hi <- gets ARQReqPendingHi;
  if (lo =? NULL) && (hi =? NULL) then
    ARQPopTaskQueueHi;;
    p <- gets ARQReqPendingHi;
    if p =? NULL then ARQServiceQueueLo else ret tt
  else ret tt.

(** The loop of [ARQ_PostRequest]; [sleep] is what happens while the thread
    sleeps in [LWP_ThreadSleep]. *)
Fixpoint wait_finished (fuel : nat) (sleep : M arq unit) (req : Z) : M arq unit :=
  match fuel with
  | O => fail OutOfFuel
  | S n =>
      st <- rd_f req f_state;
      if st =? ARQ_TASK_FINISHED then ret tt else sleep;; wait_finished n sleep req
  end.

Definition ARQ_PostRequest (fuel : nat) (sleep : M arq unit) (req owner dir prio aram mram len : Z) : M arq unit :=
  ARQ_PostRequestAsync req owner dir prio aram mram len ARQCallbackSync;;
  wait_finished fuel sleep req.

Definition ARQ_RemoveRequest (req : Z) : M arq unit :=
  onmem (lwp_queue_extractI req);;
  p <- gets ARQReqPendingLo;
  cb <- gets ARQCallbackLo;
  when (negb (p =? NULL) && (p =? req) && (cb =? NULL)) (modify (set_pendLo NULL)).

(** One of the two loops of [ARQ_RemoveOwnerRequest]: the value is the count and
    where [req] stopped. *)
Fixpoint remove_owner_loop (fuel : nat) (q owner req cnt : Z) : M arq (Z * Z) :=
  match fuel with
  | O => fail OutOfFuel
  | S n =>
      if req =? lwp_queue_tail q then ret (cnt, req) else
      o <- rd_f req f_owner;
      cnt' <- (if o =? owner then onmem (lwp_queue_extractI req);; ret (u32 (cnt + 1)) else ret cnt);
      nx <- onmem (load (node_next req));
      remove_owner_loop n q owner nx cnt'
  end.

Definition ARQ_RemoveOwnerRequest (fuel : nat) (owner : Z) : M arq Z :=
  first <- onmem (load (q_first ReqQueueHi));
  r <- remove_owner_loop fuel ReqQueueHi owner first 0;
  first' <- onmem (load (q_first ReqQueueLo));
  r' <- remove_owner_loop fuel ReqQueueLo owner first' (fst r);
  p <- gets ARQReqPendingLo;
  cb <- gets ARQCallbackLo;
  when (negb (p =? NULL) && (p =? snd r') && (cb =? NULL)) (modify (set_pendLo NULL));;
  ret (fst r').
End Arq.
