(* ===== verification/ArqSpec.v ===== *)
(** * What the queue of ARAM transfers promises

    An abstract machine with two lists of requests. Each request has a tag, the
    number of requests posted before it; the events are tagged so that the
    transfers made for each request can be told apart. *)

From stdpp Require Import base list.
From Stdlib Require Import ZArith Lia.
From S2P Require Import Prelude Chain Arq.

Open Scope Z_scope.

Record areq := mk_areq {
  r_tag : nat;
  r_id : Z;
  r_dir : Z;
  r_aram : Z;
  r_mram : Z;
  r_len : Z;
  r_cb : Z;
}.

Inductive sev :=
| SDma (tag : nat) (dir mram aram len : Z)
| SCall (tag : nat) (cb id : Z).

Definition erase (e : sev) : arq_event :=
  match e with SDma _ d m a l => EvDma d m a l | SCall _ cb id => EvCall cb id end.

(** [sp_last]: the last part of the pending request of low priority is in
    flight. *)
Record aspec := mk_aspec {
  sp_hi : list areq;
  sp_lo : list areq;
  sp_phi : option areq;
  sp_plo : option areq;
  sp_last : bool;
  sp_log : list sev;
}.

Definition spec_init : aspec := mk_aspec [] [] None None false [].

(** The rest of a request after its first [c] bytes. *)
Definition advance (c : Z) (r : areq) : areq :=
  mk_areq (r_tag r) (r_id r) (r_dir r) (r_aram r + c) (r_mram r + c) (r_len r - c) (r_cb r).

Definition dma (r : areq) (len : Z) : sev := SDma (r_tag r) (r_dir r) (r_mram r) (r_aram r) len.

Definition spec_pop_hi (st : aspec) : aspec :=
  match sp_hi st with
  | [] => st
  | r :: h => mk_aspec h (sp_lo st) (Some r) (sp_plo st) (sp_last st) (sp_log st ++ [dma r (r_len r)])
  end.

(** Send the next part of [r]. *)
Definition spec_send (c : Z) (r : areq) (lo : list areq) (st : aspec) : aspec :=
  if r_len r <=? c
  then mk_aspec (sp_hi st) lo (sp_phi st) (Some r) true (sp_log st ++ [dma r (r_len r)])
  else mk_aspec (sp_hi st) lo (sp_phi st) (Some (advance c r)) (sp_last st) (sp_log st ++ [dma r c]).

Definition spec_service_lo (c : Z) (st : aspec) : aspec :=
  match sp_plo st, sp_lo st with
  | Some r, lo => spec_send c r lo st
  | None, r :: lo => spec_send c r lo st
  | None, [] => st
  end.

Definition spec_start (c : Z) (st : aspec) : aspec :=
  let st' := spec_pop_hi st in
  match sp_phi st' with Some _ => st' | None => spec_service_lo c st' end.

(** The transfer in flight has ended. *)
Definition spec_finish (st : aspec) : aspec :=
  match sp_phi st, sp_last st, sp_plo st with
  | Some r, _, _ =>
      mk_aspec (sp_hi st) (sp_lo st) None (sp_plo st) (sp_last st) (sp_log st ++ [SCall (r_tag r) (r_cb r) (r_id r)])
  | None, true, Some r =>
      mk_aspec (sp_hi st) (sp_lo st) None None false (sp_log st ++ [SCall (r_tag r) (r_cb r) (r_id r)])
  | None, _, _ => st
  end.

Definition spec_isr (c : Z) (st : aspec) : aspec := spec_start c (spec_finish st).

Definition spec_enqueue (hi : bool) (r : areq) (st : aspec) : aspec :=
  if hi then mk_aspec (sp_hi st ++ [r]) (sp_lo st) (sp_phi st) (sp_plo st) (sp_last st) (sp_log st)
  else mk_aspec (sp_hi st) (sp_lo st ++ [r]) (sp_phi st) (sp_plo st) (sp_last st) (sp_log st).

Definition spec_post (c : Z) (hi : bool) (r : areq) (st : aspec) : aspec :=
  let st' := spec_enqueue hi r st in
  match sp_plo st', sp_phi st' with None, None => spec_start c st' | _, _ => st' end.

(** ** The parts of a request *)

(** Main memory address, audio memory address and length of each part. *)
Fixpoint pieces (n : nat) (c m a l : Z) : list (Z * Z * Z) :=
  match n with
  | O => [(m, a, l)]
  | S n' => (m, a, c) :: pieces n' c (m + c) (a + c) (l - c)
  end.

(** How many full chunks precede the last part. *)
Definition full_chunks (c l : Z) : nat := Z.to_nat ((l - 1) / c).

Definition parts (c : Z) (r : areq) : list (Z * Z * Z) :=
  pieces (full_chunks c (r_len r)) c (r_mram r) (r_aram r) (r_len r).

Lemma parts_last c r : 0 < c -> r_len r <= c -> parts c r = [(r_mram r, r_aram r, r_len r)].
Proof.
  intros Hc Hl. unfold parts. assert (full_chunks c (r_len r) = O) as ->; [|done].
  unfold full_chunks. assert ((r_len r - 1) / c < 1) by (apply Z.div_lt_upper_bound; lia). lia.
Qed.

Lemma parts_more c r :
  0 < c -> c < r_len r -> parts c r = (r_mram r, r_aram r, c) :: parts c (advance c r).
Proof.
  intros Hc Hl. unfold parts, advance. simpl.
  assert (full_chunks c (r_len r) = S (full_chunks c (r_len r - c))) as ->; [|done].
  unfold full_chunks. replace (r_len r - 1) with (r_len r - c - 1 + 1 * c) by lia.
  rewrite Z.div_add by lia. rewrite Z2Nat.inj_add by (try apply Z.div_pos; lia). simpl. lia.
Qed.

(** The bytes a transfer copies. *)
Definition bytes (p : Z * Z * Z) : list (Z * Z) :=
  let '(m, a, l) := p in (fun k => (m + k, a + k)) <$> seqZ 0 l.

Lemma bytes_split m a c l :
  0 <= c <= l -> bytes (m, a, l) = bytes (m, a, c) ++ bytes (m + c, a + c, l - c).
Proof.
  intros H. unfold bytes. replace l with (c + (l - c)) at 1 by lia. rewrite seqZ_app by lia.
  rewrite fmap_app, Z.add_0_l. f_equal.
  replace (seqZ c (l - c)) with (Z.add c <$> seqZ 0 (l - c)) by (rewrite fmap_add_seqZ; f_equal; lia).
  rewrite <- list_fmap_compose. apply list_fmap_ext. intros _ k _. simpl. f_equal; lia.
Qed.

Lemma parts_bytes c r :
  0 < c -> 0 <= r_len r -> mjoin (bytes <$> parts c r) = bytes (r_mram r, r_aram r, r_len r).
Proof.
  intros Hc. remember (full_chunks c (r_len r)) as n eqn:En. revert r En.
  induction n as [|n IH]; intros r En Hl.
  - unfold parts. rewrite <- En. simpl. apply app_nil_r.
  - assert (c < r_len r).
    { unfold full_chunks in En. destruct (decide (r_len r <= c)); [|lia].
      assert ((r_len r - 1) / c < 1) by (apply Z.div_lt_upper_bound; lia). lia. }
    rewrite parts_more by done. rewrite fmap_cons. simpl. rewrite IH; simpl; [|  |lia].
    + symmetry. apply bytes_split. lia.
    + pose proof (parts_more c r Hc H) as Hp. unfold full_chunks in *. simpl.
      replace (r_len r - 1) with (r_len r - c - 1 + 1 * c) in En by lia.
      rewrite Z.div_add in En by lia. lia.
Qed.

Lemma parts_small c r : 0 < c -> 0 <= r_len r -> Forall (fun p => 0 <= p.2 <= c) (parts c r).
Proof.
  intros Hc. remember (full_chunks c (r_len r)) as n eqn:En. revert r En.
  induction n as [|n IH]; intros r En Hl; (destruct (decide (r_len r <= c)) as [Hle|Hgt];
    [rewrite parts_last by done; constructor; [simpl; lia|constructor]|]).
  - unfold full_chunks in En. assert (0 < (r_len r - 1) / c) by (apply Z.div_str_pos; lia). lia.
  - rewrite parts_more by lia. constructor; [simpl; lia|]. apply IH; simpl; [|lia].
    unfold full_chunks in *. replace (r_len r - 1) with (r_len r - c - 1 + 1 * c) in En by lia.
    rewrite Z.div_add in En by lia. lia.
Qed.

(** ** Progress *)

(** The transfers of [tag] made so far, and those still to be made. *)
Definition sent1 (tag : nat) (e : sev) : list (Z * Z * Z) :=
  match e with SDma t _ m a l => if decide (t = tag) then [(m, a, l)] else [] | SCall _ _ _ => [] end.
Definition sent (tag : nat) (log : list sev) : list (Z * Z * Z) := mjoin (sent1 tag <$> log).

Definition only (tag : nat) {A} (r : areq) (l : list A) : list A := if decide (r_tag r = tag) then l else [].
Definition whole (r : areq) : list (Z * Z * Z) := [(r_mram r, r_aram r, r_len r)].

Definition todo_plo (c : Z) (tag : nat) (st : aspec) : list (Z * Z * Z) :=
  match sp_plo st with Some r => if sp_last st then [] else only tag r (parts c r) | None => [] end.
Definition todo (c : Z) (tag : nat) (st : aspec) : list (Z * Z * Z) :=
  mjoin ((fun r => only tag r (whole r)) <$> sp_hi st) ++ todo_plo c tag st ++
  mjoin ((fun r => only tag r (parts c r)) <$> sp_lo st).

(** The callbacks invoked for [tag], and those still to be invoked. *)
Definition called1 (tag : nat) (e : sev) : list Z :=
  match e with SCall t cb _ => if decide (t = tag) then [cb] else [] | SDma _ _ _ _ _ => [] end.
Definition called (tag : nat) (log : list sev) : list Z := mjoin (called1 tag <$> log).
Definition open (st : aspec) : list areq :=
  sp_hi st ++ sp_lo st ++ option_list (sp_phi st) ++ option_list (sp_plo st).
Definition key (r : areq) : nat * Z := (r_tag r, r_cb r).
Definition of_tag (tag : nat) (l : list (nat * Z)) : list Z := snd <$> filter (fun p => p.1 = tag) l.
Definition waiting (tag : nat) (st : aspec) : list Z := of_tag tag (key <$> open st).

(** What holds between interrupts. *)
Record spec_wf (st : aspec) : Prop := {
  wf_last : sp_last st = true -> sp_phi st = None /\ sp_plo st <> None;
  wf_idle : sp_phi st = None -> sp_plo st = None -> sp_hi st = [] /\ sp_lo st = [];
}.

Definition idle_spec (st : aspec) : Prop := sp_phi st = None /\ sp_plo st = None.

Lemma sent_app tag l1 l2 : sent tag (l1 ++ l2) = sent tag l1 ++ sent tag l2.
Proof. unfold sent. by rewrite fmap_app, join_app. Qed.
Lemma called_app tag l1 l2 : called tag (l1 ++ l2) = called tag l1 ++ called tag l2.
Proof. unfold called. by rewrite fmap_app, join_app. Qed.

Lemma sent_dma tag log r l : sent tag (log ++ [dma r l]) = sent tag log ++ only tag r [(r_mram r, r_aram r, l)].
Proof. rewrite sent_app. f_equal. unfold sent, only. simpl. by rewrite app_nil_r. Qed.

Lemma sent_call tag log t cb id : sent tag (log ++ [SCall t cb id]) = sent tag log.
Proof. rewrite sent_app. apply app_nil_r. Qed.

(** Starting a transfer moves its part from what is to be done to what was
    sent. *)
Lemma send_sent c tag r lo st :
  0 < c -> sp_hi st = [] -> sp_last st = false ->
  let st' := spec_send c r lo st in
  sent tag (sp_log st') ++ todo c tag st' =
  sent tag (sp_log st) ++ only tag r (parts c r) ++ mjoin ((fun r => only tag r (parts c r)) <$> lo).
Proof.
  intros Hc Eh Hlast. unfold spec_send, todo, todo_plo. destruct (Z.leb_spec (r_len r) c); simpl;
    rewrite Eh, ?Hlast, sent_dma, <- app_assoc; simpl; unfold only; simpl; case_decide; try done.
  - by rewrite parts_last.
  - by rewrite (parts_more c r).
Qed.

Lemma start_sent c tag st :
  0 < c -> sp_phi st = None -> sp_last st = false ->
  let st' := spec_start c st in sent tag (sp_log st') ++ todo c tag st' = sent tag (sp_log st) ++ todo c tag st.
Proof.
  intros Hc Hphi Hlast. unfold spec_start, spec_pop_hi. destruct (sp_hi st) as [|r h] eqn:Eh; simpl.
  - rewrite Hphi. unfold spec_service_lo, todo at 2, todo_plo. rewrite Eh, Hlast. simpl.
    destruct (sp_plo st) as [r|] eqn:Ep; [by apply send_sent|]. destruct (sp_lo st) as [|r lo] eqn:El; simpl.
    + unfold todo, todo_plo. by rewrite Eh, El, Ep.
    + by apply send_sent.
  - rewrite sent_dma. unfold todo, todo_plo. rewrite Eh. simpl. by rewrite <- !app_assoc.
Qed.

(** No request is lost or served twice. *)
Lemma start_open c st : sp_phi st = None -> key <$> open (spec_start c st) ≡ₚ key <$> open st.
Proof.
  intros Hphi. unfold spec_start, spec_pop_hi, open. destruct (sp_hi st) as [|r h] eqn:Eh; simpl.
  - rewrite Hphi. unfold spec_service_lo, spec_send.
    destruct (sp_plo st) as [r|] eqn:Ep, (sp_lo st) as [|r' lo] eqn:El; try case_match; simpl;
      rewrite ?Hphi, ?Eh, ?Ep, ?El; simpl; rewrite ?fmap_app; simpl; try done; solve_Permutation.
  - rewrite Hphi. rewrite !fmap_app. simpl. solve_Permutation.
Qed.

Lemma start_called c tag st : called tag (sp_log (spec_start c st)) = called tag (sp_log st).
Proof.
  assert (Hd : forall log r l, called tag (log ++ [dma r l]) = called tag log)
    by (intros; rewrite called_app; apply app_nil_r).
  unfold spec_start, spec_pop_hi, spec_service_lo, spec_send. repeat (case_match; simpl); try done; apply Hd.
Qed.

Lemma start_waiting c tag st : sp_phi st = None -> waiting tag (spec_start c st) ≡ₚ waiting tag st.
Proof. intros H. unfold waiting, of_tag. by rewrite (start_open c st H). Qed.

Lemma start_wf c st : sp_phi st = None -> sp_last st = false -> spec_wf (spec_start c st).
Proof.
  intros Hphi Hlast. unfold spec_start, spec_pop_hi. destruct (sp_hi st) as [|r h] eqn:Eh; simpl.
  - rewrite Hphi. unfold spec_service_lo, spec_send.
    destruct (sp_plo st) as [r|] eqn:Ep, (sp_lo st) as [|r' lo] eqn:El; try case_match; split; simpl; congruence || auto.
  - split; simpl; [by rewrite Hlast|done].
Qed.

(** ** The number of interrupts to come *)

Definition in_flight (st : aspec) : nat :=
  match sp_phi st, sp_plo st with None, None => 0 | _, _ => 1 end.
Definition left_plo (c : Z) (st : aspec) : nat :=
  match sp_plo st with Some r => if sp_last st then 0 else length (parts c r) | None => 0 end.
Definition work (c : Z) (st : aspec) : nat :=
  in_flight st + length (sp_hi st) + left_plo c st + sum_list ((fun r => length (parts c r)) <$> sp_lo st).

Lemma start_work c st :
  0 < c -> sp_phi st = None -> sp_last st = false ->
  work c (spec_start c st) = (length (sp_hi st) + left_plo c st +
    sum_list ((fun r => length (parts c r)) <$> sp_lo st))%nat.
Proof.
  intros Hc Hphi Hlast. unfold spec_start, spec_pop_hi. destruct (sp_hi st) as [|r h] eqn:Eh; simpl.
  - rewrite Hphi. assert (Hsend : forall r lo, work c (spec_send c r lo st) = (length (parts c r) +
      sum_list ((fun r => length (parts c r)) <$> lo))%nat).
    { intros r lo. unfold spec_send, work, in_flight, left_plo. destruct (Z.leb_spec (r_len r) c); simpl; rewrite Hphi, Eh.
      - by rewrite parts_last.
      - rewrite Hlast, (parts_more c r) by done. simpl. lia. }
    unfold spec_service_lo, left_plo. rewrite Hlast. destruct (sp_plo st) as [r|] eqn:Ep; [apply Hsend|].
    destruct (sp_lo st) as [|r lo] eqn:El; simpl; [|apply Hsend].
    unfold work, in_flight, left_plo. by rewrite Hphi, Ep, Eh, El.
  - unfold work, in_flight, left_plo. simpl. lia.
Qed.

(** ** Interrupts and posts *)

Lemma finish_phi st : spec_wf st -> sp_phi (spec_finish st) = None /\ sp_last (spec_finish st) = false.
Proof.
  intros [H _]. unfold spec_finish. destruct (sp_phi st) eqn:E1, (sp_last st) eqn:E2, (sp_plo st) eqn:E3; simpl; try done;
    destruct (H eq_refl); congruence.
Qed.

Lemma finish_sent c tag st : spec_wf st ->
  sent tag (sp_log (spec_finish st)) = sent tag (sp_log st) /\ todo c tag (spec_finish st) = todo c tag st.
Proof.
  intros [H _]. unfold spec_finish, todo, todo_plo.
  destruct (sp_phi st) eqn:E1, (sp_last st) eqn:E2, (sp_plo st) eqn:E3; simpl; rewrite ?sent_call, ?E2, ?E3; done.
Qed.

Lemma finish_waiting tag st : spec_wf st ->
  called tag (sp_log (spec_finish st)) ++ waiting tag (spec_finish st) ≡ₚ called tag (sp_log st) ++ waiting tag st.
Proof.
  assert (Hc : forall log r, called tag (log ++ [SCall (r_tag r) (r_cb r) (r_id r)]) = called tag log ++ of_tag tag [key r]).
  { intros log r. rewrite called_app. f_equal. unfold called, of_tag. simpl. rewrite filter_cons, filter_nil. simpl.
    by case_decide. }
  assert (Happ : forall l1 l2, of_tag tag (l1 ++ l2) = of_tag tag l1 ++ of_tag tag l2).
  { intros. unfold of_tag. by rewrite filter_app, fmap_app. }
  assert (Hmove : forall log r X Y, key r :: X ≡ₚ Y ->
    called tag (log ++ [SCall (r_tag r) (r_cb r) (r_id r)]) ++ of_tag tag X ≡ₚ called tag log ++ of_tag tag Y).
  { intros log r X Y E. rewrite Hc, <- app_assoc, <- Happ. unfold of_tag. by rewrite <- E. }
  intros [H _]. unfold spec_finish, waiting, open.
  destruct (sp_phi st) as [r|] eqn:E1; simpl; [apply Hmove; rewrite !fmap_app; simpl; solve_Permutation|].
  destruct (sp_last st) eqn:E2, (sp_plo st) as [r|] eqn:E3; simpl; rewrite ?E1, ?E3; try done.
  apply Hmove. rewrite !fmap_app. simpl. solve_Permutation.
Qed.

Lemma finish_work c st : spec_wf st ->
  (in_flight st + (length (sp_hi (spec_finish st)) + left_plo c (spec_finish st) +
     sum_list ((fun r => length (parts c r)) <$> sp_lo (spec_finish st))))%nat = work c st.
Proof.
  intros [H _]. unfold spec_finish, work, left_plo.
  destruct (sp_phi st) eqn:E1, (sp_last st) eqn:E2, (sp_plo st) eqn:E3; simpl; rewrite ?E2, ?E3; lia.
Qed.

Lemma isr_wf c st : spec_wf st -> spec_wf (spec_isr c st).
Proof. intros H. destruct (finish_phi st H). by apply start_wf. Qed.

(** Each interrupt ends one transfer. *)
Lemma isr_work c st : 0 < c -> spec_wf st -> work c (spec_isr c st) = (work c st - in_flight st)%nat.
Proof.
  intros Hc H. destruct (finish_phi st H). unfold spec_isr. rewrite start_work by done.
  pose proof (finish_work c st H). lia.
Qed.

Lemma idle_work c st : spec_wf st -> work c st = O <-> idle_spec st.
Proof.
  intros [_ H]. unfold work, in_flight, idle_spec. split.
  - destruct (sp_phi st), (sp_plo st); simpl; try lia. done.
  - intros [H1 H2]. destruct (H H1 H2) as [-> ->]. unfold left_plo. by rewrite H1, H2.
Qed.

Fixpoint isrs (n : nat) (c : Z) (st : aspec) : aspec :=
  match n with O => st | S n' => isrs n' c (spec_isr c st) end.

(** After as many interrupts as there are transfers left, nothing is pending. *)
Lemma drain c st : 0 < c -> spec_wf st -> idle_spec (isrs (work c st) c st).
Proof.
  intros Hc. remember (work c st) as n eqn:En. revert st En. induction n as [|n IH]; intros st En H; simpl.
  - by apply (idle_work c).
  - apply IH; [|by apply isr_wf]. rewrite isr_work by done. rewrite <- En.
    assert (in_flight st = 1%nat); [|lia]. unfold in_flight. destruct (sp_phi st) eqn:E1, (sp_plo st) eqn:E2; try done.
    assert (work c st = O) by (by apply idle_work). lia.
Qed.

Lemma enqueue_wf hi r st : spec_wf st -> ~ idle_spec st -> spec_wf (spec_enqueue hi r st).
Proof. intros [H1 H2] Hn. destruct hi; split; simpl; try done; intros E1 E2; by destruct Hn. Qed.

Lemma post_wf c hi r st : spec_wf st -> spec_wf (spec_post c hi r st).
Proof.
  intros H. unfold spec_post. destruct (sp_plo (spec_enqueue hi r st)) eqn:E1, (sp_phi (spec_enqueue hi r st)) eqn:E2;
    try (apply enqueue_wf; [done|]; unfold idle_spec; destruct hi; simpl in *; naive_solver).
  apply start_wf; [done|]. destruct H as [H _]. destruct hi; simpl in *; destruct (sp_last st); try done;
    destruct (H eq_refl); congruence.
Qed.

(** What a post adds for the tag [tag]. *)
Lemma post_sent c tag hi r st :
  0 < c -> spec_wf st -> (r_tag r = tag -> todo c tag st = []) ->
  let st' := spec_post c hi r st in
  sent tag (sp_log st') ++ todo c tag st' =
  sent tag (sp_log st) ++ todo c tag st ++ only tag r (if hi then whole r else parts c r).
Proof.
  intros Hc Hwf Hr. set (e := spec_enqueue hi r st).
  assert (He : sp_log e = sp_log st /\ todo c tag e = todo c tag st ++ only tag r (if hi then whole r else parts c r)).
  { unfold e, spec_enqueue, todo, todo_plo in *. destruct hi; simpl; (split; [done|]).
    - rewrite fmap_app, join_app. simpl. rewrite app_nil_r. unfold only in *. case_decide; [|by rewrite !app_nil_r].
      specialize (Hr H). apply app_nil in Hr as [-> Hr]. rewrite Hr. done.
    - rewrite fmap_app, join_app. simpl. by rewrite app_nil_r, <- !app_assoc. }
  destruct He as [E1 E2]. unfold spec_post. fold e. cbv zeta.
  destruct (sp_plo e) eqn:Ep, (sp_phi e) eqn:Ephi; try (by rewrite E1, E2).
  rewrite start_sent, E1, E2; try done. destruct Hwf as [H _]. unfold e in *. destruct hi; simpl in *;
    destruct (sp_last st); try done; destruct (H eq_refl); congruence.
Qed.

Lemma post_waiting c tag hi r st :
  let st' := spec_post c hi r st in
  called tag (sp_log st') ++ waiting tag st' ≡ₚ called tag (sp_log st) ++ waiting tag st ++ of_tag tag [key r].
Proof.
  set (e := spec_enqueue hi r st).
  assert (He : sp_log e = sp_log st /\ waiting tag e ≡ₚ waiting tag st ++ of_tag tag [key r]).
  { unfold e, spec_enqueue, waiting, of_tag, open. rewrite <- fmap_app, <- filter_app.
    destruct hi; simpl; (split; [done|]); apply fmap_Permutation, filter_Permutation; rewrite !fmap_app; simpl;
      solve_Permutation. }
  destruct He as [E1 E2]. unfold spec_post. fold e. cbv zeta.
  destruct (sp_plo e) eqn:Ep, (sp_phi e) eqn:Ephi; try (by rewrite E1, E2).
  by rewrite start_called, start_waiting, E1, E2.
Qed.

(** ** Runs *)

(** A request is posted, or a transfer ends. *)
Inductive aop :=
| APost (hi : bool) (r : areq)
| AIrq.

Definition retag (n : nat) (r : areq) : areq :=
  mk_areq n (r_id r) (r_dir r) (r_aram r) (r_mram r) (r_len r) (r_cb r).

(** The machine with the requests posted so far; the tag of a request is its
    number. *)
Definition spec_step (c : Z) (h : aspec * list (bool * areq)) (op : aop) : aspec * list (bool * areq) :=
  match op with
  | APost hi r => let r' := retag (length h.2) r in (spec_post c hi r' h.1, h.2 ++ [(hi, r')])
  | AIrq => (spec_isr c h.1, h.2)
  end.
Definition spec_run (c : Z) (ops : list aop) : aspec * list (bool * areq) := foldl (spec_step c) (spec_init, []) ops.

Definition quota (c : Z) (p : bool * areq) : list (Z * Z * Z) := if p.1 then whole p.2 else parts c p.2.

(** For every request: what was sent and what is to be sent make up its parts,
    and its callback was invoked or will be. *)
Record accounted (c : Z) (h : aspec * list (bool * areq)) : Prop := {
  ac_wf : spec_wf h.1;
  ac_new : forall i, (length h.2 <= i)%nat ->
    sent i (sp_log h.1) ++ todo c i h.1 = [] /\ called i (sp_log h.1) ++ waiting i h.1 ≡ₚ [];
  ac_old : forall i p, h.2 !! i = Some p ->
    sent i (sp_log h.1) ++ todo c i h.1 = quota c p /\ called i (sp_log h.1) ++ waiting i h.1 ≡ₚ [r_cb p.2];
}.

Lemma isr_accounted c i st : 0 < c -> spec_wf st ->
  sent i (sp_log (spec_isr c st)) ++ todo c i (spec_isr c st) = sent i (sp_log st) ++ todo c i st /\
  called i (sp_log (spec_isr c st)) ++ waiting i (spec_isr c st) ≡ₚ called i (sp_log st) ++ waiting i st.
Proof.
  intros Hc H. destruct (finish_phi st H) as [H1 H2]. destruct (finish_sent c i st H) as [<- <-]. unfold spec_isr. split.
  - by apply start_sent.
  - rewrite start_called, start_waiting by done. by apply finish_waiting.
Qed.

Lemma step_accounted c h op : 0 < c -> accounted c h -> accounted c (spec_step c h op).
Proof.
  intros Hc [Hwf Hnew Hold]. destruct h as [st ps], op as [hi r|]; simpl in *.
  - set (r' := retag (length ps) r). assert (Hr' : r_tag r' = length ps) by done.
    assert (Hpost : forall i, (r_tag r' = i -> todo c i st = []) ->
      sent i (sp_log (spec_post c hi r' st)) ++ todo c i (spec_post c hi r' st) =
        (sent i (sp_log st) ++ todo c i st) ++ only i r' (quota c (hi, r')) /\
      called i (sp_log (spec_post c hi r' st)) ++ waiting i (spec_post c hi r' st) ≡ₚ
        (called i (sp_log st) ++ waiting i st) ++ of_tag i [key r']).
    { intros i Hi. split; [rewrite post_sent by done|rewrite post_waiting]; by rewrite <- app_assoc. }
    assert (Hn : length ps <> length ps -> False) by done.
    split; simpl.
    + by apply post_wf.
    + intros i Hi. rewrite length_app in Hi. simpl in Hi. destruct (Hpost i) as [-> ->]; [lia|].
      destruct (Hnew i ltac:(lia)) as [-> ->]. unfold only, of_tag. rewrite decide_False by lia.
      simpl. rewrite filter_cons, decide_False by (simpl; lia). done.
    + intros i p Hi. destruct (decide (i = length ps)) as [->|Hne].
      * rewrite list_lookup_middle in Hi by done. injection Hi as <-.
        destruct (Hnew (length ps) ltac:(lia)) as [E1 E2].
        destruct (Hpost (length ps)) as [-> ->]; [intros _; by apply app_nil in E1 as [_ ->]|].
        rewrite E1, E2. unfold only, of_tag. rewrite decide_True by done. simpl.
        by rewrite filter_cons, decide_True by done.
      * assert (Hlt : (i < length ps)%nat) by (apply lookup_lt_Some in Hi; rewrite length_app in Hi; simpl in Hi; lia).
        rewrite lookup_app_l in Hi by done. destruct (Hpost i) as [-> ->]; [lia|].
        destruct (Hold i p Hi) as [-> ->]. unfold only, of_tag. rewrite decide_False by lia.
        simpl. rewrite filter_cons, decide_False by (simpl; lia). by rewrite app_nil_r.
  - assert (H := fun i => isr_accounted c i st Hc Hwf). split; simpl.
    + by apply isr_wf.
    + intros i Hi. destruct (H i) as [-> ->]. by apply Hnew.
    + intros i p Hi. destruct (H i) as [-> ->]. by apply Hold.
Qed.

Lemma run_accounted c ops : 0 < c -> accounted c (spec_run c ops).
Proof.
  intros Hc. unfold spec_run. assert (H : accounted c (spec_init, [])) by by split; [split|..].
  revert H. generalize (spec_init, [] : list (bool * areq)). induction ops as [|op ops IH]; intros h H; [done|].
  simpl. by apply IH, step_accounted.
Qed.

(** When nothing is pending every request has been served. *)
Lemma idle_served c h i p :
  accounted c h -> idle_spec h.1 -> h.2 !! i = Some p ->
  sent i (sp_log h.1) = quota c p /\ called i (sp_log h.1) = [r_cb p.2].
Proof.
  intros [Hwf _ Hold] [H1 H2] Hi. destruct (wf_idle _ Hwf H1 H2) as [H3 H4]. destruct (Hold i p Hi) as [E1 E2].
  assert (todo c i h.1 = []) as Et by (unfold todo, todo_plo; by rewrite H2, H3, H4).
  assert (waiting i h.1 = []) as Ew by (unfold waiting, open; by rewrite H1, H2, H3, H4).
  rewrite Et, app_nil_r in E1. rewrite Ew, app_nil_r in E2. split; [done|]. by apply Permutation_singleton_r in E2.
Qed.

Lemma quota_bytes c p :
  0 < c -> 0 <= r_len p.2 -> mjoin (bytes <$> quota c p) = bytes (r_mram p.2, r_aram p.2, r_len p.2).
Proof.
  intros Hc Hl. unfold quota. destruct (p.1); [|by apply parts_bytes]. unfold whole. simpl. apply app_nil_r.
Qed.
