(* ===== verification/ArqProofs.v ===== *)
(** * The queue of ARAM transfers implements its specification

    The code of [Arq], which links requests into queues in memory, simulates the
    machine of [ArqSpec]; the proofs use the queue operations of [LwpQueue]
    through their specifications. *)

From stdpp Require Import base gmap list fin_maps.
From Stdlib Require Import ZArith Lia.
From S2P Require Import Prelude Chain LwpQueue Arq ArqSpec.

Open Scope Z_scope.

(** ** Memory operations *)

Lemma wp_onmem {A} (c : M mem A) Q s :
  wp c (fun a m => Q a (set_mem m s)) (a_mem s) -> wp (onmem c) Q s.
Proof. unfold wp, onmem. by destruct (c (a_mem s)) as [ [? ?]|]. Qed.

Lemma set_mem_id s : set_mem (a_mem s) s = s.
Proof. by destruct s. Qed.

Lemma wp_rd_f req off v Q s : a_mem s !! (req + off) = Some v -> Q v s -> wp (rd_f req off) Q s.
Proof. intros H HQ. apply wp_onmem. eapply wp_load; [done|]. by rewrite set_mem_id. Qed.

Lemma wp_wr_f req off v Q s :
  is_Some (a_mem s !! (req + off)) -> Q tt (set_mem (<[req + off := v]> (a_mem s)) s) -> wp (wr_f req off v) Q s.
Proof. intros H HQ. by apply wp_onmem, wp_store. Qed.

(** The words of a queue: its control structure and the links of its nodes. *)
Lemma footprint_words q L w :
  footprint q L w -> q <= w < q + 12 \/ exists r, r ∈ L /\ (w = r \/ w = r + 4).
Proof.
  unfold footprint, link_word, nodes, lwp_queue_head, lwp_queue_tail, q_perm_null. intros [ [ [a [Ha ->] ]|[a [Ha ->] ] ]| ->].
  - rewrite (app_comm_cons L), removelast_last in Ha. apply elem_of_cons in Ha as [->|Ha]; [left; lia|right].
    exists a. split; [done|lia].
  - simpl in Ha. apply elem_of_app in Ha as [Ha|Ha%list_elem_of_singleton]; [right|left; lia]. exists a. split; [done|lia].
  - left. lia.
Qed.

Section Mem.
(** The request objects of the program. *)
Context (P : list Z).

Record layout (q1 q2 : Z) : Prop := {
  lay_q : q1 + 12 <= q2 \/ q2 + 12 <= q1;
  lay_req : forall r q, r ∈ P -> q = q1 \/ q = q2 -> r + 40 <= q \/ q + 12 <= r;
  lay_sep : forall r r', r ∈ P -> r' ∈ P -> r = r' \/ r + 40 <= r' \/ r' + 40 <= r;
  lay_null : NULL ∉ P;
}.

Lemma layout_sym q1 q2 : layout q1 q2 -> layout q2 q1.
Proof. intros [H1 H2 H3 H4]. split; try done; [tauto|]. intros r q Hr Hq. apply H2; tauto. Qed.

Definition word_off (k : Z) : Prop := 0 <= k < 40 /\ k mod 4 = 0.

(** The transfer a request object describes. *)
Definition req_at (m : mem) (r : areq) : Prop :=
  m !! (r_id r + f_dir) = Some (r_dir r) /\ m !! (r_id r + f_mram) = Some (r_mram r) /\
  m !! (r_id r + f_aram) = Some (r_aram r) /\ m !! (r_id r + f_len) = Some (r_len r) /\
  m !! (r_id r + f_callback) = Some (r_cb r).

(** Transfers inside the two address spaces. *)
Definition req_ok (r : areq) : Prop :=
  r_id r ∈ P /\ r_cb r <> NULL /\ 0 <= r_len r /\
  (0 <= r_aram r /\ r_aram r + r_len r < 2 ^ 32) /\ (0 <= r_mram r /\ r_mram r + r_len r < 2 ^ 32).

(** Memory with the queues [L1] at [q1] and [L2] at [q2] and the requests [R]
    that are in neither. *)
Record mrel (q1 q2 : Z) (m : mem) (L1 L2 R : list areq) : Prop := {
  mr_q1 : queue_repr m q1 (r_id <$> L1);
  mr_q2 : queue_repr m q2 (r_id <$> L2);
  mr_at : forall r, r ∈ L1 ++ L2 ++ R -> req_at m r /\ req_ok r;
  mr_nodup : NoDup (r_id <$> L1 ++ L2 ++ R);
  mr_mapped : forall r k, r ∈ P -> word_off k -> is_Some (m !! (r + k));
}.

Lemma mrel_sym q1 q2 m L1 L2 R : mrel q1 q2 m L1 L2 R -> mrel q2 q1 m L2 L1 R.
Proof.
  intros [H1 H2 H3 H4 H5]. assert (E : L2 ++ L1 ++ R ≡ₚ L1 ++ L2 ++ R) by solve_Permutation.
  split; try done; [|by rewrite E]. intros r. rewrite E. apply H3.
Qed.

Lemma mrel_perm q1 q2 m L1 L2 R R' : R' ≡ₚ R -> mrel q1 q2 m L1 L2 R -> mrel q1 q2 m L1 L2 R'.
Proof. intros E [H1 H2 H3 H4 H5]. split; try done; [|by rewrite E]. intros r. rewrite E. apply H3. Qed.

Lemma mrel_sub q1 q2 m L1 L2 r R : mrel q1 q2 m L1 L2 (r :: R) -> mrel q1 q2 m L1 L2 R.
Proof.
  intros [H1 H2 H3 H4 H5]. assert (E : L1 ++ L2 ++ r :: R ≡ₚ r :: L1 ++ L2 ++ R) by solve_Permutation.
  split; try done.
  - intros x Hx. apply H3. rewrite E. by right.
  - rewrite E in H4. by apply NoDup_cons in H4 as [_ ?].
Qed.

(** The first queue changed to the nodes of [L1'], some of the requests before. *)
Lemma mrel_queue q1 q2 m m' L1 L2 R L1' R' :
  layout q1 q2 -> mrel q1 q2 m L1 L2 R -> L1' ++ R' ≡ₚ L1 ++ R ->
  queue_repr m' q1 (r_id <$> L1') -> agree (fun w => ~ footprint q1 (r_id <$> L1') w) m m' ->
  mrel q1 q2 m' L1' L2 R'.
Proof.
  intros HL [H1 H2 H3 H4 H5] E Hq Hag. assert (E' : L1' ++ L2 ++ R' ≡ₚ L1 ++ L2 ++ R).
  { rewrite !(Permutation_app_comm L2). rewrite !app_assoc. by rewrite E. }
  assert (Hin : forall x, x ∈ r_id <$> L1' -> x ∈ P).
  { intros x [r [-> Hr] ]%list_elem_of_fmap. apply H3. rewrite <- E'. set_solver. }
  assert (Hout : forall w, ~ footprint q1 (r_id <$> L1') w -> m' !! w = m !! w) by done.
  split; try done.
  - apply (queue_repr_frame m); [|done]. intros w Hw. apply Hout. intros Hw1.
    apply footprint_words in Hw, Hw1. pose proof (lay_q _ _ HL).
    destruct Hw as [Hw|(x & Hx & Hw)], Hw1 as [Hw1|(y & Hy & Hw1)]; [lia|..].
    + destruct (lay_req _ _ HL y q2 (Hin y Hy)); auto; lia.
    + apply list_elem_of_fmap in Hx as [r [-> Hr] ]. assert (r_id r ∈ P) by (apply H3; set_solver).
      destruct (lay_req _ _ HL (r_id r) q1); auto; lia.
    + apply list_elem_of_fmap in Hx as [r [-> Hr] ]. assert (r_id r ∈ P) by (apply H3; set_solver).
      destruct (lay_sep _ _ HL (r_id r) y) as [Heq|?]; auto; [|lia].
      rewrite <- E', !fmap_app, NoDup_app in H4. destruct H4 as (_ & H4 & _). apply (H4 y Hy).
      rewrite elem_of_app. left. rewrite <- Heq. by apply list_elem_of_fmap_2.
  - intros r Hr. rewrite E' in Hr. destruct (H3 r Hr) as [Hat Hok]. split; [|done].
    assert (Hf : forall k, 8 <= k < 40 -> m' !! (r_id r + k) = m !! (r_id r + k)).
    { intros k Hk. apply Hout. intros [Hw|(y & Hy & Hw)]%footprint_words.
      - destruct (lay_req _ _ HL (r_id r) q1); auto; [apply Hok|lia|lia].
      - destruct (lay_sep _ _ HL (r_id r) y) as [Heq|?]; auto; [apply Hok|lia|lia]. }
    unfold req_at, f_dir, f_mram, f_aram, f_len, f_callback in *. rewrite !Hf by lia. done.
  - by rewrite E'.
  - intros r k Hr Hk. destruct (footprint_dec q1 (r_id <$> L1') (r + k)) as [Hf|Hf].
    + by eapply queue_repr_mapped.
    + rewrite Hout by done. by apply H5.
Qed.

Lemma get_nil q1 q2 m L2 R :
  mrel q1 q2 m [] L2 R -> wp (lwp_queue_getI q1) (fun x m' => x = NULL /\ m' = m) m.
Proof. intros H. apply (getI_spec m q1 []), H. Qed.

Lemma get_cons q1 q2 m r L1 L2 R :
  layout q1 q2 -> mrel q1 q2 m (r :: L1) L2 R ->
  wp (lwp_queue_getI q1) (fun x m' => x = r_id r /\ mrel q1 q2 m' L1 L2 (r :: R)) m.
Proof.
  intros HL H. eapply wp_mono; [apply (getI_spec m q1 _ (mr_q1 _ _ _ _ _ _ H))|]. simpl.
  intros x m' (-> & H1 & H2). split; [done|]. eapply mrel_queue; [done|exact H| |done..]. solve_Permutation.
Qed.

(** A field of a request is written. *)
Lemma write_field q1 q2 m L1 L2 R r k v :
  layout q1 q2 -> mrel q1 q2 m L1 L2 R -> r ∈ P -> word_off k -> 8 <= k ->
  (forall x, x ∈ L1 ++ L2 ++ R -> r_id x = r -> req_at (<[r + k := v]> m) x) ->
  mrel q1 q2 (<[r + k := v]> m) L1 L2 R.
Proof.
  intros HL [H1 H2 H3 H4 H5] Hr Hk Hk8 Hat.
  assert (Hq : forall q L, q = q1 \/ q = q2 -> (forall x, x ∈ L -> x ∈ L1 ++ L2 ++ R) ->
    queue_repr m q (r_id <$> L) -> queue_repr (<[r + k := v]> m) q (r_id <$> L)).
  { intros q L Hq Hsub. apply queue_repr_frame. intros w Hw%footprint_words. apply lookup_insert_ne. destruct Hk.
    destruct Hw as [Hw|(x & Hx & Hw)]; [destruct (lay_req _ _ HL r q); auto; lia|].
    apply list_elem_of_fmap in Hx as [y [-> Hy] ]. destruct (H3 y (Hsub y Hy)) as [_ Hok].
    destruct (lay_sep _ _ HL r (r_id y)) as [->|?]; [done|apply Hok|lia|lia]. }
  split; try done.
  - apply Hq; [auto| |done]. set_solver.
  - apply Hq; [auto| |done]. set_solver.
  - intros x Hx. destruct (H3 x Hx) as [Hx1 Hx2]. split; [|done]. destruct (decide (r_id x = r)) as [E|E]; [by apply Hat|].
    destruct Hk. assert (Hne : forall k', 0 <= k' < 40 -> r + k <> r_id x + k').
    { intros k' Hk'. destruct (lay_sep _ _ HL r (r_id x)) as [->|?]; [done|apply Hx2|done|lia]. }
    unfold req_at, f_dir, f_mram, f_aram, f_len, f_callback in *. rewrite !lookup_insert_ne by (apply Hne; lia). done.
  - intros x k' Hx Hk'. destruct (decide (r + k = x + k')) as [->|E]; [rewrite lookup_insert_eq; eauto|].
    rewrite lookup_insert_ne by done. by apply H5.
Qed.

Lemma write_state q1 q2 m L1 L2 R r v :
  layout q1 q2 -> mrel q1 q2 m L1 L2 R -> r ∈ P -> mrel q1 q2 (<[r + f_state := v]> m) L1 L2 R.
Proof.
  intros HL H Hr. apply write_field; try done. intros x Hx <-. destruct (mr_at _ _ _ _ _ _ H x Hx) as [Hat _].
  unfold req_at, f_state, f_dir, f_mram, f_aram, f_len, f_callback in *. by rewrite !lookup_insert_ne by lia.
Qed.

(** The writes after a chunk was sent. *)
Lemma write_advance q1 q2 m L1 L2 R r c :
  layout q1 q2 -> mrel q1 q2 m L1 L2 (r :: R) -> 0 <= c <= r_len r ->
  mrel q1 q2 (<[r_id r + f_mram := u32 (r_mram r + c)]> (<[r_id r + f_aram := u32 (r_aram r + c)]>
    (<[r_id r + f_len := u32 (r_len r - c)]> m))) L1 L2 (advance c r :: R).
Proof.
  intros HL H Hc. assert (Hr : r ∈ L1 ++ L2 ++ r :: R) by set_solver.
  destruct (mr_at _ _ _ _ _ _ H r Hr) as [Hat (Hp & Hcb & Hl & Ha & Hm)].
  assert (Hrest : forall x, x ∈ L1 ++ L2 ++ R -> r_id x <> r_id r).
  { intros x Hx E. pose proof (mr_nodup _ _ _ _ _ _ H) as Hn.
    assert (Ep : L1 ++ L2 ++ r :: R ≡ₚ r :: L1 ++ L2 ++ R) by solve_Permutation. rewrite Ep in Hn.
    simpl in Hn. apply NoDup_cons in Hn as [Hn _]. apply Hn. rewrite <- E. by apply list_elem_of_fmap_2. }
  assert (H0 := mrel_sub _ _ _ _ _ _ _ H).
  assert (Hw : forall m k v, mrel q1 q2 m L1 L2 R -> word_off k -> 8 <= k -> mrel q1 q2 (<[r_id r + k := v]> m) L1 L2 R).
  { intros m' k v Hm' Hk Hk8. apply write_field; try done. intros x Hx E. by destruct (Hrest x Hx). }
  assert (H1 := Hw _ f_mram (u32 (r_mram r + c)) (Hw _ f_aram (u32 (r_aram r + c)) (Hw _ f_len (u32 (r_len r - c)) H0
    ltac:(done) ltac:(done)) ltac:(done) ltac:(done)) ltac:(done) ltac:(done)).
  destruct H1 as [Q1 Q2 Q3 Q4 Q5]. split; try done.
  - intros x Hx. assert (x ∈ advance c r :: L1 ++ L2 ++ R) as [->|Hx']%elem_of_cons by set_solver; [|by apply Q3].
    unfold req_at, req_ok, f_dir, f_mram, f_aram, f_len, f_callback in *. simpl. split.
    + destruct Hat as (A1 & A2 & A3 & A4 & A5). rewrite !wrap_small by lia. split_and!; by simplify_map_eq by lia.
    + split_and!; try done; lia.
  - pose proof (mr_nodup _ _ _ _ _ _ H) as Hn. by rewrite !fmap_app in Hn |- *.
Qed.

(** A request object that is not in use is filled in and appended. *)
Lemma append_spec q1 q2 m L1 L2 R r :
  layout q1 q2 -> mrel q1 q2 m L1 L2 R -> r_id r ∉ r_id <$> L1 ++ L2 ++ R -> req_at m r -> req_ok r ->
  wp (lwp_queue_appendI q1 (r_id r)) (fun _ m' => mrel q1 q2 m' (L1 ++ [r]) L2 R) m.
Proof.
  intros HL H Hni Hat Hok. destruct H as [H1 H2 H3 H4 H5].
  assert (H' : mrel q1 q2 m L1 L2 (r :: R)).
  { assert (E : L1 ++ L2 ++ r :: R ≡ₚ r :: L1 ++ L2 ++ R) by solve_Permutation. split; try done.
    - intros x. rewrite E, elem_of_cons. intros [->|Hx]; [done|by apply H3].
    - rewrite E. simpl. by apply NoDup_cons. }
  assert (Hf : fresh_node m q1 (r_id <$> L1) (r_id r)).
  { split_and!; [replace (node_next (r_id r)) with (r_id r + 0) by (unfold node_next; lia)|
      replace (node_prev (r_id r)) with (r_id r + 4) by (unfold node_prev; lia)|]; [by apply H5; [apply Hok|]..|].
    intros x. unfold nodes, lwp_queue_head, lwp_queue_tail. rewrite elem_of_cons, elem_of_app, list_elem_of_singleton.
    pose proof (lay_req _ _ HL (r_id r) q1 (proj1 Hok) (or_introl eq_refl)) as Hd. intros [->|[Hx| ->] ]; [lia| |lia].
    assert (Hx' := Hx). apply list_elem_of_fmap in Hx' as [y [-> Hy] ].
    destruct (lay_sep _ _ HL (r_id r) (r_id y)) as [E|?]; [apply Hok|apply H3; set_solver| |lia].
    destruct Hni. rewrite E, fmap_app, elem_of_app. by left. }
  eapply wp_mono; [apply (appendI_spec m q1 _ _ H1 Hf)|]. intros _ m' [Hq Hag].
  eapply mrel_queue; [done|exact H'| | |]; [solve_Permutation|by rewrite fmap_app..].
Qed.
End Mem.

(** ** The simulation *)

Ltac astep :=
  lazymatch goal with
  | |- wp (bind _ _) _ _ => apply wp_bind
  | |- wp (ret _) _ _ => apply wp_ret
  | |- wp (gets _) _ _ => apply wp_gets
  | |- wp (modify _) _ _ => apply wp_modify
  | |- wp (AR_StartDMA _ _ _ _) _ _ => apply wp_modify
  end.
Tactic Notation "asimpl" :=
  cbn [a_mem ARQChunkSize ARQInitFlag ARQReqPendingLo ARQReqPendingHi ARQCallbackLo ARQCallbackHi a_events
    set_mem set_chunk set_init set_pendLo set_pendHi set_cbLo set_cbHi emit
    sp_hi sp_lo sp_phi sp_plo sp_last sp_log option_list app].

Section Sim.
Context (qLo qHi dummy sync : Z) (user : Z -> Z -> M arq unit) (P : list Z) (c : Z).
Context (HL : layout P qHi qLo) (Hdummy : dummy <> NULL) (Hc : 0 < c).
(** The callbacks of the program do not call back into the queue. *)
Context (Huser : forall cb req s, user cb req s = Ok (tt, s)).

Definition oid (o : option areq) : Z := match o with Some r => r_id r | None => NULL end.
Definition ocb (o : option areq) : Z := match o with Some r => r_cb r | None => NULL end.

Definition pending (st : aspec) : list areq := option_list (sp_phi st) ++ option_list (sp_plo st).

(** The variables and the memory of [s] represent [st]. *)
Record arel (s : arq) (st : aspec) : Prop := {
  ar_mem : mrel P qHi qLo (a_mem s) (sp_hi st) (sp_lo st) (pending st);
  ar_phi : ARQReqPendingHi s = oid (sp_phi st);
  ar_cbhi : ARQCallbackHi s = ocb (sp_phi st);
  ar_plo : ARQReqPendingLo s = oid (sp_plo st);
  ar_cblo : ARQCallbackLo s = if sp_last st then ocb (sp_plo st) else NULL;
  ar_chunk : ARQChunkSize s = c;
  ar_events : a_events s = erase <$> sp_log st;
}.

Lemma req_null r : req_ok P r -> r_id r <> NULL.
Proof. intros (H & _) E. apply (lay_null _ _ _ HL). by rewrite <- E. Qed.

Lemma arel_req s st r : arel s st -> r ∈ pending st -> req_at (a_mem s) r /\ req_ok P r.
Proof. intros H Hr. apply (mr_at _ _ _ _ _ _ _ (ar_mem _ _ H)). unfold pending in Hr. set_solver. Qed.

Lemma field_mapped s st r k : arel s st -> r ∈ P -> word_off k -> is_Some (a_mem s !! (r + k)).
Proof. intros H. apply (mr_mapped _ _ _ _ _ _ _ (ar_mem _ _ H)). Qed.

(** The state field is written; the rest of the memory relation stays. *)
Lemma arel_state s st r v :
  arel s st -> r ∈ P -> arel (set_mem (<[r + f_state := v]> (a_mem s)) s) st.
Proof. intros [] Hr. split; try done. by apply write_state. Qed.

Lemma pop_sim s st :
  arel s st -> sp_phi st = None ->
  wp (ARQPopTaskQueueHi qHi) (fun _ s' => arel s' (spec_pop_hi st)) s.
Proof.
  intros H Hphi. unfold ARQPopTaskQueueHi, spec_pop_hi. astep. apply wp_onmem.
  assert (Hm := ar_mem _ _ H). destruct (sp_hi st) as [|r h] eqn:Eh.
  - eapply wp_mono; [by eapply get_nil|]. intros x m' [-> ->]. rewrite Z.eqb_refl. astep. by rewrite set_mem_id.
  - eapply wp_mono; [by eapply get_cons|]. intros x m' [-> Hm'].
    assert (Hr : r ∈ h ++ sp_lo st ++ r :: pending st) by set_solver.
    destruct (mr_at _ _ _ _ _ _ _ Hm' r Hr) as [_ Hok]. pose proof (req_null r Hok) as Hn.
    destruct (Z.eqb_spec (r_id r) NULL); [done|]. astep.
    assert (Hst : is_Some (m' !! (r_id r + f_state))) by (apply (mr_mapped _ _ _ _ _ _ _ Hm'); [apply Hok|done]).
    apply wp_wr_f; [done|]. asimpl. set (m2 := <[_ := _]> m').
    assert (Hm2 : mrel P qHi qLo m2 h (sp_lo st) (r :: pending st)) by (apply write_state; [done..|apply Hok]).
    destruct (mr_at _ _ _ _ _ _ _ Hm2 r Hr) as [(A1 & A2 & A3 & A4 & A5) _].
    do 4 (astep; eapply wp_rd_f; [asimpl; eassumption|]). astep. astep. astep. eapply wp_rd_f; [asimpl; eassumption|].
    astep. astep. astep. destruct H. split; asimpl; try done.
    + unfold pending in *. asimpl. by rewrite Hphi in Hm2.
    + by rewrite fmap_app, ar_events0.
Qed.

(** The pending request [r] of low priority is sent, whole or in part. *)
Lemma send_sim s hi lo log r :
  arel s (mk_aspec hi lo None (Some r) false log) ->
  wp (req <- gets ARQReqPendingLo;
      if req =? NULL then ret tt else
      wr_f req f_state ARQ_TASK_RUNNING;;
      len <- rd_f req f_len;
      chunk <- gets ARQChunkSize;
      dir <- rd_f req f_dir; mram <- rd_f req f_mram; aram <- rd_f req f_aram;
      if len <=? chunk then
        AR_StartDMA dir mram aram len;;
        cb <- rd_f req f_callback;
        modify (set_cbLo cb)
      else
        AR_StartDMA dir mram aram chunk;;
        wr_f req f_len (u32 (len - chunk));;
        wr_f req f_aram (u32 (aram + chunk));;
        wr_f req f_mram (u32 (mram + chunk)))
    (fun _ s' => arel s' (spec_send c r lo (mk_aspec hi lo None (Some r) false log))) s.
Proof.
  intros H. assert (Hr : r ∈ pending (mk_aspec hi lo None (Some r) false log)) by by left.
  destruct (arel_req _ _ r H Hr) as [_ Hok]. astep. astep. rewrite (ar_plo _ _ H). simpl oid.
  destruct (Z.eqb_spec (r_id r) NULL) as [E|_]; [by destruct (req_null r Hok)|].
  astep. apply wp_wr_f; [eapply field_mapped; [done|apply Hok|done]|].
  assert (H2 := arel_state s _ (r_id r) ARQ_TASK_RUNNING H (proj1 Hok)). set (s2 := set_mem _ s) in *.
  destruct (arel_req _ _ r H2 Hr) as [(A1 & A2 & A3 & A4 & A5) _].
  astep. eapply wp_rd_f; [eassumption|]. astep. astep. rewrite (ar_chunk _ _ H2).
  do 3 (astep; eapply wp_rd_f; [eassumption|]). unfold spec_send. asimpl. destruct (Z.leb_spec (r_len r) c).
  - do 3 astep. eapply wp_rd_f; [eassumption|]. astep. destruct H2. split; asimpl; try done. by rewrite fmap_app, ar_events0.
  - do 3 astep. set (s3 := emit _ s2). assert (Hmap := fun k => field_mapped s2 _ (r_id r) k H2 (proj1 Hok)).
    apply wp_wr_f; [apply Hmap; done|]. astep. apply wp_wr_f; [asimpl; apply lookup_insert_is_Some'; right; apply Hmap; done|].
    apply wp_wr_f; [asimpl; apply lookup_insert_is_Some'; right; apply lookup_insert_is_Some'; right; apply Hmap; done|].
    assert (Hmm := write_advance P qHi qLo (a_mem s2) hi lo [] r c HL (ar_mem _ _ H2) ltac:(lia)).
    unfold s3. destruct H2. split; asimpl; try done. by rewrite fmap_app, ar_events0.
Qed.

Lemma service_sim s st :
  arel s st -> sp_phi st = None -> sp_last st = false ->
  wp (ARQServiceQueueLo qLo) (fun _ s' => arel s' (spec_service_lo c st)) s.
Proof.
  intros H Hphi Hlast. unfold ARQServiceQueueLo. astep. astep. rewrite (ar_plo _ _ H).
  destruct st as [hi lo phi plo last log]. simpl in *. subst phi last. unfold spec_service_lo. asimpl.
  destruct plo as [r|]; simpl oid.
  - destruct (arel_req _ _ r H) as [_ Hok]; [by left|].
    destruct (Z.eqb_spec (r_id r) NULL) as [E|_]; [by destruct (req_null r Hok)|].
    cbn [when]. astep. astep. by apply send_sim.
  - rewrite Z.eqb_refl. cbn [when]. astep. astep. apply wp_onmem.
    assert (Hm := mrel_sym _ _ _ _ _ _ _ (ar_mem _ _ H)). assert (HL' := layout_sym _ _ _ HL). simpl in Hm.
    destruct lo as [|r lo].
    + eapply wp_mono; [by eapply get_nil|]. intros x m' [-> ->]. do 3 astep. asimpl. rewrite Z.eqb_refl. astep.
      destruct H. by split.
    + eapply wp_mono; [by eapply get_cons|]. intros x m' [-> Hm']. astep.
      change (spec_send c r lo (mk_aspec hi (r :: lo) None None false log))
        with (spec_send c r lo (mk_aspec hi lo None (Some r) false log)).
      apply send_sim. destruct H. split; asimpl; try done. by apply mrel_sym.
Qed.

(** Starting the next transfer, after an interrupt and after a post. *)
Lemma start_sim s st :
  arel s st -> sp_phi st = None -> sp_last st = false ->
  wp (ARQPopTaskQueueHi qHi;;
      p <- gets ARQReqPendingHi;
      if p =? NULL then ARQServiceQueueLo qLo else ret tt) (fun _ s' => arel s' (spec_start c st)) s.
Proof.
  intros H Hphi Hlast. astep. eapply wp_mono; [by apply pop_sim|]. cbv beta. intros _ s1 H1. astep. astep.
  rewrite (ar_phi _ _ H1). unfold spec_start. destruct (sp_phi (spec_pop_hi st)) as [r|] eqn:E; simpl oid.
  - destruct (arel_req _ _ r H1) as [_ Hok]; [unfold pending; rewrite E; by left|].
    destruct (Z.eqb_spec (r_id r) NULL) as [E'|_]; [by destruct (req_null r Hok)|]. by astep.
  - rewrite Z.eqb_refl. apply service_sim; try done. unfold spec_pop_hi. by case_match.
Qed.

Lemma wp_call_back cb req Q s : Q tt (emit (EvCall cb req) s) -> wp (call_back dummy sync user cb req) Q s.
Proof.
  intros HQ. unfold call_back. astep. astep. case_match; [by astep|]. unfold wp. by rewrite Huser.
Qed.

(** The end of the transfer in flight. *)
Lemma finish_sim s st :
  arel s st -> spec_wf st ->
  wp (hi <- gets ARQCallbackHi;
      lo <- gets ARQCallbackLo;
      if negb (hi =? NULL) then
        req <- gets ARQReqPendingHi;
        wr_f req f_state ARQ_TASK_FINISHED;;
        call_back dummy sync user hi req;;
        modify (set_pendHi NULL);;
        modify (set_cbHi NULL)
      else if negb (lo =? NULL) then
        req <- gets ARQReqPendingLo;
        wr_f req f_state ARQ_TASK_FINISHED;;
        call_back dummy sync user lo req;;
        modify (set_pendLo NULL);;
        modify (set_cbLo NULL)
      else ret tt) (fun _ s' => arel s' (spec_finish st)) s.
Proof.
  intros H [Hwf _]. do 4 astep. rewrite (ar_cbhi _ _ H), (ar_cblo _ _ H).
  destruct st as [hi lo phi plo last log]. unfold spec_finish. asimpl. simpl in Hwf.
  assert (Hdone : forall r R, r ∈ pending (mk_aspec hi lo phi plo last log) ->
    pending (mk_aspec hi lo phi plo last log) ≡ₚ r :: R ->
    is_Some (a_mem s !! (r_id r + f_state)) /\ r_cb r <> NULL /\
    mrel P qHi qLo (<[r_id r + f_state := ARQ_TASK_FINISHED]> (a_mem s)) hi lo R).
  { intros r R Hr Hp. destruct (arel_req _ _ r H Hr) as [_ Hok]. split_and!; [|apply Hok|].
    - eapply field_mapped; [done|apply Hok|done].
    - apply (mrel_sub P qHi qLo _ hi lo r), (mrel_perm P qHi qLo _ hi lo (pending (mk_aspec hi lo phi plo last log)));
        [by symmetry|]. apply write_state; [done|apply H|apply Hok]. }
  destruct phi as [r|]; simpl ocb.
  - destruct (Hdone r (option_list plo)) as (D1 & D2 & D3); [by left|done|].
    destruct (Z.eqb_spec (r_cb r) NULL); [done|]. cbn [negb]. astep. astep. rewrite (ar_phi _ _ H). simpl oid. astep.
    apply wp_wr_f; [done|]. astep. apply wp_call_back. do 3 astep. destruct H. split; asimpl; try done.
    by rewrite fmap_app, ar_events0.
  - rewrite Z.eqb_refl. cbn [negb]. destruct last.
    + destruct plo as [r|]; [|by destruct (Hwf eq_refl)]. simpl ocb.
      destruct (Hdone r []) as (D1 & D2 & D3); [by left|done|].
      destruct (Z.eqb_spec (r_cb r) NULL); [done|]. cbn [negb]. astep. astep. rewrite (ar_plo _ _ H). simpl oid. astep.
      apply wp_wr_f; [done|]. astep. apply wp_call_back. do 3 astep. destruct H. split; asimpl; try done.
      by rewrite fmap_app, ar_events0.
    + rewrite Z.eqb_refl. cbn [negb]. by astep.
Qed.

Lemma isr_sim s st :
  arel s st -> spec_wf st ->
  wp (ARInterruptServiceRoutine qLo qHi dummy sync user) (fun _ s' => arel s' (spec_isr c st)) s.
Proof.
  intros H Hwf. destruct (finish_phi st Hwf) as [H1 H2]. unfold ARInterruptServiceRoutine.
  pose proof (finish_sim s st H Hwf) as Hf. unfold wp, bind in Hf |- *. simpl in Hf |- *.
  destruct (if negb (ARQCallbackHi s =? NULL) then _ else _) as [ [ [] s1]|] eqn:E in Hf; [|done].
  rewrite E. exact (start_sim s1 _ Hf H1 H2).
Qed.
(** A field of a request object that is not in use is written. *)
Lemma arel_field s st r k v Q :
  arel s st -> r ∈ P -> r ∉ r_id <$> open st -> word_off k -> 8 <= k ->
  (forall s', arel s' st -> s' = set_mem (<[r + k := v]> (a_mem s)) s -> Q tt s') -> wp (wr_f r k v) Q s.
Proof.
  intros H Hr Hn Hk Hk8 HQ. apply wp_wr_f; [by eapply field_mapped|]. apply HQ; [|done]. destruct H. split; try done.
  asimpl. apply write_field; try done. intros x Hx <-. destruct Hn. apply list_elem_of_fmap_2.
  unfold open, pending in *. done.
Qed.

Lemma fill_request_sim s st r owner prio cb :
  arel s st -> r_id r ∈ P -> r_id r ∉ r_id <$> open st -> r_cb r = (if cb =? NULL then dummy else cb) ->
  wp (fill_request dummy (r_id r) owner (r_dir r) prio (r_aram r) (r_mram r) (r_len r) cb)
    (fun _ s' => arel s' st /\ req_at (a_mem s') r) s.
Proof.
  intros H Hr Hn Hcb. unfold fill_request. rewrite <- Hcb.
  do 7 (astep; eapply arel_field; [eassumption|done|done|done|done|]; intros ? ? ->).
  eapply arel_field; [eassumption|done|done|done|done|]. intros ? ? ->. split; [done|].
  unfold req_at, f_state, f_dir, f_owner, f_aram, f_mram, f_len, f_prio, f_callback. asimpl.
  split_and!; by simplify_map_eq by lia.
Qed.

Lemma enqueue_sim s st r prio :
  arel s st -> r_id r ∉ r_id <$> open st -> req_at (a_mem s) r -> req_ok P r ->
  wp (if prio =? ARQ_PRIO_LO then onmem (lwp_queue_appendI qLo (r_id r)) else onmem (lwp_queue_appendI qHi (r_id r)))
    (fun _ s' => arel s' (spec_enqueue (negb (prio =? ARQ_PRIO_LO)) r st)) s.
Proof.
  intros H Hn Hat Hok. assert (Hm := ar_mem _ _ H). unfold open in Hn.
  destruct (prio =? ARQ_PRIO_LO); cbn [negb spec_enqueue]; apply wp_onmem.
  - apply mrel_sym in Hm. eapply wp_mono; [apply (append_spec P qLo qHi); try done; [by apply layout_sym|]|].
    + assert (E : sp_lo st ++ sp_hi st ++ pending st ≡ₚ sp_hi st ++ sp_lo st ++ pending st) by solve_Permutation.
      by rewrite E.
    + cbv beta. intros _ m' Hm'. destruct H. split; try done. by apply mrel_sym.
  - eapply wp_mono; [by apply (append_spec P qHi qLo)|]. cbv beta. intros _ m' Hm'. destruct H. by split.
Qed.

Lemma post_sim s st r owner prio cb :
  arel s st -> spec_wf st -> req_ok P r -> r_id r ∉ r_id <$> open st -> r_cb r = (if cb =? NULL then dummy else cb) ->
  wp (ARQ_PostRequestAsync qLo qHi dummy (r_id r) owner (r_dir r) prio (r_aram r) (r_mram r) (r_len r) cb)
    (fun _ s' => arel s' (spec_post c (negb (prio =? ARQ_PRIO_LO)) r st)) s.
Proof.
  intros H Hwf Hok Hn Hcb. unfold ARQ_PostRequestAsync. astep.
  eapply wp_mono; [apply (fill_request_sim s st r); try done; apply Hok|]. cbv beta. intros _ s1 [H1 Hat]. astep.
  eapply wp_mono; [by apply enqueue_sim|]. cbv beta. set (e := spec_enqueue _ r st). intros _ s2 H2. do 4 astep.
  rewrite (ar_plo _ _ H2), (ar_phi _ _ H2). unfold spec_post. fold e.
  assert (Hreq : forall x, x ∈ pending e -> r_id x =? NULL = false).
  { intros x Hx. apply Z.eqb_neq, req_null. by eapply arel_req. }
  destruct (sp_plo e) as [x|] eqn:E1, (sp_phi e) as [y|] eqn:E2; simpl oid;
    rewrite ?Hreq, ?Z.eqb_refl by (unfold pending; rewrite E1, E2; set_solver); cbn [andb]; try by astep.
  apply start_sim; try done. destruct Hwf as [Hwf _]. unfold e in *. destruct (negb _); simpl in *;
    destruct (sp_last st); try done; destruct (Hwf eq_refl); congruence.
Qed.
End Sim.
