(* ===== verification/ArqTheorems.v ===== *)
(** * ARAM transfers: theorems

    Every request that is posted is transferred completely and exactly once,
    whatever the order of posts and interrupts, and two cases in which the code
    that removes requests fails. *)

From stdpp Require Import base gmap list fin_maps.
From Stdlib Require Import ZArith Lia.
From S2P Require Import Prelude Chain LwpQueue Arq ArqSpec ArqProofs.

Open Scope Z_scope.

Section Runs.
Context (qLo qHi dummy sync : Z) (user : Z -> Z -> M arq unit) (P : list Z).

(** The calls a run makes; a request of high priority has priority 1. *)
Definition arq_step (op : aop) : M arq unit :=
  match op with
  | APost hi r => ARQ_PostRequestAsync qLo qHi dummy (r_id r) 0 (r_dir r) (if hi then ARQ_PRIO_HI else ARQ_PRIO_LO)
                    (r_aram r) (r_mram r) (r_len r) (r_cb r)
  | AIrq => ARInterruptServiceRoutine qLo qHi dummy sync user
  end.
Fixpoint arq_run (ops : list aop) : M arq unit :=
  match ops with [] => ret tt | op :: r => arq_step op;; arq_run r end.

(** A request object is not posted again before it was served. *)
Fixpoint admissible (c : Z) (h : aspec * list (bool * areq)) (ops : list aop) : Prop :=
  match ops with
  | [] => True
  | op :: r =>
      match op with
      | APost _ q => req_ok P q /\ r_id q ∉ r_id <$> open h.1
      | AIrq => True
      end /\ admissible c (spec_step c h op) r
  end.

Context (HL : layout P qHi qLo) (Hdummy : dummy <> NULL).
Context (Huser : forall cb req s, user cb req s = Ok (tt, s)).

Lemma run_sim c ops s h :
  0 < c -> arel qLo qHi P c s h.1 -> spec_wf h.1 -> admissible c h ops ->
  wp (arq_run ops) (fun _ s' => arel qLo qHi P c s' (foldl (spec_step c) h ops).1) s.
Proof.
  intros Hc. revert s h. induction ops as [|op ops IH]; intros s h H Hwf Had; simpl; [by apply wp_ret|].
  destruct Had as [Hop Had]. apply wp_bind.
  assert (Hstep : wp (arq_step op) (fun _ s' => arel qLo qHi P c s' (spec_step c h op).1) s /\ spec_wf (spec_step c h op).1).
  { destruct op as [hi r|]; simpl.
    - destruct Hop as [Hok Hn]. split; [|by apply post_wf]. set (r' := retag (length h.2) r).
      pose proof (post_sim qLo qHi dummy user P c HL Hdummy Hc Huser s h.1 r' 0 (if hi then ARQ_PRIO_HI else ARQ_PRIO_LO) (r_cb r) H Hwf Hok Hn) as Hp.
      assert (E : r_cb r' = (if r_cb r =? NULL then dummy else r_cb r)).
      { destruct (Z.eqb_spec (r_cb r) NULL); [|done]. by destruct Hok as (_ & ? & _). }
      specialize (Hp E). replace (negb ((if hi then ARQ_PRIO_HI else ARQ_PRIO_LO) =? ARQ_PRIO_LO)) with hi in Hp by by destruct hi.
      exact Hp.
    - split; [by apply (isr_sim qLo qHi dummy sync user P c HL Hdummy Hc Huser)|by apply isr_wf]. }
  destruct Hstep as [Hs Hw]. eapply wp_mono; [exact Hs|]. cbv beta. intros _ s1 H1. by apply IH.
Qed.

(** ** Initialisation *)

Definition chunk_of (size : Z) : Z := Z.ldiff (size + 31) 31.

Lemma chunk_pos size : 0 < size -> 0 < chunk_of size.
Proof.
  intros H. unfold chunk_of. change 31 with (Z.ones 5) at 2. rewrite Z.ldiff_ones_r, Z.shiftl_mul_pow2, Z.shiftr_div_pow2 by lia.
  change (2 ^ 5) with 32. assert (0 < (size + 31) / 32) by (apply Z.div_str_pos; lia). lia.
Qed.

(** Memory with room for the two queues and the requests. *)
Definition has_room (m : mem) : Prop :=
  (forall q, q = qLo \/ q = qHi -> is_Some (m !! q_first q) /\ is_Some (m !! q_perm_null q) /\ is_Some (m !! q_last q)) /\
  forall r k, r ∈ P -> word_off k -> is_Some (m !! (r + k)).

Lemma init_sim s size :
  has_room (a_mem s) -> ARQInitFlag s = 0 -> a_events s = [] -> 0 < size -> size + 31 < 2 ^ 32 ->
  wp (ARQ_Init qLo qHi;; ARQ_SetChunkSize size) (fun _ s' => arel qLo qHi P (chunk_of size) s' spec_init) s.
Proof.
  intros [Hq Hr] Hi He H1 H2. destruct (Hq qLo) as (A1 & A2 & A3); [auto|]. destruct (Hq qHi) as (B1 & B2 & B3); [auto|].
  assert (Hlay := lay_q _ _ _ HL).
  assert (Hfoot : forall q w, footprint q [] w -> q <= w < q + 12).
  { intros q w [?|(r & Hr' & _)]%footprint_words; [done|]. by apply not_elem_of_nil in Hr'. }
  unfold ARQ_Init, ARQ_SetChunkSize. astep. astep. astep. rewrite Hi. cbn [Z.eqb negb].
  do 11 astep. apply wp_onmem. eapply wp_mono; [apply init_empty_spec; done|]. intros _ m1 [Q1 G1]. astep.
  apply wp_onmem. asimpl.
  assert (Hout : forall w, qHi <= w < qHi + 12 \/ (exists r k, r ∈ P /\ word_off k /\ w = r + k) -> m1 !! w = a_mem s !! w).
  { intros w Hw. apply G1. intros Hf%Hfoot. destruct Hw as [Hw|(r & k & Hr' & [Hk _] & ->)]; [lia|].
    destruct (lay_req _ _ _ HL r qLo); auto; lia. }
  eapply wp_mono; [apply init_empty_spec; rewrite Hout by (left; unfold q_first, q_perm_null, q_last; lia); done|].
  intros _ m2 [Q2 G2]. do 2 astep. split; asimpl; try done; [split; simpl|..].
  - done.
  - apply (queue_repr_frame m1); [|done]. intros w Hw%Hfoot. apply G2. intros Hf%Hfoot. lia.
  - intros r Hr'. by apply not_elem_of_nil in Hr'.
  - constructor.
  - intros r k Hr' Hk. rewrite G2; [rewrite Hout by eauto 10; by apply Hr|]. intros Hf%Hfoot. destruct Hk.
    destruct (lay_req _ _ _ HL r qHi); auto; lia.
  - unfold chunk_of. by rewrite wrap_small by lia.
Qed.
(** ** All requests are served *)

Definition posts (ops : list aop) : list (bool * areq) :=
  omap (fun op => match op with APost hi r => Some (hi, r) | AIrq => None end) ops.

Lemma run_posts c ops h i hi r :
  posts ops !! i = Some (hi, r) ->
  (foldl (spec_step c) h ops).2 !! (length h.2 + i)%nat = Some (hi, retag (length h.2 + i) r).
Proof.
  assert (Hkeep : forall ops h j p, h.2 !! j = Some p -> (foldl (spec_step c) h ops).2 !! j = Some p).
  { clear. induction ops as [|op ops IH]; intros h j p Hj; [done|]. simpl. apply IH. destruct op; simpl; [|done].
    by apply lookup_app_l_Some. }
  revert h i. induction ops as [|op ops IH]; intros h i; [done|]. destruct op as [hi' r'|]; simpl; [|apply (IH (spec_step c h AIrq))].
  destruct i as [|i]; simpl.
  - intros [= -> ->]. rewrite Nat.add_0_r. apply Hkeep. simpl. by apply list_lookup_middle.
  - intros Hi. apply (IH (spec_step c h (APost hi' r'))) in Hi. simpl in Hi. rewrite length_app in Hi. simpl in Hi.
    by replace (length h.2 + S i)%nat with (length h.2 + 1 + i)%nat by lia.
Qed.

Lemma irqs_isrs c n h : foldl (spec_step c) h (replicate n AIrq) = (isrs n c h.1, h.2).
Proof. revert h. induction n as [|n IH]; intros h; [by destruct h|]. simpl. by rewrite IH. Qed.

Lemma admissible_irqs c ops n h : admissible c h ops -> admissible c h (ops ++ replicate n AIrq).
Proof.
  revert h. induction ops as [|op ops IH]; intros h; simpl.
  - intros _. revert h. induction n as [|n IH]; intros h; simpl; auto.
  - intros [H1 H2]. auto.
Qed.

Lemma admissible_ok c ops h i hi r : admissible c h ops -> posts ops !! i = Some (hi, r) -> req_ok P r.
Proof.
  revert h i. induction ops as [|op ops IH]; intros h i; [done|]. destruct op as [hi' r'|]; simpl; intros [H1 H2].
  - destruct i as [|i]; simpl; [intros [= -> ->]; tauto|]. by eapply IH.
  - by eapply IH.
Qed.

(** C17. Every request is served: whatever the order in which requests of either
    priority are posted and transfers end, after as many interrupts as there are
    transfers left nothing is pending, and for each request exactly its bytes
    were copied, each once and in order, in parts of at most the chunk size if
    its priority is low, and its callback was invoked exactly once. *)
Theorem arq_serves_all s size ops :
  has_room (a_mem s) -> ARQInitFlag s = 0 -> a_events s = [] -> 0 < size -> size + 31 < 2 ^ 32 ->
  let c := chunk_of size in
  admissible c (spec_init, []) ops ->
  let n := work c (spec_run c ops).1 in
  wp ((ARQ_Init qLo qHi;; ARQ_SetChunkSize size);; arq_run (ops ++ replicate n AIrq))
    (fun _ s' => ARQReqPendingHi s' = NULL /\ ARQReqPendingLo s' = NULL /\
       exists log, a_events s' = erase <$> log /\
         forall i hi r, posts ops !! i = Some (hi, r) ->
           mjoin (bytes <$> sent i log) = bytes (r_mram r, r_aram r, r_len r) /\
           called i log = [r_cb r] /\ (hi = false -> Forall (fun p => p.2 <= c) (sent i log))) s.
Proof.
  intros Hm Hi He H1 H2 c Had n. assert (Hc : 0 < c) by by apply chunk_pos. astep.
  eapply wp_mono; [by apply init_sim|]. cbv beta. intros _ s0 H0. fold c in H0.
  eapply wp_mono; [apply (run_sim c _ s0 (spec_init, []) Hc H0); [by split|by apply admissible_irqs]|]. cbv beta.
  intros _ s' H. rewrite foldl_app, irqs_isrs in H. fold (spec_run c ops) in H. simpl in H.
  assert (Hac := run_accounted c (ops ++ replicate n AIrq) Hc). unfold spec_run in Hac at 1.
  rewrite foldl_app, irqs_isrs in Hac. fold (spec_run c ops) in Hac.
  assert (Hid : idle_spec (isrs n c (spec_run c ops).1)).
  { apply drain; [done|]. apply (ac_wf _ _ (run_accounted c ops Hc)). }
  destruct Hid as [I1 I2]. split; [by rewrite (ar_phi _ _ _ _ _ _ H), I1|]. split; [by rewrite (ar_plo _ _ _ _ _ _ H), I2|].
  eexists. split; [apply (ar_events _ _ _ _ _ _ H)|]. intros i hi r Hr. assert (Hl : 0 <= r_len r) by (by apply (admissible_ok c ops (spec_init, []) i hi r)).
  apply (run_posts c ops (spec_init, []) i) in Hr. simpl in Hr. fold (spec_run c ops) in Hr.
  destruct (idle_served c _ i _ Hac (conj I1 I2) Hr) as [E1 E2]. simpl in E1, E2. rewrite E1, E2.
  split_and!; [by apply (quota_bytes c (hi, retag i r))|done|]. intros ->. unfold quota. simpl.
  eapply Forall_impl; [by apply parts_small|]. simpl. lia.
Qed.
End Runs.

(** ** A run *)

(** The queues at 100 and 120, two requests at 200 and 240. *)
Definition arq_mem : mem := zero_words 3 100 ∪ zero_words 3 120 ∪ zero_words 20 200.
Definition arq_start : arq := mk_arq arq_mem 0 0 0 0 0 0 [].
Definition demo_lo : areq := mk_areq 0 200 0 0x4000 0x1000 100 7.
Definition demo_hi : areq := mk_areq 0 240 1 0x8000 0x2000 64 8.
(** 100 bytes in chunks of 32; the other request comes in between. *)
Definition arq_demo : list aop := [APost false demo_lo; AIrq; APost true demo_hi].
Definition no_user : Z -> Z -> M arq unit := fun _ _ => ret tt.

Lemma demo_layout : layout [200; 240] 120 100.
Proof.
  assert (Hin : forall r, r ∈ [200; 240] -> r = 200 \/ r = 240) by (intros r; set_solver).
  split; [lia|..].
  - intros r q Hr Hq. apply Hin in Hr. lia.
  - intros r r' Hr Hr'. apply Hin in Hr, Hr'. lia.
  - intros Hr%Hin. unfold NULL in Hr. lia.
Qed.

Lemma demo_room : has_room 100 120 [200; 240] (a_mem arq_start).
Proof.
  split.
  - intros q [-> | ->]; (split_and!; eexists; vm_compute; reflexivity).
  - intros r k Hr [Hk Hm]. assert (Hj : k ∈ [0; 4; 8; 12; 16; 20; 24; 28; 32; 36]).
    { assert (k = 4 * (k / 4)) as -> by (rewrite (Z.div_mod k 4) at 1 by lia; lia).
      assert (0 <= k / 4 < 10) as Hj by (split; [apply Z.div_pos|apply Z.div_lt_upper_bound]; lia).
      remember (k / 4) as j. clear -Hj.
      assert (j = 0 \/ j = 1 \/ j = 2 \/ j = 3 \/ j = 4 \/ j = 5 \/ j = 6 \/ j = 7 \/ j = 8 \/ j = 9) as Hc by lia.
      destruct_or! Hc; subst; set_solver. }
    assert (r = 200 \/ r = 240) as [-> | ->] by set_solver;
      (set_unfold in Hj; destruct_or! Hj; subst; try done; eexists; vm_compute; reflexivity).
Qed.

Lemma demo_admissible : admissible [200; 240] (chunk_of 20) (spec_init, []) arq_demo.
Proof.
  cbn [admissible arq_demo]. split; [split|split; [done|split; [split|done] ] ].
  - unfold req_ok, NULL. simpl. split_and!; try done. by left.
  - simpl. apply not_elem_of_nil.
  - unfold req_ok, NULL. simpl. split_and!; try done. by right; left.
  - match goal with |- ?G => refine (proj1 (bool_decide_eq_true G) _) end. vm_compute. reflexivity.
Qed.

Lemma arq_serves_all_witness :
  wp ((ARQ_Init 100 120;; ARQ_SetChunkSize 20);; arq_run 100 120 1 2 no_user (arq_demo ++ replicate 4 AIrq))
    (fun _ s' => ARQReqPendingHi s' = NULL /\ ARQReqPendingLo s' = NULL /\
       exists log, a_events s' = erase <$> log /\
         forall i hi r, posts arq_demo !! i = Some (hi, r) ->
           mjoin (bytes <$> sent i log) = bytes (r_mram r, r_aram r, r_len r) /\
           called i log = [r_cb r] /\ (hi = false -> Forall (fun p => p.2 <= 32) (sent i log))) arq_start.
Proof.
  refine (arq_serves_all 100 120 1 2 no_user [200; 240] demo_layout _ _ arq_start 20 arq_demo demo_room _ _ _ _
    demo_admissible); done.
Defined.

Definition out_arq {A} (c : M arq A) (s : arq) : arq := match c s with Ok (_, s') => s' | Fault _ => s end.

(** The events of that run. *)
Lemma arq_demo_events :
  a_events (out_arq ((ARQ_Init 100 120;; ARQ_SetChunkSize 20);; arq_run 100 120 1 2 no_user (arq_demo ++ replicate 4 AIrq)) arq_start) =
  [EvDma 0 0x1000 0x4000 32; EvDma 0 0x1020 0x4020 32; EvDma 1 0x2000 0x8000 64; EvCall 8 240;
   EvDma 0 0x1040 0x4040 32; EvDma 0 0x1060 0x4060 4; EvCall 7 200].
Proof. by vm_compute. Qed.

(** ** Removing requests *)

Definition arq_cmds (l : list (M arq unit)) : arq := out_arq (fold_right (fun c r => c;; r) (ret tt) l) arq_start.
Definition post_lo (req owner : Z) : M arq unit := ARQ_PostRequestAsync 100 120 1 req owner 0 ARQ_PRIO_LO 0x4000 0x1000 100 7.
Definition irq : M arq unit := ARInterruptServiceRoutine 100 120 1 2 no_user.

(** The request at 200 is in flight in chunks of 32 bytes, the one at 240 waits;
    [ARQ_RemoveRequest] on the first one, which is in no queue any more, unlinks
    it through its old links and empties the queue: the second request is lost. *)
Lemma remove_pending_loses_queue :
  let s := arq_cmds [ARQ_Init 100 120; ARQ_SetChunkSize 32; post_lo 200 5; post_lo 240 6; ARQ_RemoveRequest 200; irq; irq; irq] in
  a_events s = [EvDma 0 0x1000 0x4000 32] /\ ARQReqPendingLo s = NULL /\ a_mem s !! (240 + f_state) = Some ARQ_TASK_READY /\
  lwp_queue_isempty 100 (a_mem s) = Ok (true, a_mem s).
Proof. by vm_compute. Qed.

(** [ARQ_RemoveOwnerRequest] compares the pending request with the end of the
    queue instead of with the requests of the owner: the pending request of the
    owner is not removed. *)
Lemma remove_owner_keeps_pending :
  let s := arq_cmds [ARQ_Init 100 120; ARQ_SetChunkSize 32; post_lo 200 5;
    n <- ARQ_RemoveOwnerRequest 100 120 10 5; ret tt; irq] in
  ARQReqPendingLo s = 200 /\ a_events s = [EvDma 0 0x1000 0x4000 32; EvDma 0 0x1020 0x4020 32].
Proof. by vm_compute. Qed.
