(* ===== verification/KTickProofs.v ===== *)
(** * Timed tasks: proofs

    The list of tasks refines a list sorted by target time in the wrap-around
    order of the 64-bit time base. Times are compared through unbounded values
    [v]: the target of a task is [v] modulo 2^64, and the targets of all waiting
    tasks lie within half the range of the counter. *)

From stdpp Require Import base gmap list fin_maps.
From Stdlib Require Import ZArith Lia Sorted.
From S2P Require Import Prelude Chain KState KTick KThread KLists.

Open Scope Z_scope.

(** ** The order of times *)

Lemma s64_diff x y : - 2 ^ 63 <= x - y < 2 ^ 63 -> s64 (u64 (u64 x - u64 y)) = x - y.
Proof.
  intros H. unfold swrap. rewrite wrap_wrap by lia. unfold wrap. rewrite <- Zminus_mod.
  change ((x - y) mod 2 ^ 64) with (wrap 64 (x - y)). fold (swrap 64 (x - y)). apply swrap_small; [lia|].
  change (64 - 1) with 63. done.
Qed.

Lemma sequential_lt x y : - 2 ^ 63 <= y - x < 2 ^ 63 -> KTickIsSequential (u64 x) (u64 y) = (x <? y).
Proof.
  intros H. unfold KTickIsSequential. rewrite s64_diff by done.
  destruct (Z.ltb_spec 0 (y - x)), (Z.ltb_spec x y); lia.
Qed.

(** ** The invariant *)

(** Before the time [v t]. *)
Definition before (v : Z -> Z) (t x : Z) : bool := v x <? v t.
(** Insertion by time: in front of the tasks of the same time. *)
Definition ins_time (v : Z -> Z) (t : Z) (L : list Z) : list Z := ins (before v t) t L.

(** [b] is the begin of the window of half the counter's range. *)
Record tasks_ok (k : ticks) (L : list Z) (v : Z -> Z) (b : Z) : Prop := {
  to_null : NULL ∉ tk_valid k;
  to_list : lseg (tk_next k) (tk_first k) L NULL;
  to_nodup : NoDup L;
  to_valid : forall t, t ∈ L -> t ∈ tk_valid k;
  to_sorted : sorted v L;
  to_target : forall t, t ∈ L -> tk_target k t = u64 (v t);
  to_window : forall t, t ∈ L -> b <= v t < b + 2 ^ 63;
}.

(** A task is in the list exactly if it has a function. *)
Definition started_ok (k : ticks) (L : list Z) : Prop :=
  forall t, t ∈ tk_valid k -> t ∈ L <-> tk_fn k t <> NULL.

Lemma wp_rd_task f t Q s : t ∈ tk_valid (k_tick s) -> Q (f (k_tick s) t) s -> wp (rd_task f t) Q s.
Proof. intros H HQ. eapply wp_getopt; [by rewrite decide_True|done]. Qed.
Lemma wp_wr_task u t Q s : t ∈ tk_valid (k_tick s) -> Q tt (set_tick (u (k_tick s)) s) -> wp (wr_task u t) Q s.
Proof. intros H HQ. unfold wp, wr_task. by rewrite decide_True. Qed.

Lemma ins_time_sorted v t L : sorted v L -> sorted v (ins_time v t L).
Proof.
  unfold ins_time. set (ok := before v t). intros Hs. pose proof Hs as Hs'.
  rewrite <- (pre_suf ok L) in Hs'. apply sorted_app in Hs' as (H1 & H2 & H3).
  assert (Hp : forall x, x ∈ pre ok L -> v x <= v t).
  { intros x Hx%pre_ok. unfold ok, before in Hx. lia. }
  assert (Hq : forall y, y ∈ suf ok L -> v t <= v y).
  { destruct (suf ok L) as [|z r] eqn:E; [by intros ? ?%not_elem_of_nil|].
    apply suf_head in E. intros y Hy. pose proof (sorted_head _ _ _ _ H2 Hy).
    unfold ok, before in E. lia. }
  apply sorted_app. split_and!; [done| |].
  - constructor; [done|]. apply Forall_forall. auto.
  - intros x y Hx [->|Hy]%elem_of_cons; auto.
Qed.

(** ** The list *)

(** Only the links changed. *)
Definition relinked (k k' : ticks) : Prop :=
  exists f n, k' = mk_ticks f (tk_valid k) n (tk_fn k) (tk_target k) (tk_period k).

Section TaskList.
Context (s : kst) (L : list Z) (v : Z -> Z) (b : Z) (Hok : tasks_ok (k_tick s) L v b).
Let k := k_tick s.

Lemma task_fuel_ok L1 L2 : L = L1 ++ L2 -> (length L1 < task_fuel s /\ length L2 < task_fuel s)%nat.
Proof.
  intros HL. pose proof (NoDup_size _ _ (to_nodup _ _ _ _ Hok) (to_valid _ _ _ _ Hok)) as H.
  rewrite HL, length_app in H. unfold task_fuel. lia.
Qed.

Lemma task_position_spec fuel t cur pos L' :
  b <= v t < b + 2 ^ 63 -> lseg (tk_next k) cur L' NULL -> (forall x, x ∈ L' -> x ∈ L) -> (length L' < fuel)%nat ->
  wp (task_position_loop fuel (u64 (v t)) cur pos)
    (fun r s' => s' = s /\ r = default pos (last (pre (before v t) L'))) s.
Proof.
  intros Hw. revert cur pos L'. induction fuel as [|n IH]; intros cur pos L' Hl Hv Hf; [lia|]. cbn [task_position_loop].
  destruct L' as [|x r]; simpl in Hl.
  { subst cur. by apply wp_ret. }
  destruct Hl as (-> & Hn & Hl). destruct (Z.eqb_spec x NULL); [done|].
  assert (Hx : x ∈ L) by (apply Hv, elem_of_cons; by left). assert (Hxv := to_valid _ _ _ _ Hok x Hx).
  pose proof (to_window _ _ _ _ Hok x Hx).
  apply wp_bind, wp_rd_task; [done|]. rewrite (to_target _ _ _ _ Hok x Hx), sequential_lt by lia.
  cbn [pre]. change (before v t x) with (v x <? v t). destruct (v x <? v t); [|by kstep].
  apply wp_bind, wp_rd_task; [done|].
  eapply wp_mono; [apply (IH _ x r); [done| |simpl in Hf; lia]|].
  { intros y Hy. apply Hv, elem_of_cons. by right. }
  intros a s' [-> ->]. split; [done|]. rewrite last_cons. by destruct (last (pre (before v t) r)).
Qed.

Lemma task_previous_spec fuel t cur L1 L2 :
  NoDup (L1 ++ t :: L2) -> cur <> t -> lseg (tk_next k) cur (L1 ++ t :: L2) NULL ->
  (forall x, x ∈ L1 -> x ∈ tk_valid k) -> (length L1 < fuel)%nat ->
  wp (task_previous_loop fuel t cur) (fun r s' => s' = s /\ last L1 = Some r) s.
Proof.
  revert cur L1. induction fuel as [|n IH]; intros cur L1 Hd Hc Hl Hv Hf; [lia|].
  destruct L1 as [|x r]; simpl in Hl; [naive_solver|].
  destruct Hl as (-> & Hn & Hl). cbn [task_previous_loop]. destruct (Z.eqb_spec x NULL); [done|].
  apply wp_bind, wp_rd_task; [apply Hv, elem_of_cons; by left|].
  change (tk_next (k_tick s) x) with (tk_next k x). destruct (Z.eqb_spec (tk_next k x) t) as [E|E].
  - kstep. split; [done|]. destruct r as [|y r]; [done|]. simpl in Hl. destruct Hl as (E' & _).
    exfalso. apply NoDup_cons in Hd as [_ Hd]. simpl in Hd. apply NoDup_cons in Hd as [Hd _].
    apply Hd. rewrite <- E', E. set_solver.
  - eapply wp_mono; [apply (IH _ r); try done|].
    + by apply NoDup_cons in Hd as [_ Hd].
    + intros y Hy. apply Hv, elem_of_cons. by right.
    + simpl in Hf. lia.
    + intros a s' [-> H]. split; [done|]. rewrite last_cons, H. done.
Qed.

Lemma task_enqueue_spec t :
  t ∈ tk_valid k -> t ∉ L -> tk_target k t = u64 (v t) -> b <= v t < b + 2 ^ 63 ->
  wp (KTickTaskEnqueue t)
    (fun _ s' => exists k', s' = set_tick k' s /\ relinked k k' /\ tasks_ok k' (ins_time v t L) v b) s.
Proof.
  intros Ht Hni Htt Hw. destruct Hok as [N1 N2 N3 N4 N5 N6 N7].
  unfold KTickTaskEnqueue, KTickTaskGetInsertPosition, rd_first_task, wr_first_task, wr_task_next.
  apply wp_bind. krun. apply wp_rd_task; [done|]. fold k. rewrite Htt.
  eapply wp_mono; [apply (task_position_spec _ t _ _ L Hw N2); [done|]|].
  { apply (task_fuel_ok L []). by rewrite app_nil_r. }
  assert (Hend : forall f n, lseg n f (ins_time v t L) NULL ->
    tasks_ok (mk_ticks f (tk_valid k) n (tk_fn k) (tk_target k) (tk_period k)) (ins_time v t L) v b).
  { intros f n Hl. split; simpl; try done.
    - by apply ins_NoDup.
    - intros x [->|Hx]%elem_of_ins; auto.
    - by apply ins_time_sorted.
    - intros x [->|Hx]%elem_of_ins; auto.
    - intros x [->|Hx]%elem_of_ins; auto. }
  assert (Htn : t <> NULL) by (intros ->; done).
  set (ok := before v t) in *. fold k in N2. unfold ins_time, ins in *. fold ok in Hend |- *.
  intros pos s' [-> ->]. assert (HL := pre_suf ok L).
  destruct (pre ok L) as [|a B _] eqn:E using rev_ind; simpl.
  - kstep. kstep. apply wp_bind, wp_wr_task; [done|]. krun. ksimpl. eexists. split; [reflexivity|].
    split; [by eexists _, _|]. apply Hend. simpl. rewrite fupd_eq. split_and!; [done..|].
    simpl in HL. rewrite HL. by apply lseg_next_fupd.
  - rewrite last_snoc. simpl. rewrite <- HL in N2, N3, N4, Hni. apply lseg_app in N2 as (m & H1 & H2).
    assert (Ha : tk_next k a = m).
    { apply lseg_app in H1 as (? & _ & ? & _ & ?). by simplify_eq. }
    assert (a <> NULL) by (apply lseg_app in H1 as (? & _ & ? & ? & ?); done).
    destruct (Z.eqb_spec a NULL); [done|]. simpl. assert (Hav : a ∈ tk_valid k) by (apply N4; set_solver).
    apply not_elem_of_app in Hni as [M1 M2]. apply NoDup_app in N3 as (D1 & D2 & D3).
    apply wp_bind, wp_rd_task; [done|]. apply wp_bind, wp_wr_task; [done|]. apply wp_wr_task; [done|].
    eexists. split; [reflexivity|]. split; [by eexists _, _|]. apply Hend.
    apply lseg_app. exists t. split.
    + eapply lseg_set_end; [done|]. by apply lseg_next_fupd.
    + simpl. rewrite fupd_ne by set_solver. rewrite fupd_eq. fold k. rewrite Ha. split_and!; [done..|].
      apply lseg_next_fupd; [set_solver|]. by apply lseg_next_fupd.
Qed.

Lemma task_dequeue_spec t :
  t ∈ L ->
  wp (KTickTaskDequeue t)
    (fun _ s' => exists k', s' = set_tick k' s /\ relinked k k' /\ tasks_ok k' (rem t L) v b) s.
Proof.
  intros Hin. destruct (list_elem_of_split _ _ Hin) as (L1 & L2 & HL).
  pose proof (task_fuel_ok L1 (t :: L2) HL) as [Hf _]. destruct Hok as [N1 N2 N3 N4 N5 N6 N7].
  assert (Hend : forall f n, lseg n f (rem t L) NULL ->
    tasks_ok (mk_ticks f (tk_valid k) n (tk_fn k) (tk_target k) (tk_period k)) (rem t L) v b).
  { intros f n Hl. split; simpl; try done; [by apply rem_NoDup| |by apply sorted_rem|..];
      intros x [? ?]%elem_of_rem; auto. }
  assert (Htv := N4 t Hin). fold k in N2, N4, Htv.
  assert (Hr : rem t L = L1 ++ L2) by (rewrite HL; apply rem_split; by rewrite <- HL).
  rewrite Hr in Hend |- *. rewrite HL in N2, N3, N4.
  unfold KTickTaskDequeue, KTickTaskGetPrevious, rd_first_task, wr_first_task, wr_task_next. krun. fold k.
  destruct (Z.eqb_spec (tk_first k) t) as [E|E].
  - assert (L1 = []) as ->.
    { destruct L1 as [|x r]; [done|]. simpl in N2. destruct N2 as (E' & _). exfalso.
      apply NoDup_cons in N3 as [Hd _]. apply Hd. rewrite <- E', E. set_solver. }
    apply wp_bind, wp_rd_task; [done|]. krun. eexists. split; [reflexivity|]. split; [by eexists _, _|].
    apply Hend. simpl in *. tauto.
  - krun. eapply wp_mono; [apply (task_previous_spec _ _ _ L1 L2); try done; set_solver|].
    intros a s' [-> Hlast]. destruct L1 as [|y B _] using rev_ind; [done|].
    rewrite last_snoc in Hlast. injection Hlast as ->. apply lseg_app in N2 as (m & H1 & H2).
    assert (a <> NULL) by (apply lseg_app in H1 as (? & _ & ? & ? & ?); done).
    destruct (Z.eqb_spec a NULL); [done|]. cbn [negb when].
    assert (Hav : a ∈ tk_valid k) by (apply N4; set_solver).
    apply NoDup_app in N3 as (D1 & D2 & D3). apply NoDup_cons in D3 as [D3 D4].
    apply wp_bind, wp_rd_task; [done|]. apply wp_wr_task; [done|].
    eexists. split; [reflexivity|]. split; [by eexists _, _|]. apply Hend.
    simpl in H2. destruct H2 as (-> & Hn & H2).
    apply lseg_app. exists (tk_next k t). split; [by eapply lseg_set_end|].
    apply lseg_next_fupd; [|done]. intros Hi. apply (D2 a); [set_solver|]. apply elem_of_cons. by right.
Qed.
End TaskList.

(** ** Operations *)

(** The invariant depends on the links and the targets of waiting tasks. *)
Lemma tasks_frame k k' L v v' b :
  tk_valid k' = tk_valid k -> tk_first k' = tk_first k -> tk_next k' = tk_next k ->
  (forall t, t ∈ L -> tk_target k' t = tk_target k t /\ v' t = v t) -> tasks_ok k L v b -> tasks_ok k' L v' b.
Proof.
  intros E1 E2 E3 E4 [N1 N2 N3 N4 N5 N6 N7]. split; rewrite ?E1, ?E2, ?E3; try done.
  - eapply sorted_ext; [|done]. intros x Hx. symmetry. by apply E4.
  - intros t Ht. destruct (E4 t Ht) as [-> ->]. auto.
  - intros t Ht. destruct (E4 t Ht) as [_ ->]. auto.
Qed.

Lemma u64_add x y : u64 (u64 x + y) = u64 (x + y).
Proof. unfold wrap. apply Zplus_mod_idemp_l. Qed.

Lemma task_head k L v b : tasks_ok k L v b -> tk_first k = default NULL (head L).
Proof. intros [_ H _ _ _ _ _]. destruct L; simpl in *; naive_solver. Qed.

(** The decrementer after a reschedule at the reading [c] of the time base. *)
Definition dec_for (v : Z -> Z) (L : list Z) (c dec dec' : Z) : Prop :=
  match L with
  | [] => dec' = dec
  | f :: _ => - 2 ^ 63 <= v f - c < 2 ^ 63 -> dec' = decr_for (v f - c)
  end.

Lemma reschedule_spec s L v b :
  tasks_ok (k_tick s) L v b ->
  wp KTickTaskReschedule (fun _ s' => exists d n, s' = set_dec d (set_reads n s) /\
    dec_for v L (k_clock s (k_reads s)) (k_dec s) d) s.
Proof.
  intros Hok. unfold KTickTaskReschedule, rd_first_task, PPCGetTickCount. kstep. kstep.
  rewrite (task_head _ _ _ _ Hok). destruct L as [|f r]; cbn [head default]; unfold id.
  - krun. exists (k_dec s), (k_reads s). split; [by destruct s|done].
  - assert (Hf : f ∈ f :: r) by (apply elem_of_cons; by left). assert (Hv := to_valid _ _ _ _ Hok f Hf).
    destruct (Z.eqb_spec f NULL) as [->|_]; [by destruct (to_null _ _ _ _ Hok)|].
    apply wp_bind, wp_rd_task; [done|]. krun. eexists _, _. split; [reflexivity|]. ksimpl. intros Hd.
    by rewrite (to_target _ _ _ _ Hok f Hf), s64_diff.
Qed.

(** The fields of [t] set by [KTickTaskStart]. *)
Definition armed (t fn target period : Z) (k k' : ticks) : Prop :=
  exists f n, k' = mk_ticks f (tk_valid k) n (fupd (tk_fn k) t fn) (fupd (tk_target k) t target)
                     (fupd (tk_period k) t period).

Definition task_start_post (s : kst) (L : list Z) (v : Z -> Z) (b t fn delay period : Z) (s' : kst) : Prop :=
  let c := k_clock s (k_reads s) in
  let v' := fupd v t (c + delay) in
  let L' := ins_time v' t (rem t L) in
  (exists k' m d n, s' = set_msr m (set_dec d (set_reads n (set_tick k' s)))) /\
  tasks_ok (k_tick s') L' v' b /\ started_ok (k_tick s') L' /\
  armed t fn (u64 (c + delay)) period (k_tick s) (k_tick s') /\
  (if bool_decide (head L' = head L) then k_dec s' = k_dec s
   else dec_for v' L' (k_clock s (S (k_reads s))) (k_dec s) (k_dec s')).

Lemma start_dequeue_spec {A} s L v b t (c : M kst A) Q :
  tasks_ok (k_tick s) L v b -> started_ok (k_tick s) L -> t ∈ tk_valid (k_tick s) ->
  (forall k', relinked (k_tick s) k' -> tasks_ok k' (rem t L) v b -> wp c Q (set_tick k' s)) ->
  wp (ofn <- rd_task tk_fn t; when (negb (ofn =? NULL)) (KTickTaskDequeue t);; c) Q s.
Proof.
  intros Hok Hst Ht HQ. apply wp_bind, wp_rd_task; [done|]. apply wp_bind.
  destruct (Z.eqb_spec (tk_fn (k_tick s) t) NULL) as [E|E]; cbn [negb when].
  - assert (Hni : t ∉ L) by (intros Hi; by apply (Hst t Ht)). krun.
    assert (Hs : set_tick (k_tick s) s = s) by by destruct s. rewrite <- Hs. apply HQ.
    + exists (tk_first (k_tick s)), (tk_next (k_tick s)). by destruct (k_tick s).
    + by rewrite rem_notin.
  - eapply wp_mono; [apply task_dequeue_spec; [done|by apply (Hst t Ht)]|].
    intros ? s' (k' & -> & H1 & H2). by apply HQ.
Qed.

(** The end of [KTickTaskStart] and [KTickTaskStop]. *)
Lemma maybe_reschedule_spec (need : bool) s L v b :
  tasks_ok (k_tick s) L v b ->
  wp (when need KTickTaskReschedule) (fun _ s' => exists d n, s' = set_dec d (set_reads n s) /\
    if need then dec_for v L (k_clock s (k_reads s)) (k_dec s) d else d = k_dec s) s.
Proof.
  intros Hok. destruct need; cbn [when]; [by eapply reschedule_spec|]. krun.
  exists (k_dec s), (k_reads s). split; [by destruct s|done].
Qed.

Lemma armed_started t fn x p k k' L :
  started_ok k L -> t ∈ tk_valid k -> fn <> NULL -> armed t fn x p k k' ->
  forall L', (forall y, y ∈ L' <-> y = t \/ (y ∈ L /\ y <> t)) -> started_ok k' L'.
Proof.
  intros Hst Ht Hfn (f & n & ->) L' HL y Hy. simpl in *. rewrite HL.
  destruct (decide (y = t)) as [->|Hne]; [rewrite fupd_eq; naive_solver|].
  rewrite fupd_ne by done. rewrite <- (Hst y Hy). naive_solver.
Qed.

(** Starting a task: it leaves its old place if it was waiting, gets the
    target now + delay and enters the list in time order, in front of tasks of the
    same time; if it becomes the first, the decrementer is set for it. *)
Theorem KTickTaskStart_ok s L v b t fn delay period :
  tasks_ok (k_tick s) L v b -> started_ok (k_tick s) L -> t ∈ tk_valid (k_tick s) -> fn <> NULL ->
  b <= k_clock s (k_reads s) + delay < b + 2 ^ 63 ->
  wp (KTickTaskStart t fn delay period) (fun _ s' => task_start_post s L v b t fn delay period s') s.
Proof.
  intros Hok Hst Ht Hfn Hw. unfold KTickTaskStart, task_start_post.
  set (c := k_clock s (k_reads s)) in *. set (v' := fupd v t (c + delay)). set (L' := ins_time v' t (rem t L)).
  kstep. unfold PPCIrqLockByMsr. krun. set (m := Z.ldiff _ _). unfold rd_first_task at 1. kstep. ksimpl.
  set (old := tk_first (k_tick s)). apply (start_dequeue_spec (set_msr m s) L v b t); [done..|]. ksimpl.
  intros k1 (f1 & n1 & ->) H1. apply wp_bind. unfold PPCGetTickCount. krun. ksimpl. fold c. rewrite u64_add.
  unfold wr_task_target, wr_task_period, wr_task_fn.
  do 3 (try apply wp_bind; apply wp_wr_task; [done|]; ksimpl; cbn [tk_first tk_valid tk_next tk_fn tk_target tk_period]).
  set (k2 := mk_ticks f1 (tk_valid (k_tick s)) n1 (fupd (tk_fn (k_tick s)) t fn)
    (fupd (tk_target (k_tick s)) t (u64 (c + delay))) (fupd (tk_period (k_tick s)) t period)).
  assert (H2 : tasks_ok k2 (rem t L) v' b).
  { eapply tasks_frame; [| | | |exact H1]; try done. intros x [_ Hx]%elem_of_rem. unfold v'. simpl.
    by rewrite !fupd_ne. }
  apply wp_bind. eapply wp_mono; [apply (task_enqueue_spec _ (rem t L) v' b)|].
  { exact H2. } { done. } { by intros [_ ?]%elem_of_rem. } { unfold v'. simpl. by rewrite !fupd_eq. } { unfold v'. by rewrite fupd_eq. }
  fold L'. ksimpl. intros ? s3 (k3 & -> & (f3 & n3 & ->) & H3). apply wp_bind. unfold rd_first_task. krun. ksimpl. simpl.
  eapply wp_mono; [by apply (maybe_reschedule_spec _ _ L' v' b)|].
  intros ? s4 (d & n & -> & Hd). ksimpl in Hd. apply wp_bind, wp_gets. krun. ksimpl.
  assert (Ha : armed t fn (u64 (c + delay)) period (k_tick s) (mk_ticks f3 (tk_valid (k_tick s)) n3
    (fupd (tk_fn (k_tick s)) t fn) (fupd (tk_target (k_tick s)) t (u64 (c + delay))) (fupd (tk_period (k_tick s)) t period)))
    by by eexists _, _.
  split_and!; [by eexists _, _, _, _|exact H3| |exact Ha|].
  - eapply (armed_started t fn _ _ (k_tick s) _ L Hst Ht Hfn Ha). intros y. unfold L', ins_time.
    by rewrite elem_of_ins, elem_of_rem.
  - pose proof (task_head _ _ _ _ H3) as E3. simpl in E3. pose proof (task_head _ _ _ _ Hok) as E0. fold old in E0.
    destruct (Z.eqb_spec f3 old) as [E|E]; cbn [negb] in Hd.
    + rewrite bool_decide_true; [exact Hd|]. rewrite E3, E0 in E. clear -E H3 Hok.
      pose proof (to_null _ _ _ _ H3). pose proof (to_valid _ _ _ _ H3). pose proof (to_valid _ _ _ _ Hok).
      destruct L' as [|x ?], L as [|y ?]; simpl in *; [done|..|naive_solver];
        exfalso; subst; set_solver.
    + rewrite bool_decide_false; [exact Hd|]. intros Hh. apply E. rewrite E3, E0. by rewrite Hh.
Qed.

Definition task_stop_post (s : kst) (L : list Z) (v : Z -> Z) (b t : Z) (s' : kst) : Prop :=
  (exists k' m d n, s' = set_msr m (set_dec d (set_reads n (set_tick k' s)))) /\
  tasks_ok (k_tick s') (rem t L) v b /\ started_ok (k_tick s') (rem t L) /\
  tk_fn (k_tick s') t = NULL /\ tk_period (k_tick s') = tk_period (k_tick s) /\
  (if bool_decide (head L = Some t) then dec_for v (rem t L) (k_clock s (k_reads s)) (k_dec s) (k_dec s')
   else k_dec s' = k_dec s).

(** Stopping a task takes it out of the list, and if it was the first one
    sets the decrementer for the new first task; stopping a task that does not
    wait changes nothing. *)
Theorem KTickTaskStop_ok s L v b t :
  tasks_ok (k_tick s) L v b -> started_ok (k_tick s) L -> t ∈ tk_valid (k_tick s) ->
  wp (KTickTaskStop t) (fun _ s' => task_stop_post s L v b t s') s.
Proof.
  intros Hok Hst Ht. unfold KTickTaskStop, task_stop_post. kstep. unfold PPCIrqLockByMsr. krun.
  set (m := Z.ldiff _ _). apply wp_rd_task; [done|]. ksimpl.
  pose proof (task_head _ _ _ _ Hok) as Hh.
  destruct (Z.eqb_spec (tk_fn (k_tick s) t) NULL) as [E|E].
  - assert (Hni : t ∉ L) by (intros Hi; by apply (Hst t Ht)). unfold PPCIrqUnlockByMsr. krun. ksimpl.
    rewrite rem_notin by done. split_and!; try done.
    + exists (k_tick s), (Z.lor (Z.ldiff m MSR_EE) (Z.land (k_msr s) MSR_EE)), (k_dec s), (k_reads s). by destruct s.
    + rewrite bool_decide_false; [done|]. intros Hd. apply Hni. destruct L; simpl in Hd; [done|].
      injection Hd as ->. apply elem_of_cons. by left.
  - assert (Hin : t ∈ L) by by apply (Hst t Ht). unfold rd_first_task. kstep. kstep. ksimpl.
    apply wp_bind. eapply wp_mono; [by apply (task_dequeue_spec (set_msr m s) L v b)|]. ksimpl.
    intros ? s1 (k1 & -> & (f1 & n1 & ->) & H1). apply wp_bind.
    eapply wp_mono; [by apply (maybe_reschedule_spec _ _ (rem t L) v b)|].
    intros ? s2 (d & n & -> & Hd). ksimpl in Hd. unfold wr_task_fn. apply wp_bind, wp_wr_task; [done|]. ksimpl.
    unfold PPCIrqUnlockByMsr. krun. ksimpl. cbn [tk_first tk_valid tk_next tk_fn tk_target tk_period].
    split_and!; try done.
    + by eexists _, _, _, _.
    + by eapply tasks_frame; [| | | |exact H1].
    + intros y Hy. simpl in *. rewrite elem_of_rem. destruct (decide (y = t)) as [->|Hne].
      * rewrite fupd_eq. naive_solver.
      * rewrite fupd_ne by done. rewrite <- (Hst y Hy). naive_solver.
    + simpl. by rewrite fupd_eq.
    + rewrite Hh in Hd. destruct L as [|x r]; [by apply not_elem_of_nil in Hin|]. simpl in Hd |- *.
      destruct (Z.eqb_spec x t) as [->|Hx]; [by rewrite bool_decide_true|]. rewrite bool_decide_false; [done|congruence].
Qed.

(** ** The interrupt handler *)

(** What a run of the handler may do to the list, as a relation on lists: the
    first task runs while it is due at [c]; a periodic task comes back at its
    next time, any other leaves. [l] are the tasks run, in order. *)
Inductive runs (per : Z -> Z) (c : Z) : list Z -> (Z -> Z) -> list Z -> list Z -> (Z -> Z) -> Prop :=
| runs_stop L v : runs per c L v [] L v
| runs_once t r v l L' v' :
    v t <= c -> per t = 0 -> runs per c r v l L' v' -> runs per c (t :: r) v (t :: l) L' v'
| runs_again t r v l L' v' :
    v t <= c -> per t <> 0 ->
    runs per c (ins_time (fupd v t (v t + per t)) t r) (fupd v t (v t + per t)) l L' v' ->
    runs per c (t :: r) v (t :: l) L' v'.

(** The work left up to the time [c]. *)
Definition backlog (c : Z) (v : Z -> Z) (L : list Z) : nat :=
  sum_list_with (fun t => Z.to_nat (c + 1 - v t)) L.

Lemma backlog_ext c v v' L : (forall t, t ∈ L -> v' t = v t) -> backlog c v' L = backlog c v L.
Proof.
  unfold backlog. induction L as [|x r IH]; intros H; [done|]. simpl.
  rewrite H by (apply elem_of_cons; by left). rewrite IH; [done|]. intros t Ht. apply H, elem_of_cons. by right.
Qed.

Lemma backlog_perm c v L L' : L ≡ₚ L' -> backlog c v L = backlog c v L'.
Proof. unfold backlog. by intros ->. Qed.

Section Run.
(** The callbacks: [P l s] says that the tasks [l] have been run; a callback
    does not start or stop tasks. *)
Context (call : Z -> Z -> K unit) (P : list Z -> kst -> Prop) (clock : nat -> Z) (per : Z -> Z) (c0 c1 b : Z).
Hypothesis P_frame : forall l s k n d, P l s -> P l (set_dec d (set_tick k (set_reads n s))).
Hypothesis call_ok : forall l fn t s, P l s ->
  wpk (call fn t) (fun _ s' => P (l ++ [t]) s' /\ k_tick s' = k_tick s /\ k_clock s' = k_clock s) (fun _ _ => False) s.
(** All readings during the run lie between [c0] and [c1]. *)
Hypothesis clock_ok : forall n, c0 <= clock n <= c1.
Hypothesis window_ok : b <= c0 /\ c1 < b + 2 ^ 63.

Definition run_post (L : list Z) (v : Z -> Z) (l : list Z) (s' : kst) : Prop :=
  exists l' L' v', runs per c1 L v l' L' v' /\ tasks_ok (k_tick s') L' v' b /\ P (l ++ l') s' /\
    (forall x, x ∈ L' -> c0 < v' x) /\ k_clock s' = clock.

(** The first task leaves, and comes back at its next time if it is periodic. *)
Lemma run_first_spec s t r v (c : Z -> K unit) Q R :
  tasks_ok (k_tick s) (t :: r) v b -> 0 <= per t -> v t + per t < b + 2 ^ 63 -> tk_period (k_tick s) = per ->
  let v1 := fupd v t (v t + per t) in
  (forall fn k', tk_period k' = per ->
     (if per t =? 0 then tasks_ok k' r v b else tasks_ok k' (ins_time v1 t r) v1 b) -> wpk (c fn) Q R (set_tick k' s)) ->
  wpk (let! nx := lift (rd_task tk_next t) in
       do! lift (wr_first_task nx) then
       let! fn := lift (rd_task tk_fn t) in
       let! period := lift (rd_task tk_period t) in
       do! (if negb (period =? 0) then lift (wr_task_target t (u64 (u64 (v t) + period));; KTickTaskEnqueue t)
            else lift (wr_task_fn t NULL)) then c fn) Q R s.
Proof.
  intros Hok Hp Hw Hper v1 HQ. assert (Hin : t ∈ t :: r) by (apply elem_of_cons; by left).
  assert (Htv := to_valid _ _ _ _ Hok t Hin). pose proof (to_window _ _ _ _ Hok t Hin) as Hwt.
  assert (Hni : t ∉ r) by (pose proof (to_nodup _ _ _ _ Hok) as Hd; by apply NoDup_cons in Hd as [? _]).
  kstep. apply wp_rd_task; [done|]. unfold wr_first_task. kstep. kstep.
  set (k1 := mk_ticks _ _ _ _ _ _).
  assert (H1 : tasks_ok k1 r v b).
  { destruct Hok as [N1 N2 N3 N4 N5 N6 N7]. apply NoDup_cons in N3 as [_ N3].
    split; simpl; try done.
    - by destruct N2 as (_ & _ & ?).
    - intros x Hx. apply N4, elem_of_cons. by right.
    - by inversion N5.
    - intros x Hx. apply N6, elem_of_cons. by right.
    - intros x Hx. apply N7, elem_of_cons. by right. }
  do 2 (kstep; apply wp_rd_task; [done|]). ksimpl. change (tk_period k1) with (tk_period (k_tick s)). rewrite Hper.
  destruct (Z.eqb_spec (per t) 0) as [E|E]; cbn [negb].
  - unfold wr_task_fn. kstep. apply wp_wr_task; [done|]. apply HQ; [done|].
    by eapply tasks_frame; [| | | |exact H1].
  - unfold wr_task_target. kstep. apply wp_bind, wp_wr_task; [done|]. ksimpl. rewrite u64_add.
    eapply wp_mono; [apply (task_enqueue_spec _ r v1 b)|].
    + eapply tasks_frame; [| | | |exact H1]; try done. intros x Hx. unfold v1. simpl.
      assert (x <> t) by (by intros ->). by rewrite !fupd_ne.
    + done.
    + done.
    + unfold v1. simpl. by rewrite !fupd_eq.
    + unfold v1. rewrite fupd_eq. lia.
    + intros ? s' (k' & -> & (f & n & ->) & H). apply HQ; [exact Hper|exact H].
Qed.

Lemma backlog_step t r v :
  t ∉ r -> v t <= c1 -> 0 <= per t ->
  let v1 := fupd v t (v t + per t) in
  (backlog c1 v r < backlog c1 v (t :: r))%nat /\
  (per t <> 0 -> (backlog c1 v1 (ins_time v1 t r) < backlog c1 v (t :: r))%nat).
Proof.
  intros Hni Hv Hp v1. split; [unfold backlog; simpl; lia|]. intros Hne.
  rewrite (backlog_perm c1 v1 _ (t :: r)) by apply ins_perm.
  assert (E : backlog c1 v1 r = backlog c1 v r).
  { apply backlog_ext. intros x Hx. unfold v1. rewrite fupd_ne; [done|]. by intros ->. }
  unfold backlog in *. simpl. rewrite E. unfold v1. rewrite fupd_eq. lia.
Qed.

Lemma run_loop_spec fuel : forall s L v l,
  tasks_ok (k_tick s) L v b -> tk_period (k_tick s) = per -> k_clock s = clock -> P l s ->
  (forall t, t ∈ L -> 0 <= per t /\ c1 + per t < b + 2 ^ 63) -> (backlog c1 v L < fuel)%nat ->
  wpk (KTickTaskRun_loop call fuel) (fun _ s' => run_post L v l s') (fun _ _ => False) s.
Proof.
  induction fuel as [|n IH]; intros s L v l Hok Hper Hcl HP Hp Hf; [lia|].
  cbn [KTickTaskRun_loop]. unfold rd_first_task. kstep. kstep. rewrite (task_head _ _ _ _ Hok).
  destruct L as [|t r]; cbn [head default]; unfold id.
  { apply wpk_ret. exists [], [], v. rewrite app_nil_r. split_and!; try done; [constructor|].
    intros x Hx. by apply not_elem_of_nil in Hx. }
  assert (Hin : t ∈ t :: r) by (apply elem_of_cons; by left).
  assert (Htv := to_valid _ _ _ _ Hok t Hin). pose proof (to_window _ _ _ _ Hok t Hin) as Hwt.
  destruct (Hp t Hin) as [Hp1 Hp2]. pose proof (clock_ok (k_reads s)) as Hc.
  assert (Hni : t ∉ r) by (pose proof (to_nodup _ _ _ _ Hok) as Hd; by apply NoDup_cons in Hd as [? _]).
  destruct (Z.eqb_spec t NULL) as [->|_]; [by destruct (to_null _ _ _ _ Hok)|].
  kstep. unfold PPCGetTickCount. krun. apply wp_rd_task; [done|]. ksimpl.
  rewrite (to_target _ _ _ _ Hok t Hin), Hcl, sequential_lt by lia.
  destruct (Z.ltb_spec (clock (k_reads s)) (v t)) as [Hd|Hd].
  { apply wpk_ret. exists [], (t :: r), v. rewrite app_nil_r. split_and!; try done; [constructor| |].
    - change (set_reads (S (k_reads s)) s) with
        (set_dec (k_dec s) (set_tick (k_tick s) (set_reads (S (k_reads s)) s))). by apply P_frame.
    - intros x Hx. pose proof (sorted_head _ _ _ _ (to_sorted _ _ _ _ Hok) Hx). lia. }
  destruct (backlog_step t r v Hni ltac:(lia) Hp1) as [B1 B2].
  apply (run_first_spec _ t r v (fun fn => do! call fn t then KTickTaskRun_loop call n)); [done|done|lia|done|].
  intros fn k' Hk' Hok'. apply wpk_bind.
  eapply wpk_mono; [apply (call_ok l)|..|done].
  { change (set_tick k' (set_reads (S (k_reads s)) s)) with
      (set_dec (k_dec s) (set_tick k' (set_reads (S (k_reads s)) s))). by apply P_frame. }
  intros ? s2 (Q1 & Q2 & Q3). ksimpl in Q2. ksimpl in Q3.
  destruct (Z.eqb_spec (per t) 0) as [E|E].
  - eapply wpk_mono; [apply (IH s2 r v (l ++ [t])); rewrite ?Q2, ?Q3; try done|..|done].
    + intros x Hx. apply Hp, elem_of_cons. by right.
    + lia.
    + intros ? s' (l' & L' & v' & R1 & R2 & R3 & R4). exists (t :: l'), L', v'. split_and!; try done.
      * constructor; [lia|done|done].
      * by rewrite <- app_assoc in R3.
      * by apply R4.
      * by apply R4.
  - set (v1 := fupd v t (v t + per t)) in *.
    eapply wpk_mono; [apply (IH s2 (ins_time v1 t r) v1 (l ++ [t])); rewrite ?Q2, ?Q3; try done|..|done].
    + intros x [->|Hx]%elem_of_ins; [done|]. apply Hp, elem_of_cons. by right.
    + specialize (B2 E). fold v1 in B2. lia.
    + intros ? s' (l' & L' & v' & R1 & R2 & R3 & R4). exists (t :: l'), L', v'. split_and!; try done.
      * apply runs_again; [lia|done|done].
      * by rewrite <- app_assoc in R3.
      * by apply R4.
      * by apply R4.
Qed.
End Run.

Lemma elem_of_ins_time v t L x : x ∈ ins_time v t L <-> x = t \/ x ∈ L.
Proof. apply elem_of_ins. Qed.

Lemma runs_out per c L v l L' v' t :
  runs per c L v l L' v' -> t ∉ L -> t ∉ L' /\ count_occ Z.eq_dec l t = 0%nat /\ v' t = v t.
Proof.
  induction 1 as [L v|x r v l L' v' Hc Hp Hr IH|x r v l L' v' Hc Hp Hr IH]; intros Ht; [done|..];
    apply not_elem_of_cons in Ht as [Hxt Hxr]; rewrite count_occ_cons_neq by congruence.
  - by apply IH.
  - destruct IH as (I1 & I2 & I3); [rewrite elem_of_ins_time; naive_solver|]. split_and!; try done.
    by rewrite I3, fupd_ne.
Qed.

(** A periodic task stays in the list and advances by one period per run; any
    other task runs at most once and leaves when it runs. *)
Lemma runs_count per c L v l L' v' t :
  runs per c L v l L' v' -> NoDup L -> t ∈ L ->
  if per t =? 0 then (t ∈ L' /\ count_occ Z.eq_dec l t = 0%nat) \/ (t ∉ L' /\ count_occ Z.eq_dec l t = 1%nat)
  else t ∈ L' /\ v' t = v t + per t * Z.of_nat (count_occ Z.eq_dec l t).
Proof.
  induction 1 as [L v|x r v l L' v' Hc Hp Hr IH|x r v l L' v' Hc Hp Hr IH]; intros Hd Ht.
  - destruct (per t =? 0); simpl; [by left|]. split; [done|lia].
  - apply NoDup_cons in Hd as [Hni Hd]. destruct (decide (t = x)) as [->|Hne].
    + rewrite Hp. simpl. right. destruct (runs_out _ _ _ _ _ _ _ _ Hr Hni) as (? & Hz & _). split; [done|].
      by destruct (Z.eq_dec x x); [rewrite Hz|].
    + apply elem_of_cons in Ht as [->|Ht]; [done|]. rewrite count_occ_cons_neq by congruence. by apply IH.
  - apply NoDup_cons in Hd as [Hni Hd].
    assert (Hin : t ∈ ins_time (fupd v x (v x + per x)) x r) by (apply elem_of_ins_time; by apply elem_of_cons in Ht).
    specialize (IH (ins_NoDup _ _ _ Hni Hd) Hin). destruct (decide (t = x)) as [->|Hne].
    + destruct (Z.eqb_spec (per x) 0); [done|]. destruct IH as [I1 I2]. split; [done|].
      rewrite fupd_eq in I2. rewrite count_occ_cons_eq by done. lia.
    + rewrite count_occ_cons_neq by congruence. by rewrite fupd_ne in IH.
Qed.

