(* ===== verification/KTickDemo.v ===== *)
(** * Timed tasks: concrete states

    Two waiting tasks at fixed addresses, the theorems on them, and a restart
    after which the decrementer is too late. *)

From stdpp Require Import base gmap list fin_maps.
From Stdlib Require Import ZArith Lia Sorted.
From S2P Require Import Prelude Chain KState KTick KThread KLists KSched KSchedOps KBlock KLife KTickProofs.

Open Scope Z_scope.

(** Task 20 is due at 40 and then every 30 ticks, task 10 once at 50; task 30
    does not wait. The time base reads 100. *)
Definition tick_demo : kst :=
  set_tick (mk_ticks 20 {[10; 20; 30]} (fun t => if t =? 20 then 10 else NULL)
              (fun t => if t =? 30 then NULL else 1) (fun t => if t =? 20 then 40 else 50)
              (fun t => if t =? 20 then 30 else 0))
    (boot_kst ∅ MSR_RI (fun _ => 100)).
Definition demo_time (t : Z) : Z := if t =? 20 then 40 else 50.

Lemma tick_demo_ok : tasks_ok (k_tick tick_demo) [20; 10] demo_time 0 /\ started_ok (k_tick tick_demo) [20; 10].
Proof.
  assert (Hin : forall t, t ∈ [20; 10] -> t = 20 \/ t = 10) by set_solver.
  assert (Hiv : forall t, t ∈ ({[10; 20; 30]} : gset Z) -> t = 10 \/ t = 20 \/ t = 30) by set_solver.
  split; [split|].
  - intros Hn. apply Hiv in Hn as [? | [? | ?] ]; done.
  - done.
  - apply NoDup_cons. split; [set_solver|]. apply NoDup_singleton.
  - intros t [-> | ->]%Hin; simpl; set_solver.
  - repeat constructor; unfold demo_time; simpl; lia.
  - by intros t [-> | ->]%Hin.
  - intros t [-> | ->]%Hin; unfold demo_time; simpl; lia.
  - intros t Ht. simpl in Ht. apply Hiv in Ht as [-> | [-> | ->] ]; simpl; set_solver.
Qed.

Lemma KTickTaskStart_ok_witness :
  wp (KTickTaskStart 30 1 7 0) (fun _ s' => task_start_post tick_demo [20; 10] demo_time 0 30 1 7 0 s') tick_demo /\
  ins_time (fupd demo_time 30 107) 30 (rem 30 [20; 10]) = [20; 10; 30].
Proof.
  split; [|by vm_compute]. apply KTickTaskStart_ok; [apply tick_demo_ok|apply tick_demo_ok|simpl; set_solver|done|].
  simpl. lia.
Defined.

Lemma KTickTaskStop_ok_witness :
  wp (KTickTaskStop 20) (fun _ s' => task_stop_post tick_demo [20; 10] demo_time 0 20 s') tick_demo.
Proof. apply KTickTaskStop_ok; [apply tick_demo_ok|apply tick_demo_ok|simpl; set_solver]. Defined.

(** Callbacks that leave a trace of the tasks run in one register. *)
Definition trace_call (fn t : Z) : K unit := lift (modify (fun s => set_fpu (100 * k_fpu s + t) s)).
Definition traced (l : list Z) (s : kst) : Prop := k_fpu s = fold_left (fun a t => 100 * a + t) l 0.


(** Four runs: 20 at 40, 10 at 50, 20 at 70 and at 100. *)
Example tick_demo_trace :
  match runK (KTickTaskRun trace_call 200) tick_demo with
  | Ok (inl _, s') => k_fpu s' = 20102020 /\ tk_target (k_tick s') 20 = 130 /\ k_dec s' = 30
  | _ => False
  end.
Proof. by vm_compute. Qed.

(** Task 10 is started for time 1000 and then again for time 5. *)
Definition restart_demo : kst :=
  let boot := set_tick (mk_ticks NULL {[10]} (fun _ => NULL) (fun _ => NULL) (fun _ => 0) (fun _ => 0))
                (boot_kst ∅ MSR_RI (fun _ => 0)) in
  match (KTickTaskStart 10 1 1000 0;; KTickTaskStart 10 1 5 0) boot with Ok (_, s) => s | Fault _ => boot end.

(** Restarting the task that is already first does not set the decrementer,
    because the first task is compared with the one from before the task was
    taken out: the task is due at 5, the interrupt comes at 1000. *)
Theorem KTickTaskStart_restart_late :
  tk_first (k_tick restart_demo) = 10 /\ tk_target (k_tick restart_demo) 10 = 5 /\ k_dec restart_demo = 1000.
Proof. by vm_compute. Qed.
