(* ===== verification/Lwpc.v ===== *)
(** * The LWP compatibility layer ([libogc/lwpcompat])

    The older thread interface of the library on top of the tuxedo kernel:
    objects are numbered slots of static tables (wait queues, semaphores,
    mutexes, condition variables), or heap objects behind complemented pointers
    (threads, message queues, alarms). *)

From stdpp Require Import base gmap list fin_maps.
From Stdlib Require Import ZArith Lia.
From S2P Require Import Prelude Chain LwpHeap KState KTick KThread KSync KMailbox.

Open Scope Z_scope.

(** The null handle of every kind of object. *)
Definition LWP_NULL : Z := 0xffffffff.
Definition LWP_PRIO_HIGHEST : Z := 127.
Definition bad_handle (x : Z) : bool := (x =? 0) || (x =? LWP_NULL).

(** ** Slots ([lwpc_common.h]) *)

(** [__builtin_ffsll]: the number of the lowest set bit, counted from 1, or 0. *)
Fixpoint ffs_loop (n : nat) (i x : Z) : Z :=
  match n with
  | O => 0
  | S k => if Z.testbit x i then i + 1 else ffs_loop k (i + 1) x
  end.
Definition ffsll (x : Z) : Z := ffs_loop 64 0 x.

(** The tables of bits, and access to one of them. *)
Inductive slots := QueueUsed | SemUsed | MutexUsed | CondUsed.

Definition rd_used (w : slots) : M kst Z :=
  gets (fun s => match w with
    | QueueUsed => lw_queue_used (k_lwp s) | SemUsed => lw_sem_used (k_lwp s)
    | MutexUsed => lw_mutex_used (k_lwp s) | CondUsed => lw_cond_used (k_lwp s) end).
Definition upd_used (w : slots) (v : Z) (k : lwpc) : lwpc :=
  match w with
  | QueueUsed => mk_lwpc v (lw_sem_used k) (lw_sem_table k) (lw_mutex_used k) (lw_mutex_recursive k) (lw_cond_used k)
  | SemUsed => mk_lwpc (lw_queue_used k) v (lw_sem_table k) (lw_mutex_used k) (lw_mutex_recursive k) (lw_cond_used k)
  | MutexUsed => mk_lwpc (lw_queue_used k) (lw_sem_used k) (lw_sem_table k) v (lw_mutex_recursive k) (lw_cond_used k)
  | CondUsed => mk_lwpc (lw_queue_used k) (lw_sem_used k) (lw_sem_table k) (lw_mutex_used k) (lw_mutex_recursive k) v
  end.
Definition wr_used (w : slots) (v : Z) : M kst unit := modify (fun s => set_lwp (upd_used w v (k_lwp s)) s).

Definition lwpc_alloc_slot (w : slots) : M kst Z :=
  st <- PPCIrqLockByMsr;
  used <- rd_used w;
  let slot := ffsll (u64 (Z.lnot used)) - 1 in
  when (0 <=? slot) (wr_used w (Z.lor used (u64 (Z.shiftl 1 slot))));;
  PPCIrqUnlockByMsr st;;
  ret slot.

Definition lwpc_free_slot (w : slots) (slot : Z) : M kst unit :=
  st <- PPCIrqLockByMsr;
  used <- rd_used w;
  wr_used w (Z.land used (u64 (Z.lnot (u64 (Z.shiftl 1 slot)))));;
  PPCIrqUnlockByMsr st.

(** The value and the handle stored through the pointer argument. *)
Definition init_slot (w : slots) : M kst (Z * Z) :=
  slot <- lwpc_alloc_slot w;
  if 0 <=? slot then ret (0, u32 (slot + 1)) else ret (-1, LWP_NULL).

(** ** Wait queues ([lwpc_queue.c]) *)

Definition lwpc_queue : qref := QStatic 5.
Definition lwpc_sem_queue : qref := QStatic 6.

Definition LWP_InitQueue : M kst (Z * Z) := init_slot QueueUsed.

Definition LWP_CloseQueue (thequeue : Z) : M kst unit :=
  when (negb (bad_handle thequeue)) (lwpc_free_slot QueueUsed (thequeue - 1)).

Definition LWP_ThreadSleep (thequeue : Z) : K Z :=
  if bad_handle thequeue then kret (-1)
  else do! KThrQueueBlock lwpc_queue thequeue then kret 0.

Definition LWP_ThreadSignal (thequeue : Z) : K unit :=
  kwhen (negb (bad_handle thequeue)) (KThrQueueUnblockOneByValue lwpc_queue thequeue).

Definition LWP_ThreadBroadcast (thequeue : Z) : K unit :=
  kwhen (negb (bad_handle thequeue)) (KThrQueueUnblockAllByValue lwpc_queue thequeue).

(** ** Semaphores ([lwpc_sem.c]) *)

(** [lwpc_sem_table[i]]; the table has 64 entries. *)
Definition rd_sem (i : Z) : M kst Z :=
  getopt (fun s => if (0 <=? i) && (i <? 64) then Some (lw_sem_table (k_lwp s) i) else None).
Definition wr_sem (i v : Z) : M kst unit :=
  fun s => if (0 <=? i) && (i <? 64) then
             let k := k_lwp s in
             Ok (tt, set_lwp (mk_lwpc (lw_queue_used k) (lw_sem_used k) (fupd (lw_sem_table k) i (s32 v))
                                (lw_mutex_used k) (lw_mutex_recursive k) (lw_cond_used k)) s)
           else Fault BadAccess.

(** The maximum is not used. *)
Definition LWP_SemInit (start max : Z) : M kst (Z * Z) :=
  slot <- lwpc_alloc_slot SemUsed;
  if slot <? 0 then ret (-1, LWP_NULL)
  else wr_sem slot start;; ret (0, u32 (slot + 1)).

Definition LWP_SemDestroy (sem : Z) : M kst Z :=
  if bad_handle sem then ret (-1) else lwpc_free_slot SemUsed (sem - 1);; ret 0.

Definition LWP_SemWait (sem : Z) : K Z :=
  if bad_handle sem then kret (-1) else
  let! st := lift PPCIrqLockByMsr in
  let! v := lift (v <- rd_sem (sem - 1); wr_sem (sem - 1) (v - 1);; rd_sem (sem - 1)) in
  do! kwhen (v <? 0) (do! KThrQueueBlock lwpc_sem_queue sem then kret tt) then
  do! lift (PPCIrqUnlockByMsr st) then
  kret 0.

Definition LWP_SemGetValue (sem : Z) : M kst (Z * Z) :=
  if bad_handle sem then ret (-1, 0)
  else v <- rd_sem (sem - 1); ret (0, if 0 <=? v then v else 0).

Definition LWP_SemPost (sem : Z) : K Z :=
  if bad_handle sem then kret (-1) else
  let! st := lift PPCIrqLockByMsr in
  let! v := lift (v <- rd_sem (sem - 1); wr_sem (sem - 1) (v + 1);; ret v) in
  do! kwhen (v <? 0) (KThrQueueUnblockOneByValue lwpc_sem_queue sem) then
  do! lift (PPCIrqUnlockByMsr st) then
  kret 0.

(** ** Mutexes and condition variables ([lwpc_sync.c]) *)

Section Tables.
(** The address of [lwpc_mutex_table], an array of [KRMutex]. *)
Context (lwpc_mutex_table : Z).

Definition mutex_at (slot : Z) : Z := lwpc_mutex_table + 8 * slot.
Definition rd_recursive : M kst Z := gets (fun s => lw_mutex_recursive (k_lwp s)).
Definition wr_recursive (v : Z) : M kst unit :=
  modify (fun s => let k := k_lwp s in
    set_lwp (mk_lwpc (lw_queue_used k) (lw_sem_used k) (lw_sem_table k) (lw_mutex_used k) v (lw_cond_used k)) s).
Definition slot_bit (slot : Z) : Z := u64 (Z.shiftl 1 slot).
Definition is_recursive (slot : Z) : M kst bool :=
  r <- rd_recursive; ret (negb (Z.land r (slot_bit slot) =? 0)).

Definition LWP_MutexInit (use_recursive : bool) : M kst (Z * Z) :=
  slot <- lwpc_alloc_slot MutexUsed;
  if slot <? 0 then ret (-1, LWP_NULL) else
  st <- PPCIrqLockByMsr;
  r <- rd_recursive;
  (if use_recursive then wr_recursive (Z.lor r (slot_bit slot))
   else wr_recursive (Z.land r (u64 (Z.lnot (slot_bit slot)))));;
  PPCIrqUnlockByMsr st;;
  ret (0, u32 (1 + slot)).

Definition LWP_MutexDestroy (mutex : Z) : M kst Z :=
  if bad_handle mutex then ret (-1) else lwpc_free_slot MutexUsed (mutex - 1);; ret 0.

Definition LWP_MutexLock (mutex : Z) : K Z :=
  if bad_handle mutex then kret (-1) else
  let slot := mutex - 1 in
  let! r := lift (is_recursive slot) in
  do! (if r then KRMutexLock (mutex_at slot) else KMutexLock (mutex_at slot)) then
  kret 0.

Definition LWP_MutexTryLock (mutex : Z) : M kst Z :=
  if bad_handle mutex then ret (-1) else
  let slot := mutex - 1 in
  r <- is_recursive slot;
  rc <- (if (r : bool) then KRMutexTryLock (mutex_at slot) else KMutexTryLock (mutex_at slot));
  ret (if (rc : bool) then 0 else 1).

Definition LWP_MutexUnlock (mutex : Z) : K Z :=
  if bad_handle mutex then kret (-1) else
  let slot := mutex - 1 in
  let! r := lift (is_recursive slot) in
  do! (if r then KRMutexUnlock (mutex_at slot) else KMutexUnlock (mutex_at slot)) then
  kret 0.

Definition lwpc_get_condvar (cond : Z) : Z :=
  if bad_handle cond then NULL else u32 (0xc0000000 + cond).

(** The mutex and whether it is recursive; [None] for a null handle. *)
Definition lwpc_get_mutex_for_cv (mutex : Z) : M kst (option (Z * bool)) :=
  if bad_handle mutex then ret None
  else r <- is_recursive (mutex - 1); ret (Some (mutex_at (mutex - 1), r)).

Definition LWP_CondInit : M kst (Z * Z) :=
  slot <- lwpc_alloc_slot CondUsed;
  if slot <? 0 then ret (-1, LWP_NULL) else ret (0, u32 (slot + 1)).

Definition LWP_CondDestroy (cond : Z) : M kst Z :=
  if bad_handle cond then ret (-1) else lwpc_free_slot CondUsed (cond - 1);; ret 0.

Definition LWP_CondSignal (cond : Z) : K Z :=
  let cv := lwpc_get_condvar cond in
  if cv =? NULL then kret (-1) else do! KCondVarSignal cv then kret 0.

Definition LWP_CondBroadcast (cond : Z) : K Z :=
  let cv := lwpc_get_condvar cond in
  if cv =? NULL then kret (-1) else do! KCondVarBroadcast cv then kret 0.

Definition ETIMEDOUT : Z := 116.

(** [reltime] in ticks; [task] is the address of the timeout object on the
    stack. *)
Definition lwpc_cond_timed_wait_impl (task cv m : Z) (reltime : option Z) : K Z :=
  match reltime with
  | Some ticks => let! ok := KCondVarWaitTimeoutTicks task cv m ticks in kret (if (ok : bool) then 0 else ETIMEDOUT)
  | None => do! KCondVarWait cv m then kret 0
  end.

Definition LWP_CondTimedWait (task cond mutex : Z) (reltime : option Z) : K Z :=
  let cv := lwpc_get_condvar cond in
  if cv =? NULL then kret (-1) else
  let! mr := lift (lwpc_get_mutex_for_cv mutex) in
  match mr with
  | None => kret (-1)
  | Some (m, r) =>
      let! backup := lift (if (r : bool) then c <- rd_counter m; wr_counter m 0;; ret c else ret 0) in
      let! rc := lwpc_cond_timed_wait_impl task cv m reltime in
      do! lift (when r (wr_counter m backup)) then
      kret rc
  end.

Definition LWP_CondWait (task cond mutex : Z) : K Z := LWP_CondTimedWait task cond mutex None.
End Tables.

(** ** Message queues and threads ([lwpc_mq.c], [lwpc_thread.c])

    [malloc] and [free] belong to the C library; [SYS_SetTimeslice] is a weak
    symbol that the application may replace. Pointer arguments through which a
    result is stored are modelled by a flag for a non-null pointer and the value
    stored. *)

(** The pointer behind a handle, [~h]; NULL for a null handle. *)
Definition lwpc_pointer (h : Z) : Z := if bad_handle h then NULL else u32 (Z.lnot h).
Definition lwpc_handle (p : Z) : Z := u32 (Z.lnot p).

Definition SIZEOF_KMailbox : Z := 12.
Definition MQ_MSG_NOBLOCK : Z := 1.

Section HeapObjects.
Context (malloc : Z -> M kst Z) (free : Z -> M kst unit) (SYS_SetTimeslice : Z -> M kst unit).
(** Addresses fixed by the linker, and the size of [KThread]. *)
Context (addr_KThreadExit SDA_BASE SDA2_BASE sizeof_KThread : Z).

Definition lwpc_get_mailbox (mqbox : Z) : Z := lwpc_pointer mqbox.

(** The value returned, and the handle stored if the pointer is not null and an
    attempt was made. *)
Definition MQ_Init (mqbox : bool) (count : Z) : M kst (Z * option Z) :=
  if negb mqbox || (count =? 0) then ret (-1, None) else
  mb <- malloc (u32 (SIZEOF_KMailbox + u32 (count * 4)));
  if mb =? NULL then ret (-1, Some LWP_NULL) else
  KMailboxPrepare mb (mb + SIZEOF_KMailbox) count;;
  ret (0, Some (lwpc_handle mb)).

Definition MQ_Close (mqbox : Z) : M kst unit :=
  let mb := lwpc_get_mailbox mqbox in
  when (negb (mb =? NULL)) (free mb).

(** The code sets the flag MQ_MSG_NOBLOCK in every case. *)
Definition MQ_Send (mqbox msg flags : Z) : K Z :=
  let mb := lwpc_get_mailbox mqbox in
  if mb =? NULL then kret C_FALSE else
  let flags := if true then Z.lor flags MQ_MSG_NOBLOCK else flags in
  if negb (Z.land flags MQ_MSG_NOBLOCK =? 0)
  then let! ok := KMailboxTrySend mb msg in kret (b2z ok)
  else kret C_FALSE.

(** The value returned, and the message stored if there is one. *)
Definition MQ_Receive (mqbox flags : Z) : K (Z * option Z) :=
  let mb := lwpc_get_mailbox mqbox in
  if mb =? NULL then kret (C_FALSE, None) else
  let! ex := lift PPCIsInExcpt in
  let flags := if (ex : bool) then Z.lor flags MQ_MSG_NOBLOCK else flags in
  if negb (Z.land flags MQ_MSG_NOBLOCK =? 0) then
    let! r := lift (KMailboxTryRecv mb) in
    kret (match r with Some x => (C_TRUE, Some x) | None => (C_FALSE, None) end)
  else
    let! x := KMailboxRecv mb in
    kret (C_TRUE, Some x).

Definition lwpc_get_thread (thethread : Z) : Z := lwpc_pointer thethread.

Definition LWP_CreateThread (thethread : bool) (entry arg stackbase stack_size prio : Z) : K (Z * option Z) :=
  if negb thethread || (entry =? NULL) then kret (-1, None) else
  let stack_size := if stack_size =? 0 then 8 * 1024 else stack_size in
  let alloc_sz := if stackbase =? NULL then u32 (sizeof_KThread + stack_size) else sizeof_KThread in
  let! t := lift (malloc alloc_sz) in
  if t =? NULL then kret (-1, Some LWP_NULL) else
  let stackbase := if stackbase =? NULL then u32 (t + sizeof_KThread) else stackbase in
  do! lift (when (Z.land prio 0x80 =? 0) (SYS_SetTimeslice 1)) then
  do! lift (KThreadPrepare addr_KThreadExit SDA_BASE SDA2_BASE t entry arg (u32 (stackbase + stack_size))
              (KTHR_MIN_PRIO - Z.land prio LWP_PRIO_HIGHEST)) then
  do! KThreadResume t then
  kret (0, Some (lwpc_handle t)).

Definition LWP_SuspendThread (thethread : Z) : K Z :=
  let t := lwpc_get_thread thethread in
  if t =? NULL then kret (-1) else do! KThreadSuspend t then kret 0.

Definition LWP_ResumeThread (thethread : Z) : K Z :=
  let t := lwpc_get_thread thethread in
  if t =? NULL then kret (-1) else do! KThreadResume t then kret 0.

Definition LWP_ThreadIsSuspended (thethread : Z) : M kst Z :=
  let t := lwpc_get_thread thethread in
  if t =? NULL then ret C_FALSE else sus <- rd k_suspend t; ret (b2z (negb (sus =? 0))).

Definition LWP_GetSelf : M kst Z := self <- KThreadGetSelf; ret (lwpc_handle self).

Definition LWP_SetThreadPriority (thethread prio : Z) : K unit :=
  let! t := lift (if negb (thethread =? LWP_NULL) then ret (lwpc_get_thread thethread) else KThreadGetSelf) in
  kwhen (negb (t =? NULL)) (KThreadSetPrio t (KTHR_MIN_PRIO - Z.land prio LWP_PRIO_HIGHEST)).

Definition LWP_YieldThread : K unit := KThreadYield.

(** The value returned, and the exit code of the thread. *)
Definition LWP_JoinThread (thethread : Z) : K (Z * option Z) :=
  let t := lwpc_get_thread thethread in
  if t =? NULL then kret (-1, None) else
  let! rc := KThreadJoin t in
  do! lift (free t) then
  kret (0, Some rc).
End HeapObjects.

(** ** Alarms ([lwpc_alarm.c], [lwp_wkspace.inl]) *)

(** Heap code runs on the memory of words. *)
Definition on_mem {A} (c : M mem A) : M kst A :=
  fun s => match c (k_mem s) with Ok (a, m) => Ok (a, set_mem m s) | Fault f => Fault f end.

Section Alarms.
(** The address of [__wkspace_heap]. *)
Context (wkspace_heap : Z).

Definition lwp_wkspace_allocate (size : Z) : M kst Z := on_mem (lwp_heap_allocate wkspace_heap size).
Definition lwp_wkspace_free (ptr : Z) : M kst Z := on_mem (lwp_heap_free wkspace_heap ptr).

(** [struct lwpc_alarm]: the task, then [cb] and [cbarg]. *)
Definition SIZEOF_alarm : Z := 32.
Definition alarm_cb (a : Z) : Z := a + 24.
Definition alarm_cbarg (a : Z) : Z := a + 28.

(** The memory of a new alarm becomes a task object with all fields zero. *)
Definition clear_alarm (a : Z) : M kst unit :=
  modify (fun s => let k := k_tick s in
    set_tick (mk_ticks (tk_first k) ({[a]} ∪ tk_valid k) (fupd (tk_next k) a NULL) (fupd (tk_fn k) a NULL)
                (fupd (tk_target k) a 0) (fupd (tk_period k) a 0)) s);;
  wr_word (alarm_cb a) NULL;;
  wr_word (alarm_cbarg a) NULL.

Definition SYS_CreateAlarm : M kst (Z * option Z) :=
  alarm <- lwp_wkspace_allocate SIZEOF_alarm;
  if alarm =? NULL then ret (-1, None) else
  clear_alarm alarm;;
  ret (0, Some alarm).

(** The code address of [lwpc_alarm_cb]. *)
Definition fn_lwpc_alarm_cb : Z := 3.
(** [call cb alarm arg] is the call of the application's callback. *)
Definition lwpc_alarm_cb (call : Z -> Z -> Z -> K unit) (t : Z) : K unit :=
  let! cb := lift (rd_word (alarm_cb t)) in
  let! arg := lift (rd_word (alarm_cbarg t)) in
  call cb t arg.

Definition SYS_SetAlarmCommon (thealarm start period cb cbarg : Z) : M kst Z :=
  if thealarm =? NULL then ret (-1) else
  st <- PPCIrqLockByMsr;
  wr_word (alarm_cb thealarm) cb;;
  wr_word (alarm_cbarg thealarm) cbarg;;
  KTickTaskStart thealarm fn_lwpc_alarm_cb start period;;
  PPCIrqUnlockByMsr st;;
  ret 0.

(** Times in ticks. *)
Definition SYS_SetAlarm (thealarm tp cb cbarg : Z) : M kst Z := SYS_SetAlarmCommon thealarm tp 0 cb cbarg.
Definition SYS_SetPeriodicAlarm (thealarm tp_start tp_period cb cbarg : Z) : M kst Z :=
  SYS_SetAlarmCommon thealarm tp_start tp_period cb cbarg.

Definition SYS_CancelAlarm (thealarm : Z) : M kst Z :=
  if thealarm =? NULL then ret (-1) else
  KTickTaskStop thealarm;;
  ret 0.

Definition SYS_RemoveAlarm (thealarm : Z) : M kst Z :=
  r <- SYS_CancelAlarm thealarm;
  when (0 <=? r) (lwp_wkspace_free thealarm;; ret tt);;
  ret r.
End Alarms.
