(* ===== verification/LwpcProofs.v ===== *)
(** * The LWP compatibility layer: proofs

    Slots are handed out lowest first; a semaphore counts its tokens and its
    waiting threads in one signed number; waiting on a condition variable keeps
    the depth of a recursive mutex. *)

From stdpp Require Import base gmap list fin_maps.
From Stdlib Require Import ZArith Lia.
From S2P Require Import Prelude Chain KState KTick KThread KLists KSched KSchedOps KBlock KLife KSync KPrio KMutexProofs KSetPrio KSound KRest KMailbox Lwpc.

Open Scope Z_scope.

(** ** Slots *)

Lemma ffs_loop_spec n : forall i x,
  let r := ffs_loop n i x in
  (r = 0 /\ forall j, i <= j < i + Z.of_nat n -> Z.testbit x j = false) \/
  (i < r <= i + Z.of_nat n /\ Z.testbit x (r - 1) = true /\ forall j, i <= j < r - 1 -> Z.testbit x j = false).
Proof.
  induction n as [|n IH]; intros i x; cbn [ffs_loop].
  - left. split; [done|]. intros j Hj. lia.
  - destruct (Z.testbit x i) eqn:E.
    + right. split; [lia|]. split; [by rewrite Z.add_simpl_r|]. intros j Hj. lia.
    + destruct (IH (i + 1) x) as [ [H1 H2]|(H1 & H2 & H3)].
      * left. split; [done|]. intros j Hj. destruct (decide (j = i)) as [->|]; [done|]. apply H2. lia.
      * right. split; [lia|]. split; [done|]. intros j Hj. destruct (decide (j = i)) as [->|]; [done|]. apply H3. lia.
Qed.

(** The slot of [lwpc_alloc_slot]. *)
Definition free_slot (used : Z) : Z := ffsll (u64 (Z.lnot used)) - 1.

Lemma lnot_bit used j : 0 <= j < 64 -> Z.testbit (u64 (Z.lnot used)) j = negb (Z.testbit used j).
Proof. intros Hj. unfold wrap. rewrite Z.mod_pow2_bits_low by lia. apply Z.lnot_spec. lia. Qed.

Lemma free_slot_spec used :
  (free_slot used = -1 /\ forall j, 0 <= j < 64 -> Z.testbit used j = true) \/
  (0 <= free_slot used < 64 /\ Z.testbit used (free_slot used) = false /\
   forall j, 0 <= j < free_slot used -> Z.testbit used j = true).
Proof.
  unfold free_slot, ffsll. destruct (ffs_loop_spec 64 0 (u64 (Z.lnot used))) as [ [H1 H2]|(H1 & H2 & H3)].
  - left. rewrite H1. split; [done|]. intros j Hj. specialize (H2 j Hj). rewrite lnot_bit in H2 by done.
    by destruct (Z.testbit used j).
  - right. split; [lia|]. rewrite lnot_bit in H2 by lia. split; [by destruct (Z.testbit used _)|].
    intros j Hj. specialize (H3 j ltac:(lia)). rewrite lnot_bit in H3 by lia. by destruct (Z.testbit used j).
Qed.

Definition used_of (w : slots) (s : kst) : Z :=
  match w with
  | QueueUsed => lw_queue_used (k_lwp s) | SemUsed => lw_sem_used (k_lwp s)
  | MutexUsed => lw_mutex_used (k_lwp s) | CondUsed => lw_cond_used (k_lwp s)
  end.

(** Taking and returning slots as operations on the set of used slots. *)
Definition slot_state (w : slots) (s : kst) (X : Z -> Prop) : Prop :=
  forall j, 0 <= j < 64 -> Z.testbit (used_of w s) j = true <-> X j.

Lemma used_upd w v s : used_of w (set_lwp (upd_used w v (k_lwp s)) s) = v.
Proof. by destruct w. Qed.

Lemma shift_bit slot j : 0 <= slot < 64 -> 0 <= j < 64 -> Z.testbit (u64 (Z.shiftl 1 slot)) j = (j =? slot).
Proof.
  intros Hs Hj. unfold wrap. rewrite Z.mod_pow2_bits_low by lia. rewrite Z.shiftl_spec by lia.
  destruct (Z.eqb_spec j slot) as [->|Hne]; [by rewrite Z.sub_diag|].
  destruct (Z_lt_le_dec (j - slot) 0); [by apply Z.testbit_neg_r|].
  rewrite (Z.bits_above_log2 1); [done|lia|]. simpl. lia.
Qed.

Lemma alloc_spec w s :
  wp (lwpc_alloc_slot w) (fun slot s' => exists m v,
    s' = set_msr m (set_lwp (upd_used w v (k_lwp s)) s) /\
    ((slot = -1 /\ v = used_of w s /\ forall j, 0 <= j < 64 -> Z.testbit (used_of w s) j = true) \/
     (0 <= slot < 64 /\ Z.testbit (used_of w s) slot = false /\
      (forall j, 0 <= j < slot -> Z.testbit (used_of w s) j = true) /\
      forall j, 0 <= j < 64 -> Z.testbit v j = (j =? slot) || Z.testbit (used_of w s) j))) s.
Proof.
  unfold lwpc_alloc_slot. apply wp_bind. unfold PPCIrqLockByMsr. krun. unfold rd_used. krun. ksimpl.
  change (match w with QueueUsed => lw_queue_used (k_lwp s) | SemUsed => lw_sem_used (k_lwp s)
    | MutexUsed => lw_mutex_used (k_lwp s) | CondUsed => lw_cond_used (k_lwp s) end) with (used_of w s).
  fold (free_slot (used_of w s)). destruct (free_slot_spec (used_of w s)) as [ [H1 H2]|(H1 & H2 & H3)].
  - rewrite H1. cbn [Z.leb Z.compare when]. krun. unfold PPCIrqUnlockByMsr. krun. ksimpl.
    eexists _, (used_of w s). split; [|left; by split_and!]. by destruct w, s as [? ? ? ? ? ? ? ? ? ? ? ? ? ? ? ? ? ? ? ? ? ? []].
  - rewrite (proj2 (Z.leb_le 0 _)) by lia. cbn [when]. unfold wr_used. krun. unfold PPCIrqUnlockByMsr. krun. ksimpl.
    eexists _, _. split; [done|]. right. split_and!; [lia|lia|done|done|]. intros j Hj. rewrite Z.lor_spec, shift_bit by lia.
    by rewrite orb_comm.
Qed.

Lemma free_slot_ok w s slot X :
  slot_state w s X -> 0 <= slot < 64 ->
  wp (lwpc_free_slot w slot) (fun _ s' => slot_state w s' (fun j => X j /\ j <> slot)) s.
Proof.
  intros Hx Hs. unfold lwpc_free_slot. apply wp_bind. unfold PPCIrqLockByMsr. krun. unfold rd_used. krun. ksimpl.
  change (match w with QueueUsed => lw_queue_used (k_lwp s) | SemUsed => lw_sem_used (k_lwp s)
    | MutexUsed => lw_mutex_used (k_lwp s) | CondUsed => lw_cond_used (k_lwp s) end) with (used_of w s).
  unfold wr_used. krun. unfold PPCIrqUnlockByMsr. krun. ksimpl. intros j Hj.
  assert (E : forall m v, used_of w (set_msr m (set_lwp (upd_used w v (k_lwp s)) s)) = v) by by destruct w.
  match goal with |- Z.testbit (used_of w ?st) j = true <-> _ =>
    replace (used_of w st) with (Z.land (used_of w s) (u64 (Z.lnot (u64 (Z.shiftl 1 slot))))) by by destruct w end.
  rewrite Z.land_spec, lnot_bit, shift_bit, andb_true_iff, (Hx j Hj), negb_true_iff, Z.eqb_neq by lia. tauto.
Qed.

(** C37. Slots: [lwpc_alloc_slot] hands out the lowest slot that is not in use,
    or reports -1 exactly if all 64 are; [lwpc_free_slot] gives a slot back. *)
Theorem lwpc_slots_ok w s X :
  slot_state w s X ->
  wp (lwpc_alloc_slot w) (fun slot s' =>
    (slot = -1 /\ (forall j, 0 <= j < 64 -> X j) /\ slot_state w s' X) \/
    (0 <= slot < 64 /\ ~ X slot /\ (forall j, 0 <= j < slot -> X j) /\
     slot_state w s' (fun j => j = slot \/ X j) /\
     wp (lwpc_free_slot w slot) (fun _ s2 => slot_state w s2 X) s')) s.
Proof.
  intros Hx. eapply wp_mono; [apply alloc_spec|]. intros slot s' (m & v & -> & H).
  assert (E : used_of w (set_msr m (set_lwp (upd_used w v (k_lwp s)) s)) = v) by by destruct w.
  destruct H as [(-> & -> & H)|(H1 & H2 & H3 & H4)].
  - left. split_and!; [done| |].
    + intros j Hj. by apply (Hx j Hj), H.
    + intros j Hj. by rewrite E, (Hx j Hj).
  - right. assert (Hs : slot_state w (set_msr m (set_lwp (upd_used w v (k_lwp s)) s)) (fun j => j = slot \/ X j)).
    { intros j Hj. rewrite E, H4 by done. by rewrite orb_true_iff, Z.eqb_eq, (Hx j Hj). }
    split_and!; try lia; try done.
    + rewrite <- (Hx slot) by lia. by rewrite H2.
    + intros j Hj. apply (Hx j ltac:(lia)), H3. lia.
    + eapply wp_mono; [apply (free_slot_ok _ _ _ _ Hs H1)|]. intros ? s2 H5 j Hj. rewrite (H5 j Hj).
      split; [intros [ [->|?] ?]; done|]. intros Hj2. split; [by right|]. intros ->. apply (Hx slot) in Hj2; [|lia].
      by rewrite H2 in Hj2.
Qed.

Lemma lwpc_slots_ok_witness :
  wp (lwpc_alloc_slot SemUsed) (fun slot s' =>
    (slot = -1 /\ (forall j, 0 <= j < 64 -> False) /\ slot_state SemUsed s' (fun _ => False)) \/
    (0 <= slot < 64 /\ ~ False /\ (forall j, 0 <= j < slot -> False) /\
     slot_state SemUsed s' (fun j => j = slot \/ False) /\
     wp (lwpc_free_slot SemUsed slot) (fun _ s2 => slot_state SemUsed s2 (fun _ => False)) s')) demo3.
Proof.
  apply (lwpc_slots_ok SemUsed demo3 (fun _ => False)). intros j Hj.
  assert (E : used_of SemUsed demo3 = 0) by by vm_compute. rewrite E, Z.bits_0. clear E. split; [discriminate|contradiction].
Defined.

(** ** Semaphores *)

(** The threads that wait for [sem]. *)
Definition waiting_for (s : kst) (W : qref -> list Z) (sem : Z) : list Z :=
  filter (fun t => k_token s t = sem) (W lwpc_sem_queue).

(** The number in the table is the number of tokens, or minus the number of
    waiting threads. *)
Record sem_ok (s : kst) (W : qref -> list Z) (sem v : Z) : Prop := {
  sm_handle : 1 <= sem <= 64;
  sm_value : lw_sem_table (k_lwp s) (sem - 1) = v;
  sm_range : - 2 ^ 31 < v < 2 ^ 31 - 1;
  sm_waiting : Z.of_nat (length (waiting_for s W sem)) = Z.max 0 (- v);
}.

Lemma wp_rd_sem i Q s : 0 <= i < 64 -> Q (lw_sem_table (k_lwp s) i) s -> wp (rd_sem i) Q s.
Proof.
  intros Hi HQ. eapply wp_getopt; [|exact HQ]. by rewrite (proj2 (Z.leb_le 0 i)), (proj2 (Z.ltb_lt i 64)) by lia.
Qed.

(** Only the value of one semaphore changed. *)
Definition sem_step (i v : Z) (s s' : kst) : Prop :=
  exists k, s' = set_lwp k s /\ lw_sem_table k = fupd (lw_sem_table (k_lwp s)) i (s32 v).

Lemma wp_wr_sem i v Q s : 0 <= i < 64 -> (forall s', sem_step i v s s' -> Q tt s') -> wp (wr_sem i v) Q s.
Proof.
  intros Hi HQ. unfold wp, wr_sem. rewrite (proj2 (Z.leb_le 0 i)), (proj2 (Z.ltb_lt i 64)) by lia. apply HQ.
  by eexists.
Qed.

Lemma lwp_step_sound s k L W : ksound s L W -> ksound (set_lwp k s) L W.
Proof. intros [ [ [ [] ?] []] []]. split; [split|]; split; try done. split; try done. by apply (waits_ext s). Qed.

Lemma not_bad sem : 1 <= sem <= 64 -> bad_handle sem = false.
Proof.
  intros H. unfold bad_handle. rewrite (proj2 (Z.eqb_neq sem 0)), (proj2 (Z.eqb_neq sem LWP_NULL)); [done|unfold LWP_NULL; lia|lia].
Qed.

Lemma filter_ext_in (P Q : Z -> Prop) `{forall x, Decision (P x)} `{forall x, Decision (Q x)} (l : list Z) :
  (forall x, x ∈ l -> P x <-> Q x) -> filter P l = filter Q l.
Proof.
  induction l as [|x r IH]; intros Hx; [done|]. rewrite !filter_cons.
  assert (E := Hx x ltac:(apply elem_of_cons; by left)).
  rewrite IH by (intros y Hy; apply Hx, elem_of_cons; by right).
  destruct (decide (P x)), (decide (Q x)); tauto.
Qed.

(** The counts depend on the queue and the tokens of its members. *)
Lemma waiting_ext s s' W W' sem l :
  W' lwpc_sem_queue ≡ₚ l ++ W lwpc_sem_queue -> (forall t, t ∈ W lwpc_sem_queue -> k_token s' t = k_token s t) ->
  length (waiting_for s' W' sem) = (length (filter (fun t => k_token s' t = sem) l) + length (waiting_for s W sem))%nat.
Proof.
  intros HW Ht. unfold waiting_for. rewrite HW, filter_app, length_app. f_equal. f_equal.
  apply filter_ext_in. intros t Hin. by rewrite Ht.
Qed.

Lemma sem_dec_spec s W sem v :
  sem_ok s W sem v -> - 2 ^ 31 + 1 < v ->
  wp (v <- rd_sem (sem - 1); wr_sem (sem - 1) (v - 1);; rd_sem (sem - 1))
    (fun r s' => r = v - 1 /\ sem_step (sem - 1) (v - 1) s s') s.
Proof.
  intros [H1 H2 H3 H4] Hv. apply wp_bind, wp_rd_sem; [lia|]. rewrite H2. apply wp_bind, wp_wr_sem; [lia|].
  intros s' Hs. assert (H := Hs). destruct H as (k & -> & E). apply wp_rd_sem; [lia|]. split; [|done].
  ksimpl. rewrite E, fupd_eq. apply swrap_small; [lia|]. change (32 - 1) with 31. lia.
Qed.

(** The new value, with the waiting threads counted in [W']. *)
Lemma sem_ok_intro s W sem v s' W' v' :
  sem_ok s W sem v -> lw_sem_table (k_lwp s') (sem - 1) = s32 v' -> - 2 ^ 31 < v' < 2 ^ 31 - 1 ->
  Z.of_nat (length (waiting_for s' W' sem)) = Z.max 0 (- v') -> sem_ok s' W' sem v'.
Proof.
  intros [H1 H2 H3 H4] E Hr Hw. split; try done. rewrite E. apply swrap_small; [lia|]. change (32 - 1) with 31. lia.
Qed.

Lemma sem_wait_spec s L W sem v :
  let W' := fupd W lwpc_sem_queue (ins_prio (k_prio s) (k_self s) (W lwpc_sem_queue)) in
  ksound s L W -> running s (k_self s) -> in_excpt s = false -> other_running s L (k_self s) ->
  sem_ok s W sem v -> - 2 ^ 31 + 1 < v ->
  wpk (LWP_SemWait sem)
    (fun r s' => r = 0 /\ 0 < v /\ ksound s' L W /\ sem_ok s' W sem (v - 1) /\ k_msr s' = Z.ldiff (k_msr s) MSR_FP)
    (fun k s' => v <= 0 /\ ksound s' L W' /\ sem_ok s' W' sem (v - 1) /\ k_self s ∈ W' lwpc_sem_queue /\
       forall s2, k_self s ∈ k_thr s2 -> wpk k (fun r s3 => r = 0 /\ exists m, s3 = set_msr m s2) (fun _ _ => False) s2) s.
Proof.
  intros W' Hs Hr Hex Ho Hsem Hv. unfold LWP_SemWait. rewrite (not_bad sem (sm_handle _ _ _ _ Hsem)).
  kstep. apply wp_irq_lock. intros st Hst Hmsr. set (m := Z.ldiff (k_msr s) _) in *.
  assert (Hm : Z.land m MSR_RI = Z.land (k_msr s) MSR_RI) by by apply land_ldiff_disjoint.
  assert (Hs1 : ksound (set_msr m s) L W) by by apply ksound_msr.
  kstep. eapply wp_mono; [apply (sem_dec_spec (set_msr m s) W sem v); [by destruct Hsem|done]|].
  intros r s1 (-> & k & -> & Ek). ksimpl in Ek. set (s1 := set_lwp k (set_msr m s)) in *.
  assert (Hs2 : ksound s1 L W) by by apply lwp_step_sound. pose proof (sm_waiting _ _ _ _ Hsem) as Hw.
  pose proof (sm_range _ _ _ _ Hsem) as Hrg.
  destruct (Z.ltb_spec (v - 1) 0) as [Hneg|Hpos]; cbn [kwhen].
  - apply wpk_bind, wpk_bind.
    eapply wpk_mono; [apply wpk_rest; [apply (block_away s1 L W 6 sem Hs2)|apply block_rest]|..].
    + exact Hr.
    + exact Ho.
    + unfold in_excpt, s1 in *. ksimpl. by rewrite Hm.
    + done.
    + intros k2 s' ( (F1 & k' & F2) & F3). split; [lia|]. split; [exact F1|].
      destruct F2 as ( (m2 & x2 & c2 & f2 & ->) & _). ksimpl.
      assert (Hni : k_self s ∉ W lwpc_sem_queue).
      { intros Hin. destruct Hs2 as [ [Hk2 Hsc] _].
        apply (w_in _ _ (ki_waits _ _ _ (ki_base _ _ _ Hk2))) in Hin as [_ Hq].
        destruct (status_running _ _ _ _ Hk2 (sc_self _ _ Hsc) Hr) as [Hq' _]. unfold s1 in *. ksimpl in Hq. ksimpl in Hq'. congruence. }
      split_and!.
      * eapply sem_ok_intro; [exact Hsem|unfold blocked, with_token, with_state, s1; ksimpl; rewrite Ek, fupd_eq; reflexivity|lia|].
        rewrite (waiting_ext s _ W W' sem [k_self s]).
        -- rewrite Nat2Z.inj_add, Hw, filter_cons_True; [simpl; lia|].
           unfold blocked, with_token, with_state, s1. ksimpl. apply fupd_eq.
        -- unfold W'. rewrite fupd_eq. apply ins_perm.
        -- intros t Ht. unfold blocked, with_token, with_state. ksimpl. rewrite fupd_ne; [done|]. by intros ->.
      * unfold W'. rewrite fupd_eq. apply elem_of_ins. by left.
      * intros s4 Hin. eapply (wpk_inert_bind (fun s2 => k_self s ∈ k_thr s2)); [|exact Hin|].
        { apply inert_bind; [exact F3|]. intros _. apply inert_ret. }
        intros _. kstep. apply wp_irq_unlock, wpk_ret. eauto.
  - apply wpk_bind, wpk_ret. kstep. apply wp_irq_unlock, wpk_ret. split_and!; [done|lia|..|exact Hmsr].
    + apply ksound_msr; [by apply unlock_excpt|done].
    + eapply sem_ok_intro; [exact Hsem|unfold s1; ksimpl; rewrite Ek, fupd_eq; reflexivity|lia|].
      change (waiting_for (set_msr _ s1) W sem) with (waiting_for s W sem). lia.
Qed.

(** Waiting on a semaphore: with a token left the call takes it and
    returns; otherwise the caller waits, in priority order, and the number in the
    table counts it. *)
Theorem LWP_SemWait_ok s L W sem v :
  let W' := fupd W lwpc_sem_queue (ins_prio (k_prio s) (k_self s) (W lwpc_sem_queue)) in
  ksound s L W -> running s (k_self s) -> in_excpt s = false -> other_running s L (k_self s) ->
  sem_ok s W sem v -> - 2 ^ 31 + 1 < v ->
  wpk (LWP_SemWait sem)
    (fun r s' => r = 0 /\ 0 < v /\ ksound s' L W /\ sem_ok s' W sem (v - 1) /\ k_msr s' = Z.ldiff (k_msr s) MSR_FP)
    (fun k s' => v <= 0 /\ ksound s' L W' /\ sem_ok s' W' sem (v - 1) /\ k_self s ∈ W' lwpc_sem_queue /\
       forall s2, k_self s ∈ k_thr s2 -> wpk k (fun r s3 => r = 0 /\ exists m, s3 = set_msr m s2) (fun _ _ => False) s2) s.
Proof. apply sem_wait_spec. Qed.

(** Waking one thread by value: the first with this token. *)
Lemma woken_one tok ref R :
  woken tok KTHR_UNBLOCK_BY_VALUE ref 1 R = take 1 (filter (fun t => tok t = ref) R).
Proof.
  induction R as [|t r IH]; [done|]. cbn [woken]. cbn [hit Z.eqb Pos.eqb]. rewrite filter_cons.
  destruct (Z.eqb_spec (tok t) ref) as [E|E]; [rewrite decide_True by done|by rewrite decide_False].
  simpl. f_equal. by destruct r.
Qed.

Lemma filter_drop_first (P : Z -> Prop) `{forall x, Decision (P x)} (R : list Z) t r :
  NoDup R -> filter P R = t :: r -> filter P (filter (fun x => x ∉ [t]) R) = r.
Proof.
  intros Hd Hf. rewrite list_filter_filter.
  rewrite (filter_ext_in _ (fun x => x ∉ [t] /\ P x)) by (intros; tauto).
  rewrite <- (list_filter_filter (fun x => x ∉ [t]) P), Hf.
  assert (Hn : NoDup (t :: r)) by (rewrite <- Hf; by apply NoDup_filter). apply NoDup_cons in Hn as [Hn _].
  rewrite filter_cons_False by set_solver. apply filter_all. intros x Hx. set_solver.
Qed.

(** The threads a post wakes. *)
Definition released (s : kst) (W : qref -> list Z) (sem v : Z) : list Z :=
  if v <? 0 then take 1 (waiting_for s W sem) else [].

(** Posting to a semaphore: with threads waiting, the first of them (the one
    of highest priority) is woken and leaves the queue; otherwise a token is
    added. The number in the table keeps counting both. *)
Theorem LWP_SemPost_ok s L W sem v :
  let W' := without W lwpc_sem_queue (released s W sem v) in
  ksound s L W -> running s (k_self s) -> sem_ok s W sem v -> v < 2 ^ 31 - 2 ->
  wpk (LWP_SemPost sem)
    (fun r s' => r = 0 /\ ksound s' L W' /\ sem_ok s' W' sem (v + 1))
    (fun k s' => v < 0 /\ ksound s' L W' /\ sem_ok s' W' sem (v + 1) /\
       forall s2, wpk k (fun r s3 => r = 0 /\ exists m, s3 = set_msr m s2) (fun _ _ => False) s2) s.
Proof.
  intros W' Hs Hr Hsem Hv. unfold LWP_SemPost. rewrite (not_bad sem (sm_handle _ _ _ _ Hsem)).
  assert (Hh := sm_handle _ _ _ _ Hsem). pose proof (sm_waiting _ _ _ _ Hsem) as Hw. pose proof (sm_range _ _ _ _ Hsem) as Hrg.
  kstep. apply wp_irq_lock. intros st Hst Hmsr. set (m := Z.ldiff (k_msr s) _) in *.
  assert (Hm : Z.land m MSR_RI = Z.land (k_msr s) MSR_RI) by by apply land_ldiff_disjoint.
  kstep. apply wp_bind, wp_rd_sem; [lia|]. ksimpl. rewrite (sm_value _ _ _ _ Hsem).
  apply wp_bind, wp_wr_sem; [lia|]. intros s1' (k & -> & Ek). ksimpl in Ek. kstep.
  set (s1 := set_lwp k (set_msr m s)) in *.
  assert (Hs1 : ksound s1 L W) by (apply lwp_step_sound; by apply ksound_msr).
  unfold W', released. destruct (Z.ltb_spec v 0) as [Hneg|Hpos]; cbn [kwhen].
  - destruct (waiting_for s W sem) as [|t r] eqn:Ewt; [simpl in Hw; lia|]. cbn [take length] in *.
    assert (Hwk : woken (k_token s) KTHR_UNBLOCK_BY_VALUE sem 1 (W lwpc_sem_queue) = [t]).
    { rewrite woken_one. unfold waiting_for in Ewt. by rewrite Ewt. }
    assert (Hnd : NoDup (W lwpc_sem_queue)) by apply (w_nodup _ _ (ki_waits _ _ _ (ki_base _ _ _ (proj1 (proj1 Hs))))).
    assert (Hend : forall b s', ksound s' L (without W lwpc_sem_queue [t]) ->
      (exists s2, woke (new_token KTHR_UNBLOCK_BY_VALUE sem) [t] s1 s2 /\ outcome s1 s2 L b s') ->
      sem_ok s' (without W lwpc_sem_queue [t]) sem (v + 1)).
    { intros b s' _ (s2 & (a2 & b2 & c2 & d2 & -> & _ & Hb & _) & (m2 & x2 & n2 & f2 & ->) & _). ksimpl.
      eapply sem_ok_intro; [exact Hsem|unfold s1; ksimpl; rewrite Ek, fupd_eq; reflexivity|lia|].
      unfold waiting_for. ksimpl. unfold without. rewrite fupd_eq.
      rewrite (filter_ext_in _ (fun x => k_token s x = sem)).
      2:{ intros x [Hx _]%list_elem_of_filter. rewrite Hb, decide_False by done. done. }
      rewrite (filter_drop_first _ _ t r Hnd Ewt). lia. }
    apply wpk_bind. eapply wpk_mono; [apply wpk_rest; [apply (unblock_sound s1 L W 6 1 KTHR_UNBLOCK_BY_VALUE sem Hs1 Hr)|apply unblock_rest]|..].
    + change (k_token s1) with (k_token s). fold lwpc_sem_queue. rewrite Hwk. intros ? s' [F1 F2].
      kstep. apply wp_irq_unlock, wpk_ret. split; [done|]. split.
      * apply ksound_msr; [by apply unlock_excpt|done].
      * destruct (Hend true s' F1 F2). by split.
    + change (k_token s1) with (k_token s). fold lwpc_sem_queue. rewrite Hwk. intros k2 s' [ [F1 F2] F3].
      split; [done|]. split; [done|]. split; [by eapply Hend|]. intros s4.
      eapply (wpk_inert_bind (fun _ => True)); [exact F3|done|]. intros _. kstep. apply wp_irq_unlock, wpk_ret. eauto.
  - apply wpk_bind, wpk_ret. kstep. apply wp_irq_unlock, wpk_ret. split; [done|]. split.
    + apply ksound_msr; [by apply unlock_excpt|]. eapply ksound_queues; [|exact Hs1]. intros q. apply without_nil.
    + eapply sem_ok_intro; [exact Hsem|unfold s1; ksimpl; rewrite Ek, fupd_eq; reflexivity|lia|].
      unfold waiting_for. rewrite without_nil.
      change (k_token (set_msr _ s1)) with (k_token s). fold (waiting_for s W sem). lia.
Qed.

(** A semaphore with no token, made in [demo3]; then the main thread waits. *)
Definition sem_demo : kst := out (LWP_SemInit 0 1) demo3.
Definition sem_demo2 : kst := outk (LWP_SemWait 1) sem_demo.

Lemma sem_init_sound s L W start max : ksound s L W -> ksound (out (LWP_SemInit start max) s) L W.
Proof.
  intros Hs. apply (out_wp _ (fun s => ksound s L W)). unfold LWP_SemInit, lwpc_alloc_slot, PPCIrqLockByMsr.
  apply wp_bind. krun. unfold rd_used. krun. ksimpl.
  assert (Hend : forall k, ksound (set_msr (Z.lor (Z.ldiff (Z.ldiff (k_msr s) (Z.lor MSR_EE MSR_FP)) MSR_EE)
      (Z.land (k_msr s) MSR_EE)) (set_lwp k (set_msr (Z.ldiff (k_msr s) (Z.lor MSR_EE MSR_FP)) s))) L W).
  { intros k. apply ksound_msr; [ksimpl; apply unlock_excpt, land_irq|]. apply lwp_step_sound, ksound_msr; [|done].
    by apply land_ldiff_disjoint. }
  set (slot := ffsll _ - 1). destruct (Z.leb_spec 0 slot) as [H|H]; cbn [when].
  - unfold wr_used. krun. unfold PPCIrqUnlockByMsr. krun. ksimpl. rewrite (proj2 (Z.ltb_ge slot 0)) by lia.
    apply wp_bind. apply wp_wr_sem.
    + pose proof (ffs_loop_spec 64 0 (u64 (Z.lnot (lw_sem_used (k_lwp s))))) as [ [E _]|[E _] ];
        unfold slot, ffsll in *; lia.
    + intros s' (k & -> & _). krun. apply lwp_step_sound, Hend.
  - krun. unfold PPCIrqUnlockByMsr. krun. ksimpl. rewrite (proj2 (Z.ltb_lt slot 0)) by lia. krun.
    apply ksound_msr; [ksimpl; apply unlock_excpt, land_irq|]. apply ksound_msr; [|done]. by apply land_ldiff_disjoint.
Qed.

Lemma sem_demo_ok : ksound sem_demo [200; 100; 400; 300] noq /\ sem_ok sem_demo noq 1 0.
Proof.
  split; [apply sem_init_sound, demo3_sound|]. split; [lia|by vm_compute|lia|by vm_compute].
Qed.

Lemma sem_demo_other : other_running sem_demo [200; 100; 400; 300] (k_self sem_demo).
Proof. exists 400. split_and!; [decide_vm|by vm_compute|by vm_compute]. Qed.

Definition sem_queues : qref -> list Z :=
  fupd noq lwpc_sem_queue (ins_prio (k_prio sem_demo) (k_self sem_demo) (noq lwpc_sem_queue)).

Lemma sem_demo2_ok : ksound sem_demo2 [200; 100; 400; 300] sem_queues /\ sem_ok sem_demo2 sem_queues 1 (-1).
Proof.
  apply (outk_wp (LWP_SemWait 1) (fun s => ksound s [200; 100; 400; 300] sem_queues /\ sem_ok s sem_queues 1 (-1))).
  eapply wpk_mono; [apply (sem_wait_spec sem_demo [200; 100; 400; 300] noq 1 0)|..].
  - apply sem_demo_ok.
  - by vm_compute.
  - by vm_compute.
  - apply sem_demo_other.
  - apply sem_demo_ok.
  - lia.
  - intros ? s' (_ & H & _). lia.
  - intros ? s' (_ & H1 & H2 & _). by split.
Qed.

Lemma LWP_SemWait_ok_witness :
  wpk (LWP_SemWait 1)
    (fun r s' => r = 0 /\ 0 < 0 /\ ksound s' [200; 100; 400; 300] noq /\ sem_ok s' noq 1 (0 - 1) /\
       k_msr s' = Z.ldiff (k_msr sem_demo) MSR_FP)
    (fun k s' => 0 <= 0 /\ ksound s' [200; 100; 400; 300] sem_queues /\ sem_ok s' sem_queues 1 (0 - 1) /\
       k_self sem_demo ∈ sem_queues lwpc_sem_queue /\
       forall s2, k_self sem_demo ∈ k_thr s2 ->
         wpk k (fun r s3 => r = 0 /\ exists m, s3 = set_msr m s2) (fun _ _ => False) s2) sem_demo.
Proof.
  refine (LWP_SemWait_ok sem_demo [200; 100; 400; 300] noq 1 0 _ _ _ _ _ _);
    [apply sem_demo_ok|by vm_compute|by vm_compute|apply sem_demo_other|apply sem_demo_ok|lia].
Defined.

Lemma LWP_SemPost_ok_witness :
  let W' := without sem_queues lwpc_sem_queue (released sem_demo2 sem_queues 1 (-1)) in
  wpk (LWP_SemPost 1)
    (fun r s' => r = 0 /\ ksound s' [200; 100; 400; 300] W' /\ sem_ok s' W' 1 (-1 + 1))
    (fun k s' => -1 < 0 /\ ksound s' [200; 100; 400; 300] W' /\ sem_ok s' W' 1 (-1 + 1) /\
       forall s2, wpk k (fun r s3 => r = 0 /\ exists m, s3 = set_msr m s2) (fun _ _ => False) s2) sem_demo2 /\
  released sem_demo2 sem_queues 1 (-1) = [100].
Proof.
  intros W'. split; [|by vm_compute].
  refine (LWP_SemPost_ok sem_demo2 [200; 100; 400; 300] sem_queues 1 (-1) _ _ _ _);
    [apply sem_demo2_ok|by vm_compute|apply sem_demo2_ok|lia].
Defined.

(** ** Message queues *)

Lemma handle_pointer p : 0 < p < 2 ^ 32 - 1 -> lwpc_pointer (lwpc_handle p) = p.
Proof.
  intros Hp. unfold lwpc_pointer, lwpc_handle.
  assert (E : u32 (Z.lnot p) = 2 ^ 32 - 1 - p).
  { unfold wrap. rewrite <- (Z.mod_small (2 ^ 32 - 1 - p) (2 ^ 32)) by lia.
    rewrite <- (Z.mod_add (Z.lnot p) 1) by lia. f_equal. unfold Z.lnot. lia. }
  rewrite E. unfold bad_handle. rewrite (proj2 (Z.eqb_neq _ 0)), (proj2 (Z.eqb_neq _ LWP_NULL)) by (unfold LWP_NULL; lia).
  simpl. unfold wrap. rewrite <- (Z.mod_small p (2 ^ 32)) at 2 by lia.
  rewrite <- (Z.mod_add (Z.lnot (2 ^ 32 - 1 - p)) 1) by lia. f_equal. unfold Z.lnot. lia.
Qed.

(** [MQ_Init] passes its 32-bit count to a 16-bit field: a queue of 65536
    messages has no slot, and nothing can ever be sent to it. *)
Theorem MQ_Init_truncates :
  let s := out (MQ_Init (fun _ => ret 0x1000) true 65536) demo3 in
  mb_num_slots (k_box s 0x1000) = 0 /\
  match runK (MQ_Send (lwpc_handle 0x1000) 7 0) s with Ok (inl r, _) => r = C_FALSE | _ => False end.
Proof. by vm_compute. Qed.

(** ** Condition variables *)

(** Whenever [c] returns, after any number of context switches and whatever the
    other threads did meanwhile, the result satisfies [P]. *)
Fixpoint leads {A} (P : A -> kst -> Prop) (c : K A) : Prop :=
  match c with
  | mkK r => forall s, match r s with
                       | Ok (inl a, s') => P a s'
                       | Ok (inr k, _) => leads P k
                       | Fault _ => True
                       end
  end.

Lemma leads_bind {A B} (P : B -> kst -> Prop) (f : A -> K B) :
  (forall a, leads P (f a)) -> forall c, leads P (kbind c f).
Proof.
  intros Hf. fix IH 1. intros [r]. simpl. intros s. destruct (r s) as [ [ [a|k] s']|]; [|apply IH|done].
  specialize (Hf a). destruct (f a) as [r']. simpl in *. specialize (Hf s'). destruct (r' s') as [ [ [b|k'] s2]|]; done.
Qed.

Lemma leads_lift {A} (P : A -> kst -> Prop) (c : M kst A) :
  (forall s a s', c s = Ok (a, s') -> P a s') -> leads P (lift c).
Proof. intros H s. simpl. destruct (c s) as [ [a s']|] eqn:E; [|done]. by eapply H. Qed.

(** The recursion depth of the mutex: waiting on a condition variable releases
    the mutex whatever the depth, and whenever the wait ends, the depth is the one
    from before. *)
Theorem LWP_CondTimedWait_depth table task cond mutex reltime s k s' :
  Z.testbit (lw_mutex_recursive (k_lwp s)) (mutex - 1) = true -> 1 <= mutex <= 64 ->
  runK (LWP_CondTimedWait table task cond mutex reltime) s = Ok (inr k, s') ->
  leads (fun _ s2 => k_counter s2 (mutex_at table (mutex - 1)) = k_counter s (mutex_at table (mutex - 1))) k.
Proof.
  intros Hb Hm. unfold LWP_CondTimedWait. destruct (lwpc_get_condvar cond =? NULL); [done|].
  unfold lwpc_get_mutex_for_cv. rewrite (not_bad mutex Hm). set (m := mutex_at table (mutex - 1)).
  assert (Hr : negb (Z.land (lw_mutex_recursive (k_lwp s)) (slot_bit (mutex - 1)) =? 0) = true).
  { apply negb_true_iff, Z.eqb_neq. intros E.
    assert (Ht : Z.testbit (Z.land (lw_mutex_recursive (k_lwp s)) (slot_bit (mutex - 1))) (mutex - 1) = false)
      by by rewrite E, Z.bits_0.
    unfold slot_bit in Ht. rewrite Z.land_spec, Hb, shift_bit, Z.eqb_refl in Ht by lia. done. }
  unfold is_recursive, rd_recursive. simpl. unfold bind, gets, ret, rd_counter. simpl. rewrite Hr. simpl.
  set (s1 := set_counter _ s). destruct (lwpc_cond_timed_wait_impl _ _ _ _) as [r]. simpl.
  destruct (r s1) as [ [ [a|k'] s2]|] eqn:E; simpl; [done| |done].
  intros [= <- <-]. apply leads_bind. intros rc.
  intros s3. simpl. by rewrite fupd_eq.
Qed.
