(* ===== verification/Clock.v ===== *)
(** * Times ([gc/tuxedo/ppc/clock.h], [gc/ogc/lwp_watchdog.h], [libogc/timesupp.c])

    Conversions between ticks of the time base and seconds, with the binary gcd
    that reduces the factors, and the calendar functions built on them. *)

From stdpp Require Import base list.
From Stdlib Require Import ZArith Lia Znumtheory.
From S2P Require Import Prelude.

Open Scope Z_scope.

(** ** [clock.h] *)

Inductive console := GameCube | Wii.
Definition PPC_BUS_CLOCK (c : console) : Z := match c with GameCube => 162000000 | Wii => 243000000 end.
Definition PPC_TIMER_CLOCK (c : console) : Z := PPC_BUS_CLOCK c / 4.

(** [__builtin_ctz] on a 32-bit value that is not zero. *)
Fixpoint ctz_loop (n : nat) (x : Z) : Z :=
  match n with
  | O => 0
  | S k => if Z.testbit x 0 then 0 else 1 + ctz_loop k (Z.shiftr x 1)
  end.
Definition ctz (x : Z) : Z := ctz_loop 32 x.

(** The loop of the C++ version of [__PPCGcd]; it halves [a * b]. *)
Fixpoint gcd_loop (fuel : nat) (a b k : Z) : option Z :=
  match fuel with
  | O => None
  | S n =>
      let '(a, b) := if b <? a then (b, a) else (a, b) in
      let b := u32 (b - a) in
      if b =? 0 then Some (u32 (Z.shiftl a k))
      else gcd_loop n a (Z.shiftr b (ctz b)) k
  end.

Definition PPCGcd (a b : Z) : option Z :=
  if a =? 0 then Some b else
  if b =? 0 then Some a else
  let i := ctz a in
  let a := Z.shiftr a i in
  let j := ctz b in
  let b := Z.shiftr b j in
  let k := if i <? j then i else j in
  gcd_loop 65 a b k.

(** The C version: a table of the pairs that occur; 0 for any other. *)
Definition gcd_table (a b : Z) : Z :=
  let '(a, b) := if b <? a then (b, a) else (a, b) in
  if a =? 1000 then (if (b =? 40500000) || (b =? 60750000) then 1000 else 0)
  else if a =? 1000000 then (if b =? 40500000 then 500000 else if b =? 60750000 then 250000 else 0)
  else if a =? 40500000 then (if b =? 1000000000 then 500000 else 0)
  else if a =? 60750000 then (if b =? 1000000000 then 250000 else 0)
  else 0.

Definition PPCMulDiv (value num den : Z) : Z :=
  let gcd := gcd_table num den in
  let num := num / gcd in
  let den := den / gcd in
  u64 (value * num) / den.

Section Conversions.
Context (c : console).

Definition PPCNsToTicks (ns : Z) : Z := PPCMulDiv ns (PPC_TIMER_CLOCK c) 1000000000.
Definition PPCUsToTicks (us : Z) : Z := PPCMulDiv us (PPC_TIMER_CLOCK c) 1000000.
Definition PPCMsToTicks (ms : Z) : Z := PPCMulDiv ms (PPC_TIMER_CLOCK c) 1000.
Definition PPCTicksToNs (ticks : Z) : Z := PPCMulDiv ticks 1000000000 (PPC_TIMER_CLOCK c).
Definition PPCTicksToUs (ticks : Z) : Z := PPCMulDiv ticks 1000000 (PPC_TIMER_CLOCK c).
Definition PPCTicksToMs (ticks : Z) : Z := PPCMulDiv ticks 1000 (PPC_TIMER_CLOCK c).

(** ** [lwp_watchdog.h] *)

Definition ticks_to_secs (ticks : Z) : Z := ticks / PPC_TIMER_CLOCK c.
Definition tick_microsecs (ticks : Z) : Z := PPCTicksToUs (ticks mod PPC_TIMER_CLOCK c).
Definition tick_nanosecs (ticks : Z) : Z := PPCTicksToNs (ticks mod PPC_TIMER_CLOCK c).
Definition diff_ticks (tick0 tick1 : Z) : Z :=
  if tick1 <? tick0 then u64 (u64 (-1) - tick0 + tick1) else u64 (tick1 - tick0).

(** [struct timespec], with 64-bit seconds. *)
Record timespec := mk_timespec { tv_sec : Z; tv_nsec : Z }.

Definition timespec_to_ticks (tp : timespec) : Z :=
  u64 (u64 (tv_sec tp * PPC_TIMER_CLOCK c) + PPCNsToTicks (tv_nsec tp)).

Definition diff_sec (start fin : Z) : Z := u32 (diff_ticks start fin / PPC_TIMER_CLOCK c).
Definition diff_msec (start fin : Z) : Z := u32 (PPCTicksToMs (diff_ticks start fin)).
Definition diff_usec (start fin : Z) : Z := u32 (PPCTicksToUs (diff_ticks start fin)).
Definition diff_nsec (start fin : Z) : Z := u32 (PPCTicksToNs (diff_ticks start fin)).

(** ** [timesupp.c] *)

Definition TB_NSPERSEC : Z := 1000000000.

(** [tv_nsec] is a 32-bit [long]; the divisions and the second comparison are
    made on unsigned values, because [nsecpersec] is unsigned. *)
Definition timespec_subtract (tp_start tp_end : timespec) : timespec :=
  let start := tp_start in
  let start :=
    if tv_nsec tp_end <? tv_nsec start then
      let secs := s32 (u32 (u32 (s32 (tv_nsec start - tv_nsec tp_end)) / TB_NSPERSEC + 1)) in
      mk_timespec (s64 (tv_sec start + secs)) (s32 (u32 (tv_nsec start) - u32 (TB_NSPERSEC * u32 secs)))
    else start in
  let start :=
    if TB_NSPERSEC <? u32 (s32 (tv_nsec tp_end - tv_nsec start)) then
      let secs := s32 (u32 (s32 (tv_nsec start - tv_nsec tp_end)) / TB_NSPERSEC) in
      mk_timespec (s64 (tv_sec start - secs)) (s32 (u32 (tv_nsec start) + u32 (TB_NSPERSEC * u32 secs)))
    else start in
  mk_timespec (s64 (tv_sec tp_end - tv_sec start)) (s32 (tv_nsec tp_end - tv_nsec start)).

(** Seconds between the Unix epoch and the year 2000. *)
Definition EPOCH_2000 : Z := 946684800.
Definition EINVAL : Z := 22.
Inductive clockid := CLOCK_REALTIME | CLOCK_MONOTONIC | CLOCK_OTHER.

(** The result and the value stored; [now] is the time base. *)
Definition libogc_gettod (now : Z) : Z * Z :=
  (s64 (ticks_to_secs now + EPOCH_2000), tick_microsecs now).

Definition clock_gettime (clock_id : clockid) (now : Z) : Z * option timespec :=
  match clock_id with
  | CLOCK_OTHER => (EINVAL, None)
  | _ =>
      let tp := mk_timespec (ticks_to_secs now) (tick_nanosecs now) in
      (0, Some (match clock_id with
                | CLOCK_REALTIME => mk_timespec (s64 (tv_sec tp + EPOCH_2000)) (tv_nsec tp)
                | _ => tp
                end))
  end.

Definition clock_getres (clock_id : clockid) : Z * option timespec :=
  match clock_id with
  | CLOCK_OTHER => (EINVAL, None)
  | _ => (0, Some (mk_timespec 0 (PPCTicksToNs 1)))
  end.
End Conversions.

(** ** The binary gcd *)

Lemma shiftr_double x : Z.testbit x 0 = false -> x = 2 * Z.shiftr x 1.
Proof.
  intros H. rewrite Z.shiftr_div_pow2 by lia. change (2 ^ 1) with 2.
 pose proof (Z.bit0_odd x) as Ho. rewrite H in Ho.
  symmetry in Ho. apply (f_equal negb) in Ho. rewrite Z.negb_odd in Ho. apply Z.even_spec in Ho as [y ->].
  rewrite (Z.mul_comm 2 y), Z.div_mul by lia. lia.
Qed.

Lemma ctz_spec n : forall x, 0 < x < 2 ^ Z.of_nat n ->
  let j := ctz_loop n x in 0 <= j /\ x = 2 ^ j * Z.shiftr x j /\ Z.odd (Z.shiftr x j) = true.
Proof.
  induction n as [|n IH]; intros x Hx; [simpl in Hx; lia|]. cbn [ctz_loop].
  destruct (Z.testbit x 0) eqn:E.
  - rewrite Z.shiftr_0_r, Z.pow_0_r. rewrite <- Z.bit0_odd. split_and!; [lia|lia|done].
  - pose proof (shiftr_double x E) as Hd. set (y := Z.shiftr x 1) in *.
    rewrite Nat2Z.inj_succ, Z.pow_succ_r in Hx by lia.
    destruct (IH y ltac:(lia)) as (H1 & H2 & H3). set (j := ctz_loop n y) in *.
    assert (Es : Z.shiftr x (1 + j) = Z.shiftr y j) by (unfold y; rewrite Z.shiftr_shiftr by lia; done).
    rewrite Es. split_and!; [lia| |done]. rewrite Z.add_comm, Z.pow_add_r by lia. change (2 ^ 1) with 2. lia.
Qed.

Lemma gcd_double a x : Z.odd a = true -> Z.gcd a (2 * x) = Z.gcd a x.
Proof.
  intros Ho. apply Z.divide_antisym_nonneg; try apply Z.gcd_nonneg.
  - apply Z.gcd_greatest; [apply Z.gcd_divide_l|]. set (g := Z.gcd a (2 * x)).
    apply (Z.gauss g 2 x); [unfold g; apply Z.gcd_divide_r|].
    destruct (Z.gcd_divide_l a (2 * x)) as [q Hq]. fold g in Hq.
    assert (Hg : Z.odd g = true) by (rewrite Hq, Z.odd_mul in Ho; by apply andb_true_iff in Ho as [_ ?]).
    apply Z.odd_spec in Hg as [y ->]. rewrite Z.gcd_comm, <- (Z.gcd_sub_diag_r 2). 
    rewrite (Z.gcd_comm 2), Z.gcd_comm. replace (2 * y + 1 - 2) with (1 + (y - 1) * 2) by lia.
    rewrite Z.gcd_add_mult_diag_r. apply Z.gcd_1_r.
  - apply Z.gcd_greatest; [apply Z.gcd_divide_l|]. apply Z.divide_mul_r, Z.gcd_divide_r.
Qed.

Lemma gcd_pow2 a j x : 0 <= j -> Z.odd a = true -> Z.gcd a (2 ^ j * x) = Z.gcd a x.
Proof.
  intros Hj Ho. revert x. pattern j. apply natlike_ind; [|intros i Hi IH x|done].
  - intros x. by rewrite Z.pow_0_r, Z.mul_1_l.
  - rewrite Z.pow_succ_r by done. by rewrite <- Z.mul_assoc, gcd_double, IH.
Qed.

Lemma gcd_loop_S n a b k :
  gcd_loop (S n) a b k =
    let '(a, b) := if b <? a then (b, a) else (a, b) in
    let b := u32 (b - a) in
    if b =? 0 then Some (u32 (Z.shiftl a k)) else gcd_loop n a (Z.shiftr b (ctz b)) k.
Proof. done. Qed.

Lemma gcd_loop_spec n : forall a b k,
  0 < a < 2 ^ 32 -> 0 < b < 2 ^ 32 -> Z.odd a = true -> Z.odd b = true -> a * b < 2 ^ Z.of_nat n ->
  gcd_loop (S n) a b k = Some (u32 (Z.shiftl (Z.gcd a b) k)).
Proof.
  induction n as [|n IH]; intros a b k Ha Hb Oa Ob Hm; [simpl in Hm; nia|]. rewrite gcd_loop_S.
  assert (Hsym : exists x y, (if b <? a then (b, a) else (a, b)) = (x, y) /\ x <= y /\ x * y = a * b /\
    0 < x < 2 ^ 32 /\ 0 < y < 2 ^ 32 /\ Z.odd x = true /\ Z.odd y = true /\ Z.gcd x y = Z.gcd a b).
  { destruct (Z.ltb_spec b a); [exists b, a|exists a, b]; split_and!; try done; try lia. apply Z.gcd_comm. }
  destruct Hsym as (x & y & -> & Hle & Hxy & Hx & Hy & Ox & Oy & Hg). cbn [fst snd].
  rewrite wrap_small by lia. destruct (Z.eqb_spec (y - x) 0) as [E|E].
  - assert (y = x) by lia. subst y. rewrite <- Hg, Z.gcd_diag, Z.abs_eq by lia. done.
  - assert (Hd : 0 < y - x < 2 ^ Z.of_nat 32) by (change (2 ^ Z.of_nat 32) with (2 ^ 32); lia).
    destruct (ctz_spec 32 (y - x) Hd) as (C1 & C2 & C3). fold (ctz (y - x)) in *. set (j := ctz (y - x)) in *.
    set (z := Z.shiftr (y - x) j) in *.
    assert (Hev : Z.odd (y - x) = false) by (rewrite Z.odd_sub, Ox, Oy; done).
    assert (Hj : 1 <= j).
    { destruct (decide (j = 0)) as [E0|]; [|lia]. rewrite E0, Z.pow_0_r, Z.mul_1_l in C2. congruence. }
    assert (Hz : 0 < z /\ 2 * z <= y - x).
    { assert (2 <= 2 ^ j) by (change 2 with (2 ^ 1) at 1; apply Z.pow_le_mono_r; lia). nia. }
    rewrite (IH x z k); try done; try lia.
    + do 2 f_equal. f_equal. rewrite <- Hg, <- (Z.gcd_sub_diag_r x y), C2. symmetry. by apply gcd_pow2.
    + rewrite Nat2Z.inj_succ, Z.pow_succ_r in Hm by lia. nia.
Qed.

(** C38. The binary gcd of [clock.h] computes the greatest common divisor of any
    two 32-bit numbers, and its loop ends within 65 rounds. *)
Theorem PPCGcd_ok a b : 0 <= a < 2 ^ 32 -> 0 <= b < 2 ^ 32 -> PPCGcd a b = Some (Z.gcd a b).
Proof.
  intros Ha Hb. unfold PPCGcd. destruct (Z.eqb_spec a 0) as [->|Na]; [by rewrite Z.gcd_0_l, Z.abs_eq by lia|].
  destruct (Z.eqb_spec b 0) as [->|Nb]; [by rewrite Z.gcd_0_r, Z.abs_eq by lia|].
  destruct (ctz_spec 32 a) as (A1 & A2 & A3); [change (2 ^ Z.of_nat 32) with (2 ^ 32); lia|].
  destruct (ctz_spec 32 b) as (B1 & B2 & B3); [change (2 ^ Z.of_nat 32) with (2 ^ 32); lia|].
  fold (ctz a) in *. fold (ctz b) in *. set (i := ctz a) in *. set (j := ctz b) in *.
  set (x := Z.shiftr a i) in *. set (y := Z.shiftr b j) in *.
  assert (Pi : 0 < 2 ^ i) by (apply Z.pow_pos_nonneg; lia). assert (Pj : 0 < 2 ^ j) by (apply Z.pow_pos_nonneg; lia).
  assert (Hx : 0 < x <= a) by nia. assert (Hy : 0 < y <= b) by nia.
  rewrite (gcd_loop_spec 64 x y); try done; try lia; [|change (2 ^ Z.of_nat 64) with (2 ^ 32 * 2 ^ 32); nia].
  f_equal. set (k := if i <? j then i else j).
  assert (Hk : 0 <= k /\ Z.gcd a b = 2 ^ k * Z.gcd x y).
  { unfold k. rewrite A2, B2. destruct (Z.ltb_spec i j) as [H|H].
    - split; [lia|]. replace j with (i + (j - i)) by lia. rewrite Z.pow_add_r, <- Z.mul_assoc by lia.
      rewrite Z.gcd_mul_mono_l, Z.abs_eq by lia. by rewrite gcd_pow2 by (done || lia).
    - split; [lia|]. replace i with (j + (i - j)) by lia. rewrite Z.pow_add_r, <- Z.mul_assoc by lia.
      rewrite Z.gcd_mul_mono_l, Z.abs_eq by lia. by rewrite Z.gcd_comm, gcd_pow2, Z.gcd_comm by (done || lia). }
  destruct Hk as [Hk Hg]. rewrite Z.shiftl_mul_pow2, Z.mul_comm, <- Hg by done. apply wrap_small.
  assert (Z.gcd a b <= a) by (apply Z.divide_pos_le; [lia|apply Z.gcd_divide_l]).
  pose proof (Z.gcd_nonneg a b). lia.
Qed.

Lemma PPCGcd_ok_witness : PPCGcd 40500000 1000000000 = Some (Z.gcd 40500000 1000000000).
Proof. apply PPCGcd_ok; lia. Defined.

(** ** Conversions *)

(** The table of the C version agrees with the gcd on the pairs that occur. *)
Lemma gcd_table_ok c x :
  x = 1000 \/ x = 1000000 \/ x = 1000000000 ->
  gcd_table (PPC_TIMER_CLOCK c) x = Z.gcd (PPC_TIMER_CLOCK c) x /\
  gcd_table x (PPC_TIMER_CLOCK c) = Z.gcd x (PPC_TIMER_CLOCK c).
Proof. intros [-> | [-> | ->] ]; destruct c; by vm_compute. Qed.

Lemma mul_div_exact value num den :
  0 <= value -> 0 < num -> 0 < den -> gcd_table num den = Z.gcd num den ->
  value * (num / Z.gcd num den) < 2 ^ 64 -> PPCMulDiv value num den = value * num / den.
Proof.
  intros Hv Hn Hd Hg Hb. unfold PPCMulDiv. rewrite Hg.
  assert (Hp : 0 < Z.gcd num den) by (pose proof (Z.gcd_nonneg num den); destruct (decide (Z.gcd num den = 0)) as [E|]; [apply Z.gcd_eq_0_l in E; lia|lia]).
  destruct (Z.gcd_divide_l num den) as [p Hpn]. destruct (Z.gcd_divide_r num den) as [q Hq]. set (g := Z.gcd num den) in *.
  assert (E1 : num / g = p) by (rewrite Hpn; apply Z.div_mul; lia).
  assert (E2 : den / g = q) by (rewrite Hq; apply Z.div_mul; lia).
  rewrite E1 in Hb. rewrite E1, E2, wrap_small by nia. rewrite Hpn, Hq at 1.
  rewrite Z.mul_assoc, Z.div_mul_cancel_r by nia. done.
Qed.

(** No conversion of at most one second overflows. *)
Lemma second_exact c x :
  0 <= x <= 1000000000 ->
  PPCTicksToNs c x = x * 1000000000 / PPC_TIMER_CLOCK c /\ PPCNsToTicks c x = x * PPC_TIMER_CLOCK c / 1000000000.
Proof.
  intros Hx. destruct (gcd_table_ok c 1000000000) as [G1 G2]; [lia|].
  split; apply mul_div_exact; try done; try lia; try (by destruct c).
  - apply (Z.le_lt_trans _ (1000000000 * 4000)); [|lia]. apply Z.mul_le_mono_nonneg; try lia; destruct c; vm_compute; done.
  - apply (Z.le_lt_trans _ (1000000000 * 243)); [|lia]. apply Z.mul_le_mono_nonneg; try lia; destruct c; vm_compute; done.
Qed.

(** Round trip of times: the monotonic clock splits the time base into
    seconds and nanoseconds below one second, and [timespec_to_ticks] gives the
    time base back up to one tick of rounding. *)
Theorem clock_gettime_roundtrip c now :
  0 <= now < 2 ^ 64 ->
  exists tp, clock_gettime c CLOCK_MONOTONIC now = (0, Some tp) /\
    0 <= tv_nsec tp < 1000000000 /\ now - 1 <= timespec_to_ticks c tp <= now.
Proof.
  intros Hn. eexists. split; [reflexivity|]. set (C := PPC_TIMER_CLOCK c).
  assert (HC : 40500000 <= C <= 60750000) by (unfold C; destruct c; vm_compute; done).
  unfold ticks_to_secs, tick_nanosecs. cbn [tv_sec tv_nsec]. fold C.
  set (q := now / C). set (r := now mod C).
  assert (Hr : 0 <= r < C) by (apply Z.mod_pos_bound; lia).
  assert (Hq : now = C * q + r) by (apply Z.div_mod; lia).
  assert (Hq0 : 0 <= q) by (apply Z.div_pos; lia).
  destruct (second_exact c r) as [-> _]; [lia|]. fold C. set (ns := r * 1000000000 / C).
  assert (Hns : C * ns <= r * 1000000000 < C * ns + C).
  { unfold ns. pose proof (Z.div_mod (r * 1000000000) C ltac:(lia)).
    pose proof (Z.mod_pos_bound (r * 1000000000) C ltac:(lia)). lia. }
  assert (Hnr : 0 <= ns < 1000000000) by nia. split; [done|].
  unfold timespec_to_ticks. cbn [tv_sec tv_nsec]. fold C. destruct (second_exact c ns) as [_ ->]; [lia|]. fold C.
  set (back := ns * C / 1000000000).
  assert (Hb : 1000000000 * back <= ns * C < 1000000000 * back + 1000000000).
  { unfold back. pose proof (Z.div_mod (ns * C) 1000000000 ltac:(lia)).
    pose proof (Z.mod_pos_bound (ns * C) 1000000000 ltac:(lia)). lia. }
  assert (Hbr : r - 1 <= back <= r) by nia.
  rewrite (wrap_small 64 (q * C)) by nia.
  destruct (decide (back = -1)) as [E|E]; [nia|]. rewrite wrap_small by nia. nia.
Qed.

Lemma clock_gettime_roundtrip_witness :
  exists tp, clock_gettime Wii CLOCK_MONOTONIC 123456789123 = (0, Some tp) /\
    0 <= tv_nsec tp < 1000000000 /\ 123456789123 - 1 <= timespec_to_ticks Wii tp <= 123456789123.
Proof. apply clock_gettime_roundtrip. lia. Defined.

(** [timespec_subtract] on two normalised times in order gives the
    normalised distance: adding it to the start gives the end. *)
Theorem timespec_subtract_ok start fin :
  0 <= tv_nsec start < TB_NSPERSEC -> 0 <= tv_nsec fin < TB_NSPERSEC ->
  - 2 ^ 62 <= tv_sec start < 2 ^ 62 -> - 2 ^ 62 <= tv_sec fin < 2 ^ 62 ->
  let r := timespec_subtract start fin in
  0 <= tv_nsec r < TB_NSPERSEC /\
  TB_NSPERSEC * tv_sec r + tv_nsec r =
    (TB_NSPERSEC * tv_sec fin + tv_nsec fin) - (TB_NSPERSEC * tv_sec start + tv_nsec start).
Proof.
  destruct start as [s1 n1], fin as [s2 n2]. cbn [tv_sec tv_nsec]. unfold TB_NSPERSEC. intros H1 H2 H3 H4.
  assert (S32 : forall x, - 2 ^ 31 <= x < 2 ^ 31 -> s32 x = x) by (intros; apply swrap_small; [lia|done]).
  assert (S64 : forall x, - 2 ^ 63 <= x < 2 ^ 63 -> s64 x = x) by (intros; apply swrap_small; [lia|done]).
  unfold timespec_subtract. cbn [tv_sec tv_nsec]. unfold TB_NSPERSEC. destruct (Z.ltb_spec n2 n1) as [H|H].
  - rewrite (S32 (n1 - n2)), (wrap_small 32 (n1 - n2)) by lia. rewrite (Z.div_small (n1 - n2)) by lia.
    change (s32 (u32 (0 + 1))) with 1. change (u32 (1000000000 * u32 1)) with 1000000000.
    rewrite (wrap_small 32 n1), (S32 (n1 - 1000000000)), (S64 (s1 + 1)) by lia. cbn [tv_sec tv_nsec].
    rewrite (S32 (n2 - (n1 - 1000000000))), (wrap_small 32 (n2 - (n1 - 1000000000))) by lia.
    rewrite (proj2 (Z.ltb_ge _ _)) by lia. cbn [tv_sec tv_nsec]. rewrite S64, S32 by lia. lia.
  - cbn [tv_sec tv_nsec]. rewrite (S32 (n2 - n1)), (wrap_small 32 (n2 - n1)) by lia.
    rewrite (proj2 (Z.ltb_ge _ _)) by lia. cbn [tv_sec tv_nsec]. rewrite S64, S32 by lia. lia.
Qed.

Lemma timespec_subtract_ok_witness :
  let r := timespec_subtract (mk_timespec 10 900000000) (mk_timespec 12 100000000) in
  0 <= tv_nsec r < TB_NSPERSEC /\
  TB_NSPERSEC * tv_sec r + tv_nsec r = (TB_NSPERSEC * 12 + 100000000) - (TB_NSPERSEC * 10 + 900000000).
Proof.
  apply (timespec_subtract_ok (mk_timespec 10 900000000) (mk_timespec 12 100000000)); unfold TB_NSPERSEC; simpl; lia.
Defined.

(** Across a wrap of the counter [diff_ticks] is one tick short: from the last
    value to 0 it reports 0. *)
Theorem diff_ticks_wrap : diff_ticks (2 ^ 64 - 1) 0 = 0 /\ diff_ticks (2 ^ 64 - 1) 5 = 5.
Proof. by vm_compute. Qed.
