(* ===== verification/Irq.v ===== *)
(** * Interrupts ([tuxedo/interrupt.c], [gc/tuxedo/interrupt.h])

    The interrupt sources of the consoles are numbered in the order in which
    they are served. Each source has an enable bit and a cause bit in one of the
    device registers. The operations run with external interrupts off, so each is
    one atomic step on the registers and the table of handlers. *)

From stdpp Require Import base list.
From Stdlib Require Import ZArith Lia.
From S2P Require Import Prelude Devices KState Clock Lwpc.

Open Scope Z_scope.

(** ** Sources *)

Definition IRQ_PI_ERROR : Z := 0.
Definition IRQ_PI_DEBUG : Z := 1.
Definition IRQ_MEM0 : Z := 2.
Definition IRQ_MEM1 : Z := 3.
Definition IRQ_MEM2 : Z := 4.
Definition IRQ_MEM3 : Z := 5.
Definition IRQ_MEMADDRESS : Z := 6.
Definition IRQ_PI_RSW : Z := 7.
Definition IRQ_PI_VI : Z := 8.
Definition IRQ_PI_PETOKEN : Z := 9.
Definition IRQ_PI_PEFINISH : Z := 10.
Definition IRQ_PI_HSP : Z := 11.
Definition IRQ_DSP_ARAM : Z := 12.
Definition IRQ_DSP_DSP : Z := 13.
Definition IRQ_AI : Z := 14.
Definition IRQ_EXI0_EXI : Z := 15.
Definition IRQ_EXI0_TC : Z := 16.
Definition IRQ_EXI0_EXT : Z := 17.
Definition IRQ_EXI1_EXI : Z := 18.
Definition IRQ_EXI1_TC : Z := 19.
Definition IRQ_EXI1_EXT : Z := 20.
Definition IRQ_EXI2_EXI : Z := 21.
Definition IRQ_EXI2_TC : Z := 22.
Definition IRQ_PI_SI : Z := 23.
Definition IRQ_PI_DI : Z := 24.
Definition IRQ_DSP_AI : Z := 25.
Definition IRQ_PI_CP : Z := 26.
Definition IRQ_PI_ACR : Z := 27.

Definition IRQMASK (irq : Z) : Z := PPCBIT irq.
Definition orl (l : list Z) : Z := fold_right Z.lor 0 (map IRQMASK l).
Definition IM_MEM : Z := orl [IRQ_MEM0; IRQ_MEM1; IRQ_MEM2; IRQ_MEM3; IRQ_MEMADDRESS].
Definition IM_DSP : Z := orl [IRQ_DSP_AI; IRQ_DSP_ARAM; IRQ_DSP_DSP].
Definition IM_EXI0 : Z := orl [IRQ_EXI0_EXI; IRQ_EXI0_TC; IRQ_EXI0_EXT].
Definition IM_EXI1 : Z := orl [IRQ_EXI1_EXI; IRQ_EXI1_TC; IRQ_EXI1_EXT].
Definition IM_EXI2 : Z := orl [IRQ_EXI2_EXI; IRQ_EXI2_TC].
Definition IM_PI (c : console) : Z :=
  Z.lor (orl [IRQ_PI_CP; IRQ_PI_PETOKEN; IRQ_PI_PEFINISH; IRQ_PI_SI; IRQ_PI_DI; IRQ_PI_RSW; IRQ_PI_ERROR; IRQ_PI_VI;
              IRQ_PI_DEBUG; IRQ_PI_HSP])
        (match c with Wii => IRQMASK IRQ_PI_ACR | GameCube => 0 end).

(** ** Operations *)

Definition bit (x n : Z) : bool := negb (Z.land x (Z.shiftl 1 n) =? 0).
Definition has (mask irq : Z) : bool := negb (Z.land mask (IRQMASK irq) =? 0).

(** The writes of [KIrqInit] to the registers. *)
Definition KIrqInit (r : irqregs) : irqregs :=
  mk_regs (pi0 r) 0xf0 0 (mi15 r) (Z.ldiff (dsp5 r) 0x1f8) (Z.ldiff (ai0 r) 0x2c) (Z.ldiff (exi0 r) 0x2c0f)
    (Z.ldiff (exi5 r) 0x0c0f) (Z.ldiff (exi10 r) 0x000f).

Definition KIrqDecodeExiCause (exi_cause : Z) : Z :=
  let exi_cause := Z.land exi_cause (u32 (Z.shiftl exi_cause 1)) in
  if bit exi_cause 1 then IRQ_EXI0_EXI
  else if bit exi_cause 3 then IRQ_EXI0_TC
  else if bit exi_cause 11 then IRQ_EXI0_EXT
  else -1.

(** The tests of [KIrqGetCause] from the EXI registers on. *)
Definition cause_exi (r : irqregs) (pi_cause : Z) (next : Z) : Z :=
  if bit pi_cause 4 then
    let cause := KIrqDecodeExiCause (exi0 r) in
    if 0 <=? cause then cause else
    let cause := KIrqDecodeExiCause (exi5 r) in
    if 0 <=? cause then cause + IRQ_EXI1_EXI - IRQ_EXI0_EXI else
    let cause := KIrqDecodeExiCause (Z.ldiff (exi10 r) (Z.shiftl 1 11)) in
    if 0 <=? cause then cause + IRQ_EXI2_EXI - IRQ_EXI0_EXI else next
  else next.

Definition KIrqGetCause (c : console) (r : irqregs) : Z :=
  let pi_cause := Z.land (pi0 r) (pi1 r) in
  if bit pi_cause 0 then IRQ_PI_ERROR else
  if bit pi_cause 12 then IRQ_PI_DEBUG else
  let mi_cause := Z.land (Z.land (mi14 r) (mi15 r)) 0x1f in
  if bit pi_cause 7 && negb (mi_cause =? 0) then ffs_loop 32 0 mi_cause - 1 + IRQ_MEM0 else
  if bit pi_cause 1 then IRQ_PI_RSW else
  if bit pi_cause 8 then IRQ_PI_VI else
  if bit pi_cause 9 then IRQ_PI_PETOKEN else
  if bit pi_cause 10 then IRQ_PI_PEFINISH else
  if bit pi_cause 13 then IRQ_PI_HSP else
  let dsp_cause := Z.land (dsp5 r) (Z.shiftr (dsp5 r) 1) in
  if bit pi_cause 6 && bit dsp_cause 5 then IRQ_DSP_ARAM else
  if bit pi_cause 6 && bit dsp_cause 7 then IRQ_DSP_DSP else
  let has_dsp_ai := bit pi_cause 6 && bit dsp_cause 3 in
  let ai_cause := Z.land (ai0 r) (u32 (Z.shiftl (ai0 r) 1)) in
  if bit pi_cause 5 && bit ai_cause 3 then IRQ_AI else
  cause_exi r pi_cause
   (if bit pi_cause 3 then IRQ_PI_SI else
    if bit pi_cause 2 then IRQ_PI_DI else
    if has_dsp_ai then IRQ_DSP_AI else
    if bit pi_cause 11 then IRQ_PI_CP else
    if (match c with Wii => bit pi_cause 14 | GameCube => false end) then IRQ_PI_ACR else
    -1).

(** What a dispatch does: run the timed tasks, call a handler, or nothing. *)
Inductive dispatch := RunTicks | CallHandler (fn id user : Z) | NoHandler.
Definition PPC_EXCPT_DECR : Z := 9.

Definition KIrqDispatch (c : console) (s : irqst) (exid : Z) : dispatch :=
  if exid =? PPC_EXCPT_DECR then RunTicks else
  let id := KIrqGetCause c (ir_regs s) in
  if 0 <=? id then (if negb (ir_fn s id =? NULL) then CallHandler (ir_fn s id) id (ir_user s id) else NoHandler)
  else NoHandler.

Definition orif (b : bool) (n x : Z) : Z := if b then Z.lor x (Z.shiftl 1 n) else x.

Definition KIrqEncodeMem (mask : Z) : Z := Z.land (Z.shiftr mask IRQ_MEM0) 0x1f.
Definition KIrqEncodeDsp (mask : Z) : Z :=
  orif (has mask IRQ_DSP_AI) 4 (orif (has mask IRQ_DSP_DSP) 8 (orif (has mask IRQ_DSP_ARAM) 6 0)).
Definition KIrqEncodeAi (mask : Z) : Z := orif (has mask IRQ_AI) 2 0.
Definition KIrqEncodeExi (mask : Z) : Z :=
  orif (has mask IRQ_EXI0_EXT) 10 (orif (has mask IRQ_EXI0_TC) 2 (orif (has mask IRQ_EXI0_EXI) 0 0)).
Definition KIrqEncodePi (c : console) (mask : Z) : Z :=
  orif (match c with Wii => has mask IRQ_PI_ACR | GameCube => false end) 14 (
  orif (has mask IRQ_PI_CP) 11 (orif (has mask IRQ_PI_DI) 2 (orif (has mask IRQ_PI_SI) 3 (
  orif (has mask IRQ_PI_HSP) 13 (orif (has mask IRQ_PI_PEFINISH) 10 (orif (has mask IRQ_PI_PETOKEN) 9 (
  orif (has mask IRQ_PI_VI) 8 (orif (has mask IRQ_PI_RSW) 1 (orif (has mask IRQ_PI_DEBUG) 12 (
  orif (has mask IRQ_PI_ERROR) 0 0)))))))))).

(** One register: nothing is written if no source of the group changes. *)
Definition modify_reg (group mod_mask reg ack clr set : Z) : Z :=
  if negb (Z.land mod_mask group =? 0) then Z.lor (Z.ldiff (Z.ldiff reg ack) clr) set else reg.

Definition KIrqModify (c : console) (clr_mask set_mask : Z) (r : irqregs) : irqregs :=
  let mod_mask := Z.lxor clr_mask set_mask in
  let clr := Z.land clr_mask mod_mask in
  let set := Z.land set_mask mod_mask in
  let shl x n := u32 (Z.shiftl x n) in
  let exi2 x := Z.ldiff (shl x 6) (IRQMASK IRQ_EXI0_EXT) in
  mk_regs (pi0 r)
    (modify_reg (IM_PI c) mod_mask (pi1 r) 0 (KIrqEncodePi c clr) (KIrqEncodePi c set))
    (modify_reg IM_MEM mod_mask (mi14 r) 0 (KIrqEncodeMem clr) (KIrqEncodeMem set))
    (mi15 r)
    (modify_reg IM_DSP mod_mask (dsp5 r) 0xa8 (KIrqEncodeDsp clr) (KIrqEncodeDsp set))
    (modify_reg (IRQMASK IRQ_AI) mod_mask (ai0 r) 0x8 (KIrqEncodeAi clr) (KIrqEncodeAi set))
    (modify_reg IM_EXI0 mod_mask (exi0 r) 0x280a (KIrqEncodeExi clr) (KIrqEncodeExi set))
    (modify_reg IM_EXI1 mod_mask (exi5 r) 0x80a (KIrqEncodeExi (shl clr 3)) (KIrqEncodeExi (shl set 3)))
    (modify_reg IM_EXI2 mod_mask (exi10 r) 0xa (KIrqEncodeExi (exi2 clr)) (KIrqEncodeExi (exi2 set))).

Definition KIrqEnable (c : console) (mask : Z) (r : irqregs) : irqregs := KIrqModify c 0 mask r.
Definition KIrqDisable (c : console) (mask : Z) (r : irqregs) : irqregs := KIrqModify c mask 0 r.

Definition KIrqGet (s : irqst) (id : Z) : Z := ir_fn s id.
Definition KIrqSet (s : irqst) (id fn user : Z) : Z * irqst :=
  (ir_fn s id, mk_irqst (ir_regs s) (fupd (ir_fn s) id fn) (fupd (ir_user s) id user)).
Definition KIrqClear (s : irqst) (id : Z) : Z * irqst := KIrqSet s id NULL NULL.

(** ** Causes in the order of service *)

(** Every source with the condition under which it requests service: its cause
    and enable bits, and those of the processor interface in front of it. *)
Definition sources (c : console) (r : irqregs) : list (Z * bool) :=
  let pi n := Z.testbit (pi0 r) n && Z.testbit (pi1 r) n in
  let mem i := pi 7 && (Z.testbit (mi15 r) i && Z.testbit (mi14 r) i) in
  let dsp i := pi 6 && (Z.testbit (dsp5 r) i && Z.testbit (dsp5 r) (i + 1)) in
  let exi x i := pi 4 && (Z.testbit x i && Z.testbit x (i - 1)) in
  [(IRQ_PI_ERROR, pi 0); (IRQ_PI_DEBUG, pi 12); (IRQ_MEM0, mem 0); (IRQ_MEM1, mem 1); (IRQ_MEM2, mem 2);
   (IRQ_MEM3, mem 3); (IRQ_MEMADDRESS, mem 4); (IRQ_PI_RSW, pi 1); (IRQ_PI_VI, pi 8); (IRQ_PI_PETOKEN, pi 9);
   (IRQ_PI_PEFINISH, pi 10); (IRQ_PI_HSP, pi 13); (IRQ_DSP_ARAM, dsp 5); (IRQ_DSP_DSP, dsp 7);
   (IRQ_AI, pi 5 && (Z.testbit (ai0 r) 3 && Z.testbit (ai0 r) 2));
   (IRQ_EXI0_EXI, exi (exi0 r) 1); (IRQ_EXI0_TC, exi (exi0 r) 3); (IRQ_EXI0_EXT, exi (exi0 r) 11);
   (IRQ_EXI1_EXI, exi (exi5 r) 1); (IRQ_EXI1_TC, exi (exi5 r) 3); (IRQ_EXI1_EXT, exi (exi5 r) 11);
   (IRQ_EXI2_EXI, exi (exi10 r) 1); (IRQ_EXI2_TC, exi (exi10 r) 3); (IRQ_PI_SI, pi 3); (IRQ_PI_DI, pi 2);
   (IRQ_DSP_AI, dsp 3); (IRQ_PI_CP, pi 11); (IRQ_PI_ACR, match c with Wii => pi 14 | GameCube => false end)].

Fixpoint first_request (l : list (Z * bool)) : Z :=
  match l with [] => -1 | (id, b) :: r => if b then id else first_request r end.

Lemma bit_testbit x n : 0 <= n -> bit x n = Z.testbit x n.
Proof.
  intros Hn. unfold bit. rewrite Z.shiftl_1_l. destruct (Z.testbit x n) eqn:E.
  - apply negb_true_iff, Z.eqb_neq. intros H0. assert (Ht : Z.testbit (Z.land x (2 ^ n)) n = false) by by rewrite H0, Z.bits_0.
    rewrite Z.land_spec, E, Z.pow2_bits_true in Ht by done. done.
  - apply negb_false_iff, Z.eqb_eq, Z.bits_inj'. intros i Hi. rewrite Z.land_spec, Z.bits_0, Z.pow2_bits_eqb by done.
    destruct (Z.eqb_spec n i) as [<-|]; [by rewrite E|apply andb_false_r].
Qed.

Lemma shl1_bit x n : 0 < n < 32 -> Z.testbit (u32 (Z.shiftl x 1)) n = Z.testbit x (n - 1).
Proof. intros Hn. unfold wrap. rewrite Z.mod_pow2_bits_low, Z.shiftl_spec by lia. done. Qed.

Lemma shr1_bit x n : 0 <= n -> Z.testbit (Z.shiftr x 1) n = Z.testbit x (n + 1).
Proof. intros Hn. by rewrite Z.shiftr_spec. Qed.

(** The EXI decoder over the bits of its register. *)
Lemma decode_exi x :
  KIrqDecodeExiCause x =
    first_request [(IRQ_EXI0_EXI, Z.testbit x 1 && Z.testbit x 0); (IRQ_EXI0_TC, Z.testbit x 3 && Z.testbit x 2);
                   (IRQ_EXI0_EXT, Z.testbit x 11 && Z.testbit x 10)].
Proof. unfold KIrqDecodeExiCause. by rewrite !bit_testbit, !Z.land_spec, !shl1_bit by lia. Qed.

(** The memory causes: the lowest of five bits. *)
Lemma mem_cause x y :
  let m := Z.land (Z.land x y) 0x1f in
  let l := map (fun i => (IRQ_MEM0 + i, Z.testbit y i && Z.testbit x i)) [0; 1; 2; 3; 4] in
  (m = 0 -> first_request l = -1) /\
  (m <> 0 -> ffs_loop 32 0 m - 1 + IRQ_MEM0 = first_request l /\ first_request l <> -1).
Proof.
  intros m l. assert (Hm : 0 <= m <= 31) by (apply land_upper; lia).
  assert (Hb : forall i, 0 <= i < 5 -> Z.testbit y i && Z.testbit x i = Z.testbit m i).
  { intros i Hi. unfold m. rewrite !Z.land_spec. assert (Z.testbit 31 i = true) as ->.
    { assert (i = 0 \/ i = 1 \/ i = 2 \/ i = 3 \/ i = 4) as [-> |[-> |[-> |[-> | ->] ] ] ] by lia; done. }
    by rewrite andb_true_r, andb_comm. }
  unfold l. cbn [map]. rewrite !Hb by lia. clearbody m. clear -Hm.
  assert (H : exists n, m = Z.of_nat n /\ (n < 32)%nat) by (exists (Z.to_nat m); lia). destruct H as (n & -> & Hn).
  do 32 (destruct n as [|n]; [split; intros Hz; [by vm_compute|]; split; by vm_compute|]). lia.
Qed.

(** C39. Interrupt service: [KIrqGetCause] returns the first source, in the order
    of the numbering, that has its cause and enable bits set (in its device and in
    the processor interface), and -1 exactly if there is none. *)
Theorem KIrqGetCause_first c r : KIrqGetCause c r = first_request (sources c r).
Proof.
  unfold KIrqGetCause, sources, cause_exi. rewrite !decode_exi. cbv zeta.
  destruct (mem_cause (mi14 r) (mi15 r)) as [Hm0 Hm1]. cbn [map first_request] in Hm0, Hm1.
  rewrite !bit_testbit, !Z.land_spec, !shr1_bit, !shl1_bit, !Z.ldiff_spec by lia. cbn [first_request].
  change (1 - 1) with 0. change (3 - 1) with 2. change (11 - 1) with 10.
  set (m := Z.land (Z.land (mi14 r) (mi15 r)) 31) in *.
  change (Z.testbit (Z.shiftl 1 11) 1) with false. change (Z.testbit (Z.shiftl 1 11) 0) with false.
  change (Z.testbit (Z.shiftl 1 11) 3) with false. change (Z.testbit (Z.shiftl 1 11) 2) with false.
  change (Z.testbit (Z.shiftl 1 11) 11) with true. cbn [negb]. rewrite !andb_true_r, andb_false_r, andb_false_l.
  repeat match goal with |- (if ?b then _ else _) = (if ?b then _ else _) => destruct b; [done|] end.
  assert (Hmem : forall x y, x = y ->
    (if Z.testbit (pi0 r) 7 && Z.testbit (pi1 r) 7 && negb (m =? 0) then ffs_loop 32 0 m - 1 + IRQ_MEM0 else x) =
    (if Z.testbit (pi0 r) 7 && Z.testbit (pi1 r) 7 && (Z.testbit (mi15 r) 0 && Z.testbit (mi14 r) 0) then IRQ_MEM0 else
     if Z.testbit (pi0 r) 7 && Z.testbit (pi1 r) 7 && (Z.testbit (mi15 r) 1 && Z.testbit (mi14 r) 1) then IRQ_MEM1 else
     if Z.testbit (pi0 r) 7 && Z.testbit (pi1 r) 7 && (Z.testbit (mi15 r) 2 && Z.testbit (mi14 r) 2) then IRQ_MEM2 else
     if Z.testbit (pi0 r) 7 && Z.testbit (pi1 r) 7 && (Z.testbit (mi15 r) 3 && Z.testbit (mi14 r) 3) then IRQ_MEM3 else
     if Z.testbit (pi0 r) 7 && Z.testbit (pi1 r) 7 && (Z.testbit (mi15 r) 4 && Z.testbit (mi14 r) 4) then IRQ_MEMADDRESS else y)).
  { intros x y ->. destruct (Z.testbit (pi0 r) 7 && Z.testbit (pi1 r) 7); cbn [andb]; [|done].
    destruct (Z.eqb_spec m 0) as [E|E]; cbn [negb].
    - specialize (Hm0 E). clear Hm1. revert Hm0.
      repeat match goal with |- context [if ?b then _ else _] => destruct b; [done|] end. done.
    - destruct (Hm1 E) as [-> Hn]. revert Hn. clear.
      repeat match goal with |- context [if ?b then _ else _] => destruct b; [done|] end. done. }
  apply Hmem. clear Hmem Hm0 Hm1.
  repeat match goal with |- (if ?b then _ else _) = (if ?b then _ else _) => destruct b; [done|] end.
  destruct (Z.testbit (pi0 r) 4 && Z.testbit (pi1 r) 4); cbn [andb]; [|done].
  repeat match goal with |- context [if Z.testbit (?e r) ?i && Z.testbit (?e r) ?j then _ else _] =>
    destruct (Z.testbit (e r) i && Z.testbit (e r) j); [done|] end. done.
Qed.

(** ** Enabling and disabling *)

(** The register and the bit that enable a source. *)
Definition enable_reg (r : irqregs) (id : Z) : Z :=
  if existsb (Z.eqb id) [IRQ_MEM0; IRQ_MEM1; IRQ_MEM2; IRQ_MEM3; IRQ_MEMADDRESS] then mi14 r
  else if existsb (Z.eqb id) [IRQ_DSP_ARAM; IRQ_DSP_DSP; IRQ_DSP_AI] then dsp5 r
  else if id =? IRQ_AI then ai0 r
  else if existsb (Z.eqb id) [IRQ_EXI0_EXI; IRQ_EXI0_TC; IRQ_EXI0_EXT] then exi0 r
  else if existsb (Z.eqb id) [IRQ_EXI1_EXI; IRQ_EXI1_TC; IRQ_EXI1_EXT] then exi5 r
  else if existsb (Z.eqb id) [IRQ_EXI2_EXI; IRQ_EXI2_TC] then exi10 r
  else pi1 r.
Definition enable_bit (id : Z) : Z :=
  nth (Z.to_nat id) [0; 12; 0; 1; 2; 3; 4; 1; 8; 9; 10; 13; 6; 8; 2; 0; 2; 10; 0; 2; 10; 0; 2; 3; 2; 4; 11; 14] 0.
Definition enabled (r : irqregs) (id : Z) : bool := Z.testbit (enable_reg r id) (enable_bit id).

(** The sources of a console other than the memory protection sources. *)
Definition plain_source (c : console) (id : Z) : Prop :=
  (0 <= id < 2 \/ 7 <= id <= 26) \/ (c = Wii /\ id = IRQ_PI_ACR).

Lemma has_testbit m id : 0 <= id < 32 -> has m id = Z.testbit m (31 - id).
Proof.
  intros Hi. unfold has. rewrite <- bit_testbit by lia. unfold bit. do 3 f_equal. unfold IRQMASK, PPCBIT.
  rewrite Z.shiftl_1_l. change 0x80000000 with (2 ^ 31). rewrite Z.shiftr_div_pow2 by lia.
  replace 31 with (31 - id + id) at 1 by lia. rewrite Z.pow_add_r, Z.div_mul by lia. done.
Qed.

Lemma orif_bit b n x k : 0 <= n -> 0 <= k -> Z.testbit (orif b n x) k = (b && (n =? k)) || Z.testbit x k.
Proof.
  intros Hn Hk. unfold orif. destruct b; [|done]. rewrite Z.lor_spec, Z.shiftl_1_l, Z.pow2_bits_eqb by done.
  by rewrite orb_comm.
Qed.

Lemma modify_reg_bit group md reg ack clr set k x y :
  0 <= k -> Z.testbit ack k = false -> (Z.land md group = 0 -> xorb x y = false) ->
  Z.testbit clr k = x && xorb x y -> Z.testbit set k = y && xorb x y ->
  Z.testbit (modify_reg group md reg ack clr set) k = if xorb x y then y else Z.testbit reg k.
Proof.
  intros Hk Ha Hg Hc Hs. unfold modify_reg. destruct (Z.eqb_spec (Z.land md group) 0) as [E|E]; cbn [negb].
  - by rewrite (Hg E).
  - rewrite Z.lor_spec, !Z.ldiff_spec, Ha, Hc, Hs. by destruct x, y, (Z.testbit reg k).
Qed.

(** A source of a group that does not change does not change. *)
Lemma group_unchanged md group id :
  0 <= id < 32 -> Z.testbit group (31 - id) = true -> Z.land md group = 0 -> Z.testbit md (31 - id) = false.
Proof.
  intros Hi Hg H0. assert (Ht : Z.testbit (Z.land md group) (31 - id) = false) by by rewrite H0, Z.bits_0.
  rewrite Z.land_spec, Hg in Ht. by destruct (Z.testbit md (31 - id)).
Qed.

Lemma shl_bit x n k : 0 <= n -> n <= k < 32 -> Z.testbit (u32 (Z.shiftl x n)) k = Z.testbit x (k - n).
Proof. intros Hn Hk. unfold wrap. by rewrite Z.mod_pow2_bits_low, Z.shiftl_spec by lia. Qed.

(** One source: its register, its bit, its mask bit and the bits of the code. *)
Lemma modify_source group clr_mask set_mask reg ack clr set k id :
  0 <= id < 32 -> 0 <= k -> Z.testbit ack k = false -> Z.testbit group (31 - id) = true ->
  Z.testbit clr k = Z.testbit (Z.land clr_mask (Z.lxor clr_mask set_mask)) (31 - id) ->
  Z.testbit set k = Z.testbit (Z.land set_mask (Z.lxor clr_mask set_mask)) (31 - id) ->
  Z.testbit (modify_reg group (Z.lxor clr_mask set_mask) reg ack clr set) k =
    if xorb (has clr_mask id) (has set_mask id) then has set_mask id else Z.testbit reg k.
Proof.
  intros Hi Hk Ha Hg Hc Hs. rewrite Z.land_spec, Z.lxor_spec in Hc, Hs. rewrite !has_testbit by done.
  apply modify_reg_bit; try done. intros H0. rewrite <- Z.lxor_spec. by apply (group_unchanged _ group).
Qed.

(** The two sides of a source's bit, with the numbers of the source evaluated. *)
Ltac encode_bit :=
  repeat match goal with
         | |- context [enable_bit ?i] => let v := eval vm_compute in (enable_bit i) in change (enable_bit i) with v
         end;
  unfold KIrqEncodePi, KIrqEncodeDsp, KIrqEncodeAi, KIrqEncodeExi; rewrite ?orif_bit by lia;
  rewrite !has_testbit by (split; vm_compute; done);
  repeat match goal with
         | |- context [Z.testbit ?x (31 - ?n)] =>
             let v := eval vm_compute in (31 - n) in progress change (31 - n) with v
         end;
  rewrite ?Z.ldiff_spec, ?shl_bit by lia;
  cbn -[Z.testbit Z.land Z.lxor u32 Z.shiftl]; rewrite ?andb_false_r, ?andb_true_r, ?orb_false_r; cbn [orb];
  rewrite ?andb_false_r, ?andb_true_r, ?orb_false_r; reflexivity.

(** Enabling and disabling: after [KIrqModify clr set] a source named in
    exactly one of the masks is enabled if that is the second and disabled if it
    is the first; every other source keeps its enable bit. (For the sources other
    than memory protection.) *)
Theorem KIrqModify_enables c clr set r id :
  plain_source c id ->
  enabled (KIrqModify c clr set r) id =
    if xorb (has clr id) (has set id) then has set id else enabled r id.
Proof.
  intros Hid. assert (Hr : 0 <= id < 32).
  { destruct Hid as [ [?|?]|[_ ->] ]; [lia|lia|unfold IRQ_PI_ACR; lia]. }
  assert (Hin : In id [0; 1; 7; 8; 9; 10; 11; 12; 13; 14; 15; 16; 17; 18; 19; 20; 21; 22; 23; 24; 25; 26] \/ (c = Wii /\ id = 27)).
  { destruct Hid as [H|H]; [left; simpl; lia|right; exact H]. }
  unfold enabled, KIrqModify. cbv zeta.
  destruct Hin as [Hin|[-> ->] ]; [|apply modify_source; [done|done|done|done|encode_bit|encode_bit] ].
  simpl in Hin. repeat destruct Hin as [<-|Hin]; [..|done]; apply modify_source; try done; try (by destruct c); try encode_bit.
Qed.

Definition regs_zero : irqregs := mk_regs 0 0xf0 0 0 0 0 0 0 0.

Lemma KIrqModify_enables_witness :
  plain_source GameCube IRQ_EXI1_TC /\
  enabled (KIrqModify GameCube 0 (IRQMASK IRQ_EXI1_TC) regs_zero) IRQ_EXI1_TC = true.
Proof.
  assert (H : plain_source GameCube IRQ_EXI1_TC) by (left; unfold IRQ_EXI1_TC; lia).
  split; [exact H|]. rewrite (KIrqModify_enables GameCube 0 (IRQMASK IRQ_EXI1_TC) regs_zero IRQ_EXI1_TC H). by vm_compute.
Defined.

(** The masks number the sources from the most significant bit, but
    [KIrqEncodeMem] shifts as if from the least significant one: enabling a memory
    protection source sets none of its bits, whatever the registers hold. *)
Theorem KIrqEnable_mem_lost c r :
  mi14 (KIrqEnable c IM_MEM r) = mi14 r.
Proof.
  unfold KIrqEnable, KIrqModify. cbv zeta. cbn [mi14]. unfold modify_reg.
  assert (KIrqEncodeMem (Z.land 0 (Z.lxor 0 IM_MEM)) = 0) as -> by by vm_compute.
  assert (KIrqEncodeMem (Z.land IM_MEM (Z.lxor 0 IM_MEM)) = 0) as -> by by vm_compute.
  destruct (negb _); [|done]. by rewrite !Z.ldiff_0_r, Z.lor_0_r.
Qed.
