(* ===== verification/Exi.v ===== *)
(** * The EXI bus ([libogc/exi.c], [gc/ogc/exi.h])

    Three serial channels with up to three devices each: memory cards, the real
    time clock, network adapters. A client locks a channel for a device, selects
    the device, transfers and deselects; a client that finds the channel locked
    can leave a callback, which the driver calls at the unlock. Threads wait in
    [EXI_LockSync] and [EXI_Transfer], on the wait queues of the kernel.

    The status registers of the channels belong to the interrupt controller's
    state [irqregs]. What the hardware makes of a write to one of them, and what
    the transfer registers contain when they are read, are the parameters
    [csr_write] and [reg_read]; the latter depends on all accesses so far. *)

From stdpp Require Import base gmap list fin_maps.
From Stdlib Require Import ZArith Lia.
From S2P Require Import Prelude Chain LwpQueue Devices KState KThread Clock Irq.

Open Scope Z_scope.

(** ** Constants *)

Definition EXI_READ : Z := 0.
Definition EXI_WRITE : Z := 1.
Definition EXI_READWRITE : Z := 2.
Definition EXI_FLAG_DMA : Z := 1.
Definition EXI_FLAG_IMM : Z := 2.
Definition EXI_FLAG_SELECT : Z := 4.
Definition EXI_FLAG_ATTACH : Z := 8.
Definition EXI_FLAG_LOCKED : Z := 16.
Definition EXI_SPEED1MHZ : Z := 0.
Definition EXI_SPEED8MHZ : Z := 3.

Definition EXI_EXI_IRQ : Z := 0x0002.
Definition EXI_TC_IRQ : Z := 0x0008.
Definition EXI_EXT_IRQ : Z := 0x0800.
Definition EXI_EXT_BIT : Z := 0x1000.
Definition EXI_LOCK_DEVS : Z := 32.

Definition exi_sync_queue : qref := QStatic 8.

(** A bit of a status register or of [flags]. *)
Definition tst (x m : Z) : bool := negb (Z.land x m =? 0).

(** The code addresses of the callbacks of this file. *)
Definition fn_exi_locksync_cb : Z := 0x10.
Definition fn_exi_xfer_cb : Z := 0x14.
Definition fn_unlocked_handler : Z := 0x18.
Definition fn_exi_irq_handler : Z := 0x1c.
Definition fn_tc_irq_handler : Z := 0x20.
Definition fn_ext_irq_handler : Z := 0x24.

(** [struct _lck_dev]. *)
Definition lck_dev (n : Z) : Z := n + 8.
Definition lck_unlockcb (n : Z) : Z := n + 12.
Definition SIZEOF_lck_dev : Z := 16.

(** The hardware behind the registers. *)
Class ExiHw := {
  csr_write : Z -> Z -> Z -> Z;        (* channel, old value, value written *)
  reg_read : list regev -> Z -> Z;     (* accesses so far, register *)
}.

(** ** The variables *)

Definition set_flags (x : Z) (b : exibus) : exibus :=
  mk_bus (CallbackEXI b) (CallbackTC b) (CallbackEXT b) (imm_len b) (imm_buff b) (lockeddev b) x (exi_id b) (exi_idtime b).
Definition set_lockeddev (x : Z) (b : exibus) : exibus :=
  mk_bus (CallbackEXI b) (CallbackTC b) (CallbackEXT b) (imm_len b) (imm_buff b) x (flags b) (exi_id b) (exi_idtime b).
Definition set_imm (len buff : Z) (b : exibus) : exibus :=
  mk_bus (CallbackEXI b) (CallbackTC b) (CallbackEXT b) len buff (lockeddev b) (flags b) (exi_id b) (exi_idtime b).
Definition set_cbEXI (x : Z) (b : exibus) : exibus :=
  mk_bus x (CallbackTC b) (CallbackEXT b) (imm_len b) (imm_buff b) (lockeddev b) (flags b) (exi_id b) (exi_idtime b).
Definition set_cbTC (x : Z) (b : exibus) : exibus :=
  mk_bus (CallbackEXI b) x (CallbackEXT b) (imm_len b) (imm_buff b) (lockeddev b) (flags b) (exi_id b) (exi_idtime b).
Definition set_cbEXT (x : Z) (b : exibus) : exibus :=
  mk_bus (CallbackEXI b) (CallbackTC b) x (imm_len b) (imm_buff b) (lockeddev b) (flags b) (exi_id b) (exi_idtime b).
Definition set_idtime (id time : Z) (b : exibus) : exibus :=
  mk_bus (CallbackEXI b) (CallbackTC b) (CallbackEXT b) (imm_len b) (imm_buff b) (lockeddev b) (flags b) id time.

Definition set_map (x : Z -> exibus) (e : exist) : exist :=
  mk_exi x (ex_last e) (ex_irq e) (ex_log e) (ex_ram e) (ex_uart_chan e) (ex_uart_dev e) (ex_uart_barnacle e) (ex_uart_enabled e).
Definition set_last (x : Z -> Z) (e : exist) : exist :=
  mk_exi (ex_map e) x (ex_irq e) (ex_log e) (ex_ram e) (ex_uart_chan e) (ex_uart_dev e) (ex_uart_barnacle e) (ex_uart_enabled e).
Definition set_irq (x : irqst) (e : exist) : exist :=
  mk_exi (ex_map e) (ex_last e) x (ex_log e) (ex_ram e) (ex_uart_chan e) (ex_uart_dev e) (ex_uart_barnacle e) (ex_uart_enabled e).
Definition set_log (x : list regev) (e : exist) : exist :=
  mk_exi (ex_map e) (ex_last e) (ex_irq e) x (ex_ram e) (ex_uart_chan e) (ex_uart_dev e) (ex_uart_barnacle e) (ex_uart_enabled e).
Definition set_ram (x : gmap Z Z) (e : exist) : exist :=
  mk_exi (ex_map e) (ex_last e) (ex_irq e) (ex_log e) x (ex_uart_chan e) (ex_uart_dev e) (ex_uart_barnacle e) (ex_uart_enabled e).
Definition set_uart (chan dev barnacle enabled : Z) (e : exist) : exist :=
  mk_exi (ex_map e) (ex_last e) (ex_irq e) (ex_log e) (ex_ram e) chan dev barnacle enabled.

Definition upd_exi (f : exist -> exist) : M kst unit := modify (fun s => set_exi (f (k_exi s)) s).

(** [eximap[chn]] and [last_exi_idtime[chn]]. *)
Definition is_chn (chn : Z) : bool := (0 <=? chn) && (chn <? 3).
Definition rd_bus {A} (f : exibus -> A) (chn : Z) : M kst A :=
  getopt (fun s => if is_chn chn then Some (f (ex_map (k_exi s) chn)) else None).
Definition upd_bus (chn : Z) (f : exibus -> exibus) : M kst unit :=
  fun s => if is_chn chn
           then Ok (tt, set_exi (set_map (fupd (ex_map (k_exi s)) chn (f (ex_map (k_exi s) chn))) (k_exi s)) s)
           else Fault BadAccess.
Definition or_flag (chn m : Z) : M kst unit := upd_bus chn (fun b => set_flags (Z.lor (flags b) m) b).
Definition clr_flag (chn m : Z) : M kst unit := upd_bus chn (fun b => set_flags (Z.ldiff (flags b) m) b).
Definition rd_last (chn : Z) : M kst Z :=
  getopt (fun s => if is_chn chn then Some (ex_last (k_exi s) chn) else None).
Definition wr_last (chn v : Z) : M kst unit :=
  fun s => if is_chn chn then Ok (tt, set_exi (set_last (fupd (ex_last (k_exi s)) chn v) (k_exi s)) s)
           else Fault BadAccess.

(** An operation on the words of memory. *)
Definition kmem {A} (c : M mem A) : M kst A :=
  fun s => match c (k_mem s) with Ok (a, m) => Ok (a, set_mem m s) | Fault f => Fault f end.

(** Bytes of the clients' buffers; words are stored with the high byte first. *)
Definition rd_byte (a : Z) : M kst Z := getopt (fun s => ex_ram (k_exi s) !! a).
Definition wr_byte (a v : Z) : M kst unit :=
  fun s => match ex_ram (k_exi s) !! a with
           | Some _ => Ok (tt, set_exi (set_ram (<[a := v]> (ex_ram (k_exi s))) (k_exi s)) s)
           | None => Fault BadAccess
           end.
Definition byte_of (v i : Z) : Z := Z.land (Z.shiftr v ((3 - i) * 8)) 0xff.
Definition wr_u32 (a v : Z) : M kst unit :=
  wr_byte a (byte_of v 0);; wr_byte (a + 1) (byte_of v 1);; wr_byte (a + 2) (byte_of v 2);; wr_byte (a + 3) (byte_of v 3).
Definition rd_u32 (a : Z) : M kst Z :=
  b0 <- rd_byte a; b1 <- rd_byte (a + 1); b2 <- rd_byte (a + 2); b3 <- rd_byte (a + 3);
  ret (Z.lor (Z.shiftl b0 24) (Z.lor (Z.shiftl b1 16) (Z.lor (Z.shiftl b2 8) b3))).

(** The status register of a channel, [_exiReg[chn*5]]. *)
Definition csr_of (chn : Z) (r : irqregs) : option Z :=
  if chn =? 0 then Some (exi0 r) else if chn =? 1 then Some (exi5 r) else if chn =? 2 then Some (exi10 r) else None.
Definition set_csr (chn v : Z) (r : irqregs) : irqregs :=
  mk_regs (pi0 r) (pi1 r) (mi14 r) (mi15 r) (dsp5 r) (ai0 r) (if chn =? 0 then v else exi0 r)
    (if chn =? 1 then v else exi5 r) (if chn =? 2 then v else exi10 r).
Definition regs (s : kst) : irqregs := ir_regs (ex_irq (k_exi s)).
Definition set_regs (r : irqregs) (e : exist) : exist := set_irq (mk_irqst r (ir_fn (ex_irq e)) (ir_user (ex_irq e))) e.

Definition rd_csr (chn : Z) : M kst Z := getopt (fun s => csr_of chn (regs s)).
(** [_SHIFTR((csr&0x380),8,2)]: the number of the selected device. *)
Definition csr_dev (csr : Z) : Z := Z.land (Z.shiftr (Z.land csr 0x380) 8) 3.

Section Exi.
Context `{ExiHw}.
Context (con : console).
(** The addresses of [_lckdev_queue], of [lckdevs], of [eximap[chn].lckd_dev],
    of [exi_id_serport1], and of the local variables whose address is taken. *)
Context (lckdev_queue lckdevs : Z) (lckd_dev : Z -> Z) (exi_id_serport1 locals : Z).

Definition wr_csr (chn v : Z) : M kst unit :=
  fun s => match csr_of chn (regs s) with
           | Some old => Ok (tt, set_exi (set_regs (set_csr chn (csr_write chn old v) (regs s)) (k_exi s)) s)
           | None => Fault BadAccess
           end.

(** The other registers, [_exiReg[r]]. *)
Definition rd_reg (r : Z) : M kst Z :=
  s <- get;
  let v := reg_read (ex_log (k_exi s)) r in
  upd_exi (fun e => set_log (ex_log e ++ [RdReg r v]) e);;
  ret v.
Definition wr_reg (r v : Z) : M kst unit := upd_exi (fun e => set_log (ex_log e ++ [WrReg r v]) e).

Definition irq_enable (mask : Z) : M kst unit :=
  modify (fun s => set_exi (set_regs (KIrqEnable con mask (regs s)) (k_exi s)) s).
Definition irq_disable (mask : Z) : M kst unit :=
  modify (fun s => set_exi (set_regs (KIrqDisable con mask (regs s)) (k_exi s)) s).

(** ** Interrupt bits *)

Definition exi_clearirqs (chn : Z) (nEXI nTC nEXT : bool) : M kst unit :=
  r <- rd_csr chn;
  let d := Z.ldiff r (Z.lor EXI_EXI_IRQ (Z.lor EXI_TC_IRQ EXI_EXT_IRQ)) in
  let d := if nEXI then Z.lor d EXI_EXI_IRQ else d in
  let d := if nTC then Z.lor d EXI_TC_IRQ else d in
  let d := if nEXT then Z.lor d EXI_EXT_IRQ else d in
  wr_csr chn d.

(** The second parameter of the function is always [&eximap[chn]]. *)
Definition exi_setinterrupts (chn : Z) : M kst unit :=
  fl <- rd_bus flags chn;
  cb <- rd_bus CallbackEXI chn;
  cb2 <- rd_bus CallbackEXI 2;
  dbg <- gets (fun s => KIrqGet (ex_irq (k_exi s)) IRQ_PI_DEBUG);
  let free := negb (tst fl EXI_FLAG_LOCKED) in
  if chn =? 0 then
    if free && (negb (cb =? NULL) || negb (cb2 =? NULL))
    then irq_enable (orl [IRQ_EXI0_EXI; IRQ_EXI2_EXI]) else irq_disable (orl [IRQ_EXI0_EXI; IRQ_EXI2_EXI])
  else if chn =? 1 then
    if free && negb (cb =? NULL) then irq_enable (IRQMASK IRQ_EXI1_EXI) else irq_disable (IRQMASK IRQ_EXI1_EXI)
  else if chn =? 2 then
    if free && negb (dbg =? NULL) then irq_enable (IRQMASK IRQ_PI_DEBUG) else irq_disable (IRQMASK IRQ_PI_DEBUG)
  else ret tt.

Fixpoint initmap_loop (n : nat) (i : Z) : M kst unit :=
  match n with
  | O => ret tt
  | S k => upd_bus i (fun _ => bus0);; kmem (lwp_queue_init_empty (lckd_dev i));; initmap_loop k (i + 1)
  end.
Definition exi_initmap : M kst unit :=
  kmem (lwp_queue_initialize lckdev_queue lckdevs EXI_LOCK_DEVS SIZEOF_lck_dev);;
  initmap_loop 3 0.

(** ** Probing and attaching *)

Definition forget_id (chn : Z) : M kst unit :=
  upd_bus chn (fun b => set_idtime (exi_id b) 0 b);; wr_last chn 0.

Definition exi_probe (chn : Z) : M kst Z :=
  if chn =? 2 then ret 1 else
  level <- PPCIrqLockByMsr;
  val <- rd_csr chn;
  fl <- rd_bus flags chn;
  if negb (tst fl EXI_FLAG_ATTACH) then
    when (tst val EXI_EXT_IRQ) (exi_clearirqs chn false false true;; forget_id chn);;
    if tst val EXI_EXT_BIT then
      time <- PPCGetTickCount;
      let time := if time =? 0 then 1 else time in
      last <- rd_last chn;
      when (last =? 0) (wr_last chn time);;
      last <- rd_last chn;
      let r := if s64 (u64 (time - last)) <? s64 (PPCMsToTicks con 300) then 0 else 1 in
      PPCIrqUnlockByMsr level;;
      ret r
    else
      forget_id chn;;
      PPCIrqUnlockByMsr level;;
      ret 0
  else
    r <- (if negb (tst val EXI_EXT_BIT) || tst val EXI_EXT_IRQ then forget_id chn;; ret 0 else ret 1);
    PPCIrqUnlockByMsr level;;
    ret r.

Definition exi_attach (chn ext_cb : Z) : M kst Z :=
  level <- PPCIrqLockByMsr;
  fl <- rd_bus flags chn;
  r <- (if negb (tst fl EXI_FLAG_ATTACH) then
          p <- exi_probe chn;
          if negb (p =? 0) then
            exi_clearirqs chn true false false;;
            upd_bus chn (set_cbEXT ext_cb);;
            irq_enable (Z.shiftr (IRQMASK IRQ_EXI0_EXT) (chn * 3));;
            or_flag chn EXI_FLAG_ATTACH;;
            ret 1
          else ret 0
        else ret 0);
  PPCIrqUnlockByMsr level;;
  ret r.

(** ** Immediate transfers *)

Fixpoint unpack_loop (n : nat) (buf val i : Z) : M kst unit :=
  match n with
  | O => ret tt
  | S k => wr_byte (buf + i) (byte_of val i);; unpack_loop k buf val (i + 1)
  end.

Definition exi_completetransfer (chn : Z) : M kst unit :=
  fl <- rd_bus flags chn;
  if negb (tst fl (Z.lor EXI_FLAG_DMA EXI_FLAG_IMM)) then ret tt else
  when (tst fl EXI_FLAG_IMM)
    (cnt <- rd_bus imm_len chn;
     buf <- rd_bus imm_buff chn;
     when (negb (buf =? NULL) && (0 <? cnt))
       (val <- rd_reg (chn * 5 + 4); unpack_loop (Z.to_nat cnt) buf val 0));;
  clr_flag chn (Z.lor EXI_FLAG_DMA EXI_FLAG_IMM).

Fixpoint pack_loop (n : nat) (buf i value : Z) : M kst Z :=
  match n with
  | O => ret value
  | S k => b <- rd_byte (buf + i); pack_loop k buf (i + 1) (Z.lor value (Z.shiftl b ((3 - i) * 8)))
  end.

(** The end of [EXI_Imm] and [EXI_Dma]: arm the interrupt for the callback. *)
Definition arm_tc (chn tc_cb : Z) : M kst unit :=
  upd_bus chn (set_cbTC tc_cb);;
  when (negb (tc_cb =? NULL))
    (exi_clearirqs chn false true false;; irq_enable (Z.shiftr (IRQMASK IRQ_EXI0_TC) (chn * 3))).

Definition cannot_transfer (fl : Z) : bool :=
  tst fl (Z.lor EXI_FLAG_DMA EXI_FLAG_IMM) || negb (tst fl EXI_FLAG_SELECT).

Definition EXI_Imm (chn pData nLen nMode tc_cb : Z) : M kst Z :=
  level <- PPCIrqLockByMsr;
  fl <- rd_bus flags chn;
  if cannot_transfer fl then PPCIrqUnlockByMsr level;; ret 0 else
  arm_tc chn tc_cb;;
  or_flag chn EXI_FLAG_IMM;;
  upd_bus chn (set_imm nLen pData);;
  value <- (if negb (nMode =? EXI_READ) then pack_loop (Z.to_nat nLen) pData 0 0 else ret 0xffffffff);
  when (nMode =? EXI_WRITE) (buf <- rd_bus imm_buff chn; upd_bus chn (set_imm 0 buf));;
  wr_reg (chn * 5 + 4) value;;
  wr_reg (chn * 5 + 3) (Z.lor (Z.shiftl (Z.land (u32 (nLen - 1)) 3) 4) (Z.lor (Z.shiftl (Z.land nMode 3) 2) 1));;
  PPCIrqUnlockByMsr level;;
  ret 1.

(** The loop of [EXI_Sync]; one step reads the transfer control register once. *)
Fixpoint EXI_Sync (fuel : nat) (chn : Z) : M kst Z :=
  match fuel with
  | O => fail OutOfFuel
  | S n =>
      fl <- rd_bus flags chn;
      if negb (tst fl EXI_FLAG_SELECT) then ret 0 else
      cr <- rd_reg (chn * 5 + 3);
      if tst cr 1 then EXI_Sync n chn else
      level <- PPCIrqLockByMsr;
      fl <- rd_bus flags chn;
      r <- (if tst fl EXI_FLAG_SELECT then exi_completetransfer chn;; ret 1 else ret 0);
      PPCIrqUnlockByMsr level;;
      ret r
  end.

(** The number of polls of one transfer the model allows for. *)
Context (polls : nat).

Fixpoint immex_loop (fuel : nat) (chn buf nLen nMode r : Z) : M kst Z :=
  match fuel with
  | O => fail OutOfFuel
  | S n =>
      if nLen =? 0 then ret r else
      let tc := if 4 <? nLen then 4 else nLen in
      ok <- EXI_Imm chn buf tc nMode NULL;
      if ok =? 0 then ret 0 else
      ok <- EXI_Sync polls chn;
      if ok =? 0 then ret 0 else
      immex_loop n chn (buf + tc) (nLen - tc) nMode 1
  end.
Definition EXI_ImmEx (chn pData nLen nMode : Z) : M kst Z :=
  immex_loop (S (Z.to_nat nLen)) chn pData nLen nMode 0.

Definition MEM_VIRTUAL_TO_PHYSICAL (x : Z) : Z := Z.ldiff (u32 x) 0xC0000000.

Definition EXI_Dma (chn pData nLen nMode tc_cb : Z) : M kst Z :=
  level <- PPCIrqLockByMsr;
  fl <- rd_bus flags chn;
  if cannot_transfer fl then PPCIrqUnlockByMsr level;; ret 0 else
  arm_tc chn tc_cb;;
  upd_bus chn (set_imm 0 NULL);;
  or_flag chn EXI_FLAG_DMA;;
  wr_reg (chn * 5 + 1) (Z.ldiff (MEM_VIRTUAL_TO_PHYSICAL pData) 0x1f);;
  wr_reg (chn * 5 + 2) nLen;;
  wr_reg (chn * 5 + 3) (Z.lor (Z.shiftl (Z.land nMode 3) 2) 3);;
  PPCIrqUnlockByMsr level;;
  ret 1.

(** ** Locking *)

Definition EXI_Lock (nChn nDev unlockCB : Z) : M kst Z :=
  level <- PPCIrqLockByMsr;
  fl <- rd_bus flags nChn;
  if tst fl EXI_FLAG_LOCKED then
    when (negb (unlockCB =? NULL))
      (lckd <- kmem (lwp_queue_getI lckdev_queue);
       when (negb (lckd =? NULL))
         (kmem (store (lck_dev lckd) nDev);;
          kmem (store (lck_unlockcb lckd) unlockCB);;
          kmem (lwp_queue_appendI (lckd_dev nChn) lckd)));;
    PPCIrqUnlockByMsr level;;
    ret 0
  else
    upd_bus nChn (set_lockeddev (u32 nDev));;
    or_flag nChn EXI_FLAG_LOCKED;;
    exi_setinterrupts nChn;;
    PPCIrqUnlockByMsr level;;
    ret 1.

(** [nChn | (nDev<<2)]: the token of the threads that wait for a device. *)
Definition lock_token (nChn nDev : Z) : Z := Z.lor nChn (Z.shiftl nDev 2).
Definition exi_locksync_cb (nChn nDev : Z) : K Z :=
  do! KThrQueueUnblockOneByValue exi_sync_queue (lock_token nChn nDev) then kret 0.

(** [while (!EXI_Lock(...)) KThrQueueBlock(...)]; [fuel] bounds the number of
    times the thread is woken and finds the channel locked again. *)
Fixpoint locksync_loop (fuel : nat) (nChn nDev : Z) : K unit :=
  match fuel with
  | O => lift (fail OutOfFuel)
  | S n =>
      let! r := lift (EXI_Lock nChn nDev fn_exi_locksync_cb) in
      if negb (r =? 0) then kret tt else
      do! KThrQueueBlock exi_sync_queue (lock_token nChn nDev) then
      locksync_loop n nChn nDev
  end.

Definition EXI_LockSync (fuel : nat) (nChn nDev : Z) : K Z :=
  let! r := lift (EXI_Lock nChn nDev NULL) in
  if negb (r =? 0) then kret 1 else
  let! ex := lift PPCIsInExcpt in
  if (ex : bool) then kret 0 else
  let! st := lift PPCIrqLockByMsr in
  do! locksync_loop fuel nChn nDev then
  do! lift (PPCIrqUnlockByMsr st) then
  kret 1.

(** The part of [EXI_Unlock] before the callback: the callback of the client
    that waited longest and its device, if there is one. *)
Definition unlock_next (nChn : Z) : M kst (option (Z * Z)) :=
  clr_flag nChn EXI_FLAG_LOCKED;;
  exi_setinterrupts nChn;;
  e <- kmem (lwp_queue_isempty (lckd_dev nChn));
  if (e : bool) then ret None else
  lckd <- kmem (lwp_queue_getI (lckd_dev nChn));
  kmem (lwp_queue_appendI lckdev_queue lckd);;
  cb <- kmem (load (lck_unlockcb lckd));
  dev <- kmem (load (lck_dev lckd));
  ret (Some (cb, dev)).

(** [call cb nChn nDev] is the call of the function at [cb]. *)
Definition EXI_Unlock (call : Z -> Z -> Z -> K Z) (nChn : Z) : K Z :=
  let! level := lift PPCIrqLockByMsr in
  let! fl := lift (rd_bus flags nChn) in
  if negb (tst fl EXI_FLAG_LOCKED) then do! lift (PPCIrqUnlockByMsr level) then kret 0 else
  let! nx := lift (unlock_next nChn) in
  match nx with
  | None => do! lift (PPCIrqUnlockByMsr level) then kret 1
  | Some (cb, dev) => do! call cb nChn dev then do! lift (PPCIrqUnlockByMsr level) then kret 1
  end.

(** ** Selecting a device *)

(** The external interrupt of an attached device is off while it is selected. *)
Definition ext_irq (f : Z -> M kst unit) (nChn : Z) : M kst unit :=
  fl <- rd_bus flags nChn;
  when (tst fl EXI_FLAG_ATTACH)
    (if nChn =? 0 then f (IRQMASK IRQ_EXI0_EXT) else if nChn =? 1 then f (IRQMASK IRQ_EXI1_EXT) else ret tt).

(** The end of [EXI_Select] and [EXI_SelectSD]: [cs] is the chip select line. *)
Definition do_select (nChn cs nFrq : Z) : M kst unit :=
  or_flag nChn EXI_FLAG_SELECT;;
  val <- rd_csr nChn;
  wr_csr nChn (Z.lor (Z.lor (Z.land val 0x405) cs) (Z.shiftl nFrq 4));;
  ext_irq irq_disable nChn.

Definition wrong_lock (fl ldev nDev : Z) : bool := negb (tst fl EXI_FLAG_LOCKED) || negb (ldev =? u32 nDev).

Definition EXI_Select (nChn nDev nFrq : Z) : M kst Z :=
  level <- PPCIrqLockByMsr;
  fl <- rd_bus flags nChn;
  if tst fl EXI_FLAG_SELECT then PPCIrqUnlockByMsr level;; ret 0 else
  p <- (if negb (nChn =? 2) && ((nDev =? 0) && negb (tst fl EXI_FLAG_ATTACH)) then exi_probe nChn else ret 1);
  if p =? 0 then PPCIrqUnlockByMsr level;; ret 0 else
  fl <- rd_bus flags nChn;
  ldev <- rd_bus lockeddev nChn;
  if negb (nChn =? 2) && wrong_lock fl ldev nDev then PPCIrqUnlockByMsr level;; ret 0 else
  do_select nChn (Z.shiftl 0x80 nDev) nFrq;;
  PPCIrqUnlockByMsr level;;
  ret 1.

Definition EXI_Deselect (nChn : Z) : M kst Z :=
  level <- PPCIrqLockByMsr;
  fl <- rd_bus flags nChn;
  if negb (tst fl EXI_FLAG_SELECT) then PPCIrqUnlockByMsr level;; ret 0 else
  clr_flag nChn EXI_FLAG_SELECT;;
  val <- rd_csr nChn;
  wr_csr nChn (Z.land val 0x405);;
  ext_irq irq_enable nChn;;
  PPCIrqUnlockByMsr level;;
  if negb (nChn =? 2) && tst val 0x80 then exi_probe nChn else ret 1.

Definition EXI_GetState (nChn : Z) : M kst Z := rd_bus flags nChn.

Definition EXI_Detach (nChn : Z) : M kst Z :=
  level <- PPCIrqLockByMsr;
  fl <- rd_bus flags nChn;
  ldev <- rd_bus lockeddev nChn;
  r <- (if tst fl EXI_FLAG_ATTACH then
          if tst fl EXI_FLAG_LOCKED && (ldev =? 0) then ret 0
          else
            clr_flag nChn EXI_FLAG_ATTACH;;
            irq_disable (Z.shiftr (orl [IRQ_EXI0_EXI; IRQ_EXI0_EXT]) (nChn * 3));;
            ret 1
        else ret 1);
  PPCIrqUnlockByMsr level;;
  ret r.

Definition EXI_RegisterEXICallback (nChn exi_cb : Z) : M kst Z :=
  level <- PPCIrqLockByMsr;
  old <- rd_bus CallbackEXI nChn;
  upd_bus nChn (set_cbEXI exi_cb);;
  (if nChn =? 2 then exi_setinterrupts 0 else exi_setinterrupts nChn);;
  PPCIrqUnlockByMsr level;;
  ret old.

(** ** Transfers of any length *)

Definition exi_xfer_cb (nChn nDev : Z) : K Z :=
  do! KThrQueueUnblockOneByValue exi_sync_queue (Z.lor nChn 0x100) then kret 1.

Definition EXI_Transfer (nChn pData nLen nMode : Z) : K Z :=
  if nMode =? EXI_READWRITE then kret 0 else
  let misalign := Z.land (u32 pData) 0x1f in
  if nLen <? (if negb (misalign =? 0) then 0x40 else 0x20) then lift (EXI_ImmEx nChn pData nLen nMode) else
  let head := if negb (misalign =? 0) then 0x20 - misalign else 0 in
  let! ok := lift (if negb (misalign =? 0) then EXI_ImmEx nChn pData head nMode else ret 1) in
  if ok =? 0 then kret 0 else
  let pData := pData + head in
  let nLen := nLen - head in
  let tail := Z.land nLen 0x1f in
  let nLen := Z.ldiff nLen 0x1f in
  let! st := lift PPCIrqLockByMsr in
  let! ex := lift PPCIsInExcpt in
  let! r := (if (ex : bool) then
               lift (r <- EXI_Dma nChn pData nLen nMode NULL;
                     when (negb (r =? 0)) (EXI_Sync polls nChn;; ret tt);;
                     ret r)
             else
               let! r := lift (EXI_Dma nChn pData nLen nMode fn_exi_xfer_cb) in
               do! kwhen (negb (r =? 0)) (do! KThrQueueBlock exi_sync_queue (Z.lor nChn 0x100) then kret tt) then
               kret r) in
  do! lift (PPCIrqUnlockByMsr st) then
  if negb (r =? 0) && negb (tail =? 0) then lift (EXI_ImmEx nChn (pData + nLen) tail nMode) else kret r.

(** ** Identification *)

(** Locked and selected, the device is asked for its number. *)
Definition ask_id (nChn nDev nId : Z) : M kst unit :=
  sel <- EXI_Select nChn nDev EXI_SPEED1MHZ;
  when (negb (sel =? 0))
    (wr_u32 locals 0;;
     EXI_Imm nChn locals 2 EXI_WRITE NULL;; EXI_Sync polls nChn;;
     EXI_Imm nChn nId 4 EXI_READ NULL;; EXI_Sync polls nChn;;
     EXI_Deselect nChn;; ret tt).

(** Whether the number has to be asked for: the early returns of [EXI_GetID]. *)
Inductive id_state := IdKnown (r : Z) | IdAsk (idtime : Z).
Definition id_check (nChn nDev nId : Z) : M kst id_state :=
  sp1 <- rd_u32 exi_id_serport1;
  if (nChn =? 0) && (nDev =? 2) && negb (sp1 =? 0) then wr_u32 nId sp1;; ret (IdKnown 1) else
  if (nChn <? 2) && (nDev =? 0) then
    p <- exi_probe nChn;
    if p =? 0 then ret (IdKnown 0) else
    t <- rd_bus exi_idtime nChn;
    last <- rd_last nChn;
    if t =? last then id <- rd_bus exi_id nChn; wr_u32 nId id;; ret (IdKnown 1) else
    a <- exi_attach nChn NULL;
    if a =? 0 then ret (IdKnown 0) else
    last <- rd_last nChn;
    ret (IdAsk last)
  else ret (IdAsk 0).

(** The number is kept if the device was not removed meanwhile. *)
Definition id_store (nChn nId idtime r : Z) : M kst Z :=
  EXI_Detach nChn;;
  level <- PPCIrqLockByMsr;
  last <- rd_last nChn;
  let r := if negb (idtime =? last) then 0 else r in
  when (negb (r =? 0)) (id <- rd_u32 nId; upd_bus nChn (set_idtime id idtime));;
  PPCIrqUnlockByMsr level;;
  ret r.

Definition EXI_GetID (call : Z -> Z -> Z -> K Z) (nChn nDev nId : Z) : K Z :=
  let! c := lift (id_check nChn nDev nId) in
  match c with
  | IdKnown r => kret r
  | IdAsk idtime =>
      let lck := (nChn <? 2) && (nDev =? 0) in
      let! level := lift PPCIrqLockByMsr in
      let! r := lift (EXI_Lock nChn nDev (if lck then fn_unlocked_handler else NULL)) in
      do! (if negb (r =? 0) then do! lift (ask_id nChn nDev nId) then do! EXI_Unlock call nChn then kret tt
           else kret tt) then
      do! lift (PPCIrqUnlockByMsr level) then
      if lck then lift (id_store nChn nId idtime r) else kret r
  end.

(** The result goes to a local variable. *)
Definition unlocked_handler (call : Z -> Z -> Z -> K Z) (nChn nDev : Z) : K Z :=
  do! EXI_GetID call nChn nDev (locals + 4) then kret 1.

(** A call through a pointer; [user] are the callbacks of other files. A
    callback may unlock a channel and so call another one; [fuel] bounds the
    depth. *)
Fixpoint call_cb (user : Z -> Z -> Z -> K Z) (fuel : nat) (cb nChn nDev : Z) : K Z :=
  match fuel with
  | O => lift (fail OutOfFuel)
  | S n =>
      if cb =? fn_exi_locksync_cb then exi_locksync_cb nChn nDev
      else if cb =? fn_exi_xfer_cb then exi_xfer_cb nChn nDev
      else if cb =? fn_unlocked_handler then unlocked_handler (call_cb user n) nChn nDev
      else user cb nChn nDev
  end.

Section Calls.
Context (call : Z -> Z -> Z -> K Z).

Definition EXI_Probe (nChn : Z) : K Z :=
  let! r := lift (exi_probe nChn) in
  if r =? 0 then kret 0 else
  let! t := lift (rd_bus exi_idtime nChn) in
  if t =? 0 then
    let! ok := EXI_GetID call nChn 0 (locals + 8) in
    kret (if ok =? 0 then 0 else r)
  else kret r.

Definition EXI_ProbeEx (nChn : Z) : K Z :=
  let! p := EXI_Probe nChn in
  if negb (p =? 0) then kret 1 else
  let! last := lift (rd_last nChn) in
  kret (if last =? 0 then -1 else 0).

Definition EXI_ProbeReset : M kst unit :=
  wr_last 0 0;; wr_last 1 0;;
  upd_bus 0 (fun b => set_idtime (exi_id b) 0 b);; upd_bus 1 (fun b => set_idtime (exi_id b) 0 b);;
  exi_probe 0;; exi_probe 1;; ret tt.

Definition EXI_Attach (nChn ext_cb : Z) : K Z :=
  do! EXI_Probe nChn then
  let! level := lift PPCIrqLockByMsr in
  let! t := lift (rd_bus exi_idtime nChn) in
  let! r := lift (if negb (t =? 0) then exi_attach nChn ext_cb else ret 0) in
  do! lift (PPCIrqUnlockByMsr level) then
  kret r.

Definition EXI_SelectSD (nChn nDev nFrq : Z) : K Z :=
  let! level := lift PPCIrqLockByMsr in
  let! fl := lift (rd_bus flags nChn) in
  let leave := do! lift (PPCIrqUnlockByMsr level) then kret 0 in
  if tst fl EXI_FLAG_SELECT then leave else
  let! p := (if negb (nChn =? 2) && ((nDev =? 0) && negb (tst fl EXI_FLAG_ATTACH)) then EXI_Probe nChn
             else kret 1) in
  if p =? 0 then leave else
  let! fl := lift (rd_bus flags nChn) in
  let! ldev := lift (rd_bus lockeddev nChn) in
  if negb (nChn =? 2) && wrong_lock fl ldev nDev then leave else
  do! lift (do_select nChn 0 nFrq;; PPCIrqUnlockByMsr level) then
  kret 1.

(** ** Interrupts; the argument of a handler is the channel *)

Definition exi_irq_handler (chan : Z) : K unit :=
  let! dev := lift (csr <- rd_csr chan; ret (csr_dev csr)) in
  do! lift (exi_clearirqs chan true false false) then
  let! cb := lift (rd_bus CallbackEXI chan) in
  kwhen (negb (cb =? NULL)) (do! call cb chan dev then kret tt).

Definition tc_irq_handler (nIrq chan : Z) : K unit :=
  let! dev := lift (csr <- rd_csr chan; ret (csr_dev csr)) in
  do! lift (irq_disable (IRQMASK nIrq);; exi_clearirqs chan false true false) then
  let! cb := lift (rd_bus CallbackTC chan) in
  kwhen (negb (cb =? NULL))
    (do! lift (upd_bus chan (set_cbTC NULL);; exi_completetransfer chan) then
     do! call cb chan dev then kret tt).

(** The number of the interrupt is used as that of a channel; a shift by more
    than the width of the mask leaves nothing. *)
Definition ext_irq_handler (nIrq chan : Z) : K unit :=
  let! dev := lift (csr <- rd_csr chan; ret (csr_dev csr)) in
  do! lift (irq_disable (Z.shiftr (orl [IRQ_EXI0_EXI; IRQ_EXI0_EXT]) (nIrq * 3));;
            exi_clearirqs chan false false true;;
            clr_flag chan EXI_FLAG_ATTACH) then
  let! cb := lift (rd_bus CallbackEXT chan) in
  kwhen (negb (cb =? NULL))
    (do! lift (upd_bus chan (set_cbEXT NULL)) then
     do! call cb chan dev then kret tt).

(** ** Start *)

Fixpoint idle_loop (fuel : nat) (i : Z) : M kst unit :=
  match fuel with
  | O => fail OutOfFuel
  | S n => cr <- rd_reg (i * 5 + 3); if tst cr 1 then idle_loop n i else ret tt
  end.

Definition irq_set (id fn user : Z) : M kst unit :=
  modify (fun s => set_exi (set_irq (snd (KIrqSet (ex_irq (k_exi s)) id fn user)) (k_exi s)) s).

Definition exi_init : K unit :=
  do! lift (
    idle_loop polls 0;; idle_loop polls 1;; idle_loop polls 2;;
    irq_disable (Z.lor IM_EXI0 (Z.lor IM_EXI1 IM_EXI2));;
    wr_csr 0 0;; wr_csr 1 0;; wr_csr 2 0;; wr_csr 0 0x2000;;
    exi_initmap;;
    irq_set IRQ_EXI0_EXI fn_exi_irq_handler 0;; irq_set IRQ_EXI0_TC fn_tc_irq_handler 0;;
    irq_set IRQ_EXI0_EXT fn_ext_irq_handler 0;; irq_set IRQ_EXI1_EXI fn_exi_irq_handler 1;;
    irq_set IRQ_EXI1_TC fn_tc_irq_handler 1;; irq_set IRQ_EXI1_EXT fn_ext_irq_handler 1;;
    irq_set IRQ_EXI2_EXI fn_exi_irq_handler 2;; irq_set IRQ_EXI2_TC fn_tc_irq_handler 2) then
  do! EXI_GetID call 0 2 exi_id_serport1 then
  lift EXI_ProbeReset.

(** ** The UART adapter *)

(** The bits of the result: the steps that failed. *)
Definition err_bit (r b : Z) : Z := if r =? 0 then b else 0.

Definition probebarnacle (chn dev rev : Z) : K Z :=
  let att := negb (chn =? 2) && (dev =? 0) in
  let! a := (if att then EXI_Attach chn NULL else kret 1) in
  if a =? 0 then kret 0 else
  let! l := lift (EXI_Lock chn dev NULL) in
  let! r := (if negb (l =? 0) then
    let! r := lift (sel <- EXI_Select chn dev EXI_SPEED1MHZ;
      if sel =? 0 then ret 0 else
      wr_u32 (locals + 12) 0x20011300;;
      r1 <- EXI_Imm chn (locals + 12) 4 EXI_WRITE NULL; r2 <- EXI_Sync polls chn;
      r3 <- EXI_Imm chn rev 4 EXI_READ NULL; r4 <- EXI_Sync polls chn;
      r5 <- EXI_Deselect chn;
      ret (err_bit r1 1 + err_bit r2 2 + err_bit r3 4 + err_bit r4 8 + err_bit r5 16)) in
    do! EXI_Unlock call chn then kret r
    else kret 0) in
  do! lift (when att (EXI_Detach chn;; ret tt)) then
  if negb (r =? 0) then kret 0 else
  let! v := lift (rd_u32 rev) in
  kret (if u32 (v + 0x00010000) =? 0xffff then 0 else 1).

Definition uart {A} (f : exist -> A) : M kst A := gets (fun s => f (k_exi s)).

Definition queuelength : M kst Z :=
  chn <- uart ex_uart_chan; dev <- uart ex_uart_dev;
  sel <- EXI_Select chn dev EXI_SPEED8MHZ;
  if sel =? 0 then ret (-1) else
  wr_byte (locals + 20) 0;;
  wr_u32 (locals + 16) 0x20010000;;
  EXI_Imm chn (locals + 16) 4 EXI_WRITE NULL;; EXI_Sync polls chn;;
  EXI_Imm chn (locals + 20) 1 EXI_READ NULL;; EXI_Sync polls chn;;
  EXI_Deselect chn;;
  len <- rd_byte (locals + 20);
  ret (16 - len).

(** The numbers of memory cards and other known devices. *)
Definition known_ids : list Z :=
  [0x01020000; 0x0004; 0x80000010; 0x80000008; 0x80000004; 0xffff; 0x80000020; 0x0020; 0x0010; 0x0008; 0x01010000;
   0x04040404; 0x04021000; 0x03010000; 0x02020000; 0x04020300; 0x04020200; 0x04130000; 0x04120000; 0x04060000; 0x04220000].

Definition SYS_EnableBarnacle (chn dev : Z) : K unit :=
  let! ok := EXI_GetID call chn dev (locals + 24) in
  if ok =? 0 then kret tt else
  let! id := lift (rd_u32 (locals + 24)) in
  if existsb (Z.eqb id) known_ids then kret tt else
  let! p := probebarnacle chn dev (locals + 28) in
  if p =? 0 then kret tt else
  lift (upd_exi (set_uart chn dev 0xa5ff005a 0xa5ff005a)).

Definition uart_ready (v : Z) : bool := u32 (v + 0x5a010000) =? 0x005a.

Definition InitializeUART : M kst Z :=
  en <- uart ex_uart_enabled;
  if uart_ready en then ret 0 else
  upd_exi (fun e => set_uart 0 1 (ex_uart_barnacle e) 0xa5ff005a e);;
  ret 0.

(** The loop that turns line feeds into carriage returns. *)
Fixpoint newline_loop (n : nat) (ptr : Z) : M kst unit :=
  match n with
  | O => ret tt
  | S k => b <- rd_byte ptr; when (b =? 10) (wr_byte ptr 13);; newline_loop k (ptr + 1)
  end.

(** The inner loop of [WriteUARTN]; the value is the rest of [len]. *)
Fixpoint uart_burst (fuel : nat) (chn ptr qlen len : Z) : M kst Z :=
  match fuel with
  | O => fail OutOfFuel
  | S n =>
      if negb ((0 <? qlen) && (0 <? len)) then ret len else
      if 4 <=? qlen then
        let cnt := if len <? 4 then len else 4 in
        if qlen <? len then ret len else
        EXI_Imm chn ptr cnt EXI_WRITE NULL;; EXI_Sync polls chn;;
        uart_burst n chn ptr (qlen - cnt) (len - cnt)
      else uart_burst n chn ptr qlen len
  end.

Fixpoint uart_loop (fuel : nat) (ptr len : Z) : M kst Z :=
  match fuel with
  | O => fail OutOfFuel
  | S n =>
      if len =? 0 then ret 0 else
      qlen <- queuelength;
      if qlen <? 0 then ret 3 else
      chn <- uart ex_uart_chan; dev <- uart ex_uart_dev;
      if (12 <=? qlen) || (len <=? qlen) then
        sel <- EXI_Select chn dev EXI_SPEED8MHZ;
        if sel =? 0 then ret 3 else
        wr_u32 (locals + 32) 0xa0010000;;
        EXI_Imm chn (locals + 32) 4 EXI_WRITE NULL;; EXI_Sync polls chn;;
        len' <- uart_burst fuel chn ptr qlen len;
        EXI_Deselect chn;;
        uart_loop n ptr len'
      else EXI_Deselect chn;; uart_loop n ptr len
  end.

Definition WriteUARTN (fuel : nat) (buf len : Z) : K Z :=
  let! en := lift (uart ex_uart_enabled) in
  if negb (uart_ready en) then kret 2 else
  let! l := lift (chn <- uart ex_uart_chan; dev <- uart ex_uart_dev; EXI_Lock chn dev NULL) in
  if l =? 0 then kret 0 else
  let! r := lift (newline_loop (Z.to_nat len) buf;; uart_loop fuel buf len) in
  let! chn := lift (uart ex_uart_chan) in
  do! EXI_Unlock call chn then
  kret r.
End Calls.
End Exi.
