(* ===== verification/ExiLock.v ===== *)
(** * The EXI bus: requests for a channel

    The nodes in which [EXI_Lock] keeps the requests of waiting clients move
    between a queue of free nodes and one queue per channel, all in memory. This
    file has the relation between memory and these queues, and the effect of
    [EXI_Lock] and of the first part of [EXI_Unlock]. *)

From stdpp Require Import base gmap list fin_maps.
From Stdlib Require Import ZArith Lia.
From S2P Require Import Prelude Chain LwpQueue Devices KState KTick KThread KLists KSched KSound KMailbox KSystem KCalls Clock Irq Exi.

Open Scope Z_scope.

(** The words of a queue: its control structure and the links of its nodes. *)
Lemma queue_words q L w :
  footprint q L w -> q <= w < q + 12 \/ exists r, r ∈ L /\ (w = r \/ w = r + 4).
Proof.
  unfold footprint, link_word, nodes, lwp_queue_head, lwp_queue_tail, q_perm_null. intros [ [ [a [Ha ->] ]|[a [Ha ->] ] ]| ->].
  - rewrite (app_comm_cons L), removelast_last in Ha. apply elem_of_cons in Ha as [->|Ha]; [left; lia|right].
    exists a. split; [done|lia].
  - simpl in Ha. apply elem_of_app in Ha as [Ha|Ha%list_elem_of_singleton]; [right|left; lia]. exists a. split; [done|lia].
  - left. lia.
Qed.

Section Locks.
(** The addresses of the queues and of the nodes. *)
Context (lckdev_queue : Z) (lckd_dev : Z -> Z) (P : list Z).

(** The queues are numbered: -1 for the free nodes, 0 to 2 for the channels. *)
Definition free_nodes : Z := -1.
Definition idx (i : Z) : Prop := -1 <= i < 3.
Definition qaddr (i : Z) : Z := if i =? -1 then lckdev_queue else lckd_dev i.

Record lock_layout : Prop := {
  ll_queues : forall i j, idx i -> idx j -> i <> j -> qaddr i + 12 <= qaddr j \/ qaddr j + 12 <= qaddr i;
  ll_nodes : forall n i, n ∈ P -> idx i -> n + 16 <= qaddr i \/ qaddr i + 12 <= n;
  ll_sep : forall n n', n ∈ P -> n' ∈ P -> n = n' \/ n + 16 <= n' \/ n' + 16 <= n;
  ll_null : NULL ∉ P;
}.

Definition node_word (k : Z) : Prop := k = 0 \/ k = 4 \/ k = 8 \/ k = 12.

(** Memory with the queues [Q]; [req n] is the device and the callback of the
    request in the node [n]. *)
Record lrel (m : mem) (Q : Z -> list Z) (req : Z -> Z * Z) : Prop := {
  lr_queue : forall i, idx i -> queue_repr m (qaddr i) (Q i);
  lr_sub : forall i n, idx i -> n ∈ Q i -> n ∈ P;
  lr_disj : forall i j n, idx i -> idx j -> n ∈ Q i -> n ∈ Q j -> i = j;
  lr_mapped : forall n k, n ∈ P -> node_word k -> is_Some (m !! (n + k));
  lr_req : forall c n, 0 <= c < 3 -> n ∈ Q c ->
    m !! lck_dev n = Some (fst (req n)) /\ m !! lck_unlockcb n = Some (snd (req n));
}.

Context (HL : lock_layout).

(** The queue [i] changed; its new nodes were in no other queue. *)
Lemma lrel_queue m m' Q req i L :
  lrel m Q req -> idx i -> queue_repr m' (qaddr i) L -> agree (fun w => ~ footprint (qaddr i) L w) m m' ->
  (forall n, n ∈ L -> n ∈ P /\ (forall j, idx j -> j <> i -> n ∉ Q j)) ->
  (0 <= i -> forall n, n ∈ L -> m !! lck_dev n = Some (fst (req n)) /\ m !! lck_unlockcb n = Some (snd (req n))) ->
  lrel m' (fupd Q i L) req.
Proof.
  intros [H1 H2 H3 H4 H5] Hi Hq Hag Hin Hreq.
  assert (Hf : forall n k, n ∈ P -> 8 <= k < 16 -> m' !! (n + k) = m !! (n + k)).
  { intros n k Hn Hk. apply Hag. intros [Hw|(y & Hy & Hw)]%queue_words.
    - destruct (ll_nodes HL n i Hn Hi); lia.
    - destruct (ll_sep HL n y Hn (proj1 (Hin y Hy))); lia. }
  split.
  - intros j Hj. destruct (decide (j = i)) as [->|Hne]; [by rewrite fupd_eq|]. rewrite fupd_ne by done.
    apply (queue_repr_frame m); [|by apply H1]. intros w Hw. apply Hag. intros Hw1. apply queue_words in Hw, Hw1.
    destruct Hw as [Hw|(x & Hx & Hw)], Hw1 as [Hw1|(y & Hy & Hw1)].
    + destruct (ll_queues HL i j); auto; lia.
    + destruct (ll_nodes HL y j (proj1 (Hin y Hy)) Hj); lia.
    + destruct (ll_nodes HL x i (H2 j x Hj Hx) Hi); lia.
    + destruct (ll_sep HL x y (H2 j x Hj Hx) (proj1 (Hin y Hy))) as [->|?]; [|lia]. by apply (proj2 (Hin y Hy) j).
  - intros j n Hj. unfold fupd. case_decide; [intros Hn; by apply Hin|by apply H2].
  - intros j j' n Hj Hj'. unfold fupd. repeat case_decide; subst; intros A B; try done.
    + by destruct (proj2 (Hin n A) j').
    + by destruct (proj2 (Hin n B) j).
    + by eapply H3.
  - intros n k Hn Hk. destruct (footprint_dec (qaddr i) L (n + k)) as [Hw|Hw]; [by eapply queue_repr_mapped|].
    rewrite Hag by done. by apply H4.
  - intros c n Hc. unfold fupd. case_decide as E.
    + intros Hn. subst c. unfold lck_dev, lck_unlockcb in *. rewrite !Hf by (try lia; by apply (Hin n)). apply Hreq; [lia|done].
    + intros Hn. assert (Hc' : idx c) by (unfold idx; lia). unfold lck_dev, lck_unlockcb in *.
      rewrite !Hf by (try lia; by apply (H2 c n)). by apply (H5 c n).
Qed.

Lemma lock_get m Q req i n L :
  lrel m Q req -> idx i -> Q i = n :: L ->
  wp (lwp_queue_getI (qaddr i)) (fun x m' => x = n /\ lrel m' (fupd Q i L) req /\
    (forall k, 8 <= k < 16 -> m' !! (n + k) = m !! (n + k))) m.
Proof.
  intros H Hi E. pose proof (lr_queue _ _ _ H i Hi) as Hq. rewrite E in Hq.
  eapply wp_mono; [apply (getI_spec m (qaddr i) _ Hq)|]. simpl. intros x m' (-> & H1 & H2). split; [done|].
  assert (Hsub : forall y, y ∈ L -> y ∈ Q i) by (rewrite E; set_solver).
  assert (Hn : n ∈ P) by (apply (lr_sub _ _ _ H i); [done|]; rewrite E; set_solver). split.
  - eapply lrel_queue; try done.
    + intros y Hy%Hsub. split; [by eapply (lr_sub _ _ _ H)|]. intros j Hj Hne Hyj. by apply Hne, (lr_disj _ _ _ H j i y).
    + intros Hc y Hy%Hsub. unfold idx in Hi. by apply (lr_req _ _ _ H i); [lia|].
  - intros k Hk. apply H2. intros [Hw|(y & Hy & Hw)]%queue_words.
    + destruct (ll_nodes HL n i Hn Hi); lia.
    + destruct (ll_sep HL n y Hn) as [<-|?]; [by eapply (lr_sub _ _ _ H), Hsub| |lia].
      lia.
Qed.

Lemma lock_get_nil m Q req i :
  lrel m Q req -> idx i -> Q i = [] -> wp (lwp_queue_getI (qaddr i)) (fun x m' => x = NULL /\ m' = m) m.
Proof. intros H Hi E. pose proof (lr_queue _ _ _ H i Hi) as Hq. rewrite E in Hq. apply (getI_spec m _ [] Hq). Qed.

Lemma lock_empty m Q req i :
  lrel m Q req -> idx i -> wp (lwp_queue_isempty (qaddr i)) (fun b m' => b = bool_decide (Q i = []) /\ m' = m) m.
Proof. intros H Hi. apply isempty_spec, (lr_queue _ _ _ H i Hi). Qed.

(** A node in no queue. *)
Definition loose (Q : Z -> list Z) (n : Z) : Prop := n ∈ P /\ forall i, idx i -> n ∉ Q i.

Lemma lock_append m Q req i n :
  lrel m Q req -> idx i -> loose Q n ->
  (0 <= i -> m !! lck_dev n = Some (fst (req n)) /\ m !! lck_unlockcb n = Some (snd (req n))) ->
  wp (lwp_queue_appendI (qaddr i) n) (fun _ m' => lrel m' (fupd Q i (Q i ++ [n])) req /\
    (forall k, 8 <= k < 16 -> m' !! (n + k) = m !! (n + k))) m.
Proof.
  intros H Hi [Hn Hl] Hreq. assert (Hf : fresh_node m (qaddr i) (Q i) n).
  { split_and!; [replace (node_next n) with (n + 0) by (unfold node_next; lia)|
      replace (node_prev n) with (n + 4) by (unfold node_prev; lia)|]; [by apply (lr_mapped _ _ _ H); unfold node_word; auto..|].
    intros x. unfold nodes, lwp_queue_head, lwp_queue_tail. rewrite elem_of_cons, elem_of_app, list_elem_of_singleton.
    pose proof (ll_nodes HL n i Hn Hi) as Hd. intros [->|[Hx| ->] ]; [lia| |lia].
    destruct (ll_sep HL n x Hn) as [<-|?]; [by eapply (lr_sub _ _ _ H)|by destruct (Hl i)|lia]. }
  eapply wp_mono; [apply (appendI_spec m (qaddr i) _ _ (lr_queue _ _ _ H i Hi) Hf)|]. cbv beta. intros _ m' [Hq Hag].
  assert (Hin : forall y, y ∈ Q i ++ [n] -> y ∈ P /\ (forall j, idx j -> j <> i -> y ∉ Q j)).
  { intros y. rewrite elem_of_app, list_elem_of_singleton. intros [Hy| ->]; [|split; auto].
    split; [by eapply (lr_sub _ _ _ H)|]. intros j Hj Hne Hyj. by apply Hne, (lr_disj _ _ _ H j i y). }
  split.
  - eapply lrel_queue; try done. intros Hc y. rewrite elem_of_app, list_elem_of_singleton. unfold idx in Hi.
    intros [Hy| ->]; [|auto]. by apply (lr_req _ _ _ H i); [lia|].
  - intros k Hk. apply Hag. intros [Hw|(y & Hy & Hw)]%queue_words.
    + destruct (ll_nodes HL n i Hn Hi); lia.
    + destruct (ll_sep HL n y Hn (proj1 (Hin y Hy))); lia.
Qed.

(** The request is written into a node that is in no queue. *)
Lemma lock_write m Q req n k v :
  lrel m Q req -> loose Q n -> k = 8 \/ k = 12 ->
  wp (store (n + k) v) (fun _ m' => lrel m' Q req /\ m' = <[n + k := v]> m) m.
Proof.
  intros H [Hn Hl] Hk. apply wp_store; [apply (lr_mapped _ _ _ H); unfold node_word; [done|lia]|]. split; [|done].
  destruct H as [H1 H2 H3 H4 H5]. split; try done.
  - intros i Hi. apply (queue_repr_frame m); [|by apply H1]. intros w Hw%queue_words. apply lookup_insert_ne.
    destruct Hw as [Hw|(x & Hx & Hw)]; [destruct (ll_nodes HL n i Hn Hi); lia|].
    destruct (ll_sep HL n x Hn (H2 i x Hi Hx)) as [->|?]; [by destruct (Hl i)|lia].
  - intros n' k' Hn' Hk'. destruct (decide (n + k = n' + k')) as [->|E]; [rewrite lookup_insert_eq; eauto|].
    rewrite lookup_insert_ne by done. by apply H4.
  - intros c n' Hc Hn'. assert (Hi : idx c) by (unfold idx; lia).
    assert (Hne : n + k <> n' + 8 /\ n + k <> n' + 12).
    { destruct (ll_sep HL n n' Hn (H2 c n' Hi Hn')) as [->|?]; [by destruct (Hl c)|lia]. }
    unfold lck_dev, lck_unlockcb in *. rewrite !lookup_insert_ne by lia. by apply (H5 c n').
Qed.
End Locks.

(** ** Steps of the driver *)

Lemma is_chn_true c : 0 <= c < 3 -> is_chn c = true.
Proof. intros H. unfold is_chn. by rewrite (proj2 (Z.leb_le 0 c)), (proj2 (Z.ltb_lt c 3)) by lia. Qed.

Lemma wp_rd_bus {A} (f : exibus -> A) c Q s : 0 <= c < 3 -> Q (f (ex_map (k_exi s) c)) s -> wp (rd_bus f c) Q s.
Proof. intros Hc HQ. eapply wp_getopt; [|exact HQ]. by rewrite is_chn_true. Qed.

Lemma wp_upd_bus c f Q s :
  0 <= c < 3 -> Q tt (set_exi (set_map (fupd (ex_map (k_exi s)) c (f (ex_map (k_exi s) c))) (k_exi s)) s) ->
  wp (upd_bus c f) Q s.
Proof. intros Hc HQ. unfold wp, upd_bus. by rewrite is_chn_true. Qed.

Lemma wp_kmem {A} (c : M mem A) Q s : wp c (fun a m => Q a (set_mem m s)) (k_mem s) -> wp (kmem c) Q s.
Proof. unfold wp, kmem. by destruct (c (k_mem s)) as [ [? ?]|]. Qed.

Lemma set_kmem_id s : set_mem (k_mem s) s = s.
Proof. by destruct s. Qed.

(** Evaluate projections of updated driver states. *)
Tactic Notation "esimpl1" :=
  cbn [ex_map ex_last ex_irq ex_log ex_ram ex_uart_chan ex_uart_dev ex_uart_barnacle ex_uart_enabled
    set_map set_last set_irq set_log set_ram set_uart set_regs ir_regs ir_fn ir_user
    CallbackEXI CallbackTC CallbackEXT imm_len imm_buff lockeddev flags exi_id exi_idtime
    set_flags set_lockeddev set_imm set_cbEXI set_cbTC set_cbEXT set_idtime regs].
Tactic Notation "esimpl" := ksimpl; esimpl1; ksimpl; esimpl1.

Ltac estep :=
  lazymatch goal with
  | |- wp (rd_bus _ _) _ _ => apply wp_rd_bus; [done|]
  | |- wp (upd_bus _ _) _ _ => apply wp_upd_bus; [done|]
  | |- wp (or_flag _ _) _ _ => apply wp_upd_bus; [done|]
  | |- wp (clr_flag _ _) _ _ => apply wp_upd_bus; [done|]
  | |- wp (upd_exi _) _ _ => apply wp_modify
  | |- wp (irq_enable _ _) _ _ => apply wp_modify
  | |- wp (irq_disable _ _) _ _ => apply wp_modify
  | |- _ => kstep
  end.
Ltac erun := repeat estep.

(** Only the memory, the driver and the interrupt state differ. *)
Definition dev_step (s s' : kst) : Prop :=
  exists m e mm, s' = set_msr m (set_exi e (set_mem mm s)) /\ Z.land m MSR_RI = Z.land (k_msr s) MSR_RI.

Lemma dev_step_refl s : dev_step s s.
Proof. exists (k_msr s), (k_exi s), (k_mem s). split; [by destruct s|done]. Qed.

Lemma dev_step_trans s1 s2 s3 : dev_step s1 s2 -> dev_step s2 s3 -> dev_step s1 s3.
Proof.
  intros (m & e & mm & -> & H1) (m' & e' & mm' & -> & H2). exists m', e', mm'. split; [done|]. ksimpl in H2. by rewrite H2.
Qed.

Lemma dev_step_exi e s : dev_step s (set_exi e s).
Proof. exists (k_msr s), e, (k_mem s). split; [by destruct s|done]. Qed.
Lemma dev_step_mem mm s : dev_step s (set_mem mm s).
Proof. exists (k_msr s), (k_exi s), mm. split; [by destruct s|done]. Qed.
Lemma dev_step_msr m s : Z.land m MSR_RI = Z.land (k_msr s) MSR_RI -> dev_step s (set_msr m s).
Proof. intros H. exists m, (k_exi s), (k_mem s). split; [by destruct s|done]. Qed.

Lemma ksound_dev s L W e mm : ksound s L W -> ksound (set_exi e (set_mem mm s)) L W.
Proof. intros [ [ [ [] ?] []] []]. split; [split|]; split; try done. split; try done. by apply (waits_ext s). Qed.

Lemma rest_dev idle s s' L W : dev_step s s' -> rest idle s L W -> rest idle s' L W.
Proof.
  intros (m & e & mm & -> & Hm) [H1 H2 H3 H4]. apply rest_msr; [done|].
  split; try done. by apply ksound_dev.
Qed.

(** Whether a channel is locked. *)
Definition chn_locked (s : kst) (c : Z) : bool := tst (flags (ex_map (k_exi s) c)) EXI_FLAG_LOCKED.

(** Of the driver's variables only [eximap[c]] changed; the interrupt enables may
    have changed, too. *)
Definition bus_step (c : Z) (f : exibus -> exibus) (s s' : kst) : Prop :=
  exists r mp, k_exi s' = set_regs r (set_map mp (k_exi s)) /\
    forall x, mp x = fupd (ex_map (k_exi s)) c (f (ex_map (k_exi s) c)) x.

Lemma tst_or x m : m <> 0 -> tst (Z.lor x m) m = true.
Proof.
  intros Hm. unfold tst. apply negb_true_iff, Z.eqb_neq. intros H0. apply Hm.
  apply Z.bits_inj'. intros n Hn. rewrite Z.bits_0.
  assert (E : Z.testbit (Z.land (Z.lor x m) m) n = false) by (rewrite H0; apply Z.bits_0).
  rewrite Z.land_spec, Z.lor_spec in E. destruct (Z.testbit x n), (Z.testbit m n); done.
Qed.

Lemma tst_clr x m : tst (Z.ldiff x m) m = false.
Proof.
  unfold tst. apply negb_false_iff, Z.eqb_eq. apply Z.bits_inj'. intros n Hn.
  rewrite Z.land_spec, Z.ldiff_spec, Z.bits_0. destruct (Z.testbit x n), (Z.testbit m n); done.
Qed.

(** An interrupt bracket around code that only touches the driver. *)
Lemma irq_msr m st : irq_state st -> Z.land (Z.lor (Z.ldiff m MSR_EE) st) MSR_RI = Z.land m MSR_RI.
Proof. intros H. by apply unlock_excpt. Qed.

Lemma irq_off m : Z.land (Z.ldiff m (Z.lor MSR_EE MSR_FP)) MSR_RI = Z.land m MSR_RI.
Proof. by apply land_ldiff_disjoint. Qed.

Section Ops.
Context (con : console) (lckdev_queue : Z) (lckd_dev : Z -> Z) (P : list Z).
Context (HL : lock_layout lckdev_queue lckd_dev P).

Notation lrel := (lrel lckdev_queue lckd_dev P).

Lemma setinterrupts_spec c s :
  0 <= c < 3 -> wp (exi_setinterrupts con c) (fun _ s' => exists r, s' = set_exi (set_regs r (k_exi s)) s) s.
Proof.
  intros Hc. unfold exi_setinterrupts. erun.
  assert (Hend : exists r, s = set_exi (set_regs r (k_exi s)) s).
  { exists (regs s). destruct s as [????????????????????? ? ? e]. unfold regs. ksimpl. f_equal. by destruct e as [?? []]. }
  repeat case_match; erun; eauto.
Qed.

(** Taking a free channel. *)
Definition do_lock (d : Z) (b : exibus) : exibus :=
  let b := set_lockeddev (u32 d) b in set_flags (Z.lor (flags b) EXI_FLAG_LOCKED) b.

(** The queues after a request of device [d] with callback [cb] for channel [c]. *)
Definition enqueue (Q : Z -> list Z) (c : Z) : Z -> list Z :=
  match Q free_nodes with [] => Q | n :: F => fupd (fupd Q free_nodes F) c (Q c ++ [n]) end.
Definition put_req (Q : Z -> list Z) (req : Z -> Z * Z) (d cb : Z) : Z -> Z * Z :=
  match Q free_nodes with [] => req | n :: _ => fupd req n (d, cb) end.

Lemma lock_enqueue_spec m Q req c d cb :
  lrel m Q req -> 0 <= c < 3 -> cb <> NULL ->
  wp (lckd <- lwp_queue_getI lckdev_queue;
      when (negb (lckd =? NULL))
        (store (lck_dev lckd) d;; store (lck_unlockcb lckd) cb;; lwp_queue_appendI (lckd_dev c) lckd))
    (fun _ m' => lrel m' (enqueue Q c) (put_req Q req d cb)) m.
Proof.
  intros H Hc Hcb. assert (Hi : idx (-1)) by (unfold idx; lia). unfold enqueue, put_req, free_nodes.
  apply wp_bind. change lckdev_queue with (qaddr lckdev_queue lckd_dev (-1)) at 1. destruct (Q (-1)) as [|n F] eqn:E.
  - eapply wp_mono; [by eapply lock_get_nil|]. cbv beta. intros x m' [-> ->]. rewrite Z.eqb_refl. by apply wp_ret.
  - eapply wp_mono; [by eapply lock_get|]. cbv beta. intros x m1 (-> & H1 & _).
    assert (Hn : n ∈ P) by (apply (lr_sub _ _ _ _ _ _ H (-1)); [done|rewrite E; set_solver]).
    assert (HnF : n ∉ F).
    { pose proof (repr_NoDup _ _ _ (lr_queue _ _ _ _ _ _ H (-1) Hi)) as Hd. rewrite E in Hd. by apply NoDup_cons in Hd as [? _]. }
    destruct (Z.eqb_spec n NULL) as [->|_]; [by destruct (ll_null _ _ _ HL)|]. cbn [negb when].
    set (Q1 := fupd Q (-1) F) in *. assert (Hl : loose P Q1 n).
    { split; [done|]. intros i Hii. unfold Q1, fupd. case_decide as Ei; [done|]. intros Hni. apply Ei.
      apply (lr_disj _ _ _ _ _ _ H i (-1) n); try done. rewrite E. set_solver. }
    assert (H1' : lrel m1 Q1 (fupd req n (d, cb))).
    { destruct H1 as [A1 A2 A3 A4 A5]. split; try done. intros c' n' Hc' Hn'. rewrite fupd_ne; [by apply (A5 c' n')|].
      intros ->. destruct Hl as [_ Hl]. destruct (Hl c'); [unfold idx; lia|done]. }
    apply wp_bind. eapply wp_mono; [apply (lock_write _ _ _ HL m1 Q1 _ n 8 d H1' Hl); by left|]. cbv beta.
    intros _ m2 [H2 E2]. apply wp_bind.
    eapply wp_mono; [apply (lock_write _ _ _ HL m2 Q1 _ n 12 cb H2 Hl); by right|]. cbv beta. intros _ m3 [H3 E3].
    assert (Hci : idx c) by (unfold idx; lia).
    replace (lckd_dev c) with (qaddr lckdev_queue lckd_dev c)
      by (unfold qaddr; destruct (Z.eqb_spec c (-1)); [lia|done]).
    eapply wp_mono; [apply (lock_append _ _ _ HL m3 Q1 _ c n H3 Hci Hl)|].
    + intros _. rewrite fupd_eq. subst m3 m2. unfold lck_dev, lck_unlockcb. simpl. by simplify_map_eq by lia.
    + cbv beta. intros _ m4 [H4 _]. unfold Q1 in *. by rewrite (fupd_ne Q (-1) F c) in H4 by lia.
Qed.

(** The same in the kernel's state. *)
Lemma enqueue_kmem c d cb Qp s :
  wp (lckd <- lwp_queue_getI lckdev_queue;
      when (negb (lckd =? NULL))
        (store (lck_dev lckd) d;; store (lck_unlockcb lckd) cb;; lwp_queue_appendI (lckd_dev c) lckd))
    (fun _ m' => Qp tt (set_mem m' s)) (k_mem s) ->
  wp (lckd <- kmem (lwp_queue_getI lckdev_queue);
      when (negb (lckd =? NULL))
        (kmem (store (lck_dev lckd) d);; kmem (store (lck_unlockcb lckd) cb);;
         kmem (lwp_queue_appendI (lckd_dev c) lckd))) Qp s.
Proof.
  unfold wp, bind, kmem, when. destruct (lwp_queue_getI lckdev_queue (k_mem s)) as [ [n m1]|]; [|done].
  destruct (negb (n =? NULL)); [|done]. ksimpl. destruct (store (lck_dev n) d m1) as [ [? m2]|]; [|done]. ksimpl.
  destruct (store (lck_unlockcb n) cb m2) as [ [? m3]|]; [|done]. ksimpl.
  by destruct (lwp_queue_appendI (lckd_dev c) n m3) as [ [ [] ?]|].
Qed.

(** What [EXI_Lock] does to the driver. *)
Definition lock_effect (Q : Z -> list Z) (req : Z -> Z * Z) (c d cb : Z) (s : kst) (r : Z) (s' : kst) : Prop :=
  if chn_locked s c
  then r = 0 /\ k_exi s' = k_exi s /\
       (if cb =? NULL then k_mem s' = k_mem s else lrel (k_mem s') (enqueue Q c) (put_req Q req d cb))
  else r = 1 /\ k_mem s' = k_mem s /\ bus_step c (do_lock d) s s'.

Lemma exi_lock_spec s Q req c d cb :
  lrel (k_mem s) Q req -> 0 <= c < 3 ->
  wp (EXI_Lock con lckdev_queue lckd_dev c d cb)
    (fun r s' => dev_step s s' /\ lock_effect Q req c d cb s r s') s.
Proof.
  intros H Hc. unfold EXI_Lock, lock_effect, chn_locked. estep. apply wp_irq_lock. intros st Hst _.
  set (m := Z.ldiff (k_msr s) _) in *. assert (Hm : Z.land m MSR_RI = Z.land (k_msr s) MSR_RI) by apply irq_off.
  assert (Hend : forall s1 (Q : Z -> kst -> Prop) r, dev_step (set_msr m s) s1 ->
    (forall m', Z.land m' MSR_RI = Z.land (k_msr s) MSR_RI -> Q r (set_msr m' s1)) ->
    wp (bind (PPCIrqUnlockByMsr st) (fun _ => ret r)) Q s1).
  { intros s1 Qp r (m1 & e1 & mm1 & -> & Hm1) HQ. apply wp_bind, wp_irq_unlock, wp_ret. apply HQ. rewrite irq_msr by done.
    ksimpl in Hm1. ksimpl. by rewrite Hm1. }
  assert (Hd : forall m' s1, Z.land m' MSR_RI = Z.land (k_msr s) MSR_RI -> dev_step (set_msr m s) s1 ->
    dev_step s (set_msr m' s1)).
  { intros m' s1 Hm' (m1 & e1 & mm1 & -> & Hm1). exists m', e1, mm1. split; [done|]. done. }
  estep. estep. ksimpl. destruct (tst (flags (ex_map (k_exi s) c)) EXI_FLAG_LOCKED).
  - destruct (Z.eqb_spec cb NULL) as [->|Hcb]; cbn [negb when].
    + estep. estep. apply Hend; [apply dev_step_refl|]. intros m' Hm'. split; [apply Hd; [done|apply dev_step_refl]|done].
    + estep. apply enqueue_kmem. eapply wp_mono; [by apply lock_enqueue_spec|]. cbv beta. intros _ mm Hmm. estep.
      apply Hend; [apply dev_step_mem|]. intros m' Hm'. split; [apply Hd; [done|apply dev_step_mem]|]. by split_and!.
  - estep. estep. estep. estep. estep. eapply wp_mono; [by apply setinterrupts_spec|]. cbv beta. intros _ s1 [r ->].
    assert (Hds : forall e, dev_step (set_msr m s) (set_exi e (set_msr m s))) by (intros; apply dev_step_exi).
    estep. apply Hend; [apply Hds|]. intros m' Hm'. split; [apply Hd; [done|apply Hds]|].
    split_and!; [done..|]. eexists r, _. split; [reflexivity|]. intros x. esimpl. rewrite fupd_eq. unfold fupd.
    by case_decide.
Qed.

(** The first part of [EXI_Unlock]. *)
Definition do_unlock (b : exibus) : exibus := set_flags (Z.ldiff (flags b) EXI_FLAG_LOCKED) b.

(** The queues after the first request for channel [c] was taken. *)
Definition dequeue (Q : Z -> list Z) (c : Z) : Z -> list Z :=
  match Q c with [] => Q | n :: N => fupd (fupd Q c N) free_nodes (Q free_nodes ++ [n]) end.

Lemma unlock_next_spec s Q req c :
  lrel (k_mem s) Q req -> 0 <= c < 3 ->
  wp (unlock_next con lckdev_queue lckd_dev c)
    (fun r s' => exists e mm, s' = set_exi e (set_mem mm s) /\ bus_step c do_unlock s s' /\
       lrel mm (dequeue Q c) req /\ r = match Q c with [] => None | n :: _ => Some (snd (req n), fst (req n)) end) s.
Proof.
  intros H Hc. unfold unlock_next, dequeue. estep. estep. estep. eapply wp_mono; [by apply setinterrupts_spec|].
  cbv beta. intros _ s1 [r Es1]. assert (Hci : idx c) by (unfold idx; lia).
  assert (Eq : lckd_dev c = qaddr lckdev_queue lckd_dev c) by (unfold qaddr; destruct (Z.eqb_spec c (-1)); [lia|done]).
  assert (Hend : forall mm, set_mem mm s1 = set_exi (k_exi s1) (set_mem mm s)) by by subst s1.
  assert (Hbus : forall mm, bus_step c do_unlock s (set_mem mm s1)).
  { intros mm. subst s1. eexists r, _. split; [reflexivity|done]. }
  assert (Hm1 : k_mem s1 = k_mem s) by by subst s1. clear Es1. rewrite Eq. estep. apply wp_kmem. rewrite Hm1.
  eapply wp_mono; [by apply (lock_empty lckdev_queue lckd_dev P _ Q req)|]. cbv beta. intros b mm [-> ->].
  case_bool_decide as E; [rewrite E; estep; eauto 10|]. destruct (Q c) as [|n N] eqn:EQ; [done|].
  assert (Hn : n ∈ P) by (apply (lr_sub _ _ _ _ _ _ H c n Hci); rewrite EQ; set_solver).
  estep. apply wp_kmem. eapply wp_mono; [by apply (lock_get _ _ _ HL _ Q req c n N)|]. cbv beta.
  intros x m1 (-> & H1 & K1). estep. apply wp_kmem. ksimpl.
  change lckdev_queue with (qaddr lckdev_queue lckd_dev free_nodes) at 1.
  assert (Hl : loose P (fupd Q c N) n).
  { split; [done|]. pose proof (repr_NoDup _ _ _ (lr_queue _ _ _ _ _ _ H c Hci)) as Hd. rewrite EQ in Hd.
    apply NoDup_cons in Hd as [Hd _]. intros i Hi. unfold fupd. case_decide as Ei; [done|]. intros Hni. apply Ei.
    apply (lr_disj _ _ _ _ _ _ H i c n); try done. rewrite EQ. set_solver. }
  eapply wp_mono; [apply (lock_append _ _ _ HL m1 _ req free_nodes n H1 ltac:(unfold idx, free_nodes; lia) Hl)|];
    [unfold free_nodes; lia|]. cbv beta. intros _ m2 [H2 K2]. rewrite fupd_ne in H2 by (unfold free_nodes; lia).
  destruct (lr_req _ _ _ _ _ _ H c n Hc) as [R1 R2]; [rewrite EQ; set_solver|].
  assert (K : forall k, 8 <= k < 16 -> m2 !! (n + k) = k_mem s !! (n + k)) by (intros k Hk; by rewrite K2, K1 by done).
  unfold lck_dev, lck_unlockcb in *. estep. apply wp_kmem. ksimpl. eapply wp_load; [by rewrite K|].
  estep. apply wp_kmem. ksimpl. eapply wp_load; [by rewrite K|]. estep. eexists _, m2. split; [apply Hend|].
  split_and!; [apply Hbus|done|by destruct (req n)].
Qed.
End Ops.
