(* ===== verification/ExiSystem.v ===== *)
(** * Threads that share the EXI bus

    Threads that lock channels with [EXI_LockSync], unlock them, and are
    scheduled in any order: they yield, suspend and resume each other, wait, and
    are woken. A thread that waits for a channel has a request in the channel's
    queue; there is always a free node for it. *)

From stdpp Require Import base gmap list fin_maps.
From Stdlib Require Import ZArith Lia.
From S2P Require Import Prelude Chain LwpQueue Devices KState KTick KThread KLists KSched KSchedOps KBlock KSound KRest KMailbox KCond KSystem KCalls LwpcProofs Clock Irq Exi ExiLock.

Open Scope Z_scope.

(** ** Calls and configurations *)

Inductive xcall :=
| XYield
| XResume (t : Z)
| XSuspend (t : Z)
| XLockSync (fuel : nat) (c d : Z)
| XUnlock (c : Z).

Section System.
Context `{ExiHw}.
Context (con : console) (lckdev_queue : Z) (lckd_dev : Z -> Z) (serport1 locals : Z) (polls : nat).
Context (user : Z -> Z -> Z -> K Z) (depth : nat) (idle : Z).

Definition xcb : Z -> Z -> Z -> K Z := call_cb con lckdev_queue lckd_dev serport1 locals polls user (S depth).

Definition xexec (c : xcall) : K Z :=
  match c with
  | XYield => done_k KThreadYield
  | XResume t => done_k (KThreadResume t)
  | XSuspend t => done_k (KThreadSuspend t)
  | XLockSync fuel c d => EXI_LockSync con lckdev_queue lckd_dev fuel c d
  | XUnlock c => EXI_Unlock con lckdev_queue lckd_dev xcb c
  end.

(** The kernel and the driver, the code left of the threads that were switched
    out, and the channels each thread locked and has not unlocked since. *)
Record xsys := mk_xsys {
  x_st : kst;
  x_pend : Z -> option (xcall * K Z);
  x_holds : Z -> Z -> bool;
}.

Definition xreleases (c : xcall) : option Z := match c with XUnlock c => Some c | _ => None end.
Definition xtakes (c : xcall) (v : Z) : option Z :=
  match c with XLockSync _ c _ => if v =? 1 then Some c else None | _ => None end.

Definition xsettle (t : Z) (c : xcall) (p : Z -> option (xcall * K Z)) (h : Z -> Z -> bool)
    (r : Z + K Z) (s' : kst) : xsys :=
  match r with
  | inl v => mk_xsys s' (fupd p t None) (add t (xtakes c v) h)
  | inr k => mk_xsys s' (fupd p t (Some (c, k))) h
  end.

(** The running thread calls [c]. *)
Definition x_call (c : xcall) (y : xsys) : res xsys :=
  let s := x_st y in
  match runK (xexec c) s with
  | Ok (r, s') => Ok (xsettle (k_self s) c (x_pend y) (drop (k_self s) (xreleases c) (x_holds y)) r s')
  | Fault f => Fault f
  end.

(** The running thread goes on with the code left of its call. *)
Definition x_resume (c : xcall) (k : K Z) (y : xsys) : res xsys :=
  let s := x_st y in
  match runK k s with
  | Ok (r, s') => Ok (xsettle (k_self s) c (x_pend y) (x_holds y) r s')
  | Fault f => Fault f
  end.

(** What a call needs: the idle thread does not wait, and a channel is unlocked
    by the thread that locked it. *)
Definition xcontract (c : xcall) (y : xsys) : Prop :=
  let s := x_st y in
  match c with
  | XYield => True
  | XResume t => t ∈ threads s
  | XSuspend t => t ∈ threads s /\ k_suspend s t + 1 < 2 ^ 16 /\ t <> idle
  | XLockSync fuel c d => k_self s <> idle /\ 0 <= c < 3 /\ 0 <= d < 3 /\ (0 < fuel)%nat
  | XUnlock c => 0 <= c < 3 /\ x_holds y (k_self s) c = true
  end.

Inductive xreach (s0 : kst) : xsys -> Prop :=
| xreach_start : xreach s0 (mk_xsys s0 (fun _ => None) (fun _ _ => false))
| xreach_call y c y' :
    xreach s0 y -> x_pend y (k_self (x_st y)) = None -> xcontract c y -> x_call c y = Ok y' -> xreach s0 y'
| xreach_resume y c k y' :
    xreach s0 y -> x_pend y (k_self (x_st y)) = Some (c, k) -> x_resume c k y = Ok y' -> xreach s0 y'.

(** ** The kernel's and the driver's invariant *)

Lemma lock_token_eq c d : 0 <= c < 4 -> 0 <= d -> lock_token c d = c + 4 * d.
Proof.
  intros Hc Hd. unfold lock_token. assert (E : Z.land c (Z.shiftl d 2) = 0).
  { apply Z.bits_inj'. intros n Hn. rewrite Z.land_spec, Z.shiftl_spec, Z.bits_0 by done.
    destruct (Z_lt_le_dec n 2); [rewrite (Z.testbit_neg_r d) by lia; apply andb_false_r|].
    rewrite <- (Z.mod_small c (2 ^ 2)), Z.mod_pow2_bits_high by lia. done. }
  pose proof (Z.add_lor_land c (Z.shiftl d 2)) as Ha. rewrite E, Z.shiftl_mul_pow2 in Ha by lia.
  rewrite Z.shiftl_mul_pow2 in * by lia. lia.
Qed.

Lemma lock_token_inj c d c' d' :
  0 <= c < 3 -> 0 <= c' < 3 -> 0 <= d -> 0 <= d' -> lock_token c d = lock_token c' d' -> c = c' /\ d = d'.
Proof. intros ????. rewrite !lock_token_eq by lia. lia. Qed.

(** The tokens of the requests of all channels. *)
Definition requests (Q : Z -> list Z) (req : Z -> Z * Z) : list Z :=
  concat (map (fun c => map (fun n => lock_token c (fst (req n))) (Q c)) [0; 1; 2]).

(** The nodes. *)
Context (P : list Z) (HL : lock_layout lckdev_queue lckd_dev P).

Record xcore (s : kst) (L : list Z) (W : qref -> list Z) (Q : Z -> list Z) (req : Z -> Z * Z) : Prop := {
  xc_rest : rest idle s L W;
  xc_mem : lrel lckdev_queue lckd_dev P (k_mem s) Q req;
  xc_total : (length (Q free_nodes) + length (requests Q req) = 32)%nat;
  xc_tokens : map (k_token s) (W exi_sync_queue) ≡ₚ requests Q req;
  xc_cb : forall c n, 0 <= c < 3 -> n ∈ Q c -> snd (req n) = fn_exi_locksync_cb /\ 0 <= fst (req n) < 3;
  xc_threads : (length L <= 32)%nat;
}.

(** Moves of requests. *)
Lemma requests_ext Q Q' req req' :
  (forall c, 0 <= c < 3 -> Q' c = Q c) -> (forall c n, 0 <= c < 3 -> n ∈ Q c -> req' n = req n) ->
  requests Q' req' = requests Q req.
Proof.
  intros H1 H2. unfold requests. cbn [map concat]. rewrite !H1 by lia.
  assert (E : forall c, 0 <= c < 3 -> map (fun n => lock_token c (fst (req' n))) (Q c) = map (fun n => lock_token c (fst (req n))) (Q c)).
  { intros c Hc. apply map_ext_in. intros n Hn%list_elem_of_In. by rewrite (H2 c). }
  by rewrite !E by lia.
Qed.

Lemma requests_upd Q req c N :
  0 <= c < 3 ->
  requests (fupd Q c N) req ++ map (fun n => lock_token c (fst (req n))) (Q c) ≡ₚ
  requests Q req ++ map (fun n => lock_token c (fst (req n))) N.
Proof.
  intros Hc. unfold requests. cbn [map concat].
  assert (c = 0 \/ c = 1 \/ c = 2) as [-> |[-> | ->] ] by lia; rewrite fupd_eq, !fupd_ne by lia; solve_Permutation.
Qed.

Lemma requests_free Q req F : requests (fupd Q free_nodes F) req = requests Q req.
Proof. apply requests_ext; [|done]. intros c Hc. rewrite fupd_ne; [done|unfold free_nodes; lia]. Qed.

Lemma in_requests Q req v : v ∈ requests Q req <-> exists c n, 0 <= c < 3 /\ n ∈ Q c /\ v = lock_token c (fst (req n)).
Proof.
  unfold requests. cbn [map concat]. rewrite app_nil_r, !elem_of_app, !list_elem_of_In, !in_map_iff. split.
  - intros [ (n & <- & Hn)|[ (n & <- & Hn)|(n & <- & Hn)] ]; [exists 0, n|exists 1, n|exists 2, n];
      (split; [lia|]); rewrite list_elem_of_In; done.
  - intros (c & n & Hc & Hn & ->). rewrite list_elem_of_In in Hn.
    assert (c = 0 \/ c = 1 \/ c = 2) as [-> |[-> | ->] ] by lia; [left|right; left|right; right]; eauto.
Qed.

(** ** The calls *)

(** The code of a call that ends, or stops because the attempts of a thread to
    lock a channel are used up. *)
Definition wpko {A} (c : K A) (Q : A -> kst -> Prop) (R : K A -> kst -> Prop) (s : kst) : Prop :=
  match runK c s with
  | Ok (inl a, s') => Q a s'
  | Ok (inr k, s') => R k s'
  | Fault OutOfFuel => True
  | Fault _ => False
  end.

Lemma wpk_wpko {A} (c : K A) Q R s : wpk c Q R s -> wpko c Q R s.
Proof. unfold wpk, wpko. by destruct (runK c s) as [ [ [?|?] ?]|[] ]. Qed.

(** The channel a thread waits for matters to the others only through the queue
    and its token; [x] keeps its place in the queue or has left it. *)
Definition others_kept (s s' : kst) (W W' : qref -> list Z) : Prop :=
  k_thr s' = k_thr s /\
  forall x, x <> k_self s -> x ∈ W' exi_sync_queue -> x ∈ W exi_sync_queue /\ k_token s' x = k_token s x.

(** Code left of [EXI_LockSync]. *)
Definition relock (n : nat) (c d st : Z) : K Z :=
  do! locksync_loop con lckdev_queue lckd_dev n c d then do! lift (PPCIrqUnlockByMsr st) then kret 1.
Definition left_code (T : gset Z) (c d : Z) (k : K Z) : Prop :=
  exists n st, irq_state st /\ forall s2, k_thr s2 = T -> runK k s2 = runK (relock n c d st) s2.

(** Nobody's flags changed but those of channel [c]. *)
Definition flags_kept (s s' : kst) : Prop := forall x, chn_locked s' x = chn_locked s x.

Lemma bus_locked c d s s' :
  bus_step c (do_lock d) s s' -> forall x, chn_locked s' x = (x =? c) || chn_locked s x.
Proof.
  intros (r & mp & E & Hmp) x. unfold chn_locked. rewrite E. esimpl. rewrite Hmp. unfold fupd.
  destruct (decide (x = c)) as [->|Hx]; [rewrite Z.eqb_refl; by apply tst_or|]. by rewrite (proj2 (Z.eqb_neq x c)).
Qed.

Lemma bus_unlocked c s s' :
  bus_step c do_unlock s s' -> forall x, chn_locked s' x = negb (x =? c) && chn_locked s x.
Proof.
  intros (r & mp & E & Hmp) x. unfold chn_locked. rewrite E. esimpl. rewrite Hmp. unfold fupd.
  destruct (decide (x = c)) as [->|Hx]; [rewrite Z.eqb_refl; by apply tst_clr|]. by rewrite (proj2 (Z.eqb_neq x c)).
Qed.

(** A running thread is in no queue, so that the others leave a node for it. *)
Lemma self_free s L W Q req :
  xcore s L W Q req -> k_self s ∉ W exi_sync_queue /\ exists n F, Q free_nodes = n :: F.
Proof.
  intros [Hr _ Ht Htok _ Hn]. destruct (rest_self _ _ _ _ Hr) as ((Hin & Hself & _) & Hv & _).
  pose proof (proj1 (proj1 (r_sound _ _ _ _ Hr))) as Hk.
  assert (Hni : k_self s ∉ W exi_sync_queue).
  { intros [_ Hq]%(w_in _ _ (ki_waits _ _ _ Hk)). destruct (status_running _ _ _ _ Hk Hin Hself). congruence. }
  split; [done|]. assert (Hlen : (S (length (W exi_sync_queue)) <= length L)%nat).
  { change (length (k_self s :: W exi_sync_queue) <= length L)%nat. apply submseteq_length, NoDup_submseteq.
    - apply NoDup_cons. split; [done|]. apply (w_nodup _ _ (ki_waits _ _ _ Hk)).
    - intros x [->|Hx]%elem_of_cons; [done|]. by eapply (ki_live _ _ _ Hk). }
  apply Permutation_length in Htok. rewrite length_map in Htok. destruct (Q free_nodes) as [|n F]; [simpl in Ht; lia|eauto].
Qed.

Lemma outcome_rest s L W W' d s1 b s' :
  rest idle s L W -> idle <> d -> ksound s' L W' -> outcome s s1 L b s' -> calm d s s1 -> k_owner s1 = k_owner s ->
  rest idle s' L W'.
Proof.
  intros Hr Hd Hs Ho Hc Eo. destruct (outcome_calm _ _ _ _ _ _ Ho (r_excpt _ _ _ _ Hr) Hc) as [Hc' He'].
  assert (Eo' : k_owner s' = k_owner s) by (destruct Ho as ((? & ? & ? & ? & ->) & _); done).
  apply (rest_after idle s L W _ _ _ d); try done; [apply (r_idle _ _ _ _ Hr)|]. rewrite Eo'. apply (r_owner _ _ _ _ Hr).
Qed.

(** [s'] is [s] as far as the driver and its waiting threads are concerned. *)
Lemma xcore_same s s' L W Q req :
  xcore s L W Q req -> rest idle s' L W -> k_mem s' = k_mem s -> k_token s' = k_token s -> xcore s' L W Q req.
Proof. intros [H1 H2 H3 H4 H5 H6] Hr Hm Ht. split; try done; [by rewrite Hm|by rewrite Ht]. Qed.

Lemma xcore_msr s L W Q req m :
  Z.land m MSR_RI = Z.land (k_msr s) MSR_RI -> xcore s L W Q req -> xcore (set_msr m s) L W Q req.
Proof. intros Hm Hc. apply (xcore_same s); try done. apply rest_msr; [done|]. apply Hc. Qed.

(** *** Locking *)

Lemma ins_len f t l : length (ins_prio f t l) = S (length l).
Proof. unfold ins_prio. by rewrite (Permutation_length (ins_perm _ _ _)). Qed.

(** The requests after one more, in a state where a node is free. *)
Lemma enqueue_requests Q req c d n F :
  0 <= c < 3 -> Q free_nodes = n :: F -> (forall x, 0 <= x < 3 -> n ∉ Q x) ->
  requests (enqueue Q c) (put_req Q req d fn_exi_locksync_cb) ≡ₚ lock_token c d :: requests Q req /\
  enqueue Q c free_nodes = F /\ (forall x, 0 <= x < 3 -> x <> c -> enqueue Q c x = Q x) /\ enqueue Q c c = Q c ++ [n].
Proof.
  intros Hc E Hn. unfold enqueue, put_req. rewrite E. set (req' := fupd req n _).
  assert (Hcf : c <> free_nodes) by (unfold free_nodes; lia).
  assert (Ereq : requests Q req' = requests Q req).
  { apply requests_ext; [done|]. intros x y Hx Hy. unfold req'. rewrite fupd_ne; [done|]. intros ->. by apply (Hn x). }
  split_and!.
  - pose proof (requests_upd (fupd Q free_nodes F) req' c (Q c ++ [n]) Hc) as Hp.
    rewrite requests_free, Ereq, fupd_ne in Hp by done. rewrite map_app in Hp. cbn [map] in Hp. unfold req' in Hp at 4.
    rewrite fupd_eq in Hp. cbn [fst] in Hp. rewrite app_assoc in Hp.
    rewrite (Permutation_app_comm (requests Q req ++ _) [_]) in Hp. cbn [app] in Hp.
    rewrite app_comm_cons in Hp. by apply Permutation_app_inv_r in Hp.
  - by rewrite fupd_ne, fupd_eq by done.
  - intros x Hx Hne. rewrite !fupd_ne; [done|unfold free_nodes; lia|done].
  - by rewrite fupd_eq.
Qed.

(** The post-condition of locking: the channel was taken ... *)
Definition locked_post (s : kst) (L : list Z) (W : qref -> list Z) (Q : Z -> list Z) (req : Z -> Z * Z) (c : Z)
    (s' : kst) : Prop :=
  chn_locked s c = false /\ xcore s' L W Q req /\ others_kept s s' W W /\
  forall x, chn_locked s' x = (x =? c) || chn_locked s x.
(** ... or the caller waits. *)
Definition waiting_post (s : kst) (L : list Z) (W : qref -> list Z) (Q : Z -> list Z) (c d : Z) (k : K Z)
    (s' : kst) : Prop :=
  chn_locked s c = true /\ (exists W' Q' req', xcore s' L W' Q' req' /\ others_kept s s' W W' /\
    k_self s ∈ W' exi_sync_queue /\ k_token s' (k_self s) = lock_token c d /\
    (forall x, x ∈ W exi_sync_queue -> x ∈ W' exi_sync_queue) /\
    (forall x, 0 <= x < 3 -> x <> c -> Q' x = Q x)) /\
  flags_kept s s' /\ left_code (k_thr s) c d k.

(** The effect of one attempt on the whole invariant. *)
Lemma try_lock s L W Q req c d :
  xcore s L W Q req -> 0 <= c < 3 -> 0 <= d < 3 ->
  wp (EXI_Lock con lckdev_queue lckd_dev c d fn_exi_locksync_cb)
    (fun r s' => dev_step s s' /\
       if chn_locked s c
       then r = 0 /\ flags_kept s s' /\
            let Q' := enqueue Q c in let req' := put_req Q req d fn_exi_locksync_cb in
            rest idle s' L W /\ lrel lckdev_queue lckd_dev P (k_mem s') Q' req' /\
            (length (Q' free_nodes) + length (requests Q' req') = 32)%nat /\
            requests Q' req' ≡ₚ lock_token c d :: map (k_token s) (W exi_sync_queue) /\
            (forall x n, 0 <= x < 3 -> n ∈ Q' x -> snd (req' n) = fn_exi_locksync_cb /\ 0 <= fst (req' n) < 3) /\
            (forall x, 0 <= x < 3 -> x <> c -> Q' x = Q x)
       else r = 1 /\ locked_post s L W Q req c s') s.
Proof.
  intros Hx Hc Hd. destruct (self_free _ _ _ _ _ Hx) as (_ & n & F & EF). pose proof Hx as [Hr Hm Ht Htok Hcb Hn].
  eapply wp_mono; [by apply exi_lock_spec|]. cbv beta. intros r s' [Hst Heff]. split; [done|].
  assert (Hr' : rest idle s' L W) by by eapply rest_dev. unfold lock_effect in Heff.
  destruct (chn_locked s c) eqn:El.
  - destruct Heff as (-> & Ee & Hm'). split; [done|]. split; [intros x; unfold chn_locked; by rewrite Ee|].
    change (fn_exi_locksync_cb =? NULL) with false in Hm'. cbv iota in Hm'.
    assert (Hnq : forall x, 0 <= x < 3 -> n ∉ Q x).
    { intros x Hxc Hnx. assert (x = free_nodes); [|unfold free_nodes in *; lia].
      apply (lr_disj _ _ _ _ _ _ Hm x free_nodes n); [unfold idx; lia|unfold idx, free_nodes; lia|done|]. rewrite EF. by left. }
    destruct (enqueue_requests Q req c d n F Hc EF Hnq) as (R1 & R2 & R3 & R4). split_and!; try done.
    + rewrite R1, R2. rewrite EF in Ht. simpl in *. lia.
    + by rewrite R1, Htok.
    + intros x y Hxc Hy. unfold put_req. rewrite EF. unfold fupd. case_decide as Ey; [done|].
      apply (Hcb x); [done|]. destruct (decide (x = c)) as [->|Hne]; [|by rewrite R3 in Hy].
      rewrite R4, elem_of_app, list_elem_of_singleton in Hy. by destruct Hy.
  - destruct Heff as (-> & Hm' & Hb). split; [done|]. destruct Hst as (m & e & mm & -> & Hmsr). split; [done|].
    split; [by apply (xcore_same s)|]. split; [by split|]. by eapply bus_locked.
Qed.

(** Locking until the channel is taken or the caller waits. *)
Lemma relock_step n c d st s L W Q req :
  xcore s L W Q req -> 0 <= c < 3 -> 0 <= d < 3 -> k_self s <> idle -> irq_state st -> (0 < n)%nat ->
  wpk (relock n c d st) (fun v s' => v = 1 /\ locked_post s L W Q req c s') (waiting_post s L W Q c d) s.
Proof.
  intros Hx Hc Hd Hi Hst Hpos. destruct n as [|n]; [lia|]. unfold relock. cbn [locksync_loop].
  apply wpk_bind, wpk_lift_bind. eapply wp_mono; [by apply (try_lock s L W Q req c d)|]. cbv beta.
  intros r s1 [Hdev Hs1]. destruct (chn_locked s c) eqn:El.
  - destruct Hs1 as (-> & Hfl & Hr & Hm & Ht & Htok & Hcb & HQ). cbn [Z.eqb negb].
    assert (Es : k_thr s1 = k_thr s /\ k_self s1 = k_self s /\ k_token s1 = k_token s)
      by (by destruct Hdev as (m & e & mm & -> & _)). destruct Es as (Et & Es & Etk).
    destruct (self_free _ _ _ _ _ Hx) as (Hni & _).
    destruct (rest_self _ _ _ _ Hr) as ((Hin & Hself & _) & Hv & _).
    assert (Hi1 : k_self s1 <> idle) by by rewrite Es.
    apply wpk_bind. eapply wpk_mono; [eapply (wpk_rest _ _ _ _ _
      (block_away s1 L W 8 (lock_token c d) (r_sound _ _ _ _ Hr) Hself (rest_other _ _ _ _ _ Hr Hi1) (r_excpt _ _ _ _ Hr))
      (block_rest _ (lock_token c d) s1))|done|]; cbv beta.
    intros k s' [ [Hks (k' & Ho)] Hk]. split; [done|].
    destruct (status_running _ _ _ _ (proj1 (proj1 (r_sound _ _ _ _ Hr))) Hin Hself) as [Hq _].
    set (s2 := blocked (k_self s1) KTHR_STATE_WAITING (lock_token c d) (QStatic 8) k' s1) in *.
    set (W' := fupd W (QStatic 8) (ins_prio (k_prio s1) (k_self s1) (W (QStatic 8)))) in *.
    assert (Hr' : rest idle s' L W').
    { apply (outcome_rest s1 L W W' (k_self s1) s2 false); try done. apply blocked_calm; [apply calm_refl|done]. }
    assert (Ec : exists m x nc f, s' = set_msr m (set_self x (set_next_ctx nc (set_ctx f s2)))) by apply Ho.
    destruct Ec as (m & x & nc & f & Es').
    assert (Eexi : k_exi s' = k_exi s1) by by subst s'. assert (Emem : k_mem s' = k_mem s1) by by subst s'.
    assert (Ethr : k_thr s' = k_thr s1) by by subst s'.
    assert (Etok : k_token s' = fupd (k_token s1) (k_self s1) (lock_token c d)) by by subst s'. clear Es'.
    assert (EW : W' exi_sync_queue = ins_prio (k_prio s1) (k_self s1) (W exi_sync_queue)) by (unfold W'; by rewrite fupd_eq).
    split; [exists W', (enqueue Q c), (put_req Q req d fn_exi_locksync_cb); split_and!|split].
    + split; try done; [by rewrite Emem| |apply Hx]. rewrite EW, Etok. unfold ins_prio. rewrite ins_perm. cbn [map].
      rewrite fupd_eq, Htok. apply perm_skip. rewrite Etk, Es. erewrite map_ext_in; [reflexivity|].
      intros y Hy%list_elem_of_In. rewrite fupd_ne; [done|]. by intros ->.
    + split; [by rewrite Ethr|]. intros y Hy. rewrite EW, Etok, Es. unfold ins_prio. rewrite elem_of_ins.
      intros [->|?]; [done|]. by rewrite fupd_ne, Etk.
    + rewrite EW, Es. apply elem_of_ins. by left.
    + rewrite Etok, Es. apply fupd_eq.
    + intros y Hy. rewrite EW. apply elem_of_ins. by right.
    + done.
    + intros y. unfold chn_locked. rewrite Eexi. apply Hfl.
    + exists n, st. split; [done|]. intros s3 Hs3. destruct (Hk s3) as [a Ha]; [by rewrite Hs3, <- Et|].
      destruct k as [rk]. simpl in Ha. unfold relock.
      destruct (locksync_loop con lckdev_queue lckd_dev n c d) as [rl]. simpl. by rewrite Ha.
  - destruct Hs1 as (-> & Hlk & Hpost). cbn [Z.eqb Pos.eqb negb]. destruct Hpost as (Hpost & Hot & Hfl).
    apply wpk_ret, wpk_lift_bind, wp_irq_unlock, wpk_ret. split; [done|]. split; [done|]. split.
    + apply xcore_msr; [by apply irq_msr|done].
    + split; [exact Hot|exact Hfl].
Qed.

Lemma locksync_spec n c d s L W Q req :
  xcore s L W Q req -> 0 <= c < 3 -> 0 <= d < 3 -> k_self s <> idle -> (0 < n)%nat ->
  wpk (EXI_LockSync con lckdev_queue lckd_dev n c d)
    (fun v s' => v = 1 /\ locked_post s L W Q req c s') (waiting_post s L W Q c d) s.
Proof.
  intros Hx Hc Hd Hi Hn. unfold EXI_LockSync. apply wpk_lift_bind.
  eapply wp_mono; [apply (exi_lock_spec con _ _ P HL s Q req c d NULL); [apply Hx|done]|]. cbv beta.
  intros r s1 [Hdev Heff]. unfold lock_effect in Heff. assert (Hr1 : rest idle s1 L W) by (eapply rest_dev; [done|apply Hx]).
  destruct (chn_locked s c) eqn:El.
  - destruct Heff as (-> & Ee & Em). rewrite Z.eqb_refl in Em. cbn [Z.eqb negb].
    assert (Es : k_thr s1 = k_thr s /\ k_self s1 = k_self s /\ k_token s1 = k_token s)
      by (by destruct Hdev as (m & e & mm & -> & _)). destruct Es as (Et & Es & Etk).
    assert (Hx1 : xcore s1 L W Q req) by by apply (xcore_same s).
    kstep. unfold PPCIsInExcpt. kstep. change (Z.land (k_msr s1) MSR_RI =? 0) with (in_excpt s1).
    rewrite (r_excpt _ _ _ _ Hr1). kstep. apply wp_irq_lock. intros st Hst _. set (s2 := set_msr _ s1).
    assert (Hx2 : xcore s2 L W Q req) by (apply xcore_msr; [apply irq_off|done]).
    assert (Efl : forall x, chn_locked s2 x = chn_locked s x) by (intros x; unfold chn_locked, s2; ksimpl; by rewrite Ee).
    pose proof (relock_step n c d st s2 L W Q req Hx2 Hc Hd ltac:(unfold s2; ksimpl; by rewrite Es) Hst Hn) as H1.
    eapply wpk_mono; [exact H1|..]; cbv beta; unfold locked_post, waiting_post, others_kept, flags_kept; rewrite !Efl, El.
    + by intros v s' (_ & ? & _).
    + unfold s2. ksimpl. rewrite Et, Es, Etk. intros k s' (_ & H2 & H3 & H4). split_and!; try done.
      intros x. rewrite H3. apply Efl.
  - destruct Heff as (-> & Em & Hb). cbn [Z.eqb Pos.eqb negb]. apply wpk_ret. split; [done|]. split; [done|].
    destruct Hdev as (m & e & mm & -> & Hmsr). split; [by apply (xcore_same s)|]. split; [by split|]. by eapply bus_locked.
Qed.

(** *** Unlocking *)

Lemma filter_out_perm (t : Z) l : NoDup l -> t ∈ l -> l ≡ₚ t :: filter (fun x => x ∉ [t]) l.
Proof.
  intros Hd Hin. apply NoDup_Permutation; [done| |].
  - apply NoDup_cons. split; [rewrite list_elem_of_filter; set_solver|by apply NoDup_filter].
  - intros x. rewrite elem_of_cons, list_elem_of_filter, list_elem_of_singleton. destruct (decide (x = t)) as [->|?]; tauto.
Qed.

Lemma dequeue_requests Q req c n N :
  0 <= c < 3 -> Q c = n :: N ->
  requests Q req ≡ₚ lock_token c (fst (req n)) :: requests (dequeue Q c) req /\
  dequeue Q c free_nodes = Q free_nodes ++ [n] /\ dequeue Q c c = N /\
  (forall x, 0 <= x < 3 -> x <> c -> dequeue Q c x = Q x).
Proof.
  intros Hc E. unfold dequeue. rewrite E, requests_free. assert (Hcf : c <> free_nodes) by (unfold free_nodes; lia). split_and!.
  - pose proof (requests_upd Q req c N Hc) as Hp. rewrite E in Hp. cbn [map] in Hp.
    rewrite <- Permutation_middle, app_comm_cons in Hp. apply Permutation_app_inv_r in Hp. by rewrite <- Hp.
  - by rewrite fupd_eq.
  - rewrite fupd_ne, fupd_eq by done. done.
  - intros x Hx Hne. rewrite !fupd_ne; [done|done|unfold free_nodes; lia].
Qed.

(** The channel is free, and the first thread that waits for it is awake. *)
Definition unlocked_post (s : kst) (L : list Z) (W : qref -> list Z) (Q : Z -> list Z) (req : Z -> Z * Z) (c : Z)
    (s' : kst) : Prop :=
  (exists W' Q', xcore s' L W' Q' req /\ others_kept s s' W W' /\ k_self s ∉ W' exi_sync_queue /\
     (forall x, 0 <= x < 3 -> x <> c -> Q' x = Q x) /\
     match Q c with
     | [] => Q' c = []
     | _ => exists t d, t ∈ W exi_sync_queue /\ t ∉ W' exi_sync_queue /\ 0 <= d < 3 /\ k_token s t = lock_token c d
     end) /\
  forall x, chn_locked s' x = negb (x =? c) && chn_locked s x.

Lemma unlocked_msr s L W Q req c m s' :
  Z.land m MSR_RI = Z.land (k_msr s') MSR_RI -> unlocked_post s L W Q req c s' ->
  unlocked_post s L W Q req c (set_msr m s').
Proof.
  intros Hm [ (W' & Q' & H1 & H2 & H3) Hfl]. split; [|exact Hfl]. exists W', Q'. split; [by apply xcore_msr|]. by split.
Qed.

(** The wake-up in the callback. *)
Lemma wake_spec s s1 L W Q req c n N :
  xcore s L W Q req -> Q c = n :: N -> 0 <= c < 3 -> rest idle s1 L W ->
  lrel lckdev_queue lckd_dev P (k_mem s1) (dequeue Q c) req ->
  k_thr s1 = k_thr s -> k_self s1 = k_self s -> k_token s1 = k_token s ->
  (forall x, chn_locked s1 x = negb (x =? c) && chn_locked s x) ->
  wpk (exi_locksync_cb c (fst (req n))) (fun _ s' => unlocked_post s L W Q req c s')
    (fun k s' => unlocked_post s L W Q req c s' /\ quiet (k_thr s) k) s1.
Proof.
  intros Hx EQ Hc Hr Hm Et Es Etk Hfl. destruct (self_free _ _ _ _ _ Hx) as (Hni & _).
  destruct (rest_self _ _ _ _ Hr) as ((Hin & Hself & _) & Hv & _).
  destruct (dequeue_requests Q req c n N Hc EQ) as (D1 & D2 & D3 & D4). set (v := lock_token c (fst (req n))) in *.
  pose proof (ki_waits _ _ _ (proj1 (proj1 (r_sound _ _ _ _ Hr)))) as Hw.
  assert (Hvt : v ∈ map (k_token s) (W exi_sync_queue)) by (rewrite (xc_tokens _ _ _ _ _ Hx), D1; by left).
  apply list_elem_of_In, in_map_iff in Hvt as (t0 & Et0 & Hin0%list_elem_of_In).
  assert (Hwk : exists t, woken (k_token s1) KTHR_UNBLOCK_BY_VALUE v 1 (W exi_sync_queue) = [t] /\
    t ∈ W exi_sync_queue /\ k_token s t = v).
  { rewrite woken_one, Etk. destruct (filter (fun t => k_token s t = v) (W exi_sync_queue)) as [|t r] eqn:Ef.
    - exfalso. assert (t0 ∈ []) as []%not_elem_of_nil. rewrite <- Ef. apply list_elem_of_filter. done.
    - exists t. assert (Ht : t ∈ t :: r) by by left. rewrite <- Ef, list_elem_of_filter in Ht. by destruct Ht. }
  destruct Hwk as (t & Hwk & Htin & Htv). set (W' := without W exi_sync_queue [t]).
  assert (EW' : W' exi_sync_queue = filter (fun x => x ∉ [t]) (W exi_sync_queue)) by (unfold W', without; by rewrite fupd_eq).
  assert (Hend : forall b s', ksound s' L W' ->
    (exists s2, woke (new_token KTHR_UNBLOCK_BY_VALUE v) [t] s1 s2 /\ outcome s1 s2 L b s') ->
    unlocked_post s L W Q req c s').
  { intros b s' Hks (s2 & Hwo & Ho). assert (Hr' : rest idle s' L W').
    { apply (outcome_rest s1 L W W' NULL s2 b); try done; [by eapply idle_null| |by eapply woke_owner].
      eapply (woke_calm _ _ _ 8 _ _ W); [done| |done]. by intros x ->%list_elem_of_singleton. }
    destruct Hwo as (st & b2 & c2 & d2 & E2 & _ & B2 & _). destruct Ho as ((m & x & nc & f & E') & _).
    assert (Eexi : k_exi s' = k_exi s1) by by subst s' s2. assert (Emem : k_mem s' = k_mem s1) by by subst s' s2.
    assert (Ethr : k_thr s' = k_thr s1) by by subst s' s2. assert (Etok : k_token s' = b2) by by subst s' s2.
    clear E' E2. split.
    - exists W', (dequeue Q c). split_and!.
      + split; try done; [by rewrite Emem| | | |apply Hx].
        * rewrite D2, length_app. cbn [length]. pose proof (xc_total _ _ _ _ _ Hx) as Ht. rewrite D1 in Ht. simpl in Ht. lia.
        * apply (Permutation_cons_inv (a := v)). rewrite <- D1, <- (xc_tokens _ _ _ _ _ Hx).
          rewrite (filter_out_perm t (W exi_sync_queue)) by (try done; apply (w_nodup _ _ Hw)).
          cbn [map]. rewrite Htv, EW'. apply perm_skip. erewrite map_ext_in; [reflexivity|].
          intros y Hy%list_elem_of_In. apply list_elem_of_filter in Hy as [Hy _]. by rewrite Etok, B2, decide_False, Etk.
        * intros y z Hy Hz. apply (xc_cb _ _ _ _ _ Hx y); [done|]. destruct (decide (y = c)) as [->|Hne].
          -- rewrite D3 in Hz. rewrite EQ. by right.
          -- by rewrite D4 in Hz.
      + split; [by rewrite Ethr|]. intros y _. rewrite EW', list_elem_of_filter. intros [Hy ?]. split; [done|].
        by rewrite Etok, B2, decide_False, Etk.
      + rewrite EW', list_elem_of_filter. tauto.
      + done.
      + rewrite EQ. exists t, (fst (req n)). split_and!; try done; [|apply (xc_cb _ _ _ _ _ Hx c n Hc); rewrite EQ; by left..].
        rewrite EW', list_elem_of_filter, list_elem_of_singleton. tauto.
    - intros y. unfold chn_locked. rewrite Eexi. apply Hfl. }
  unfold exi_locksync_cb, KThrQueueUnblockOneByValue. fold v. apply wpk_bind.
  eapply wpk_mono; [apply wpk_rest; [apply (unblock_sound s1 L W 8 1 KTHR_UNBLOCK_BY_VALUE v (r_sound _ _ _ _ Hr) Hself)|
    apply unblock_rest]|..]; cbv beta; cbv zeta; change (QStatic 8) with exi_sync_queue; rewrite Hwk.
  - intros _ s' [H1 H2]. apply wpk_ret. by eapply Hend.
  - intros k s' [ [H1 H2] H3]. split; [by eapply Hend|]. auto with kcalls.
Qed.

Lemma unlock_spec s L W Q req c :
  xcore s L W Q req -> 0 <= c < 3 -> chn_locked s c = true ->
  wpk (xexec (XUnlock c)) (fun v s' => unlocked_post s L W Q req c s')
    (fun k s' => unlocked_post s L W Q req c s' /\ quiet (k_thr s) k) s.
Proof.
  intros Hx Hc El. cbn [xexec]. unfold EXI_Unlock. apply wpk_lift_bind, wp_irq_lock. intros st Hst _.
  set (s0 := set_msr _ s). assert (Hx0 : xcore s0 L W Q req) by (apply xcore_msr; [apply irq_off|done]).
  apply wpk_lift_bind, wp_rd_bus; [done|]. change (tst (flags (ex_map (k_exi s0) c)) EXI_FLAG_LOCKED) with (chn_locked s c).
  rewrite El. cbn [negb]. apply wpk_lift_bind.
  eapply wp_mono; [apply (unlock_next_spec con _ _ P HL s0 Q req c); [apply Hx0|done]|]. cbv beta.
  intros r s1 (e & mm & -> & Hb & Hm & ->). set (s1 := set_exi e (set_mem mm s0)) in *.
  assert (Hfl : forall x, chn_locked s1 x = negb (x =? c) && chn_locked s x) by exact (bus_unlocked c s0 s1 Hb).
  assert (Hr1 : rest idle s1 L W).
  { eapply rest_dev; [|apply Hx0]. eapply dev_step_trans; [apply dev_step_mem|apply dev_step_exi]. }
  destruct (Q c) as [|n N] eqn:EQ.
  - apply wpk_lift_bind, wp_irq_unlock, wpk_ret. apply unlocked_msr; [by apply irq_msr|].
    split; [|exact Hfl]. exists W, (dequeue Q c).
    assert (ED : dequeue Q c = Q) by (unfold dequeue; by rewrite EQ). rewrite ED in *.
    split_and!; try done; [|by apply (self_free s L W Q req)|by rewrite EQ].
    destruct Hx0 as [X1 X2 X3 X4 X5 X6]. by split.
  - destruct (xc_cb _ _ _ _ _ Hx c n Hc) as [Hcb _]; [rewrite EQ; by left|]. rewrite Hcb. unfold xcb. cbn [call_cb].
    rewrite Z.eqb_refl. apply wpk_bind. eapply wpk_mono; [by apply (wake_spec s s1 L W Q req c n N)|..]; cbv beta.
    + intros v s' H'. apply wpk_lift_bind, wp_irq_unlock, wpk_ret. apply unlocked_msr; [by apply irq_msr|done].
    + intros k s' [H' Hk]. split; [done|]. apply quiet_bind; [done|]. auto with kcalls.
Qed.

(** *** Scheduling *)

(** The driver and the waiting threads are as before. *)
Definition calm_post (s : kst) (L : list Z) (W : qref -> list Z) (Q : Z -> list Z) (req : Z -> Z * Z) (s' : kst) : Prop :=
  xcore s' L W Q req /\ k_thr s' = k_thr s /\ k_token s' = k_token s /\ flags_kept s s'.

Lemma outcome_calm_post s L W Q req d s1 b s' :
  xcore s L W Q req -> idle <> d -> ksound s' L W -> outcome s s1 L b s' -> calm d s s1 ->
  k_owner s1 = k_owner s -> k_thr s1 = k_thr s -> k_token s1 = k_token s -> k_mem s1 = k_mem s -> k_exi s1 = k_exi s ->
  calm_post s L W Q req s'.
Proof.
  intros Hx Hd Hs Ho Hc E1 E2 E3 E4 E5. assert (Hr : rest idle s' L W) by (eapply outcome_rest; try done; apply Hx).
  destruct Ho as ((m & x & nc & f & ->) & _). split; [by apply (xcore_same s)|]. split; [done|]. split; [done|].
  intros y. unfold chn_locked. ksimpl. by rewrite E5.
Qed.

Lemma resume_call s L W Q req t :
  xcore s L W Q req -> t ∈ L ->
  wpk (xexec (XResume t)) (fun v s' => calm_post s L W Q req s') (fun k s' => calm_post s L W Q req s' /\ quiet (k_thr s) k) s.
Proof.
  intros Hx Ht. pose proof (xc_rest _ _ _ _ _ Hx) as Hr. destruct (rest_self _ _ _ _ Hr) as ((Hin & Hself & _) & Hv & _).
  apply wpk_done. eapply wpk_mono; [apply wpk_rest; [apply (resume_sound s L W t (r_sound _ _ _ _ Hr) Ht); by left|apply resume_rest]|..];
    cbv beta; [intros _ s' [H1 H2]|intros k s' [ [H1 H2] H3]; split; [|by apply quiet_done] ];
    (eapply (outcome_calm_post s L W Q req NULL); [done|by eapply idle_null|done|exact H2|apply resume_calm|..];
      unfold resume_effect; by repeat case_match).
Qed.

Lemma suspend_call s L W Q req t :
  xcore s L W Q req -> t ∈ L -> k_suspend s t + 1 < 2 ^ 16 -> t <> idle ->
  wpk (xexec (XSuspend t)) (fun v s' => calm_post s L W Q req s') (fun k s' => calm_post s L W Q req s' /\ quiet (k_thr s) k) s.
Proof.
  intros Hx Ht Hn Hi. pose proof (xc_rest _ _ _ _ _ Hx) as Hr. assert (Hs := r_sound _ _ _ _ Hr).
  apply wpk_done. eapply wpk_mono; [apply wpk_rest; [apply (suspend_sound s L W t Hs Ht Hn); by apply (rest_other idle s L W)|apply suspend_rest]|..];
    cbv beta; [intros _ s' [H1 H2]|intros k s' [ [H1 H2] H3]; split; [|by apply quiet_done] ];
    (eapply (outcome_calm_post s L W Q req t); [done|done|done|exact H2|apply (suspend_calm s L W); [apply Hs|done]|..];
      unfold suspend_effect; by case_match).
Qed.

Lemma yield_call s L W Q req :
  xcore s L W Q req ->
  wpk (xexec XYield) (fun v s' => calm_post s L W Q req s') (fun k s' => calm_post s L W Q req s' /\ quiet (k_thr s) k) s.
Proof.
  intros Hx. pose proof (xc_rest _ _ _ _ _ Hx) as Hr. destruct (rest_self _ _ _ _ Hr) as ((Hin & Hself & _) & Hv & _).
  destruct (list_elem_of_split _ _ Hin) as (L1 & L2 & EL).
  apply wpk_done. eapply wpk_mono; [apply wpk_rest; [apply (yield_sound s L W L1 L2 (r_sound _ _ _ _ Hr) Hself EL)|apply yield_rest]|..];
    cbv beta; [intros _ s' (H1 & H2 & _)|intros k s' [ (H1 & H2 & _) H3]; split; [|by apply quiet_done] ];
    (eapply (outcome_calm_post s L W Q req NULL); [done|by eapply idle_null|done|exact H2|apply calm_refl|done..]).
Qed.

End System.
