(* ===== verification/ExiReach.v ===== *)
(** * The EXI bus: every run

    In every state that threads sharing the bus can reach, a channel is locked by
    at most one of them, and while somebody waits for a channel either it is
    locked or a thread that was woken for it is about to try again. *)

From stdpp Require Import base gmap list fin_maps.
From Stdlib Require Import ZArith Lia.
From S2P Require Import Prelude Chain LwpQueue Devices KState KTick KThread KLists KSched KLife KSound KSystem KCalls Clock Irq Exi ExiLock ExiSystem.

Open Scope Z_scope.

Section Reach.
Context `{ExiHw}.
Context (con : console) (lckdev_queue : Z) (lckd_dev : Z -> Z) (serport1 locals : Z) (polls : nat).
Context (user : Z -> Z -> Z -> K Z) (depth : nat) (idle : Z).
Context (P : list Z) (HL : lock_layout lckdev_queue lckd_dev P).

Notation xcore := (xcore lckdev_queue lckd_dev idle P).
Notation x_call := (x_call con lckdev_queue lckd_dev serport1 locals polls user depth).
Notation xreach := (xreach con lckdev_queue lckd_dev serport1 locals polls user depth idle).
Notation left_code := (left_code con lckdev_queue lckd_dev).

(** [t] waits in [EXI_LockSync] for channel [c], asleep or woken. *)
Definition wants (p : Z -> option (xcall * K Z)) (t c : Z) : Prop :=
  exists n d k, p t = Some (XLockSync n c d, k).

Definition pend_ok (s : kst) (W : qref -> list Z) (t : Z) (c : xcall) (k : K Z) : Prop :=
  match c with
  | XLockSync _ ch d => 0 <= ch < 3 /\ 0 <= d < 3 /\ t <> idle /\ t ∈ k_thr s /\ left_code (k_thr s) ch d k /\
      (t ∈ W exi_sync_queue -> k_token s t = lock_token ch d)
  | _ => quiet (k_thr s) k
  end.

Record xinv (y : xsys) (L : list Z) (W : qref -> list Z) (Q : Z -> list Z) (req : Z -> Z * Z) : Prop := {
  xi_core : xcore (x_st y) L W Q req;
  xi_pend : forall t c k, x_pend y t = Some (c, k) -> pend_ok (x_st y) W t c k;
  xi_sleep : forall t, t ∈ W exi_sync_queue -> exists c, wants (x_pend y) t c;
  xi_holds : forall c, 0 <= c < 3 -> chn_locked (x_st y) c = true <-> exists t, x_holds y t c = true;
  xi_once : forall t t' c, x_holds y t c = true -> x_holds y t' c = true -> t = t';
  xi_chn : forall t c, x_holds y t c = true -> 0 <= c < 3;
  xi_wake : forall c, 0 <= c < 3 -> chn_locked (x_st y) c = false -> Q c <> [] ->
    exists t, wants (x_pend y) t c /\ t ∉ W exi_sync_queue;
}.

Lemma self_valid s L W Q req : xcore s L W Q req -> k_self s ∈ k_thr s.
Proof. intros Hx. by apply (rest_self _ _ _ _ (xc_rest _ _ _ _ _ _ _ _ _ Hx)). Qed.

(** The entries of the others survive the step of the running thread. *)
Lemma pend_others s s' W W' t c k :
  others_kept s s' W W' -> t <> k_self s -> pend_ok s W t c k -> pend_ok s' W' t c k.
Proof.
  intros [E Ho] Ht. unfold pend_ok. destruct c; rewrite ?E; try done.
  intros (H1 & H2 & H3 & H4 & H5 & H6). do 5 (split; [done|]). intros Hin. destruct (Ho t Ht Hin) as [Hw Et]. rewrite Et. auto.
Qed.

Definition next_pend (c : xcall) (r : Z + K Z) : option (xcall * K Z) :=
  match r with inl _ => None | inr k => Some (c, k) end.

Lemma settle_pend y t c h r s' :
  x_pend (xsettle t c (x_pend y) h r s') = fupd (x_pend y) t (next_pend c r) /\ x_st (xsettle t c (x_pend y) h r s') = s' /\
  x_holds (xsettle t c (x_pend y) h r s') = match r with inl v => add t (xtakes c v) h | inr _ => h end.
Proof. by destruct r. Qed.

(** The parts of the invariant about pending calls. *)
Lemma settle_pends y L W Q req c r s' W' :
  xinv y L W Q req -> let s := x_st y in
  others_kept s s' W W' ->
  (forall c' k, next_pend c r = Some (c', k) -> pend_ok s' W' (k_self s) c' k) ->
  (k_self s ∈ W' exi_sync_queue -> exists ch, wants (fupd (x_pend y) (k_self s) (next_pend c r)) (k_self s) ch) ->
  let p' := fupd (x_pend y) (k_self s) (next_pend c r) in
  (forall t c k, p' t = Some (c, k) -> pend_ok s' W' t c k) /\
  (forall t, t ∈ W' exi_sync_queue -> exists ch, wants p' t ch).
Proof.
  intros Hi s Ho Hself Hq p'. split.
  - intros t c' k. unfold p', fupd. case_decide as E; [subst; apply Hself|]. intros Hp.
    eapply pend_others; [done..|exact Ho|done|]. by apply (xi_pend _ _ _ _ _ Hi).
  - intros t Ht. destruct (decide (t = k_self s)) as [->|Hne]; [by apply Hq|].
    destruct (proj2 Ho t Hne Ht) as [Hw _]. destruct (xi_sleep _ _ _ _ _ Hi t Hw) as (ch & n & d & k & Ep).
    exists ch, n, d, k. unfold p'. by rewrite fupd_ne.
Qed.

(** A thread that wants a channel is another one than the caller. *)
Lemma wants_other (p : Z -> option (xcall * K Z)) self t c v :
  wants p t c -> ~ wants p self c -> wants (fupd p self v) t c.
Proof. intros Hw Hn. assert (t <> self) by by intros ->. destruct Hw as (n & d & k & E). exists n, d, k. by rewrite fupd_ne. Qed.

Lemma wants_inj p t c c' : wants p t c -> wants p t c' -> c = c'.
Proof. intros (n & d & k & E) (n' & d' & k' & E'). congruence. Qed.

(** *** The step of the running thread, by what it did *)

Lemma settle_calm y L W Q req c r s' :
  xinv y L W Q req -> let s := x_st y in
  calm_post lckdev_queue lckd_dev idle P s L W Q req s' ->
  (forall n ch d, c <> XLockSync n ch d) -> (forall ch, ~ wants (x_pend y) (k_self s) ch) ->
  (forall k, r = inr k -> quiet (k_thr s) k) ->
  xinv (xsettle (k_self s) c (x_pend y) (x_holds y) r s') L W Q req.
Proof.
  intros Hi s (Hx & Et & Etk & Hfl) Hc Hw Hq.
  destruct (settle_pend y (k_self s) c (x_holds y) r s') as (E1 & E2 & E3).
  assert (Eh : match r with inl v => add (k_self s) (xtakes c v) (x_holds y) | inr _ => x_holds y end = x_holds y).
  { destruct r; [|done]. destruct c; try done. by destruct (Hc fuel c d). }
  assert (Ho : others_kept s s' W W) by (split; [done|]; intros; by rewrite Etk).
  destruct (settle_pends y L W Q req c r s' W Hi Ho) as [H1 H2].
  { intros c' k Hn. destruct r as [|k0]; [done|]. injection Hn as <- <-. specialize (Hq k0 eq_refl).
    unfold pend_ok. rewrite Et. destruct c; try done. by destruct (Hc fuel c d). }
  { intros Hin. destruct (self_free _ _ _ _ _ _ _ _ _ (xi_core _ _ _ _ _ Hi)) as [Hni _]. done. }
  split; rewrite ?E1, ?E2, ?E3, ?Eh; try done.
  - intros ch Hch. rewrite Hfl. by apply (xi_holds _ _ _ _ _ Hi).
  - apply Hi.
  - apply Hi.
  - intros ch Hch. rewrite Hfl. intros Hl HQ. destruct (xi_wake _ _ _ _ _ Hi ch Hch Hl HQ) as (t & Hwt & Hni).
    exists t. split; [|done]. by apply wants_other.
Qed.

Lemma settle_locked y L W Q req n ch d s' :
  xinv y L W Q req -> let s := x_st y in 0 <= ch < 3 ->
  locked_post lckdev_queue lckd_dev idle P s L W Q req ch s' ->
  (forall c, wants (x_pend y) (k_self s) c -> c = ch) ->
  xinv (xsettle (k_self s) (XLockSync n ch d) (x_pend y) (x_holds y) (inl 1) s') L W Q req.
Proof.
  intros Hi s Hch (Hl & Hx & Ho & Hfl) Hw.
  destruct (settle_pend y (k_self s) (XLockSync n ch d) (x_holds y) (inl 1) s') as (E1 & E2 & E3).
  destruct (settle_pends y L W Q req (XLockSync n ch d) (inl 1) s' W Hi Ho) as [H1 H2]; [done| |].
  { intros Hin. destruct (self_free _ _ _ _ _ _ _ _ _ (xi_core _ _ _ _ _ Hi)) as [Hni _]. done. }
  assert (Hnone : forall t, x_holds y t ch = false).
  { intros t. destruct (x_holds y t ch) eqn:E; [|done].
    assert (chn_locked s ch = true) by (apply (xi_holds _ _ _ _ _ Hi); eauto). congruence. }
  assert (Eadd : forall t c, add (k_self s) (Some ch) (x_holds y) t c = true <->
    (t = k_self s /\ c = ch) \/ x_holds y t c = true).
  { intros t c. unfold add, fupd. repeat case_decide; naive_solver. }
  change (xtakes _ 1) with (Some ch) in E3. split; rewrite ?E1, ?E2, ?E3; try done.
  - intros c Hc. rewrite Hfl. destruct (Z.eqb_spec c ch) as [->|Hne].
    + split; [|done]. intros _. exists (k_self s). apply Eadd. by left.
    + cbn [orb]. pose proof (xi_holds _ _ _ _ _ Hi c Hc) as Hx'. fold s in Hx'. rewrite Hx'. split; intros [t Ht]; exists t; revert Ht; rewrite ?E3, Eadd; naive_solver.
  - intros t t' c. rewrite !Eadd. intros [ [-> ->]|Ht] [ [-> ?]|Ht']; try done; try (by subst; rewrite Hnone in *).
    by apply (xi_once _ _ _ _ _ Hi t t' c).
  - intros t c. rewrite Eadd. intros [ [_ ->]|Ht]; [done|by apply (xi_chn _ _ _ _ _ Hi t)].
  - intros c Hc. rewrite Hfl. destruct (Z.eqb_spec c ch) as [->|Hne]; [done|]. cbn [orb]. intros Hlc HQ.
    destruct (xi_wake _ _ _ _ _ Hi c Hc Hlc HQ) as (t & Hwt & Hni). exists t. split; [|done].
    apply wants_other; [done|]. by intros ?%Hw.
Qed.

Lemma settle_waiting y L W Q req n ch d k s' :
  xinv y L W Q req -> let s := x_st y in 0 <= ch < 3 -> 0 <= d < 3 -> k_self s <> idle ->
  waiting_post con lckdev_queue lckd_dev idle P s L W Q ch d k s' ->
  (forall c, wants (x_pend y) (k_self s) c -> c = ch) ->
  exists W' Q' req', xinv (xsettle (k_self s) (XLockSync n ch d) (x_pend y) (x_holds y) (inr k) s') L W' Q' req'.
Proof.
  intros Hi s Hch Hd Hid (Hl & (W' & Q' & req' & Hx & Ho & Hin & Htk & Hsub & HQ) & Hfl & Hcode) Hw. exists W', Q', req'.
  destruct (settle_pends y L W Q req (XLockSync n ch d) (inr k) s' W' Hi Ho) as [H1 H2].
  { intros c' k' Hn. injection Hn as <- <-. unfold pend_ok. rewrite (proj1 Ho). do 3 (split; [done|]). split; [|done].
    by apply (self_valid _ _ _ _ _ (xi_core _ _ _ _ _ Hi)). }
  { intros _. exists ch, n, d, k. by rewrite fupd_eq. }
  split; cbn [xsettle x_st x_pend x_holds]; try done.
  - intros c Hc. rewrite Hfl. by apply (xi_holds _ _ _ _ _ Hi).
  - apply Hi.
  - apply Hi.
  - intros c Hc. rewrite Hfl. intros Hlc HQc. assert (Hne : c <> ch) by (intros ->; fold s in Hl; congruence).
    rewrite HQ in HQc by done. destruct (xi_wake _ _ _ _ _ Hi c Hc Hlc HQc) as (t & Hwt & Hni).
    assert (Hts : t <> k_self s) by (intros ->; apply Hw in Hwt; done).
    exists t. split; [|intros Hti; by destruct (proj2 Ho t Hts Hti)]. apply wants_other; [done|]. by intros ?%Hw.
Qed.

Lemma settle_unlocked y L W Q req ch r s' :
  xinv y L W Q req -> let s := x_st y in 0 <= ch < 3 -> x_holds y (k_self s) ch = true ->
  unlocked_post lckdev_queue lckd_dev idle P s L W Q req ch s' ->
  x_pend y (k_self s) = None -> (forall k, r = inr k -> quiet (k_thr s) k) ->
  exists W' Q', xinv (xsettle (k_self s) (XUnlock ch) (x_pend y) (drop (k_self s) (Some ch) (x_holds y)) r s') L W' Q' req.
Proof.
  intros Hi s Hch Hh [ (W' & Q' & Hx & Ho & Hni & HQ & Hch') Hfl] Hp Hq. exists W', Q'.
  destruct (settle_pend y (k_self s) (XUnlock ch) (drop (k_self s) (Some ch) (x_holds y)) r s') as (E1 & E2 & E3).
  assert (Eh : match r with inl v => add (k_self s) (xtakes (XUnlock ch) v) (drop (k_self s) (Some ch) (x_holds y))
    | inr _ => drop (k_self s) (Some ch) (x_holds y) end = drop (k_self s) (Some ch) (x_holds y)) by by destruct r.
  assert (Edrop : forall t c, drop (k_self s) (Some ch) (x_holds y) t c = true <-> x_holds y t c = true /\ c <> ch).
  { intros t c. unfold drop. destruct (decide (t = k_self s)) as [->|Ht]; [|rewrite fupd_ne by done].
    - rewrite fupd_eq. destruct (decide (c = ch)) as [->|Hc]; [rewrite fupd_eq|rewrite fupd_ne by done]; [|tauto].
      split; [done|]. by intros [_ ?].
    - split; [|tauto]. intros Hxt. split; [done|]. intros ->. by apply (xi_once _ _ _ _ _ Hi t (k_self s) ch) in Hxt. }
  assert (Hnw : forall c, ~ wants (x_pend y) (k_self s) c) by (intros c (n & d & k & E); congruence).
  destruct (settle_pends y L W Q req (XUnlock ch) r s' W' Hi Ho) as [H1 H2].
  { intros c' k Hn. destruct r as [|k0]; [done|]. injection Hn as <- <-. unfold pend_ok. rewrite (proj1 Ho). by apply Hq. }
  { done. }
  split; rewrite ?E1, ?E2, ?E3, ?Eh; try done.
  - intros c Hc. rewrite Hfl. destruct (Z.eqb_spec c ch) as [->|Hne]; cbn [negb andb].
    + split; [done|]. intros [t [_ Ht]%Edrop]. done.
    + pose proof (xi_holds _ _ _ _ _ Hi c Hc) as Hx'. fold s in Hx'. rewrite Hx'. split; intros [t Ht]; exists t; revert Ht; rewrite Edrop; naive_solver.
  - intros t t' c [Ht _]%Edrop [Ht' _]%Edrop. by apply (xi_once _ _ _ _ _ Hi t t' c).
  - intros t c [Ht _]%Edrop. by apply (xi_chn _ _ _ _ _ Hi t).
  - intros c Hc. rewrite Hfl. destruct (Z.eqb_spec c ch) as [->|Hne]; cbn [negb andb].
    + intros _ HQc. destruct (Q ch) as [|n0 N0] eqn:EQ; [done|].
      destruct Hch' as (t & d & Htw & Hnt & Hd & Htok).
      destruct (xi_sleep _ _ _ _ _ Hi t Htw) as (c' & n & d' & k & Ep).
      destruct (xi_pend _ _ _ _ _ Hi t _ _ Ep) as (Hc' & Hd' & _ & _ & _ & Htk). specialize (Htk Htw).
      unfold s in Htok. rewrite Htok in Htk. apply lock_token_inj in Htk as [<- _]; try lia.
      exists t. split; [|done]. apply wants_other; [by exists n, d', k|apply Hnw].
    + intros Hlc HQc. rewrite HQ in HQc by done. destruct (xi_wake _ _ _ _ _ Hi c Hc Hlc HQc) as (t & Hwt & Hnt).
      assert (Hts : t <> k_self s) by (intros ->; by apply Hnw in Hwt).
      exists t. split; [by apply wants_other|]. intros Hti. by destruct (proj2 Ho t Hts Hti).
Qed.
(** *** Calls and resumptions keep the invariant *)

Definition x_inv (y : xsys) : Prop := exists L W Q req, xinv y L W Q req.

Lemma no_wants y c : x_pend y (k_self (x_st y)) = None -> ~ wants (x_pend y) (k_self (x_st y)) c.
Proof. intros E (n & d & k & E'). congruence. Qed.

Lemma call_cases y L W Q req c :
  xinv y L W Q req -> x_pend y (k_self (x_st y)) = None -> xcontract idle c y ->
  exists r s', runK (xexec con lckdev_queue lckd_dev serport1 locals polls user depth c) (x_st y) = Ok (r, s') /\
    x_inv (xsettle (k_self (x_st y)) c (x_pend y) (drop (k_self (x_st y)) (xreleases c) (x_holds y)) r s').
Proof.
  intros Hi Hp Hc. pose proof (no_wants y) as Hnw. specialize (fun c => Hnw c Hp).
  pose proof (xi_core _ _ _ _ _ Hi) as Hx. pose proof (rest_threads _ _ _ _ (xc_rest _ _ _ _ _ _ _ _ _ Hx)) as EL.
  assert (Hcalm : forall c, (forall n ch d, c <> XLockSync n ch d) -> xreleases c = None ->
    wpk (xexec con lckdev_queue lckd_dev serport1 locals polls user depth c)
      (fun v s' => calm_post lckdev_queue lckd_dev idle P (x_st y) L W Q req s')
      (fun k s' => calm_post lckdev_queue lckd_dev idle P (x_st y) L W Q req s' /\ quiet (k_thr (x_st y)) k) (x_st y) ->
    exists r s', runK (xexec con lckdev_queue lckd_dev serport1 locals polls user depth c) (x_st y) = Ok (r, s') /\
      x_inv (xsettle (k_self (x_st y)) c (x_pend y) (drop (k_self (x_st y)) (xreleases c) (x_holds y)) r s')).
  { intros c0 H1 -> H2. unfold wpk in H2. destruct (runK _ _) as [ [ [v|k] s']|]; [..|done]; eexists _, s'; (split; [done|]);
      exists L, W, Q, req; eapply settle_calm; try done; [apply H2|]. intros k0 [= <-]. apply H2. }
  destruct c as [|t|t|n ch d|ch]; cbn [xcontract] in Hc.
  - apply Hcalm; [done..|]. by apply yield_call.
  - apply Hcalm; [done..|]. apply resume_call; [done|]. by rewrite <- EL.
  - apply Hcalm; [done..|]. destruct Hc as (H1 & H2 & H3). apply suspend_call; try done. by rewrite <- EL.
  - destruct Hc as (H1 & H2 & H3 & H4). pose proof (locksync_spec con _ _ idle P HL n ch d _ L W Q req Hx H2 H3 H1 H4) as Hl.
    unfold wpk in Hl. cbn [xexec xreleases drop]. destruct (runK _ _) as [ [ [v|k] s']|]; [..|done]; eexists _, s'; (split; [done|]).
    + destruct Hl as [-> Hl]. exists L, W, Q, req. eapply settle_locked; try done. by intros c ?%Hnw.
    + eapply settle_waiting in Hl as (W' & Q' & req' & Hl); try done; [|by intros c ?%Hnw]. by exists L, W', Q', req'.
  - destruct Hc as (H1 & H2). assert (Hlk : chn_locked (x_st y) ch = true) by (apply (xi_holds _ _ _ _ _ Hi); eauto).
    pose proof (unlock_spec con _ _ serport1 locals polls user depth idle P HL _ L W Q req ch Hx H1 Hlk) as Hl.
    unfold wpk in Hl. destruct (runK _ _) as [ [ [v|k] s']|]; [..|done]; eexists _, s'; (split; [done|]).
    + eapply (settle_unlocked _ _ _ _ _ _ (inl v)) in Hl as (W' & Q' & Hl); try done. by exists L, W', Q', req.
    + destruct Hl as [Hl Hk]. eapply (settle_unlocked _ _ _ _ _ _ (inr k)) in Hl as (W' & Q' & Hl); try done; [by exists L, W', Q', req|].
      by intros k0 [= <-].
Qed.

Lemma resume_cases y L W Q req c k :
  xinv y L W Q req -> x_pend y (k_self (x_st y)) = Some (c, k) ->
  runK k (x_st y) = Fault OutOfFuel \/
  exists r s', runK k (x_st y) = Ok (r, s') /\ x_inv (xsettle (k_self (x_st y)) c (x_pend y) (x_holds y) r s').
Proof.
  intros Hi Hp. pose proof (xi_core _ _ _ _ _ Hi) as Hx. pose proof (xi_pend _ _ _ _ _ Hi _ _ _ Hp) as Hok.
  assert (Hquiet : quiet (k_thr (x_st y)) k -> (forall n ch d, c <> XLockSync n ch d) ->
    exists r s', runK k (x_st y) = Ok (r, s') /\ x_inv (xsettle (k_self (x_st y)) c (x_pend y) (x_holds y) r s')).
  { intros Hq Hc. destruct (Hq (x_st y) eq_refl) as (v & m & E & Hm). eexists _, _. split; [done|].
    exists L, W, Q, req. eapply settle_calm; try done; [|intros ch (n & d & k' & E'); rewrite Hp in E'; injection E' as -> _; by eapply Hc].
    split; [by apply xcore_msr|by repeat split]. }
  destruct c as [|t|t|n ch d|ch]; cbn [pend_ok] in Hok; try (right; by apply Hquiet).
  destruct Hok as (H1 & H2 & H3 & _ & (n' & st & Hst & Hk) & _). rewrite (Hk _ eq_refl).
  assert (Hw : forall c, wants (x_pend y) (k_self (x_st y)) c -> c = ch) by (intros c (? & ? & ? & E'); congruence).
  destruct n' as [|n']; [by left|right].
  pose proof (relock_step con _ _ idle P HL (S n') ch d st _ L W Q req Hx H1 H2 H3 Hst ltac:(lia)) as Hl.
  unfold wpk in Hl. match type of Hl with context [runK ?a ?b] => destruct (runK a b) as [ [ [v|k'] s']|] end;
    [..|done]; eexists _, s'; (split; [done|]).
  - destruct Hl as [-> Hl]. exists L, W, Q, req. eapply settle_locked; try done.
  - eapply settle_waiting in Hl as (W' & Q' & req' & Hl); try done. by exists L, W', Q', req'.
Qed.

Lemma x_call_inv y c y' :
  x_inv y -> x_pend y (k_self (x_st y)) = None -> xcontract idle c y -> x_call c y = Ok y' -> x_inv y'.
Proof.
  intros (L & W & Q & req & Hi) Hp Hc. destruct (call_cases y L W Q req c Hi Hp Hc) as (r & s' & E & Hy).
  unfold ExiSystem.x_call. rewrite E. by intros [= <-].
Qed.

Lemma x_resume_inv y c k y' :
  x_inv y -> x_pend y (k_self (x_st y)) = Some (c, k) -> x_resume c k y = Ok y' -> x_inv y'.
Proof.
  intros (L & W & Q & req & Hi) Hp. unfold x_resume.
  destruct (resume_cases y L W Q req c k Hi Hp) as [->|(r & s' & E & Hy)]; [done|]. rewrite E. by intros [= <-].
Qed.

(** *** Initialisation *)

(** The nodes are those of the array [lckdevs], and every word of the queues and
    of the nodes is mapped. *)
Context (lckdevs : Z) (HP : P = node_addrs 32 lckdevs SIZEOF_lck_dev).
Context (Hsep : lckdev_queue + 12 <= lckdevs \/ lckdevs + 32 * 16 <= lckdev_queue).

Definition lock_memory (m : mem) : Prop :=
  (forall i, idx i -> is_Some (m !! q_first (qaddr lckdev_queue lckd_dev i)) /\
     is_Some (m !! q_perm_null (qaddr lckdev_queue lckd_dev i)) /\ is_Some (m !! q_last (qaddr lckdev_queue lckd_dev i))) /\
  forall n k, n ∈ P -> node_word k -> is_Some (m !! (n + k)).

(** Stores do not unmap words. *)
Definition keeps_mapped {A} (c : M mem A) : Prop :=
  forall m r m', c m = Ok (r, m') -> forall w, is_Some (m !! w) -> is_Some (m' !! w).

Lemma keeps_store a v : keeps_mapped (store a v).
Proof. intros m r m'. unfold store. destruct (m !! a); [|done]. intros [= <- <-] w Hw. by apply mapped_insert. Qed.

Lemma keeps_bind {A B} (c : M mem A) (f : A -> M mem B) :
  keeps_mapped c -> (forall a, keeps_mapped (f a)) -> keeps_mapped (bind c f).
Proof.
  intros Hc Hf m r m'. unfold bind. destruct (c m) as [ [a m1]|] eqn:E; [|done]. intros E2 w Hw.
  eapply Hf; [exact E2|]. by eapply Hc.
Qed.

Lemma keeps_initialize q a n sz : keeps_mapped (lwp_queue_initialize q a n sz).
Proof.
  apply keeps_bind; [apply keeps_store|]. intros _. apply keeps_bind.
  - generalize (lwp_queue_head q), a. induction (Z.to_nat n) as [|k IH]; intros x y; cbn [lwp_queue_initialize_loop].
    + by intros m r m' [= <- <-].
    + apply keeps_bind; [apply keeps_store|]. intros _. apply keeps_bind; [apply keeps_store|]. intros _. apply IH.
  - intros c. apply keeps_bind; [apply keeps_store|]. intros _. apply keeps_store.
Qed.

Lemma wp_keeps {A} (c : M mem A) Q m :
  keeps_mapped c -> wp c Q m -> wp c (fun r m' => Q r m' /\ forall w, is_Some (m !! w) -> is_Some (m' !! w)) m.
Proof. intros Hk. unfold wp. destruct (c m) as [ [r m']|] eqn:E; [|done]. intros HQ. split; [done|]. by eapply Hk. Qed.

(** The queues before the initialisation of channel [i]. *)
Definition first_queues (j : Z) : list Z := if j =? -1 then P else [].
Definition partly (i : Z) (m : mem) : Prop :=
  (forall j, idx j -> j < i -> queue_repr m (qaddr lckdev_queue lckd_dev j) (first_queues j)) /\ lock_memory m.

Lemma empty_step i m :
  0 <= i < 3 -> partly i m -> wp (lwp_queue_init_empty (lckd_dev i)) (fun _ m' => partly (i + 1) m') m.
Proof.
  intros Hi [Hq [Hm1 Hm2] ]. assert (Ei : lckd_dev i = qaddr lckdev_queue lckd_dev i).
  { unfold qaddr. destruct (Z.eqb_spec i (-1)); [lia|done]. }
  assert (Hii : idx i) by (unfold idx; lia). rewrite Ei. destruct (Hm1 i Hii) as (F1 & F2 & F3).
  eapply wp_mono; [by apply init_empty_spec|]. cbv beta. intros _ m' [Hr Ha].
  assert (Hdec : forall w, is_Some (m !! w) -> is_Some (m' !! w)).
  { intros w Hw. destruct (footprint_dec (qaddr lckdev_queue lckd_dev i) [] w) as [Hf|Hf]; [by eapply queue_repr_mapped|].
    by rewrite Ha. }
  split; [|split].
  - intros j Hj Hlt. destruct (decide (j = i)) as [->|Hne].
    { unfold first_queues. destruct (Z.eqb_spec i (-1)); [lia|done]. }
    apply (queue_repr_frame m); [|apply Hq; [done|lia] ]. intros w Hw. apply Ha. intros Hw1.
    apply queue_words in Hw, Hw1. destruct Hw1 as [Hw1|(? & []%not_elem_of_nil & _)].
    destruct Hw as [Hw|(x & Hx & Hw)].
    + destruct (ll_queues _ _ _ HL i j); auto; lia.
    + unfold first_queues in Hx. destruct (j =? -1); [|by apply not_elem_of_nil in Hx].
      destruct (ll_nodes _ _ _ HL x i Hx Hii); lia.
  - intros j Hj. destruct (Hm1 j Hj) as (?&?&?). split_and!; by apply Hdec.
  - intros n k Hn Hk. by apply Hdec, Hm2.
Qed.

Lemma partly_lrel m req : partly 3 m -> lrel lckdev_queue lckd_dev P m first_queues req.
Proof.
  intros [Hq [_ Hm] ]. split; try done.
  - intros i Hi. apply Hq; [done|unfold idx in Hi; lia].
  - intros i n Hi. unfold first_queues. destruct (i =? -1); [done|]. by intros ?%not_elem_of_nil.
  - intros i j n Hi Hj. unfold first_queues. destruct (Z.eqb_spec i (-1)), (Z.eqb_spec j (-1)); try congruence;
      intros A B; by (apply not_elem_of_nil in A || apply not_elem_of_nil in B).
  - intros c n Hc. unfold first_queues. destruct (Z.eqb_spec c (-1)); [lia|]. by intros ?%not_elem_of_nil.
Qed.

Lemma initmap_loop_spec n i s :
  0 <= i -> i + Z.of_nat n = 3 -> partly i (k_mem s) -> (forall x, 0 <= x < i -> chn_locked s x = false) ->
  wp (initmap_loop lckd_dev n i)
    (fun _ s' => dev_step s s' /\ partly 3 (k_mem s') /\ forall x, 0 <= x < 3 -> chn_locked s' x = false) s.
Proof.
  revert i s. induction n as [|n IH]; intros i s Hi Hn Hp Hl; cbn [initmap_loop].
  - assert (i = 3) as -> by lia. split; [apply dev_step_refl|done].
  - estep. apply wp_upd_bus; [lia|]. estep. apply wp_kmem. ksimpl.
    eapply wp_mono; [apply empty_step; [lia|done]|]. cbv beta. intros _ m1 Hp1.
    eapply wp_mono; [apply (IH (i + 1)); [lia|lia|done|]|].
    + intros x Hx. unfold chn_locked. esimpl. unfold fupd. case_decide; [done|]. apply Hl. lia.
    + cbv beta. intros _ s' (H1 & H2). split; [|done]. eapply dev_step_trans; [|exact H1].
      eapply dev_step_trans; [apply dev_step_exi|apply dev_step_mem].
Qed.

Lemma initmap_spec s req :
  lock_memory (k_mem s) ->
  wp (exi_initmap lckdev_queue lckdevs lckd_dev)
    (fun _ s' => dev_step s s' /\ lrel lckdev_queue lckd_dev P (k_mem s') first_queues req /\
       forall x, 0 <= x < 3 -> chn_locked s' x = false) s.
Proof.
  intros [Hm1 Hm2]. unfold exi_initmap. estep. apply wp_kmem.
  assert (Hf : idx (-1)) by (unfold idx; lia). destruct (Hm1 (-1) Hf) as (F1 & F2 & F3).
  eapply wp_mono; [apply wp_keeps; [apply keeps_initialize|apply initialize_spec]|]; try done.
  - intros x Hx. change (Z.to_nat EXI_LOCK_DEVS) with 32%nat in Hx. rewrite <- HP in Hx.
    unfold node_next, node_prev. rewrite Z.add_0_r. split; [|by apply (Hm2 x 4); unfold node_word; auto].
    rewrite <- (Z.add_0_r x). apply (Hm2 x 0); unfold node_word; auto.
  - cbv beta. change (Z.to_nat EXI_LOCK_DEVS) with 32%nat. rewrite <- HP. intros _ m1 [Hr Hk].
    eapply wp_mono; [apply (initmap_loop_spec 3 0); [done|done| |intros; lia]|].
    + split; [|split].
      * intros j Hj Hlt. assert (j = -1) as -> by (unfold idx in Hj; lia). exact Hr.
      * intros j Hj. destruct (Hm1 j Hj) as (?&?&?). split_and!; by apply Hk.
      * intros n k Hn' Hk'. by apply Hk, Hm2.
    + cbv beta. intros _ s' (H1 & H2 & H3). split; [|split; [by apply partly_lrel|done] ].
      eapply dev_step_trans; [apply dev_step_mem|exact H1].
Qed.

End Reach.

(** ** The bus in use *)

Section Theorems.
Context `{ExiHw}.
Context (con : console) (lckdev_queue lckdevs : Z) (lckd_dev : Z -> Z) (serport1 locals : Z) (polls : nat).
Context (user : Z -> Z -> Z -> K Z) (depth : nat) (idle : Z).

Notation lock_nodes := (node_addrs 32 lckdevs SIZEOF_lck_dev).
Notation xreach := (xreach con lckdev_queue lckd_dev serport1 locals polls user depth idle).
Notation x_call := (x_call con lckdev_queue lckd_dev serport1 locals polls user depth).
Notation xinv := (xinv con lckdev_queue lckd_dev idle lock_nodes).
Notation x_inv := (x_inv con lckdev_queue lckd_dev idle lock_nodes).

(** The variables do not overlap. *)
Record lock_addresses : Prop := {
  la_queues : forall i j, idx i -> idx j -> i <> j ->
    qaddr lckdev_queue lckd_dev i + 12 <= qaddr lckdev_queue lckd_dev j \/
    qaddr lckdev_queue lckd_dev j + 12 <= qaddr lckdev_queue lckd_dev i;
  la_nodes : forall i, idx i ->
    lckdevs + 32 * 16 <= qaddr lckdev_queue lckd_dev i \/ qaddr lckdev_queue lckd_dev i + 12 <= lckdevs;
  la_null : 0 < lckdevs;
}.

(** [s0] is the state after [__exi_initmap], at most 32 threads are alive and
    none sleeps in the queue of the driver. *)
Definition xready (s0 : kst) : Prop :=
  exists s1 L W, rest idle s1 L W /\ W exi_sync_queue = [] /\ (length L <= 32)%nat /\
    lock_memory lckdev_queue lckd_dev lock_nodes (k_mem s1) /\
    exi_initmap lckdev_queue lckdevs lckd_dev s1 = Ok (tt, s0).

Lemma node_addrs_sep n a sz x y : 0 <= sz -> x ∈ node_addrs n a sz -> y ∈ node_addrs n a sz -> x = y \/ x + sz <= y \/ y + sz <= x.
Proof.
  intros Hs. revert a. induction n as [|n IH]; intros a; cbn [node_addrs]; [by intros ?%not_elem_of_nil|].
  rewrite !elem_of_cons. intros [->|Hx] [->|Hy]; [by left|apply node_addrs_elem in Hy; lia|apply node_addrs_elem in Hx; lia|eauto].
Qed.

Lemma array_layout : lock_addresses -> lock_layout lckdev_queue lckd_dev lock_nodes.
Proof.
  intros [H1 H2 H3]. split; [done|..].
  - intros n i Hn Hi. apply node_addrs_elem in Hn; [|done]. destruct (H2 i Hi); unfold SIZEOF_lck_dev in Hn; lia.
  - intros n n' Hn Hn'. by apply (node_addrs_sep 32 lckdevs).
  - intros Hn. apply node_addrs_elem in Hn; [|done]. unfold NULL in Hn. lia.
Qed.

Lemma ready_inv s0 : lock_addresses -> xready s0 -> x_inv (mk_xsys s0 (fun _ => None) (fun _ _ => false)).
Proof.
  intros Ha (s1 & L & W & Hr & HW & HL & Hm & E). pose proof (array_layout Ha) as Hlay.
  assert (Hsep : lckdev_queue + 12 <= lckdevs \/ lckdevs + 32 * 16 <= lckdev_queue).
  { destruct (la_nodes Ha (-1)) as [Hn|Hn]; [unfold idx; lia|right|left]; exact Hn. }
  pose proof (initmap_spec _ _ _ Hlay lckdevs eq_refl Hsep s1 (fun _ => (0, 0)) Hm) as Hi.
  unfold wp in Hi. rewrite E in Hi. destruct Hi as (Hd & Hq & Hf).
  exists L, W, (first_queues lock_nodes), (fun _ => (0, 0)). split; cbn [x_st x_pend x_holds]; try done.
  - split; [by eapply rest_dev|done|done|by rewrite HW| |done].
    intros c n Hc. unfold first_queues. destruct (Z.eqb_spec c (-1)); [lia|]. by intros ?%not_elem_of_nil.
  - intros t. rewrite HW. by intros ?%not_elem_of_nil.
  - intros c Hc. rewrite Hf by done. by split; [|intros [? ?] ].
  - intros c Hc _. unfold first_queues. by destruct (Z.eqb_spec c (-1)); [lia|].
Qed.

Lemma x_reach_inv s0 y : lock_addresses -> xready s0 -> xreach s0 y -> x_inv y.
Proof.
  intros Ha H0. pose proof (array_layout Ha) as Hlay.
  induction 1 as [|y c y' Hy IH Hp Hc Hs|y c k y' Hy IH Hp Hs]; [by apply ready_inv|..].
  - eapply x_call_inv; done.
  - eapply x_resume_inv; done.
Qed.

(** C18. A channel of the EXI bus is locked exactly while a thread holds it, and
    at most one thread holds it, whatever threads do with [EXI_LockSync] and
    [EXI_Unlock] in any order of scheduling. *)
Theorem exi_channel_exclusive s0 y c :
  lock_addresses -> xready s0 -> xreach s0 y -> 0 <= c < 3 ->
  (chn_locked (x_st y) c = true <-> exists t, x_holds y t c = true) /\
  (forall t t', x_holds y t c = true -> x_holds y t' c = true -> t = t').
Proof.
  intros Ha H0 Hy Hc. destruct (x_reach_inv s0 y Ha H0 Hy) as (L & W & Q & req & Hi).
  split; [by apply (xi_holds _ _ _ _ _ _ _ _ _ _ Hi)|]. intros t t'. apply (xi_once _ _ _ _ _ _ _ _ _ _ Hi).
Qed.

(** C19. No wake-up is lost: while a thread sleeps in [EXI_LockSync], the channel
    it waits for is locked, or another thread that wants the channel is awake
    and will try to lock it. A thread that sleeps in the queue of the driver
    waits for one of the channels. *)
Theorem exi_no_lost_wakeup s0 y t :
  lock_addresses -> xready s0 -> xreach s0 y -> t ∈ threads (x_st y) -> k_wq (x_st y) t = Some exi_sync_queue ->
  exists c, 0 <= c < 3 /\ wants (x_pend y) t c /\
    (chn_locked (x_st y) c = true \/ exists t', wants (x_pend y) t' c /\ k_wq (x_st y) t' <> Some exi_sync_queue).
Proof.
  intros Ha H0 Hy Ht Hq. destruct (x_reach_inv s0 y Ha H0 Hy) as (L & W & Q & req & Hi).
  pose proof (xi_core _ _ _ _ _ _ _ _ _ _ Hi) as Hx. pose proof (xc_rest _ _ _ _ _ _ _ _ _ Hx) as Hr.
  rewrite (rest_threads _ _ _ _ Hr) in Ht. pose proof (proj1 (proj1 (r_sound _ _ _ _ Hr))) as Hk.
  assert (Hin : t ∈ W exi_sync_queue) by (apply (w_in _ _ (ki_waits _ _ _ Hk)); split; [by apply (ki_valid _ _ _ Hk)|done]).
  destruct (xi_sleep _ _ _ _ _ _ _ _ _ _ Hi t Hin) as [c Hw]. pose proof Hw as (n & d & k & E).
  destruct (xi_pend _ _ _ _ _ _ _ _ _ _ Hi t _ _ E) as (Hc & Hd & _ & _ & _ & Htok). specialize (Htok Hin).
  exists c. split; [done|]. split; [done|]. destruct (chn_locked (x_st y) c) eqn:El; [by left|right].
  assert (HQ : Q c <> []).
  { assert (Hreq : lock_token c d ∈ requests Q req).
    { rewrite <- (xc_tokens _ _ _ _ _ _ _ _ _ Hx), <- Htok. apply list_elem_of_In, in_map, list_elem_of_In, Hin. }
    apply in_requests in Hreq as (c' & x & Hc' & Hx' & Etok).
    apply lock_token_inj in Etok as [-> _]; try lia; [|apply (xc_cb _ _ _ _ _ _ _ _ _ Hx c' x); done].
    intros EQ. rewrite EQ in Hx'. by apply not_elem_of_nil in Hx'. }
  destruct (xi_wake _ _ _ _ _ _ _ _ _ _ Hi c Hc El HQ) as (t' & Hw' & Hn). exists t'. split; [done|].
  intros Hq'. apply Hn, (w_in _ _ (ki_waits _ _ _ Hk)). split; [|done]. destruct Hw' as (? & ? & ? & E').
  by apply (xi_pend _ _ _ _ _ _ _ _ _ _ Hi t' _ _ E').
Qed.


End Theorems.
