(* ===== verification/ExiXfer.v ===== *)
(** * The EXI bus: transfers

    What a device sees of a transfer is the sequence of accesses to the transfer
    registers of its channel. This file reads this sequence as the bytes that go
    to the device, the bytes that come from it and the blocks moved by DMA, and
    shows that [EXI_ImmEx] and [EXI_Transfer] move exactly the bytes of the
    buffer, in order. *)

From stdpp Require Import base gmap list fin_maps.
From Stdlib Require Import ZArith Lia.
From S2P Require Import Prelude Chain LwpQueue Devices KState KTick KThread KLists KSched KSound KMailbox KSystem KCalls Clock Irq Exi ExiLock.

Open Scope Z_scope.

(** ** Traffic *)

Inductive piece :=
| POut (b : Z)                     (* a byte to the device *)
| PIn (b : Z)                      (* a byte from the device *)
| PDma (addr len mode : Z).        (* a block of memory *)

Record decoder := mk_dec { d_data : Z; d_addr : Z; d_len : Z; d_cr : Z; d_pieces : list piece }.

Definition word_bytes (v : Z) : list Z := [byte_of v 0; byte_of v 1; byte_of v 2; byte_of v 3].
(** The fields of the control register: number of bytes and direction. *)
Definition cr_len (cr : Z) : Z := Z.land (Z.shiftr cr 4) 3 + 1.
Definition cr_mode (cr : Z) : Z := Z.land (Z.shiftr cr 2) 3.

Section Traffic.
Context (c : Z).

Definition outgoing (cr v : Z) : list piece :=
  if cr_mode cr =? EXI_READ then [] else map POut (take (Z.to_nat (cr_len cr)) (word_bytes v)).
Definition incoming (cr v : Z) : list piece :=
  if cr_mode cr =? EXI_WRITE then [] else map PIn (take (Z.to_nat (cr_len cr)) (word_bytes v)).

Definition dec_step (d : decoder) (ev : regev) : decoder :=
  match ev with
  | WrReg r v =>
      if r =? c * 5 + 4 then mk_dec v (d_addr d) (d_len d) (d_cr d) (d_pieces d)
      else if r =? c * 5 + 3 then
        mk_dec (d_data d) (d_addr d) (d_len d) v
          (d_pieces d ++ if tst v 2 then [PDma (d_addr d) (d_len d) (cr_mode v)] else outgoing v (d_data d))
      else if r =? c * 5 + 1 then mk_dec (d_data d) v (d_len d) (d_cr d) (d_pieces d)
      else if r =? c * 5 + 2 then mk_dec (d_data d) (d_addr d) v (d_cr d) (d_pieces d)
      else d
  | RdReg r v =>
      if r =? c * 5 + 4 then mk_dec (d_data d) (d_addr d) (d_len d) (d_cr d) (d_pieces d ++ incoming (d_cr d) v) else d
  end.
Definition decode (log : list regev) : decoder := fold_left dec_step log (mk_dec 0 0 0 0 []).
Definition traffic (log : list regev) : list piece := d_pieces (decode log).

Lemma decode_app l ev : decode (l ++ [ev]) = dec_step (decode l) ev.
Proof. unfold decode. by rewrite fold_left_app. Qed.
End Traffic.

(** The bytes of a list of pieces, by direction, and the blocks. *)
Definition outs (X : list piece) : list Z := omap (fun p => match p with POut b => Some b | _ => None end) X.
Definition ins (X : list piece) : list Z := omap (fun p => match p with PIn b => Some b | _ => None end) X.
Definition blocks (X : list piece) : list (Z * Z * Z) := omap (fun p => match p with PDma a n m => Some (a, n, m) | _ => None end) X.

(** ** Bytes of a word *)

Definition is_byte (b : Z) : Prop := 0 <= b < 256.

Lemma byte_bits v i n : 0 <= i < 4 -> 0 <= n < 8 -> Z.testbit (byte_of v i) n = Z.testbit v ((3 - i) * 8 + n).
Proof.
  intros Hi Hn. unfold byte_of. change 0xff with (Z.ones 8). rewrite Z.land_ones, Z.mod_pow2_bits_low, Z.shiftr_spec by lia.
  f_equal. lia.
Qed.

Lemma byte_range v i : is_byte (byte_of v i).
Proof. unfold byte_of, is_byte. change 0xff with (Z.ones 8). rewrite Z.land_ones by lia. apply Z.mod_pos_bound. lia. Qed.

Lemma byte_ext x y : is_byte x -> is_byte y -> (forall n, 0 <= n < 8 -> Z.testbit x n = Z.testbit y n) -> x = y.
Proof.
  unfold is_byte. intros Hx Hy H. apply Z.bits_inj'. intros n Hn. destruct (Z_lt_le_dec n 8); [auto|].
  rewrite <- (Z.mod_small x (2 ^ 8)), <- (Z.mod_small y (2 ^ 8)) by lia. by rewrite !Z.mod_pow2_bits_high by lia.
Qed.

(** A byte put into a word whose place for it is empty. *)
Lemma byte_put v b i j :
  is_byte b -> 0 <= i < 4 -> 0 <= j < 4 -> byte_of v i = 0 ->
  byte_of (Z.lor v (Z.shiftl b ((3 - i) * 8))) j = if j =? i then b else byte_of v j.
Proof.
  intros Hb Hi Hj H0. apply byte_ext; [apply byte_range|destruct (j =? i); [done|apply byte_range]|].
  intros n Hn. rewrite byte_bits, Z.lor_spec, Z.shiftl_spec by lia. destruct (Z.eqb_spec j i) as [->|Hne].
  - rewrite <- byte_bits, H0, Z.bits_0 by done. cbn [orb]. f_equal. lia.
  - rewrite byte_bits by done. assert (E : Z.testbit b ((3 - j) * 8 + n - (3 - i) * 8) = false); [|by rewrite E, orb_false_r].
    destruct (Z_lt_le_dec ((3 - j) * 8 + n - (3 - i) * 8) 0); [by apply Z.testbit_neg_r|].
    rewrite <- (Z.mod_small b (2 ^ 8)) by (unfold is_byte in Hb; lia). apply Z.mod_pow2_bits_high. lia.
Qed.

(** The word that [EXI_Imm] packs from bytes. *)
Fixpoint pack (bs : list Z) (i v : Z) : Z :=
  match bs with [] => v | b :: bs => pack bs (i + 1) (Z.lor v (Z.shiftl b ((3 - i) * 8))) end.

Lemma pack_bytes bs i v :
  Forall is_byte bs -> 0 <= i -> i + Z.of_nat (length bs) <= 4 -> (forall j, i <= j < 4 -> byte_of v j = 0) ->
  forall j, 0 <= j < 4 -> byte_of (pack bs i v) j =
    if (i <=? j) && (j <? i + Z.of_nat (length bs)) then nth (Z.to_nat (j - i)) bs 0 else byte_of v j.
Proof.
  intros Hbs. revert i v. induction Hbs as [|b bs Hb Hbs IH]; intros i v Hi Hn Hz j Hj; cbn [pack length] in *.
  - replace ((i <=? j) && (j <? i + Z.of_nat 0)) with false; [done|]. symmetry. apply andb_false_iff.
    destruct (Z.leb_spec i j); [right; apply Z.ltb_ge|left]; lia.
  - rewrite IH; [|lia|lia| |done].
    + rewrite byte_put by (try done; try lia; apply Hz; lia). destruct (Z.eqb_spec j i) as [->|Hne].
      * rewrite Z.sub_diag. destruct (Z.leb_spec (i + 1) i), (Z.leb_spec i i), (Z.ltb_spec i (i + Z.of_nat (S (length bs)))); try lia. done.
      * destruct (Z.leb_spec (i + 1) j), (Z.leb_spec i j), (Z.ltb_spec j (i + 1 + Z.of_nat (length bs))),
          (Z.ltb_spec j (i + Z.of_nat (S (length bs)))); try lia; try done. cbn [andb].
        by replace (Z.to_nat (j - i)) with (S (Z.to_nat (j - (i + 1)))) by lia.
    + intros k Hk. rewrite byte_put by (try done; try lia; apply Hz; lia). destruct (Z.eqb_spec k i); [lia|]. apply Hz. lia.
Qed.

Lemma word_bytes_pack bs : Forall is_byte bs -> (length bs <= 4)%nat -> take (length bs) (word_bytes (pack bs 0 0)) = bs.
Proof.
  intros Hbs Hn. assert (E : word_bytes (pack bs 0 0) = map (fun j => nth j bs 0) [0; 1; 2; 3]%nat).
  { assert (Hp := pack_bytes bs 0 0 Hbs ltac:(lia) ltac:(lia) (fun j _ => ltac:(unfold byte_of; by rewrite Z.shiftr_0_l))).
    unfold word_bytes. cbn [map]. rewrite !Hp by lia. clear Hbs Hp.
    destruct bs as [|? [|? [|? [|? [|] ] ] ] ]; simpl in Hn; try lia; reflexivity. }
  rewrite E. destruct bs as [|? [|? [|? [|? [|] ] ] ] ]; simpl in Hn; try lia; reflexivity.
Qed.

(** ** One chunk *)

(** The bytes at an address. *)
Fixpoint bytes_at (ram : gmap Z Z) (a : Z) (bs : list Z) : Prop :=
  match bs with [] => True | b :: bs => ram !! a = Some b /\ bytes_at ram (a + 1) bs end.
Fixpoint put_bytes (a : Z) (bs : list Z) (ram : gmap Z Z) : gmap Z Z :=
  match bs with [] => ram | b :: bs => put_bytes (a + 1) bs (<[a := b]> ram) end.
Definition mapped_at (ram : gmap Z Z) (a n : Z) : Prop := forall i, 0 <= i < n -> is_Some (ram !! (a + i)).

Lemma put_dom bs a ram w : is_Some (ram !! w) -> is_Some (put_bytes a bs ram !! w).
Proof. revert a ram. induction bs as [|b bs IH]; intros a ram Hw; [done|]. apply IH, lookup_insert_is_Some'. by right. Qed.

Lemma put_app a bs bs' ram : put_bytes a (bs ++ bs') ram = put_bytes (a + Z.of_nat (length bs)) bs' (put_bytes a bs ram).
Proof.
  revert a ram. induction bs as [|b bs IH]; intros a ram; cbn [app put_bytes length]; [by rewrite Z.add_0_r|].
  rewrite IH. f_equal. lia.
Qed.

Lemma bytes_at_app ram a bs bs' : bytes_at ram a (bs ++ bs') <-> bytes_at ram a bs /\ bytes_at ram (a + Z.of_nat (length bs)) bs'.
Proof.
  revert a. induction bs as [|b bs IH]; intros a; cbn [app bytes_at length]; [rewrite Z.add_0_r; tauto|].
  rewrite IH. replace (a + 1 + Z.of_nat (length bs)) with (a + Z.of_nat (S (length bs))) by lia. tauto.
Qed.

Lemma put_other bs a ram w : w < a \/ a + Z.of_nat (length bs) <= w -> put_bytes a bs ram !! w = ram !! w.
Proof.
  revert a ram. induction bs as [|b bs IH]; intros a ram Hw; cbn [put_bytes length] in *; [done|].
  rewrite IH by lia. apply lookup_insert_ne. lia.
Qed.

Lemma bytes_at_ext bs a ram ram' :
  (forall w, a <= w < a + Z.of_nat (length bs) -> ram' !! w = ram !! w) -> bytes_at ram a bs -> bytes_at ram' a bs.
Proof.
  revert a. induction bs as [|b bs IH]; intros a Hw; [done|]. cbn [bytes_at length] in *. intros [H1 H2]. split; [by rewrite Hw by lia|].
  apply IH; [|done]. intros w Hw'. apply Hw. lia.
Qed.

Lemma bytes_at_mapped bs a ram : bytes_at ram a bs -> mapped_at ram a (Z.of_nat (length bs)).
Proof.
  revert a. induction bs as [|b bs IH]; intros a; cbn [bytes_at length]; [intros _ i; lia|].
  intros [H1 H2] i Hi. destruct (decide (i = 0)) as [->|Hne]; [rewrite Z.add_0_r; eauto|].
  replace (a + i) with (a + 1 + (i - 1)) by lia. apply IH; [done|lia].
Qed.

Definition xlog (s : kst) : list regev := ex_log (k_exi s).
Definition xram (s : kst) : gmap Z Z := ex_ram (k_exi s).
Definition xfl (s : kst) (c : Z) : Z := flags (ex_map (k_exi s) c).
Definition xmode (m : Z) : Prop := m = EXI_READ \/ m = EXI_WRITE \/ m = EXI_READWRITE.
(** A device of the channel is selected and no transfer is under way. *)
Definition can_transfer (s : kst) (c : Z) : Prop := 0 <= c < 3 /\ cannot_transfer (xfl s c) = false.

Section Imm.
Context `{ExiHw}.
Context (con : console).

Lemma pack_loop_spec n buf i v s bs :
  length bs = n -> bytes_at (xram s) (buf + i) bs -> wp (pack_loop n buf i v) (fun r s' => s' = s /\ r = pack bs i v) s.
Proof.
  revert bs i v. induction n as [|n IH]; intros [|b bs] i v Hl Hb; try done; cbn [pack_loop pack].
  destruct Hb as [Hb Hbs]. apply wp_bind. eapply wp_getopt; [exact Hb|]. apply (IH bs); [by injection Hl|].
  by rewrite Z.add_assoc.
Qed.

Lemma set_ram_id s : set_exi (set_ram (xram s) (k_exi s)) s = s.
Proof. destruct s. unfold xram. simpl. by destruct k_exi. Qed.

Lemma unpack_loop_spec n buf v i s :
  mapped_at (xram s) (buf + i) (Z.of_nat n) ->
  wp (unpack_loop n buf v i)
    (fun _ s' => s' = set_exi (set_ram (put_bytes (buf + i) (map (fun j => byte_of v (i + Z.of_nat j)) (seq 0 n)) (xram s)) (k_exi s)) s) s.
Proof.
  revert i s. induction n as [|n IH]; intros i s Hm; cbn [unpack_loop]; [apply wp_ret; symmetry; apply set_ram_id|].
  apply wp_bind. unfold wp at 1, wr_byte. change (ex_ram (k_exi s)) with (xram s). destruct (Hm 0) as [x Hx]; [lia|]. rewrite Z.add_0_r in Hx. rewrite Hx.
  eapply wp_mono; [apply IH|].
  - intros j Hj. apply lookup_insert_is_Some'. right. replace (buf + (i + 1) + j) with (buf + i + (j + 1)) by lia. apply Hm. lia.
  - cbv beta. intros _ s' ->. cbn [seq map put_bytes]. rewrite Z.add_0_r, <- seq_shift, map_map. unfold xram. esimpl.
    rewrite Z.add_assoc. erewrite map_ext; [reflexivity|]. intros j. cbv beta. f_equal. lia.
Qed.
(** The control word of a transfer of at most four bytes. *)
Lemma imm_cr n mode : 1 <= n <= 4 -> xmode mode ->
  let cr := Z.lor (Z.shiftl (Z.land (u32 (n - 1)) 3) 4) (Z.lor (Z.shiftl (Z.land mode 3) 2) 1) in
  cr_len cr = n /\ cr_mode cr = mode /\ tst cr 2 = false.
Proof.
  intros Hn Hm. assert (n = 1 \/ n = 2 \/ n = 3 \/ n = 4) as [->|[->|[->| ->] ] ] by lia;
    destruct Hm as [->|[->| ->] ]; by vm_compute.
Qed.

Lemma decode_imm c log w cr :
  tst cr 2 = false ->
  decode c ((log ++ [WrReg (c * 5 + 4) w]) ++ [WrReg (c * 5 + 3) cr]) =
    mk_dec w (d_addr (decode c log)) (d_len (decode c log)) cr (traffic c log ++ outgoing cr w).
Proof.
  intros Hcr. rewrite !decode_app. cbn [dec_step]. rewrite Z.eqb_refl.
  destruct (Z.eqb_spec (c * 5 + 3) (c * 5 + 4)); [lia|]. rewrite Z.eqb_refl, Hcr. done.
Qed.

(** What the driver has after it started a transfer and before it is done. *)
Definition under_way (s s' : kst) (c buf n mode : Z) (bs : list Z) : Prop :=
  dev_step s s' /\ xram s' = xram s /\
  traffic c (xlog s') = traffic c (xlog s) ++ (if mode =? EXI_READ then [] else map POut bs) /\
  cr_len (d_cr (decode c (xlog s'))) = n /\ cr_mode (d_cr (decode c (xlog s'))) = mode /\
  xfl s' c = Z.lor (xfl s c) EXI_FLAG_IMM /\
  imm_len (ex_map (k_exi s') c) = (if mode =? EXI_WRITE then 0 else n) /\ imm_buff (ex_map (k_exi s') c) = buf.

Lemma imm_spec s c buf n mode bs :
  can_transfer s c -> 1 <= n <= 4 -> xmode mode ->
  (mode <> EXI_READ -> Z.of_nat (length bs) = n /\ Forall is_byte bs /\ bytes_at (xram s) buf bs) ->
  wp (EXI_Imm con c buf n mode NULL) (fun r s' => r = 1 /\ under_way s s' c buf n mode bs) s.
Proof.
  intros [Hc Hcan] Hn Hm Hbs. destruct (imm_cr n mode Hn Hm) as (C1 & C2 & C3). cbv zeta in *.
  unfold EXI_Imm. estep. apply wp_irq_lock. intros st Hst _. set (m := Z.ldiff _ _).
  assert (Hri : Z.land m MSR_RI = Z.land (k_msr s) MSR_RI) by apply irq_off.
  estep. estep. esimpl. unfold xfl in Hcan. rewrite Hcan. unfold arm_tc. change (NULL =? NULL) with true. cbn [negb when].
  erun. match goal with |- wp _ _ ?x => set (s1 := x) end.
  assert (E1 : exists M, s1 = set_msr m (set_exi (set_map M (k_exi s)) s) /\ flags (M c) = Z.lor (xfl s c) EXI_FLAG_IMM /\
    imm_len (M c) = n /\ imm_buff (M c) = buf).
  { exists (ex_map (k_exi s1)). split; [reflexivity|]. unfold s1. esimpl. rewrite !fupd_eq. done. }
  clearbody s1. destruct E1 as (M & -> & M1 & M2 & M3).
  apply (wp_mono _ (fun v s' => s' = set_msr m (set_exi (set_map M (k_exi s)) s) /\
    (mode <> EXI_READ -> take (Z.to_nat n) (word_bytes v) = bs))).
  { destruct (Z.eqb_spec mode EXI_READ) as [->|Hr]; cbn [negb]; [by apply wp_ret|]. destruct (Hbs Hr) as (B1 & B2 & B3).
    eapply wp_mono; [apply (pack_loop_spec _ _ _ _ _ bs); [lia|by rewrite Z.add_0_r]|]. cbv beta. intros v s' [-> ->].
    split; [done|]. intros _. replace (Z.to_nat n) with (length bs) by lia. apply word_bytes_pack; [done|lia]. }
  cbv beta. intros w s1 [-> Hw]. set (M' := if mode =? EXI_WRITE then fupd M c (set_imm 0 buf (M c)) else M).
  apply wp_bind, (wp_mono _ (fun _ s' => s' = set_msr m (set_exi (set_map M' (k_exi s)) s))).
  { unfold M'. destruct (mode =? EXI_WRITE); cbn [when]; [|by apply wp_ret]. erun. esimpl. rewrite M3. reflexivity. }
  intros _ s1 ->. assert (M4 : flags (M' c) = flags (M c) /\ imm_len (M' c) = (if mode =? EXI_WRITE then 0 else n) /\ imm_buff (M' c) = buf).
  { unfold M'. destruct (mode =? EXI_WRITE); [rewrite fupd_eq|]; done. }
  set (cr := Z.lor _ _) in *. set (log' := (xlog s ++ [WrReg (c * 5 + 4) w]) ++ [WrReg (c * 5 + 3) cr]).
  unfold wr_reg. erun. apply wp_irq_unlock, wp_ret. split; [done|]. match goal with |- under_way _ ?x _ _ _ _ _ => set (s2 := x) end.
  assert (E2 : exists m2, s2 = set_msr m2 (set_exi (set_log log' (set_map M' (k_exi s))) s) /\ Z.land m2 MSR_RI = Z.land (k_msr s) MSR_RI).
  { eexists. split; [reflexivity|]. rewrite irq_msr by done. exact Hri. }
  clearbody s2. destruct E2 as (m2 & -> & Hm2). pose proof (decode_imm c (xlog s) w cr C3) as D. fold log' in D.
  unfold outgoing in D. rewrite C1, C2 in D. unfold under_way, traffic, xlog, xram, xfl in *. esimpl. rewrite D. cbn [d_cr d_pieces].
  destruct M4 as (M4 & M5 & M6). rewrite M4, M5, M6, M1, C1, C2. split; [|split_and!; try done].
  - eapply dev_step_trans; [apply dev_step_exi|by apply dev_step_msr].
  - destruct (Z.eqb_spec mode EXI_READ) as [|Hr]; [done|]. by rewrite Hw.
Qed.
(** The log once the transfer control register says that the transfer is over. *)
Fixpoint polled (c : Z) (n : nat) (log : list regev) : option (list regev) :=
  match n with
  | O => None
  | S n => let v := reg_read log (c * 5 + 3) in let log' := log ++ [RdReg (c * 5 + 3) v] in
           if tst v 1 then polled c n log' else Some log'
  end.

Lemma polled_decode c n log log' : polled c n log = Some log' -> decode c log' = decode c log.
Proof.
  revert log. induction n as [|n IH]; intros log; [done|]. cbn [polled]. set (ev := RdReg _ _).
  assert (E : decode c (log ++ [ev]) = decode c log).
  { rewrite decode_app. unfold ev. cbn [dec_step]. destruct (Z.eqb_spec (c * 5 + 3) (c * 5 + 4)); [lia|done]. }
  case_match; [intros Hp%IH; congruence|]. by intros [= <-].
Qed.

(** The bytes a finished transfer leaves in the buffer. *)
Definition stored (s s' : kst) (c : Z) (log1 : list regev) : Prop :=
  let b := ex_map (k_exi s) c in
  if tst (flags b) EXI_FLAG_IMM && (negb (imm_buff b =? NULL) && (0 <? imm_len b))
  then exists v, xlog s' = log1 ++ [RdReg (c * 5 + 4) v] /\
    xram s' = put_bytes (imm_buff b) (map (fun j => byte_of v (Z.of_nat j)) (seq 0 (Z.to_nat (imm_len b)))) (xram s)
  else xlog s' = log1 /\ xram s' = xram s.

Lemma complete_spec s c :
  0 <= c < 3 -> tst (xfl s c) (Z.lor EXI_FLAG_DMA EXI_FLAG_IMM) = true ->
  mapped_at (xram s) (imm_buff (ex_map (k_exi s) c)) (imm_len (ex_map (k_exi s) c)) ->
  wp (exi_completetransfer c) (fun _ s' => (exists e, s' = set_exi e s) /\
    xfl s' c = Z.ldiff (xfl s c) (Z.lor EXI_FLAG_DMA EXI_FLAG_IMM) /\ stored s s' c (xlog s)) s.
Proof.
  intros Hc Hfl Hm. unfold exi_completetransfer, stored. estep. estep. unfold xfl in *. rewrite Hfl. cbn [negb].
  destruct (tst (flags (ex_map (k_exi s) c)) EXI_FLAG_IMM); cbn [when andb].
  - erun. destruct (negb (imm_buff (ex_map (k_exi s) c) =? NULL) && (0 <? imm_len (ex_map (k_exi s) c))) eqn:E; cbn [when].
    + unfold rd_reg. erun. apply andb_prop in E as [_ E%Z.ltb_lt].
      eapply wp_mono; [apply unpack_loop_spec; rewrite Z.add_0_r, Z2Nat.id by lia; exact Hm|]. cbv beta. intros _ s1 ->.
      erun. split; [eexists; reflexivity|]. split; [esimpl; by rewrite fupd_eq|]. eexists. split; [reflexivity|].
      unfold xram. esimpl. by rewrite Z.add_0_r.
    + erun. split; [eexists; reflexivity|]. split; [esimpl; by rewrite fupd_eq|done].
  - erun. split; [eexists; reflexivity|]. split; [esimpl; by rewrite fupd_eq|done].
Qed.

Lemma sync_spec n s c log1 :
  0 <= c < 3 -> tst (xfl s c) EXI_FLAG_SELECT = true -> tst (xfl s c) (Z.lor EXI_FLAG_DMA EXI_FLAG_IMM) = true ->
  polled c n (xlog s) = Some log1 ->
  mapped_at (xram s) (imm_buff (ex_map (k_exi s) c)) (imm_len (ex_map (k_exi s) c)) ->
  wp (EXI_Sync n c) (fun r s' => r = 1 /\ dev_step s s' /\
    xfl s' c = Z.ldiff (xfl s c) (Z.lor EXI_FLAG_DMA EXI_FLAG_IMM) /\ stored s s' c log1) s.
Proof.
  intros Hc. revert s. induction n as [|n IH]; intros s Hsel Hfl Hp Hm; [done|]. cbn [EXI_Sync polled] in *.
  unfold xfl in *. estep. estep. rewrite Hsel. cbn [negb]. unfold rd_reg. erun. change (ex_log (k_exi s)) with (xlog s).
  destruct (tst (reg_read (xlog s) (c * 5 + 3)) 1).
  - eapply wp_mono; [apply IH; done|]. cbv beta. intros r s' (H1 & H2 & H3 & H4). split; [done|]. split; [|by split].
    eapply dev_step_trans; [apply dev_step_exi|exact H2].
  - injection Hp as <-. estep. apply wp_irq_lock. intros st Hst _. match goal with |- wp _ _ ?x => set (s1 := x) end.
    assert (E1 : s1 = set_msr (k_msr s1) (set_exi (set_log (xlog s ++ [RdReg (c * 5 + 3) (reg_read (xlog s) (c * 5 + 3))]) (k_exi s)) s) /\
      Z.land (k_msr s1) MSR_RI = Z.land (k_msr s) MSR_RI) by (split; [reflexivity|apply irq_off]).
    clearbody s1. destruct E1 as [-> Hri]. ksimpl in Hri. estep. estep. esimpl. rewrite Hsel.
    estep. estep. eapply wp_mono; [by apply complete_spec|]. cbv beta. intros _ s2 ([e ->] & H2 & H3).
    erun. apply wp_irq_unlock, wp_ret. split; [done|]. split; [|by split].
    eapply dev_step_trans; [|apply dev_step_msr; by rewrite irq_msr].
    eapply dev_step_trans; [|apply dev_step_exi]. eapply dev_step_trans; [apply dev_step_exi|by apply dev_step_msr].
Qed.
(** ** [EXI_ImmEx] *)

(** From [s] to [s'] the bytes [bs] went from the buffer to the device and the
    bytes [vs] from the device to the buffer, as far as the mode has it. *)
Definition moved (s s' : kst) (c buf mode : Z) (bs vs : list Z) : Prop :=
  dev_step s s' /\ xfl s' c = xfl s c /\
  xram s' = (if mode =? EXI_WRITE then xram s else put_bytes buf vs (xram s)) /\
  exists X, traffic c (xlog s') = traffic c (xlog s) ++ X /\ blocks X = [] /\
    outs X = (if mode =? EXI_READ then [] else bs) /\ ins X = (if mode =? EXI_WRITE then [] else vs).

Lemma outs_app X Y : outs (X ++ Y) = outs X ++ outs Y. Proof. apply omap_app. Qed.
Lemma ins_app X Y : ins (X ++ Y) = ins X ++ ins Y. Proof. apply omap_app. Qed.
Lemma blocks_app X Y : blocks (X ++ Y) = blocks X ++ blocks Y. Proof. apply omap_app. Qed.

Lemma moved_trans s1 s2 s3 c buf mode bs1 bs2 vs1 vs2 :
  moved s1 s2 c buf mode bs1 vs1 -> moved s2 s3 c (buf + Z.of_nat (length vs1)) mode bs2 vs2 ->
  moved s1 s3 c buf mode (bs1 ++ bs2) (vs1 ++ vs2).
Proof.
  intros (A1 & A2 & A3 & X & A4 & A5 & A6 & A7) (B1 & B2 & B3 & Y & B4 & B5 & B6 & B7).
  split; [by eapply dev_step_trans|]. split; [congruence|]. split; [rewrite B3, A3; destruct (mode =? EXI_WRITE); by rewrite ?put_app|].
  exists (X ++ Y). rewrite B4, A4, app_assoc, blocks_app, outs_app, ins_app, A5, A6, A7, B5, B6, B7.
  split; [done|]. split; [done|]. by destruct (mode =? EXI_READ), (mode =? EXI_WRITE).
Qed.

(** Every transfer ends within [polls] readings of the control register. *)
Context (polls : nat).
Definition device_answers (c : Z) : Prop := forall log, is_Some (polled c polls log).

Lemma tst_lor x y m : tst (Z.lor x y) m = tst x m || tst y m.
Proof.
  unfold tst. rewrite Z.land_lor_distr_l, <- negb_andb. f_equal.
  destruct (Z.eqb_spec (Z.land x m) 0) as [->|Hx]; [by rewrite Z.lor_0_l|]. cbn [andb].
  apply Z.eqb_neq. intros [? _]%Z.lor_eq_0_iff. done.
Qed.

Lemma tst_lor_r x m m' : tst x (Z.lor m m') = tst x m || tst x m'.
Proof. unfold tst. rewrite !(Z.land_comm x). apply (tst_lor m m' x). Qed.

Lemma flags_start f m :
  cannot_transfer f = false -> m = EXI_FLAG_IMM \/ m = EXI_FLAG_DMA ->
  tst (Z.lor f m) EXI_FLAG_SELECT = true /\ tst (Z.lor f m) (Z.lor EXI_FLAG_DMA EXI_FLAG_IMM) = true /\
  tst (Z.lor f m) EXI_FLAG_IMM = (m =? EXI_FLAG_IMM) /\ Z.ldiff (Z.lor f m) (Z.lor EXI_FLAG_DMA EXI_FLAG_IMM) = f.
Proof.
  unfold cannot_transfer. intros [H1 H2]%orb_false_iff Hm. apply negb_false_iff in H2.
  pose proof H1 as H3. rewrite tst_lor_r in H3. apply orb_false_iff in H3 as [_ H3].
  rewrite !tst_lor, H1, H2, H3. split; [done|]. split; [by destruct Hm as [->| ->]|]. split; [by destruct Hm as [->| ->]|].
  unfold tst in H1. apply negb_false_iff, Z.eqb_eq in H1. apply Z.bits_inj'. intros n Hn.
  assert (E : Z.testbit (Z.land f (Z.lor EXI_FLAG_DMA EXI_FLAG_IMM)) n = false) by (rewrite H1; apply Z.bits_0).
  rewrite Z.land_spec in E. rewrite Z.ldiff_spec, Z.lor_spec.
  destruct (Z.testbit (Z.lor EXI_FLAG_DMA EXI_FLAG_IMM) n) eqn:Ed; [by rewrite andb_true_r in E; rewrite E, andb_false_r|].
  rewrite andb_true_r. destruct (Z.testbit m n) eqn:Em; [|apply orb_false_r]. exfalso.
  rewrite Z.lor_spec in Ed. destruct Hm as [->| ->]; rewrite Em in Ed; by destruct (Z.testbit _ n).
Qed.

Lemma chunk_spec s c buf n mode bs :
  device_answers c -> can_transfer s c -> 1 <= n <= 4 -> xmode mode -> 0 < buf ->
  Z.of_nat (length bs) = n -> Forall is_byte bs -> bytes_at (xram s) buf bs ->
  wp (EXI_Imm con c buf n mode NULL) (fun r s1 => r = 1 /\ wp (EXI_Sync polls c) (fun r s' => r = 1 /\
    exists vs, length vs = length bs /\ Forall is_byte vs /\ moved s s' c buf mode bs vs) s1) s.
Proof.
  intros Hans Hcan Hn Hm Hbuf Hl Hb Hat. pose proof Hcan as [Hc Hf].
  eapply wp_mono; [by apply (imm_spec s c buf n mode bs)|]. cbv beta. intros r s1 [-> (D1 & R1 & T1 & L1 & M1 & F1 & I1 & B1)].
  split; [done|]. destruct (flags_start (xfl s c) EXI_FLAG_IMM Hf) as (F2 & F3 & F4 & F5); [by left|].
  destruct (Hans (xlog s1)) as [log1 Hp]. eapply wp_mono; [apply (sync_spec polls s1 c log1); try done; rewrite ?F1; try done|].
  { rewrite I1, B1, R1. rewrite <- Hl. destruct (mode =? EXI_WRITE); [intros i ?; lia|by apply bytes_at_mapped]. }
  cbv beta. intros r s2 (-> & D2 & F6 & St). split; [done|]. unfold stored in St. change (flags _) with (xfl s1 c) in St.
  rewrite F1, F4, I1, B1 in St. change (EXI_FLAG_IMM =? EXI_FLAG_IMM) with true in St. cbn [andb] in St.
  replace (buf =? NULL) with false in St by (symmetry; apply Z.eqb_neq; unfold NULL; lia). cbn [negb andb] in St.
  pose proof (polled_decode _ _ _ _ Hp) as Ed.
  assert (Hends : forall vs, length vs = length bs -> Forall is_byte vs ->
    xram s2 = (if mode =? EXI_WRITE then xram s else put_bytes buf vs (xram s)) ->
    traffic c (xlog s2) = traffic c (xlog s1) ++ (if mode =? EXI_WRITE then [] else map PIn vs) ->
    exists vs, length vs = length bs /\ Forall is_byte vs /\ moved s s2 c buf mode bs vs).
  { intros vs Hv1 Hv2 Hr Ht. exists vs. split; [done|]. split; [done|]. split; [by eapply dev_step_trans|].
    split; [by rewrite F6, F1, F5|]. split; [done|]. rewrite T1, <- app_assoc in Ht. eexists. split; [exact Ht|].
    rewrite blocks_app, outs_app, ins_app. clear.
    assert (E : forall l, outs (map POut l) = l /\ ins (map POut l) = [] /\ blocks (map POut l) = [] /\
      outs (map PIn l) = [] /\ ins (map PIn l) = l /\ blocks (map PIn l) = []).
    { induction l as [|x l (I1 & I2 & I3 & I4 & I5 & I6)]; [done|]. unfold outs, ins, blocks in *. cbn [map omap list_omap].
      by rewrite I1, I2, I3, I4, I5, I6. }
    destruct (E bs) as (P1 & P2 & P3 & _), (E vs) as (_ & _ & _ & P4 & P5 & P6).
    destruct (mode =? EXI_READ), (mode =? EXI_WRITE); rewrite ?P1, ?P2, ?P3, ?P4, ?P5, ?P6, ?app_nil_r; done. }
  destruct (Z.eqb_spec mode EXI_WRITE) as [->|Hw].
  - destruct St as [St1 St2]. apply (Hends bs); try done; [by rewrite St2|]. unfold traffic. by rewrite St1, Ed, app_nil_r.
  - replace (0 <? n) with true in St by (symmetry; apply Z.ltb_lt; lia). destruct St as (v & St1 & St2).
    set (vs := map _ _) in St2. assert (Hv : vs = take (Z.to_nat n) (word_bytes v)).
    { unfold vs. assert (n = 1 \/ n = 2 \/ n = 3 \/ n = 4) as [->|[->|[->| ->] ] ] by lia; reflexivity. }
    apply (Hends vs).
    + unfold vs. rewrite length_map, length_seq. lia.
    + apply Forall_forall. intros x. rewrite list_elem_of_In. unfold vs. rewrite in_map_iff. intros (? & <- & _). apply byte_range.
    + by rewrite St2, R1.
    + unfold traffic. rewrite St1, decode_app, Ed. cbn [dec_step]. rewrite Z.eqb_refl. cbn [d_pieces]. f_equal.
      unfold incoming. rewrite L1, M1, (proj2 (Z.eqb_neq _ _) Hw), Hv. done.
Qed.
Lemma nothing_moved s c buf mode : moved s s c buf mode [] [].
Proof.
  split; [apply dev_step_refl|]. split; [done|]. split; [by destruct (mode =? EXI_WRITE)|]. exists []. rewrite app_nil_r.
  split; [done|]. split; [done|]. by destruct (mode =? EXI_READ), (mode =? EXI_WRITE).
Qed.

Lemma immex_spec fuel c buf mode r bs s :
  device_answers c -> can_transfer s c -> xmode mode -> 0 < buf -> Forall is_byte bs -> bytes_at (xram s) buf bs ->
  (length bs < fuel)%nat ->
  wp (immex_loop con polls fuel c buf (Z.of_nat (length bs)) mode r)
    (fun r' s' => r' = (if Z.of_nat (length bs) =? 0 then r else 1) /\
       exists vs, length vs = length bs /\ Forall is_byte vs /\ moved s s' c buf mode bs vs) s.
Proof.
  intros Hans. revert buf r bs s. induction fuel as [|fuel IH]; intros buf r bs s Hcan Hm Hbuf Hb Hat Hfuel; [lia|].
  cbn [immex_loop]. destruct (Z.eqb_spec (Z.of_nat (length bs)) 0) as [E0|E0].
  { apply wp_ret. destruct bs; [|done]. split; [done|]. exists []. split; [done|]. split; [done|]. apply nothing_moved. }
  set (tc := if 4 <? Z.of_nat (length bs) then 4 else Z.of_nat (length bs)).
  assert (Htc : 1 <= tc <= 4 /\ tc <= Z.of_nat (length bs)) by (unfold tc; destruct (Z.ltb_spec 4 (Z.of_nat (length bs))); lia).
  clearbody tc. rewrite <- (take_drop (Z.to_nat tc) bs) in Hb, Hat. set (b1 := take _ bs) in *. set (b2 := list.drop _ bs) in *.
  assert (Hl1 : Z.of_nat (length b1) = tc) by (unfold b1; rewrite length_take; lia).
  assert (Hl2 : Z.of_nat (length bs) - tc = Z.of_nat (length b2)) by (unfold b2; rewrite length_drop; lia).
  apply Forall_app in Hb as [Hb1 Hb2]. apply bytes_at_app in Hat as [Hat1 Hat2]. rewrite Hl1 in Hat2.
  apply wp_bind. eapply wp_mono; [apply (chunk_spec s c buf tc mode b1); try done; lia|]. cbv beta. intros x s1 [-> Hsync]. cbn [Z.eqb Pos.eqb].
  apply wp_bind. eapply wp_mono; [exact Hsync|]. cbv beta. intros y s2 (-> & v1 & Hv1 & Hv2 & Hmv). cbn [Z.eqb Pos.eqb].
  rewrite Hl2. eapply wp_mono; [apply (IH (buf + tc) 1 b2)|]; try done.
  - destruct Hcan as [Hc Hf]. split; [done|]. by rewrite (proj1 (proj2 Hmv)).
  - lia.
  - rewrite (proj1 (proj2 (proj2 Hmv))). destruct (mode =? EXI_WRITE); [done|].
    apply (bytes_at_ext _ _ (xram s)); [|done]. intros w Hw. apply put_other. lia.
  - unfold b2. rewrite length_drop. lia.
  - cbv beta. intros r' s' (-> & v2 & Hv3 & Hv4 & Hmv2). split; [by destruct (_ =? 0)|]. exists (v1 ++ v2).
    rewrite length_app, Hv1, Hv3. split; [lia|]. split; [by apply Forall_app|].
    rewrite <- (take_drop (Z.to_nat tc) bs). fold b1 b2. eapply moved_trans; [exact Hmv|]. by rewrite Hv1, Hl1.
Qed.

(** C21. [EXI_ImmEx] moves exactly the bytes of the buffer, in order and in
    chunks of at most four: the device receives the bytes that were there
    (unless it is only read), and the buffer then contains the bytes that the
    device sent (unless it is only written); nothing else of memory changes, the
    bus is left as it was, and the result is 1, or 0 for no bytes. *)
Theorem immex_exchanges s c buf mode bs :
  device_answers c -> can_transfer s c -> xmode mode -> 0 < buf -> Forall is_byte bs -> bytes_at (xram s) buf bs ->
  exists s' vs X, EXI_ImmEx con polls c buf (Z.of_nat (length bs)) mode s = Ok (if Z.of_nat (length bs) =? 0 then 0 else 1, s') /\
    length vs = length bs /\ traffic c (xlog s') = traffic c (xlog s) ++ X /\
    outs X = (if mode =? EXI_READ then [] else bs) /\ ins X = (if mode =? EXI_WRITE then [] else vs) /\ blocks X = [] /\
    xram s' = (if mode =? EXI_WRITE then xram s else put_bytes buf vs (xram s)) /\ can_transfer s' c.
Proof.
  intros Hans Hcan Hm Hbuf Hb Hat. pose proof (immex_spec (S (length bs)) c buf mode 0 bs s Hans Hcan Hm Hbuf Hb Hat (Nat.lt_succ_diag_r _)) as H'.
  unfold EXI_ImmEx. rewrite Nat2Z.id. unfold wp in H'. destruct (immex_loop _ _ _ _ _ _ _ _ s) as [ [r s']|]; [|done].
  destruct H' as (-> & vs & H1 & H2 & (D & F & R & X & T1 & T2 & T3 & T4)). exists s', vs, X. split; [done|].
  do 6 (split; [done|]). destruct Hcan as [Hc Hf]. split; [done|]. by rewrite F.
Qed.
(** ** [EXI_Transfer] *)

Lemma immex_wp c buf mode bs s :
  device_answers c -> can_transfer s c -> xmode mode -> 0 < buf -> Forall is_byte bs -> bytes_at (xram s) buf bs ->
  wp (EXI_ImmEx con polls c buf (Z.of_nat (length bs)) mode)
    (fun r' s' => r' = (if Z.of_nat (length bs) =? 0 then 0 else 1) /\
       exists vs, length vs = length bs /\ Forall is_byte vs /\ moved s s' c buf mode bs vs) s.
Proof. intros. unfold EXI_ImmEx. rewrite Nat2Z.id. apply immex_spec; try done. lia. Qed.

Lemma dma_cr mode : xmode mode ->
  let cr := Z.lor (Z.shiftl (Z.land mode 3) 2) 3 in cr_mode cr = mode /\ tst cr 2 = true.
Proof. intros [->|[->| ->] ]; by vm_compute. Qed.

Lemma decode_dma c log a n cr :
  tst cr 2 = true ->
  traffic c (((log ++ [WrReg (c * 5 + 1) a]) ++ [WrReg (c * 5 + 2) n]) ++ [WrReg (c * 5 + 3) cr]) =
    traffic c log ++ [PDma a n (cr_mode cr)].
Proof.
  intros Hcr. unfold traffic. rewrite !decode_app. cbn [dec_step].
  assert (N : forall i j, i <> j -> (c * 5 + i =? c * 5 + j) = false) by (intros i j Hij; apply Z.eqb_neq; lia).
  rewrite !Z.eqb_refl, !N by done. cbn [d_addr d_len d_pieces].
  by rewrite Hcr.
Qed.

Lemma dma_spec s c buf n mode :
  can_transfer s c -> xmode mode ->
  wp (EXI_Dma con c buf n mode NULL) (fun r s' => r = 1 /\ dev_step s s' /\ xram s' = xram s /\
    traffic c (xlog s') = traffic c (xlog s) ++ [PDma (Z.ldiff (MEM_VIRTUAL_TO_PHYSICAL buf) 0x1f) n mode] /\
    xfl s' c = Z.lor (xfl s c) EXI_FLAG_DMA /\ imm_len (ex_map (k_exi s') c) = 0) s.
Proof.
  intros [Hc Hcan] Hm. destruct (dma_cr mode Hm) as (C1 & C2). cbv zeta in *. set (cr := Z.lor _ _) in *.
  unfold EXI_Dma. estep. apply wp_irq_lock. intros st Hst _. set (m := Z.ldiff (k_msr s) _).
  assert (Hri : Z.land m MSR_RI = Z.land (k_msr s) MSR_RI) by apply irq_off.
  estep. estep. esimpl. unfold xfl in Hcan. rewrite Hcan. unfold arm_tc, wr_reg. change (NULL =? NULL) with true. cbn [negb when].
  erun. apply wp_irq_unlock, wp_ret. split; [done|]. match goal with |- dev_step _ ?x /\ _ => set (s2 := x) end.
  assert (E2 : exists M m2, s2 = set_msr m2 (set_exi (set_log (((xlog s ++ [WrReg (c * 5 + 1) (Z.ldiff (MEM_VIRTUAL_TO_PHYSICAL buf) 0x1f)]) ++
      [WrReg (c * 5 + 2) n]) ++ [WrReg (c * 5 + 3) cr]) (set_map M (k_exi s))) s) /\ Z.land m2 MSR_RI = Z.land (k_msr s) MSR_RI /\
      flags (M c) = Z.lor (xfl s c) EXI_FLAG_DMA /\ imm_len (M c) = 0).
  { eexists _, _. split; [reflexivity|]. split; [rewrite irq_msr by done; exact Hri|]. esimpl. rewrite !fupd_eq. done. }
  clearbody s2. destruct E2 as (M & m2 & -> & Hm2 & M1 & M2). split; [eapply dev_step_trans; [apply dev_step_exi|by apply dev_step_msr]|].
  unfold xlog, xram, xfl in *. esimpl. split; [done|]. split; [by rewrite decode_dma, C1|done].
Qed.
(** Traffic in one direction only. *)
Definition one_way (mode : Z) (bs vs : list Z) : list piece := if mode =? EXI_READ then map PIn vs else map POut bs.

Lemma only_out X : blocks X = [] -> ins X = [] -> X = map POut (outs X).
Proof.
  unfold blocks, ins, outs. induction X as [|[b|b|a n m] X IH]; try done. cbn [omap list_omap map]. intros H1 H2. by rewrite <- IH.
Qed.
Lemma only_in X : blocks X = [] -> outs X = [] -> X = map PIn (ins X).
Proof.
  unfold blocks, ins, outs. induction X as [|[b|b|a n m] X IH]; try done. cbn [omap list_omap map]. intros H1 H2. by rewrite <- IH.
Qed.

Lemma moved_one_way s s' c buf mode bs vs :
  mode = EXI_READ \/ mode = EXI_WRITE -> moved s s' c buf mode bs vs ->
  traffic c (xlog s') = traffic c (xlog s) ++ one_way mode bs vs.
Proof.
  intros Hm (_ & _ & _ & X & -> & H1 & H2 & H3). f_equal. unfold one_way.
  destruct Hm as [-> | ->]; cbn [Z.eqb Pos.eqb EXI_READ EXI_WRITE] in *.
  - by rewrite (only_in X H1 H2), H3.
  - by rewrite (only_out X H1 H3), H2.
Qed.

(** Polling for the end of a block. *)
Lemma dma_sync_spec s c buf n mode :
  device_answers c -> can_transfer s c -> xmode mode ->
  wp (EXI_Dma con c buf n mode NULL) (fun r s1 => r = 1 /\ wp (EXI_Sync polls c) (fun _ s' =>
    dev_step s s' /\ xram s' = xram s /\ xfl s' c = xfl s c /\
    traffic c (xlog s') = traffic c (xlog s) ++ [PDma (Z.ldiff (MEM_VIRTUAL_TO_PHYSICAL buf) 0x1f) n mode]) s1) s.
Proof.
  intros Hans Hcan Hm. pose proof Hcan as [Hc Hf]. destruct (flags_start (xfl s c) EXI_FLAG_DMA Hf) as (F2 & F3 & F4 & F5); [by right|].
  eapply wp_mono; [by apply dma_spec|]. cbv beta. intros r s1 (-> & D1 & R1 & T1 & F1 & I1). split; [done|].
  destruct (Hans (xlog s1)) as [log1 Hp].
  eapply wp_mono; [apply (sync_spec polls s1 c log1); try done; rewrite ?F1; try done|].
  { rewrite I1. intros i ?. lia. }
  cbv beta. intros r s2 (_ & D2 & F6 & St). unfold stored in St. change (flags _) with (xfl s1 c) in St. rewrite F1, F4 in St.
  change (EXI_FLAG_DMA =? EXI_FLAG_IMM) with false in St. cbn [andb] in St. destruct St as [St1 St2].
  split; [by eapply dev_step_trans|]. split; [by rewrite St2|]. split; [by rewrite F6, F1, F5|].
  unfold traffic in *. by rewrite St1, (polled_decode _ _ _ _ Hp), T1.
Qed.

Lemma low5 x : 0 <= x -> Z.land x 0x1f = x mod 32 /\ Z.ldiff x 0x1f = x - x mod 32.
Proof.
  intros Hx. change 0x1f with (Z.ones 5). rewrite Z.land_ones, Z.ldiff_ones_r, Z.shiftr_div_pow2, Z.shiftl_mul_pow2 by lia.
  change (2 ^ 5) with 32. split; [done|]. pose proof (Z.div_mod x 32). lia.
Qed.

Lemma land_ri s s' : dev_step s s' -> in_excpt s' = in_excpt s.
Proof. intros (m & e & mm & -> & Hm). unfold in_excpt. ksimpl. by rewrite Hm. Qed.
Lemma aligned_phys x : 0 <= x < 2 ^ 32 -> x mod 32 = 0 -> Z.ldiff (MEM_VIRTUAL_TO_PHYSICAL x) 0x1f = MEM_VIRTUAL_TO_PHYSICAL x.
Proof.
  intros Hx H0. unfold MEM_VIRTUAL_TO_PHYSICAL. assert (E : Z.land (u32 x) 0x1f = 0).
  { unfold u32. rewrite Z.mod_small by lia. by rewrite (proj1 (low5 x (proj1 Hx))). }
  apply Z.bits_inj'. intros n Hn. assert (En : Z.testbit (Z.land (u32 x) 0x1f) n = false) by (rewrite E; apply Z.bits_0).
  rewrite Z.land_spec in En. rewrite !Z.ldiff_spec. by destruct (Z.testbit (u32 x) n), (Z.testbit 0x1f n), (Z.testbit 0xC0000000 n).
Qed.

(** The buffer is moved in three parts: [h] bytes by hand, a block, the rest by
    hand. *)
Definition covered (s s' : kst) (c buf mode : Z) (bs : list Z) (h body : Z) : Prop :=
  exists vs1 vs2, Z.of_nat (length vs1) = h /\ Z.of_nat (length vs2) = Z.of_nat (length bs) - h - body /\
    traffic c (xlog s') = traffic c (xlog s) ++ one_way mode (take (Z.to_nat h) bs) vs1 ++
      (if body =? 0 then [] else [PDma (MEM_VIRTUAL_TO_PHYSICAL (buf + h)) body mode]) ++
      one_way mode (list.drop (Z.to_nat (h + body)) bs) vs2 /\
    xram s' = (if mode =? EXI_WRITE then xram s else put_bytes (buf + h + body) vs2 (put_bytes buf vs1 (xram s))).

Lemma head_spec s c buf mode bs h :
  device_answers c -> can_transfer s c -> xmode mode -> 0 < buf -> Forall is_byte bs -> bytes_at (xram s) buf bs ->
  0 <= h <= Z.of_nat (length bs) ->
  wp (if negb (h =? 0) then EXI_ImmEx con polls c buf h mode else ret 1) (fun r s1 => r = 1 /\
    exists vs, Z.of_nat (length vs) = h /\ moved s s1 c buf mode (take (Z.to_nat h) bs) vs) s.
Proof.
  intros Hans Hcan Hm Hbuf Hb Hat Hh. destruct (Z.eqb_spec h 0) as [->|Hne]; cbn [negb].
  { apply wp_ret. split; [done|]. exists []. split; [done|]. apply nothing_moved. }
  rewrite <- (take_drop (Z.to_nat h) bs) in Hb, Hat. apply Forall_app in Hb as [Hb1 _]. apply bytes_at_app in Hat as [Hat1 _].
  assert (Hl : Z.of_nat (length (take (Z.to_nat h) bs)) = h) by (rewrite length_take; lia).
  pose proof (immex_wp c buf mode (take (Z.to_nat h) bs) s Hans Hcan Hm Hbuf Hb1 Hat1) as H1. rewrite Hl in H1.
  rewrite (proj2 (Z.eqb_neq h 0) Hne) in H1. eapply wp_mono; [exact H1|]. cbv beta. intros r s1 (-> & vs & H2 & _ & H3).
  split; [done|]. exists vs. split; [lia|done].
Qed.

Lemma moved_can s s' c buf mode bs vs : can_transfer s c -> moved s s' c buf mode bs vs -> can_transfer s' c.
Proof. intros [Hc Hf] (_ & E & _). split; [done|]. by rewrite E. Qed.

(** The three parts of a buffer of at least a block. *)
Lemma head_part buf n :
  0 < buf -> let mis := buf mod 32 in let h := if negb (mis =? 0) then 0x20 - mis else 0 in
  (if negb (mis =? 0) then 0x40 else 0x20) <= n ->
  0 <= h < 32 /\ (buf + h) mod 32 = 0 /\ h + 32 <= n /\ negb (h =? 0) = negb (mis =? 0).
Proof.
  intros Hbuf mis h Hn. assert (Hmis : 0 <= mis < 32) by (apply Z.mod_pos_bound; lia).
  unfold h in *. destruct (Z.eqb_spec mis 0) as [E|E]; cbn [negb] in *.
  - rewrite Z.add_0_r. fold mis. repeat split; lia.
  - replace (buf + (0x20 - mis)) with ((buf / 32 + 1) * 32) by (pose proof (Z.div_mod buf 32); lia).
    rewrite Z.mod_mul by lia. repeat split; lia.
Qed.

Lemma block_part m : 32 <= m -> 0 <= m mod 32 < 32 /\ 0 < m - m mod 32 /\ (m - m mod 32) mod 32 = 0.
Proof.
  intros Hm. assert (0 <= m mod 32 < 32) by (apply Z.mod_pos_bound; lia).
  assert (E : m - m mod 32 = m / 32 * 32) by (pose proof (Z.div_mod m 32); lia).
  split; [done|]. split; [lia|]. rewrite E. apply Z.mod_mul. lia.
Qed.

(** The parts as [EXI_Transfer] may choose them. *)
Definition good_parts (buf n h body : Z) : Prop :=
  0 <= h /\ 0 <= body /\ h + body <= n /\
  (body = 0 /\ n < 64 /\ h = n \/ 0 < body /\ body mod 32 = 0 /\ (buf + h) mod 32 = 0 /\ h < 32 /\ n - h - body < 32).

(** The bytes after the block. *)
Lemma tail_spec s s5 c buf mode bs h body vs1 :
  device_answers c -> can_transfer s5 c -> mode = EXI_READ \/ mode = EXI_WRITE -> 0 < buf -> Forall is_byte bs ->
  bytes_at (xram s) buf bs -> good_parts buf (Z.of_nat (length bs)) h body -> 0 < body -> Z.of_nat (length vs1) = h ->
  traffic c (xlog s5) = traffic c (xlog s) ++ one_way mode (take (Z.to_nat h) bs) vs1 ++ [PDma (MEM_VIRTUAL_TO_PHYSICAL (buf + h)) body mode] ->
  xram s5 = (if mode =? EXI_WRITE then xram s else put_bytes buf vs1 (xram s)) ->
  let tail := Z.of_nat (length bs) - h - body in
  wp (if negb (tail =? 0) then EXI_ImmEx con polls c (buf + h + body) tail mode else ret 1)
    (fun r s' => r = 1 /\ covered s s' c buf mode bs h body) s5.
Proof.
  intros Hans Hcan5 Hm Hbuf Hb Hat (Hh & Hbd & Hhb & _) Hpos Hv1 T5 R5 tail.
  set (bs2 := list.drop (Z.to_nat (h + body)) bs).
  assert (Hl2 : Z.of_nat (length bs2) = tail) by (unfold bs2; rewrite length_drop; lia).
  rewrite <- (take_drop (Z.to_nat (h + body)) bs) in Hb, Hat. fold bs2 in Hb, Hat.
  apply Forall_app in Hb as [_ Hb2]. apply bytes_at_app in Hat as [_ Hat2].
  rewrite length_take in Hat2. replace (buf + Z.of_nat (Z.to_nat (h + body) `min` length bs)%nat) with (buf + h + body) in Hat2 by lia.
  assert (Hat5 : bytes_at (xram s5) (buf + h + body) bs2).
  { rewrite R5. destruct (mode =? EXI_WRITE); [done|]. apply (bytes_at_ext _ _ (xram s)); [|done]. intros w Hw. apply put_other. lia. }
  eapply wp_mono; [apply (head_spec s5 c (buf + h + body) mode bs2 tail); try done; [unfold xmode; tauto|lia..]|].
  cbv beta. intros r s6 (-> & vs2 & Hv2 & Hm2). split; [done|]. rewrite <- Hl2, Nat2Z.id, firstn_all in Hm2.
  exists vs1, vs2. split; [done|]. split; [done|]. rewrite (moved_one_way _ _ _ _ _ _ _ Hm Hm2), T5, <- !app_assoc.
  rewrite (proj2 (Z.eqb_neq body 0)) by lia. split; [done|].
  rewrite (proj1 (proj2 (proj2 Hm2))), R5. by destruct (mode =? EXI_WRITE).
Qed.

Lemma transfer_spec s c buf mode bs :
  device_answers c -> can_transfer s c -> mode = EXI_READ \/ mode = EXI_WRITE -> 0 < buf -> buf + Z.of_nat (length bs) < 2 ^ 32 ->
  Forall is_byte bs -> bytes_at (xram s) buf bs -> bs <> [] -> in_excpt s = true ->
  wpk (EXI_Transfer con polls c buf (Z.of_nat (length bs)) mode) (fun r s' => r = 1 /\ exists h body,
    good_parts buf (Z.of_nat (length bs)) h body /\ covered s s' c buf mode bs h body) (fun _ _ => False) s.
Proof.
  intros Hans Hcan Hm Hbuf Hmax Hb Hat Hne Hex. set (n := Z.of_nat (length bs)) in *.
  assert (Hn : 0 < n) by (unfold n; destruct bs; [done|simpl; lia]). assert (Hm' : xmode mode) by (unfold xmode; tauto).
  unfold EXI_Transfer. replace (mode =? EXI_READWRITE) with false by (destruct Hm as [->| ->]; reflexivity).
  assert (Eu : u32 buf = buf) by (unfold u32; apply Z.mod_small; lia). rewrite Eu, (proj1 (low5 buf ltac:(lia))).
  pose proof (head_part buf n Hbuf) as Hpart. cbv zeta in *. set (mis := buf mod 32) in *.
  destruct (Z.ltb_spec n (if negb (mis =? 0) then 0x40 else 0x20)) as [Hsm|Hbig].
  - apply wpk_lift. eapply wp_mono; [by apply (immex_wp c buf mode bs)|]. cbv beta. fold n. intros r s' (-> & vs & Hv & _ & Hmv).
    rewrite (proj2 (Z.eqb_neq n 0)) by lia. split; [done|]. exists n, 0. split.
    { split; [lia|]. split; [lia|]. split; [lia|]. left. destruct (negb (mis =? 0)); lia. }
    exists vs, []. split; [unfold n; lia|]. split; [simpl; lia|]. rewrite !Z.add_0_r. unfold n. rewrite Nat2Z.id, firstn_all, drop_all.
    split; [|by rewrite (proj1 (proj2 (proj2 Hmv)))]. rewrite (moved_one_way _ _ _ _ _ _ _ Hm Hmv). cbn [Z.eqb app].
    unfold one_way at 3. by destruct (mode =? EXI_READ); rewrite app_nil_r.
  - specialize (Hpart Hbig). set (h := if negb (mis =? 0) then 0x20 - mis else 0) in *. apply wpk_lift_bind.
    clearbody h. destruct Hpart as (Hh1 & Hh2 & Hh3 & Hh4). rewrite <- Hh4.
    eapply wp_mono; [apply (head_spec s c buf mode bs h); try done; lia|]. cbv beta. intros r s1 (-> & vs1 & Hv1 & Hm1). cbn [Z.eqb Pos.eqb].
    destruct (low5 (n - h) ltac:(lia)) as [Et Eb]. rewrite Et, Eb. destruct (block_part (n - h)) as (Ht1 & Ht2 & Ht3); [lia|].
    set (body := n - h - (n - h) mod 32) in *. assert (Ht4 : (n - h) mod 32 = n - h - body) by lia. rewrite Ht4 in *. clearbody body.
    apply wpk_lift_bind, wp_irq_lock. intros st Hst _.
    assert (Hex1 : in_excpt s1 = true) by (by rewrite (land_ri s); [|apply Hm1]).
    set (s2 := set_msr _ s1). assert (Ds : dev_step s1 s2) by apply dev_step_msr, irq_off.
    apply wpk_lift_bind. unfold PPCIsInExcpt. apply wp_gets. change (Z.land (k_msr s2) MSR_RI =? 0) with (in_excpt s2).
    rewrite (land_ri s1 s2 Ds), Hex1. assert (Hcan1 : can_transfer s2 c) by (by eapply moved_can in Hm1).
    apply wpk_lift_bind, wp_bind. eapply wp_mono; [by apply dma_sync_spec|]. cbv beta. intros r s3 [-> Hsync]. cbn [Z.eqb Pos.eqb negb when].
    apply wp_bind, wp_bind. eapply wp_mono; [exact Hsync|]. cbv beta. intros _ s4 (D4 & R4 & F4 & T4). apply wp_ret, wp_ret.
    apply wpk_lift_bind, wp_irq_unlock. cbn [andb]. set (s5 := set_msr _ s4).
    assert (Hgood : good_parts buf n h body) by (do 3 (split; [lia|]); right; lia).
    pose proof (tail_spec s s5 c buf mode bs h body vs1 Hans) as Htail. fold n in Htail. cbv zeta in Htail.
    assert (Hfin : wp (if negb (n - h - body =? 0) then EXI_ImmEx con polls c (buf + h + body) (n - h - body) mode else ret 1)
      (fun r s' => r = 1 /\ covered s s' c buf mode bs h body) s5).
    { apply Htail; try done.
      - destruct Hcan1 as [Hc Hf]. split; [done|]. by rewrite <- Hf, <- F4.
      - change (xlog s5) with (xlog s4). rewrite T4, aligned_phys by (try done; lia). change (xlog s2) with (xlog s1).
        by rewrite (moved_one_way _ _ _ _ _ _ _ Hm Hm1), <- app_assoc.
      - change (xram s5) with (xram s4). rewrite R4. apply Hm1. }
    destruct (negb (n - h - body =? 0)).
    + apply wpk_lift. eapply wp_mono; [exact Hfin|]. cbv beta. intros r s6 [-> H6]. eauto.
    + apply wpk_ret. destruct Hfin as [_ H6]. eauto.
Qed.

End Imm.
