(* ===== verification/ExiDemo.v ===== *)
(** * The EXI bus: concrete runs *)

From stdpp Require Import base gmap list fin_maps.
From Stdlib Require Import ZArith Lia.
From S2P Require Import Prelude Chain LwpQueue Devices KState KTick KThread KLists KSched KLife KSound KMailbox KSystem KCalls Clock Irq Exi ExiLock ExiSystem ExiReach ExiXfer.

Open Scope Z_scope.

(** ** A machine *)

(** A device that keeps what is written to the status registers, reads zero
    elsewhere, and is always done. *)
#[local] Instance quiet_hw : ExiHw := {| csr_write := fun _ _ v => v; reg_read := fun _ _ => 0 |}.

Definition word_block (a : Z) (n : nat) : mem := list_to_map (map (fun i => (a + 4 * Z.of_nat i, 0)) (seq 0 n)).
Definition demo_queue : Z := 0x1000.
Definition demo_dev (c : Z) : Z := 0x1100 + 0x10 * c.
Definition demo_nodes : Z := 0x2000.
Definition demo_mem : mem :=
  word_block demo_queue 3 ∪ word_block (demo_dev 0) 3 ∪ word_block (demo_dev 1) 3 ∪ word_block (demo_dev 2) 3 ∪ word_block demo_nodes 128.

(** The threads of [demo3], after [__exi_initmap]. *)
Definition exi_demo0 : kst := out (exi_initmap demo_queue demo_nodes demo_dev) (set_mem demo_mem demo3).

Lemma demo_addresses : lock_addresses demo_queue demo_nodes demo_dev.
Proof.
  assert (H : forall i, idx i -> i = -1 \/ i = 0 \/ i = 1 \/ i = 2) by (unfold idx; lia). split; [| |done].
  - intros i j [->|[->|[->| ->] ] ]%H [->|[->|[->| ->] ] ]%H; vm_compute; (lia || (intros; by (left + right))).
  - intros i [->|[->|[->| ->] ] ]%H; vm_compute; by (left + right).
Qed.

Lemma demo3_rest : rest 300 demo3 [200; 100; 400; 300] noq.
Proof.
  split; [apply demo3_sound|by vm_compute|split; [decide_vm|by vm_compute]|].
  intros m. left. by vm_compute.
Qed.

Lemma demo_lock_memory : lock_memory demo_queue demo_dev (node_addrs 32 demo_nodes SIZEOF_lck_dev) demo_mem.
Proof.
  assert (H : forall i, idx i -> i = -1 \/ i = 0 \/ i = 1 \/ i = 2) by (unfold idx; lia). split.
  - intros i [->|[->|[->| ->] ] ]%H; split_and!; decide_vm.
  - assert (Ha : Forall (fun n => is_Some (demo_mem !! (n + 0)) /\ is_Some (demo_mem !! (n + 4)) /\
      is_Some (demo_mem !! (n + 8)) /\ is_Some (demo_mem !! (n + 12))) (node_addrs 32 demo_nodes SIZEOF_lck_dev)) by decide_vm.
    rewrite Forall_forall in Ha. intros n k (H0 & H4 & H8 & H12)%Ha [->|[->|[->| ->] ] ]; done.
Qed.

Lemma ready_out q nodes dev s L W mm :
  lock_addresses q nodes dev -> rest 300 s L W -> W exi_sync_queue = [] -> (length L <= 32)%nat ->
  lock_memory q dev (node_addrs 32 nodes SIZEOF_lck_dev) mm ->
  xready q nodes dev 300 (out (exi_initmap q nodes dev) (set_mem mm s)).
Proof.
  intros Ha Hr HW HL Hm. exists (set_mem mm s), L, W. split_and!; try done; [eapply rest_dev; [apply dev_step_mem|done]|].
  assert (Hs : q + 12 <= nodes \/ nodes + 32 * 16 <= q).
  { destruct (la_nodes _ _ _ Ha (-1)) as [Hn|Hn]; [unfold idx; lia|right|left]; exact Hn. }
  pose proof (initmap_spec q dev _ (array_layout _ _ _ Ha) nodes eq_refl Hs (set_mem mm s) (fun _ => (0, 0)) Hm) as Hi.
  unfold wp in Hi. unfold out. by destruct (exi_initmap _ _ _ _) as [ [ [] ?]|].
Qed.

Lemma exi_demo_ready : xready demo_queue demo_nodes demo_dev 300 exi_demo0.
Proof. apply (ready_out _ _ _ _ [200; 100; 400; 300] noq); [apply demo_addresses|apply demo3_rest|done|simpl; lia|apply demo_lock_memory]. Qed.

(** ** A run: the main thread 100 locks channel 0 and yields; thread 400 tries to
    lock the channel and sleeps. *)

Notation step_call := (x_call GameCube demo_queue demo_dev 0 0 3 (fun _ _ _ => kret 0) 2).
Notation step_resume := (x_resume GameCube demo_queue demo_dev 0 0 3 (fun _ _ _ => kret 0) 2).
Notation runs := (xreach GameCube demo_queue demo_dev 0 0 3 (fun _ _ _ => kret 0) 2 300 exi_demo0).

Definition okx (r : res xsys) (y : xsys) : xsys := match r with Ok y' => y' | Fault _ => y end.
Definition xd0 : xsys := mk_xsys exi_demo0 (fun _ => None) (fun _ _ => false).
Definition xd1 : xsys := okx (step_call (XLockSync 5 0 0) xd0) xd0.
Definition xd2 : xsys := okx (step_call XYield xd1) xd1.
Definition xd3 : xsys := okx (step_call (XLockSync 5 0 2) xd2) xd2.

Lemma okx_ok r y : (if r is Ok _ then true else false) = true -> r = Ok (okx r y).
Proof. by destruct r. Qed.

Lemma self_ne s t t' : k_self s = t -> t <> t' -> k_self s <> t'.
Proof. congruence. Qed.

Ltac demo_step IH :=
  eapply xreach_call; [exact IH|by vm_compute| |apply okx_ok; by vm_compute].

Lemma xd1_reach : runs xd1.
Proof.
  demo_step (xreach_start GameCube demo_queue demo_dev 0 0 3 (fun _ _ _ => kret 0) 2 300 exi_demo0).
  split; [by apply (self_ne _ 100); [vm_compute|]|lia].
Qed.
Lemma xd2_reach : runs xd2.
Proof. demo_step xd1_reach. exact I. Qed.
Lemma xd3_contract : xcontract 300 (XLockSync 5 0 2) xd2.
Proof. split; [by apply (self_ne _ 400); [vm_compute|]|lia]. Qed.
Lemma xd3_reach : runs xd3.
Proof. demo_step xd2_reach. apply xd3_contract. Qed.

(** Witnesses. *)
Lemma exi_channel_exclusive_witness :
  chn_locked (x_st xd3) 0 = true /\ forall t, x_holds xd3 t 0 = true -> t = 100.
Proof.
  destruct (exi_channel_exclusive GameCube demo_queue demo_nodes demo_dev 0 0 3 (fun _ _ _ => kret 0) 2 300
    exi_demo0 xd3 0 demo_addresses exi_demo_ready xd3_reach ltac:(lia)) as [_ H].
  split; [by vm_compute|]. intros t Ht. apply H; [done|by vm_compute].
Defined.

Lemma exi_no_lost_wakeup_witness :
  exists c, 0 <= c < 3 /\ wants (x_pend xd3) 400 c /\
    (chn_locked (x_st xd3) c = true \/ exists t', wants (x_pend xd3) t' c /\ k_wq (x_st xd3) t' <> Some exi_sync_queue).
Proof.
  apply (exi_no_lost_wakeup GameCube demo_queue demo_nodes demo_dev 0 0 3 (fun _ _ _ => kret 0) 2 300
    exi_demo0 xd3 400 demo_addresses exi_demo_ready xd3_reach); [decide_vm|by vm_compute].
Defined.


(** ** Transfers *)

(** A device of channel 0 is selected; the buffer has 70 bytes. *)
Definition xfer_bytes : list Z := map (fun i => Z.of_nat i + 65) (seq 0 70).
Definition xfer_demo (msr : Z) : kst :=
  set_msr msr (set_exi (mk_exi (fun _ => set_flags (Z.lor EXI_FLAG_LOCKED EXI_FLAG_SELECT) bus0) (fun _ => 0)
    (ex_irq (k_exi exi_demo0)) [] (list_to_map (imap (fun i b => (0x3010 + Z.of_nat i, b)) xfer_bytes)) 0 0 0 0) exi_demo0).

Lemma quiet_answers c : device_answers 3 c.
Proof. intros log. by eexists. Qed.

Lemma xfer_length : Z.of_nat (length xfer_bytes) = 70.
Proof. by vm_compute. Qed.

Lemma xfer_bytes_ok msr : Forall is_byte xfer_bytes /\ bytes_at (xram (xfer_demo msr)) 0x3010 xfer_bytes /\ can_transfer (xfer_demo msr) 0.
Proof. split; [unfold is_byte; decide_vm|]. split; [vm_compute; repeat split|]. split; [lia|by vm_compute]. Qed.

Lemma immex_exchanges_witness :
  exists s' X, EXI_ImmEx GameCube 3 0 0x3010 70 EXI_WRITE (xfer_demo MSR_RI) = Ok (1, s') /\
    traffic 0 (xlog s') = X /\ outs X = xfer_bytes.
Proof.
  destruct (xfer_bytes_ok MSR_RI) as (H1 & H2 & H3).
  destruct (immex_exchanges GameCube 3 (xfer_demo MSR_RI) 0 0x3010 EXI_WRITE xfer_bytes (quiet_answers 0) H3
    (or_intror (or_introl eq_refl)) ltac:(lia) H1 H2) as (s' & vs & X & E1 & _ & E2 & E3 & _).
  rewrite xfer_length in E1. exists s', X. split; [exact E1|]. split; [exact E2|exact E3].
Defined.

