(* ===== verification/CardState.v ===== *)
(** * Memory cards: data ([libogc/card.c], [gc/ogc/card.h])

    A memory card holds five system blocks (a header, two copies of the
    directory, two copies of the allocation table) and the blocks of the files.
    The driver keeps the system blocks in a work area and a control block per
    slot. The structures below are those of the source, with a setter per field;
    the monad adds the answers of the EXI driver below, one after the other, and
    a log of what was asked of it. *)

From stdpp Require Import base list.
From Stdlib Require Import ZArith Lia.
From S2P Require Import Prelude.

Open Scope Z_scope.

(** ** Constants *)

Definition CARD_SYSAREA : Z := 5.
Definition CARD_SYSDIR : Z := 0x2000.
Definition CARD_SYSDIR_BACK : Z := 0x4000.
Definition CARD_SYSBAT : Z := 0x6000.
Definition CARD_SYSBAT_BACK : Z := 0x8000.
Definition CARD_STATUS_UNLOCKED : Z := 0x40.
Definition CARD_READSIZE : Z := 512.
Definition CARD_FILENAMELEN : Z := 32.
Definition CARD_MAXFILES : Z := 127.

Definition CARD_ERROR_UNLOCKED : Z := 1.
Definition CARD_ERROR_READY : Z := 0.
Definition CARD_ERROR_BUSY : Z := -1.
Definition CARD_ERROR_WRONGDEVICE : Z := -2.
Definition CARD_ERROR_NOCARD : Z := -3.
Definition CARD_ERROR_NOFILE : Z := -4.
Definition CARD_ERROR_IOERROR : Z := -5.
Definition CARD_ERROR_BROKEN : Z := -6.
Definition CARD_ERROR_EXIST : Z := -7.
Definition CARD_ERROR_NOENT : Z := -8.
Definition CARD_ERROR_INSSPACE : Z := -9.
Definition CARD_ERROR_LIMIT : Z := -11.
Definition CARD_ERROR_NAMETOOLONG : Z := -12.
Definition CARD_ERROR_CANCELED : Z := -14.
Definition CARD_ERROR_FATAL_ERROR : Z := -128.

Definition EXI_READ : Z := 0.
Definition EXI_WRITE : Z := 1.
Definition EXI_FLAG_ATTACH : Z := 8.

(** ** The blocks of a card *)

Record card_direntry := mk_entry {
  de_gamecode : list Z; (* 4 bytes *)
  de_company : list Z; (* 2 bytes *)
  de_pad_00 : Z;
  de_banner_fmt : Z;
  de_filename : list Z; (* 32 bytes *)
  de_last_modified : Z;
  de_icon_addr : Z;
  de_icon_fmt : Z;
  de_icon_speed : Z;
  de_permission : Z;
  de_copy_times : Z;
  de_block : Z;
  de_length : Z;
  de_pad_01 : Z;
  de_comment_addr : Z
}.

Definition set_de_gamecode (x : list Z) (e : card_direntry) : card_direntry :=
  mk_entry
    x (de_company e) (de_pad_00 e) (de_banner_fmt e) (de_filename e) (de_last_modified e) (de_icon_addr e)
    (de_icon_fmt e) (de_icon_speed e) (de_permission e) (de_copy_times e) (de_block e) (de_length e) (de_pad_01
    e) (de_comment_addr e).
Definition set_de_company (x : list Z) (e : card_direntry) : card_direntry :=
  mk_entry
    (de_gamecode e) x (de_pad_00 e) (de_banner_fmt e) (de_filename e) (de_last_modified e) (de_icon_addr e)
    (de_icon_fmt e) (de_icon_speed e) (de_permission e) (de_copy_times e) (de_block e) (de_length e) (de_pad_01
    e) (de_comment_addr e).
Definition set_de_pad_00 (x : Z) (e : card_direntry) : card_direntry :=
  mk_entry
    (de_gamecode e) (de_company e) x (de_banner_fmt e) (de_filename e) (de_last_modified e) (de_icon_addr e)
    (de_icon_fmt e) (de_icon_speed e) (de_permission e) (de_copy_times e) (de_block e) (de_length e) (de_pad_01
    e) (de_comment_addr e).
Definition set_de_banner_fmt (x : Z) (e : card_direntry) : card_direntry :=
  mk_entry
    (de_gamecode e) (de_company e) (de_pad_00 e) x (de_filename e) (de_last_modified e) (de_icon_addr e)
    (de_icon_fmt e) (de_icon_speed e) (de_permission e) (de_copy_times e) (de_block e) (de_length e) (de_pad_01
    e) (de_comment_addr e).
Definition set_de_filename (x : list Z) (e : card_direntry) : card_direntry :=
  mk_entry
    (de_gamecode e) (de_company e) (de_pad_00 e) (de_banner_fmt e) x (de_last_modified e) (de_icon_addr e)
    (de_icon_fmt e) (de_icon_speed e) (de_permission e) (de_copy_times e) (de_block e) (de_length e) (de_pad_01
    e) (de_comment_addr e).
Definition set_de_last_modified (x : Z) (e : card_direntry) : card_direntry :=
  mk_entry
    (de_gamecode e) (de_company e) (de_pad_00 e) (de_banner_fmt e) (de_filename e) x (de_icon_addr e)
    (de_icon_fmt e) (de_icon_speed e) (de_permission e) (de_copy_times e) (de_block e) (de_length e) (de_pad_01
    e) (de_comment_addr e).
Definition set_de_icon_addr (x : Z) (e : card_direntry) : card_direntry :=
  mk_entry
    (de_gamecode e) (de_company e) (de_pad_00 e) (de_banner_fmt e) (de_filename e) (de_last_modified e) x
    (de_icon_fmt e) (de_icon_speed e) (de_permission e) (de_copy_times e) (de_block e) (de_length e) (de_pad_01
    e) (de_comment_addr e).
Definition set_de_icon_fmt (x : Z) (e : card_direntry) : card_direntry :=
  mk_entry
    (de_gamecode e) (de_company e) (de_pad_00 e) (de_banner_fmt e) (de_filename e) (de_last_modified e)
    (de_icon_addr e) x (de_icon_speed e) (de_permission e) (de_copy_times e) (de_block e) (de_length e)
    (de_pad_01 e) (de_comment_addr e).
Definition set_de_icon_speed (x : Z) (e : card_direntry) : card_direntry :=
  mk_entry
    (de_gamecode e) (de_company e) (de_pad_00 e) (de_banner_fmt e) (de_filename e) (de_last_modified e)
    (de_icon_addr e) (de_icon_fmt e) x (de_permission e) (de_copy_times e) (de_block e) (de_length e) (de_pad_01
    e) (de_comment_addr e).
Definition set_de_permission (x : Z) (e : card_direntry) : card_direntry :=
  mk_entry
    (de_gamecode e) (de_company e) (de_pad_00 e) (de_banner_fmt e) (de_filename e) (de_last_modified e)
    (de_icon_addr e) (de_icon_fmt e) (de_icon_speed e) x (de_copy_times e) (de_block e) (de_length e) (de_pad_01
    e) (de_comment_addr e).
Definition set_de_copy_times (x : Z) (e : card_direntry) : card_direntry :=
  mk_entry
    (de_gamecode e) (de_company e) (de_pad_00 e) (de_banner_fmt e) (de_filename e) (de_last_modified e)
    (de_icon_addr e) (de_icon_fmt e) (de_icon_speed e) (de_permission e) x (de_block e) (de_length e) (de_pad_01
    e) (de_comment_addr e).
Definition set_de_block (x : Z) (e : card_direntry) : card_direntry :=
  mk_entry
    (de_gamecode e) (de_company e) (de_pad_00 e) (de_banner_fmt e) (de_filename e) (de_last_modified e)
    (de_icon_addr e) (de_icon_fmt e) (de_icon_speed e) (de_permission e) (de_copy_times e) x (de_length e)
    (de_pad_01 e) (de_comment_addr e).
Definition set_de_length (x : Z) (e : card_direntry) : card_direntry :=
  mk_entry
    (de_gamecode e) (de_company e) (de_pad_00 e) (de_banner_fmt e) (de_filename e) (de_last_modified e)
    (de_icon_addr e) (de_icon_fmt e) (de_icon_speed e) (de_permission e) (de_copy_times e) (de_block e) x
    (de_pad_01 e) (de_comment_addr e).
Definition set_de_pad_01 (x : Z) (e : card_direntry) : card_direntry :=
  mk_entry
    (de_gamecode e) (de_company e) (de_pad_00 e) (de_banner_fmt e) (de_filename e) (de_last_modified e)
    (de_icon_addr e) (de_icon_fmt e) (de_icon_speed e) (de_permission e) (de_copy_times e) (de_block e)
    (de_length e) x (de_comment_addr e).
Definition set_de_comment_addr (x : Z) (e : card_direntry) : card_direntry :=
  mk_entry
    (de_gamecode e) (de_company e) (de_pad_00 e) (de_banner_fmt e) (de_filename e) (de_last_modified e)
    (de_icon_addr e) (de_icon_fmt e) (de_icon_speed e) (de_permission e) (de_copy_times e) (de_block e)
    (de_length e) (de_pad_01 e) x.

(** [struct card_dat] with its [struct card_dircntrl]. *)
Record card_dat := mk_dat {
  dat_entries : list card_direntry; (* 127 entries *)
  dat_pad : list Z; (* 58 bytes *)
  dat_updated : Z;
  dat_chksum1 : Z;
  dat_chksum2 : Z
}.

Definition set_dat_entries (x : list card_direntry) (d : card_dat) : card_dat :=
  mk_dat
    x (dat_pad d) (dat_updated d) (dat_chksum1 d) (dat_chksum2 d).
Definition set_dat_pad (x : list Z) (d : card_dat) : card_dat :=
  mk_dat
    (dat_entries d) x (dat_updated d) (dat_chksum1 d) (dat_chksum2 d).
Definition set_dat_updated (x : Z) (d : card_dat) : card_dat :=
  mk_dat
    (dat_entries d) (dat_pad d) x (dat_chksum1 d) (dat_chksum2 d).
Definition set_dat_chksum1 (x : Z) (d : card_dat) : card_dat :=
  mk_dat
    (dat_entries d) (dat_pad d) (dat_updated d) x (dat_chksum2 d).
Definition set_dat_chksum2 (x : Z) (d : card_dat) : card_dat :=
  mk_dat
    (dat_entries d) (dat_pad d) (dat_updated d) (dat_chksum1 d) x.

Record card_bat := mk_bat {
  bat_chksum1 : Z;
  bat_chksum2 : Z;
  bat_updated : Z;
  bat_freeblocks : Z;
  bat_lastalloc : Z;
  bat_fat : list Z; (* 0xffb entries *)
}.

Definition set_bat_chksum1 (x : Z) (b : card_bat) : card_bat :=
  mk_bat
    x (bat_chksum2 b) (bat_updated b) (bat_freeblocks b) (bat_lastalloc b) (bat_fat b).
Definition set_bat_chksum2 (x : Z) (b : card_bat) : card_bat :=
  mk_bat
    (bat_chksum1 b) x (bat_updated b) (bat_freeblocks b) (bat_lastalloc b) (bat_fat b).
Definition set_bat_updated (x : Z) (b : card_bat) : card_bat :=
  mk_bat
    (bat_chksum1 b) (bat_chksum2 b) x (bat_freeblocks b) (bat_lastalloc b) (bat_fat b).
Definition set_bat_freeblocks (x : Z) (b : card_bat) : card_bat :=
  mk_bat
    (bat_chksum1 b) (bat_chksum2 b) (bat_updated b) x (bat_lastalloc b) (bat_fat b).
Definition set_bat_lastalloc (x : Z) (b : card_bat) : card_bat :=
  mk_bat
    (bat_chksum1 b) (bat_chksum2 b) (bat_updated b) (bat_freeblocks b) x (bat_fat b).
Definition set_bat_fat (x : list Z) (b : card_bat) : card_bat :=
  mk_bat
    (bat_chksum1 b) (bat_chksum2 b) (bat_updated b) (bat_freeblocks b) (bat_lastalloc b) x.

Record card_header := mk_header {
  h_serial : list Z; (* 32 bytes *)
  h_device_id : Z;
  h_size : Z;
  h_encoding : Z;
  h_padding : list Z; (* 0x1d6 bytes *)
  h_chksum1 : Z;
  h_chksum2 : Z
}.

Definition set_h_serial (x : list Z) (h : card_header) : card_header :=
  mk_header
    x (h_device_id h) (h_size h) (h_encoding h) (h_padding h) (h_chksum1 h) (h_chksum2 h).
Definition set_h_device_id (x : Z) (h : card_header) : card_header :=
  mk_header
    (h_serial h) x (h_size h) (h_encoding h) (h_padding h) (h_chksum1 h) (h_chksum2 h).
Definition set_h_size (x : Z) (h : card_header) : card_header :=
  mk_header
    (h_serial h) (h_device_id h) x (h_encoding h) (h_padding h) (h_chksum1 h) (h_chksum2 h).
Definition set_h_encoding (x : Z) (h : card_header) : card_header :=
  mk_header
    (h_serial h) (h_device_id h) (h_size h) x (h_padding h) (h_chksum1 h) (h_chksum2 h).
Definition set_h_padding (x : list Z) (h : card_header) : card_header :=
  mk_header
    (h_serial h) (h_device_id h) (h_size h) (h_encoding h) x (h_chksum1 h) (h_chksum2 h).
Definition set_h_chksum1 (x : Z) (h : card_header) : card_header :=
  mk_header
    (h_serial h) (h_device_id h) (h_size h) (h_encoding h) (h_padding h) x (h_chksum2 h).
Definition set_h_chksum2 (x : Z) (h : card_header) : card_header :=
  mk_header
    (h_serial h) (h_device_id h) (h_size h) (h_encoding h) (h_padding h) (h_chksum1 h) x.

(** ** Control blocks *)

(** The functions that occur as callbacks. *)
Inductive cardcallback :=
| CbNull
| CbUser (fn : Z)
| synccallback | defaultapicallback | mountcallback
| write_cb | erase_cb | read_cb | delete_cb | format_cb
| blockwrite_cb | blockread_cb | unlocked_cb
| fatwrite_cb | dirwrite_cb | faterase_cb | direrase_cb | createfat_cb.

#[global] Instance cardcallback_eq_dec : EqDecision cardcallback.
Proof. solve_decision. Defined.

Definition isnull (cb : cardcallback) : bool := match cb with CbNull => true | _ => false end.

Record card_file := mk_file {
  f_chn : Z;
  f_filenum : Z;
  f_offset : Z;
  f_len : Z;
  f_iblock : Z
}.

Definition set_f_chn (x : Z) (f : card_file) : card_file :=
  mk_file
    x (f_filenum f) (f_offset f) (f_len f) (f_iblock f).
Definition set_f_filenum (x : Z) (f : card_file) : card_file :=
  mk_file
    (f_chn f) x (f_offset f) (f_len f) (f_iblock f).
Definition set_f_offset (x : Z) (f : card_file) : card_file :=
  mk_file
    (f_chn f) (f_filenum f) x (f_len f) (f_iblock f).
Definition set_f_len (x : Z) (f : card_file) : card_file :=
  mk_file
    (f_chn f) (f_filenum f) (f_offset f) x (f_iblock f).
Definition set_f_iblock (x : Z) (f : card_file) : card_file :=
  mk_file
    (f_chn f) (f_filenum f) (f_offset f) (f_len f) x.

Record card_block := mk_card {
  c_cmd : list Z; (* [cmd], the command bytes *)
  c_cmd_len : Z;
  c_cmd_mode : Z;
  c_cmd_blck_cnt : Z;
  c_cmd_sector_addr : Z;
  c_cmd_retries : Z;
  c_attached : Z;
  c_result : Z;
  c_cid : Z;
  c_card_size : Z;
  c_mount_step : Z;
  c_format_step : Z;
  c_sector_size : Z;
  c_blocks : Z;
  c_latency : Z;
  c_transfer_cnt : Z;
  c_curr_fileblock : Z;
  c_curr_file : Z; (* a pointer to a [card_file] *)
  c_curr_dir : Z; (* offset in the work area, 0 for [NULL] *)
  c_curr_fat : Z; (* offset in the work area, 0 for [NULL] *)
  c_header : card_header; (* the work area: its first block, *)
  c_dirs : Z -> card_dat; (* the directory blocks by offset, *)
  c_bats : Z -> card_bat; (* the allocation tables by offset *)
  c_workarea : Z; (* the address of the work area *)
  c_cmd_usr_buf : Z;
  c_ext_cb : cardcallback;
  c_tx_cb : cardcallback;
  c_exi_cb : cardcallback;
  c_api_cb : cardcallback;
  c_xfer_cb : cardcallback;
  c_erase_cb : cardcallback;
  c_unlock_cb : cardcallback
}.

Definition set_c_cmd (x : list Z) (c : card_block) : card_block :=
  mk_card
    x (c_cmd_len c) (c_cmd_mode c) (c_cmd_blck_cnt c) (c_cmd_sector_addr c) (c_cmd_retries c) (c_attached c)
    (c_result c) (c_cid c) (c_card_size c) (c_mount_step c) (c_format_step c) (c_sector_size c) (c_blocks c)
    (c_latency c) (c_transfer_cnt c) (c_curr_fileblock c) (c_curr_file c) (c_curr_dir c) (c_curr_fat c)
    (c_header c) (c_dirs c) (c_bats c) (c_workarea c) (c_cmd_usr_buf c) (c_ext_cb c) (c_tx_cb c) (c_exi_cb c)
    (c_api_cb c) (c_xfer_cb c) (c_erase_cb c) (c_unlock_cb c).
Definition set_c_cmd_len (x : Z) (c : card_block) : card_block :=
  mk_card
    (c_cmd c) x (c_cmd_mode c) (c_cmd_blck_cnt c) (c_cmd_sector_addr c) (c_cmd_retries c) (c_attached c)
    (c_result c) (c_cid c) (c_card_size c) (c_mount_step c) (c_format_step c) (c_sector_size c) (c_blocks c)
    (c_latency c) (c_transfer_cnt c) (c_curr_fileblock c) (c_curr_file c) (c_curr_dir c) (c_curr_fat c)
    (c_header c) (c_dirs c) (c_bats c) (c_workarea c) (c_cmd_usr_buf c) (c_ext_cb c) (c_tx_cb c) (c_exi_cb c)
    (c_api_cb c) (c_xfer_cb c) (c_erase_cb c) (c_unlock_cb c).
Definition set_c_cmd_mode (x : Z) (c : card_block) : card_block :=
  mk_card
    (c_cmd c) (c_cmd_len c) x (c_cmd_blck_cnt c) (c_cmd_sector_addr c) (c_cmd_retries c) (c_attached c)
    (c_result c) (c_cid c) (c_card_size c) (c_mount_step c) (c_format_step c) (c_sector_size c) (c_blocks c)
    (c_latency c) (c_transfer_cnt c) (c_curr_fileblock c) (c_curr_file c) (c_curr_dir c) (c_curr_fat c)
    (c_header c) (c_dirs c) (c_bats c) (c_workarea c) (c_cmd_usr_buf c) (c_ext_cb c) (c_tx_cb c) (c_exi_cb c)
    (c_api_cb c) (c_xfer_cb c) (c_erase_cb c) (c_unlock_cb c).
Definition set_c_cmd_blck_cnt (x : Z) (c : card_block) : card_block :=
  mk_card
    (c_cmd c) (c_cmd_len c) (c_cmd_mode c) x (c_cmd_sector_addr c) (c_cmd_retries c) (c_attached c) (c_result c)
    (c_cid c) (c_card_size c) (c_mount_step c) (c_format_step c) (c_sector_size c) (c_blocks c) (c_latency c)
    (c_transfer_cnt c) (c_curr_fileblock c) (c_curr_file c) (c_curr_dir c) (c_curr_fat c) (c_header c) (c_dirs
    c) (c_bats c) (c_workarea c) (c_cmd_usr_buf c) (c_ext_cb c) (c_tx_cb c) (c_exi_cb c) (c_api_cb c) (c_xfer_cb
    c) (c_erase_cb c) (c_unlock_cb c).
Definition set_c_cmd_sector_addr (x : Z) (c : card_block) : card_block :=
  mk_card
    (c_cmd c) (c_cmd_len c) (c_cmd_mode c) (c_cmd_blck_cnt c) x (c_cmd_retries c) (c_attached c) (c_result c)
    (c_cid c) (c_card_size c) (c_mount_step c) (c_format_step c) (c_sector_size c) (c_blocks c) (c_latency c)
    (c_transfer_cnt c) (c_curr_fileblock c) (c_curr_file c) (c_curr_dir c) (c_curr_fat c) (c_header c) (c_dirs
    c) (c_bats c) (c_workarea c) (c_cmd_usr_buf c) (c_ext_cb c) (c_tx_cb c) (c_exi_cb c) (c_api_cb c) (c_xfer_cb
    c) (c_erase_cb c) (c_unlock_cb c).
Definition set_c_cmd_retries (x : Z) (c : card_block) : card_block :=
  mk_card
    (c_cmd c) (c_cmd_len c) (c_cmd_mode c) (c_cmd_blck_cnt c) (c_cmd_sector_addr c) x (c_attached c) (c_result
    c) (c_cid c) (c_card_size c) (c_mount_step c) (c_format_step c) (c_sector_size c) (c_blocks c) (c_latency c)
    (c_transfer_cnt c) (c_curr_fileblock c) (c_curr_file c) (c_curr_dir c) (c_curr_fat c) (c_header c) (c_dirs
    c) (c_bats c) (c_workarea c) (c_cmd_usr_buf c) (c_ext_cb c) (c_tx_cb c) (c_exi_cb c) (c_api_cb c) (c_xfer_cb
    c) (c_erase_cb c) (c_unlock_cb c).
Definition set_c_attached (x : Z) (c : card_block) : card_block :=
  mk_card
    (c_cmd c) (c_cmd_len c) (c_cmd_mode c) (c_cmd_blck_cnt c) (c_cmd_sector_addr c) (c_cmd_retries c) x
    (c_result c) (c_cid c) (c_card_size c) (c_mount_step c) (c_format_step c) (c_sector_size c) (c_blocks c)
    (c_latency c) (c_transfer_cnt c) (c_curr_fileblock c) (c_curr_file c) (c_curr_dir c) (c_curr_fat c)
    (c_header c) (c_dirs c) (c_bats c) (c_workarea c) (c_cmd_usr_buf c) (c_ext_cb c) (c_tx_cb c) (c_exi_cb c)
    (c_api_cb c) (c_xfer_cb c) (c_erase_cb c) (c_unlock_cb c).
Definition set_c_result (x : Z) (c : card_block) : card_block :=
  mk_card
    (c_cmd c) (c_cmd_len c) (c_cmd_mode c) (c_cmd_blck_cnt c) (c_cmd_sector_addr c) (c_cmd_retries c)
    (c_attached c) x (c_cid c) (c_card_size c) (c_mount_step c) (c_format_step c) (c_sector_size c) (c_blocks c)
    (c_latency c) (c_transfer_cnt c) (c_curr_fileblock c) (c_curr_file c) (c_curr_dir c) (c_curr_fat c)
    (c_header c) (c_dirs c) (c_bats c) (c_workarea c) (c_cmd_usr_buf c) (c_ext_cb c) (c_tx_cb c) (c_exi_cb c)
    (c_api_cb c) (c_xfer_cb c) (c_erase_cb c) (c_unlock_cb c).
Definition set_c_cid (x : Z) (c : card_block) : card_block :=
  mk_card
    (c_cmd c) (c_cmd_len c) (c_cmd_mode c) (c_cmd_blck_cnt c) (c_cmd_sector_addr c) (c_cmd_retries c)
    (c_attached c) (c_result c) x (c_card_size c) (c_mount_step c) (c_format_step c) (c_sector_size c) (c_blocks
    c) (c_latency c) (c_transfer_cnt c) (c_curr_fileblock c) (c_curr_file c) (c_curr_dir c) (c_curr_fat c)
    (c_header c) (c_dirs c) (c_bats c) (c_workarea c) (c_cmd_usr_buf c) (c_ext_cb c) (c_tx_cb c) (c_exi_cb c)
    (c_api_cb c) (c_xfer_cb c) (c_erase_cb c) (c_unlock_cb c).
Definition set_c_card_size (x : Z) (c : card_block) : card_block :=
  mk_card
    (c_cmd c) (c_cmd_len c) (c_cmd_mode c) (c_cmd_blck_cnt c) (c_cmd_sector_addr c) (c_cmd_retries c)
    (c_attached c) (c_result c) (c_cid c) x (c_mount_step c) (c_format_step c) (c_sector_size c) (c_blocks c)
    (c_latency c) (c_transfer_cnt c) (c_curr_fileblock c) (c_curr_file c) (c_curr_dir c) (c_curr_fat c)
    (c_header c) (c_dirs c) (c_bats c) (c_workarea c) (c_cmd_usr_buf c) (c_ext_cb c) (c_tx_cb c) (c_exi_cb c)
    (c_api_cb c) (c_xfer_cb c) (c_erase_cb c) (c_unlock_cb c).
Definition set_c_mount_step (x : Z) (c : card_block) : card_block :=
  mk_card
    (c_cmd c) (c_cmd_len c) (c_cmd_mode c) (c_cmd_blck_cnt c) (c_cmd_sector_addr c) (c_cmd_retries c)
    (c_attached c) (c_result c) (c_cid c) (c_card_size c) x (c_format_step c) (c_sector_size c) (c_blocks c)
    (c_latency c) (c_transfer_cnt c) (c_curr_fileblock c) (c_curr_file c) (c_curr_dir c) (c_curr_fat c)
    (c_header c) (c_dirs c) (c_bats c) (c_workarea c) (c_cmd_usr_buf c) (c_ext_cb c) (c_tx_cb c) (c_exi_cb c)
    (c_api_cb c) (c_xfer_cb c) (c_erase_cb c) (c_unlock_cb c).
Definition set_c_format_step (x : Z) (c : card_block) : card_block :=
  mk_card
    (c_cmd c) (c_cmd_len c) (c_cmd_mode c) (c_cmd_blck_cnt c) (c_cmd_sector_addr c) (c_cmd_retries c)
    (c_attached c) (c_result c) (c_cid c) (c_card_size c) (c_mount_step c) x (c_sector_size c) (c_blocks c)
    (c_latency c) (c_transfer_cnt c) (c_curr_fileblock c) (c_curr_file c) (c_curr_dir c) (c_curr_fat c)
    (c_header c) (c_dirs c) (c_bats c) (c_workarea c) (c_cmd_usr_buf c) (c_ext_cb c) (c_tx_cb c) (c_exi_cb c)
    (c_api_cb c) (c_xfer_cb c) (c_erase_cb c) (c_unlock_cb c).
Definition set_c_sector_size (x : Z) (c : card_block) : card_block :=
  mk_card
    (c_cmd c) (c_cmd_len c) (c_cmd_mode c) (c_cmd_blck_cnt c) (c_cmd_sector_addr c) (c_cmd_retries c)
    (c_attached c) (c_result c) (c_cid c) (c_card_size c) (c_mount_step c) (c_format_step c) x (c_blocks c)
    (c_latency c) (c_transfer_cnt c) (c_curr_fileblock c) (c_curr_file c) (c_curr_dir c) (c_curr_fat c)
    (c_header c) (c_dirs c) (c_bats c) (c_workarea c) (c_cmd_usr_buf c) (c_ext_cb c) (c_tx_cb c) (c_exi_cb c)
    (c_api_cb c) (c_xfer_cb c) (c_erase_cb c) (c_unlock_cb c).
Definition set_c_blocks (x : Z) (c : card_block) : card_block :=
  mk_card
    (c_cmd c) (c_cmd_len c) (c_cmd_mode c) (c_cmd_blck_cnt c) (c_cmd_sector_addr c) (c_cmd_retries c)
    (c_attached c) (c_result c) (c_cid c) (c_card_size c) (c_mount_step c) (c_format_step c) (c_sector_size c) x
    (c_latency c) (c_transfer_cnt c) (c_curr_fileblock c) (c_curr_file c) (c_curr_dir c) (c_curr_fat c)
    (c_header c) (c_dirs c) (c_bats c) (c_workarea c) (c_cmd_usr_buf c) (c_ext_cb c) (c_tx_cb c) (c_exi_cb c)
    (c_api_cb c) (c_xfer_cb c) (c_erase_cb c) (c_unlock_cb c).
Definition set_c_latency (x : Z) (c : card_block) : card_block :=
  mk_card
    (c_cmd c) (c_cmd_len c) (c_cmd_mode c) (c_cmd_blck_cnt c) (c_cmd_sector_addr c) (c_cmd_retries c)
    (c_attached c) (c_result c) (c_cid c) (c_card_size c) (c_mount_step c) (c_format_step c) (c_sector_size c)
    (c_blocks c) x (c_transfer_cnt c) (c_curr_fileblock c) (c_curr_file c) (c_curr_dir c) (c_curr_fat c)
    (c_header c) (c_dirs c) (c_bats c) (c_workarea c) (c_cmd_usr_buf c) (c_ext_cb c) (c_tx_cb c) (c_exi_cb c)
    (c_api_cb c) (c_xfer_cb c) (c_erase_cb c) (c_unlock_cb c).
Definition set_c_transfer_cnt (x : Z) (c : card_block) : card_block :=
  mk_card
    (c_cmd c) (c_cmd_len c) (c_cmd_mode c) (c_cmd_blck_cnt c) (c_cmd_sector_addr c) (c_cmd_retries c)
    (c_attached c) (c_result c) (c_cid c) (c_card_size c) (c_mount_step c) (c_format_step c) (c_sector_size c)
    (c_blocks c) (c_latency c) x (c_curr_fileblock c) (c_curr_file c) (c_curr_dir c) (c_curr_fat c) (c_header c)
    (c_dirs c) (c_bats c) (c_workarea c) (c_cmd_usr_buf c) (c_ext_cb c) (c_tx_cb c) (c_exi_cb c) (c_api_cb c)
    (c_xfer_cb c) (c_erase_cb c) (c_unlock_cb c).
Definition set_c_curr_fileblock (x : Z) (c : card_block) : card_block :=
  mk_card
    (c_cmd c) (c_cmd_len c) (c_cmd_mode c) (c_cmd_blck_cnt c) (c_cmd_sector_addr c) (c_cmd_retries c)
    (c_attached c) (c_result c) (c_cid c) (c_card_size c) (c_mount_step c) (c_format_step c) (c_sector_size c)
    (c_blocks c) (c_latency c) (c_transfer_cnt c) x (c_curr_file c) (c_curr_dir c) (c_curr_fat c) (c_header c)
    (c_dirs c) (c_bats c) (c_workarea c) (c_cmd_usr_buf c) (c_ext_cb c) (c_tx_cb c) (c_exi_cb c) (c_api_cb c)
    (c_xfer_cb c) (c_erase_cb c) (c_unlock_cb c).
Definition set_c_curr_file (x : Z) (c : card_block) : card_block :=
  mk_card
    (c_cmd c) (c_cmd_len c) (c_cmd_mode c) (c_cmd_blck_cnt c) (c_cmd_sector_addr c) (c_cmd_retries c)
    (c_attached c) (c_result c) (c_cid c) (c_card_size c) (c_mount_step c) (c_format_step c) (c_sector_size c)
    (c_blocks c) (c_latency c) (c_transfer_cnt c) (c_curr_fileblock c) x (c_curr_dir c) (c_curr_fat c) (c_header
    c) (c_dirs c) (c_bats c) (c_workarea c) (c_cmd_usr_buf c) (c_ext_cb c) (c_tx_cb c) (c_exi_cb c) (c_api_cb c)
    (c_xfer_cb c) (c_erase_cb c) (c_unlock_cb c).
Definition set_c_curr_dir (x : Z) (c : card_block) : card_block :=
  mk_card
    (c_cmd c) (c_cmd_len c) (c_cmd_mode c) (c_cmd_blck_cnt c) (c_cmd_sector_addr c) (c_cmd_retries c)
    (c_attached c) (c_result c) (c_cid c) (c_card_size c) (c_mount_step c) (c_format_step c) (c_sector_size c)
    (c_blocks c) (c_latency c) (c_transfer_cnt c) (c_curr_fileblock c) (c_curr_file c) x (c_curr_fat c)
    (c_header c) (c_dirs c) (c_bats c) (c_workarea c) (c_cmd_usr_buf c) (c_ext_cb c) (c_tx_cb c) (c_exi_cb c)
    (c_api_cb c) (c_xfer_cb c) (c_erase_cb c) (c_unlock_cb c).
Definition set_c_curr_fat (x : Z) (c : card_block) : card_block :=
  mk_card
    (c_cmd c) (c_cmd_len c) (c_cmd_mode c) (c_cmd_blck_cnt c) (c_cmd_sector_addr c) (c_cmd_retries c)
    (c_attached c) (c_result c) (c_cid c) (c_card_size c) (c_mount_step c) (c_format_step c) (c_sector_size c)
    (c_blocks c) (c_latency c) (c_transfer_cnt c) (c_curr_fileblock c) (c_curr_file c) (c_curr_dir c) x
    (c_header c) (c_dirs c) (c_bats c) (c_workarea c) (c_cmd_usr_buf c) (c_ext_cb c) (c_tx_cb c) (c_exi_cb c)
    (c_api_cb c) (c_xfer_cb c) (c_erase_cb c) (c_unlock_cb c).
Definition set_c_header (x : card_header) (c : card_block) : card_block :=
  mk_card
    (c_cmd c) (c_cmd_len c) (c_cmd_mode c) (c_cmd_blck_cnt c) (c_cmd_sector_addr c) (c_cmd_retries c)
    (c_attached c) (c_result c) (c_cid c) (c_card_size c) (c_mount_step c) (c_format_step c) (c_sector_size c)
    (c_blocks c) (c_latency c) (c_transfer_cnt c) (c_curr_fileblock c) (c_curr_file c) (c_curr_dir c)
    (c_curr_fat c) x (c_dirs c) (c_bats c) (c_workarea c) (c_cmd_usr_buf c) (c_ext_cb c) (c_tx_cb c) (c_exi_cb
    c) (c_api_cb c) (c_xfer_cb c) (c_erase_cb c) (c_unlock_cb c).
Definition set_c_dirs (x : Z -> card_dat) (c : card_block) : card_block :=
  mk_card
    (c_cmd c) (c_cmd_len c) (c_cmd_mode c) (c_cmd_blck_cnt c) (c_cmd_sector_addr c) (c_cmd_retries c)
    (c_attached c) (c_result c) (c_cid c) (c_card_size c) (c_mount_step c) (c_format_step c) (c_sector_size c)
    (c_blocks c) (c_latency c) (c_transfer_cnt c) (c_curr_fileblock c) (c_curr_file c) (c_curr_dir c)
    (c_curr_fat c) (c_header c) x (c_bats c) (c_workarea c) (c_cmd_usr_buf c) (c_ext_cb c) (c_tx_cb c) (c_exi_cb
    c) (c_api_cb c) (c_xfer_cb c) (c_erase_cb c) (c_unlock_cb c).
Definition set_c_bats (x : Z -> card_bat) (c : card_block) : card_block :=
  mk_card
    (c_cmd c) (c_cmd_len c) (c_cmd_mode c) (c_cmd_blck_cnt c) (c_cmd_sector_addr c) (c_cmd_retries c)
    (c_attached c) (c_result c) (c_cid c) (c_card_size c) (c_mount_step c) (c_format_step c) (c_sector_size c)
    (c_blocks c) (c_latency c) (c_transfer_cnt c) (c_curr_fileblock c) (c_curr_file c) (c_curr_dir c)
    (c_curr_fat c) (c_header c) (c_dirs c) x (c_workarea c) (c_cmd_usr_buf c) (c_ext_cb c) (c_tx_cb c) (c_exi_cb
    c) (c_api_cb c) (c_xfer_cb c) (c_erase_cb c) (c_unlock_cb c).
Definition set_c_workarea (x : Z) (c : card_block) : card_block :=
  mk_card
    (c_cmd c) (c_cmd_len c) (c_cmd_mode c) (c_cmd_blck_cnt c) (c_cmd_sector_addr c) (c_cmd_retries c)
    (c_attached c) (c_result c) (c_cid c) (c_card_size c) (c_mount_step c) (c_format_step c) (c_sector_size c)
    (c_blocks c) (c_latency c) (c_transfer_cnt c) (c_curr_fileblock c) (c_curr_file c) (c_curr_dir c)
    (c_curr_fat c) (c_header c) (c_dirs c) (c_bats c) x (c_cmd_usr_buf c) (c_ext_cb c) (c_tx_cb c) (c_exi_cb c)
    (c_api_cb c) (c_xfer_cb c) (c_erase_cb c) (c_unlock_cb c).
Definition set_c_cmd_usr_buf (x : Z) (c : card_block) : card_block :=
  mk_card
    (c_cmd c) (c_cmd_len c) (c_cmd_mode c) (c_cmd_blck_cnt c) (c_cmd_sector_addr c) (c_cmd_retries c)
    (c_attached c) (c_result c) (c_cid c) (c_card_size c) (c_mount_step c) (c_format_step c) (c_sector_size c)
    (c_blocks c) (c_latency c) (c_transfer_cnt c) (c_curr_fileblock c) (c_curr_file c) (c_curr_dir c)
    (c_curr_fat c) (c_header c) (c_dirs c) (c_bats c) (c_workarea c) x (c_ext_cb c) (c_tx_cb c) (c_exi_cb c)
    (c_api_cb c) (c_xfer_cb c) (c_erase_cb c) (c_unlock_cb c).
Definition set_c_ext_cb (x : cardcallback) (c : card_block) : card_block :=
  mk_card
    (c_cmd c) (c_cmd_len c) (c_cmd_mode c) (c_cmd_blck_cnt c) (c_cmd_sector_addr c) (c_cmd_retries c)
    (c_attached c) (c_result c) (c_cid c) (c_card_size c) (c_mount_step c) (c_format_step c) (c_sector_size c)
    (c_blocks c) (c_latency c) (c_transfer_cnt c) (c_curr_fileblock c) (c_curr_file c) (c_curr_dir c)
    (c_curr_fat c) (c_header c) (c_dirs c) (c_bats c) (c_workarea c) (c_cmd_usr_buf c) x (c_tx_cb c) (c_exi_cb
    c) (c_api_cb c) (c_xfer_cb c) (c_erase_cb c) (c_unlock_cb c).
Definition set_c_tx_cb (x : cardcallback) (c : card_block) : card_block :=
  mk_card
    (c_cmd c) (c_cmd_len c) (c_cmd_mode c) (c_cmd_blck_cnt c) (c_cmd_sector_addr c) (c_cmd_retries c)
    (c_attached c) (c_result c) (c_cid c) (c_card_size c) (c_mount_step c) (c_format_step c) (c_sector_size c)
    (c_blocks c) (c_latency c) (c_transfer_cnt c) (c_curr_fileblock c) (c_curr_file c) (c_curr_dir c)
    (c_curr_fat c) (c_header c) (c_dirs c) (c_bats c) (c_workarea c) (c_cmd_usr_buf c) (c_ext_cb c) x (c_exi_cb
    c) (c_api_cb c) (c_xfer_cb c) (c_erase_cb c) (c_unlock_cb c).
Definition set_c_exi_cb (x : cardcallback) (c : card_block) : card_block :=
  mk_card
    (c_cmd c) (c_cmd_len c) (c_cmd_mode c) (c_cmd_blck_cnt c) (c_cmd_sector_addr c) (c_cmd_retries c)
    (c_attached c) (c_result c) (c_cid c) (c_card_size c) (c_mount_step c) (c_format_step c) (c_sector_size c)
    (c_blocks c) (c_latency c) (c_transfer_cnt c) (c_curr_fileblock c) (c_curr_file c) (c_curr_dir c)
    (c_curr_fat c) (c_header c) (c_dirs c) (c_bats c) (c_workarea c) (c_cmd_usr_buf c) (c_ext_cb c) (c_tx_cb c)
    x (c_api_cb c) (c_xfer_cb c) (c_erase_cb c) (c_unlock_cb c).
Definition set_c_api_cb (x : cardcallback) (c : card_block) : card_block :=
  mk_card
    (c_cmd c) (c_cmd_len c) (c_cmd_mode c) (c_cmd_blck_cnt c) (c_cmd_sector_addr c) (c_cmd_retries c)
    (c_attached c) (c_result c) (c_cid c) (c_card_size c) (c_mount_step c) (c_format_step c) (c_sector_size c)
    (c_blocks c) (c_latency c) (c_transfer_cnt c) (c_curr_fileblock c) (c_curr_file c) (c_curr_dir c)
    (c_curr_fat c) (c_header c) (c_dirs c) (c_bats c) (c_workarea c) (c_cmd_usr_buf c) (c_ext_cb c) (c_tx_cb c)
    (c_exi_cb c) x (c_xfer_cb c) (c_erase_cb c) (c_unlock_cb c).
Definition set_c_xfer_cb (x : cardcallback) (c : card_block) : card_block :=
  mk_card
    (c_cmd c) (c_cmd_len c) (c_cmd_mode c) (c_cmd_blck_cnt c) (c_cmd_sector_addr c) (c_cmd_retries c)
    (c_attached c) (c_result c) (c_cid c) (c_card_size c) (c_mount_step c) (c_format_step c) (c_sector_size c)
    (c_blocks c) (c_latency c) (c_transfer_cnt c) (c_curr_fileblock c) (c_curr_file c) (c_curr_dir c)
    (c_curr_fat c) (c_header c) (c_dirs c) (c_bats c) (c_workarea c) (c_cmd_usr_buf c) (c_ext_cb c) (c_tx_cb c)
    (c_exi_cb c) (c_api_cb c) x (c_erase_cb c) (c_unlock_cb c).
Definition set_c_erase_cb (x : cardcallback) (c : card_block) : card_block :=
  mk_card
    (c_cmd c) (c_cmd_len c) (c_cmd_mode c) (c_cmd_blck_cnt c) (c_cmd_sector_addr c) (c_cmd_retries c)
    (c_attached c) (c_result c) (c_cid c) (c_card_size c) (c_mount_step c) (c_format_step c) (c_sector_size c)
    (c_blocks c) (c_latency c) (c_transfer_cnt c) (c_curr_fileblock c) (c_curr_file c) (c_curr_dir c)
    (c_curr_fat c) (c_header c) (c_dirs c) (c_bats c) (c_workarea c) (c_cmd_usr_buf c) (c_ext_cb c) (c_tx_cb c)
    (c_exi_cb c) (c_api_cb c) (c_xfer_cb c) x (c_unlock_cb c).
Definition set_c_unlock_cb (x : cardcallback) (c : card_block) : card_block :=
  mk_card
    (c_cmd c) (c_cmd_len c) (c_cmd_mode c) (c_cmd_blck_cnt c) (c_cmd_sector_addr c) (c_cmd_retries c)
    (c_attached c) (c_result c) (c_cid c) (c_card_size c) (c_mount_step c) (c_format_step c) (c_sector_size c)
    (c_blocks c) (c_latency c) (c_transfer_cnt c) (c_curr_fileblock c) (c_curr_file c) (c_curr_dir c)
    (c_curr_fat c) (c_header c) (c_dirs c) (c_bats c) (c_workarea c) (c_cmd_usr_buf c) (c_ext_cb c) (c_tx_cb c)
    (c_exi_cb c) (c_api_cb c) (c_xfer_cb c) (c_erase_cb c) x.

(** ** State and monad *)

(** The calls that leave the driver. *)
Inductive event :=
| EXI_Lock (chn : Z) (handler : bool)
| EXI_Unlock (chn : Z)
| EXI_Select (chn : Z)
| EXI_Deselect (chn : Z)
| EXI_Imm (chn : Z) (data : list Z)
| EXI_ImmRead (chn : Z)
| EXI_Sync (chn : Z)
| EXI_ImmEx (chn : Z) (data : list Z)
| EXI_ImmEx_from (chn buffer len : Z)
| EXI_Dma (chn buffer len mode : Z)
| EXI_Probe (chn : Z)
| EXI_ProbeEx (chn : Z)
| EXI_Attach (chn : Z)
| EXI_Detach (chn : Z)
| EXI_GetState (chn : Z)
| EXI_GetID (chn : Z)
| EXI_Data (chn : Z)
| EXI_RegisterEXICallback (chn : Z) (handler : bool)
| SYS_SetCardAlarm (chn sec nsec : Z)
| SYS_CancelCardAlarm (chn : Z)
| Broadcast (chn : Z)
| UserCallback (fn chn result : Z).

Record cst := mk_cst {
  g_map : Z -> card_block; (* [cardmap] *)
  g_files : Z -> card_file; (* the [card_file] at an address *)
  g_gamecode : list Z; (* [card_gamecode] *)
  g_company : list Z; (* [card_company] *)
  g_inited : Z; (* [card_inited] *)
  g_time : Z; (* the time base *)
  g_flash_id : Z -> list Z; (* [flash_id] of the SRAM, by slot *)
  g_flash_sum : Z -> Z; (* [flashID_chksum] of the SRAM, by slot *)
  g_exi : nat -> Z; (* the answers of the EXI driver *)
  g_pos : nat; (* answers used so far *)
  g_log : list event; (* what was asked of the EXI driver and the system, last first *)
}.

Definition set_g_map (x : Z -> card_block) (s : cst) : cst :=
  mk_cst
    x (g_files s) (g_gamecode s) (g_company s) (g_inited s) (g_time s) (g_flash_id s) (g_flash_sum s) (g_exi s)
    (g_pos s) (g_log s).
Definition set_g_files (x : Z -> card_file) (s : cst) : cst :=
  mk_cst
    (g_map s) x (g_gamecode s) (g_company s) (g_inited s) (g_time s) (g_flash_id s) (g_flash_sum s) (g_exi s)
    (g_pos s) (g_log s).
Definition set_g_gamecode (x : list Z) (s : cst) : cst :=
  mk_cst
    (g_map s) (g_files s) x (g_company s) (g_inited s) (g_time s) (g_flash_id s) (g_flash_sum s) (g_exi s)
    (g_pos s) (g_log s).
Definition set_g_company (x : list Z) (s : cst) : cst :=
  mk_cst
    (g_map s) (g_files s) (g_gamecode s) x (g_inited s) (g_time s) (g_flash_id s) (g_flash_sum s) (g_exi s)
    (g_pos s) (g_log s).
Definition set_g_inited (x : Z) (s : cst) : cst :=
  mk_cst
    (g_map s) (g_files s) (g_gamecode s) (g_company s) x (g_time s) (g_flash_id s) (g_flash_sum s) (g_exi s)
    (g_pos s) (g_log s).
Definition set_g_time (x : Z) (s : cst) : cst :=
  mk_cst
    (g_map s) (g_files s) (g_gamecode s) (g_company s) (g_inited s) x (g_flash_id s) (g_flash_sum s) (g_exi s)
    (g_pos s) (g_log s).
Definition set_g_flash_id (x : Z -> list Z) (s : cst) : cst :=
  mk_cst
    (g_map s) (g_files s) (g_gamecode s) (g_company s) (g_inited s) (g_time s) x (g_flash_sum s) (g_exi s)
    (g_pos s) (g_log s).
Definition set_g_flash_sum (x : Z -> Z) (s : cst) : cst :=
  mk_cst
    (g_map s) (g_files s) (g_gamecode s) (g_company s) (g_inited s) (g_time s) (g_flash_id s) x (g_exi s) (g_pos
    s) (g_log s).
Definition set_g_exi (x : nat -> Z) (s : cst) : cst :=
  mk_cst
    (g_map s) (g_files s) (g_gamecode s) (g_company s) (g_inited s) (g_time s) (g_flash_id s) (g_flash_sum s) x
    (g_pos s) (g_log s).
Definition set_g_pos (x : nat) (s : cst) : cst :=
  mk_cst
    (g_map s) (g_files s) (g_gamecode s) (g_company s) (g_inited s) (g_time s) (g_flash_id s) (g_flash_sum s)
    (g_exi s) x (g_log s).
Definition set_g_log (x : list event) (s : cst) : cst :=
  mk_cst
    (g_map s) (g_files s) (g_gamecode s) (g_company s) (g_inited s) (g_time s) (g_flash_id s) (g_flash_sum s)
    (g_exi s) (g_pos s) x.

(** The next answer of the EXI driver to the call [e]. *)
Definition exi (e : event) : M cst Z :=
  fun s => Ok (g_exi s (g_pos s), set_g_log (e :: g_log s) (set_g_pos (S (g_pos s)) s)).
(** A call whose answer is not used. *)
Definition emit (e : event) : M cst unit := modify (fun s => set_g_log (e :: g_log s) s).

Definition rd {A} (chn : Z) (f : card_block -> A) : M cst A := gets (fun s => f (g_map s chn)).
Definition upd (chn : Z) (u : card_block -> card_block) : M cst unit :=
  modify (fun s => set_g_map (fupd (g_map s) chn (u (g_map s chn))) s).
Definition rd_file {A} (p : Z) (f : card_file -> A) : M cst A := gets (fun s => f (g_files s p)).
Definition upd_file (p : Z) (u : card_file -> card_file) : M cst unit :=
  modify (fun s => set_g_files (fupd (g_files s) p (u (g_files s p))) s).

(** The system blocks [curr_dir] and [curr_fat] point to. *)
Definition deref (p : Z) : M cst unit := if p =? 0 then fail BadAccess else ret tt.
Definition cur_dir (chn : Z) : M cst card_dat :=
  p <- rd chn c_curr_dir; deref p;; rd chn (fun c => c_dirs c p).
Definition put_dir (chn : Z) (d : card_dat) : M cst unit :=
  p <- rd chn c_curr_dir; deref p;; upd chn (fun c => set_c_dirs (fupd (c_dirs c) p d) c).
Definition cur_fat (chn : Z) : M cst card_bat :=
  p <- rd chn c_curr_fat; deref p;; rd chn (fun c => c_bats c p).
Definition put_fat (chn : Z) (b : card_bat) : M cst unit :=
  p <- rd chn c_curr_fat; deref p;; upd chn (fun c => set_c_bats (fupd (c_bats c) p b) c).

(** Indexing an array of the source; outside of it the access is undefined. *)
Definition at_index {A} (l : list A) (i : Z) : M cst A :=
  if i <? 0 then fail BadAccess else
  match l !! Z.to_nat i with Some x => ret x | None => fail BadAccess end.
Definition cur_entry (chn i : Z) : M cst card_direntry := d <- cur_dir chn; at_index (dat_entries d) i.
Definition put_entry (chn i : Z) (e : card_direntry) : M cst unit :=
  d <- cur_dir chn;
  at_index (dat_entries d) i;;
  put_dir chn (set_dat_entries (<[Z.to_nat i := e]> (dat_entries d)) d).

Definition bad_slot (chn : Z) : bool := (chn <? 0) || (2 <=? chn).
Definition isz (x : Z) : bool := x =? 0.

(** ** Bytes and halfwords *)

Definition be16 (x : Z) : list Z := [Z.shiftr x 8; Z.land x 0xff].
Definition be32 (x : Z) : list Z :=
  [Z.shiftr x 24; Z.land (Z.shiftr x 16) 0xff; Z.land (Z.shiftr x 8) 0xff; Z.land x 0xff].
(** Bytes read as big endian halfwords. *)
Fixpoint halfs (l : list Z) : list Z :=
  match l with a :: b :: r => (256 * a + b) :: halfs r | _ => [] end.

Definition entry_bytes (e : card_direntry) : list Z :=
  de_gamecode e ++ de_company e ++ [de_pad_00 e; de_banner_fmt e] ++ de_filename e ++ be32 (de_last_modified e) ++
  be32 (de_icon_addr e) ++ be16 (de_icon_fmt e) ++ be16 (de_icon_speed e) ++ [de_permission e; de_copy_times e] ++
  be16 (de_block e) ++ be16 (de_length e) ++ be16 (de_pad_01 e) ++ be32 (de_comment_addr e).

(** The bytes of a block that its checksums cover, as halfwords. *)
Definition dat_halfs (d : card_dat) : list Z :=
  halfs (concat (map entry_bytes (dat_entries d)) ++ dat_pad d ++ be16 (dat_updated d)).
Definition bat_halfs (b : card_bat) : list Z := bat_updated b :: bat_freeblocks b :: bat_lastalloc b :: bat_fat b.
Definition header_halfs (h : card_header) : list Z :=
  halfs (h_serial h ++ be16 (h_device_id h) ++ be16 (h_size h) ++ be16 (h_encoding h) ++ h_padding h).
