(* ===== verification/Card.v ===== *)
(** * Memory cards: the driver ([libogc/card.c])

    The functions of the driver over [CardState]. Interrupts are off where the
    source turns them off; apart from that the driver is entered by its clients
    and by the handlers of the EXI interrupts, one at a time. Functions that call
    a callback through a pointer take the function [call] that runs it; [call_cb]
    at the end ties the knot. *)

From stdpp Require Import base list.
From Stdlib Require Import ZArith Lia.
From S2P Require Import Prelude Clock CardState.

Open Scope Z_scope.

(** ** Tables and checksums *)

Definition card_sector_size (i : Z) : Z :=
  nth (Z.to_nat i) [0x2000; 0x4000; 0x8000; 0x10000; 0x20000; 0x40000; 0; 0] 0.
Definition card_latency (i : Z) : Z := nth (Z.to_nat i) [4; 8; 0x10; 0x20; 0x40; 0x80; 0x100; 0x200] 0.

Definition ROTL (v s : Z) : Z := Z.lor (u32 (Z.shiftl v s)) (Z.shiftr v (32 - s)).

(** Both sums over the halfwords of a block. *)
Definition sum_step (c : Z * Z) (w : Z) : Z * Z := (u16 (fst c + w), u16 (snd c + Z.lxor w 0xffff)).
Definition card_checksum (buff : list Z) : Z * Z :=
  let c := fold_left sum_step buff (0, 0) in
  (if fst c =? 0xffff then 0 else fst c, if snd c =? 0xffff then 0 else snd c).

(** ** The control block *)

Definition card_putcntrlblock (chn result : Z) : M cst Z :=
  attached <- rd chn c_attached;
  old <- rd chn c_result;
  when (negb (isz attached) || (old =? CARD_ERROR_BUSY)) (upd chn (set_c_result result));;
  ret result.

Definition card_getcntrlblock (chn : Z) : M cst Z :=
  if bad_slot chn then ret CARD_ERROR_FATAL_ERROR else
  attached <- rd chn c_attached;
  if isz attached then ret CARD_ERROR_NOCARD else
  result <- rd chn c_result;
  if result =? CARD_ERROR_BUSY then ret CARD_ERROR_BUSY else
  upd chn (set_c_result CARD_ERROR_BUSY);;
  upd chn (set_c_api_cb CbNull);;
  ret CARD_ERROR_READY.

Definition CARD_GetErrorCode (chn : Z) : M cst Z :=
  if bad_slot chn then ret CARD_ERROR_NOCARD else rd chn c_result.

(** [ogc_card_sync] sleeps until the result is there. [env] is what runs each time
    the thread sleeps; if there is nothing left to wake it the thread sleeps for
    ever. *)
Fixpoint ogc_card_sync (chn : Z) (env : list (M cst unit)) : M cst Z :=
  r <- CARD_GetErrorCode chn;
  if r =? CARD_ERROR_BUSY then
    match env with [] => fail Hang | e :: env' => e;; ogc_card_sync chn env' end
  else ret r.

(** The synchronous form of an operation. *)
Definition synchronous (chn : Z) (async : M cst Z) (env : list (M cst unit)) : M cst Z :=
  r <- async; if 0 <=? r then ogc_card_sync chn env else ret r.

Definition ogc_card_synccallback (chn : Z) : M cst unit := emit (Broadcast chn).

(** ** Bytes of the caller *)

(** [memcmp(a,b,n)==0] for a complete object [a] of at least [n] bytes. *)
Fixpoint memcmp_eq (n : nat) (a b : list Z) : M cst bool :=
  match n with
  | O => ret true
  | S n' => match a, b with
            | x :: a', y :: b' => if x =? y then memcmp_eq n' a' b' else ret false
            | _, _ => fail BadAccess
            end
  end.

(** [strncmp(a,b,n)==0]. *)
Fixpoint strncmp_eq (n : nat) (a b : list Z) : M cst bool :=
  match n with
  | O => ret true
  | S n' => match a, b with
            | x :: a', y :: b' => if x =? y then (if x =? 0 then ret true else strncmp_eq n' a' b') else ret false
            | _, _ => fail BadAccess
            end
  end.

(** [strlen] *)
Fixpoint strlen (l : list Z) : M cst Z :=
  match l with [] => fail BadAccess | x :: r => if x =? 0 then ret 0 else n <- strlen r; ret (n + 1) end.

Definition byte_at (l : list Z) (i : Z) : M cst Z := at_index l i.
Definition take_bytes (n : nat) (l : list Z) : M cst (list Z) :=
  if (length l <? n)%nat then fail BadAccess else ret (firstn n l).
Definition used_entry (e : card_direntry) : M cst bool := g <- byte_at (de_gamecode e) 0; ret (negb (g =? 0xff)).

(** ** The EXI commands *)

Definition err_of (l : list Z) : bool := existsb isz l.

Definition ogc_card_readstatus (chn : Z) : M cst (Z * Z) :=
  if bad_slot chn then ret (CARD_ERROR_NOCARD, 0) else
  r <- exi (EXI_Select chn);
  if isz r then ret (CARD_ERROR_NOCARD, 0) else
  r1 <- exi (EXI_Imm chn [0x83; 0x00]);
  r2 <- exi (EXI_Sync chn);
  r3 <- exi (EXI_ImmRead chn);
  r4 <- exi (EXI_Sync chn);
  status <- exi (EXI_Data chn);
  r5 <- exi (EXI_Deselect chn);
  ret (if err_of [r1; r2; r3; r4; r5] then CARD_ERROR_NOCARD else CARD_ERROR_READY, u8 status).

Definition card_clearstatus (chn : Z) : M cst Z :=
  if bad_slot chn then ret CARD_ERROR_NOCARD else
  r <- exi (EXI_Select chn);
  if isz r then ret CARD_ERROR_NOCARD else
  r1 <- exi (EXI_Imm chn [0x89]);
  r2 <- exi (EXI_Sync chn);
  r3 <- exi (EXI_Deselect chn);
  ret (if err_of [r1; r2; r3] then CARD_ERROR_NOCARD else CARD_ERROR_READY).

Definition card_enableinterrupt (chn enable : Z) : M cst Z :=
  if bad_slot chn then ret CARD_ERROR_NOCARD else
  r <- exi (EXI_Select chn);
  if isz r then ret CARD_ERROR_NOCARD else
  r1 <- exi (EXI_Imm chn [0x81; if isz enable then 0 else 1]);
  r2 <- exi (EXI_Sync chn);
  r3 <- exi (EXI_Deselect chn);
  ret (if err_of [r1; r2; r3] then CARD_ERROR_BUSY else CARD_ERROR_READY).

Definition cmd0 (chn : Z) : M cst Z := cmd <- rd chn c_cmd; byte_at cmd 0.
Definition cmd_bytes (chn : Z) : M cst (list Z) :=
  cmd <- rd chn c_cmd; len <- rd chn c_cmd_len; take_bytes (Z.to_nat len) cmd.
(** [cmd[i] = v] for the first bytes of the command. *)
Definition set_cmd (chn : Z) (l : list Z) : M cst unit :=
  upd chn (fun c => set_c_cmd (l ++ skipn (length l) (c_cmd c)) c);;
  upd chn (set_c_cmd_len (Z.of_nat (length l))).

Definition setuptimeout (chn : Z) : M cst unit :=
  emit (SYS_CancelCardAlarm chn);;
  c0 <- cmd0 chn;
  if (c0 =? 0xf1) || (c0 =? 0xf4) then
    (size <- rd chn c_sector_size; emit (SYS_SetCardAlarm chn (u32 (2 * (size / 8192))) 0))
  else if c0 =? 0xf2 then emit (SYS_SetCardAlarm chn 0 100000000)
  else ret tt.

(** Giving the bus back after a failure. *)
Definition exi_giveup (chn : Z) : M cst Z :=
  emit (EXI_Deselect chn);; emit (EXI_Unlock chn);; ret CARD_ERROR_NOCARD.

Definition card_retry (chn : Z) : M cst Z :=
  if bad_slot chn then ret CARD_ERROR_NOCARD else
  r <- exi (EXI_Select chn);
  if isz r then (emit (EXI_Unlock chn);; ret CARD_ERROR_NOCARD) else
  setuptimeout chn;;
  cmd <- cmd_bytes chn;
  r <- exi (EXI_ImmEx chn cmd);
  if isz r then exi_giveup chn else
  c0 <- cmd0 chn;
  workarea <- rd chn c_workarea;
  latency <- rd chn c_latency;
  r <- (if c0 =? 0x52 then exi (EXI_ImmEx_from chn (u32 (workarea + CARD_READSIZE)) latency) else ret 1);
  if isz r then exi_giveup chn else
  mode <- rd chn c_cmd_mode;
  if mode =? 0xffffffff then (emit (EXI_Deselect chn);; emit (EXI_Unlock chn);; ret CARD_ERROR_READY) else
  buf <- rd chn c_cmd_usr_buf;
  r <- exi (EXI_Dma chn buf (if c0 =? 0x52 then CARD_READSIZE else 128) mode);
  if isz r then exi_giveup chn else ret CARD_ERROR_READY.

Definition card_start (chn : Z) (tx_cb exi_cb : cardcallback) : M cst Z :=
  if bad_slot chn then ret CARD_ERROR_NOCARD else
  when (negb (isnull tx_cb)) (upd chn (set_c_tx_cb tx_cb));;
  when (negb (isnull exi_cb)) (upd chn (set_c_exi_cb exi_cb));;
  upd chn (set_c_unlock_cb unlocked_cb);;
  r <- exi (EXI_Lock chn true);
  if isz r then ret CARD_ERROR_BUSY else
  upd chn (set_c_unlock_cb CbNull);;
  r <- exi (EXI_Select chn);
  if isz r then (emit (EXI_Unlock chn);; ret CARD_ERROR_NOCARD) else
  setuptimeout chn;;
  ret CARD_ERROR_READY.

(** The four address bytes of a page or segment command. *)
Definition page_address (a : Z) : list Z :=
  [Z.shiftr (Z.land a 0xFE0000) 17; Z.shiftr (Z.land a 0x01FE00) 9; Z.shiftr (Z.land a 0x000180) 7; Z.land a 0x00007F].

Definition ogc_card_writepage (chn : Z) (callback : cardcallback) : M cst Z :=
  if bad_slot chn then ret CARD_ERROR_NOCARD else
  a <- rd chn c_cmd_sector_addr;
  set_cmd chn (0xf2 :: page_address a);;
  upd chn (set_c_cmd_mode EXI_WRITE);;
  upd chn (set_c_cmd_retries 3);;
  r <- card_start chn CbNull callback;
  if r <? 0 then ret r else
  cmd <- cmd_bytes chn;
  r1 <- exi (EXI_ImmEx chn cmd);
  buf <- rd chn c_cmd_usr_buf;
  r2 <- (if r1 =? 1 then exi (EXI_Dma chn buf 128 EXI_WRITE) else ret 0);
  if r2 =? 1 then ret CARD_ERROR_READY else
  upd chn (set_c_exi_cb CbNull);;
  exi_giveup chn.

Definition ogc_card_readsegment (chn : Z) (callback : cardcallback) : M cst Z :=
  if bad_slot chn then ret CARD_ERROR_NOCARD else
  a <- rd chn c_cmd_sector_addr;
  set_cmd chn (0x52 :: page_address a);;
  upd chn (set_c_cmd_mode EXI_READ);;
  upd chn (set_c_cmd_retries 0);;
  r <- card_start chn callback CbNull;
  if r <? 0 then ret r else
  cmd <- cmd_bytes chn;
  workarea <- rd chn c_workarea;
  latency <- rd chn c_latency;
  buf <- rd chn c_cmd_usr_buf;
  r1 <- exi (EXI_ImmEx chn cmd);
  r2 <- exi (EXI_ImmEx_from chn (u32 (workarea + CARD_READSIZE)) latency);
  r3 <- exi (EXI_Dma chn buf CARD_READSIZE EXI_READ);
  if err_of [r1; r2; r3] then (upd chn (set_c_tx_cb CbNull);; exi_giveup chn) else ret CARD_ERROR_READY.

Definition ogc_card_sectorerase (chn sector : Z) (callback : cardcallback) : M cst Z :=
  if bad_slot chn then ret CARD_ERROR_FATAL_ERROR else
  size <- rd chn c_sector_size;
  if negb (isz (sector mod size)) then ret CARD_ERROR_FATAL_ERROR else
  set_cmd chn [0xf1; Z.land (Z.shiftr sector 17) 0x7f; Z.land (Z.shiftr sector 9) 0xff];;
  upd chn (set_c_cmd_mode 0xffffffff);;
  upd chn (set_c_cmd_retries 3);;
  r <- card_start chn CbNull callback;
  if r <? 0 then ret r else
  cmd <- cmd_bytes chn;
  r1 <- exi (EXI_ImmEx chn cmd);
  if isz r1 then (upd chn (set_c_exi_cb CbNull);; ret CARD_ERROR_NOCARD) else
  emit (EXI_Deselect chn);;
  emit (EXI_Unlock chn);;
  ret r.

Definition ogc_card_write (chn address block_len buffer : Z) (callback : cardcallback) : M cst Z :=
  if bad_slot chn then ret CARD_ERROR_FATAL_ERROR else
  attached <- rd chn c_attached;
  if isz attached then ret CARD_ERROR_NOCARD else
  upd chn (set_c_cmd_blck_cnt (Z.shiftr block_len 7));;
  upd chn (set_c_cmd_sector_addr address);;
  upd chn (set_c_cmd_usr_buf buffer);;
  upd chn (set_c_xfer_cb callback);;
  ogc_card_writepage chn blockwrite_cb.

Definition ogc_card_read (chn address block_len buffer : Z) (callback : cardcallback) : M cst Z :=
  if bad_slot chn then ret CARD_ERROR_NOCARD else
  upd chn (set_c_cmd_sector_addr address);;
  upd chn (set_c_cmd_blck_cnt (Z.shiftr block_len 9));;
  upd chn (set_c_cmd_usr_buf buffer);;
  upd chn (set_c_xfer_cb callback);;
  ogc_card_readsegment chn blockread_cb.

(** ** The system blocks *)

(** The checksums of a table and a directory agree with their contents. *)
Definition bat_sums_ok (b : card_bat) : bool :=
  let s := card_checksum (bat_halfs b) in (fst s =? bat_chksum1 b) && (snd s =? bat_chksum2 b).
Definition dat_sums_ok (d : card_dat) : bool :=
  let s := card_checksum (dat_halfs d) in (fst s =? dat_chksum1 d) && (snd s =? dat_chksum2 d).

(** The free blocks of a card of [blocks] blocks, counted in the table. *)
Fixpoint count_zeros (l : list Z) : Z :=
  match l with [] => 0 | x :: r => (if x =? 0 then 1 else 0) + count_zeros r end.
Definition count_free (blocks : Z) (fat : list Z) : Z := u16 (count_zeros (firstn (Z.to_nat (blocks - CARD_SYSAREA)) fat)).

Definition sys_dir (i : Z) : Z := Z.shiftl (i + 1) 13.
Definition sys_bat (i : Z) : Z := Z.shiftl (i + 3) 13.

(** One round of the loop of [__card_checkdir]: a bad copy is remembered. *)
Definition checkdir_step (chn : Z) (acc : Z * Z) (dir : Z) : M cst (Z * Z) :=
  d <- rd chn (fun c => c_dirs c (sys_dir dir));
  if dat_sums_ok d then ret acc
  else upd chn (set_c_curr_dir 0);; ret (fst acc + 1, dir).

(** The copy to work on: a bad one, else the older one; the other one is copied
    over it. *)
Definition choose_dir (chn bad bad_dir : Z) : M cst (Z * Z) :=
  d0 <- rd chn (fun c => c_dirs c (sys_dir 0));
  d1 <- rd chn (fun c => c_dirs c (sys_dir 1));
  (let dir := if isz bad then (if dat_updated d0 <? dat_updated d1 then 0 else 1) else bad_dir in
   curr <- rd chn c_curr_dir;
   if isz curr then
     upd chn (set_c_curr_dir (sys_dir dir));;
     upd chn (fun c => set_c_dirs (fupd (c_dirs c) (sys_dir dir) (c_dirs c (sys_dir (Z.lxor dir 1)))) c);;
     ret (bad, dir)
   else ret (bad, if curr =? sys_dir 0 then 0 else 1)).

Definition card_checkdir (chn : Z) : M cst (Z * Z) :=
  acc <- checkdir_step chn (0, 0) 0;
  acc <- checkdir_step chn acc 1;
  choose_dir chn (fst acc) (snd acc).

Definition checkfat_step (chn : Z) (acc : Z * Z) (fat : Z) : M cst (Z * Z) :=
  b <- rd chn (fun c => c_bats c (sys_bat fat));
  blocks <- rd chn c_blocks;
  if bat_sums_ok b && (count_free blocks (bat_fat b) =? bat_freeblocks b) then ret acc
  else upd chn (set_c_curr_fat 0);; ret (fst acc + 1, fat).

(** The copy to work on: a bad one, else the older one; the other one is copied
    over it. *)
Definition choose_fat (chn bad bad_fat : Z) : M cst (Z * Z) :=
  b0 <- rd chn (fun c => c_bats c (sys_bat 0));
  b1 <- rd chn (fun c => c_bats c (sys_bat 1));
  (let fat := if isz bad then (if bat_updated b0 <? bat_updated b1 then 0 else 1) else bad_fat in
   curr <- rd chn c_curr_fat;
   if isz curr then
     upd chn (set_c_curr_fat (sys_bat fat));;
     upd chn (fun c => set_c_bats (fupd (c_bats c) (sys_bat fat) (c_bats c (sys_bat (Z.lxor fat 1)))) c);;
     ret (bad, fat)
   else ret (bad, if curr =? sys_bat 0 then 0 else 1)).

Definition card_checkfat (chn : Z) : M cst (Z * Z) :=
  acc <- checkfat_step chn (0, 0) 0;
  acc <- checkfat_step chn acc 1;
  choose_fat chn (fst acc) (snd acc).

Definition card_verify (chn : Z) : M cst Z :=
  r1 <- card_checkdir chn;
  r2 <- card_checkfat chn;
  curr_dir <- rd chn c_curr_dir;
  curr_fat <- rd chn c_curr_fat;
  ret (if (fst r1 + fst r2 <=? 2) && negb (isz curr_dir) && negb (isz curr_fat) then CARD_ERROR_READY
       else CARD_ERROR_BROKEN).

Definition card_iscard (id : Z) : bool :=
  if negb (isz (Z.ldiff id 0xffff)) then false else
  if negb (isz (Z.land id 0x03)) then false else
  let tmp := Z.land id 0xfc in
  if existsb (Z.eqb tmp) [0x04; 0x08; 0x10; 0x20; 0x40; 0x80] then
    let idx := Z.land (ROTL id 23) 0x1c in
    let secsize := card_sector_size (Z.shiftr idx 2) in
    if isz secsize then false
    else 8 <? Z.land (u32 (Z.shiftl tmp 20)) 0x1FFE0000 / secsize
  else false.

(** Writing the changed table or directory starts with the erasure of its
    sector; the rest happens in the callbacks. *)
Definition seal_bat (b : card_bat) : card_bat :=
  let b := set_bat_updated (u16 (bat_updated b + 1)) b in
  let s := card_checksum (bat_halfs b) in
  set_bat_chksum2 (snd s) (set_bat_chksum1 (fst s) b).
Definition seal_dat (d : card_dat) : card_dat :=
  let d := set_dat_updated (u16 (dat_updated d + 1)) d in
  let s := card_checksum (dat_halfs d) in
  set_dat_chksum2 (snd s) (set_dat_chksum1 (fst s) d).

Definition card_updatefat (chn : Z) (callback : cardcallback) : M cst Z :=
  if bad_slot chn then ret CARD_ERROR_FATAL_ERROR else
  attached <- rd chn c_attached;
  if isz attached then ret CARD_ERROR_NOCARD else
  b <- cur_fat chn;
  put_fat chn (seal_bat b);;
  upd chn (set_c_erase_cb callback);;
  fatblock <- rd chn c_curr_fat;
  size <- rd chn c_sector_size;
  ogc_card_sectorerase chn (u32 (Z.shiftr fatblock 13 * size)) faterase_cb.

Definition card_updatedir (chn : Z) (callback : cardcallback) : M cst Z :=
  if bad_slot chn then ret CARD_ERROR_FATAL_ERROR else
  attached <- rd chn c_attached;
  if isz attached then ret CARD_ERROR_NOCARD else
  d <- cur_dir chn;
  put_dir chn (seal_dat d);;
  upd chn (set_c_erase_cb callback);;
  dirblock <- rd chn c_curr_dir;
  size <- rd chn c_sector_size;
  ogc_card_sectorerase chn (u32 (Z.shiftr dirblock 13 * size)) direrase_cb.

(** ** Allocation *)

(** Reading and writing [fat[block - CARD_SYSAREA]]. *)
Definition fat_get (fat : list Z) (block : Z) : option Z :=
  if block <? CARD_SYSAREA then None else fat !! Z.to_nat (block - CARD_SYSAREA).
Definition fat_set (fat : list Z) (block v : Z) : option (list Z) :=
  match fat_get fat block with
  | Some _ => Some (<[Z.to_nat (block - CARD_SYSAREA) := v]> fat)
  | None => None
  end.

(** How the loop of [__card_allocblock] ends: all blocks are linked, or the
    table was searched once without finding them. *)
Inductive alloc_result :=
| Allocated (fat : list Z) (block currblock : Z)
| NotFound (fat : list Z)
| AllocFault (f : fault).

Definition next_block (blocks currblock : Z) : Z :=
  let b := u16 (currblock + 1) in if (b <? CARD_SYSAREA) || (blocks <=? b) then CARD_SYSAREA else b.

Fixpoint alloc_loop (fuel : nat) (blocks : Z) (fat : list Z) (block currblock prevblock i count : Z) : alloc_result :=
  match fuel with
  | O => AllocFault OutOfFuel
  | S fuel' =>
    if i =? 0 then Allocated fat block currblock else
    let count := u32 (count + 1) in
    if u32 (blocks - CARD_SYSAREA) <? count then NotFound fat else
    let currblock := next_block blocks currblock in
    match fat_get fat currblock with
    | None => AllocFault BadAccess
    | Some v =>
      if v =? 0 then
        match (if negb (block =? 0xffff) then fat_set fat prevblock currblock else Some fat) with
        | None => AllocFault BadAccess
        | Some fat1 =>
          match fat_set fat1 currblock 0xffff with
          | None => AllocFault BadAccess
          | Some fat2 =>
            alloc_loop fuel' blocks fat2 (if negb (block =? 0xffff) then block else currblock) currblock currblock
              (i - 1) count
          end
        end
      else alloc_loop fuel' blocks fat block currblock prevblock i count
    end
  end.

(** The search makes at most one round over the table. *)
Definition alloc_fuel (blocks : Z) : nat := S (S (Z.to_nat (u32 (blocks - CARD_SYSAREA)))).

Definition card_allocblock (chn blocksneed : Z) (callback : cardcallback) : M cst Z :=
  if bad_slot chn then ret CARD_ERROR_FATAL_ERROR else
  attached <- rd chn c_attached;
  if isz attached then ret CARD_ERROR_NOCARD else
  b <- cur_fat chn;
  if bat_freeblocks b <? blocksneed then ret CARD_ERROR_INSSPACE else
  blocks <- rd chn c_blocks;
  match alloc_loop (alloc_fuel blocks) blocks (bat_fat b) 0xffff (bat_lastalloc b) 0 blocksneed 0 with
  | Allocated fat block currblock =>
      put_fat chn (set_bat_lastalloc currblock (set_bat_freeblocks (u16 (bat_freeblocks b - blocksneed)) (set_bat_fat fat b)));;
      upd chn (set_c_curr_fileblock block);;
      card_updatefat chn callback
  | NotFound fat => put_fat chn (set_bat_fat fat b);; ret CARD_ERROR_BROKEN
  | AllocFault f => fail f
  end.

(** How the loop of [__card_freeblock] ends: at the end of the chain, or at a
    number that is no block. *)
Inductive free_result :=
| Freed (fat : list Z) (freeblocks : Z)
| BrokenChain (fat : list Z) (freeblocks : Z)
| FreeFault (f : fault).

Fixpoint free_loop (fuel : nat) (blocks : Z) (fat : list Z) (freeblocks next : Z) : free_result :=
  match fuel with
  | O => FreeFault OutOfFuel
  | S fuel' =>
    if next =? 0xffff then Freed fat freeblocks else
    if (next <? CARD_SYSAREA) || (blocks <=? next) then BrokenChain fat freeblocks else
    match fat_get fat next, fat_set fat next 0 with
    | Some n, Some fat' => free_loop fuel' blocks fat' (u16 (freeblocks + 1)) n
    | _, _ => FreeFault BadAccess
    end
  end.

(** Every block visited is cleared, and a cleared block ends the loop. *)
Definition free_fuel (fat : list Z) : nat := S (S (length fat)).

Definition card_freeblock (chn block : Z) (callback : cardcallback) : M cst Z :=
  if bad_slot chn then ret CARD_ERROR_NOCARD else
  attached <- rd chn c_attached;
  if isz attached then ret CARD_ERROR_NOCARD else
  b <- cur_fat chn;
  blocks <- rd chn c_blocks;
  match fat_get (bat_fat b) block, fat_set (bat_fat b) block 0 with
  | Some next, Some fat =>
    match free_loop (free_fuel fat) blocks fat (u16 (bat_freeblocks b + 1)) next with
    | Freed fat free => put_fat chn (set_bat_freeblocks free (set_bat_fat fat b));; card_updatefat chn callback
    | BrokenChain fat free => put_fat chn (set_bat_freeblocks free (set_bat_fat fat b));; ret CARD_ERROR_BROKEN
    | FreeFault f => fail f
    end
  | _, _ => fail BadAccess
  end.

(** ** Directory *)

(** [__card_getfilenum]: the first used entry with the name and, where given, the
    codes. *)
Definition entry_matches (filename gamecode company : list Z) (e : card_direntry) : M cst bool :=
  used <- used_entry e;
  if negb used then ret false else
  same <- strncmp_eq (Z.to_nat CARD_FILENAMELEN) filename (de_filename e);
  if negb same then ret false else
  g <- byte_at gamecode 0;
  gok <- (if g =? 0xff then ret true else memcmp_eq 4 (de_gamecode e) gamecode);
  if negb gok then ret false else
  k <- byte_at company 0;
  if k =? 0xff then ret true else memcmp_eq 2 (de_company e) company.

Fixpoint find_entry (filename gamecode company : list Z) (l : list card_direntry) (i : Z) : M cst (option Z) :=
  match l with
  | [] => ret None
  | e :: r => m <- entry_matches filename gamecode company e;
              if m then ret (Some i) else find_entry filename gamecode company r (i + 1)
  end.

Definition card_getfilenum (chn : Z) (filename gamecode company : list Z) : M cst (Z * Z) :=
  attached <- rd chn c_attached;
  if isz attached then ret (CARD_ERROR_NOCARD, 0) else
  d <- cur_dir chn;
  r <- find_entry filename gamecode company (dat_entries d) 0;
  ret (match r with Some i => (CARD_ERROR_READY, i) | None => (CARD_ERROR_NOFILE, 0) end).

(** ** Seeking *)

Definition bad_block (blocks b : Z) : bool := (b <? CARD_SYSAREA) || (blocks <=? b).

(** The walk along the chain of a file up to the sector of [target]. *)
Fixpoint seek_loop (fuel : nat) (fat : list Z) (blocks size target offset iblock : Z) : res (Z * (Z * Z)) :=
  match fuel with
  | O => Fault OutOfFuel
  | S fuel' =>
    if (iblock <? blocks) && (u32 offset <? target) then
      match fat_get fat iblock with
      | None => Fault BadAccess
      | Some b =>
        let offset := s32 (u32 (offset + size)) in
        if bad_block blocks b then Ok (CARD_ERROR_BROKEN, (offset, b))
        else seek_loop fuel' fat blocks size target offset b
      end
    else Ok (CARD_ERROR_READY, (offset, iblock))
  end.

Definition release (chn r : Z) : M cst (Z * bool) := card_putcntrlblock chn r;; ret (r, false).

(** [__card_seek] for the file at [file]: the result, and whether [*rcard] was
    set. *)
Definition card_seek (file len offset : Z) : M cst (Z * bool) :=
  filenum <- rd_file file f_filenum;
  if (filenum <? 0) || (CARD_MAXFILES <=? filenum) then ret (CARD_ERROR_FATAL_ERROR, false) else
  chn <- rd_file file f_chn;
  r <- card_getcntrlblock chn;
  if r <? 0 then ret (r, false) else
  iblock <- rd_file file f_iblock;
  blocks <- rd chn c_blocks;
  if bad_block blocks iblock then release chn CARD_ERROR_FATAL_ERROR else
  entry <- cur_entry chn filenum;
  used <- used_entry entry;
  if negb used then ret (CARD_ERROR_READY, false) else
  size <- rd chn c_sector_size;
  (let entry_len := s32 (u32 (de_length entry * size)) in
   if (entry_len <=? offset) || (entry_len <? s32 (offset + len)) then release chn CARD_ERROR_LIMIT else
   upd chn (set_c_curr_file file);;
   upd_file file (set_f_len len);;
   foffset <- rd_file file f_offset;
   when (offset <? foffset) (upd_file file (set_f_offset 0);; upd_file file (set_f_iblock (de_block entry)));;
   iblock <- rd_file file f_iblock;
   if (offset <? foffset) && bad_block blocks iblock then release chn CARD_ERROR_BROKEN else
   b <- cur_fat chn;
   foffset <- rd_file file f_offset;
   let target := Z.ldiff (u32 offset) (u32 (size - 1)) in
   match seek_loop (S (S (Z.to_nat (target / size)))) (bat_fat b) blocks size target foffset iblock with
   | Fault f => fail f
   | Ok (r, (o, ib)) =>
     upd_file file (set_f_offset o);;
     upd_file file (set_f_iblock ib);;
     if r <? 0 then release chn r else
     upd_file file (set_f_offset offset);;
     ret (CARD_ERROR_READY, true)
   end).

(** ** Mounting and unmounting *)

Definition card_dounmount (chn result : Z) : M cst unit :=
  if bad_slot chn then ret tt else
  attached <- rd chn c_attached;
  when (negb (isz attached))
    (upd chn (set_c_attached 0);;
     upd chn (set_c_mount_step 0);;
     upd chn (set_c_result result);;
     emit (EXI_RegisterEXICallback chn false);;
     emit (EXI_Detach chn);;
     emit (SYS_CancelCardAlarm chn)).

(** The checksum of the twelve bytes of a card's identity in the SRAM. *)
Definition flash_sum (l : list Z) : Z := Z.land (Z.lxor (fold_right Z.add 0 l) 0xffffffff) 0xff.

(** The [exit] label of [__card_domount]. *)
Definition mount_exit (chn r : Z) : M cst Z := emit (EXI_Unlock chn);; card_dounmount chn r;; ret r.

Section Driver.
Context (console : console).
(** [__dounlock] runs a program on the signal processor; its result and the key
    it leaves in the control block. *)
Context (dounlock : Z -> M cst (Z * list Z)).
(** The function behind a callback pointer. *)
Context (call : cardcallback -> Z -> Z -> M cst unit).

Definition now_secs : M cst Z := t <- gets g_time; ret (u32 (ticks_to_secs console t)).

(** Identification of the card, the first step of [__card_domount]. [None] if the
    mount goes on, otherwise the result with which it stops. *)
Definition mount_identify (chn : Z) : M cst (option Z) :=
  r <- exi (EXI_GetID chn);
  id <- (if isz r then ret 0 else exi (EXI_Data chn));
  (let id := u32 id in
   if isz r then (e <- mount_exit chn CARD_ERROR_NOCARD; ret (Some e)) else
   if negb (card_iscard id) then (e <- mount_exit chn CARD_ERROR_WRONGDEVICE; ret (Some e)) else
   upd chn (set_c_cid id);;
   upd chn (set_c_card_size (Z.land id 0xfc));;
   if isz (Z.land id 0xfc) then ret None else
   let size := card_sector_size (Z.shiftr (Z.land (ROTL id 23) 0x1c) 2) in
   upd chn (set_c_sector_size size);;
   upd chn (set_c_blocks (u16 (Z.shiftr (Z.shiftl (Z.land id 0xfc) 20) 3 / size)));;
   blocks <- rd chn c_blocks;
   if blocks <=? 8 then ret None else
   upd chn (set_c_latency (card_latency (Z.shiftr (Z.land (ROTL id 26) 0x1c) 2)));;
   r <- card_clearstatus chn;
   if r <? 0 then (e <- mount_exit chn r; ret (Some e)) else
   st <- ogc_card_readstatus chn;
   if fst st <? 0 then (e <- mount_exit chn (fst st); ret (Some e)) else
   p <- exi (EXI_Probe chn);
   if isz p then (e <- mount_exit chn CARD_ERROR_NOCARD; ret (Some e)) else
   if isz (Z.land (snd st) CARD_STATUS_UNLOCKED) then
     (u <- dounlock chn;
      if fst u <? 0 then (e <- mount_exit chn (fst u); ret (Some e)) else
      modify (fun s => set_g_flash_id (fupd (g_flash_id s) chn (snd u)) s);;
      modify (fun s => set_g_flash_sum (fupd (g_flash_sum s) chn (flash_sum (snd u))) s);;
      ret (Some (fst u)))
   else
     upd chn (set_c_mount_step 1);;
     flash_id <- gets (fun s => g_flash_id s chn);
     sum <- gets (fun s => g_flash_sum s chn);
     if negb (sum =? flash_sum flash_id) then (e <- mount_exit chn CARD_ERROR_IOERROR; ret (Some e))
     else ret None).

Definition card_domount (chn : Z) : M cst Z :=
  if bad_slot chn then ret CARD_ERROR_NOCARD else
  step <- rd chn c_mount_step;
  stop <- (if isz step then mount_identify chn else ret None);
  match stop with
  | Some r => ret r
  | None =>
    step <- rd chn c_mount_step;
    r <- (if step =? 1 then
            upd chn (set_c_mount_step 2);;
            r <- card_enableinterrupt chn 1;
            if r <? 0 then ret r else
            emit (EXI_RegisterEXICallback chn true);;
            emit (EXI_Unlock chn);;
            ret r
          else ret 0);
    if r <? 0 then mount_exit chn r else
    step <- rd chn c_mount_step;
    size <- rd chn c_sector_size;
    workarea <- rd chn c_workarea;
    r <- ogc_card_read chn (u32 (size * (step - 2))) 8192 (u32 (workarea + Z.shiftl (u32 (step - 2)) 13)) mountcallback;
    if r <? 0 then mount_exit chn r else ret r
  end.

(** ** Callbacks *)

Definition call_opt (cb : cardcallback) (chn r : Z) : M cst unit := if isnull cb then ret tt else call cb chn r.

(** The end of most callbacks: release the card, then tell the client. *)
Definition finish_api (chn r : Z) : M cst unit :=
  cb <- rd chn c_api_cb;
  upd chn (set_c_api_cb CbNull);;
  card_putcntrlblock chn r;;
  call_opt cb chn r.

(** The end of the callbacks of the directory and table writes. *)
Definition finish_erase (chn r : Z) : M cst unit :=
  api <- rd chn c_api_cb;
  when (isnull api) (card_putcntrlblock chn r;; ret tt);;
  cb <- rd chn c_erase_cb;
  if isnull cb then ret tt else upd chn (set_c_erase_cb CbNull);; call cb chn r.

(** The end of the callbacks of a block transfer. *)
Definition finish_xfer (chn r : Z) : M cst unit :=
  api <- rd chn c_api_cb;
  when (isnull api) (card_putcntrlblock chn r;; ret tt);;
  cb <- rd chn c_xfer_cb;
  if isnull cb then ret tt else upd chn (set_c_xfer_cb CbNull);; call cb chn r.

Definition card_mountcallback (chn result : Z) : M cst unit :=
  r <- (if (result =? CARD_ERROR_NOCARD) || (result =? CARD_ERROR_IOERROR) then
          card_dounmount chn result;; r <- card_putcntrlblock chn result; ret (Some r)
        else if result =? CARD_ERROR_UNLOCKED then
          r <- card_domount chn; ret (if 0 <=? r then None else Some r)
        else
          step <- rd chn c_mount_step;
          upd chn (set_c_mount_step (u32 (step + 1)));;
          if u32 (step + 1) <? 7 then (r <- card_domount chn; ret (if 0 <=? r then None else Some r))
          else (r <- card_verify chn; card_putcntrlblock chn r;; ret (Some r)));
  match r with
  | None => ret tt
  | Some r => cb <- rd chn c_api_cb; upd chn (set_c_api_cb CbNull);; call_opt cb chn r
  end.

Definition card_write_callback (chn result : Z) : M cst unit :=
  if result <? 0 then finish_api chn result else
  file <- rd chn c_curr_file;
  len <- rd_file file f_len;
  if len <? 0 then finish_api chn CARD_ERROR_CANCELED else
  size <- rd chn c_sector_size;
  upd_file file (set_f_len (s32 (size - len)));;
  len <- rd_file file f_len;
  if len <=? 0 then
    filenum <- rd_file file f_filenum;
    entry <- cur_entry chn filenum;
    t <- now_secs;
    put_entry chn filenum (set_de_last_modified t entry);;
    cb <- rd chn c_api_cb;
    upd chn (set_c_api_cb CbNull);;
    r <- card_updatedir chn cb;
    if 0 <=? r then ret tt else finish_api chn r
  else
    b <- cur_fat chn;
    offset <- rd_file file f_offset;
    upd_file file (set_f_offset (s32 (offset + size)));;
    iblock <- rd_file file f_iblock;
    match fat_get (bat_fat b) iblock with
    | None => fail BadAccess
    | Some next =>
      upd_file file (set_f_iblock next);;
      blocks <- rd chn c_blocks;
      if bad_block blocks next then finish_api chn CARD_ERROR_BROKEN else
      r <- ogc_card_sectorerase chn (u32 (next * size)) erase_cb;
      if 0 <=? r then ret tt else finish_api chn r
    end.

Definition card_erase_callback (chn result : Z) : M cst unit :=
  if result <? 0 then finish_api chn result else
  file <- rd chn c_curr_file;
  iblock <- rd_file file f_iblock;
  size <- rd chn c_sector_size;
  buf <- rd chn c_cmd_usr_buf;
  r <- ogc_card_write chn (u32 (iblock * size)) size buf write_cb;
  if 0 <=? r then ret tt else finish_api chn r.

(** The bytes from [offset] to the end of its sector. *)
Definition sector_rest (size offset : Z) : Z := u32 (Z.ldiff (u32 (offset + size)) (u32 (size - 1)) - offset).

Definition card_read_callback (chn result : Z) : M cst unit :=
  if bad_slot chn then ret tt else
  file <- rd chn c_curr_file;
  if result <? 0 then finish_api chn result else
  len <- rd_file file f_len;
  if len <? 0 then finish_api chn CARD_ERROR_CANCELED else
  size <- rd chn c_sector_size;
  offset <- rd_file file f_offset;
  upd_file file (set_f_len (s32 (len - sector_rest size offset)));;
  len <- rd_file file f_len;
  if len <=? 0 then finish_api chn result else
  b <- cur_fat chn;
  upd_file file (set_f_offset (s32 (offset + sector_rest size offset)));;
  iblock <- rd_file file f_iblock;
  match fat_get (bat_fat b) iblock with
  | None => fail BadAccess
  | Some next =>
    upd_file file (set_f_iblock next);;
    blocks <- rd chn c_blocks;
    if bad_block blocks next then finish_api chn CARD_ERROR_BROKEN else
    buf <- rd chn c_cmd_usr_buf;
    r <- ogc_card_read chn (u32 (next * size)) (if len <? size then len else size) buf read_cb;
    if 0 <=? r then ret tt else finish_api chn result
  end.

Definition card_delete_callback (chn result : Z) : M cst unit :=
  cb <- rd chn c_api_cb;
  upd chn (set_c_api_cb CbNull);;
  r <- (if 0 <=? result then block <- rd chn c_curr_fileblock; card_freeblock chn block cb else ret result);
  if (0 <=? result) && (0 <=? r) then ret tt else
  card_putcntrlblock chn r;;
  call_opt cb chn r.

Definition card_format_callback (chn result : Z) : M cst unit :=
  if result <? 0 then finish_api chn result else
  step <- rd chn c_format_step;
  upd chn (set_c_format_step (u32 (step + 1)));;
  (let step := u32 (step + 1) in
   size <- rd chn c_sector_size;
   workarea <- rd chn c_workarea;
   if step <? CARD_SYSAREA then
     r <- ogc_card_sectorerase chn (u32 (step * size)) format_cb;
     if 0 <=? r then ret tt else finish_api chn r
   else if step <? 10 then
     r <- ogc_card_write chn (u32 ((step - CARD_SYSAREA) * size)) 8192
            (u32 (workarea + Z.shiftl (step - CARD_SYSAREA) 13)) format_cb;
     if 0 <=? r then ret tt else finish_api chn r
   else
     upd chn (set_c_curr_dir CARD_SYSDIR);;
     upd chn (fun c => set_c_dirs (fupd (c_dirs c) CARD_SYSDIR (c_dirs c CARD_SYSDIR_BACK)) c);;
     upd chn (set_c_curr_fat CARD_SYSBAT);;
     upd chn (fun c => set_c_bats (fupd (c_bats c) CARD_SYSBAT (c_bats c CARD_SYSBAT_BACK)) c);;
     finish_api chn result).

(** A page is written, or a segment read: go on with the next one. *)
Definition next_piece (chn n : Z) : M cst bool :=
  cnt <- rd chn c_transfer_cnt;
  upd chn (set_c_transfer_cnt (u32 (cnt + n)));;
  a <- rd chn c_cmd_sector_addr;
  upd chn (set_c_cmd_sector_addr (u32 (a + n)));;
  buf <- rd chn c_cmd_usr_buf;
  upd chn (set_c_cmd_usr_buf (u32 (buf + n)));;
  left <- rd chn c_cmd_blck_cnt;
  upd chn (set_c_cmd_blck_cnt (u32 (left - 1)));;
  ret (0 <? u32 (left - 1)).

Definition card_blockwritecallback (chn result : Z) : M cst unit :=
  if result <? 0 then finish_xfer chn result else
  more <- next_piece chn 128;
  r <- (if more then ogc_card_writepage chn blockwrite_cb else ret result);
  if more && (CARD_ERROR_READY <=? r) then ret tt else finish_xfer chn r.

Definition card_blockreadcallback (chn result : Z) : M cst unit :=
  if result <? 0 then finish_xfer chn result else
  more <- next_piece chn CARD_READSIZE;
  r <- (if more then ogc_card_readsegment chn blockread_cb else ret result);
  if more && (CARD_ERROR_READY <=? r) then ret tt else finish_xfer chn r.

Definition card_unlocked_callback (chn result : Z) : M cst unit :=
  if bad_slot chn then ret tt else
  r <- (if 0 <=? result then
          upd chn (set_c_unlock_cb unlocked_cb);;
          l <- exi (EXI_Lock chn true);
          if l =? 1 then upd chn (set_c_unlock_cb CbNull);; card_retry chn else ret 0
        else ret result);
  if 0 <=? r then ret tt else
  c0 <- cmd0 chn;
  if (c0 =? 0xf3) || (0xf5 <=? c0) then ret tt else
  if c0 =? 0x52 then
    cb <- rd chn c_tx_cb;
    if isnull cb then ret tt else upd chn (set_c_tx_cb CbNull);; call cb chn r
  else if 0xf1 <=? c0 then
    cb <- rd chn c_exi_cb;
    if isnull cb then ret tt else upd chn (set_c_exi_cb CbNull);; call cb chn r
  else ret tt.

(** The copy just written becomes the backup; the other one is worked on next. *)
Definition card_fatwritecallback (chn result : Z) : M cst unit :=
  when (0 <=? result)
    (curr <- rd chn c_curr_fat;
     let other := if curr =? CARD_SYSBAT then CARD_SYSBAT_BACK else CARD_SYSBAT in
     let this := if curr =? CARD_SYSBAT then CARD_SYSBAT else CARD_SYSBAT_BACK in
     upd chn (set_c_curr_fat other);;
     upd chn (fun c => set_c_bats (fupd (c_bats c) other (c_bats c this)) c));;
  finish_erase chn result.

Definition card_dirwritecallback (chn result : Z) : M cst unit :=
  when (0 <=? result)
    (curr <- rd chn c_curr_dir;
     let other := if curr =? CARD_SYSDIR then CARD_SYSDIR_BACK else CARD_SYSDIR in
     let this := if curr =? CARD_SYSDIR then CARD_SYSDIR else CARD_SYSDIR_BACK in
     upd chn (set_c_curr_dir other);;
     upd chn (fun c => set_c_dirs (fupd (c_dirs c) other (c_dirs c this)) c));;
  finish_erase chn result.

(** The sector is erased: write the block at [off] in the work area. *)
Definition write_system (chn off result : Z) (next : cardcallback) : M cst unit :=
  if result <? 0 then finish_erase chn result else
  size <- rd chn c_sector_size;
  workarea <- rd chn c_workarea;
  r <- ogc_card_write chn (u32 (Z.shiftr off 13 * size)) 8192 (u32 (workarea + off)) next;
  if 0 <=? r then ret tt else finish_erase chn r.

Definition card_faterasecallback (chn result : Z) : M cst unit :=
  off <- rd chn c_curr_fat; write_system chn off result fatwrite_cb.
Definition card_direrasecallback (chn result : Z) : M cst unit :=
  off <- rd chn c_curr_dir; write_system chn off result dirwrite_cb.

(** The table of a new file is written: fill its directory entry. *)
Definition card_createfatcallback (chn result : Z) : M cst unit :=
  cb <- rd chn c_api_cb;
  upd chn (set_c_api_cb CbNull);;
  file <- rd chn c_curr_file;
  filenum <- rd_file file f_filenum;
  entry <- cur_entry chn filenum;
  gamecode <- gets g_gamecode;
  company <- gets g_company;
  g <- byte_at gamecode 0;
  block <- rd chn c_curr_fileblock;
  t <- now_secs;
  put_entry chn filenum
    (mk_entry (if g =? 0xff then [0; 0; 0; 0] else gamecode) (if g =? 0xff then [0; 0] else company) 0xff
       (de_banner_fmt entry) (de_filename entry) t 0xffffffff 0 1 4 0 block (de_length entry) 0xffff
       (de_comment_addr entry));;
  upd_file file (set_f_offset 0);;
  upd_file file (set_f_iblock block);;
  r <- card_updatedir chn cb;
  if r <? 0 then card_putcntrlblock chn r;; call_opt cb chn r else ret tt.

(** ** Interrupt handlers *)

Definition card_unlockedhandler (chn : Z) : M cst Z :=
  if bad_slot chn then ret CARD_ERROR_NOCARD else
  cb <- rd chn c_unlock_cb;
  if isnull cb then ret CARD_ERROR_UNLOCKED else
  upd chn (set_c_unlock_cb CbNull);;
  p <- exi (EXI_Probe chn);
  call cb chn (if isz p then CARD_ERROR_NOCARD else CARD_ERROR_READY);;
  ret CARD_ERROR_UNLOCKED.

(** The answers of [EXI_Deselect] and [EXI_Unlock] have no effect here: they are
    merged with an error word that stays zero. *)
Definition card_txhandler (chn : Z) : M cst Z :=
  if bad_slot chn then ret 0 else
  exi (EXI_Deselect chn);;
  exi (EXI_Unlock chn);;
  cb <- rd chn c_tx_cb;
  if isnull cb then ret 1 else
  upd chn (set_c_tx_cb CbNull);;
  p <- exi (EXI_Probe chn);
  call cb chn (if isz p then CARD_ERROR_NOCARD else CARD_ERROR_READY);;
  ret 1.

(** [__timeouthandler] for the alarm of the slot [chn]. *)
Definition card_timeouthandler (chn : Z) : M cst unit :=
  if bad_slot chn then ret tt else
  attached <- rd chn c_attached;
  when (negb (isz attached))
    (emit (EXI_RegisterEXICallback chn false);;
     cb <- rd chn c_exi_cb;
     if isnull cb then ret tt else upd chn (set_c_exi_cb CbNull);; call cb chn CARD_ERROR_IOERROR).

Definition exi_done (chn r : Z) : M cst Z :=
  cb <- rd chn c_exi_cb;
  (if isnull cb then ret tt else upd chn (set_c_exi_cb CbNull);; call cb chn r);;
  ret 1.

Definition card_exihandler (chn : Z) : M cst Z :=
  if bad_slot chn then ret 1 else
  emit (SYS_CancelCardAlarm chn);;
  attached <- rd chn c_attached;
  if isz attached then ret 1 else
  l <- exi (EXI_Lock chn false);
  if negb (l =? 1) then exi_done chn CARD_ERROR_FATAL_ERROR else
  st <- ogc_card_readstatus chn;
  r <- (if fst st <? 0 then ret (fst st) else card_clearstatus chn);
  if (fst st <? 0) || (r <? 0) then (emit (EXI_Unlock chn);; exi_done chn r) else
  if isz (Z.land (snd st) 0x18) then (emit (EXI_Unlock chn);; exi_done chn CARD_ERROR_READY) else
  n <- rd chn c_cmd_retries;
  upd chn (set_c_cmd_retries (u32 (n - 1)));;
  if 0 <? u32 (n - 1) then
    r <- card_retry chn;
    if r <? 0 then exi_done chn r else ret 1
  else emit (EXI_Unlock chn);; exi_done chn CARD_ERROR_IOERROR.

Definition card_exthandler (chn : Z) : M cst Z :=
  if bad_slot chn then ret 0 else
  attached <- rd chn c_attached;
  if isz attached then ret 1 else
  upd chn (set_c_attached 0);;
  emit (EXI_RegisterEXICallback chn false);;
  emit (SYS_CancelCardAlarm chn);;
  cb <- rd chn c_exi_cb;
  (if isnull cb then ret tt else upd chn (set_c_exi_cb CbNull);; call cb chn CARD_ERROR_NOCARD);;
  cb <- rd chn c_ext_cb;
  (if isnull cb then ret tt else upd chn (set_c_ext_cb CbNull);; call cb chn CARD_ERROR_NOCARD);;
  ret 1.

(** ** Interface *)

Definition default_cb (cb : cardcallback) : cardcallback := if isnull cb then defaultapicallback else cb.

Definition CARD_ProbeEx (chn : Z) : M cst (Z * option (Z * Z)) :=
  if bad_slot chn then ret (CARD_ERROR_FATAL_ERROR, None) else
  r <- exi (EXI_ProbeEx chn);
  if r <=? 0 then ret (if isz r then CARD_ERROR_BUSY else CARD_ERROR_NOCARD, None) else
  attached <- rd chn c_attached;
  if negb (isz attached) then
    step <- rd chn c_mount_step;
    if step <? 1 then ret (CARD_ERROR_BUSY, None) else
    msize <- rd chn c_card_size;
    ssize <- rd chn c_sector_size;
    ret (CARD_ERROR_READY, Some (msize, ssize))
  else
    st <- exi (EXI_GetState chn);
    if negb (isz (Z.land st EXI_FLAG_ATTACH)) then ret (CARD_ERROR_WRONGDEVICE, None) else
    r <- exi (EXI_GetID chn);
    if isz r then ret (CARD_ERROR_BUSY, None) else
    id <- exi (EXI_Data chn);
    let id := u32 id in
    if negb (card_iscard id) then ret (CARD_ERROR_WRONGDEVICE, None) else
    ret (CARD_ERROR_READY, Some (Z.land id 0xfc, card_sector_size (Z.shiftr (Z.land (ROTL id 23) 0x1c) 2))).

Definition CARD_MountAsync (chn workarea : Z) (detach_cb attach_cb : cardcallback) : M cst Z :=
  if isz workarea then ret CARD_ERROR_NOCARD else
  if bad_slot chn then ret CARD_ERROR_FATAL_ERROR else
  result <- rd chn c_result;
  if result =? CARD_ERROR_BUSY then ret CARD_ERROR_BUSY else
  attached <- rd chn c_attached;
  st <- (if isz attached then exi (EXI_GetState chn) else ret 0);
  if isz attached && negb (isz (Z.land st EXI_FLAG_ATTACH)) then ret CARD_ERROR_WRONGDEVICE else
  upd chn (set_c_result CARD_ERROR_BUSY);;
  upd chn (set_c_workarea workarea);;
  upd chn (set_c_ext_cb detach_cb);;
  upd chn (set_c_api_cb (default_cb attach_cb));;
  upd chn (set_c_exi_cb CbNull);;
  r <- (if isz attached then exi (EXI_Attach chn) else ret 1);
  if isz r then upd chn (set_c_result CARD_ERROR_NOCARD);; ret CARD_ERROR_NOCARD else
  upd chn (set_c_mount_step 0);;
  upd chn (set_c_attached 1);;
  emit (EXI_RegisterEXICallback chn false);;
  emit (SYS_CancelCardAlarm chn);;
  upd chn (set_c_curr_dir 0);;
  upd chn (set_c_curr_fat 0);;
  upd chn (set_c_unlock_cb mountcallback);;
  l <- exi (EXI_Lock chn true);
  if isz l then ret 0 else
  upd chn (set_c_unlock_cb CbNull);;
  card_domount chn;;
  ret 1.

Definition CARD_Unmount (chn : Z) : M cst Z :=
  if bad_slot chn then ret CARD_ERROR_NOCARD else
  r <- card_getcntrlblock chn;
  card_dounmount chn (if r <? 0 then CARD_ERROR_NOCARD else r);;
  ret CARD_ERROR_READY.

Definition CARD_ReadAsync (file buffer len offset : Z) (callback : cardcallback) : M cst Z :=
  if isz len || negb (isz (Z.land len 0x1ff)) || ((0 <? offset) && negb (isz (Z.land offset 0x1ff)))
  then ret CARD_ERROR_FATAL_ERROR else
  r <- card_seek file (s32 len) (s32 offset);
  if fst r <? 0 then ret (fst r) else
  if negb (snd r) then fail BadAccess else
  chn <- rd_file file f_chn;
  upd chn (set_c_api_cb (default_cb callback));;
  size <- rd chn c_sector_size;
  foffset <- rd_file file f_offset;
  iblock <- rd_file file f_iblock;
  (let rest := u32 (size - Z.land (u32 foffset) (u32 (size - 1))) in
   r <- ogc_card_read chn (u32 (iblock * size)) (if rest <=? len then rest else len) buffer read_cb;
   if r <? 0 then card_putcntrlblock chn r else ret 0).

Definition CARD_WriteAsync (file buffer len offset : Z) (callback : cardcallback) : M cst Z :=
  r <- card_seek file (s32 len) (s32 offset);
  if fst r <? 0 then ret (fst r) else
  if negb (snd r) then fail BadAccess else
  chn <- rd_file file f_chn;
  size <- rd chn c_sector_size;
  if negb (isz (Z.land len (u32 (size - 1)))) || ((0 <? offset) && negb (isz (Z.land offset (u32 (size - 1)))))
  then card_putcntrlblock chn CARD_ERROR_FATAL_ERROR else
  upd chn (set_c_api_cb (default_cb callback));;
  upd chn (set_c_cmd_usr_buf buffer);;
  iblock <- rd_file file f_iblock;
  r <- ogc_card_sectorerase chn (u32 (iblock * size)) erase_cb;
  if 0 <=? r then ret r else card_putcntrlblock chn r.

(** The search of [CARD_CreateAsync] over the directory: the first free entry, or
    the name exists already. The codes are those of the client, or of the first
    entry of the directory, see the two users. *)
Fixpoint create_scan (filename gamecode company : list Z) (l : list card_direntry) (i filenum : Z) : M cst (option Z) :=
  match l with
  | [] => ret (Some filenum)
  | e :: r =>
    used <- used_entry e;
    if negb used then create_scan filename gamecode company r (i + 1) (if filenum =? -1 then i else filenum) else
    same <- memcmp_eq (Z.to_nat CARD_FILENAMELEN) (de_filename e) filename;
    if negb same then create_scan filename gamecode company r (i + 1) filenum else
    g <- byte_at gamecode 0;
    k <- byte_at company 0;
    if (g =? 0xff) || (k =? 0xff) then ret None else
    gok <- memcmp_eq 4 (de_gamecode e) gamecode;
    kok <- (if gok then memcmp_eq 2 (de_company e) company else ret false);
    if kok then ret None else create_scan filename gamecode company r (i + 1) filenum
  end.

(** The name as it is stored: [memcpy] of the string with its final zero into the
    cleared field; with a name of 32 characters the zero lands in the next field. *)
Definition name_entry (filename : list Z) (len blocks : Z) (e : card_direntry) : card_direntry :=
  let e := set_de_length (u16 blocks) e in
  let name := firstn (Z.to_nat CARD_FILENAMELEN) (firstn (Z.to_nat (len + 1)) filename ++ replicate 32 0) in
  let e := set_de_filename name e in
  if len =? CARD_FILENAMELEN then set_de_last_modified (Z.land (de_last_modified e) 0xffffff) e else e.

(** What the two functions that create a file share; [own] says whether the codes
    compared are those of the client. *)
Definition create_common (chn : Z) (filename : list Z) (size file : Z) (own : bool) (callback : cardcallback) : M cst Z :=
  len <- strlen filename;
  if CARD_FILENAMELEN <? len then ret CARD_ERROR_NAMETOOLONG else
  r <- card_getcntrlblock chn;
  if r <? 0 then ret r else
  ssize <- rd chn c_sector_size;
  if isz size || negb (isz (size mod ssize)) then ret CARD_ERROR_FATAL_ERROR else
  d <- cur_dir chn;
  e0 <- at_index (dat_entries d) 0;
  gamecode <- (if own then gets g_gamecode else ret (de_gamecode e0));
  company <- (if own then gets g_company else ret (de_company e0));
  found <- create_scan filename gamecode company (dat_entries d) 0 (-1);
  match found with
  | None => card_putcntrlblock chn CARD_ERROR_EXIST
  | Some filenum =>
    if filenum =? -1 then card_putcntrlblock chn CARD_ERROR_NOENT else
    b <- cur_fat chn;
    if u32 (bat_freeblocks b * ssize) <? size then card_putcntrlblock chn CARD_ERROR_INSSPACE else
    upd chn (set_c_api_cb (default_cb callback));;
    entry <- cur_entry chn filenum;
    put_entry chn filenum (name_entry filename len (size / ssize) entry);;
    upd chn (set_c_curr_file file);;
    upd_file file (set_f_chn chn);;
    upd_file file (set_f_filenum filenum);;
    r <- card_allocblock chn (size / ssize) createfat_cb;
    if r <? 0 then card_putcntrlblock chn r else ret 0
  end.

Definition CARD_CreateAsync (chn : Z) (filename : list Z) (size file : Z) (callback : cardcallback) : M cst Z :=
  create_common chn filename size file true callback.
(** [entry] is the start of the directory there, not the entry of the client. *)
Definition CARD_CreateEntryAsync (chn : Z) (filename : list Z) (filelen file : Z) (callback : cardcallback) : M cst Z :=
  create_common chn filename filelen file false callback.

Definition open_common (chn : Z) (filename gamecode company : list Z) (file : Z) : M cst Z :=
  if bad_slot chn then ret CARD_ERROR_NOCARD else
  upd_file file (set_f_filenum (-1));;
  r <- card_getcntrlblock chn;
  if r <? 0 then ret r else
  f <- card_getfilenum chn filename gamecode company;
  if fst f <? 0 then card_putcntrlblock chn (fst f) else
  entry <- cur_entry chn (snd f);
  blocks <- rd chn c_blocks;
  if bad_block blocks (de_block entry) then card_putcntrlblock chn CARD_ERROR_BROKEN else
  size <- rd chn c_sector_size;
  upd_file file (set_f_chn chn);;
  upd_file file (set_f_filenum (snd f));;
  upd_file file (set_f_offset 0);;
  upd_file file (set_f_len (s32 (u32 (de_length entry * size))));;
  upd_file file (set_f_iblock (de_block entry));;
  card_putcntrlblock chn CARD_ERROR_READY.

Definition CARD_Open (chn : Z) (filename : list Z) (file : Z) : M cst Z :=
  gamecode <- gets g_gamecode; company <- gets g_company; open_common chn filename gamecode company file.
Definition CARD_OpenEntry (chn : Z) (filename gamecode company : list Z) (file : Z) : M cst Z :=
  open_common chn filename gamecode company file.

Definition CARD_Close (file : Z) : M cst Z :=
  chn <- rd_file file f_chn;
  if bad_slot chn then ret CARD_ERROR_NOCARD else
  filenum <- rd_file file f_filenum;
  if (filenum <? 0) || (CARD_MAXFILES <=? filenum) then ret CARD_ERROR_NOFILE else
  r <- card_getcntrlblock chn;
  if r <? 0 then ret r else
  upd_file file (set_f_chn (-1));;
  card_putcntrlblock chn CARD_ERROR_READY.

(** [memset(entry,-1,...)] *)
Definition entry_ff : card_direntry :=
  mk_entry (replicate 4 0xff) (replicate 2 0xff) 0xff 0xff (replicate 32 0xff) 0xffffffff 0xffffffff 0xffff 0xffff 0xff
    0xff 0xffff 0xffff 0xffff 0xffffffff.

Definition delete_common (chn : Z) (filename gamecode company : list Z) (callback : cardcallback) : M cst Z :=
  r <- card_getcntrlblock chn;
  if r <? 0 then ret r else
  f <- card_getfilenum chn filename gamecode company;
  if fst f <? 0 then card_putcntrlblock chn (fst f) else
  entry <- cur_entry chn (snd f);
  upd chn (set_c_curr_fileblock (de_block entry));;
  put_entry chn (snd f) entry_ff;;
  upd chn (set_c_api_cb (default_cb callback));;
  r <- card_updatedir chn delete_cb;
  if 0 <=? r then ret r else card_putcntrlblock chn r.

Definition CARD_DeleteAsync (chn : Z) (filename : list Z) (callback : cardcallback) : M cst Z :=
  gamecode <- gets g_gamecode; company <- gets g_company; delete_common chn filename gamecode company callback.
Definition CARD_DeleteEntryAsync (chn : Z) (filename gamecode company : list Z) (callback : cardcallback) : M cst Z :=
  delete_common chn filename gamecode company callback.

(** *** Status *)

Record card_stat := mk_stat {
  st_filename : list Z; st_len : Z; st_time : Z; st_gamecode : list Z; st_company : list Z; st_banner_fmt : Z;
  st_icon_addr : Z; st_icon_fmt : Z; st_iconfmt : list Z; st_icon_speed : Z; st_iconspeed : list Z;
  st_comment_addr : Z; st_offset_banner : Z; st_offset_banner_tlut : Z; st_offset_icon : list Z;
  st_offset_icon_tlut : list Z
}.

(** The layout of banner and icons that follow each other in a file from
    [icon_addr] on. First the format and the speed of each of the eight icons. *)
Definition icon_formats (e : card_direntry) : list (Z * Z) :=
  map (fun i => let speed := Z.land (Z.shiftr (de_icon_speed e) (2 * i)) 3 in
                (if speed =? 0 then 0 else Z.land (Z.shiftr (de_icon_fmt e) (2 * i)) 3, speed))
      [0; 1; 2; 3; 4; 5; 6; 7].

(** Then the places of the pictures and palettes; [tlut] is the shared palette. *)
Fixpoint icon_offsets (tlut iconaddr : Z) (l : list (Z * Z)) : list (Z * Z) :=
  match l with
  | [] => []
  | (fmt, _) :: r =>
    if fmt =? 1 then (iconaddr, tlut) :: icon_offsets tlut (u32 (iconaddr + 1024)) r
    else if fmt =? 2 then (iconaddr, 0xffffffff) :: icon_offsets tlut (u32 (iconaddr + 3072)) r
    else if fmt =? 3 then (iconaddr, u32 (iconaddr + 1024)) :: icon_offsets tlut (u32 (iconaddr + 1536)) r
    else (0xffffffff, 0xffffffff) :: icon_offsets tlut iconaddr r
  end.

Definition card_updateiconoffsets (e : card_direntry) (st : card_stat) : card_stat :=
  let none := de_icon_addr e =? 0xffffffff in
  let iconaddr := if none then 0 else de_icon_addr e in
  let bfmt := if none then 0 else st_banner_fmt st in
  let fmt := Z.land (de_banner_fmt e) 3 in
  let shown := isz (Z.land (de_banner_fmt e) 0x10) in
  let '(bfmt, obanner, otlut, iconaddr) :=
    if isz fmt then (bfmt, st_offset_banner st, st_offset_banner_tlut st, iconaddr)
    else if shown then
      (if fmt =? 1 then (fmt, iconaddr, u32 (iconaddr + 3072), u32 (iconaddr + (3072 + 512)))
       else if fmt =? 2 then (fmt, iconaddr, 0xffffffff, u32 (iconaddr + 6144))
       else (bfmt, st_offset_banner st, st_offset_banner_tlut st, iconaddr))
    else (bfmt, 0xffffffff, 0xffffffff, iconaddr) in
  let icons := icon_formats e in
  let nicons := Z.of_nat (length (List.filter (fun p => negb (isz (fst p))) icons)) in
  let offs := icon_offsets (u32 (iconaddr + nicons * 1024)) iconaddr icons in
  mk_stat (st_filename st) (st_len st) (st_time st) (st_gamecode st) (st_company st) bfmt (st_icon_addr st)
    (if none then 0 else st_icon_fmt st) (map fst icons) (if none then 0 else st_icon_speed st) (map snd icons)
    (st_comment_addr st) obanner otlut (map fst offs) (map snd offs).

Definition CARD_GetStatus (chn fileno : Z) (st : card_stat) : M cst (Z * card_stat) :=
  if bad_slot chn then ret (CARD_ERROR_NOCARD, st) else
  if (fileno <? 0) || (CARD_MAXFILES <=? fileno) then ret (CARD_ERROR_FATAL_ERROR, st) else
  r <- card_getcntrlblock chn;
  if r <? 0 then ret (r, st) else
  dirblock <- rd chn c_curr_dir;
  size <- rd chn c_sector_size;
  st' <- (if isz dirblock then ret st else
          e <- cur_entry chn fileno;
          ret (card_updateiconoffsets e
                 (mk_stat (de_filename e) (u32 (de_length e * size)) (de_last_modified e) (de_gamecode e) (de_company e)
                    (de_banner_fmt e) (de_icon_addr e) (de_icon_fmt e) (st_iconfmt st) (de_icon_speed e)
                    (st_iconspeed st) (de_comment_addr e) (st_offset_banner st) (st_offset_banner_tlut st)
                    (st_offset_icon st) (st_offset_icon_tlut st))));
  r <- card_putcntrlblock chn CARD_ERROR_READY;
  ret (r, st').

Definition CARD_SetStatusAsync (chn fileno : Z) (st : card_stat) (callback : cardcallback) : M cst (Z * card_stat) :=
  if bad_slot chn then ret (CARD_ERROR_NOCARD, st) else
  if (fileno <? 0) || (CARD_MAXFILES <=? fileno) then ret (CARD_ERROR_FATAL_ERROR, st) else
  if negb (st_icon_addr st =? 0xffffffff) && (CARD_READSIZE <=? st_icon_addr st) then ret (CARD_ERROR_FATAL_ERROR, st) else
  if negb (st_comment_addr st =? 0xffffffff) && (8128 <? st_comment_addr st mod 8192)
  then ret (CARD_ERROR_FATAL_ERROR, st) else
  r <- card_getcntrlblock chn;
  if r <? 0 then ret (r, st) else
  dirblock <- rd chn c_curr_dir;
  if isz dirblock then (r <- card_putcntrlblock chn CARD_ERROR_BROKEN; ret (r, st)) else
  e <- cur_entry chn fileno;
  t <- now_secs;
  (let e := set_de_comment_addr (st_comment_addr st) (set_de_icon_speed (st_icon_speed st)
              (set_de_icon_fmt (st_icon_fmt st) (set_de_icon_addr (st_icon_addr st)
              (set_de_banner_fmt (st_banner_fmt st) e)))) in
   let st' := card_updateiconoffsets e st in
   let e := if de_icon_addr e =? 0xffffffff then set_de_icon_speed (Z.lor (Z.ldiff (de_icon_speed e) 3) 1) e else e in
   put_entry chn fileno (set_de_last_modified t e);;
   r <- card_updatedir chn callback;
   if 0 <=? r then ret (r, st') else
   r <- card_putcntrlblock chn r;
   ret (r, st')).

Definition card_getstatusex (chn fileno : Z) : M cst (Z * option card_direntry) :=
  if bad_slot chn then ret (CARD_ERROR_NOCARD, None) else
  if (fileno <? 0) || (CARD_MAXFILES <=? fileno) then ret (CARD_ERROR_FATAL_ERROR, None) else
  r <- card_getcntrlblock chn;
  if r <? 0 then ret (r, None) else
  dirblock <- rd chn c_curr_dir;
  if isz dirblock then (r <- card_putcntrlblock chn CARD_ERROR_BROKEN; ret (r, None)) else
  e <- cur_entry chn fileno;
  r <- card_putcntrlblock chn CARD_ERROR_READY;
  ret (r, Some e).

(** A name with everything after its end cleared. *)
Fixpoint clear_tail (bend : bool) (l : list Z) : list Z :=
  match l with
  | [] => []
  | x :: r => if bend || (x =? 0) then 0 :: clear_tail true r else x :: clear_tail false r
  end.

Definition bytes_eqb (a b : list Z) : bool := bool_decide (a = b).
Definition same_file (a b : card_direntry) : bool :=
  bytes_eqb (de_filename a) (de_filename b) && bytes_eqb (de_gamecode a) (de_gamecode b)
  && bytes_eqb (de_company a) (de_company b).

(** Another used entry has the name and the codes of [e]. *)
Fixpoint name_taken (e : card_direntry) (fileno : Z) (l : list card_direntry) (i : Z) : M cst bool :=
  match l with
  | [] => ret false
  | x :: r => used <- used_entry x;
              if negb (i =? fileno) && used && same_file x e then ret true else name_taken e fileno r (i + 1)
  end.

Definition copy_status (e entry : card_direntry) : card_direntry :=
  mk_entry (de_gamecode e) (de_company e) (de_pad_00 e) (de_banner_fmt entry) (de_filename e) (de_last_modified entry)
    (de_icon_addr entry) (de_icon_fmt entry) (de_icon_speed entry) (de_permission entry) (de_copy_times entry) (de_block e)
    (de_length e) (de_pad_01 e) (de_comment_addr entry).

(** The name is cleared after its end in the caller's object as well. *)
Definition card_setstatusexasync (chn fileno : Z) (entry : card_direntry) (callback : cardcallback) : M cst Z :=
  if bad_slot chn then ret CARD_ERROR_NOCARD else
  if (fileno <? 0) || (CARD_MAXFILES <=? fileno) then ret CARD_ERROR_FATAL_ERROR else
  f0 <- byte_at (de_filename entry) 0;
  if (f0 =? 0xff) || (f0 =? 0) then ret CARD_ERROR_FATAL_ERROR else
  r <- card_getcntrlblock chn;
  if r <? 0 then ret r else
  dirblock <- rd chn c_curr_dir;
  if isz dirblock then card_putcntrlblock chn CARD_ERROR_BROKEN else
  (let entry := set_de_filename (clear_tail false (de_filename entry)) entry in
   d <- cur_dir chn;
   e <- at_index (dat_entries d) fileno;
   taken <- (if same_file e entry then ret false else name_taken entry fileno (dat_entries d) 0);
   if taken then card_putcntrlblock chn CARD_ERROR_EXIST else
   let e := if same_file e entry then e
            else set_de_company (de_company entry) (set_de_gamecode (de_gamecode entry)
                   (set_de_filename (de_filename entry) e)) in
   put_entry chn fileno (copy_status e entry);;
   r <- card_updatedir chn callback;
   if 0 <=? r then ret r else card_putcntrlblock chn r).

Definition CARD_GetStatusEx (chn fileno : Z) (null : bool) : M cst (Z * option card_direntry) :=
  if null then ret (CARD_ERROR_NOCARD, None) else card_getstatusex chn fileno.
Definition card_setstatusex (chn fileno : Z) (entry : card_direntry) (env : list (M cst unit)) : M cst Z :=
  synchronous chn (card_setstatusexasync chn fileno entry synccallback) env.
Definition CARD_GetAttributes (chn fileno : Z) : M cst (Z * option Z) :=
  r <- card_getstatusex chn fileno;
  ret (fst r, if fst r =? CARD_ERROR_READY then option_map de_permission (snd r) else None).
Definition CARD_SetAttributesAsync (chn fileno attr : Z) (callback : cardcallback) : M cst Z :=
  r <- card_getstatusex chn fileno;
  match snd r with
  | Some e => if 0 <=? fst r then card_setstatusexasync chn fileno (set_de_permission attr e) callback else ret (fst r)
  | None => ret (fst r)
  end.

(** *** Listing *)

Record card_dir := mk_dir {
  d_chn : Z; d_fileno : Z; d_filelen : Z; d_permissions : Z; d_filename : list Z; d_gamecode : list Z; d_company : list Z;
  d_showall : bool
}.

Definition own_codes (e : card_direntry) : M cst bool :=
  gamecode <- gets g_gamecode;
  company <- gets g_company;
  g <- memcmp_eq 4 (de_gamecode e) gamecode;
  if negb g then ret false else memcmp_eq 2 (de_company e) company.

(** The loop of [__card_findnext] over the entries from [fileno] on. *)
Fixpoint findnext_loop (size : Z) (showall : bool) (l : list card_direntry) (fileno : Z) : M cst (Z * option card_direntry) :=
  match l with
  | [] => ret (fileno, None)
  | e :: r => used <- used_entry e;
              own <- (if used then (if showall then ret true else own_codes e) else ret false);
              if own then ret (fileno, Some e) else findnext_loop size showall r (fileno + 1)
  end.

Definition card_findnext (dir : card_dir) : M cst (Z * card_dir) :=
  let chn := d_chn dir in
  if bad_slot chn then ret (CARD_ERROR_NOCARD, dir) else
  if CARD_MAXFILES <=? d_fileno dir then ret (CARD_ERROR_NOFILE, dir) else
  r <- card_getcntrlblock chn;
  if r <? 0 then ret (r, dir) else
  d <- cur_dir chn;
  size <- rd chn c_sector_size;
  f <- findnext_loop size (d_showall dir) (skipn (Z.to_nat (d_fileno dir)) (dat_entries d)) (d_fileno dir);
  match snd f with
  | Some e =>
    r <- card_putcntrlblock chn CARD_ERROR_READY;
    ret (r, mk_dir chn (fst f) (u32 (de_length e * size)) (d_permissions dir) (de_filename e) (de_gamecode e) (de_company e)
              (d_showall dir))
  | None =>
    r <- card_putcntrlblock chn CARD_ERROR_NOFILE;
    ret (r, mk_dir chn (fst f) (d_filelen dir) (d_permissions dir) (d_filename dir) (d_gamecode dir) (d_company dir)
              (d_showall dir))
  end.

Definition CARD_FindFirst (chn : Z) (dir : card_dir) (showall : bool) : M cst (Z * card_dir) :=
  card_findnext (mk_dir chn 0 0 (d_permissions dir) (0 :: skipn 1 (d_filename dir)) (0 :: skipn 1 (d_gamecode dir))
                   (0 :: skipn 1 (d_company dir)) showall).
Definition CARD_FindNext (dir : card_dir) : M cst (Z * card_dir) :=
  card_findnext (mk_dir (d_chn dir) (u32 (d_fileno dir + 1)) (d_filelen dir) (d_permissions dir) (d_filename dir)
                   (d_gamecode dir) (d_company dir) (d_showall dir)).

(** The entries [CARD_GetDirectory] lists, with their numbers and lengths. *)
Fixpoint list_entries (showall : bool) (l : list card_direntry) (i : Z) : M cst (list (Z * card_direntry)) :=
  match l with
  | [] => ret []
  | e :: r =>
    used <- used_entry e;
    gamecode <- gets g_gamecode;
    company <- gets g_company;
    g <- byte_at gamecode 0;
    k <- byte_at company 0;
    own <- (if negb used then ret false else if showall then ret true
            else if (g =? 0xff) || (k =? 0xff) then ret false else own_codes e);
    rest <- list_entries showall r (i + 1);
    ret (if own then (i, e) :: rest else rest)
  end.

Definition CARD_GetDirectory (chn : Z) (showall : bool) : M cst (Z * list (Z * Z * card_direntry)) :=
  if bad_slot chn then ret (CARD_ERROR_NOCARD, []) else
  r <- card_getcntrlblock chn;
  if r <? 0 then ret (r, []) else
  d <- cur_dir chn;
  l <- list_entries showall (dat_entries d) 0;
  size <- rd chn c_sector_size;
  r <- card_putcntrlblock chn (match l with [] => CARD_ERROR_NOFILE | _ => r end);
  ret (r, map (fun p => (fst p, u32 (de_length (snd p) * size), snd p)) l).

(** *** Small queries *)

Definition with_card {A} (chn : Z) (q : M cst A) : M cst (Z * option A) :=
  if bad_slot chn then ret (CARD_ERROR_NOCARD, None) else
  r <- card_getcntrlblock chn;
  if r <? 0 then ret (r, None) else
  a <- q;
  r <- card_putcntrlblock chn CARD_ERROR_READY;
  ret (r, Some a).

Definition CARD_GetSectorSize (chn : Z) : M cst (Z * option Z) := with_card chn (rd chn c_sector_size).
Definition CARD_GetBlockCount (chn : Z) : M cst (Z * option Z) := with_card chn (rd chn c_blocks).
Definition CARD_GetFreeBlocks (chn : Z) (null : bool) : M cst (Z * option Z) :=
  if bad_slot chn then ret (CARD_ERROR_NOCARD, None) else
  if null then ret (CARD_ERROR_FATAL_ERROR, None) else
  with_card chn (b <- cur_fat chn; ret (bat_freeblocks b)).

(** Every second word of the serial number. *)
Definition word_at (l : list Z) (i : nat) : Z :=
  fold_left (fun a b => 256 * a + b) (firstn 4 (skipn (4 * i) l)) 0.
Definition xor_words (l : list Z) (a b c d : nat) : Z :=
  Z.lxor (Z.lxor (Z.lxor (word_at l a) (word_at l b)) (word_at l c)) (word_at l d).
Definition CARD_GetSerialNo (chn : Z) (null : bool) : M cst (Z * option (Z * Z)) :=
  if bad_slot chn then ret (CARD_ERROR_NOCARD, None) else
  if null then ret (CARD_ERROR_FATAL_ERROR, None) else
  with_card chn (h <- rd chn c_header; ret (xor_words (h_serial h) 0 2 4 6, xor_words (h_serial h) 1 3 5 7)).

Definition CARD_SetCompany (company : option (list Z)) : M cst Z :=
  modify (set_g_company [0xff; 0xff]);;
  match company with
  | None => ret CARD_ERROR_READY
  | Some c => n <- strlen c;
              (if n <=? 2 then (b <- take_bytes 2 c; modify (set_g_company b)) else ret tt);;
              ret CARD_ERROR_READY
  end.
Definition CARD_SetGamecode (gamecode : option (list Z)) : M cst Z :=
  modify (set_g_gamecode [0xff; 0xff; 0xff; 0xff]);;
  match gamecode with
  | None => ret CARD_ERROR_READY
  | Some c => n <- strlen c;
              (if n <=? 4 then (b <- take_bytes 4 c; modify (set_g_gamecode b)) else ret tt);;
              ret CARD_ERROR_READY
  end.

(** *** Formatting *)

(** The twelve bytes that make a serial number from the identity of the card. *)
Fixpoint serial_bytes (flash_id : list Z) (rnd_val : Z) : list Z :=
  match flash_id with
  | [] => []
  | b :: r =>
    let rnd_val := Z.shiftr (u64 (u64 (rnd_val * 0x41c64e6d) + 0x3039)) 16 in
    let byte := u8 (b + u32 rnd_val) in
    let rnd_val := Z.shiftr (u64 (u64 (rnd_val * 0x41c64e6d) + 0x3039)) 16 in
    byte :: serial_bytes r (Z.land rnd_val 0x7fff)
  end.

Definition format_header (flash_id : list Z) (time bias lang vi size encode : Z) : card_header :=
  let h := mk_header (serial_bytes flash_id time ++ be32 (Z.shiftr time 32) ++ be32 (u32 time) ++ be32 bias ++ be32 lang ++
                      be32 vi) 0 size (u16 encode) (replicate 0x1d6 0xff) 0xffff 0xffff in
  let s := card_checksum (header_halfs h) in
  set_h_chksum2 (snd s) (set_h_chksum1 (fst s) h).

(** A directory of unused entries, all bytes 0xff, and an empty table. *)
Definition format_dir : card_dat :=
  let d := mk_dat (replicate 127 entry_ff) (replicate 58 0xff) 0xffff 0xffff 0xffff in
  let s := card_checksum (dat_halfs d) in
  set_dat_chksum2 (snd s) (set_dat_chksum1 (fst s) d).
Definition format_bat (blocks cnt : Z) : card_bat :=
  let b := mk_bat 0 0 cnt (u16 (blocks - CARD_SYSAREA)) 4 (replicate 0xffb 0) in
  let s := card_checksum (bat_halfs b) in
  set_bat_chksum2 (snd s) (set_bat_chksum1 (fst s) b).

(** [__card_formatregion] with the values it reads from the SRAM and the video
    interface. *)
Definition card_formatregion (chn encode bias lang vi : Z) (callback : cardcallback) : M cst Z :=
  if bad_slot chn then ret CARD_ERROR_NOCARD else
  r <- card_getcntrlblock chn;
  if r <? 0 then ret r else
  time <- gets g_time;
  flash_id <- gets (fun s => g_flash_id s chn);
  card_size <- rd chn c_card_size;
  blocks <- rd chn c_blocks;
  upd chn (set_c_header (format_header flash_id time bias lang vi card_size encode));;
  upd chn (fun c => set_c_dirs (fupd (fupd (c_dirs c) CARD_SYSDIR format_dir) CARD_SYSDIR_BACK format_dir) c);;
  upd chn (fun c => set_c_bats (fupd (fupd (c_bats c) CARD_SYSBAT (format_bat blocks 0)) CARD_SYSBAT_BACK
                                  (format_bat blocks 1)) c);;
  upd chn (set_c_api_cb (default_cb callback));;
  upd chn (set_c_format_step 0);;
  r <- ogc_card_sectorerase chn 0 format_cb;
  if 0 <=? r then ret r else card_putcntrlblock chn r.

Definition CARD_FormatAsync (chn encoding bias lang vi : Z) (callback : cardcallback) : M cst Z :=
  card_formatregion chn encoding bias lang vi callback.

(** *** Initialisation *)

(** [memset(cardmap,0,...)]; the work area is not touched. *)
Definition card_zero (c : card_block) : card_block :=
  mk_card (replicate 9 0) 0 0 0 0 0 0 CARD_ERROR_NOCARD 0 0 0 0 0 0 0 0 0 0 0 0 (c_header c) (c_dirs c) (c_bats c) 0 0
    CbNull CbNull CbNull CbNull CbNull CbNull CbNull.

Definition CARD_Init (gamecode company : option (list Z)) : M cst Z :=
  inited <- gets g_inited;
  if negb (isz inited) then ret CARD_ERROR_READY else
  match gamecode with
  | None => ret tt
  | Some g => n <- strlen g; if n <=? 4 then b <- take_bytes 4 g; modify (set_g_gamecode b) else ret tt
  end;;
  match company with
  | None => ret tt
  | Some k => n <- strlen k; if n <=? 2 then b <- take_bytes 2 k; modify (set_g_company b) else ret tt
  end;;
  upd 0 card_zero;;
  upd 1 card_zero;;
  modify (set_g_inited 1);;
  ret CARD_ERROR_READY.

(** *** Synchronous operations *)

Definition CARD_Mount (chn workarea : Z) (detach_cb : cardcallback) (env : list (M cst unit)) : M cst Z :=
  synchronous chn (CARD_MountAsync chn workarea detach_cb synccallback) env.
Definition CARD_Read (file buffer len offset : Z) (env : list (M cst unit)) : M cst Z :=
  r <- CARD_ReadAsync file buffer len offset synccallback;
  if 0 <=? r then (chn <- rd_file file f_chn; ogc_card_sync chn env) else ret r.
Definition CARD_Write (file buffer len offset : Z) (env : list (M cst unit)) : M cst Z :=
  r <- CARD_WriteAsync file buffer len offset synccallback;
  if 0 <=? r then (chn <- rd_file file f_chn; ogc_card_sync chn env) else ret r.
Definition CARD_Create (chn : Z) (filename : list Z) (size file : Z) (env : list (M cst unit)) : M cst Z :=
  synchronous chn (CARD_CreateAsync chn filename size file synccallback) env.
Definition CARD_CreateEntry (chn : Z) (filename : list Z) (filelen file : Z) (env : list (M cst unit)) : M cst Z :=
  synchronous chn (CARD_CreateEntryAsync chn filename filelen file synccallback) env.
Definition CARD_Delete (chn : Z) (filename : list Z) (env : list (M cst unit)) : M cst Z :=
  synchronous chn (CARD_DeleteAsync chn filename synccallback) env.
Definition CARD_DeleteEntry (chn : Z) (filename gamecode company : list Z) (env : list (M cst unit)) : M cst Z :=
  synchronous chn (CARD_DeleteEntryAsync chn filename gamecode company synccallback) env.
Definition CARD_Format (chn encoding bias lang vi : Z) (env : list (M cst unit)) : M cst Z :=
  synchronous chn (CARD_FormatAsync chn encoding bias lang vi synccallback) env.
Definition CARD_SetStatusEx (chn fileno : Z) (entry : option card_direntry) (env : list (M cst unit)) : M cst Z :=
  match entry with None => ret CARD_ERROR_NOCARD | Some e => card_setstatusex chn fileno e env end.
Definition CARD_SetStatus (chn fileno : Z) (st : card_stat) (env : list (M cst unit)) : M cst Z :=
  synchronous chn (r <- CARD_SetStatusAsync chn fileno st synccallback; ret (fst r)) env.
Definition CARD_SetAttributes (chn fileno attr : Z) (env : list (M cst unit)) : M cst Z :=
  synchronous chn (CARD_SetAttributesAsync chn fileno attr synccallback) env.
End Driver.

(** ** Callback pointers *)

(** The function behind each pointer. A callback of the client is an event.
    Every call through a pointer takes one unit of fuel. *)
Fixpoint call_cb (console : console) (dounlock : Z -> M cst (Z * list Z)) (fuel : nat) (cb : cardcallback) (chn result : Z)
  : M cst unit :=
  match fuel with
  | O => fail OutOfFuel
  | S fuel' =>
    let call := call_cb console dounlock fuel' in
    match cb with
    | CbNull => fail BadAccess
    | CbUser fn => emit (UserCallback fn chn result)
    | synccallback => ogc_card_synccallback chn
    | defaultapicallback => ret tt
    | mountcallback => card_mountcallback dounlock call chn result
    | write_cb => card_write_callback console call chn result
    | erase_cb => card_erase_callback call chn result
    | read_cb => card_read_callback call chn result
    | delete_cb => card_delete_callback call chn result
    | format_cb => card_format_callback call chn result
    | blockwrite_cb => card_blockwritecallback call chn result
    | blockread_cb => card_blockreadcallback call chn result
    | unlocked_cb => card_unlocked_callback call chn result
    | fatwrite_cb => card_fatwritecallback call chn result
    | dirwrite_cb => card_dirwritecallback call chn result
    | faterase_cb => card_faterasecallback call chn result
    | direrase_cb => card_direrasecallback call chn result
    | createfat_cb => card_createfatcallback console call chn result
    end
  end.

(** ** The cipher of the unlock sequence *)

Definition exnor_1st_step (a : Z) : Z :=
  let r := Z.lxor (Z.shiftr a 23) (Z.lxor (Z.shiftr a 15) (Z.lxor a (Z.shiftr a 7))) in
  Z.lor (Z.shiftr a 1) (Z.land (u32 (Z.shiftl (u32 (Z.lnot r)) 30)) 0x40000000).
Definition exnor_1st (a b : Z) : Z := Nat.iter (Z.to_nat b) exnor_1st_step a.
Definition exnor_step (a : Z) : Z :=
  let sh n := u32 (Z.shiftl a n) in
  let r := Z.lxor (sh 23) (Z.lxor (sh 15) (Z.lxor a (sh 7))) in
  Z.lor (sh 1) (Z.land (Z.shiftr (u32 (Z.lnot r)) 30) 0x02).
Definition exnor (a b : Z) : Z := Nat.iter (Z.to_nat b) exnor_step a.

Fixpoint bitrev_loop (fuel : nat) (val cnt ret shift shift1 : Z) : Z :=
  match fuel with
  | O => ret
  | S fuel' =>
    let bit := Z.land val (Z.shiftl 1 cnt) in
    if cnt <=? 15 then
      bitrev_loop fuel' val (cnt + 1) (Z.lor ret (u32 (Z.shiftl bit (31 - cnt - shift1)))) shift (shift1 + 1)
    else if cnt =? 31 then bitrev_loop fuel' val (cnt + 1) (Z.lor ret (Z.shiftr val 31)) shift shift1
    else bitrev_loop fuel' val (cnt + 1) (Z.lor ret (Z.shiftr bit shift)) (shift + 2) shift1
  end.
Definition bitrev (val : Z) : Z := bitrev_loop 32 val 0 0 1 0.
