(* ===== verification/CardFat.v ===== *)
(** * Memory cards: the allocation table

    A table entry holds the number of the next block of the file, 0xffff at the
    end of a file and 0 for a free block. The files are disjoint chains through
    the table, and every block outside of them is free: [fat_inv]. The two loops
    of the driver that allocate and free refine operations on the list of chains. *)

From stdpp Require Import base gmap list fin_maps.
From Stdlib Require Import ZArith Lia.
From S2P Require Import Prelude CardState Card.

Open Scope Z_scope.

(** ** The table as a map from blocks *)

Definition ix (b : Z) : nat := Z.to_nat (b - CARD_SYSAREA).
Definition set1 (fat : list Z) (b v : Z) : list Z := <[ix b := v]> fat.
Definition in_area (blocks b : Z) : Prop := CARD_SYSAREA <= b < blocks.
(** A card that the table has room for. *)
Definition card_fits (blocks : Z) (fat : list Z) : Prop :=
  CARD_SYSAREA < blocks <= 0x1000 /\ length fat = Z.to_nat 0xffb.

Section Fat.
Context (blocks : Z).
Implicit Types (fat : list Z) (b : Z).

Lemma ix_inj a b : CARD_SYSAREA <= a -> CARD_SYSAREA <= b -> ix a = ix b -> a = b.
Proof. unfold ix, CARD_SYSAREA. lia. Qed.

Lemma fat_get_Some fat b : card_fits blocks fat -> in_area blocks b -> exists v, fat_get fat b = Some v.
Proof.
  intros [Hb Hl] Ha. unfold fat_get, in_area, CARD_SYSAREA in *. destruct (Z.ltb_spec b 5); [lia|].
  apply lookup_lt_is_Some. rewrite Hl. lia.
Qed.

Lemma fat_set_eq fat b v : card_fits blocks fat -> in_area blocks b -> fat_set fat b v = Some (set1 fat b v).
Proof. intros Hf Ha. unfold fat_set. by destruct (fat_get_Some fat b Hf Ha) as [x ->]. Qed.

Lemma fits_set fat b v : card_fits blocks fat -> card_fits blocks (set1 fat b v).
Proof. intros [Hb Hl]. split; [done|]. unfold set1. by rewrite length_insert. Qed.

Lemma get_set fat b v : card_fits blocks fat -> in_area blocks b -> fat_get (set1 fat b v) b = Some v.
Proof.
  intros Hf Ha. destruct (fat_get_Some fat b Hf Ha) as [x Hx]. unfold fat_get, set1, ix in *.
  destruct (b <? CARD_SYSAREA); [done|]. apply list_lookup_insert_eq, lookup_lt_is_Some. by eexists.
Qed.

Lemma get_set_ne fat a b v : CARD_SYSAREA <= a -> a <> b -> fat_get (set1 fat a v) b = fat_get fat b.
Proof.
  intros Ha Hn. unfold fat_get, set1. destruct (Z.ltb_spec b CARD_SYSAREA); [done|].
  apply list_lookup_insert_ne. intros H1. apply Hn, ix_inj; [done|lia|exact H1].
Qed.

(** ** Chains *)

(** [linked fat l]: the blocks of [l] follow each other and the last one ends the
    file. *)
Fixpoint linked (fat : list Z) (l : list Z) : Prop :=
  match l with
  | [] => True
  | b :: r => fat_get fat b = Some (hd 0xffff r) /\ linked fat r
  end.

Definition free_block (fat : list Z) (b : Z) : bool := bool_decide (fat_get fat b = Some 0).

Lemma linked_ext fat fat' l : (forall b, b ∈ l -> fat_get fat' b = fat_get fat b) -> linked fat l -> linked fat' l.
Proof.
  induction l as [|b r IH]; [done|]. intros H [H1 H2]. split; [by rewrite (H b) by left|].
  apply IH; [|done]. intros x Hx. apply H. by right.
Qed.

(** The files of a card: disjoint chains, everything else is free. *)
Record fat_inv (fat : list Z) (files : list (list Z)) : Prop := {
  fi_fits : card_fits blocks fat;
  fi_linked : Forall (linked fat) files;
  fi_nonempty : Forall (fun l => l <> []) files;
  fi_area : Forall (in_area blocks) (concat files);
  fi_disjoint : NoDup (concat files);
  fi_free : forall b, in_area blocks b -> (free_block fat b = true <-> b ∉ concat files)
}.

(** ** Freeing *)

(** All blocks of a chain cleared. *)
Definition clear_chain (fat : list Z) (l : list Z) : list Z := fold_left (fun f b => set1 f b 0) l fat.

Lemma clear_fits l fat : card_fits blocks fat -> card_fits blocks (clear_chain fat l).
Proof. revert fat. induction l as [|b r IH]; [done|]. intros fat Hf. by apply IH, fits_set. Qed.

Lemma clear_get_ne l fat b : Forall (in_area blocks) l -> b ∉ l -> fat_get (clear_chain fat l) b = fat_get fat b.
Proof.
  revert fat. induction l as [|a r IH]; [done|]. intros fat Ha Hn. apply Forall_cons in Ha as [Ha Hr].
  apply not_elem_of_cons in Hn as [Hn1 Hn2]. change (clear_chain fat (a :: r)) with (clear_chain (set1 fat a 0) r).
  rewrite IH by done. apply get_set_ne; [unfold in_area in Ha; lia|congruence].
Qed.

Lemma clear_get l fat b :
  card_fits blocks fat -> Forall (in_area blocks) l -> NoDup l -> b ∈ l -> fat_get (clear_chain fat l) b = Some 0.
Proof.
  revert fat. induction l as [|a r IH]; intros fat Hf Ha Hd Hb; [inversion Hb|].
  apply Forall_cons in Ha as [Ha Hr]. apply NoDup_cons in Hd as [Hd1 Hd2].
  change (clear_chain fat (a :: r)) with (clear_chain (set1 fat a 0) r).
  apply elem_of_cons in Hb as [->|Hb]; [rewrite clear_get_ne by done; by apply get_set|].
  apply IH; [by apply fits_set|done|done|done].
Qed.

Lemma area_u16 b fat : card_fits blocks fat -> in_area blocks b -> b <> 0xffff /\ bad_block blocks b = false.
Proof.
  intros [Hb _] Ha. unfold in_area, bad_block, CARD_SYSAREA in *. split; [lia|].
  destruct (Z.ltb_spec b 5), (Z.leb_spec blocks b); done || lia.
Qed.

(** The loop follows a chain to its end, clears it and counts its blocks. *)
Lemma free_loop_ok l : forall fuel fat free,
  card_fits blocks fat -> Forall (in_area blocks) l -> NoDup l -> linked fat l -> (length l < fuel)%nat ->
  0 <= free -> free + Z.of_nat (length l) < 0x10000 ->
  free_loop fuel blocks fat free (hd 0xffff l) = Freed (clear_chain fat l) (free + Z.of_nat (length l)).
Proof.
  induction l as [|b r IH]; intros [|fuel] fat free Hf Ha Hd Hl Hfu H0 Hb; try (cbn in Hfu; lia).
  - cbn. by rewrite Z.add_0_r.
  - apply Forall_cons in Ha as [Ha Har]. apply NoDup_cons in Hd as [Hd1 Hd2]. destruct Hl as [Hl1 Hl2].
    destruct (area_u16 b fat Hf Ha) as [Hne Hbad]. cbn [free_loop hd]. rewrite (proj2 (Z.eqb_neq _ _) Hne).
    unfold bad_block in Hbad. rewrite Hbad, Hl1, (fat_set_eq fat b 0 Hf Ha). cbn [length] in Hfu, Hb |- *.
    rewrite wrap_small by lia. rewrite IH; [|by apply fits_set|done|done| |lia|lia|lia].
    + f_equal; lia.
    + eapply linked_ext; [|exact Hl2]. intros x Hx. apply get_set_ne; [unfold in_area in Ha; lia|]. congruence.
Qed.

(** ** Allocating *)

(** The blocks in the order of the search: round the table once, starting after
    the block allocated last. *)
Definition cyclic (last : Z) : list Z :=
  let b := next_block blocks last in seqZ b (blocks - b) ++ seqZ CARD_SYSAREA (b - CARD_SYSAREA).

(** The blocks that an allocation takes. *)
Definition alloc_choice (fat : list Z) (last : Z) (n : nat) : list Z :=
  firstn n (List.filter (free_block fat) (cyclic last)).

(** A list of free blocks linked up behind [prev]. *)
Fixpoint link (fat : list Z) (prev : option Z) (l : list Z) : list Z :=
  match l with
  | [] => fat
  | b :: r => link (set1 (match prev with Some p => set1 fat p b | None => fat end) b 0xffff) (Some b) r
  end.

(** [path cur l]: the search visits [l] after [cur]. *)
Fixpoint path (cur : Z) (l : list Z) : Prop :=
  match l with [] => True | b :: r => b = next_block blocks cur /\ path b r end.

Lemma bfilter_ext_in {A} (f g : A -> bool) l : (forall x, x ∈ l -> f x = g x) -> List.filter f l = List.filter g l.
Proof.
  induction l as [|a r IH]; [done|]. intros H. cbn. rewrite (H a) by left. rewrite IH; [done|].
  intros x Hx. apply H. by right.
Qed.

Definition prev_of (block prev : Z) : option Z := if block =? 0xffff then None else Some prev.

(** What one step of the loop does to the table leaves the blocks ahead alone. *)
Lemma link1_free fat block prev b r x :
  in_area blocks b -> (block <> 0xffff -> in_area blocks prev /\ prev ∉ b :: r) -> NoDup (b :: r) -> x ∈ r ->
  fat_get (set1 (match prev_of block prev with Some p => set1 fat p b | None => fat end) b 0xffff) x = fat_get fat x.
Proof.
  intros Hb Hp Hd Hx. apply NoDup_cons in Hd as [Hd _]. unfold in_area in Hb. rewrite get_set_ne by (congruence || lia).
  unfold prev_of. destruct (Z.eqb_spec block 0xffff) as [|E]; [done|]. destruct (Hp E) as [[Hp1 _] Hp2].
  apply get_set_ne; [done|]. intros ->. apply Hp2. by right.
Qed.

Lemma alloc_loop_ok todo : forall fuel fat block cur prev (i : nat) count,
  card_fits blocks fat -> path cur todo -> Forall (in_area blocks) todo -> NoDup todo ->
  (block <> 0xffff -> in_area blocks prev /\ prev ∉ todo) ->
  (i <= length (List.filter (free_block fat) todo))%nat -> (length todo < fuel)%nat ->
  0 <= count -> count + Z.of_nat (length todo) <= blocks - CARD_SYSAREA ->
  let chain := firstn i (List.filter (free_block fat) todo) in
  exists cur', alloc_loop fuel blocks fat block cur prev (Z.of_nat i) count =
    Allocated (link fat (prev_of block prev) chain) (if block =? 0xffff then hd 0xffff chain else block) cur' /\
    (cur' = cur \/ in_area blocks cur').
Proof.
  induction todo as [|b r IH]; intros [|fuel] fat block cur prev i count Hf Hpath Ha Hd Hp Hi Hfu Hc0 Hc chain;
    try (cbn in Hfu; lia).
  - cbn in Hi. assert (i = 0%nat) by lia; subst i. exists cur. cbn. split; [|by left].
    by destruct (Z.eqb_spec block 0xffff) as [->|].
  - destruct i as [|i].
    { exists cur. cbn. split; [|by left]. by destruct (Z.eqb_spec block 0xffff) as [->|]. }
    pose proof Hf as [[Hb1 Hb2] _]. destruct Hpath as [-> Hpath]. set (b := next_block blocks cur) in *.
    pose proof Ha as Ha0. apply Forall_cons in Ha as [Ha Har]. cbn [length] in Hfu, Hc. unfold CARD_SYSAREA in *.
    cbn [alloc_loop]. rewrite (proj2 (Z.eqb_neq _ _)) by lia. rewrite !(wrap_small 32) by (unfold CARD_SYSAREA; lia).
    unfold CARD_SYSAREA at 1. destruct (Z.ltb_spec (blocks - 5) (count + 1)) as [|_]; [lia|]. fold b.
    destruct (fat_get_Some fat b Hf Ha) as [v Hv]. rewrite Hv.
    assert (Hfree : free_block fat b = (v =? 0)).
    { unfold free_block. rewrite Hv. destruct (Z.eqb_spec v 0) as [E|Hn].
      - rewrite E. by apply bool_decide_eq_true.
      - apply bool_decide_eq_false. congruence. }
    unfold chain in *. clear chain. cbn [List.filter] in Hi |- *. rewrite Hfree in Hi |- *. destruct (Z.eqb_spec v 0) as [Hv0|Hv0].
    + assert (Hset : (if negb (block =? 0xffff) then fat_set fat prev b else Some fat) =
                     Some (match prev_of block prev with Some p => set1 fat p b | None => fat end)).
      { unfold prev_of. destruct (Z.eqb_spec block 0xffff) as [|E]; cbn [negb]; [done|].
        destruct (Hp E) as [Hp1 _]. by rewrite (fat_set_eq fat prev b). }
      rewrite Hset. set (fat1 := match prev_of block prev with Some p => set1 fat p b | None => fat end) in *.
      assert (Hf1 : card_fits blocks fat1) by (unfold fat1; destruct (prev_of block prev); [by apply fits_set|done]).
      rewrite (fat_set_eq fat1 b 0xffff Hf1 Ha). destruct (area_u16 b fat Hf Ha) as [Hbne _].
      assert (Hsame : forall x, x ∈ r -> fat_get (set1 fat1 b 0xffff) x = fat_get fat x)
        by (intros x Hx; by apply (link1_free fat block prev b r)).
      assert (Hfil : List.filter (free_block (set1 fat1 b 0xffff)) r = List.filter (free_block fat) r)
        by (apply bfilter_ext_in; intros x Hx; unfold free_block; by rewrite Hsame).
      replace (Z.of_nat (S i) - 1) with (Z.of_nat i) by lia. apply NoDup_cons in Hd as [Hd1 Hd2].
      cbn [length] in Hi.
      destruct (IH fuel (set1 fat1 b 0xffff) (if negb (block =? 0xffff) then block else b) b b i (count + 1))
        as (cur' & -> & Hcur); [by apply fits_set|done|done|done|done|rewrite Hfil; lia|lia|lia|lia|].
      exists cur'. split; [|right; destruct Hcur as [->|]; done]. rewrite Hfil. cbn [firstn link hd]. unfold prev_of at 1.
      destruct (Z.eqb_spec block 0xffff) as [->|E]; cbn [negb].
      * rewrite (proj2 (Z.eqb_neq b 0xffff) Hbne). done.
      * rewrite (proj2 (Z.eqb_neq block 0xffff) E). done.
    + apply NoDup_cons in Hd as [Hd1 Hd2].
      destruct (IH fuel fat block b prev (S i) (count + 1)) as (cur' & -> & Hcur); [done|done|done|done| |done|lia|lia|lia|].
      { intros E. destruct (Hp E) as [? Hp2]. apply not_elem_of_cons in Hp2 as [_ ?]. done. }
      exists cur'. split; [done|right; destruct Hcur as [->|]; done].
Qed.
(** ** The order of the search *)

Lemma last_default {A} (a : A) l d d' : List.last (a :: l) d = List.last (a :: l) d'.
Proof. revert a. induction l as [|b l IH]; [done|]. intros a. exact (IH b). Qed.

Lemma path_app l r cur : path cur l -> path (List.last l cur) r -> path cur (l ++ r).
Proof.
  revert cur. induction l as [|a l IH]; [done|]. intros cur [-> H1] H2. split; [done|]. apply IH; [done|].
  destruct l as [|a l]; [done|]. by rewrite (last_default a l _ cur).
Qed.

Lemma next_block_succ b : CARD_SYSAREA <= b -> b + 1 < blocks <= 0x1000 -> next_block blocks b = b + 1.
Proof.
  intros Hb H1. unfold next_block, CARD_SYSAREA in *. rewrite wrap_small by lia.
  destruct (Z.ltb_spec (b + 1) 5), (Z.leb_spec blocks (b + 1)); lia || done.
Qed.

Lemma next_block_area last : CARD_SYSAREA < blocks -> in_area blocks (next_block blocks last).
Proof.
  intros Hb. unfold next_block, in_area, CARD_SYSAREA in *.
  destruct (Z.ltb_spec (u16 (last + 1)) 5), (Z.leb_spec blocks (u16 (last + 1))); cbn; lia.
Qed.

Lemma path_seqZ n : forall cur b, next_block blocks cur = b -> CARD_SYSAREA <= b -> b + Z.of_nat n <= blocks <= 0x1000 ->
  path cur (seqZ b (Z.of_nat n)).
Proof.
  induction n as [|n IH]; intros cur b Hn Hb Hl; [done|]. rewrite seqZ_cons by lia. split; [done|].
  replace (Z.pred (Z.of_nat (S n))) with (Z.of_nat n) by lia. destruct n as [|n]; [done|].
  apply IH; [|lia|lia]. rewrite next_block_succ by lia. lia.
Qed.

Lemma last_seqZ n : forall b cur, List.last (seqZ b (Z.of_nat (S n))) cur = b + Z.of_nat n.
Proof.
  induction n as [|n IH]; intros b cur; [rewrite seqZ_cons by lia; change (Z.pred (Z.of_nat 1)) with 0; rewrite seqZ_nil by lia; cbn; lia|].
  rewrite seqZ_cons by lia. replace (Z.pred (Z.of_nat (S (S n)))) with (Z.of_nat (S n)) by lia. specialize (IH (Z.succ b) cur).
  destruct (seqZ (Z.succ b) (Z.of_nat (S n))) eqn:E; [by rewrite seqZ_cons in E by lia|].
  change (List.last (b :: z :: l) cur) with (List.last (z :: l) cur). rewrite IH. lia.
Qed.

Definition area : list Z := seqZ CARD_SYSAREA (blocks - CARD_SYSAREA).

Lemma elem_of_area b : b ∈ area <-> in_area blocks b.
Proof. unfold area, in_area. rewrite elem_of_seqZ. lia. Qed.

Lemma cyclic_perm last : CARD_SYSAREA < blocks -> cyclic last ≡ₚ area.
Proof.
  intros Hb. pose proof (next_block_area last Hb) as Ha. unfold cyclic, area, in_area in *.
  set (b := next_block blocks last) in *. rewrite (Permutation_app_comm).
  replace (blocks - CARD_SYSAREA) with ((b - CARD_SYSAREA) + (blocks - b)) by lia.
  rewrite seqZ_app by lia. by replace (CARD_SYSAREA + (b - CARD_SYSAREA)) with b by lia.
Qed.

Lemma cyclic_path last : CARD_SYSAREA < blocks <= 0x1000 -> path last (cyclic last).
Proof.
  intros Hb. pose proof (next_block_area last ltac:(lia)) as Ha. unfold cyclic, in_area, CARD_SYSAREA in *.
  set (b := next_block blocks last) in *. apply path_app.
  - replace (blocks - b) with (Z.of_nat (Z.to_nat (blocks - b))) by lia. apply path_seqZ; unfold CARD_SYSAREA; [done|lia|lia].
  - replace (blocks - b) with (Z.of_nat (S (Z.to_nat (blocks - b - 1)))) by lia. rewrite last_seqZ.
    replace (b - 5) with (Z.of_nat (Z.to_nat (b - 5))) by lia. apply path_seqZ; unfold CARD_SYSAREA; [|lia|lia].
    unfold next_block, CARD_SYSAREA. rewrite wrap_small by lia.
    destruct (Z.leb_spec blocks (b + Z.of_nat (Z.to_nat (blocks - b - 1)) + 1)) as [_|]; [by rewrite orb_true_r|lia].
Qed.

Lemma area_NoDup : NoDup area.
Proof. apply NoDup_seqZ. Qed.

(** ** Linking up *)

Lemma link_fits l : forall fat prev, card_fits blocks fat -> card_fits blocks (link fat prev l).
Proof.
  induction l as [|b r IH]; [done|]. intros fat prev Hf. apply IH, fits_set. destruct prev; [by apply fits_set|done].
Qed.

Lemma link_ne l : forall fat prev x, Forall (in_area blocks) l -> (forall p, prev = Some p -> in_area blocks p) ->
  x ∉ l -> prev <> Some x -> fat_get (link fat prev l) x = fat_get fat x.
Proof.
  induction l as [|b r IH]; [done|]. intros fat prev x Ha Hp Hx Hpx. apply Forall_cons in Ha as [Ha Har].
  apply not_elem_of_cons in Hx as [Hx1 Hx2]. cbn [link]. rewrite IH; [|done|by intros p [= <-]|done|congruence].
  rewrite get_set_ne by (unfold in_area in Ha; lia || congruence). destruct prev as [p|]; [|done].
  apply get_set_ne; [by apply Hp|congruence].
Qed.

Lemma link_linked l : forall fat prev, card_fits blocks fat -> Forall (in_area blocks) l -> NoDup l ->
  (forall p, prev = Some p -> in_area blocks p /\ p ∉ l) ->
  linked (link fat prev l) l /\
  (forall p b, prev = Some p -> hd_error l = Some b -> fat_get (link fat prev l) p = Some b).
Proof.
  induction l as [|b r IH]; [done|]. intros fat prev Hf Ha Hd Hp. apply Forall_cons in Ha as [Ha Har].
  apply NoDup_cons in Hd as [Hd1 Hd2]. cbn [link].
  set (fat1 := match prev with Some p => set1 fat p b | None => fat end).
  assert (Hf1 : card_fits blocks fat1) by (unfold fat1; destruct prev; [by apply fits_set|done]).
  destruct (IH (set1 fat1 b 0xffff) (Some b)) as [H1 H2]; [by apply fits_set|done|done|by intros p [= <-]|].
  split; [split; [|done]|].
  - destruct r as [|c r]; [by apply get_set|]. by apply H2.
  - intros p c -> [= <-]. destruct (Hp p eq_refl) as [Hpa Hpn]. apply not_elem_of_cons in Hpn as [Hn1 Hn2].
    rewrite link_ne; [|done|by intros q [= <-]|done|congruence].
    rewrite get_set_ne by (unfold in_area in Ha; lia || congruence). by apply get_set.
Qed.

(** ** Counting *)

Lemma free_count_area fat : card_fits blocks fat ->
  count_zeros (firstn (Z.to_nat (blocks - CARD_SYSAREA)) fat) = Z.of_nat (length (List.filter (free_block fat) area)).
Proof.
  intros [Hb Hl]. unfold area. remember (Z.to_nat (blocks - CARD_SYSAREA)) as n eqn:En.
  replace (blocks - CARD_SYSAREA) with (Z.of_nat n) by lia.
  assert (H : forall n k, (k + n <= length fat)%nat ->
    count_zeros (firstn n (skipn k fat)) =
    Z.of_nat (length (List.filter (free_block fat) (seqZ (CARD_SYSAREA + Z.of_nat k) (Z.of_nat n))))).
  { clear. induction n as [|n IH]; intros k Hk; [done|]. destruct (lookup_lt_is_Some_2 fat k ltac:(lia)) as [v Hv].
    rewrite (drop_S fat v k Hv). rewrite seqZ_cons by lia. cbn [firstn count_zeros List.filter].
    rewrite IH by lia. replace (Z.pred (Z.of_nat (S n))) with (Z.of_nat n) by lia.
    replace (Z.succ (CARD_SYSAREA + Z.of_nat k)) with (CARD_SYSAREA + Z.of_nat (S k)) by lia.
    assert (Hg : fat_get fat (CARD_SYSAREA + Z.of_nat k) = Some v).
    { unfold fat_get, CARD_SYSAREA. destruct (Z.ltb_spec (5 + Z.of_nat k) 5); [lia|].
      by replace (Z.to_nat (5 + Z.of_nat k - 5)) with k by lia. }
    unfold free_block at 2. rewrite Hg. destruct (Z.eqb_spec v 0) as [->|Hn].
    - rewrite bool_decide_true by done. cbn [length]. lia.
    - rewrite bool_decide_false by congruence. lia. }
  rewrite <- (drop_0 fat) at 1. rewrite H by (rewrite Hl; unfold CARD_SYSAREA in *; lia). by rewrite Z.add_0_r.
Qed.

(** The free blocks and the blocks of the files make up the card. *)
Lemma inv_partition fat files : fat_inv fat files -> List.filter (free_block fat) area ++ concat files ≡ₚ area.
Proof.
  intros [Hf _ _ Ha Hd Hfree]. apply NoDup_Permutation.
  - apply NoDup_app. split; [apply NoDup_ListNoDup, List.NoDup_filter, NoDup_ListNoDup, area_NoDup|]. split; [|done].
    intros x Hx Hc. apply list_elem_of_In, filter_In in Hx as [Hx1 Hx2]. apply list_elem_of_In, elem_of_area in Hx1.
    by apply Hfree in Hx2.
  - apply area_NoDup.
  - intros x. rewrite elem_of_app. split.
    + intros [Hx|Hx]; [apply list_elem_of_In, filter_In in Hx as [Hx _]; by apply list_elem_of_In|].
      apply elem_of_area. by eapply (proj1 (Forall_forall _ _)) in Ha.
    + intros Hx. destruct (decide (x ∈ concat files)) as [Hc|Hc]; [by right|left].
      apply list_elem_of_In, filter_In. split; [by apply list_elem_of_In|]. apply Hfree; [by apply elem_of_area|done].
Qed.

Lemma inv_count fat files : fat_inv fat files ->
  count_free blocks fat = blocks - CARD_SYSAREA - Z.of_nat (length (concat files)).
Proof.
  intros Hi. pose proof (fi_fits _ _ Hi) as Hf. unfold count_free. rewrite free_count_area by done.
  pose proof (Permutation_length (inv_partition fat files Hi)) as Hp. rewrite length_app in Hp.
  unfold area in Hp at 2. rewrite length_seqZ in Hp. destruct Hf as [Hb _]. unfold CARD_SYSAREA in *.
  rewrite wrap_small by lia. lia.
Qed.
End Fat.
