(* ===== verification/CardProofs.v ===== *)
(** * Memory cards: allocation and recovery

    The driver's operations on the allocation table, whatever the EXI driver
    answers, and the choice between the two copies of a system block at mount. *)

From stdpp Require Import base gmap list fin_maps.
From Stdlib Require Import ZArith Lia.
From S2P Require Import Prelude CardState Card CardFat.

Open Scope Z_scope.

(** ** What the EXI commands leave alone *)

(** The part of a control block that the command layer does not touch. *)
Definition view (c : card_block) :=
  (c_attached c, c_result c, c_sector_size c, c_blocks c, c_curr_fileblock c, c_curr_file c, c_curr_dir c, c_curr_fat c,
   c_header c, c_dirs c, c_bats c, c_workarea c, (c_ext_cb c, c_api_cb c, c_erase_cb c, c_mount_step c, c_format_step c)).

Definition cmd_ok (c : card_block) : Prop := length (c_cmd c) = 9%nat /\ 0 <= c_cmd_len c <= 9.

(** [s'] differs from [s] in the command layer of the slot [chn] only. *)
Record keeps (chn : Z) (s s' : cst) : Prop := {
  kp_view : view (g_map s' chn) = view (g_map s chn);
  kp_other : forall k, k <> chn -> g_map s' k = g_map s k;
  kp_files : g_files s' = g_files s;
  kp_codes : g_gamecode s' = g_gamecode s /\ g_company s' = g_company s;
  kp_env : g_time s' = g_time s /\ g_flash_id s' = g_flash_id s /\ g_flash_sum s' = g_flash_sum s;
  kp_cmd : cmd_ok (g_map s' chn)
}.

Lemma keeps_refl chn s : cmd_ok (g_map s chn) -> keeps chn s s.
Proof. by constructor. Qed.

Lemma keeps_trans chn s1 s2 s3 : keeps chn s1 s2 -> keeps chn s2 s3 -> keeps chn s1 s3.
Proof.
  intros [A1 A2 A3 [A4 A4'] (A5 & A5' & A5'') A6] [B1 B2 B3 [B4 B4'] (B5 & B5' & B5'') B6].
  constructor; [congruence| |congruence|split; congruence|repeat split; congruence|done].
  intros k Hk. by rewrite B2, A2.
Qed.

(** A computation of the command layer. *)
Definition keeps_m {A} (chn : Z) (c : M cst A) : Prop :=
  forall s, cmd_ok (g_map s chn) -> wp c (fun _ s' => keeps chn s s') s.

Section Keeps.
Context (chn : Z).

Lemma km_ret {A} (a : A) : keeps_m chn (ret a).
Proof. intros s Hc. apply wp_ret. by apply keeps_refl. Qed.

Lemma km_bind {A B} (c : M cst A) (k : A -> M cst B) :
  keeps_m chn c -> (forall a, keeps_m chn (k a)) -> keeps_m chn (bind c k).
Proof.
  intros H1 H2 s Hc. apply wp_bind. eapply wp_mono; [exact (H1 s Hc)|]. intros a s1 Hk. cbn beta.
  eapply wp_mono; [exact (H2 a s1 (kp_cmd _ _ _ Hk))|]. intros b s2 Hk2. exact (keeps_trans chn s s1 s2 Hk Hk2).
Qed.

Lemma km_if {A} (b : bool) (c d : M cst A) : keeps_m chn c -> keeps_m chn d -> keeps_m chn (if b then c else d).
Proof. by destruct b. Qed.

Lemma km_when (b : bool) c : keeps_m chn c -> keeps_m chn (when b c).
Proof. intros H. unfold when. destruct b; [done|apply km_ret]. Qed.

Lemma km_exi e : keeps_m chn (exi e).
Proof. intros s Hc. unfold wp, exi. by constructor. Qed.

Lemma km_emit e : keeps_m chn (emit e).
Proof. intros s Hc. apply wp_modify. by constructor. Qed.

Lemma km_rd {A} (f : card_block -> A) : keeps_m chn (rd chn f).
Proof. intros s Hc. apply wp_gets. by apply keeps_refl. Qed.

Lemma km_upd u : (forall c, view (u c) = view c) -> (forall c, cmd_ok c -> cmd_ok (u c)) -> keeps_m chn (upd chn u).
Proof.
  intros Hv Hk s Hc. apply wp_modify. constructor; cbn; [by rewrite fupd_eq| |done|done|done|rewrite fupd_eq; by apply Hk].
  intros k Hn. by rewrite fupd_ne.
Qed.

Lemma km_set_cmd l : (0 < length l <= 9)%nat -> keeps_m chn (set_cmd chn l).
Proof.
  intros Hl. unfold set_cmd. apply km_bind; [apply km_upd; [done|]|intros _; apply km_upd; [done|]].
  - intros c [H1 H2]. split; [|done]. cbn. rewrite length_app, length_skipn, H1. lia.
  - intros c [H1 H2]. split; [done|]. cbn. lia.
Qed.

Lemma km_cmd0 : keeps_m chn (cmd0 chn).
Proof.
  intros s Hc. unfold cmd0. apply wp_bind, wp_gets. unfold byte_at, at_index. cbn.
  destruct (c_cmd (g_map s chn)) as [|x r] eqn:E; [destruct Hc as [H1 _]; by rewrite E in H1|]. apply wp_ret. by apply keeps_refl.
Qed.

Lemma km_cmd_bytes : keeps_m chn (cmd_bytes chn).
Proof.
  intros s Hc. unfold cmd_bytes. do 2 apply wp_bind, wp_gets. unfold take_bytes. destruct Hc as [H1 H2].
  rewrite H1. destruct (Nat.ltb_spec 9 (Z.to_nat (c_cmd_len (g_map s chn)))) as [H|_]; [lia|].
  apply wp_ret. by apply keeps_refl.
Qed.
End Keeps.

Create HintDb card.
#[export] Hint Resolve km_ret km_exi km_emit km_rd km_cmd0 km_cmd_bytes : card.

(** Goes through a computation of the command layer. *)
Ltac keeps_tac :=
  repeat match goal with
         | |- keeps_m _ (bind _ _) => apply km_bind; [|intros ?]
         | |- keeps_m _ (if _ then _ else _) => apply km_if
         | |- keeps_m _ (when _ _) => apply km_when
         | |- keeps_m _ (upd _ _) => apply km_upd; [done|by intros ? [? ?]]
         | |- keeps_m _ (set_cmd _ _) => apply km_set_cmd; cbn; lia
         | |- _ => solve [eauto with card]
         end.

Lemma km_setuptimeout chn : keeps_m chn (setuptimeout chn).
Proof. unfold setuptimeout. keeps_tac. Qed.
#[export] Hint Resolve km_setuptimeout : card.

Lemma km_start chn tx ex : keeps_m chn (card_start chn tx ex).
Proof. unfold card_start. keeps_tac. Qed.
#[export] Hint Resolve km_start : card.

Lemma km_giveup chn : keeps_m chn (exi_giveup chn).
Proof. unfold exi_giveup. keeps_tac. Qed.
#[export] Hint Resolve km_giveup : card.

Lemma km_erase chn sector cb : keeps_m chn (ogc_card_sectorerase chn sector cb).
Proof. unfold ogc_card_sectorerase. keeps_tac. Qed.

Lemma km_writepage chn cb : keeps_m chn (ogc_card_writepage chn cb).
Proof. unfold ogc_card_writepage. keeps_tac. Qed.

Lemma km_readsegment chn cb : keeps_m chn (ogc_card_readsegment chn cb).
Proof. unfold ogc_card_readsegment. keeps_tac. Qed.

Lemma km_retry chn : keeps_m chn (card_retry chn).
Proof. unfold card_retry. keeps_tac. Qed.
#[export] Hint Resolve km_erase km_writepage km_readsegment km_retry : card.

Lemma km_write chn a n buf cb : keeps_m chn (ogc_card_write chn a n buf cb).
Proof. unfold ogc_card_write. keeps_tac. Qed.

Lemma km_read chn a n buf cb : keeps_m chn (ogc_card_read chn a n buf cb).
Proof. unfold ogc_card_read. keeps_tac. Qed.
#[export] Hint Resolve km_write km_read : card.

(** ** Allocation and release of chains *)

Definition fat_of (c : card_block) : card_bat := c_bats c (c_curr_fat c).
Definition dir_of (c : card_block) : card_dat := c_dirs c (c_curr_dir c).

Record mounted (chn : Z) (s : cst) : Prop := {
  mt_slot : bad_slot chn = false;
  mt_attached : c_attached (g_map s chn) <> 0;
  mt_dir : c_curr_dir (g_map s chn) <> 0;
  mt_fat : c_curr_fat (g_map s chn) <> 0;
  mt_cmd : cmd_ok (g_map s chn)
}.

(** The table of a card holds the chains [files] and knows how much is free. *)
Definition holds (c : card_block) (files : list (list Z)) : Prop :=
  fat_inv (c_blocks c) (bat_fat (fat_of c)) files /\
  bat_freeblocks (fat_of c) = count_free (c_blocks c) (bat_fat (fat_of c)).

Section Chains.
Context (blocks : Z).
Implicit Types (fat : list Z) (files : list (list Z)).

Lemma choice_in fat last n b : CARD_SYSAREA < blocks ->
  b ∈ alloc_choice blocks fat last n -> in_area blocks b /\ free_block fat b = true.
Proof.
  intros Hb Hc. unfold alloc_choice in Hc. apply list_elem_of_In in Hc.
  assert (Hin : In b (List.filter (free_block fat) (cyclic blocks last))).
  { rewrite <- (firstn_skipn n). apply in_app_iff. by left. }
  apply filter_In in Hin as [H1 H2]. split; [|done]. apply elem_of_area. rewrite <- (cyclic_perm blocks last Hb).
  by apply list_elem_of_In.
Qed.

Lemma cyclic_NoDup last : CARD_SYSAREA < blocks -> NoDup (cyclic blocks last).
Proof. intros Hb. rewrite (cyclic_perm blocks last Hb). apply area_NoDup. Qed.

Lemma choice_NoDup fat last n : CARD_SYSAREA < blocks -> NoDup (alloc_choice blocks fat last n).
Proof.
  intros Hb. assert (H : NoDup (List.filter (free_block fat) (cyclic blocks last))).
  { apply NoDup_ListNoDup, List.NoDup_filter, NoDup_ListNoDup. by apply cyclic_NoDup. }
  rewrite <- (firstn_skipn n) in H. by apply NoDup_app in H as [H _].
Qed.

Lemma filter_perm {A} (f : A -> bool) l l' : l ≡ₚ l' -> length (List.filter f l) = length (List.filter f l').
Proof.
  induction 1 as [|x l l' _ IH|x y l|l l' l'' _ IH1 _ IH2]; cbn; [done|by destruct (f x); cbn; rewrite IH| |congruence].
  by destruct (f x), (f y).
Qed.

Lemma free_cyclic fat last : CARD_SYSAREA < blocks ->
  length (List.filter (free_block fat) (cyclic blocks last)) = length (List.filter (free_block fat) (area blocks)).
Proof. intros Hb. by apply filter_perm, cyclic_perm. Qed.

Lemma choice_length fat files last n : fat_inv blocks fat files -> Z.of_nat n <= count_free blocks fat ->
  length (alloc_choice blocks fat last n) = n.
Proof.
  intros Hi Hn. pose proof (fi_fits _ _ _ Hi) as Hf. pose proof Hf as [Hb _].
  unfold alloc_choice. rewrite length_firstn, free_cyclic by lia. pose proof (inv_count _ _ _ Hi) as Hc.
  pose proof (free_count_area _ _ Hf) as Ha. unfold count_free in *. rewrite wrap_small in Hn, Hc; [lia| |].
  all: rewrite Ha; assert (Hle : (length (List.filter (free_block fat) (area blocks)) <= length (area blocks))%nat)
         by apply filter_length_le; unfold area in Hle at 2; rewrite length_seqZ in Hle; unfold CARD_SYSAREA in *; lia.
Qed.

(** The chosen blocks become a file, the others keep their chains. *)
Lemma alloc_inv fat files last n : fat_inv blocks fat files -> alloc_choice blocks fat last n <> [] ->
  fat_inv blocks (link fat None (alloc_choice blocks fat last n)) (alloc_choice blocks fat last n :: files).
Proof.
  intros [Hf Hl Hn Ha Hd Hfree] Hne. pose proof Hf as [Hb _]. set (chain := alloc_choice blocks fat last n) in *.
  assert (Hca : Forall (in_area blocks) chain) by (apply Forall_forall; intros b Hb'; by apply (choice_in fat last n b); [lia|]).
  assert (Hcd : NoDup chain) by (apply choice_NoDup; lia).
  assert (Hout : forall b, b ∈ chain -> b ∉ concat files).
  { intros b Hc. destruct (choice_in fat last n b ltac:(lia) Hc) as [H1 H2]. by apply Hfree. }
  assert (Hsame : forall b, b ∉ chain -> fat_get (link fat None chain) b = fat_get fat b)
    by (intros b Hc; by apply (link_ne blocks)).
  constructor.
  - by apply link_fits.
  - constructor; [by apply (link_linked blocks)|]. apply Forall_forall. intros l Hl'. eapply linked_ext.
    + intros b Hb'. apply Hsame. intros Hc. apply (Hout b Hc). apply list_elem_of_In, in_concat. exists l.
      split; by apply list_elem_of_In.
    + by eapply (proj1 (Forall_forall _ _)) in Hl.
  - by constructor.
  - cbn [concat]. by apply Forall_app.
  - cbn [concat]. apply NoDup_app. split; [done|]. split; [|done]. done.
  - intros b Hb'. cbn [concat]. rewrite elem_of_app. destruct (decide (b ∈ chain)) as [Hc|Hc].
    + split; [|intros H; exfalso; apply H; by left]. intros H. exfalso. unfold free_block in H.
      apply bool_decide_eq_true in H. destruct (link_linked blocks chain fat None Hf Hca Hcd ltac:(done)) as [H1 _].
      assert (Hv : fat_get (link fat None chain) b <> Some 0); [|done]. clear -H1 Hc Hca.
      revert H1. generalize (link fat None chain). intros f H1. induction chain as [|a r IH]; [by apply not_elem_of_nil in Hc|].
      apply Forall_cons in Hca as [Ha Har]. destruct H1 as [H1 H2].
      apply elem_of_cons in Hc as [->|Hc]; [|by apply IH]. rewrite H1. destruct r as [|c r]; [done|].
      apply Forall_cons in Har as [Hc _]. unfold in_area, CARD_SYSAREA in Hc. cbn. intros [= ->]. lia.
    + unfold free_block. rewrite Hsame by done. fold (free_block fat b). rewrite Hfree by done. tauto.
Qed.

(** A chain that is cleared is free again. *)
Lemma free_inv fat files1 chain files2 : fat_inv blocks fat (files1 ++ chain :: files2) ->
  fat_inv blocks (clear_chain fat chain) (files1 ++ files2).
Proof.
  intros [Hf Hl Hn Ha Hd Hfree]. rewrite concat_app in *. cbn [concat] in *.
  apply Forall_app in Ha as [Ha1 Ha2]. apply Forall_app in Ha2 as [Ha Ha2].
  apply Forall_app in Hl as [Hl1 Hl2]. apply Forall_cons in Hl2 as [Hl Hl2].
  apply Forall_app in Hn as [Hn1 Hn2]. apply Forall_cons in Hn2 as [Hn Hn2].
  rewrite (Permutation_app_swap_app (concat files1)) in Hd. apply NoDup_app in Hd as (Hd & Hdis & Hd12).
  assert (Hsame : forall b, b ∈ concat files1 ++ concat files2 -> fat_get (clear_chain fat chain) b = fat_get fat b)
    by (intros b Hb; apply (clear_get_ne blocks); [done|]; intros Hc; by apply (Hdis b)).
  assert (Hkeep : forall fs, (forall b, b ∈ concat fs -> b ∈ concat files1 ++ concat files2) -> Forall (linked fat) fs ->
    Forall (linked (clear_chain fat chain)) fs).
  { intros fs Hsub Hfs. apply Forall_forall. intros l Hin. eapply linked_ext.
    - intros b Hb. apply Hsame, Hsub, list_elem_of_In, in_concat. exists l. split; by apply list_elem_of_In.
    - by eapply (proj1 (Forall_forall _ _)) in Hfs. }
  constructor; rewrite ?concat_app.
  - by apply clear_fits.
  - apply Forall_app. split; apply Hkeep; try done; intros b Hb; apply elem_of_app; [by left|by right].
  - by apply Forall_app.
  - by apply Forall_app.
  - done.
  - intros b Hb. destruct (decide (b ∈ chain)) as [Hc|Hc].
    + unfold free_block. rewrite (clear_get blocks) by done. split; [intros _ H; by apply (Hdis b)|].
      intros _. by apply bool_decide_eq_true.
    + unfold free_block. rewrite (clear_get_ne blocks) by done. fold (free_block fat b). rewrite Hfree by done.
      rewrite !elem_of_app. tauto.
Qed.
End Chains.

(** ** The driver *)

(** Stores a control block. *)
Definition with_block (chn : Z) (c : card_block) (s : cst) : cst := set_g_map (fupd (g_map s) chn c) s.

Lemma map_with chn c s : g_map (with_block chn c s) chn = c.
Proof. cbn. apply fupd_eq. Qed.
Lemma map_with_ne chn c s k : k <> chn -> g_map (with_block chn c s) k = g_map s k.
Proof. intros. cbn. by apply fupd_ne. Qed.

Lemma wp_card_rd {A} chn (f : card_block -> A) Q s : Q (f (g_map s chn)) s -> wp (rd chn f) Q s.
Proof. done. Qed.
Lemma wp_upd chn u Q s : Q tt (with_block chn (u (g_map s chn)) s) -> wp (upd chn u) Q s.
Proof. done. Qed.
Lemma wp_cur_fat chn Q s : c_curr_fat (g_map s chn) <> 0 -> Q (fat_of (g_map s chn)) s -> wp (cur_fat chn) Q s.
Proof.
  intros H HQ. unfold cur_fat. apply wp_bind, wp_card_rd, wp_bind. unfold deref. rewrite (proj2 (Z.eqb_neq _ _) H). exact HQ.
Qed.
Definition set_fat (b : card_bat) (c : card_block) : card_block := set_c_bats (fupd (c_bats c) (c_curr_fat c) b) c.
Lemma wp_put_fat chn b Q s :
  c_curr_fat (g_map s chn) <> 0 -> Q tt (with_block chn (set_fat b (g_map s chn)) s) -> wp (put_fat chn b) Q s.
Proof.
  intros H HQ. unfold put_fat. apply wp_bind, wp_card_rd, wp_bind. unfold deref. rewrite (proj2 (Z.eqb_neq _ _) H). exact HQ.
Qed.
Lemma fat_of_set b c : fat_of (set_fat b c) = b.
Proof. unfold fat_of. cbn. apply fupd_eq. Qed.

(** Only the last control block stored counts. *)
Lemma keeps_collapse chn c c0 s s' : keeps chn (with_block chn c (with_block chn c0 s)) s' -> keeps chn (with_block chn c s) s'.
Proof.
  intros [K1 K2 K3 K4 K5 K6]. constructor; try done; [by rewrite map_with in K1 |- *|].
  intros k Hk. by rewrite K2, !map_with_ne by done.
Qed.

(** A guard of the source whose condition is known. *)
Lemma isz_false x : x <> 0 -> isz x = false.
Proof. apply Z.eqb_neq. Qed.

Lemma seal_sums b : bat_sums_ok (seal_bat b) = true.
Proof.
  unfold bat_sums_ok, seal_bat. cbn -[card_checksum]. unfold bat_halfs. cbn -[card_checksum].
  by rewrite !Z.eqb_refl.
Qed.

(** [__card_updatefat]: the table gets a new number and new checksums, and its
    sector is erased; nothing else of the card changes. *)
Lemma card_updatefat_ok chn cb s : mounted chn s ->
  wp (card_updatefat chn cb) (fun _ s' => keeps chn (with_block chn (set_c_erase_cb cb (set_fat (seal_bat (fat_of (g_map s chn))) (g_map s chn))) s) s') s.
Proof.
  intros [Hs Ha Hd Hf Hc]. unfold card_updatefat. rewrite Hs. apply wp_bind, wp_card_rd. rewrite isz_false by done.
  apply wp_bind, wp_cur_fat; [done|]. apply wp_bind, wp_put_fat; [done|].
  apply wp_bind, wp_upd. rewrite map_with. apply wp_bind, wp_card_rd. apply wp_bind, wp_card_rd.
  set (c1 := set_c_erase_cb cb _). eapply wp_mono; [apply km_erase; rewrite map_with; exact Hc|].
  intros r s' Hk. exact (keeps_collapse _ _ _ _ _ Hk).
Qed.

(** What an operation on the table leaves: the new chains, sealed for the card. *)
Definition table_written (chn : Z) (s s' : cst) (files : list (list Z)) : Prop :=
  let c := g_map s chn in let c' := g_map s' chn in
  holds c' files /\ bat_sums_ok (fat_of c') = true /\ bat_updated (fat_of c') = u16 (bat_updated (fat_of c) + 1) /\
  c_curr_fat c' = c_curr_fat c /\ c_dirs c' = c_dirs c /\ c_curr_dir c' = c_curr_dir c /\ c_result c' = c_result c /\
  c_blocks c' = c_blocks c.

Lemma table_written_intro chn s s' cb fat free last files (u : card_block -> card_block) :
  (forall c, c_bats (u c) = c_bats c /\ c_curr_fat (u c) = c_curr_fat c /\ c_dirs (u c) = c_dirs c /\
             c_curr_dir (u c) = c_curr_dir c /\ c_result (u c) = c_result c /\ c_blocks (u c) = c_blocks c) ->
  fat_inv (c_blocks (g_map s chn)) fat files -> free = count_free (c_blocks (g_map s chn)) fat ->
  let b := set_bat_lastalloc last (set_bat_freeblocks free (set_bat_fat fat (fat_of (g_map s chn)))) in
  let c1 := u (set_fat b (g_map s chn)) in
  keeps chn (with_block chn (set_c_erase_cb cb (set_fat (seal_bat (fat_of c1)) c1)) s) s' ->
  table_written chn s s' files.
Proof.
  intros Hu Hi Hfree b c1 Hk. apply kp_view in Hk. rewrite map_with in Hk.
  destruct (Hu (set_fat b (g_map s chn))) as (U1 & U2 & U3 & U4 & U5 & U6). fold c1 in U1, U2, U3, U4, U5, U6.
  assert (Hf1 : fat_of c1 = b) by (unfold fat_of; rewrite U1, U2; apply fat_of_set).
  unfold view in Hk. injection Hk as E1 E2 E3 E4 E5 E6 E7 E8 E9 E10 E11 E12 E13 E14 E15 E16 E17.
  unfold table_written, holds. cbn in E2, E4, E7, E8, E10, E11. rewrite U1, U2 in E11. rewrite Hf1 in E11.
  assert (Hf' : fat_of (g_map s' chn) = seal_bat b).
  { unfold fat_of. rewrite E11, E8, U2. cbn. apply fupd_eq. }
  rewrite Hf', E4, U6. cbn. refine (conj (conj Hi Hfree) (conj (seal_sums b) (conj eq_refl _))).
  rewrite E8, E10, E7, E2, U2, U3, U4, U5. done.
Qed.

(** C12. Allocation: [__card_allocblock] takes the first free blocks in cyclic
    order after the last allocation, links them into a chain that ends the file,
    leaves every other file alone, accounts for the blocks and seals the table
    with a new number and checksums; it always terminates, and it answers
    [CARD_ERROR_INSSPACE] without a change exactly if too few blocks are free. *)
Theorem card_allocblock_ok chn n cb s files :
  mounted chn s -> holds (g_map s chn) files -> 0 < n < 2 ^ 32 ->
  let c := g_map s chn in let b := fat_of c in
  wp (card_allocblock chn n cb) (fun r s' =>
    if bat_freeblocks b <? n then r = CARD_ERROR_INSSPACE /\ s' = s
    else let chain := alloc_choice (c_blocks c) (bat_fat b) (bat_lastalloc b) (Z.to_nat n) in
         Z.of_nat (length chain) = n /\ table_written chn s s' (chain :: files) /\
         c_curr_fileblock (g_map s' chn) = hd 0xffff chain) s.
Proof.
  intros Hm [Hi Hfree] Hn c b. pose proof Hm as [Hs Ha Hd Hf Hc]. unfold card_allocblock. rewrite Hs.
  apply wp_bind, wp_card_rd. rewrite isz_false by done. apply wp_bind, wp_cur_fat; [done|]. fold c b. fold c in Hi, Hfree. fold b in Hi, Hfree.
  destruct (Z.ltb_spec (bat_freeblocks b) n) as [Hlt|Hle]; [by apply wp_ret|].
  apply wp_bind, wp_card_rd. fold c. set (chain := alloc_choice (c_blocks c) (bat_fat b) (bat_lastalloc b) (Z.to_nat n)).
  pose proof (fi_fits _ _ _ Hi) as Hfits. pose proof Hfits as [Hb _].
  assert (Hlen : length chain = Z.to_nat n) by (eapply choice_length; [exact Hi|lia]).
  assert (Hfil : (Z.to_nat n <= length (List.filter (free_block (bat_fat b)) (cyclic (c_blocks c) (bat_lastalloc b))))%nat).
  { unfold chain, alloc_choice in Hlen. rewrite length_firstn in Hlen. lia. }
  assert (Harea : length (cyclic (c_blocks c) (bat_lastalloc b)) = Z.to_nat (c_blocks c - 5)).
  { rewrite (Permutation_length (cyclic_perm (c_blocks c) (bat_lastalloc b) ltac:(lia))). unfold area. by rewrite length_seqZ. }
  destruct (alloc_loop_ok (c_blocks c) (cyclic (c_blocks c) (bat_lastalloc b)) (alloc_fuel (c_blocks c)) (bat_fat b) 0xffff
              (bat_lastalloc b) 0 (Z.to_nat n) 0) as (cur & Hrun & Hcur); try done.
  { apply cyclic_path. lia. }
  { apply Forall_forall. intros x Hx. apply elem_of_area. by rewrite <- (cyclic_perm _ (bat_lastalloc b)) by lia. }
  { apply cyclic_NoDup. lia. }
  { rewrite Harea. unfold alloc_fuel, CARD_SYSAREA in *. rewrite wrap_small by lia. lia. }
  { rewrite Harea. unfold CARD_SYSAREA in *. lia. }
  rewrite Z2Nat.id in Hrun by lia. rewrite Hrun. fold (alloc_choice (c_blocks c) (bat_fat b) (bat_lastalloc b) (Z.to_nat n)).
  fold chain. cbn [prev_of Z.eqb Pos.eqb].
  assert (Hne : chain <> []) by (intros E; rewrite E in Hlen; cbn in Hlen; lia).
  pose proof (alloc_inv (c_blocks c) (bat_fat b) files (bat_lastalloc b) (Z.to_nat n) Hi Hne) as Hi'. fold chain in Hi'.
  assert (Hcnt : u16 (bat_freeblocks b - n) = count_free (c_blocks c) (link (bat_fat b) None chain)).
  { rewrite (inv_count _ _ _ Hi'). rewrite Hfree, (inv_count _ _ _ Hi). cbn [concat]. rewrite length_app, Hlen.
    rewrite Hfree, (inv_count _ _ _ Hi) in Hle. unfold CARD_SYSAREA in *. rewrite wrap_small by lia. lia. }
  apply wp_bind, wp_put_fat; [done|]. apply wp_bind, wp_upd. rewrite map_with.
  eapply wp_mono.
  { apply card_updatefat_ok. constructor; rewrite ?map_with; done. }
  intros r s' Hk. rewrite map_with in Hk. split; [lia|]. split.
  - eapply (table_written_intro chn s s' cb _ _ _ _ (set_c_curr_fileblock (hd 0xffff chain))); [done|exact Hi'|exact Hcnt|].
    exact (keeps_collapse _ _ _ _ _ (keeps_collapse _ _ _ _ _ Hk)).
  - apply kp_view in Hk. rewrite map_with in Hk. unfold view in Hk. injection Hk as _ _ _ _ E5. exact E5.
Qed.

Lemma chain_short blocks fat files chain : fat_inv blocks fat files -> chain ∈ files ->
  NoDup chain /\ Forall (in_area blocks) chain /\ linked fat chain.
Proof.
  intros [Hf Hl Hn Ha Hd Hfree] Hin. apply list_elem_of_split in Hin as (l1 & l2 & ->).
  rewrite concat_app in Ha, Hd. cbn [concat] in *. apply Forall_app in Hl as [_ Hl]. apply Forall_cons in Hl as [Hl _].
  apply Forall_app in Ha as [_ Ha]. apply Forall_app in Ha as [Ha _]. apply NoDup_app in Hd as (_ & _ & Hd).
  by apply NoDup_app in Hd as (Hd & _ & _).
Qed.

(** C13. Release: [__card_freeblock] on the first block of a file follows its
    chain to the end, frees exactly its blocks, leaves every other file alone,
    accounts for the blocks and seals the table; it always terminates. *)
Theorem card_freeblock_ok chn cb s files1 block rest files2 :
  mounted chn s -> holds (g_map s chn) (files1 ++ (block :: rest) :: files2) ->
  wp (card_freeblock chn block cb) (fun _ s' => table_written chn s s' (files1 ++ files2)) s.
Proof.
  intros Hm [Hi Hfree]. pose proof Hm as [Hs Ha Hd Hf Hc]. unfold card_freeblock. rewrite Hs.
  apply wp_bind, wp_card_rd. rewrite isz_false by done. apply wp_bind, wp_cur_fat; [done|]. apply wp_bind, wp_card_rd.
  set (c := g_map s chn) in *. set (b := fat_of c) in *. pose proof (fi_fits _ _ _ Hi) as Hfits.
  pose proof Hfits as [Hb Hlf].
  destruct (chain_short _ _ _ (block :: rest) Hi ltac:(set_solver)) as (Hnd & Har & [Hl1 Hl2]).
  pose proof Hnd as Hnd0. apply NoDup_cons in Hnd as [Hnd1 Hnd2]. pose proof Har as Har0. apply Forall_cons in Har as [Hba Hra].
  rewrite Hl1, (fat_set_eq (c_blocks c)) by done.
  pose proof (free_inv (c_blocks c) _ files1 (block :: rest) files2 Hi) as Hi'.
  pose proof (inv_count _ _ _ Hi) as Hc0. pose proof (inv_count _ _ _ Hi') as Hc1.
  rewrite concat_app in Hc0, Hc1. cbn [concat] in Hc0. rewrite !length_app in Hc0. rewrite !length_app in Hc1.
  assert (Hpos : 0 <= count_free (c_blocks c) (bat_fat b)) by (apply wrap_range; lia).
  unfold CARD_SYSAREA in *. cbn [length] in Hc0. rewrite (wrap_small 16) by lia.
  rewrite (free_loop_ok (c_blocks c) rest); [|by apply fits_set|done|done| | |lia|lia].
  - apply wp_bind, wp_put_fat; [done|]. eapply wp_mono.
    { apply card_updatefat_ok. constructor; rewrite ?map_with; done. }
    intros r s' Hk. rewrite map_with in Hk. apply keeps_collapse in Hk.
    apply (table_written_intro chn s s' cb (clear_chain (bat_fat b) (block :: rest))
      (bat_freeblocks b + 1 + Z.of_nat (length rest)) (bat_lastalloc b) _ (fun x => x)); [done|exact Hi'|fold c; lia|].
    match type of Hk with context [set_fat ?x _] => replace x with
      (set_bat_lastalloc (bat_lastalloc b) (set_bat_freeblocks (bat_freeblocks b + 1 + Z.of_nat (length rest))
         (set_bat_fat (clear_chain (bat_fat b) (block :: rest)) b))) in Hk by (by destruct b) end.
    exact Hk.
  - eapply linked_ext; [|exact Hl2]. intros x Hx. apply get_set_ne; [unfold in_area, CARD_SYSAREA in *; lia|congruence].
  - unfold free_fuel, set1. rewrite length_insert, Hlf.
    assert (Hle : (length rest <= length (concat files1 ++ (block :: rest) ++ concat files2))%nat)
      by (rewrite !length_app; cbn; lia). rewrite !length_app in Hle. cbn in Hle. lia.
Qed.

(** A chain that is allocated and freed again leaves the table as it was, for
    every length and every position of the search. *)
Theorem fat_alloc_free_roundtrip blocks fat files last n :
  fat_inv blocks fat files -> 0 < Z.of_nat n <= count_free blocks fat ->
  let chain := alloc_choice blocks fat last n in
  forall b, in_area blocks b -> fat_get (clear_chain (link fat None chain) chain) b = fat_get fat b.
Proof.
  intros Hi Hn chain b Hb. pose proof (fi_fits _ _ _ Hi) as Hf. pose proof Hf as [Hbl _].
  assert (Hca : Forall (in_area blocks) chain).
  { apply Forall_forall. intros x Hx. by apply (choice_in blocks fat last n x); [lia|]. }
  destruct (decide (b ∈ chain)) as [Hc|Hc].
  - rewrite (clear_get blocks); [|by apply link_fits|done|apply choice_NoDup; lia|done].
    destruct (choice_in blocks fat last n b ltac:(lia) Hc) as [_ H]. symmetry. by apply bool_decide_eq_true in H.
  - rewrite (clear_get_ne blocks) by done. by apply (link_ne blocks).
Qed.
