(* ===== verification/CardRecover.v ===== *)
(** * Memory cards: checksums and recovery

    Directory and allocation table exist twice on a card. An update goes to the
    older copy, with the next number and new checksums. At mount the driver checks
    both copies and goes on with the newer good one, so that an update that was
    interrupted is undone as a whole. *)

From stdpp Require Import base gmap list fin_maps.
From Stdlib Require Import ZArith Lia.
From S2P Require Import Prelude CardState Card CardFat CardProofs.

Open Scope Z_scope.

(** ** Checksums *)

Definition half (w : Z) : Prop := 0 <= w < 0x10000.

Lemma lxor_ffff w : half w -> Z.lxor w 0xffff = 0xffff - w.
Proof.
  intros Hw. assert (H : w + Z.lxor w 0xffff = 0xffff); [|lia]. rewrite Z.add_nocarry_lxor.
  - by rewrite <- Z.lxor_assoc, Z.lxor_nilpotent.
  - apply Z.bits_inj'. intros n Hn. rewrite Z.land_spec, Z.lxor_spec, Z.bits_0.
    destruct (Z_lt_le_dec n 16) as [H16|H16].
    + change 0xffff with (Z.ones 16). rewrite Z.ones_spec_low by lia. by destruct (Z.testbit w n).
    + rewrite (Z.bits_above_log2 w n); [done|unfold half in Hw; lia|].
      destruct (Z.eq_dec w 0) as [->|]; [cbn; lia|]. apply Z.log2_lt_pow2; [unfold half in Hw; lia|].
      unfold half in Hw. assert (2 ^ 16 <= 2 ^ n) by (apply Z.pow_le_mono_r; lia). lia.
Qed.

Definition sumz (l : list Z) : Z := fold_right Z.add 0 l.

Lemma fold_sums l : forall c1 c2, Forall half l ->
  fold_left sum_step l (u16 c1, u16 c2) =
    (u16 (c1 + sumz l), u16 (c2 + (0xffff * Z.of_nat (length l) - sumz l))).
Proof.
  induction l as [|w r IH]; intros c1 c2 H; [cbn; by rewrite !Z.add_0_r|]. inversion H as [|? ? Hw Hr]; subst.
  cbn [fold_left]. unfold sum_step at 2. cbn [fst snd]. rewrite lxor_ffff by done. unfold wrap.
  rewrite !Zplus_mod_idemp_l. change (2 ^ 16) with 65536. fold (wrap 16 (c1 + w)). fold (wrap 16 (c2 + (65535 - w))).
  change (((c1 + w) mod 65536, (c2 + (65535 - w)) mod 65536)) with ((u16 (c1 + w), u16 (c2 + (65535 - w)))).
  rewrite IH by done. unfold wrap. cbn [length sumz fold_right]. fold (sumz r). f_equal; (f_equal; lia).
Qed.

Definition collapse (c : Z) : Z := if c =? 0xffff then 0 else c.

Lemma checksum_eq l : Forall half l ->
  card_checksum l = (collapse (u16 (sumz l)), collapse (u16 (0xffff * Z.of_nat (length l) - sumz l))).
Proof.
  intros H. unfold card_checksum. change (0, 0) with (u16 0, u16 0). rewrite fold_sums by done. cbn [fst snd].
  by rewrite !Z.add_0_l.
Qed.

Lemma sumz_insert l i (w w' : Z) : l !! i = Some w -> sumz (<[i := w']> l) = sumz l - w + w'.
Proof.
  revert i. induction l as [|a r IH]; intros [|i] H; try done.
  - injection H as ->. cbn [list_insert insert sumz fold_right]. lia.
  - specialize (IH i H). change (a + sumz (<[i:=w']> r) = a + sumz r - w + w'). lia.
Qed.

(** C40. The checksums detect every change of one halfword, wherever it is, in a
    block of any length but one halfword more than a multiple of 65536. *)
Theorem card_checksum_detects l i w w' :
  Forall half l -> l !! i = Some w -> half w' -> w' <> w -> Z.of_nat (length l) mod 65536 <> 1 ->
  card_checksum (<[i := w']> l) <> card_checksum l.
Proof.
  intros Hl Hi Hw' Hne Hn Heq. assert (Hw : half w) by (by eapply Forall_lookup in Hl).
  rewrite !checksum_eq in Heq by (done || by apply Forall_insert). rewrite length_insert, (sumz_insert l i w w' Hi) in Heq.
  injection Heq as H1 H2. unfold collapse, wrap, half in *. change (2 ^ 16) with 65536 in *.
  set (s := sumz l) in *. set (n := Z.of_nat (length l)) in *. clearbody s n. clear -H1 H2 Hw Hw' Hne Hn.
  repeat match goal with H : context [?a =? ?b] |- _ => destruct (Z.eqb_spec a b) end; Z.div_mod_to_equations; lia.
Qed.

Lemma card_checksum_detects_witness : card_checksum [1; 2; 4] <> card_checksum [1; 2; 3].
Proof.
  refine (card_checksum_detects [1; 2; 3] 2 3 4 _ _ _ _ _); [|reflexivity|unfold half; lia|lia|vm_compute; lia].
  repeat constructor; unfold half; lia.
Defined.

(** ** The choice at mount *)

Definition good_fat (blocks : Z) (b : card_bat) : bool :=
  bat_sums_ok b && (count_free blocks (bat_fat b) =? bat_freeblocks b).

(** The copy that is replaced: the bad one, or the older one. *)
Definition stale (good0 good1 older0 : bool) : Z :=
  if good0 && good1 then (if older0 then 0 else 1) else if good1 then 0 else 1.
Definition nbad (good0 good1 : bool) : Z := b2z (negb good0) + b2z (negb good1).

Definition older (n0 n1 : Z) : bool := n0 <? n1.

(** *** The allocation table *)

(** What the checks leave: no current copy, both copies as they were. *)
Definition fat_images (chn : Z) (s s' : cst) : Prop :=
  let c := g_map s chn in let c' := g_map s' chn in
  c_curr_fat c' = 0 /\ c_bats c' = c_bats c /\ c_blocks c' = c_blocks c /\ c_curr_dir c' = c_curr_dir c /\ c_dirs c' = c_dirs c.

Lemma checkfat_step_ok chn acc i s : c_curr_fat (g_map s chn) = 0 ->
  let good := good_fat (c_blocks (g_map s chn)) (c_bats (g_map s chn) (sys_bat i)) in
  wp (checkfat_step chn acc i) (fun acc' s' => acc' = (if good then acc else (fst acc + 1, i)) /\ fat_images chn s s') s.
Proof.
  intros H0 good. unfold checkfat_step. apply wp_bind, wp_card_rd, wp_bind, wp_card_rd.
  fold (good_fat (c_blocks (g_map s chn)) (c_bats (g_map s chn) (sys_bat i))). fold good. destruct good.
  - by apply wp_ret.
  - apply wp_bind, wp_upd, wp_ret. split; [done|]. unfold fat_images. by rewrite map_with.
Qed.

Lemma choose_fat_ok chn bad i s : c_curr_fat (g_map s chn) = 0 ->
  let c := g_map s chn in let b k := c_bats c (sys_bat k) in
  let i' := if isz bad then (if older (bat_updated (b 0)) (bat_updated (b 1)) then 0 else 1) else i in
  i = 0 \/ i = 1 ->
  wp (choose_fat chn bad i) (fun r s' => r = (bad, i') /\ c_curr_fat (g_map s' chn) = sys_bat i' /\
    fat_of (g_map s' chn) = b (1 - i') /\ c_curr_dir (g_map s' chn) = c_curr_dir c /\ c_dirs (g_map s' chn) = c_dirs c) s.
Proof.
  intros H0 c b i' Hi. unfold choose_fat. do 3 apply wp_bind, wp_card_rd. rewrite H0. cbn [isz Z.eqb].
  fold c. fold (b 0) (b 1). fold (older (bat_updated (b 0)) (bat_updated (b 1))). fold i'.
  assert (Hi' : i' = 0 \/ i' = 1) by (unfold i'; destruct (isz bad); [destruct (older (bat_updated (b 0)) (bat_updated (b 1)))|]; lia).
  apply wp_bind, wp_upd, wp_bind, wp_upd, wp_ret. rewrite !map_with. unfold fat_of. cbn. rewrite fupd_eq.
  destruct Hi' as [-> | ->]; done.
Qed.

(** The table at mount: the newer of two good copies, the good one of two. *)
Lemma checkfat_mount chn s : c_curr_fat (g_map s chn) = 0 ->
  let c := g_map s chn in let b i := c_bats c (sys_bat i) in let g i := good_fat (c_blocks c) (b i) in
  let i := stale (g 0) (g 1) (older (bat_updated (b 0)) (bat_updated (b 1))) in
  wp (card_checkfat chn) (fun r s' => fst r = nbad (g 0) (g 1) /\ c_curr_fat (g_map s' chn) = sys_bat i /\
    fat_of (g_map s' chn) = b (1 - i) /\ c_curr_dir (g_map s' chn) = c_curr_dir c /\ c_dirs (g_map s' chn) = c_dirs c) s.
Proof.
  intros H0 c b g i. unfold card_checkfat. apply wp_bind. eapply wp_mono; [by apply checkfat_step_ok|].
  intros acc1 s1 (-> & I1 & I2 & I3 & I4 & I5). apply wp_bind. eapply wp_mono; [by apply checkfat_step_ok|].
  intros acc2 s2 (-> & J1 & J2 & J3 & J4 & J5). rewrite I2, I3. fold c. fold (b 0) (b 1). fold (g 0) (g 1).
  eapply wp_mono; [apply choose_fat_ok; [done|]|].
  - destruct (g 0), (g 1); cbn; lia.
  - intros r s3. rewrite J2, J4, J5, I2, I4, I5. fold c. fold (b 0) (b 1). unfold i, stale.
    intros (-> & K2 & K3 & K4 & K5). destruct (g 0), (g 1); cbn in *; done.
Qed.

Lemma seal_good blocks b : bat_freeblocks b = count_free blocks (bat_fat b) -> good_fat blocks (seal_bat b) = true.
Proof. intros H. unfold good_fat. rewrite seal_sums. cbn. by rewrite H, Z.eqb_refl. Qed.


(** *** The directory *)

Definition dir_images (chn : Z) (s s' : cst) : Prop :=
  let c := g_map s chn in let c' := g_map s' chn in
  c_curr_dir c' = 0 /\ c_dirs c' = c_dirs c /\ c_blocks c' = c_blocks c /\ c_curr_fat c' = c_curr_fat c /\ c_bats c' = c_bats c.

Lemma checkdir_step_ok chn acc i s : c_curr_dir (g_map s chn) = 0 ->
  let good := dat_sums_ok (c_dirs (g_map s chn) (sys_dir i)) in
  wp (checkdir_step chn acc i) (fun acc' s' => acc' = (if good then acc else (fst acc + 1, i)) /\ dir_images chn s s') s.
Proof.
  intros H0 good. unfold checkdir_step. apply wp_bind, wp_card_rd. fold good. destruct good.
  - by apply wp_ret.
  - apply wp_bind, wp_upd, wp_ret. split; [done|]. unfold dir_images. by rewrite map_with.
Qed.

Lemma choose_dir_ok chn bad i s : c_curr_dir (g_map s chn) = 0 ->
  let c := g_map s chn in let d k := c_dirs c (sys_dir k) in
  let i' := if isz bad then (if older (dat_updated (d 0)) (dat_updated (d 1)) then 0 else 1) else i in
  i = 0 \/ i = 1 ->
  wp (choose_dir chn bad i) (fun r s' => r = (bad, i') /\ c_curr_dir (g_map s' chn) = sys_dir i' /\
    dir_of (g_map s' chn) = d (1 - i') /\ c_curr_fat (g_map s' chn) = c_curr_fat c /\ c_bats (g_map s' chn) = c_bats c /\
    c_blocks (g_map s' chn) = c_blocks c) s.
Proof.
  intros H0 c d i' Hi. unfold choose_dir. do 3 apply wp_bind, wp_card_rd. rewrite H0. cbn [isz Z.eqb].
  fold c. fold (d 0) (d 1). fold (older (dat_updated (d 0)) (dat_updated (d 1))). fold i'.
  assert (Hi' : i' = 0 \/ i' = 1)
    by (unfold i'; destruct (isz bad); [destruct (older (dat_updated (d 0)) (dat_updated (d 1)))|]; lia).
  apply wp_bind, wp_upd, wp_bind, wp_upd, wp_ret. rewrite !map_with. unfold dir_of. cbn. rewrite fupd_eq.
  destruct Hi' as [-> | ->]; done.
Qed.

Lemma checkdir_mount chn s : c_curr_dir (g_map s chn) = 0 ->
  let c := g_map s chn in let d i := c_dirs c (sys_dir i) in let g i := dat_sums_ok (d i) in
  let i := stale (g 0) (g 1) (older (dat_updated (d 0)) (dat_updated (d 1))) in
  wp (card_checkdir chn) (fun r s' => fst r = nbad (g 0) (g 1) /\ c_curr_dir (g_map s' chn) = sys_dir i /\
    dir_of (g_map s' chn) = d (1 - i) /\ c_curr_fat (g_map s' chn) = c_curr_fat c /\ c_bats (g_map s' chn) = c_bats c /\
    c_blocks (g_map s' chn) = c_blocks c) s.
Proof.
  intros H0 c d g i. unfold card_checkdir. apply wp_bind. eapply wp_mono; [by apply checkdir_step_ok|].
  intros acc1 s1 (-> & I1 & I2 & I3 & I4 & I5). apply wp_bind. eapply wp_mono; [by apply checkdir_step_ok|].
  intros acc2 s2 (-> & J1 & J2 & J3 & J4 & J5). rewrite I2. fold c. fold (d 0) (d 1). fold (g 0) (g 1).
  eapply wp_mono; [apply choose_dir_ok; [done|]|].
  - destruct (g 0), (g 1); cbn; lia.
  - intros r s3. rewrite J2, J3, J4, J5, I2, I3, I4, I5. fold c. fold (d 0) (d 1). unfold i, stale.
    intros (-> & K2 & K3 & K4 & K5 & K6). destruct (g 0), (g 1); cbn in *; done.
Qed.

Lemma seal_dat_sums d : dat_sums_ok (seal_dat d) = true.
Proof.
  unfold dat_sums_ok, seal_dat. cbn -[card_checksum dat_halfs].
  change (dat_halfs (set_dat_chksum2 ?x (set_dat_chksum1 ?y ?e))) with (dat_halfs e). unfold dat_halfs. cbn -[card_checksum halfs concat be16 app].
  by rewrite !Z.eqb_refl.
Qed.

Lemma sys_dir_nz i : i = 0 \/ i = 1 -> isz (sys_dir i) = false.
Proof. by intros [-> | ->]. Qed.
Lemma sys_bat_nz i : i = 0 \/ i = 1 -> isz (sys_bat i) = false.
Proof. by intros [-> | ->]. Qed.
Lemma stale_01 a b c : stale a b c = 0 \/ stale a b c = 1.
Proof. unfold stale. destruct a, b, c; cbn; lia. Qed.

(** The whole check at mount. *)
Lemma card_verify_ok chn s : c_curr_dir (g_map s chn) = 0 -> c_curr_fat (g_map s chn) = 0 ->
  let c := g_map s chn in
  let d i := c_dirs c (sys_dir i) in let gd i := dat_sums_ok (d i) in
  let b i := c_bats c (sys_bat i) in let gb i := good_fat (c_blocks c) (b i) in
  wp (card_verify chn) (fun r s' =>
    r = (if nbad (gd 0) (gd 1) + nbad (gb 0) (gb 1) <=? 2 then CARD_ERROR_READY else CARD_ERROR_BROKEN) /\
    dir_of (g_map s' chn) = d (1 - stale (gd 0) (gd 1) (older (dat_updated (d 0)) (dat_updated (d 1)))) /\
    fat_of (g_map s' chn) = b (1 - stale (gb 0) (gb 1) (older (bat_updated (b 0)) (bat_updated (b 1))))) s.
Proof.
  intros H0 H1 c d gd b gb. unfold card_verify. apply wp_bind. eapply wp_mono; [by apply checkdir_mount|].
  intros r1 s1 (E1 & E2 & E3 & E4 & E5 & E6). apply wp_bind. eapply wp_mono; [apply checkfat_mount; by rewrite E4|].
  intros r2 s2. rewrite E5, E6, E2. intros (F1 & F2 & F3 & F4 & F5). apply wp_bind, wp_card_rd, wp_bind, wp_card_rd, wp_ret.
  fold c in E1, E2, E3, F1, F2, F3, F4 |- *. fold (b 0) (b 1) in F1, F2, F3. fold (gb 0) (gb 1) in F1, F2, F3.
  fold (d 0) (d 1) in E1, E2, E3, F4. fold (gd 0) (gd 1) in E1, E2, E3, F4.
  rewrite E1, F1, F2, F4, sys_dir_nz, sys_bat_nz, !andb_true_r by apply stale_01.
  split; [done|]. split; [|exact F3]. transitivity (dir_of (g_map s1 chn)); [unfold dir_of; by rewrite F4, F5, E2|exact E3].
Qed.


(** ** A card for the examples *)

(** A slot with the given system blocks, 64 blocks of 8192 bytes. *)
Definition demo_card (curr_dir curr_fat : Z) (d0 d1 : card_dat) (b0 b1 : card_bat) : card_block :=
  mk_card (replicate 9 0) 0 0 0 0 0 1 CARD_ERROR_READY 4 4 7 0 0x2000 64 4 0 0 0 curr_dir curr_fat
    (format_header (replicate 12 0) 0 0 0 0 4 0)
    (fun o => if o =? CARD_SYSDIR then d0 else d1) (fun o => if o =? CARD_SYSBAT then b0 else b1) 0x80400000 0
    CbNull CbNull CbNull CbNull CbNull CbNull CbNull.
Definition demo_state (c : card_block) (exi : nat -> Z) : cst :=
  mk_cst (fun _ => c) (fun _ => mk_file 0 0 0 0 0) [0x47; 0x41; 0x4d; 0x45] [0x30; 0x31] 1 0 (fun _ => replicate 12 0)
    (fun _ => 0) exi 0 [].

Definition demo_new : card_bat := set_bat_lastalloc 9 (format_bat 64 1).



(** ** Where the checks are too weak *)

(** [__card_verify] accepts up to two bad copies in all, so a card whose two
    tables are both bad is mounted, with a bad table. *)
Theorem card_verify_accepts_broken chn s : c_curr_dir (g_map s chn) = 0 -> c_curr_fat (g_map s chn) = 0 ->
  let c := g_map s chn in
  (forall i, i = 0 \/ i = 1 -> dat_sums_ok (c_dirs c (sys_dir i)) = true /\ good_fat (c_blocks c) (c_bats c (sys_bat i)) = false) ->
  wp (card_verify chn) (fun r s' => r = CARD_ERROR_READY /\ good_fat (c_blocks c) (fat_of (g_map s' chn)) = false) s.
Proof.
  intros H0 H1 c Hg. destruct (Hg 0) as [A0 B0]; [by left|]. destruct (Hg 1) as [A1 B1]; [by right|].
  eapply wp_mono; [by apply card_verify_ok|]. intros r s' H. cbv beta zeta in H. fold c in H. rewrite A0, A1, B0, B1 in H.
  destruct H as (-> & _ & ->). split; [done|exact B0].
Qed.

(** The update number wraps around: after the number 0xffff the new copy looks
    older, and the mount goes back to the copy before it. *)
Theorem dir_update_wraps chn s d :
  let c := g_map s chn in
  c_curr_dir c = 0 -> dat_updated d = 0xffff -> c_dirs c (sys_dir 0) = seal_dat d ->
  dat_sums_ok (c_dirs c (sys_dir 1)) = true -> dat_updated (c_dirs c (sys_dir 1)) = 0xffff ->
  wp (card_checkdir chn) (fun _ s' => dir_of (g_map s' chn) = c_dirs c (sys_dir 1)) s.
Proof.
  intros c H0 Hu E0 G1 U1. eapply wp_mono; [by apply checkdir_mount|]. intros r s' (_ & _ & -> & _). fold c.
  rewrite E0, seal_dat_sums, G1. unfold stale, older. cbn [andb].
  change (dat_updated (seal_dat d)) with (u16 (dat_updated d + 1)). by rewrite Hu, U1.
Qed.

(** Formatting fills the directory with 0xff and never sets its number, so this
    happens with the first change after a format: the file created by it is gone
    after the next mount. *)
Theorem format_first_update_lost chn s d :
  let c := g_map s chn in
  c_curr_dir c = 0 -> dat_updated d = dat_updated format_dir ->
  c_dirs c (sys_dir 0) = seal_dat d -> c_dirs c (sys_dir 1) = format_dir ->
  wp (card_checkdir chn) (fun _ s' => dir_of (g_map s' chn) = format_dir) s.
Proof.
  intros c H0 Hu E0 E1. eapply wp_mono.
  - apply (dir_update_wraps chn s d H0); [by rewrite Hu|done|fold c; rewrite E1; by vm_compute|fold c; by rewrite E1].
  - intros r s' ->. exact E1.
Qed.
