(* ===== verification/CardApi.v ===== *)
(** * Memory cards: files and directory

    Seeking in a file, the control block as a lock, and the uniqueness of the
    names in the directory. *)

From stdpp Require Import base gmap list fin_maps.
From Stdlib Require Import ZArith Lia.
From S2P Require Import Prelude CardState Card CardFat CardProofs CardRecover.

Open Scope Z_scope.

(** ** The control block *)

Definition is_busy (c : card_block) : Prop := c_result c = CARD_ERROR_BUSY.

Lemma getcntrlblock_ok chn s : bad_slot chn = false -> c_attached (g_map s chn) <> 0 -> ~ is_busy (g_map s chn) ->
  card_getcntrlblock chn s =
    Ok (CARD_ERROR_READY, with_block chn (set_c_api_cb CbNull (set_c_result CARD_ERROR_BUSY (g_map s chn)))
          (with_block chn (set_c_result CARD_ERROR_BUSY (g_map s chn)) s)).
Proof.
  intros Hs Ha Hb. unfold card_getcntrlblock. rewrite Hs. unfold bind, rd, gets, upd, modify, ret.
  rewrite isz_false by done. rewrite (proj2 (Z.eqb_neq _ _) Hb). fold (with_block chn (set_c_result CARD_ERROR_BUSY (g_map s chn)) s).
  rewrite map_with. done.
Qed.

Lemma putcntrlblock_ok chn r s : c_attached (g_map s chn) <> 0 ->
  card_putcntrlblock chn r s = Ok (r, with_block chn (set_c_result r (g_map s chn)) s).
Proof. intros Ha. unfold card_putcntrlblock, bind, rd, gets, when. rewrite isz_false by done. done. Qed.

Lemma wp_get_cntrl chn Q s : bad_slot chn = false -> c_attached (g_map s chn) <> 0 -> ~ is_busy (g_map s chn) ->
  Q CARD_ERROR_READY (with_block chn (set_c_api_cb CbNull (set_c_result CARD_ERROR_BUSY (g_map s chn)))
          (with_block chn (set_c_result CARD_ERROR_BUSY (g_map s chn)) s)) ->
  wp (card_getcntrlblock chn) Q s.
Proof. intros. unfold wp. by rewrite getcntrlblock_ok. Qed.

(** A slot that is taken answers [CARD_ERROR_BUSY] and changes nothing. *)
Lemma getcntrlblock_busy chn s : bad_slot chn = false -> c_attached (g_map s chn) <> 0 -> is_busy (g_map s chn) ->
  card_getcntrlblock chn s = Ok (CARD_ERROR_BUSY, s).
Proof.
  intros Hs Ha Hb. unfold card_getcntrlblock. rewrite Hs. unfold bind, rd, gets, ret. rewrite isz_false by done.
  by rewrite Hb.
Qed.

(** ** Seeking *)

Section Seek.
Context (blocks size : Z) (fat chain : list Z).
Context (Hsize : 0 < size) (Hfits : card_fits blocks fat) (Harea : Forall (in_area blocks) chain) (Hlink : linked fat chain).
Context (Hmax : Z.of_nat (length chain) * size < 2 ^ 31).

Lemma chain_next k b c : chain !! k = Some b -> chain !! S k = Some c -> fat_get fat b = Some c.
Proof.
  clear Hmax. revert k. induction chain as [|a r IH]; intros [|k] H1 H2; try done.
  - injection H1 as ->. destruct Hlink as [H _]. destruct r as [|d r]; [done|]. by injection H2 as ->.
  - inversion Harea; subst. destruct Hlink as [_ H]. by apply (IH ltac:(done) H k).
Qed.

(** The walk from the block of [o] to the block of [target]. *)
Lemma seek_loop_ok n : forall fuel k j o b,
  (j - k = n)%nat -> (k <= j < length chain)%nat -> (n < fuel)%nat -> chain !! k = Some b ->
  Z.of_nat k * size <= o < (Z.of_nat k + 1) * size ->
  exists o' b', seek_loop fuel fat blocks size (Z.of_nat j * size) o b = Ok (CARD_ERROR_READY, (o', b')) /\ chain !! j = Some b'.
Proof.
  induction n as [|n IH]; intros [|fuel] k j o b Hn Hk Hf Hb Ho; try lia.
  - assert (k = j) by lia; subst k. exists o, b. cbn [seek_loop].
    rewrite wrap_small by nia. destruct (Z.ltb_spec o (Z.of_nat j * size)); [lia|]. by rewrite andb_false_r.
  - cbn [seek_loop]. assert (Hba : in_area blocks b) by (by eapply Forall_lookup in Harea).
    rewrite wrap_small by nia. destruct (Z.ltb_spec o (Z.of_nat j * size)) as [_|]; [|nia].
    destruct (Z.ltb_spec b blocks) as [_|]; [|unfold in_area in Hba; lia]. cbn [andb].
    destruct (lookup_lt_is_Some_2 chain (S k) ltac:(lia)) as [c Hc]. rewrite (chain_next k b c) by done.
    assert (Hca : in_area blocks c) by (by eapply Forall_lookup in Harea).
    destruct (area_u16 blocks c fat Hfits Hca) as [_ ->].
    rewrite (wrap_small 32) by nia. rewrite swrap_small by nia. apply (IH fuel (S k) j); [lia|lia|lia|done|nia].
Qed.
End Seek.

Lemma ldiff_pow2 x p : 0 <= p -> Z.ldiff x (2 ^ p - 1) = x / 2 ^ p * 2 ^ p.
Proof.
  intros Hp. replace (2 ^ p - 1) with (Z.ones p) by (rewrite Z.ones_equiv; lia).
  rewrite Z.ldiff_ones_r by done. by rewrite Z.shiftl_mul_pow2, Z.shiftr_div_pow2 by done.
Qed.

(** The entry of a file and its chain. *)
Record file_on_card (c : card_block) (filenum : Z) (e : card_direntry) (chain : list Z) (files : list (list Z)) (p : Z) : Prop := {
  fc_num : 0 <= filenum < CARD_MAXFILES;
  fc_entry : dat_entries (dir_of c) !! Z.to_nat filenum = Some e;
  fc_used : exists g r, de_gamecode e = g :: r /\ g <> 0xff;
  fc_holds : holds c files;
  fc_chain : chain ∈ files;
  fc_first : chain !! 0%nat = Some (de_block e);
  fc_length : de_length e = Z.of_nat (length chain);
  fc_size : c_sector_size c = 2 ^ p /\ 0 <= p < 20;
  fc_max : Z.of_nat (length chain) * 2 ^ p < 2 ^ 31
}.

Lemma wp_rd_file {A} p (f : card_file -> A) Q s : Q (f (g_files s p)) s -> wp (rd_file p f) Q s.
Proof. done. Qed.
Definition with_file (p : Z) (f : card_file) (s : cst) : cst := set_g_files (fupd (g_files s) p f) s.
Lemma wp_upd_file p u Q s : Q tt (with_file p (u (g_files s p)) s) -> wp (upd_file p u) Q s.
Proof. done. Qed.
Lemma file_with p f s : g_files (with_file p f s) p = f.
Proof. cbn. apply fupd_eq. Qed.

Lemma wp_at_index {A} (l : list A) i x Q s : 0 <= i -> l !! Z.to_nat i = Some x -> Q x s -> wp (at_index l i) Q s.
Proof. intros Hi Hx HQ. unfold at_index. destruct (Z.ltb_spec i 0); [lia|]. by rewrite Hx. Qed.

Lemma wp_cur_dir chn Q s : c_curr_dir (g_map s chn) <> 0 -> Q (dir_of (g_map s chn)) s -> wp (cur_dir chn) Q s.
Proof.
  intros H HQ. unfold cur_dir. apply wp_bind, wp_card_rd, wp_bind. unfold deref. rewrite (proj2 (Z.eqb_neq _ _) H). exact HQ.
Qed.

Lemma wp_used e g r Q s : de_gamecode e = g :: r -> Q (negb (g =? 0xff)) s -> wp (used_entry e) Q s.
Proof. intros He HQ. unfold used_entry, byte_at, at_index. rewrite He. exact HQ. Qed.

(** The last part of [__card_seek]: from a position in the file to another one
    behind it. *)
Lemma seek_target p (chain : list Z) offset k :
  0 <= p < 20 -> Z.of_nat (length chain) * 2 ^ p < 2 ^ 31 ->
  0 <= offset < Z.of_nat (length chain) * 2 ^ p -> Z.of_nat k * 2 ^ p <= offset ->
  Z.ldiff (u32 offset) (u32 (2 ^ p - 1)) = Z.of_nat (Z.to_nat (offset / 2 ^ p)) * 2 ^ p /\
  (k <= Z.to_nat (offset / 2 ^ p) < length chain)%nat /\
  (Z.to_nat (offset / 2 ^ p) - k < S (S (Z.to_nat (Z.ldiff (u32 offset) (u32 (2 ^ p - 1)) / 2 ^ p))))%nat.
Proof.
  intros Hp Hm Ho Hk. assert (H2 : 0 < 2 ^ p < 2 ^ 20) by (split; [lia|apply Z.pow_lt_mono_r; lia]).
  rewrite !wrap_small by lia. rewrite ldiff_pow2 by lia. assert (Hq : 0 <= offset / 2 ^ p) by (apply Z.div_pos; lia).
  rewrite Z2Nat.id by done. rewrite Z.div_mul by lia. split; [done|].
  assert (offset / 2 ^ p < Z.of_nat (length chain)) by (apply Z.div_lt_upper_bound; nia).
  assert (Z.of_nat k <= offset / 2 ^ p) by (apply Z.div_le_lower_bound; nia). lia.
Qed.

(** Seeking: for a position inside of a file, [__card_seek] takes the card
    and leaves the number of the block that holds the position, whether it has to
    walk on from the last position or to start again. *)
Theorem card_seek_ok file len offset s e chain files p k b :
  let f := g_files s file in let chn := f_chn f in let c := g_map s chn in
  mounted chn s -> ~ is_busy c -> file_on_card c (f_filenum f) e chain files p ->
  0 <= f_offset f -> Z.of_nat k = f_offset f / 2 ^ p -> chain !! k = Some b -> f_iblock f = b ->
  0 <= len -> 0 <= offset < Z.of_nat (length chain) * 2 ^ p -> offset + len <= Z.of_nat (length chain) * 2 ^ p ->
  wp (card_seek file len offset) (fun r s' =>
    r = (CARD_ERROR_READY, true) /\ is_busy (g_map s' chn) /\ c_curr_file (g_map s' chn) = file /\
    f_offset (g_files s' file) = offset /\ f_len (g_files s' file) = len /\
    chain !! Z.to_nat (offset / 2 ^ p) = Some (f_iblock (g_files s' file))) s.
Proof.
  intros f chn c Hm Hb [N1 N2 (g & r & N3 & N3') [Hi Hfree] N5 N6 N7 [N8 Hp] N9] Ho Hk Hkb Hf Hl Hoff Hlim.
  pose proof Hm as [Hs Ha Hd Hft Hc]. destruct (chain_short _ _ _ _ Hi N5) as (Hnd & Har & Hln).
  pose proof (fi_fits _ _ _ Hi) as Hfits.
  assert (Hba : in_area (c_blocks c) b) by (by eapply Forall_lookup in Har).
  assert (Hbb : bad_block (c_blocks c) b = false) by (by eapply area_u16).
  assert (H2 : 0 < 2 ^ p < 2 ^ 20) by (split; [lia|apply Z.pow_lt_mono_r; lia]).
  unfold card_seek. apply wp_bind, wp_rd_file. fold f. destruct (Z.ltb_spec (f_filenum f) 0); [lia|].
  destruct (Z.leb_spec CARD_MAXFILES (f_filenum f)); [lia|]. cbn [orb].
  apply wp_bind, wp_rd_file. fold f chn. apply wp_bind, wp_get_cntrl; [done|done|done|].
  cbn [Z.ltb CARD_ERROR_READY Z.compare]. apply wp_bind, wp_rd_file, wp_bind, wp_card_rd. rewrite map_with. fold c.
  unfold with_block at 1 2. cbn [g_files set_g_map c_blocks set_c_api_cb set_c_result]. fold f. rewrite Hf, Hbb.
  apply wp_bind. unfold cur_entry. apply wp_bind, wp_cur_dir; [by rewrite map_with|]. rewrite map_with.
  change (dir_of (set_c_api_cb _ _)) with (dir_of c). eapply wp_at_index; [lia|exact N2|].
  apply wp_bind. eapply wp_used; [exact N3|]. rewrite (proj2 (Z.eqb_neq _ _) N3'). cbn [negb].
  apply wp_bind, wp_card_rd. rewrite map_with. change (c_sector_size (set_c_api_cb _ _)) with (c_sector_size c). rewrite N8, N7.
  rewrite (wrap_small 32) by nia. rewrite (swrap_small 32) by nia. rewrite (swrap_small 32) by nia.
  destruct (Z.leb_spec (Z.of_nat (length chain) * 2 ^ p) offset); [lia|].
  destruct (Z.ltb_spec (Z.of_nat (length chain) * 2 ^ p) (offset + len)); [lia|]. cbn [orb].
  apply wp_bind, wp_upd, wp_bind, wp_upd_file. rewrite map_with. apply wp_bind, wp_rd_file. rewrite file_with.
  change (f_offset (set_f_len len _)) with (f_offset f).
  set (c1 := set_c_curr_file file _). set (s1 := with_file file _ _).
  assert (Hc1 : g_map s1 chn = c1) by apply map_with. assert (Hf1 : g_files s1 file = set_f_len len f) by apply file_with.
  apply wp_bind. eapply (wp_mono _ (fun _ s2 => g_map s2 chn = c1 /\
    f_len (g_files s2 file) = len /\ exists k' b', chain !! k' = Some b' /\ f_iblock (g_files s2 file) = b' /\
    f_offset (g_files s2 file) <= offset /\ Z.of_nat k' * 2 ^ p <= f_offset (g_files s2 file) < (Z.of_nat k' + 1) * 2 ^ p)).
  { apply wp_when; intros Hlt.
    - apply wp_bind, wp_upd_file, wp_upd_file. rewrite !file_with, Hf1. split; [done|]. split; [done|].
      exists 0%nat, (de_block e). cbn. repeat split; [done|lia|lia|lia].
    - split; [done|]. rewrite Hf1. split; [done|]. exists k, b. apply Z.ltb_ge in Hlt.
      pose proof (Z.mul_div_le (f_offset f) (2 ^ p) ltac:(lia)). pose proof (Z.mul_succ_div_gt (f_offset f) (2 ^ p) ltac:(lia)).
      cbn. repeat split; [done|done|lia|nia|nia]. }
  intros _ s2 (Hc2 & Hl2 & k' & b' & Hk' & Hb' & Ho1 & Ho2). apply wp_bind, wp_rd_file. rewrite Hb'.
  assert (Hbb' : bad_block (c_blocks c) b' = false) by (eapply area_u16; [done|by eapply Forall_lookup in Har]).
  rewrite Hbb', andb_false_r. apply wp_bind, wp_cur_fat; [by rewrite Hc2|]. rewrite Hc2. apply wp_bind, wp_rd_file.
  change (fat_of c1) with (fat_of c).
  destruct (seek_target p chain offset k') as (-> & Hj & Hfu); [done|done|done|lia|].
  destruct (seek_loop_ok (c_blocks c) (2 ^ p) (bat_fat (fat_of c)) chain ltac:(lia) Hfits Har Hln N9
    (Z.to_nat (offset / 2 ^ p) - k') (S (S (Z.to_nat (Z.of_nat (Z.to_nat (offset / 2 ^ p)) * 2 ^ p / 2 ^ p)))) k'
    (Z.to_nat (offset / 2 ^ p)) (f_offset (g_files s2 file)) b') as (o' & b2 & -> & Hb2);
    [done|done| |done|lia|].
  { rewrite Z.div_mul by lia. lia. }
  apply wp_bind, wp_upd_file, wp_bind, wp_upd_file. cbn [Z.ltb CARD_ERROR_READY Z.compare].
  apply wp_bind, wp_upd_file. rewrite !file_with. apply wp_ret. rewrite file_with.
  change (g_map (with_file _ _ _) chn) with (g_map s2 chn). rewrite Hc2. cbn. repeat split; done.
Qed.

(** ** Examples: a card with a file of three blocks *)

Lemma empty_inv blocks : CARD_SYSAREA < blocks <= 0x1000 -> fat_inv blocks (replicate (Z.to_nat 0xffb) 0) [].
Proof.
  intros Hb. constructor; try (by constructor). intros b Hin. cbn [concat]. split; [intros _; apply not_elem_of_nil|].
  intros _. apply bool_decide_eq_true. unfold fat_get, in_area, CARD_SYSAREA in *. destruct (Z.ltb_spec b 5); [lia|].
  apply lookup_replicate_2. lia.
Qed.

Definition demo_chain : list Z := [5; 6; 7].
Definition demo_fat : list Z := link (replicate (Z.to_nat 0xffb) 0) None demo_chain.
Definition demo_bat : card_bat := mk_bat 0 0 2 56 7 demo_fat.
Definition demo_entry : card_direntry :=
  mk_entry [0x47; 0x41; 0x4d; 0x45] [0x30; 0x31] 0xff 0 (0x41 :: replicate 31 0) 0 0xffffffff 0 1 4 0 5 3 0xffff 0.
Definition demo_dir : card_dat := set_dat_entries (<[0%nat := demo_entry]> (dat_entries format_dir)) format_dir.
Definition demo_mounted : card_block := demo_card CARD_SYSDIR CARD_SYSBAT demo_dir demo_dir demo_bat demo_bat.

Lemma demo_holds : holds demo_mounted [demo_chain].
Proof.
  split; [|vm_compute; reflexivity]. change (fat_inv 64 demo_fat [demo_chain]).
  assert (E : alloc_choice 64 (replicate (Z.to_nat 0xffb) 0) 4 3 = demo_chain) by (vm_compute; reflexivity).
  unfold demo_fat. rewrite <- E. apply alloc_inv; [apply empty_inv; unfold CARD_SYSAREA; lia|by rewrite E].
Qed.

Lemma demo_holds_at exi : holds (g_map (demo_state demo_mounted exi) 0) [demo_chain].
Proof. cbn [g_map demo_state]. exact demo_holds. Qed.

Lemma demo_is_mounted exi : mounted 0 (demo_state demo_mounted exi).
Proof. constructor; [reflexivity|discriminate|discriminate|discriminate|split; [reflexivity|by split] ]. Qed.

Lemma card_allocblock_ok_witness :
  wp (card_allocblock 0 2 CbNull) (fun _ s' => holds (g_map s' 0) [[8; 9]; demo_chain]) (demo_state demo_mounted (fun _ => 1)).
Proof.
  pose proof (card_allocblock_ok 0 2 CbNull (demo_state demo_mounted (fun _ => 1)) [demo_chain] (demo_is_mounted _)
    (demo_holds_at _) ltac:(lia)) as H. cbv beta zeta in H. refine (wp_mono _ _ _ _ H _). clear H. intros r s'.
  change (g_map (demo_state demo_mounted (fun _ => 1)) 0) with demo_mounted.
  assert (E0 : (bat_freeblocks (fat_of demo_mounted) <? 2) = false) by (vm_compute; reflexivity). rewrite E0.
  intros (_ & (H & _) & _).
  assert (E : alloc_choice (c_blocks demo_mounted) (bat_fat (fat_of demo_mounted)) (bat_lastalloc (fat_of demo_mounted)) (Z.to_nat 2)
              = [8; 9]) by (vm_compute; reflexivity).
  rewrite E in H. exact H.
Defined.

Lemma card_freeblock_ok_witness :
  wp (card_freeblock 0 5 CbNull) (fun _ s' => holds (g_map s' 0) []) (demo_state demo_mounted (fun _ => 1)).
Proof.
  pose proof (card_freeblock_ok 0 CbNull (demo_state demo_mounted (fun _ => 1)) [] 5 [6; 7] [] (demo_is_mounted _)
    (demo_holds_at _)) as H. refine (wp_mono _ _ _ _ H _). clear H. intros r s' [H _]. exact H.
Defined.

Lemma fat_alloc_free_roundtrip_witness :
  let zero := replicate (Z.to_nat 0xffb) 0 in
  fat_get (clear_chain (link zero None (alloc_choice 64 zero 62 3)) (alloc_choice 64 zero 62 3)) 63 = Some 0.
Proof.
  intros zero. rewrite (fat_alloc_free_roundtrip 64 zero [] 62 3); [vm_compute; reflexivity| | |].
  - apply empty_inv. unfold CARD_SYSAREA. lia.
  - split; [lia|]. vm_compute. discriminate.
  - unfold in_area, CARD_SYSAREA. lia.
Defined.

Definition demo_open (exi : nat -> Z) : cst :=
  set_g_files (fun _ => mk_file 0 0 0 0 5) (demo_state demo_mounted exi).

Lemma demo_open_mounted : mounted 0 (demo_open (fun _ => 1)).
Proof. constructor; [reflexivity|discriminate|discriminate|discriminate|split; [reflexivity|by split] ]. Qed.

Lemma demo_open_file : file_on_card demo_mounted 0 demo_entry demo_chain [demo_chain] 13.
Proof.
  constructor; [vm_compute; by split|vm_compute; reflexivity|eexists _, _; split; [reflexivity|lia]|exact demo_holds|left
               |reflexivity|reflexivity|split; [reflexivity|lia]|reflexivity].
Qed.

Lemma card_seek_ok_witness :
  wp (card_seek 100 512 0x4200) (fun r s' => r = (CARD_ERROR_READY, true) /\ f_iblock (g_files s' 100) = 7) (demo_open (fun _ => 1)).
Proof.
  assert (Hb : ~ is_busy demo_mounted) by (vm_compute; discriminate).
  assert (Ho : 0 <= 0x4200 < Z.of_nat (length demo_chain) * 2 ^ 13) by (vm_compute; split; [discriminate|reflexivity]).
  assert (Hl : 0x4200 + 512 <= Z.of_nat (length demo_chain) * 2 ^ 13) by (vm_compute; discriminate).
  pose proof (card_seek_ok 100 512 0x4200 (demo_open (fun _ => 1)) demo_entry demo_chain [demo_chain] 13 0 5
    demo_open_mounted Hb demo_open_file ltac:(by vm_compute) eq_refl eq_refl eq_refl ltac:(lia) Ho Hl) as H.
  cbv beta zeta in H. refine (wp_mono _ _ _ _ H _). clear H. intros r s' (-> & _ & _ & _ & _ & H). split; [reflexivity|].
  change (Some 7 = Some (f_iblock (g_files s' 100))) in H. injection H as H. symmetry. exact H.
Defined.

(** ** Names *)

Definition is_used (e : card_direntry) : bool := match de_gamecode e with g :: _ => negb (g =? 0xff) | [] => false end.
Definition has_codes (e : card_direntry) : Prop := de_gamecode e <> [].

(** No two used entries have the same name and codes. *)
Definition names_unique (l : list card_direntry) : Prop :=
  forall i j x y, l !! i = Some x -> l !! j = Some y -> i <> j -> is_used x = true -> is_used y = true -> same_file x y = false.

Lemma same_file_eq a b : same_file a b = true <->
  de_filename a = de_filename b /\ de_gamecode a = de_gamecode b /\ de_company a = de_company b.
Proof. unfold same_file, bytes_eqb. rewrite !andb_true_iff, !bool_decide_eq_true. tauto. Qed.

Lemma same_file_sym a b : same_file a b = same_file b a.
Proof. apply eq_true_iff_eq. rewrite !same_file_eq. intuition congruence. Qed.

Lemma used_entry_run e s : has_codes e -> used_entry e s = Ok (is_used e, s).
Proof. unfold has_codes, used_entry, byte_at, at_index, is_used. by destruct (de_gamecode e). Qed.

Lemma name_taken_run e fileno l : forall i s, Forall has_codes l ->
  exists t, name_taken e fileno l i s = Ok (t, s) /\
    (t = false -> forall k x, l !! k = Some x -> i + Z.of_nat k <> fileno -> is_used x = true -> same_file x e = false).
Proof.
  induction l as [|x r IH]; intros i s Hc; [by exists false|]. inversion Hc as [|? ? Hx Hr]; subst.
  cbn [name_taken]. unfold bind at 1. rewrite used_entry_run by done.
  destruct (negb (i =? fileno) && is_used x && same_file x e) eqn:E; [by exists true|].
  destruct (IH (i + 1) s Hr) as (t & -> & Ht). exists t. split; [done|]. intros -> [|k] y Hy Hk Hu.
  - injection Hy as <-. rewrite Hu, (proj2 (Z.eqb_neq _ _)) in E by lia. by destruct (same_file x e).
  - apply (Ht eq_refl k y); [done|lia|done].
Qed.

Lemma unique_insert l i e e' : names_unique l -> l !! i = Some e ->
  (same_file e' e = true /\ is_used e' = is_used e \/
   forall k x, l !! k = Some x -> k <> i -> is_used x = true -> same_file x e' = false) ->
  names_unique (<[i := e']> l).
Proof.
  intros Hu He Hcase.
  assert (Hnew : forall k x, l !! k = Some x -> k <> i -> is_used x = true -> is_used e' = true -> same_file x e' = false).
  { destruct Hcase as [[H1 H2]|H]; [|by intros; eapply H]. intros k x Hx Hk Hux Hue.
    specialize (Hu k i x e Hx He Hk Hux ltac:(congruence)). destruct (same_file x e') eqn:E; [|done].
    apply same_file_eq in E, H1. enough (same_file x e = true) by congruence. apply same_file_eq. intuition congruence. }
  intros a b x y Ha Hb Hab Hx Hy.
  apply list_lookup_insert_Some in Ha as [(-> & -> & _)|[Hia Ha]]; apply list_lookup_insert_Some in Hb as [(-> & -> & _)|[Hib Hb]].
  - done.
  - rewrite same_file_sym. by eapply (Hnew b y).
  - by eapply (Hnew a x).
  - by eapply (Hu a b).
Qed.

Definition set_dir (d : card_dat) (c : card_block) : card_block := set_c_dirs (fupd (c_dirs c) (c_curr_dir c) d) c.
Lemma dir_of_set d c : dir_of (set_dir d c) = d.
Proof. unfold dir_of. cbn. apply fupd_eq. Qed.
Lemma wp_put_dir chn d Q s :
  c_curr_dir (g_map s chn) <> 0 -> Q tt (with_block chn (set_dir d (g_map s chn)) s) -> wp (put_dir chn d) Q s.
Proof.
  intros H HQ. unfold put_dir. apply wp_bind, wp_card_rd, wp_bind. unfold deref. rewrite (proj2 (Z.eqb_neq _ _) H). exact HQ.
Qed.
Lemma wp_put_entry chn i e x Q s :
  c_curr_dir (g_map s chn) <> 0 -> 0 <= i -> dat_entries (dir_of (g_map s chn)) !! Z.to_nat i = Some x ->
  Q tt (with_block chn (set_dir (set_dat_entries (<[Z.to_nat i := e]> (dat_entries (dir_of (g_map s chn)))) (dir_of (g_map s chn)))
          (g_map s chn)) s) -> wp (put_entry chn i e) Q s.
Proof.
  intros Hd Hi Hx HQ. unfold put_entry. apply wp_bind, wp_cur_dir; [done|]. apply wp_bind.
  eapply wp_at_index; [done|exact Hx|]. by apply wp_put_dir.
Qed.

(** [__card_updatedir], as for the table. *)
Lemma card_updatedir_ok chn cb s : mounted chn s ->
  wp (card_updatedir chn cb) (fun _ s' => keeps chn (with_block chn (set_c_erase_cb cb (set_dir (seal_dat (dir_of (g_map s chn))) (g_map s chn))) s) s') s.
Proof.
  intros [Hs Ha Hd Hf Hc]. unfold card_updatedir. rewrite Hs. apply wp_bind, wp_card_rd. rewrite isz_false by done.
  apply wp_bind, wp_cur_dir; [done|]. apply wp_bind, wp_put_dir; [done|].
  apply wp_bind, wp_upd. rewrite map_with. apply wp_bind, wp_card_rd. apply wp_bind, wp_card_rd.
  set (c1 := set_c_erase_cb cb _). eapply wp_mono; [apply km_erase; rewrite map_with; exact Hc|].
  intros r s' Hk. exact (keeps_collapse _ _ _ _ _ Hk).
Qed.

(** The directory after an update of it. *)
Lemma keeps_dir chn cb d c s s' : c_curr_dir c <> 0 ->
  keeps chn (with_block chn (set_c_erase_cb cb (set_dir d c)) s) s' -> dir_of (g_map s' chn) = d /\ c_attached (g_map s' chn) = c_attached c.
Proof.
  intros Hd Hk. apply kp_view in Hk. rewrite map_with in Hk. unfold view in Hk.
  injection Hk as E1 E2 E3 E4 E5 E6 E7 E8 E9 E10 E11 E12 E13 E14 E15 E16 E17. split; [|exact E1].
  unfold dir_of. rewrite E10, E7. cbn. apply fupd_eq.
Qed.

Lemma put_result_dir chn r s : c_attached (g_map s chn) <> 0 ->
  wp (card_putcntrlblock chn r) (fun r' s' => r' = r /\ dir_of (g_map s' chn) = dir_of (g_map s chn)) s.
Proof. intros Ha. unfold wp. rewrite putcntrlblock_ok by done. by rewrite map_with. Qed.

(** The entry of the caller with its name cleared after its end. *)
Definition clean_name (e : card_direntry) : card_direntry := set_de_filename (clear_tail false (de_filename e)) e.

(** Names stay unique: [__card_setstatusexasync] gives an entry the name and
    the codes of the caller only if no other used entry has them. Otherwise it
    answers [CARD_ERROR_EXIST] and the directory does not change. *)
Theorem card_setstatusex_unique chn fileno entry cb s e :
  let dir s := dat_entries (dir_of (g_map s chn)) in
  mounted chn s -> ~ is_busy (g_map s chn) -> 0 <= fileno < CARD_MAXFILES ->
  dir s !! Z.to_nat fileno = Some e -> Forall has_codes (dir s) -> de_filename entry <> [] ->
  names_unique (dir s) ->
  wp (card_setstatusexasync chn fileno entry cb) (fun r s' =>
    names_unique (dir s') /\
    (forall k x, dir s !! k = Some x -> k <> Z.to_nat fileno -> is_used x = true -> same_file x (clean_name entry) = true ->
       same_file e (clean_name entry) = false -> hd 0xff (de_filename entry) <> 0xff -> hd 0 (de_filename entry) <> 0 ->
       r = CARD_ERROR_EXIST /\ dir s' = dir s)) s.
Proof.
  intros dir Hm Hb Hn He Hc Hf Hu. pose proof Hm as [Hs Ha Hd Hft Hck]. unfold card_setstatusexasync. rewrite Hs.
  destruct (Z.ltb_spec fileno 0); [lia|]. destruct (Z.leb_spec CARD_MAXFILES fileno); [lia|]. cbn [orb].
  assert (exists f0 fr, de_filename entry = f0 :: fr) as (f0 & fr & Ef) by (destruct (de_filename entry); [done|by eexists _, _]).
  apply wp_bind. unfold byte_at. eapply wp_at_index; [lia|rewrite Ef; reflexivity|].
  destruct ((f0 =? 255) || (f0 =? 0)) eqn:E0.
  { apply wp_ret. split; [exact Hu|]. rewrite Ef. cbn [hd]. intros k x _ _ _ _ _ H1 H2. apply orb_true_iff in E0 as [E0|E0]; lia. }
  apply wp_bind, wp_get_cntrl; [done|done|done|]. cbn [Z.ltb CARD_ERROR_READY Z.compare].
  set (c1 := set_c_api_cb CbNull _). set (s1 := with_block chn c1 _). assert (Hc1 : g_map s1 chn = c1) by apply map_with.
  assert (Hd1 : dir_of c1 = dir_of (g_map s chn)) by done.
  apply wp_bind, wp_card_rd. rewrite Hc1. rewrite isz_false by done.
  change (set_de_filename _ entry) with (clean_name entry). set (entry' := clean_name entry) in *. apply wp_bind, wp_cur_dir; [by rewrite Hc1|]. rewrite Hc1, Hd1. apply wp_bind.
  eapply wp_at_index; [lia|exact He|]. apply wp_bind.
  destruct (name_taken_run entry' fileno (dir s) 0 s1 Hc) as (t & Ht & Hfree).
  eapply (wp_mono _ (fun taken s2 => s2 = s1 /\ taken = (if same_file e entry' then false else t))).
  { destruct (same_file e entry') eqn:E; [by apply wp_ret|]. unfold wp. fold (dir s). by rewrite Ht. }
  intros taken s2 [-> ->]. destruct (if same_file e entry' then false else t) eqn:Et.
  - eapply wp_mono; [apply put_result_dir; by rewrite Hc1|]. intros r s' [-> E]. unfold dir. rewrite E, Hc1, Hd1. split; [exact Hu|]. by intros.
  - set (e1 := if same_file e entry' then e else _). apply wp_bind.
    eapply wp_put_entry; [by rewrite Hc1|lia|rewrite Hc1, Hd1; exact He|]. rewrite Hc1, Hd1.
    set (d2 := set_dat_entries _ (dir_of (g_map s chn))). set (s3 := with_block chn _ s1).
    assert (Hc3 : g_map s3 chn = set_dir d2 c1) by apply map_with.
    assert (Hnone : forall k x, dir s !! k = Some x -> k <> Z.to_nat fileno -> is_used x = true -> same_file x entry' = true ->
      same_file e entry' = false -> False).
    { intros k x Hx Hk Hux Hsx Hse. rewrite Hse in Et. subst t. specialize (Hfree eq_refl k x Hx ltac:(lia) Hux). congruence. }
    assert (Huniq : names_unique (dat_entries d2)).
    { apply (unique_insert _ _ e); [done|done|]. destruct (same_file e entry') eqn:E.
      - left. split; [|done]. by apply same_file_eq.
      - right. subst t. intros k x Hx Hk Hux. specialize (Hfree eq_refl k x Hx ltac:(lia) Hux).
        rewrite <- Hfree. done. }
    apply wp_bind. eapply wp_mono; [apply card_updatedir_ok; constructor; rewrite ?Hc3; done|].
    intros r s4 Hk. rewrite Hc3, dir_of_set in Hk. apply keeps_dir in Hk as [Hd4 Ha4]; [|done].
    destruct (0 <=? r).
    + apply wp_ret. unfold dir. rewrite Hd4. split; [exact Huniq|]. intros k x H1 H2 H3 H4 H5. by destruct (Hnone k x).
    + eapply wp_mono; [apply put_result_dir; rewrite Ha4; exact Ha|]. intros r' s' [_ E]. unfold dir. rewrite E, Hd4.
      split; [exact Huniq|]. intros k x H1 H2 H3 H4 H5. by destruct (Hnone k x).
Qed.
