(* ===== verification/CardDemo.v ===== *)
(** * Memory cards: runs of the whole driver

    Complete runs on a small card, from the call of the client through the
    interrupts to its callback, and the places where the driver does not do what
    its interface says. *)

From stdpp Require Import base gmap list fin_maps.
From Stdlib Require Import ZArith Lia.
From S2P Require Import Prelude Clock CardState Card CardFat CardProofs CardRecover CardApi.

Open Scope Z_scope.

(** ** Creating a file *)

Definition no_unlock : Z -> M cst (Z * list Z) := fun _ => ret (CARD_ERROR_FATAL_ERROR, []).
Definition run_cb : cardcallback -> Z -> Z -> M cst unit := call_cb GameCube no_unlock 8.
(** The interrupt of the card at the end of a command. *)
Definition irq (chn : Z) : M cst unit := card_exihandler run_cb chn;; ret tt.

Definition formatted : card_block :=
  demo_card CARD_SYSDIR CARD_SYSBAT format_dir format_dir (format_bat 64 1) (format_bat 64 1).
Definition name_A : list Z := 0x41 :: replicate 31 0.

(** What a client sees after [CARD_Create]: the result, the number of free blocks,
    the first blocks of the table, the entry of the file. *)
Definition summary (r : res (Z * cst)) : option (Z * Z * list Z * list (list Z * Z * Z) * (Z * Z)) :=
  match r with
  | Ok (v, s) =>
    let c := g_map s 0 in
    Some (v, bat_freeblocks (fat_of c), firstn 4 (bat_fat (fat_of c)),
          map (fun e => (firstn 1 (de_filename e), de_block e, de_length e)) (firstn 1 (dat_entries (dir_of c))),
          (c_curr_dir c, c_curr_fat c))
  | Fault _ => None
  end.

(** A complete run: [CARD_Create] for a file of three blocks on a card just
    formatted, with the 65 interrupts of the table (one erasure, 64 pages) and the
    65 of the directory. The thread is woken, the result is ready, the table holds
    the chain 5, 6, 7, the entry points to it, and both copies have changed
    places. *)
Theorem CARD_Create_run :
  summary (CARD_Create 0 name_A 0x6000 100 (replicate 130 (irq 0)) (demo_state formatted (fun _ => 1))) =
    Some (CARD_ERROR_READY, 56, [6; 7; 0xffff; 0], [([0x41], 5, 3)], (CARD_SYSDIR_BACK, CARD_SYSBAT_BACK)).
Proof. vm_compute. reflexivity. Qed.

(** With one interrupt less the thread never wakes. *)
Theorem CARD_Create_waits :
  CARD_Create 0 name_A 0x6000 100 (replicate 129 (irq 0)) (demo_state formatted (fun _ => 1)) = Fault Hang.
Proof. vm_compute. reflexivity. Qed.

(** ** Shortcomings *)

(** A size that is no multiple of the sector size is refused, but the card stays
    taken: every later operation on the slot is told that it is busy. *)
Theorem CARD_Create_keeps_card chn name size file cb s n :
  mounted chn s -> ~ is_busy (g_map s chn) -> (forall s, strlen name s = Ok (n, s)) -> n <= CARD_FILENAMELEN ->
  size mod c_sector_size (g_map s chn) <> 0 ->
  wp (CARD_CreateAsync chn name size file cb) (fun r s' => r = CARD_ERROR_FATAL_ERROR /\ is_busy (g_map s' chn)) s.
Proof.
  intros Hm Hb Hn Hle Hs. pose proof Hm as [Hsl Ha _ _ _]. unfold CARD_CreateAsync, create_common.
  apply wp_bind. unfold wp at 1. rewrite Hn. destruct (Z.ltb_spec CARD_FILENAMELEN n); [lia|].
  apply wp_bind, wp_get_cntrl; [done|done|done|]. cbn [Z.ltb CARD_ERROR_READY Z.compare].
  apply wp_bind, wp_card_rd. rewrite map_with. change (c_sector_size (set_c_api_cb _ _)) with (c_sector_size (g_map s chn)).
  rewrite (isz_false (size mod _)) by done. rewrite orb_true_r. apply wp_ret. split; [done|]. by rewrite map_with.
Qed.

Lemma keeps_api chn cb d c s s' : keeps chn (with_block chn (set_c_erase_cb cb (set_dir d c)) s) s' ->
  c_attached (g_map s' chn) = c_attached c /\ c_api_cb (g_map s' chn) = c_api_cb c.
Proof.
  intros Hk. apply kp_view in Hk. rewrite map_with in Hk. unfold view in Hk.
  by injection Hk as E1 E2 E3 E4 E5 E6 E7 E8 E9 E10 E11 E12 E13 E14 E15 E16 E17.
Qed.

(** [__write_callback] subtracts the wrong way round: after the first sector of a
    longer write the remaining length is negative, the directory is updated and
    the operation ends; the block of the file does not advance. *)
Theorem card_write_first_sector_only console call chn s e :
  let file := c_curr_file (g_map s chn) in let f := g_files s file in
  mounted chn s -> 0 <= f_filenum f -> dat_entries (dir_of (g_map s chn)) !! Z.to_nat (f_filenum f) = Some e ->
  0 < c_sector_size (g_map s chn) < f_len f -> f_len f < 2 ^ 31 ->
  wp (card_write_callback console call chn CARD_ERROR_READY) (fun _ s' =>
    f_iblock (g_files s' file) = f_iblock f /\ f_len (g_files s' file) = c_sector_size (g_map s chn) - f_len f) s.
Proof.
  intros file f Hm Hn He Hs Hl. pose proof Hm as [Hsl Ha Hd Hft Hck]. unfold card_write_callback.
  cbn [Z.ltb CARD_ERROR_READY Z.compare]. apply wp_bind, wp_card_rd. fold file. apply wp_bind, wp_rd_file. fold f.
  destruct (Z.ltb_spec (f_len f) 0); [lia|]. apply wp_bind, wp_card_rd, wp_bind, wp_upd_file. fold f.
  apply wp_bind, wp_rd_file. rewrite file_with. cbn [f_len set_f_len]. rewrite swrap_small by lia.
  destruct (Z.leb_spec (c_sector_size (g_map s chn) - f_len f) 0) as [_|]; [|lia].
  apply wp_bind, wp_rd_file. rewrite file_with. cbn [f_filenum set_f_len].
  set (s1 := with_file file _ s). 
  assert (Hf1 : g_files s1 file = set_f_len (c_sector_size (g_map s chn) - f_len f) f) by apply file_with.
  apply wp_bind. unfold cur_entry. apply wp_bind, wp_cur_dir; [done|]. eapply wp_at_index; [done|exact He|].
  apply wp_bind, wp_bind, wp_gets, wp_ret. apply wp_bind. eapply wp_put_entry; [done|done|exact He|].
  apply wp_bind, wp_card_rd, wp_bind, wp_upd. rewrite map_with. apply wp_bind.
  set (s2 := with_block chn _ (with_block chn _ s1)).
  assert (Hm2 : mounted chn s2) by (constructor; unfold s2; rewrite ?map_with; done).
  eapply wp_mono; [by apply card_updatedir_ok|]. intros r s3 Hk. pose proof (kp_files _ _ _ Hk) as Hf3.
  change (g_files s3 = g_files s1) in Hf3.
  assert (Hdone : f_iblock (g_files s3 file) = f_iblock f /\ f_len (g_files s3 file) = c_sector_size (g_map s chn) - f_len f)
    by (by rewrite Hf3, Hf1).
  destruct (0 <=? r); [by apply wp_ret|].
  destruct (keeps_api _ _ _ _ _ _ Hk) as [E1 E2]. unfold s2 in E1, E2. rewrite map_with in E1, E2.
  unfold finish_api. apply wp_bind, wp_card_rd. rewrite E2. apply wp_bind, wp_upd, wp_bind. unfold wp at 1.
  assert (Hatt : c_attached (set_c_api_cb CbNull (g_map s3 chn)) <> 0).
  { change (c_attached (g_map s3 chn) <> 0). rewrite E1. exact Ha. }
  rewrite putcntrlblock_ok by (rewrite map_with; exact Hatt). exact Hdone.
Qed.

(** The commands a run sent to the card. *)
Definition commands {A} (r : res (A * cst)) : list (list Z) :=
  match r with
  | Ok (_, s) => flat_map (fun e => match e with EXI_ImmEx _ l => [l] | _ => [] end) (g_log s)
  | Fault _ => []
  end.

(** A read at offset 512 asks for the segment at the start of the block, the same
    command as for offset 0. *)
Theorem CARD_Read_ignores_offset :
  commands (CARD_ReadAsync 100 0x80500000 512 512 CbNull (demo_open (fun _ => 1))) =
  commands (CARD_ReadAsync 100 0x80500000 512 0 CbNull (demo_open (fun _ => 1))) /\
  commands (CARD_ReadAsync 100 0x80500000 512 512 CbNull (demo_open (fun _ => 1))) = [0x52 :: page_address (5 * 0x2000)].
Proof. split; vm_compute; reflexivity. Qed.

(** [CARD_CreateEntryAsync] compares codes with those of the first entry of the
    directory: a file whose name exists only for another game is refused as soon
    as the first entry is unused. *)
Definition other_dir : card_dat :=
  set_dat_entries (<[1%nat := set_de_gamecode [0x4f; 0x54; 0x48; 0x52] demo_entry]> (dat_entries format_dir)) format_dir.
Theorem CARD_CreateEntry_wrong_codes :
  let s := demo_state (demo_card CARD_SYSDIR CARD_SYSBAT other_dir other_dir demo_bat demo_bat) (fun _ => 1) in
  match CARD_CreateEntryAsync 0 name_A 0x2000 100 CbNull s, CARD_CreateAsync 0 name_A 0x2000 100 CbNull s with
  | Ok (r1, _), Ok (r2, _) => (r1, r2)
  | _, _ => (1, 1)
  end = (CARD_ERROR_EXIST, CARD_ERROR_READY).
Proof. vm_compute. reflexivity. Qed.

(** ** Witness *)

Lemma unique_one e n : is_used e = true -> names_unique (e :: replicate n entry_ff).
Proof.
  intros He i j x y Hi Hj Hij Hx Hy. destruct i as [|i], j as [|j]; cbn in Hi, Hj; try done.
  - apply lookup_replicate in Hj as [-> _]. done.
  - apply lookup_replicate in Hi as [-> _]. done.
  - apply lookup_replicate in Hi as [-> _]. done.
Qed.

Lemma demo_entries : dat_entries (dir_of demo_mounted) = demo_entry :: replicate 126 entry_ff.
Proof. vm_compute. reflexivity. Qed.

Lemma card_setstatusex_unique_witness :
  wp (card_setstatusexasync 0 1 (set_de_permission 8 demo_entry) CbNull)
    (fun r s' => names_unique (dat_entries (dir_of (g_map s' 0))) /\ r = CARD_ERROR_EXIST) (demo_state demo_mounted (fun _ => 1)).
Proof.
  assert (Hc : Forall has_codes (dat_entries (dir_of demo_mounted))).
  { rewrite demo_entries. constructor; [discriminate|]. apply Forall_replicate. discriminate. }
  assert (Hu : names_unique (dat_entries (dir_of demo_mounted))) by (rewrite demo_entries; by apply unique_one).
  assert (He : dat_entries (dir_of demo_mounted) !! Z.to_nat 1 = Some entry_ff) by (rewrite demo_entries; reflexivity).
  assert (H0 : dat_entries (dir_of demo_mounted) !! 0%nat = Some demo_entry) by (rewrite demo_entries; reflexivity).
  assert (Hb : ~ is_busy demo_mounted) by (vm_compute; discriminate).
  assert (Hn : 0 <= 1 < CARD_MAXFILES) by (unfold CARD_MAXFILES; lia).
  pose proof (card_setstatusex_unique 0 1 (set_de_permission 8 demo_entry) CbNull (demo_state demo_mounted (fun _ => 1)) entry_ff
    (demo_is_mounted _) Hb Hn He Hc ltac:(discriminate) Hu) as H.
  cbv beta zeta in H. refine (wp_mono _ _ _ _ H _). clear H. intros r s' [H1 H2]. split; [exact H1|].
  refine (proj1 (H2 0%nat demo_entry H0 _ eq_refl _ _ _ _)); [discriminate| | |discriminate|discriminate]; vm_compute; reflexivity.
Defined.
