(* ===== verification/CardCipher.v ===== *)
(** * Memory cards: the cipher of the unlock sequence

    The bit reversal of the driver, written as shifts by changing amounts, is the
    reversal of the 32 bits. *)

From stdpp Require Import base list.
From Stdlib Require Import ZArith Lia.
From S2P Require Import Prelude CardState Card.

Open Scope Z_scope.

Lemma land_pow2_bit v c i : 0 <= c -> Z.testbit (Z.land v (Z.shiftl 1 c)) i = Z.testbit v c && (i =? c).
Proof.
  intros Hc. destruct (Z_lt_le_dec i 0) as [Hi|Hi].
  - rewrite Z.testbit_neg_r by done. destruct (Z.eqb_spec i c); [lia|]. by rewrite andb_false_r.
  - rewrite Z.land_spec, Z.shiftl_1_l, Z.pow2_bits_eqb, Z.eqb_sym by done. destruct (Z.eqb_spec i c) as [->|]; [done|].
    by rewrite !andb_false_r.
Qed.

Lemma up_bit v c n i : 0 <= c -> 0 <= n -> 0 <= i < 32 ->
  Z.testbit (u32 (Z.shiftl (Z.land v (Z.shiftl 1 c)) n)) i = Z.testbit v c && (i =? c + n).
Proof.
  intros Hc Hn Hi. unfold wrap. rewrite Z.mod_pow2_bits_low, Z.shiftl_spec, land_pow2_bit by lia. f_equal.
  destruct (Z.eqb_spec (i - n) c), (Z.eqb_spec i (c + n)); lia || done.
Qed.

Lemma down_bit v c n i : 0 <= c -> 0 <= i ->
  Z.testbit (Z.shiftr (Z.land v (Z.shiftl 1 c)) n) i = Z.testbit v c && (i =? c - n).
Proof.
  intros Hc Hi. rewrite Z.shiftr_spec, land_pow2_bit by lia. f_equal.
  destruct (Z.eqb_spec (i + n) c), (Z.eqb_spec i (c - n)); lia || done.
Qed.

Lemma top_bit v i : 0 <= v < 2 ^ 32 -> 0 <= i -> Z.testbit (Z.shiftr v 31) i = Z.testbit v 31 && (i =? 0).
Proof.
  intros Hv Hi. rewrite Z.shiftr_spec by done. destruct (Z.eqb_spec i 0) as [->|Hn]; [by rewrite andb_true_r|].
  rewrite andb_false_r. destruct (Z.eq_dec v 0) as [->|]; [apply Z.bits_0|].
  apply Z.bits_above_log2; [lia|]. apply Z.lt_le_trans with 32; [apply Z.log2_lt_pow2; lia|lia].
Qed.

(** The loop adds bit [31 - cnt] in the step for bit [cnt]. *)
Lemma bitrev_loop_bit v i : 0 <= v < 2 ^ 32 -> 0 <= i < 32 -> forall n cnt ret shift shift1,
  cnt + Z.of_nat n = 32 -> 0 <= cnt ->
  shift1 = (if cnt <=? 15 then cnt else 16) -> shift = (if cnt <=? 16 then 1 else 2 * cnt - 31) ->
  Z.testbit (bitrev_loop n v cnt ret shift shift1) i =
    Z.testbit ret i || (Z.testbit v (31 - i) && (cnt <=? 31 - i)).
Proof.
  intros Hv Hi. induction n as [|n IH]; intros cnt ret shift shift1 Hn Hc H1 H2.
  - cbn. destruct (Z.leb_spec cnt (31 - i)); [lia|]. by rewrite andb_false_r, orb_false_r.
  - cbn [bitrev_loop].
    assert (Hrest : forall r, Z.testbit r i = Z.testbit ret i || (Z.testbit v cnt && (i =? 31 - cnt)) ->
      Z.testbit r i || (Z.testbit v (31 - i) && (cnt + 1 <=? 31 - i)) =
      Z.testbit ret i || (Z.testbit v (31 - i) && (cnt <=? 31 - i))).
    { intros r ->. destruct (Z.eqb_spec i (31 - cnt)) as [->|Hne].
      - replace (31 - (31 - cnt)) with cnt by lia. destruct (Z.leb_spec (cnt + 1) cnt); [lia|].
        rewrite Z.leb_refl, !andb_true_r, andb_false_r, orb_false_r. done.
      - rewrite andb_false_r, orb_false_r. do 2 f_equal.
        destruct (Z.leb_spec (cnt + 1) (31 - i)), (Z.leb_spec cnt (31 - i)); lia || done. }
    subst shift shift1. destruct (Z.leb_spec cnt 15) as [L|L].
    + rewrite IH; [|lia|lia|destruct (Z.leb_spec (cnt + 1) 15); lia|].
      * apply Hrest. rewrite Z.lor_spec, up_bit by lia. do 3 f_equal. lia.
      * destruct (Z.leb_spec cnt 16), (Z.leb_spec (cnt + 1) 16); lia.
    + destruct (Z.eqb_spec cnt 31) as [->|N].
      * assert (n = 0%nat) by lia; subst n. cbn [bitrev_loop]. rewrite Z.lor_spec, top_bit by lia.
        replace (31 <=? 31 - i) with (i =? 0) by (destruct (Z.eqb_spec i 0), (Z.leb_spec 31 (31 - i)); lia || done).
        destruct (Z.eqb_spec i 0) as [->|]; [done|]. by rewrite !andb_false_r.
      * rewrite IH; [|lia|lia|destruct (Z.leb_spec (cnt + 1) 15); lia|].
        { apply Hrest. rewrite Z.lor_spec, down_bit by lia. do 3 f_equal. destruct (Z.leb_spec cnt 16); lia. }
        destruct (Z.leb_spec cnt 16), (Z.leb_spec (cnt + 1) 16); lia.
Qed.

(** [bitrev] reverses the bits of a word. *)
Theorem bitrev_ok v i : 0 <= v < 2 ^ 32 -> 0 <= i < 32 -> Z.testbit (bitrev v) i = Z.testbit v (31 - i).
Proof.
  intros Hv Hi. unfold bitrev. rewrite bitrev_loop_bit by (done || lia). rewrite Z.bits_0.
  destruct (Z.leb_spec 0 (31 - i)); [|lia]. by rewrite andb_true_r.
Qed.

Lemma bitrev_ok_witness : Z.testbit (bitrev 0x00000006) 30 = true.
Proof. rewrite (bitrev_ok 6 30) by lia. reflexivity. Defined.
