(* ===== verification/Conf.v ===== *)
(** * The system configuration ([libogc/conf.c], [gc/ogc/conf.h])

    The Wii keeps its settings in the file SYSCONF, an image with a table of
    entries: a byte with the type and the length of the name, the name, for
    arrays the length, and the value. A second file, setting.txt, is an
    encrypted text of lines [NAME=VALUE]. The library reads both once and
    answers from memory; changed values are written back on request. *)

From stdpp Require Import base list.
From Stdlib Require Import ZArith Lia Ascii String.
From S2P Require Import Prelude.

Open Scope Z_scope.

Definition CONF_FILE_SIZE : Z := 0x4000.
Definition CONF_TXT_FILE_SIZE : Z := 0x100.

Definition CONF_EBADFILE : Z := -0x6001.
Definition CONF_ENOENT : Z := -0x6002.
Definition CONF_ETOOBIG : Z := -0x6003.
Definition CONF_ENOTINIT : Z := -0x6004.
Definition CONF_ENOTIMPL : Z := -0x6005.
Definition CONF_EBADVALUE : Z := -0x6006.
Definition CONF_ERR_OK : Z := 0.

Definition CONF_BIGARRAY : Z := 1.
Definition CONF_SMALLARRAY : Z := 2.
Definition CONF_BYTE : Z := 3.
Definition CONF_SHORT : Z := 4.
Definition CONF_LONG : Z := 5.
Definition CONF_BOOL : Z := 7.

(** ** The state *)

(** The static variables; the last component records the calls of the file
    system. *)
Inductive ioscall :=
| IosOpen (txt : bool) (mode : Z)
| IosRead (fd len : Z)
| IosWrite (fd : Z) (bytes : list Z)
| IosClose (fd : Z).

Record conf := mk_conf {
  cf_inited : bool; cf_buffer : list Z; cf_txt : list Z; cf_dirty : bool; cf_calls : list ioscall }.

(** The file system: results by the calls so far. *)
Class IosFiles := {
  ios_open : list ioscall -> Z;
  ios_read : list ioscall -> Z * list Z;
  ios_write : list ioscall -> Z;
}.

Definition set_inited (x : bool) (s : conf) : conf := mk_conf x (cf_buffer s) (cf_txt s) (cf_dirty s) (cf_calls s).
Definition set_buffer (x : list Z) (s : conf) : conf := mk_conf (cf_inited s) x (cf_txt s) (cf_dirty s) (cf_calls s).
Definition set_txt (x : list Z) (s : conf) : conf := mk_conf (cf_inited s) (cf_buffer s) x (cf_dirty s) (cf_calls s).
Definition set_dirty (x : bool) (s : conf) : conf := mk_conf (cf_inited s) (cf_buffer s) (cf_txt s) x (cf_calls s).
Definition set_calls (x : list ioscall) (s : conf) : conf := mk_conf (cf_inited s) (cf_buffer s) (cf_txt s) (cf_dirty s) x.

(** The string constants. *)
Fixpoint bytes_of (s : string) : list Z :=
  match s with EmptyString => [] | String c s => Z.of_nat (nat_of_ascii c) :: bytes_of s end.

Definition conf_magic : list Z := bytes_of "SCv0".

Definition zlen {A} (l : list A) : Z := Z.of_nat (List.length l).

(** A byte of an array; there is none outside. *)
Definition at_index {A} (l : list A) (i : Z) : option A := if 0 <=? i then l !! Z.to_nat i else None.
(** [memcpy] over part of an array. *)
Definition put_at (l : list Z) (i : Z) (bytes : list Z) : list Z :=
  take (Z.to_nat i) l ++ bytes ++ list.drop (Z.to_nat i + List.length bytes) l.

Definition rd8 (i : Z) : M conf Z := getopt (fun s => at_index (cf_buffer s) i).
Definition rd16 (i : Z) : M conf Z := h <- rd8 i; l <- rd8 (i + 1); ret (256 * h + l).
Fixpoint rd_bytes (n : nat) (i : Z) : M conf (list Z) :=
  match n with O => ret [] | S k => b <- rd8 i; bs <- rd_bytes k (i + 1); ret (b :: bs) end.
Definition wr_bytes (i : Z) (bytes : list Z) : M conf unit :=
  fun s => if (0 <=? i) && (i + zlen bytes <=? zlen (cf_buffer s))
           then Ok (tt, set_buffer (put_at (cf_buffer s) i bytes) s) else Fault BadAccess.
Definition rd_txt (i : Z) : M conf Z := getopt (fun s => at_index (cf_txt s) i).

Definition bytes_eqb (a b : list Z) : bool := bool_decide (a = b).

(** ** Reading the files *)

(** The key stream of [__CONF_DecryptTextBuffer]. *)
Definition rotl1 (key : Z) : Z := Z.lor (u32 (Z.shiftl key 1)) (Z.shiftr key 31).
Fixpoint decrypt_loop (key : Z) (l : list Z) : list Z :=
  match l with [] => [] | b :: l => Z.lxor b (Z.land key 0xff) :: decrypt_loop (rotl1 key) l end.
Definition CONF_DecryptTextBuffer : M conf unit :=
  modify (fun s => set_txt (decrypt_loop 0x73B5DBFA (take 256 (cf_txt s)) ++ list.drop 256 (cf_txt s)) s).

Section Conf.
Context `{IosFiles}.

Definition io_open (txt : bool) (mode : Z) : M conf Z :=
  modify (fun s => set_calls (cf_calls s ++ [IosOpen txt mode]) s);; gets (fun s => ios_open (cf_calls s)).
(** [IOS_Read] fills the first bytes of the buffer. *)
Definition io_read (txt : bool) (fd len : Z) : M conf Z :=
  modify (fun s => set_calls (cf_calls s ++ [IosRead fd len]) s);;
  r <- gets (fun s => ios_read (cf_calls s));
  modify (fun s => let put l := put_at l 0 (take (Z.to_nat len) (snd r)) in
                   if txt then set_txt (put (cf_txt s)) s else set_buffer (put (cf_buffer s)) s);;
  ret (fst r).
Definition io_write (fd : Z) (bytes : list Z) : M conf Z :=
  modify (fun s => set_calls (cf_calls s ++ [IosWrite fd bytes]) s);; gets (fun s => ios_write (cf_calls s)).
Definition io_close (fd : Z) : M conf unit := modify (fun s => set_calls (cf_calls s ++ [IosClose fd]) s).

Definition CONF_Init : M conf Z :=
  i <- gets cf_inited;
  if i then ret 0 else
  fd <- io_open false 1;
  if fd <? 0 then ret fd else
  modify (set_buffer (repeat 0 (Z.to_nat CONF_FILE_SIZE)));;
  modify (set_txt (repeat 0 (Z.to_nat (CONF_TXT_FILE_SIZE + 1))));;
  r <- io_read false fd CONF_FILE_SIZE;
  io_close fd;;
  if negb (r =? CONF_FILE_SIZE) then ret CONF_EBADFILE else
  fd <- io_open true 1;
  if fd <? 0 then ret fd else
  r <- io_read true fd CONF_TXT_FILE_SIZE;
  io_close fd;;
  if negb (r =? CONF_TXT_FILE_SIZE) then ret CONF_EBADFILE else
  magic <- rd_bytes 4 0;
  if negb (bytes_eqb magic conf_magic) then ret CONF_EBADFILE else
  CONF_DecryptTextBuffer;;
  modify (set_inited true);;
  ret 0.

(** ** The table of entries *)

Fixpoint find_loop (count : nat) (offset : Z) (name : list Z) : M conf (option Z) :=
  match count with
  | O => ret None
  | S n =>
      off <- rd16 offset;
      b <- rd8 off;
      if zlen name =? Z.land b 0x0F + 1 then
        bs <- rd_bytes (List.length name) (off + 1);
        if bytes_eqb bs name then ret (Some off) else find_loop n (offset + 2) name
      else find_loop n (offset + 2) name
  end.
Definition CONF_Find (name : list Z) : M conf (option Z) :=
  count <- rd16 4; find_loop (Z.to_nat count) 6 name.

(** The length of the value of the entry at [entry]. *)
Definition entry_length (entry : Z) (name : list Z) : M conf Z :=
  b <- rd8 entry;
  let t := Z.shiftr b 5 in
  if t =? 1 then l <- rd16 (entry + zlen name + 1); ret (l + 1)
  else if t =? 2 then l <- rd8 (entry + zlen name + 1); ret (l + 1)
  else if t =? 3 then ret 1 else if t =? 4 then ret 2 else if t =? 5 then ret 4 else if t =? 7 then ret 1
  else ret CONF_ENOTIMPL.

(** The start of every function that looks a name up. *)
Definition with_entry {A} (name : list Z) (err : Z -> A) (k : Z -> M conf A) : M conf A :=
  i <- gets cf_inited;
  if negb i then ret (err CONF_ENOTINIT) else
  e <- CONF_Find name;
  match e with None => ret (err CONF_ENOENT) | Some entry => k entry end.

Definition CONF_GetLength (name : list Z) : M conf Z :=
  with_entry name id (fun entry => entry_length entry name).
Definition CONF_GetType (name : list Z) : M conf Z :=
  with_entry name id (fun entry => b <- rd8 entry; ret (Z.shiftr b 5)).

(** Where the value begins: behind the name and, for arrays, the length. *)
Definition value_skip (t : Z) : option Z :=
  if t =? CONF_BIGARRAY then Some 3 else if t =? CONF_SMALLARRAY then Some 2
  else if (t =? CONF_BYTE) || (t =? CONF_SHORT) || (t =? CONF_LONG) || (t =? CONF_BOOL) then Some 1 else None.

(** The value is the result and the bytes of [buffer], of which there are
    [length], after the call. *)
Definition CONF_Get (name buffer : list Z) (length : Z) : M conf (Z * list Z) :=
  with_entry name (fun e => (e, buffer)) (fun entry =>
    len <- CONF_GetLength name;
    if len <? 0 then ret (len, buffer) else
    if length <? len then ret (CONF_ETOOBIG, buffer) else
    b <- rd8 entry;
    match value_skip (Z.shiftr b 5) with
    | None => ret (CONF_ENOTIMPL, buffer)
    | Some k =>
        v <- rd_bytes (Z.to_nat len) (entry + zlen name + k);
        let buffer := if k =? 1 then put_at buffer 0 (repeat 0 (Z.to_nat length)) else buffer in
        ret (len, put_at buffer 0 v)
    end).

Definition CONF_Set (name bytes : list Z) (length : Z) : M conf Z :=
  with_entry name id (fun entry =>
    len <- CONF_GetLength name;
    if len <? 0 then ret len else
    if negb (len =? length) then ret CONF_EBADVALUE else
    b <- rd8 entry;
    match value_skip (Z.shiftr b 5) with
    | None => ret CONF_ENOTIMPL
    | Some k =>
        when (zlen bytes <? len) (fail BadAccess);;
        wr_bytes (entry + zlen name + k) (take (Z.to_nat len) bytes);;
        modify (set_dirty true);;
        ret len
    end).

Definition CONF_WriteBuffer : M conf Z :=
  i <- gets cf_inited;
  if negb i then ret CONF_ENOTINIT else
  d <- gets cf_dirty;
  if negb d then ret 0 else
  fd <- io_open false 2;
  if fd <? 0 then ret fd else
  b <- gets cf_buffer;
  r <- io_write fd b;
  io_close fd;;
  if negb (r =? CONF_FILE_SIZE) then ret CONF_EBADFILE else
  modify (set_dirty false);;
  ret 0.

Definition CONF_SaveChanges : M conf Z :=
  i <- gets cf_inited;
  if negb i then ret CONF_ENOTINIT else
  r <- CONF_WriteBuffer;
  if r <? 0 then ret r else ret CONF_ERR_OK.

(** ** The text *)

(** [strchr(line, c)] in the text. *)
Fixpoint strchr (fuel : nat) (i c : Z) : M conf (option Z) :=
  match fuel with
  | O => fail OutOfFuel
  | S n => b <- rd_txt i; if b =? c then ret (Some i) else if b =? 0 then ret None else strchr n (i + 1) c
  end.

Fixpoint txt_bytes (n : nat) (i : Z) : M conf (list Z) :=
  match n with O => ret [] | S k => b <- rd_txt i; bs <- txt_bytes k (i + 1); ret (b :: bs) end.

(** The loop that skips to the end of the line. *)
Fixpoint skip_line (fuel : nat) (i : Z) : M conf Z :=
  match fuel with
  | O => fail OutOfFuel
  | S n => if i <? CONF_TXT_FILE_SIZE then b <- rd_txt i; if b =? 10 then ret (i + 1) else skip_line n (i + 1) else ret i
  end.

Definition txt_fuel : nat := 300.

(** The value of the line at [line] if it is the line of [name]. *)
Definition line_value (line : Z) (name buf : list Z) (length : Z) : M conf (option (Z * list Z)) :=
  d <- strchr txt_fuel line 61;
  match d with
  | None => ret None
  | Some delim =>
      if negb (delim - line =? zlen name) then ret None else
      bs <- txt_bytes (List.length name) line;
      if negb (bytes_eqb name bs) then ret None else
      let delim := delim + 1 in
      e <- strchr txt_fuel line 13;
      e <- match e with None => strchr txt_fuel line 10 | Some e => ret (Some e) end;
      match e with
      | None => ret None
      | Some e =>
          let slen := e - delim in
          if length <=? slen then ret (Some (CONF_ETOOBIG, buf)) else
          if slen <? 0 then fail BadAccess else
          v <- txt_bytes (Z.to_nat slen) delim;
          ret (Some (slen, put_at buf 0 (v ++ [0])))
      end
  end.

Fixpoint gettxt_loop (fuel : nat) (line : Z) (name buf : list Z) (length : Z) : M conf (Z * list Z) :=
  match fuel with
  | O => fail OutOfFuel
  | S n =>
      if line <? CONF_TXT_FILE_SIZE then
        r <- line_value line name buf length;
        match r with
        | Some r => ret r
        | None => line <- skip_line txt_fuel line; gettxt_loop n line name buf length
        end
      else ret (CONF_ENOENT, buf)
  end.

Definition CONF_GetTxt (name buf : list Z) (length : Z) : M conf (Z * list Z) :=
  i <- gets cf_inited;
  if negb i then ret (CONF_ENOTINIT, buf) else gettxt_loop txt_fuel 0 name buf length.

(** ** The settings *)

(** Every getter reads the value into a local variable and expects an exact
    size; [f] makes the result. *)
Definition get_sized (name : string) (size : Z) (f : list Z -> Z) : M conf Z :=
  r <- CONF_Get (bytes_of name) (repeat 0 (Z.to_nat size)) size;
  if fst r <? 0 then ret (fst r) else
  if negb (fst r =? size) then ret CONF_EBADVALUE else ret (f (snd r)).
Definition byte_at (i : nat) (l : list Z) : Z := nth i l 0.
Definition be32 (l : list Z) : Z :=
  s32 (2 ^ 24 * byte_at 0 l + 2 ^ 16 * byte_at 1 l + 2 ^ 8 * byte_at 2 l + byte_at 3 l).

Definition CONF_GetShutdownMode : M conf Z := get_sized "IPL.IDL" 2 (byte_at 0).
Definition CONF_GetIdleLedMode : M conf Z := get_sized "IPL.IDL" 2 (byte_at 1).
Definition CONF_GetProgressiveScan : M conf Z := get_sized "IPL.PGS" 1 (byte_at 0).
Definition CONF_GetEuRGB60 : M conf Z := get_sized "IPL.E60" 1 (byte_at 0).
Definition CONF_GetIRSensitivity : M conf Z := get_sized "BT.SENS" 4 be32.
Definition CONF_GetSensorBarPosition : M conf Z := get_sized "BT.BAR" 1 (byte_at 0).
Definition CONF_GetPadSpeakerVolume : M conf Z := get_sized "BT.SPKV" 1 (byte_at 0).
Definition CONF_GetPadMotorMode : M conf Z := get_sized "BT.MOT" 1 (byte_at 0).
Definition CONF_GetSoundMode : M conf Z := get_sized "IPL.SND" 1 (byte_at 0).
Definition CONF_GetLanguage : M conf Z := get_sized "IPL.LNG" 1 (byte_at 0).
Definition CONF_GetScreenSaverMode : M conf Z := get_sized "IPL.SSV" 1 (byte_at 0).
Definition CONF_GetAspectRatio : M conf Z := get_sized "IPL.AR" 1 (byte_at 0).
Definition CONF_GetEULA : M conf Z := get_sized "IPL.EULA" 1 (byte_at 0).
Definition CONF_GetWiiConnect24 : M conf Z := get_sized "NET.WCFG" 4 be32.

(** Getters with an output argument, given as the bytes before the call. *)
Definition get_into (name : string) (out : list Z) (size : Z) (ok : Z -> bool) (f : Z -> Z) : M conf (Z * list Z) :=
  r <- CONF_Get (bytes_of name) out size;
  if fst r <? 0 then ret r else
  if negb (ok (fst r)) then ret (CONF_EBADVALUE, snd r) else ret (f (fst r), snd r).
Definition CONF_GetCounterBias (bias : list Z) : M conf (Z * list Z) :=
  get_into "IPL.CB" bias 4 (fun r => r =? 4) (fun _ => CONF_ERR_OK).
Definition CONF_GetDisplayOffsetH (offset : list Z) : M conf (Z * list Z) :=
  get_into "IPL.DH" offset 1 (fun r => r =? 1) (fun _ => 0).

Definition SIZEOF_conf_pad_device : Z := 6 + 0x40.
Definition SIZEOF_conf_pads : Z := 1 + SIZEOF_conf_pad_device * (10 + 4 + 1 + 1).
Definition SIZEOF_conf_pad_guest_device : Z := 6 + 0x40 + 16.
Definition SIZEOF_conf_pad_guests : Z := 1 + SIZEOF_conf_pad_guest_device * (4 + 2).
Definition CONF_PAD_MAX_REGISTERED : Z := 10.
Definition CONF_PAD_MAX_ACTIVE : Z := 4.

Definition CONF_GetPadDevices (pads : list Z) : M conf (Z * list Z) :=
  get_into "BT.DINF" pads SIZEOF_conf_pads (fun r => SIZEOF_conf_pads <=? r) (fun _ => 0).
Definition CONF_GetPadGuestDevices (pads : list Z) : M conf (Z * list Z) :=
  get_into "BT.CDIF" pads SIZEOF_conf_pad_guests (fun r => SIZEOF_conf_pad_guests <=? r) (fun _ => 0).

(** [pads] is [None] for a null pointer. *)
Definition CONF_SetPadDevices (pads : option (list Z)) : M conf Z :=
  match pads with
  | None => ret CONF_EBADVALUE
  | Some p => if CONF_PAD_MAX_REGISTERED <? byte_at 0 p then ret CONF_EBADVALUE
              else CONF_Set (bytes_of "BT.DINF") p SIZEOF_conf_pads
  end.
Definition CONF_SetPadGuestDevices (pads : option (list Z)) : M conf Z :=
  let p := match pads with None => repeat 0 (Z.to_nat SIZEOF_conf_pad_guests) | Some p => p end in
  if CONF_PAD_MAX_ACTIVE <? byte_at 0 p then ret CONF_EBADVALUE
  else CONF_Set (bytes_of "BT.CDIF") p SIZEOF_conf_pad_guests.

(** [buf] is the local array before the call: 22 bytes of the stack. *)
Definition CONF_GetNickName (buf nickname : list Z) : M conf (Z * list Z) :=
  r <- CONF_Get (bytes_of "IPL.NIK") buf 0x16;
  if fst r <? 0 then ret (fst r, nickname) else
  if negb (fst r =? 0x16) || (256 * byte_at 0 (snd r) + byte_at 1 (snd r) =? 0) then ret (CONF_EBADVALUE, nickname) else
  ret (fst r, put_at nickname 0 (map (fun i => byte_at (2 * i + 1) (snd r)) (seq 0 10) ++ [0])).

Definition CONF_GetParentalPassword (buf password : list Z) : M conf (Z * list Z) :=
  r <- CONF_Get (bytes_of "IPL.PC") buf 0x4A;
  if fst r <? 0 then ret (fst r, password) else
  if negb (fst r =? 1) then ret (CONF_EBADVALUE, password) else
  ret (fst r, put_at password 0 (take 4 (list.drop 3 (snd r)) ++ [0])).
Definition CONF_GetParentalAnswer (buf answer : list Z) : M conf (Z * list Z) :=
  r <- CONF_Get (bytes_of "IPL.PC") buf 0x4A;
  if fst r <? 0 then ret (fst r, answer) else
  if negb (fst r =? 1) then ret (CONF_EBADVALUE, answer) else
  ret (fst r, put_at answer 0 (take 32 (list.drop 8 (snd r)) ++ [0])).

(** [strcmp(buf, s) == 0]. *)
Definition is_str (buf : list Z) (s : string) : bool :=
  bytes_eqb (take (S (List.length (bytes_of s))) buf) (bytes_of s ++ [0]).
(** The first of the strings that [buf] equals. *)
Fixpoint select (buf : list Z) (l : list (string * Z)) : Z :=
  match l with [] => CONF_EBADVALUE | (s, v) :: l => if is_str buf s then v else select buf l end.
(** The local buffer is zero here; what follows the terminator is not looked at. *)
Definition get_txt (name : string) (size : Z) (l : list (string * Z)) : M conf Z :=
  r <- CONF_GetTxt (bytes_of name) (repeat 0 (Z.to_nat size)) size;
  if fst r <? 0 then ret (fst r) else ret (select (snd r) l).

Definition CONF_GetRegion : M conf Z :=
  get_txt "GAME" 3 [("JP", 0); ("US", 1); ("EU", 2); ("KR", 4); ("CN", 5)]%string.
Definition CONF_GetArea : M conf Z :=
  get_txt "AREA" 4 [("JPN", 0); ("USA", 1); ("EUR", 2); ("AUS", 3); ("BRA", 4); ("TWN", 5); ("ROC", 6); ("KOR", 7);
    ("HKG", 8); ("ASI", 9); ("LTN", 10); ("SAF", 11); ("CHN", 12)]%string.
Definition CONF_GetVideo : M conf Z :=
  get_txt "VIDEO" 5 [("NTSC", 0); ("PAL", 1); ("MPAL", 2)]%string.
End Conf.
