(* ===== verification/ConfProofs.v ===== *)
(** * The system configuration: theorems

    An image of SYSCONF represents a list of typed entries, and the functions of
    [conf.c] look up and replace the values of this list; the lines of
    setting.txt are found again after decryption. *)

From stdpp Require Import base list.
From Stdlib Require Import ZArith Lia.
From S2P Require Import Prelude Conf.

Open Scope Z_scope.

(** ** Arrays of bytes *)

(** The bytes [bs] are at [i]. *)
Fixpoint has_at (l : list Z) (i : Z) (bs : list Z) : Prop :=
  match bs with [] => True | b :: bs => at_index l i = Some b /\ has_at l (i + 1) bs end.

Lemma zlen_nonneg {A} (l : list A) : 0 <= zlen l.
Proof. unfold zlen. lia. Qed.
Lemma zlen_app {A} (l l' : list A) : zlen (l ++ l') = zlen l + zlen l'.
Proof. unfold zlen. rewrite length_app. lia. Qed.
Lemma zlen_cons {A} (x : A) l : zlen (x :: l) = 1 + zlen l.
Proof. unfold zlen. simpl. lia. Qed.
Lemma zlen_nil {A} : zlen (@nil A) = 0.
Proof. done. Qed.

Lemma has_app l i bs bs' : has_at l i (bs ++ bs') <-> has_at l i bs /\ has_at l (i + zlen bs) bs'.
Proof.
  revert i. induction bs as [|b bs IH]; intros i; cbn [app has_at].
  - unfold zlen. simpl. rewrite Z.add_0_r. tauto.
  - rewrite IH, zlen_cons. replace (i + 1 + zlen bs) with (i + (1 + zlen bs)) by lia. tauto.
Qed.

Lemma has_ext l l' i bs :
  (forall j, i <= j < i + zlen bs -> at_index l' j = at_index l j) -> has_at l i bs -> has_at l' i bs.
Proof.
  revert i. induction bs as [|b bs IH]; intros i He; [done|]. rewrite zlen_cons in He. pose proof (zlen_nonneg bs).
  intros [H1 H2]. split; [by rewrite He by lia|]. apply IH; [|done]. intros j Hj. apply He. lia.
Qed.

Lemma put_at_index l i bs j :
  0 <= i -> i + zlen bs <= zlen l ->
  at_index (put_at l i bs) j = if (i <=? j) && (j <? i + zlen bs) then bs !! Z.to_nat (j - i) else at_index l j.
Proof.
  intros Hi Hl. unfold at_index, put_at. unfold zlen in *. destruct (Z.leb_spec 0 j) as [Hj|Hj].
  - assert (Ht : length (take (Z.to_nat i) l) = Z.to_nat i) by (rewrite length_take; lia).
    destruct (Z.leb_spec i j) as [H1|H1]; cbn [andb].
    + rewrite lookup_app_r by lia. rewrite Ht. replace (Z.to_nat j - Z.to_nat i)%nat with (Z.to_nat (j - i)) by lia.
      destruct (Z.ltb_spec j (i + Z.of_nat (length bs))) as [H2|H2]; [by rewrite lookup_app_l by lia|].
      rewrite lookup_app_r by lia. rewrite lookup_drop. f_equal. lia.
    + rewrite lookup_app_l by lia. by rewrite lookup_take_lt by lia.
  - destruct (Z.leb_spec i j); [lia|done].
Qed.

Lemma has_lookup l i bs : (forall k, (k < length bs)%nat -> at_index l (i + Z.of_nat k) = bs !! k) -> has_at l i bs.
Proof.
  revert i. induction bs as [|b bs IH]; intros i Hk; [done|]. split.
  - rewrite <- (Z.add_0_r i). apply (Hk 0%nat). simpl. lia.
  - apply IH. intros k Hl. replace (i + 1 + Z.of_nat k) with (i + Z.of_nat (S k)) by lia. apply (Hk (S k)). simpl. lia.
Qed.

Lemma put_has l i bs : 0 <= i -> i + zlen bs <= zlen l -> has_at (put_at l i bs) i bs.
Proof.
  intros Hi Hl. apply has_lookup. intros k Hk. rewrite put_at_index by done. unfold zlen in *.
  destruct (Z.leb_spec i (i + Z.of_nat k)); [|lia]. destruct (Z.ltb_spec (i + Z.of_nat k) (i + Z.of_nat (length bs))); [|lia].
  cbn [andb]. f_equal. lia.
Qed.

Lemma put_at_other l i bs j cs :
  0 <= i -> i + zlen bs <= zlen l -> j + zlen cs <= i \/ i + zlen bs <= j -> has_at l j cs -> has_at (put_at l i bs) j cs.
Proof.
  intros Hi Hl Hd. apply has_ext. intros x Hx. rewrite put_at_index by done.
  destruct (Z.leb_spec i x), (Z.ltb_spec x (i + zlen bs)); cbn [andb]; try done. lia.
Qed.

Lemma put_length l i bs : 0 <= i -> i + zlen bs <= zlen l -> zlen (put_at l i bs) = zlen l.
Proof. intros Hi Hl. unfold zlen, put_at in *. rewrite !length_app, length_take, length_drop. lia. Qed.

Lemma has_bound l i bs : has_at l i bs -> bs <> [] -> i + zlen bs <= zlen l.
Proof.
  revert i. induction bs as [|b bs IH]; intros i; [done|]. intros [H1 H2] _. rewrite zlen_cons.
  destruct bs as [|b' bs]; [|specialize (IH _ H2); assert (b' :: bs <> []) by done; specialize (IH H); lia].
  unfold at_index in H1. case_match eqn:E; [|done]. apply Z.leb_le in E. apply lookup_lt_Some in H1. unfold zlen. simpl. lia.
Qed.

Section Proofs.
Implicit Types s : conf.

Lemma wp_rd8 i b Q s : at_index (cf_buffer s) i = Some b -> Q b s -> wp (rd8 i) Q s.
Proof. intros H HQ. eapply wp_getopt; [exact H|exact HQ]. Qed.

Lemma wp_rd16 i h l Q s : has_at (cf_buffer s) i [h; l] -> Q (256 * h + l) s -> wp (rd16 i) Q s.
Proof. intros (H1 & H2 & _) HQ. apply wp_bind. eapply wp_rd8; [done|]. apply wp_bind. eapply wp_rd8; [done|]. by apply wp_ret. Qed.

Lemma wp_rd_bytes n i bs Q s : length bs = n -> has_at (cf_buffer s) i bs -> Q bs s -> wp (rd_bytes n i) Q s.
Proof.
  revert i bs Q. induction n as [|n IH]; intros i [|b bs] Q; try done. intros [= Hl] [H1 H2] HQ. cbn [rd_bytes].
  apply wp_bind. eapply wp_rd8; [done|]. apply wp_bind. eapply IH; [done..|]. by apply wp_ret.
Qed.

Lemma wp_wr_bytes i bs Q s :
  0 <= i -> i + zlen bs <= zlen (cf_buffer s) -> Q tt (set_buffer (put_at (cf_buffer s) i bs) s) -> wp (wr_bytes i bs) Q s.
Proof.
  intros H1 H2 HQ. unfold wp, wr_bytes. destruct (Z.leb_spec 0 i); [|lia]. by destruct (Z.leb_spec (i + zlen bs) (zlen (cf_buffer s))); [|lia].
Qed.
End Proofs.

(** ** Entries *)

Record entry := mk_entry { en_off : Z; en_type : Z; en_name : list Z; en_val : list Z }.

(** The length field of arrays. *)
Definition len_field (e : entry) : list Z :=
  let n := zlen (en_val e) - 1 in
  if en_type e =? CONF_BIGARRAY then [n / 256; n mod 256] else if en_type e =? CONF_SMALLARRAY then [n] else [].
Definition encode (e : entry) : list Z :=
  (32 * en_type e + (zlen (en_name e) - 1)) :: en_name e ++ len_field e ++ en_val e.

(** The length of values of a type. *)
Definition val_ok (t n : Z) : Prop :=
  t = CONF_BIGARRAY /\ 1 <= n <= 65536 \/ t = CONF_SMALLARRAY /\ 1 <= n <= 256 \/ t = CONF_BYTE /\ n = 1 \/
  t = CONF_SHORT /\ n = 2 \/ t = CONF_LONG /\ n = 4 \/ t = CONF_BOOL /\ n = 1.
Definition entry_ok (e : entry) : Prop :=
  0 <= en_off e < 65536 /\ 1 <= zlen (en_name e) <= 16 /\ val_ok (en_type e) (zlen (en_val e)).

Definition entry_end (e : entry) : Z := en_off e + zlen (encode e).

(** The image holds the entries [es], in the order of the table. *)
Record conf_repr (s : conf) (es : list entry) : Prop := {
  cr_inited : cf_inited s = true;
  cr_size : zlen (cf_buffer s) = CONF_FILE_SIZE;
  cr_count : zlen es < 65536 /\ has_at (cf_buffer s) 4 [zlen es / 256; zlen es mod 256];
  cr_table : forall k e, es !! k = Some e -> has_at (cf_buffer s) (6 + 2 * Z.of_nat k) [en_off e / 256; en_off e mod 256];
  cr_entry : forall e, e ∈ es -> entry_ok e /\ has_at (cf_buffer s) (en_off e) (encode e) /\ 6 + 2 * zlen es <= en_off e;
  cr_disj : forall j k e e', es !! j = Some e -> es !! k = Some e' -> j <> k ->
    entry_end e <= en_off e' \/ entry_end e' <= en_off e;
}.

(** What the functions promise. *)
Definition named (name : list Z) (e : entry) : bool := bytes_eqb (en_name e) name.
Fixpoint lookup_name (name : list Z) (es : list entry) : option entry :=
  match es with [] => None | e :: es => if named name e then Some e else lookup_name name es end.
Definition with_val (v : list Z) (e : entry) : entry := mk_entry (en_off e) (en_type e) (en_name e) v.
Fixpoint update_name (name v : list Z) (es : list entry) : list entry :=
  match es with [] => [] | e :: es => if named name e then with_val v e :: es else e :: update_name name v es end.

Definition is_array (t : Z) : bool := (t =? CONF_BIGARRAY) || (t =? CONF_SMALLARRAY).

Inductive confop := OGet (name buffer : list Z) | OSet (name bytes : list Z) | OType (name : list Z) | OLength (name : list Z).
Definition spec_op (o : confop) (es : list entry) : (Z * list Z) * list entry :=
  match o with
  | OGet name buf =>
      (match lookup_name name es with
       | None => (CONF_ENOENT, buf)
       | Some e => if zlen buf <? zlen (en_val e) then (CONF_ETOOBIG, buf)
                   else (zlen (en_val e), en_val e ++ (if is_array (en_type e) then list.drop (length (en_val e)) buf
                                                       else repeat 0 (length buf - length (en_val e))))
       end, es)
  | OSet name v =>
      match lookup_name name es with
      | None => ((CONF_ENOENT, []), es)
      | Some e => if zlen v =? zlen (en_val e) then ((zlen v, []), update_name name v es) else ((CONF_EBADVALUE, []), es)
      end
  | OType name => ((match lookup_name name es with None => CONF_ENOENT | Some e => en_type e end, []), es)
  | OLength name => ((match lookup_name name es with None => CONF_ENOENT | Some e => zlen (en_val e) end, []), es)
  end.
Definition run_op (o : confop) : M conf (Z * list Z) :=
  match o with
  | OGet name buf => CONF_Get name buf (zlen buf)
  | OSet name v => r <- CONF_Set name v (zlen v); ret (r, [])
  | OType name => r <- CONF_GetType name; ret (r, [])
  | OLength name => r <- CONF_GetLength name; ret (r, [])
  end.
Fixpoint run_ops (os : list confop) : M conf (list (Z * list Z)) :=
  match os with [] => ret [] | o :: os => r <- run_op o; rs <- run_ops os; ret (r :: rs) end.
Fixpoint spec_ops (os : list confop) (es : list entry) : list (Z * list Z) * list entry :=
  match os with
  | [] => ([], es)
  | o :: os => let '(r, es) := spec_op o es in let '(rs, es) := spec_ops os es in (r :: rs, es)
  end.

(** ** The operations on the represented list *)

Lemma tag_parts t n : 0 <= t < 8 -> 1 <= n <= 16 ->
  Z.land (32 * t + (n - 1)) 0x0F = n - 1 /\ Z.shiftr (32 * t + (n - 1)) 5 = t.
Proof.
  intros Ht Hn. split.
  - change 0x0F with (Z.ones 4). rewrite Z.land_ones by lia. change (2 ^ 4) with 16.
    replace (32 * t + (n - 1)) with (n - 1 + (2 * t) * 16) by lia. rewrite Z.mod_add by lia. apply Z.mod_small. lia.
  - rewrite Z.shiftr_div_pow2 by lia. change (2 ^ 5) with 32. symmetry. apply (Z.div_unique _ _ _ (n - 1)); lia.
Qed.

Lemma val_ok_type t n : val_ok t n -> 0 <= t < 8 /\ 1 <= n.
Proof. unfold val_ok, CONF_BIGARRAY, CONF_SMALLARRAY, CONF_BYTE, CONF_SHORT, CONF_LONG, CONF_BOOL. lia. Qed.

Lemma bytes_eqb_true a b : bytes_eqb a b = true <-> a = b.
Proof. apply bool_decide_eq_true. Qed.

Lemma named_length name e : zlen (en_name e) <> zlen name -> named name e = false.
Proof. intros Hn. unfold named. apply not_true_is_false. intros E%bytes_eqb_true. congruence. Qed.

Lemma lookup_name_index name v es e :
  lookup_name name es = Some e ->
  exists i, es !! i = Some e /\ en_name e = name /\ update_name name v es = <[i := with_val v e]> es.
Proof.
  induction es as [|e' es IH]; cbn [lookup_name update_name]; [done|]. destruct (named name e') eqn:En.
  - intros [= ->]. exists 0%nat. split; [done|]. split; [by apply bytes_eqb_true|done].
  - intros (i & H1 & H2 & H3)%IH. exists (S i). split; [done|]. split; [done|]. by rewrite H3.
Qed.

(** The parts of an entry in the image. *)
Definition prefix (e : entry) : list Z := (32 * en_type e + (zlen (en_name e) - 1)) :: en_name e ++ len_field e.
Lemma encode_prefix e : encode e = prefix e ++ en_val e.
Proof. unfold encode, prefix. by rewrite <- app_comm_cons, <- app_assoc. Qed.

Lemma prefix_skip e : val_ok (en_type e) (zlen (en_val e)) ->
  value_skip (en_type e) = Some (zlen (prefix e) - zlen (en_name e)) /\
  (zlen (prefix e) - zlen (en_name e) =? 1) = negb (is_array (en_type e)).
Proof.
  intros H. unfold prefix. rewrite zlen_cons, zlen_app. replace (1 + (zlen (en_name e) + zlen (len_field e)) - zlen (en_name e)) with (1 + zlen (len_field e)) by lia.
  unfold len_field, is_array. destruct H as [ [-> _]|[ [-> _]|[ [-> _]|[ [-> _]|[ [-> _]|[-> _] ] ] ] ] ]; done.
Qed.

Section Ops.
Context (s : conf) (es : list entry) (Hr : conf_repr s es).

Lemma wp_off k e Q : es !! k = Some e -> Q (en_off e) s -> wp (rd16 (6 + 2 * Z.of_nat k)) Q s.
Proof.
  intros Hk HQ. eapply wp_rd16; [by apply (cr_table _ _ Hr)|].
  rewrite <- (Z.div_mod (en_off e) 256) by lia. done.
Qed.

Lemma wp_tag e Q : e ∈ es -> Q (32 * en_type e + (zlen (en_name e) - 1)) s -> wp (rd8 (en_off e)) Q s.
Proof. intros He HQ. destruct (cr_entry _ _ Hr e He) as (_ & Hh & _). eapply wp_rd8; [apply Hh|done]. Qed.

Lemma entry_parts e : e ∈ es -> entry_ok e /\ has_at (cf_buffer s) (en_off e) (prefix e) /\
  has_at (cf_buffer s) (en_off e + zlen (prefix e)) (en_val e).
Proof.
  intros He. destruct (cr_entry _ _ Hr e He) as (H1 & H2 & _). rewrite encode_prefix in H2. apply has_app in H2. tauto.
Qed.

Lemma wp_name e n Q : e ∈ es -> n = length (en_name e) -> Q (en_name e) s -> wp (rd_bytes n (en_off e + 1)) Q s.
Proof.
  intros He -> HQ. destruct (entry_parts e He) as (_ & [_ Hh] & _). apply has_app in Hh as [Hn _].
  by eapply wp_rd_bytes.
Qed.

Lemma find_loop_spec n k name :
  (k + n = length es)%nat ->
  wp (find_loop n (6 + 2 * Z.of_nat k) name)
    (fun r s' => s' = s /\ r = option_map en_off (lookup_name name (list.drop k es))) s.
Proof.
  revert k. induction n as [|n IH]; intros k Hk; cbn [find_loop].
  - apply wp_ret. rewrite drop_ge by lia. done.
  - destruct (lookup_lt_is_Some_2 es k) as [e He]; [lia|]. assert (Hin : e ∈ es) by by eapply list_elem_of_lookup_2.
    destruct (entry_parts e Hin) as ((Ho & Hn & Hv) & _). destruct (val_ok_type _ _ Hv) as [Ht _].
    rewrite (drop_S es e k He). cbn [lookup_name]. apply wp_bind, (wp_off k e); [done|]. apply wp_bind, wp_tag; [done|].
    rewrite (proj1 (tag_parts _ _ Ht Hn)). replace (6 + 2 * Z.of_nat k + 2) with (6 + 2 * Z.of_nat (S k)) by lia.
    replace (zlen (en_name e) - 1 + 1) with (zlen (en_name e)) by lia.
    destruct (Z.eqb_spec (zlen name) (zlen (en_name e))) as [El|El].
    + apply wp_bind, wp_name; [done|unfold zlen in El; lia|]. fold (named name e). destruct (named name e); [by apply wp_ret|].
      apply IH. lia.
    + rewrite named_length by done. apply IH. lia.
Qed.

Lemma find_spec name :
  wp (CONF_Find name) (fun r s' => s' = s /\ r = option_map en_off (lookup_name name es)) s.
Proof.
  apply wp_bind. destruct (cr_count _ _ Hr) as [Hn Hc]. eapply wp_rd16; [exact Hc|].
  rewrite <- (Z.div_mod (zlen es) 256) by lia. unfold zlen. rewrite Nat2Z.id.
  eapply wp_mono; [apply (find_loop_spec _ 0); lia|]. done.
Qed.

Lemma with_entry_spec {A} name err (k : Z -> M conf A) Q :
  match lookup_name name es with
  | None => Q (err CONF_ENOENT) s
  | Some e => e ∈ es -> en_name e = name -> wp (k (en_off e)) Q s
  end -> wp (with_entry name err k) Q s.
Proof.
  intros HQ. unfold with_entry. apply wp_bind, wp_gets. rewrite (cr_inited _ _ Hr). cbn [negb].
  apply wp_bind. eapply wp_mono; [apply find_spec|]. cbv beta. intros r s' [-> ->].
  destruct (lookup_name name es) as [e|] eqn:El; cbn [option_map]; [|by apply wp_ret].
  destruct (lookup_name_index name [] es e El) as (i & H1 & H2 & _). apply HQ; [by eapply list_elem_of_lookup_2|done].
Qed.

Lemma length_spec e :
  e ∈ es -> wp (entry_length (en_off e) (en_name e)) (fun r s' => s' = s /\ r = zlen (en_val e)) s.
Proof.
  intros He. destruct (entry_parts e He) as ((Ho & Hn & Hv) & Hp & _). destruct (val_ok_type _ _ Hv) as [Ht Hv1].
  unfold entry_length. apply wp_bind, wp_tag; [done|]. rewrite (proj2 (tag_parts _ _ Ht Hn)).
  destruct Hp as [_ Hp]. apply has_app in Hp as [_ Hp]. unfold len_field in Hp.
  replace (en_off e + 1 + zlen (en_name e)) with (en_off e + zlen (en_name e) + 1) in Hp by lia.
  destruct Hv as [ [E Hv]|[ [E Hv]|[ [E Hv]|[ [E Hv]|[ [E Hv]|[E Hv] ] ] ] ] ]; rewrite E in *;
    cbn [Z.eqb Pos.eqb CONF_BIGARRAY CONF_SMALLARRAY CONF_BYTE CONF_SHORT CONF_LONG CONF_BOOL] in *;
    try (apply wp_ret; split; [done|lia]).
  - apply wp_bind. eapply wp_rd16; [exact Hp|]. apply wp_ret. split; [done|].
    rewrite <- (Z.div_mod (zlen (en_val e) - 1) 256) by lia. lia.
  - apply wp_bind. eapply wp_rd8; [apply Hp|]. apply wp_ret. split; [done|lia].
Qed.

Lemma getlength_spec name :
  wp (CONF_GetLength name)
    (fun r s' => s' = s /\ r = match lookup_name name es with None => CONF_ENOENT | Some e => zlen (en_val e) end) s.
Proof.
  apply with_entry_spec. destruct (lookup_name name es) as [e|]; [|done]. intros He <-. by apply length_spec.
Qed.

Lemma gettype_spec name :
  wp (CONF_GetType name)
    (fun r s' => s' = s /\ r = match lookup_name name es with None => CONF_ENOENT | Some e => en_type e end) s.
Proof.
  apply with_entry_spec. destruct (lookup_name name es) as [e|]; [|done]. intros He Hn.
  destruct (entry_parts e He) as ((Ho & Hl & Hv) & _). destruct (val_ok_type _ _ Hv) as [Ht _].
  apply wp_bind, wp_tag; [done|]. rewrite (proj2 (tag_parts _ _ Ht Hl)). by apply wp_ret.
Qed.
Lemma get_spec name buf :
  wp (CONF_Get name buf (zlen buf)) (fun r s' => s' = s /\ r = fst (spec_op (OGet name buf) es)) s.
Proof.
  apply with_entry_spec. cbn [spec_op fst]. destruct (lookup_name name es) as [e|] eqn:El; [|done]. intros He Hn.
  destruct (entry_parts e He) as ((Ho & Hl & Hv) & Hp & Hval). destruct (val_ok_type _ _ Hv) as [Ht Hv1].
  apply wp_bind. eapply wp_mono; [apply getlength_spec|]. cbv beta. intros len s' [-> ->]. rewrite El.
  destruct (Z.ltb_spec (zlen (en_val e)) 0); [lia|]. destruct (Z.ltb_spec (zlen buf) (zlen (en_val e))) as [Hbig|Hfit].
  { by apply wp_ret. }
  apply wp_bind, wp_tag; [done|]. rewrite (proj2 (tag_parts _ _ Ht Hl)). destruct (prefix_skip e Hv) as [Hsk Harr]. rewrite Hsk, Harr.
  apply wp_bind. rewrite <- Hn. replace (en_off e + zlen (en_name e) + (zlen (prefix e) - zlen (en_name e))) with (en_off e + zlen (prefix e)) by lia.
  eapply wp_rd_bytes; [|exact Hval|]; [unfold zlen; lia|]. apply wp_ret. split; [done|]. f_equal. unfold put_at. change (Z.to_nat 0) with 0%nat. 
  destruct (is_array (en_type e)); cbn [negb]; rewrite !firstn_O; cbn [app Nat.add]; f_equal; []. unfold zlen in *. rewrite Nat2Z.id, repeat_length.
  rewrite (drop_ge buf) by lia. rewrite app_nil_r. cbn [Nat.add].
  rewrite <- (Nat.sub_add (length (en_val e)) (length buf)) at 1 by lia. rewrite Nat.add_comm, repeat_app.
  rewrite drop_app_length'; [done|by rewrite repeat_length].
Qed.

Lemma prefix_with v e : zlen v = zlen (en_val e) -> prefix (with_val v e) = prefix e /\ entry_end (with_val v e) = entry_end e.
Proof.
  intros Hv. assert (E : prefix (with_val v e) = prefix e) by (unfold prefix, len_field; cbn [with_val en_type en_name en_val]; by rewrite Hv).
  split; [done|]. unfold entry_end. rewrite !encode_prefix, E, !zlen_app. cbn [with_val en_val en_off]. by rewrite Hv.
Qed.

(** The image after the value of an entry was replaced. *)
Lemma repr_set i e v :
  es !! i = Some e -> zlen v = zlen (en_val e) ->
  conf_repr (set_dirty true (set_buffer (put_at (cf_buffer s) (en_off e + zlen (prefix e)) v) s)) (<[i := with_val v e]> es).
Proof.
  intros Hi Hv. assert (He : e ∈ es) by by eapply list_elem_of_lookup_2.
  destruct (entry_parts e He) as (Hok & Hp & Hval). destruct (prefix_with v e Hv) as [Epre Eend].
  pose proof (cr_entry _ _ Hr e He) as (_ & Henc & Hoff). pose proof (zlen_nonneg (prefix e)) as Hpn.
  assert (Hb : en_off e + zlen (prefix e) + zlen v <= zlen (cf_buffer s)).
  { apply has_bound in Henc; [|by rewrite encode_prefix]. rewrite encode_prefix, zlen_app in Henc. lia. }
  assert (H0 : 0 <= en_off e + zlen (prefix e)) by (destruct Hok; lia).
  assert (Hlen : zlen (<[i := with_val v e]> es) = zlen es) by (unfold zlen; by rewrite length_insert).
  assert (Hk : forall k e', <[i := with_val v e]> es !! k = Some e' ->
    exists e0, es !! k = Some e0 /\ en_off e' = en_off e0 /\ entry_end e' = entry_end e0 /\ (k = i /\ e' = with_val v e \/ k <> i /\ e' = e0)).
  { intros k e' Hk. destruct (decide (k = i)) as [->|Hne].
    - rewrite list_lookup_insert_eq in Hk by (by eapply lookup_lt_Some). injection Hk as <-. exists e. split; [done|]. split; [done|]. split; [done|]. by left.
    - rewrite list_lookup_insert_ne in Hk by done. exists e'. eauto 10. }
  assert (Hhead : forall j cs, j + zlen cs <= en_off e -> has_at (cf_buffer s) j cs ->
    has_at (put_at (cf_buffer s) (en_off e + zlen (prefix e)) v) j cs) by (intros j cs Hj; apply put_at_other; [done..|lia]).
  destruct (cr_count _ _ Hr) as [Hc1 Hc2]. split; cbn [set_dirty set_buffer cf_inited cf_buffer].
  - apply Hr.
  - rewrite put_length by done. apply Hr.
  - rewrite Hlen. split; [done|]. apply Hhead; [unfold zlen in *; simpl; lia|done].
  - intros k e' (e0 & H1 & -> & _)%Hk. apply Hhead; [|by apply (cr_table _ _ Hr)].
    apply lookup_lt_Some in H1. unfold zlen in *. simpl. lia.
  - intros e' Hin. apply list_elem_of_lookup in Hin as [k Hkk]. destruct (Hk k e' Hkk) as (e0 & H1 & H2 & H3 & H4). rewrite Hlen, H2.
    assert (He0 : e0 ∈ es) by by eapply list_elem_of_lookup_2. destruct (cr_entry _ _ Hr e0 He0) as (Hok0 & Hat0 & Hoff0).
    destruct H4 as [ [-> ->]|[Hne ->] ].
    + assert (e0 = e) as -> by congruence. split; [|split; [|done] ].
      * destruct Hok as (O1 & O2 & O3). split; [done|]. split; [done|]. cbn [with_val en_type en_val]. by rewrite Hv.
      * rewrite encode_prefix, Epre. apply has_app. split; [apply put_at_other; [done..|lia|done]|apply put_has; done].
    + split; [done|]. split; [|done]. apply put_at_other; [done..| |done].
      destruct (cr_disj _ _ Hr i k e e0 Hi H1) as [Hd|Hd]; [done|right|left];
        unfold entry_end in Hd; rewrite ?encode_prefix, ?zlen_app in *; lia.
  - intros j k a b Ha Hbb Hne. destruct (Hk j a Ha) as (a0 & A1 & A2 & A3 & _), (Hk k b Hbb) as (b0 & B1 & B2 & B3 & _).
    rewrite A2, A3, B2, B3. by apply (cr_disj _ _ Hr j k).
Qed.

Lemma set_spec name v :
  wp (CONF_Set name v (zlen v))
    (fun r s' => r = fst (fst (spec_op (OSet name v) es)) /\ conf_repr s' (snd (spec_op (OSet name v) es))) s.
Proof.
  apply with_entry_spec. cbn [spec_op]. destruct (lookup_name name es) as [e|] eqn:El; [|done]. intros He Hn.
  destruct (entry_parts e He) as ((Ho & Hl & Hv) & Hp & Hval). destruct (val_ok_type _ _ Hv) as [Ht Hv1].
  apply wp_bind. eapply wp_mono; [apply getlength_spec|]. cbv beta. intros len s' [-> ->]. rewrite El.
  destruct (Z.ltb_spec (zlen (en_val e)) 0); [lia|]. rewrite (Z.eqb_sym (zlen v)).
  destruct (Z.eqb_spec (zlen (en_val e)) (zlen v)) as [E|E]; cbn [negb fst snd]; [|by apply wp_ret].
  apply wp_bind, wp_tag; [done|]. rewrite (proj2 (tag_parts _ _ Ht Hl)). destruct (prefix_skip e Hv) as [Hsk Harr]. rewrite Hsk.
  destruct (lookup_name_index name v es e El) as (i & Hi & _ & ->).
  destruct (Z.ltb_spec (zlen v) (zlen (en_val e))); [lia|]. apply wp_bind. cbn [when]. apply wp_ret.
  rewrite <- Hn. replace (en_off e + zlen (en_name e) + (zlen (prefix e) - zlen (en_name e))) with (en_off e + zlen (prefix e)) by lia.
  rewrite E, firstn_all2 by (unfold zlen; lia). apply wp_bind, wp_wr_bytes.
  - pose proof (zlen_nonneg (prefix e)). lia.
  - rewrite <- E. apply has_bound in Hval; [done|]. intros En. rewrite En in Hv1. unfold zlen in Hv1. simpl in Hv1. lia.
  - apply wp_bind, wp_modify, wp_ret. split; [done|]. by apply repr_set.
Qed.

Lemma conf_op_spec o :
  wp (run_op o) (fun r s' => r = fst (spec_op o es) /\ conf_repr s' (snd (spec_op o es))) s.
Proof.
  destruct o as [name buf|name v|name|name]; cbn [run_op].
  - eapply wp_mono; [apply get_spec|]. by intros r s' [-> ->].
  - apply wp_bind. eapply wp_mono; [apply set_spec|]. cbv beta. intros r s' [-> H]. apply wp_ret. split; [|done].
    cbn [spec_op]. by repeat case_match.
  - apply wp_bind. eapply wp_mono; [apply gettype_spec|]. by intros r s' [-> ->].
  - apply wp_bind. eapply wp_mono; [apply getlength_spec|]. by intros r s' [-> ->].
Qed.
End Ops.

(** ** The text *)

(** The lines [NAME=VALUE], each with a carriage return and a line feed. *)
Definition render_line (l : list Z * list Z) : list Z := fst l ++ [61] ++ snd l ++ [13; 10].
Definition render (ls : list (list Z * list Z)) : list Z := concat (map render_line ls).
Definition clean (l : list Z * list Z) : Prop :=
  Forall (fun b => b <> 0 /\ b <> 13 /\ b <> 10 /\ b <> 61) (fst l) /\ Forall (fun b => b <> 0 /\ b <> 13 /\ b <> 10) (snd l).
Fixpoint lookup_line (name : list Z) (ls : list (list Z * list Z)) : option (list Z) :=
  match ls with [] => None | l :: ls => if bytes_eqb name (fst l) then Some (snd l) else lookup_line name ls end.

(** What [__CONF_GetTxt] returns. *)
Definition txt_result (r : option (list Z)) (buf : list Z) : Z * list Z :=
  match r with
  | None => (CONF_ENOENT, buf)
  | Some v => if zlen buf <=? zlen v then (CONF_ETOOBIG, buf) else (zlen v, v ++ [0] ++ list.drop (S (length v)) buf)
  end.

Section Text.
Context (s : conf).

Lemma wp_rd_txt i b Q : at_index (cf_txt s) i = Some b -> Q b s -> wp (rd_txt i) Q s.
Proof. intros H HQ. eapply wp_getopt; [exact H|exact HQ]. Qed.

Lemma wp_txt_bytes n i bs Q : length bs = n -> has_at (cf_txt s) i bs -> Q bs s -> wp (txt_bytes n i) Q s.
Proof.
  revert i bs Q. induction n as [|n IH]; intros i [|b bs] Q; try done. intros [= Hl] [H1 H2] HQ. cbn [txt_bytes].
  apply wp_bind. eapply wp_rd_txt; [done|]. apply wp_bind. eapply IH; [done..|]. by apply wp_ret.
Qed.

(** The characters before [c] are passed over. *)
Lemma strchr_found fuel i c pre Q :
  Forall (fun b => b <> 0 /\ b <> c) pre -> has_at (cf_txt s) i (pre ++ [c]) -> (length pre < fuel)%nat ->
  Q (Some (i + zlen pre)) s -> wp (strchr fuel i c) Q s.
Proof.
  intros Hp. revert i fuel. induction Hp as [|b pre [Hb0 Hbc] _ IH]; intros i [|fuel]; cbn [app has_at length]; intros [H1 H2] Hf HQ;
    try lia; cbn [strchr]; apply wp_bind; (eapply wp_rd_txt; [done|]).
  - rewrite Z.eqb_refl. apply wp_ret. unfold zlen in HQ. simpl in HQ. by rewrite Z.add_0_r in HQ.
  - rewrite (proj2 (Z.eqb_neq b c) Hbc), (proj2 (Z.eqb_neq b 0) Hb0). apply IH; [done|lia|].
    rewrite zlen_cons in HQ. by replace (i + 1 + zlen pre) with (i + (1 + zlen pre)) by lia.
Qed.

Lemma strchr_end i c fuel Q : at_index (cf_txt s) i = Some 0 -> c <> 0 -> (0 < fuel)%nat -> Q None s -> wp (strchr fuel i c) Q s.
Proof.
  intros H1 Hc Hf HQ. destruct fuel; [lia|]. cbn [strchr]. apply wp_bind. eapply wp_rd_txt; [done|].
  rewrite (proj2 (Z.eqb_neq 0 c)) by done. by apply wp_ret.
Qed.

Lemma skip_found fuel i pre Q :
  Forall (fun b => b <> 10) pre -> has_at (cf_txt s) i (pre ++ [10]) -> (length pre < fuel)%nat -> i + zlen pre < CONF_TXT_FILE_SIZE ->
  Q (i + zlen pre + 1) s -> wp (skip_line fuel i) Q s.
Proof.
  intros Hp. revert i fuel. induction Hp as [|b pre Hb _ IH]; intros i [|fuel]; cbn [app has_at length]; intros [H1 H2] Hf Hlt HQ; try lia;
    cbn [skip_line]; rewrite ?zlen_cons in *; try pose proof (zlen_nonneg pre).
  - unfold zlen in *. simpl in *. destruct (Z.ltb_spec i CONF_TXT_FILE_SIZE); [|lia]. apply wp_bind. eapply wp_rd_txt; [done|].
    apply wp_ret. by rewrite Z.add_0_r in HQ.
  - destruct (Z.ltb_spec i CONF_TXT_FILE_SIZE); [|lia]. apply wp_bind. eapply wp_rd_txt; [done|].
    rewrite (proj2 (Z.eqb_neq b 10) Hb). apply IH; [done|lia|lia|].
    by replace (i + 1 + zlen pre + 1) with (i + (1 + zlen pre) + 1) by lia.
Qed.

(** The zeros after the text are one line. *)
Lemma skip_zeros n i fuel Q :
  i + Z.of_nat n = CONF_TXT_FILE_SIZE -> has_at (cf_txt s) i (repeat 0 n) -> (n < fuel)%nat -> Q CONF_TXT_FILE_SIZE s ->
  wp (skip_line fuel i) Q s.
Proof.
  revert i fuel. induction n as [|n IH]; intros i [|fuel] Hi Hz Hf HQ; try lia; cbn [skip_line].
  - destruct (Z.ltb_spec i CONF_TXT_FILE_SIZE); [lia|]. apply wp_ret. by replace i with CONF_TXT_FILE_SIZE by lia.
  - destruct (Z.ltb_spec i CONF_TXT_FILE_SIZE); [|lia]. cbn [repeat has_at] in Hz. apply wp_bind. eapply wp_rd_txt; [apply Hz|].
    apply IH; [lia|apply Hz|lia|done].
Qed.

Lemma render_cons l ls : render (l :: ls) = render_line l ++ render ls.
Proof. done. Qed.

Lemma line_spec line l name buf Q :
  clean l -> has_at (cf_txt s) line (render_line l) -> (length (render_line l) < txt_fuel)%nat ->
  Q (if bytes_eqb name (fst l) then Some (txt_result (Some (snd l)) buf) else None) s ->
  wp (line_value line name buf (zlen buf)) Q s.
Proof.
  intros [Hn Hv] Hat Hlen HQ. unfold render_line in *. rewrite !length_app in Hlen. cbn [length] in Hlen.
  pose proof Hat as Hat0. apply has_app in Hat as [Hat1 Hat2].
  assert (Heq : has_at (cf_txt s) line (fst l ++ [61])) by (apply has_app; split; [done|apply has_app in Hat2; apply Hat2]).
  unfold line_value. apply wp_bind. eapply (strchr_found _ _ _ (fst l)); [|exact Heq|lia|].
  { eapply Forall_impl; [exact Hn|]. simpl. tauto. }
  replace (line + zlen (fst l) - line) with (zlen (fst l)) by lia. unfold bytes_eqb in HQ.
  destruct (Z.eqb_spec (zlen (fst l)) (zlen name)) as [El|El]; cbn [negb].
  2: { apply wp_ret. rewrite bool_decide_false in HQ by congruence. done. }
  apply wp_bind. apply (wp_txt_bytes _ _ (fst l)); [unfold zlen in El; lia|exact Hat1|]. unfold bytes_eqb. case_bool_decide as En; cbn [negb]; [|by apply wp_ret].
  assert (Hcr : has_at (cf_txt s) line ((fst l ++ [61] ++ snd l) ++ [13])).
  { rewrite <- !app_assoc. cbn [app]. apply has_app. split; [done|]. cbn [app] in Hat2. destruct Hat2 as [H61 Hat2]. split; [done|].
    apply has_app. apply has_app in Hat2 as [H1 H2]. split; [done|]. split; [apply H2|done]. }
  apply wp_bind. eapply (strchr_found _ _ _ _); [|exact Hcr|rewrite !length_app; cbn [length]; lia|].
  { rewrite !Forall_app. split; [eapply Forall_impl; [exact Hn|]; simpl; tauto|]. split; [by repeat constructor|].
    eapply Forall_impl; [exact Hv|]. simpl. tauto. }
  apply wp_bind, wp_ret. rewrite !zlen_app. change (zlen [61]) with 1.
  replace (line + (zlen (fst l) + (1 + zlen (snd l))) - (line + zlen (fst l) + 1)) with (zlen (snd l)) by lia.
  unfold txt_result in HQ. destruct (zlen buf <=? zlen (snd l)); [by apply wp_ret|].
  pose proof (zlen_nonneg (snd l)). destruct (Z.ltb_spec (zlen (snd l)) 0); [lia|]. apply wp_bind.
  eapply (wp_txt_bytes _ _ (snd l)); [unfold zlen; lia| |].
  { cbn [app] in Hat2. destruct Hat2 as [_ Hat2]. by apply has_app in Hat2 as [? _]. }
  apply wp_ret. unfold put_at. change (Z.to_nat 0) with 0%nat. rewrite firstn_O, length_app. cbn [length app Nat.add].
  rewrite <- app_assoc. by rewrite Nat.add_1_r.
Qed.

Lemma gettxt_loop_spec fuel line ls n name buf Q :
  Forall clean ls -> has_at (cf_txt s) line (render ls ++ repeat 0 (S n)) -> 0 <= line -> line + zlen (render ls) + Z.of_nat n = CONF_TXT_FILE_SIZE ->
  (length ls + 1 < fuel)%nat -> Q (txt_result (lookup_line name ls) buf) s ->
  wp (gettxt_loop fuel line name buf (zlen buf)) Q s.
Proof.
  intros Hc. revert line fuel. induction Hc as [|l ls Hcl Hc IH]; intros line [|fuel] Hat H0 Hsz Hf HQ; cbn [length] in Hf; try lia; cbn [gettxt_loop].
  - cbn [lookup_line txt_result] in HQ. change (zlen (render [])) with 0 in Hsz. cbn [render map concat app] in Hat.
    destruct (Z.ltb_spec line CONF_TXT_FILE_SIZE) as [Hlt|Hge]; [|by apply wp_ret].
    apply wp_bind. unfold line_value. apply wp_bind. eapply strchr_end; [apply Hat|done|unfold txt_fuel; lia|]. apply wp_ret.
    apply wp_bind. apply (skip_zeros n); [lia| |unfold txt_fuel; unfold CONF_TXT_FILE_SIZE in Hsz; lia|].
    { change (S n) with (1 + n)%nat in Hat. rewrite Nat.add_comm, repeat_app in Hat. by apply has_app in Hat as [? _]. }
    destruct fuel; [lia|]. cbn [gettxt_loop]. by apply wp_ret.
  - rewrite render_cons, zlen_app in Hsz. rewrite render_cons, <- app_assoc in Hat. apply has_app in Hat as [Hl Hrest].
    pose proof (zlen_nonneg (render ls)). assert (Hlen : zlen (render_line l) <= 256) by (unfold CONF_TXT_FILE_SIZE in Hsz; lia).
    assert (Hpos : 0 < zlen (render_line l)) by (unfold render_line; rewrite !zlen_app; unfold zlen; simpl; lia).
    destruct (Z.ltb_spec line CONF_TXT_FILE_SIZE); [|lia].
    apply wp_bind. eapply line_spec; [done|exact Hl|unfold txt_fuel, zlen in *; lia|]. cbn [lookup_line] in HQ.
    destruct (bytes_eqb name (fst l)); [by apply wp_ret|]. apply wp_bind. unfold render_line in *.
    replace (fst l ++ [61] ++ snd l ++ [13; 10]) with ((fst l ++ [61] ++ snd l ++ [13]) ++ [10]) in * by (rewrite <- !app_assoc; done).
    rewrite zlen_app in *. change (zlen [10]) with 1 in *.
    apply (skip_found _ _ (fst l ++ [61] ++ snd l ++ [13])); [|exact Hl|unfold txt_fuel, zlen in *; lia|lia|].
    { destruct Hcl as [Hn Hv]. rewrite !Forall_app. split; [eapply Forall_impl; [exact Hn|]; simpl; tauto|]. split; [by repeat constructor|].
      split; [eapply Forall_impl; [exact Hv|]; simpl; tauto|by repeat constructor]. }
    apply IH; [by rewrite <- Z.add_assoc|pose proof (zlen_nonneg (fst l ++ [61] ++ snd l ++ [13])); lia|lia|lia|done].
Qed.
End Text.

(** ** Decryption and start *)

Lemma decrypt_involutive key l : decrypt_loop key (decrypt_loop key l) = l.
Proof.
  revert key. induction l as [|b l IH]; intros key; [done|]. cbn [decrypt_loop]. f_equal; [|apply IH].
  by rewrite Z.lxor_assoc, Z.lxor_nilpotent, Z.lxor_0_r.
Qed.
Lemma decrypt_length key l : length (decrypt_loop key l) = length l.
Proof. revert key. induction l as [|b l IH]; intros key; [done|]. cbn [decrypt_loop length]. by rewrite IH. Qed.

Lemma has_at_suffix l pre bs post : l = pre ++ bs ++ post -> has_at l (zlen pre) bs.
Proof.
  intros ->. apply has_lookup. intros k Hk. unfold at_index, zlen. destruct (Z.leb_spec 0 (Z.of_nat (length pre) + Z.of_nat k)); [|lia].
  rewrite lookup_app_r by lia. rewrite lookup_app_l by lia. f_equal. lia.
Qed.

Lemma put_all (l bs : list Z) : length bs = length l -> put_at l 0 (take (length bs) bs) = bs.
Proof.
  intros Hl. unfold put_at. change (Z.to_nat 0) with 0%nat. rewrite firstn_O, firstn_all. cbn [app Nat.add].
  rewrite drop_ge by lia. apply app_nil_r.
Qed.

Section Init.
Context `{IosFiles}.

(** The file system opens the files and reads both in full. *)
Definition serves (image cipher : list Z) : Prop :=
  (forall cs, 0 <= ios_open cs) /\
  (forall cs fd, ios_read (cs ++ [IosRead fd CONF_FILE_SIZE]) = (CONF_FILE_SIZE, image)) /\
  (forall cs fd, ios_read (cs ++ [IosRead fd CONF_TXT_FILE_SIZE]) = (CONF_TXT_FILE_SIZE, cipher)).

Lemma wp_open txt mode Q s :
  (forall fd s', 0 <= fd -> s' = set_calls (cf_calls s ++ [IosOpen txt mode]) s -> Q fd s') ->
  (forall cs, 0 <= ios_open cs) -> wp (io_open txt mode) Q s.
Proof. intros HQ Ho. unfold io_open. apply wp_bind, wp_modify, wp_gets. apply HQ; [apply Ho|done]. Qed.

Lemma put_zeros n k (bs : list Z) : length bs = n -> put_at (repeat 0 (n + k)) 0 (take n bs) = bs ++ repeat 0 k.
Proof.
  intros Hl. unfold put_at. change (Z.to_nat 0) with 0%nat. rewrite firstn_O, firstn_all2 by lia. cbn [app Nat.add].
  by rewrite Hl, repeat_app, drop_app_length' by (by rewrite repeat_length).
Qed.

Lemma put_image n (bs : list Z) : length bs = n -> put_at (repeat 0 n) 0 (take n bs) = bs.
Proof. intros Hl. rewrite <- (Nat.add_0_r n) at 1. rewrite put_zeros by done. apply app_nil_r. Qed.

Lemma io_read_spec (txt : bool) fd len bs Q s :
  ios_read (cf_calls s ++ [IosRead fd len]) = (len, bs) ->
  Q len (let s := set_calls (cf_calls s ++ [IosRead fd len]) s in
         if txt then set_txt (put_at (cf_txt s) 0 (take (Z.to_nat len) bs)) s
         else set_buffer (put_at (cf_buffer s) 0 (take (Z.to_nat len) bs)) s) ->
  wp (io_read txt fd len) Q s.
Proof.
  intros Hr HQ. unfold io_read. apply wp_bind, wp_modify. apply wp_bind, wp_gets. cbn [set_calls cf_calls]. rewrite Hr.
  apply wp_bind, wp_modify, wp_ret. exact HQ.
Qed.

Lemma conf_init_spec s image text :
  serves image (decrypt_loop 0x73B5DBFA text) -> cf_inited s = false ->
  length image = Z.to_nat CONF_FILE_SIZE -> take 4 image = conf_magic -> length text = 256%nat ->
  wp CONF_Init (fun r s' => r = 0 /\ cf_inited s' = true /\ cf_buffer s' = image /\ cf_txt s' = text ++ [0]) s.
Proof.
  intros (Ho & Hr1 & Hr2) Hi Him Hmag Htx. unfold CONF_Init, io_close. apply wp_bind, wp_gets. rewrite Hi.
  apply wp_bind, wp_open; [|done]. intros fd s1 Hfd ->. destruct (Z.ltb_spec fd 0); [lia|].
  apply wp_bind, wp_modify. apply wp_bind, wp_modify. apply wp_bind. eapply io_read_spec; [apply Hr1|]. cbv zeta.
  apply wp_bind, wp_modify. cbn [Z.eqb Pos.eqb CONF_FILE_SIZE negb]. apply wp_bind, wp_open; [|done]. intros fd2 s2 Hfd2 ->.
  destruct (Z.ltb_spec fd2 0); [lia|]. apply wp_bind. eapply io_read_spec; [apply Hr2|]. cbv zeta.
  apply wp_bind, wp_modify. cbn [Z.eqb Pos.eqb CONF_TXT_FILE_SIZE negb].
  apply wp_bind. apply (wp_rd_bytes _ _ conf_magic); [done| |].
  { apply (has_at_suffix _ [] conf_magic (list.drop 4 image)). cbn [set_calls cf_buffer set_txt set_buffer].
    rewrite <- Hmag, app_nil_l, (take_drop 4 image). by apply put_image. }
  replace (bytes_eqb conf_magic conf_magic) with true by done. cbn [negb].
  apply wp_bind. unfold CONF_DecryptTextBuffer. apply wp_modify. apply wp_bind, wp_modify, wp_ret.
  cbn [set_calls cf_buffer set_txt set_buffer set_inited cf_inited cf_txt]. split; [done|]. split; [done|]. split; [by apply put_image|].
  change (Z.to_nat (CONF_TXT_FILE_SIZE + 1)) with (256 + 1)%nat. change (Z.to_nat CONF_TXT_FILE_SIZE) with 256%nat.
  rewrite put_zeros by (by rewrite decrypt_length). cbn [repeat].
  rewrite take_app_length', drop_app_length' by (by rewrite decrypt_length). by rewrite decrypt_involutive.
Qed.
End Init.

(** ** Theorems *)

Lemma run_ops_spec os s es :
  conf_repr s es -> wp (run_ops os) (fun rs s' => rs = fst (spec_ops os es) /\ conf_repr s' (snd (spec_ops os es))) s.
Proof.
  revert s es. induction os as [|o os IH]; intros s es Hr; cbn [run_ops spec_ops]; [by apply wp_ret|].
  apply wp_bind. eapply wp_mono; [by apply (conf_op_spec s es)|]. cbv beta. intros r s1 [-> Hr1].
  destruct (spec_op o es) as [r1 es1]. cbn [fst snd] in Hr1. apply wp_bind. eapply wp_mono; [by apply IH|]. cbv beta.
  intros rs s2 [-> Hr2]. apply wp_ret. by destruct (spec_ops os es1).
Qed.

(** C23. A SYSCONF image behaves as the list of typed entries it represents: any
    sequence of lookups, reads and writes by name has the results of the
    list, with all their errors, and leaves an image of the resulting list;
    only the value of the entry written changes. *)
Theorem conf_refines_entries os s es :
  conf_repr s es -> exists s', run_ops os s = Ok (fst (spec_ops os es), s') /\ conf_repr s' (snd (spec_ops os es)).
Proof.
  intros Hr. pose proof (run_ops_spec os s es Hr) as H. unfold wp in H. destruct (run_ops os s) as [ [rs s']|]; [|done].
  destruct H as [-> H]. eauto.
Qed.

Lemma update_shape name v es e n :
  lookup_name name es = Some e -> zlen v = zlen (en_val e) ->
  option_map (fun e => (en_type e, zlen (en_val e))) (lookup_name n (update_name name v es)) =
  option_map (fun e => (en_type e, zlen (en_val e))) (lookup_name n es).
Proof.
  intros Hl Hv. induction es as [|e0 es IH]; cbn [lookup_name update_name] in *; [done|].
  destruct (named name e0) eqn:En.
  - injection Hl as ->. cbn [lookup_name]. unfold named in *. cbn [with_val en_name].
    destruct (bytes_eqb (en_name e) n); [|done]. cbn [option_map with_val en_type en_val]. by rewrite Hv.
  - cbn [lookup_name]. destruct (named n e0); [done|]. by apply IH.
Qed.

Lemma spec_ops_shape os es n :
  option_map (fun e => (en_type e, zlen (en_val e))) (lookup_name n (snd (spec_ops os es))) =
  option_map (fun e => (en_type e, zlen (en_val e))) (lookup_name n es).
Proof.
  revert es. induction os as [|o os IH]; intros es; [done|]. cbn [spec_ops].
  assert (E : option_map (fun e => (en_type e, zlen (en_val e))) (lookup_name n (snd (spec_op o es))) =
    option_map (fun e => (en_type e, zlen (en_val e))) (lookup_name n es)).
  { destruct o as [| name v| |]; cbn [spec_op snd]; try done. destruct (lookup_name name es) as [e|] eqn:El; [|done].
    destruct (Z.eqb_spec (zlen v) (zlen (en_val e))); [|done]. by eapply update_shape. }
  destruct (spec_op o es) as [r es1]. cbn [snd] in E. rewrite <- E, <- (IH es1). by destruct (spec_ops os es1).
Qed.

(** C25. Types are stable: whatever is read and written, every name keeps its
    type and the length of its value, and the length is one that the type
    allows. *)
Theorem conf_types_stable os s es name :
  conf_repr s es -> exists rs s' t n, run_ops os s = Ok (rs, s') /\
    CONF_GetType name s = Ok (t, s) /\ CONF_GetLength name s = Ok (n, s) /\
    CONF_GetType name s' = Ok (t, s') /\ CONF_GetLength name s' = Ok (n, s') /\
    (t = CONF_ENOENT /\ n = CONF_ENOENT \/ val_ok t n).
Proof.
  intros Hr. pose proof (run_ops_spec os s es Hr) as H. unfold wp in H. destruct (run_ops os s) as [ [rs s']|]; [|done].
  destruct H as [_ Hr']. set (es' := snd (spec_ops os es)) in *.
  assert (Hget : forall s es, conf_repr s es ->
    CONF_GetType name s = Ok (match lookup_name name es with None => CONF_ENOENT | Some e => en_type e end, s) /\
    CONF_GetLength name s = Ok (match lookup_name name es with None => CONF_ENOENT | Some e => zlen (en_val e) end, s)).
  { intros s0 es0 H0. pose proof (gettype_spec s0 es0 H0 name) as H1. pose proof (getlength_spec s0 es0 H0 name) as H2. unfold wp in H1, H2.
    destruct (CONF_GetType name s0) as [ [? ?]|]; [|done]. destruct (CONF_GetLength name s0) as [ [? ?]|]; [|done].
    destruct H1 as [-> ->], H2 as [-> ->]. done. }
  destruct (Hget s es Hr) as [G1 G2], (Hget s' es' Hr') as [G3 G4]. pose proof (spec_ops_shape os es name) as Esh. fold es' in Esh.
  eexists rs, s', _, _. split; [done|]. split; [exact G1|]. split; [exact G2|]. rewrite G3, G4.
  destruct (lookup_name name es) as [e|] eqn:El, (lookup_name name es') as [e'|]; try discriminate Esh.
  - injection Esh as -> ->. split; [done|]. split; [done|]. right. destruct (lookup_name_index name [] es e El) as (i & Hi & _).
    apply (cr_entry _ _ Hr e). by eapply list_elem_of_lookup_2.
  - split; [done|]. split; [done|]. by left.
Qed.

Lemma lines_length ls : Z.of_nat (length ls) <= zlen (render ls).
Proof.
  induction ls as [|l ls IH]; [done|]. rewrite render_cons, zlen_app. cbn [length]. unfold render_line. rewrite !zlen_app.
  pose proof (zlen_nonneg (fst l)). pose proof (zlen_nonneg (snd l)). change (zlen [13; 10]) with 2. change (zlen [61]) with 1. lia.
Qed.

(** C24. Reading back setting.txt: after [CONF_Init] on files that hold an image
    and the encryption of a text of clean lines, a lookup finds the value of
    the first line of that name, or reports that there is none or that it does
    not fit, and the image is in memory. *)
Theorem conf_text_roundtrip `{IosFiles} image ls n s name buf :
  Forall clean ls -> zlen (render ls) + Z.of_nat n = CONF_TXT_FILE_SIZE ->
  serves image (decrypt_loop 0x73B5DBFA (render ls ++ repeat 0 n)) -> cf_inited s = false ->
  length image = Z.to_nat CONF_FILE_SIZE -> take 4 image = conf_magic ->
  exists s', (CONF_Init;; CONF_GetTxt name buf (zlen buf)) s = Ok (txt_result (lookup_line name ls) buf, s') /\ cf_buffer s' = image.
Proof.
  intros Hc Hn Hs Hi Him Hmag.
  assert (Hlen : length (render ls ++ repeat 0 n) = 256%nat) by (rewrite length_app, repeat_length; unfold zlen, CONF_TXT_FILE_SIZE in Hn; lia).
  assert (Hw : wp (CONF_Init;; CONF_GetTxt name buf (zlen buf)) (fun r s' => r = txt_result (lookup_line name ls) buf /\ cf_buffer s' = image) s).
  { apply wp_bind. eapply wp_mono; [by eapply conf_init_spec|]. cbv beta. intros r s1 (_ & H1 & H2 & H3).
    unfold CONF_GetTxt. apply wp_bind, wp_gets. rewrite H1. cbn [negb].
    apply (gettxt_loop_spec s1 _ 0 ls n); [done| |done|lia| |done].
    - rewrite H3, <- app_assoc, <- repeat_cons. apply (has_at_suffix _ [] _ []). by rewrite app_nil_r.
    - pose proof (lines_length ls). unfold txt_fuel, zlen, CONF_TXT_FILE_SIZE in *. lia. }
  unfold wp in Hw. destruct ((CONF_Init;; CONF_GetTxt name buf (zlen buf)) s) as [ [r s']|]; [|done]. destruct Hw as [-> ?]. eauto.
Qed.
