(* ===== verification/ConfDemo.v ===== *)
(** * The system configuration: concrete runs *)

From Stdlib Require Import String.
From stdpp Require Import base list.
From Stdlib Require Import ZArith Lia.
From S2P Require Import Prelude Conf ConfProofs.

Open Scope Z_scope.

(** An image of four entries, one behind the other. *)
Definition demo_entries : list entry :=
  [mk_entry 16 CONF_BYTE (bytes_of "IPL.LNG") [1]; mk_entry 25 CONF_SMALLARRAY (bytes_of "IPL.IDL") [1; 2];
   mk_entry 36 CONF_SMALLARRAY (bytes_of "IPL.PC") (repeat 7 0x4A); mk_entry 118 CONF_LONG (bytes_of "IPL.CB") [0; 0; 1; 2]].
Definition demo_image : list Z :=
  let used := conf_magic ++ [0; 4] ++ concat (map (fun e => [en_off e / 256; en_off e mod 256]) demo_entries) ++ [0; 0] ++
              concat (map encode demo_entries) in
  used ++ repeat 0 (Z.to_nat CONF_FILE_SIZE - List.length used).
Definition demo_lines : list (list Z * list Z) :=
  [(bytes_of "AREA", bytes_of "EUR"); (bytes_of "MODEL", bytes_of "RVL-001(EUR)"); (bytes_of "VIDEO", bytes_of "PAL"); (bytes_of "GAME", bytes_of "EU")].
Definition demo_text : list Z := render demo_lines ++ repeat 0 (256 - List.length (render demo_lines)).
Definition demo_conf : conf := mk_conf true demo_image (demo_text ++ [0]) false [].

Fixpoint has_atb (l : list Z) (bs : list Z) : bool :=
  match bs, l with [], _ => true | b :: bs, x :: l => (b =? x) && has_atb l bs | _, [] => false end.
Lemma has_atb_ok l i bs : 0 <= i -> has_atb (list.drop (Z.to_nat i) l) bs = true -> has_at l i bs.
Proof.
  intros Hi. revert i Hi. induction bs as [|b bs IH]; intros i Hi; [done|]. cbn [has_atb has_at].
  destruct (list.drop (Z.to_nat i) l) as [|x r] eqn:E; [done|]. intros [Hb Hr]%andb_prop. apply Z.eqb_eq in Hb as <-. split.
  - unfold at_index. destruct (Z.leb_spec 0 i); [|lia]. rewrite <- (Nat.add_0_r (Z.to_nat i)), <- lookup_drop, E. done.
  - apply IH; [lia|]. replace (Z.to_nat (i + 1)) with (Z.to_nat i + 1)%nat by lia. rewrite <- drop_drop, E. done.
Qed.

Lemma demo_has i bs : 0 <= i -> has_atb (list.drop (Z.to_nat i) demo_image) bs = true -> has_at (cf_buffer demo_conf) i bs.
Proof. apply has_atb_ok. Qed.

Lemma demo_repr : conf_repr demo_conf demo_entries.
Proof.
  assert (Hall : forall k e, demo_entries !! k = Some e -> (k < 4)%nat) by (intros k e Hk; by apply lookup_lt_Some in Hk).
  split.
  - done.
  - by vm_compute.
  - split; [done|]. apply demo_has; [lia|by vm_compute].
  - intros k e Hk. specialize (Hall k e Hk). do 4 (destruct k as [|k]; [injection Hk as <-; apply demo_has; [lia|by vm_compute]|]). lia.
  - intros e He. apply list_elem_of_lookup in He as [k Hk]. specialize (Hall k e Hk).
    do 4 (destruct k as [|k]; [injection Hk as <-; split; [|split; [apply demo_has; [vm_compute; discriminate|by vm_compute]|by vm_compute] ];
      split; [by vm_compute|]; split; [by vm_compute|];
      unfold val_ok, zlen, CONF_BIGARRAY, CONF_SMALLARRAY, CONF_BYTE, CONF_SHORT, CONF_LONG, CONF_BOOL; simpl; lia|]). lia.
  - intros j k e e' Hj Hk Hne. pose proof (Hall j e Hj). pose proof (Hall k e' Hk).
    do 4 (destruct j as [|j]; [injection Hj as <-; do 4 (destruct k as [|k]; [injection Hk as <-; first [done|left; by vm_compute|right; by vm_compute]|]); lia|]). lia.
Qed.

(** ** Witnesses *)

Definition demo_ops : list confop :=
  [OGet (bytes_of "IPL.LNG") [9; 9]; OSet (bytes_of "IPL.IDL") [5; 6]; OSet (bytes_of "IPL.LNG") [1; 2];
   OGet (bytes_of "IPL.IDL") [0; 0]; OLength (bytes_of "IPL.PC"); OGet (bytes_of "IPL.XX") []].

Lemma conf_refines_entries_witness :
  exists s', run_ops demo_ops demo_conf = Ok ([(1, [1; 0]); (2, []); (CONF_EBADVALUE, []); (2, [5; 6]); (0x4A, []); (CONF_ENOENT, [])], s').
Proof.
  destruct (conf_refines_entries demo_ops demo_conf demo_entries demo_repr) as (s' & E & _). exists s'. exact E.
Defined.

Lemma conf_types_stable_witness :
  exists rs s' t n, run_ops demo_ops demo_conf = Ok (rs, s') /\
    CONF_GetType (bytes_of "IPL.IDL") demo_conf = Ok (t, demo_conf) /\ CONF_GetLength (bytes_of "IPL.IDL") demo_conf = Ok (n, demo_conf) /\
    CONF_GetType (bytes_of "IPL.IDL") s' = Ok (t, s') /\ CONF_GetLength (bytes_of "IPL.IDL") s' = Ok (n, s') /\
    (t = CONF_ENOENT /\ n = CONF_ENOENT \/ val_ok t n).
Proof. exact (conf_types_stable demo_ops demo_conf demo_entries (bytes_of "IPL.IDL") demo_repr). Defined.

(** A file system that holds the image and the encrypted text. *)
#[local] Instance demo_files : IosFiles := {|
  ios_open := fun _ => 3;
  ios_read := fun cs => match rev cs with
    | IosRead _ len :: _ => if len =? CONF_FILE_SIZE then (len, demo_image) else (len, decrypt_loop 0x73B5DBFA demo_text)
    | _ => (-1, []) end;
  ios_write := fun _ => CONF_FILE_SIZE |}.

Lemma demo_serves : serves demo_image (decrypt_loop 0x73B5DBFA demo_text).
Proof. split; [done|]. split; intros cs fd; cbn [ios_read demo_files]; by rewrite rev_app_distr. Qed.

Lemma demo_clean : Forall clean demo_lines.
Proof. unfold clean. repeat constructor; cbn; discriminate. Qed.

Lemma conf_text_roundtrip_witness :
  exists s', (CONF_Init;; CONF_GetTxt (bytes_of "VIDEO") [9; 9; 9; 9; 9] 5) (mk_conf false [] [] false []) =
    Ok ((3, bytes_of "PAL" ++ [0; 9]), s') /\ cf_buffer s' = demo_image.
Proof.
  apply (conf_text_roundtrip demo_image demo_lines (256 - List.length (render demo_lines)) (mk_conf false [] [] false []) (bytes_of "VIDEO") [9; 9; 9; 9; 9]).
  - exact demo_clean.
  - by vm_compute.
  - exact demo_serves.
  - done.
  - by vm_compute.
  - by vm_compute.
Defined.

(** ** A finding: the parental control settings cannot be read *)

(** The functions expect the length 1 for an array of 0x4A bytes. *)
Lemma parental_password_fails s es e buf password :
  conf_repr s es -> lookup_name (bytes_of "IPL.PC") es = Some e -> zlen (en_val e) = 0x4A -> zlen buf = 0x4A ->
  CONF_GetParentalPassword buf password s = Ok ((CONF_EBADVALUE, password), s) /\
  CONF_GetParentalAnswer buf password s = Ok ((CONF_EBADVALUE, password), s).
Proof.
  intros Hr He Hv Hb. pose proof (get_spec s es Hr (bytes_of "IPL.PC") buf) as H. cbn [spec_op fst] in H. rewrite He, Hv, Hb in H.
  unfold wp in H. unfold CONF_GetParentalPassword, CONF_GetParentalAnswer, bind. change (0x4A <? 0x4A) with false in H.
  destruct (CONF_Get (bytes_of "IPL.PC") buf 0x4A s) as [ [r s']|]; [|done]. destruct H as [-> ->]. done.
Qed.

Lemma parental_password_demo password :
  CONF_GetParentalPassword (repeat 0 0x4A) password demo_conf = Ok ((CONF_EBADVALUE, password), demo_conf).
Proof. apply (parental_password_fails demo_conf demo_entries (mk_entry 36 CONF_SMALLARRAY (bytes_of "IPL.PC") (repeat 7 0x4A))); [apply demo_repr|done..]. Qed.
