(* ===== verification/DspDev.v ===== *)
(** * The registers of the signal processor ([libogc/dsp.c])

    The mailboxes and the control register of the signal processor, with the
    functions of dsp.c that only touch them. The same block of registers moves
    data to and from the ARAM ([Aram]).

    Every access is logged. What the hardware makes of a write to the control
    register and what any register contains when it is read are the parameters
    [cr_write] and [dsp_read]; the latter depends on all accesses so far, and for
    the control register on the value it holds, whose mask bits belong to the
    interrupt controller ([dsp5] of [irqregs]). *)

From stdpp Require Import base gmap list.
From Stdlib Require Import ZArith Lia.
From S2P Require Import Prelude Devices KState Clock Irq.

Open Scope Z_scope.

Definition DSPCR_DSPRESET : Z := 0x0800.
Definition DSPCR_DSPDMA : Z := 0x0200.
Definition DSPCR_DSPINTMSK : Z := 0x0100.
Definition DSPCR_DSPINT : Z := 0x0080.
Definition DSPCR_ARINTMSK : Z := 0x0040.
Definition DSPCR_ARINT : Z := 0x0020.
Definition DSPCR_AIINTMSK : Z := 0x0010.
Definition DSPCR_AIINT : Z := 0x0008.
Definition DSPCR_HALT : Z := 0x0004.
Definition DSPCR_PIINT : Z := 0x0002.
Definition DSPCR_RES : Z := 0x0001.

Class DspHw := {
  cr_write : Z -> Z -> Z;                    (* old value, value written *)
  cr_read : list regev -> Z -> Z;            (* accesses so far, value held *)
  dsp_read : list regev -> Z -> Z;           (* accesses so far, register *)
}.

(** The interrupt controller, which has the control register, and the log. *)
Record dspdev := mk_dspdev { dv_irq : irqst; dv_log : list regev }.

Definition dv_regs (d : dspdev) : irqregs := ir_regs (dv_irq d).
Definition set_dsp5 (v : Z) (r : irqregs) : irqregs :=
  mk_regs (pi0 r) (pi1 r) (mi14 r) (mi15 r) v (ai0 r) (exi0 r) (exi5 r) (exi10 r).
Definition set_dvregs (r : irqregs) (d : dspdev) : dspdev :=
  mk_dspdev (mk_irqst r (ir_fn (dv_irq d)) (ir_user (dv_irq d))) (dv_log d).

(** [_SHIFTR] and [_SHIFTL] of gcutil.h. *)
Definition SHIFTR (v s w : Z) : Z := Z.land (Z.shiftr v s) (Z.shiftl 1 w - 1).
Definition SHIFTL (v s w : Z) : Z := u32 (Z.shiftl (Z.land v (Z.shiftl 1 w - 1)) s).

Section DspDev.
Context `{DspHw}.

(** [_dspReg[r]], 16 bits wide. *)
Definition dsp_rd (r : Z) : M dspdev Z := fun d =>
  let v := u16 (if r =? 5 then cr_read (dv_log d) (dsp5 (dv_regs d)) else dsp_read (dv_log d) r) in
  Ok (v, mk_dspdev (dv_irq d) (dv_log d ++ [RdReg r v])).
Definition dsp_wr (r v : Z) : M dspdev unit := fun d =>
  let v := u16 v in
  let d := if r =? 5 then set_dvregs (set_dsp5 (cr_write (dsp5 (dv_regs d)) v) (dv_regs d)) d else d in
  Ok (tt, mk_dspdev (dv_irq d) (dv_log d ++ [WrReg r v])).
(** [_dspReg[r] = (_dspReg[r]&~clr)|set] *)
Definition dsp_mod (r clr set : Z) : M dspdev unit :=
  v <- dsp_rd r; dsp_wr r (Z.lor (Z.ldiff v clr) set).

(** [IRQ_Request] and [__UnmaskIrq] of gc/ogc/irq.h. *)
Definition IRQ_Request (nIrq pHndl pCtx : Z) : M dspdev Z := fun d =>
  let '(old, irq) := KIrqSet (dv_irq d) nIrq pHndl pCtx in Ok (old, mk_dspdev irq (dv_log d)).
Definition UnmaskIrq (con : console) (nMask : Z) : M dspdev unit :=
  modify (fun d => set_dvregs (KIrqEnable con nMask (dv_regs d)) d).

(** ** Mailboxes *)

Definition DSP_CheckMailTo : M dspdev Z := v <- dsp_rd 0; ret (SHIFTR v 15 1).
Definition DSP_CheckMailFrom : M dspdev Z := v <- dsp_rd 2; ret (SHIFTR v 15 1).
Definition DSP_ReadMailFrom : M dspdev Z :=
  v2 <- dsp_rd 2; v3 <- dsp_rd 3; ret (Z.lor (SHIFTL v2 16 16) (Z.land v3 0xffff)).
Definition DSP_SendMailTo (mail : Z) : M dspdev unit :=
  dsp_wr 0 (SHIFTR mail 16 16);; dsp_wr 1 (Z.land mail 0xffff).
Definition DSP_ReadCPUtoDSP : M dspdev Z :=
  v0 <- dsp_rd 0; v1 <- dsp_rd 1; ret (Z.lor (SHIFTL v0 16 16) (Z.land v1 0xffff)).

(** ** The control register *)

Definition ANYINT : Z := Z.lor DSPCR_AIINT (Z.lor DSPCR_ARINT DSPCR_DSPINT).
Definition DSP_AssertInt : M dspdev unit := dsp_mod 5 ANYINT DSPCR_PIINT.
Definition DSP_Reset : M dspdev unit := dsp_mod 5 ANYINT (Z.lor DSPCR_DSPRESET DSPCR_RES).
Definition DSP_Halt : M dspdev unit := dsp_mod 5 ANYINT DSPCR_HALT.
Definition DSP_Unhalt : M dspdev unit := dsp_mod 5 (Z.lor ANYINT DSPCR_HALT) 0.
Definition DSP_GetDMAStatus : M dspdev Z := v <- dsp_rd 5; ret (Z.land v DSPCR_DSPDMA).

(** ** Waiting

    [while(DSP_CheckMailTo());] and [while(!DSP_CheckMailFrom());] for at most
    [polls] readings. *)

Fixpoint mailto_loop (polls : nat) : M dspdev unit :=
  match polls with
  | O => fail OutOfFuel
  | S k => b <- DSP_CheckMailTo; if negb (b =? 0) then mailto_loop k else ret tt
  end.
Fixpoint mailfrom_loop (polls : nat) : M dspdev unit :=
  match polls with
  | O => fail OutOfFuel
  | S k => b <- DSP_CheckMailFrom; if b =? 0 then mailfrom_loop k else ret tt
  end.

Definition send_wait (polls : nat) (mail : Z) : M dspdev unit := DSP_SendMailTo mail;; mailto_loop polls.

(** A list of mails, each sent when the one before was taken. *)
Fixpoint send_all (polls : nat) (l : list Z) : M dspdev unit :=
  match l with [] => ret tt | m :: r => send_wait polls m;; send_all polls r end.

(** ** What the log says

    The mails sent: a write of the low half completes a mail with the high half
    written last. *)

Definition hi_step (hi : Z) (e : regev) : Z := match e with WrReg r v => if r =? 0 then v else hi | _ => hi end.
Definition high_half (hi : Z) (l : list regev) : Z := fold_left hi_step l hi.
Fixpoint sent_from (hi : Z) (l : list regev) : list Z :=
  match l with
  | [] => []
  | e :: l =>
      match e with WrReg r v => if r =? 1 then [Z.lor (Z.shiftl hi 16) v] else [] | _ => [] end
      ++ sent_from (hi_step hi e) l
  end.
Definition sent (l : list regev) : list Z := sent_from 0 l.

(** The log after the two kinds of waiting, if they end. *)
Fixpoint poll_to (polls : nat) (l : list regev) : option (list regev) :=
  match polls with
  | O => None
  | S k => let v := u16 (dsp_read l 0) in
           let l' := l ++ [RdReg 0 v] in
           if negb (SHIFTR v 15 1 =? 0) then poll_to k l' else Some l'
  end.
Fixpoint poll_from (polls : nat) (l : list regev) : option (list regev) :=
  match polls with
  | O => None
  | S k => let v := u16 (dsp_read l 2) in
           let l' := l ++ [RdReg 2 v] in
           if SHIFTR v 15 1 =? 0 then poll_from k l' else Some l'
  end.

(** The signal processor takes every mail within [polls] readings. *)
Definition takes_mail (polls : nat) : Prop := forall l, is_Some (poll_to polls l).

(** The mail it delivers next, if it delivers one within [polls] readings. *)
Definition next_mail (polls : nat) (l : list regev) : option Z :=
  match poll_from polls l with
  | Some l1 =>
      let v2 := u16 (dsp_read l1 2) in
      let l2 := l1 ++ [RdReg 2 v2] in
      Some (Z.lor (SHIFTL v2 16 16) (Z.land (u16 (dsp_read l2 3)) 0xffff))
  | None => None
  end.

Lemma sent_from_app hi l1 l2 : sent_from hi (l1 ++ l2) = sent_from hi l1 ++ sent_from (high_half hi l1) l2.
Proof. revert hi. induction l1 as [|e l1 IH]; intros hi; [done|]. cbn [sent_from app]. by rewrite IH, <- app_assoc. Qed.

(** Readings send nothing. *)
Definition only_reads (l : list regev) : Prop := Forall (fun e => match e with RdReg _ _ => True | _ => False end) l.

Lemma sent_reads hi l : only_reads l -> sent_from hi l = [] /\ high_half hi l = hi.
Proof. induction 1 as [|e l He _ IH]; [done|]. destruct e; [|done]. exact IH. Qed.

Lemma sent_app_reads l l' : only_reads l' -> sent (l ++ l') = sent l.
Proof. intros Hr. unfold sent. rewrite sent_from_app, (proj1 (sent_reads _ _ Hr)). apply app_nil_r. Qed.

Lemma poll_to_reads polls l l' : poll_to polls l = Some l' -> exists r, l' = l ++ r /\ only_reads r.
Proof.
  revert l. induction polls as [|k IH]; intros l; cbn [poll_to]; [done|].
  destruct (negb _); [|intros [= <-]; eexists; split; [done|by repeat constructor] ].
  intros (r & -> & Hr)%IH. exists (RdReg 0 (u16 (dsp_read l 0)) :: r). rewrite <- app_assoc. split; [done|by constructor].
Qed.

Lemma poll_from_reads polls l l' : poll_from polls l = Some l' -> exists r, l' = l ++ r /\ only_reads r.
Proof.
  revert l. induction polls as [|k IH]; intros l; cbn [poll_from]; [done|].
  destruct (_ =? 0); [|intros [= <-]; eexists; split; [done|by repeat constructor] ].
  intros (r & -> & Hr)%IH. exists (RdReg 2 (u16 (dsp_read l 2)) :: r). rewrite <- app_assoc. split; [done|by constructor].
Qed.

(** The loops follow the log. *)
Lemma mailto_loop_ok polls d l' :
  poll_to polls (dv_log d) = Some l' -> mailto_loop polls d = Ok (tt, mk_dspdev (dv_irq d) l').
Proof.
  revert d. induction polls as [|k IH]; intros d; cbn [poll_to mailto_loop]; [done|].
  unfold DSP_CheckMailTo, bind, dsp_rd, ret at 1. cbn [Z.eqb dv_log dv_irq].
  destruct (negb _); [|by intros [= <-] ]. intros E. by rewrite IH.
Qed.

Lemma mailfrom_loop_ok polls d l' :
  poll_from polls (dv_log d) = Some l' -> mailfrom_loop polls d = Ok (tt, mk_dspdev (dv_irq d) l').
Proof.
  revert d. induction polls as [|k IH]; intros d; cbn [poll_from mailfrom_loop]; [done|].
  unfold DSP_CheckMailFrom, bind, dsp_rd, ret at 1. cbn [Z.eqb dv_log dv_irq].
  destruct (_ =? 0); [|by intros [= <-] ]. intros E. by rewrite IH.
Qed.

(** Reading a mail takes what the signal processor delivers next. *)
Lemma read_mail_ok polls d m :
  next_mail polls (dv_log d) = Some m ->
  exists r, only_reads r /\ (mailfrom_loop polls;; DSP_ReadMailFrom) d = Ok (m, mk_dspdev (dv_irq d) (dv_log d ++ r)).
Proof.
  unfold next_mail. destruct (poll_from polls (dv_log d)) as [l1|] eqn:E; [|done]. intros [= <-].
  destruct (poll_from_reads _ _ _ E) as (r & -> & Hr). unfold bind at 1. rewrite (mailfrom_loop_ok _ _ _ E).
  set (v2 := u16 (dsp_read (dv_log d ++ r) 2)).
  exists (r ++ [RdReg 2 v2] ++ [RdReg 3 (u16 (dsp_read ((dv_log d ++ r) ++ [RdReg 2 v2]) 3))]).
  split; [apply Forall_app; split; [done|by repeat constructor]|].
  unfold DSP_ReadMailFrom, bind, dsp_rd, ret. cbn [Z.eqb dv_log dv_irq]. by rewrite <- !app_assoc.
Qed.

(** A 32-bit word from its halves. *)
Lemma halves m : 0 <= m < 2 ^ 32 -> Z.lor (Z.shiftl (u16 (SHIFTR m 16 16)) 16) (u16 (Z.land m 0xffff)) = m.
Proof.
  intros Hm. unfold SHIFTR, wrap. change (Z.shiftl 1 16 - 1) with (Z.ones 16). change 0xffff with (Z.ones 16).
  rewrite !Z.land_ones by lia. rewrite !Z.mod_mod by lia. apply Z.bits_inj'. intros n Hn. rewrite Z.lor_spec.
  destruct (Z_lt_le_dec n 16).
  - by rewrite Z.shiftl_spec_low, Z.mod_pow2_bits_low by lia.
  - rewrite Z.shiftl_spec, (Z.mod_pow2_bits_high m) by lia. rewrite orb_false_r. destruct (Z_lt_le_dec n 32).
    + rewrite Z.mod_pow2_bits_low, Z.shiftr_spec by lia. f_equal. lia.
    + rewrite Z.mod_pow2_bits_high by lia. rewrite <- (Z.mod_small m (2 ^ 32)), Z.mod_pow2_bits_high by lia. done.
Qed.

Definition is_mail (m : Z) : Prop := 0 <= m < 2 ^ 32.

Lemma send_run m d :
  DSP_SendMailTo m d =
  Ok (tt, mk_dspdev (dv_irq d) (dv_log d ++ [WrReg 0 (u16 (SHIFTR m 16 16)); WrReg 1 (u16 (Z.land m 0xffff))])).
Proof.
  unfold DSP_SendMailTo, bind, dsp_wr. change (0 =? 5) with false. change (1 =? 5) with false.
  cbv iota. cbn [dv_log dv_irq]. by rewrite <- app_assoc.
Qed.

Lemma send_wait_ok polls d m :
  takes_mail polls -> is_mail m ->
  exists l, send_wait polls m d = Ok (tt, mk_dspdev (dv_irq d) (dv_log d ++ l)) /\
    (forall hi, sent_from hi l = [m]).
Proof.
  intros Ht Hm. unfold send_wait, bind. rewrite send_run.
  set (w := [WrReg 0 _; WrReg 1 _]). destruct (Ht (dv_log d ++ w)) as [l' El].
  rewrite (mailto_loop_ok polls (mk_dspdev (dv_irq d) (dv_log d ++ w)) l' El). destruct (poll_to_reads _ _ _ El) as (r & -> & Hr).
  exists (w ++ r). rewrite app_assoc. split; [done|]. intros hi. cbn [sent_from app Z.eqb hi_step w].
  rewrite (proj1 (sent_reads _ r Hr)). by rewrite (halves m Hm).
Qed.

Lemma send_all_ok polls ms d :
  takes_mail polls -> Forall is_mail ms ->
  exists l, send_all polls ms d = Ok (tt, mk_dspdev (dv_irq d) (dv_log d ++ l)) /\ (forall hi, sent_from hi l = ms).
Proof.
  intros Ht. revert d. induction ms as [|m ms IH]; intros d Hm.
  - exists []. rewrite app_nil_r. by destruct d.
  - apply Forall_cons in Hm as [Hm Hms]. cbn [send_all]. unfold bind.
    destruct (send_wait_ok polls d m Ht Hm) as (l1 & -> & Hs1).
    destruct (IH (mk_dspdev (dv_irq d) (dv_log d ++ l1)) Hms) as (l2 & -> & Hs2). cbn [dv_log dv_irq].
    exists (l1 ++ l2). rewrite app_assoc. split; [done|]. intros hi. by rewrite sent_from_app, Hs1, Hs2.
Qed.
End DspDev.
