(* ===== verification/Dsp.v ===== *)
(** * Tasks of the signal processor ([libogc/dsp.c], [gc/ogc/dsp.h])

    Clients queue tasks for the signal processor by priority. The processor
    reports by mail when the current task has started, yields, is finished or
    wants something; the driver answers which task runs next. Callbacks of the
    tasks and a client's interrupt callback are the parameter [call]. Operations
    that switch interrupts off are steps of their own. *)

From stdpp Require Import base gmap list.
From Stdlib Require Import ZArith Lia.
From S2P Require Import Prelude Devices KState Clock Irq DspDev.

Open Scope Z_scope.

Definition DSPTASK_INIT : Z := 0.
Definition DSPTASK_RUN : Z := 1.
Definition DSPTASK_YIELD : Z := 2.
Definition DSPTASK_DONE : Z := 3.
Definition DSPTASK_CLEARALL : Z := 0.
Definition DSPTASK_ATTACH : Z := 1.
Definition DSPTASK_CANCEL : Z := 2.

(** [struct _dsp_task]; the callbacks are code addresses. *)
Record dsptask := mk_task {
  t_state : Z; t_prio : Z; t_flags : Z;
  t_iram_maddr : Z; t_iram_len : Z; t_iram_addr : Z; t_dram_maddr : Z; t_dram_len : Z; t_dram_addr : Z;
  t_init_vec : Z; t_resume_vec : Z; t_init_cb : Z; t_res_cb : Z; t_done_cb : Z; t_req_cb : Z;
  t_next : Z; t_prev : Z }.

Definition set_tlinks (next prev : Z) (t : dsptask) : dsptask :=
  mk_task (t_state t) (t_prio t) (t_flags t) (t_iram_maddr t) (t_iram_len t) (t_iram_addr t) (t_dram_maddr t) (t_dram_len t)
    (t_dram_addr t) (t_init_vec t) (t_resume_vec t) (t_init_cb t) (t_res_cb t) (t_done_cb t) (t_req_cb t) next prev.
Definition set_tstatus (state flags : Z) (t : dsptask) : dsptask :=
  mk_task state (t_prio t) flags (t_iram_maddr t) (t_iram_len t) (t_iram_addr t) (t_dram_maddr t) (t_dram_len t)
    (t_dram_addr t) (t_init_vec t) (t_resume_vec t) (t_init_cb t) (t_res_cb t) (t_done_cb t) (t_req_cb t) (t_next t) (t_prev t).
Definition set_tnext (x : Z) (t : dsptask) : dsptask := set_tlinks x (t_prev t) t.
Definition set_tprev (x : Z) (t : dsptask) : dsptask := set_tlinks (t_next t) x t.
Definition set_tstate (x : Z) (t : dsptask) : dsptask := set_tstatus x (t_flags t) t.
Definition set_tflags (x : Z) (t : dsptask) : dsptask := set_tstatus (t_state t) x t.

(** The variables of dsp.c ([tmp_task] is set to [NULL] and never read), the
    tasks by address, and the registers. *)
Record dspst := mk_dsp {
  d_inited : Z; d_rudetask_pend : Z; d_intcb : Z;
  d_currtask : Z; d_lasttask : Z; d_firsttask : Z; d_rudetask : Z;
  d_tasks : gmap Z dsptask; d_dev : dspdev }.

Definition set_list (curr last first : Z) (s : dspst) : dspst :=
  mk_dsp (d_inited s) (d_rudetask_pend s) (d_intcb s) curr last first (d_rudetask s) (d_tasks s) (d_dev s).
Definition set_curr (x : Z) (s : dspst) : dspst := set_list x (d_lasttask s) (d_firsttask s) s.
Definition set_last (x : Z) (s : dspst) : dspst := set_list (d_currtask s) x (d_firsttask s) s.
Definition set_first (x : Z) (s : dspst) : dspst := set_list (d_currtask s) (d_lasttask s) x s.
Definition set_rude (task pend : Z) (s : dspst) : dspst :=
  mk_dsp (d_inited s) pend (d_intcb s) (d_currtask s) (d_lasttask s) (d_firsttask s) task (d_tasks s) (d_dev s).
Definition set_intcb (inited cb : Z) (s : dspst) : dspst :=
  mk_dsp inited (d_rudetask_pend s) cb (d_currtask s) (d_lasttask s) (d_firsttask s) (d_rudetask s) (d_tasks s) (d_dev s).
Definition set_tasks (x : gmap Z dsptask) (s : dspst) : dspst :=
  mk_dsp (d_inited s) (d_rudetask_pend s) (d_intcb s) (d_currtask s) (d_lasttask s) (d_firsttask s) (d_rudetask s) x (d_dev s).
Definition set_dev (x : dspdev) (s : dspst) : dspst :=
  mk_dsp (d_inited s) (d_rudetask_pend s) (d_intcb s) (d_currtask s) (d_lasttask s) (d_firsttask s) (d_rudetask s) (d_tasks s) x.

Definition dsp_boot (tasks : gmap Z dsptask) (dev : dspdev) : dspst := mk_dsp 0 0 NULL NULL NULL NULL NULL tasks dev.

Definition on_dev {A} (c : M dspdev A) : M dspst A :=
  fun s => match c (d_dev s) with Ok (a, d) => Ok (a, set_dev d s) | Fault f => Fault f end.

(** A field of a task. *)
Definition t_get {A} (f : dsptask -> A) (t : Z) : M dspst A := getopt (fun s => f <$> d_tasks s !! t).
Definition t_upd (t : Z) (g : dsptask -> dsptask) : M dspst unit :=
  fun s => match d_tasks s !! t with
           | Some x => Ok (tt, set_tasks (<[t := g x]> (d_tasks s)) s)
           | None => Fault BadAccess
           end.

(** ** The task list *)

(** The search of [__dsp_inserttask]: the task it was inserted before, or [NULL]. *)
Fixpoint insert_loop (fuel : nat) (task t : Z) : M dspst Z :=
  match fuel with
  | O => fail OutOfFuel
  | S k =>
      if t =? NULL then ret NULL else
      p <- t_get t_prio task; q <- t_get t_prio t;
      if p <? q then
        tp <- t_get t_prev t; t_upd task (set_tprev tp);;
        t_upd t (set_tprev task);;
        t_upd task (set_tnext t);;
        tp <- t_get t_prev task;
        (if tp =? NULL then modify (set_first task) else t_upd tp (set_tnext task));;
        ret t
      else
        n <- t_get t_next t; insert_loop k task n
  end.

(** As many steps as there are tasks in memory, and one. *)
Definition task_walk (s : dspst) : nat := S (size (d_tasks s)).

Definition dsp_inserttask (task : Z) : M dspst unit :=
  first <- gets d_firsttask;
  if first =? NULL then
    modify (set_list task task task);;
    t_upd task (set_tnext NULL);; t_upd task (set_tprev NULL)
  else
    fuel <- gets task_walk;
    t <- insert_loop fuel task first;
    if negb (t =? NULL) then ret tt else
    last <- gets d_lasttask;
    t_upd last (set_tnext task);;
    t_upd task (set_tnext NULL);;
    last <- gets d_lasttask; t_upd task (set_tprev last);;
    modify (set_last task).

(** The part of [__dsp_removetask] that changes links. *)
Definition dsp_unlink (task : Z) : M dspst unit :=
  first <- gets d_firsttask;
  if first =? task then
    n <- t_get t_next task;
    if negb (n =? NULL) then
      modify (set_first n);; t_upd n (set_tprev NULL)
    else
      modify (set_list NULL NULL NULL)
  else
    last <- gets d_lasttask;
    if last =? task then
      p <- t_get t_prev task;
      modify (set_last p);; t_upd p (set_tnext NULL);;
      modify (set_curr first)
    else
      n <- t_get t_next task;
      modify (set_curr n);;
      p <- t_get t_prev task; t_upd p (set_tnext n);;
      n <- t_get t_next task; p <- t_get t_prev task; t_upd n (set_tprev p).

Definition dsp_removetask (task : Z) : M dspst unit :=
  t_upd task (set_tflags DSPTASK_CLEARALL);;
  t_upd task (set_tstate DSPTASK_DONE);;
  dsp_unlink task.

Section Dsp.
Context `{DspHw}.
Context (con : console).
(** The readings of a mailbox the model allows for while waiting. *)
Context (polls : nat).
(** A callback of a client, by its address, with its argument. *)
Context (call : Z -> Z -> M dspst unit).

(** [DSP_SendMailTo(x); while(DSP_CheckMailTo());] *)
Definition send (mail : Z) : M dspst unit := on_dev (send_wait polls mail).
Definition send_field (f : dsptask -> Z) (t : Z) : M dspst unit := v <- t_get f t; send v.

Definition dsp_boottask (task : Z) : M dspst unit :=
  on_dev (mailfrom_loop polls;; DSP_ReadMailFrom);;
  send 0x80F3A001;; send_field t_iram_maddr task;;
  send 0x80F3C002;; send_field (fun t => Z.land (t_iram_addr t) 0xffff) task;;
  send 0x80F3A002;; send_field t_iram_len task;;
  send 0x80F3B002;; send 0;;
  send 0x80F3D001;; send_field t_init_vec task.

Definition dsp_exectask (exec hire : Z) : M dspst unit :=
  (if exec =? NULL then send 0;; send 0;; send 0
   else send_field t_dram_maddr exec;; send_field t_dram_len exec;; send_field t_dram_addr exec);;
  send_field t_iram_maddr hire;; send_field t_iram_len hire;; send_field t_iram_addr hire;;
  st <- t_get t_state hire;
  if st =? DSPTASK_INIT then
    send_field t_init_vec hire;; send 0;; send 0;; send 0
  else
    send_field t_resume_vec hire;;
    send_field t_dram_maddr hire;; send_field t_dram_len hire;; send_field t_dram_addr hire.

(** [if(cb) cb(task);] *)
Definition call_task (f : dsptask -> Z) (task : Z) : M dspst unit :=
  cb <- t_get f task; when (negb (cb =? NULL)) (call cb task).

(** The end of a switch to another task. *)
Definition yield_to (hire : Z) : M dspst unit :=
  send 0xCDD10001;;
  curr <- gets d_currtask; dsp_exectask curr hire;;
  curr <- gets d_currtask; t_upd curr (set_tstate DSPTASK_YIELD);;
  modify (set_curr hire).

(** [case 0xDCD10002]: the current task can be switched out. *)
Definition mail_yield : M dspst unit :=
  curr <- gets d_currtask;
  pend <- gets d_rudetask_pend;
  if pend =? C_TRUE then
    rude <- gets d_rudetask;
    if rude =? curr then
      send 0xCDD10003;;
      modify (set_rude NULL C_FALSE);;
      curr <- gets d_currtask; call_task t_res_cb curr
    else
      yield_to rude;;
      modify (set_rude NULL C_FALSE)
  else
    n <- t_get t_next curr;
    if n =? NULL then
      first <- gets d_firsttask;
      if first =? curr then
        send 0xCDD10003;;
        curr <- gets d_currtask; call_task t_res_cb curr
      else yield_to first
    else yield_to n.

(** [case 0xDCD10003]: the current task is finished. *)
Definition mail_done : M dspst unit :=
  curr <- gets d_currtask;
  pend <- gets d_rudetask_pend;
  if pend =? C_TRUE then
    call_task t_done_cb curr;;
    send 0xCDD10001;;
    rude <- gets d_rudetask; dsp_exectask NULL rude;;
    curr <- gets d_currtask; dsp_removetask curr;;
    rude <- gets d_rudetask;
    modify (set_curr rude);; modify (set_rude NULL C_FALSE)
  else
    n <- t_get t_next curr;
    if n =? NULL then
      first <- gets d_firsttask;
      if first =? curr then
        call_task t_done_cb curr;;
        send 0xCDD10002;;
        curr <- gets d_currtask; t_upd curr (set_tstate DSPTASK_DONE);;
        dsp_removetask curr
      else
        call_task t_done_cb curr;;
        send 0xCDD10001;;
        curr <- gets d_currtask; t_upd curr (set_tstate DSPTASK_DONE);;
        first <- gets d_firsttask; dsp_exectask NULL first;;
        modify (set_curr first);;
        last <- gets d_lasttask; dsp_removetask last
    else
      call_task t_done_cb curr;;
      send 0xCDD10001;;
      curr <- gets d_currtask; t_upd curr (set_tstate DSPTASK_DONE);;
      n <- t_get t_next curr; dsp_exectask NULL n;;
      n <- t_get t_next curr; modify (set_curr n);;
      p <- t_get t_prev n; dsp_removetask p.

(** A task that was cancelled is finished when it yields. *)
Definition cancelled_mail (flags mail : Z) : Z :=
  if negb (Z.land flags DSPTASK_CANCEL =? 0) && (mail =? 0xDCD10002) then 0xDCD10003 else mail.

Definition dsp_def_taskcb : M dspst unit :=
  mail <- on_dev (mailfrom_loop polls;; DSP_ReadMailFrom);
  curr <- gets d_currtask;
  flags <- t_get t_flags curr;
  let mail := cancelled_mail flags mail in
  if mail =? 0xDCD10000 then t_upd curr (set_tstate DSPTASK_RUN);; call_task t_init_cb curr
  else if mail =? 0xDCD10001 then t_upd curr (set_tstate DSPTASK_RUN);; call_task t_res_cb curr
  else if mail =? 0xDCD10002 then mail_yield
  else if mail =? 0xDCD10003 then mail_done
  else if mail =? 0xDCD10004 then call_task t_req_cb curr
  else ret tt.

(** The address of [__dsp_def_taskcb], which is an interrupt callback as those
    of clients. *)
Definition fn_dsp_def_taskcb : Z := 0x40.
Definition fn_dsp_inthandler : Z := 0x44.

Definition dsp_inthandler : M dspst unit :=
  on_dev (dsp_mod 5 (Z.lor DSPCR_AIINT DSPCR_ARINT) DSPCR_DSPINT);;
  cb <- gets d_intcb;
  if cb =? NULL then ret tt
  else if cb =? fn_dsp_def_taskcb then dsp_def_taskcb
  else call cb NULL.

(** ** The interface *)

Definition DSP_Init : M dspst unit :=
  ini <- gets d_inited;
  when (ini =? C_FALSE)
    (modify (set_intcb ini fn_dsp_def_taskcb);;
     on_dev (IRQ_Request IRQ_DSP_DSP fn_dsp_inthandler NULL);;
     on_dev (UnmaskIrq con (IRQMASK IRQ_DSP_DSP));;
     on_dev (dsp_mod 5 ANYINT DSPCR_DSPRESET);;
     on_dev (dsp_mod 5 (Z.lor DSPCR_HALT ANYINT) 0);;
     modify (set_list NULL NULL NULL);;
     cb <- gets d_intcb; modify (set_intcb C_TRUE cb)).

Definition DSP_RegisterCallback (usr_cb : Z) : M dspst Z :=
  old <- gets d_intcb;
  ini <- gets d_inited;
  modify (set_intcb ini (if negb (usr_cb =? NULL) then usr_cb else fn_dsp_def_taskcb));;
  ret old.

Definition DSP_AddTask (task : Z) : M dspst Z :=
  dsp_inserttask task;;
  t_upd task (set_tstate DSPTASK_INIT);;
  t_upd task (set_tflags DSPTASK_ATTACH);;
  first <- gets d_firsttask;
  when (first =? task) (dsp_boottask task);;
  ret task.

Definition DSP_CancelTask (task : Z) : M dspst unit :=
  t_upd task (fun t => set_tflags (Z.lor (t_flags t) DSPTASK_CANCEL) t).

Definition DSP_AssertTask (task : Z) : M dspst Z :=
  curr <- gets d_currtask;
  if task =? curr then modify (set_rude task C_TRUE);; ret task
  else
    p <- t_get t_prio task; q <- t_get t_prio curr;
    if p <? q then
      modify (set_rude task C_TRUE);;
      st <- t_get t_state curr;
      when (st =? DSPTASK_RUN) (on_dev (dsp_mod 5 ANYINT DSPCR_PIINT));;
      ret task
    else ret NULL.
End Dsp.
