(* ===== verification/DspProofs.v ===== *)
(** * Tasks of the signal processor: specification and refinement

    The task list as an abstract machine: the tasks in the order of their
    priority, the one that runs, the one that was pushed in front, and what the
    driver answers to each mail. [dsp_def_taskcb], [DSP_AddTask] and
    [DSP_AssertTask] implement it. *)

From stdpp Require Import base gmap list.
From Stdlib Require Import ZArith Lia Sorted.
From S2P Require Import Prelude Devices KState Clock Irq DspDev Dsp.

Open Scope Z_scope.

(** ** Doubly linked task lists *)

(** The tasks [ts] between a task [p] before and a task [n] behind them. *)
Fixpoint dseg (T : gmap Z dsptask) (p : Z) (ts : list Z) (n : Z) : Prop :=
  match ts with
  | [] => True
  | t :: r => (exists x, T !! t = Some x /\ t_prev x = p /\ t_next x = hd n r) /\ dseg T t r n
  end.

Lemma dseg_split T p l1 l2 n : dseg T p (l1 ++ l2) n <-> dseg T p l1 (hd n l2) /\ dseg T (List.last l1 p) l2 n.
Proof.
  revert p. induction l1 as [|t l1 IH]; intros p; [cbn; tauto|]. cbn [dseg app]. rewrite IH.
  assert (hd n (l1 ++ l2) = hd (hd n l2) l1) as -> by by destruct l1.
  assert (List.last (t :: l1) p = List.last l1 t) as ->.
  { clear. revert t. induction l1 as [|u l1 IH]; intros t; [done|]. change (List.last (t :: u :: l1) p) with (List.last (u :: l1) p).
    rewrite IH. destruct l1; [done|]. change (List.last (u :: z :: l1) t) with (List.last (z :: l1) t). by rewrite <- !IH. }
  tauto.
Qed.

Lemma dseg_insert_ne T p ts n t x : t ∉ ts -> dseg (<[t := x]> T) p ts n <-> dseg T p ts n.
Proof.
  revert p. induction ts as [|u ts IH]; intros p Hn; [done|]. apply not_elem_of_cons in Hn as [Hne Hn]. cbn [dseg].
  rewrite IH by done. by rewrite lookup_insert_ne by done.
Qed.

Lemma dseg_same_links T t x y p ts n :
  T !! t = Some x -> t_prev y = t_prev x -> t_next y = t_next x -> dseg T p ts n -> dseg (<[t := y]> T) p ts n.
Proof.
  intros Hx Hp Hn. revert p. induction ts as [|u ts IH]; intros p; [done|]. intros [(z & Hz & H1 & H2) Hd]. split; [|by apply IH].
  destruct (decide (u = t)) as [->|Hne]; [|exists z; by rewrite lookup_insert_ne]. exists y. rewrite lookup_insert_eq.
  rewrite Hx in Hz. injection Hz as <-. by rewrite Hp, Hn.
Qed.

Lemma dseg_lookup T p ts n t : dseg T p ts n -> t ∈ ts -> exists x, T !! t = Some x.
Proof.
  revert p. induction ts as [|u ts IH]; intros p; [by intros _ ?%elem_of_nil|]. intros [(x & Hx & _) Hd] [->|Hin]%elem_of_cons; eauto.
Qed.

(** The last task, or what is before the list. *)
Lemma dseg_links T p l1 t l2 n :
  dseg T p (l1 ++ t :: l2) n -> exists x, T !! t = Some x /\ t_prev x = List.last l1 p /\ t_next x = hd n l2.
Proof. rewrite dseg_split. by intros [_ [H _] ]. Qed.

(** Changing what is in front of a list, or behind it. *)
Lemma dseg_set_prev T p p' t r n x :
  T !! t = Some x -> t ∉ r -> dseg T p (t :: r) n -> dseg (<[t := set_tprev p' x]> T) p' (t :: r) n.
Proof.
  intros Hx Hn [(y & Hy & _ & Hnx) Hd]. rewrite Hx in Hy. injection Hy as <-. split.
  - eexists. by rewrite lookup_insert_eq.
  - by apply dseg_insert_ne.
Qed.

Lemma dseg_set_next T p l t n n' x :
  T !! t = Some x -> t ∉ l -> dseg T p (l ++ [t]) n -> dseg (<[t := set_tnext n' x]> T) p (l ++ [t]) n'.
Proof.
  intros Hx Hn. rewrite !dseg_split. intros [Hl [(y & Hy & Hp & _) _] ]. rewrite Hx in Hy. injection Hy as <-. split.
  - by apply dseg_insert_ne.
  - split; [|done]. eexists. by rewrite lookup_insert_eq.
Qed.

(** ** What does not change with the links and flags of a task *)

Definition tcore (x : dsptask) : dsptask := set_tflags 0 (set_tlinks 0 0 x).
Definition cores (T : gmap Z dsptask) : gmap Z dsptask := tcore <$> T.

Lemma cores_same T t x g : T !! t = Some x -> tcore (g x) = tcore x -> cores (<[t := g x]> T) = cores T.
Proof. intros Hx Hg. unfold cores. rewrite fmap_insert, Hg, <- (fmap_insert tcore). by rewrite insert_id. Qed.

Lemma cores_state T t x v : cores (<[t := set_tstate v x]> T) = <[t := set_tstate v (tcore x)]> (cores T).
Proof. unfold cores. by rewrite fmap_insert. Qed.

Lemma cores_lookup T t x : T !! t = Some x -> cores T !! t = Some (tcore x).
Proof. intros Hx. unfold cores. by rewrite lookup_fmap, Hx. Qed.

Lemma cores_inv T t y : cores T !! t = Some y -> exists x, T !! t = Some x /\ y = tcore x.
Proof. unfold cores. rewrite lookup_fmap. destruct (T !! t) as [x|]; [|done]. intros [= <-]. eauto. Qed.

(** ** The abstract machine *)

Record dabs := mk_dabs { a_core : gmap Z dsptask; a_ts : list Z; a_cur : Z; a_rude : option Z }.

Definition prio_in (C : gmap Z dsptask) (t : Z) : Z := default 0 (t_prio <$> C !! t).
Definition core_of (C : gmap Z dsptask) (t : Z) : dsptask :=
  default (mk_task 0 0 0 0 0 0 0 0 0 0 0 0 0 0 0 0 0) (C !! t).

(** The place of a new task: behind all of the same or a more urgent priority. *)
Fixpoint insert_prio (C : gmap Z dsptask) (t : Z) (ts : list Z) : list Z :=
  match ts with
  | [] => [t]
  | u :: r => if prio_in C t <? prio_in C u then t :: ts else u :: insert_prio C t r
  end.

(** The task behind [c], in turn. *)
Fixpoint behind (c : Z) (ts : list Z) : list Z :=
  match ts with [] => [] | t :: r => if t =? c then r else behind c r end.
Definition next_task (ts : list Z) (c : Z) : Z := hd (hd NULL ts) (behind c ts).
Definition remove_task (c : Z) (ts : list Z) : list Z := List.filter (fun t => negb (t =? c)) ts.

(** The mails of a switch: where to save the old task, and how to load the new. *)
Definition save_mails (x : option dsptask) : list Z :=
  match x with Some x => [t_dram_maddr x; t_dram_len x; t_dram_addr x] | None => [0; 0; 0] end.
Definition load_mails (x : dsptask) : list Z :=
  [t_iram_maddr x; t_iram_len x; t_iram_addr x] ++
  if t_state x =? DSPTASK_INIT then [t_init_vec x; 0; 0; 0]
  else [t_resume_vec x; t_dram_maddr x; t_dram_len x; t_dram_addr x].
Definition boot_mails (x : dsptask) : list Z :=
  [0x80F3A001; t_iram_maddr x; 0x80F3C002; Z.land (t_iram_addr x) 0xffff; 0x80F3A002; t_iram_len x; 0x80F3B002; 0;
   0x80F3D001; t_init_vec x].

Section Abstract.
(** The mails a callback sends. *)
Context (cbsent : Z -> Z -> list Z).
Definition cb_mails (cb t : Z) : list Z := if cb =? NULL then [] else cbsent cb t.

Definition with_state (a : dabs) (t v : Z) : gmap Z dsptask := <[t := set_tstate v (core_of (a_core a) t)]> (a_core a).

(** The current task is switched out in favour of [n], or goes on. *)
Definition switch_to (a : dabs) (n : Z) : list Z * dabs :=
  let c := core_of (a_core a) (a_cur a) in
  if n =? a_cur a then ([0xCDD10003] ++ cb_mails (t_res_cb c) (a_cur a), mk_dabs (a_core a) (a_ts a) (a_cur a) None)
  else ([0xCDD10001] ++ save_mails (Some c) ++ load_mails (core_of (a_core a) n),
        mk_dabs (with_state a (a_cur a) DSPTASK_YIELD) (a_ts a) n None).

(** The current task leaves the list in favour of [n]. *)
Definition finish_for (a : dabs) (n : Z) : list Z * dabs :=
  let c := core_of (a_core a) (a_cur a) in
  (cb_mails (t_done_cb c) (a_cur a) ++ [0xCDD10001] ++ save_mails None ++ load_mails (core_of (a_core a) n),
   mk_dabs (with_state a (a_cur a) DSPTASK_DONE) (remove_task (a_cur a) (a_ts a)) n None).

Definition task_step (a : dabs) (mail : Z) : list Z * dabs :=
  let c := core_of (a_core a) (a_cur a) in
  let next := default (next_task (a_ts a) (a_cur a)) (a_rude a) in
  if mail =? 0xDCD10000 then
    (cb_mails (t_init_cb c) (a_cur a), mk_dabs (with_state a (a_cur a) DSPTASK_RUN) (a_ts a) (a_cur a) (a_rude a))
  else if mail =? 0xDCD10001 then
    (cb_mails (t_res_cb c) (a_cur a), mk_dabs (with_state a (a_cur a) DSPTASK_RUN) (a_ts a) (a_cur a) (a_rude a))
  else if mail =? 0xDCD10002 then switch_to a next
  else if mail =? 0xDCD10003 then
    if next =? a_cur a then
      (cb_mails (t_done_cb c) (a_cur a) ++ [0xCDD10002], mk_dabs (with_state a (a_cur a) DSPTASK_DONE) [] NULL None)
    else finish_for a next
  else if mail =? 0xDCD10004 then (cb_mails (t_req_cb c) (a_cur a), a)
  else ([], a).

Definition task_add (a : dabs) (t : Z) : list Z * dabs :=
  let C := with_state a t DSPTASK_INIT in
  let ts := insert_prio C t (a_ts a) in
  (if hd NULL ts =? t then boot_mails (core_of C t) else [],
   mk_dabs C ts (if a_ts a is [] then t else a_cur a) (a_rude a)).

Definition task_assert (a : dabs) (t : Z) : Z * dabs :=
  if (t =? a_cur a) || (prio_in (a_core a) t <? prio_in (a_core a) (a_cur a))
  then (t, mk_dabs (a_core a) (a_ts a) (a_cur a) (Some t)) else (NULL, a).
End Abstract.

(** All fields of a task fit their types. *)
Definition task_ok (x : dsptask) : Prop :=
  is_mail (t_iram_maddr x) /\ is_mail (t_iram_len x) /\ is_mail (t_iram_addr x) /\ is_mail (t_dram_maddr x) /\
  is_mail (t_dram_len x) /\ is_mail (t_dram_addr x) /\ is_mail (t_init_vec x) /\ is_mail (t_resume_vec x).

(** What holds of an abstract state: priorities ascend, the current task and the
    one pushed in front are in the list. *)
Record dabs_ok (a : dabs) : Prop := {
  ok_nodup : NoDup (a_ts a);
  ok_null : NULL ∉ a_ts a;
  ok_sorted : StronglySorted (fun t u => prio_in (a_core a) t <= prio_in (a_core a) u) (a_ts a);
  ok_cur : if a_ts a is [] then a_cur a = NULL else a_cur a ∈ a_ts a;
  ok_rude : forall r, a_rude a = Some r -> r ∈ a_ts a;
  ok_mem : forall t, t ∈ a_ts a -> is_Some (a_core a !! t);
  ok_fields : forall t x, a_core a !! t = Some x -> task_ok x;
}.

(** The driver's state as an abstract state. *)
Record dsp_rep (s : dspst) (a : dabs) : Prop := {
  rep_core : cores (d_tasks s) = a_core a;
  rep_seg : dseg (d_tasks s) NULL (a_ts a) NULL;
  rep_first : d_firsttask s = hd NULL (a_ts a);
  rep_last : d_lasttask s = List.last (a_ts a) NULL;
  rep_curr : d_currtask s = a_cur a;
  rep_rude : if a_rude a is Some r then d_rudetask_pend s = C_TRUE /\ d_rudetask s = r else d_rudetask_pend s = C_FALSE;
  rep_intcb : d_intcb s = fn_dsp_def_taskcb;
}.

(** ** Rules for the accesses *)

Lemma wp_tget {A} (f : dsptask -> A) t x Q s : d_tasks s !! t = Some x -> Q (f x) s -> wp (t_get f t) Q s.
Proof. intros Hx HQ. unfold wp, t_get, getopt. by rewrite Hx. Qed.

Lemma wp_tupd t g x Q s :
  d_tasks s !! t = Some x -> Q tt (set_tasks (<[t := g x]> (d_tasks s)) s) -> wp (t_upd t g) Q s.
Proof. intros Hx HQ. unfold wp, t_upd. by rewrite Hx. Qed.

(** From [s] to [s'] nothing but accesses to registers that send [ms]. *)
Definition log_more (l : list regev) (s : dspst) : dspst :=
  set_dev (mk_dspdev (dv_irq (d_dev s)) (dv_log (d_dev s) ++ l)) s.
Definition says (s : dspst) (ms : list Z) (s' : dspst) : Prop :=
  exists l, s' = log_more l s /\ forall hi, sent_from hi l = ms.

Lemma says_refl s : says s [] s.
Proof. exists []. split; [|done]. unfold log_more. rewrite app_nil_r. by destruct s as [????????[] ]. Qed.

Lemma says_trans s1 s2 s3 a b : says s1 a s2 -> says s2 b s3 -> says s1 (a ++ b) s3.
Proof.
  intros (l1 & -> & H1) (l2 & -> & H2). exists (l1 ++ l2). split; [unfold log_more; cbn; by rewrite app_assoc|].
  intros hi. by rewrite sent_from_app, H1, H2.
Qed.

Lemma says_tasks s ms s' : says s ms s' -> d_tasks s' = d_tasks s.
Proof. by intros (l & -> & _). Qed.

(** The rest of the state. *)
Lemma says_rep s ms s' a : says s ms s' -> dsp_rep s a -> dsp_rep s' a.
Proof. intros (l & -> & _) []. by constructor. Qed.

(** ** Lists of tasks in memory *)

Lemma hd_last_nonempty (ts : list Z) : ts <> [] -> List.last ts NULL ∈ ts.
Proof.
  intros Hn. destruct (exists_last Hn) as (l & t & ->). rewrite last_last. apply elem_of_app. right. apply list_elem_of_singleton. done.
Qed.

Lemma last_app_ne (l1 l2 : list Z) d : l2 <> [] -> List.last (l1 ++ l2) d = List.last l2 d.
Proof.
  intros Hn. destruct (exists_last Hn) as (l & t & ->). by rewrite app_assoc, !last_last.
Qed.

Lemma last_indep (l : list Z) d d' : l <> [] -> List.last l d = List.last l d'.
Proof. intros Hn. destruct (exists_last Hn) as (l' & t & ->). by rewrite !last_last. Qed.

(** Taking a task out of a list. *)

Lemma remove_notin (l1 l2 : list Z) c :
  NoDup (l1 ++ c :: l2) -> c ∉ l1 /\ c ∉ l2 /\ NoDup l1 /\ NoDup l2 /\ (forall t, t ∈ l1 -> t ∉ l2).
Proof.
  intros (H1 & H2 & H3)%NoDup_app. apply NoDup_cons in H3 as [H3 H4].
  split; [intros Hc; apply (H2 _ Hc); by left|]. split; [done|]. split; [done|]. split; [done|].
  intros t Ht1 Ht2. apply (H2 _ Ht1). by right.
Qed.

Lemma snoc_split (l : list Z) p : NoDup (l ++ [p]) -> p ∉ l.
Proof. intros (_ & H & _)%NoDup_app Hp. apply (H p Hp). by apply list_elem_of_singleton. Qed.

Lemma dseg_skip_first T c n r y :
  dseg T NULL (c :: n :: r) NULL -> NoDup (c :: n :: r) -> T !! n = Some y ->
  dseg (<[n := set_tprev NULL y]> T) NULL (n :: r) NULL.
Proof. intros [_ Hd] [_ [Hn _]%NoDup_cons]%NoDup_cons Hy. by apply (dseg_set_prev _ c). Qed.

Lemma dseg_skip_last T l p c y :
  dseg T NULL ((l ++ [p]) ++ [c]) NULL -> NoDup ((l ++ [p]) ++ [c]) -> T !! p = Some y ->
  dseg (<[p := set_tnext NULL y]> T) NULL (l ++ [p]) NULL.
Proof.
  intros [Hd _]%dseg_split (_ & _ & Hnd & _)%remove_notin Hy. apply (dseg_set_next _ _ _ _ c); [done|by apply snoc_split|done].
Qed.

Lemma dseg_skip_middle T l p c n r yp yn :
  dseg T NULL ((l ++ [p]) ++ c :: n :: r) NULL -> NoDup ((l ++ [p]) ++ c :: n :: r) -> T !! p = Some yp -> T !! n = Some yn ->
  dseg (<[n := set_tprev p yn]> (<[p := set_tnext n yp]> T)) NULL ((l ++ [p]) ++ n :: r) NULL.
Proof.
  intros Hd Hnd Hyp Hyn. destruct (remove_notin _ _ _ Hnd) as (H1 & H2 & Hnd1 & Hnd2 & Hdj).
  assert (Hp : p ∈ l ++ [p]) by (rewrite elem_of_app, list_elem_of_singleton; auto).
  apply dseg_split in Hd as [Hd1 [_ Hd2] ]. cbn [hd] in Hd1. pose proof (Hdj p Hp) as [Hpn Hpr]%not_elem_of_cons.
  apply dseg_split. rewrite last_last. cbn [hd]. split.
  - apply dseg_insert_ne; [intros Hin; apply (Hdj n Hin); by left|]. apply (dseg_set_next _ _ _ _ c); [done|by apply snoc_split|done].
  - apply NoDup_cons in Hnd2 as [Hnr _]. apply (dseg_set_prev _ c); [by rewrite lookup_insert_ne|done|].
    apply dseg_insert_ne; [|done]. by apply not_elem_of_cons.
Qed.

(** What [__dsp_removetask] leaves in [__dsp_currtask]: the task behind the
    removed one, unless that was the first. *)
Definition after_remove (s : dspst) (l1 l2 : list Z) : Z :=
  match l1, l2 with
  | [], [] => NULL
  | [], _ => d_currtask s
  | _, [] => d_firsttask s
  | _, n :: _ => n
  end.

(** [c] with task structure [x] stands between [l1] and [l2] in the driver's list. *)
Definition in_list (s : dspst) (l1 : list Z) (c : Z) (x : dsptask) (l2 : list Z) : Prop :=
  dseg (d_tasks s) NULL (l1 ++ c :: l2) NULL /\ NoDup (l1 ++ c :: l2) /\ NULL ∉ l1 ++ c :: l2 /\ d_tasks s !! c = Some x /\
  d_firsttask s = hd NULL (l1 ++ c :: l2) /\ d_lasttask s = List.last (l1 ++ c :: l2) NULL.

(** The state without it. *)
Definition unlinked (s : dspst) (l1 l2 : list Z) (T' : gmap Z dsptask) : dspst :=
  set_tasks T' (set_list (after_remove s l1 l2) (List.last (l1 ++ l2) NULL) (hd NULL (l1 ++ l2)) s).
Definition unlink_post (s : dspst) (l1 l2 : list Z) (Q : unit -> dspst -> Prop) : Prop :=
  forall T', dseg T' NULL (l1 ++ l2) NULL -> cores T' = cores (d_tasks s) -> Q tt (unlinked s l1 l2 T').

Lemma unlink_links T l1 c l2 x :
  dseg T NULL (l1 ++ c :: l2) NULL -> T !! c = Some x -> t_prev x = List.last l1 NULL /\ t_next x = hd NULL l2.
Proof. intros Hd Hx. destruct (dseg_links _ _ _ _ _ _ Hd) as (y & Hy & H1 & H2). rewrite Hx in Hy. by injection Hy as <-. Qed.

Lemma unlink_end s l1 l2 Q T' cu la fi s' :
  unlink_post s l1 l2 Q ->
  dseg T' NULL (l1 ++ l2) NULL -> cores T' = cores (d_tasks s) -> s' = set_tasks T' (set_list cu la fi s) ->
  cu = after_remove s l1 l2 -> la = List.last (l1 ++ l2) NULL -> fi = hd NULL (l1 ++ l2) -> Q tt s'.
Proof. intros HQ H1 H2 -> -> -> ->. by apply HQ. Qed.

Lemma unlink_first s c x l2 Q : in_list s [] c x l2 -> unlink_post s [] l2 Q -> wp (dsp_unlink c) Q s.
Proof.
  intros (Hd & Hnd & H0 & Hx & Hf & Hl) HQ. destruct (unlink_links _ _ _ _ _ Hd Hx) as [_ Hxn]. unfold dsp_unlink.
  apply wp_bind, wp_gets. rewrite Hf. cbn [app hd]. rewrite Z.eqb_refl. apply wp_bind, (wp_tget _ _ x); [done|]. rewrite Hxn.
  destruct l2 as [|n r]; cbn [hd].
  - change (NULL =? NULL) with true. apply wp_modify. apply (unlink_end s [] [] Q (d_tasks s) NULL NULL NULL); done.
  - cbn [app] in *. assert (Hn0 : n <> NULL) by (intros ->; apply H0; right; by left).
    rewrite (proj2 (Z.eqb_neq n NULL)) by done. destruct (dseg_links _ NULL [c] n r NULL Hd) as (y & Hy & _).
    apply wp_bind, wp_modify, (wp_tupd _ _ y); [done|].
    apply (unlink_end s [] (n :: r) Q (<[n := set_tprev NULL y]> (d_tasks s)) (d_currtask s) (d_lasttask s) n); try done.
    + by apply (dseg_skip_first _ c).
    + by apply (cores_same _ _ y).
Qed.

Lemma unlink_last s l1 c x Q l p : l1 = l ++ [p] -> in_list s l1 c x [] -> unlink_post s l1 [] Q -> wp (dsp_unlink c) Q s.
Proof.
  intros E (Hd & Hnd & H0 & Hx & Hf & Hl) HQ. destruct (remove_notin _ _ _ Hnd) as (Hc1 & _).
  destruct (unlink_links _ _ _ _ _ Hd Hx) as [Hxp _].
  assert (Hfc : d_firsttask s <> c). { rewrite Hf, E. rewrite E in Hc1. destruct l; cbn; intros ->; apply Hc1; by left. }
  rewrite last_last in Hl. rewrite E, last_last in Hxp. unfold dsp_unlink. apply wp_bind, wp_gets.
  rewrite (proj2 (Z.eqb_neq _ _) Hfc). apply wp_bind, wp_gets. rewrite Hl, Z.eqb_refl. apply wp_bind, (wp_tget _ _ x); [done|].
  destruct (dseg_lookup _ _ _ _ p Hd) as [y Hy]; [rewrite E, !elem_of_app, list_elem_of_singleton; auto|]. rewrite Hxp.
  apply wp_bind, wp_modify, wp_bind, (wp_tupd _ _ y); [done|]. apply wp_modify.
  apply (unlink_end s l1 [] Q (<[p := set_tnext NULL y]> (d_tasks s)) (d_firsttask s) p (d_firsttask s)); rewrite ?app_nil_r; try done.
  - rewrite E in Hd, Hnd |- *. by apply (dseg_skip_last _ _ _ c).
  - by apply (cores_same _ _ y).
  - rewrite E. by destruct l.
  - by rewrite E, last_last.
  - rewrite Hf, E. by destruct l.
Qed.

Lemma unlink_middle s l1 c x l2 Q l p n r :
  l1 = l ++ [p] -> l2 = n :: r -> in_list s l1 c x l2 -> unlink_post s l1 l2 Q -> wp (dsp_unlink c) Q s.
Proof.
  intros E E2 (Hd & Hnd & H0 & Hx & Hf & Hl) HQ. destruct (remove_notin _ _ _ Hnd) as (Hc1 & Hc2 & _ & _ & Hdj).
  destruct (unlink_links _ _ _ _ _ Hd Hx) as [Hxp Hxn].
  assert (Hfc : d_firsttask s <> c). { rewrite Hf, E. rewrite E in Hc1. destruct l; cbn; intros ->; apply Hc1; by left. }
  assert (Hla : d_lasttask s = List.last l2 NULL).
  { rewrite Hl, E2. change (c :: n :: r) with ([c] ++ n :: r). by rewrite app_assoc, last_app_ne. }
  assert (Hlc : d_lasttask s <> c). { rewrite Hla. intros <-. apply Hc2, hd_last_nonempty. by rewrite E2. }
  assert (Hp : p ∈ l1) by (rewrite E, elem_of_app, list_elem_of_singleton; auto).
  assert (Hn : n ∈ l2) by (rewrite E2; by left).
  assert (Hpc : p <> c) by (by intros ->). assert (Hpn : p <> n) by (intros ->; by apply (Hdj n)).
  destruct (dseg_lookup _ _ _ _ p Hd) as [yp Hyp]; [by apply elem_of_app; left|].
  destruct (dseg_lookup _ _ _ _ n Hd) as [yn Hyn]; [apply elem_of_app; right; by right|].
  rewrite E, last_last in Hxp. rewrite E2 in Hxn. cbn [hd] in Hxn.
  unfold dsp_unlink. apply wp_bind, wp_gets. rewrite (proj2 (Z.eqb_neq _ _) Hfc). apply wp_bind, wp_gets.
  rewrite (proj2 (Z.eqb_neq _ _) Hlc). apply wp_bind, (wp_tget _ _ x); [done|]. rewrite Hxn. apply wp_bind, wp_modify.
  apply wp_bind, (wp_tget _ _ x); [done|]. rewrite Hxp. apply wp_bind, (wp_tupd _ _ yp); [done|].
  assert (Hx' : d_tasks (set_tasks (<[p := set_tnext n yp]> (d_tasks s)) (set_curr n s)) !! c = Some x) by (cbn; by rewrite lookup_insert_ne).
  apply wp_bind, (wp_tget _ _ x); [exact Hx'|]. apply wp_bind, (wp_tget _ _ x); [exact Hx'|]. rewrite Hxn, Hxp.
  assert (Hy' : (<[p := set_tnext n yp]> (d_tasks s)) !! n = Some yn) by (by rewrite lookup_insert_ne).
  apply (wp_tupd _ _ yn); [exact Hy'|].
  apply (unlink_end s l1 l2 Q (<[n := set_tprev p yn]> (<[p := set_tnext n yp]> (d_tasks s))) n (d_lasttask s) (d_firsttask s)); try done.
  - rewrite E, E2 in Hd, Hnd |- *. by apply (dseg_skip_middle _ _ _ c).
  - rewrite (cores_same _ _ yn); [|exact Hy'|done]. by apply (cores_same _ _ yp).
  - rewrite E, E2. by destruct l.
  - by rewrite Hla, last_app_ne by (by rewrite E2).
  - rewrite Hf, E. by destruct l.
Qed.

Lemma unlink_ok s l1 c x l2 Q : in_list s l1 c x l2 -> unlink_post s l1 l2 Q -> wp (dsp_unlink c) Q s.
Proof.
  intros Hi HQ. destruct (decide (l1 = [])) as [->|E]; [by eapply unlink_first|]. destruct (exists_last E) as (l & p & El).
  destruct l2 as [|n r]; [eapply unlink_last|eapply unlink_middle]; done.
Qed.

Lemma removetask_ok s l1 c l2 x Q :
  in_list s l1 c x l2 ->
  (forall T', dseg T' NULL (l1 ++ l2) NULL -> cores T' = <[c := set_tstate DSPTASK_DONE (tcore x)]> (cores (d_tasks s)) ->
   Q tt (unlinked s l1 l2 T')) ->
  wp (dsp_removetask c) Q s.
Proof.
  intros (Hd & Hnd & H0 & Hx & Hf & Hl) HQ. unfold dsp_removetask. apply wp_bind, (wp_tupd _ _ x); [exact Hx|].
  set (x1 := set_tflags DSPTASK_CLEARALL x). apply wp_bind, (wp_tupd _ _ x1); [cbn; by rewrite lookup_insert_eq|].
  set (x2 := set_tstate DSPTASK_DONE x1). cbn [d_tasks set_tasks]. rewrite insert_insert_eq.
  apply (unlink_ok _ l1 c x2 l2); cbn [d_tasks set_tasks].
  - split; [|split; [done|split; [done|split; [cbn; by rewrite lookup_insert_eq|done] ] ] ].
    destruct (remove_notin _ _ _ Hnd) as (Hc1 & Hc2 & _). destruct (unlink_links _ _ _ _ _ Hd Hx) as [Hp Hn].
    apply dseg_split in Hd as [Hd1 [_ Hd2] ]. apply dseg_split. split; [by apply dseg_insert_ne|].
    split; [|by apply dseg_insert_ne]. exists x2. cbn. by rewrite lookup_insert_eq.
  - intros T' Hd' Hc'. apply (HQ T' Hd'). rewrite Hc'. cbn. unfold cores. by rewrite fmap_insert.
Qed.

(** Putting a task into a list. *)

Lemma prio_in_cores T t x : T !! t = Some x -> prio_in (cores T) t = t_prio x.
Proof. intros Hx. unfold prio_in. by rewrite (cores_lookup _ _ _ Hx). Qed.

Lemma dseg_enter_first T t u r x y :
  dseg T NULL (u :: r) NULL -> NoDup (u :: r) -> t ∉ u :: r -> T !! u = Some x -> t_prev y = NULL -> t_next y = u ->
  dseg (<[t := y]> (<[u := set_tprev t x]> T)) NULL (t :: u :: r) NULL.
Proof.
  intros Hd [Hu _]%NoDup_cons Ht Hx Hp Hn. split; [exists y; by rewrite lookup_insert_eq|].
  apply dseg_insert_ne; [done|]. by apply (dseg_set_prev _ NULL).
Qed.

Lemma dseg_enter_middle T l p t u r x y yp :
  dseg T NULL ((l ++ [p]) ++ u :: r) NULL -> NoDup ((l ++ [p]) ++ u :: r) -> t ∉ (l ++ [p]) ++ u :: r ->
  T !! u = Some x -> T !! p = Some yp -> t_prev y = p -> t_next y = u ->
  dseg (<[p := set_tnext t yp]> (<[t := y]> (<[u := set_tprev t x]> T))) NULL ((l ++ [p]) ++ t :: u :: r) NULL.
Proof.
  intros Hd Hnd Ht Hx Hyp Hp Hn. destruct (remove_notin _ _ _ Hnd) as (H1 & H2 & Hnd1 & Hnd2 & Hdj).
  apply not_elem_of_app in Ht as [Htl Htr]. apply dseg_split in Hd as [Hd1 Hd2]. rewrite last_last in Hd2. cbn [hd] in Hd1.
  assert (Hpi : p ∈ l ++ [p]) by (rewrite elem_of_app, list_elem_of_singleton; auto).
  assert (Hpt : p <> t) by (by intros ->). assert (Hpu : p <> u) by (by intros ->).
  apply dseg_split. rewrite last_last. cbn [hd]. split.
  - apply (dseg_set_next _ _ _ _ u); [by rewrite !lookup_insert_ne by congruence|by apply snoc_split|].
    apply dseg_insert_ne; [done|]. by apply dseg_insert_ne.
  - apply dseg_insert_ne; [rewrite elem_of_cons; intros [->|Hin]; [done|]|].
    + apply elem_of_cons in Hin as [->|Hin]; [done|by apply (Hdj p)].
    + split; [exists y; by rewrite lookup_insert_eq|]. apply dseg_insert_ne; [done|]. by apply (dseg_set_prev _ p).
Qed.

Lemma dseg_enter_last T l p t y yp :
  dseg T NULL (l ++ [p]) NULL -> NoDup (l ++ [p]) -> t ∉ l ++ [p] -> T !! p = Some yp -> t_prev y = p -> t_next y = NULL ->
  dseg (<[t := y]> (<[p := set_tnext t yp]> T)) NULL ((l ++ [p]) ++ [t]) NULL.
Proof.
  intros Hd Hnd Ht Hyp Hp Hn. apply dseg_split. rewrite last_last. cbn [hd]. split.
  - apply dseg_insert_ne; [done|]. apply (dseg_set_next _ _ _ _ NULL); [done|by apply snoc_split|done].
  - split; [|done]. exists y. by rewrite lookup_insert_eq.
Qed.

(** A task that is not in the list, and the list it goes into. *)
Definition not_in_list (s : dspst) (t : Z) (ts : list Z) : Prop :=
  dseg (d_tasks s) NULL ts NULL /\ NoDup ts /\ NULL ∉ ts /\ t ∉ ts /\ t <> NULL /\ is_Some (d_tasks s !! t) /\
  d_firsttask s = hd NULL ts /\ d_lasttask s = List.last ts NULL.

(** Entering before [u]: the four writes of the loop. *)
Lemma enter_before s t u l1 r Q :
  not_in_list s t (l1 ++ u :: r) ->
  (forall T', dseg T' NULL (l1 ++ t :: u :: r) NULL -> cores T' = cores (d_tasks s) ->
   Q u (set_tasks T' (set_first (hd NULL (l1 ++ [t])) s))) ->
  wp (tp <- t_get t_prev u; t_upd t (set_tprev tp);; t_upd u (set_tprev t);; t_upd t (set_tnext u);;
      tp <- t_get t_prev t; (if tp =? NULL then modify (set_first t) else t_upd tp (set_tnext t));; ret u) Q s.
Proof.
  intros (Hd & Hnd & H0 & Ht & Ht0 & [x Hx] & Hf & Hl) HQ.
  destruct (dseg_links _ _ _ _ _ _ Hd) as (xu & Hxu & Hxup & _).
  assert (Htu : t <> u) by (intros ->; apply Ht; rewrite elem_of_app; right; by left).
  set (p := List.last l1 NULL) in *. set (T := d_tasks s) in *. set (y := set_tnext u (set_tprev p x)).
  apply wp_bind, (wp_tget _ _ xu); [done|]. rewrite Hxup. apply wp_bind, (wp_tupd _ _ x); [done|].
  apply wp_bind, (wp_tupd _ _ xu); [cbn; by rewrite lookup_insert_ne|].
  apply wp_bind, (wp_tupd _ _ (set_tprev p x)); [cbn; rewrite lookup_insert_ne by done; by rewrite lookup_insert_eq|].
  cbn [d_tasks set_tasks]. fold T y.
  assert (HT : <[t := y]> (<[u := set_tprev t xu]> (<[t := set_tprev p x]> T)) = <[t := y]> (<[u := set_tprev t xu]> T)).
  { rewrite (insert_insert_ne _ u t), insert_insert_eq by done. done. }
  rewrite HT. clear HT. set (T1 := <[t := y]> (<[u := set_tprev t xu]> T)).
  assert (Hco : cores T1 = cores T).
  { unfold T1. rewrite <- (cores_same T u xu (set_tprev t)) by done.
    apply (cores_same _ t x (fun z => set_tnext u (set_tprev p z))); [by rewrite lookup_insert_ne|done]. }
  apply wp_bind, (wp_tget _ _ y); [cbn; unfold T1; by rewrite lookup_insert_eq|]. change (t_prev y) with p.
  destruct (decide (l1 = [])) as [->|Hne].
  - change (p =? NULL) with true. apply wp_bind, wp_modify, wp_ret. apply (HQ T1); [|done]. by apply dseg_enter_first.
  - destruct (exists_last Hne) as (l & q & ->). assert (Epq : p = q) by apply last_last. rewrite Epq.
    assert (Hq : q ∈ l ++ [q]) by (rewrite elem_of_app, list_elem_of_singleton; auto).
    assert (q <> NULL) by (intros ->; apply H0, elem_of_app; by left). change (d_tasks s) with T. rewrite (proj2 (Z.eqb_neq q NULL)) by done.
    destruct (remove_notin _ _ _ Hnd) as (Hu1 & _). assert (Hqu : q <> u) by (by intros ->).
    assert (Hqt : q <> t) by (intros ->; apply Ht, elem_of_app; by left).
    destruct (dseg_lookup _ _ _ _ q Hd) as [yq Hyq]; [apply elem_of_app; by left|].
    assert (Hyq1 : T1 !! q = Some yq) by (unfold T1; by rewrite !lookup_insert_ne by congruence).
    apply wp_bind, (wp_tupd _ _ yq); [exact Hyq1|]. apply wp_ret.
    assert (Hfs : d_firsttask s = hd NULL ((l ++ [q]) ++ [t])) by (rewrite Hf; by destruct l).
    rewrite <- Hfs in HQ. refine (HQ (<[q := set_tnext t yq]> T1) _ _); [by apply dseg_enter_middle|].
    by rewrite (cores_same _ _ yq).
Qed.

Lemma insert_loop_ok s t l1 l2 fuel Q :
  not_in_list s t (l1 ++ l2) -> (length l2 < fuel)%nat ->
  (forall k1 u k2 T', l2 = k1 ++ u :: k2 -> insert_prio (cores (d_tasks s)) t l2 = k1 ++ t :: u :: k2 ->
   dseg T' NULL (l1 ++ k1 ++ t :: u :: k2) NULL -> cores T' = cores (d_tasks s) ->
   Q u (set_tasks T' (set_first (hd NULL (l1 ++ k1 ++ [t])) s))) ->
  (insert_prio (cores (d_tasks s)) t l2 = l2 ++ [t] -> Q NULL s) ->
  wp (insert_loop fuel t (hd NULL l2)) Q s.
Proof.
  revert l1 fuel Q. induction l2 as [|u r IH]; intros l1 fuel Q Hni Hfu HQ1 HQ2; (destruct fuel as [|k]; [cbn in Hfu; lia|]); cbn [hd insert_loop].
  - change (NULL =? NULL) with true. by apply wp_ret, HQ2.
  - pose proof Hni as (Hd & Hnd & H0 & Ht & Ht0 & [x Hx] & Hf & Hl).
    destruct (dseg_links _ _ _ _ _ _ Hd) as (xu & Hxu & Hup & Hun).
    assert (Hu0 : u <> NULL) by (intros ->; apply H0, elem_of_app; right; by left). rewrite (proj2 (Z.eqb_neq _ _) Hu0).
    apply wp_bind, (wp_tget _ _ x); [done|]. apply wp_bind, (wp_tget _ _ xu); [done|].
    cbn [insert_prio] in HQ1, HQ2. rewrite (prio_in_cores _ _ _ Hx), (prio_in_cores _ _ _ Hxu) in HQ1, HQ2.
    destruct (Z.ltb_spec (t_prio x) (t_prio xu)) as [Hlt|Hge].
    + apply (enter_before _ _ _ l1 r); [done|]. intros T' Hd' Hc'. by apply (HQ1 [] u r T').
    + apply wp_bind, (wp_tget _ _ xu); [done|]. rewrite Hun.
      apply (IH (l1 ++ [u])); [by rewrite <- app_assoc|cbn in Hfu; lia|..].
      * intros k1 v k2 T' E1 E2 Hd' Hc'. rewrite <- app_assoc in Hd' |- *.
        apply (HQ1 (u :: k1) v k2 T'); [by rewrite E1|by rewrite E2|done|done].
      * intros E. apply HQ2. by rewrite E.
Qed.

Lemma task_walk_enough T ts : dseg T NULL ts NULL -> NoDup ts -> (length ts < S (size T))%nat.
Proof.
  intros Hd Hnd. apply Nat.lt_succ_r. rewrite <- (size_list_to_set (C := gset Z)) by done. rewrite <- size_dom.
  apply subseteq_size. intros t Ht. rewrite elem_of_list_to_set in Ht. apply elem_of_dom.
  destruct (dseg_lookup _ _ _ _ _ Hd Ht) as [x Hx]. by exists x.
Qed.

(** [__dsp_inserttask]: the task enters at its place. *)
Lemma inserttask_ok s t ts Q :
  not_in_list s t ts ->
  (forall T' ts', ts' = insert_prio (cores (d_tasks s)) t ts -> dseg T' NULL ts' NULL -> cores T' = cores (d_tasks s) ->
   Q tt (set_tasks T' (set_list (if ts is [] then t else d_currtask s) (List.last ts' NULL) (hd NULL ts') s))) ->
  wp (dsp_inserttask t) Q s.
Proof.
  intros Hni HQ. pose proof Hni as (Hd & Hnd & H0 & Ht & Ht0 & [x Hx] & Hf & Hl).
  unfold dsp_inserttask. apply wp_bind, wp_gets. destruct ts as [|u r]; cbn [hd] in Hf.
  - rewrite Hf. change (NULL =? NULL) with true. apply wp_bind, wp_modify, wp_bind, (wp_tupd _ _ x); [done|].
    apply (wp_tupd _ _ (set_tnext NULL x)); [cbn; by rewrite lookup_insert_eq|]. cbn [d_tasks set_tasks set_list].
    rewrite insert_insert_eq. apply (HQ (<[t := set_tprev NULL (set_tnext NULL x)]> (d_tasks s)) [t]); [done|..].
    + split; [|done]. eexists. by rewrite lookup_insert_eq.
    + by apply (cores_same _ t x (fun z => set_tprev NULL (set_tnext NULL z))).
  - assert (Hu0 : u <> NULL) by (intros ->; apply H0; by left). rewrite Hf, (proj2 (Z.eqb_neq _ _) Hu0).
    apply wp_bind, wp_gets, wp_bind. apply (insert_loop_ok s t [] (u :: r)); [done|by apply task_walk_enough|..].
    + intros k1 v k2 T' E1 E2 Hd' Hc'. assert (Hv0 : v <> NULL) by (intros ->; apply H0; rewrite E1, elem_of_app; right; by left).
      rewrite (proj2 (Z.eqb_neq _ _) Hv0). cbn [negb]. apply wp_ret. cbn [app].
      refine (eq_rect _ (Q tt) (HQ T' _ (eq_sym E2) Hd' Hc') _ _). unfold set_first, set_list, set_tasks. cbn. f_equal.
      * rewrite Hl, E1. change (k1 ++ t :: v :: k2) with (k1 ++ [t] ++ v :: k2). by rewrite app_assoc, !last_app_ne.
      * by destruct k1.
    + intros E. change (NULL =? NULL) with true. cbn [negb]. apply wp_bind, wp_gets.
      destruct (exists_last (l := u :: r) ltac:(done)) as (l & p & El). rewrite Hl, El, last_last.
      assert (Hp : p ∈ u :: r) by (rewrite El, elem_of_app, list_elem_of_singleton; auto).
      assert (Hpt : p <> t) by (by intros ->). destruct (dseg_lookup _ _ _ _ _ Hd Hp) as [yp Hyp].
      apply wp_bind, (wp_tupd _ _ yp); [done|]. apply wp_bind, (wp_tupd _ _ x); [cbn; by rewrite lookup_insert_ne|].
      apply wp_bind, wp_gets. cbn [d_lasttask set_tasks]. rewrite Hl, El, last_last.
      apply wp_bind, (wp_tupd _ _ (set_tnext NULL x)); [cbn; by rewrite lookup_insert_eq|]. apply wp_modify.
      cbn [d_tasks set_tasks]. rewrite insert_insert_eq.
      assert (Ei : insert_prio (cores (d_tasks s)) t (u :: r) = (l ++ [p]) ++ [t]) by (by rewrite E, El).
      set (T' := <[t := set_tprev p (set_tnext NULL x)]> (<[p := set_tnext t yp]> (d_tasks s))).
      assert (HQ' := HQ T' _ (eq_sym Ei)). refine (eq_rect _ (Q tt) (HQ' _ _) _ _).
      * rewrite El in Hd, Hnd, Ht. by apply dseg_enter_last.
      * unfold T'. rewrite <- (cores_same (d_tasks s) p yp (set_tnext t)) by done.
        apply (cores_same _ t x (fun z => set_tprev p (set_tnext NULL z))); [by rewrite lookup_insert_ne|done].
      * rewrite last_last. unfold set_last, set_list, set_tasks. cbn. f_equal. rewrite Hf.
        change u with (hd NULL (u :: r)) at 1. rewrite El. by destruct l.
Qed.
