(* ===== verification/DspTheorems.v ===== *)
(** * Tasks of the signal processor: theorems

    Every history of permitted calls and mails does what the abstract machine of
    [DspProofs] does, sends its mails and never faults; tasks take turns. *)

From stdpp Require Import base gmap list.
From Stdlib Require Import ZArith Lia Sorted.
From S2P Require Import Prelude Devices KState Clock Irq DspDev Dsp DspProofs.

Open Scope Z_scope.

(** ** Lists of tasks *)

Lemma behind_split l1 c l2 : c ∉ l1 -> behind c (l1 ++ c :: l2) = l2.
Proof.
  induction l1 as [|t l1 IH]; cbn; intros Hn; [by rewrite Z.eqb_refl|]. apply not_elem_of_cons in Hn as [Ht Hn].
  rewrite (proj2 (Z.eqb_neq t c)) by congruence. by apply IH.
Qed.

Lemma remove_split l1 c l2 : NoDup (l1 ++ c :: l2) -> remove_task c (l1 ++ c :: l2) = l1 ++ l2.
Proof.
  intros (H1 & H2 & _)%remove_notin.
  assert (H : forall l, c ∉ l -> remove_task c l = l).
  { induction l as [|t l IH]; [done|]. intros [Ht Hl]%not_elem_of_cons. unfold remove_task. cbn [List.filter].
    rewrite (proj2 (Z.eqb_neq t c)) by congruence. cbn [negb]. f_equal. by apply IH. }
  unfold remove_task. rewrite List.filter_app. cbn [List.filter]. rewrite Z.eqb_refl. cbn [negb].
  f_equal; by apply H.
Qed.

Lemma next_in ts c : c ∈ ts -> NoDup ts -> next_task ts c ∈ ts.
Proof.
  intros (l1 & l2 & ->)%list_elem_of_split Hnd. destruct (remove_notin _ _ _ Hnd) as (H1 & _). unfold next_task.
  rewrite behind_split by done. destruct l2 as [|n l2]; cbn [hd]; [destruct l1; by left|]. rewrite elem_of_app. right. right. by left.
Qed.

(** Only a task that is alone is its own successor. *)
Lemma next_self l1 c l2 : NoDup (l1 ++ c :: l2) -> next_task (l1 ++ c :: l2) c = c -> l1 = [] /\ l2 = [].
Proof.
  intros Hnd. destruct (remove_notin _ _ _ Hnd) as (H1 & H2 & _). unfold next_task. rewrite behind_split by done.
  destruct l2 as [|n l2]; cbn [hd]; [|intros ->; exfalso; apply H2; by left].
  destruct l1 as [|u l1]; [done|]. cbn [hd app]. intros ->. exfalso. apply H1. by left.
Qed.

Lemma insert_prio_split C t ts : exists l1 l2, ts = l1 ++ l2 /\ insert_prio C t ts = l1 ++ t :: l2 /\
  Forall (fun u => prio_in C u <= prio_in C t) l1 /\ (forall u r, l2 = u :: r -> prio_in C t < prio_in C u).
Proof.
  induction ts as [|u r (l1 & l2 & -> & E & H1 & H2)]; [by exists [], []|]. cbn [insert_prio].
  destruct (Z.ltb_spec (prio_in C t) (prio_in C u)).
  - exists [], (u :: l1 ++ l2). split; [done|]. split; [done|]. split; [done|]. by intros ?? [= <- <-].
  - exists (u :: l1), l2. rewrite E. split; [done|]. split; [done|]. split; [by constructor|done].
Qed.

Lemma prio_sorted_app (R : Z -> Z -> Prop) l1 l2 :
  StronglySorted R (l1 ++ l2) <-> StronglySorted R l1 /\ StronglySorted R l2 /\ (forall x y, x ∈ l1 -> y ∈ l2 -> R x y).
Proof.
  induction l1 as [|x l1 IH]; cbn [app].
  - split; [intros H; split; [constructor|split; [done|by intros ?? ?%elem_of_nil] ]|tauto].
  - split.
    + intros H. inversion H as [|?? Hs Hf]; subst. apply IH in Hs as (H1 & H2 & H3). apply List.Forall_app in Hf as [Hf1 Hf2].
      split; [by constructor|]. split; [done|]. intros a b [->|Ha]%elem_of_cons Hb; [by apply (proj1 (Forall_forall _ _) Hf2)|by apply H3].
    + intros (H1 & H2 & H3). inversion H1 as [|?? Hs Hf]; subst. constructor.
      * apply IH. split; [done|]. split; [done|]. intros a b Ha Hb. apply H3; [by right|done].
      * apply List.Forall_app. split; [done|]. apply Forall_forall. intros b Hb. apply H3; [by left|done].
Qed.

Lemma insert_prio_sorted C t ts :
  StronglySorted (fun a b => prio_in C a <= prio_in C b) ts ->
  StronglySorted (fun a b => prio_in C a <= prio_in C b) (insert_prio C t ts).
Proof.
  destruct (insert_prio_split C t ts) as (l1 & l2 & -> & -> & H1 & H2). intros (S1 & S2 & S3)%prio_sorted_app.
  rewrite Forall_forall in H1. apply prio_sorted_app. split; [done|]. split.
  - constructor; [done|]. apply Forall_forall. intros y Hy. destruct l2 as [|u r]; [by apply elem_of_nil in Hy|].
    pose proof (H2 u r eq_refl). inversion S2 as [|?? _ Hf]; subst. apply elem_of_cons in Hy as [->|Hy]; [lia|].
    pose proof (proj1 (Forall_forall _ _) Hf y Hy). cbn in *. lia.
  - intros x y Hx [->|Hy]%elem_of_cons; [by apply H1|by apply S3].
Qed.

Lemma sorted_remove (R : Z -> Z -> Prop) l1 c l2 : StronglySorted R (l1 ++ c :: l2) -> StronglySorted R (l1 ++ l2).
Proof.
  intros (S1 & S2 & S3)%prio_sorted_app. inversion S2; subst. apply prio_sorted_app. split; [done|]. split; [done|].
  intros x y Hx Hy. apply S3; [done|by right].
Qed.

(** ** The abstract machine keeps its invariant *)

Lemma prio_state C t v u : is_Some (C !! t) -> prio_in (<[t := set_tstate v (core_of C t)]> C) u = prio_in C u.
Proof.
  intros [x Hx]. unfold prio_in, core_of. rewrite Hx. cbn. destruct (decide (u = t)) as [->|Hn].
  - by rewrite lookup_insert_eq, Hx.
  - by rewrite lookup_insert_ne.
Qed.

Lemma fields_state C t v :
  is_Some (C !! t) -> (forall u x, C !! u = Some x -> task_ok x) ->
  forall u x, <[t := set_tstate v (core_of C t)]> C !! u = Some x -> task_ok x.
Proof.
  intros [y Hy] HC u x. unfold core_of. rewrite Hy. cbn. destruct (decide (u = t)) as [->|Hn].
  - rewrite lookup_insert_eq. intros [= <-]. exact (HC _ _ Hy).
  - rewrite lookup_insert_ne by done. apply HC.
Qed.

Lemma sorted_state C t v ts :
  is_Some (C !! t) -> StronglySorted (fun a b => prio_in C a <= prio_in C b) ts ->
  StronglySorted (fun a b => prio_in (<[t := set_tstate v (core_of C t)]> C) a <= prio_in (<[t := set_tstate v (core_of C t)]> C) b) ts.
Proof.
  intros Ht. induction 1 as [|a l Hs IH Hf]; constructor; [done|]. eapply Forall_impl; [exact Hf|]. intros b Hb. cbn. by rewrite !prio_state.
Qed.

Lemma cur_in a : dabs_ok a -> a_ts a <> [] -> a_cur a ∈ a_ts a.
Proof. intros Hok. pose proof (ok_cur a Hok). by destruct (a_ts a). Qed.

Lemma cur_case (c : Z) ts : c ∈ ts -> if ts is [] then c = NULL else c ∈ ts.
Proof. destruct ts; [by intros ?%elem_of_nil|done]. Qed.

Lemma ok_set a t v cur ru :
  dabs_ok a -> t ∈ a_ts a -> cur ∈ a_ts a -> (forall r, ru = Some r -> r ∈ a_ts a) ->
  dabs_ok (mk_dabs (with_state a t v) (a_ts a) cur ru).
Proof.
  intros [H1 H2 H3 H4 H5 H6 H7] Ht Hc Hr. constructor; cbn; try done.
  - by apply sorted_state; auto.
  - by apply cur_case.
  - intros u Hu. unfold with_state. apply lookup_insert_is_Some. destruct (decide (t = u)); [by left|right; by auto].
  - by apply fields_state; auto.
Qed.

Lemma ok_same a cur ru :
  dabs_ok a -> cur ∈ a_ts a -> (forall r, ru = Some r -> r ∈ a_ts a) -> dabs_ok (mk_dabs (a_core a) (a_ts a) cur ru).
Proof. intros [H1 H2 H3 H4 H5 H6 H7] Hc Hr. constructor; cbn; try done. by apply cur_case. Qed.

Lemma ok_remove a n :
  dabs_ok a -> a_cur a ∈ a_ts a -> n ∈ a_ts a -> n <> a_cur a ->
  dabs_ok (mk_dabs (with_state a (a_cur a) DSPTASK_DONE) (remove_task (a_cur a) (a_ts a)) n None).
Proof.
  intros [H1 H2 H3 H4 H5 H6 H7] Hc Hn Hne. pose proof Hc as (l1 & l2 & E)%list_elem_of_split. rewrite E in *.
  rewrite remove_split by done. assert (Hs : n ∈ l1 ++ l2).
  { rewrite elem_of_app, elem_of_cons in Hn. rewrite elem_of_app. naive_solver. }
  assert (Hsub : forall t, t ∈ l1 ++ l2 -> t ∈ l1 ++ a_cur a :: l2) by (intros t; rewrite !elem_of_app, elem_of_cons; tauto).
  constructor; cbn; try done.
  - destruct (remove_notin _ _ _ H1) as (_ & _ & Hn1 & Hn2 & Hd). by apply NoDup_app.
  - intros Hx. by apply H2, Hsub.
  - apply sorted_state; [by apply H6|]. by eapply sorted_remove.
  - by apply cur_case.
  - intros u Hu. unfold with_state. apply lookup_insert_is_Some. destruct (decide (a_cur a = u)); [by left|right; by auto].
  - by apply fields_state; auto.
Qed.

(** ** The driver's steps *)

(** From [s] to [s'] the driver sent [ms]. *)
Definition grew (s : dspst) (ms : list Z) (s' : dspst) : Prop :=
  exists l, dv_log (d_dev s') = dv_log (d_dev s) ++ l /\ forall hi, sent_from hi l = ms.

Lemma grew_refl s : grew s [] s.
Proof. exists []. by rewrite app_nil_r. Qed.

Lemma grew_trans s1 s2 s3 a b : grew s1 a s2 -> grew s2 b s3 -> grew s1 (a ++ b) s3.
Proof.
  intros (l1 & E1 & H1) (l2 & E2 & H2). exists (l1 ++ l2). split; [by rewrite E2, E1, app_assoc|].
  intros hi. by rewrite sent_from_app, H1, H2.
Qed.

Lemma says_grew s ms s' : says s ms s' -> grew s ms s'.
Proof. intros (l & -> & Hl). by exists l. Qed.

Lemma grew_sent s ms s' : grew s ms s' -> sent (dv_log (d_dev s')) = sent (dv_log (d_dev s)) ++ ms.
Proof. intros (l & E & Hl). unfold sent. by rewrite E, sent_from_app, Hl. Qed.

Section Driver.
Context `{DspHw}.
Context (polls : nat) (call : Z -> Z -> M dspst unit) (cbsent : Z -> Z -> list Z).
(** The signal processor takes its mails, and the callbacks of the clients send
    mails and cancel tasks, but leave the list of tasks alone. *)
Context (Htakes : takes_mail polls).
Context (Hcall : forall f t s a, f <> NULL -> dsp_rep s a ->
  wp (call f t) (fun _ s' => dsp_rep s' a /\ grew s (cbsent f t) s') s).

Definition sends {A} (c : M dspst A) (ms : list Z) (s : dspst) : Prop := wp c (fun _ s' => says s ms s') s.

Lemma sends_bind {A B} (c : M dspst A) (k : A -> M dspst B) m1 m2 s :
  sends c m1 s -> (forall r s', says s m1 s' -> sends (k r) m2 s') -> sends (bind c k) (m1 ++ m2) s.
Proof.
  intros Hc Hk. apply wp_bind. eapply wp_mono; [exact Hc|]. cbn. intros r s1 H1.
  eapply wp_mono; [exact (Hk r s1 H1)|]. intros ? s2 H2. by eapply says_trans.
Qed.

Lemma send_ok m s : is_mail m -> sends (send polls m) [m] s.
Proof.
  intros Hm. unfold sends, wp, send, on_dev. destruct (send_wait_ok polls (d_dev s) m Htakes Hm) as (l & -> & Hl).
  by exists l.
Qed.

Lemma send_field_ok f t x s : d_tasks s !! t = Some x -> is_mail (f x) -> sends (send_field polls f t) [f x] s.
Proof. intros Hx Hm. unfold send_field, sends. apply wp_bind, (wp_tget _ _ x); [done|]. by apply send_ok. Qed.


Lemma sends_tget {A B} (f : dsptask -> A) t x (k : A -> M dspst B) ms s :
  d_tasks s !! t = Some x -> sends (k (f x)) ms s -> sends (bind (t_get f t) k) ms s.
Proof. intros Hx Hk. by apply wp_bind, (wp_tget _ _ x). Qed.

(** The head of a sequence of mails. *)
Ltac said :=
  let s1 := fresh "s" in let Hs := fresh "Hs" in
  intros _ s1 Hs%says_tasks;
  repeat match goal with Hy : d_tasks ?s !! _ = Some _ |- _ => match type of Hs with _ = d_tasks s => rewrite <- Hs in Hy end end;
  clear Hs.
Ltac say :=
  match goal with
  | |- sends (bind (send _ _) _) (?m :: ?r) _ => apply (sends_bind _ _ [m] r); [by apply send_ok|said]
  | |- sends (bind (send_field _ ?f _) _) (?m :: ?r) _ => apply (sends_bind _ _ [m] r); [by apply (send_field_ok f)|said]
  | |- sends (send _ _) _ _ => by apply send_ok
  | |- sends (send_field _ ?f _) _ _ => by apply (send_field_ok f)
  end.

Lemma save_ok exec x s :
  (exec = NULL /\ x = None) \/ (exists y, exec <> NULL /\ x = Some y /\ d_tasks s !! exec = Some y /\ task_ok y) ->
  sends (if exec =? NULL then send polls 0;; send polls 0;; send polls 0
         else send_field polls t_dram_maddr exec;; send_field polls t_dram_len exec;; send_field polls t_dram_addr exec)
    (save_mails x) s.
Proof.
  intros [ [-> ->]|(y & Hn & -> & Hy & Hf)].
  - change (NULL =? NULL) with true. cbn [save_mails]. repeat say.
  - destruct Hf as (F1 & F2 & F3 & F4 & F5 & F6 & F7 & F8). rewrite (proj2 (Z.eqb_neq _ _) Hn). cbn [save_mails]. repeat say.
Qed.

Lemma load_ok hire y s :
  d_tasks s !! hire = Some y -> task_ok y ->
  sends (send_field polls t_iram_maddr hire;; send_field polls t_iram_len hire;; send_field polls t_iram_addr hire;;
         st <- t_get t_state hire;
         if st =? DSPTASK_INIT then send_field polls t_init_vec hire;; send polls 0;; send polls 0;; send polls 0
         else send_field polls t_resume_vec hire;; send_field polls t_dram_maddr hire;; send_field polls t_dram_len hire;;
              send_field polls t_dram_addr hire) (load_mails y) s.
Proof.
  intros Hy (F1 & F2 & F3 & F4 & F5 & F6 & F7 & F8). unfold load_mails. cbn [app]. do 3 say.
  apply (sends_tget _ _ y); [done|]. destruct (t_state y =? DSPTASK_INIT); repeat say.
Qed.

Lemma exectask_ok exec x hire y s :
  (exec = NULL /\ x = None) \/ (exists y, exec <> NULL /\ x = Some y /\ d_tasks s !! exec = Some y /\ task_ok y) ->
  d_tasks s !! hire = Some y -> task_ok y -> sends (dsp_exectask polls exec hire) (save_mails x ++ load_mails y) s.
Proof.
  intros Hx Hy Hf. unfold dsp_exectask. apply sends_bind; [by apply save_ok|]. intros _ s1 Hs1%says_tasks.
  apply load_ok; [by rewrite Hs1|done].
Qed.

Lemma land_mail m : is_mail m -> is_mail (Z.land m 0xffff).
Proof. intros _. pose proof (land_upper m 0xffff). unfold is_mail. lia. Qed.

Lemma boottask_ok t y s m :
  d_tasks s !! t = Some y -> task_ok y -> next_mail polls (dv_log (d_dev s)) = Some m ->
  sends (dsp_boottask polls t) (boot_mails y) s.
Proof.
  intros Hy (F1 & F2 & F3 & F4 & F5 & F6 & F7 & F8) Hm. unfold dsp_boottask.
  apply (sends_bind _ _ []).
  { destruct (read_mail_ok _ _ _ Hm) as (r & Hr & E). unfold sends, wp, on_dev. rewrite E. exists r. split; [done|].
    intros hi. exact (proj1 (sent_reads hi r Hr)). }
  said. unfold boot_mails. pose proof (land_mail _ F3). repeat say.
Qed.

(** ** The mails *)

Notation rep := dsp_rep.

(** A task of the list in memory. *)
Lemma rep_task s a t :
  rep s a -> dabs_ok a -> t ∈ a_ts a ->
  exists x, d_tasks s !! t = Some x /\ core_of (a_core a) t = tcore x /\ task_ok x.
Proof.
  intros Hr Hok Ht. destruct (ok_mem a Hok t Ht) as [y Hy]. pose proof Hy as Hc. rewrite <- (rep_core s a Hr) in Hc.
  destruct (cores_inv _ _ _ Hc) as (x & Hx & ->). exists x. split; [done|]. unfold core_of. rewrite Hy. split; [done|].
  exact (ok_fields a Hok t _ Hy).
Qed.

Lemma rep_in_list s a l1 c l2 x :
  rep s a -> dabs_ok a -> a_ts a = l1 ++ c :: l2 -> d_tasks s !! c = Some x -> in_list s l1 c x l2.
Proof.
  intros [H1 H2 H3 H4 H5 H6 H7] Hok E Hx. pose proof (ok_nodup a Hok). pose proof (ok_null a Hok). rewrite E in *. by split.
Qed.

(** Changing the state of a task. *)
Lemma rep_state s a t v x :
  rep s a -> dabs_ok a -> t ∈ a_ts a -> d_tasks s !! t = Some x ->
  rep (set_tasks (<[t := set_tstate v x]> (d_tasks s)) s) (mk_dabs (with_state a t v) (a_ts a) (a_cur a) (a_rude a)).
Proof.
  intros Hr Hok Ht Hx. destruct (rep_task s a t Hr Hok Ht) as (x' & Hx' & Hc & _). rewrite Hx in Hx'. injection Hx' as <-.
  destruct Hr as [H1 H2 H3 H4 H5 H6 H7]. constructor; cbn; try done.
  - by rewrite cores_state, H1, <- Hc.
  - by apply (dseg_same_links _ _ x).
Qed.

Lemma state_ok s a t v Q :
  rep s a -> dabs_ok a -> t ∈ a_ts a ->
  (forall s', rep s' (mk_dabs (with_state a t v) (a_ts a) (a_cur a) (a_rude a)) -> d_dev s' = d_dev s ->
    Q tt s') -> wp (t_upd t (set_tstate v)) Q s.
Proof.
  intros Hr Hok Ht HQ. destruct (rep_task s a t Hr Hok Ht) as (x & Hx & _). apply (wp_tupd _ _ x); [done|].
  apply HQ; [by apply rep_state|done].
Qed.

Lemma call_task_ok f t s a :
  rep s a -> dabs_ok a -> t ∈ a_ts a -> (forall x, f (tcore x) = f x) ->
  wp (call_task call f t) (fun _ s' => rep s' a /\ grew s (cb_mails cbsent (f (core_of (a_core a) t)) t) s') s.
Proof.
  intros Hr Hok Ht Hf. destruct (rep_task s a t Hr Hok Ht) as (x & Hx & Hc & _). unfold call_task, cb_mails. rewrite Hc, Hf.
  apply wp_bind, (wp_tget _ _ x); [done|]. destruct (Z.eqb_spec (f x) NULL) as [E|E]; cbn [negb when].
  - apply wp_ret. split; [done|apply grew_refl].
  - by apply Hcall.
Qed.

(** A call with its result. *)
Definition driver_returns (c : M dspst Z) (s : dspst) (r : Z) (out : list Z * dabs) : Prop :=
  wp c (fun r' s' => r' = r /\ rep s' (snd out) /\ grew s (fst out) s') s.

(** A step of the driver's code on a represented state. *)
Definition driver_does {A} (c : M dspst A) (s : dspst) (out : list Z * dabs) : Prop :=
  wp c (fun _ s' => rep s' (snd out) /\ grew s (fst out) s') s.

Lemma grew_bind {A B} (c : M dspst A) (k : A -> M dspst B) m1 m2 a1 a2 s :
  driver_does c s (m1, a1) -> (forall r s', rep s' a1 -> grew s m1 s' -> driver_does (k r) s' (m2, a2)) ->
  driver_does (bind c k) s (m1 ++ m2, a2).
Proof.
  intros Hc Hk. apply wp_bind. eapply wp_mono; [exact Hc|]. cbn. intros r s1 [Hr1 Hg1].
  eapply wp_mono; [exact (Hk r s1 Hr1 Hg1)|]. cbn. intros _ s2 [Hr2 Hg2]. split; [done|]. by eapply grew_trans.
Qed.

Lemma sends_does {A} (c : M dspst A) ms s a : rep s a -> sends c ms s -> driver_does c s (ms, a).
Proof. intros Hr Hs. eapply wp_mono; [exact Hs|]. cbn. intros _ s' H'. split; [by eapply says_rep|by apply says_grew]. Qed.

Lemma send_does m s a : rep s a -> is_mail m -> driver_does (send polls m) s ([m], a).
Proof. intros Hr Hm. apply sends_does; [done|by apply send_ok]. Qed.

(** The mails of a switch, from the abstract tasks. *)
Lemma save_core x : save_mails (Some (tcore x)) = save_mails (Some x). Proof. done. Qed.
Lemma load_core x : load_mails (tcore x) = load_mails x. Proof. done. Qed.

Lemma exec_does s a exec hire ex :
  rep s a -> dabs_ok a -> hire ∈ a_ts a ->
  (exec = NULL /\ ex = None) \/ (exec ∈ a_ts a /\ ex = Some (core_of (a_core a) exec)) ->
  driver_does (dsp_exectask polls exec hire) s (save_mails ex ++ load_mails (core_of (a_core a) hire), a).
Proof.
  intros Hr Hok Hh He. apply sends_does; [done|]. destruct (rep_task s a hire Hr Hok Hh) as (y & Hy & -> & Hfy). rewrite load_core.
  destruct He as [ [-> ->]|[He ->] ]; [apply exectask_ok; auto|].
  destruct (rep_task s a exec Hr Hok He) as (x & Hx & -> & Hfx). rewrite save_core. apply exectask_ok; [|done|done].
  right. exists x. split; [|done]. intros ->. by apply (ok_null a Hok).
Qed.

Lemma rep_switch s a n : rep s a -> rep (set_curr n s) (mk_dabs (a_core a) (a_ts a) n (a_rude a)).
Proof. intros [H1 H2 H3 H4 H5 H6 H7]. by constructor. Qed.

Lemma grew_same s s' : d_dev s' = d_dev s -> grew s [] s'.
Proof. intros E. exists []. by rewrite E, app_nil_r. Qed.

Lemma state_does s a t v :
  rep s a -> dabs_ok a -> t ∈ a_ts a ->
  driver_does (t_upd t (set_tstate v)) s ([], mk_dabs (with_state a t v) (a_ts a) (a_cur a) (a_rude a)).
Proof. intros Hr Hok Ht. apply (state_ok s a); [done..|]. intros s' Hr' E. split; [done|by apply grew_same]. Qed.

Lemma does_set s f out : rep (f s) (snd out) -> d_dev (f s) = d_dev s -> fst out = [] -> driver_does (modify f) s out.
Proof.
  intros Hr Hd E. apply wp_modify. split; [done|]. rewrite E. exists []. by rewrite Hd, app_nil_r.
Qed.

Lemma yield_to_does s a n :
  rep s a -> dabs_ok a -> n ∈ a_ts a -> a_cur a ∈ a_ts a ->
  driver_does (yield_to polls n) s
    ([0xCDD10001] ++ save_mails (Some (core_of (a_core a) (a_cur a))) ++ load_mails (core_of (a_core a) n),
     mk_dabs (with_state a (a_cur a) DSPTASK_YIELD) (a_ts a) n (a_rude a)).
Proof.
  intros Hr Hok Hn Hc. unfold yield_to. apply (grew_bind _ _ _ _ a); [by apply send_does|]. intros _ s1 Hr1 _.
  apply wp_bind, wp_gets. rewrite (rep_curr s1 a Hr1). rewrite <- (app_nil_r (_ ++ load_mails _)).
  apply (grew_bind _ _ _ _ a); [apply exec_does; auto|]. intros _ s2 Hr2 _.
  apply wp_bind, wp_gets. rewrite (rep_curr s2 a Hr2).
  apply (grew_bind _ _ [] [] (mk_dabs (with_state a (a_cur a) DSPTASK_YIELD) (a_ts a) (a_cur a) (a_rude a))).
  - by apply state_does.
  - intros _ s3 Hr3 _. apply does_set; [|done|done]. exact (rep_switch _ _ n Hr3).
Qed.

(** [case 0xDCD10002] *)
Lemma mail_yield_does s a :
  rep s a -> dabs_ok a -> a_cur a ∈ a_ts a ->
  driver_does (mail_yield polls call) s (switch_to cbsent a (default (next_task (a_ts a) (a_cur a)) (a_rude a))).
Proof.
  intros Hr Hok Hc. unfold mail_yield, switch_to. pose proof (rep_curr s a Hr) as Ec. pose proof (rep_rude s a Hr) as Er.
  apply wp_bind, wp_gets. apply wp_bind, wp_gets. rewrite Ec. destruct (a_rude a) as [r|] eqn:E; cbn [default from_option id].
  - destruct Er as [-> Er]. change (C_TRUE =? C_TRUE) with true. apply wp_bind, wp_gets. rewrite Er.
    destruct (Z.eqb_spec r (a_cur a)) as [->|Hne].
    + set (a' := mk_dabs (a_core a) (a_ts a) (a_cur a) None).
      apply (grew_bind _ _ _ _ a); [by apply send_does|]. intros _ s1 Hr1 _.
      apply (grew_bind _ _ [] _ a'); [apply does_set; [destruct Hr1; by constructor|done|done]|]. intros _ s2 Hr2 _.
      apply wp_bind, wp_gets. rewrite (rep_curr s2 a' Hr2).
      apply (call_task_ok t_res_cb); [done|apply ok_same; [done|done|by intros ?] |done|done].
    + rewrite <- (app_nil_r (_ ++ _)).
      eapply grew_bind; [apply yield_to_does; [done|done|by apply (ok_rude a Hok)|done]|]. intros _ s1 Hr1 _.
      apply does_set; [|done|done]. destruct Hr1. by constructor.
  - rewrite Er. change (C_FALSE =? C_TRUE) with false. destruct (rep_task s a _ Hr Hok Hc) as (x & Hx & _).
    pose proof Hc as (l1 & l2 & El)%list_elem_of_split. pose proof (ok_nodup a Hok) as Hnd. pose proof (ok_null a Hok) as H0.
    rewrite El in Hnd, H0. destruct (remove_notin _ _ _ Hnd) as (Hc1 & Hc2 & _).
    assert (En : next_task (a_ts a) (a_cur a) = hd (hd NULL (a_ts a)) l2) by (unfold next_task; by rewrite El at 2; rewrite behind_split).
    assert (Hin : next_task (a_ts a) (a_cur a) ∈ a_ts a) by (apply next_in; [done|apply (ok_nodup a Hok)]).
    pose proof (rep_seg s a Hr) as Hsg. rewrite El in Hsg. destruct (unlink_links _ _ _ _ _ Hsg Hx) as [_ Hn].
    apply wp_bind, (wp_tget _ _ x); [done|]. rewrite Hn. rewrite En in Hin |- *. destruct l2 as [|n l2]; cbn [hd] in Hin |- *.
    + change (NULL =? NULL) with true. apply wp_bind, wp_gets. rewrite (rep_first s a Hr).
      destruct (Z.eqb_spec (hd NULL (a_ts a)) (a_cur a)) as [Eh|Eh].
      * assert (Ea : mk_dabs (a_core a) (a_ts a) (a_cur a) None = a) by (destruct a; cbn in *; by subst). rewrite Ea.
        apply (grew_bind _ _ _ _ a); [by apply send_does|]. intros _ s1 Hr1 _. apply wp_bind, wp_gets. rewrite (rep_curr s1 a Hr1).
        by apply (call_task_ok t_res_cb).
      * pose proof (yield_to_does s a _ Hr Hok Hin Hc) as Hy. by rewrite E in Hy.
    + rewrite (proj2 (Z.eqb_neq n NULL)) by (intros ->; apply H0; rewrite elem_of_app; right; right; by left).
      rewrite (proj2 (Z.eqb_neq n (a_cur a))) by (intros ->; apply Hc2; by left).
      pose proof (yield_to_does s a n Hr Hok Hin Hc) as Hy. by rewrite E in Hy.
Qed.

(** [__dsp_removetask] *)
Lemma remove_does s a t l1 l2 Q :
  rep s a -> dabs_ok a -> a_ts a = l1 ++ t :: l2 ->
  (forall s', rep s' (mk_dabs (with_state a t DSPTASK_DONE) (l1 ++ l2) (after_remove s l1 l2) (a_rude a)) -> grew s [] s' -> Q tt s') ->
  wp (dsp_removetask t) Q s.
Proof.
  intros Hr Hok E HQ. assert (Ht : t ∈ a_ts a) by (rewrite E, elem_of_app; right; by left).
  destruct (rep_task s a t Hr Hok Ht) as (x & Hx & Hcx & _). pose proof (rep_in_list _ _ _ _ _ _ Hr Hok E Hx) as Hi.
  apply (removetask_ok s l1 t l2 x); [done|]. intros T' Hd Hc. apply HQ; [|exists []; cbn; by rewrite app_nil_r].
  destruct Hr as [H1 H2 H3 H4 H5 H6 H7]. constructor; try done. change (cores T' = with_state a t DSPTASK_DONE). unfold with_state. by rewrite Hc, H1, Hcx.
Qed.

Lemma state_twice a t v : with_state (mk_dabs (with_state a t v) (a_ts a) (a_cur a) (a_rude a)) t v = with_state a t v.
Proof. unfold with_state, core_of. cbn. by rewrite lookup_insert_eq, insert_insert_eq. Qed.

Lemma core_state_ne a t v u : u <> t -> core_of (with_state a t v) u = core_of (a_core a) u.
Proof. intros Hn. unfold core_of, with_state. by rewrite lookup_insert_ne. Qed.

(** The three ways to go on after a task is finished: with the one pushed in
    front, with the next, with the first. *)
Lemma finish_rude s a r :
  rep s a -> dabs_ok a -> a_cur a ∈ a_ts a -> a_rude a = Some r -> r <> a_cur a ->
  driver_does (mail_done polls call) s (finish_for cbsent a r).
Proof.
  intros Hr Hok Hc E Hne. unfold mail_done, finish_for. pose proof (rep_rude s a Hr) as Er. rewrite E in Er. destruct Er as [Ep Er].
  apply wp_bind, wp_gets. apply wp_bind, wp_gets. rewrite Ep. change (C_TRUE =? C_TRUE) with true. rewrite (rep_curr s a Hr).
  apply (grew_bind _ _ _ _ a); [by apply (call_task_ok t_done_cb)|]. intros _ s1 Hr1 _.
  apply (grew_bind _ _ _ _ a); [by apply send_does|]. intros _ s2 Hr2 _.
  pose proof (rep_rude s2 a Hr2) as Er2. rewrite E in Er2. destruct Er2 as [_ Er2].
  apply wp_bind, wp_gets. rewrite Er2. rewrite <- (app_nil_r (_ ++ load_mails _)).
  apply (grew_bind _ _ _ _ a); [apply exec_does; [done|done|by apply (ok_rude a Hok)|by left]|]. intros _ s3 Hr3 _.
  apply wp_bind, wp_gets. rewrite (rep_curr s3 a Hr3). pose proof Hc as (l1 & l2 & El)%list_elem_of_split.
  apply wp_bind, (remove_does s3 a (a_cur a) l1 l2); [done|done|done|]. intros s4 Hr4 Hg4.
  pose proof (rep_rude _ _ Hr4) as Er4. cbn [a_rude] in Er4. rewrite E in Er4. destruct Er4 as [_ Er4].
  apply wp_bind, wp_gets. rewrite Er4. apply wp_bind, wp_modify, wp_modify. split; [|exact Hg4].
  cbn [snd]. rewrite El, remove_split by (rewrite <- El; apply (ok_nodup a Hok)). destruct Hr4. by constructor.
Qed.

Section Finish.
Context (s : dspst) (a : dabs) (l1 l2 : list Z).
Context (Hr : rep s a) (Hok : dabs_ok a) (El : a_ts a = l1 ++ a_cur a :: l2) (En : a_rude a = None).

Let Hc : a_cur a ∈ a_ts a.
Proof. rewrite El, elem_of_app. right. by left. Qed.

(** The code in front of the choice. *)
Lemma done_start Q x :
  d_tasks s !! a_cur a = Some x -> t_next x = hd NULL l2 ->
  wp (if hd NULL l2 =? NULL then
        first <- gets d_firsttask;
        if first =? a_cur a then
          call_task call t_done_cb (a_cur a);; send polls 0xCDD10002;;
          curr <- gets d_currtask; t_upd curr (set_tstate DSPTASK_DONE);; dsp_removetask curr
        else
          call_task call t_done_cb (a_cur a);; send polls 0xCDD10001;;
          curr <- gets d_currtask; t_upd curr (set_tstate DSPTASK_DONE);;
          first <- gets d_firsttask; dsp_exectask polls NULL first;;
          modify (set_curr first);; last <- gets d_lasttask; dsp_removetask last
      else
        call_task call t_done_cb (a_cur a);; send polls 0xCDD10001;;
        curr <- gets d_currtask; t_upd curr (set_tstate DSPTASK_DONE);;
        n <- t_get t_next curr; dsp_exectask polls NULL n;;
        n <- t_get t_next curr; modify (set_curr n);; p <- t_get t_prev n; dsp_removetask p) Q s ->
  wp (mail_done polls call) Q s.
Proof using Hr En.
  intros Hx Hn HQ. unfold mail_done. apply wp_bind, wp_gets. apply wp_bind, wp_gets.
  pose proof (rep_rude s a Hr) as Er. rewrite En in Er. rewrite Er. change (C_FALSE =? C_TRUE) with false.
  rewrite (rep_curr s a Hr). apply wp_bind, (wp_tget _ _ x); [done|]. by rewrite Hn.
Qed.

Let a1 : dabs := mk_dabs (with_state a (a_cur a) DSPTASK_DONE) (a_ts a) (a_cur a) (a_rude a).

Lemma done_ok : dabs_ok a1.
Proof using Hok El. apply ok_set; [done|exact Hc|exact Hc|by apply (ok_rude a Hok)]. Qed.

(** The callback, the mail and the new state. *)
Lemma done_middle {B} (k : Z -> M dspst B) mail out :
  is_mail mail -> (forall s', rep s' a1 -> driver_does (k (a_cur a)) s' out) ->
  driver_does (call_task call t_done_cb (a_cur a);; send polls mail;;
               curr <- gets d_currtask; t_upd curr (set_tstate DSPTASK_DONE);; k curr) s
    (cb_mails cbsent (t_done_cb (core_of (a_core a) (a_cur a))) (a_cur a) ++ [mail] ++ fst out, snd out).
Proof using All.
  intros Hm Hk. apply (grew_bind _ _ _ _ a); [by apply (call_task_ok t_done_cb)|]. intros _ s1 Hr1 _.
  apply (grew_bind _ _ _ _ a); [by apply send_does|]. intros _ s2 Hr2 _. apply wp_bind, wp_gets. rewrite (rep_curr s2 a Hr2).
  apply (grew_bind _ _ [] (fst out) a1); [by apply state_does|]. intros _ s3 Hr3 _. destruct out. by apply Hk.
Qed.

Lemma finish_alone :
  l1 = [] -> l2 = [] ->
  driver_does (mail_done polls call) s
    (cb_mails cbsent (t_done_cb (core_of (a_core a) (a_cur a))) (a_cur a) ++ [0xCDD10002],
     mk_dabs (with_state a (a_cur a) DSPTASK_DONE) [] NULL None).
Proof using All.
  intros E1 E2. destruct (rep_task s a _ Hr Hok Hc) as (x & Hx & _). pose proof (rep_seg s a Hr) as Hsg. rewrite El in Hsg.
  destruct (unlink_links _ _ _ _ _ Hsg Hx) as [_ Hn]. apply (done_start _ x Hx Hn). rewrite E2. cbn [hd].
  change (NULL =? NULL) with true. apply wp_bind, wp_gets. rewrite (rep_first s a Hr), El, E1. cbn [app hd]. rewrite Z.eqb_refl.
  refine (done_middle _ _ ([], mk_dabs (with_state a (a_cur a) DSPTASK_DONE) [] NULL None) _ _); [done|]. intros s3 Hr3.
  apply (remove_does s3 a1 (a_cur a) [] []); [done|apply done_ok|by rewrite <- E1, <- E2 at 1|].
  intros s4 Hr4 Hg4. split; [|done]. unfold a1 in Hr4. rewrite state_twice, En in Hr4. exact Hr4.
Qed.

Lemma finish_next n r :
  l2 = n :: r -> driver_does (mail_done polls call) s (finish_for cbsent a n).
Proof using All.
  intros E2. destruct (rep_task s a _ Hr Hok Hc) as (x & Hx & _). pose proof (rep_seg s a Hr) as Hsg. rewrite El in Hsg.
  pose proof (ok_nodup a Hok) as Hnd. pose proof (ok_null a Hok) as H0. rewrite El in Hnd, H0.
  destruct (unlink_links _ _ _ _ _ Hsg Hx) as [_ Hn]. apply (done_start _ x Hx Hn). rewrite E2. cbn [hd].
  destruct (remove_notin _ _ _ Hnd) as (_ & Hc2 & _). rewrite E2 in Hc2. apply not_elem_of_cons in Hc2 as [Hcn _].
  rewrite (proj2 (Z.eqb_neq n NULL)) by (intros ->; apply H0; rewrite E2, elem_of_app; right; right; by left).
  unfold finish_for. refine (done_middle _ _ (save_mails None ++ load_mails (core_of (a_core a) n), _) _ _); [done|]. intros s3 Hr3.
  assert (Hnin : n ∈ a_ts a) by (rewrite El, E2, elem_of_app; right; right; by left).
  assert (Hnext : forall s', rep s' a1 -> exists x', d_tasks s' !! a_cur a = Some x' /\ t_next x' = n).
  { intros s' Hr'. destruct (rep_task s' a1 (a_cur a) Hr' done_ok Hc) as (x' & Hx' & _). exists x'. split; [done|].
    pose proof (rep_seg s' a1 Hr') as Hsg'. cbn [a_ts a1] in Hsg'. rewrite El in Hsg'.
    destruct (unlink_links _ _ _ _ _ Hsg' Hx') as [_ ->]. by rewrite E2. }
  destruct (Hnext s3 Hr3) as (x3 & Hx3 & En3). apply wp_bind, (wp_tget _ _ x3); [done|]. rewrite En3.
  rewrite <- (app_nil_r (_ ++ load_mails _)), <- (core_state_ne a (a_cur a) DSPTASK_DONE n) by done.
  apply (grew_bind _ _ _ _ a1); [apply exec_does; [done|apply done_ok|exact Hnin|by left]|]. intros _ s4 Hr4 _.
  destruct (Hnext s4 Hr4) as (x4 & Hx4 & En4). apply wp_bind, (wp_tget _ _ x4); [done|]. rewrite En4. apply wp_bind, wp_modify.
  pose proof (rep_seg s4 a1 Hr4) as Hsg4. cbn [a_ts a1] in Hsg4. rewrite El, E2 in Hsg4.
  change (a_cur a :: n :: r) with ([a_cur a] ++ n :: r) in Hsg4. rewrite app_assoc in Hsg4.
  destruct (dseg_links _ _ _ _ _ _ Hsg4) as (xn & Hxn & Hpn & _). rewrite last_last in Hpn.
  apply wp_bind, (wp_tget _ _ xn); [exact Hxn|]. rewrite Hpn.
  apply (remove_does _ (mk_dabs (a_core a1) (a_ts a) n None) (a_cur a) l1 (n :: r)).
  - pose proof (rep_switch s4 a1 n Hr4) as Hs. by rewrite <- En.
  - apply (ok_same a1); [apply done_ok|exact Hnin|by intros ?].
  - by rewrite <- E2.
  - intros s5 Hr5 Hg5. split; [|exact Hg5]. cbn [snd]. rewrite El, E2, remove_split by (by rewrite <- E2).
    assert (after_remove (set_curr n s4) l1 (n :: r) = n) as Ea by by destruct l1. rewrite Ea in Hr5.
    unfold with_state in Hr5 |- *. cbn [a_core a1] in Hr5. unfold with_state, core_of in Hr5. rewrite lookup_insert_eq, insert_insert_eq in Hr5.
    exact Hr5.
Qed.

Lemma finish_first :
  l1 <> [] -> l2 = [] -> driver_does (mail_done polls call) s (finish_for cbsent a (hd NULL (a_ts a))).
Proof using All.
  intros E1 E2. destruct (rep_task s a _ Hr Hok Hc) as (x & Hx & _). pose proof (rep_seg s a Hr) as Hsg. rewrite El in Hsg.
  pose proof (ok_nodup a Hok) as Hnd. rewrite El in Hnd.
  destruct (unlink_links _ _ _ _ _ Hsg Hx) as [_ Hn]. apply (done_start _ x Hx Hn). rewrite E2. cbn [hd].
  change (NULL =? NULL) with true. apply wp_bind, wp_gets. rewrite (rep_first s a Hr).
  destruct (remove_notin _ _ _ Hnd) as (Hc1 & _). set (f := hd NULL (a_ts a)).
  assert (Hf1 : f ∈ l1) by (unfold f; rewrite El; destruct l1; [done|by left]).
  assert (Hfc : f <> a_cur a) by (intros E; apply Hc1; by rewrite <- E). rewrite (proj2 (Z.eqb_neq _ _) Hfc).
  assert (Hfin : f ∈ a_ts a) by (rewrite El, elem_of_app; by left).
  unfold finish_for. refine (done_middle _ _ (save_mails None ++ load_mails (core_of (a_core a) f), _) _ _); [done|]. intros s3 Hr3.
  apply wp_bind, wp_gets. rewrite (rep_first s3 a1 Hr3). change (hd NULL (a_ts a1)) with f.
  rewrite <- (app_nil_r (_ ++ load_mails _)), <- (core_state_ne a (a_cur a) DSPTASK_DONE f) by done.
  apply (grew_bind _ _ _ _ a1); [apply exec_does; [done|apply done_ok|exact Hfin|by left]|]. intros _ s4 Hr4 _.
  apply wp_bind, wp_modify, wp_bind, wp_gets. change (d_lasttask (set_curr f s4)) with (d_lasttask s4).
  rewrite (rep_last s4 a1 Hr4). change (a_ts a1) with (a_ts a). rewrite El, E2, last_last.
  apply (remove_does _ (mk_dabs (a_core a1) (a_ts a) f None) (a_cur a) l1 []).
  - pose proof (rep_switch s4 a1 f Hr4) as Hs. by rewrite <- En.
  - apply (ok_same a1); [apply done_ok|exact Hfin|by intros ?].
  - by rewrite <- E2.
  - intros s5 Hr5 Hg5. split; [|exact Hg5]. cbn [snd]. rewrite remove_split by (by rewrite <- E2).
    assert (after_remove (set_curr f s4) l1 [] = f) as Ea.
    { change (after_remove (set_curr f s4) l1 []) with (if l1 is [] then NULL else d_firsttask s4).
      rewrite (rep_first s4 a1 Hr4). by destruct l1. }
    rewrite Ea in Hr5. unfold with_state in Hr5 |- *. cbn [a_core a1] in Hr5. unfold with_state, core_of in Hr5.
    rewrite lookup_insert_eq, insert_insert_eq in Hr5. exact Hr5.
Qed.
End Finish.

(** [case 0xDCD10003] *)
Lemma mail_done_does s a :
  rep s a -> dabs_ok a -> a_cur a ∈ a_ts a -> a_rude a <> Some (a_cur a) ->
  let n := default (next_task (a_ts a) (a_cur a)) (a_rude a) in
  driver_does (mail_done polls call) s
    (if n =? a_cur a then
       (cb_mails cbsent (t_done_cb (core_of (a_core a) (a_cur a))) (a_cur a) ++ [0xCDD10002],
        mk_dabs (with_state a (a_cur a) DSPTASK_DONE) [] NULL None)
     else finish_for cbsent a n).
Proof.
  intros Hr Hok Hc Hnr. cbv zeta. destruct (a_rude a) as [r|] eqn:E; cbn [default from_option id].
  - rewrite (proj2 (Z.eqb_neq r (a_cur a))) by congruence. apply finish_rude; congruence.
  - pose proof Hc as (l1 & l2 & El)%list_elem_of_split. pose proof (ok_nodup a Hok) as Hnd. rewrite El in Hnd.
    destruct (remove_notin _ _ _ Hnd) as (Hc1 & Hc2 & _).
    assert (En : next_task (a_ts a) (a_cur a) = hd (hd NULL (a_ts a)) l2) by (unfold next_task; by rewrite El at 2; rewrite behind_split).
    destruct (Z.eqb_spec (next_task (a_ts a) (a_cur a)) (a_cur a)) as [Es|Es].
    + rewrite El in Es. apply next_self in Es as [-> ->]; [|done]. by apply (finish_alone s a [] []).
    + rewrite En in Es |- *. destruct l2 as [|n l2]; cbn [hd] in Es |- *; [|by apply (finish_next s a l1 (n :: l2) Hr Hok El E n l2)].
      apply (finish_first s a l1 []); [done|done|done|done| |done]. intros ->. apply Es. by rewrite El.
Qed.

(** ** The calls *)

(** A task's flags, and the mail the next interrupt handles: the handler first
    acknowledges the interrupt. *)
Definition flags_of (s : dspst) (t : Z) : Z := default 0 (t_flags <$> d_tasks s !! t).
Definition acknowledged (s : dspst) : dspst :=
  match on_dev (dsp_mod 5 (Z.lor DSPCR_AIINT DSPCR_ARINT) DSPCR_DSPINT) s with Ok (_, s') => s' | Fault _ => s end.
Definition incoming (s : dspst) : option Z :=
  cancelled_mail (flags_of s (d_currtask s)) <$> next_mail polls (dv_log (d_dev (acknowledged s))).

Lemma mod_does clr set s a : rep s a -> driver_does (on_dev (dsp_mod 5 clr set)) s ([], a).
Proof.
  intros Hr. unfold driver_does, wp, on_dev, dsp_mod, bind, dsp_rd, dsp_wr. change (5 =? 5) with true. cbv iota beta.
  split; [destruct Hr; by constructor|]. eexists [_; _]. split; [cbn; by rewrite <- app_assoc|done].
Qed.

Lemma acknowledged_ok s : on_dev (dsp_mod 5 (Z.lor DSPCR_AIINT DSPCR_ARINT) DSPCR_DSPINT) s = Ok (tt, acknowledged s).
Proof. reflexivity. Qed.

Lemma read_does s a m :
  rep s a -> next_mail polls (dv_log (d_dev s)) = Some m ->
  wp (on_dev (mailfrom_loop polls;; DSP_ReadMailFrom)) (fun r s' => r = m /\ rep s' a /\ grew s [] s' /\ d_tasks s' = d_tasks s) s.
Proof.
  intros Hr Hm. destruct (read_mail_ok _ _ _ Hm) as (l & Hl & E). unfold wp, on_dev. rewrite E. split; [done|].
  split; [destruct Hr; by constructor|]. split; [|done]. exists l. split; [done|]. intros hi. exact (proj1 (sent_reads hi l Hl)).
Qed.

(** [__dsp_inthandler] with the driver's callback. *)
Lemma inthandler_does s a m :
  rep s a -> dabs_ok a -> a_ts a <> [] -> incoming s = Some m -> (m = 0xDCD10003 -> a_rude a <> Some (a_cur a)) ->
  driver_does (dsp_inthandler polls call) s (task_step cbsent a m).
Proof.
  intros Hr Hok Hne Hm Hnr. pose proof (cur_in a Hok Hne) as Hc. unfold dsp_inthandler. apply wp_bind. unfold wp at 1.
  rewrite acknowledged_ok. pose proof (mod_does (Z.lor DSPCR_AIINT DSPCR_ARINT) DSPCR_DSPINT s a Hr) as Hk.
  unfold driver_does, wp in Hk. rewrite acknowledged_ok in Hk. destruct Hk as [Hr1 Hg1]. cbn [fst snd] in Hr1, Hg1.
  apply wp_bind, wp_gets. rewrite (rep_intcb _ _ Hr1). change (fn_dsp_def_taskcb =? NULL) with false.
  rewrite Z.eqb_refl. unfold incoming in Hm. rewrite (rep_curr s a Hr) in Hm. destruct (next_mail polls _) as [m0|] eqn:Em; [|done]. injection Hm as Hm.
  assert (Hfl : flags_of (acknowledged s) (a_cur a) = flags_of s (a_cur a)) by done. rewrite <- Hfl in Hm.
  set (s1 := acknowledged s) in *. unfold dsp_def_taskcb. apply wp_bind. eapply wp_mono; [exact (read_does s1 a m0 Hr1 Em)|].
  cbn beta. intros r s2 (-> & Hr2 & Hg2 & Ht2). apply wp_bind, wp_gets. rewrite (rep_curr s2 a Hr2).
  destruct (rep_task s2 a _ Hr2 Hok Hc) as (x & Hx & Hcx & _). apply wp_bind, (wp_tget _ _ x); [done|].
  assert (Ef : t_flags x = flags_of s1 (a_cur a)) by (unfold flags_of; by rewrite <- Ht2, Hx). rewrite Ef, Hm. cbv zeta.
  assert (Hgo : forall (c : M dspst unit) out, driver_does c s2 out -> wp c (fun _ s' => rep s' (snd out) /\ grew s (fst out) s') s2).
  { intros c out Hd. eapply wp_mono; [exact Hd|]. cbn. intros _ s' [H1 H2]. split; [done|].
    eapply (grew_trans s s2 s' [] _); [exact (grew_trans _ _ _ [] [] Hg1 Hg2)|exact H2]. }
  unfold task_step. apply Hgo.
  assert (Hrun : forall f, (forall y, f (tcore y) = f y) -> (forall v y, f (set_tstate v y) = f y) ->
    driver_does (t_upd (a_cur a) (set_tstate DSPTASK_RUN);; call_task call f (a_cur a)) s2
      (cb_mails cbsent (f (core_of (a_core a) (a_cur a))) (a_cur a),
       mk_dabs (with_state a (a_cur a) DSPTASK_RUN) (a_ts a) (a_cur a) (a_rude a))).
  { intros f Hf Hfs. set (a1 := mk_dabs (with_state a (a_cur a) DSPTASK_RUN) (a_ts a) (a_cur a) (a_rude a)).
    apply (grew_bind _ _ [] _ a1); [by apply state_does|]. intros _ s3 Hr3 _.
    assert (Ho : dabs_ok a1) by (apply ok_set; [done|done|done|by apply (ok_rude a Hok)]).
    pose proof (call_task_ok f (a_cur a) s3 a1 Hr3 Ho Hc Hf) as Hcall1.
    assert (Es : f (core_of (a_core a1) (a_cur a)) = f (core_of (a_core a) (a_cur a))).
    { unfold a1, with_state, core_of at 1. cbn [a_core]. rewrite lookup_insert_eq. apply Hfs. }
    rewrite Es in Hcall1. exact Hcall1. }
  destruct (m =? 0xDCD10000); [by apply Hrun|]. destruct (m =? 0xDCD10001); [by apply Hrun|].
  destruct (m =? 0xDCD10002); [by apply mail_yield_does|].
  destruct (Z.eqb_spec m 0xDCD10003) as [E|E]; [by apply mail_done_does; auto|].
  destruct (m =? 0xDCD10004); [by apply (call_task_ok t_req_cb)|]. apply wp_ret. split; [done|apply grew_refl].
Qed.

(** ** Adding, cancelling and asserting *)

Lemma flags_ok s a t g :
  rep s a -> is_Some (a_core a !! t) ->
  wp (t_upd t (fun x => set_tflags (g x) x)) (fun _ s' => rep s' a /\ d_dev s' = d_dev s) s.
Proof.
  intros Hr [y Hy]. destruct Hr as [H1 H2 H3 H4 H5 H6 H7]. rewrite <- H1 in Hy. destruct (cores_inv _ _ _ Hy) as (x & Hx & _).
  apply (wp_tupd _ _ x); [done|]. split; [|done]. constructor; try done.
  - change (cores (<[t := set_tflags (g x) x]> (d_tasks s)) = a_core a). rewrite <- H1. by apply (cores_same _ _ x (fun x => set_tflags (g x) x)).
  - by apply (dseg_same_links _ _ x).
Qed.

Lemma insert_prio_state C t v u ts : is_Some (C !! t) -> insert_prio (<[t := set_tstate v (core_of C t)]> C) u ts = insert_prio C u ts.
Proof. intros Ht. induction ts as [|w r IH]; [done|]. cbn [insert_prio]. by rewrite !prio_state, IH. Qed.

Lemma in_insert C t ts u : u ∈ insert_prio C t ts <-> u = t \/ u ∈ ts.
Proof.
  destruct (insert_prio_split C t ts) as (l1 & l2 & -> & -> & _). rewrite !elem_of_app, elem_of_cons. tauto.
Qed.

Definition entered (a : dabs) (t : Z) : dabs :=
  mk_dabs (a_core a) (insert_prio (a_core a) t (a_ts a)) (if a_ts a is [] then t else a_cur a) (a_rude a).

Lemma ok_entered a t : dabs_ok a -> t <> NULL -> t ∉ a_ts a -> is_Some (a_core a !! t) -> dabs_ok (entered a t).
Proof.
  intros [H1 H2 H3 H4 H5 H6 H7] Ht0 Ht Hm. constructor; cbn.
  - destruct (insert_prio_split (a_core a) t (a_ts a)) as (l1 & l2 & E & -> & _). rewrite E in H1, Ht.
    apply not_elem_of_app in Ht as [Hl1 Hl2]. apply NoDup_app in H1 as (N1 & N2 & N3). apply NoDup_app. split; [done|].
    split; [|by apply NoDup_cons]. intros u Hu [->|Hu2]%elem_of_cons; [done|by apply (N2 u)].
  - rewrite in_insert. intros [?|?]; congruence.
  - by apply insert_prio_sorted.
  - apply cur_case, in_insert. destruct (a_ts a); [by left|by right].
  - intros r Hr. apply in_insert. auto.
  - intros u [->|Hu]%in_insert; auto.
  - done.
Qed.

Lemma DSP_AddTask_does s a t :
  rep s a -> dabs_ok a -> t <> NULL -> t ∉ a_ts a -> is_Some (a_core a !! t) ->
  (hd NULL (insert_prio (a_core a) t (a_ts a)) = t -> is_Some (next_mail polls (dv_log (d_dev s)))) ->
  driver_returns (DSP_AddTask polls t) s t (task_add a t).
Proof.
  intros Hr Hok Ht0 Ht Hm Hboot. set (a1 := entered a t). set (a2 := mk_dabs (with_state a1 t DSPTASK_INIT) (a_ts a1) (a_cur a1) (a_rude a1)).
  pose proof (ok_entered a t Hok Ht0 Ht Hm) as Hok1. assert (Ht1 : t ∈ a_ts a1) by (apply in_insert; by left).
  assert (Hok2 : dabs_ok a2).
  { apply ok_set; [done|done| |by apply (ok_rude a1 Hok1)]. apply (cur_in a1 Hok1). cbn. destruct (a_ts a); cbn; [done|by destruct (_ <? _)]. }
  assert (Ea : task_add a t = (if hd NULL (a_ts a2) =? t then boot_mails (core_of (a_core a2) t) else [], a2)).
  { unfold task_add. assert (Ei : insert_prio (with_state a t DSPTASK_INIT) t (a_ts a) = a_ts a2) by (by apply insert_prio_state).
    by rewrite Ei. }
  unfold DSP_AddTask. apply wp_bind.
  assert (Hni : not_in_list s t (a_ts a)).
  { destruct Hm as [y Hy]. rewrite <- (rep_core s a Hr) in Hy. destruct (cores_inv _ _ _ Hy) as (x & Hx & _).
    destruct Hr as [H1 H2 H3 H4 H5 H6 H7]. split; [done|]. split; [apply (ok_nodup a Hok)|]. split; [apply (ok_null a Hok)|].
    split; [done|]. split; [done|]. split; [by exists x|done]. }
  apply (inserttask_ok s t (a_ts a)); [done|]. intros T' ts' Ets Hd Hco. rewrite (rep_core s a Hr) in Ets.
  match goal with |- wp _ _ ?st => set (s1 := st) end.
  assert (Hr1 : rep s1 a1).
  { destruct Hr as [H1 H2 H3 H4 H5 H6 H7]. subst ts'. constructor; try done.
    - change (cores T' = a_core a). by rewrite Hco.
    - change ((if a_ts a is [] then t else d_currtask s) = if a_ts a is [] then t else a_cur a). by rewrite H5. }
  apply wp_bind, (state_ok s1 a1); [done|done|done|]. intros s2 Hr2 Hd2.
  apply wp_bind. eapply wp_mono; [apply (flags_ok s2 a2 t (fun _ => DSPTASK_ATTACH)); [done|by apply (ok_mem a2 Hok2)]|].
  intros _ s3 [Hr3 Hd3]. apply wp_bind, wp_gets. rewrite (rep_first s3 _ Hr3). rewrite Ea. cbn [fst snd].
  assert (Hd13 : d_dev s3 = d_dev s) by (by rewrite Hd3, Hd2).
  destruct (Z.eqb_spec (hd NULL (a_ts a2)) t) as [Eh|Eh]; cbn [when].
  - destruct (rep_task s3 a2 t Hr3 Hok2 Ht1) as (y & Hy & -> & Hfy). destruct (Hboot Eh) as [m Em]. rewrite <- Hd13 in Em.
    apply wp_bind. eapply wp_mono; [exact (boottask_ok t y s3 m Hy Hfy Em)|]. cbn. intros _ s4 H4. apply wp_ret.
    split; [done|]. split; [by eapply says_rep|]. apply says_grew in H4. eapply (grew_trans s s3 s4 []); [by apply grew_same|done].
  - apply wp_bind, wp_ret, wp_ret. split; [done|]. split; [done|by apply grew_same].
Qed.

Lemma DSP_AssertTask_does s a t :
  rep s a -> dabs_ok a -> t ∈ a_ts a ->
  driver_returns (DSP_AssertTask t) s (fst (task_assert a t)) ([], snd (task_assert a t)).
Proof.
  intros Hr Hok Ht. assert (Hc : a_cur a ∈ a_ts a) by (apply (cur_in a Hok); intros E; rewrite E in Ht; by apply elem_of_nil in Ht).
  destruct (rep_task s a t Hr Hok Ht) as (x & Hx & Hcx & _). destruct (rep_task s a _ Hr Hok Hc) as (y & Hy & Hcy & _).
  assert (Hset : rep (set_rude t C_TRUE s) (mk_dabs (a_core a) (a_ts a) (a_cur a) (Some t))) by (destruct Hr; by constructor).
  assert (Ep : prio_in (a_core a) t = t_prio x /\ prio_in (a_core a) (a_cur a) = t_prio y).
  { rewrite <- (rep_core s a Hr). by rewrite (prio_in_cores _ _ _ Hx), (prio_in_cores _ _ _ Hy). }
  destruct Ep as [Epx Epy]. unfold DSP_AssertTask, task_assert. apply wp_bind, wp_gets. rewrite (rep_curr s a Hr), Epx, Epy.
  destruct (t =? a_cur a); cbn [orb].
  - apply wp_bind, wp_modify, wp_ret. split; [done|]. split; [done|by apply grew_same].
  - apply wp_bind, (wp_tget _ _ x); [done|]. apply wp_bind, (wp_tget _ _ y); [done|]. destruct (t_prio x <? t_prio y).
    + apply wp_bind, wp_modify, wp_bind, (wp_tget _ _ y); [done|]. apply wp_bind.
      destruct (t_state y =? DSPTASK_RUN); cbn [when fst snd].
      * eapply wp_mono; [apply (mod_does _ _ _ _ Hset)|]. cbn. intros _ s1 [H1 H2]. by apply wp_ret.
      * apply wp_ret, wp_ret. split; [done|]. split; [done|by apply grew_same].
    + apply wp_ret. split; [done|]. split; [done|by apply grew_same].
Qed.

(** ** Histories *)

Inductive dcall := CInt | CAdd (t : Z) | CCancel (t : Z) | CAssert (t : Z).

Definition dexec (c : dcall) : M dspst Z :=
  match c with
  | CInt => dsp_inthandler polls call;; ret 0
  | CAdd t => DSP_AddTask polls t
  | CCancel t => DSP_CancelTask t;; ret 0
  | CAssert t => DSP_AssertTask t
  end.

(** The result, the mails and the abstract state. *)
Definition dspec (s : dspst) (a : dabs) (c : dcall) : Z * (list Z * dabs) :=
  match c with
  | CInt => (0, task_step cbsent a (default 0 (incoming s)))
  | CAdd t => (t, task_add a t)
  | CCancel t => (0, ([], a))
  | CAssert t => (fst (task_assert a t), ([], snd (task_assert a t)))
  end.

(** What the interface asks for: the processor interrupts to deliver a mail while
    it has a task; a task is added once, and if it is to start at once the
    processor has sent its greeting; a task that was asserted is in the list. The
    running task is not asserted and then finished. *)
Definition dallowed (s : dspst) (a : dabs) (c : dcall) : Prop :=
  match c with
  | CInt => a_ts a <> [] /\ is_Some (incoming s) /\ (incoming s = Some 0xDCD10003 -> a_rude a <> Some (a_cur a))
  | CAdd t => t <> NULL /\ t ∉ a_ts a /\ is_Some (a_core a !! t) /\
              (hd NULL (insert_prio (a_core a) t (a_ts a)) = t -> is_Some (next_mail polls (dv_log (d_dev s))))
  | CCancel t => is_Some (a_core a !! t)
  | CAssert t => t ∈ a_ts a
  end.

Lemma task_step_ok a m :
  dabs_ok a -> a_cur a ∈ a_ts a -> (m = 0xDCD10003 -> a_rude a <> Some (a_cur a)) -> dabs_ok (snd (task_step cbsent a m)).
Proof.
  intros Hok Hc Hnr. assert (Hrude : forall r, a_rude a = Some r -> r ∈ a_ts a) by apply (ok_rude a Hok).
  assert (Hn : default (next_task (a_ts a) (a_cur a)) (a_rude a) ∈ a_ts a).
  { destruct (a_rude a); [by apply Hrude|]. by apply next_in; [|apply (ok_nodup a Hok)]. }
  unfold task_step. set (n := default _ _) in *.
  destruct (m =? 0xDCD10000); [by apply ok_set|]. destruct (m =? 0xDCD10001); [by apply ok_set|].
  destruct (m =? 0xDCD10002).
  - unfold switch_to. destruct (n =? a_cur a); [by apply ok_same|]. by apply ok_set.
  - destruct (m =? 0xDCD10003).
    + destruct (Z.eqb_spec n (a_cur a)); [|by apply ok_remove].
      constructor; cbn; try done; [apply NoDup_nil_2|apply not_elem_of_nil|constructor|by intros ? ?%elem_of_nil|].
      apply fields_state; [by apply (ok_mem a Hok)|by apply (ok_fields a Hok)].
    + by destruct (m =? 0xDCD10004).
Qed.

Lemma task_add_ok a t :
  dabs_ok a -> t <> NULL -> t ∉ a_ts a -> is_Some (a_core a !! t) -> dabs_ok (snd (task_add a t)).
Proof.
  intros Hok Ht0 Ht Hm. pose proof (ok_entered a t Hok Ht0 Ht Hm) as H1.
  assert (Ht1 : t ∈ a_ts (entered a t)) by (apply in_insert; by left).
  assert (Hc : a_cur (entered a t) ∈ a_ts (entered a t)).
  { apply (cur_in _ H1). intros E. rewrite E in Ht1. by apply elem_of_nil in Ht1. }
  pose proof (ok_set _ t DSPTASK_INIT _ _ H1 Ht1 Hc (ok_rude _ H1)) as H2.
  assert (E : a_ts (snd (task_add a t)) = a_ts (entered a t)) by (by apply insert_prio_state).
  unfold task_add in E |- *. cbn [snd a_ts] in E |- *. rewrite E. exact H2.
Qed.

(** Each permitted call does what the abstract machine does. *)
Lemma dexec_ok s a c :
  rep s a -> dabs_ok a -> dallowed s a c ->
  driver_returns (dexec c) s (fst (dspec s a c)) (snd (dspec s a c)) /\ dabs_ok (snd (snd (dspec s a c))).
Proof.
  intros Hr Hok. destruct c as [|t|t|t]; cbn [dallowed dexec dspec fst snd].
  - intros (Hne & [m Em] & Hnr). rewrite Em in Hnr |- *. cbn [default from_option id]. split.
    + apply wp_bind. eapply wp_mono; [apply (inthandler_does s a m); [done|done|done|done|intros ->; by apply Hnr]|].
      cbn. intros _ s1 Hp. by apply wp_ret.
    + apply task_step_ok; [done|by apply cur_in|intros ->; by apply Hnr].
  - intros (H1 & H2 & H3 & H4). split; [by apply DSP_AddTask_does|by apply task_add_ok].
  - intros Hm. split; [|done]. apply wp_bind.
    eapply wp_mono; [by apply (flags_ok s a t (fun x => Z.lor (t_flags x) DSPTASK_CANCEL))|].
    cbn. intros _ s1 [H1 H2]. apply wp_ret. split; [done|]. split; [done|by apply grew_same].
  - intros Ht. split; [by apply DSP_AssertTask_does|].
    assert (Hc : a_cur a ∈ a_ts a) by (apply (cur_in a Hok); intros E; rewrite E in Ht; by apply elem_of_nil in Ht).
    unfold task_assert. destruct (_ || _); [|done]. apply ok_same; [done|done|]. by intros r [= <-].
Qed.

Section History.
Context (con : console) (T : gmap Z dsptask) (dev : dspdev).
(** The tasks in memory have fields that fit their types. *)
Context (HT : forall t x, T !! t = Some x -> task_ok x).

(** The states the driver gets into by permitted calls after [DSP_Init], with the
    abstract state and the mails sent so far. *)
Inductive dhistory : dspst -> dabs -> list Z -> Prop :=
| dh_init s : DSP_Init con (dsp_boot T dev) = Ok (tt, s) -> dhistory s (mk_dabs (cores T) [] NULL None) []
| dh_call s a ms c r s' :
    dhistory s a ms -> dallowed s a c -> dexec c s = Ok (r, s') ->
    dhistory s' (snd (snd (dspec s a c))) (ms ++ fst (snd (dspec s a c))).

Lemma init_ok :
  wp (DSP_Init con) (fun _ s => rep s (mk_dabs (cores T) [] NULL None) /\ grew (dsp_boot T dev) [] s) (dsp_boot T dev).
Proof.
  unfold DSP_Init. apply wp_bind, wp_gets. change (d_inited (dsp_boot T dev)) with C_FALSE. rewrite Z.eqb_refl. cbn [when].
  apply wp_bind, wp_modify. set (s1 := set_intcb _ _ _). assert (Hr1 : rep s1 (mk_dabs (cores T) [] NULL None)) by (by constructor).
  assert (Hirq : forall c s, (forall d, exists r i, c d = Ok (r, mk_dspdev i (dv_log d))) -> rep s (mk_dabs (cores T) [] NULL None) ->
    driver_does (A := Z) (on_dev c) s ([], mk_dabs (cores T) [] NULL None)).
  { intros c s Hc Hr. destruct (Hc (d_dev s)) as (r & i & E). unfold driver_does, wp, on_dev. rewrite E.
    split; [destruct Hr; by constructor|]. exists []. by rewrite app_nil_r. }
  assert (Hgo : forall (c : M dspst unit) s, driver_does c s ([], mk_dabs (cores T) [] NULL None) -> d_dev s = dev ->
    wp c (fun _ s' => rep s' (mk_dabs (cores T) [] NULL None) /\ grew (dsp_boot T dev) [] s') s).
  { intros c s Hd E. eapply wp_mono; [exact Hd|]. cbn. intros _ s' [H1 (l & H2 & H3)]. split; [done|]. exists l. by rewrite H2, E. }
  apply Hgo; [|done].
  apply (grew_bind _ _ [] [] (mk_dabs (cores T) [] NULL None)); [apply Hirq; [|done]; intros d; by eexists _, _|]. intros _ s2 Hr2 _.
  apply (grew_bind _ _ [] [] (mk_dabs (cores T) [] NULL None)).
  { unfold driver_does, wp, on_dev, UnmaskIrq, modify. split; [destruct Hr2; by constructor|]. exists []. by rewrite app_nil_r. }
  intros _ s3 Hr3 _.
  apply (grew_bind _ _ [] [] (mk_dabs (cores T) [] NULL None)); [by apply mod_does|]. intros _ s4 Hr4 _.
  apply (grew_bind _ _ [] [] (mk_dabs (cores T) [] NULL None)); [by apply mod_does|]. intros _ s5 Hr5 _.
  apply wp_bind, wp_modify, wp_bind, wp_gets, wp_modify. split; [destruct Hr5; by constructor|by apply grew_same].
Qed.

Lemma history_ok s a ms : dhistory s a ms -> rep s a /\ dabs_ok a /\ grew (dsp_boot T dev) ms s.
Proof using Htakes Hcall HT.
  induction 1 as [s E|s a ms c r s' Hh (Hr & Hok & Hg) Hal E].
  - pose proof init_ok as Hi. unfold wp in Hi. rewrite E in Hi. destruct Hi as [Hr Hg]. split; [done|]. split; [|done].
    constructor; cbn; try done; [apply NoDup_nil_2|apply not_elem_of_nil|constructor|by intros ? ?%elem_of_nil|].
    intros t x (y & Hy & ->)%cores_inv. exact (HT t y Hy).
  - destruct (dexec_ok s a c Hr Hok Hal) as [Hd Hok']. unfold driver_returns, wp in Hd. rewrite E in Hd.
    destruct Hd as (_ & Hr' & Hg'). split; [done|]. split; [done|]. by eapply grew_trans.
Qed.


(** ** Taking turns *)

(** After [n] interrupts in each of which the running task yields. *)
Inductive dyields (s : dspst) : nat -> dspst -> Prop :=
| dy_O : dyields s O s
| dy_S n s1 s2 :
    dyields s n s1 -> incoming s1 = Some 0xDCD10002 -> dsp_inthandler polls call s1 = Ok (tt, s2) -> dyields s (S n) s2.

(** The [n]-th successor. *)
Fixpoint turn (ts : list Z) (c : Z) (n : nat) : Z :=
  match n with O => c | S n => next_task ts (turn ts c n) end.

Lemma turn_in ts c n : c ∈ ts -> NoDup ts -> turn ts c n ∈ ts.
Proof. intros Hc Hnd. induction n as [|n IH]; [done|]. by apply next_in. Qed.

Lemma turn_lookup ts c i n :
  NoDup ts -> ts !! i = Some c -> ts !! ((i + n) mod length ts)%nat = Some (turn ts c n).
Proof.
  intros Hnd Hi. pose proof (lookup_lt_Some _ _ _ Hi) as Hlt. induction n as [|n IH]; cbn [turn].
  - rewrite Nat.add_0_r, Nat.mod_small by done. done.
  - set (j := ((i + n) mod length ts)%nat) in *. set (d := turn ts c n) in *.
    assert (Ej : ((i + S n) mod length ts = S j mod length ts)%nat).
    { unfold j. rewrite <- (Nat.add_1_r (_ mod _)), Nat.Div0.add_mod_idemp_l. f_equal. lia. }
    rewrite Ej. clear Ej. clearbody j d. pose proof (lookup_lt_Some _ _ _ IH) as Hj.
    assert (Es : ts = take j ts ++ d :: drop (S j) ts) by (symmetry; by apply take_drop_middle).
    assert (Hb : behind d ts = drop (S j) ts).
    { rewrite Es at 1. apply behind_split. rewrite Es in Hnd. by apply remove_notin in Hnd as (? & _). }
    unfold next_task. rewrite Hb. destruct (decide (S j < length ts)%nat) as [Hl|Hl].
    + rewrite Nat.mod_small by done. destruct (lookup_lt_is_Some_2 ts (S j) Hl) as [e He].
      rewrite (drop_S _ _ _ He). done.
    + assert (S j = length ts) as E by lia. rewrite E, Nat.Div0.mod_same. rewrite drop_all. cbn [hd]. by destruct ts.
Qed.

Lemma dyields_turn s a n s' :
  rep s a -> dabs_ok a -> a_ts a <> [] -> a_rude a = None -> dyields s n s' ->
  exists a', rep s' a' /\ dabs_ok a' /\ a_ts a' = a_ts a /\ a_rude a' = None /\ a_cur a' = turn (a_ts a) (a_cur a) n.
Proof.
  intros Hr Hok Hne Hru. induction 1 as [|n s1 s2 Hy (a1 & Hr1 & Hok1 & Ets & Er & Ec) Hin E]; [by exists a|].
  assert (Hne1 : a_ts a1 <> []) by (by rewrite Ets).
  assert (Hd : driver_does (dsp_inthandler polls call) s1 (task_step cbsent a1 0xDCD10002)) by (by apply inthandler_does).
  assert (Hok2 : dabs_ok (snd (task_step cbsent a1 0xDCD10002))) by (apply task_step_ok; [done|by apply cur_in|done]).
  unfold driver_does, wp in Hd. rewrite E in Hd. destruct Hd as [Hr2 _]. eexists. split; [exact Hr2|]. split; [done|].
  unfold task_step, switch_to. rewrite Er. cbn [default from_option id]. change (0xDCD10002 =? 0xDCD10000) with false.
  change (0xDCD10002 =? 0xDCD10001) with false. change (0xDCD10002 =? 0xDCD10002) with true. cbv iota. cbn [turn].
  rewrite <- Ec, <- Ets. destruct (Z.eqb_spec (next_task (a_ts a1) (a_cur a1)) (a_cur a1)) as [En|En]; cbn; [by rewrite En|done].
Qed.

End History.
End Driver.
