(* ===== verification/DspDemo.v ===== *)
(** * Tasks of the signal processor: concrete runs

    Three tasks on a signal processor that sends a list of mails. The witnesses of
    the theorems of [DspTheorems], and runs outside the contract of the interface. *)

From stdpp Require Import base gmap list.
From Stdlib Require Import ZArith Lia.
From S2P Require Import Prelude Devices KState Clock Irq DspDev Dsp DspProofs DspTheorems.

Open Scope Z_scope.

(** A processor that takes every mail at once and whose mails have the low halves
    [script], one for each reading of the low mailbox register. *)
Definition count_reads (r : Z) (l : list regev) : nat :=
  length (List.filter (fun e => match e with RdReg r' _ => r' =? r | _ => false end) l).
Definition demo_hw (script : list Z) : DspHw :=
  {| cr_write := fun _ v => v; cr_read := fun _ v => v;
     dsp_read := fun l r => if r =? 2 then 0xDCD1 else if r =? 3 then nth (count_reads 3 l) script 2 else 0 |}.

Lemma demo_takes script : takes_mail (H := demo_hw script) 1.
Proof. intros l. by eexists. Qed.

(** Every callback sends the mail 7. *)
Definition demo_call (script : list Z) (f t : Z) : M dspst unit := send (H := demo_hw script) 1 7.
Definition demo_sent (f t : Z) : list Z := [7].

Lemma demo_call_ok script f t s a :
  f <> NULL -> dsp_rep s a ->
  wp (demo_call script f t) (fun _ s' => dsp_rep s' a /\ grew s (demo_sent f t) s') s.
Proof.
  intros _ Hr. unfold demo_call. eapply wp_mono; [apply (send_ok (H := demo_hw script) 1 (demo_takes script) 7); done|].
  cbn. intros _ s' Hs. split; [by eapply says_rep|by apply says_grew].
Qed.

Definition demo_task (prio n : Z) : dsptask :=
  mk_task 0 prio 0 n (n + 1) (n + 2) (n + 3) (n + 4) (n + 5) (n + 6) (n + 7) 0 8 9 0 0 0.
Definition demo_tasks : gmap Z dsptask := <[100 := demo_task 1 10]> (<[200 := demo_task 2 20]> (<[300 := demo_task 1 30]> ∅)).
Definition demo_dev : dspdev := mk_dspdev (mk_irqst (mk_regs 0 0 0 0 0 0 0 0 0) (fun _ => NULL) (fun _ => 0)) [].

Lemma demo_fields t x : demo_tasks !! t = Some x -> task_ok x.
Proof.
  unfold demo_tasks. rewrite !lookup_insert_Some, lookup_empty. unfold task_ok, is_mail.
  intros [ [_ <-]|[_ [ [_ <-]|[_ [ [_ <-]|[_ ?] ] ] ] ] ]; [cbn; lia..|done].
Qed.

(** ** Running the abstract and the concrete machine side by side *)

Section Run.
Context (script : list Z).
#[local] Instance hw : DspHw := demo_hw script.

Definition in_b (t : Z) (l : list Z) : bool := existsb (Z.eqb t) l.
Lemma in_b_spec t l : in_b t l = true <-> t ∈ l.
Proof.
  unfold in_b. rewrite existsb_exists. split; [intros (x & Hx & ->%Z.eqb_eq); by apply list_elem_of_In|].
  intros Ht. exists t. split; [by apply list_elem_of_In|apply Z.eqb_refl].
Qed.

Definition is_some_b {A} (o : option A) : bool := match o with Some _ => true | None => false end.
Lemma is_some_b_spec {A} (o : option A) : is_some_b o = true -> is_Some o.
Proof. by destruct o; [eexists|]. Qed.

Definition opt_eqb (o : option Z) (x : Z) : bool := match o with Some y => y =? x | None => false end.

Definition allowed_b (s : dspst) (a : dabs) (c : dcall) : bool :=
  match c with
  | CInt => negb (match a_ts a with [] => true | _ => false end) && is_some_b (incoming 1 s)
            && (negb (opt_eqb (incoming 1 s) 0xDCD10003) || negb (opt_eqb (a_rude a) (a_cur a)))
  | CAdd t => negb (t =? NULL) && negb (in_b t (a_ts a)) && is_some_b (a_core a !! t)
              && is_some_b (next_mail 1 (dv_log (d_dev s)))
  | CCancel t => is_some_b (a_core a !! t)
  | CAssert t => in_b t (a_ts a)
  end.

Lemma allowed_b_spec s a c : allowed_b s a c = true -> dallowed 1 s a c.
Proof.
  destruct c as [|t|t|t]; cbn [allowed_b dallowed].
  - intros [ [H1 H2]%andb_prop H3]%andb_prop. split; [by destruct (a_ts a)|]. split; [by apply is_some_b_spec|].
    intros E Er. rewrite E, Er in H3. cbn in H3. by rewrite Z.eqb_refl in H3.
  - intros [ [ [H1 H2]%andb_prop H3]%andb_prop H4]%andb_prop. apply negb_true_iff, Z.eqb_neq in H1. split; [done|].
    split; [rewrite <- in_b_spec; by destruct (in_b t (a_ts a))|]. split; [by apply is_some_b_spec|]. intros _. by apply is_some_b_spec.
  - apply is_some_b_spec.
  - apply in_b_spec.
Qed.

Fixpoint dsp_run (cs : list dcall) (st : dspst * dabs * list Z) : option (dspst * dabs * list Z) :=
  match cs with
  | [] => Some st
  | c :: cs =>
      let '(s, a, ms) := st in
      if allowed_b s a c then
        match dexec 1 (demo_call script) c s with
        | Ok (_, s') => let out := snd (dspec 1 demo_sent s a c) in dsp_run cs (s', snd out, ms ++ fst out)
        | Fault _ => None
        end
      else None
  end.

Definition demo_start : option (dspst * dabs * list Z) :=
  match DSP_Init GameCube (dsp_boot demo_tasks demo_dev) with
  | Ok (_, s) => Some (s, mk_dabs (cores demo_tasks) [] NULL None, [])
  | Fault _ => None
  end.
Definition demo_end (cs : list dcall) : option (dspst * dabs * list Z) :=
  match demo_start with Some st => dsp_run cs st | None => None end.

Notation dhist := (dhistory 1 (demo_call script) demo_sent GameCube demo_tasks demo_dev).

Lemma dsp_run_history cs st st' :
  dsp_run cs st = Some st' -> dhist st.1.1 st.1.2 st.2 -> dhist st'.1.1 st'.1.2 st'.2.
Proof.
  revert st. induction cs as [|c cs IH]; intros [ [s a] ms]; cbn [dsp_run]; [by intros [= <-]|].
  destruct (allowed_b s a c) eqn:Ea; [|done]. destruct (dexec 1 (demo_call script) c s) as [ [r s']|] eqn:E; [|done].
  intros Hrun Hh. apply (IH _ Hrun). cbn [fst snd] in *. by eapply (dh_call _ _ _ _ _ _ s a ms c r s'); [|apply allowed_b_spec|].
Qed.

Lemma demo_history cs s a ms : demo_end cs = Some (s, a, ms) -> dhist s a ms.
Proof.
  unfold demo_end, demo_start. destruct (DSP_Init GameCube _) as [ [ [] s0]|] eqn:E; [|done].
  intros Hr. apply (dsp_run_history _ _ _ Hr). by constructor.
Qed.
End Run.

(** ** A run within the contract *)

(** The greeting and the first mail of the first task. *)
Definition script1 : list Z := [0; 0].
Definition calls1 : list dcall := [CAdd 100; CAdd 200; CAdd 300; CInt].

Definition state_of (o : option (dspst * dabs * list Z)) : dspst := match o with Some (s, _, _) => s | None => dsp_boot ∅ demo_dev end.
Definition abs_of (o : option (dspst * dabs * list Z)) : dabs := match o with Some (_, a, _) => a | None => mk_dabs ∅ [] NULL None end.
Definition mails_of (o : option (dspst * dabs * list Z)) : list Z := match o with Some (_, _, m) => m | None => [] end.

Lemma demo_history_of script cs :
  is_some_b (demo_end script cs) = true ->
  dhistory (H := demo_hw script) 1 (demo_call script) demo_sent GameCube demo_tasks demo_dev
    (state_of (demo_end script cs)) (abs_of (demo_end script cs)) (mails_of (demo_end script cs)).
Proof.
  destruct (demo_end script cs) as [ [ [s a] m]|] eqn:E; [|done]. intros _. by apply (demo_history script cs).
Qed.



(** The yields do happen: after two of them the third task is current. *)
Lemma demo_yields :
  let i := dsp_inthandler (H := demo_hw script1) 1 (demo_call script1) in
  match (i;; i) (state_of (demo_end script1 calls1)) with Ok (_, s) => d_currtask s | Fault _ => NULL end = 200.
Proof. by vm_compute. Qed.

(** ** Outside the contract *)

(** The running task is asserted and then finishes: the driver hands the processor
    over to the task it has just removed, which stays current although another
    task is first in the list. *)
Definition script2 : list Z := [0; 0; 3].
Lemma asserted_task_finishes :
  let s := state_of (demo_end script2 calls1) in
  match (DSP_AssertTask (H := demo_hw script2) 100;; dsp_inthandler (H := demo_hw script2) 1 (demo_call script2)) s with
  | Ok (_, s') => d_currtask s' = 100 /\ d_firsttask s' = 300 /\ t_state <$> d_tasks s' !! 100 = Some DSPTASK_DONE
  | Fault _ => False
  end.
Proof. by vm_compute. Qed.

(** [DSP_AssertTask] without any task reads the priority of no task. *)
Lemma assert_without_task :
  match DSP_Init (H := demo_hw []) GameCube (dsp_boot demo_tasks demo_dev) with
  | Ok (_, s) => DSP_AssertTask (H := demo_hw []) 100 s = Fault BadAccess
  | Fault _ => False
  end.
Proof. by vm_compute. Qed.

(** A more urgent task is added while another runs: [DSP_AddTask] boots it as if
    the processor were idle, and the mail it takes for the greeting is the running
    task's. *)
Lemma urgent_task_boots :
  let s := state_of (demo_end script1 [CAdd 200; CInt]) in
  match DSP_AddTask (H := demo_hw script1) 1 100 s with
  | Ok (_, s') =>
      d_currtask s' = 200 /\ t_state <$> d_tasks s' !! 200 = Some DSPTASK_RUN /\ count_reads 3 (dv_log (d_dev s')) = 3%nat /\
      sent (dv_log (d_dev s')) = boot_mails (demo_task 2 20) ++ boot_mails (demo_task 1 10)
  | Fault _ => False
  end.
Proof. by vm_compute. Qed.
