(* ===== verification/Aram.v ===== *)
(** * The auxiliary memory ([libogc/aram.c], [gc/ogc/aram.h])

    16 megabytes of memory behind the signal processor, with a slot for more,
    reached by DMA. The driver finds the size at the start, starts transfers, and
    hands out blocks from a stack.

    A write to the low half of the length register starts a transfer with the
    parameters in the registers. What it does to main memory and to the auxiliary
    memory is the parameter [dma] of the class [AramHw]. *)

From stdpp Require Import base gmap list.
From Stdlib Require Import ZArith Lia.
From S2P Require Import Prelude Devices KState Clock Irq DspDev.

Open Scope Z_scope.

Definition AR_MRAMTOARAM : Z := 0.
Definition AR_ARAMTOMRAM : Z := 1.
Definition AR_ARAMINTALL : Z := 0.
Definition AR_ARAMINTUSER : Z := 1.
Definition AR_ARAMEXPANSION : Z := 2.

(** The state of the memory behind the registers; a transfer gets direction,
    address in main memory, address in the auxiliary memory and length, and the
    words of main memory. *)
Class AramHw := {
  aram : Type;
  dma : aram -> Z -> Z -> Z -> Z -> gmap Z Z -> aram * gmap Z Z;
}.

(** The variables of aram.c, the words of main memory by address, the registers. *)
Record arst `{AramHw} := mk_ar {
  ARDmaCallback : Z; ARInit_Flag : Z; ARStackPointer : Z; ARFreeBlocks : Z; ARBlockLen : Z;
  ARInternalSize : Z; ARExpansionSize : Z; ARSize : Z;
  ar_mem : gmap Z Z; ar_hw : aram; ar_dev : dspdev }.

Section Aram.
Context `{DspHw} `{AramHw}.
(** The addresses of [zero_buffer] of [__ARClearArea] and of [test_data],
    [dummy_data] and [buffer] of [__ARCheckSize]; the callbacks. *)
Context (con : console) (zero_buffer test_data dummy_data buffer : Z) (polls : nat).
Context (call : Z -> M arst unit).

Definition set_stack (sp free bl : Z) (s : arst) : arst :=
  mk_ar _ (ARDmaCallback s) (ARInit_Flag s) sp free bl (ARInternalSize s) (ARExpansionSize s) (ARSize s) (ar_mem s) (ar_hw s) (ar_dev s).
Definition set_sizes (int ext size : Z) (s : arst) : arst :=
  mk_ar _ (ARDmaCallback s) (ARInit_Flag s) (ARStackPointer s) (ARFreeBlocks s) (ARBlockLen s) int ext size (ar_mem s) (ar_hw s) (ar_dev s).
Definition set_arcb (cb init : Z) (s : arst) : arst :=
  mk_ar _ cb init (ARStackPointer s) (ARFreeBlocks s) (ARBlockLen s) (ARInternalSize s) (ARExpansionSize s) (ARSize s) (ar_mem s) (ar_hw s) (ar_dev s).
Definition set_armem (m : gmap Z Z) (h : aram) (d : dspdev) (s : arst) : arst :=
  mk_ar _ (ARDmaCallback s) (ARInit_Flag s) (ARStackPointer s) (ARFreeBlocks s) (ARBlockLen s) (ARInternalSize s) (ARExpansionSize s)
    (ARSize s) m h d.

Definition on_dspdev {A} (c : M dspdev A) : M arst A :=
  fun s => match c (ar_dev s) with Ok (a, d) => Ok (a, set_armem (ar_mem s) (ar_hw s) d s) | Fault f => Fault f end.
Definition rd_word (a : Z) : M arst Z := getopt (fun s => ar_mem s !! a).
Definition wr_word (a v : Z) : M arst unit :=
  fun s => match ar_mem s !! a with
           | Some _ => Ok (tt, set_armem (<[a := v]> (ar_mem s)) (ar_hw s) (ar_dev s) s)
           | None => Fault BadAccess
           end.

(** ** Transfers *)

(** The value last written to a register. *)
Definition last_write (r : Z) (l : list regev) : Z :=
  fold_left (fun x e => match e with WrReg r' v => if r' =? r then v else x | RdReg _ _ => x end) l 0.
(** What the registers 16 to 21 ask for: direction, main memory address, auxiliary
    memory address, length. *)
Definition dma_params (l : list regev) : Z * Z * Z * Z :=
  (Z.shiftr (last_write 20 l) 15,
   Z.lor (Z.shiftl (last_write 16 l) 16) (last_write 17 l),
   Z.lor (Z.shiftl (Z.land (last_write 18 l) 0x3ff) 16) (last_write 19 l),
   Z.lor (Z.shiftl (Z.land (last_write 20 l) 0x3ff) 16) (last_write 21 l)).
Definition transfer : M arst unit := fun s =>
  let '(dir, mram, addr, len) := dma_params (dv_log (ar_dev s)) in
  let '(h, m) := dma (ar_hw s) dir mram addr len (ar_mem s) in
  Ok (tt, set_armem m h (ar_dev s) s).

(** Programming the registers, in the order of the three functions that do it;
    [dirbits] is the direction bit in its place. *)
Definition ar_program (dirbits memaddr aramaddr len : Z) : M arst unit :=
  on_dspdev (dsp_mod 16 0x03ff (SHIFTR memaddr 16 16));;
  on_dspdev (dsp_mod 17 0xffe0 (SHIFTR memaddr 0 16));;
  on_dspdev (dsp_mod 18 0x03ff (SHIFTR aramaddr 16 16));;
  on_dspdev (dsp_mod 19 0xffe0 (SHIFTR aramaddr 0 16));;
  on_dspdev (dsp_mod 20 0x8000 dirbits);;
  on_dspdev (dsp_mod 20 0x03ff (SHIFTR len 16 16));;
  on_dspdev (dsp_mod 21 0xffe0 (SHIFTR len 0 16));;
  transfer.

Definition AR_StartDMA (dir memaddr aramaddr len : Z) : M arst unit :=
  ar_program (SHIFTL dir 15 1) memaddr aramaddr len.

Definition ARClearInterrupt : M arst unit :=
  on_dspdev (v <- dsp_rd 5; dsp_wr 5 (Z.lor (Z.ldiff v (Z.lor DSPCR_DSPINT DSPCR_AIINT)) DSPCR_ARINT)).

(** [while(_dspReg[5]&DSPCR_DSPDMA);] *)
Fixpoint waitdma_loop (k : nat) : M dspdev unit :=
  match k with
  | O => fail OutOfFuel
  | S k => v <- dsp_rd 5; if negb (Z.land v DSPCR_DSPDMA =? 0) then waitdma_loop k else ret tt
  end.
Definition ARWaitDma : M arst unit := on_dspdev (waitdma_loop polls).

(** [while(!(_dspReg[11]&0x0001));] *)
Fixpoint ready_loop (k : nat) : M dspdev unit :=
  match k with
  | O => fail OutOfFuel
  | S k => v <- dsp_rd 11; if Z.land v 1 =? 0 then ready_loop k else ret tt
  end.

Definition ARReadDMA (memaddr aramaddr len : Z) : M arst unit :=
  ar_program 0x8000 memaddr aramaddr len;; ARWaitDma;; ARClearInterrupt.
Definition ARWriteDMA (memaddr aramaddr len : Z) : M arst unit :=
  ar_program 0 memaddr aramaddr len;; ARWaitDma;; ARClearInterrupt.

(** ** Clearing *)

(** [memset(p,0,4*n)] on words. *)
Fixpoint memset_words (n : nat) (a : Z) : M arst unit :=
  match n with O => ret tt | S n => wr_word a 0;; memset_words n (a + 4) end.

Fixpoint clear_loop (fuel : nat) (curraddr endaddr currlen : Z) : M arst unit :=
  match fuel with
  | O => fail OutOfFuel
  | S k =>
      if curraddr <? endaddr then
        let currlen := if u32 (endaddr - curraddr) <? currlen then u32 (Z.ldiff (u32 (u32 (endaddr - curraddr) + 31)) 31) else currlen in
        ARWriteDMA zero_buffer curraddr currlen;;
        clear_loop k (u32 (curraddr + currlen)) endaddr currlen
      else ret tt
  end.

(** Each round but the last moves 2048 bytes. *)
Definition clear_rounds (len : Z) : nat := S (Z.to_nat (len / 2048 + 1)).

Definition ARClearArea (aramaddr len : Z) : M arst unit :=
  on_dspdev (ready_loop polls);;
  memset_words 512 zero_buffer;;
  clear_loop (clear_rounds len) aramaddr (u32 (aramaddr + len)) 2048.

Definition AR_Clear (flag : Z) : M arst unit :=
  int <- gets ARInternalSize; ext <- gets ARExpansionSize;
  if flag =? AR_ARAMINTALL then when (negb (int =? 0)) (ARClearArea 0 int)
  else if flag =? AR_ARAMINTUSER then when (negb (int =? 0)) (ARClearArea 0x4000 (u32 (int - 0x4000)))
  else if flag =? AR_ARAMEXPANSION then when (negb (int =? 0) && negb (ext =? 0)) (ARClearArea int ext)
  else ret tt.

(** ** The size of the memory *)

Fixpoint fill_loop (n : nat) (i : Z) : M arst unit :=
  match n with
  | O => ret tt
  | S n => wr_word (test_data + 4 * i) 0xBAD1BAD0;; wr_word (dummy_data + 4 * i) 0xDEADBEEF;; fill_loop n (i + 1)
  end.

(** Clear the buffer, read it from [addr], and compare the first word. *)
Definition probe_at (addr : Z) : M arst bool :=
  memset_words 8 buffer;;
  ARReadDMA buffer addr 32;;
  b <- rd_word buffer; d <- rd_word dummy_data; ret (b =? d).

(** [__ARExpansionSize = ext; arsize += ext;] and the flag, or the next probe. *)
Definition ar_found (ext arszflag : Z) : M arst (Z * Z) :=
  modify (fun s => set_sizes (ARInternalSize s) ext (ARSize s) s);; ret (ext, arszflag).

Definition ARCheckSize : M arst unit :=
  on_dspdev (ready_loop polls);;
  modify (fun s => set_sizes 0x1000000 (ARExpansionSize s) 0x1000000 s);;
  on_dspdev (dsp_mod 9 0x3f 0x23);;
  fill_loop 8 0;;
  modify (fun s => set_sizes (ARInternalSize s) 0 (ARSize s) s);;
  ARWriteDMA test_data 0x1000000 32;;
  ARWriteDMA test_data 0x1200000 32;;
  ARWriteDMA test_data 0x2000000 32;;
  ARWriteDMA test_data 0x1000200 32;;
  ARWriteDMA test_data 0x1400000 32;;
  memset_words 8 buffer;;
  ARWriteDMA dummy_data 0x1000000 32;;
  ARReadDMA buffer 0x1000000 32;;
  b <- rd_word buffer; d <- rd_word dummy_data;
  ext <- (if b =? d then
            p1 <- probe_at 0x1200000;
            r <- (if p1 then ar_found 0x200000 0x03 else
                  p2 <- probe_at 0x2000000;
                  if p2 then ar_found 0x400000 (Z.lor 0x03 0x08) else
                  p3 <- probe_at 0x1400000;
                  if p3 then ar_found 0x1000000 (Z.lor 0x03 0x18) else ar_found 0x2000000 (Z.lor 0x03 0x20));
            on_dspdev (dsp_mod 9 0x3f (snd r));;
            ret (fst r)
          else ret 0);
  let arsize := u32 (0x1000000 + ext) in
  wr_word 0x800000d0 arsize;;
  modify (fun s => set_sizes (ARInternalSize s) (ARExpansionSize s) arsize s).

(** ** The interface *)

Definition fn_ARHandler : Z := 0x48.
Definition ARHandler : M arst unit :=
  ARClearInterrupt;;
  cb <- gets ARDmaCallback; when (negb (cb =? NULL)) (call cb).

Definition AR_RegisterCallback (callback : Z) : M arst Z :=
  old <- gets ARDmaCallback; modify (fun s => set_arcb callback (ARInit_Flag s) s);; ret old.

Definition AR_GetDMAStatus : M arst Z :=
  v <- on_dspdev (dsp_rd 5); ret (b2z (Z.land v DSPCR_DSPDMA =? DSPCR_DSPDMA)).

Definition AR_Init (stack_idx_array num_entries : Z) : M arst Z :=
  ini <- gets ARInit_Flag;
  if negb (ini =? 0) then ret 0x4000 else
  modify (fun s => set_arcb NULL (ARInit_Flag s) s);;
  on_dspdev (IRQ_Request IRQ_DSP_ARAM fn_ARHandler NULL);;
  on_dspdev (UnmaskIrq con (IRQMASK IRQ_DSP_ARAM));;
  modify (set_stack 0x4000 num_entries stack_idx_array);;
  on_dspdev (v <- dsp_rd 13; w <- dsp_rd 13; dsp_wr 13 (Z.lor (Z.ldiff v 0xff) (Z.land w 0xff)));;
  ARCheckSize;;
  modify (fun s => set_arcb (ARDmaCallback s) 1 s);;
  gets ARStackPointer.

Definition AR_Alloc (len : Z) : M arst Z :=
  curraddr <- gets ARStackPointer;
  modify (fun s => set_stack (u32 (ARStackPointer s + len)) (ARFreeBlocks s) (ARBlockLen s) s);;
  bl <- gets ARBlockLen;
  modify (fun s => set_stack (ARStackPointer s) (ARFreeBlocks s) (bl + 4) s);;
  wr_word bl len;;
  modify (fun s => set_stack (ARStackPointer s) (u32 (ARFreeBlocks s - 1)) (ARBlockLen s) s);;
  ret curraddr.

(** The result and, if [len] is not [NULL], the length stored there. *)
Definition AR_Free (len : Z) : M arst Z :=
  modify (fun s => set_stack (ARStackPointer s) (ARFreeBlocks s) (ARBlockLen s - 4) s);;
  bl <- gets ARBlockLen;
  when (negb (len =? NULL)) (n <- rd_word bl; wr_word len n);;
  n <- rd_word bl;
  modify (fun s => set_stack (u32 (ARStackPointer s - n)) (u32 (ARFreeBlocks s + 1)) (ARBlockLen s) s);;
  gets ARStackPointer.

Definition AR_CheckInit : M arst Z := gets ARInit_Flag.
Definition AR_Reset : M arst unit := modify (fun s => set_arcb (ARDmaCallback s) 0 s).
Definition AR_GetSize : M arst Z := gets ARSize.
Definition AR_GetBaseAddress : Z := 0x4000.
Definition AR_GetInternalSize : M arst Z := gets ARInternalSize.
End Aram.
