(* ===== verification/AramProofs.v ===== *)
(** * The auxiliary memory: theorems

    What a programmed transfer asks for, the clearing of an area, the search for
    the size, and the stack of blocks. *)

From stdpp Require Import base gmap list.
From Stdlib Require Import ZArith Lia.
From S2P Require Import Prelude Devices KState Clock Irq DspDev Aram.

Open Scope Z_scope.

Lemma wp_exists_unit {S} (c : M S unit) (P : S -> Prop) s :
  wp c (fun _ s' => P s') s -> exists s', c s = Ok (tt, s') /\ P s'.
Proof. intros ([] & s' & E & HP)%wp_run. by exists s'. Qed.

Lemma wp_seq7 {S B} (c1 c2 c3 c4 c5 c6 c7 : M S unit) (k : M S B) Q s :
  wp (c1;; c2;; c3;; c4;; c5;; c6;; c7) (fun _ s' => wp k Q s') s ->
  wp (c1;; c2;; c3;; c4;; c5;; c6;; c7;; k) Q s.
Proof.
  unfold wp, bind. destruct (c1 s) as [ [? s1]|]; [|done]. destruct (c2 s1) as [ [? s2]|]; [|done].
  destruct (c3 s2) as [ [? s3]|]; [|done]. destruct (c4 s3) as [ [? s4]|]; [|done]. destruct (c5 s4) as [ [? s5]|]; [|done].
  destruct (c6 s5) as [ [? s6]|]; [|done]. by destruct (c7 s6) as [ [? s7]|].
Qed.

(** Sequences reassociated. *)
Lemma wp_assoc_ext {S A B C D} (a : M S A) (b : A -> M S B) (c : A -> B -> M S C) (k : C -> M S D) Q s :
  wp (bind a (fun x => bind (b x) (fun y => c x y))) (fun z s' => wp (k z) Q s') s ->
  wp (bind a (fun x => bind (b x) (fun y => bind (c x y) k))) Q s.
Proof.
  unfold wp, bind. destruct (a s) as [ [x s1]|]; [|done]. destruct (b x s1) as [ [y s2]|]; [|done]. by destruct (c x y s2) as [ [? s3]|].
Qed.
Lemma wp_bind_if {S A B C} (a : M S A) (b : A -> M S B) (k : B -> M S C) Q s :
  wp (bind a (fun x => bind (b x) k)) Q s -> wp (bind (bind a b) k) Q s.
Proof. unfold wp, bind. by destruct (a s) as [ [x s1]|]. Qed.

(** ** Registers that keep what is written *)

(** The bits of the DMA registers that exist. *)
Definition reg_mask (r : Z) : Z := if (r =? 16) || (r =? 18) then 0x3ff else if r =? 20 then 0x83ff else 0xffe0.
Definition keeps_writes `{DspHw} : Prop :=
  forall l r, 16 <= r <= 21 -> dsp_read l r = Z.land (last_write r l) (reg_mask r).

Lemma last_write_app r l l' :
  last_write r (l ++ l') = fold_left (fun x e => match e with WrReg r' v => if r' =? r then v else x | RdReg _ _ => x end) l' (last_write r l).
Proof. unfold last_write. by rewrite fold_left_app. Qed.

Lemma shiftr16 m : SHIFTR m 16 16 = Z.land (Z.shiftr m 16) 0xffff. Proof. done. Qed.
Lemma shiftr0 m : SHIFTR m 0 16 = Z.land m 0xffff. Proof. unfold SHIFTR. by rewrite Z.shiftr_0_r. Qed.

(** The field that is replaced disappears from the value read. *)
Lemma replaced x m : Z.ldiff (Z.land x m) m = 0.
Proof.
  apply Z.bits_inj'. intros n _. rewrite Z.ldiff_spec, Z.land_spec, Z.bits_0. by destruct (Z.testbit x n), (Z.testbit m n).
Qed.

Lemma u16_land x m : 0 <= m < 2 ^ 16 -> u16 (Z.land x m) = Z.land x m.
Proof. intros Hm. apply wrap_small. pose proof (land_upper x m). lia. Qed.

Section Programmed.
Context `{DspHw} (Hk : keeps_writes).

Lemma mod_run r clr set d :
  r <> 5 ->
  dsp_mod r clr set d =
  Ok (tt, mk_dspdev (dv_irq d) (dv_log d ++ [RdReg r (u16 (dsp_read (dv_log d) r)); WrReg r (u16 (Z.lor (Z.ldiff (u16 (dsp_read (dv_log d) r)) clr) set))])).
Proof.
  intros Hr. unfold dsp_mod, bind, dsp_rd, dsp_wr. rewrite (proj2 (Z.eqb_neq _ _) Hr). cbn [dv_log dv_irq]. by rewrite <- app_assoc.
Qed.

(** A register that is one field takes the new value. *)
Lemma mod_field r set d :
  16 <= r <= 21 -> r <> 20 -> 0 <= set < 2 ^ 16 ->
  exists l, dsp_mod r (reg_mask r) set d = Ok (tt, mk_dspdev (dv_irq d) (dv_log d ++ l)) /\
    (forall r', last_write r' (dv_log d ++ l) = if r' =? r then set else last_write r' (dv_log d)) /\
    (forall r' v, WrReg r' v ∈ l -> r' = r).
Proof.
  intros Hr H20 Hs. rewrite mod_run by lia. eexists. split; [done|]. rewrite Hk by done.
  assert (Hm : 0 <= reg_mask r < 2 ^ 16) by (unfold reg_mask; repeat case_match; lia).
  rewrite u16_land, replaced, Z.lor_0_l, (wrap_small 16 set) by done. split.
  - intros r'. rewrite last_write_app. cbn. rewrite Z.eqb_sym. by destruct (r' =? r).
  - intros r' v [Hc|[Hc|Hc]%elem_of_cons]%elem_of_cons; [done|by injection Hc as -> ->|by apply elem_of_nil in Hc].
Qed.

(** The control register: direction and high part of the length. *)
Lemma mod_control dirbits hi d :
  dirbits = 0 \/ dirbits = 0x8000 -> 0 <= hi < 2 ^ 10 ->
  exists l, (dsp_mod 20 0x8000 dirbits;; dsp_mod 20 0x03ff hi) d = Ok (tt, mk_dspdev (dv_irq d) (dv_log d ++ l)) /\
    (forall r', last_write r' (dv_log d ++ l) = if r' =? 20 then Z.lor dirbits hi else last_write r' (dv_log d)).
Proof.
  intros Hd Hh. unfold bind. rewrite mod_run by lia. rewrite mod_run by lia. cbn [dv_irq dv_log].
  eexists (_ ++ _). rewrite app_assoc. split; [done|]. rewrite !Hk by lia. change (reg_mask 20) with 0x83ff.
  rewrite u16_land by lia. set (old := last_write 20 (dv_log d)).
  set (v1 := u16 (Z.lor (Z.ldiff (Z.land old 0x83ff) 0x8000) dirbits)).
  assert (Hl1 : last_write 20 (dv_log d ++ [RdReg 20 (Z.land old 0x83ff); WrReg 20 v1]) = v1) by (rewrite last_write_app; done).
  rewrite Hl1. assert (Hz : Z.lor (Z.ldiff (u16 (Z.land v1 0x83ff)) 0x3ff) hi = Z.lor dirbits hi).
  { rewrite u16_land by lia. f_equal. unfold v1. apply Z.bits_inj'. intros n Hn.
    rewrite Z.ldiff_spec, Z.land_spec. destruct (Z_lt_le_dec n 16) as [H16|H16].
    - unfold wrap. rewrite Z.mod_pow2_bits_low, Z.lor_spec, Z.ldiff_spec, Z.land_spec by lia.
      rewrite <- (Z2Nat.id n) in * by lia. generalize (Z.to_nat n), (Nat2Z.is_nonneg (Z.to_nat n)), H16. clear -Hd. intros k _ Hk.
      destruct Hd as [-> | ->]; do 16 (destruct k as [|k]; [cbn; by rewrite ?andb_false_r|]); lia.
    - unfold wrap. rewrite Z.mod_pow2_bits_high by lia. cbn. symmetry. destruct Hd as [-> | ->]; [apply Z.bits_0|].
      apply Z.bits_above_log2; [lia|]. cbn. lia. }
  rewrite Hz. rewrite (wrap_small 16 (Z.lor dirbits hi)).
  - intros r'. rewrite !last_write_app. cbn [fold_left]. rewrite (Z.eqb_sym 20 r'). by destruct (r' =? 20).
  - split; [apply Z.lor_nonneg; lia|]. destruct Hd as [-> | ->]; [rewrite Z.lor_0_l; lia|].
    pose proof (Z.add_lor_land 0x8000 hi). pose proof (land_upper 0x8000 hi). lia.
Qed.
End Programmed.

Lemma halves16 x : 0 <= x < 2 ^ 32 -> Z.lor (Z.shiftl (SHIFTR x 16 16) 16) (SHIFTR x 0 16) = x.
Proof. intros Hx. rewrite <- (halves x Hx) at 3. rewrite shiftr0. f_equal; [f_equal|]; by rewrite ?shiftr16, u16_land. Qed.

Lemma hi_range x : 0 <= SHIFTR x 16 16 < 2 ^ 16 /\ 0 <= SHIFTR x 0 16 < 2 ^ 16.
Proof. rewrite shiftr16, shiftr0. pose proof (land_upper (Z.shiftr x 16) 0xffff). pose proof (land_upper x 0xffff). lia. Qed.

Lemma hi_small x : 0 <= x < 2 ^ 26 -> 0 <= SHIFTR x 16 16 < 2 ^ 10.
Proof.
  intros Hx. split; [apply hi_range|]. rewrite shiftr16. change 0xffff with (Z.ones 16). rewrite Z.land_ones by lia.
  rewrite Z.shiftr_div_pow2 by lia. rewrite Z.mod_small; [apply Z.div_lt_upper_bound; lia|].
  split; [apply Z.div_pos; lia|apply Z.div_lt_upper_bound; lia].
Qed.

Section Transfers.
Context `{DspHw} `{AramHw} (Hk : keeps_writes).

Notation log_of s := (dv_log (ar_dev s)).
(** The state after more accesses to the registers. *)
Definition ar_more (l : list regev) (s : arst) : arst :=
  set_armem (ar_mem s) (ar_hw s) (mk_dspdev (dv_irq (ar_dev s)) (log_of s ++ l)) s.

Lemma on_dspdev_more (c : M dspdev unit) s l :
  c (ar_dev s) = Ok (tt, mk_dspdev (dv_irq (ar_dev s)) (log_of s ++ l)) -> on_dspdev c s = Ok (tt, ar_more l s).
Proof. intros E. unfold on_dspdev. by rewrite E. Qed.

Lemma field_step {B} r set s (k : M arst B) :
  16 <= r <= 21 -> r <> 20 -> 0 <= set < 2 ^ 16 ->
  exists l, (on_dspdev (dsp_mod r (reg_mask r) set);; k) s = k (ar_more l s) /\
    (forall r', last_write r' (log_of (ar_more l s)) = if r' =? r then set else last_write r' (log_of s)).
Proof.
  intros Hr H20 Hs. destruct (mod_field Hk r set (ar_dev s) Hr H20 Hs) as (l & E & Hl & _). exists l. split; [|exact Hl].
  unfold bind. by rewrite (on_dspdev_more _ _ _ E).
Qed.

Ltac last_writes :=
  repeat (match goal with W : forall r', last_write r' ?l = _ |- context [last_write _ ?l] => rewrite W end;
          match goal with |- context [?a =? ?b] => let v := eval vm_compute in (a =? b) in change (a =? b) with v end; cbv iota).

(** What the registers ask for after they have been programmed. *)
Lemma program_ok dirbits m a n s :
  dirbits = 0 \/ dirbits = 0x8000 -> 0 <= m < 2 ^ 32 -> 0 <= a < 2 ^ 26 -> 0 <= n < 2 ^ 26 ->
  exists l, ar_program dirbits m a n s =
    Ok (tt, let '(h, M) := dma (ar_hw s) (Z.shiftr dirbits 15) m a n (ar_mem s) in
            set_armem M h (mk_dspdev (dv_irq (ar_dev s)) (log_of s ++ l)) s).
Proof.
  intros Hd Hm Ha Hn. pose proof (hi_range m) as [Hm1 Hm2]. pose proof (hi_range a) as [Ha1 Ha2]. pose proof (hi_range n) as [Hn1 Hn2].
  unfold ar_program.
  match goal with |- context [bind _ (fun _ => ?k)] => destruct (field_step 16 (SHIFTR m 16 16) s k) as (l1 & E1 & W1); [lia..|] end.
  change (reg_mask 16) with 0x3ff in E1. rewrite E1. clear E1. set (s1 := ar_more l1 s) in *.
  match goal with |- context [bind _ (fun _ => ?k)] => destruct (field_step 17 (SHIFTR m 0 16) s1 k) as (l2 & E2 & W2); [lia..|] end.
  change (reg_mask 17) with 0xffe0 in E2. rewrite E2. clear E2. set (s2 := ar_more l2 s1) in *.
  match goal with |- context [bind _ (fun _ => ?k)] => destruct (field_step 18 (SHIFTR a 16 16) s2 k) as (l3 & E3 & W3); [lia..|] end.
  change (reg_mask 18) with 0x3ff in E3. rewrite E3. clear E3. set (s3 := ar_more l3 s2) in *.
  match goal with |- context [bind _ (fun _ => ?k)] => destruct (field_step 19 (SHIFTR a 0 16) s3 k) as (l4 & E4 & W4); [lia..|] end.
  change (reg_mask 19) with 0xffe0 in E4. rewrite E4. clear E4. set (s4 := ar_more l4 s3) in *.
  destruct (mod_control Hk dirbits (SHIFTR n 16 16) (ar_dev s4) Hd (hi_small n Hn)) as (l5 & E5 & W5).
  set (s5 := ar_more l5 s4) in *.
  change (forall r', last_write r' (log_of s5) = if r' =? 20 then Z.lor dirbits (SHIFTR n 16 16) else last_write r' (log_of s4)) in W5.
  assert (Ec : forall (k : M arst unit), (on_dspdev (dsp_mod 20 0x8000 dirbits);; on_dspdev (dsp_mod 20 0x03ff (SHIFTR n 16 16));; k) s4 = k s5).
  { intros k. unfold bind in E5 |- *. unfold on_dspdev at 1. destruct (dsp_mod 20 0x8000 dirbits (ar_dev s4)) as [ [[] d']|] eqn:E; [|done].
    unfold on_dspdev. cbn [ar_dev set_armem]. by rewrite E5. }
  rewrite Ec. clear Ec.
  match goal with |- context [bind _ (fun _ => ?k)] => destruct (field_step 21 (SHIFTR n 0 16) s5 k) as (l6 & E6 & W6); [lia..|] end.
  change (reg_mask 21) with 0xffe0 in E6. rewrite E6. clear E6. set (s6 := ar_more l6 s5) in *.
  assert (Ep : dma_params (log_of s6) = (Z.shiftr dirbits 15, m, a, n)).
  { assert (E16 : last_write 16 (log_of s6) = SHIFTR m 16 16) by (last_writes; done).
    assert (E17 : last_write 17 (log_of s6) = SHIFTR m 0 16) by (last_writes; done).
    assert (E18 : last_write 18 (log_of s6) = SHIFTR a 16 16) by (last_writes; done).
    assert (E19 : last_write 19 (log_of s6) = SHIFTR a 0 16) by (last_writes; done).
    assert (E20 : last_write 20 (log_of s6) = Z.lor dirbits (SHIFTR n 16 16)) by (last_writes; done).
    assert (E21 : last_write 21 (log_of s6) = SHIFTR n 0 16) by (last_writes; done).
    unfold dma_params. rewrite E16, E17, E18, E19, E20, E21.
    pose proof (hi_small n Hn) as Hns. pose proof (hi_small a Ha) as Has.
    assert (Hl10 : forall x, 0 <= x < 2 ^ 10 -> Z.land x 0x3ff = x) by (intros x Hx; change 0x3ff with (Z.ones 10); rewrite Z.land_ones by lia; by apply Z.mod_small).
    rewrite Hl10 by done. rewrite (halves16 m Hm), (halves16 a) by lia.
    rewrite Z.land_lor_distr_l, (Hl10 (SHIFTR n 16 16)) by done.
    assert (Z.land dirbits 0x3ff = 0) as -> by (by destruct Hd as [-> | ->]). rewrite Z.lor_0_l, (halves16 n) by lia.
    rewrite Z.shiftr_lor, (Z.shiftr_div_pow2 (SHIFTR n 16 16)), (Z.div_small (SHIFTR n 16 16)) by lia. by rewrite Z.lor_0_r. }
  unfold transfer. rewrite Ep. exists (l1 ++ l2 ++ l3 ++ l4 ++ l5 ++ l6).
  unfold set_armem, s6, s5, s4, s3, s2, s1, ar_more. cbn. rewrite <- !app_assoc. by destruct (dma _ _ _ _ _ _).
Qed.

(** ** Whole transfers *)

Context (con : console) (zero_buffer test_data dummy_data buffer : Z) (polls : nat).
(** A transfer ends, and the memory is ready, within [polls] readings. *)
Context (Hwait : forall d, exists d', waitdma_loop polls d = Ok (tt, d')).
Context (Hready : forall d, exists d', ready_loop polls d = Ok (tt, d')).

(** From [s] to [s'] the memories took one transfer; registers apart. *)
Definition moved (s : arst) (dir m a n : Z) (s' : arst) : Prop :=
  exists d, s' = (let '(h, M) := dma (ar_hw s) dir m a n (ar_mem s) in set_armem M h d s).

Lemma finish_ok s : exists d, (ARWaitDma polls;; ARClearInterrupt) s = Ok (tt, set_armem (ar_mem s) (ar_hw s) d s).
Proof.
  unfold ARWaitDma, ARClearInterrupt, bind at 1, on_dspdev at 1. destruct (Hwait (ar_dev s)) as [d' ->].
  unfold on_dspdev, bind, dsp_rd, dsp_wr. change (5 =? 5) with true. cbv iota. by eexists.
Qed.

Lemma dma_ok dirbits m a n s :
  dirbits = 0 \/ dirbits = 0x8000 -> 0 <= m < 2 ^ 32 -> 0 <= a < 2 ^ 26 -> 0 <= n < 2 ^ 26 ->
  wp (ar_program dirbits m a n;; ARWaitDma polls;; ARClearInterrupt) (fun _ s' => moved s (Z.shiftr dirbits 15) m a n s') s.
Proof.
  intros Hd Hm Ha Hn. destruct (program_ok dirbits m a n s Hd Hm Ha Hn) as (l & E). unfold wp, bind at 1. rewrite E.
  match goal with |- context [(_;; _) ?s1] => destruct (finish_ok s1) as [d ->] end.
  exists d. by destruct (dma _ _ _ _ _ _).
Qed.

Lemma write_ok m a n s :
  0 <= m < 2 ^ 32 -> 0 <= a < 2 ^ 26 -> 0 <= n < 2 ^ 26 -> wp (ARWriteDMA polls m a n) (fun _ s' => moved s 0 m a n s') s.
Proof. intros. apply (dma_ok 0); auto. Qed.
Lemma read_ok m a n s :
  0 <= m < 2 ^ 32 -> 0 <= a < 2 ^ 26 -> 0 <= n < 2 ^ 26 -> wp (ARReadDMA polls m a n) (fun _ s' => moved s 1 m a n s') s.
Proof. intros. apply (dma_ok 0x8000); auto. Qed.

(** Words set to zero. *)
Definition zeroed (n : nat) (a x : Z) : bool := (a <=? x) && (x <? a + 4 * Z.of_nat n) && ((x - a) mod 4 =? 0).

Lemma memset_words_ok n a s :
  (forall i, 0 <= i < Z.of_nat n -> is_Some (ar_mem s !! (a + 4 * i))) ->
  wp (memset_words n a) (fun _ s' => exists M, s' = set_armem M (ar_hw s) (ar_dev s) s /\
    forall x, M !! x = if zeroed n a x then Some 0 else ar_mem s !! x) s.
Proof.
  revert a s. induction n as [|n IH]; intros a s Hm; cbn [memset_words].
  - apply wp_ret. exists (ar_mem s). split; [by destruct s|]. intros x. unfold zeroed.
    destruct (Z.leb_spec a x), (Z.ltb_spec x (a + 4 * Z.of_nat 0)); try done. lia.
  - apply wp_bind. destruct (Hm 0) as [v Hv]; [lia|]. rewrite Z.mul_0_r, Z.add_0_r in Hv. unfold wp at 1, wr_word. rewrite Hv.
    eapply wp_mono; [apply IH|].
    + intros i Hi. cbn. apply lookup_insert_is_Some. right. split; [lia|]. replace (a + 4 + 4 * i) with (a + 4 * (i + 1)) by lia. apply Hm. lia.
    + cbn. intros _ s' (M & -> & HM). exists M. split; [done|]. intros x. rewrite HM. unfold zeroed.
      destruct (decide (x = a)) as [->|Hne].
      * rewrite lookup_insert_eq, Z.leb_refl, Z.sub_diag. destruct (Z.leb_spec (a + 4) a); [lia|].
        destruct (Z.ltb_spec a (a + 4 * Z.of_nat (S n))); [done|lia].
      * rewrite lookup_insert_ne by done. replace (x - a) with (x - (a + 4) + 1 * 4) by lia. rewrite Z.mod_add by lia.
        destruct (Z.eqb_spec ((x - (a + 4)) mod 4) 0) as [E4|E4]; rewrite ?andb_true_r, ?andb_false_r; [|done].
        assert (Hx4 : x < a \/ a + 4 <= x) by (apply Z.mod_divide in E4 as [q Hq]; lia).
        destruct (Z.leb_spec (a + 4) x), (Z.leb_spec a x), (Z.ltb_spec x (a + 4 + 4 * Z.of_nat n)), (Z.ltb_spec x (a + 4 * Z.of_nat (S n))); cbn; try done; lia.
Qed.

(** ** Clearing

    The words of the auxiliary memory, and what the code relies on: a transfer to
    it replaces the words of the area by those of main memory. *)

Section Clear.
Context (cells : aram -> Z -> Z) (top : Z) (Htop : top <= 2 ^ 26).
Context (Hwrite : forall h m a n M, 0 <= a -> a + n <= top -> 0 <= n ->
  let '(h', M') := dma h 0 m a n M in
  M' = M /\ forall x, cells h' x = if (a <=? x) && (x <? a + n) then default 0 (M !! (m + (x - a))) else cells h x).
Context (Hzb : 0 <= zero_buffer < 2 ^ 32).

Definition roundup32 (n : Z) : Z := Z.ldiff (n + 31) 31.
Lemma roundup32_spec n : 0 <= n -> n <= roundup32 n < n + 32 /\ roundup32 n mod 32 = 0.
Proof.
  intros Hn. unfold roundup32. assert (E : Z.ldiff (n + 31) 31 = (n + 31) - (n + 31) mod 32).
  { change 31 with (Z.ones 5) at 2. rewrite Z.ldiff_ones_r, Z.shiftl_mul_pow2, Z.shiftr_div_pow2 by lia.
    pose proof (Z.div_mod (n + 31) (2 ^ 5)). change (2 ^ 5) with 32 in *. lia. }
  rewrite E. pose proof (Z.mod_pos_bound (n + 31) 32). split; [lia|].
  pose proof (Z.div_mod (n + 31) 32). replace (n + 31 - (n + 31) mod 32) with (((n + 31) / 32) * 32) by lia. by apply Z.mod_mul.
Qed.

(** The buffer of zeros in main memory. *)
Definition zeros_in (M : gmap Z Z) : Prop :=
  forall x, zero_buffer <= x < zero_buffer + 2048 -> (x - zero_buffer) mod 4 = 0 -> default 0 (M !! x) = 0.

(** The words of an area are zero, all others as before. *)
Definition cleared (s : arst) (a n : Z) (s' : arst) : Prop :=
  exists h d, s' = set_armem (ar_mem s) h d s /\
  forall x, x mod 4 = 0 -> cells h x = if (a <=? x) && (x <? a + n) then 0 else cells (ar_hw s) x.

Lemma write_zeros s a n :
  zeros_in (ar_mem s) -> a mod 4 = 0 -> 0 <= a -> 0 <= n <= 2048 -> a + n <= top -> a < 2 ^ 26 ->
  wp (ARWriteDMA polls zero_buffer a n) (fun _ s' => cleared s a n s') s.
Proof.
  intros Hz Ha4 Ha Hn Hle Hlt. eapply wp_mono; [apply write_ok; lia|]. cbn. intros _ s' [d ->].
  pose proof (Hwrite (ar_hw s) zero_buffer a n (ar_mem s) Ha Hle ltac:(lia)) as Hw.
  destruct (dma (ar_hw s) 0 zero_buffer a n (ar_mem s)) as [h M]. destruct Hw as [-> Hc]. exists h, d. split; [done|].
  intros x Hx4. rewrite Hc. destruct (Z.leb_spec a x), (Z.ltb_spec x (a + n)); cbn; try done. apply Hz; [lia|].
  replace (zero_buffer + (x - a) - zero_buffer) with (x - a) by lia. by rewrite Zminus_mod, Hx4, Ha4.
Qed.

Lemma clear_loop_ok fuel cur len s :
  zeros_in (ar_mem s) -> cur mod 4 = 0 -> 0 <= cur -> 0 <= len -> cur + roundup32 len <= top -> len / 2048 + 2 <= Z.of_nat fuel ->
  wp (clear_loop zero_buffer polls fuel cur (cur + len) 2048) (fun _ s' => cleared s cur (roundup32 len) s') s.
Proof.
  revert cur len s. induction fuel as [|k IH]; intros cur len s Hz Hc4 Hc Hl Ht Hf.
  { pose proof (Z.div_pos len 2048). lia. }
  destruct (roundup32_spec len Hl) as [Hr1 Hr2]. cbn [clear_loop]. destruct (Z.ltb_spec cur (cur + len)) as [Hlt|Hge].
  - replace (cur + len - cur) with len by lia. rewrite (wrap_small 32 len) by lia. destruct (Z.ltb_spec len 2048) as [Hs|Hs].
    + rewrite (wrap_small 32 (len + 31)), (wrap_small 32 (Z.ldiff (len + 31) 31)) by (fold (roundup32 len); lia). fold (roundup32 len).
      assert (Hrn : roundup32 len <= 2048).
      { assert (Hq : roundup32 len < 2080) by lia. pose proof (Z.div_mod (roundup32 len) 32 ltac:(lia)). lia. }
      apply wp_bind. eapply wp_mono; [apply write_zeros; lia || done|]. cbn. intros _ s1 Hcl. rewrite (wrap_small 32) by lia.
      destruct k as [|k]; [pose proof (Z.div_pos len 2048); lia|]. cbn [clear_loop]. rewrite (proj2 (Z.ltb_ge _ _)) by lia. by apply wp_ret.
    + apply wp_bind. eapply wp_mono; [apply write_zeros; lia || done|]. cbn. intros _ s1 (h1 & d1 & -> & Hc1).
      rewrite (wrap_small 32) by lia. replace (cur + len) with (cur + 2048 + (len - 2048)) by lia.
      assert (Er : roundup32 (len - 2048) = roundup32 len - 2048).
      { destruct (roundup32_spec (len - 2048) ltac:(lia)) as [H1 H2].
        pose proof (Z.div_mod (roundup32 len) 32 ltac:(lia)). pose proof (Z.div_mod (roundup32 (len - 2048)) 32 ltac:(lia)). lia. }
      eapply wp_mono; [apply IH; try done; try lia|].
      * change 2048 with (512 * 4). by rewrite Z.mod_add.
      * replace len with (len - 2048 + 1 * 2048) in Hf by lia. rewrite Z.div_add in Hf by lia. lia.
      * cbn. intros _ s2 (h2 & d2 & -> & Hc2). exists h2, d2. split; [done|]. intros x Hx4. rewrite Hc2 by done. cbn. rewrite Hc1, Er by done.
        destruct (Z.leb_spec (cur + 2048) x), (Z.leb_spec cur x), (Z.ltb_spec x (cur + 2048)), (Z.ltb_spec x (cur + roundup32 len)),
          (Z.ltb_spec x (cur + 2048 + (roundup32 len - 2048))); cbn; try done; lia.
  - apply wp_ret. exists (ar_hw s), (ar_dev s). assert (len = 0) as -> by lia. split; [by destruct s|]. intros x _.
    change (roundup32 0) with 0. destruct (Z.leb_spec cur x), (Z.ltb_spec x (cur + 0)); cbn; try done; lia.
Qed.

Lemma clear_area_ok s a n :
  a mod 4 = 0 -> 0 <= a -> 0 <= n -> a + roundup32 n <= top -> a + n < 2 ^ 32 ->
  (forall i, 0 <= i < 512 -> is_Some (ar_mem s !! (zero_buffer + 4 * i))) ->
  wp (ARClearArea zero_buffer polls a n) (fun _ s' => exists M,
    (forall x, ~ (zero_buffer <= x < zero_buffer + 2048) -> M !! x = ar_mem s !! x) /\
    cleared (set_armem M (ar_hw s) (ar_dev s) s) a (roundup32 n) s') s.
Proof.
  intros Ha4 Ha Hn Ht H32 Hm. unfold ARClearArea. apply wp_bind. unfold wp at 1, on_dspdev.
  destruct (Hready (ar_dev s)) as [d1 ->]. apply wp_bind. eapply wp_mono; [apply memset_words_ok; exact Hm|]. cbn [ar_mem ar_hw ar_dev set_armem].
  intros _ s1 (M & -> & HM). assert (Hz : zeros_in M).
  { intros x Hx Hx4. rewrite HM. unfold zeroed. change (4 * Z.of_nat 512) with 2048.
    by rewrite (proj2 (Z.leb_le _ _)), (proj2 (Z.ltb_lt _ _)), Hx4 by lia. }
  rewrite (wrap_small 32) by lia. eapply wp_mono; [apply clear_loop_ok; try done|].
  - unfold clear_rounds. pose proof (Z.div_pos n 2048). lia.
  - cbn. intros _ s' (h & d & -> & Hc). exists M. split; [|exists h, d; by split].
    intros x Hx. rewrite HM. unfold zeroed. change (4 * Z.of_nat 512) with 2048.
    destruct (Z.leb_spec zero_buffer x), (Z.ltb_spec x (zero_buffer + 2048)); cbn; try done; lia.
Qed.

(** The area that [AR_Clear] is asked for. *)
Definition area_of (s : arst) (flag : Z) : option (Z * Z) :=
  if ARInternalSize s =? 0 then None
  else if flag =? AR_ARAMINTALL then Some (0, ARInternalSize s)
  else if flag =? AR_ARAMINTUSER then Some (0x4000, ARInternalSize s - 0x4000)
  else if (flag =? AR_ARAMEXPANSION) && negb (ARExpansionSize s =? 0) then Some (ARInternalSize s, ARExpansionSize s)
  else None.

(** C33. Clearing the auxiliary memory ends and leaves zeros in exactly the words
    of the area asked for (all the internal memory, the part above the first 16
    KB, the expansion), whatever its length, and no others; in main memory only
    the driver's own buffer changes. *)
Theorem ar_clear_zeroes s flag :
  (ARInternalSize s = 0 \/ 0x4000 <= ARInternalSize s) -> ARInternalSize s mod 32 = 0 ->
  0 <= ARExpansionSize s -> ARExpansionSize s mod 32 = 0 -> ARInternalSize s + ARExpansionSize s <= top ->
  (forall i, 0 <= i < 512 -> is_Some (ar_mem s !! (zero_buffer + 4 * i))) ->
  exists s', AR_Clear zero_buffer polls flag s = Ok (tt, s') /\
    match area_of s flag with
    | Some (a, n) =>
        (forall x, x mod 4 = 0 -> cells (ar_hw s') x = if (a <=? x) && (x <? a + n) then 0 else cells (ar_hw s) x) /\
        (forall x, ~ (zero_buffer <= x < zero_buffer + 2048) -> ar_mem s' !! x = ar_mem s !! x)
    | None => s' = s
    end.
Proof using Hk Hwait Hready Htop Hwrite Hzb.
  intros Hi Hi32 He He32 Hsum Hm.
  assert (Hgo : forall a n, a mod 4 = 0 -> 0 <= a -> 0 <= n -> n mod 32 = 0 -> a + n <= top ->
    wp (ARClearArea zero_buffer polls a n) (fun _ s' =>
      (forall x, x mod 4 = 0 -> cells (ar_hw s') x = if (a <=? x) && (x <? a + n) then 0 else cells (ar_hw s) x) /\
      (forall x, ~ (zero_buffer <= x < zero_buffer + 2048) -> ar_mem s' !! x = ar_mem s !! x)) s).
  { intros a n Ha4 Ha Hn Hn32 Hle. assert (Er : roundup32 n = n).
    { destruct (roundup32_spec n Hn) as [H1 H2]. pose proof (Z.div_mod n 32 ltac:(lia)). pose proof (Z.div_mod (roundup32 n) 32 ltac:(lia)). lia. }
    eapply wp_mono; [apply clear_area_ok; rewrite ?Er; try done; lia|]. cbn. intros _ s' (M & HM & h & d & -> & Hc). cbn in *.
    rewrite Er in Hc. by split. }
  assert (H4 : ARInternalSize s mod 4 = 0).
  { pose proof (Z.div_mod (ARInternalSize s) 32 ltac:(lia)) as E. rewrite Hi32 in E. rewrite E.
    replace (32 * (ARInternalSize s / 32) + 0) with (8 * (ARInternalSize s / 32) * 4) by lia. by apply Z.mod_mul. }
  apply wp_exists_unit. unfold AR_Clear, area_of. apply wp_bind, wp_gets. apply wp_bind, wp_gets.
  destruct (Z.eqb_spec (ARInternalSize s) 0) as [E0|E0]; cbn [negb when andb].
  - repeat case_match; by apply wp_ret.
  - assert (H16 : 0x4000 <= ARInternalSize s) by (destruct Hi; lia).
    destruct (flag =? AR_ARAMINTALL); [apply Hgo; try done; lia|].
    destruct (flag =? AR_ARAMINTUSER).
    + rewrite (wrap_small 32) by lia. apply Hgo; try done; try lia.
      rewrite Zminus_mod, Hi32. done.
    + destruct (flag =? AR_ARAMEXPANSION); cbn [andb]; [|by apply wp_ret].
      destruct (Z.eqb_spec (ARExpansionSize s) 0); cbn [negb when]; [by apply wp_ret|]. apply Hgo; try done; lia.
Qed.
End Clear.

(** ** The size

    Each line of 32 bytes is seen through its first word. Two addresses are
    [same] if they lead to the same existing line; above the internal memory this
    depends on the expansion. *)

Section Size.
Context (cells : aram -> Z -> Z) (same : Z -> Z -> bool).
Context (Hwrite : forall h m a M, let '(h', M') := dma h 0 m a 32 M in
  M' = M /\ forall x, cells h' x = if same x a then default 0 (M !! m) else cells h x).
Context (Hread : forall h m a M, m ∈ dom M -> let '(h', M') := dma h 1 m a 32 M in
  (forall x, cells h' x = cells h x) /\ M' !! m = Some (cells h a) /\ dom M' = dom M /\
  forall x, ~ (m <= x < m + 32) -> M' !! x = M !! x).
(** The buffers are objects of eight words; the size goes to low memory. *)
Context (Hrange : 0 <= test_data < 2 ^ 32 /\ 0 <= dummy_data < 2 ^ 32 /\ 0 <= buffer < 2 ^ 32).
Definition apart (p q : Z) : Prop := p + 32 <= q \/ q + 32 <= p.
Context (Hapart : apart test_data dummy_data /\ apart test_data buffer /\ apart dummy_data buffer).
Definition words_at (M : gmap Z Z) (p : Z) : Prop := forall i, 0 <= i < 8 -> p + 4 * i ∈ dom M.
Definition low_size : Z := 0x800000d0.

Definition buffers_in (M : gmap Z Z) : Prop := words_at M test_data /\ words_at M dummy_data /\ words_at M buffer /\ low_size ∈ dom M.

Lemma buffers_insert a v M : buffers_in M -> buffers_in (<[a := v]> M).
Proof.
  pose proof (dom_insert_subseteq M a v) as Hs. intros (H1 & H2 & H3 & H4).
  split; [|split; [|split] ]; try (intros i Hi); apply Hs; auto.
Qed.

(** While the size is probed the memory keeps its words, the pattern and the dummy
    stay what they are. *)
Definition probing (s : arst) : Prop :=
  buffers_in (ar_mem s) /\ ar_mem s !! test_data = Some 0xBAD1BAD0 /\ ar_mem s !! dummy_data = Some 0xDEADBEEF.
(** Only registers, memory and the auxiliary memory change. *)
Definition mem_step (s s' : arst) : Prop := exists M h d, s' = set_armem M h d s.

Lemma mem_step_refl s : mem_step s s. Proof. exists (ar_mem s), (ar_hw s), (ar_dev s). by destruct s. Qed.
Lemma mem_step_trans s1 s2 s3 : mem_step s1 s2 -> mem_step s2 s3 -> mem_step s1 s3.
Proof. intros (M & h & d & ->) (M' & h' & d' & ->). by exists M', h', d'. Qed.

Lemma wp_ar_rd_word a v Q s : ar_mem s !! a = Some v -> Q v s -> wp (rd_word a) Q s.
Proof. intros Hv HQ. unfold wp, rd_word, getopt. by rewrite Hv. Qed.

Lemma wp_ar_wr_word a v Q s :
  a ∈ dom (ar_mem s) -> Q tt (set_armem (<[a := v]> (ar_mem s)) (ar_hw s) (ar_dev s) s) -> wp (wr_word a v) Q s.
Proof. intros [x Hx]%elem_of_dom HQ. unfold wp, wr_word. by rewrite Hx. Qed.

Lemma probe_write s m a v :
  probing s -> ar_mem s !! m = Some v -> 0 <= m < 2 ^ 32 -> 0 <= a < 2 ^ 26 ->
  wp (ARWriteDMA polls m a 32) (fun _ s' => mem_step s s' /\ probing s' /\
    forall x, cells (ar_hw s') x = if same x a then v else cells (ar_hw s) x) s.
Proof.
  intros Hp Hv Hm Ha. eapply wp_mono; [apply write_ok; lia|]. cbn. intros _ s' [d ->].
  pose proof (Hwrite (ar_hw s) m a (ar_mem s)) as Hw. destruct (dma (ar_hw s) 0 m a 32 (ar_mem s)) as [h M]. destruct Hw as [-> Hc].
  split; [by eexists _, _, _|]. split; [done|]. intros x. cbn. by rewrite Hc, Hv.
Qed.

Lemma probe_read s a :
  probing s -> 0 <= a < 2 ^ 26 ->
  wp (ARReadDMA polls buffer a 32) (fun _ s' => mem_step s s' /\ probing s' /\
    (forall x, cells (ar_hw s') x = cells (ar_hw s) x) /\ ar_mem s' !! buffer = Some (cells (ar_hw s) a)) s.
Proof.
  intros ((H1 & H2 & H3 & H4) & Ht & Hd) Ha. destruct Hapart as (A1 & A2 & A3). unfold apart in *.
  eapply wp_mono; [apply read_ok; lia|]. cbn. intros _ s' [d ->].
  pose proof (Hread (ar_hw s) buffer a (ar_mem s)) as Hr. rewrite <- (Z.add_0_r buffer), <- (Z.mul_0_r 4) in Hr at 1.
  specialize (Hr (H3 0 ltac:(lia))). destruct (dma (ar_hw s) 1 buffer a 32 (ar_mem s)) as [h M].
  destruct Hr as (Hc & Hb & Hdom & Hx). split; [by eexists _, _, _|]. split; [|done].
  unfold probing, buffers_in, words_at. cbn. rewrite Hdom. split; [done|]. rewrite !Hx by lia. done.
Qed.

Lemma zero_buffer_ok s :
  probing s -> wp (memset_words 8 buffer) (fun _ s' => mem_step s s' /\ probing s' /\ ar_hw s' = ar_hw s) s.
Proof.
  intros ((H1 & H2 & H3 & H4) & Ht & Hd). destruct Hapart as (A1 & A2 & A3). unfold apart in *.
  eapply wp_mono; [apply memset_words_ok; intros i Hi; apply elem_of_dom, H3; lia|]. intros _ s' (M & -> & HM).
  split; [by eexists _, _, _|]. split; [|done]. unfold probing. cbn [ar_mem set_armem].
  assert (Hz : forall x, x ∈ dom (ar_mem s) -> x ∈ dom M).
  { intros x Hx. apply elem_of_dom. rewrite HM. destruct (zeroed 8 buffer x); [by eexists|by apply elem_of_dom]. }
  split; [split; [|split; [|split] ]; try (intros i Hi); apply Hz; auto|].
  rewrite !HM. unfold zeroed.
  destruct (Z.leb_spec buffer test_data), (Z.ltb_spec test_data (buffer + 4 * Z.of_nat 8)), (Z.leb_spec buffer dummy_data),
    (Z.ltb_spec dummy_data (buffer + 4 * Z.of_nat 8)); cbn; try done; lia.
Qed.

Lemma probe_ok s a :
  probing s -> 0 <= a < 2 ^ 26 ->
  wp (probe_at dummy_data buffer polls a) (fun b s' => mem_step s s' /\ probing s' /\
    (forall x, cells (ar_hw s') x = cells (ar_hw s) x) /\ b = (cells (ar_hw s) a =? 0xDEADBEEF)) s.
Proof.
  intros Hp Ha. unfold probe_at. apply wp_bind. eapply wp_mono; [by apply zero_buffer_ok|]. cbn. intros _ s1 (Hm1 & Hp1 & Eh).
  apply wp_bind. eapply wp_mono; [by apply probe_read|]. cbn. intros _ s2 (Hm2 & Hp2 & Hc2 & Hb).
  apply wp_bind, (wp_ar_rd_word _ _ _ _ Hb). apply wp_bind, (wp_ar_rd_word _ 0xDEADBEEF); [apply Hp2|]. apply wp_ret.
  split; [by eapply mem_step_trans|]. split; [done|]. rewrite Eh in *. by split.
Qed.

(** The pattern and the dummy. *)
Lemma fill_rest n i s :
  probing s -> 1 <= i -> i + Z.of_nat n <= 8 ->
  wp (fill_loop test_data dummy_data n i) (fun _ s' => mem_step s s' /\ probing s' /\ ar_hw s' = ar_hw s) s.
Proof.
  revert i s. induction n as [|n IH]; intros i s Hp Hi Hn; cbn [fill_loop]; [apply wp_ret; split; [apply mem_step_refl|done]|].
  pose proof Hp as ((H1 & H2 & H3 & H4) & Ht & Hd). destruct Hapart as (A1 & A2 & A3). unfold apart in *.
  apply wp_bind, wp_ar_wr_word; [apply H1; lia|]. apply wp_bind, wp_ar_wr_word.
  { apply (dom_insert_subseteq (ar_mem s)), H2. lia. }
  eapply wp_mono; [apply (IH (i + 1)); [|lia|lia]|].
  - split; [by apply buffers_insert, buffers_insert|]. cbn. rewrite !lookup_insert_ne by lia. done.
  - cbn. intros _ s' (Hm & Hp' & E). split; [|done]. eapply mem_step_trans; [|exact Hm]. by eexists _, _, _.
Qed.

Lemma fill_ok s :
  buffers_in (ar_mem s) ->
  wp (fill_loop test_data dummy_data 8 0) (fun _ s' => mem_step s s' /\ probing s' /\ ar_hw s' = ar_hw s) s.
Proof.
  intros (H1 & H2 & H3 & H4). destruct Hapart as (A1 & A2 & A3). unfold apart in *. cbn [fill_loop].
  apply wp_bind, wp_ar_wr_word; [apply H1; lia|]. apply wp_bind, wp_ar_wr_word.
  { apply (dom_insert_subseteq (ar_mem s)), H2. lia. }
  eapply wp_mono; [apply (fill_rest 7 (0 + 1)); [|lia|lia]|].
  - rewrite !Z.mul_0_r, !Z.add_0_r. split; [by apply buffers_insert, buffers_insert|].
    cbn. split; [rewrite lookup_insert_ne by lia|]; by rewrite lookup_insert_eq.
  - cbn. intros _ s' (Hm & Hp' & E). split; [|done]. eapply mem_step_trans; [|exact Hm]. by eexists _, _, _.
Qed.

(** An expansion: each of the probed lines exists; without one nothing is stored
    and what is read is not the pattern that was written. *)
Definition expansion (h : aram) (present : bool) : Prop :=
  if present then forall x, x = 0x1000000 \/ x = 0x1200000 \/ x = 0x1400000 \/ x = 0x2000000 -> same x x = true
  else (forall x y, 0x1000000 <= x -> same x y = false) /\ cells h 0x1000000 <> 0xDEADBEEF.

(** The size by which of the lines is the first one again. *)
Definition expansion_size (present : bool) : Z :=
  if negb present then 0
  else if same 0x1200000 0x1000000 then 0x200000
  else if same 0x2000000 0x1000000 then 0x400000
  else if same 0x1400000 0x1000000 then 0x1000000
  else 0x2000000.

(** What the lines hold after the writes of [__ARCheckSize]. *)
Definition probed (h : aram) (x : Z) : Z :=
  if same x 0x1000000 then 0xDEADBEEF
  else if same x 0x1400000 || same x 0x1000200 || same x 0x2000000 || same x 0x1200000 then 0xBAD1BAD0
  else cells h x.

Lemma probed_spec h present x :
  expansion h present -> x = 0x1200000 \/ x = 0x1400000 \/ x = 0x2000000 -> present = true ->
  (probed h x =? 0xDEADBEEF) = same x 0x1000000.
Proof.
  intros Hx Hc ->. cbn in Hx. pose proof (Hx x ltac:(tauto)) as Hs. unfold probed. destruct (same x 0x1000000); [done|].
  destruct Hc as [-> |[-> | ->] ]; rewrite Hs, ?orb_true_r; done.
Qed.

Lemma probed_first h present : expansion h present -> (probed h 0x1000000 =? 0xDEADBEEF) = present.
Proof.
  intros Hx. unfold probed. destruct present; cbn in Hx; [by rewrite (Hx 0x1000000) by tauto|]. destruct Hx as [Hs Hn].
  rewrite !Hs by lia. cbn [orb]. by apply Z.eqb_neq.
Qed.

(** Registers only. *)
Lemma on_dspdev_mod r clr set s :
  wp (on_dspdev (dsp_mod r clr set)) (fun _ s' => exists d, s' = set_armem (ar_mem s) (ar_hw s) d s) s.
Proof.
  unfold wp, on_dspdev, dsp_mod, bind, dsp_rd, dsp_wr. cbv iota beta. eexists. reflexivity.
Qed.

Definition with_sizes (s s' : arst) : Prop :=
  ARDmaCallback s' = ARDmaCallback s /\ ARInit_Flag s' = ARInit_Flag s /\ ARStackPointer s' = ARStackPointer s /\
  ARFreeBlocks s' = ARFreeBlocks s /\ ARBlockLen s' = ARBlockLen s.

Lemma with_sizes_mem s s' : mem_step s s' -> with_sizes s s' /\ ARInternalSize s' = ARInternalSize s /\ ARExpansionSize s' = ARExpansionSize s.
Proof. by intros (M & h & d & ->). Qed.

(** The six writes. *)
Lemma patterns_ok s :
  probing s ->
  wp (ARWriteDMA polls test_data 0x1000000 32;; ARWriteDMA polls test_data 0x1200000 32;;
      ARWriteDMA polls test_data 0x2000000 32;; ARWriteDMA polls test_data 0x1000200 32;;
      ARWriteDMA polls test_data 0x1400000 32;; memset_words 8 buffer;; ARWriteDMA polls dummy_data 0x1000000 32)
    (fun _ s' => mem_step s s' /\ probing s' /\ forall x, cells (ar_hw s') x = probed (ar_hw s) x) s.
Proof.
  intros Hp. destruct Hrange as (R1 & R2 & R3).
  assert (Hw : forall a s, 0 <= a < 2 ^ 26 -> probing s -> wp (ARWriteDMA polls test_data a 32) (fun _ s' => mem_step s s' /\ probing s' /\
    forall x, cells (ar_hw s') x = if same x a then 0xBAD1BAD0 else cells (ar_hw s) x) s).
  { intros a s0 Ha Hp0. apply probe_write; [done|apply Hp0|lia|done]. }
  do 5 (apply wp_bind; eapply wp_mono; [apply Hw; [lia|done]|]; cbn beta; intros _ ? (? & ? & ?)).
  apply wp_bind. eapply wp_mono; [by apply zero_buffer_ok|]. cbn beta. intros _ s6 (? & Hp6 & E6).
  eapply wp_mono; [apply (probe_write _ _ _ 0xDEADBEEF); [done|apply Hp6|lia|lia]|]. cbn beta. intros _ s7 (? & Hp7 & Hc7).
  split; [repeat (eapply mem_step_trans; [eassumption|]); apply mem_step_refl|]. split; [done|]. intros x. rewrite Hc7, E6. unfold probed.
  destruct (same x 0x1000000) eqn:E; [done|].
  repeat match goal with H : forall x, cells _ x = _ |- _ => rewrite H; clear H end. rewrite E.
  by destruct (same x 0x1400000), (same x 0x1000200), (same x 0x2000000), (same x 0x1200000).
Qed.

(** The decision. *)
Lemma search_ok s h0 present :
  probing s -> expansion h0 present -> (forall x, cells (ar_hw s) x = probed h0 x) -> ARExpansionSize s = 0 ->
  ar_mem s !! buffer = Some (probed h0 0x1000000) ->
  wp (b <- rd_word buffer; d <- rd_word dummy_data;
      if b =? d then
        p1 <- probe_at dummy_data buffer polls 0x1200000;
        r <- (if p1 then ar_found 0x200000 0x03 else
              p2 <- probe_at dummy_data buffer polls 0x2000000;
              if p2 then ar_found 0x400000 (Z.lor 0x03 0x08) else
              p3 <- probe_at dummy_data buffer polls 0x1400000;
              if p3 then ar_found 0x1000000 (Z.lor 0x03 0x18) else ar_found 0x2000000 (Z.lor 0x03 0x20));
        on_dspdev (dsp_mod 9 0x3f (snd r));; ret (fst r)
      else ret 0)
    (fun ext s' => ext = expansion_size present /\ ARExpansionSize s' = ext /\ ARInternalSize s' = ARInternalSize s /\
       with_sizes s s' /\ probing s') s.
Proof.
  intros Hp Hx Hc He Hb. apply wp_bind, (wp_ar_rd_word _ _ _ _ Hb). apply wp_bind, (wp_ar_rd_word _ 0xDEADBEEF); [apply Hp|].
  rewrite (probed_first _ _ Hx). destruct present; [|apply wp_ret; by split].
  assert (Hpr : forall x s1, x = 0x1200000 \/ x = 0x1400000 \/ x = 0x2000000 -> probing s1 -> (forall y, cells (ar_hw s1) y = probed h0 y) ->
    wp (probe_at dummy_data buffer polls x) (fun b s' => mem_step s1 s' /\ probing s' /\ (forall y, cells (ar_hw s') y = probed h0 y) /\
      b = same x 0x1000000) s1).
  { intros x s1 Hxc Hp1 Hc1. eapply wp_mono; [apply probe_ok; [done|lia]|]. cbn. intros b s2 (Hm & Hp2 & Hc2 & ->).
    split; [done|]. split; [done|]. split; [intros y; by rewrite Hc2, Hc1|]. rewrite Hc1. by apply (probed_spec _ true). }
  assert (Hend : forall ext fl s1, mem_step s s1 -> probing s1 -> ext = expansion_size true ->
    wp (r <- ar_found ext fl; on_dspdev (dsp_mod 9 0x3f (snd r));; ret (fst r))
      (fun ext s' => ext = expansion_size true /\ ARExpansionSize s' = ext /\ ARInternalSize s' = ARInternalSize s /\
         with_sizes s s' /\ probing s') s1).
  { intros ext fl s1 Hm Hp1 ->. unfold ar_found. apply wp_bind, wp_bind, wp_modify, wp_ret, wp_bind.
    eapply wp_mono; [apply on_dspdev_mod|]. cbn beta. intros _ s2 [d ->]. apply wp_ret.
    destruct (with_sizes_mem _ _ Hm) as (Hw & Hi & _). split; [done|]. split; [done|]. by split. }
  unfold expansion_size in *. cbn [negb] in *.
  apply wp_bind. eapply wp_mono; [by apply Hpr; auto|]. cbn beta. intros p1 s1 (Hm1 & Hp1 & Hc1 & ->).
  destruct (same 0x1200000 0x1000000); [by apply Hend|]. apply wp_bind_if, wp_bind.
  eapply wp_mono; [by apply Hpr; auto|]. cbn beta. intros p2 s2 (Hm2 & Hp2 & Hc2 & ->). pose proof (mem_step_trans _ _ _ Hm1 Hm2) as Hm12.
  destruct (same 0x2000000 0x1000000); [by apply Hend|]. apply wp_bind_if, wp_bind.
  eapply wp_mono; [by apply Hpr; auto|]. cbn beta. intros p3 s3 (Hm3 & Hp3 & Hc3 & ->). pose proof (mem_step_trans _ _ _ Hm12 Hm3) as Hm123.
  destruct (same 0x1400000 0x1000000); by apply Hend.
Qed.

Lemma check_size_ok s present :
  buffers_in (ar_mem s) -> expansion (ar_hw s) present ->
  wp (ARCheckSize test_data dummy_data buffer polls) (fun _ s' => with_sizes s s' /\ ARInternalSize s' = 0x1000000 /\
    ARExpansionSize s' = expansion_size present /\ ARSize s' = 0x1000000 + expansion_size present /\
    ar_mem s' !! low_size = Some (0x1000000 + expansion_size present)) s.
Proof.
  intros Hb Hx. unfold ARCheckSize. apply wp_bind. unfold wp at 1, on_dspdev. destruct (Hready (ar_dev s)) as [d1 ->].
  apply wp_bind, wp_modify, wp_bind. eapply wp_mono; [apply on_dspdev_mod|]. cbn beta. intros _ s1 [d2 ->].
  apply wp_bind. eapply wp_mono; [by apply fill_ok|]. cbn beta. intros _ s2 (Hm2 & Hp2 & E2).
  apply wp_bind, wp_modify. set (s3 := set_sizes (ARInternalSize s2) 0 (ARSize s2) s2).
  apply (wp_seq7 _ _ _ _ _ _ _). eapply wp_mono; [apply (patterns_ok s3 Hp2)|]. cbn beta. intros _ s4 (Hm4 & Hp4 & Hc4).
  apply wp_bind. eapply wp_mono; [apply (probe_read s4 0x1000000); [done|lia]|]. cbn beta. intros _ s5 (Hm5 & Hp5 & Hc5 & Hb5).
  assert (Eh : ar_hw s3 = ar_hw s) by (unfold s3; cbn; by rewrite E2).
  assert (Hm35 : mem_step s3 s5) by (by eapply mem_step_trans). destruct (with_sizes_mem _ _ Hm35) as (Hw35 & Hi35 & He35).
  destruct (with_sizes_mem _ _ Hm2) as (Hw2 & Hi2 & He2).
  apply wp_assoc_ext. eapply wp_mono; [apply (search_ok s5 (ar_hw s) present); [done|done|..]|].
  - intros x. by rewrite Hc5, Hc4, Eh.
  - by rewrite He35.
  - by rewrite Hb5, Hc4, Eh.
  - cbn beta. intros ext s6 (-> & He6 & Hi6 & Hw6 & Hp6). cbv zeta.
    assert (Hs : 0 <= expansion_size present <= 0x2000000) by (unfold expansion_size; repeat case_match; lia).
    rewrite (wrap_small 32) by lia. destruct Hp6 as ((_ & _ & _ & Hlow) & _). apply wp_bind, wp_ar_wr_word; [done|].
    apply wp_modify. cbn. split; [unfold with_sizes in *; cbn in *; intuition congruence|].
    split; [by rewrite Hi6, Hi35|]. split; [done|]. split; [done|]. by rewrite lookup_insert_eq.
Qed.

End Size.
End Transfers.

(** ** The stack of blocks *)

Inductive arop := OAlloc (len : Z) | OFree (p : Z).

Section Stack.
Context `{AramHw}.
(** The client's array and its number of entries. *)
Context (arr n : Z) (Hn : 0 <= n < 2 ^ 32).

Definition total (bs : list Z) : Z := fold_right Z.add 0 bs.
Lemma stack_total_app bs b : total (bs ++ [b]) = total bs + b.
Proof. induction bs as [|x bs IH]; cbn; [lia|]. unfold total in IH. cbn in IH. lia. Qed.

(** The blocks [bs], from the bottom. *)
Definition stack_rep (s : arst) (bs : list Z) : Prop :=
  ARStackPointer s = 0x4000 + total bs /\ ARFreeBlocks s = n - Z.of_nat (length bs) /\
  ARBlockLen s = arr + 4 * Z.of_nat (length bs) /\ Z.of_nat (length bs) <= n /\
  Forall (fun b => 0 <= b) bs /\ 0x4000 + total bs < 2 ^ 32 /\
  (forall i b, bs !! i = Some b -> ar_mem s !! (arr + 4 * Z.of_nat i) = Some b) /\
  (forall i, 0 <= i < n -> is_Some (ar_mem s !! (arr + 4 * i))).

(** A word that is not one of the array. *)
Definition elsewhere (s : arst) (p : Z) : Prop := is_Some (ar_mem s !! p) /\ forall i, 0 <= i < n -> p <> arr + 4 * i.

(** A call and what the caller sees: the result and the length released. *)
Definition ar_exec (o : arop) : M arst (Z * Z) :=
  match o with
  | OAlloc len => r <- AR_Alloc len; ret (r, 0)
  | OFree p => r <- AR_Free p; v <- (if p =? NULL then ret 0 else rd_word p); ret (r, v)
  end.

(** The same on the list of blocks; [None] where the caller has nothing to free,
    no entry left or no memory left. *)
Definition stack_op (o : arop) (bs : list Z) : option (Z * Z * list Z) :=
  match o with
  | OAlloc len =>
      if (0 <=? len) && (Z.of_nat (length bs) <? n) && (0x4000 + total bs + len <? 2 ^ 32)
      then Some (0x4000 + total bs, 0, bs ++ [len]) else None
  | OFree p =>
      match last bs with
      | Some b => let r := removelast bs in Some (0x4000 + total r, if p =? NULL then 0 else b, r)
      | None => None
      end
  end.

Lemma alloc_ok len s bs r v bs' :
  stack_rep s bs -> stack_op (OAlloc len) bs = Some (r, v, bs') ->
  exists s', ar_exec (OAlloc len) s = Ok ((r, v), s') /\ stack_rep s' bs' /\ dom (ar_mem s') = dom (ar_mem s).
Proof.
  intros (H1 & H2 & H3 & H4 & H5 & H6 & H7 & H8). cbn [stack_op].
  destruct (Z.leb_spec 0 len) as [Hl|]; [|done]. destruct (Z.ltb_spec (Z.of_nat (length bs)) n) as [Hc|]; [|done].
  destruct (Z.ltb_spec (0x4000 + total bs + len) (2 ^ 32)) as [Ht|]; [|done]. intros [= <- <- <-].
  assert (Ht0 : 0 <= total bs) by (clear -H5; induction H5; cbn; [lia|unfold total in *; lia]).
  destruct (H8 (Z.of_nat (length bs)) ltac:(lia)) as [x Hx]. unfold ar_exec, AR_Alloc, bind, gets, modify, wr_word, ret.
  cbn [ar_mem set_stack ARBlockLen]. rewrite H3, Hx. eexists. split; [by rewrite H1|]. cbn [set_stack set_armem ar_mem].
  split; [|apply dom_insert_lookup_L; by exists x].
  split; [cbn; rewrite stack_total_app, wrap_small by lia; lia|]. split; [cbn; rewrite H2, length_app, wrap_small by lia; cbn; lia|].
  split; [cbn; rewrite length_app; cbn; lia|]. split; [rewrite length_app; cbn; lia|].
  split; [by apply Forall_app; split; [done|repeat constructor]|]. split; [rewrite stack_total_app; lia|]. cbn. split.
  + intros i b Hi. destruct (decide (i < length bs)%nat) as [Hil|Hil].
    * rewrite lookup_insert_ne by lia. apply H7. by rewrite lookup_app_l in Hi.
    * rewrite lookup_app_r in Hi by lia. destruct (i - length bs)%nat as [|k] eqn:Ek; [|done]. cbn in Hi. injection Hi as <-.
      replace i with (length bs) by lia. by rewrite lookup_insert_eq.
  + intros i Hi. rewrite lookup_insert_is_Some. destruct (decide (arr + 4 * Z.of_nat (length bs) = arr + 4 * i)); [by left|right]. auto.
Qed.

Lemma free_ok p s bs w v bs' :
  stack_rep s bs -> p = NULL \/ elsewhere s p -> stack_op (OFree p) bs = Some (w, v, bs') ->
  exists s', ar_exec (OFree p) s = Ok ((w, v), s') /\ stack_rep s' bs' /\ dom (ar_mem s') = dom (ar_mem s).
Proof.
  intros (H1 & H2 & H3 & H4 & H5 & H6 & H7 & H8) Hp. cbn [stack_op].
  destruct (last bs) as [b|] eqn:El; [|done]. intros [= <- <- <-]. apply last_Some in El as [r ->]. rewrite removelast_last.
  rewrite length_app in *. cbn [length] in *. rewrite stack_total_app in *. apply Forall_app in H5 as [H5 [Hb _]%Forall_cons].
  assert (Ht0 : 0 <= total r) by (clear -H5; induction H5; cbn; [lia|unfold total in *; lia]).
  pose proof (H7 (length r) b) as Hbl. rewrite lookup_app_r, Nat.sub_diag in Hbl by lia. specialize (Hbl eq_refl).
  assert (E3 : ARBlockLen s - 4 = arr + 4 * Z.of_nat (length r)) by lia.
  assert (Hrep : forall M, (forall i, 0 <= i < n -> M !! (arr + 4 * i) = ar_mem s !! (arr + 4 * i)) ->
    stack_rep (set_stack (0x4000 + total r) (n - Z.of_nat (length r)) (arr + 4 * Z.of_nat (length r)) (set_armem M (ar_hw s) (ar_dev s) s)) r).
  { intros M HM. split; [done|]. split; [done|]. split; [done|]. split; [lia|]. split; [done|]. split; [lia|]. cbn. split.
    - intros i x Hi. pose proof (lookup_lt_Some _ _ _ Hi). rewrite HM by lia. apply H7. by rewrite lookup_app_l by lia.
    - intros i Hi. rewrite HM by lia. auto. }
  unfold ar_exec, AR_Free, bind, gets, modify, when. cbn [set_stack ARBlockLen]. rewrite E3.
  destruct (Z.eqb_spec p NULL) as [Ep|Ep]; cbn [negb].
  + unfold rd_word, getopt, ret. cbn [ar_mem set_stack]. rewrite Hbl. cbn [ARStackPointer ARFreeBlocks set_stack].
    rewrite H1, H2, !wrap_small by lia. eexists. split; [f_equal; f_equal; f_equal; lia|]. split; [|done].
    refine (eq_rect _ (fun z => stack_rep z r) (Hrep (ar_mem s) ltac:(done)) _ _). unfold set_stack, set_armem. cbn. f_equal; lia.
  + destruct Hp as [Hp|[ [x Hx] Hp] ]; [done|]. unfold rd_word, wr_word, getopt, ret. cbn [ar_mem set_stack]. rewrite Hbl. cbn [ar_mem set_stack]. rewrite Hx.
    cbn [ar_mem set_stack set_armem ARBlockLen]. rewrite lookup_insert_ne, Hbl by (apply Hp; lia).
    cbn [ARStackPointer ARFreeBlocks set_stack set_armem ar_mem]. rewrite lookup_insert_eq. rewrite H1, H2, !wrap_small by lia.
    eexists. split; [f_equal; f_equal; f_equal; lia|]. split; [|cbn; apply dom_insert_lookup_L; by exists x].
    assert (HM : forall i, 0 <= i < n -> (<[p := b]> (ar_mem s)) !! (arr + 4 * i) = ar_mem s !! (arr + 4 * i)).
    { intros i Hi. apply lookup_insert_ne. by apply Hp. }
    refine (eq_rect _ (fun z => stack_rep z r) (Hrep _ HM) _ _). unfold set_stack, set_armem. cbn. f_equal; lia.
Qed.

Fixpoint ar_execs (os : list arop) : M arst (list (Z * Z)) :=
  match os with [] => ret [] | o :: os => r <- ar_exec o; rs <- ar_execs os; ret (r :: rs) end.
Fixpoint stack_ops (os : list arop) (bs : list Z) : option (list (Z * Z) * list Z) :=
  match os with
  | [] => Some ([], bs)
  | o :: os =>
      match stack_op o bs with
      | Some (r, v, bs) => match stack_ops os bs with Some (rs, bs) => Some ((r, v) :: rs, bs) | None => None end
      | None => None
      end
  end.

End Stack.
