(* ===== verification/AramDemo.v ===== *)
(** * The auxiliary memory: concrete instances

    Two models of the memory behind the registers, and the witnesses of the
    theorems of [AramProofs] on them. *)

From stdpp Require Import base gmap list.
From Stdlib Require Import ZArith Lia.
From S2P Require Import Prelude Devices KState Clock Irq DspDev Aram AramProofs.

Open Scope Z_scope.

(** Registers that keep their bits; transfers are finished at once. *)
#[export] Instance ar_regs : DspHw :=
  {| cr_write := fun _ v => v; cr_read := fun _ v => 0;
     dsp_read := fun l r => if (16 <=? r) && (r <=? 21) then Z.land (last_write r l) (reg_mask r) else 1 |}.

Lemma ar_regs_keep : keeps_writes.
Proof. intros l r Hr. cbn. by rewrite (proj2 (Z.leb_le 16 r)), (proj2 (Z.leb_le r 21)) by lia. Qed.

Lemma ar_wait d : exists d', waitdma_loop 1 d = Ok (tt, d').
Proof. by eexists. Qed.
Lemma ar_ready d : exists d', ready_loop 1 d = Ok (tt, d').
Proof. by eexists. Qed.

Definition demo_dspdev : dspdev := mk_dspdev (mk_irqst (mk_regs 0 0 0 0 0 0 0 0 0) (fun _ => NULL) (fun _ => 0)) [].

(** [n] words from [a]. *)
Fixpoint words (n : nat) (a : Z) : gmap Z Z := match n with O => ∅ | S n => <[a := 5]> (words n (a + 4)) end.
Lemma words_in n a i : 0 <= i < Z.of_nat n -> is_Some (words n a !! (a + 4 * i)).
Proof.
  revert a i. induction n as [|n IH]; intros a i Hi; [lia|]. cbn [words]. destruct (decide (i = 0)) as [->|].
  - rewrite Z.mul_0_r, Z.add_0_r, lookup_insert_eq. by eexists.
  - rewrite lookup_insert_ne by lia. replace (a + 4 * i) with (a + 4 + 4 * (i - 1)) by lia. apply IH. lia.
Qed.

(** ** Word by word *)

Module Cells.
Definition copy (m a n : Z) (M : gmap Z Z) (h : Z -> Z) : Z -> Z :=
  fun x => if (a <=? x) && (x <? a + n) then default 0 (M !! (m + (x - a))) else h x.
#[export] Instance hw : AramHw :=
  {| aram := Z -> Z; dma := fun h dir m a n M => if dir =? 0 then (copy m a n M h, M) else (h, M) |}.
Definition start : arst := mk_ar _ NULL 1 0x4000 0 NULL 0x1000000 0 0x1000000 (words 512 0x9000) (fun x => x + 1) demo_dspdev.
End Cells.

(** The part above the first 16 KB is cleared. *)
Lemma ar_clear_zeroes_witness :
  exists s', AR_Clear 0x9000 1 AR_ARAMINTUSER Cells.start = Ok (tt, s') /\ ar_hw s' 0x4000 = 0 /\ ar_hw s' 0xfffffc = 0 /\ ar_hw s' 0x3ffc = 0x3ffd.
Proof.
  destruct (ar_clear_zeroes (H0 := Cells.hw) ar_regs_keep 0x9000 1 ar_wait ar_ready (fun h x => h x) (2 ^ 26) ltac:(lia)
    ltac:(intros; cbn; split; [done|done]) ltac:(lia) Cells.start AR_ARAMINTUSER) as (s' & E & Hc & _).
  - right. cbn. lia.
  - done.
  - cbn. lia.
  - done.
  - cbn. lia.
  - intros i Hi. exact (words_in 512 0x9000 i Hi).
  - exists s'. split; [exact E|]. split; [exact (Hc 0x4000 eq_refl)|]. split; [exact (Hc 0xfffffc eq_refl)|exact (Hc 0x3ffc eq_refl)].
Defined.

(** ** Line by line, with an expansion of four megabytes *)

Module Lines.
Definition same (x y : Z) : bool := (0x1000000 <=? x) && (0x1000000 <=? y) && ((x - y) mod 0x400000 =? 0).
#[export] Instance hw : AramHw :=
  {| aram := Z -> Z;
     dma := fun h dir m a n M =>
       if dir =? 0 then (fun x => if same x a then default 0 (M !! m) else h x, M) else (h, match M !! m with Some _ => <[m := h a]> M | None => M end) |}.
Definition start : arst :=
  mk_ar _ NULL 0 0 0 NULL 0 0 0 (<[0x800000d0 := 0]> (words 8 0x1000 ∪ (words 8 0x2000 ∪ words 8 0x3000))) (fun x => 0) demo_dspdev.
End Lines.

Lemma lines_write (h : Z -> Z) m a M :
  let '(h', M') := dma (AramHw := Lines.hw) h 0 m a 32 M in
  M' = M /\ forall x, h' x = if Lines.same x a then default 0 (M !! m) else h x.
Proof. done. Qed.

Lemma lines_read (h : Z -> Z) m a M :
  m ∈ dom M -> let '(h', M') := dma (AramHw := Lines.hw) h 1 m a 32 M in
  (forall x, h' x = h x) /\ M' !! m = Some (h a) /\ dom M' = dom M /\ forall x, ~ (m <= x < m + 32) -> M' !! x = M !! x.
Proof.
  intros [v Hv]%elem_of_dom. cbn. rewrite Hv. split; [done|]. split; [by rewrite lookup_insert_eq|].
  split; [apply dom_insert_lookup_L; by exists v|]. intros x Hx. apply lookup_insert_ne. lia.
Qed.

Lemma lines_buffers : buffers_in 0x1000 0x2000 0x3000 (ar_mem Lines.start).
Proof.
  assert (Hw : forall a i, 0 <= i < 8 -> a + 4 * i ∈ dom (words 8 a)) by (intros a i Hi; apply elem_of_dom; by apply words_in).
  assert (Hd : forall x, x = 0x800000d0 \/ x ∈ dom (words 8 0x1000) \/ x ∈ dom (words 8 0x2000) \/ x ∈ dom (words 8 0x3000) ->
    x ∈ dom (ar_mem Lines.start)).
  { intros x Hx. cbn [ar_mem Lines.start]. rewrite dom_insert, !dom_union. set_solver. }
  split; [|split; [|split] ]; try (intros i Hi); apply Hd; auto.
Qed.


(** ** The stack *)

Definition stack_start : @arst Cells.hw :=
  mk_ar Cells.hw NULL 1 0x4000 2 0x9000 0x1000000 0 0x1000000 (<[0x100 := 0]> (words 2 0x9000)) (fun x => 0) demo_dspdev.


(** There is no check: with no entry left [AR_Alloc] writes behind the client's
    array and returns an address, where its documentation promises [NULL]. *)
Lemma ar_alloc_overruns :
  let s := mk_ar Cells.hw NULL 1 0x4000 0 0x9000 0x1000000 0 0x1000000 (<[0x9000 := 7]> ∅) (fun x => 0) demo_dspdev in
  match AR_Alloc 32 s with
  | Ok (r, s') => r = 0x4000 /\ ar_mem s' !! 0x9000 = Some 32 /\ ARFreeBlocks s' = 2 ^ 32 - 1
  | Fault _ => False
  end.
Proof. by vm_compute. Qed.
