(* ===== verification/DvdPatch.v ===== *)
(** * The code loaded into the optical drive ([libogc/dvd.c])

    The patches for the four models of the drive, as the bytes of the tables of
    the source. The driver uploads the one for the drive that is there
    ([dvd_patchdrivecb] in [Dvd]). *)

From Stdlib Require Import ZArith List.
Import ListNotations.

Open Scope Z_scope.

Definition dvd_patch_size : Z := 448.

Definition dvd_patchcode04 : list Z :=
  [247; 16; 255; 247; 244; 116; 37; 208; 64; 247; 32; 76; 128; 244; 116; 214; 156; 8; 247; 32; 214; 252; 244; 116; 40; 174; 8; 247;
   32; 210; 252; 128; 12; 196; 218; 252; 254; 200; 218; 252; 245; 0; 1; 232; 3; 252; 193; 0; 160; 244; 116; 9; 236; 64; 16; 200;
   218; 252; 245; 0; 2; 232; 3; 252; 188; 0; 244; 116; 249; 236; 64; 128; 2; 240; 32; 200; 132; 128; 192; 156; 129; 220; 180; 128;
   245; 48; 0; 244; 68; 161; 209; 64; 248; 170; 0; 16; 244; 208; 156; 209; 64; 240; 1; 220; 180; 128; 245; 48; 0; 247; 72; 170;
   0; 233; 7; 244; 196; 161; 209; 64; 16; 254; 216; 50; 232; 29; 247; 72; 168; 0; 232; 40; 247; 72; 171; 0; 232; 34; 247; 72;
   225; 0; 232; 28; 247; 72; 238; 0; 232; 61; 216; 85; 232; 49; 254; 113; 4; 253; 34; 0; 244; 81; 176; 209; 64; 160; 64; 4;
   64; 6; 234; 51; 242; 249; 244; 210; 176; 209; 64; 113; 4; 253; 10; 0; 242; 73; 253; 5; 0; 81; 4; 242; 54; 254; 247; 33;
   188; 255; 247; 49; 188; 255; 254; 245; 48; 1; 253; 126; 0; 234; 12; 245; 48; 1; 196; 176; 129; 245; 48; 2; 196; 148; 129; 220;
   180; 128; 248; 224; 0; 16; 160; 245; 16; 1; 245; 16; 2; 245; 16; 3; 254; 200; 218; 252; 247; 0; 254; 255; 247; 49; 210; 252;
   234; 11; 200; 218; 252; 247; 0; 253; 255; 247; 49; 214; 252; 196; 218; 252; 204; 68; 252; 247; 0; 254; 255; 196; 68; 252; 244; 125;
   40; 174; 8; 233; 7; 244; 117; 96; 209; 64; 234; 12; 244; 125; 214; 156; 8; 233; 5; 244; 117; 148; 209; 64; 242; 124; 208; 4;
   204; 91; 128; 216; 1; 233; 2; 124; 4; 81; 32; 113; 52; 244; 125; 193; 133; 8; 232; 5; 254; 128; 1; 234; 2; 128; 0; 165;
   216; 0; 232; 2; 133; 12; 197; 218; 252; 244; 117; 160; 209; 64; 20; 254; 247; 16; 255; 247; 244; 201; 160; 209; 64; 217; 0; 232;
   34; 33; 247; 73; 8; 6; 233; 5; 133; 2; 245; 16; 1; 244; 121; 0; 240; 0; 233; 5; 128; 0; 245; 16; 9; 217; 6; 233;
   6; 97; 6; 213; 6; 65; 6; 244; 224; 159; 220; 199; 244; 224; 181; 203; 199; 0; 0; 0; 116; 10; 8; 0; 1; 0; 0; 0;
   0; 0; 0; 0; 0; 0; 0; 0; 0; 0; 0; 0; 0; 0; 0; 8; 0; 0; 0; 0; 0; 0; 0; 0; 0; 0; 0; 0].

Definition dvd_patchcode06 : list Z :=
  [247; 16; 255; 247; 244; 116; 37; 208; 64; 247; 32; 76; 128; 244; 116; 66; 157; 8; 247; 32; 214; 252; 244; 116; 69; 177; 8; 247;
   32; 210; 252; 128; 12; 196; 218; 252; 254; 200; 218; 252; 245; 0; 1; 232; 3; 252; 193; 0; 160; 244; 116; 9; 236; 64; 16; 200;
   218; 252; 245; 0; 2; 232; 3; 252; 188; 0; 244; 116; 2; 237; 64; 128; 2; 240; 32; 200; 120; 128; 192; 144; 129; 220; 168; 128;
   245; 48; 0; 244; 68; 161; 209; 64; 248; 170; 0; 16; 244; 208; 156; 209; 64; 240; 1; 220; 168; 128; 245; 48; 0; 247; 72; 170;
   0; 233; 7; 244; 196; 161; 209; 64; 16; 254; 216; 50; 232; 29; 247; 72; 168; 0; 232; 40; 247; 72; 171; 0; 232; 34; 247; 72;
   225; 0; 232; 28; 247; 72; 238; 0; 232; 61; 216; 85; 232; 49; 254; 113; 4; 253; 34; 0; 244; 81; 176; 209; 64; 160; 64; 4;
   64; 6; 234; 51; 242; 249; 244; 210; 176; 209; 64; 113; 4; 253; 10; 0; 242; 73; 253; 5; 0; 81; 4; 242; 54; 254; 247; 33;
   188; 255; 247; 49; 188; 255; 254; 245; 48; 1; 253; 126; 0; 234; 12; 245; 48; 1; 196; 164; 129; 245; 48; 2; 196; 136; 129; 220;
   168; 128; 248; 224; 0; 16; 160; 245; 16; 1; 245; 16; 2; 245; 16; 3; 254; 200; 218; 252; 247; 0; 254; 255; 247; 49; 210; 252;
   234; 11; 200; 218; 252; 247; 0; 253; 255; 247; 49; 214; 252; 196; 218; 252; 204; 68; 252; 247; 0; 254; 255; 196; 68; 252; 244; 125;
   69; 177; 8; 233; 7; 244; 117; 96; 209; 64; 234; 12; 244; 125; 66; 157; 8; 233; 5; 244; 117; 148; 209; 64; 242; 124; 208; 4;
   204; 91; 128; 216; 1; 233; 2; 124; 4; 81; 32; 113; 52; 244; 125; 185; 133; 8; 232; 5; 254; 128; 1; 234; 2; 128; 0; 165;
   216; 0; 232; 2; 133; 12; 197; 218; 252; 244; 117; 160; 209; 64; 20; 254; 247; 16; 255; 247; 244; 201; 160; 209; 64; 217; 0; 232;
   34; 33; 247; 73; 8; 6; 233; 5; 133; 2; 245; 16; 1; 244; 121; 0; 240; 0; 233; 5; 128; 0; 245; 16; 9; 217; 6; 233;
   6; 97; 6; 213; 6; 65; 6; 244; 224; 188; 223; 199; 244; 224; 55; 204; 199; 0; 0; 0; 116; 10; 8; 0; 1; 0; 0; 0;
   0; 0; 0; 0; 0; 0; 0; 0; 0; 0; 0; 0; 0; 0; 0; 8; 0; 0; 0; 0; 0; 0; 0; 0; 0; 0; 0; 0].

Definition dvd_patchcode08 : list Z :=
  [247; 16; 255; 247; 244; 116; 37; 208; 64; 247; 32; 76; 128; 244; 116; 50; 157; 8; 247; 32; 214; 252; 244; 116; 117; 174; 8; 247;
   32; 210; 252; 128; 12; 196; 218; 252; 254; 200; 218; 252; 245; 0; 1; 232; 3; 252; 193; 0; 160; 244; 116; 9; 236; 64; 16; 200;
   218; 252; 245; 0; 2; 232; 3; 252; 188; 0; 244; 116; 245; 236; 64; 128; 2; 240; 32; 200; 128; 128; 192; 152; 129; 220; 176; 128;
   245; 48; 0; 244; 68; 161; 209; 64; 248; 170; 0; 16; 244; 208; 156; 209; 64; 240; 1; 220; 176; 128; 245; 48; 0; 247; 72; 170;
   0; 233; 7; 244; 196; 161; 209; 64; 16; 254; 216; 50; 232; 29; 247; 72; 168; 0; 232; 40; 247; 72; 171; 0; 232; 34; 247; 72;
   225; 0; 232; 28; 247; 72; 238; 0; 232; 61; 216; 85; 232; 49; 254; 113; 4; 253; 34; 0; 244; 81; 176; 209; 64; 160; 64; 4;
   64; 6; 234; 51; 242; 249; 244; 210; 176; 209; 64; 113; 4; 253; 10; 0; 242; 73; 253; 5; 0; 81; 4; 242; 54; 254; 247; 33;
   188; 255; 247; 49; 188; 255; 254; 245; 48; 1; 253; 126; 0; 234; 12; 245; 48; 1; 196; 172; 129; 245; 48; 2; 196; 144; 129; 220;
   176; 128; 248; 224; 0; 16; 160; 245; 16; 1; 245; 16; 2; 245; 16; 3; 254; 200; 218; 252; 247; 0; 254; 255; 247; 49; 210; 252;
   234; 11; 200; 218; 252; 247; 0; 253; 255; 247; 49; 214; 252; 196; 218; 252; 204; 68; 252; 247; 0; 254; 255; 196; 68; 252; 244; 125;
   117; 174; 8; 233; 7; 244; 117; 96; 209; 64; 234; 12; 244; 125; 50; 157; 8; 233; 5; 244; 117; 148; 209; 64; 242; 124; 208; 4;
   204; 91; 128; 216; 1; 233; 2; 124; 4; 81; 32; 113; 52; 244; 125; 193; 133; 8; 232; 5; 254; 128; 1; 234; 2; 128; 0; 165;
   216; 0; 232; 2; 133; 12; 197; 218; 252; 244; 117; 160; 209; 64; 20; 254; 247; 16; 255; 247; 244; 201; 160; 209; 64; 217; 0; 232;
   34; 33; 247; 73; 8; 6; 233; 5; 133; 2; 245; 16; 1; 244; 121; 0; 240; 0; 233; 5; 128; 0; 245; 16; 9; 217; 6; 233;
   6; 97; 6; 213; 6; 65; 6; 244; 224; 236; 220; 199; 244; 224; 14; 204; 199; 0; 0; 0; 116; 10; 8; 0; 1; 0; 0; 0;
   0; 0; 0; 0; 0; 0; 0; 0; 0; 0; 0; 0; 0; 0; 0; 8; 0; 0; 0; 0; 0; 0; 0; 0; 0; 0; 0; 0].

Definition dvd_patchcodeQ08 : list Z :=
  [247; 16; 255; 247; 244; 116; 37; 208; 64; 247; 32; 76; 128; 244; 116; 57; 158; 8; 247; 32; 214; 252; 244; 116; 2; 179; 8; 247;
   32; 210; 252; 128; 12; 196; 218; 252; 254; 200; 218; 252; 245; 0; 1; 232; 3; 252; 193; 0; 160; 244; 116; 9; 236; 64; 16; 200;
   218; 252; 245; 0; 2; 232; 3; 252; 188; 0; 244; 116; 2; 237; 64; 128; 2; 240; 32; 200; 120; 128; 192; 146; 129; 220; 170; 128;
   245; 48; 0; 244; 68; 161; 209; 64; 248; 170; 0; 16; 244; 208; 156; 209; 64; 240; 1; 220; 170; 128; 245; 48; 0; 247; 72; 170;
   0; 233; 7; 244; 196; 161; 209; 64; 16; 254; 216; 50; 232; 29; 247; 72; 168; 0; 232; 40; 247; 72; 171; 0; 232; 34; 247; 72;
   225; 0; 232; 28; 247; 72; 238; 0; 232; 61; 216; 85; 232; 49; 254; 113; 4; 253; 34; 0; 244; 81; 176; 209; 64; 160; 64; 4;
   64; 6; 234; 51; 242; 249; 244; 210; 176; 209; 64; 113; 4; 253; 10; 0; 242; 73; 253; 5; 0; 81; 4; 242; 54; 254; 247; 33;
   188; 255; 247; 49; 188; 255; 254; 245; 48; 1; 253; 126; 0; 234; 12; 245; 48; 1; 196; 166; 129; 245; 48; 2; 196; 138; 129; 220;
   170; 128; 248; 224; 0; 16; 160; 245; 16; 1; 245; 16; 2; 245; 16; 3; 254; 200; 218; 252; 247; 0; 254; 255; 247; 49; 210; 252;
   234; 11; 200; 218; 252; 247; 0; 253; 255; 247; 49; 214; 252; 196; 218; 252; 204; 68; 252; 247; 0; 254; 255; 196; 68; 252; 244; 125;
   2; 179; 8; 233; 7; 244; 117; 96; 209; 64; 234; 12; 244; 125; 57; 158; 8; 233; 5; 244; 117; 148; 209; 64; 242; 124; 208; 4;
   204; 91; 128; 216; 1; 233; 2; 124; 4; 81; 32; 113; 52; 244; 125; 127; 134; 8; 232; 5; 254; 128; 1; 234; 2; 128; 0; 165;
   216; 0; 232; 2; 133; 12; 197; 218; 252; 244; 117; 160; 209; 64; 20; 254; 247; 16; 255; 247; 244; 201; 160; 209; 64; 217; 0; 232;
   34; 33; 247; 73; 8; 6; 233; 5; 133; 2; 245; 16; 1; 244; 121; 0; 240; 0; 233; 5; 128; 0; 245; 16; 9; 217; 6; 233;
   6; 97; 6; 213; 6; 65; 6; 244; 224; 121; 225; 199; 244; 224; 235; 205; 199; 0; 0; 0; 164; 10; 8; 0; 1; 0; 0; 0;
   0; 0; 0; 0; 0; 0; 0; 0; 0; 0; 0; 0; 0; 0; 0; 8; 0; 0; 0; 0; 0; 0; 0; 0; 0; 0; 0; 0].
