(* ===== verification/DvdState.v ===== *)
(** * The state of the optical drive's driver ([libogc/dvd.c], [gc/ogc/dvd.h])

    The variables of the driver, the command blocks of its clients, the registers
    of the drive interface, and the functions that program a command. A function
    of the source that starts a command stores the function to call when the
    drive interrupts in [__dvd_callback]; here such a pointer is a [lowfn], and
    [Dvd] says what calling it does.

    Every access to a register is logged. What a register contains when it is
    read, what the drive has put in [__dvd_tmpid0] and in the release date of
    [__dvd_driveinfo], and the time, depend on all accesses so far ([DvdHw]).
    [DCInvalidateRange] and [udelay] change nothing that is modelled. *)

From stdpp Require Import base gmap list.
From Stdlib Require Import ZArith Lia.
From S2P Require Import Prelude Chain LwpQueue Devices KState Clock Irq DspDev DvdPatch.

Open Scope Z_scope.

(** ** Commands of the drive and bits of its registers *)

Definition DVD_BRK : Z := 1.
Definition DVD_DE_MSK : Z := 2.
Definition DVD_DE_INT : Z := 4.
Definition DVD_TC_MSK : Z := 8.
Definition DVD_TC_INT : Z := 16.
Definition DVD_BRK_MSK : Z := 32.
Definition DVD_BRK_INT : Z := 64.
Definition DVD_CVR_INT : Z := 4.
Definition DVD_CVR_MSK : Z := 2.
Definition DVD_DI_DMA : Z := 2.
Definition DVD_DI_START : Z := 1.
Definition DVD_DISKIDSIZE : Z := 0x20.
Definition DVD_DRVINFSIZE : Z := 0x20.
Definition DVD_MAXCOMMANDS : Z := 0x12.
Definition DVD_DVDINQUIRY : Z := 0x12000000.
Definition DVD_FWSETOFFSET : Z := 0x32000000.
Definition DVD_FWENABLEEXT : Z := 0x55000000.
Definition DVD_READSECTOR : Z := 0xA8000000.
Definition DVD_READDISKID : Z := 0xA8000040.
Definition DVD_SEEKSECTOR : Z := 0xAB000000.
Definition DVD_REQUESTERROR : Z := 0xE0000000.
Definition DVD_AUDIOSTREAM : Z := 0xE1000000.
Definition DVD_AUDIOSTATUS : Z := 0xE2000000.
Definition DVD_STOPMOTOR : Z := 0xE3000000.
Definition DVD_AUDIOCONFIG : Z := 0xE4000000.
Definition DVD_FWSETSTATUS : Z := 0xEE000000.
Definition DVD_FWWRITEMEM : Z := 0xFE010100.
Definition DVD_FWCTRLMOTOR : Z := 0xFE110000.
Definition DVD_FWFUNCCALL : Z := 0xFE120000.
Definition DVD_MODEL04 : Z := 0x20020402.
Definition DVD_MODEL06 : Z := 0x20010608.
Definition DVD_MODEL08 : Z := 0x20020823.
Definition DVD_MODEL08Q : Z := 0x20010831.
Definition DVD_DRIVERESET : Z := 1.
Definition DVD_CHIPPRESENT : Z := 2.
Definition DVD_INTEROPER : Z := 4.
Definition DVD_STATUS_READY : Z := 0.
Definition DVD_STATUS_COVER_OPENED : Z := 1.
Definition DVD_STATUS_DISK_CHANGE : Z := 2.
Definition DVD_STATUS_NO_DISK : Z := 3.
Definition DVD_STATUS_DISK_ID_NOT_READ : Z := 5.
Definition DVD_ERROR_MEDIUM_NOT_PRESENT : Z := 0x023a00.
Definition DVD_ERROR_UNRECOVERABLE_READ : Z := 0x031100.
Definition DVD_ERROR_MEDIUM_CHANGED : Z := 0x062800.
Definition DVD_ERROR_MEDIUM_CHANGE_REQ : Z := 0x0B5A01.
Definition DVD_SPINMOTOR_UP : Z := 0x100.
Definition DVD_SPINMOTOR_ACCEPT : Z := 0x4000.
Definition DVD_RESETHARD : Z := 0.
Definition DVD_RESETSOFT : Z := 1.
Definition DVD_RESETNONE : Z := 2.

Definition DVD_STATUS (s : Z) : Z := u8 (Z.shiftr s 24).
Definition DVD_ERROR (s : Z) : Z := Z.land s 0x00ffffff.
Definition dvd_may_retry (s : Z) : bool := (DVD_STATUS s =? DVD_STATUS_READY) || (DVD_STATUS s =? DVD_STATUS_DISK_ID_NOT_READ).

(** The codes the driver makes up: a failure without a code, and a timeout. *)
Definition ERR_UNKNOWN : Z := 0x01234567.
Definition ERR_TIMEOUT : Z := 0x01234568.

Definition dvd_errortable : list Z :=
  [0x00000000; 0x00023a00; 0x00062800; 0x00030200; 0x00031100; 0x00052000; 0x00052001; 0x00052100; 0x00052400;
   0x00052401; 0x00052402; 0x000B5A01; 0x00056300; 0x00020401; 0x00020400; 0x00040800; 0x00100007; 0x00000000].

(** The bytes of [__dvd_unlockcmd$221] and [$222]: "MATSHITA" and "DVD-GAME". *)
Definition dvd_unlockcmd221 : list Z := [0xff; 0x01; 77; 65; 84; 83; 72; 73; 84; 65; 0x02; 0x00].
Definition dvd_unlockcmd222 : list Z := [0xff; 0x00; 68; 86; 68; 45; 71; 65; 77; 69; 0x03; 0x00].

(** Word [i] of a buffer of bytes. *)
Definition be_word (b : list Z) (i : nat) : Z :=
  let at_ k := nth (4 * i + k) b 0 in
  Z.lor (Z.shiftl (at_ 0%nat) 24) (Z.lor (Z.shiftl (at_ 1%nat) 16) (Z.lor (Z.shiftl (at_ 2%nat) 8) (at_ 3%nat))).

(** ** Variables *)

(** The integers and addresses; the last six are local to a function
    ([__dvd_handlespinupcb], [__dvd_fwpatchcb], [__dvd_patchdrivecb] and
    [DVD_LowSetGCMOffset]). *)
Inductive dvar :=
| dvd_initflag | dvd_stopnextint | dvd_resetoccured | dvd_waitcoverclose | dvd_breaking | dvd_resetrequired
| dvd_canceling | dvd_pauseflag | dvd_pausingflag | dvd_lastresetend | dvd_ready | dvd_resumefromhere
| dvd_fatalerror | dvd_lasterror | dvd_internalretries | dvd_autofinishing | dvd_autoinvalidation | dvd_cancellasterror
| dvd_drivechecked | dvd_drivestate | dvd_extensionsenabled | dvd_lastlen | dvd_nextcmdnum | dvd_workaround
| dvd_workaroundseek | dvd_lastcmdwasread | dvd_currcmd | dvd_motorcntrl | dvd_cancelcallback | dvd_mountusrcb
| dvd_executing | dvd_patchcode_size | dvd_spinup_step | dvd_fwpatch_step | dvd_patch_stage | dvd_patch_pos
| dvd_patch_addr | dvd_loc_offset.

(** The pointers to functions that take the result of a command. *)
Inductive cbvar :=
| dvd_callback | dvd_resetcovercb | dvd_finalunlockcb | dvd_finalsudcb | dvd_finalstatuscb | dvd_finaladdoncb
| dvd_finalpatchcb | dvd_finaloffsetcb.

(** The functions of dvd.c that such a pointer points to. *)
Inductive lowfn :=
| Fn_stateretrycb | Fn_unrecoverederrorretrycb | Fn_unrecoverederrorcb | Fn_stateerrorcb | Fn_stategettingerrorcb
| Fn_statebusycb | Fn_statemotorstoppedcb | Fn_statecoverclosedcb | Fn_statecheckid1cb | Fn_stategotoretrycb
| Fn_getstatuscb | Fn_cntrldrivecb | Fn_setgcmoffsetcb | Fn_handlespinupcb | Fn_fwpatchcb | Fn_checkaddonscb
| Fn_spinupdrivecb | Fn_statecoverclosed_spinupcb | Fn_patchdrivecb | Fn_unlockdrivecb.

(** [__dvd_laststate]. *)
Inductive statefn := St_statebusy | St_statecoverclosed_cmd | St_statecheckid2.

(** [__dvd_usrdata]: nothing, a client's variable, or [loc_offset]. *)
Inductive usrptr := UsrNull | UsrAddr (a : Z) | UsrLocOffset.

#[export] Instance dvar_eq_dec : EqDecision dvar.
Proof. solve_decision. Defined.
#[export] Instance cbvar_eq_dec : EqDecision cbvar.
Proof. solve_decision. Defined.
#[export] Instance lowfn_eq_dec : EqDecision lowfn.
Proof. solve_decision. Defined.

(** [struct _dvdcmdblk]; its node is at the address of the block in memory. *)
Record cmdblk := mk_blk {
  b_cmd : Z; b_state : Z; b_offset : Z; b_len : Z; b_buf : Z; b_currtxsize : Z; b_txdsize : Z; b_id : Z; b_cb : Z; b_usrdata : Z }.

#[export] Instance cmdblk_eq_dec : EqDecision cmdblk.
Proof. solve_decision. Defined.

Definition set_bcmd (x : Z) (b : cmdblk) : cmdblk :=
  mk_blk x (b_state b) (b_offset b) (b_len b) (b_buf b) (b_currtxsize b) (b_txdsize b) (b_id b) (b_cb b) (b_usrdata b).
Definition set_bstate (x : Z) (b : cmdblk) : cmdblk :=
  mk_blk (b_cmd b) x (b_offset b) (b_len b) (b_buf b) (b_currtxsize b) (b_txdsize b) (b_id b) (b_cb b) (b_usrdata b).
Definition set_boffset (x : Z) (b : cmdblk) : cmdblk :=
  mk_blk (b_cmd b) (b_state b) x (b_len b) (b_buf b) (b_currtxsize b) (b_txdsize b) (b_id b) (b_cb b) (b_usrdata b).
Definition set_blen (x : Z) (b : cmdblk) : cmdblk :=
  mk_blk (b_cmd b) (b_state b) (b_offset b) x (b_buf b) (b_currtxsize b) (b_txdsize b) (b_id b) (b_cb b) (b_usrdata b).
Definition set_bbuf (x : Z) (b : cmdblk) : cmdblk :=
  mk_blk (b_cmd b) (b_state b) (b_offset b) (b_len b) x (b_currtxsize b) (b_txdsize b) (b_id b) (b_cb b) (b_usrdata b).
Definition set_bcurrtxsize (x : Z) (b : cmdblk) : cmdblk :=
  mk_blk (b_cmd b) (b_state b) (b_offset b) (b_len b) (b_buf b) x (b_txdsize b) (b_id b) (b_cb b) (b_usrdata b).
Definition set_btxdsize (x : Z) (b : cmdblk) : cmdblk :=
  mk_blk (b_cmd b) (b_state b) (b_offset b) (b_len b) (b_buf b) (b_currtxsize b) x (b_id b) (b_cb b) (b_usrdata b).
Definition set_bcb (x : Z) (b : cmdblk) : cmdblk :=
  mk_blk (b_cmd b) (b_state b) (b_offset b) (b_len b) (b_buf b) (b_currtxsize b) (b_txdsize b) (b_id b) x (b_usrdata b).

(** [struct _dvdcmdl] and [struct _dvdcmds]. *)
Record dvdcmdl := mk_cmdl { l_cmd : Z; l_buf : Z; l_len : Z; l_offset : Z; l_cb : option lowfn }.
Record dvdcmds := mk_cmds { c_buf : Z; c_len : Z; c_offset : Z }.

(** What the clients see, in order, and what the driver does with their
    commands: a block was accepted, taken from the queues, completed; a callback
    outside the driver was called; the queues were emptied. No function of the
    driver reads this history. *)
Inductive dvdev :=
| EvIssue (prio blk : Z)
| EvStart (blk : Z)
| EvDone (blk result : Z)
| EvCall (cb result blk : Z)
| EvDrop.

(** [d_id] is what [__dvd_diskID] points to, [d_patch] the array
    [__dvdpatchcode] points to, [d_cmdbuf] the buffer of [__dvd_patchdrivecb].
    [d_sleep] are the threads asleep on [__dvd_wait_queue], [d_alarm] the time
    set for [__dvd_timeoutalarm] while it is running. [d_sram] are the error code
    in the SRAM and whether somebody has it locked ([libogc/system.c]). *)
Record dvdst := mk_dvd {
  dv : dvar -> Z; d_cb : cbvar -> option lowfn; d_last : option statefn; d_blk : gmap Z cmdblk; d_mem : mem;
  d_log : list regev; d_irq : irqst; d_alarm : option timespec; d_list : Z -> dvdcmdl; d_curr : dvdcmds; d_prev : dvdcmds;
  d_id : list Z; d_patch : option (list Z); d_cmdbuf : list Z; d_usr : usrptr; d_sram : Z * bool;
  d_sleep : list Z; d_out : list dvdev }.

Definition set_vars (x : dvar -> Z) (s : dvdst) : dvdst :=
  mk_dvd x (d_cb s) (d_last s) (d_blk s) (d_mem s) (d_log s) (d_irq s) (d_alarm s) (d_list s) (d_curr s) (d_prev s) (d_id s) (d_patch s) (d_cmdbuf s) (d_usr s) (d_sram s) (d_sleep s) (d_out s).
Definition set_cbs (x : cbvar -> option lowfn) (s : dvdst) : dvdst :=
  mk_dvd (dv s) x (d_last s) (d_blk s) (d_mem s) (d_log s) (d_irq s) (d_alarm s) (d_list s) (d_curr s) (d_prev s) (d_id s) (d_patch s) (d_cmdbuf s) (d_usr s) (d_sram s) (d_sleep s) (d_out s).
Definition set_laststate (x : option statefn) (s : dvdst) : dvdst :=
  mk_dvd (dv s) (d_cb s) x (d_blk s) (d_mem s) (d_log s) (d_irq s) (d_alarm s) (d_list s) (d_curr s) (d_prev s) (d_id s) (d_patch s) (d_cmdbuf s) (d_usr s) (d_sram s) (d_sleep s) (d_out s).
Definition set_blks (x : gmap Z cmdblk) (s : dvdst) : dvdst :=
  mk_dvd (dv s) (d_cb s) (d_last s) x (d_mem s) (d_log s) (d_irq s) (d_alarm s) (d_list s) (d_curr s) (d_prev s) (d_id s) (d_patch s) (d_cmdbuf s) (d_usr s) (d_sram s) (d_sleep s) (d_out s).
Definition set_dmem (x : mem) (s : dvdst) : dvdst :=
  mk_dvd (dv s) (d_cb s) (d_last s) (d_blk s) x (d_log s) (d_irq s) (d_alarm s) (d_list s) (d_curr s) (d_prev s) (d_id s) (d_patch s) (d_cmdbuf s) (d_usr s) (d_sram s) (d_sleep s) (d_out s).
Definition set_dlog (x : list regev) (s : dvdst) : dvdst :=
  mk_dvd (dv s) (d_cb s) (d_last s) (d_blk s) (d_mem s) x (d_irq s) (d_alarm s) (d_list s) (d_curr s) (d_prev s) (d_id s) (d_patch s) (d_cmdbuf s) (d_usr s) (d_sram s) (d_sleep s) (d_out s).
Definition set_dirq (x : irqst) (s : dvdst) : dvdst :=
  mk_dvd (dv s) (d_cb s) (d_last s) (d_blk s) (d_mem s) (d_log s) x (d_alarm s) (d_list s) (d_curr s) (d_prev s) (d_id s) (d_patch s) (d_cmdbuf s) (d_usr s) (d_sram s) (d_sleep s) (d_out s).
Definition set_alarm (x : option timespec) (s : dvdst) : dvdst :=
  mk_dvd (dv s) (d_cb s) (d_last s) (d_blk s) (d_mem s) (d_log s) (d_irq s) x (d_list s) (d_curr s) (d_prev s) (d_id s) (d_patch s) (d_cmdbuf s) (d_usr s) (d_sram s) (d_sleep s) (d_out s).
Definition set_cmdlist (x : Z -> dvdcmdl) (s : dvdst) : dvdst :=
  mk_dvd (dv s) (d_cb s) (d_last s) (d_blk s) (d_mem s) (d_log s) (d_irq s) (d_alarm s) x (d_curr s) (d_prev s) (d_id s) (d_patch s) (d_cmdbuf s) (d_usr s) (d_sram s) (d_sleep s) (d_out s).
Definition set_ccurr (x : dvdcmds) (s : dvdst) : dvdst :=
  mk_dvd (dv s) (d_cb s) (d_last s) (d_blk s) (d_mem s) (d_log s) (d_irq s) (d_alarm s) (d_list s) x (d_prev s) (d_id s) (d_patch s) (d_cmdbuf s) (d_usr s) (d_sram s) (d_sleep s) (d_out s).
Definition set_cprev (x : dvdcmds) (s : dvdst) : dvdst :=
  mk_dvd (dv s) (d_cb s) (d_last s) (d_blk s) (d_mem s) (d_log s) (d_irq s) (d_alarm s) (d_list s) (d_curr s) x (d_id s) (d_patch s) (d_cmdbuf s) (d_usr s) (d_sram s) (d_sleep s) (d_out s).
Definition set_diskid (x : list Z) (s : dvdst) : dvdst :=
  mk_dvd (dv s) (d_cb s) (d_last s) (d_blk s) (d_mem s) (d_log s) (d_irq s) (d_alarm s) (d_list s) (d_curr s) (d_prev s) x (d_patch s) (d_cmdbuf s) (d_usr s) (d_sram s) (d_sleep s) (d_out s).
Definition set_patch (x : option (list Z)) (s : dvdst) : dvdst :=
  mk_dvd (dv s) (d_cb s) (d_last s) (d_blk s) (d_mem s) (d_log s) (d_irq s) (d_alarm s) (d_list s) (d_curr s) (d_prev s) (d_id s) x (d_cmdbuf s) (d_usr s) (d_sram s) (d_sleep s) (d_out s).
Definition set_cmdbuf (x : list Z) (s : dvdst) : dvdst :=
  mk_dvd (dv s) (d_cb s) (d_last s) (d_blk s) (d_mem s) (d_log s) (d_irq s) (d_alarm s) (d_list s) (d_curr s) (d_prev s) (d_id s) (d_patch s) x (d_usr s) (d_sram s) (d_sleep s) (d_out s).
Definition set_usrdata (x : usrptr) (s : dvdst) : dvdst :=
  mk_dvd (dv s) (d_cb s) (d_last s) (d_blk s) (d_mem s) (d_log s) (d_irq s) (d_alarm s) (d_list s) (d_curr s) (d_prev s) (d_id s) (d_patch s) (d_cmdbuf s) x (d_sram s) (d_sleep s) (d_out s).
Definition set_sram (x : Z * bool) (s : dvdst) : dvdst :=
  mk_dvd (dv s) (d_cb s) (d_last s) (d_blk s) (d_mem s) (d_log s) (d_irq s) (d_alarm s) (d_list s) (d_curr s) (d_prev s) (d_id s) (d_patch s) (d_cmdbuf s) (d_usr s) x (d_sleep s) (d_out s).
Definition set_dsleep (x : list Z) (s : dvdst) : dvdst :=
  mk_dvd (dv s) (d_cb s) (d_last s) (d_blk s) (d_mem s) (d_log s) (d_irq s) (d_alarm s) (d_list s) (d_curr s) (d_prev s) (d_id s) (d_patch s) (d_cmdbuf s) (d_usr s) (d_sram s) x (d_out s).
Definition set_out (x : list dvdev) (s : dvdst) : dvdst :=
  mk_dvd (dv s) (d_cb s) (d_last s) (d_blk s) (d_mem s) (d_log s) (d_irq s) (d_alarm s) (d_list s) (d_curr s) (d_prev s) (d_id s) (d_patch s) (d_cmdbuf s) (d_usr s) (d_sram s) (d_sleep s) x.

(** Everything at zero but what the source initialises otherwise. *)
Definition dvd_vars0 : dvar -> Z :=
  fun x => match x with
           | dvd_autoinvalidation => 1
           | dvd_extensionsenabled => C_TRUE
           | dvd_patch_addr => 0x0040d000
           | _ => 0
           end.
Definition dvd_boot (blks : gmap Z cmdblk) (m : mem) (irq : irqst) (id : list Z) : dvdst :=
  mk_dvd dvd_vars0 (fun _ => None) None blks m [] irq None (fun _ => mk_cmdl 0 NULL 0 0 None) (mk_cmds NULL 0 0) (mk_cmds NULL 0 0)
    id None (replicate 12 0) UsrNull (0, false) [] [].

Definition getv (x : dvar) : M dvdst Z := gets (fun s => dv s x).
Definition setv (x : dvar) (v : Z) : M dvdst unit := modify (fun s => set_vars (fupd (dv s) x v) s).
Definition getcb (x : cbvar) : M dvdst (option lowfn) := gets (fun s => d_cb s x).
Definition setcb (x : cbvar) (f : option lowfn) : M dvdst unit := modify (fun s => set_cbs (fupd (d_cb s) x f) s).
Definition b_get {A} (f : cmdblk -> A) (b : Z) : M dvdst A := getopt (fun s => f <$> d_blk s !! b).
Definition b_upd (b : Z) (g : cmdblk -> cmdblk) : M dvdst unit :=
  fun s => match d_blk s !! b with
           | Some x => Ok (tt, set_blks (<[b := g x]> (d_blk s)) s)
           | None => Fault BadAccess
           end.
Definition on_mem {A} (c : M mem A) : M dvdst A :=
  fun s => match c (d_mem s) with Ok (a, m) => Ok (a, set_dmem m s) | Fault f => Fault f end.
Definition emit (e : dvdev) : M dvdst unit := modify (fun s => set_out (d_out s ++ [e]) s).

(** Register 9 of the processor interface, beside those of the drive. *)
Definition PI9 : Z := 0x100 + 9.

Class DvdHw := {
  di_read : list regev -> Z -> Z;      (* accesses so far, register *)
  id_dma : list regev -> list Z;       (* accesses so far: __dvd_tmpid0 *)
  rel_date : list regev -> Z;          (* accesses so far: __dvd_driveinfo.rel_date *)
  sys_time : list regev -> Z;          (* accesses so far: SYS_Time() *)
}.

(** The addresses of the static objects, the 32-bit words [__dvd_waitingqueue]
    and the blocks among them, and of the functions of dvd.c that a block can
    have as its callback: [callback] and the eight that only wake the threads in
    a synchronous call. *)
Record dvdmap := mk_map {
  a_waitingqueue : Z; a_dummycmdblk : Z; a_block15 : Z; a_tmpid0 : Z; a_driveinfo : Z; a_callback : Z;
  a_mountsynccb : Z; a_inquirysynccb : Z; a_readsynccb : Z; a_streamatendsynccb : Z; a_seeksynccb : Z;
  a_spinupdrivesynccb : Z; a_motorcntrlsynccb : Z; a_setgcmsynccb : Z; a_interrupt : Z }.

(** ** Error codes *)

(** The loop of [err2num] from entry [i] on. *)
Fixpoint err2num_loop (table : list Z) (i errorcode : Z) : option Z :=
  match table with
  | [] => None
  | e :: r => if errorcode =? e then Some i else err2num_loop r (i + 1) errorcode
  end.
Definition err2num (errorcode : Z) : Z :=
  match err2num_loop dvd_errortable 0 errorcode with
  | Some i => i
  | None => if (errorcode <? 0x00100000) || (0x00100008 <? errorcode) then 29 else 17
  end.
Definition convert (errorcode : Z) : Z :=
  if u32 (errorcode - 0x01230000) =? 0x4567 then 255
  else if u32 (errorcode - 0x01230000) =? 0x4568 then 254
  else
    let err := u8 (SHIFTR errorcode 24 8) in
    let err_num := err2num (Z.land errorcode 0x00ffffff) in
    let err := if 0x06 <? err then 0x06 else err in
    u8 (err_num + err * 30).

(** [__SYS_LockSramEx] answers [NULL] while somebody has the SRAM. *)
Definition dvd_storeerror (errorcode : Z) : M dvdst unit :=
  err <- ret (convert (u32 errorcode));
  sram <- gets d_sram;
  if snd sram then fail BadAccess else modify (set_sram (err, false)).

Definition dvd_categorizeerror (errorcode : Z) : M dvdst Z :=
  if u32 (errorcode - 0x20000) =? 0x0400 then
    setv dvd_lasterror errorcode;;
    ret 1
  else if (DVD_ERROR errorcode =? DVD_ERROR_MEDIUM_CHANGED) || (DVD_ERROR errorcode =? DVD_ERROR_MEDIUM_NOT_PRESENT)
       || (DVD_ERROR errorcode =? DVD_ERROR_MEDIUM_CHANGE_REQ) || (u32 (DVD_ERROR errorcode - 0x40000) =? 0x3100) then ret 0
  else
    n <- getv dvd_internalretries;
    setv dvd_internalretries (u32 (n + 1));;
    if u32 (n + 1) =? 2 then
      last <- getv dvd_lasterror;
      setv dvd_lasterror (DVD_ERROR errorcode);;
      ret (if last =? DVD_ERROR errorcode then 1 else 2)
    else
      setv dvd_lasterror (DVD_ERROR errorcode);;
      if negb (DVD_ERROR errorcode =? DVD_ERROR_UNRECOVERABLE_READ) then
        b <- getv dvd_executing; cmd <- b_get b_cmd b;
        ret (if negb (cmd =? 0x0005) then 3 else 2)
      else ret 2.

(** ** The queues of waiting commands *)

Section Queues.
Context (A : dvdmap).

Definition waitq (prio : Z) : Z := a_waitingqueue A + 12 * prio.

Definition dvd_clearwaitingqueue : M dvdst unit :=
  on_mem (lwp_queue_init_empty (waitq 0);; lwp_queue_init_empty (waitq 1);; lwp_queue_init_empty (waitq 2);;
          lwp_queue_init_empty (waitq 3)).

(** The loops of the next two from queue [i] on, [n] queues. *)
Fixpoint checkwaiting_loop (n : nat) (i : Z) : M dvdst bool :=
  match n with
  | O => ret false
  | S n => e <- on_mem (lwp_queue_isempty (waitq i)); if negb e then ret true else checkwaiting_loop n (i + 1)
  end.
Definition dvd_checkwaitingqueue : M dvdst bool := checkwaiting_loop 4 0.

Definition dvd_pushwaitingqueue (prio block : Z) : M dvdst Z :=
  on_mem (lwp_queue_appendI (waitq prio) block);; emit (EvIssue prio block);; ret 1.

Definition dvd_popwaitingqueueprio (prio : Z) : M dvdst Z := on_mem (lwp_queue_firstnodeI (waitq prio)).

Fixpoint popwaiting_loop (n : nat) (i : Z) : M dvdst Z :=
  match n with
  | O => ret NULL
  | S n => e <- on_mem (lwp_queue_isempty (waitq i)); if negb e then dvd_popwaitingqueueprio i else popwaiting_loop n (i + 1)
  end.
Definition dvd_popwaitingqueue : M dvdst Z := popwaiting_loop 4 0.
End Queues.

(** ** Registers and commands *)

Section Low.
Context `{DvdHw} (A : dvdmap).

Definition di_rd (r : Z) : M dvdst Z := fun s =>
  let v := u32 (di_read (d_log s) r) in Ok (v, set_dlog (d_log s ++ [RdReg r v]) s).
Definition di_wr (r v : Z) : M dvdst unit := modify (fun s => set_dlog (d_log s ++ [WrReg r (u32 v)]) s).
(** [_diReg[1] = _diReg[1];] *)
Definition di_ack : M dvdst unit := v <- di_rd 1; di_wr 1 v.

(** [tb.tv_sec = n; tb.tv_nsec = 0; __SetupTimeoutAlarm(&tb);] *)
Definition SetupTimeoutAlarm (n : Z) : M dvdst unit := modify (set_alarm (Some (mk_timespec n 0))).

(** [__dvd_callback = cb; __dvd_stopnextint = 0;] *)
Definition arm (cb : option lowfn) : M dvdst unit := setcb dvd_callback cb;; setv dvd_stopnextint 0.

Definition Read (buffer len offset : Z) (cb : option lowfn) : M dvdst unit :=
  arm cb;;
  setv dvd_lastcmdwasread 1;;
  di_wr 2 DVD_READSECTOR;; di_wr 3 (Z.shiftr offset 2);; di_wr 4 len;; di_wr 5 buffer;; di_wr 6 len;;
  setv dvd_lastlen len;;
  di_wr 7 (Z.lor DVD_DI_DMA DVD_DI_START);;
  val <- di_rd 7;
  SetupTimeoutAlarm (if 0x00a00000 <? val then 20 else 10).

Definition DoRead (buffer len offset : Z) (cb : option lowfn) : M dvdst unit :=
  setv dvd_nextcmdnum 0;;
  modify (fun s => set_cmdlist (fupd (d_list s) 0 (mk_cmdl (-1) (l_buf (d_list s 0)) (l_len (d_list s 0)) (l_offset (d_list s 0))
    (l_cb (d_list s 0)))) s);;
  Read buffer len offset cb.

Definition DVD_LowRead (buf len offset : Z) (cb : option lowfn) : M dvdst unit :=
  di_wr 6 len;;
  modify (set_ccurr (mk_cmds buf len offset));;
  DoRead buf len offset cb.

Definition DVD_LowSeek (offset : Z) (cb : option lowfn) : M dvdst unit :=
  arm cb;;
  di_wr 2 DVD_SEEKSECTOR;; di_wr 3 (Z.shiftr offset 2);; di_wr 7 DVD_DI_START;;
  SetupTimeoutAlarm 10.

Definition DVD_LowReadId (diskID : Z) (cb : option lowfn) : M dvdst unit :=
  arm cb;;
  di_wr 2 DVD_READDISKID;; di_wr 3 0;; di_wr 4 DVD_DISKIDSIZE;; di_wr 5 diskID;; di_wr 6 DVD_DISKIDSIZE;;
  di_wr 7 (Z.lor DVD_DI_DMA DVD_DI_START);;
  SetupTimeoutAlarm 10.

Definition DVD_LowRequestError (cb : option lowfn) : M dvdst unit :=
  arm cb;; di_wr 2 DVD_REQUESTERROR;; di_wr 7 DVD_DI_START;; SetupTimeoutAlarm 10.

Definition DVD_LowStopMotor (cb : option lowfn) : M dvdst unit :=
  arm cb;; di_wr 2 DVD_STOPMOTOR;; di_wr 7 DVD_DI_START;; SetupTimeoutAlarm 10.

Definition DVD_LowInquiry (info : Z) (cb : option lowfn) : M dvdst unit :=
  arm cb;;
  di_wr 2 DVD_DVDINQUIRY;; di_wr 4 0x20;; di_wr 5 info;; di_wr 6 0x20;; di_wr 7 (Z.lor DVD_DI_DMA DVD_DI_START);;
  SetupTimeoutAlarm 10.

Definition DVD_LowWaitCoverClose (cb : option lowfn) : M dvdst unit :=
  setcb dvd_callback cb;;
  setv dvd_waitcoverclose 1;;
  setv dvd_stopnextint 0;;
  di_wr 1 DVD_CVR_MSK.

Definition DVD_LowReset (reset_mode : Z) : M dvdst unit :=
  di_wr 1 DVD_CVR_MSK;;
  val <- di_rd PI9;
  di_wr PI9 (Z.lor (Z.ldiff val 0x0004) 0x0001);;
  val <- ret (Z.lor (if reset_mode =? DVD_RESETHARD then Z.lor val 0x0004 else val) 0x0001);
  di_wr PI9 val;;
  setv dvd_resetoccured 1;;
  now <- gets (fun s => sys_time (d_log s));
  setv dvd_lastresetend (u64 now);;
  st <- getv dvd_drivestate; setv dvd_drivestate (Z.lor st DVD_DRIVERESET).

Definition DVD_LowAudioStream (subcmd len offset : Z) (cb : option lowfn) : M dvdst unit :=
  arm cb;;
  di_wr 2 (Z.lor DVD_AUDIOSTREAM subcmd);; di_wr 3 (Z.shiftr offset 2);; di_wr 4 len;; di_wr 7 DVD_DI_START;;
  SetupTimeoutAlarm 10.

Definition DVD_LowAudioBufferConfig (enable size : Z) (cb : option lowfn) : M dvdst unit :=
  arm cb;;
  val <- ret (if negb (s32 enable =? 0) then Z.lor 0x00010000 (if size =? 0 then 0x0000000a else 0) else 0);
  di_wr 2 (Z.lor DVD_AUDIOCONFIG val);; di_wr 7 DVD_DI_START;;
  SetupTimeoutAlarm 10.

Definition DVD_LowRequestAudioStatus (subcmd : Z) (cb : option lowfn) : M dvdst unit :=
  arm cb;; di_wr 2 (Z.lor DVD_AUDIOSTATUS subcmd);; di_wr 7 DVD_DI_START;; SetupTimeoutAlarm 10.

Definition DVD_LowUnlockDrive (cb : option lowfn) : M dvdst unit :=
  setcb dvd_callback (Some Fn_unlockdrivecb);;
  setcb dvd_finalunlockcb cb;;
  setv dvd_stopnextint 0;;
  di_wr 2 (be_word dvd_unlockcmd221 0);; di_wr 3 (be_word dvd_unlockcmd221 1);; di_wr 4 (be_word dvd_unlockcmd221 2);;
  di_wr 7 DVD_DI_START.

(** [__dvd_unlockdrivecb], which ignores its argument. *)
Definition dvd_unlockdrivecb : M dvdst unit :=
  f <- getcb dvd_finalunlockcb; setcb dvd_callback f;;
  di_ack;;
  di_wr 2 (be_word dvd_unlockcmd222 0);; di_wr 3 (be_word dvd_unlockcmd222 1);; di_wr 4 (be_word dvd_unlockcmd222 2);;
  di_wr 7 DVD_DI_START.

Definition DVD_LowSetOffset (offset : Z) (cb : option lowfn) : M dvdst unit :=
  setv dvd_stopnextint 0;;
  setcb dvd_callback cb;;
  di_wr 2 DVD_FWSETOFFSET;; di_wr 3 (Z.shiftr offset 2);; di_wr 4 0;; di_wr 7 DVD_DI_START.

Definition DVD_LowSetGCMOffset (offset : Z) (cb : option lowfn) : M dvdst unit :=
  setv dvd_loc_offset offset;;
  setcb dvd_finaloffsetcb cb;;
  setv dvd_stopnextint 0;;
  modify (set_usrdata UsrLocOffset);;
  DVD_LowUnlockDrive (Some Fn_setgcmoffsetcb).

Definition DVD_LowFuncCall (address : Z) (cb : option lowfn) : M dvdst unit :=
  arm cb;; di_wr 2 DVD_FWFUNCCALL;; di_wr 3 address;; di_wr 4 0x66756E63;; di_wr 7 DVD_DI_START.

Definition DVD_LowSpinMotor (mode : Z) (cb : option lowfn) : M dvdst unit :=
  arm cb;; di_wr 2 (Z.lor DVD_FWCTRLMOTOR (Z.land mode 0x0000ff00));; di_wr 3 0;; di_wr 4 0;; di_wr 7 DVD_DI_START.

Definition DVD_LowEnableExtensions (enable : Z) (cb : option lowfn) : M dvdst unit :=
  arm cb;; di_wr 2 (Z.lor DVD_FWENABLEEXT (SHIFTL (u8 enable) 16 8));; di_wr 3 0;; di_wr 4 0;; di_wr 7 DVD_DI_START.

Definition DVD_LowSetStatus (status : Z) (cb : option lowfn) : M dvdst unit :=
  arm cb;; di_wr 2 (Z.lor DVD_FWSETSTATUS (Z.land status 0x00ffffff));; di_wr 3 0;; di_wr 4 0;; di_wr 7 DVD_DI_START.

Definition DVD_LowGetStatus (status : usrptr) (cb : option lowfn) : M dvdst unit :=
  setcb dvd_finalstatuscb cb;;
  modify (set_usrdata status);;
  DVD_LowRequestError (Some Fn_getstatuscb).

Definition DVD_LowControlMotor (mode : Z) (cb : option lowfn) : M dvdst unit :=
  setv dvd_stopnextint 0;;
  setv dvd_motorcntrl (u32 mode);;
  setcb dvd_finalsudcb cb;;
  DVD_LowUnlockDrive (Some Fn_cntrldrivecb).

(** ** The patch *)

(** The loop that fills the buffer: at most [k] bytes more, [cnt] so far. *)
Fixpoint patch_copy (k : nat) (code : list Z) (size pos : Z) (cnt : nat) (buf : list Z) : nat * Z * list Z :=
  match k with
  | O => (cnt, pos, buf)
  | S k =>
      if pos <? size then patch_copy k code size (pos + 1) (S cnt) (<[cnt := nth (Z.to_nat pos) code 0]> buf)
      else (cnt, pos, buf)
  end.

(** [__dvd_patchdrivecb], which ignores its argument. Every round of its loop
    returns. *)
Definition dvd_patchdrivecb : M dvdst unit :=
  p <- gets d_patch; size <- getv dvd_patchcode_size;
  match p with
  | None => ret tt
  | Some code =>
      if size <=? 0 then ret tt else
      stage <- getv dvd_patch_stage;
      if negb (stage =? 0x0003) then
        setcb dvd_callback (Some Fn_patchdrivecb);;
        if stage =? 0x0000 then
          pos <- getv dvd_patch_pos; buf <- gets d_cmdbuf;
          let '(cnt, pos, buf) := patch_copy 12 code size pos 0 buf in
          modify (set_cmdbuf buf);;
          setv dvd_patch_pos pos;;
          setv dvd_patch_stage (if size <=? pos then 0x0002 else 0x0001);;
          addr <- getv dvd_patch_addr;
          di_ack;;
          di_wr 2 DVD_FWWRITEMEM;; di_wr 3 addr;; di_wr 4 (SHIFTL (Z.of_nat cnt) 16 16);;
          di_wr 7 (Z.lor DVD_DI_DMA DVD_DI_START);;
          setv dvd_patch_addr (u32 (addr + Z.of_nat cnt))
        else
          setv dvd_patch_stage (if 0x0001 <? stage then 0x0003 else 0);;
          buf <- gets d_cmdbuf;
          di_ack;;
          di_wr 2 (be_word buf 0);; di_wr 3 (be_word buf 1);; di_wr 4 (be_word buf 2);;
          di_wr 7 DVD_DI_START
      else
        setcb dvd_callback None;;
        modify (set_patch None);;
        st <- getv dvd_drivestate; setv dvd_drivestate (Z.lor st DVD_INTEROPER);;
        f <- getcb dvd_finalpatchcb; DVD_LowFuncCall 0x0040d000 f
  end.

Definition DVD_LowPatchDriveCode (cb : option lowfn) : M dvdst unit :=
  setcb dvd_finalpatchcb cb;;
  setv dvd_stopnextint 0;;
  date <- gets (fun s => u32 (rel_date (d_log s)));
  (if date =? DVD_MODEL04 then modify (set_patch (Some dvd_patchcode04));; setv dvd_patchcode_size dvd_patch_size
   else if Z.land date 0x0000ff00 =? 0x00000500 then ret tt
   else if date =? DVD_MODEL06 then modify (set_patch (Some dvd_patchcode06));; setv dvd_patchcode_size dvd_patch_size
   else if date =? DVD_MODEL08 then modify (set_patch (Some dvd_patchcode08));; setv dvd_patchcode_size dvd_patch_size
   else if date =? DVD_MODEL08Q then modify (set_patch (Some dvd_patchcodeQ08));; setv dvd_patchcode_size dvd_patch_size
   else if Z.land date 0x0000ff00 =? 0x00000900 then ret tt
   else modify (set_patch None);; setv dvd_patchcode_size 0);;
  dvd_patchdrivecb.

(** ** States that only start a command *)

Definition dvd_statemotorstopped : M dvdst unit := DVD_LowWaitCoverClose (Some Fn_statemotorstoppedcb).
Definition dvd_stateerror (result : Z) : M dvdst unit := dvd_storeerror result;; DVD_LowStopMotor (Some Fn_stateerrorcb).
Definition dvd_stategettingerror : M dvdst unit := DVD_LowRequestError (Some Fn_stategettingerrorcb).
Definition dvd_stategotoretry : M dvdst unit := DVD_LowStopMotor (Some Fn_stategotoretrycb).
Definition dvd_statecoverclosed_cmd : M dvdst unit := DVD_LowReadId (a_tmpid0 A) (Some Fn_statecoverclosedcb).

Definition dvd_checkaddons (cb : option lowfn) : M dvdst unit :=
  setcb dvd_finaladdoncb cb;;
  di_ack;;
  DVD_LowReadId (a_tmpid0 A) (Some Fn_checkaddonscb).
Definition dvd_fwpatchmem (cb : option lowfn) : M dvdst unit :=
  setcb dvd_finalpatchcb cb;;
  di_ack;;
  DVD_LowInquiry (a_driveinfo A) (Some Fn_fwpatchcb).
Definition dvd_handlespinup : M dvdst unit := di_ack;; DVD_LowUnlockDrive (Some Fn_handlespinupcb).

Definition DVD_Reset (reset_mode : Z) : M dvdst unit :=
  st <- getv dvd_drivestate;
  setv dvd_drivestate (Z.ldiff st (Z.lor DVD_INTEROPER (Z.lor DVD_CHIPPRESENT DVD_DRIVERESET)));;
  when (negb (reset_mode =? DVD_RESETNONE)) (DVD_LowReset reset_mode);;
  di_wr 0 (Z.lor DVD_DE_MSK (Z.lor DVD_TC_MSK DVD_BRK_MSK));;
  di_ack;;
  setv dvd_resetrequired 0;;
  setv dvd_internalretries 0.

Definition DVD_Pause : M dvdst unit :=
  setv dvd_pauseflag 1;;
  e <- getv dvd_executing; when (e =? NULL) (setv dvd_pausingflag 1).

(** [DVD_CancelAllAsync] does not look at its callback. *)
Definition DVD_CancelAllAsync (cb : Z) : M dvdst Z := DVD_Pause;; ret 1.

Definition DVD_GetCmdBlockStatus (block : Z) : M dvdst Z :=
  if negb (block =? NULL) then st <- b_get b_state block; ret (if st =? 0x0003 then 1 else st) else ret (-1).

Definition DVD_GetDriveStatus : M dvdst Z :=
  f <- getv dvd_fatalerror;
  if negb (f =? 0) then ret (-1) else
  p <- getv dvd_pausingflag;
  if negb (p =? 0) then ret 8 else
  e <- getv dvd_executing;
  if (e =? NULL) || (e =? a_dummycmdblk A) then ret 0 else DVD_GetCmdBlockStatus e.

Definition DVD_SetAutoInvalidation (auto_inv : Z) : M dvdst Z :=
  old <- getv dvd_autoinvalidation; setv dvd_autoinvalidation auto_inv;; ret old.

Definition DVDLowWATypeSet (workaround workaroundseek : Z) : M dvdst unit :=
  setv dvd_workaround workaround;; setv dvd_workaroundseek workaroundseek.
Definition DVDInitWA : M dvdst unit := setv dvd_nextcmdnum 0;; DVDLowWATypeSet 0 0.

(** [LWP_ThreadBroadcast(__dvd_wait_queue)], the body of the eight callbacks of
    the synchronous functions. *)
Definition wake_all : M dvdst unit := modify (set_dsleep []).
End Low.
