(* ===== verification/Dvd.v ===== *)
(** * The optical drive's driver ([libogc/dvd.c])

    What happens when the drive interrupts, when a command times out, and when a
    client issues a command. The functions of the driver call each other in a
    circle: a completed command starts the next one, and one that is complete at
    once (a drive that is already spinning) completes inside the call that starts
    it. The circle is cut at [go]: every function is written over it, and [exec]
    closes it with a bound on the number of turns.

    Of a client's callback only the commands it issues are modelled ([client]);
    they go through the same functions as those issued from outside. *)

From stdpp Require Import base gmap list.
From Stdlib Require Import ZArith Lia.
From S2P Require Import Prelude Chain LwpQueue Devices KState Clock Irq DspDev DvdPatch DvdState.

Open Scope Z_scope.

(** The requests of a client; a block, what is asked, and the callback. *)
Inductive dvdop :=
| OpReadDiskID (id : Z)
| OpReadAbs (buf len offset prio : Z)
| OpReadForBS (buf len offset : Z)
| OpSeekAbs (offset prio : Z)
| OpInquiry (info : Z)
| OpStopStreamAtEnd
| OpSpinUpDrive
| OpControlDrive (cmd : Z)
| OpSetGCMOffset (offset : Z)
| OpAudioBufferConfig (enable size : Z).
Record dvdreq := mk_req { rq_blk : Z; rq_op : dvdop; rq_cb : Z }.

(** The calls that close the circle: through a function pointer, and of
    [__dvd_stateready]. *)
Inductive act := ActLow (f : lowfn) (result : Z) | ActReady.

Definition tx_cmd (c : Z) : bool := (c =? 0x0001) || (c =? 0x0004) || (c =? 0x0005) || (c =? 0x000e).

Section Dvd.
Context `{DvdHw} (A : dvdmap) (con : console).
(** The requests a client's callback makes: callback, result, block. *)
Context (client : Z -> Z -> Z -> list dvdreq).

Section Circle.
Context (go : act -> M dvdst unit).

Definition stateready : M dvdst unit := go ActReady.
Definition call_low (f : option lowfn) (result : Z) : M dvdst unit :=
  match f with Some f => go (ActLow f result) | None => fail BadAccess end.
Definition call_low_opt (f : option lowfn) (result : Z) : M dvdst unit :=
  match f with Some f => go (ActLow f result) | None => ret tt end.

(** ** Issuing a command *)

Definition issuecommand (prio block : Z) : M dvdst Z :=
  b_upd block (set_bstate 0x0002);;
  r <- dvd_pushwaitingqueue A prio block;
  e <- getv dvd_executing;
  when (e =? NULL) stateready;;
  ret r.

Definition DVDAudioBufferConfig (block enable size cb : Z) : M dvdst Z :=
  if block =? NULL then ret 0 else
  b_upd block (fun b => set_bcb cb (set_blen size (set_boffset enable (set_bcmd 0x000d b))));;
  issuecommand 2 block.

Definition DVD_ReadDiskID (block id cb : Z) : M dvdst Z :=
  if (block =? NULL) || (id =? NULL) then ret 0 else
  b_upd block (fun b => set_bcb cb (set_btxdsize 0 (set_boffset 0 (set_blen DVD_DISKIDSIZE (set_bbuf id (set_bcmd 0x0005 b))))));;
  issuecommand 2 block.

Definition DVD_ReadAbsAsyncPrio (block buf len offset cb prio : Z) : M dvdst Z :=
  b_upd block (fun b => set_bcb cb (set_btxdsize 0 (set_boffset offset (set_blen len (set_bbuf buf (set_bcmd 0x0001 b))))));;
  issuecommand prio block.

Definition DVD_ReadAbsAsyncForBS (block buf len offset cb : Z) : M dvdst Z :=
  b_upd block (fun b => set_bcb cb (set_btxdsize 0 (set_boffset offset (set_blen len (set_bbuf buf (set_bcmd 0x0004 b))))));;
  issuecommand 2 block.

Definition DVD_SeekAbsAsyncPrio (block offset cb prio : Z) : M dvdst Z :=
  b_upd block (fun b => set_bcb cb (set_boffset offset (set_bcmd 0x0002 b)));;
  issuecommand prio block.

Definition DVD_InquiryAsync (block info cb : Z) : M dvdst Z :=
  b_upd block (fun b => set_bcb cb (set_btxdsize 0 (set_blen 0x20 (set_bbuf info (set_bcmd 0x000e b)))));;
  issuecommand 2 block.

Definition DVD_StopStreamAtEndAsync (block cb : Z) : M dvdst Z :=
  b_upd block (fun b => set_bcb cb (set_bcmd 0x08 b));;
  issuecommand 1 block.

Definition DVD_SpinUpDriveAsync (block cb : Z) : M dvdst Z :=
  DVD_Reset DVD_RESETNONE;;
  b_upd block (fun b => set_bcb cb (set_bcmd 0x10 b));;
  issuecommand 1 block.

Definition DVD_ControlDriveAsync (block cmd cb : Z) : M dvdst Z :=
  b_upd block (fun b => set_boffset cmd (set_bcb cb (set_bcmd 0x11 b)));;
  issuecommand 1 block.

Definition DVD_SetGCMOffsetAsync (block offset cb : Z) : M dvdst Z :=
  b_upd block (fun b => set_boffset offset (set_bcb cb (set_bcmd 0x12 b)));;
  issuecommand 1 block.

Definition issue_req (q : dvdreq) : M dvdst Z :=
  let b := rq_blk q in let cb := rq_cb q in
  match rq_op q with
  | OpReadDiskID id => DVD_ReadDiskID b id cb
  | OpReadAbs buf len offset prio => DVD_ReadAbsAsyncPrio b buf len offset cb prio
  | OpReadForBS buf len offset => DVD_ReadAbsAsyncForBS b buf len offset cb
  | OpSeekAbs offset prio => DVD_SeekAbsAsyncPrio b offset cb prio
  | OpInquiry info => DVD_InquiryAsync b info cb
  | OpStopStreamAtEnd => DVD_StopStreamAtEndAsync b cb
  | OpSpinUpDrive => DVD_SpinUpDriveAsync b cb
  | OpControlDrive cmd => DVD_ControlDriveAsync b cmd cb
  | OpSetGCMOffset offset => DVD_SetGCMOffsetAsync b offset cb
  | OpAudioBufferConfig enable size => DVDAudioBufferConfig b enable size cb
  end.

Fixpoint issue_all (l : list dvdreq) : M dvdst unit :=
  match l with [] => ret tt | q :: r => issue_req q;; issue_all r end.

(** ** Callbacks of blocks *)

Definition is_synccb (cb : Z) : bool :=
  (cb =? a_mountsynccb A) || (cb =? a_inquirysynccb A) || (cb =? a_readsynccb A) || (cb =? a_streamatendsynccb A)
  || (cb =? a_seeksynccb A) || (cb =? a_spinupdrivesynccb A) || (cb =? a_motorcntrlsynccb A) || (cb =? a_setgcmsynccb A).

(** A callback other than [callback]. *)
Definition call_user (cb result block : Z) : M dvdst unit :=
  emit (EvCall cb result block);;
  if is_synccb cb then wake_all else issue_all (client cb result block).

Definition call_mount (result block : Z) : M dvdst unit :=
  cb <- getv dvd_mountusrcb; when (negb (cb =? NULL)) (call_user cb result block).

(** [memcpy(__dvd_diskID,&__dvd_tmpid0,DVD_DISKIDSIZE)] *)
Definition copy_id : M dvdst unit := modify (fun s => set_diskid (id_dma (d_log s)) s).

Definition callback (result block : Z) : M dvdst unit :=
  if result =? 0x00 then DVD_ReadDiskID block (a_tmpid0 A) (a_callback A);; ret tt
  else if result =? -4 then DVD_SpinUpDriveAsync block (a_callback A);; ret tt
  else
    when (DVD_DISKIDSIZE <=? result) copy_id;;
    call_mount result block.

Definition call_cb (cb result block : Z) : M dvdst unit :=
  if cb =? a_callback A then callback result block else call_user cb result block.

(** [block = __dvd_executing; __dvd_executing = &__dvd_dummycmdblk;
    block->state = st; if(block->cb) block->cb(result,block);], without the third
    assignment where there is none. *)
Definition complete (st : option Z) (result : cmdblk -> Z) : M dvdst Z :=
  block <- getv dvd_executing;
  setv dvd_executing (a_dummycmdblk A);;
  match st with Some st => b_upd block (set_bstate st) | None => ret tt end;;
  cb <- b_get b_cb block;
  r <- b_get result block;
  emit (EvDone block (s32 r));;
  when (negb (cb =? NULL)) (call_cb cb (s32 r) block);;
  ret block.

(** The same, and then the next command. *)
Definition finish (st : option Z) (result : cmdblk -> Z) : M dvdst unit := complete st result;; stateready.

Definition call_cancel (block : Z) : M dvdst unit :=
  cb <- getv dvd_cancelcallback; when (negb (cb =? NULL)) (call_user cb 0 block).

Definition dvd_checkcancel (cancelpt : Z) : M dvdst bool :=
  c <- getv dvd_canceling;
  if negb (c =? 0) then
    setv dvd_resumefromhere cancelpt;;
    setv dvd_canceling 0;;
    block <- complete (Some 10) (fun _ => -3);
    call_cancel block;;
    stateready;;
    ret true
  else ret false.

(** [__dvd_executing->state = st;] *)
Definition exec_state (st : Z) : M dvdst unit := b <- getv dvd_executing; b_upd b (set_bstate st).

Definition dvd_stateerrorcb_tail : M dvdst unit :=
  setv dvd_fatalerror 1;;
  block <- complete None (fun _ => -1);
  c <- getv dvd_canceling;
  when (negb (c =? 0)) (setv dvd_canceling 0;; call_cancel block);;
  stateready.

(** [DVD_Reset(DVD_RESETSOFT); __dvd_stateerrorcb(0);] after storing the error. *)
Definition dvd_statetimeout : M dvdst unit :=
  dvd_storeerror ERR_TIMEOUT;;
  DVD_Reset DVD_RESETSOFT;;
  dvd_stateerrorcb_tail.

(** [if(result==0x0010) { __dvd_executing->state = -1; __dvd_statetimeout(); return; }] *)
Definition on_timeout (result : Z) (k : M dvdst unit) : M dvdst unit :=
  if result =? 0x0010 then exec_state (-1);; dvd_statetimeout else k.
(** The same without the assignment. *)
Definition on_timeout_ (result : Z) (k : M dvdst unit) : M dvdst unit := if result =? 0x0010 then dvd_statetimeout else k.
(** [__dvd_executing->state = -1; __dvd_stateerror(code); return;] *)
Definition fail_command (code : Z) : M dvdst unit := exec_state (-1);; dvd_stateerror code.

Definition DVD_LowSpinUpDrive (cb : option lowfn) : M dvdst unit :=
  setcb dvd_finalsudcb cb;;
  go (ActLow Fn_spinupdrivecb 1).

(** ** States *)

Definition dvd_statebusy (block : Z) : M dvdst unit :=
  modify (set_laststate (Some St_statebusy));;
  cmd <- b_get b_cmd block;
  if DVD_MAXCOMMANDS <? cmd then ret tt else
  if (cmd =? 1) || (cmd =? 4) then
    di_ack;;
    len <- b_get (fun b => u32 (b_len b - b_txdsize b)) block;
    b_upd block (set_bcurrtxsize (if len <? 0x80000 then len else 0x80000));;
    buf <- b_get (fun b => u32 (b_buf b + b_txdsize b)) block;
    cur <- b_get b_currtxsize block;
    off <- b_get (fun b => s64 (b_offset b + b_txdsize b)) block;
    DVD_LowRead buf cur off (Some Fn_statebusycb)
  else if cmd =? 2 then
    di_ack;; off <- b_get b_offset block; DVD_LowSeek off (Some Fn_statebusycb)
  else if (cmd =? 3) || (cmd =? 15) then
    DVD_LowStopMotor (Some Fn_statebusycb)
  else if cmd =? 5 then
    di_ack;;
    b_upd block (set_bcurrtxsize DVD_DISKIDSIZE);;
    buf <- b_get b_buf block; DVD_LowReadId buf (Some Fn_statebusycb)
  else if cmd =? 6 then
    di_ack;;
    auto <- getv dvd_autofinishing; e <- getv dvd_executing;
    if negb (auto =? 0) then
      b_upd e (set_bcurrtxsize 0);;
      DVD_LowRequestAudioStatus 0 (Some Fn_statebusycb)
    else
      b_upd e (set_bcurrtxsize 1);;
      len <- b_get b_len e; off <- b_get b_offset e;
      DVD_LowAudioStream 0 len off (Some Fn_statebusycb)
  else if cmd =? 7 then di_ack;; DVD_LowAudioStream 0x00010000 0 0 (Some Fn_statebusycb)
  else if cmd =? 8 then
    di_ack;; setv dvd_autofinishing 1;; DVD_LowAudioStream 0 0 0 (Some Fn_statebusycb)
  else if cmd =? 9 then di_ack;; DVD_LowRequestAudioStatus 0 (Some Fn_statebusycb)
  else if cmd =? 10 then di_ack;; DVD_LowRequestAudioStatus 0x00010000 (Some Fn_statebusycb)
  else if cmd =? 11 then di_ack;; DVD_LowRequestAudioStatus 0x00020000 (Some Fn_statebusycb)
  else if cmd =? 12 then di_ack;; DVD_LowRequestAudioStatus 0x00030000 (Some Fn_statebusycb)
  else if cmd =? 13 then
    di_ack;;
    e <- getv dvd_executing; off <- b_get b_offset e; len <- b_get b_len e;
    DVD_LowAudioBufferConfig off len (Some Fn_statebusycb)
  else if cmd =? 14 then
    di_ack;;
    b_upd block (set_bcurrtxsize 0x20);;
    buf <- b_get b_buf block; DVD_LowInquiry buf (Some Fn_statebusycb)
  else if cmd =? 16 then
    setv dvd_lasterror 0;;
    setv dvd_extensionsenabled C_TRUE;;
    DVD_LowSpinUpDrive (Some Fn_statebusycb)
  else if cmd =? 17 then di_ack;; off <- b_get b_offset block; DVD_LowControlMotor off (Some Fn_statebusycb)
  else if cmd =? 18 then di_ack;; off <- b_get b_offset block; DVD_LowSetGCMOffset off (Some Fn_statebusycb)
  else ret tt.

Definition busy_executing : M dvdst unit := b <- getv dvd_executing; dvd_statebusy b.

Definition dvd_statecoverclosed : M dvdst unit :=
  c <- getv dvd_currcmd;
  if (c =? 0x0004) || (c =? 0x0005) || (c =? 0x000d) || (c =? 0x000f) || (c =? 0x0010) then
    dvd_clearwaitingqueue A;;
    emit EvDrop;;
    finish None (fun _ => -4)
  else
    setv dvd_extensionsenabled C_TRUE;;
    DVD_LowSpinUpDrive (Some Fn_statecoverclosed_spinupcb).

(** [__dvd_laststate(__dvd_executing);] *)
Definition call_laststate : M dvdst unit :=
  st <- gets d_last;
  match st with
  | Some St_statebusy => busy_executing
  | Some St_statecoverclosed_cmd => dvd_statecoverclosed_cmd A
  | Some St_statecheckid2 => ret tt
  | None => fail BadAccess
  end.

(** The resumption of a cancelled state in [__dvd_stateready]. *)
Definition resume (from : Z) : M dvdst unit :=
  if from =? 1 then exec_state 6;; dvd_statemotorstopped
  else if from =? 2 then exec_state 11;; dvd_statemotorstopped
  else if from =? 3 then exec_state 4;; dvd_statemotorstopped
  else if from =? 4 then exec_state 5;; dvd_statemotorstopped
  else if from =? 5 then exec_state (-1);; e <- getv dvd_cancellasterror; dvd_stateerror e
  else if from =? 6 then exec_state 3;; dvd_statecoverclosed
  else if from =? 7 then exec_state 7;; dvd_statemotorstopped
  else ret tt.

Definition dvd_stateready : M dvdst unit :=
  w <- dvd_checkwaitingqueue A;
  if negb w then setv dvd_executing NULL else
  block <- dvd_popwaitingqueue A;
  setv dvd_executing block;;
  emit (EvStart block);;
  fatal <- getv dvd_fatalerror;
  if negb (fatal =? 0) then
    exec_state (-1);;
    finish None (fun _ => -1)
  else
    e <- getv dvd_executing; cmd <- b_get b_cmd e; setv dvd_currcmd cmd;;
    from <- getv dvd_resumefromhere;
    if negb (from =? 0) then
      when (from <=? 7) (resume from);;
      setv dvd_resumefromhere 0
    else
      exec_state 1;;
      busy_executing.

(** [memcmp(&__dvd_dummycmdblk,__dvd_executing,sizeof(dvdcmdblk))] is not zero. *)
Definition differs_from_dummy : M dvdst bool :=
  e <- getv dvd_executing;
  x <- b_get id (a_dummycmdblk A); y <- b_get id e;
  xn <- on_mem (load (node_next (a_dummycmdblk A))); xp <- on_mem (load (node_prev (a_dummycmdblk A)));
  yn <- on_mem (load (node_next e)); yp <- on_mem (load (node_prev e));
  ret (negb (bool_decide (x = y) && (xn =? yn) && (xp =? yp))).

Definition same_id : M dvdst bool := gets (fun s => bool_decide (d_id s = id_dma (d_log s))).

Definition dvd_statecheckid : M dvdst unit :=
  c <- getv dvd_currcmd;
  if c =? 0x0003 then
    d <- differs_from_dummy;
    if d then DVD_LowStopMotor (Some Fn_statecheckid1cb) else
    copy_id;;
    exec_state 1;;
    modify (set_laststate (Some St_statecheckid2))
  else if c =? 0x0010 then finish (Some 0) (fun _ => 0)
  else
    same <- same_id;
    if negb (c =? 0x0005) && negb same then
      block <- complete (Some (-1)) (fun _ => -1);
      call_mount DVD_DISKIDSIZE block;;
      stateready
    else busy_executing.

(** ** What the pointers point to *)

Definition dvd_stateretrycb (result : Z) : M dvdst unit :=
  on_timeout result (
  when (negb (Z.land result 0x0002 =? 0)) (dvd_stateerror ERR_UNKNOWN);;
  when (result =? 0x0001) busy_executing).

Definition dvd_unrecoverederrorretrycb (result : Z) : M dvdst unit :=
  on_timeout result (
  exec_state (-1);;
  if negb (Z.land result 0x0002 =? 0) then dvd_stateerror ERR_UNKNOWN
  else val <- di_rd 8; dvd_stateerror val).

Definition dvd_unrecoverederrorcb (result : Z) : M dvdst unit :=
  on_timeout result (
  if negb (Z.land result 0x0001 =? 0) then dvd_stategotoretry
  else when (negb (result =? 0x0002)) (DVD_LowRequestError (Some Fn_unrecoverederrorretrycb))).

Definition dvd_stateerrorcb (result : Z) : M dvdst unit := on_timeout result dvd_stateerrorcb_tail.

(** The point of cancellation of an error the driver waits for the user about. *)
Definition cancel_point (ret val : Z) : Z :=
  if (ret =? 2) || (ret =? 3) then 0
  else if DVD_STATUS val =? DVD_STATUS_COVER_OPENED then 4
  else if DVD_STATUS val =? DVD_STATUS_DISK_CHANGE then 6
  else if DVD_STATUS val =? DVD_STATUS_NO_DISK then 3
  else 5.

(** What follows the classification [ret] of the error [val]. *)
Definition handle_error (ret_ val : Z) : M dvdst unit :=
  if ret_ =? 2 then
    if dvd_may_retry val then
      e <- getv dvd_executing; cmd <- b_get b_cmd e;
      if cmd =? 0x05 then
        setv dvd_lasterror 0;;
        setv dvd_extensionsenabled C_FALSE;;
        DVD_LowSpinUpDrive (Some Fn_stateretrycb)
      else busy_executing
    else dvd_storeerror val;; dvd_stategotoretry
  else if ret_ =? 3 then
    if DVD_ERROR val =? DVD_ERROR_UNRECOVERABLE_READ then
      e <- getv dvd_executing; off <- b_get b_offset e; DVD_LowSeek off (Some Fn_unrecoverederrorcb)
    else call_laststate
  else if DVD_STATUS val =? DVD_STATUS_COVER_OPENED then exec_state 5;; dvd_statemotorstopped
  else if DVD_STATUS val =? DVD_STATUS_DISK_CHANGE then exec_state 3;; dvd_statecoverclosed
  else if DVD_STATUS val =? DVD_STATUS_NO_DISK then exec_state 4;; dvd_statemotorstopped
  else fail_command ERR_UNKNOWN.

Definition dvd_stategettingerrorcb (result : Z) : M dvdst unit :=
  on_timeout result (
  if negb (Z.land result 0x0002 =? 0) then fail_command ERR_UNKNOWN else
  when (result =? 0x0001) (
    val <- di_rd 8;
    ret_ <- dvd_categorizeerror val;
    if ret_ =? 1 then fail_command val else
    c <- dvd_checkcancel (cancel_point ret_ val);
    if c then ret tt else handle_error ret_ val)).

(** The end of a command that was transferred or done, in [__dvd_statebusycb]. *)
Definition busy_done : M dvdst unit :=
  c <- getv dvd_currcmd;
  if tx_cmd c then
    e <- getv dvd_executing; more <- b_get (fun b => negb (b_txdsize b =? b_len b)) e;
    if more then busy_executing
    else finish (Some 0) b_txdsize
  else if (c =? 0x0009) || (c =? 0x000a) || (c =? 0x000b) || (c =? 0x000c) then
    val <- di_rd 8;
    val <- ret (if (c =? 0x000a) || (c =? 0x000b) then u32 (Z.shiftl val 2) else val);
    finish (Some 0) (fun _ => val)
  else
    e <- getv dvd_executing; cur <- b_get b_currtxsize e;
    if (c =? 0x0006) && (cur =? 0) then
      val <- di_rd 8;
      if negb (Z.land val 0x0001 =? 0) then finish (Some 9) (fun _ => -2) else
      setv dvd_autofinishing 0;;
      e <- getv dvd_executing; b_upd e (set_bcurrtxsize 1);;
      len <- b_get b_len e; off <- b_get b_offset e;
      DVD_LowAudioStream 0 len off (Some Fn_statebusycb)
    else
      st <- getv dvd_drivestate;
      if (c =? 0x0010) && negb (Z.land st DVD_CHIPPRESENT =? 0) then finish (Some 0) (fun _ => DVD_DISKIDSIZE)
      else finish (Some 0) (fun _ => 0).

(** [__dvd_statebusycb] from the counting of what was transferred on. *)
Definition busy_result (result : Z) : M dvdst unit :=
  c <- getv dvd_currcmd;
  when (tx_cmd c) (
    e <- getv dvd_executing; left_ <- di_rd 6;
    b_upd e (fun b => set_btxdsize (u32 (b_txdsize b + (b_currtxsize b - left_))) b));;
  if negb (Z.land result 0x0008 =? 0) then
    setv dvd_canceling 0;;
    block <- complete (Some 10) (fun _ => -3);
    call_cancel block;;
    stateready
  else if negb (Z.land result 0x0001 =? 0) then
    setv dvd_internalretries 0;;
    x <- dvd_checkcancel 0;
    if x then ret tt else busy_done
  else if result =? 0x0002 then
    if c =? 0x000e then fail_command ERR_UNKNOWN else
    e <- getv dvd_executing; all_ <- b_get (fun b => b_txdsize b =? b_len b) e;
    if tx_cmd c && all_ then
      x <- dvd_checkcancel 0;
      if x then ret tt else finish (Some 0) b_txdsize
    else dvd_stategettingerror
  else dvd_stategettingerror.

Definition dvd_statebusycb (result : Z) : M dvdst unit :=
  on_timeout result (
  c <- getv dvd_currcmd;
  let stop := (c =? 0x0003) || (c =? 0x000f) in
  if stop && negb (Z.land result 0x0002 =? 0) then fail_command ERR_UNKNOWN
  else if stop && (result =? 0x0001) then
    setv dvd_internalretries 0;;
    when (c =? 0x000f) (setv dvd_resetrequired 1);;
    x <- dvd_checkcancel 7;
    if x then ret tt else
    exec_state 7;;
    dvd_statemotorstopped
  else busy_result result).

Definition dvd_statemotorstoppedcb : M dvdst unit :=
  di_wr 1 0;;
  exec_state 3;;
  dvd_statecoverclosed.

Definition dvd_statecoverclosedcb (result : Z) : M dvdst unit :=
  on_timeout result (
  if Z.land result 0x0006 =? 0 then
    setv dvd_internalretries 0;;
    dvd_statecheckid
  else when (result =? 0x0002) dvd_stategettingerror).

Definition dvd_statecheckid1cb : M dvdst unit :=
  setv dvd_ready 1;;
  same <- same_id; when (negb same) copy_id;;
  wake_all.

Definition dvd_stategotoretrycb (result : Z) : M dvdst unit :=
  on_timeout result (
  if negb (Z.land result 0x0002 =? 0) then fail_command ERR_UNKNOWN else
  when (result =? 0x0001) (
    setv dvd_internalretries 0;;
    c <- getv dvd_currcmd;
    if (c =? 0x0004) || (c =? 0x0005) || (c =? 0x000d) || (c =? 0x000f) then
      setv dvd_resetrequired 1;;
      x <- dvd_checkcancel 2;
      if x then ret tt else
      exec_state 11;;
      dvd_statemotorstopped
    else ret tt)).

(** [pn_data[0] = val] through [__dvd_usrdata]. *)
Definition usr_store (val : Z) : M dvdst unit :=
  p <- gets d_usr;
  modify (set_usrdata UsrNull);;
  match p with
  | UsrNull => ret tt
  | UsrAddr a => on_mem (store a val)
  | UsrLocOffset => old <- getv dvd_loc_offset; setv dvd_loc_offset (s64 (Z.lor (Z.shiftl val 32) (Z.land old 0xffffffff)))
  end.

Definition dvd_getstatuscb (result : Z) : M dvdst unit :=
  on_timeout_ result (
  if result =? 0x0001 then
    val <- di_rd 8;
    usr_store val;;
    cb <- getcb dvd_finalstatuscb;
    setcb dvd_finalstatuscb None;;
    call_low_opt cb result
  else dvd_stategettingerror).

Definition dvd_cntrldrivecb (result : Z) : M dvdst unit :=
  on_timeout_ result (
  if result =? 0x0001 then
    mode <- getv dvd_motorcntrl; f <- getcb dvd_finalsudcb; DVD_LowSpinMotor mode f
  else dvd_stategettingerror).

(** [offset = *pn_data], a 64-bit integer. *)
Definition usr_load : M dvdst Z :=
  p <- gets d_usr;
  modify (set_usrdata UsrNull);;
  match p with
  | UsrNull => ret 0
  | UsrAddr a => hi <- on_mem (load a); lo <- on_mem (load (a + 4)); ret (s64 (Z.lor (Z.shiftl hi 32) lo))
  | UsrLocOffset => getv dvd_loc_offset
  end.

Definition dvd_setgcmoffsetcb (result : Z) : M dvdst unit :=
  on_timeout_ result (
  if result =? 0x0001 then
    offset <- usr_load; f <- getcb dvd_finaloffsetcb; DVD_LowSetOffset offset f
  else dvd_stategettingerror).

Definition dvd_handlespinupcb (result : Z) : M dvdst unit :=
  on_timeout_ result (
  step <- getv dvd_spinup_step;
  if (result =? 0x0001) && (step =? 0x0000) then
    setv dvd_spinup_step 1;;
    di_ack;;
    e <- getv dvd_extensionsenabled; DVD_LowEnableExtensions e (Some Fn_handlespinupcb)
  else if (result =? 0x0001) && (step =? 0x0001) then
    setv dvd_spinup_step 2;;
    di_ack;;
    DVD_LowSpinMotor (Z.lor DVD_SPINMOTOR_ACCEPT DVD_SPINMOTOR_UP) (Some Fn_handlespinupcb)
  else if (result =? 0x0001) && (step =? 0x0002) then
    setv dvd_spinup_step 0;;
    last <- getv dvd_lasterror; f <- getcb dvd_finalsudcb;
    if last =? 0 then
      di_ack;;
      DVD_LowSetStatus (Z.lor (SHIFTL (DVD_STATUS_DISK_ID_NOT_READ + 1) 16 8) 0x00000300) f
    else call_low f result
  else
    setv dvd_spinup_step 0;;
    dvd_stategettingerror).

Definition dvd_fwpatchcb (result : Z) : M dvdst unit :=
  on_timeout_ result (
  step <- getv dvd_fwpatch_step;
  if (result =? 0x0001) && (step =? 0x0000) then
    setv dvd_fwpatch_step 1;;
    di_ack;;
    DVD_LowUnlockDrive (Some Fn_fwpatchcb)
  else if (result =? 0x0001) && (step =? 0x0001) then
    setv dvd_fwpatch_step 0;;
    f <- getcb dvd_finalpatchcb; DVD_LowPatchDriveCode f
  else
    setv dvd_fwpatch_step 0;;
    dvd_stategettingerror).

Definition dvd_checkaddonscb (result : Z) : M dvdst unit :=
  setv dvd_drivechecked 1;;
  left_ <- di_rd 6;
  let txdsize := u32 (DVD_DISKIDSIZE - left_) in
  let fin :=
    cb <- getcb dvd_finaladdoncb;
    setcb dvd_finaladdoncb None;;
    call_low_opt cb 0x01 in
  if negb (Z.land result 0x0001 =? 0) then
    if negb (txdsize =? DVD_DISKIDSIZE) then
      di_ack;;
      DVD_LowReadId (a_tmpid0 A) (Some Fn_checkaddonscb)
    else
      st <- getv dvd_drivestate; setv dvd_drivestate (Z.lor st DVD_CHIPPRESENT);;
      fin
  else fin.

Definition dvd_spinupdrivecb (result : Z) : M dvdst unit :=
  on_timeout_ result (
  if result =? 0x0001 then
    checked <- getv dvd_drivechecked;
    if checked =? 0 then dvd_checkaddons A (Some Fn_spinupdrivecb) else
    st <- getv dvd_drivestate;
    if Z.land st DVD_CHIPPRESENT =? 0 then
      if Z.land st DVD_INTEROPER =? 0 then
        when (Z.land st DVD_DRIVERESET =? 0) (DVD_Reset DVD_RESETHARD);;
        dvd_fwpatchmem A (Some Fn_spinupdrivecb)
      else dvd_handlespinup
    else
      f <- getcb dvd_finalsudcb; call_low f result
  else dvd_stategettingerror).

Definition dvd_statecoverclosed_spinupcb : M dvdst unit :=
  modify (set_laststate (Some St_statecoverclosed_cmd));;
  dvd_statecoverclosed_cmd A.

Definition low (f : lowfn) (result : Z) : M dvdst unit :=
  match f with
  | Fn_stateretrycb => dvd_stateretrycb result
  | Fn_unrecoverederrorretrycb => dvd_unrecoverederrorretrycb result
  | Fn_unrecoverederrorcb => dvd_unrecoverederrorcb result
  | Fn_stateerrorcb => dvd_stateerrorcb result
  | Fn_stategettingerrorcb => dvd_stategettingerrorcb result
  | Fn_statebusycb => dvd_statebusycb result
  | Fn_statemotorstoppedcb => dvd_statemotorstoppedcb
  | Fn_statecoverclosedcb => dvd_statecoverclosedcb result
  | Fn_statecheckid1cb => dvd_statecheckid1cb
  | Fn_stategotoretrycb => dvd_stategotoretrycb result
  | Fn_getstatuscb => dvd_getstatuscb result
  | Fn_cntrldrivecb => dvd_cntrldrivecb result
  | Fn_setgcmoffsetcb => dvd_setgcmoffsetcb result
  | Fn_handlespinupcb => dvd_handlespinupcb result
  | Fn_fwpatchcb => dvd_fwpatchcb result
  | Fn_checkaddonscb => dvd_checkaddonscb result
  | Fn_spinupdrivecb => dvd_spinupdrivecb result
  | Fn_statecoverclosed_spinupcb => dvd_statecoverclosed_spinupcb
  | Fn_patchdrivecb => dvd_patchdrivecb
  | Fn_unlockdrivecb => dvd_unlockdrivecb
  end.

Definition body (a : act) : M dvdst unit := match a with ActLow f r => low f r | ActReady => dvd_stateready end.
End Circle.

Fixpoint exec (fuel : nat) : act -> M dvdst unit :=
  match fuel with
  | O => fun _ => fail OutOfFuel
  | S k => body (exec k)
  end.

(** Three turns for every command that can be waiting, and a few. *)
Definition turns (s : dvdst) : nat := 3 * size (d_blk s) + 8.
Definition with_turns {X} (c : (act -> M dvdst unit) -> M dvdst X) : M dvdst X := fun s => c (exec (turns s)) s.

(** ** The interrupt and the alarm *)

(** A command of [__dvd_cmdlist]; nothing puts one there. *)
Definition ProcessNextCmd : M dvdst bool :=
  n <- getv dvd_nextcmdnum;
  l <- gets (fun s => d_list s n);
  if l_cmd l =? 0x0001 then
    setv dvd_nextcmdnum (u32 (n + 1));;
    Read (l_buf l) (l_len l) (l_offset l) (l_cb l);;
    ret true
  else if l_cmd l =? 0x0002 then
    setv dvd_nextcmdnum (u32 (n + 1));;
    DVD_LowSeek (l_offset l) (l_cb l);;
    ret true
  else ret false.

(** The bits of the status register that are set and enabled. *)
Definition irq_bits (status : Z) : Z :=
  let irm := Z.land status (Z.lor DVD_DE_MSK (Z.lor DVD_TC_MSK DVD_BRK_MSK)) in
  Z.land (Z.land status (Z.lor DVD_DE_INT (Z.lor DVD_TC_INT DVD_BRK_INT))) (Z.shiftl irm 1).
Definition irq_mask (status : Z) : Z := Z.land status (Z.lor DVD_DE_MSK (Z.lor DVD_TC_MSK DVD_BRK_MSK)).
Definition bit_if (b : bool) (x : Z) : Z := if b then x else 0.
Definition irq_result (ir : Z) : Z :=
  Z.lor (bit_if (negb (Z.land ir DVD_BRK_INT =? 0)) 0x0008)
    (Z.lor (bit_if (negb (Z.land ir DVD_TC_INT =? 0)) 0x0001) (bit_if (negb (Z.land ir DVD_DE_INT =? 0)) 0x0002)).
(** The same of the cover register. *)
Definition cover_bits (status : Z) : Z := Z.land (Z.land status DVD_CVR_INT) (Z.shiftl (Z.land status DVD_CVR_MSK) 1).

(** The part of the handler about the cover: bits to add to the result. *)
Definition cover_part (go : act -> M dvdst unit) : M dvdst Z :=
  now <- gets (fun s => s64 (sys_time (d_log s)));
  last <- getv dvd_lastresetend;
  reset <- getv dvd_resetoccured;
  if negb (reset =? 0) && (200 <? diff_msec con last (u64 now)) then
    status <- di_rd 1;
    when (negb (Z.land (cover_bits status) 0x0004 =? 0)) (
      cb <- getcb dvd_resetcovercb;
      setcb dvd_resetcovercb None;;
      call_low_opt go cb 0x0004);;
    di_ack;;
    ret 0
  else
    w <- getv dvd_waitcoverclose;
    if negb (w =? 0) then
      status <- di_rd 1;
      let ir := cover_bits status in
      di_wr 1 (Z.lor ir (Z.land status DVD_CVR_MSK));;
      setv dvd_waitcoverclose 0;;
      ret (bit_if (negb (Z.land ir DVD_CVR_INT =? 0)) 0x0004)
    else di_wr 1 0;; ret 0.

Definition DVDInterruptHandler (go : act -> M dvdst unit) : M dvdst unit :=
  modify (set_alarm None);;
  read <- getv dvd_lastcmdwasread; stop <- getv dvd_stopnextint;
  when (negb (read =? 0)) (modify (fun s => set_cprev (d_curr s) s));;
  let irmm := bit_if (negb (read =? 0) && negb (stop =? 0)) 0x0008 in
  setv dvd_lastcmdwasread 0;;
  setv dvd_stopnextint 0;;
  status <- di_rd 0;
  let irmm := Z.lor irmm (irq_result (irq_bits status)) in
  when (negb (irmm =? 0)) (setv dvd_resetoccured 0);;
  di_wr 0 (Z.lor (irq_bits status) (irq_mask status));;
  cover <- cover_part go;
  brk <- getv dvd_breaking;
  let irmm := Z.lor irmm cover in
  let irmm := if negb (Z.land irmm 0x0008 =? 0) && (brk =? 0) then Z.ldiff irmm 0x0008 else irmm in
  next <- (if negb (Z.land irmm 0x0001 =? 0) then ProcessNextCmd
           else
             modify (fun s => set_cmdlist (fupd (d_list s) 0 (mk_cmdl (-1) (l_buf (d_list s 0)) (l_len (d_list s 0))
               (l_offset (d_list s 0)) (l_cb (d_list s 0)))) s);;
             setv dvd_nextcmdnum 0;;
             ret false);
  if (next : bool) then ret tt else
  cb <- getcb dvd_callback;
  setcb dvd_callback None;;
  call_low_opt go cb irmm;;
  setv dvd_breaking 0.

Definition dvd_timeouthandler (go : act -> M dvdst unit) : M dvdst unit :=
  modify (fun s => set_dirq (mk_irqst (KIrqDisable con (IRQMASK IRQ_PI_DI) (ir_regs (d_irq s))) (ir_fn (d_irq s)) (ir_user (d_irq s))) s);;
  cb <- getcb dvd_callback;
  call_low_opt go cb 0x10.

(** ** Initialisation and mounting *)

(** [SYS_CreateAlarm] and [LWP_InitQueue] make the alarm and an empty queue. *)
Definition DVD_Init : M dvdst unit :=
  i <- getv dvd_initflag;
  if i =? 0 then
    setv dvd_initflag 1;;
    dvd_clearwaitingqueue A;;
    DVDInitWA;;
    modify (fun s => set_dirq (snd (KIrqSet (d_irq s) IRQ_PI_DI (a_interrupt A) NULL)) s);;
    modify (fun s => set_dirq (mk_irqst (KIrqEnable con (IRQMASK IRQ_PI_DI) (ir_regs (d_irq s))) (ir_fn (d_irq s)) (ir_user (d_irq s))) s);;
    modify (set_alarm None);;
    modify (set_dsleep [])
  else ret tt.

Definition DVD_MountAsync (go : act -> M dvdst unit) (block cb : Z) : M dvdst Z :=
  setv dvd_mountusrcb cb;;
  DVD_Reset DVD_RESETHARD;;
  DVD_SpinUpDriveAsync go block (a_callback A).

(** ** Synchronous calls

    Each issues its command with a callback that wakes [__dvd_wait_queue], and
    then waits. [Sync] is what it returns when the command is over, for each of
    the states that end the loop, and [dvd_poll] one round of the loop: an answer,
    or the thread sleeps. *)

Record sync := mk_sync { on_end : cmdblk -> Z; on_fatal : cmdblk -> Z; on_cancel : cmdblk -> Z }.
Definition sync_tx : sync := mk_sync (fun b => s32 (b_txdsize b)) (fun _ => -1) (fun _ => -3).
Definition sync_seek : sync := mk_sync (fun _ => 0) (fun _ => -1) (fun _ => -3).
(** [DVD_StopStreamAtEnd], [DVD_SpinUpDrive], [DVD_ControlDrive] and
    [DVD_SetGCMOffset]. *)
Definition sync_ctl : sync := mk_sync (fun _ => -1) (fun _ => -1) (fun b => s32 (b_txdsize b)).

Definition dvd_poll (k : sync) (thread block : Z) : M dvdst (option Z) :=
  b <- b_get id block;
  if b_state b =? 0 then ret (Some (on_end k b))
  else if b_state b =? -1 then ret (Some (on_fatal k b))
  else if b_state b =? 10 then ret (Some (on_cancel k b))
  else modify (fun s => set_dsleep (thread :: d_sleep s) s);; ret None.

(** The range of [DVD_ReadPrio] and [DVD_SeekPrio]; [None] is a call that goes on
    with [dvd_poll]. *)
Definition DVD_ReadPrio (go : act -> M dvdst unit) (block buf len offset prio : Z) : M dvdst (option Z) :=
  if (0 <=? offset) && (offset <? 8511160320) then
    r <- DVD_ReadAbsAsyncPrio go block buf len offset (a_readsynccb A) prio;
    ret (if r =? 0 then Some (-1) else None)
  else ret (Some (-1)).
Definition DVD_SeekPrio (go : act -> M dvdst unit) (block offset prio : Z) : M dvdst (option Z) :=
  if (0 <? offset) && (offset <? 8511160320) then
    r <- DVD_SeekAbsAsyncPrio go block offset (a_seeksynccb A) prio;
    ret (if r =? 0 then Some (-1) else None)
  else ret (Some (-1)).
Definition sync_start (c : M dvdst Z) : M dvdst (option Z) := r <- c; ret (if r =? 0 then Some (-1) else None).
Definition DVD_Inquiry go (block info : Z) := sync_start (DVD_InquiryAsync go block info (a_inquirysynccb A)).
Definition DVD_StopStreamAtEnd go (block : Z) := sync_start (DVD_StopStreamAtEndAsync go block (a_streamatendsynccb A)).
Definition DVD_SpinUpDrive go (block : Z) := sync_start (DVD_SpinUpDriveAsync go block (a_spinupdrivesynccb A)).
Definition DVD_ControlDrive go (block cmd : Z) : M dvdst (option Z) :=
  DVD_ControlDriveAsync go block cmd (a_motorcntrlsynccb A);; ret None.
Definition DVD_SetGCMOffset go (block offset : Z) : M dvdst (option Z) :=
  DVD_SetGCMOffsetAsync go block offset (a_setgcmsynccb A);; ret None.
Definition DVD_Mount go : M dvdst (option Z) := sync_start (DVD_MountAsync go (a_block15 A) (a_mountsynccb A)).
(** The end of [DVD_Mount]: the state of the block is over when [dvd_poll] with
    [sync_seek] answers. *)
Definition DVD_Mount_end : M dvdst unit := setv dvd_mountusrcb NULL.

(** ** The disc interface *)

Definition dvdio_Startup (go : act -> M dvdst unit) (mfpvr : Z) : M dvdst (option Z) :=
  DVD_Init;;
  if mfpvr =? 0x00083214 then DVD_Mount go
  else
    DVD_Reset DVD_RESETHARD;;
    DVD_ReadDiskID go (a_block15 A) (a_tmpid0 A) (a_callback A);;
    ret (Some 1).

(** [status] is at [a], on the stack, and zero. *)
Definition dvdio_IsInserted (a : Z) : M dvdst bool :=
  on_mem (store a 0);;
  DVD_LowGetStatus (UsrAddr a) None;;
  status <- on_mem (load a);
  ret (DVD_STATUS status =? DVD_STATUS_READY).

(** [blk] is on the stack. *)
Definition dvdio_ReadSectors (go : act -> M dvdst unit) (blk sector numSectors buffer : Z) : M dvdst (option Z) :=
  DVD_ReadPrio go blk buffer (u32 (Z.shiftl numSectors 11)) (u32 (Z.shiftl sector 11)) 2.
(** What it returns for the answer of [DVD_ReadPrio]. *)
Definition dvdio_ReadSectors_end (r : Z) : bool := negb (r <=? 0).
Definition dvdio_WriteSectors (sector numSectors buffer : Z) : bool := true.
Definition dvdio_ClearStatus : bool := true.
Definition dvdio_Shutdown : bool := true.

Definition DVD_GetCurrentDiskID : Z := 0x80000000.
Definition DVD_GetDriveInfo : Z := a_driveinfo A.
End Dvd.
