(* ===== verification/DvdSpec.v ===== *)
(** * What the optical drive's driver promises

    The driver serves commands one at a time. [sched] is the abstract scheduler:
    the command that is running and four lists of commands that wait, of which
    the first that is not empty is served next, oldest first. The history of the
    driver ([d_out]) is a run of this machine; what that says about commands
    follows from the machine alone.

    [dvd_event] is what can happen to the driver from outside, and [dvd_run] a
    sequence of such events. *)

From stdpp Require Import base gmap list.
From Stdlib Require Import ZArith Lia.
From S2P Require Import Prelude Chain LwpQueue Devices KState Clock Irq DspDev DvdPatch DvdState Dvd.

Open Scope Z_scope.

(** ** The scheduler *)

Record sched := mk_sched { sc_exec : option Z; sc_q : list (list Z) }.
Definition sched0 : sched := mk_sched None [[]; []; []; []].

(** The head of the first list that has one, and the lists without it. *)
Fixpoint sc_pop (qs : list (list Z)) : option (Z * list (list Z)) :=
  match qs with
  | [] => None
  | (b :: l) :: qs => Some (b, l :: qs)
  | [] :: qs => '(b, qs') ← sc_pop qs; Some (b, [] :: qs')
  end.

Definition waiting (g : sched) : list Z := concat (sc_q g).
Definition pending (g : sched) (b : Z) : Prop := sc_exec g = Some b \/ b ∈ waiting g.
#[export] Instance pending_dec g b : Decision (pending g b).
Proof. solve_decision. Defined.

Definition sched_step (g : sched) (e : dvdev) : option sched :=
  match e with
  | EvIssue prio b =>
      if decide (0 <= prio < 4 /\ ~ pending g b) then Some (mk_sched (sc_exec g) (alter (.++ [b]) (Z.to_nat prio) (sc_q g))) else None
  | EvStart b =>
      '(b', qs) ← sc_pop (sc_q g);
      if decide (sc_exec g = None /\ b' = b) then Some (mk_sched (Some b) qs) else None
  | EvDone b _ => if decide (sc_exec g = Some b) then Some (mk_sched None (sc_q g)) else None
  | EvCall _ _ _ => Some g
  | EvDrop => Some (mk_sched (sc_exec g) (sc_q sched0))
  end.
Fixpoint sched_run (g : sched) (l : list dvdev) : option sched :=
  match l with [] => Some g | e :: l => g' ← sched_step g e; sched_run g' l end.

(** How often a block was accepted and how often it was completed. *)
Definition is_issue (b : Z) (e : dvdev) : bool := match e with EvIssue _ b' => b' =? b | _ => false end.
Definition is_done (b : Z) (e : dvdev) : bool := match e with EvDone b' _ => b' =? b | _ => false end.
Definition count (p : dvdev -> bool) (l : list dvdev) : nat := length (List.filter p l).

Lemma sched_run_app g l l' : sched_run g (l ++ l') = g' ← sched_run g l; sched_run g' l'.
Proof. revert g. induction l as [|e l IH]; intros g; [done|]. cbn. destruct (sched_step g e); cbn; auto. Qed.

Lemma sched_run_snoc g l e g' :
  sched_run g l = Some g' -> sched_run g (l ++ [e]) = sched_step g' e.
Proof. intros E. rewrite sched_run_app, E. cbn. by destruct (sched_step g' e). Qed.

Lemma sc_pop_spec qs b qs' :
  sc_pop qs = Some (b, qs') ->
  exists n l, qs !! n = Some (b :: l) /\ qs' = <[n := l]> qs /\ forall m, (m < n)%nat -> qs !! m = Some [].
Proof.
  revert qs'. induction qs as [|[|x l] qs IH]; intros qs' E; [done| |].
  - cbn in E. destruct (sc_pop qs) as [[y qs1]|]; [|done]. injection E as -> <-.
    destruct (IH qs1 eq_refl) as (n & l & Hn & -> & Hm). exists (S n), l. split_and!; [done..|].
    intros [|m] Hlt; [done|]. cbn. apply Hm. lia.
  - injection E as -> <-. exists 0%nat, l. split_and!; [done..|]. intros m Hm. lia.
Qed.

Lemma sc_pop_none qs : sc_pop qs = None -> concat qs = [].
Proof. induction qs as [|[|x l] qs IH]; [done| |done]. cbn. destruct (sc_pop qs) as [[]|]; [done|]. auto. Qed.

Lemma concat_update {B} (qs : list (list B)) n l l' :
  qs !! n = Some l -> exists l1 l2, concat qs = l1 ++ l ++ l2 /\ concat (<[n := l']> qs) = l1 ++ l' ++ l2.
Proof.
  revert n. induction qs as [|x qs IH]; intros [|n] E; [done..| |].
  - injection E as ->. by exists [], (concat qs).
  - destruct (IH n E) as (l1 & l2 & E1 & E2). exists (x ++ l1), l2. change (<[S n:=l']> (x :: qs)) with (x :: <[n:=l']> qs). cbn [concat]. by rewrite E1, E2, <- !app_assoc.
Qed.

Lemma concat_pop (qs : list (list Z)) b qs' : sc_pop qs = Some (b, qs') -> concat qs ≡ₚ b :: concat qs' /\ length qs' = length qs.
Proof.
  intros (n & l & Hn & -> & _)%sc_pop_spec. split; [|by rewrite length_insert].
  destruct (concat_update qs n (b :: l) l Hn) as (l1 & l2 & E1 & E2). rewrite E1, E2. solve_Permutation.
Qed.

Lemma alter_at {B} (f : B -> B) (n : nat) (qs : list B) l : qs !! n = Some l -> alter f n qs = <[n := f l]> qs.
Proof. revert n. induction qs as [|x qs IH]; intros [|n] E; [done..| |]; [by injection E as ->|]. cbn. f_equal. by apply IH. Qed.

Lemma concat_push (qs : list (list Z)) n b :
  (n < length qs)%nat -> concat (alter (.++ [b]) n qs) ≡ₚ b :: concat qs.
Proof.
  intros [l Hl]%lookup_lt_is_Some. rewrite (alter_at _ n qs l Hl).
  destruct (concat_update qs n l (l ++ [b]) Hl) as (l1 & l2 & E1 & E2). rewrite E1, E2. solve_Permutation.
Qed.

(** ** Every command is completed once

    As long as the queues are never emptied, a command was completed as often as
    it was accepted, or once less while it is pending. *)

Definition sched_ok (g : sched) : Prop :=
  length (sc_q g) = 4%nat /\ NoDup (waiting g) /\ forall b, sc_exec g = Some b -> b ∉ waiting g.

Lemma sched0_ok : sched_ok sched0.
Proof. split_and!; [done|apply NoDup_nil_2|done]. Qed.

Lemma sched_step_ok g e g' : sched_step g e = Some g' -> sched_ok g -> sched_ok g'.
Proof.
  intros E (Hl & Hnd & Hx). destruct e as [prio b|b|b r|cb r b|]; cbn in E.
  - case_decide as Hd; [|done]. injection E as <-. destruct Hd as [Hp Hn]. unfold sched_ok, waiting in *. cbn.
    rewrite length_alter, concat_push by lia. unfold pending, waiting in Hn. split_and!; [done|by apply NoDup_cons; naive_solver|].
    intros b' Hb'. rewrite concat_push, elem_of_cons by lia. intros [->|?]; [tauto|by apply (Hx b')].
  - destruct (sc_pop (sc_q g)) as [[b' qs]|] eqn:Ep; [|done]. cbn in E. case_decide as Hd; [|done]. injection E as <-.
    destruct Hd as [_ ->]. destruct (concat_pop _ _ _ Ep) as [Hp Hlen]. unfold sched_ok, waiting in *. cbn.
    rewrite Hp in Hnd. apply NoDup_cons in Hnd as [? ?]. split_and!; [lia|done|naive_solver].
  - case_decide; [|done]. by injection E as <-.
  - by injection E as <-.
  - injection E as <-. split_and!; [done|apply NoDup_nil_2|]. intros b _ Hb. by apply elem_of_nil in Hb.
Qed.

Lemma sched_run_ok l g g' : sched_run g l = Some g' -> sched_ok g -> sched_ok g'.
Proof.
  revert g. induction l as [|e l IH]; intros g E Hg; [by injection E as <-|]. cbn in E.
  destruct (sched_step g e) as [g1|] eqn:E1; [|done]. eapply IH; [exact E|]. by eapply sched_step_ok.
Qed.

Definition owed (g : sched) (b : Z) : nat := if decide (pending g b) then 1 else 0.

Lemma owed_change g' b (p : Prop) :
  (pending g' b <-> p) -> forall `{Decision p}, owed g' b = if decide p then 1%nat else 0%nat.
Proof. intros Hp ?. unfold owed. destruct (decide (pending g' b)), (decide p); tauto. Qed.

Lemma sched_step_count g e g' b :
  sched_ok g -> sched_step g e = Some g' -> e <> EvDrop ->
  (owed g' b + (if is_done b e then 1 else 0) = owed g b + (if is_issue b e then 1 else 0))%nat.
Proof.
  intros (Hl & Hnd & Hx) E Hne. destruct e as [prio c|c|c r|cb r c|]; cbn in E |- *; [..|done].
  - case_decide as Hd; [|done]. injection E as <-. destruct Hd as [Hp Hn].
    assert (Hiff : pending (mk_sched (sc_exec g) (alter (.++ [c]) (Z.to_nat prio) (sc_q g))) b <-> pending g b \/ c = b).
    { unfold pending, waiting. cbn. rewrite concat_push by lia. rewrite elem_of_cons. naive_solver. }
    rewrite (owed_change _ b _ Hiff). unfold owed. destruct (Z.eqb_spec c b) as [->|].
    + rewrite decide_True by tauto. by rewrite decide_False.
    + destruct (decide (pending g b)); [rewrite decide_True by tauto; done|rewrite decide_False by tauto; done].
  - destruct (sc_pop (sc_q g)) as [[c' qs]|] eqn:Ep; [|done]. cbn in E. case_decide as Hd; [|done]. injection E as <-.
    destruct Hd as [Hex ->]. destruct (concat_pop _ _ _ Ep) as [Hp _]. f_equal.
    assert (Hiff : pending (mk_sched (Some c) qs) b <-> pending g b).
    { unfold pending, waiting. cbn. rewrite Hex, Hp, elem_of_cons. naive_solver. }
    by rewrite (owed_change _ b _ Hiff).
  - case_decide as Hd; [|done]. injection E as <-. specialize (Hx c Hd).
    assert (Hiff : pending (mk_sched None (sc_q g)) b <-> pending g b /\ c <> b).
    { unfold pending, waiting in *. cbn. rewrite Hd. naive_solver. }
    rewrite (owed_change _ b _ Hiff). unfold owed. destruct (Z.eqb_spec c b) as [->|].
    + rewrite decide_False by tauto. rewrite decide_True; [done|]. by left.
    + destruct (decide (pending g b)); [rewrite decide_True by tauto; done|rewrite decide_False by tauto; done].
  - injection E as <-. lia.
Qed.

Lemma sched_run_count l g g' b :
  sched_ok g -> sched_run g l = Some g' -> EvDrop ∉ l ->
  (owed g' b + count (is_done b) l = owed g b + count (is_issue b) l)%nat.
Proof.
  revert g. induction l as [|e l IH]; intros g Hg E Hd.
  - injection E as <-. done.
  - cbn in E. destruct (sched_step g e) as [g1|] eqn:E1; [|done]. cbn in E. apply not_elem_of_cons in Hd as [Hd1 Hd2].
    pose proof (sched_step_count g e g1 b Hg E1 ltac:(congruence)) as H1.
    pose proof (IH g1 (sched_step_ok g e g1 E1 Hg) E Hd2) as H2. unfold count in *. cbn.
    destruct (is_done b e), (is_issue b e); cbn; lia.
Qed.

(** ** Events *)

Inductive dvd_event :=
| DvInit
| DvRequest (q : dvdreq)
| DvMount (block cb : Z)
| DvIntr
| DvTimeout
| DvReset (mode : Z)
| DvPause
| DvPoll (k : sync) (thread block : Z).

Section Events.
Context `{DvdHw} (A : dvdmap) (con : console) (client : Z -> Z -> Z -> list dvdreq).

(** The DI interrupt is enabled. *)
Definition di_enabled (s : dvdst) : bool := bit (pi1 (ir_regs (d_irq s))) 2.

Definition dvd_step (e : dvd_event) : M dvdst unit :=
  match e with
  | DvInit => DVD_Init A con
  | DvRequest q => with_turns A client (fun go => issue_req A go q;; ret tt)
  | DvMount block cb => with_turns A client (fun go => DVD_MountAsync A go block cb;; ret tt)
  | DvIntr => with_turns A client (DVDInterruptHandler con)
  | DvTimeout => modify (set_alarm None);; with_turns A client (dvd_timeouthandler con)
  | DvReset mode => DVD_Reset mode
  | DvPause => DVD_Pause
  | DvPoll k thread block => dvd_poll k thread block;; ret tt
  end.

(** A request names a priority for which there is a queue. *)
Definition op_ok (op : dvdop) : Prop :=
  match op with OpReadAbs _ _ _ prio | OpSeekAbs _ prio => 0 <= prio < 4 | _ => True end.

(** When an event can happen: requests use a block of the program that is not
    pending, the interrupt is enabled, the alarm is running. *)
Definition dvd_ev_ok (e : dvd_event) (s : dvdst) (g : sched) : Prop :=
  match e with
  | DvInit => dv s dvd_initflag <> 0
  | DvRequest q => op_ok (rq_op q) /\ rq_blk q ∈ dom (d_blk s) /\ rq_blk q <> a_dummycmdblk A /\ ~ pending g (rq_blk q)
  | DvMount block cb => block ∈ dom (d_blk s) /\ block <> a_dummycmdblk A /\ ~ pending g block
  | DvIntr => di_enabled s = true
  | DvTimeout => d_alarm s <> None
  | DvReset _ | DvPause => True
  | DvPoll _ _ block => block ∈ dom (d_blk s)
  end.

Fixpoint dvd_run (l : list dvd_event) : M dvdst unit :=
  match l with [] => ret tt | e :: l => dvd_step e;; dvd_run l end.

(** Every event of the list can happen when its turn comes. *)
Fixpoint dvd_run_ok (l : list dvd_event) (s : dvdst) : Prop :=
  match l with
  | [] => True
  | e :: l =>
      (exists g, sched_run sched0 (d_out s) = Some g /\ dvd_ev_ok e s g) /\
      match dvd_step e s with Ok (_, s') => dvd_run_ok l s' | Fault _ => True end
  end.
End Events.
