(* ===== verification/DvdProofs.v ===== *)
(** * The queues of the optical drive's driver, and its invariant

    The four queues of waiting commands, which [Dvd] keeps in memory, as the four
    lists of the scheduler of [DvdSpec]; the invariant [core] of the driver; and
    the functions that only program a command ([Leaf]), which preserve it. *)

From stdpp Require Import base gmap list.
From Stdlib Require Import ZArith Lia.
From S2P Require Import Prelude Chain LwpQueue Devices KState Clock Irq DspDev DvdPatch DvdState Dvd DvdSpec.
From S2P Require ArqProofs.

Open Scope Z_scope.

(** ** Four queues *)

Section Queues.
Context (A : dvdmap).
(** The blocks of the program. *)
Context (P : list Z).

Definition pools (m : mem) : Prop := forall i, 0 <= i < 4 -> pool_ok (waitq A i) P m.
Definition qs_repr (m : mem) (qs : list (list Z)) : Prop :=
  length qs = 4%nat /\ concat qs ⊆ P /\ NoDup (concat qs) /\
  forall i L, qs !! i = Some L -> queue_repr m (waitq A (Z.of_nat i)) L.

Lemma qs_in (qs : list (list Z)) i L b : qs !! i = Some L -> b ∈ L -> b ∈ concat qs.
Proof. intros Hi Hb. destruct (concat_update qs i L L Hi) as (l1 & l2 & E & _). rewrite E. set_solver. Qed.

Lemma qs_disjoint (qs : list (list Z)) i j L L' b :
  NoDup (concat qs) -> qs !! i = Some L -> qs !! j = Some L' -> i <> j -> b ∈ L -> b ∉ L'.
Proof.
  intros Hnd Hi Hj Hne Hb Hb'. destruct (concat_update qs i L [] Hi) as (l1 & l2 & E & E').
  rewrite E, !NoDup_app in Hnd. assert (Hin : b ∈ l1 ++ [] ++ l2).
  { rewrite <- E'. apply (qs_in _ j L'); [|done]. rewrite list_lookup_insert_ne by done. done. }
  destruct Hnd as (_ & H1 & _ & H2 & _). cbn in Hin. rewrite elem_of_app in Hin. destruct Hin as [Hin|Hin]; [|by apply (H2 b)].
  apply (H1 b Hin). set_solver.
Qed.

Lemma other_words m i j L b :
  pools m -> 0 <= i < 4 -> 0 <= j < 4 -> i <> j -> L ⊆ P -> b ∈ P -> b ∉ L ->
  forall w, footprint (waitq A i) L w -> ~ (waitq A j <= w < waitq A j + 12) /\ w <> b /\ w <> b + 4.
Proof.
  intros Hp Hi Hj Hij HL Hb HbL w Hw. destruct (Hp i Hi) as (_ & Hs & Hq), (Hp j Hj) as (_ & _ & Hq').
  unfold waitq in *. apply ArqProofs.footprint_words in Hw. destruct Hw as [Hw|(x & Hx & Hw)].
  - pose proof (Hq b Hb). lia.
  - pose proof (Hq' x (HL x Hx)). destruct (Hs x b (HL x Hx) Hb) as [->|?]; [done|]. lia.
Qed.

(** An operation on queue [i] changes no other queue. *)
Lemma qs_update m m' qs i L L' :
  pools m -> qs_repr m qs -> qs !! i = Some L -> concat (<[i := L']> qs) ⊆ P -> NoDup (concat (<[i := L']> qs)) ->
  queue_repr m' (waitq A (Z.of_nat i)) L' -> agree (fun w => ~ footprint (waitq A (Z.of_nat i)) L' w) m m' ->
  pools m' /\ qs_repr m' (<[i := L']> qs).
Proof.
  intros Hp (Hlen & Hsub & Hnd & Hq) Hi Hsub' Hnd' Hr Hag. pose proof (lookup_lt_Some _ _ _ Hi).
  assert (Hi' : <[i := L']> qs !! i = Some L') by (apply list_lookup_insert_eq; lia).
  split; [|split_and!; [by rewrite length_insert|done|done|] ].
  - intros j Hj. destruct (Hp j Hj) as (H1 & H2 & H3). split_and!; [|done|done]. intros x Hx.
    assert (Hmap : forall w, is_Some (m !! w) -> is_Some (m' !! w)).
    { intros w Hw. destruct (footprint_dec (waitq A (Z.of_nat i)) L' w) as [Hf|Hf]; [by eapply queue_repr_mapped|].
      by rewrite (Hag w Hf). }
    destruct (H1 x Hx). auto.
  - intros j K Hj. destruct (decide (j = i)) as [->|Hne]; [by rewrite Hi' in Hj; injection Hj as <-|].
    pose proof Hj as Hj'. rewrite list_lookup_insert_ne in Hj' by done. pose proof (lookup_lt_Some _ _ _ Hj').
    apply (queue_repr_frame m); [|by apply Hq]. intros w Hw. apply Hag. intros Hw'.
    pose proof (ArqProofs.footprint_words _ _ _ Hw) as Hww. destruct Hww as [Hww|(x & Hx & Hww)].
    + destruct (ArqProofs.footprint_words _ _ _ Hw') as [Hw2|(x & Hx & Hw2)]; [unfold waitq in *; lia|].
      assert (HxP : x ∈ P) by (apply Hsub'; by apply (qs_in _ i L')).
      destruct (Hp (Z.of_nat j) ltac:(lia)) as (_ & _ & H3). pose proof (H3 x HxP). unfold waitq in *; lia.
    + assert (HxP : x ∈ P) by (apply Hsub; by apply (qs_in _ j K)).
      assert (HxL : x ∉ L') by (apply (qs_disjoint (<[i := L']> qs) j i K L'); done).
      assert (HLP : L' ⊆ P) by (intros y Hy; apply Hsub'; by apply (qs_in _ i L')).
      destruct (other_words m (Z.of_nat i) (Z.of_nat j) L' x Hp ltac:(lia) ltac:(lia) ltac:(lia) HLP HxP HxL w Hw') as (_ & ? & ?).
      lia.
Qed.

Lemma qs_push m qs prio b :
  pools m -> qs_repr m qs -> 0 <= prio < 4 -> b ∈ P -> b ∉ concat qs ->
  wp (lwp_queue_appendI (waitq A prio) b)
    (fun _ m' => pools m' /\ qs_repr m' (alter (.++ [b]) (Z.to_nat prio) qs)) m.
Proof.
  intros Hp Hr Hprio Hb Hn. pose proof Hr as (Hlen & Hsub & Hnd & Hq).
  destruct (lookup_lt_is_Some_2 qs (Z.to_nat prio)) as [L HL]; [lia|].
  assert (HLP : L ⊆ P) by (intros y Hy; apply Hsub; by eapply qs_in).
  assert (HbL : b ∉ L) by (intros HbL; apply Hn; by eapply qs_in).
  pose proof (Hq _ _ HL) as Hrep. rewrite Z2Nat.id in Hrep by lia.
  eapply wp_mono; [apply appendI_spec; [exact Hrep|by apply (pool_fresh _ P); [apply Hp|..] ]|]. cbn. intros _ m' [Hr' Hag].
  rewrite (alter_at _ _ _ L HL).
  assert (Hperm : concat (<[Z.to_nat prio := L ++ [b]]> qs) ≡ₚ b :: concat qs)
    by (rewrite <- (alter_at (.++ [b]) _ _ L HL); apply concat_push; lia).
  apply (qs_update m m' qs _ L); rewrite ?Z2Nat.id by lia; try done.
  - intros x. rewrite Hperm, elem_of_cons. intros [->|?]; auto.
  - rewrite Hperm. by apply NoDup_cons.
Qed.

Lemma qs_first m qs i x L :
  pools m -> qs_repr m qs -> qs !! i = Some (x :: L) ->
  wp (lwp_queue_firstnodeI (waitq A (Z.of_nat i))) (fun r m' => r = x /\ pools m' /\ qs_repr m' (<[i := L]> qs)) m.
Proof.
  intros Hp Hr Hi. pose proof Hr as (Hlen & Hsub & Hnd & Hq).
  eapply wp_mono; [apply firstnodeI_spec; exact (Hq _ _ Hi)|]. cbn. intros r m' (-> & Hr' & Hag). split; [done|].
  destruct (concat_update qs i (x :: L) L Hi) as (l1 & l2 & E1 & E2).
  apply (qs_update m m' qs i (x :: L)); try done.
  - rewrite E2. rewrite E1 in Hsub. set_solver.
  - rewrite E2. rewrite E1 in Hnd. apply NoDup_app in Hnd as (H1 & H2 & H3). cbn in H2. apply NoDup_cons in H3 as [H3 H4].
    apply NoDup_app. split_and!; [done| |done]. intros y Hy Hy'. apply (H2 y Hy). by right.
Qed.

Lemma qs_isempty m qs i L :
  qs_repr m qs -> qs !! i = Some L ->
  wp (lwp_queue_isempty (waitq A (Z.of_nat i))) (fun r m' => r = bool_decide (L = []) /\ m' = m) m.
Proof. intros (_ & _ & _ & Hq) Hi. apply isempty_spec. by apply Hq. Qed.

Lemma qs_init m qs i L :
  pools m -> qs_repr m qs -> qs !! i = Some L ->
  wp (lwp_queue_init_empty (waitq A (Z.of_nat i))) (fun _ m' => pools m' /\ qs_repr m' (<[i := []]> qs)) m.
Proof.
  intros Hp Hr Hi. pose proof Hr as (Hlen & Hsub & Hnd & Hq). pose proof (Hq _ _ Hi) as Hrep.
  assert (Hmap : forall w, footprint (waitq A (Z.of_nat i)) L w -> is_Some (m !! w)) by (intros w; by apply queue_repr_mapped).
  eapply wp_mono.
  - apply init_empty_spec; apply Hmap; unfold footprint; [left|by right|left].
    + left. exists (waitq A (Z.of_nat i)). split; [|unfold q_first; lia]. unfold nodes, lwp_queue_head. rewrite app_comm_cons, removelast_last.
      by left.
    + right. exists (lwp_queue_tail (waitq A (Z.of_nat i))). split; [|unfold lwp_queue_tail, q_last; lia]. cbn. set_solver.
  - cbn. intros _ m' [Hr' Hag]. destruct (concat_update qs i L [] Hi) as (l1 & l2 & E1 & E2).
    apply (qs_update m m' qs i L); try done; rewrite E2; rewrite E1 in Hsub, Hnd; [set_solver|].
    cbn. rewrite !NoDup_app in *. set_solver.
Qed.

Lemma qs_clear m qs :
  pools m -> qs_repr m qs ->
  wp (lwp_queue_init_empty (waitq A 0);; lwp_queue_init_empty (waitq A 1);; lwp_queue_init_empty (waitq A 2);;
      lwp_queue_init_empty (waitq A 3)) (fun _ m' => pools m' /\ qs_repr m' [[]; []; []; []]) m.
Proof.
  intros Hp Hr. pose proof Hr as (Hlen & _). destruct qs as [|L0 [|L1 [|L2 [|L3 [|] ] ] ] ]; try done.
  apply wp_bind. eapply wp_mono; [apply (qs_init _ _ 0 L0 Hp Hr eq_refl)|]. cbn. intros _ m1 [Hp1 Hr1].
  apply wp_bind. eapply wp_mono; [apply (qs_init _ _ 1 L1 Hp1 Hr1 eq_refl)|]. cbn. intros _ m2 [Hp2 Hr2].
  apply wp_bind. eapply wp_mono; [apply (qs_init _ _ 2 L2 Hp2 Hr2 eq_refl)|]. cbn. intros _ m3 [Hp3 Hr3].
  exact (qs_init _ _ 3 L3 Hp3 Hr3 eq_refl).
Qed.
End Queues.

(** ** The invariant *)

(** Variables that the functions that only start a command leave alone. *)
Definition keyvar (x : dvar) : bool :=
  match x with
  | dvd_executing | dvd_canceling | dvd_cancelcallback | dvd_resumefromhere | dvd_fatalerror
  | dvd_drivechecked | dvd_initflag | dvd_currcmd => true
  | _ => false
  end.

(** [DVD_CHIPPRESENT] in [__dvd_drivestate]: a drive that spins up at once. *)
Definition chip (s : dvdst) : bool := Z.testbit (dv s dvd_drivestate) 1.
Definition cmds (s : dvdst) : gmap Z Z := b_cmd <$> d_blk s.
Definition usr_ok (s : dvdst) : Prop := match d_usr s with UsrAddr _ => False | _ => True end.
Definition list_ok (s : dvdst) : Prop := dv s dvd_nextcmdnum = 0 /\ l_cmd (d_list s 0) <> 1 /\ l_cmd (d_list s 0) <> 2.

Lemma chip_set s v : chip (set_vars (fupd (dv s) dvd_drivestate v) s) = Z.testbit v 1.
Proof. unfold chip. cbn [dv set_vars]. by rewrite fupd_eq. Qed.

Record frame (s s' : dvdst) : Prop := {
  f_mem : d_mem s' = d_mem s;
  f_cmds : cmds s' = cmds s;
  f_irq : d_irq s' = d_irq s;
  f_out : d_out s' = d_out s;
  f_sram : snd (d_sram s') = snd (d_sram s);
  f_usr : usr_ok s -> usr_ok s';
  f_last : d_last s <> None -> d_last s' <> None;
  f_list : list_ok s -> list_ok s';
  f_chip : chip s' = true -> chip s = true;
  f_var x : keyvar x = true -> dv s' x = dv s x;
}.

Lemma frame_refl s : frame s s.
Proof. by constructor. Qed.
Lemma frame_trans s1 s2 s3 : frame s1 s2 -> frame s2 s3 -> frame s1 s3.
Proof.
  intros F1 F2. pose proof F1 as [? ? ? ? ? ? ? ? ? V1]. pose proof F2 as [? ? ? ? ? ? ? ? ? V2].
  constructor; try (by etrans); auto. intros x Hx. by rewrite V2, V1.
Qed.

(** A function that starts a command may also store callbacks: [g] is the list
    of new ones. [None] is for what does not touch callbacks or the alarm. *)
Definition ext (g : option (list lowfn)) (s s' : dvdst) : Prop :=
  frame s s' /\
  match g with
  | None => d_cb s' = d_cb s /\ d_alarm s' = d_alarm s
  | Some g =>
      d_cb s' dvd_finalsudcb = d_cb s dvd_finalsudcb /\ d_cb s' dvd_resetcovercb = d_cb s dvd_resetcovercb /\
      (forall f, d_cb s' dvd_finaladdoncb = Some f -> d_cb s dvd_finaladdoncb = Some f \/ f = Fn_spinupdrivecb) /\
      forall x f, d_cb s' x = Some f -> (exists y, d_cb s y = Some f) \/ f ∈ g
  end.

Lemma ext_refl g s : ext g s s.
Proof. split; [apply frame_refl|]. destruct g; [|done]. split_and!; [done|done|by left|]. intros x f Hf. left. by exists x. Qed.
Lemma ext_weaken g s s' : ext None s s' -> ext (Some g) s s'.
Proof. intros [Hf [Hc _] ]. split; [done|]. rewrite Hc. split_and!; [done|done|by left|]. intros x f Hx. left. by exists x. Qed.
Lemma ext_trans g s1 s2 s3 : ext g s1 s2 -> ext g s2 s3 -> ext g s1 s3.
Proof.
  intros [F1 E1] [F2 E2]. split; [by eapply frame_trans|]. destruct g as [g|]; [|destruct E1, E2; split; congruence].
  destruct E1 as (A1 & B1 & D1 & C1), E2 as (A2 & B2 & D2 & C2). split_and!; [congruence|congruence| |].
  { intros f Hf. destruct (D2 f Hf); auto. }
  intros x f Hx. destruct (C2 x f Hx) as [ [y Hy]|]; [|by right]. by apply (C1 y).
Qed.

Definition Leaf {X} (c : M dvdst X) (g : option (list lowfn)) : Prop :=
  forall s, snd (d_sram s) = false -> exists a s', c s = Ok (a, s') /\ ext g s s'.

Lemma wp_leaf {X} (c : M dvdst X) g Q s :
  Leaf c g -> snd (d_sram s) = false -> (forall a s', ext g s s' -> Q a s') -> wp c Q s.
Proof. intros Hc Hs HQ. apply wp_run. destruct (Hc s Hs) as (a & s' & E & He). eauto. Qed.

Lemma leaf_ret {X} (a : X) g : Leaf (ret a) g.
Proof. intros s _. exists a, s. split; [done|apply ext_refl]. Qed.
Lemma leaf_bind {X Y} (c : M dvdst X) (k : X -> M dvdst Y) g : Leaf c g -> (forall a, Leaf (k a) g) -> Leaf (bind c k) g.
Proof.
  intros Hc Hk s Hs. destruct (Hc s Hs) as (a & s1 & E & He). destruct (Hk a s1) as (b & s2 & E' & He').
  { by rewrite (f_sram _ _ (proj1 He)). }
  exists b, s2. unfold bind. rewrite E. split; [done|by eapply ext_trans].
Qed.
Lemma leaf_weaken {X} (c : M dvdst X) g : Leaf c None -> Leaf c (Some g).
Proof. intros Hc s Hs. destruct (Hc s Hs) as (a & s' & E & He). exists a, s'. split; [done|by apply ext_weaken]. Qed.
Lemma leaf_gets {X} (f : dvdst -> X) g : Leaf (gets f) g.
Proof. intros s _. eexists _, s. split; [done|apply ext_refl]. Qed.
Lemma leaf_getv x g : Leaf (getv x) g.
Proof. apply leaf_gets. Qed.
Lemma leaf_modify f g : (forall s, ext g s (f s)) -> Leaf (modify f) g.
Proof. intros Hf s _. eexists _, (f s). by split. Qed.
Lemma leaf_when b c g : Leaf c g -> Leaf (when b c) g.
Proof. intros Hc. destruct b; [done|apply leaf_ret]. Qed.
Lemma leaf_setv x v : keyvar x = false -> x <> dvd_drivestate -> x <> dvd_nextcmdnum -> Leaf (setv x v) None.
Proof.
  intros Hk Hd Hn. apply leaf_modify. intros s. split; [|done]. constructor; try done; cbn.
  - unfold list_ok. cbn. by rewrite fupd_ne by congruence.
  - unfold chip. cbn. by rewrite fupd_ne by congruence.
  - intros y Hy. apply fupd_ne. congruence.
Qed.
Lemma leaf_nextcmd0 : Leaf (setv dvd_nextcmdnum 0) None.
Proof. apply leaf_modify. intros s. split; [|done]. constructor; try done.
  - intros [_ Hl]. unfold list_ok. cbn. by rewrite fupd_eq.
  - intros y Hy. cbn. apply fupd_ne. by intros ->.
Qed.
Lemma leaf_drive (f : Z -> Z) :
  (forall z, Z.testbit (f z) 1 = true -> Z.testbit z 1 = true) -> Leaf (st <- getv dvd_drivestate; setv dvd_drivestate (f st)) None.
Proof.
  intros Hf s _. eexists _, _. split; [done|]. split; [|done]. constructor; try done.
  - unfold chip. cbn. rewrite fupd_eq. apply Hf.
  - intros y Hy. cbn. apply fupd_ne. by intros ->.
Qed.
Lemma leaf_drive_k {X} (f : Z -> Z) (k : M dvdst X) g :
  (forall z, Z.testbit (f z) 1 = true -> Z.testbit z 1 = true) -> Leaf k g ->
  Leaf (st <- getv dvd_drivestate; setv dvd_drivestate (f st);; k) g.
Proof.
  intros Hf Hk s Hs. destruct (leaf_drive f Hf s Hs) as (a & s1 & E & He).
  destruct (Hk s1) as (b & s2 & E' & He'); [by rewrite (f_sram _ _ (proj1 He))|]. exists b, s2. split; [injection E as <- <-; exact E'|].
  eapply ext_trans; [|exact He']. destruct g; [by apply ext_weaken|done].
Qed.
Lemma leaf_setcb x f g :
  x <> dvd_finalsudcb -> x <> dvd_resetcovercb -> (x = dvd_finaladdoncb -> f = Some Fn_spinupdrivecb) -> (forall h, f = Some h -> h ∈ g) -> Leaf (setcb x f) (Some g).
Proof.
  intros H1 H2 H3 Hg. apply leaf_modify. intros s. split; [by constructor|]. cbn. rewrite !(fupd_ne _ x) by congruence.
  split_and!; [done..| |].
  { intros h. destruct (decide (x = dvd_finaladdoncb)) as [->|]; [|rewrite fupd_ne by congruence; by left].
    rewrite fupd_eq, H3 by done. intros [= <-]. by right. }
  intros y h. destruct (decide (y = x)) as [->|]; [rewrite fupd_eq; intros ->; right; by apply Hg|]. rewrite fupd_ne by done.
  intros Hy. left. by exists y.
Qed.
(** A callback that was stored already is stored again. *)
Lemma leaf_getcb {X} x (k : option lowfn -> M dvdst X) g :
  (forall f, Leaf (k f) (Some (option_list f ++ g))) -> Leaf (f <- getcb x; k f) (Some g).
Proof.
  intros Hk s Hs. destruct (Hk (d_cb s x) s Hs) as (a & s' & E & F & E1 & E2 & E4 & E3). exists a, s'. split; [done|].
  split; [done|]. split_and!; [done..|]. intros y f Hf. destruct (E3 y f Hf) as [?|Hin]; [by left|].
  apply elem_of_app in Hin as [Hin|]; [|by right]. left. exists x. destruct (d_cb s x) as [h|]; cbn in Hin; [|set_solver].
  by apply list_elem_of_singleton in Hin as ->.
Qed.
Lemma leaf_di_wr r v : Leaf (di_wr r v) None.
Proof. apply leaf_modify. intros s. split; [by constructor|done]. Qed.
Lemma leaf_storeerror v : Leaf (dvd_storeerror v) None.
Proof.
  intros s Hs. unfold dvd_storeerror, bind, ret, gets. rewrite Hs. eexists _, _. split; [done|]. split; [by constructor|done].
Qed.

(** ** Functions that start a command *)

Lemma leaf_alarm n g : Leaf (SetupTimeoutAlarm n) (Some g).
Proof.
  apply leaf_modify. intros s. split; [by constructor|]. cbn. split_and!; [done|done|by left|]. intros x f Hx. left. by exists x.
Qed.
Lemma leaf_list0 : Leaf (modify (fun s => set_cmdlist (fupd (d_list s) 0 (mk_cmdl (-1) (l_buf (d_list s 0)) (l_len (d_list s 0))
  (l_offset (d_list s 0)) (l_cb (d_list s 0)))) s)) None.
Proof.
  apply leaf_modify. intros s. split; [|done]. constructor; try done. intros [Hn _]. by split.
Qed.
Lemma leaf_simple f :
  (forall s, d_mem (f s) = d_mem s /\ d_blk (f s) = d_blk s /\ d_irq (f s) = d_irq s /\ d_out (f s) = d_out s /\
    d_sram (f s) = d_sram s /\ (usr_ok s -> usr_ok (f s)) /\ d_last (f s) = d_last s /\ d_list (f s) = d_list s /\
    dv (f s) = dv s /\ d_cb (f s) = d_cb s /\ d_alarm (f s) = d_alarm s) -> Leaf (modify f) None.
Proof.
  intros Hf. apply leaf_modify. intros s. destruct (Hf s) as (? & ? & ? & ? & ? & ? & E1 & E2 & E3 & ? & ?). split; [|done].
  constructor; unfold cmds, list_ok, chip; rewrite ?E1, ?E2, ?E3; try done; congruence.
Qed.

Lemma leaf_di_rd `{DvdHw} r : Leaf (di_rd r) None.
Proof. intros s _. eexists _, _. split; [done|]. split; [by constructor|done]. Qed.

Lemma leaf_ack `{DvdHw} : Leaf di_ack None.
Proof. unfold di_ack. apply leaf_bind; [apply leaf_di_rd|intros v; apply leaf_di_wr]. Qed.

Ltac drive_bits z :=
  rewrite ?Z.lor_spec, ?Z.ldiff_spec; destruct (Z.testbit z 1); cbn; done.
Ltac leaf_atom :=
  lazymatch goal with
  | |- Leaf (ret _) _ => apply leaf_ret
  | |- Leaf (getv _) _ => apply leaf_getv
  | |- Leaf (gets _) _ => apply leaf_gets
  | |- Leaf (setv dvd_nextcmdnum 0) _ => apply leaf_nextcmd0
  | |- Leaf (setv _ _) _ => apply leaf_setv; [done|done|done]
  | |- Leaf (di_wr _ _) _ => apply leaf_di_wr
  | |- Leaf (di_rd _) _ => apply leaf_di_rd
  | |- Leaf di_ack _ => apply leaf_ack
  | |- Leaf (dvd_storeerror _) _ => apply leaf_storeerror
  | |- Leaf (modify (fun s => set_cmdlist _ _)) _ => apply leaf_list0
  | |- Leaf (modify _) _ => apply leaf_simple; intros; by split_and!
  end.
Ltac leaf_step :=
  lazymatch goal with
  | |- Leaf (bind (getcb _) _) _ => apply leaf_getcb; intros ?f
  | |- Leaf (bind (getv dvd_drivestate) _) _ => apply leaf_drive_k; [intros z; drive_bits z|]
  | |- Leaf (bind _ _) _ => apply leaf_bind; [|intros ?]
  | |- Leaf (when _ _) _ => apply leaf_when
  | |- Leaf (if ?b then _ else _) _ => destruct b
  | |- Leaf (SetupTimeoutAlarm _) _ => apply leaf_alarm
  | |- Leaf (setcb _ _) _ => apply leaf_setcb; [done|done|done|set_solver]
  | |- Leaf (ret _) _ => apply leaf_ret
  | |- Leaf (getv _) _ => apply leaf_getv
  | |- Leaf (gets _) _ => apply leaf_gets
  | |- Leaf _ None => leaf_atom
  | |- Leaf _ (Some _) => apply leaf_weaken; leaf_atom
  end.
Ltac leaf := repeat leaf_step.


Section Leaves.
Context `{DvdHw} (A : dvdmap).
Context (cb : option lowfn).
Local Abbreviation G := (option_list cb).

Lemma leaf_arm : Leaf (arm cb) (Some G).
Proof. unfold arm. leaf. Qed.
Lemma leaf_Read b l o : Leaf (Read b l o cb) (Some G).
Proof. unfold Read. apply leaf_bind; [apply leaf_arm|intros _]. leaf. Qed.
Lemma leaf_LowRead b l o : Leaf (DVD_LowRead b l o cb) (Some G).
Proof. unfold DVD_LowRead, DoRead. leaf. apply leaf_Read. Qed.
Lemma leaf_LowSeek o : Leaf (DVD_LowSeek o cb) (Some G).
Proof. unfold DVD_LowSeek. apply leaf_bind; [apply leaf_arm|intros _]. leaf. Qed.
Lemma leaf_LowReadId d : Leaf (DVD_LowReadId d cb) (Some G).
Proof. unfold DVD_LowReadId. apply leaf_bind; [apply leaf_arm|intros _]. leaf. Qed.
Lemma leaf_LowRequestError : Leaf (DVD_LowRequestError cb) (Some G).
Proof. unfold DVD_LowRequestError. apply leaf_bind; [apply leaf_arm|intros _]. leaf. Qed.
Lemma leaf_LowStopMotor : Leaf (DVD_LowStopMotor cb) (Some G).
Proof. unfold DVD_LowStopMotor. apply leaf_bind; [apply leaf_arm|intros _]. leaf. Qed.
Lemma leaf_LowInquiry i : Leaf (DVD_LowInquiry i cb) (Some G).
Proof. unfold DVD_LowInquiry. apply leaf_bind; [apply leaf_arm|intros _]. leaf. Qed.
Lemma leaf_LowWaitCoverClose : Leaf (DVD_LowWaitCoverClose cb) (Some G).
Proof. unfold DVD_LowWaitCoverClose. leaf. Qed.
Lemma leaf_LowAudioStream c l o : Leaf (DVD_LowAudioStream c l o cb) (Some G).
Proof. unfold DVD_LowAudioStream. apply leaf_bind; [apply leaf_arm|intros _]. leaf. Qed.
Lemma leaf_LowAudioBufferConfig e z : Leaf (DVD_LowAudioBufferConfig e z cb) (Some G).
Proof. unfold DVD_LowAudioBufferConfig. apply leaf_bind; [apply leaf_arm|intros _]. leaf. Qed.
Lemma leaf_LowRequestAudioStatus c : Leaf (DVD_LowRequestAudioStatus c cb) (Some G).
Proof. unfold DVD_LowRequestAudioStatus. apply leaf_bind; [apply leaf_arm|intros _]. leaf. Qed.
Lemma leaf_LowUnlockDrive : Leaf (DVD_LowUnlockDrive cb) (Some (Fn_unlockdrivecb :: G)).
Proof. unfold DVD_LowUnlockDrive. leaf. Qed.
Lemma leaf_LowSetOffset o : Leaf (DVD_LowSetOffset o cb) (Some G).
Proof. unfold DVD_LowSetOffset. leaf. Qed.
Lemma leaf_LowFuncCall a : Leaf (DVD_LowFuncCall a cb) (Some G).
Proof. unfold DVD_LowFuncCall. apply leaf_bind; [apply leaf_arm|intros _]. leaf. Qed.
Lemma leaf_LowSpinMotor m : Leaf (DVD_LowSpinMotor m cb) (Some G).
Proof. unfold DVD_LowSpinMotor. apply leaf_bind; [apply leaf_arm|intros _]. leaf. Qed.
Lemma leaf_LowEnableExtensions e : Leaf (DVD_LowEnableExtensions e cb) (Some G).
Proof. unfold DVD_LowEnableExtensions. apply leaf_bind; [apply leaf_arm|intros _]. leaf. Qed.
Lemma leaf_LowSetStatus e : Leaf (DVD_LowSetStatus e cb) (Some G).
Proof. unfold DVD_LowSetStatus. apply leaf_bind; [apply leaf_arm|intros _]. leaf. Qed.
End Leaves.

Section Starts.
Context `{DvdHw} (A : dvdmap).

Lemma leaf_some {X} (c : M dvdst X) g g' : Leaf c (Some g) -> g ⊆ g' -> Leaf c (Some g').
Proof.
  intros Hc Hg s Hs. destruct (Hc s Hs) as (a & s' & E & F & E1 & E2 & E4 & E3). exists a, s'. split; [done|]. split; [done|].
  split_and!; [done..|]. intros x f Hf. destruct (E3 x f Hf); auto.
Qed.

Lemma leaf_unlockdrivecb : Leaf dvd_unlockdrivecb (Some []).
Proof. unfold dvd_unlockdrivecb. leaf. Qed.
Lemma leaf_LowSetGCMOffset o cb :
  Leaf (DVD_LowSetGCMOffset o cb) (Some (Fn_unlockdrivecb :: Fn_setgcmoffsetcb :: option_list cb)).
Proof. unfold DVD_LowSetGCMOffset. leaf. eapply leaf_some; [apply leaf_LowUnlockDrive|]. set_solver. Qed.
Lemma leaf_patchdrivecb : Leaf dvd_patchdrivecb (Some [Fn_patchdrivecb]).
Proof.
  unfold dvd_patchdrivecb. apply leaf_bind; [apply leaf_gets|intros [code|] ]; leaf.
  - destruct (patch_copy _ _ _ _ _ _) as [ [cnt pos] buf]. leaf.
  - eapply leaf_some; [apply leaf_LowFuncCall|]. set_solver.
Qed.
Lemma leaf_LowPatchDriveCode cb : Leaf (DVD_LowPatchDriveCode cb) (Some (Fn_patchdrivecb :: option_list cb)).
Proof. unfold DVD_LowPatchDriveCode. leaf. eapply leaf_some; [apply leaf_patchdrivecb|]. set_solver. Qed.

Lemma leaf_statemotorstopped : Leaf dvd_statemotorstopped (Some [Fn_statemotorstoppedcb]).
Proof. unfold dvd_statemotorstopped. apply (leaf_LowWaitCoverClose (Some _)). Qed.
Lemma leaf_stateerror r : Leaf (dvd_stateerror r) (Some [Fn_stateerrorcb]).
Proof. unfold dvd_stateerror. leaf. apply (leaf_LowStopMotor (Some _)). Qed.
Lemma leaf_stategettingerror : Leaf dvd_stategettingerror (Some [Fn_stategettingerrorcb]).
Proof. unfold dvd_stategettingerror. apply (leaf_LowRequestError (Some _)). Qed.
Lemma leaf_stategotoretry : Leaf dvd_stategotoretry (Some [Fn_stategotoretrycb]).
Proof. unfold dvd_stategotoretry. apply (leaf_LowStopMotor (Some _)). Qed.
Lemma leaf_statecoverclosed_cmd : Leaf (dvd_statecoverclosed_cmd A) (Some [Fn_statecoverclosedcb]).
Proof. unfold dvd_statecoverclosed_cmd. apply (leaf_LowReadId (Some _)). Qed.
Lemma leaf_checkaddons : Leaf (dvd_checkaddons A (Some Fn_spinupdrivecb)) (Some [Fn_checkaddonscb; Fn_spinupdrivecb]).
Proof. unfold dvd_checkaddons. leaf. eapply leaf_some; [apply leaf_LowReadId|]. set_solver. Qed.
Lemma leaf_fwpatchmem cb : Leaf (dvd_fwpatchmem A cb) (Some (Fn_fwpatchcb :: option_list cb)).
Proof. unfold dvd_fwpatchmem. leaf. eapply leaf_some; [apply leaf_LowInquiry|]. set_solver. Qed.
Lemma leaf_handlespinup : Leaf dvd_handlespinup (Some [Fn_unlockdrivecb; Fn_handlespinupcb]).
Proof. unfold dvd_handlespinup. leaf. apply (leaf_LowUnlockDrive (Some _)). Qed.

Lemma leaf_LowReset m : Leaf (DVD_LowReset m) None.
Proof. unfold DVD_LowReset. leaf. apply leaf_drive. intros z. drive_bits z. Qed.
Lemma leaf_Reset m : Leaf (DVD_Reset m) None.
Proof. unfold DVD_Reset. leaf. apply leaf_LowReset. Qed.

(** After a reset the drive has to be spun up again. *)
Lemma reset_clears m s : snd (d_sram s) = false -> wp (DVD_Reset m) (fun _ s' => ext None s s' /\ chip s' = false) s.
Proof.
  intros Hs. unfold DVD_Reset. apply wp_bind, wp_gets, wp_bind, wp_modify.
  set (s1 := set_vars _ s). assert (E1 : ext None s s1).
  { split; [|done]. constructor; try done.
    - unfold s1. rewrite chip_set, Z.ldiff_spec. unfold chip. by destruct (Z.testbit (dv s dvd_drivestate) 1).
    - intros y Hy. unfold s1. cbn. apply fupd_ne. by intros ->. }
  eapply (wp_leaf _ None); [|exact Hs|].
  - leaf. apply leaf_LowReset.
  - intros _ s' He. split; [by eapply ext_trans|]. destruct (chip s') eqn:Ec; [|done].
    apply (f_chip _ _ (proj1 He)) in Ec. unfold s1 in Ec. rewrite chip_set, Z.ldiff_spec in Ec.
    by destruct (Z.testbit (dv s dvd_drivestate) 1).
Qed.
End Starts.
