(* ===== verification/DvdInv.v ===== *)
(** * The invariant of the optical drive's driver

    [core]: the history of the driver is a run of the scheduler of [DvdSpec], the
    queues in memory are those of the scheduler, and the pointers to functions
    are such that nothing is called that is not there. *)

From stdpp Require Import base gmap list.
From Stdlib Require Import ZArith Lia.
From S2P Require Import Prelude Chain LwpQueue Devices KState Clock Irq DspDev DvdPatch DvdState Dvd DvdSpec DvdProofs.

Open Scope Z_scope.

(** What a spin-up can end in. *)
Definition sudfins : list lowfn := [Fn_statebusycb; Fn_stateretrycb; Fn_statecoverclosed_spinupcb].
Definition sud_ok (s : dvdst) : Prop := exists f, d_cb s dvd_finalsudcb = Some f /\ f ∈ sudfins.
(** A function that may be stored in a callback; two of them call
    [__dvd_finalsudcb] without looking. *)
Definition allowed (s : dvdst) (f : lowfn) : Prop :=
  f <> Fn_getstatuscb /\ (f ∈ [Fn_handlespinupcb; Fn_spinupdrivecb] -> sud_ok s).

Lemma allowed_plain s f : f ∉ [Fn_getstatuscb; Fn_handlespinupcb; Fn_spinupdrivecb] -> allowed s f.
Proof. intros Hf. split; set_solver. Qed.

(** A client's callback issues at most one command, on the block it was called
    for, and none when the command failed. *)
Definition client_ok (client : Z -> Z -> Z -> list dvdreq) : Prop :=
  forall cb r b, (r = -1 -> client cb r b = []) /\
    (client cb r b = [] \/ exists q, client cb r b = [q] /\ rq_blk q = b /\ op_ok (rq_op q)).

Section Safe.
Context `{DvdHw} (A : dvdmap) (con : console) (client : Z -> Z -> Z -> list dvdreq) (P : list Z).
Context (Hdummy : a_dummycmdblk A ∈ P) (Hnull : NULL ∉ P) (Hclient : client_ok client).

Record cinv (s : dvdst) (g : sched) : Prop := {
  ci_pools : pools A P (d_mem s);
  ci_qs : qs_repr A P (d_mem s) (sc_q g);
  ci_dom b : b ∈ P <-> is_Some (d_blk s !! b);
  ci_dummy : a_dummycmdblk A ∉ waiting g;
  ci_exec b : sc_exec g = Some b -> b ∈ P /\ b <> a_dummycmdblk A /\ b ∉ waiting g;
  ci_vars x : x ∈ [dvd_canceling; dvd_cancelcallback; dvd_resumefromhere] -> dv s x = 0;
  ci_init : dv s dvd_initflag <> 0;
  ci_list : list_ok s;
  ci_rst : d_cb s dvd_resetcovercb = None;
  ci_sram : snd (d_sram s) = false;
  ci_usr : usr_ok s;
  ci_cbs x f : d_cb s x = Some f -> allowed s f;
  ci_addon f : d_cb s dvd_finaladdoncb = Some f -> f = Fn_spinupdrivecb;
}.
Definition core (s : dvdst) (g : sched) : Prop := sched_run sched0 (d_out s) = Some g /\ cinv s g.

(** How many commands the driver can complete before it returns. *)
Definition n16 (s : dvdst) (g : sched) : nat := length (filter (fun b => cmds s !! b = Some 0x10) (waiting g)).
Definition mu (s : dvdst) (g : sched) : nat :=
  if decide (dv s dvd_fatalerror = 0) then (if chip s then n16 s g else 0) else length (waiting g).

Definition quiet (s : dvdst) : Prop := d_cb s dvd_callback = None \/ (di_enabled s = false /\ d_alarm s = None).
Definition running (s : dvdst) (g : sched) (b : Z) : Prop :=
  dv s dvd_executing = b /\ sc_exec g = Some b /\ d_last s <> None /\ cmds s !! b = Some (dv s dvd_currcmd) /\ dv s dvd_fatalerror = 0.
Definition idle (s : dvdst) (g : sched) : Prop :=
  dv s dvd_executing = NULL /\ sc_exec g = None /\ waiting g = [] /\ quiet s.
Definition post (s : dvdst) (g : sched) : Prop := core s g /\ ((exists b, running s g b) \/ idle s g).
Definition settled {X} (_ : X) (s : dvdst) : Prop := exists g, post s g.
Definition between (s : dvdst) (g : sched) : Prop := core s g /\ sc_exec g = None /\ dv s dvd_executing = a_dummycmdblk A.

(** ** Preservation *)

Lemma exec_dummy_ne : a_dummycmdblk A <> NULL.
Proof. intros E. apply Hnull. by rewrite <- E. Qed.

Lemma allowed_same s s' f : d_cb s' dvd_finalsudcb = d_cb s dvd_finalsudcb -> allowed s f -> allowed s' f.
Proof. unfold allowed, sud_ok. by intros ->. Qed.

Lemma ext_cbs g s s' :
  ext g s s' -> (forall f, f ∈ default [] g -> allowed s f) -> (forall x f, d_cb s x = Some f -> allowed s f) ->
  forall x f, d_cb s' x = Some f -> allowed s' f.
Proof.
  intros [_ E] Hg Hs x f Hf. destruct g as [g|]; cbn in Hg.
  - destruct E as (E1 & _ & _ & E3). apply (allowed_same s); [done|]. destruct (E3 x f Hf) as [ [y Hy]|]; eauto.
  - destruct E as [E _]. rewrite E in Hf. apply (allowed_same s); [by rewrite E|]. eauto.
Qed.

Lemma is_Some_cmds s b : is_Some (d_blk s !! b) <-> is_Some (cmds s !! b).
Proof. unfold cmds. rewrite lookup_fmap. by rewrite fmap_is_Some. Qed.

Lemma cinv_ext g0 s s' g :
  ext g0 s s' -> (forall f, f ∈ default [] g0 -> allowed s f) -> cinv s g -> cinv s' g.
Proof.
  intros He Hg HC. pose proof He as [F E]. constructor.
  - rewrite (f_mem _ _ F). apply HC.
  - rewrite (f_mem _ _ F). apply HC.
  - intros b. rewrite is_Some_cmds, (f_cmds _ _ F), <- is_Some_cmds. apply HC.
  - apply HC.
  - apply HC.
  - intros x Hx. rewrite (f_var _ _ F); [by apply HC|]. by repeat (apply elem_of_cons in Hx as [->|Hx]; [done|]); apply elem_of_nil in Hx.
  - rewrite (f_var _ _ F) by done. apply HC.
  - apply (f_list _ _ F), HC.
  - destruct g0 as [g0|]; [destruct E as (_ & E & _)|destruct E as [E _] ]; rewrite E; apply HC.
  - rewrite (f_sram _ _ F). apply HC.
  - apply (f_usr _ _ F), HC.
  - eapply ext_cbs; [done..|apply HC].
  - intros f. destruct g0 as [g0|]; [destruct E as (_ & _ & E & _)|destruct E as [E _] ].
    + intros Hf. destruct (E f Hf) as [Hf'|]; [by apply (ci_addon _ _ HC)|done].
    + rewrite E. apply HC.
Qed.
Lemma core_ext g0 s s' g :
  ext g0 s s' -> (forall f, f ∈ default [] g0 -> allowed s f) -> core s g -> core s' g.
Proof. intros He Hg [Hh HC]. split; [by rewrite (f_out _ _ (proj1 He))|by eapply cinv_ext]. Qed.
Lemma core_calm s s' g : ext None s s' -> core s g -> core s' g.
Proof. intros He. apply (core_ext None); [done|]. cbn. intros f Hf. by apply elem_of_nil in Hf. Qed.

Lemma running_ext g0 s s' g b : ext g0 s s' -> running s g b -> running s' g b.
Proof.
  intros [F _] (R1 & R2 & R3 & R4 & R5). split_and!.
  - by rewrite (f_var _ _ F).
  - done.
  - by apply (f_last _ _ F).
  - by rewrite (f_cmds _ _ F), (f_var _ _ F).
  - by rewrite (f_var _ _ F).
Qed.
Lemma quiet_calm s s' : ext None s s' -> quiet s -> quiet s'.
Proof. intros (F & E1 & E2). unfold quiet, di_enabled. by rewrite E1, E2, (f_irq _ _ F). Qed.

Lemma mu_ext g0 s s' g : ext g0 s s' -> (mu s' g <= mu s g)%nat.
Proof.
  intros [F _]. unfold mu, n16. rewrite (f_var _ _ F) by done. rewrite (f_cmds _ _ F).
  destruct (decide (dv s dvd_fatalerror = 0)); [|done].
  pose proof (f_chip _ _ F). destruct (chip s'), (chip s); lia.
Qed.
Lemma mu_le s g : (mu s g <= length (waiting g))%nat.
Proof. unfold mu, n16. destruct (decide (dv s dvd_fatalerror = 0)); [|done]. destruct (chip s); [|lia]. apply length_filter. Qed.

Lemma core_blk s g b : core s g -> running s g b -> is_Some (d_blk s !! b).
Proof. intros [_ HC] (_ & E & _). apply (ci_dom _ _ HC). by apply (ci_exec _ _ HC). Qed.

(** The facts a function starts with while a command runs. *)
Definition R (s : dvdst) (g : sched) (b : Z) : Prop := core s g /\ running s g b.
Lemma R_calm s s' g b : ext None s s' -> R s g b -> R s' g b.
Proof. intros He [H1 H2]. split; [by eapply core_calm|by eapply running_ext]. Qed.
Lemma R_sram s g b : R s g b -> snd (d_sram s) = false.
Proof. intros [ [_ HC] _]. apply HC. Qed.
Lemma R_blk s g b : R s g b -> is_Some (d_blk s !! b).
Proof. intros [? ?]. by eapply core_blk. Qed.

Lemma wp_b_get {X} (f : cmdblk -> X) b Q s :
  is_Some (d_blk s !! b) -> (forall x, d_blk s !! b = Some x -> Q (f x) s) -> wp (b_get f b) Q s.
Proof. intros [x Hx] HQ. eapply wp_getopt; [by rewrite Hx|]. by apply HQ. Qed.
Lemma wp_b_upd b f Q s :
  is_Some (d_blk s !! b) -> (forall x, b_cmd (f x) = b_cmd x) -> (forall s', ext None s s' -> Q tt s') -> wp (b_upd b f) Q s.
Proof.
  intros [x Hx] Hf HQ. unfold wp, b_upd. rewrite Hx. apply HQ. split; [|done]. constructor; try done.
  unfold cmds. cbn. rewrite fmap_insert, Hf. apply insert_id. by rewrite lookup_fmap, Hx.
Qed.
Lemma wp_exec_state st Q s b :
  dv s dvd_executing = b -> is_Some (d_blk s !! b) -> (forall s', ext None s s' -> Q tt s') -> wp (exec_state st) Q s.
Proof. intros Hb Hs HQ. apply wp_bind, wp_gets. rewrite Hb. by apply wp_b_upd. Qed.

(** A command was started. *)
Lemma leaf_post {X} (c : M dvdst X) G s g b :
  Leaf c (Some G) -> R s g b -> (forall f, f ∈ G -> allowed s f) -> wp c settled s.
Proof.
  intros Hc HR HG. eapply wp_leaf; [done|by eapply R_sram|]. intros a s' He. exists g. split; [|left; exists b].
  - eapply core_ext; [done..|apply HR].
  - eapply running_ext; [done|apply HR].
Qed.

(** ** The queues *)

Lemma wp_on_mem {X} (c : M mem X) Q s : wp c (fun a m => Q a (set_dmem m s)) (d_mem s) -> wp (on_mem c) Q s.
Proof. unfold wp, on_mem. by destruct (c (d_mem s)) as [ [? ?]|]. Qed.

(** Other queues, nothing else changed. *)
Lemma cinv_queues s g m' g' :
  cinv s g -> pools A P m' -> qs_repr A P m' (sc_q g') -> (forall b, b ∈ waiting g' -> b <> a_dummycmdblk A) ->
  (forall b, sc_exec g' = Some b -> b ∈ P /\ b <> a_dummycmdblk A /\ b ∉ waiting g') -> cinv (set_dmem m' s) g'.
Proof.
  intros HC Hp Hq Hd He. constructor; try done; try apply HC. intros Hw. by apply (Hd _ Hw).
Qed.
Lemma cinv_out s g l : cinv s g -> cinv (set_out l s) g.
Proof. intros HC. constructor; apply HC. Qed.
Lemma cinv_blks s g b x : cinv s g -> b ∈ P -> cinv (set_blks (<[b := x]> (d_blk s)) s) g.
Proof.
  intros HC Hb. constructor; try apply HC. intros c. cbn. rewrite lookup_insert_is_Some, (ci_dom _ _ HC).
  destruct (decide (b = c)) as [->|]; [|naive_solver]. rewrite <- (ci_dom _ _ HC). naive_solver.
Qed.
Lemma core_emit s g g' e : sched_run sched0 (d_out s) = Some g -> sched_step g e = Some g' -> cinv s g' -> core (set_out (d_out s ++ [e]) s) g'.
Proof. intros Hh Hs HC. split; [cbn; by rewrite (sched_run_snoc _ _ _ g)|by apply cinv_out]. Qed.

Lemma qs_len s g : cinv s g -> length (sc_q g) = 4%nat.
Proof. intros HC. apply (ci_qs _ _ HC). Qed.

Lemma push_ok s g prio b Q :
  core s g -> 0 <= prio < 4 -> b ∈ P -> b <> a_dummycmdblk A -> ~ pending g b ->
  (forall m', let s' := set_out (d_out s ++ [EvIssue prio b]) (set_dmem m' s) in
     core s' (mk_sched (sc_exec g) (alter (.++ [b]) (Z.to_nat prio) (sc_q g))) -> Q 1 s') ->
  wp (dvd_pushwaitingqueue A prio b) Q s.
Proof.
  intros [Hh HC] Hp Hb Hd Hn HQ. apply wp_bind, wp_on_mem. eapply wp_mono.
  { apply (qs_push A P); [apply HC|apply HC|done|done|]. intros Hin. apply Hn. by right. }
  cbn. intros _ m' [Hp' Hq']. apply wp_bind, wp_modify. apply HQ.
  assert (Hperm : concat (alter (.++ [b]) (Z.to_nat prio) (sc_q g)) ≡ₚ b :: waiting g)
    by (apply concat_push; rewrite (qs_len _ _ HC); lia).
  apply (core_emit (set_dmem m' s) g); [done|cbn; by rewrite decide_True|].
  apply (cinv_queues _ g); [done..| |].
  - intros c. unfold waiting. cbn. rewrite Hperm, elem_of_cons. intros [->|Hc] ->; [done|]. by apply (ci_dummy _ _ HC).
  - intros c Hc. cbn in Hc. destruct (ci_exec _ _ HC c Hc) as (? & ? & Hw). split_and!; [done..|].
    unfold waiting. cbn. rewrite Hperm, elem_of_cons. intros [->|?]; [|done]. apply Hn. by left.
Qed.

(** The searches of the two loops over the queues. *)
Lemma check_loop_ok s g n i Q :
  cinv s g -> (n + i = 4)%nat ->
  Q (negb (bool_decide (concat (drop i (sc_q g)) = []))) s -> wp (checkwaiting_loop A n (Z.of_nat i)) Q s.
Proof.
  intros HC. pose proof (qs_len _ _ HC) as Hl. revert i. induction n as [|n IH]; intros i Hn HQ.
  - rewrite drop_ge in HQ by lia. exact HQ.
  - destruct (lookup_lt_is_Some_2 (sc_q g) i) as [L HL]; [lia|].
    rewrite (drop_S _ L) in HQ by done. cbn [checkwaiting_loop]. apply wp_bind, wp_on_mem.
    eapply wp_mono; [apply (qs_isempty A P _ (sc_q g)); [apply HC|exact HL]|]. cbn. intros r m' [-> ->].
    replace (set_dmem (d_mem s) s) with s by by destruct s. destruct L as [|x L]; cbn in HQ |- *.
    + replace (Z.of_nat i + 1) with (Z.of_nat (S i)) by lia. apply IH; [lia|done].
    + done.
Qed.
Lemma check_ok s g Q : cinv s g -> Q (negb (bool_decide (waiting g = []))) s -> wp (dvd_checkwaitingqueue A) Q s.
Proof. intros HC HQ. apply (check_loop_ok s g 4 0 Q HC); done. Qed.

Lemma pop_loop_ok s g n i b l Q j :
  cinv s g -> (n + i = 4)%nat -> (i <= j)%nat -> sc_q g !! j = Some (b :: l) ->
  (forall k, (i <= k < j)%nat -> sc_q g !! k = Some []) ->
  (forall m', pools A P m' -> qs_repr A P m' (<[j := l]> (sc_q g)) -> Q b (set_dmem m' s)) -> wp (popwaiting_loop A n (Z.of_nat i)) Q s.
Proof.
  intros HC. pose proof (qs_len _ _ HC) as Hl. revert i. induction n as [|n IH]; intros i Hn Hij Hj Hk HQ.
  - apply lookup_lt_Some in Hj. lia.
  - cbn [popwaiting_loop]. apply wp_bind, wp_on_mem. destruct (decide (i = j)) as [->|Hne].
    + eapply wp_mono; [apply (qs_isempty A P _ (sc_q g)); [apply HC|exact Hj]|]. cbn. intros r m' [-> ->].
      replace (set_dmem (d_mem s) s) with s by by destruct s. cbn.
      apply wp_on_mem. eapply wp_mono; [apply (qs_first A P); [apply HC|apply HC|exact Hj]|]. cbn. intros r m' (-> & ? & ?). by apply HQ.
    + eapply wp_mono; [apply (qs_isempty A P _ (sc_q g)); [apply HC|apply Hk; lia]|]. cbn. intros r m' [-> ->].
      replace (set_dmem (d_mem s) s) with s by by destruct s. cbn.
      replace (Z.of_nat i + 1) with (Z.of_nat (S i)) by lia. apply IH; [lia|lia|done| |done]. intros k Hkk. apply Hk. lia.
Qed.

(** The next command is taken and becomes the one that runs. *)
Lemma pop_ok {X} s g (k : Z -> M dvdst X) Q :
  core s g -> sc_exec g = None -> waiting g <> [] ->
  (forall b qs m', sc_pop (sc_q g) = Some (b, qs) -> b ∈ P -> b <> a_dummycmdblk A ->
     let s' := set_out (d_out s ++ [EvStart b]) (set_vars (fupd (dv s) dvd_executing b) (set_dmem m' s)) in
     core s' (mk_sched (Some b) qs) -> wp (k b) Q s') ->
  wp (block <- dvd_popwaitingqueue A; setv dvd_executing block;; emit (EvStart block);; k block) Q s.
Proof.
  intros [Hh HC] He Hw HQ. destruct (sc_pop (sc_q g)) as [ [b qs]|] eqn:Ep; [|by apply sc_pop_none in Ep].
  pose proof (sc_pop_spec _ _ _ Ep) as (j & l & Hj & -> & Hbefore).
  destruct (concat_pop _ _ _ Ep) as [Hperm _]. apply wp_bind. unfold dvd_popwaitingqueue.
  apply (pop_loop_ok s g 4 0 b l _ j HC); [done|lia|done|intros i Hi; apply Hbefore; lia|].
  intros m' Hp Hq. apply wp_bind, wp_modify, wp_bind, wp_modify.
  assert (Hb : b ∈ waiting g) by (unfold waiting; rewrite Hperm; by left).
  assert (HbP : b ∈ P) by (by apply (ci_qs _ _ HC)).
  assert (Hbd : b <> a_dummycmdblk A) by (intros ->; by apply (ci_dummy _ _ HC)).
  assert (Hnd : NoDup (b :: concat (<[j:=l]> (sc_q g)))) by (rewrite <- Hperm; apply (ci_qs _ _ HC)).
  apply NoDup_cons in Hnd as [Hnb _].
  apply (HQ b _ m' eq_refl HbP Hbd). cbv zeta.
  apply (core_emit (set_vars (fupd (dv s) dvd_executing b) (set_dmem m' s)) g).
  - done.
  - cbn. rewrite Ep. cbn. by rewrite decide_True.
  - assert (HC' : cinv (set_dmem m' s) (mk_sched (Some b) (<[j:=l]> (sc_q g)))).
    { apply (cinv_queues _ g); [done..| |].
      - intros c Hc ->. apply (ci_dummy _ _ HC). unfold waiting. rewrite Hperm. by right.
      - intros c [= <-]. by split_and!. }
    constructor; try apply HC'; cbn.
    intros x Hx. rewrite fupd_ne; [by apply HC|]. intros ->. set_solver.
Qed.

Lemma clear_ok {X} s g (k : M dvdst X) Q :
  core s g ->
  (forall m', let s' := set_out (d_out s ++ [EvDrop]) (set_dmem m' s) in
     core s' (mk_sched (sc_exec g) (sc_q sched0)) -> wp k Q s') ->
  wp (dvd_clearwaitingqueue A;; emit EvDrop;; k) Q s.
Proof.
  intros [Hh HC] HQ. apply wp_bind, wp_on_mem. eapply wp_mono; [apply (qs_clear A P _ (sc_q g)); apply HC|].
  cbn. intros _ m' [Hp Hq]. apply wp_bind, wp_modify. apply HQ. apply (core_emit (set_dmem m' s) g); [done..|].
  apply (cinv_queues _ g); [done..| |].
  - intros b Hb. by apply elem_of_nil in Hb.
  - intros b Hb. destruct (ci_exec _ _ HC b Hb) as (? & ? & _). split_and!; [done..|apply not_elem_of_nil].
Qed.
End Safe.
