(* ===== verification/DvdSafe.v ===== *)
(** * The optical drive's driver never goes wrong

    Every function of [Dvd] keeps the invariant of [DvdInv], does not fault and
    returns within the turns of the circle that [cost] allows it. *)

From stdpp Require Import base gmap list.
From Stdlib Require Import ZArith Lia.
From S2P Require Import Prelude Chain LwpQueue Devices KState Clock Irq DspDev DvdPatch DvdState Dvd DvdSpec DvdProofs DvdInv.

Open Scope Z_scope.

Section Safe.
Context `{DvdHw} (A : dvdmap) (con : console) (client : Z -> Z -> Z -> list dvdreq) (P : list Z).
Context (Hdummy : a_dummycmdblk A ∈ P) (Hnull : NULL ∉ P) (Hclient : client_ok client).
Local Abbreviation core := (core A P).
Local Abbreviation between := (between A P).
Local Abbreviation R := (R A P).
Local Abbreviation settled := (settled A P).

(** ** Issuing a command, and callbacks *)

(** Nothing changed but the history, the queues and the blocks. *)
Definition after (s : dvdst) (g : sched) (s' : dvdst) (g' : sched) : Prop :=
  d_cb s' = d_cb s /\ d_alarm s' = d_alarm s /\ d_irq s' = d_irq s /\ (d_last s <> None -> d_last s' <> None) /\
  (forall x, keyvar x = true -> x <> dvd_executing -> dv s' x = dv s x) /\ (mu s' g' <= mu s g)%nat.

Lemma after_refl s g : after s g s g.
Proof. by split_and!. Qed.
Lemma after_trans s1 g1 s2 g2 s3 g3 : after s1 g1 s2 g2 -> after s2 g2 s3 g3 -> after s1 g1 s3 g3.
Proof.
  intros (A1 & A2 & A3 & A4 & A5 & A6) (B1 & B2 & B3 & B4 & B5 & B6). split_and!; [congruence|congruence|congruence|auto| |lia].
  intros x Hx Hx'. by rewrite B5, A5.
Qed.
Lemma after_calm s s' g : ext None s s' -> after s g s' g.
Proof.
  intros He. pose proof He as (F & E1 & E2). split_and!; [done|done|apply F|apply F|intros x Hx _; by apply F|by eapply mu_ext].
Qed.
Lemma after_quiet s g s' g' : after s g s' g' -> quiet s -> quiet s'.
Proof. intros (E1 & E2 & E3 & _). unfold quiet, di_enabled. by rewrite E1, E2, E3. Qed.

Lemma between_calm s s' g : ext None s s' -> between s g -> between s' g.
Proof.
  intros He (H1 & H2 & H3). split_and!; [by eapply core_calm|done|]. by rewrite (f_var _ _ (proj1 He)).
Qed.

Lemma filter_cmds (m m' : gmap Z Z) (l : list Z) :
  (forall c, c ∈ l -> m !! c = m' !! c) -> filter (fun c => m !! c = Some 0x10) l = filter (fun c => m' !! c = Some 0x10) l.
Proof.
  induction l as [|c l IH]; intros Hl; [done|]. rewrite !filter_cons, IH by (intros; apply Hl; by right).
  rewrite (Hl c) by (by left). done.
Qed.

(** A command joins its queue. *)
Lemma issue_push go s g b x prio Q :
  core s g -> b ∈ P -> b <> a_dummycmdblk A -> ~ pending g b -> 0 <= prio < 4 ->
  (forall s' g', core s' g' -> sc_exec g' = sc_exec g -> dv s' = dv s -> d_cb s' = d_cb s -> d_alarm s' = d_alarm s ->
     d_irq s' = d_irq s -> d_last s' = d_last s -> dom (d_blk s') = dom (d_blk s) ->
     (forall c, c <> b -> cmds s' !! c = cmds s !! c) ->
     (dv s dvd_fatalerror = 0 -> (b_cmd x = 0x10 -> chip s = false) -> (mu s' g' <= mu s g)%nat) ->
     if decide (dv s dvd_executing = NULL) then wp (go ActReady) (fun _ => Q 1) s' else Q 1 s') ->
  wp (issuecommand A go prio b) Q (set_blks (<[b := x]> (d_blk s)) s).
Proof.
  intros [Hh HC] Hb Hbd Hn Hp HQ. apply wp_bind. unfold wp, b_upd. cbn [d_blk set_blks]. rewrite lookup_insert_eq. cbn.
  rewrite insert_insert_eq. set (y := set_bstate 2 x).
  apply (wp_bind (dvd_pushwaitingqueue A prio b)). eapply (push_ok A P _ g); try done.
  { split; [done|]. by apply (cinv_blks A P s g b y). }
  intros m' s' Hcore. apply wp_bind, wp_gets. set (g' := mk_sched _ _) in Hcore. specialize (HQ s' g' Hcore eq_refl eq_refl).
  assert (Hperm : waiting g' ≡ₚ b :: waiting g) by (apply concat_push; rewrite (qs_len A P _ _ HC); lia).
  specialize (HQ eq_refl eq_refl eq_refl eq_refl).
  assert (HbS : is_Some (d_blk s !! b)) by (by apply (ci_dom _ _ _ _ HC)).
  specialize (HQ ltac:(cbn; rewrite dom_insert_lookup_L by done; done)).
  assert (Hcm : forall c, c <> b -> cmds s' !! c = cmds s !! c).
  { intros c Hc. unfold cmds. cbn. by rewrite !lookup_fmap, lookup_insert_ne by congruence. }
  specialize (HQ Hcm). apply wp_bind. change (dv s' dvd_executing) with (dv s dvd_executing).
  assert (Hmu : dv s dvd_fatalerror = 0 -> (b_cmd x = 0x10 -> chip s = false) -> (mu s' g' <= mu s g)%nat).
  { intros Hf Hx. unfold mu. change (dv s' dvd_fatalerror) with (dv s dvd_fatalerror). rewrite !decide_True by done.
    change (chip s') with (chip s). destruct (chip s) eqn:Ec; [|lia]. unfold n16. rewrite Hperm.
    rewrite filter_cons_False.
    - rewrite (filter_cmds (cmds s') (cmds s)); [done|]. intros c Hc. apply Hcm. intros ->. apply Hn. by right.
    - unfold cmds. cbn. rewrite lookup_fmap, lookup_insert_eq. cbn. intros [= E]. by specialize (Hx E). }
  specialize (HQ Hmu). destruct (decide (dv s dvd_executing = NULL)) as [E|E].
  - rewrite E. cbn. eapply wp_mono; [exact HQ|]. intros [] s2 H2. by apply wp_ret.
  - rewrite (proj2 (Z.eqb_neq _ _) E). apply wp_ret, wp_ret. exact HQ.
Qed.

Lemma wp_b_set b f (Q : unit -> dvdst -> Prop) s :
  is_Some (d_blk s !! b) -> (forall x, Q tt (set_blks (<[b := f x]> (d_blk s)) s)) -> wp (b_upd b f) Q s.
Proof. intros [x Hx] HQ. unfold wp, b_upd. rewrite Hx. apply HQ. Qed.

(** Whatever is asked, the block is filled in and issued. *)
Lemma issue_req_ok go s g q Q :
  core s g -> rq_blk q ∈ P -> op_ok (rq_op q) -> Q 0 s ->
  (forall s0 x prio, ext None s s0 -> 0 <= prio < 4 -> (b_cmd x = 0x10 -> chip s0 = false) ->
     wp (issuecommand A go prio (rq_blk q)) Q (set_blks (<[rq_blk q := x]> (d_blk s0)) s0)) ->
  wp (issue_req A go q) Q s.
Proof.
  intros Hc Hb Hop H0 HQ. destruct q as [b op cb]. cbn in *. assert (Hbn : b <> NULL) by (by intros ->).
  assert (Hblk : forall s0, ext None s s0 -> is_Some (d_blk s0 !! b)).
  { intros s0 He. apply (ci_dom A P s0 g); [|done]. eapply core_calm; eauto. }
  pose proof (ext_refl None s) as Hr.
  assert (Hset : forall f prio, (forall x, b_cmd (f x) <> 0x10) -> 0 <= prio < 4 ->
            wp (b_upd b f;; issuecommand A go prio b) Q s).
  { intros f prio Hf Hp. apply wp_bind, wp_b_set; [by apply Hblk|]. intros x. apply HQ; [done|done|]. intros E. by apply Hf in E. }
  destruct op; cbn; unfold issue_req; cbn [rq_blk rq_op rq_cb].
  - unfold DVD_ReadDiskID. rewrite (proj2 (Z.eqb_neq _ _) Hbn). destruct (id =? NULL); [done|]. by apply Hset.
  - by apply Hset.
  - by apply Hset.
  - by apply Hset.
  - by apply Hset.
  - by apply Hset.
  - unfold DVD_SpinUpDriveAsync. apply wp_bind. eapply wp_mono; [apply reset_clears; apply Hc|]. cbn. intros _ s0 [He Hchip].
    apply wp_bind, wp_b_set; [by apply Hblk|]. intros x. by apply HQ.
  - by apply Hset.
  - by apply Hset.
  - unfold DVDAudioBufferConfig. rewrite (proj2 (Z.eqb_neq _ _) Hbn). by apply Hset.
Qed.

(** A command issued by a callback only joins its queue. *)
Lemma issue_between go s g q :
  between s g -> rq_blk q ∈ P -> rq_blk q <> a_dummycmdblk A -> ~ pending g (rq_blk q) -> op_ok (rq_op q) ->
  dv s dvd_fatalerror = 0 ->
  wp (issue_req A go q) (fun _ s' => exists g', between s' g' /\ after s g s' g') s.
Proof.
  intros Hbt Hb Hbd Hn Hop Hf. pose proof Hbt as (Hc & He & Hx).
  apply (issue_req_ok go s g); [done..| |].
  - exists g. split; [done|apply after_refl].
  - intros s0 x prio Hext Hp Hch. pose proof (between_calm _ _ _ Hext Hbt) as (Hc0 & _ & Hx0).
    apply (issue_push go s0 g); [done..|]. intros s' g' Hc' He' Hdv Hcb Hal Hirq Hlast _ _ Hmu.
    assert (Hf0 : dv s0 dvd_fatalerror = 0) by (by rewrite (f_var _ _ (proj1 Hext))).
    rewrite decide_False by (rewrite Hx0; by apply (exec_dummy_ne A P)). exists g'. split.
    + split_and!; [done|by rewrite He'|by rewrite Hdv].
    + apply (after_trans s g s0 g); [by apply after_calm|].
      split_and!; [done|done|done|by rewrite Hlast|by rewrite Hdv|by apply Hmu].
Qed.

Definition fail_fatal (s : dvdst) (r : Z) : Prop := dv s dvd_fatalerror <> 0 -> r = -1.

Lemma call_user_ok go s g cb r b :
  between s g -> b ∈ P -> b <> a_dummycmdblk A -> ~ pending g b -> fail_fatal s r ->
  wp (call_user A client go cb r b) (fun _ s' => exists g', between s' g' /\ after s g s' g' /\ (r = -1 -> g' = g)) s.
Proof.
  intros Hbt Hb Hbd Hn Hf. apply wp_bind, wp_modify. set (s1 := set_out _ s).
  assert (Hbt1 : between s1 g).
  { destruct Hbt as ([Hh HC] & H2 & H3). split_and!; [by apply (core_emit A P s g)|done..]. }
  assert (Ha1 : after s g s1 g) by (by split_and!). destruct (is_synccb A cb).
  - apply wp_modify. exists g. split_and!; [|apply (after_trans s g s1 g); [done|]; by split_and!|done].
    apply (between_calm s1); [|done]. split; [by constructor|done].
  - destruct (Hclient cb r b) as [Hq1 [Ecl|(q & Ecl & <- & Hop)] ]; rewrite Ecl in *.
    + apply wp_ret. exists g. done.
    + assert (Hr : r <> -1) by (intros Hr; by specialize (Hq1 Hr)).
      cbn [issue_all]. apply wp_bind. eapply wp_mono.
      { apply (issue_between go s1 g q Hbt1 Hb Hbd Hn Hop). destruct (decide (dv s dvd_fatalerror = 0)) as [|Hne]; [done|].
        by specialize (Hf Hne). }
      intros _ s2 (g2 & Hb2 & Ha2). apply wp_ret. exists g2. split_and!; [done|by eapply after_trans|done].
Qed.

Lemma call_mount_ok go s g r b :
  between s g -> b ∈ P -> b <> a_dummycmdblk A -> ~ pending g b -> fail_fatal s r ->
  wp (call_mount A client go r b) (fun _ s' => exists g', between s' g' /\ after s g s' g' /\ (r = -1 -> g' = g)) s.
Proof.
  intros Hbt Hb Hbd Hn Hf. apply wp_bind, wp_gets, wp_when; intros _; [by apply call_user_ok|].
  exists g. split_and!; [done|apply after_refl|done].
Qed.

Lemma issue_req_id go b id cb : issue_req A go (mk_req b (OpReadDiskID id) cb) = DVD_ReadDiskID A go b id cb.
Proof. reflexivity. Qed.
Lemma issue_req_spinup go b cb : issue_req A go (mk_req b OpSpinUpDrive cb) = DVD_SpinUpDriveAsync A go b cb.
Proof. reflexivity. Qed.

Lemma leaf_copy_id : Leaf copy_id None.
Proof. apply leaf_simple. intros s. by split_and!. Qed.

Lemma call_cb_ok go s g cb r b :
  between s g -> b ∈ P -> b <> a_dummycmdblk A -> ~ pending g b -> fail_fatal s r ->
  wp (call_cb A client go cb r b) (fun _ s' => exists g', between s' g' /\ after s g s' g' /\ (r = -1 -> g' = g)) s.
Proof.
  intros Hbt Hb Hbd Hn Hf. unfold call_cb. destruct (cb =? a_callback A); [|by apply call_user_ok].
  unfold callback. destruct (Z.eqb_spec r 0) as [->|]; [|destruct (Z.eqb_spec r (-4)) as [->|] ].
  - apply wp_bind. eapply wp_mono.
    { rewrite <- issue_req_id. apply (issue_between go s g (mk_req b (OpReadDiskID (a_tmpid0 A)) (a_callback A))); try done.
      destruct (decide (dv s dvd_fatalerror = 0)) as [|Hne]; [done|]. by specialize (Hf Hne). }
    cbn. intros _ s' (g' & ? & ?). apply wp_ret. by exists g'.
  - apply wp_bind. eapply wp_mono.
    { rewrite <- issue_req_spinup. apply (issue_between go s g (mk_req b OpSpinUpDrive (a_callback A))); try done.
      destruct (decide (dv s dvd_fatalerror = 0)) as [|Hne]; [done|]. by specialize (Hf Hne). }
    cbn. intros _ s' (g' & ? & ?). apply wp_ret. by exists g'.
  - apply wp_bind. eapply (wp_leaf _ None); [apply leaf_when, leaf_copy_id|apply Hbt|]. intros _ s1 He.
    assert (Hf1 : fail_fatal s1 r) by (unfold fail_fatal; by rewrite (f_var _ _ (proj1 He))).
    eapply wp_mono; [apply (call_mount_ok go s1 g); [by eapply between_calm|done..]|].
    cbn. intros _ s' (g' & ? & ? & ?). exists g'. split_and!; [done| |done]. eapply after_trans; [by apply after_calm|done].
Qed.

(** The running command is over. *)
Lemma complete_ok go s g b st result :
  core s g -> dv s dvd_executing = b -> sc_exec g = Some b ->
  (dv s dvd_fatalerror <> 0 -> forall x, s32 (result x) = -1) ->
  wp (complete A client go st result)
    (fun a s' => a = b /\ exists g', between s' g' /\ after s g s' g' /\
       ((forall x, s32 (result x) = -1) -> g' = mk_sched None (sc_q g))) s.
Proof.
  intros [Hh HC] Hb He Hfat. destruct (ci_exec _ _ _ _ HC b He) as (HbP & Hbd & Hbw).
  apply wp_bind, wp_gets, wp_bind, wp_modify. rewrite Hb. set (s1 := set_vars _ s).
  assert (HC1 : cinv A P s1 g).
  { constructor; try apply HC. intros x Hx. unfold s1. cbn. rewrite fupd_ne; [by apply HC|]. intros ->. set_solver. }
  assert (HbS : is_Some (d_blk s1 !! b)) by (by apply (ci_dom _ _ _ _ HC)).
  assert (Ha1 : after s g s1 g).
  { split_and!; try done. intros x Hx Hx'. unfold s1. cbn. by apply fupd_ne. }
  apply wp_bind. apply (wp_mono _ (fun _ s2 => ext None s1 s2)).
  { destruct st as [st|]; [|by apply wp_ret, ext_refl]. by apply wp_b_upd. }
  intros _ s2 He2. assert (Hc2 : core s2 g) by (apply (core_calm A P s1); [done|by split]).
  assert (HbS2 : is_Some (d_blk s2 !! b)) by (by apply (ci_dom _ _ _ _ (proj2 Hc2))).
  apply wp_bind, wp_b_get; [done|]. intros x Hx. apply wp_bind, wp_b_get; [done|]. intros x' Hx'.
  apply wp_bind, wp_modify. set (s3 := set_out _ s2). set (g3 := mk_sched None (sc_q g)).
  assert (Hbt3 : between s3 g3).
  { split_and!; [|done|].
    - apply (core_emit A P s2 g); [apply Hc2|cbn; by rewrite decide_True|].
      destruct (proj2 Hc2). constructor; try done.
    - unfold s3. cbn. rewrite (f_var _ _ (proj1 He2)) by done. unfold s1. cbn. apply fupd_eq. }
  assert (Ha3 : after s g s3 g3).
  { apply (after_trans s g s1 g); [done|]. apply (after_trans s1 g s2 g); [by apply after_calm|]. by split_and!. }
  assert (Hff : fail_fatal s3 (s32 (result x'))).
  { intros Hn. apply Hfat. destruct Ha3 as (_ & _ & _ & _ & Hv & _). by rewrite (Hv dvd_fatalerror) in Hn. }
  apply wp_bind, (wp_mono _ (fun _ s' => exists g', between s' g' /\ after s g s' g' /\ (s32 (result x') = -1 -> g' = g3))).
  - apply wp_when; intros _.
    + eapply wp_mono; [apply (call_cb_ok go s3 g3); try done|].
      * unfold pending. cbn. intros [?|?]; [done|]. by apply Hbw.
      * cbn. intros _ s' (g' & ? & ? & ?). exists g'. split_and!; [done|by eapply after_trans|done].
    + by exists g3.
  - cbn. intros _ s' (g' & ? & ? & Hg). apply wp_ret. split; [done|]. exists g'. split_and!; [done|done|]. intros Hall. by apply Hg.
Qed.

(** ** The circle *)

Definition leafy (s : dvdst) : bool := (dv s dvd_drivechecked =? 0) || negb (chip s).
Definition spin_need (f : option lowfn) (s : dvdst) (g : sched) : nat :=
  if leafy s then 1 else if decide (f = Some Fn_statebusycb) then 3 * mu s g + 4 else 3 * mu s g + 6.
Definition top_need (g : sched) : nat := 3 * length (waiting g) + 8.
Definition cost (a : act) (s : dvdst) (g : sched) : nat :=
  match a with
  | ActReady => 3 * mu s g + 2
  | ActLow f r =>
      if decide (r = 1) then
        match f with
        | Fn_spinupdrivecb => spin_need (d_cb s dvd_finalsudcb) s g
        | Fn_statebusycb => 3 * mu s g + 3
        | Fn_stateretrycb => 3 * mu s g + 5
        | Fn_statecoverclosed_spinupcb => 1
        | _ => top_need g
        end
      else top_need g
  end.
Definition pre (a : act) (s : dvdst) (g : sched) : Prop :=
  quiet s /\ match a with ActReady => core s g /\ sc_exec g = None | ActLow f _ => (exists b, R s g b) /\ allowed s f end.
Definition go_ok (n : nat) (go : act -> M dvdst unit) : Prop :=
  forall a s g, pre a s g -> (cost a s g <= n)%nat -> wp (go a) settled s.

Lemma spin_need_ext f g0 s s' g : ext g0 s s' -> (spin_need f s' g <= spin_need f s g)%nat.
Proof.
  intros He. pose proof (mu_ext _ _ _ g He). unfold spin_need, leafy. rewrite (f_var _ _ (proj1 He)) by done.
  pose proof (f_chip _ _ (proj1 He)) as Hch. destruct (dv s dvd_drivechecked =? 0); [done|]. rewrite !orb_false_l.
  destruct (chip s').
  - rewrite (Hch eq_refl). cbn [negb]. destruct (decide _); lia.
  - destruct (chip s); cbn [negb]; [destruct (decide _); lia|lia].
Qed.
Lemma spin_need_busy s g : (spin_need (Some Fn_statebusycb) s g <= 3 * mu s g + 4)%nat.
Proof. unfold spin_need. destruct (leafy s); [lia|]. rewrite decide_True by done. done. Qed.
Lemma spin_need_any f s g : (spin_need f s g <= 3 * mu s g + 6)%nat.
Proof. unfold spin_need. destruct (leafy s); [lia|]. destruct (decide _); lia. Qed.

Lemma set_sud s f :
  f ∈ sudfins -> (forall x h, d_cb s x = Some h -> allowed s h) ->
  forall x h, fupd (d_cb s) dvd_finalsudcb (Some f) x = Some h -> allowed (set_cbs (fupd (d_cb s) dvd_finalsudcb (Some f)) s) h.
Proof.
  intros Hf Hs x h Hx. split.
  - destruct (decide (x = dvd_finalsudcb)) as [->|]; [|rewrite fupd_ne in Hx by done; by apply (Hs x)].
    rewrite fupd_eq in Hx. injection Hx as <-. intros ->. clear -Hf. set_solver.
  - intros _. exists f. by rewrite <- (fupd_eq (d_cb s) dvd_finalsudcb (Some f)).
Qed.
Lemma R_sud s g b f : f ∈ sudfins -> R s g b -> R (set_cbs (fupd (d_cb s) dvd_finalsudcb (Some f)) s) g b.
Proof.
  intros Hf [ [Hh HC] Hr]. split; [|done]. split; [done|]. destruct HC. constructor; try done.
  intros x h Hx. by apply (set_sud s f Hf ci_cbs x h).
Qed.
Lemma quiet_sud s f : quiet s -> quiet (set_cbs (fupd (d_cb s) dvd_finalsudcb f) s).
Proof. unfold quiet. cbn. by rewrite fupd_ne. Qed.

Section Circle.
Context (n : nat) (go : act -> M dvdst unit) (Hgo : go_ok n go).

Lemma ready_ok s g : core s g -> sc_exec g = None -> quiet s -> (3 * mu s g + 2 <= n)%nat -> wp (stateready go) settled s.
Proof. intros Hc He Hq Hn. by apply (Hgo ActReady s g). Qed.

Lemma next_ok s g b st result :
  core s g -> dv s dvd_executing = b -> sc_exec g = Some b ->
  (dv s dvd_fatalerror <> 0 -> forall x, s32 (result x) = -1) -> quiet s -> (3 * mu s g + 2 <= n)%nat ->
  wp (finish A client go st result) settled s.
Proof.
  intros Hc Hb He Hf Hq Hn. apply wp_bind. eapply wp_mono; [by apply (complete_ok go s g b)|].
  cbn. intros a s' (_ & g' & (Hc' & He' & _) & Ha & _). apply (ready_ok s' g'); [done|done|by eapply after_quiet|].
  destruct Ha as (_ & _ & _ & _ & _ & Hmu). lia.
Qed.
Lemma finish_R s g b st result :
  R s g b -> quiet s -> (3 * mu s g + 2 <= n)%nat -> wp (finish A client go st result) settled s.
Proof. intros [Hc (Hb & He & _ & _ & Hf)]. apply (next_ok s g b); [done..|]. intros Hne. by rewrite Hf in Hne. Qed.

Lemma no_cancel s g pt (Q : bool -> dvdst -> Prop) : core s g -> Q false s -> wp (dvd_checkcancel A client go pt) Q s.
Proof.
  intros [_ HC] HQ. apply wp_bind, wp_gets. rewrite (ci_vars _ _ _ _ HC); [done|]. by left.
Qed.

Lemma spin_ok s g b f :
  R s g b -> quiet s -> f ∈ sudfins -> (spin_need (Some f) s g <= n)%nat -> wp (DVD_LowSpinUpDrive go (Some f)) settled s.
Proof.
  intros HR Hq Hf Hn. apply wp_bind, wp_modify. set (s' := set_cbs _ s).
  apply (Hgo (ActLow Fn_spinupdrivecb 1) s' g).
  - split; [by apply quiet_sud|]. split; [exists b; by apply R_sud|]. split; [done|]. intros _. exists f. split; [|done].
    apply fupd_eq.
  - cbn. unfold s'. cbn. rewrite fupd_eq. exact Hn.
Qed.

Lemma R_allowed s g b x f : R s g b -> d_cb s x = Some f -> allowed s f.
Proof. intros [ [_ HC] _]. apply HC. Qed.

(** *** Steps while a command runs

    [RQ]: the command [b] runs, nothing is armed, and at most [N] commands
    complete before the driver returns. *)
Definition RQ (s : dvdst) (g : sched) (b : Z) (N : nat) : Prop := R s g b /\ quiet s /\ (mu s g <= N)%nat.

Lemma RQ_calm s s' g b N : ext None s s' -> RQ s g b N -> RQ s' g b N.
Proof.
  intros He (H1 & H2 & H3). pose proof (mu_ext _ _ _ g He). split_and!; [by eapply R_calm|by eapply quiet_calm|lia].
Qed.

Section Steps.
Context {Y : Type} (Q : Y -> dvdst -> Prop) (s : dvdst) (g : sched) (b : Z) (N : nat) (HR : RQ s g b N).

Lemma rq_leaf {X} (c : M dvdst X) (k : X -> M dvdst Y) :
  Leaf c None -> (forall a s', ext None s s' -> RQ s' g b N -> wp (k a) Q s') -> wp (bind c k) Q s.
Proof.
  intros Hc HQ. apply wp_bind. eapply wp_leaf; [exact Hc|eapply R_sram, HR|]. intros a s' He. apply HQ; [done|by eapply RQ_calm].
Qed.
Lemma rq_getv x (k : Z -> M dvdst Y) : wp (k (dv s x)) Q s -> wp (bind (getv x) k) Q s.
Proof. intros HQ. by apply wp_bind, wp_gets. Qed.
Lemma rq_executing (k : Z -> M dvdst Y) : wp (k b) Q s -> wp (bind (getv dvd_executing) k) Q s.
Proof. intros HQ. apply rq_getv. destruct HR as ( [_ [-> _] ] & _). done. Qed.
Lemma rq_bget {X} (f : cmdblk -> X) (k : X -> M dvdst Y) :
  (forall x, d_blk s !! b = Some x -> wp (k (f x)) Q s) -> wp (bind (b_get f b) k) Q s.
Proof. intros HQ. apply wp_bind, wp_b_get; [eapply R_blk, HR|done]. Qed.
Lemma rq_bupd f (k : unit -> M dvdst Y) :
  (forall x, b_cmd (f x) = b_cmd x) -> (forall s', ext None s s' -> RQ s' g b N -> wp (k tt) Q s') -> wp (bind (b_upd b f) k) Q s.
Proof.
  intros Hf HQ. apply wp_bind, wp_b_upd; [eapply R_blk, HR|done|]. intros s' He. apply HQ; [done|by eapply RQ_calm].
Qed.
Lemma rq_exec_state st (k : unit -> M dvdst Y) :
  (forall s', ext None s s' -> RQ s' g b N -> wp (k tt) Q s') -> wp (bind (exec_state st) k) Q s.
Proof.
  intros HQ. apply wp_bind, (wp_exec_state _ _ _ b); [apply HR|eapply R_blk, HR|]. intros s' He. apply HQ; [done|by eapply RQ_calm].
Qed.
End Steps.

Lemma leaf_laststate st : Leaf (modify (set_laststate (Some st))) None.
Proof. apply leaf_modify. intros s. split; [by constructor|done]. Qed.

Lemma rq_end {X} (c : M dvdst X) G s g b N :
  RQ s g b N -> Leaf c (Some G) -> (forall f, f ∈ G -> allowed s f) -> wp c settled s.
Proof. intros HR Hc HG. by eapply leaf_post; [exact Hc|apply HR|]. Qed.

Lemma settled_R {X} (a : X) s g b N : RQ s g b N -> settled a s.
Proof. intros ( [? ?] & _). exists g. split; [done|]. left. by exists b. Qed.

End Circle.
End Safe.

Ltac plain_allowed :=
  let f := fresh "f" in let Hf := fresh "Hf" in
  intros f Hf; apply allowed_plain; cbn in Hf; clear -Hf; set_solver.
