(* ===== verification/DvdCircle.v ===== *)
(** * Every turn of the circle keeps the invariant

    The functions that [Dvd] writes over [go], each under the assumption that the
    calls it makes through [go] go well, and [exec], which closes the circle. *)

From stdpp Require Import base gmap list.
From Stdlib Require Import ZArith Lia.
From S2P Require Import Prelude Chain LwpQueue Devices KState Clock Irq DspDev DvdPatch DvdState Dvd DvdSpec DvdProofs DvdInv DvdSafe.

Open Scope Z_scope.

Ltac rq_step :=
  lazymatch goal with
  | HR : RQ _ _ ?s _ _ _ |- wp (bind (getv dvd_executing) _) _ ?s => eapply rq_executing; [exact HR|]; cbv beta
  | |- wp (bind (getv _) _) _ _ => apply rq_getv; cbv beta
  | HR : RQ _ _ ?s _ _ _ |- wp (bind (b_get _ _) _) _ ?s => eapply rq_bget; [exact HR|]; intros ?x ?Hx; cbv beta
  | HR : RQ _ _ ?s _ _ _ |- wp (bind (b_upd _ _) _) _ ?s =>
      eapply rq_bupd; [exact HR|done|]; let s' := fresh "s" in let He := fresh "He" in let HR' := fresh "HR" in intros s' He HR'
  | HR : RQ _ _ ?s _ _ _ |- wp (bind (exec_state _) _) _ ?s =>
      eapply rq_exec_state; [exact HR|]; let s' := fresh "s" in let He := fresh "He" in let HR' := fresh "HR" in intros s' He HR'
  | |- wp (bind (ret _) _) _ _ => apply wp_bind, wp_ret; cbv beta
  | HR : RQ _ _ ?s _ _ _ |- wp (bind (modify (set_laststate (Some _))) _) _ ?s =>
      eapply rq_leaf; [exact HR|apply leaf_laststate|];
      let s' := fresh "s" in let He := fresh "He" in let HR' := fresh "HR" in intros ? s' He HR'
  | HR : RQ _ _ ?s _ _ _ |- wp (bind _ _) _ ?s =>
      eapply rq_leaf; [exact HR|leaf_atom|];
      let s' := fresh "s" in let He := fresh "He" in let HR' := fresh "HR" in intros ? s' He HR'; cbv beta
  | |- wp (if ?b then _ else _) _ _ => destruct b eqn:?
  | HR : RQ _ _ ?s _ _ _ |- wp (ret _) _ ?s => apply wp_ret; eapply settled_R; exact HR
  end.
Ltac rq := repeat rq_step.

(** The end of a function that starts a command. *)
Ltac rq_low L :=
  lazymatch goal with
  | HR : RQ _ _ ?s _ _ _ |- wp _ _ ?s => eapply rq_end; [exact HR|apply L|plain_allowed]
  end.

Ltac rq_any :=
  lazymatch goal with
  | |- wp (DVD_LowRead _ _ _ ?cb) _ _ => rq_low (leaf_LowRead cb)
  | |- wp (DVD_LowSeek _ ?cb) _ _ => rq_low (leaf_LowSeek cb)
  | |- wp (DVD_LowReadId _ ?cb) _ _ => rq_low (leaf_LowReadId cb)
  | |- wp (DVD_LowRequestError  ?cb) _ _ => rq_low (leaf_LowRequestError cb)
  | |- wp (DVD_LowStopMotor  ?cb) _ _ => rq_low (leaf_LowStopMotor cb)
  | |- wp (DVD_LowInquiry _ ?cb) _ _ => rq_low (leaf_LowInquiry cb)
  | |- wp (DVD_LowWaitCoverClose  ?cb) _ _ => rq_low (leaf_LowWaitCoverClose cb)
  | |- wp (DVD_LowAudioStream _ _ _ ?cb) _ _ => rq_low (leaf_LowAudioStream cb)
  | |- wp (DVD_LowAudioBufferConfig _ _ ?cb) _ _ => rq_low (leaf_LowAudioBufferConfig cb)
  | |- wp (DVD_LowRequestAudioStatus _ ?cb) _ _ => rq_low (leaf_LowRequestAudioStatus cb)
  | |- wp (DVD_LowUnlockDrive  ?cb) _ _ => rq_low (leaf_LowUnlockDrive cb)
  | |- wp (DVD_LowSetOffset _ ?cb) _ _ => rq_low (leaf_LowSetOffset cb)
  | |- wp (DVD_LowSetGCMOffset _ _) _ _ => rq_low (leaf_LowSetGCMOffset)
  | |- wp (DVD_LowFuncCall _ ?cb) _ _ => rq_low (leaf_LowFuncCall cb)
  | |- wp (DVD_LowSpinMotor _ ?cb) _ _ => rq_low (leaf_LowSpinMotor cb)
  | |- wp (DVD_LowEnableExtensions _ ?cb) _ _ => rq_low (leaf_LowEnableExtensions cb)
  | |- wp (DVD_LowSetStatus _ ?cb) _ _ => rq_low (leaf_LowSetStatus cb)
  | |- wp dvd_statemotorstopped _ _ => rq_low leaf_statemotorstopped
  | |- wp (dvd_stateerror _) _ _ => rq_low leaf_stateerror
  | |- wp dvd_stategettingerror _ _ => rq_low leaf_stategettingerror
  | |- wp dvd_stategotoretry _ _ => rq_low leaf_stategotoretry
  | |- wp (dvd_statecoverclosed_cmd _) _ _ => rq_low leaf_statecoverclosed_cmd
  end.

Section Circle.
Context `{DvdHw} (A : dvdmap) (con : console) (client : Z -> Z -> Z -> list dvdreq) (P : list Z).
Context (Hdummy : a_dummycmdblk A ∈ P) (Hnull : NULL ∉ P) (Hclient : client_ok client).
Local Abbreviation core := (core A P).
Local Abbreviation R := (R A P).
Local Abbreviation RQ := (RQ A P).
Local Abbreviation settled := (settled A P).
Context (n : nat) (go : act -> M dvdst unit) (Hgo : go_ok A P n go).

(** [DVD_LowControlMotor] sets what a spin-up ends in. *)
Lemma controlmotor_ok s g b N m : RQ s g b N -> wp (DVD_LowControlMotor m (Some Fn_statebusycb)) settled s.
Proof.
  intros HR. unfold DVD_LowControlMotor. rq_step. rq_step. apply wp_bind, wp_modify.
  assert (HR' : RQ (set_cbs (fupd (d_cb s1) dvd_finalsudcb (Some Fn_statebusycb)) s1) g b N).
  { destruct HR1 as (H1 & H2 & H3). split_and!; [|by apply quiet_sud|done].
    apply R_sud; [by left|done]. }
  rq_any.
Qed.
Ltac rq_ctl := eapply controlmotor_ok; eassumption.

Lemma busy_ok s g b N :
  RQ s g b N -> (cmds s !! b = Some 0x10 -> (spin_need (Some Fn_statebusycb) s g <= n)%nat) -> wp (dvd_statebusy go b) settled s.
Proof.
  intros HR Hn. unfold dvd_statebusy. rq_step. rq_step.
  assert (Hc : cmds s !! b = Some (b_cmd x)).
  { rewrite <- (f_cmds _ _ (proj1 He)). unfold cmds. by rewrite lookup_fmap, Hx. }
  rq_step; [rq|]. rq_step; [rq; rq_any|]. rq_step; [rq; rq_any|]. rq_step; [rq; rq_any|]. rq_step; [rq; rq_any|].
  rq_step; [rq; rq_any|]. rq_step; [rq; rq_any|]. rq_step; [rq; rq_any|]. rq_step; [rq; rq_any|]. rq_step; [rq; rq_any|].
  rq_step; [rq; rq_any|]. rq_step; [rq; rq_any|]. rq_step; [rq; rq_any|]. rq_step; [rq; rq_any|].
  destruct (Z.eqb_spec (b_cmd x) 16) as [E16|].
  { rewrite E16 in Hc. specialize (Hn Hc). rq_step. rq_step.
    match goal with HR : RQ ?s' g b N |- wp _ _ ?s' => destruct HR as (HR4 & Hq4 & _) end.
    eapply (spin_ok A P n go Hgo); [exact HR4|exact Hq4|by left|].
    etrans; [|exact Hn]. eapply spin_need_ext. eapply ext_trans; [eassumption|]. eapply ext_trans; eassumption. }
  rq_step; [rq; rq_ctl|]. rq_step; [rq; rq_any|rq].
Qed.


Lemma busy_executing_ok s g b N :
  RQ s g b N -> (3 * N + 4 <= n)%nat -> wp (busy_executing go) settled s.
Proof.
  intros HR Hn. unfold busy_executing. rq_step. apply (busy_ok s g b N HR). intros _.
  etrans; [apply spin_need_busy|]. destruct HR as (_ & _ & Hmu). lia.
Qed.

Lemma spin_RQ s g b N f :
  RQ s g b N -> f ∈ sudfins -> (3 * N + 6 <= n)%nat -> wp (DVD_LowSpinUpDrive go (Some f)) settled s.
Proof.
  intros (H1 & H2 & H3) Hf Hn. apply (spin_ok A P n go Hgo s g b); [done..|]. etrans; [apply spin_need_any|]. lia.
Qed.
Lemma finish_RQ s g b N st result :
  RQ s g b N -> (3 * N + 2 <= n)%nat -> wp (finish A client go st result) settled s.
Proof. intros (H1 & H2 & H3) Hn. eapply (finish_R A client P Hdummy Hnull Hclient n go Hgo); [done..|lia]. Qed.
Lemma RQ_top s g b N : RQ s g b N -> RQ s g b (length (waiting g)).
Proof. intros (H1 & H2 & _). split_and!; [done..|apply mu_le]. Qed.

Lemma coverclosed_ok s g b N : RQ s g b N -> (3 * N + 6 <= n)%nat -> wp (dvd_statecoverclosed A client go) settled s.
Proof.
  intros HR Hn. unfold dvd_statecoverclosed. rq_step. rq_step.
  - destruct HR as ((Hc & Hr) & Hq & _). eapply clear_ok; [done|]. intros m' s' Hc'.
    assert (HR' : RQ s' (mk_sched (sc_exec g) (sc_q sched0)) b 0).
    { split_and!; [done|done|]. apply (mu_le s' (mk_sched (sc_exec g) (sc_q sched0))). }
    eapply finish_RQ; [exact HR'|lia].
  - rq_step. eapply spin_RQ; [done|set_solver|done].
Qed.

Lemma laststate_ok s g b N : RQ s g b N -> (3 * N + 4 <= n)%nat -> wp (call_laststate A go) settled s.
Proof.
  intros HR Hn. apply wp_bind, wp_gets. pose proof HR as ((_ & (_ & _ & Hl & _)) & _).
  destruct (d_last s) as [[]|]; [by eapply busy_executing_ok|rq_any|rq|done].
Qed.

(** *** Errors that are final *)

Lemma errortail_ok s g b :
  R s g b -> quiet s -> (3 * length (waiting g) + 2 <= n)%nat -> wp (dvd_stateerrorcb_tail A client go) settled s.
Proof.
  intros [ [Hh HC] (Hb & He & _)] Hq Hn. apply wp_bind, wp_modify. set (s1 := set_vars _ s).
  assert (Hc1 : core s1 g).
  { split; [done|]. constructor; try apply HC.
    - intros x Hx. unfold s1. cbn. rewrite fupd_ne; [by apply HC|]. intros ->. clear -Hx. set_solver. }
  assert (Hb1 : dv s1 dvd_executing = b) by (unfold s1; cbn; by rewrite fupd_ne).
  assert (Hf1 : dv s1 dvd_fatalerror = 1) by (unfold s1; cbn; by rewrite fupd_eq).
  apply wp_bind. eapply wp_mono; [by apply (complete_ok A client P Hdummy Hnull Hclient go s1 g b)|].
  cbn. intros a s2 (-> & g2 & (Hc2 & He2 & _) & Ha & Hg2). apply wp_bind, wp_gets.
  rewrite (ci_vars _ _ _ _ (proj2 Hc2)) by (by left). cbn. apply wp_bind, wp_ret.
  apply (ready_ok A P n go Hgo s2 g2); [done|done|by eapply after_quiet|]. pose proof (mu_le s2 g2) as Hmu.
  rewrite Hg2 in Hmu |- * by done. unfold waiting in *. cbn in Hmu. lia.
Qed.

Lemma timeout_ok s g b N : RQ s g b N -> (3 * length (waiting g) + 2 <= n)%nat -> wp (dvd_statetimeout A client go) settled s.
Proof.
  intros HR Hn. unfold dvd_statetimeout. rq_step. eapply rq_leaf; [exact HR0|apply leaf_Reset|]. intros _ s2 _ (H1 & H2 & _).
  by eapply errortail_ok.
Qed.
Lemma on_timeout_ok s g b N r k :
  RQ s g b N -> (r = 16 -> (3 * length (waiting g) + 2 <= n)%nat) -> (r <> 16 -> wp k settled s) ->
  wp (on_timeout A client go r k) settled s.
Proof.
  intros HR Hn Hk. unfold on_timeout. destruct (Z.eqb_spec r 16) as [->|]; [|by apply Hk]. rq_step. eapply timeout_ok; [done|auto].
Qed.
Lemma on_timeout__ok s g b N r k :
  RQ s g b N -> (r = 16 -> (3 * length (waiting g) + 2 <= n)%nat) -> (r <> 16 -> wp k settled s) ->
  wp (on_timeout_ A client go r k) settled s.
Proof.
  intros HR Hn Hk. unfold on_timeout_. destruct (Z.eqb_spec r 16) as [->|]; [|by apply Hk]. eapply timeout_ok; [done|auto].
Qed.
Lemma fail_ok s g b N code : RQ s g b N -> wp (fail_command code) settled s.
Proof. intros HR. unfold fail_command. rq_step. rq_any. Qed.

(** *** The identification of the disc *)

Lemma differs_ok s g b N (Q : bool -> dvdst -> Prop) : RQ s g b N -> (forall d, Q d s) -> wp (differs_from_dummy A) Q s.
Proof.
  intros HR HQ. unfold differs_from_dummy. rq_step. pose proof HR as ( ((Hh & HC) & Hr) & _).
  assert (HbP : b ∈ P) by (apply (ci_exec _ _ _ _ HC); apply Hr).
  destruct (ci_pools _ _ _ _ HC 0 ltac:(lia)) as (Hm & _). destruct (Hm b HbP) as [ [b1 Hb1] [b2 Hb2] ].
  destruct (Hm _ Hdummy) as [ [d1 Hd1] [d2 Hd2] ].
  apply wp_bind, wp_b_get; [by apply (ci_dom _ _ _ _ HC)|]. intros x _. apply wp_bind, wp_b_get; [by apply (ci_dom _ _ _ _ HC)|]. intros y _.
  assert (Hid : set_dmem (d_mem s) s = s) by by destruct s.
  do 4 (apply wp_bind, wp_on_mem; eapply wp_load; [eassumption|]; cbv beta; rewrite Hid). apply wp_ret, HQ.
Qed.

Lemma checkid_ok s g b N : RQ s g b N -> (3 * N + 4 <= n)%nat -> wp (dvd_statecheckid A client go) settled s.
Proof.
  intros HR Hn. unfold dvd_statecheckid. rq_step. rq_step.
  - apply wp_bind, (differs_ok s g b N); [done|]. intros []; [rq_any|]. eapply rq_leaf; [exact HR|apply leaf_copy_id|].
    intros _ s1 He1 HR1. rq_step. eapply wp_leaf; [apply leaf_laststate|eapply R_sram, HR0|]. intros a s2 He2.
    eapply settled_R. eapply RQ_calm; [exact He2|exact HR0].
  - rq_step; [eapply finish_RQ; [done|lia]|]. apply wp_bind, wp_gets. rq_step; [|by eapply busy_executing_ok].
    destruct HR as ((Hc & (Hb & He & _ & _ & Hf)) & Hq & Hmu).
    apply wp_bind. eapply wp_mono; [apply (complete_ok A client P Hdummy Hnull Hclient go s g b); [done..|]; intros Hne; by rewrite Hf in Hne|].
    cbn. intros a s2 (-> & g2 & Hbt & Ha & Hg2). destruct (ci_exec _ _ _ _ (proj2 Hc) b He) as (HbP & Hbd & Hbw).
    apply wp_bind. eapply wp_mono.
    { apply (call_mount_ok A client P Hdummy Hnull Hclient go s2 g2); [done..| |].
      - rewrite (Hg2 ltac:(done)). unfold pending. cbn. intros [?|?]; [done|by apply Hbw].
      - intros Hne. destruct Ha as (_ & _ & _ & _ & Hv & _). by rewrite Hv, Hf in Hne. }
    cbn. intros _ s3 (g3 & (Hc3 & He3 & _) & Ha3 & _). pose proof (after_trans _ _ _ _ _ _ Ha Ha3) as Ha'.
    apply (ready_ok A P n go Hgo s3 g3); [done|done|by eapply after_quiet|]. destruct Ha' as (_ & _ & _ & _ & _ & Hm). lia.
Qed.

(** *** The callbacks *)

Lemma categorize_ok s g b N code (Q : Z -> dvdst -> Prop) :
  RQ s g b N -> (forall r s', ext None s s' -> RQ s' g b N -> Q r s') -> wp (dvd_categorizeerror code) Q s.
Proof.
  intros HR HQ. unfold dvd_categorizeerror. rq_step; [|rq_step].
  - rq_step. apply wp_ret. by eapply HQ.
  - apply wp_ret. apply HQ; [apply ext_refl|done].
  - rq_step. rq_step. rq_step.
    + rq_step. rq_step. apply wp_ret. eapply HQ; [|eassumption]. by eapply ext_trans.
    + rq_step. rq_step.
      * rq_step. rq_step. apply wp_ret. eapply HQ; [|eassumption]. by eapply ext_trans.
      * apply wp_ret. eapply HQ; [|eassumption]. by eapply ext_trans.
Qed.

Lemma handle_error_ok s g b N c val : RQ s g b N -> (3 * N + 6 <= n)%nat -> wp (handle_error A client go c val) settled s.
Proof.
  intros HR Hn. unfold handle_error. rq_step; [|rq_step].
  - rq_step.
    + rq_step. rq_step. rq_step; [|eapply busy_executing_ok; [done|lia] ]. rq_step. rq_step. eapply spin_RQ; [done|set_solver|done].
    + rq_step. rq_any.
  - rq_step; [rq_step; rq_step; rq_any|]. eapply laststate_ok; [done|lia].
  - rq_step; [rq_step; rq_any|]. rq_step; [rq_step; eapply coverclosed_ok; [done|lia]|]. rq_step; [rq_step; rq_any|].
    by eapply fail_ok.
Qed.

Context (g : sched) (b : Z).
Local Abbreviation top := (length (waiting g)).

Lemma stateretrycb_ok s N r : RQ s g b N -> (3 * N + 4 <= n)%nat -> (r <> 1 -> (3 * top + 2 <= n)%nat) -> wp (dvd_stateretrycb A client go r) settled s.
Proof.
  intros HR Hn Hr. unfold dvd_stateretrycb. eapply on_timeout_ok; [done|intros ->; by apply Hr|]. intros _.
  destruct (Z.eqb_spec r 1) as [->|Hr1].
  - cbn. apply wp_bind, wp_ret. by eapply busy_executing_ok.
  - apply wp_bind, wp_when; intros _.
    + eapply wp_mono; [rq_any|]. intros a s' H'. apply wp_ret. exact H'.
    + apply wp_ret. by eapply settled_R.
Qed.

Lemma busy_done_ok s N : RQ s g b N -> (3 * N + 2 <= n)%nat -> wp (busy_done A client go) settled s.
Proof.
  intros HR Hn. unfold busy_done. rq_step. rq_step.
  - rq_step. rq_step. rq_step; [|by eapply finish_RQ]. unfold busy_executing. rq_step. eapply busy_ok; [done|].
    intros Hc. pose proof HR as ((_ & (_ & _ & _ & Hcur & _)) & _). rewrite Hcur in Hc. injection Hc as Hc. rewrite Hc in Heqb0. done.
  - rq_step; [rq_step; rq_step; by eapply finish_RQ|]. rq_step. rq_step. rq_step.
    + rq_step. rq_step; [by eapply finish_RQ|]. rq_step. rq_step. rq_step. rq_step. rq_step. rq_any.
    + rq_step. rq_step; by eapply finish_RQ.
Qed.

Lemma cancelled_ok s N :
  RQ s g b N -> (3 * N + 2 <= n)%nat ->
  wp (setv dvd_canceling 0;; block <- complete A client go (Some 10) (fun _ => -3); call_cancel A client go block;; stateready go) settled s.
Proof.
  intros HR Hn. apply wp_bind, wp_modify. set (s1 := set_vars _ s).
  assert (HC0 : dv s dvd_canceling = 0) by (destruct HR as (((_ & HC) & _) & _); apply (ci_vars _ _ _ _ HC); by left).
  assert (Hdv : forall x, dv s1 x = dv s x).
  { intros x. unfold s1. cbn. destruct (decide (x = dvd_canceling)) as [->|]; [by rewrite fupd_eq|by rewrite fupd_ne]. }
  assert (He : ext None s s1).
  { split; [|done]. constructor; try done; unfold list_ok, chip; rewrite ?Hdv; done. }
  pose proof (RQ_calm A P s s1 g b N He HR) as ((Hc & (Hb & Hx & _ & _ & Hf)) & Hq & Hmu).
  apply wp_bind. eapply wp_mono; [apply (complete_ok A client P Hdummy Hnull Hclient go s1 g b); [done..|]; intros Hne; by rewrite Hf in Hne|].
  cbn. intros a s2 (-> & g2 & (Hc2 & He2 & _) & Ha & Hg2). apply wp_bind, wp_bind, wp_gets.
  rewrite (ci_vars _ _ _ _ (proj2 Hc2)) by (right; by left). apply wp_ret.
  apply (ready_ok A P n go Hgo s2 g2); [done|done|by eapply after_quiet|]. destruct Ha as (_ & _ & _ & _ & _ & Hm). lia.
Qed.

Lemma busy_result_ok s N r : RQ s g b N -> (3 * N + 2 <= n)%nat -> wp (busy_result A client go r) settled s.
Proof.
  intros HR Hn. unfold busy_result. rq_step. set (c := dv s dvd_currcmd). apply wp_bind.
  apply (wp_mono _ (fun _ s1 => RQ s1 g b N)).
  { apply wp_when; intros _; [|done]. rq_step. rq_step. eapply wp_b_upd; [eapply R_blk, HR0|done|]. intros s1 He1. by eapply RQ_calm. }
  intros _ s1 HR1. rq_step; [by eapply cancelled_ok|]. rq_step; [|rq_step].
  - rq_step. apply wp_bind, (no_cancel A client P go s0 g); [apply HR0|]. by eapply busy_done_ok.
  - rq_step; [by eapply fail_ok|]. rq_step. rq_step. rq_step; [|rq_any].
    apply wp_bind, (no_cancel A client P go s1 g); [apply HR1|]. by eapply finish_RQ.
  - rq_any.
Qed.

Lemma statebusycb_ok s N r :
  RQ s g b N -> (3 * N + 2 <= n)%nat -> (r <> 1 -> (3 * top + 2 <= n)%nat) -> wp (dvd_statebusycb A client go r) settled s.
Proof.
  intros HR Hn Hr. unfold dvd_statebusycb. eapply on_timeout_ok; [done|intros ->; by apply Hr|]. intros _. rq_step.
  rq_step; [by eapply fail_ok|]. rq_step; [|by eapply busy_result_ok]. rq_step. apply wp_bind.
  apply (wp_mono _ (fun _ s1 => RQ s1 g b N)).
  { apply wp_when; intros _; [|done]. eapply wp_leaf; [leaf_atom|eapply R_sram, HR0|]. intros a1 s1 He1. by eapply RQ_calm. }
  intros _ s1 HR1. apply wp_bind, (no_cancel A client P go s1 g); [apply HR1|]. rq_step. rq_any.
Qed.

Context (Htop : (3 * top + 7 <= n)%nat).

Lemma gettingerrorcb_ok s r : RQ s g b top -> wp (dvd_stategettingerrorcb A client go r) settled s.
Proof.
  intros HR. unfold dvd_stategettingerrorcb. eapply on_timeout_ok; [done|lia|]. intros _. rq_step; [by eapply fail_ok|].
  apply wp_when; intros _; [|by eapply settled_R]. rq_step. apply wp_bind. eapply categorize_ok; [done|]. intros c s1 He1 HR1.
  rq_step; [by eapply fail_ok|]. apply wp_bind, (no_cancel A client P go s1 g); [apply HR1|]. eapply handle_error_ok; [done|lia].
Qed.

Lemma motorstoppedcb_ok s : RQ s g b top -> wp (dvd_statemotorstoppedcb A client go) settled s.
Proof. intros HR. unfold dvd_statemotorstoppedcb. rq_step. rq_step. eapply coverclosed_ok; [done|lia]. Qed.

Lemma coverclosedcb_ok s r : RQ s g b top -> wp (dvd_statecoverclosedcb A client go r) settled s.
Proof.
  intros HR. unfold dvd_statecoverclosedcb. eapply on_timeout_ok; [done|lia|]. intros _. rq_step.
  - rq_step. eapply checkid_ok; [done|lia].
  - apply wp_when; intros _; [rq_any|by eapply settled_R].
Qed.

Lemma checkid1cb_ok s : RQ s g b top -> wp dvd_statecheckid1cb settled s.
Proof.
  intros HR. unfold dvd_statecheckid1cb. rq_step. apply wp_bind, wp_gets.
  eapply rq_leaf; [exact HR0|apply leaf_when, leaf_copy_id|]. intros _ s1 He1 HR1.
  eapply wp_leaf; [apply leaf_simple; intros; by split_and!|eapply R_sram, HR1|]. intros a1 s2 He2. eapply settled_R, RQ_calm; eassumption.
Qed.

Lemma gotoretrycb_ok s r : RQ s g b top -> wp (dvd_stategotoretrycb A client go r) settled s.
Proof.
  intros HR. unfold dvd_stategotoretrycb. eapply on_timeout_ok; [done|lia|]. intros _. rq_step; [by eapply fail_ok|].
  apply wp_when; intros _; [|by eapply settled_R]. rq_step. rq_step. rq_step; [|rq].
  rq_step. apply wp_bind, (no_cancel A client P go s1 g); [apply HR1|]. rq_step. rq_any.
Qed.

Lemma unrecoverederrorcb_ok s r : RQ s g b top -> wp (dvd_unrecoverederrorcb A client go r) settled s.
Proof.
  intros HR. unfold dvd_unrecoverederrorcb. eapply on_timeout_ok; [done|lia|]. intros _. rq_step; [rq_any|].
  apply wp_when; intros _; [rq_any|by eapply settled_R].
Qed.
Lemma unrecoverederrorretrycb_ok s r : RQ s g b top -> wp (dvd_unrecoverederrorretrycb A client go r) settled s.
Proof.
  intros HR. unfold dvd_unrecoverederrorretrycb. eapply on_timeout_ok; [done|lia|]. intros _. rq_step. rq_step; [rq_any|].
  rq_step. rq_any.
Qed.
Lemma stateerrorcb_ok s r : RQ s g b top -> wp (dvd_stateerrorcb A client go r) settled s.
Proof.
  intros HR. unfold dvd_stateerrorcb. eapply on_timeout_ok; [done|lia|]. intros _. destruct HR as (H1 & H2 & _). eapply errortail_ok; [done..|lia].
Qed.

(** What was stored already may be stored again. *)
Lemma stored_allowed s N x (l : list lowfn) :
  RQ s g b N -> (forall f, f ∈ l -> allowed s f) -> forall f, f ∈ l ++ option_list (d_cb s x) -> allowed s f.
Proof.
  intros HR Hl f Hf. apply elem_of_app in Hf as [|Hf]; [by apply Hl|]. destruct (d_cb s x) as [h|] eqn:E; cbn in Hf; [|clear -Hf; set_solver].
  apply list_elem_of_singleton in Hf as ->. eapply R_allowed; [apply HR|exact E].
Qed.
Lemma stored_only s N x : RQ s g b N -> forall f, f ∈ option_list (d_cb s x) -> allowed s f.
Proof. intros HR. apply (stored_allowed s N x [] HR). intros f Hf. by apply elem_of_nil in Hf. Qed.

Lemma cntrldrivecb_ok s r : RQ s g b top -> wp (dvd_cntrldrivecb A client go r) settled s.
Proof.
  intros HR. unfold dvd_cntrldrivecb. eapply on_timeout__ok; [done|lia|]. intros _. rq_step; [|rq_any].
  rq_step. apply wp_bind, wp_gets. eapply rq_end; [exact HR|apply leaf_LowSpinMotor|by eapply stored_only].
Qed.

Lemma setgcmoffsetcb_ok s r : RQ s g b top -> wp (dvd_setgcmoffsetcb A client go r) settled s.
Proof.
  intros HR. unfold dvd_setgcmoffsetcb. eapply on_timeout__ok; [done|lia|]. intros _. rq_step; [|rq_any].
  apply wp_bind. apply (wp_mono _ (fun _ s1 => ext None s s1)).
  - unfold usr_load. apply wp_bind, wp_gets, wp_bind, wp_modify.
    assert (He : ext None s (set_usrdata UsrNull s)) by (split; [by constructor|done]).
    assert (Hu : usr_ok s) by (destruct HR as (((_ & HC) & _) & _); apply HC). unfold usr_ok in Hu.
    destruct (d_usr s); [by apply wp_ret|done|by apply wp_gets].
  - intros o s1 He1. pose proof (RQ_calm A P _ _ _ _ _ He1 HR) as HR1. apply wp_bind, wp_gets.
    eapply rq_end; [exact HR1|apply leaf_LowSetOffset|by eapply stored_only].
Qed.

(** A spin-up is over. *)
Lemma call_sud_ok s N :
  RQ s g b N -> sud_ok s -> (3 * N + 5 <= n)%nat -> wp (call_low go (d_cb s dvd_finalsudcb) 1) settled s.
Proof.
  intros (HR & Hq & Hmu) (f & -> & Hf) Hn. cbn. apply (Hgo (ActLow f 1) s g).
  - split; [done|]. split; [by exists b|]. apply allowed_plain. clear -Hf. set_solver.
  - unfold cost. rewrite decide_True by done. unfold sudfins in Hf. rewrite !elem_of_cons in Hf.
    destruct Hf as [->|[->|[->|Hf] ] ]; [lia..|]. by apply elem_of_nil in Hf.
Qed.

Lemma handlespinupcb_ok s r : RQ s g b top -> sud_ok s -> wp (dvd_handlespinupcb A client go r) settled s.
Proof.
  intros HR Hs. unfold dvd_handlespinupcb. eapply on_timeout__ok; [done|lia|]. intros _. rq_step. rq_step; [|rq_step; [|rq_step] ].
  - rq_step. rq_step. rq_step. eapply rq_end; [eassumption|apply (leaf_LowEnableExtensions (Some _))|].
    intros f Hf. cbn in Hf. apply list_elem_of_singleton in Hf as ->. split; [done|]. intros _.
    destruct Hs as (h & Hh & Hin). exists h. split; [|done]. destruct He as (_ & E & _), He0 as (_ & E0 & _). by rewrite E0, E.
  - rq_step. rq_step. eapply rq_end; [eassumption|apply (leaf_LowSpinMotor (Some _))|].
    intros f Hf. cbn in Hf. apply list_elem_of_singleton in Hf as ->. split; [done|]. intros _.
    destruct Hs as (h & Hh & Hin). exists h. split; [|done]. destruct He as (_ & E & _), He0 as (_ & E0 & _). by rewrite E0, E.
  - rq_step. rq_step. apply wp_bind, wp_gets. rq_step.
    + rq_step. eapply rq_end; [eassumption|apply leaf_LowSetStatus|]. intros f Hf.
      replace (d_cb s0 dvd_finalsudcb) with (d_cb s1 dvd_finalsudcb) in Hf by (by rewrite (proj1 (proj2 He0))).
      by eapply stored_only.
    + apply andb_true_iff in Heqb2 as [->%Z.eqb_eq _]. eapply call_sud_ok; [done| |lia].
      destruct Hs as (h & Hh & Hin). exists h. split; [|done]. by rewrite (proj1 (proj2 He)).
  - rq_step. rq_any.
Qed.

Lemma fwpatchcb_ok s r : RQ s g b top -> wp (dvd_fwpatchcb A client go r) settled s.
Proof.
  intros HR. unfold dvd_fwpatchcb. eapply on_timeout__ok; [done|lia|]. intros _. rq_step. rq_step; [|rq_step].
  - rq_step. rq_step. rq_any.
  - rq_step. apply wp_bind, wp_gets. eapply rq_end; [eassumption|apply leaf_LowPatchDriveCode|].
    eapply (stored_allowed _ _ _ [Fn_patchdrivecb]); [done|plain_allowed].
  - rq_step. rq_any.
Qed.

Lemma RQ_setv s x v :
  x = dvd_drivechecked \/ x = dvd_drivestate -> RQ s g b top -> RQ (set_vars (fupd (dv s) x v) s) g b top.
Proof.
  intros Hx (((Hh & HC) & Hr) & Hq & _).
  assert (Hne : forall y, y <> dvd_drivechecked -> y <> dvd_drivestate -> fupd (dv s) x v y = dv s y)
    by (intros y ??; apply fupd_ne; destruct Hx; congruence).
  split_and!; [|done|apply mu_le]. split.
  - split; [done|]. constructor; try apply HC.
    + intros y Hy. cbn. rewrite Hne; [by apply HC|intros ->; clear -Hy; set_solver..].
    + cbn. rewrite Hne by done. apply HC.
    + destruct (ci_list _ _ _ _ HC) as (H1 & H2). split; [cbn; by rewrite Hne|done].
  - destruct Hr as (H1 & H2 & H3 & H4 & H5). split_and!; cbn; rewrite ?Hne by done; done.
Qed.

Lemma addons_end_ok s :
  RQ s g b top ->
  wp (cb <- getcb dvd_finaladdoncb; setcb dvd_finaladdoncb None;; call_low_opt go cb 1) settled s.
Proof.
  intros (((Hh & HC) & Hr) & Hq & Hmu). apply wp_bind, wp_gets, wp_bind, wp_modify. set (s1 := set_cbs _ s).
  assert (Hsame : d_cb s1 dvd_finalsudcb = d_cb s dvd_finalsudcb) by (unfold s1; cbn; by rewrite fupd_ne).
  assert (HR1 : RQ s1 g b top).
  { split_and!; [|unfold quiet; unfold s1; cbn; by rewrite fupd_ne|apply mu_le]. split; [|done]. split; [done|].
    constructor; try apply HC; unfold s1; cbn.
    - intros x f. destruct (decide (x = dvd_finaladdoncb)) as [->|]; [by rewrite fupd_eq|rewrite fupd_ne by done].
      intros Hf. apply (allowed_same s); [done|by apply (ci_cbs _ _ _ _ HC x)].
    - intros f. by rewrite fupd_eq. }
  destruct (d_cb s dvd_finaladdoncb) as [f|] eqn:E; [|apply wp_ret; by eapply settled_R]. cbn.
  rewrite (ci_addon _ _ _ _ HC f E) in E |- *. apply (Hgo (ActLow Fn_spinupdrivecb 1) s1 g).
  - destruct HR1 as (H1 & H2 & _). split; [done|]. split; [by exists b|]. apply (allowed_same s); [done|by apply (ci_cbs _ _ _ _ HC dvd_finaladdoncb)].
  - unfold cost. rewrite decide_True by done. pose proof (spin_need_any (d_cb s1 dvd_finalsudcb) s1 g). pose proof (mu_le s1 g). lia.
Qed.

Lemma checkaddonscb_ok s r : RQ s g b top -> wp (dvd_checkaddonscb A go r) settled s.
Proof.
  intros HR. apply wp_bind, wp_modify. cbv beta. pose proof (RQ_setv s dvd_drivechecked 1 ltac:(by left) HR) as HR0. rq_step. cbv zeta.
  rq_step; [rq_step|].
  - rq_step. rq_any.
  - rq_step. apply wp_bind, wp_modify. apply addons_end_ok. apply RQ_setv; [by right|done].
  - by apply addons_end_ok.
Qed.

Lemma gettingerror_ok s N : RQ s g b N -> wp dvd_stategettingerror settled s.
Proof. intros HR. rq_any. Qed.
End Circle.

Section Turn.
Context `{DvdHw} (A : dvdmap) (con : console) (client : Z -> Z -> Z -> list dvdreq) (P : list Z).
Context (Hdummy : a_dummycmdblk A ∈ P) (Hnull : NULL ∉ P) (Hclient : client_ok client).
Local Abbreviation core := (core A P).
Local Abbreviation RQ := (RQ A P).
Local Abbreviation settled := (settled A P).
Context (n : nat) (go : act -> M dvdst unit) (Hgo : go_ok A P n go).

Lemma chip_land s : (Z.land (dv s dvd_drivestate) DVD_CHIPPRESENT =? 0) = negb (chip s).
Proof.
  unfold chip. change DVD_CHIPPRESENT with (2 ^ 1). destruct (Z.testbit (dv s dvd_drivestate) 1) eqn:E; cbn [negb].
  - apply Z.eqb_neq. intros E0. apply (f_equal (fun x => Z.testbit x 1)) in E0. rewrite Z.land_spec, E in E0. done.
  - apply Z.eqb_eq, Z.bits_inj'. intros i Hi. rewrite Z.land_spec, Z.pow2_bits_eqb, Z.bits_0 by lia.
    destruct (Z.eqb_spec 1 i) as [<-|]; [by rewrite E|by rewrite andb_false_r].
Qed.

Lemma spinupdrivecb_ok s g b N r :
  RQ s g b N -> sud_ok s -> (r = 1 -> leafy s = false -> (cost (ActLow Fn_spinupdrivecb 1) s g <= S n)%nat) ->
  (r <> 1 -> (3 * length (waiting g) + 2 <= n)%nat) -> wp (dvd_spinupdrivecb A client go r) settled s.
Proof.
  intros HR Hs Hn Hr. unfold dvd_spinupdrivecb. eapply (on_timeout__ok A client P Hdummy Hnull Hclient n go Hgo); [exact HR|intros ->; by apply Hr|].
  intros _. rq_step; [|eapply rq_end; [exact HR|unfold dvd_stategettingerror; apply (leaf_LowRequestError (Some _))|plain_allowed] ].
  assert (Hsud : forall s', d_cb s' dvd_finalsudcb = d_cb s dvd_finalsudcb -> forall f, f ∈ [Fn_handlespinupcb; Fn_spinupdrivecb] -> allowed s' f).
  { intros s' E f Hf. split; [intros ->; clear -Hf; set_solver|]. intros _. unfold sud_ok. by rewrite E. }
  rq_step. rq_step.
  { eapply rq_end; [exact HR|apply leaf_checkaddons|]. intros f. rewrite !elem_of_cons. intros [->|[->|Hf] ].
    - apply allowed_plain. clear. set_solver.
    - by apply Hsud; [|right; left].
    - by apply elem_of_nil in Hf. }
  rq_step. rewrite chip_land. destruct (chip s) eqn:Ec; cbn [negb].
  - apply wp_bind, wp_gets. apply Z.eqb_eq in Heqb0 as ->.
    assert (Hl : leafy s = false) by (unfold leafy; by rewrite Heqb1, Ec).
    specialize (Hn eq_refl Hl). unfold cost, spin_need in Hn. rewrite decide_True, Hl in Hn by done.
    destruct HR as (HR & Hq & _), Hs as (f & Ef & Hf). rewrite Ef in *. cbn. apply (Hgo (ActLow f 1) s g).
    + split; [done|]. split; [by exists b|]. apply allowed_plain. clear -Hf. set_solver.
    + unfold cost. rewrite decide_True by done. unfold sudfins in Hf. rewrite !elem_of_cons in Hf.
      destruct Hf as [->|[->|[->|Hf] ] ]; [| |rewrite decide_False in Hn by done; lia|by apply elem_of_nil in Hf].
      * rewrite decide_True in Hn by done. lia.
      * rewrite decide_False in Hn by done. lia.
  - rq_step.
    + apply wp_bind. apply (wp_mono _ (fun _ s1 => ext None s s1)).
      { apply wp_when; intros _; [|apply ext_refl]. eapply wp_leaf; [apply leaf_Reset|eapply R_sram, HR|]. done. }
      intros _ s1 He1. pose proof (RQ_calm A P _ _ _ _ _ He1 HR) as HR1.
      eapply rq_end; [exact HR1|apply leaf_fwpatchmem|]. intros f. cbn. rewrite !elem_of_cons. intros [->|[->|Hf] ].
      * apply allowed_plain. clear. set_solver.
      * apply Hsud; [by rewrite (proj1 (proj2 He1))|right; by left].
      * by apply elem_of_nil in Hf.
    + eapply rq_end; [exact HR|apply leaf_handlespinup|]. intros f. rewrite !elem_of_cons. intros [->|[->|Hf] ].
      * apply allowed_plain. clear. set_solver.
      * by apply Hsud; [|left].
      * by apply elem_of_nil in Hf.
Qed.

Lemma low_ok f r s g : pre A P (ActLow f r) s g -> (cost (ActLow f r) s g <= S n)%nat -> wp (low A client go f r) settled s.
Proof.
  intros (Hq & (b & HR) & Hal) Hc.
  assert (HQ : RQ s g b (mu s g)) by (by split_and!). assert (HT : RQ s g b (length (waiting g))) by (by eapply RQ_top).
  assert (Htop : f ∉ [Fn_stateretrycb; Fn_statebusycb; Fn_spinupdrivecb; Fn_statecoverclosed_spinupcb] \/ r <> 1 -> (3 * length (waiting g) + 7 <= n)%nat).
  { intros Hor. unfold cost, top_need in Hc. destruct (decide (r = 1)) as [->|]; [|lia]. destruct Hor as [Hf|]; [|done].
    destruct f; try lia; exfalso; apply Hf; clear; set_solver. }
  assert (Hn1 : r = 1 -> (cost (ActLow f 1) s g <= S n)%nat) by (by intros ->).
  assert (Hmu : (r = 1 -> forall k, cost (ActLow f 1) s g = (3 * mu s g + k)%nat -> (3 * mu s g + k <= S n)%nat) /\ (r <> 1 -> (3 * mu s g + 7 <= n)%nat)).
  { split; [intros Hr k E; specialize (Hn1 Hr); lia|]. intros Hr. pose proof (mu_le s g). specialize (Htop (or_intror Hr)). lia. }
  destruct Hmu as [Hk Hk'].
  assert (Hmu2 : forall k, (r = 1 -> cost (ActLow f 1) s g = (3 * mu s g + S k)%nat) -> (k <= 7)%nat -> (3 * mu s g + k <= n)%nat).
  { intros k E Hk7. destruct (decide (r = 1)) as [Hr|Hr]; [specialize (Hk Hr _ (E Hr)); lia|specialize (Hk' Hr); lia]. }
  assert (Hr2 : r <> 1 -> (3 * length (waiting g) + 2 <= n)%nat) by (intros Hr; specialize (Htop (or_intror Hr)); lia).
  destruct f; cbn [low];
    first [ assert (Ht : (3 * length (waiting g) + 7 <= n)%nat) by (apply Htop; left; clear; set_solver) | idtac ].
  - eapply (stateretrycb_ok A client P Hdummy Hnull Hclient n go Hgo); [exact HQ|apply Hmu2; [|lia]|done]. intros _. unfold cost. by rewrite decide_True.
  - by eapply unrecoverederrorretrycb_ok.
  - by eapply unrecoverederrorcb_ok.
  - by eapply stateerrorcb_ok.
  - by eapply gettingerrorcb_ok.
  - eapply (statebusycb_ok A client P Hdummy Hnull Hclient n go Hgo); [exact HQ|apply Hmu2; [|lia]|done]. intros _. unfold cost. by rewrite decide_True.
  - by eapply motorstoppedcb_ok.
  - by eapply coverclosedcb_ok.
  - by eapply checkid1cb_ok.
  - by eapply gotoretrycb_ok.
  - by destruct Hal.
  - by eapply cntrldrivecb_ok.
  - by eapply setgcmoffsetcb_ok.
  - eapply handlespinupcb_ok; try done. apply Hal. clear. set_solver.
  - by eapply fwpatchcb_ok.
  - by eapply checkaddonscb_ok.
  - eapply spinupdrivecb_ok; [exact HQ|apply Hal; clear; set_solver|intros; by apply Hn1|done].
  - unfold dvd_statecoverclosed_spinupcb. rq_step. rq_any.
  - eapply rq_end; [exact HQ|apply leaf_patchdrivecb|plain_allowed].
  - eapply rq_end; [exact HQ|apply leaf_unlockdrivecb|]. intros h Hh. by apply elem_of_nil in Hh.
Qed.

(** *** The next command *)

Lemma cinv_exec s g b : cinv A P s g -> cinv A P (set_vars (fupd (dv s) dvd_executing b) s) g.
Proof.
  intros HC. constructor; try apply HC. intros x Hx. cbn. rewrite fupd_ne; [by apply HC|]. intros ->. clear -Hx. set_solver.
Qed.
Lemma cinv_currcmd s g c : cinv A P s g -> cinv A P (set_vars (fupd (dv s) dvd_currcmd c) s) g.
Proof.
  intros HC. constructor; try apply HC. intros x Hx. cbn. rewrite fupd_ne; [by apply HC|]. intros ->. clear -Hx. set_solver.
Qed.

Lemma mu_pop s s' g b qs :
  sc_pop (sc_q g) = Some (b, qs) -> cmds s' = cmds s -> dv s' dvd_fatalerror = dv s dvd_fatalerror -> chip s' = chip s ->
  (mu s' (mk_sched (Some b) qs) <= mu s g)%nat /\
  (dv s dvd_fatalerror <> 0 \/ (chip s = true /\ cmds s !! b = Some 0x10%Z) -> (S (mu s' (mk_sched (Some b) qs)) <= mu s g)%nat).
Proof.
  intros Ep Ec Ef Eh. destruct (concat_pop _ _ _ Ep) as [Hperm _]. unfold mu, n16. rewrite Ec, Ef, Eh.
  assert (Hw : waiting g ≡ₚ b :: concat qs) by done. change (waiting (mk_sched (Some b) qs)) with (concat qs).
  destruct (decide (dv s dvd_fatalerror = 0)) as [E0|]; [|rewrite Hw; cbn; lia].
  destruct (chip s); [|split; [lia|naive_solver] ]. rewrite Hw, filter_cons.
  destruct (decide (cmds s !! b = Some 16)); cbn; split; try lia; naive_solver.
Qed.

Lemma stateready_ok s g : pre A P ActReady s g -> (cost ActReady s g <= S n)%nat -> wp (dvd_stateready A client go) settled s.
Proof.
  intros (Hq & Hc & He) Hn. cbn in Hn. apply wp_bind. eapply check_ok; [apply Hc|].
  destruct (decide (waiting g = [])) as [Hw|Hw].
  { rewrite bool_decide_true by done. cbn. apply wp_modify. exists g. split; [|right].
    - split; [apply Hc|]. by apply cinv_exec, Hc.
    - split_and!; [cbn; apply fupd_eq|done..]. }
  rewrite bool_decide_false by done. cbn [negb]. eapply pop_ok; [done..|].
  intros b qs m' Ep HbP Hbd s1 Hc1. set (g1 := mk_sched (Some b) qs) in *. apply wp_bind, wp_gets.
  assert (Hb1 : dv s1 dvd_executing = b) by (cbn; apply fupd_eq).
  destruct (mu_pop s s1 g b qs Ep) as [Hm1 Hm2]; [done..|]. fold g1 in Hm1, Hm2.
  change (dv s1 dvd_fatalerror) with (dv s dvd_fatalerror). destruct (Z.eqb_spec (dv s dvd_fatalerror) 0) as [Hf|Hf]; cbn [negb].
  2: { assert (HbS : is_Some (d_blk s1 !! b)) by (by apply (ci_dom _ _ _ _ (proj2 Hc1))).
    apply wp_bind, (wp_exec_state _ _ _ b); [done..|]. intros s2 He2.
    assert (Hfr : forall x, keyvar x = true -> dv s2 x = dv s1 x) by (by intros; apply He2).
    apply (next_ok A client P Hdummy Hnull Hclient n go Hgo s2 g1 b); [by eapply core_calm|by rewrite Hfr|done|done|by eapply quiet_calm|].
    pose proof (mu_ext _ _ _ g1 He2). specialize (Hm2 (or_introl Hf)). lia. }
  apply wp_bind, wp_gets. rewrite Hb1. assert (HbS : is_Some (d_blk s1 !! b)) by (by apply (ci_dom _ _ _ _ (proj2 Hc1))).
  apply wp_bind, wp_b_get; [done|]. intros x Hx. apply wp_bind, wp_modify, wp_bind, wp_gets. set (s2 := set_vars _ s1).
  assert (Hc2 : core s2 g1) by (split; [apply Hc1|apply cinv_currcmd, Hc1]).
  rewrite (ci_vars _ _ _ _ (proj2 Hc2)) by (right; right; by left). cbn [negb Z.eqb].
  apply wp_bind, (wp_exec_state _ _ _ b); [done..|]. intros s3 He3.
  assert (Hfr : forall y, keyvar y = true -> dv s3 y = dv s2 y) by (by intros; apply He3).
  apply wp_bind, wp_gets. rewrite (Hfr dvd_executing) by done. change (dv s2 dvd_executing) with (dv s1 dvd_executing). rewrite Hb1.
  (* [__dvd_laststate] is set by [__dvd_statebusy] before anything reads it *)
  unfold dvd_statebusy. apply wp_bind, wp_modify. set (s4 := set_laststate _ s3).
  assert (He4 : ext None s3 s4) by (split; [by constructor|done]).
  assert (HR4 : RQ s4 g1 b (mu s4 g1)).
  { split_and!; [|eapply quiet_calm; [exact He4|by eapply quiet_calm]|done]. split.
    - eapply core_calm; [exact He4|by eapply core_calm].
    - split_and!; [|done|done| |].
      + change (dv s4) with (dv s3). rewrite Hfr by done. done.
      + change (dv s4) with (dv s3). rewrite Hfr by done. change (cmds s4) with (cmds s3). rewrite (f_cmds _ _ (proj1 He3)).
        unfold cmds. change (d_blk s2) with (d_blk s1). rewrite lookup_fmap, Hx. cbn. by rewrite fupd_eq.
      + change (dv s4) with (dv s3). by rewrite Hfr. }
  assert (Hbusy : wp (dvd_statebusy go b) settled s4).
  { eapply busy_ok; [eassumption..|exact HR4|]. intros H16. assert (H16' : cmds s !! b = Some 16).
    { rewrite <- H16. change (cmds s4) with (cmds s3). rewrite (f_cmds _ _ (proj1 He3)). done. }
    assert (Hm4 : (mu s4 g1 <= mu s1 g1)%nat) by (change (mu s4 g1) with (mu s3 g1); by apply (mu_ext None s2 s3)).
    unfold spin_need. destruct (leafy s4) eqn:El; [lia|]. rewrite decide_True by done.
    assert (Hch : chip s = true).
    { destruct (chip s4) eqn:Ec; [|unfold leafy in El; rewrite Ec in El; by destruct (_ =? _)]. by apply (f_chip _ _ (proj1 He3)) in Ec. }
    specialize (Hm2 (or_intror (conj Hch H16'))). lia. }
  unfold dvd_statebusy in Hbusy. apply wp_run in Hbusy as (a & s5 & E5 & H5). apply wp_run. exists a, s5. split; [exact E5|exact H5].
Qed.

Lemma body_ok : go_ok A P (S n) (body A client go).
Proof. intros [f r|] s g Hp Hc; [by apply (low_ok f r s g)|by apply (stateready_ok s g)]. Qed.
End Turn.

Section Exec.
Context `{DvdHw} (A : dvdmap) (con : console) (client : Z -> Z -> Z -> list dvdreq) (P : list Z).
Context (Hdummy : a_dummycmdblk A ∈ P) (Hnull : NULL ∉ P) (Hclient : client_ok client).

Lemma exec_ok n : go_ok A P n (exec A client n).
Proof.
  induction n as [|n IH].
  - intros a s g _ Hc. exfalso. assert (1 <= cost a s g)%nat; [|lia]. clear. destruct a as [f r|]; cbn; [|lia].
    unfold top_need, spin_need. destruct (decide (r = 1)), f; try lia. destruct (leafy s); [lia|]. destruct (decide _); lia.
  - by apply body_ok.
Qed.

(** [turns] is enough for everything the driver is called for. *)
Lemma turns_ok s g : core A P s g -> (top_need g <= turns s)%nat.
Proof.
  intros [_ HC]. unfold top_need, turns. assert (length (waiting g) <= size (d_blk s))%nat; [|lia].
  destruct (ci_qs _ _ _ _ HC) as (_ & Hsub & Hnd & _). rewrite <- size_dom.
  rewrite <- (size_list_to_set (C := gset Z) (waiting g) Hnd). apply subseteq_size. intros b Hb.
  apply elem_of_list_to_set, Hsub, (ci_dom _ _ _ _ HC) in Hb. by apply elem_of_dom.
Qed.
End Exec.
