(* ===== verification/DvdTheorems.v ===== *)
(** * The optical drive's driver implements the scheduler

    Every event keeps the invariant, so the history of the driver is a run of the
    scheduler of [DvdSpec], whatever the drive answers and whenever it does. *)

From stdpp Require Import base gmap list.
From Stdlib Require Import ZArith Lia.
From S2P Require Import Prelude Chain LwpQueue Devices KState Clock Irq DspDev DvdPatch DvdState Dvd DvdSpec DvdProofs DvdInv DvdSafe DvdCircle.
From S2P Require ArqProofs.

Open Scope Z_scope.

Lemma di_disable con r : bit (pi1 (KIrqDisable con (IRQMASK IRQ_PI_DI) r)) 2 = false.
Proof.
  assert (E : pi1 (KIrqDisable con (IRQMASK IRQ_PI_DI) r) = Z.lor (Z.ldiff (Z.ldiff (pi1 r) 0) 4) 0) by (destruct con; reflexivity).
  rewrite E, Z.lor_0_r. unfold bit. change (Z.shiftl 1 2) with 4. by rewrite Z.land_ldiff.
Qed.

Section Events.
Context `{DvdHw} (A : dvdmap) (con : console) (client : Z -> Z -> Z -> list dvdreq) (P : list Z).
Context (Hdummy : a_dummycmdblk A ∈ P) (Hnull : NULL ∉ P) (Hclient : client_ok client).
Local Abbreviation post := (post A P).
Local Abbreviation settled := (settled A P).
Local Abbreviation core := (core A P).

Lemma wp_with_turns {X} (c : (act -> M dvdst unit) -> M dvdst X) Q s :
  wp (c (exec A client (turns s))) Q s -> wp (with_turns A client c) Q s.
Proof. done. Qed.

Lemma post_calm s s' g : ext None s s' -> post s g -> post s' g.
Proof.
  intros He [Hc Hp]. split; [by eapply core_calm|]. destruct Hp as [ [b Hr]|(H1 & H2 & H3 & H4)].
  - left. exists b. by eapply running_ext.
  - right. split_and!; [by rewrite (f_var _ _ (proj1 He))|done|done|by eapply quiet_calm].
Qed.
Lemma post_leaf {X} (c : M dvdst X) s g : Leaf c None -> post s g -> wp c (fun _ s' => post s' g) s.
Proof. intros Hc Hp. eapply wp_leaf; [exact Hc|apply Hp|]. intros a s' He. by eapply post_calm. Qed.

Lemma cost_top a s g : (cost a s g <= top_need g)%nat.
Proof.
  pose proof (mu_le s g). pose proof (spin_need_any (d_cb s dvd_finalsudcb) s g). unfold cost, top_need in *.
  destruct a as [f r|]; [|lia]. destruct (decide (r = 1)); [|lia]. destruct f; lia.
Qed.

Lemma exec_post a s g fuel : pre A P a s g -> fuel = turns s -> wp (exec A client fuel a) settled s.
Proof.
  intros Hp ->. eapply (exec_ok A client P Hdummy Hnull Hclient); [exact Hp|]. etrans; [apply cost_top|].
  destruct a as [f r|]; destruct Hp as [_ Hp]; [destruct Hp as [ [b [Hp _] ] _]|destruct Hp as [Hp _] ]; by eapply turns_ok.
Qed.

Lemma turns_cmds s s' : dom (d_blk s') = dom (d_blk s) -> turns s' = turns s.
Proof. intros E. unfold turns. by rewrite <- !size_dom, E. Qed.
Lemma turns_ext g s s' : ext g s s' -> turns s' = turns s.
Proof.
  intros [F _]. apply turns_cmds. pose proof (f_cmds _ _ F) as E. apply (f_equal dom) in E. unfold cmds in E. by rewrite !dom_fmap_L in E.
Qed.

Lemma request_ok s g q fuel :
  post s g -> fuel = turns s -> rq_blk q ∈ P -> rq_blk q <> a_dummycmdblk A -> ~ pending g (rq_blk q) -> op_ok (rq_op q) ->
  wp (issue_req A (exec A client fuel) q) settled s.
Proof.
  intros Hp -> Hb Hbd Hn Hop. eapply (issue_req_ok A P Hnull _ s g q); [apply Hp|done|done|by exists g|].
  intros s0 x prio He Hprio Hch. pose proof (post_calm _ _ _ He Hp) as [Hc0 Hp0].
  eapply (issue_push A P _ s0 g); [done..|]. intros s1 g1 Hc1 Hx1 Hdv Hcb Hal Hirq Hlast Hdom Hcm _.
  assert (Ht : turns s = turns s1) by (by rewrite (turns_cmds s0 s1), (turns_ext _ _ _ He)).
  destruct Hp0 as [ [c (R1 & R2 & R3 & R4 & R5)]|(I1 & I2 & I3 & I4)].
  - rewrite decide_False.
    + exists g1. split; [done|]. left. exists c. split_and!; [by rewrite Hdv|by rewrite Hx1|by rewrite Hlast| |by rewrite Hdv].
      rewrite Hdv, Hcm; [done|]. intros ->. apply Hn. by left.
    + rewrite R1. intros ->. apply Hnull. by apply (ci_exec _ _ _ _ (proj2 Hc0)).
  - rewrite decide_True by done. eapply wp_mono; [eapply (exec_post ActReady s1 g1); [|done]|done].
    split; [|by rewrite Hx1]. unfold quiet, di_enabled in *. by rewrite Hcb, Hal, Hirq.
Qed.

(** ** The interrupt *)

(** The drive answers [None] or [Some]: what is called with the result. *)
Lemma answer_ok s g f r fuel (Q : unit -> dvdst -> Prop) :
  core s g -> quiet s -> fuel = turns s -> (forall h, f = Some h -> allowed s h) ->
  ((exists b, running s g b) \/ (idle s g /\ f = None)) ->
  (forall s', settled tt s' -> Q tt s') -> wp (call_low_opt (exec A client fuel) f r) Q s.
Proof.
  intros Hc Hq Hfu Hal Hph HQ. destruct f as [h|]; cbn.
  - destruct Hph as [ [b Hr]|[_ ?] ]; [|done]. eapply wp_mono; [eapply exec_post; [|exact Hfu]|intros []; apply HQ].
    split; [exact Hq|]. split; [|by apply Hal]. by exists b.
  - apply wp_ret, HQ. exists g. split; [done|]. destruct Hph as [Hr|[Hi _] ]; [by left|by right].
Qed.

Lemma timeout_ok_ev s g : post s g -> d_alarm s <> None -> wp (dvd_step A con client DvTimeout) settled s.
Proof.
  intros Hp Hal. cbn [dvd_step]. apply wp_bind, wp_modify. set (s1 := set_alarm None s).
  assert (Hp1 : core s1 g /\ d_alarm s1 = None /\ ((exists b, running s1 g b) \/ (idle s1 g /\ d_cb s1 dvd_callback = None))).
  { destruct Hp as [ [Hh HC] Hp]. split_and!; [split; [done|by constructor; try apply HC]|done|].
    destruct Hp as [ [b Hr]|(H1 & H2 & H3 & H4)]; [left; by exists b|right].
    destruct H4 as [H4|[_ H4] ]; [|done]. split; [|done]. split_and!; [done..|by left]. }
  destruct Hp1 as ([Hh HC] & Ha & Hph). apply wp_with_turns.
  apply wp_bind, wp_modify. cbv beta. set (s2 := set_dirq _ s1). apply wp_bind, wp_gets.
  assert (Hd2 : di_enabled s2 = false) by (unfold s2, di_enabled; cbn [d_irq set_dirq ir_regs]; apply di_disable).
  assert (Hc2 : core s2 g) by (split; [done|by constructor; try apply HC]).
  apply (answer_ok s2 g); [done|by right|done|by apply (ci_cbs _ _ _ _ (proj2 Hc2))| |done].
  destruct Hph as [ [b Hr]|[(H1 & H2 & H3 & H4) Hcb] ]; [left; by exists b|right]. split; [|done]. split_and!; [done..|]. by right.
Qed.

(** Steps before the handler calls back: only registers, and the pointers are
    as before. *)
Definition J (s s' : dvdst) : Prop := ext (Some []) s s' /\ d_cb s' dvd_callback = d_cb s dvd_callback.
Lemma J_calm s s1 s2 : J s s1 -> ext None s1 s2 -> J s s2.
Proof. intros [H1 H2] He. split; [eapply ext_trans; [done|by apply ext_weaken]|]. by rewrite (proj1 (proj2 He)). Qed.
Lemma J_leaf {X} (c : M dvdst X) s0 s (Q : X -> dvdst -> Prop) :
  Leaf c None -> J s0 s -> snd (d_sram s0) = false -> (forall a s', J s0 s' -> Q a s') -> wp c Q s.
Proof.
  intros Hc HJ Hs HQ. eapply wp_leaf; [exact Hc|by rewrite (f_sram _ _ (proj1 (proj1 HJ)))|]. intros a s' He. eapply HQ, J_calm; done.
Qed.

Lemma cover_ok go s0 s (Q : Z -> dvdst -> Prop) :
  J s0 s -> snd (d_sram s0) = false -> d_cb s0 dvd_resetcovercb = None -> (forall z s', J s0 s' -> Q z s') -> wp (cover_part con go) Q s.
Proof.
  intros HJ Hs Hr HQ. unfold cover_part. apply wp_bind, wp_gets, wp_bind, wp_gets, wp_bind, wp_gets.
  destruct (_ && _).
  - apply wp_bind, (J_leaf _ s0); [apply leaf_di_rd|done..|]. intros st s1 HJ1. apply wp_bind.
    assert (Hr1 : d_cb s1 dvd_resetcovercb = None) by (destruct HJ1 as [(_ & _ & E & _) _]; by rewrite E).
    apply (wp_mono _ (fun _ s2 => J s0 s2)).
    + apply wp_when; intros _; [|done]. apply wp_bind, wp_gets. rewrite Hr1. apply wp_bind, wp_modify, wp_ret.
      destruct HJ1 as [He Hcb]. split; [|cbn; by rewrite fupd_ne]. eapply ext_trans; [exact He|]. split; [by constructor|]. cbn.
      rewrite !(fupd_ne _ _ _ dvd_finalsudcb), fupd_eq, Hr1 by done. split_and!; [done|done|rewrite fupd_ne by done; by left|].
      intros x f. destruct (decide (x = dvd_resetcovercb)) as [->|]; [by rewrite fupd_eq|]. rewrite fupd_ne by done. intros Hf. left. by exists x.
    + intros _ s2 HJ2. apply wp_bind, (J_leaf _ s0); [apply leaf_ack|done..|]. intros _ s3 HJ3. apply wp_ret. by apply HQ.
  - apply wp_bind, wp_gets. destruct (negb _).
    + apply wp_bind, (J_leaf _ s0); [apply leaf_di_rd|done..|]. intros st s1 HJ1. cbv zeta.
      apply wp_bind, (J_leaf _ s0); [apply leaf_di_wr|done..|]. intros _ s2 HJ2.
      apply wp_bind, (J_leaf _ s0); [leaf_atom|done..|]. intros _ s3 HJ3. apply wp_ret. by apply HQ.
    + apply wp_bind, (J_leaf _ s0); [apply leaf_di_wr|done..|]. intros _ s1 HJ1. apply wp_ret. by apply HQ.
Qed.

Lemma nextcmd_ok s0 s (Q : bool -> dvdst -> Prop) : J s0 s -> list_ok s0 -> Q false s -> wp ProcessNextCmd Q s.
Proof.
  intros [ [F _] _] Hl HQ. apply (f_list _ _ F) in Hl as (E0 & E1 & E2). apply wp_bind, wp_gets, wp_bind, wp_gets.
  cbv beta. rewrite E0, (proj2 (Z.eqb_neq _ _) E1), (proj2 (Z.eqb_neq _ _) E2). by apply wp_ret.
Qed.

Lemma interrupt_ok s g : post s g -> di_enabled s = true -> wp (dvd_step A con client DvIntr) settled s.
Proof.
  intros Hp Hen. pose proof Hp as [ [Hh HC] Hph].
  assert (Hs : snd (d_sram s) = false) by apply HC. assert (Hr : d_cb s dvd_resetcovercb = None) by apply HC.
  cbn [dvd_step]. apply wp_with_turns. unfold DVDInterruptHandler.
  apply wp_bind, wp_modify. set (s1 := set_alarm None s).
  assert (HJ1 : J s s1).
  { split; [|done]. split; [by constructor|]. cbn. split_and!; [done|done|by left|]. intros x f Hf. left. by exists x. }
  apply wp_bind, wp_gets, wp_bind, wp_gets, wp_bind, (J_leaf _ s); [apply leaf_when; leaf_atom|done..|]. intros _ s2 HJ2. cbv zeta.
  apply wp_bind, (J_leaf _ s); [leaf_atom|done..|]. intros _ s3 HJ3.
  apply wp_bind, (J_leaf _ s); [leaf_atom|done..|]. intros _ s4 HJ4.
  apply wp_bind, (J_leaf _ s); [apply leaf_di_rd|done..|]. intros status s5 HJ5. cbv zeta.
  apply wp_bind, (J_leaf _ s); [apply leaf_when; leaf_atom|done..|]. intros _ s6 HJ6.
  apply wp_bind, (J_leaf _ s); [apply leaf_di_wr|done..|]. intros _ s7 HJ7.
  apply wp_bind, (cover_ok _ s); [done..|]. intros cover s8 HJ8. apply wp_bind, wp_gets. cbv zeta.
  set (irmm := if _ : bool then _ else _). apply wp_bind.
  apply (wp_mono _ (fun (nx : bool) s9 => nx = false /\ J s s9)).
  { destruct (negb _); [apply (nextcmd_ok s); [done|apply HC|by split]|].
    apply wp_bind, (J_leaf _ s); [apply leaf_list0|done..|]. intros _ s9 HJ9.
    apply wp_bind, (J_leaf _ s); [apply leaf_nextcmd0|done..|]. intros _ s10 HJ10. by apply wp_ret. }
  intros nx s9 [-> [He9 Hcb9] ]. apply wp_bind, wp_gets, wp_bind, wp_modify. cbv beta. set (s10 := set_cbs _ s9).
  assert (Hc9 : core s9 g) by (eapply core_ext; [exact He9|intros f Hf; by apply elem_of_nil in Hf|by split]).
  assert (Hsud : d_cb s10 dvd_finalsudcb = d_cb s9 dvd_finalsudcb) by (unfold s10; cbn; by rewrite fupd_ne).
  assert (Hc10 : core s10 g).
  { split; [apply Hc9|]. destruct Hc9 as [_ HC9]. constructor; try apply HC9.
    intros x f. unfold s10. cbn. destruct (decide (x = dvd_callback)) as [->|]; [by rewrite fupd_eq|rewrite fupd_ne by done].
    intros Hf. apply (allowed_same s9); [done|by apply (ci_cbs _ _ _ _ HC9 x)]. }
  assert (Hq10 : quiet s10) by (left; unfold s10; cbn; apply fupd_eq).
  apply wp_bind. eapply (answer_ok s10 g); [done|done| | | |].
  - by rewrite <- (turns_ext _ _ _ He9).
  - intros h Hh9. apply (allowed_same s9); [done|]. by apply (ci_cbs _ _ _ _ (proj2 Hc9) dvd_callback).
  - destruct Hph as [ [b Hr9]|(H1 & H2 & H3 & H4)]; [left|right].
    + exists b. exact (running_ext _ _ _ _ _ He9 Hr9).
    + split; [split_and!; [|done|done|done]|].
      * change (dv s10) with (dv s9). by rewrite (f_var _ _ (proj1 He9)).
      * rewrite Hcb9. destruct H4 as [?|[H4 _] ]; [done|congruence].
  - intros s11 (g11 & Hp11). eapply wp_mono; [eapply post_leaf; [leaf_atom|exact Hp11]|]. intros a s12 Hp12. by exists g11.
Qed.

(** ** Every event *)

Lemma step_ok e s g : post s g -> dvd_ev_ok A e s g -> wp (dvd_step A con client e) settled s.
Proof.
  intros Hp He. pose proof Hp as [ [_ HC] _]. destruct e as [|q|block cb| | |mode| |k th block]; cbn in He.
  - apply wp_bind, wp_gets. rewrite (proj2 (Z.eqb_neq _ _) He). apply wp_ret. by exists g.
  - destruct He as (Hop & Hb & Hbd & Hn). apply elem_of_dom, (ci_dom _ _ _ _ HC) in Hb.
    cbn [dvd_step]. apply wp_with_turns, wp_bind.
    eapply wp_mono; [by apply (request_ok s g)|]. intros r s' Hs'. exact (wp_ret tt _ _ Hs').
  - destruct He as (Hb & Hbd & Hn). apply elem_of_dom, (ci_dom _ _ _ _ HC) in Hb.
    cbn [dvd_step]. apply wp_with_turns, wp_bind. unfold DVD_MountAsync.
    apply wp_bind. eapply (wp_leaf _ None); [leaf_atom|apply HC|]. intros _ s1 He1. pose proof (post_calm _ _ _ He1 Hp) as Hp1.
    apply wp_bind. eapply (wp_leaf _ None); [apply leaf_Reset|apply Hp1|]. intros _ s2 He2. pose proof (post_calm _ _ _ He2 Hp1) as Hp2.
    rewrite <- issue_req_spinup. eapply wp_mono.
    { apply (request_ok s2 g); [done| |done..]. by rewrite (turns_ext _ _ _ He2), (turns_ext _ _ _ He1). }
    intros r s' Hs'. exact (wp_ret tt _ _ Hs').
  - by apply (interrupt_ok s g).
  - by apply (timeout_ok_ev s g).
  - eapply wp_mono; [apply (post_leaf _ s g); [apply leaf_Reset|done]|]. intros a s' Hs'. by exists g.
  - eapply wp_mono; [apply (post_leaf _ s g); [|done]|intros a s' Hs'; by exists g].
    unfold DVD_Pause. apply leaf_bind; [leaf_atom|intros _]. apply leaf_bind; [leaf_atom|intros e]. apply leaf_when. leaf_atom.
  - apply wp_bind, wp_bind, wp_b_get; [by apply elem_of_dom|]. intros x Hx.
    repeat match goal with |- context [if ?c then _ else _] => destruct c; [by apply wp_ret, wp_ret; exists g|] end.
    apply wp_bind, wp_modify, wp_ret, wp_ret. exists g. apply (post_calm s); [|done]. split; [by constructor|done].
Qed.

Lemma run_ok evs s g : post s g -> dvd_run_ok A con client evs s -> wp (dvd_run A con client evs) settled s.
Proof.
  revert s g. induction evs as [|e evs IH]; intros s g Hp Hok; [apply wp_ret; by exists g|].
  destruct Hok as [(g' & Hg' & He) Hok]. assert (g' = g) as -> by (destruct Hp as [ [Hh _] _]; congruence).
  pose proof (step_ok e s g Hp He) as Hst. apply wp_bind. apply wp_run in Hst as (u & s' & E & (g1 & Hp1)). rewrite E in Hok.
  apply wp_run. exists u, s'. split; [done|]. by apply (IH s' g1).
Qed.

(** ** Initialisation *)

(** The memory the driver is given: the words of its queues, and the blocks of
    the program apart from them and from each other. *)
Definition dvd_layout (m : mem) : Prop :=
  pools A P m /\ forall i k, 0 <= i < 4 -> k = 0 \/ k = 4 \/ k = 8 -> is_Some (m !! (waitq A i + k)).

Lemma footprint_empty i w : footprint (waitq A i) [] w -> waitq A i <= w < waitq A i + 12.
Proof. intros [Hw|(x & Hx & _)]%ArqProofs.footprint_words; [done|]. by apply elem_of_nil in Hx. Qed.

Definition emptied (n : Z) (m : mem) : Prop :=
  dvd_layout m /\ forall i, 0 <= i < n -> queue_repr m (waitq A i) [].

Lemma init_one n m : emptied n m -> 0 <= n < 4 -> wp (lwp_queue_init_empty (waitq A n)) (fun _ m' => emptied (n + 1) m') m.
Proof.
  intros [ [Hp Hm] Hq] Hn. eapply wp_mono.
  { apply init_empty_spec; [replace (q_first _) with (waitq A n + 0) by (unfold q_first; lia)
      |replace (q_perm_null _) with (waitq A n + 4) by done|replace (q_last _) with (waitq A n + 8) by (unfold q_last; lia)]; apply Hm; auto. }
  cbn. intros _ m' [Hr Hag]. assert (Hmap : forall w, is_Some (m !! w) -> is_Some (m' !! w)).
  { intros w Hw. destruct (footprint_dec (waitq A n) [] w) as [Hf|Hf]; [by eapply queue_repr_mapped|by rewrite (Hag w Hf)]. }
  split; [split|].
  - intros i Hi. destruct (Hp i Hi) as (H1 & H2 & H3). split_and!; [|done|done]. intros x Hx. destruct (H1 x Hx). auto.
  - intros i k Hi Hk. by apply Hmap, Hm.
  - intros i Hi. destruct (decide (i = n)) as [->|]; [done|]. apply (queue_repr_frame m); [|apply Hq; lia].
    intros w Hw%footprint_empty. apply Hag. intros Hw'%footprint_empty. unfold waitq in *. lia.
Qed.

Definition dvd_fresh (blks : gmap Z cmdblk) (m : mem) : Prop := dvd_layout m /\ forall b, b ∈ P <-> is_Some (blks !! b).

Lemma dvd_init_ok blks m irq id :
  dvd_fresh blks m -> wp (DVD_Init A con) (fun _ s => post s sched0) (dvd_boot blks m irq id).
Proof.
  intros [Hlay Hdom]. apply wp_bind, wp_gets. cbn. apply wp_bind, wp_modify, wp_bind, wp_on_mem. cbn [d_mem set_vars dvd_boot].
  assert (H0 : emptied 0 m) by (split; [done|lia]).
  apply wp_bind. eapply wp_mono; [by apply (init_one 0)|]. cbn. intros _ m1 H1.
  apply wp_bind. eapply wp_mono; [by apply (init_one 1)|]. cbn. intros _ m2 H2.
  apply wp_bind. eapply wp_mono; [by apply (init_one 2)|]. cbn. intros _ m3 H3.
  eapply wp_mono; [by apply (init_one 3)|]. cbn. intros _ m4 [ [Hp _] H4].
  apply wp_bind, wp_bind, wp_modify, wp_bind, wp_modify, wp_modify. do 3 (apply wp_bind, wp_modify). apply wp_modify. cbv beta.
  split; [split; [done|]|right].
  - constructor; try done; cbn.
    + split_and!; [done|apply list_subseteq_nil|apply NoDup_nil_2|]. intros i L Hi. pose proof (lookup_lt_Some _ _ _ Hi). cbn in *.
      destruct i as [|[|[|[|] ] ] ]; cbn in Hi; try lia; injection Hi as <-; apply H4; lia.
    + apply not_elem_of_nil.
    + intros x. rewrite !elem_of_cons. intros [->|[->|[->|Hx] ] ]; [done..|]. by apply elem_of_nil in Hx.
  - split_and!; [done..|by left].
Qed.

(** A driver that runs nothing has nothing waiting. *)
Lemma idle_sched s g : post s g -> dv s dvd_executing = NULL -> g = sched0.
Proof.
  intros [ [Hh HC] [ [b (Hb & Hx & _)]|(_ & H1 & H2 & _)] ] Hn.
  - exfalso. apply Hnull. rewrite <- Hn, Hb. by apply (ci_exec _ _ _ _ HC).
  - destruct g as [x q]. cbn in H1. subst x. pose proof (qs_len _ _ _ _ HC) as Hlen. unfold waiting in H2. cbn in H2, Hlen.
    destruct q as [|[] [|[] [|[] [|[] [|] ] ] ] ]; done.
Qed.

(** What the scheduler's state says of the driver's. *)
Definition dvd_shows (s : dvdst) (g : sched) : Prop :=
  dv s dvd_executing = default NULL (sc_exec g) /\ (sc_exec g = None -> waiting g = []) /\
  forall i L, sc_q g !! i = Some L -> queue_repr (d_mem s) (waitq A (Z.of_nat i)) L.

Lemma post_shows s g : post s g -> dvd_shows s g.
Proof.
  intros [ [_ HC] Hp]. split_and!; [| |apply (ci_qs _ _ _ _ HC)].
  - destruct Hp as [ [b (-> & -> & _)]|(-> & -> & _)]; done.
  - destruct Hp as [ [b (_ & -> & _)]|(_ & _ & -> & _)]; done.
Qed.
End Events.

Section Theorems.
Context `{DvdHw} (A : dvdmap) (con : console) (client : Z -> Z -> Z -> list dvdreq).

(** C26. The driver of the optical drive refines the scheduler. Take a program
    whose callbacks issue at most the block they are called for, and any sequence
    of events: requests for blocks that are not pending, interrupts with any
    contents of the registers, timeouts, resets, pauses and polls. The driver
    handles every event without a fault within its turns, and its history is a
    run of the scheduler: commands start one at a time, by priority and within a
    priority in the order they were issued. The scheduler's state is the driver's:
    its four lists are the queues in memory, and no command waits while none runs. *)
Theorem dvd_refines_scheduler P blks m irq id evs :
  a_dummycmdblk A ∈ P -> NULL ∉ P -> client_ok client -> dvd_fresh A P blks m ->
  exists s, DVD_Init A con (dvd_boot blks m irq id) = Ok (tt, s) /\
    (dvd_run_ok A con client evs s ->
     exists s' g, dvd_run A con client evs s = Ok (tt, s') /\ sched_run sched0 (d_out s') = Some g /\ dvd_shows A s' g).
Proof.
  intros Hd Hn Hc Hf. destruct (proj1 (wp_run _ _ _) (dvd_init_ok A con P blks m irq id Hf)) as ([] & s & E & Hp).
  exists s. split; [done|]. intros Hok.
  destruct (proj1 (wp_run _ _ _) (run_ok A con client P Hd Hn Hc evs s sched0 Hp Hok)) as ([] & s' & E' & (g & Hp')).
  exists s', g. split_and!; [done|apply Hp'|by eapply post_shows].
Qed.

(** C29. No command is lost or completed twice. In any run of the driver in which
    it did not empty its queues, every block was completed exactly as often as it
    was accepted, or once less while it waits or runs. *)
Theorem dvd_completes_once P blks m irq id evs s s' :
  a_dummycmdblk A ∈ P -> NULL ∉ P -> client_ok client -> dvd_fresh A P blks m ->
  DVD_Init A con (dvd_boot blks m irq id) = Ok (tt, s) -> dvd_run_ok A con client evs s ->
  dvd_run A con client evs s = Ok (tt, s') -> EvDrop ∉ d_out s' ->
  exists g, dvd_shows A s' g /\
    forall b, (count (is_done b) (d_out s') + (if decide (pending g b) then 1 else 0))%nat = count (is_issue b) (d_out s').
Proof.
  intros Hd Hn Hc Hf E Hok Er Hdrop. pose proof (dvd_init_ok A con P blks m irq id Hf) as Hp. unfold wp in Hp. rewrite E in Hp.
  pose proof (run_ok A con client P Hd Hn Hc evs s sched0 Hp Hok) as Hr. unfold wp in Hr. rewrite Er in Hr. destruct Hr as [g Hp'].
  exists g. split; [by eapply post_shows|]. intros b.
  pose proof (sched_run_count (d_out s') sched0 g b sched0_ok ltac:(apply Hp') Hdrop) as Hcount. unfold owed in Hcount at 1.
  assert (Ho : owed sched0 b = 0%nat) by (apply decide_False; intros [?|Hb]; [done|by apply elem_of_nil in Hb]).
  rewrite Ho in Hcount. lia.
Qed.
End Theorems.
