(* ===== verification/DvdFatal.v ===== *)
(** * After a fatal error of the optical drive

    Once a command has failed for good ([__dvd_fatalerror]) the driver never
    starts a command again: whatever is issued fails at once. Nothing sets the
    flag back, neither a reset nor mounting a disc. *)

From stdpp Require Import base gmap list.
From Stdlib Require Import ZArith Lia.
From S2P Require Import Prelude Chain LwpQueue Devices KState Clock Irq DspDev DvdPatch DvdState Dvd DvdSpec DvdProofs DvdInv DvdSafe DvdCircle DvdTheorems.

Open Scope Z_scope.

(** What may happen: a command that is completed failed, and no command is sent
    to the drive (register 7 starts one). *)
Definition ev_dead (e : dvdev) : Prop := match e with EvDone _ r => r = -1 | EvDrop => False | _ => True end.
Definition reg_dead (e : regev) : Prop := match e with WrReg r _ => r <> 7 | RdReg _ _ => True end.

Record T (s s' : dvdst) : Prop := {
  t_fatal : dv s dvd_fatalerror <> 0 -> dv s' dvd_fatalerror <> 0;
  t_out : exists l, d_out s' = d_out s ++ l /\ Forall ev_dead l;
  t_log : exists l, d_log s' = d_log s ++ l /\ Forall reg_dead l;
  t_cb x : d_cb s x = None -> d_cb s' x = None;
  t_list : list_ok s -> list_ok s';
}.

Lemma T_refl s : T s s.
Proof. constructor; try done; exists []; by rewrite app_nil_r. Qed.
Lemma T_trans s1 s2 s3 : T s1 s2 -> T s2 s3 -> T s1 s3.
Proof.
  intros [F1 (l1 & E1 & H1) (k1 & G1 & K1) C1 L1] [F2 (l2 & E2 & H2) (k2 & G2 & K2) C2 L2]. constructor; auto.
  - exists (l1 ++ l2). rewrite E2, E1, app_assoc. split; [done|by apply Forall_app].
  - exists (k1 ++ k2). rewrite G2, G1, app_assoc. split; [done|by apply Forall_app].
Qed.

(** [wlp c Q s]: if [c] returns, it ends in [Q]. That it returns is in
    [DvdTheorems]. *)
Definition wlp {X} (c : M dvdst X) (Q : X -> dvdst -> Prop) (s : dvdst) : Prop :=
  match c s with Ok (a, s') => Q a s' | Fault _ => True end.
Definition Tr {X} (c : M dvdst X) : Prop := forall s, dv s dvd_fatalerror <> 0 -> wlp c (fun _ s' => T s s') s.

Lemma wlp_bind {X Y} (c : M dvdst X) (k : X -> M dvdst Y) Q s : wlp c (fun a s' => wlp (k a) Q s') s -> wlp (bind c k) Q s.
Proof. unfold wlp, bind. by destruct (c s) as [ [a s']|]. Qed.
Lemma wlp_mono {X} (c : M dvdst X) (Q Q' : X -> dvdst -> Prop) s :
  wlp c Q s -> (forall a s', Q a s' -> Q' a s') -> wlp c Q' s.
Proof. unfold wlp. destruct (c s) as [ [a s']|]; auto. Qed.

Lemma wlp_gets {X} (f : dvdst -> X) (Q : X -> dvdst -> Prop) s : Q (f s) s -> wlp (gets f) Q s.
Proof. done. Qed.

Lemma tr_ret {X} (a : X) : Tr (ret a).
Proof. intros s _. apply T_refl. Qed.
Lemma tr_fail {X} f : Tr (fail f : M dvdst X).
Proof. by intros s _. Qed.
Lemma tr_gets {X} (f : dvdst -> X) : Tr (gets f).
Proof. intros s _. apply T_refl. Qed.
Lemma tr_bind {X Y} (c : M dvdst X) (k : X -> M dvdst Y) : Tr c -> (forall a, Tr (k a)) -> Tr (bind c k).
Proof.
  intros Hc Hk s Hs. apply wlp_bind. eapply wlp_mono; [by apply Hc|]. cbn. intros a s1 H1.
  eapply wlp_mono; [apply Hk; by apply (t_fatal _ _ H1)|]. cbn. intros b s2. by apply T_trans.
Qed.
Lemma tr_when b c : Tr c -> Tr (when b c).
Proof. intros Hc. destruct b; [done|apply tr_ret]. Qed.
Lemma tr_modify f : (forall s, T s (f s)) -> Tr (modify f).
Proof. intros Hf s _. apply Hf. Qed.
Lemma tr_setv x v : x <> dvd_fatalerror -> x <> dvd_nextcmdnum -> Tr (setv x v).
Proof.
  intros Hf Hn. apply tr_modify. intros s. constructor; try done; try (by exists []; rewrite app_nil_r).
  - cbn. by rewrite fupd_ne by congruence.
  - unfold list_ok. cbn. by rewrite fupd_ne by congruence.
Qed.
Lemma tr_nextcmd0 : Tr (setv dvd_nextcmdnum 0).
Proof.
  apply tr_modify. intros s. constructor; try done; try (by exists []; rewrite app_nil_r). intros [_ Hl]. split; [cbn; apply fupd_eq|done].
Qed.
Lemma tr_cb_none x : Tr (setcb x None).
Proof.
  apply tr_modify. intros s. constructor; try done; try (by exists []; rewrite app_nil_r).
  intros y Hy. cbn. destruct (decide (y = x)) as [->|]; [apply fupd_eq|by rewrite fupd_ne].
Qed.
Lemma tr_plain f :
  (forall s, dv (f s) = dv s /\ d_out (f s) = d_out s /\ d_log (f s) = d_log s /\ d_cb (f s) = d_cb s /\ (list_ok s -> list_ok (f s))) ->
  Tr (modify f).
Proof.
  intros Hf. apply tr_modify. intros s. destruct (Hf s) as (E1 & E2 & E3 & E4 & E5). constructor; rewrite ?E1, ?E2, ?E3, ?E4; try done.
  - exists []. by rewrite app_nil_r.
  - exists []. by rewrite app_nil_r.
Qed.
Lemma tr_emit e : ev_dead e -> Tr (emit e).
Proof.
  intros He. apply tr_modify. intros s. constructor; try done; [exists [e]; split; [done|by apply Forall_singleton]|].
  exists []. by rewrite app_nil_r.
Qed.
Lemma tr_b_get {X} (f : cmdblk -> X) b : Tr (b_get f b).
Proof. intros s _. unfold wlp, b_get, getopt. destruct (f <$> d_blk s !! b); [apply T_refl|done]. Qed.
Lemma tr_b_const {X Y} (v : X) b (k : X -> M dvdst Y) : Tr (k v) -> Tr (bind (b_get (fun _ => v) b) k).
Proof.
  intros Hk s Hs. apply wlp_bind. unfold wlp at 1, b_get, getopt. destruct (d_blk s !! b); [|done]. by apply Hk.
Qed.
Lemma tr_b_upd b f : Tr (b_upd b f).
Proof.
  intros s _. unfold wlp, b_upd. destruct (d_blk s !! b); [|done]. constructor; try done; exists []; by rewrite app_nil_r.
Qed.
Lemma tr_on_mem {X} (c : M mem X) : Tr (on_mem c).
Proof.
  intros s _. unfold wlp, on_mem. destruct (c (d_mem s)) as [ [a m]|]; [|done]. constructor; try done; exists []; by rewrite app_nil_r.
Qed.

Section Fatal.
Context `{DvdHw} (A : dvdmap) (con : console) (client : Z -> Z -> Z -> list dvdreq).
Context (Hclient : client_ok client).

Lemma tr_di_rd r : Tr (di_rd r).
Proof.
  intros s _. constructor; try done; [exists []; by rewrite app_nil_r|]. eexists. split; [done|]. by apply Forall_singleton.
Qed.
Lemma tr_di_wr r v : r <> 7 -> Tr (di_wr r v).
Proof.
  intros Hr. apply tr_modify. intros s. constructor; try done; [exists []; by rewrite app_nil_r|].
  eexists. split; [done|]. by apply Forall_singleton.
Qed.
Lemma tr_ack : Tr di_ack.
Proof. apply tr_bind; [apply tr_di_rd|]. intros v. by apply tr_di_wr. Qed.

Ltac tr_step :=
  lazymatch goal with
  | |- Tr (bind (b_get (fun _ => _) _) _) => apply tr_b_const
  | |- Tr (bind _ _) => apply tr_bind; [|intros ?]
  | |- Tr (ret _) => apply tr_ret
  | |- Tr (fail _) => apply tr_fail
  | |- Tr (gets _) => apply tr_gets
  | |- Tr (getv _) => apply tr_gets
  | |- Tr (getcb _) => apply tr_gets
  | |- Tr (when _ _) => apply tr_when
  | |- Tr (setv dvd_nextcmdnum 0) => apply tr_nextcmd0
  | |- Tr (setv _ _) => apply tr_setv; [done|done]
  | |- Tr (setcb _ None) => apply tr_cb_none
  | |- Tr (emit _) => apply tr_emit; done
  | |- Tr (b_get _ _) => apply tr_b_get
  | |- Tr (b_upd _ _) => apply tr_b_upd
  | |- Tr (on_mem _) => apply tr_on_mem
  | |- Tr (di_rd _) => apply tr_di_rd
  | |- Tr (di_wr _ _) => apply tr_di_wr; done
  | |- Tr di_ack => apply tr_ack
  | |- Tr (if ?b then _ else _) => destruct b
  | |- Tr (modify _) => apply tr_plain; intros; by split_and!
  end.
Ltac tr := repeat tr_step.

Lemma tr_Reset mode : Tr (DVD_Reset mode).
Proof. unfold DVD_Reset, DVD_LowReset. tr. Qed.

Lemma tr_check n i : Tr (checkwaiting_loop A n i).
Proof. revert i. induction n as [|n IH]; intros i; cbn; tr. apply IH. Qed.
Lemma tr_pop n i : Tr (popwaiting_loop A n i).
Proof. revert i. induction n as [|n IH]; intros i; cbn; unfold dvd_popwaitingqueueprio; tr. apply IH. Qed.

(** A failed command's callback asks for nothing. *)
Lemma tr_user go cb b : Tr (call_user A client go cb (-1) b).
Proof.
  unfold call_user. tr; [unfold wake_all; tr|]. rewrite (proj1 (Hclient cb (-1) b) eq_refl). apply tr_ret.
Qed.
Lemma tr_callback go cb b : Tr (call_cb A client go cb (-1) b).
Proof.
  unfold call_cb. destruct (cb =? a_callback A); [|apply tr_user]. unfold callback. cbn [Z.eqb Z.leb DVD_DISKIDSIZE].
  apply tr_bind; [apply tr_ret|intros _]. unfold call_mount. tr. apply tr_user.
Qed.

Lemma tr_ready n : Tr (exec A client n ActReady).
Proof.
  induction n as [|n IH]; [apply tr_fail|]. cbn [exec body]. unfold dvd_stateready.
  apply tr_bind; [apply tr_check|intros w]. tr_step; [tr|]. tr_step; [apply tr_pop|]. tr_step; [tr|]. tr_step; [tr|].
  intros s Hs. apply wlp_bind. change (wlp (gets ?f) ?Q s) with (Q (f s) s). unfold wlp, getv, gets. cbn.
  rewrite (proj2 (Z.eqb_neq _ _) Hs). cbn [negb].
  match goal with |- match ?c s with _ => _ end => change (wlp c (fun _ s' => T s s') s) end.
  revert s Hs. change (Tr (exec_state (-1);; finish A client (exec A client n) None (fun _ => -1))).
  unfold exec_state, finish, complete, stateready. tr; [apply (tr_callback (exec A client n))|exact IH].
Qed.

Lemma tr_issue n prio b : Tr (issuecommand A (exec A client n) prio b).
Proof. unfold issuecommand, dvd_pushwaitingqueue. tr. apply tr_ready. Qed.
Lemma tr_request n q : Tr (issue_req A (exec A client n) q).
Proof.
  unfold issue_req. destruct (rq_op q);
    unfold DVD_ReadDiskID, DVD_ReadAbsAsyncPrio, DVD_ReadAbsAsyncForBS, DVD_SeekAbsAsyncPrio, DVD_InquiryAsync, DVD_StopStreamAtEndAsync,
      DVD_SpinUpDriveAsync, DVD_ControlDriveAsync, DVD_SetGCMOffsetAsync, DVDAudioBufferConfig;
    repeat tr_step; try apply tr_issue; apply tr_Reset.
Qed.

(** *** The interrupt, when nothing is to be called back *)

Definition wlpT (s0 : dvdst) {X} (c : M dvdst X) (s : dvdst) : Prop := wlp c (fun _ s' => T s0 s') s.

Lemma T_step {X Y} s0 s (c : M dvdst X) (k : X -> M dvdst Y) Q :
  dv s0 dvd_fatalerror <> 0 -> T s0 s -> Tr c -> (forall a s', T s0 s' -> wlp (k a) Q s') -> wlp (bind c k) Q s.
Proof.
  intros Hf HT Hc Hk. apply wlp_bind. eapply wlp_mono; [apply Hc; by apply (t_fatal _ _ HT)|]. cbn. intros a s' H'. by eapply Hk, T_trans.
Qed.
Lemma T_end {X} s0 s (c : M dvdst X) : dv s0 dvd_fatalerror <> 0 -> T s0 s -> Tr c -> wlp c (fun _ s' => T s0 s') s.
Proof. intros Hf HT Hc. eapply wlp_mono; [apply Hc; by apply (t_fatal _ _ HT)|]. cbn. intros a s'. by apply T_trans. Qed.

Lemma cover_T go s0 s :
  T s0 s -> dv s0 dvd_fatalerror <> 0 -> d_cb s0 dvd_resetcovercb = None -> wlp (cover_part con go) (fun _ s' => T s0 s') s.
Proof.
  intros HT Hf Hr. unfold cover_part. do 3 (eapply T_step; [done|done|tr|clear s HT; intros ? s HT]). destruct (_ && _).
  - eapply T_step; [done|done|tr|]. clear s HT. intros st s HT. apply wlp_bind.
    eapply (wlp_mono _ (fun _ s' => T s0 s')); [|intros _ s' HT'; by apply T_end; [..|tr] ].
    unfold when. destruct (negb _); [|exact HT]. apply wlp_bind. change (wlp (gets ?f) ?Q s) with (Q (f s) s).
    unfold wlp at 1, getcb, gets. rewrite (t_cb _ _ HT _ Hr). eapply T_step; [done|done|tr|]. intros _ s1 HT1. exact HT1.
  - apply T_end; [done..|]. tr.
Qed.

Lemma interrupt_T go s :
  dv s dvd_fatalerror <> 0 -> d_cb s dvd_resetcovercb = None -> d_cb s dvd_callback = None -> list_ok s ->
  wlp (DVDInterruptHandler con go) (fun _ s' => T s s') s.
Proof.
  intros Hf Hr Hcb Hl. pose proof (T_refl s) as HT. revert HT. generalize s at 2 4 as s1. intros s1 HT. unfold DVDInterruptHandler.
  do 5 (eapply T_step; [done|done|tr|clear s1 HT; intros ? s1 HT; cbv beta zeta]).
  do 4 (eapply T_step; [done|done|tr|clear s1 HT; intros ? s1 HT; cbv beta zeta]).
  apply wlp_bind. eapply wlp_mono; [by apply cover_T|]. cbv beta. clear s1 HT. intros cover s1 HT.
  eapply T_step; [done|done|tr|]. clear s1 HT. intros brk s1 HT. cbv zeta. set (irmm := if _ : bool then _ else _). apply wlp_bind.
  apply (wlp_mono _ (fun (nx : bool) s2 => nx = false /\ T s s2)).
  { destruct (negb _).
    - pose proof (t_list _ _ HT Hl) as (E0 & E1 & E2). unfold ProcessNextCmd. apply wlp_bind, wlp_gets. cbv beta. rewrite E0.
      apply wlp_bind, wlp_gets. cbv beta zeta. rewrite (proj2 (Z.eqb_neq _ _) E1), (proj2 (Z.eqb_neq _ _) E2). by split.
    - eapply T_step; [done|done| |].
      + apply tr_plain. intros s2. split_and!; try done. intros [? _]. by split.
      + intros _ s2 HT2. eapply T_step; [done|done|tr|]. intros _ s3 HT3. by split. }
  intros nx s2 [-> HT2]. apply wlp_bind. unfold wlp at 1, getcb, gets. rewrite (t_cb _ _ HT2 _ Hcb).
  eapply T_step; [done|done|tr|]. intros _ s3 HT3. cbn. eapply T_step; [done|done|tr|]. intros _ s4 HT4. apply T_end; [done..|]. tr.
Qed.

(** ** Every event *)

Lemma tr_turns {X} (c : (act -> M dvdst unit) -> M dvdst X) : (forall n, Tr (c (exec A client n))) -> Tr (with_turns A client c).
Proof. intros Hc s. apply Hc. Qed.

Lemma tr_Pause : Tr DVD_Pause.
Proof. unfold DVD_Pause. tr. Qed.
Lemma tr_poll k th block : Tr (dvd_poll k th block;; ret tt).
Proof. unfold dvd_poll. tr. Qed.

Lemma wlp_turns {X} (c : (act -> M dvdst unit) -> M dvdst X) Q s : wlp (c (exec A client (turns s))) Q s -> wlp (with_turns A client c) Q s.
Proof. done. Qed.

Lemma step_T P e s g : post A P s g -> dv s dvd_fatalerror <> 0 -> dvd_ev_ok A e s g -> wlp (dvd_step A con client e) (fun _ s' => T s s') s.
Proof.
  intros [ [_ HC] Hph] Hf He. assert (Hq : quiet s).
  { destruct Hph as [ [b (_ & _ & _ & _ & Hr)]|(_ & _ & _ & Hq)]; [congruence|done]. }
  destruct e as [|q|block cb| | |mode| |k th block]; cbn [dvd_step].
  - cbn in He. unfold DVD_Init. apply wlp_bind, wlp_gets. rewrite (proj2 (Z.eqb_neq _ _) He). by apply tr_ret.
  - apply tr_turns; [|done]. intros n. apply tr_bind; [apply tr_request|intros r; apply tr_ret].
  - apply tr_turns; [|done]. intros n. unfold DVD_MountAsync, DVD_SpinUpDriveAsync. repeat tr_step; (apply tr_Reset || apply tr_issue || idtac).
  - cbn in He. assert (Hcb : d_cb s dvd_callback = None) by (destruct Hq as [?|[Hq _] ]; [done|congruence]).
    apply wlp_turns, interrupt_T; [done|apply HC|done|apply HC].
  - cbn in He. assert (Hcb : d_cb s dvd_callback = None) by (destruct Hq as [?|[_ Hq] ]; [done|congruence]).
    eapply T_step; [exact Hf|apply T_refl|tr|]. intros _ s1 H1. apply wlp_turns. unfold dvd_timeouthandler.
    eapply T_step; [exact Hf|exact H1|tr|]. intros _ s2 H2. apply wlp_bind, wlp_gets. by rewrite (t_cb _ _ H2 _ Hcb).
  - by apply (tr_Reset mode).
  - by apply tr_Pause.
  - by apply tr_poll.
Qed.

Lemma T_run P evs s g :
  post A P s g -> a_dummycmdblk A ∈ P -> NULL ∉ P -> dv s dvd_fatalerror <> 0 -> dvd_run_ok A con client evs s ->
  wlp (dvd_run A con client evs) (fun _ s' => T s s') s.
Proof.
  intros Hp Hd Hn. revert s g Hp. induction evs as [|e evs IH]; intros s g Hp Hf Hok; [apply T_refl|].
  destruct Hok as [(g' & Hg' & He) Hok]. assert (g' = g) as -> by (destruct Hp as [ [Hh _] _]; congruence).
  pose proof (step_T P e s g Hp Hf He) as HT. pose proof (step_ok A con client P Hd Hn Hclient e s g Hp He) as Hst.
  cbn [dvd_run]. unfold wlp, bind in *. unfold wp in Hst. destruct (dvd_step A con client e s) as [ [[] s1]|]; [|done].
  destruct Hst as [g1 Hp1]. pose proof (IH s1 g1 Hp1 (t_fatal _ _ HT Hf) Hok) as HT1.
  destruct (dvd_run A con client evs s1) as [ [[] s2]|]; [|done]. by eapply T_trans.
Qed.
End Fatal.

Lemma dead_no_drop l : Forall ev_dead l -> EvDrop ∉ l.
Proof. intros Hl Hd. by apply (proj1 (Forall_forall _ _) Hl) in Hd. Qed.

Section Theorem_.
Context `{DvdHw} (A : dvdmap) (con : console) (client : Z -> Z -> Z -> list dvdreq).

(** C28. A fatal error is final. After a command has failed for good, whatever
    happens - requests, interrupts, resets, mounting - the flag stays set, no
    command is running or waiting when an event has been handled, every command
    that is accepted is completed with the result -1, and no command is written
    to the drive's control register. *)
Theorem dvd_fatal_is_final P blks m irq id evs evs' s0 s :
  a_dummycmdblk A ∈ P -> NULL ∉ P -> client_ok client -> dvd_fresh A P blks m ->
  DVD_Init A con (dvd_boot blks m irq id) = Ok (tt, s0) -> dvd_run_ok A con client evs s0 ->
  dvd_run A con client evs s0 = Ok (tt, s) -> dv s dvd_fatalerror <> 0 -> dvd_run_ok A con client evs' s ->
  exists s' l k, dvd_run A con client evs' s = Ok (tt, s') /\ dv s' dvd_fatalerror <> 0 /\
    dvd_shows A s' sched0 /\ d_out s' = d_out s ++ l /\ Forall ev_dead l /\
    (forall b, count (is_done b) l = count (is_issue b) l) /\
    d_log s' = d_log s ++ k /\ Forall reg_dead k.
Proof.
  intros Hd Hn Hc Hfr E Hok Er Hf Hok'. pose proof (dvd_init_ok A con P blks m irq id Hfr) as Hp. unfold wp in Hp. rewrite E in Hp.
  pose proof (run_ok A con client P Hd Hn Hc evs s0 sched0 Hp Hok) as Hr. unfold wp in Hr. rewrite Er in Hr. destruct Hr as [g Hg].
  destruct (proj1 (wp_run _ _ _) (run_ok A con client P Hd Hn Hc evs' s g Hg Hok')) as ([] & s' & E' & (g' & Hp')).
  pose proof (T_run A con client Hc P evs' s g Hg Hd Hn Hf Hok') as HT. unfold wlp in HT. rewrite E' in HT.
  destruct (t_out _ _ HT) as (l & El & Hl). destruct (t_log _ _ HT) as (k & Ek & Hk). pose proof (t_fatal _ _ HT Hf) as Hf'.
  assert (Hidle : forall s g, post A P s g -> dv s dvd_fatalerror <> 0 -> g = sched0).
  { intros t h Ht Hne. apply (idle_sched A P Hn t h Ht). destruct Ht as [_ [ [b (_ & _ & _ & _ & ?)]|(? & _)] ]; congruence. }
  rewrite (Hidle _ _ Hg Hf) in Hg. rewrite (Hidle _ _ Hp' Hf') in Hp'. exists s', l, k. split_and!; [done..|by eapply post_shows|done|done| |done|done].
  intros b. pose proof (sched_run_app sched0 (d_out s) l) as Ea. rewrite <- El, (proj1 (proj1 Hg)), (proj1 (proj1 Hp')) in Ea. cbn in Ea.
  pose proof (sched_run_count l sched0 sched0 b sched0_ok (eq_sym Ea) (dead_no_drop l Hl)). lia.
Qed.
End Theorem_.
