(* ===== verification/DvdBus.v ===== *)
(** * The commands on the optical drive's bus

    [sent] reads off the history of the registers which commands the drive was
    given: a write to register 7 starts the command the registers before it
    describe. [K] is what the interrupt handler does before it calls back: it
    touches only the status and cover registers and its own flags. *)

From stdpp Require Import base gmap list.
From Stdlib Require Import ZArith Lia.
From S2P Require Import Prelude Chain LwpQueue Devices KState Clock Irq DspDev DvdPatch DvdState Dvd DvdSpec DvdProofs DvdInv.

Open Scope Z_scope.

(** A command: its code, the three words that go with it, where the data goes and
    how much of it, and what is written to the control register. *)
Record dicmd := mk_dicmd { di_op : Z; di_arg : Z; di_arg2 : Z; di_dma : Z; di_dmalen : Z; di_ctl : Z }.
Record bus := mk_bus { bus_reg : Z -> Z; bus_cmds : list dicmd }.

Definition bus_step (b : bus) (e : regev) : bus :=
  match e with
  | RdReg _ _ => b
  | WrReg r v =>
      let f := fupd (bus_reg b) r v in
      mk_bus f (if r =? 7 then bus_cmds b ++ [mk_dicmd (f 2) (f 3) (f 4) (f 5) (f 6) v] else bus_cmds b)
  end.
Definition bus_of (l : list regev) : bus := fold_left bus_step l (mk_bus (fun _ => 0) []).
Definition sent (l : list regev) : list dicmd := bus_cmds (bus_of l).

(** Only the status and the cover register are written. *)
Definition reg_calm (e : regev) : Prop := match e with WrReg r _ => r = 0 \/ r = 1 | RdReg _ _ => True end.

Lemma bus_app l k : bus_of (l ++ k) = fold_left bus_step k (bus_of l).
Proof. apply fold_left_app. Qed.

Lemma bus_calm k b : Forall reg_calm k -> bus_cmds (fold_left bus_step k b) = bus_cmds b /\
  forall r, 2 <= r -> bus_reg (fold_left bus_step k b) r = bus_reg b r.
Proof.
  intros Hk. revert b. induction Hk as [|e k He Hk IH]; intros b; [done|]. cbn [fold_left]. destruct (IH (bus_step b e)) as [E1 E2].
  destruct e as [r v|r v]; [done|]. cbn in He. split.
  - rewrite E1. cbn. by rewrite (proj2 (Z.eqb_neq r 7)) by lia.
  - intros q Hq. rewrite E2 by done. cbn. by rewrite fupd_ne by lia.
Qed.
Lemma sent_calm l k : Forall reg_calm k -> sent (l ++ k) = sent l.
Proof. intros Hk. unfold sent. rewrite bus_app. by apply bus_calm. Qed.

(** The variables the handler changes itself. *)
Definition ownvar (x : dvar) : bool :=
  match x with
  | dvd_lastcmdwasread | dvd_stopnextint | dvd_resetoccured | dvd_waitcoverclose | dvd_breaking | dvd_nextcmdnum => true
  | _ => false
  end.

Record K (s s' : dvdst) : Prop := {
  k_blk : d_blk s' = d_blk s;
  k_mem : d_mem s' = d_mem s;
  k_out : d_out s' = d_out s;
  k_irq : d_irq s' = d_irq s;
  k_patch : d_patch s' = d_patch s;
  k_buf : d_cmdbuf s' = d_cmdbuf s;
  k_sram : d_sram s' = d_sram s;
  k_list : list_ok s -> list_ok s';
  k_stop : dv s dvd_stopnextint = 0 -> dv s' dvd_stopnextint = 0;
  k_var x : ownvar x = false -> dv s' x = dv s x;
  k_cbs x : x <> dvd_callback -> d_cb s x = None \/ x <> dvd_resetcovercb -> d_cb s' x = d_cb s x;
  k_log : exists k, d_log s' = d_log s ++ k /\ Forall reg_calm k;
}.

Lemma K_refl s : K s s.
Proof. constructor; try done. exists []. by rewrite app_nil_r. Qed.
Lemma K_trans s1 s2 s3 : K s1 s2 -> K s2 s3 -> K s1 s3.
Proof.
  intros [A1 B1 C1 D1 E1 F1 S1 L1 P1 V1 N1 (k1 & G1 & H1)] [A2 B2 C2 D2 E2 F2 S2 L2 P2 V2 N2 (k2 & G2 & H2)].
  constructor; try congruence; auto.
  - intros x Hx. by rewrite V2, V1.
  - intros x Hx Hr. rewrite N2; [by apply N1|done|]. destruct Hr as [Hr|Hr]; [left; by rewrite N1 by auto|by right].
  - exists (k1 ++ k2). rewrite G2, G1, app_assoc. split; [done|by apply Forall_app].
Qed.
Lemma K_sent s s' : K s s' -> sent (d_log s') = sent (d_log s).
Proof. intros HK. destruct (k_log _ _ HK) as (k & -> & Hk). by apply sent_calm. Qed.

(** Steps that are calm: [Kp c]. *)
Definition Kp {X} (c : M dvdst X) : Prop := forall s, wp c (fun _ s' => K s s' /\ d_cb s' dvd_callback = d_cb s dvd_callback) s.

Lemma kp_ret {X} (a : X) : Kp (ret a).
Proof. intros s. split; [apply K_refl|done]. Qed.
Lemma kp_gets {X} (f : dvdst -> X) : Kp (gets f).
Proof. intros s. split; [apply K_refl|done]. Qed.
Lemma kp_bind {X Y} (c : M dvdst X) (k : X -> M dvdst Y) : Kp c -> (forall a, Kp (k a)) -> Kp (bind c k).
Proof.
  intros Hc Hk s. apply wp_bind. eapply wp_mono; [apply Hc|]. cbn. intros a s1 [H1 E1].
  eapply wp_mono; [apply Hk|]. cbn. intros b s2 [H2 E2]. split; [by eapply K_trans|congruence].
Qed.
Lemma kp_when b c : Kp c -> Kp (when b c).
Proof. intros Hc. destruct b; [done|apply kp_ret]. Qed.
Lemma kp_log (f : dvdst -> list regev) :
  (forall s, exists e, f s = d_log s ++ [e] /\ reg_calm e) -> Kp (modify (fun s => set_dlog (f s) s)).
Proof.
  intros Hf s. destruct (Hf s) as (e & E & He). split; [|done]. constructor; try done. cbn. exists [e]. split; [done|by apply Forall_singleton].
Qed.
Lemma kp_setv x v : ownvar x = true -> x <> dvd_nextcmdnum -> x <> dvd_stopnextint -> Kp (setv x v).
Proof.
  intros Hx Hn Hs s. split; [|done]. constructor; try done.
  - unfold list_ok. cbn. by rewrite fupd_ne by congruence.
  - cbn. by rewrite fupd_ne by congruence.
  - intros y Hy. cbn. apply fupd_ne. congruence.
  - exists []. by rewrite app_nil_r.
Qed.
Lemma kp_nextcmd : Kp (setv dvd_nextcmdnum 0).
Proof.
  intros s. split; [|done]. constructor; try done.
  - intros [_ Hl]. split; [cbn; apply fupd_eq|done].
  - intros y Hy. cbn. apply fupd_ne. by intros ->.
  - exists []. by rewrite app_nil_r.
Qed.
Lemma kp_plain (f : dvdst -> dvdst) :
  (forall s, d_blk (f s) = d_blk s /\ d_mem (f s) = d_mem s /\ d_out (f s) = d_out s /\ d_irq (f s) = d_irq s /\
     d_patch (f s) = d_patch s /\ d_cmdbuf (f s) = d_cmdbuf s /\ d_sram (f s) = d_sram s /\ (list_ok s -> list_ok (f s)) /\
     dv (f s) = dv s /\ d_cb (f s) = d_cb s /\ d_log (f s) = d_log s) -> Kp (modify f).
Proof.
  intros Hf s. destruct (Hf s) as (E1 & E2 & E3 & E4 & E5 & E6 & E7 & E8 & E9 & E10 & E11). split; [|by rewrite E10].
  constructor; try done.
  - by rewrite E9.
  - intros x _. by rewrite E9.
  - intros x _ _. by rewrite E10.
  - exists []. by rewrite app_nil_r.
Qed.

Section Bus.
Context `{DvdHw} (A : dvdmap) (con : console) (client : Z -> Z -> Z -> list dvdreq).

Lemma kp_di_rd r : Kp (di_rd r).
Proof.
  intros s. split; [|done]. constructor; try done. cbn. eexists. split; [done|by apply Forall_singleton].
Qed.
Lemma kp_di_wr r v : r = 0 \/ r = 1 -> Kp (di_wr r v).
Proof. intros Hr. apply kp_log. intros s. eexists. split; [done|done]. Qed.
Lemma kp_ack : Kp di_ack.
Proof. apply kp_bind; [apply kp_di_rd|]. intros v. apply kp_di_wr. by right. Qed.

(** After a calm step. *)
Lemma wp_calm {X Y} s0 s (c : M dvdst X) (k : X -> M dvdst Y) Q :
  Kp c -> K s0 s /\ d_cb s dvd_callback = d_cb s0 dvd_callback ->
  (forall a s', K s0 s' /\ d_cb s' dvd_callback = d_cb s0 dvd_callback -> wp (k a) Q s') -> wp (bind c k) Q s.
Proof.
  intros Hc [HK E] HQ. apply wp_bind. eapply wp_mono; [apply Hc|]. cbn. intros a s1 [H1 E1]. apply HQ.
  split; [by eapply K_trans|congruence].
Qed.

Lemma cover_calm go s0 s (Q : Z -> dvdst -> Prop) :
  K s0 s /\ d_cb s dvd_callback = d_cb s0 dvd_callback -> d_cb s0 dvd_resetcovercb = None ->
  (forall z s', z = 0 \/ z = 4 -> K s0 s' /\ d_cb s' dvd_callback = d_cb s0 dvd_callback -> Q z s') -> wp (cover_part con go) Q s.
Proof.
  intros HK Hr HQ. unfold cover_part. apply wp_bind, wp_gets, wp_bind, wp_gets, wp_bind, wp_gets.
  destruct (_ && _).
  - eapply wp_calm; [apply kp_di_rd|exact HK|]. intros st s1 HK1. apply wp_bind.
    assert (Hr1 : d_cb s1 dvd_resetcovercb = None) by (rewrite (k_cbs _ _ (proj1 HK1)); auto).
    apply (wp_mono _ (fun _ s2 => K s0 s2 /\ d_cb s2 dvd_callback = d_cb s0 dvd_callback)).
    + apply wp_when; intros _; [|done]. apply wp_bind, wp_gets. rewrite Hr1. apply wp_bind, wp_modify, wp_ret.
      destruct HK1 as [HK1 E1]. split; [|cbn; by rewrite fupd_ne].
      eapply K_trans; [exact HK1|]. constructor; try done; [|exists []; by rewrite app_nil_r].
      intros x Hx _. cbn. destruct (decide (x = dvd_resetcovercb)) as [->|]; [by rewrite fupd_eq|by rewrite fupd_ne].
    + intros _ s2 HK2. eapply wp_calm; [apply kp_ack|exact HK2|]. intros _ s3 HK3. apply wp_ret. apply HQ; [by left|done].
  - apply wp_bind, wp_gets. destruct (negb _).
    + eapply wp_calm; [apply kp_di_rd|exact HK|]. intros st s1 HK1. cbv zeta.
      eapply wp_calm; [apply kp_di_wr; by right|exact HK1|]. intros _ s2 HK2.
      eapply wp_calm; [by apply kp_setv|exact HK2|]. intros _ s3 HK3. apply wp_ret. apply HQ; [|done].
      destruct (negb _); [by right|by left].
    + eapply wp_calm; [apply kp_di_wr; by right|exact HK|]. intros _ s1 HK1. apply wp_ret. apply HQ; [by left|done].
Qed.

(** The bits the handler found, if the drive reports the end of a transfer and no
    break. *)
Definition reports_tc (s : dvdst) : Prop :=
  let ir := irq_bits (u32 (di_read (d_log s) 0)) in Z.land ir DVD_TC_INT <> 0 /\ Z.land ir DVD_BRK_INT = 0.

Definition good_result (r : Z) : Prop := Z.land r 0x0001 <> 0 /\ Z.land r 0x0008 = 0 /\ r <> 0x0010.

Lemma result_good ir c brk :
  Z.land ir DVD_TC_INT <> 0 -> Z.land ir DVD_BRK_INT = 0 -> c = 0 \/ c = 4 ->
  let i := Z.lor (Z.lor 0 (irq_result ir)) c in
  good_result (if negb (Z.land i 0x0008 =? 0) && (brk =? 0) then Z.ldiff i 0x0008 else i).
Proof.
  intros H1 H2 Hc. unfold irq_result. rewrite H2, (proj2 (Z.eqb_neq _ _) H1). cbn [Z.eqb negb bit_if].
  destruct (negb (Z.land ir DVD_DE_INT =? 0)); destruct Hc as [-> | ->]; cbn; by split_and!.
Qed.

(** The handler calls the function the command named. *)
Lemma intr_calls f s Q :
  list_ok s -> d_cb s dvd_resetcovercb = None -> d_cb s dvd_callback = Some f -> dv s dvd_stopnextint = 0 -> reports_tc s ->
  (forall r s1, K s s1 -> d_cb s1 dvd_callback = None -> good_result r ->
     wp (exec A client (turns s) (ActLow f r)) (fun _ s2 => Q tt (set_vars (fupd (dv s2) dvd_breaking 0) s2)) s1) ->
  wp (dvd_step A con client DvIntr) Q s.
Proof.
  intros Hl Hr Hcb Hstop [Htc Hbrk] HQ. cbn [dvd_step]. unfold wp at 1, with_turns. set (go := exec A client (turns s)) in *.
  lazymatch goal with |- context [DVDInterruptHandler con go s] => change (wp (DVDInterruptHandler con go) Q s) end. unfold DVDInterruptHandler.
  apply wp_bind, wp_modify. set (s1 := set_alarm None s).
  assert (HK1 : K s s1) by (constructor; try done; exists []; by rewrite app_nil_r).
  apply wp_bind, wp_gets, wp_bind, wp_gets. change (dv s1 dvd_stopnextint) with (dv s dvd_stopnextint). rewrite Hstop. cbv zeta.
  rewrite (andb_false_r (negb _)) || (cbn [Z.eqb negb]; rewrite andb_false_r). cbn [bit_if]. apply wp_bind.
  apply (wp_mono _ (fun _ s2 => (K s s2 /\ d_cb s2 dvd_callback = d_cb s dvd_callback) /\ d_log s2 = d_log s)).
  { apply wp_when; intros _; [|done]. apply wp_modify. split; [|done]. split; [|done]. eapply K_trans; [exact HK1|].
    constructor; try done; exists []; by rewrite app_nil_r. }
  intros _ s2 [HK2 E2]. apply wp_bind, wp_modify, wp_bind, wp_modify. cbv beta. set (s4 := set_vars _ (set_vars _ s2)).
  assert (HK4 : K s s4 /\ d_cb s4 dvd_callback = d_cb s dvd_callback).
  { split; [|by apply HK2]. eapply K_trans; [apply HK2|]. constructor; try done; [|exists []; by rewrite app_nil_r].
    intros x Hx. by destruct x. }
  change (d_log s2) with (d_log s4) in E2. clearbody s4. apply wp_bind.
  change (wp (di_rd 0) ?R s4) with (R (u32 (di_read (d_log s4) 0)) (set_dlog (d_log s4 ++ [RdReg 0 (u32 (di_read (d_log s4) 0))]) s4)).
  rewrite E2. cbv zeta. set (ir := irq_bits _) in *. set (s5 := set_dlog _ s4).
  assert (HK5 : K s s5 /\ d_cb s5 dvd_callback = d_cb s dvd_callback).
  { split; [|apply HK4]. eapply K_trans; [apply HK4|]. constructor; try done. eexists. cbn. rewrite E2. split; [done|by apply Forall_singleton]. }
  clearbody s5. eapply wp_calm; [apply kp_when; by apply kp_setv|exact HK5|]. intros _ s6 HK6.
  eapply wp_calm; [apply kp_di_wr; by left|exact HK6|]. intros _ s7 HK7.
  apply wp_bind. apply (cover_calm _ s); [done..|]. intros c s8 Hc HK8. apply wp_bind, wp_gets. cbv zeta.
  pose proof (result_good ir c (dv s8 dvd_breaking) Htc Hbrk Hc) as Hgood. cbv zeta in Hgood.
  set (irmm := if _ : bool then _ else _) in *. destruct Hgood as (Hb1 & Hb8 & Hb10).
  rewrite (proj2 (Z.eqb_neq _ _) Hb1). cbn [negb]. apply wp_bind.
  apply (wp_mono _ (fun (nx : bool) s9 => nx = false /\ K s s9 /\ d_cb s9 dvd_callback = d_cb s dvd_callback)).
  { destruct HK8 as [HK8 E8]. destruct (k_list _ _ HK8 Hl) as (E0 & En1 & En2). unfold ProcessNextCmd. apply wp_bind, wp_gets, wp_bind, wp_gets.
    cbv beta. rewrite E0, (proj2 (Z.eqb_neq _ _) En1), (proj2 (Z.eqb_neq _ _) En2). apply wp_ret. by split_and!. }
  intros nx s9 (-> & HK9 & E9). apply wp_bind, wp_gets, wp_bind, wp_modify. rewrite E9, Hcb. cbn [call_low_opt]. apply wp_bind.
  eapply wp_mono; [apply HQ|].
  - eapply K_trans; [exact HK9|]. constructor; try done; [|exists []; by rewrite app_nil_r]. intros x Hx _. cbn. by rewrite fupd_ne.
  - cbn. apply fupd_eq.
  - by split_and!.
  - intros [] s11 HQ'. by apply wp_modify.
Qed.
End Bus.
