(* ===== verification/DvdRead.v ===== *)
(** * A read of the optical drive

    What a read does on the bus, interrupt by interrupt: the driver asks for at
    most 0x80000 bytes at a time, looks at how much of that is missing when the
    drive reports the end, and asks for the rest from there. *)

From stdpp Require Import base gmap list.
From Stdlib Require Import ZArith Lia.
From S2P Require Import Prelude Chain LwpQueue Devices KState Clock Irq DspDev DvdPatch DvdState Dvd DvdSpec DvdProofs DvdInv DvdSafe DvdCircle DvdTheorems DvdBus.

Open Scope Z_scope.

(** ** The plan of a read

    For what the drive leaves undone of each part ([rs]), the parts that are asked
    for: where each starts, its size, and what is left of it. *)

Definition part (len pos : Z) : Z := Z.min (len - pos) 0x80000.

Fixpoint read_plan (len pos : Z) (rs : list Z) : option (list (Z * Z * Z)) :=
  match rs with
  | [] => if pos =? len then Some [] else None
  | r :: rs =>
      if (pos <? len) && (0 <=? r) && (r <? part len pos) then
        l ← read_plan len (pos + (part len pos - r)) rs; Some ((pos, part len pos, r) :: l)
      else None
  end.

(** The bytes of the parts that arrived are all bytes, in order and once. *)
Lemma plan_tiles len rs pos l :
  read_plan len pos rs = Some l -> concat (map (fun '(p, n, r) => seqZ p (n - r)) l) = seqZ pos (len - pos).
Proof.
  revert pos l. induction rs as [|r rs IH]; intros pos l E; cbn in E.
  - destruct (Z.eqb_spec pos len) as [->|]; [|done]. injection E as <-. by rewrite Z.sub_diag.
  - destruct ((pos <? len) && (0 <=? r) && (r <? part len pos)) eqn:Ec; [|done].
    apply andb_prop in Ec as [ [Hp Hr]%andb_prop Hn].
    apply Z.ltb_lt in Hp, Hn. apply Z.leb_le in Hr. destruct (read_plan len _ rs) as [l'|] eqn:E'; [|done].
    injection E as <-. cbn. rewrite (IH _ _ E'). unfold part in *.
    rewrite <- seqZ_app by lia. f_equal. lia.
Qed.

(** The command for a part. *)
Definition read_cmd (buf offset : Z) (p : Z * Z * Z) : dicmd :=
  let '(pos, n, _) := p in mk_dicmd DVD_READSECTOR (Z.shiftr (offset + pos) 2) n (buf + pos) n (Z.lor DVD_DI_DMA DVD_DI_START).

Lemma bus_snoc l e : bus_of (l ++ [e]) = bus_step (bus_of l) e.
Proof. by rewrite bus_app. Qed.
Lemma sent_cmd l b1 : sent (l ++ [WrReg 7 b1]) =
  sent l ++ [mk_dicmd (bus_reg (bus_of l) 2) (bus_reg (bus_of l) 3) (bus_reg (bus_of l) 4) (bus_reg (bus_of l) 5) (bus_reg (bus_of l) 6) b1].
Proof. unfold sent. rewrite bus_snoc. cbn. by rewrite !fupd_ne. Qed.

Section Read.
Context `{DvdHw} (A : dvdmap) (con : console) (client : Z -> Z -> Z -> list dvdreq) (P : list Z).
Context (Hdummy : a_dummycmdblk A ∈ P) (Hnull : NULL ∉ P) (Hclient : client_ok client).
Context (b buf offset len cb : Z).
Context (Hlen : 0 < len < 2 ^ 31) (Hbuf : 0 <= buf /\ buf + len <= 2 ^ 32) (Hoff : 0 <= offset /\ offset + len <= 2 ^ 34).

(** The block while it is read, [pos] bytes of it so far. *)
Definition reading (pos : Z) (x : cmdblk) : Prop :=
  b_cmd x = 1 /\ b_offset x = offset /\ b_len x = len /\ b_buf x = buf /\ b_txdsize x = pos /\ b_cb x = cb.

Lemma wp_di_rd r (Q : Z -> dvdst -> Prop) s : (forall v, Q v (set_dlog (d_log s ++ [RdReg r v]) s)) -> wp (di_rd r) Q s.
Proof. intros HQ. apply HQ. Qed.

(** A command was sent and nothing else happened. *)
Record B (s s' : dvdst) (c : list dicmd) : Prop := {
  bb_blk : d_blk s' = d_blk s;
  bb_out : d_out s' = d_out s;
  bb_irq : d_irq s' = d_irq s;
  bb_cb : d_cb s' dvd_callback = Some Fn_statebusycb;
  bb_stop : dv s' dvd_stopnextint = 0;
  bb_sent : sent (d_log s') = sent (d_log s) ++ c;
}.

Lemma lowread_spec a n o s :
  wp (DVD_LowRead a n o (Some Fn_statebusycb)) (fun _ s' =>
    B s s' [mk_dicmd DVD_READSECTOR (u32 (Z.shiftr o 2)) (u32 n) (u32 a) (u32 n) (Z.lor DVD_DI_DMA DVD_DI_START)]) s.
Proof.
  unfold DVD_LowRead, DoRead, Read, arm, setv, setcb, di_wr, SetupTimeoutAlarm.
  repeat lazymatch goal with |- wp (bind _ _) _ _ => apply wp_bind | |- wp (modify _) _ _ => apply wp_modify; cbv beta end.
  apply wp_di_rd. intros v.
  apply wp_modify. constructor; [reflexivity..|].
  cbn [d_log set_alarm set_dlog set_vars set_cbs set_ccurr set_cmdlist]. unfold sent. rewrite !bus_snoc. reflexivity.
Qed.

Lemma busy_reads go s x pos :
  d_blk s !! b = Some x -> reading pos x -> 0 <= pos < len ->
  wp (dvd_statebusy go b) (fun _ s' => exists t y, B t s' [read_cmd buf offset (pos, part len pos, 0)] /\
    d_blk t = <[b := y]> (d_blk s) /\ d_out t = d_out s /\ d_irq t = d_irq s /\ sent (d_log t) = sent (d_log s) /\
    reading pos y /\ b_currtxsize y = part len pos) s.
Proof.
  intros Hx (R1 & R2 & R3 & R4 & R5 & R6) Hpos. unfold dvd_statebusy. apply wp_bind, wp_modify, wp_bind.
  eapply wp_getopt; [cbn; rewrite Hx; done|]. rewrite R1. cbn [Z.ltb Z.compare DVD_MAXCOMMANDS Z.eqb Pos.eqb orb].
  apply wp_bind. eapply wp_mono; [apply kp_ack|]. cbn. intros _ s1 [HK1 _]. apply wp_bind.
  eapply wp_getopt; [rewrite (k_blk _ _ HK1); cbn; rewrite Hx; done|]. rewrite R3, R5. rewrite (wrap_small 32 (len - pos)) by lia.
  set (n := if len - pos <? 0x80000 then _ else _). assert (Hn : n = part len pos).
  { unfold n, part. destruct (Z.ltb_spec (len - pos) 0x80000); lia. }
  apply wp_bind. unfold wp at 1, b_upd. rewrite (k_blk _ _ HK1). cbn [set_laststate d_blk]. rewrite Hx. rewrite Hn.
  set (y := set_bcurrtxsize _ x). set (t := set_blks _ s1).
  assert (Hy : d_blk t !! b = Some y) by apply lookup_insert_eq. apply wp_bind.
  eapply wp_getopt; [rewrite Hy; done|]. apply wp_bind. eapply wp_getopt; [rewrite Hy; done|]. apply wp_bind.
  eapply wp_getopt; [rewrite Hy; done|]. cbn [b_buf b_txdsize b_offset b_currtxsize y set_bcurrtxsize]. rewrite R2, R4, R5.
  assert (Hpart : 0 <= part len pos < 2 ^ 31) by (unfold part; lia).
  eapply wp_mono; [apply lowread_spec|]. cbv beta. intros _ s' HB. exists t, y. split_and!.
  - rewrite (swrap_small 64), (wrap_small 32 (wrap 32 _)), (wrap_small 32 (buf + pos)), (wrap_small 32 (part _ _)) in HB
      by (rewrite ?wrap_small; lia). rewrite wrap_small in HB; [exact HB|]. rewrite Z.shiftr_div_pow2 by lia.
    split; [apply Z.div_pos; lia|apply Z.div_lt_upper_bound; lia].
  - done.
  - apply (k_out _ _ HK1).
  - apply (k_irq _ _ HK1).
  - apply (K_sent _ _ HK1).
  - by split_and!.
  - done.
Qed.

(** ** The interrupts of a read *)

Lemma turns_SS s : exists n, turns s = S (S n).
Proof. exists (3 * size (d_blk s) + 6)%nat. unfold turns. lia. Qed.

Local Abbreviation gb := (mk_sched (Some b) (sc_q sched0)).
Definition in_read (pos : Z) (s : dvdst) : Prop :=
  post A P s gb /\ di_enabled s = true /\ d_cb s dvd_callback = Some Fn_statebusycb /\ dv s dvd_stopnextint = 0 /\
  exists x, d_blk s !! b = Some x /\ reading pos x /\ b_currtxsize x = part len pos.

(** The drive reports the end of a transfer, and [r] of its bytes are missing
    until the next is started. *)
Definition answers (s : dvdst) (r : Z) : Prop :=
  reports_tc s /\ forall k, Forall reg_calm k -> u32 (di_read (d_log s ++ k) 6) = r.

Lemma post_at s g g' : post A P s g -> sched_run sched0 (d_out s) = Some g' -> post A P s g'.
Proof. intros Hp E. assert (g' = g) as -> by (destruct Hp as [ [Hh _] _]; congruence). done. Qed.

Lemma read_facts pos s : in_read pos s -> dv s dvd_executing = b /\ dv s dvd_currcmd = 1 /\ list_ok s /\
  d_cb s dvd_resetcovercb = None /\ dv s dvd_canceling = 0 /\ sched_run sched0 (d_out s) = Some gb /\
  qs_repr A P (d_mem s) (sc_q sched0) /\ b ∈ P /\ b <> a_dummycmdblk A.
Proof.
  intros ([ [Hh HC] Hp] & _ & _ & _ & (x & Hx & (R1 & _) & _)). destruct Hp as [(c & E1 & [= <-] & _ & E2 & _)|(_ & ? & _)]; [|done].
  destruct (ci_exec _ _ _ _ HC b eq_refl) as (HbP & Hbd & _). split_and!; try done.
  - unfold cmds in E2. rewrite lookup_fmap, Hx in E2. cbn in E2. injection E2 as E2. by rewrite <- E2.
  - apply (ci_list _ _ _ _ HC).
  - apply (ci_rst _ _ _ _ HC).
  - apply (ci_vars _ _ _ _ HC). by left.
  - apply (ci_qs _ _ _ _ HC).
Qed.

(** The function the interrupt calls: how much arrived. *)
Lemma busycb_counts go r s0 s1 pos left_ (Q : unit -> dvdst -> Prop) :
  in_read pos s0 -> 0 <= pos < len -> K s0 s1 -> good_result r -> 0 <= left_ <= part len pos ->
  (forall k, Forall reg_calm k -> u32 (di_read (d_log s0 ++ k) 6) = left_) ->
  (forall s2 x, d_blk s2 = <[b := x]> (d_blk s0) -> d_out s2 = d_out s0 -> d_irq s2 = d_irq s0 -> d_mem s2 = d_mem s0 ->
     dv s2 dvd_currcmd = 1 -> dv s2 dvd_executing = b -> sent (d_log s2) = sent (d_log s0) ->
     reading (pos + (part len pos - left_)) x -> wp (busy_done A client go) Q s2) ->
  wp (low A client go Fn_statebusycb r) Q s1.
Proof.
  intros Hin Hpos HK (Hr1 & Hr8 & Hr10) Hleft Hans HQ. pose proof (read_facts _ _ Hin) as (Ex & Ec & _ & _ & Ecan & _).
  destruct Hin as (_ & _ & _ & _ & (x & Hx & (R1 & R2 & R3 & R4 & R5 & R6) & Rc)). cbn [low]. unfold dvd_statebusycb, on_timeout.
  rewrite (proj2 (Z.eqb_neq _ _) Hr10). apply wp_bind, wp_gets. rewrite (k_var _ _ HK) by done. rewrite Ec.
  cbn [Z.eqb Pos.eqb orb andb]. unfold busy_result. apply wp_bind, wp_gets. rewrite (k_var _ _ HK), Ec by done.
  cbn [tx_cmd Z.eqb Pos.eqb orb when]. apply wp_bind, wp_bind, wp_gets. rewrite (k_var _ _ HK), Ex by done. apply wp_bind.
  destruct (k_log _ _ HK) as (k & Ek & Hk).
  lazymatch goal with |- wp (di_rd 6) ?R s1 =>
    change (R (u32 (di_read (d_log s1) 6)) (set_dlog (d_log s1 ++ [RdReg 6 (u32 (di_read (d_log s1) 6))]) s1)) end.
  cbv beta. rewrite Ek, Hans by done. unfold wp at 1, b_upd. cbn [d_blk set_dlog]. rewrite (k_blk _ _ HK), Hx.
  rewrite Hr8, (proj2 (Z.eqb_neq _ _) Hr1). cbn [Z.eqb negb]. apply wp_bind, wp_modify, wp_bind.
  unfold dvd_checkcancel. apply wp_bind, wp_gets. cbn [dv set_vars set_blks set_dlog]. rewrite fupd_ne, (k_var _ _ HK), Ecan by done.
  cbn [Z.eqb negb]. apply wp_ret. assert (Hpart : 0 < part len pos <= len - pos) by (unfold part; lia). eapply HQ.
  - reflexivity.
  - apply (k_out _ _ HK).
  - apply (k_irq _ _ HK).
  - apply (k_mem _ _ HK).
  - cbn. by rewrite fupd_ne, (k_var _ _ HK), Ec.
  - cbn. by rewrite fupd_ne, (k_var _ _ HK), Ex.
  - cbn [d_log set_vars set_blks set_dlog]. rewrite <- app_assoc. apply sent_calm. apply Forall_app. split; [done|by apply Forall_singleton].
  - split_and!; try done. cbn. rewrite R5, Rc. apply wrap_small. lia.
Qed.

(** Some is missing: the next part is asked for. *)
Lemma read_step pos r s :
  in_read pos s -> 0 <= pos < len -> answers s r -> 0 <= r < part len pos -> pos + (part len pos - r) < len ->
  wp (dvd_step A con client DvIntr) (fun _ s' => in_read (pos + (part len pos - r)) s' /\ d_out s' = d_out s /\
    sent (d_log s') = sent (d_log s) ++ [read_cmd buf offset (pos + (part len pos - r), part len (pos + (part len pos - r)), 0)]) s.
Proof.
  intros Hin Hpos [Htc Hans] Hr Hmore. pose proof (read_facts _ _ Hin) as (Ex & Ec & Hl & Hrc & _ & Hh & _).
  pose proof Hin as (Hp & Hen & Hcb & Hstop & _). pose proof (interrupt_ok A con client P Hdummy Hnull Hclient s gb Hp Hen) as Hst.
  set (pos' := pos + _) in *. assert (Hpos' : 0 <= pos' < len) by lia.
  eapply wp_mono.
  { apply wp_conj; [exact Hst|].
    apply (intr_calls A con client Fn_statebusycb s (fun _ s' => di_enabled s' = true /\ d_cb s' dvd_callback = Some Fn_statebusycb /\
      dv s' dvd_stopnextint = 0 /\ (exists x, d_blk s' !! b = Some x /\ reading pos' x /\ b_currtxsize x = part len pos') /\
      d_out s' = d_out s /\ sent (d_log s') = sent (d_log s) ++ [read_cmd buf offset (pos', part len pos', 0)])); [done..|].
    intros res s1 HK Hcb1 Hres. destruct (turns_SS s) as [n ->]. cbn [exec body].
    apply (busycb_counts _ res s s1 pos r); [done..|lia|done|].
    intros s2 x Eb Eo Ei Em Ecur Eex Es Hx. unfold busy_done. apply wp_bind, wp_gets. rewrite Ecur. cbn [tx_cmd Z.eqb Pos.eqb orb].
    apply wp_bind, wp_gets, wp_bind. eapply wp_getopt; [rewrite Eex, Eb, lookup_insert_eq; done|].
    destruct Hx as (R1 & R2 & R3 & R4 & R5 & R6). fold pos' in R5. rewrite R5, R3, (proj2 (Z.eqb_neq pos' len)) by lia. cbn [negb].
    apply wp_bind, wp_gets. rewrite Eex. eapply wp_mono; [eapply (busy_reads _ s2 x pos')|].
    - by rewrite Eb, lookup_insert_eq.
    - by split_and!.
    - done.
    - cbv beta. intros _ s3 (t & y & HB & Etb & Eto & Eti & Ets & Hy & Hcur). cbn [dv set_vars].
      split_and!.
      + unfold di_enabled in *. cbn [d_irq set_vars]. by rewrite (bb_irq _ _ _ HB), Eti, Ei.
      + apply (bb_cb _ _ _ HB).
      + rewrite fupd_ne by done. apply (bb_stop _ _ _ HB).
      + exists y. cbn [d_blk set_vars]. by rewrite (bb_blk _ _ _ HB), Etb, lookup_insert_eq.
      + cbn [d_out set_vars]. by rewrite (bb_out _ _ _ HB), Eto, Eo.
      + cbn [d_log set_vars]. by rewrite (bb_sent _ _ _ HB), Ets, Es. }
  cbv beta. intros [] s' [ (g' & Hp') (E1 & E2 & E3 & E4 & E5 & E6)]. split_and!; [|done|done].
  split_and!; try done. eapply post_at; [exact Hp'|by rewrite E5].
Qed.

(** Nothing waits. *)
Lemma check_empty s (Q : bool -> dvdst -> Prop) : qs_repr A P (d_mem s) (sc_q sched0) -> Q false s -> wp (dvd_checkwaitingqueue A) Q s.
Proof.
  intros Hq HQ. unfold dvd_checkwaitingqueue. assert (Hi : forall i, 0 <= i < 4 ->
    wp (on_mem (lwp_queue_isempty (waitq A i))) (fun r s' => r = true /\ s' = s) s).
  { intros i Hi. apply wp_on_mem. eapply wp_mono.
    - rewrite <- (Z2Nat.id i) by lia. apply (qs_isempty A P _ _ _ [] Hq).
      assert (Hc : i = 0 \/ i = 1 \/ i = 2 \/ i = 3) by lia. by destruct Hc as [->|[->|[-> | ->] ] ].
    - cbn. intros r m [-> ->]. split; [done|]. by destruct s. }
  cbn [checkwaiting_loop]. do 4 (apply wp_bind; eapply wp_mono; [apply Hi; lia|]; cbv beta; intros ? ? [-> ->]; cbn [negb]).
  exact (wp_ret _ _ _ HQ).
Qed.

(** What the client sees at the end. *)
Definition read_end : list dvdev := EvDone b len :: (if cb =? NULL then [] else [EvCall cb len b]).
Context (Hcb : cb <> a_callback A) (Hquiet : is_synccb A cb = true \/ client cb len b = []).

Lemma call_quiet go s (Q : unit -> dvdst -> Prop) :
  (forall s', d_out s' = d_out s ++ [EvCall cb len b] -> d_blk s' = d_blk s -> d_mem s' = d_mem s -> d_log s' = d_log s -> Q tt s') ->
  wp (call_cb A client go cb len b) Q s.
Proof.
  intros HQ. unfold call_cb. rewrite (proj2 (Z.eqb_neq _ _) Hcb). unfold call_user. apply wp_bind, wp_modify.
  destruct (is_synccb A cb); [apply wp_modify; by apply HQ|]. destruct Hquiet as [|E]; [done|]. rewrite E. apply wp_ret. by apply HQ.
Qed.

Lemma finish_read n s x (Q : unit -> dvdst -> Prop) :
  d_blk s !! b = Some x -> reading len x -> dv s dvd_executing = b -> qs_repr A P (d_mem s) (sc_q sched0) ->
  (forall s' y, d_out s' = d_out s ++ read_end -> d_blk s' !! b = Some y -> reading len y -> b_state y = 0 ->
     d_log s' = d_log s -> dv s' dvd_executing = NULL -> Q tt s') ->
  wp (finish A client (exec A client (S n)) (Some 0) b_txdsize) Q s.
Proof.
  intros Hx (R1 & R2 & R3 & R4 & R5 & R6) Hex Hq HQ. unfold finish, complete. apply wp_bind, wp_bind, wp_gets. rewrite Hex.
  apply wp_bind, wp_modify, wp_bind. unfold wp at 1, b_upd. cbn [d_blk set_vars]. rewrite Hx. set (y := set_bstate 0 x).
  set (s1 := set_blks _ _). assert (Hy : d_blk s1 !! b = Some y) by apply lookup_insert_eq.
  apply wp_bind. eapply wp_getopt; [rewrite Hy; done|]. apply wp_bind. eapply wp_getopt; [rewrite Hy; done|].
  assert (Ecb : b_cb y = cb) by done. assert (Etx : s32 (b_txdsize y) = len).
  { change (b_txdsize y) with (b_txdsize x). rewrite R5. apply swrap_small; lia. }
  rewrite Ecb, Etx. apply wp_bind, wp_modify. cbv beta. set (s2 := set_out _ s1). apply wp_bind.
  apply (wp_mono _ (fun _ s3 => d_out s3 = d_out s ++ read_end /\ d_blk s3 = d_blk s1 /\ d_mem s3 = d_mem s /\ d_log s3 = d_log s)).
  { unfold read_end. apply wp_when; intros Ec; destruct (Z.eqb_spec cb NULL); try done.
    apply call_quiet. intros s3 Eo Eb Em El. split_and!; [rewrite Eo; cbn; by rewrite <- app_assoc|done|done|done]. }
  intros _ s3 (Eo & Eb & Em & El). apply wp_ret. cbn [exec body stateready]. unfold stateready, dvd_stateready.
  cbn [exec body]. apply wp_bind. apply check_empty; [by rewrite Em|]. cbn [negb]. apply wp_modify.
  apply (HQ _ y); [done|by cbn; rewrite Eb|by split_and!|done|done|apply fupd_eq].
Qed.

Lemma read_last pos r s :
  in_read pos s -> 0 <= pos < len -> answers s r -> 0 <= r < part len pos -> pos + (part len pos - r) = len ->
  wp (dvd_step A con client DvIntr) (fun _ s' => post A P s' sched0 /\ d_out s' = d_out s ++ read_end /\
    sent (d_log s') = sent (d_log s) /\ dv s' dvd_executing = NULL /\
    exists y, d_blk s' !! b = Some y /\ reading len y /\ b_state y = 0) s.
Proof.
  intros Hin Hpos [Htc Hans] Hr Hall. pose proof (read_facts _ _ Hin) as (Ex & Ec & Hl & Hrc & _ & Hh & Hq & _).
  pose proof Hin as (Hp & Hen & Hcb1 & Hstop & _). pose proof (interrupt_ok A con client P Hdummy Hnull Hclient s gb Hp Hen) as Hst.
  eapply wp_mono.
  { apply wp_conj; [exact Hst|].
    apply (intr_calls A con client Fn_statebusycb s (fun _ s' => d_out s' = d_out s ++ read_end /\
      sent (d_log s') = sent (d_log s) /\ dv s' dvd_executing = NULL /\ exists y, d_blk s' !! b = Some y /\ reading len y /\ b_state y = 0)); [done..|].
    intros res s1 HK Hcb2 Hres. destruct (turns_SS s) as [n ->]. cbn [exec body].
    apply (busycb_counts _ res s s1 pos r); [done..|lia|done|].
    intros s2 x Eb Eo Ei Em Ecur Eex Es Hx. rewrite Hall in Hx. unfold busy_done. apply wp_bind, wp_gets. rewrite Ecur. cbn [tx_cmd Z.eqb Pos.eqb orb].
    apply wp_bind, wp_gets, wp_bind. eapply wp_getopt; [rewrite Eex, Eb, lookup_insert_eq; done|].
    pose proof Hx as (_ & _ & R3 & _ & R5 & _). rewrite R5, R3, Z.eqb_refl. cbn [negb].
    apply (finish_read n s2 x); [by rewrite Eb, lookup_insert_eq|done|done|by rewrite Em|].
    intros s' y E1 E2 E3 E4 E5 E6. cbn [d_out d_log d_blk dv set_vars]. split_and!; [by rewrite E1, Eo|by rewrite E5, Es|by rewrite fupd_ne|].
    by exists y. }
  cbv beta. intros [] s' [ (g' & Hp') (E1 & E2 & E3 & E4)]. split_and!; try done. eapply post_at; [exact Hp'|].
  rewrite E1, sched_run_app, Hh. unfold read_end. cbn. rewrite decide_True by done. cbn. by destruct (cb =? NULL).
Qed.

Lemma pop_issued prio : 0 <= prio < 4 -> sc_pop (alter (.++ [b]) (Z.to_nat prio) (sc_q sched0)) = Some (b, sc_q sched0).
Proof. intros Hp. assert (Hc : prio = 0 \/ prio = 1 \/ prio = 2 \/ prio = 3) by lia. by destruct Hc as [->|[->|[-> | ->] ] ]. Qed.
Lemma start_run prio : 0 <= prio < 4 -> sched_run sched0 [EvIssue prio b; EvStart b] = Some gb.
Proof.
  intros Hp. cbn [sched_run sched_step]. rewrite decide_True by (split; [done|]; intros [?|Hw]; [done|by apply elem_of_nil in Hw]).
  cbn [mbind option_bind sc_q sc_exec]. rewrite pop_issued by done. cbn [mbind option_bind]. by rewrite decide_True.
Qed.

(** The read is issued on a driver that has nothing to do. *)
Lemma read_start s prio :
  post A P s sched0 -> dv s dvd_fatalerror = 0 -> di_enabled s = true -> b ∈ P -> b <> a_dummycmdblk A -> 0 <= prio < 4 ->
  wp (dvd_step A con client (DvRequest (mk_req b (OpReadAbs buf len offset prio) cb))) (fun _ s' => in_read 0 s' /\
    d_out s' = d_out s ++ [EvIssue prio b; EvStart b] /\
    sent (d_log s') = sent (d_log s) ++ [read_cmd buf offset (0, part len 0, 0)]) s.
Proof.
  intros Hp Hf Hen HbP Hbd Hprio. pose proof Hp as [Hc [(c & _ & ? & _)|(Hx & _)] ]; [done|].
  pose proof (request_ok A client P Hdummy Hnull Hclient s sched0 (mk_req b (OpReadAbs buf len offset prio) cb) _ Hp eq_refl HbP Hbd
    ltac:(intros [?|Hw]; [done|by apply elem_of_nil in Hw]) Hprio) as Hst.
  destruct (proj1 (ci_dom _ _ _ _ (proj2 Hc) b) HbP) as [x0 Hx0].
  cbn [dvd_step]. unfold wp at 1, with_turns. lazymatch goal with |- context [issue_req A ?go ?q;; ret tt] =>
    change (wp (issue_req A go q;; ret tt) (fun _ s' => in_read 0 s' /\ d_out s' = d_out s ++ [EvIssue prio b; EvStart b] /\
    sent (d_log s') = sent (d_log s) ++ [read_cmd buf offset (0, part len 0, 0)]) s) end.
  apply wp_bind. eapply wp_mono.
  { apply wp_conj; [exact Hst|].
    instantiate (1 := fun _ s' => di_enabled s' = true /\ d_cb s' dvd_callback = Some Fn_statebusycb /\
      dv s' dvd_stopnextint = 0 /\ (exists x, d_blk s' !! b = Some x /\ reading 0 x /\ b_currtxsize x = part len 0) /\
      d_out s' = d_out s ++ [EvIssue prio b; EvStart b] /\ sent (d_log s') = sent (d_log s) ++ [read_cmd buf offset (0, part len 0, 0)]).
    destruct (turns_SS s) as [n ->]. cbn [issue_req rq_op rq_blk rq_cb]. unfold DVD_ReadAbsAsyncPrio. apply wp_bind.
    unfold wp at 1, b_upd. rewrite Hx0. set (x1 := set_bcb cb _). unfold issuecommand. apply wp_bind. unfold wp at 1, b_upd. cbn [d_blk set_blks].
    rewrite lookup_insert_eq, insert_insert_eq. set (x2 := set_bstate 2 x1). set (s1 := set_blks _ (set_blks _ s)).
    assert (Hc1 : core A P s1 sched0) by (split; [apply Hc|exact (cinv_blks A P s sched0 b x2 (proj2 Hc) HbP)]).
    apply wp_bind. apply (push_ok A P s1 sched0); [done..| |].
    { intros [?|Hw]; [done|by apply elem_of_nil in Hw]. }
    intros m1 s2 Hc2. set (g1 := mk_sched _ _) in Hc2. apply wp_bind, wp_gets. change (dv s2 dvd_executing) with (dv s dvd_executing).
    rewrite Hx. cbn [NULL Z.eqb]. apply wp_bind. cbn [when]. unfold stateready. cbn [exec body]. unfold dvd_stateready.
    pose proof (pop_issued prio Hprio) as Hw1. change (alter _ _ _) with (sc_q g1) in Hw1.
    assert (Hw2 : waiting g1 <> []).
    { unfold waiting. intros E. apply concat_pop in Hw1 as [Hw1 _]. rewrite E in Hw1. by apply Permutation_nil_cons in Hw1. }
    apply wp_bind. apply (check_ok A P s2 g1); [apply Hc2|]. rewrite bool_decide_false by done. cbn [negb].
    apply (pop_ok A client P Hdummy Hnull Hclient s2 g1); [done..|].
    intros b' qs m2 Hpop _ _ s3 Hc3. rewrite Hw1 in Hpop. injection Hpop as <- <-.
    assert (Hb3 : d_blk s3 !! b = Some x2) by apply lookup_insert_eq.
    apply wp_bind, wp_gets. change (dv s3 dvd_fatalerror) with (dv s dvd_fatalerror). rewrite Hf. cbn [Z.eqb negb].
    apply wp_bind, wp_gets. change (dv s3 dvd_executing) with b. apply wp_bind. eapply wp_getopt; [rewrite Hb3; done|].
    apply wp_bind, wp_modify. cbv beta. change (b_cmd x2) with 1. apply wp_bind, wp_gets. cbn [dv set_vars]. rewrite fupd_ne by done.
    pose proof (ci_vars _ _ _ _ (proj2 Hc3) dvd_resumefromhere ltac:(by right; right; left)) as Hres.
    change (dv (set_vars (fupd (dv s3) dvd_currcmd 1) s3) dvd_resumefromhere) with (dv s3 dvd_resumefromhere).
    rewrite Hres. cbn [Z.eqb negb].
    apply wp_bind, wp_bind, wp_gets. cbn [dv set_vars]. rewrite fupd_ne by done. change (dv s3 dvd_executing) with b.
    unfold wp at 1, b_upd. cbn [d_blk set_vars]. rewrite Hb3. set (x3 := set_bstate 1 x2). set (s4 := set_blks _ _).
    assert (Hb4 : d_blk s4 !! b = Some x3) by apply lookup_insert_eq. apply wp_bind, wp_gets.
    change (dv s4 dvd_executing) with b. eapply wp_mono; [apply (busy_reads _ s4 x3 0); [done|by split_and!|lia] |].
    intros _ s5 (t & y & HB & Etb & Eto & Eti & Ets & Hy & Hcur). apply wp_ret. split_and!.
    - unfold di_enabled in *. by rewrite (bb_irq _ _ _ HB), Eti.
    - apply (bb_cb _ _ _ HB).
    - apply (bb_stop _ _ _ HB).
    - exists y. by rewrite (bb_blk _ _ _ HB), Etb, lookup_insert_eq.
    - rewrite (bb_out _ _ _ HB), Eto. cbn. by rewrite <- app_assoc.
    - by rewrite (bb_sent _ _ _ HB), Ets. }
  cbv beta. intros r s' [ (g' & Hp') (E1 & E2 & E3 & E4 & E5 & E6)]. apply wp_ret. split_and!; [|done|done].
  split_and!; try done. eapply post_at; [exact Hp'|]. rewrite E5, sched_run_app, (proj1 Hc). by apply start_run.
Qed.

(** The drive's answers to the interrupts of a read. *)
Fixpoint drive_answers (rs : list Z) (s : dvdst) : Prop :=
  match rs with
  | [] => True
  | r :: rs => answers s r /\ match dvd_step A con client DvIntr s with Ok (_, s') => drive_answers rs s' | Fault _ => True end
  end.

Definition read_result (s s' : dvdst) (c : list dicmd) : Prop :=
  post A P s' sched0 /\ d_out s' = d_out s ++ read_end /\ sent (d_log s') = sent (d_log s) ++ c /\ dv s' dvd_executing = NULL /\
  exists y, d_blk s' !! b = Some y /\ reading len y /\ b_state y = 0.

Lemma read_all rs pos s l :
  in_read pos s -> 0 <= pos < len -> read_plan len pos rs = Some l -> drive_answers rs s ->
  exists c, map (read_cmd buf offset) l = read_cmd buf offset (pos, part len pos, 0) :: c /\
    wp (dvd_run A con client (replicate (length rs) DvIntr)) (fun _ s' => read_result s s' c) s.
Proof.
  revert pos s l. induction rs as [|r rs IH]; intros pos s l Hin Hpos E Hd; cbn in E.
  - by rewrite (proj2 (Z.eqb_neq _ _)) in E by lia.
  - destruct ((pos <? len) && (0 <=? r) && (r <? part len pos)) eqn:Ec; [|done].
    apply andb_prop in Ec as [ [_ Hr]%andb_prop Hn]. apply Z.leb_le in Hr. apply Z.ltb_lt in Hn.
    destruct (read_plan len (pos + _) rs) as [l'|] eqn:E'; [|done]. injection E as <-. destruct Hd as [Ha Hd].
    assert (Hpart : 0 < part len pos <= len - pos) by (unfold part; lia).
    exists (map (read_cmd buf offset) l'). split; [done|]. cbn [length replicate dvd_run]. apply wp_bind.
    destruct (decide (pos + (part len pos - r) = len)) as [Hend|Hmore].
    + pose proof (read_last pos r s Hin Hpos Ha ltac:(lia) Hend) as Hlast. rewrite Hend in E'.
      assert (l' = [] /\ rs = []) as [-> ->].
      { destruct rs as [|r' rs]; cbn in E'; [rewrite Z.eqb_refl in E'; by injection E' as <-|]. by rewrite Z.ltb_irrefl in E'. }
      eapply wp_mono; [exact Hlast|]. cbn. intros [] s' (H1 & H2 & H3 & H4 & H5). apply wp_ret. split_and!; try done. by rewrite app_nil_r.
    + pose proof (read_step pos r s Hin Hpos Ha ltac:(lia) ltac:(lia)) as Hstep. unfold wp at 1. unfold wp in Hstep.
      destruct (dvd_step A con client DvIntr s) as [ [[] s1]|]; [|done]. destruct Hstep as (Hin1 & Ho1 & Hs1).
      destruct (IH _ s1 l' Hin1 ltac:(lia) E' Hd) as (c & Ec & Hw). eapply wp_mono; [exact Hw|].
      intros [] s' (H1 & H2 & H3 & H4 & H5). split_and!; try done; [by rewrite H2, Ho1|]. rewrite H3, Hs1, Ec, <- app_assoc. done.
Qed.

Lemma poll_done th s y : d_blk s !! b = Some y -> reading len y -> b_state y = 0 -> dvd_poll sync_tx th b s = Ok (Some len, s).
Proof.
  intros Hy (_ & _ & _ & _ & R5 & _) Hst. unfold dvd_poll, bind, b_get, getopt. rewrite Hy. cbn. rewrite Hst. cbn.
  rewrite R5, swrap_small by lia. done.
Qed.
End Read.

Section Theorem_.
Context `{DvdHw} (A : dvdmap) (con : console) (client : Z -> Z -> Z -> list dvdreq).

(** C27. A read transfers its buffer. On a driver that has nothing to do, a read
    is sent to the drive as parts of at most 0x80000 bytes: with whatever residues
    the drive reports at the ends of the parts, as many interrupts as that makes
    parts finish the read; the commands on the bus are those of the plan, each
    for the bytes that are still missing, at their place in the buffer and on the
    disc; what arrived with them are all bytes of the buffer, once and in order;
    and the client is told once, with the length, which is also what the
    synchronous call returns. *)
Theorem dvd_read_covers P blks m irq id evs s0 s b buf offset len prio cb rs l th :
  a_dummycmdblk A ∈ P -> NULL ∉ P -> client_ok client -> dvd_fresh A P blks m ->
  DVD_Init A con (dvd_boot blks m irq id) = Ok (tt, s0) -> dvd_run_ok A con client evs s0 ->
  dvd_run A con client evs s0 = Ok (tt, s) ->
  dv s dvd_fatalerror = 0 -> dv s dvd_executing = NULL -> di_enabled s = true ->
  b ∈ P -> b <> a_dummycmdblk A -> 0 <= prio < 4 ->
  0 < len < 2 ^ 31 -> 0 <= buf /\ buf + len <= 2 ^ 32 -> 0 <= offset /\ offset + len <= 2 ^ 34 ->
  cb <> a_callback A -> is_synccb A cb = true \/ client cb len b = [] -> read_plan len 0 rs = Some l ->
  exists s1, dvd_step A con client (DvRequest (mk_req b (OpReadAbs buf len offset prio) cb)) s = Ok (tt, s1) /\
    (drive_answers A con client rs s1 ->
     exists s2, dvd_run A con client (replicate (length rs) DvIntr) s1 = Ok (tt, s2) /\
       sent (d_log s2) = sent (d_log s) ++ map (read_cmd buf offset) l /\
       concat (map (fun '(p, n, r) => seqZ p (n - r)) l) = seqZ 0 len /\
       d_out s2 = d_out s ++ EvIssue prio b :: EvStart b :: read_end b len cb /\
       dv s2 dvd_executing = NULL /\ dvd_poll sync_tx th b s2 = Ok (Some len, s2)).
Proof.
  intros Hd Hn Hc Hfr E Hok Er Hf Hx Hen HbP Hbd Hp Hlen Hbuf Hoff Hcb Hquiet Hl.
  pose proof (dvd_init_ok A con P blks m irq id Hfr) as Hi. unfold wp in Hi. rewrite E in Hi.
  pose proof (run_ok A con client P Hd Hn Hc evs s0 sched0 Hi Hok) as Hr. unfold wp in Hr. rewrite Er in Hr. destruct Hr as [g Hg].
  assert (g = sched0) as ->.
  { apply (idle_sched A P Hn s g Hg Hx). }
  pose proof (read_start A con client P Hd Hn Hc b buf offset len cb Hlen Hbuf Hoff s prio Hg Hf Hen HbP Hbd Hp) as Hstart.
  apply wp_run in Hstart as ([] & s1 & E1 & (Hin & Ho1 & Hs1)). exists s1. split; [done|]. intros Hdr.
  destruct (read_all A con client P Hd Hn Hc b buf offset len cb Hlen Hbuf Hoff Hcb Hquiet rs 0 s1 l Hin ltac:(lia) Hl Hdr) as (c & Ec & Hw).
  apply wp_run in Hw as ([] & s2 & E2 & (Hp2 & Ho2 & Hs2 & Hx2 & (y & Hy & Hy1 & Hy2))). exists s2. split_and!; [done| | | |done|].
  - rewrite Hs2, Hs1, Ec, <- app_assoc. done.
  - rewrite (plan_tiles _ _ _ _ Hl). by rewrite Z.sub_0_r.
  - rewrite Ho2, Ho1, <- app_assoc. done.
  - by apply (poll_done b buf offset len cb Hlen th s2 y).
Qed.
End Theorem_.
