(* ===== verification/DvdUpload.v ===== *)
(** * Uploading the patch into the optical drive

    The driver writes 448 bytes of code into the memory of a GameCube drive, at
    most twelve at a time: a command names the place and the number of bytes, and
    the next command's words are the bytes. [written] is what the drive's memory
    holds after such commands. *)

From stdpp Require Import base gmap list.
From Stdlib Require Import ZArith Lia.
From S2P Require Import Prelude Chain LwpQueue Devices KState Clock Irq DspDev DvdPatch DvdState Dvd DvdSpec DvdProofs DvdInv DvdBus.

Open Scope Z_scope.

(** The bytes of a word, and what the commands write where. *)
Definition word_bytes (w : Z) : list Z := [Z.land (Z.shiftr w 24) 0xff; Z.land (Z.shiftr w 16) 0xff; Z.land (Z.shiftr w 8) 0xff; Z.land w 0xff].
Definition cmd_bytes (c : dicmd) : list Z := word_bytes (di_op c) ++ word_bytes (di_arg c) ++ word_bytes (di_arg2 c).
Fixpoint written (l : list dicmd) : list (Z * Z) :=
  match l with
  | h :: d :: l =>
      let n := Z.shiftr (di_arg2 h) 16 in
      (if di_op h =? DVD_FWWRITEMEM then zip (seqZ (di_arg h) n) (cmd_bytes d) else []) ++ written l
  | _ => []
  end.

Definition is_byte (z : Z) : bool := (0 <=? z) && (z <? 256).

Lemma insert_middle {X} (buf : list X) n x : (n < length buf)%nat -> <[n := x]> buf = take n buf ++ x :: drop (S n) buf.
Proof. apply insert_take_drop. Qed.

Lemma patch_copy_spec k code pos cnt buf :
  0 <= pos -> length buf = (cnt + k)%nat ->
  let n := Nat.min k (Z.to_nat (Z.of_nat (length code) - pos)) in
  patch_copy k code (Z.of_nat (length code)) pos cnt buf =
    ((cnt + n)%nat, pos + Z.of_nat n, take cnt buf ++ take n (drop (Z.to_nat pos) code) ++ drop (cnt + n) buf).
Proof.
  revert pos cnt buf. induction k as [|k IH]; intros pos cnt buf Hpos Hbuf; cbn [patch_copy]; cbv zeta.
  - cbn. rewrite Nat.add_0_r, Z.add_0_r, take_0. cbn. by rewrite (take_drop cnt buf).
  - destruct (Z.ltb_spec pos (Z.of_nat (length code))) as [Hlt|Hge].
    + rewrite IH; [|lia|rewrite length_insert; lia]. set (n := Nat.min k _). replace (Nat.min (S k) _) with (S n) by lia.
      f_equal; [f_equal; [lia|lia]|]. destruct (lookup_lt_is_Some_2 code (Z.to_nat pos)) as [x Hx]; [lia|].
      rewrite (nth_lookup_Some code (Z.to_nat pos) 0 x Hx), (drop_S _ _ _ Hx), insert_middle by lia.
      replace (Z.to_nat (pos + 1)) with (S (Z.to_nat pos)) by lia.
      assert (Ht : length (take cnt buf) = cnt) by (rewrite length_take; lia).
      rewrite (take_app_ge _ _ (S cnt)), (drop_app_ge _ _ (S cnt + n)) by lia. rewrite Ht.
      replace (S cnt - cnt)%nat with 1%nat by lia. replace (S cnt + n - cnt)%nat with (S n) by lia. cbn [take drop].
      rewrite take_0, <- app_assoc, drop_drop. cbn. do 4 f_equal. lia.
    + replace (Nat.min (S k) _) with 0%nat by lia. rewrite Nat.add_0_r, Z.add_0_r, take_0. cbn. by rewrite (take_drop cnt buf).
Qed.

(** The words of a buffer give its bytes back. *)
Lemma lor_shift x n y : 0 <= n -> 0 <= y < 2 ^ n -> Z.lor (Z.shiftl x n) y = x * 2 ^ n + y.
Proof.
  intros Hn Hy. rewrite <- Z.shiftl_mul_pow2 by done. assert (Hl : Z.land (Z.shiftl x n) y = 0).
  { apply Z.bits_inj'. intros i Hi. rewrite Z.land_spec, Z.bits_0. destruct (Z.lt_ge_cases i n).
    - by rewrite Z.shiftl_spec_low.
    - rewrite <- (Z.mod_small y (2 ^ n)), Z.mod_pow2_bits_high by lia. apply andb_false_r. }
  by rewrite Z.add_nocarry_lxor, Z.lxor_lor.
Qed.

Lemma byte_word a b c d :
  is_byte a = true -> is_byte b = true -> is_byte c = true -> is_byte d = true ->
  word_bytes (u32 (Z.lor (Z.shiftl a 24) (Z.lor (Z.shiftl b 16) (Z.lor (Z.shiftl c 8) d)))) = [a; b; c; d].
Proof.
  unfold is_byte. rewrite !andb_true_iff, !Z.leb_le, !Z.ltb_lt. intros Ha Hb Hc Hd.
  rewrite (lor_shift c 8), (lor_shift b 16), (lor_shift a 24) by lia. set (w := _ + _). rewrite wrap_small by (unfold w; lia).
  unfold word_bytes. change 0xff with (Z.ones 8). rewrite !Z.land_ones, !Z.shiftr_div_pow2 by lia.
  assert (E1 : w / 2 ^ 24 = a) by (symmetry; apply (Z.div_unique_pos _ _ _ (b * 2 ^ 16 + c * 2 ^ 8 + d)); unfold w; lia).
  assert (E2 : w / 2 ^ 16 = a * 2 ^ 8 + b) by (symmetry; apply (Z.div_unique_pos _ _ _ (c * 2 ^ 8 + d)); unfold w; lia).
  assert (E3 : w / 2 ^ 8 = a * 2 ^ 16 + b * 2 ^ 8 + c) by (symmetry; apply (Z.div_unique_pos _ _ _ d); unfold w; lia).
  rewrite E1, E2, E3. f_equal; [apply Z.mod_small; lia|]. f_equal; [|f_equal; [|f_equal] ];
    symmetry; [apply (Z.mod_unique_pos _ _ a)|apply (Z.mod_unique_pos _ _ (a * 2 ^ 8 + b))|apply (Z.mod_unique_pos _ _ (a * 2 ^ 16 + b * 2 ^ 8 + c))];
    unfold w; lia.
Qed.

Lemma words_buffer buf a1 a2 a3 :
  length buf = 12%nat -> Forall (fun z => is_byte z = true) buf ->
  cmd_bytes (mk_dicmd (u32 (be_word buf 0)) (u32 (be_word buf 1)) (u32 (be_word buf 2)) a1 a2 a3) = buf.
Proof.
  intros Hl Hb. do 12 (destruct buf as [|? buf]; [done|]). destruct buf; [|done].
  repeat (apply Forall_cons in Hb as [? Hb]). unfold cmd_bytes. cbn [di_op di_arg di_arg2]. unfold be_word. cbn [nth Nat.mul Nat.add].
  by rewrite !byte_word.
Qed.

(** The commands come in pairs. *)
Lemma written_app k l : Nat.even (length k) = true -> written (k ++ l) = written k ++ written l.
Proof.
  assert (Hk : forall n k, (length k <= n)%nat -> Nat.even (length k) = true -> written (k ++ l) = written k ++ written l).
  { intros n. induction n as [|n IH]; intros k' Hn He; [by destruct k'; [|cbn in Hn; lia]|].
    destruct k' as [|h [|d k'] ]; [done|done|]. cbn [app written]. rewrite IH; [by rewrite app_assoc|cbn in Hn; lia|done]. }
  by apply (Hk (length k)).
Qed.

Section Upload.
Context `{DvdHw} (A : dvdmap) (con : console) (client : Z -> Z -> Z -> list dvdreq).
Context (code : list Z) (Hsize : length code = 448%nat) (Hcode : Forall (fun z => is_byte z = true) code) (fin : option lowfn).

Definition patch_addr : Z := 0x0040d000.

(** How far the upload is. *)
Record up (stage pos : Z) (s : dvdst) : Prop := {
  u_patch : d_patch s = Some code;
  u_size : dv s dvd_patchcode_size = 448;
  u_stage : dv s dvd_patch_stage = stage;
  u_pos : dv s dvd_patch_pos = pos;
  u_addr : dv s dvd_patch_addr = patch_addr + pos;
  u_len : length (d_cmdbuf s) = 12%nat;
  u_bytes : Forall (fun z => is_byte z = true) (d_cmdbuf s);
  u_fin : d_cb s dvd_finalpatchcb = fin;
  u_stop : dv s dvd_stopnextint = 0;
  u_list : list_ok s;
  u_rst : d_cb s dvd_resetcovercb = None;
}.
Definition armed (s : dvdst) : Prop := d_cb s dvd_callback = Some Fn_patchdrivecb.

Lemma up_K stage pos s s' : up stage pos s -> K s s' -> up stage pos s'.
Proof.
  intros U HK. constructor.
  - by rewrite (k_patch _ _ HK), (u_patch _ _ _ U).
  - by rewrite (k_var _ _ HK), (u_size _ _ _ U).
  - by rewrite (k_var _ _ HK), (u_stage _ _ _ U).
  - by rewrite (k_var _ _ HK), (u_pos _ _ _ U).
  - by rewrite (k_var _ _ HK), (u_addr _ _ _ U).
  - by rewrite (k_buf _ _ HK), (u_len _ _ _ U).
  - rewrite (k_buf _ _ HK). apply (u_bytes _ _ _ U).
  - rewrite (k_cbs _ _ HK), (u_fin _ _ _ U); [done|done|by right].
  - apply (k_stop _ _ HK), (u_stop _ _ _ U).
  - apply (k_list _ _ HK), (u_list _ _ _ U).
  - rewrite (k_cbs _ _ HK), (u_rst _ _ _ U); [done|done|left; apply (u_rst _ _ _ U)].
Qed.

(** [patch_pos] after [i] parts. *)
Definition ppos (i : nat) : Z := Z.min (12 * Z.of_nat i) 448.
Definition psize (i : nat) : nat := Nat.min 12 (448 - 12 * i).

Context (base : list dicmd).

(** The first [i] parts were sent. *)
Definition sent_parts (i : nat) (k : list dicmd) : Prop :=
  length k = (2 * i)%nat /\ written k = zip (seqZ patch_addr (ppos i)) (take (Z.to_nat (ppos i)) code).
Definition data_sent (i : nat) (s : dvdst) : Prop :=
  up (if decide (i = 38%nat) then 3 else 0) (ppos i) s /\ exists k, sent (d_log s) = base ++ k /\ sent_parts i k.
(** And the first command of the next. *)
Definition head_sent (i : nat) (s : dvdst) : Prop :=
  up (if decide (i = 37%nat) then 2 else 1) (ppos (S i)) s /\
  take (psize i) (d_cmdbuf s) = take (psize i) (drop (Z.to_nat (ppos i)) code) /\
  exists k h, sent (d_log s) = base ++ k ++ [h] /\ sent_parts i k /\
    di_op h = DVD_FWWRITEMEM /\ di_arg h = patch_addr + ppos i /\ Z.shiftr (di_arg2 h) 16 = Z.of_nat (psize i).

Lemma data_sent_K i s s' : data_sent i s -> K s s' -> data_sent i s'.
Proof. intros [U Hk] HK. split; [by eapply up_K|]. by rewrite (K_sent _ _ HK). Qed.
Lemma head_sent_K i s s' : head_sent i s -> K s s' -> head_sent i s'.
Proof. intros (U & Hb & Hk) HK. split; [by eapply up_K|]. by rewrite (K_sent _ _ HK), (k_buf _ _ HK). Qed.

(** To the stage that is due. *)
Ltac patch_stage U :=
  unfold dvd_patchdrivecb; apply wp_bind, wp_gets, wp_bind, wp_gets; rewrite (u_patch _ _ _ U), (u_size _ _ _ U);
  cbn [Z.leb Z.compare]; apply wp_bind, wp_gets; rewrite (u_stage _ _ _ U).

Lemma ack_regs s (k : unit -> M dvdst unit) (Q : unit -> dvdst -> Prop) :
  (forall l, sent l = sent (d_log s) -> wp (k tt) Q (set_dlog l s)) -> wp (bind di_ack k) Q s.
Proof.
  intros HQ. apply wp_bind. unfold di_ack. apply wp_bind. unfold wp at 1, di_rd. apply wp_modify. cbn [d_log set_dlog].
  lazymatch goal with |- wp _ Q (set_dlog ?l _) => apply (HQ l) end. rewrite <- app_assoc. apply sent_calm.
  apply Forall_cons. split; [done|]. apply Forall_singleton. by right.
Qed.

Lemma sent_four l a b c d :
  exists h, sent ((((l ++ [WrReg 2 a]) ++ [WrReg 3 b]) ++ [WrReg 4 c]) ++ [WrReg 7 d]) = sent l ++ [h] /\ di_op h = a /\ di_arg h = b /\ di_arg2 h = c.
Proof. unfold sent. rewrite !bus_app. eexists. split; [reflexivity|done]. Qed.

Lemma psize_head i : (i < 38)%nat -> ppos i + Z.of_nat (psize i) = ppos (S i) /\ psize i = Nat.min 12 (Z.to_nat (448 - ppos i)) /\
  0 <= ppos i < 448 /\ (psize i <= 12)%nat.
Proof. unfold ppos, psize. lia. Qed.

Lemma head_step i s : (i < 38)%nat -> data_sent i s -> wp dvd_patchdrivecb (fun _ s' => head_sent i s' /\ armed s') s.
Proof.
  intros Hi [U (k & Ek & Hk)]. destruct (psize_head i Hi) as (Hnext & Hn & Hpos & H12). rewrite decide_False in U by lia. patch_stage U.
  cbn [Z.eqb Pos.eqb negb]. apply wp_bind, wp_modify, wp_bind, wp_gets, wp_bind, wp_gets. cbn [dv set_cbs d_cmdbuf]. rewrite (u_pos _ _ _ U).
  pose proof (patch_copy_spec 12 code (ppos i) 0 (d_cmdbuf s) ltac:(lia) (u_len _ _ _ U)) as Ec. rewrite Hsize in Ec. cbv zeta in Ec.
  change (Z.of_nat 448) with 448 in Ec. rewrite <- Hn, Nat.add_0_l, Hnext in Ec. change (take 0 _ ++ ?x) with x in Ec. rewrite Ec. clear Ec.
  set (part := take (psize i) _). set (buf := part ++ _).
  assert (Hpart : length part = psize i) by (unfold part; rewrite length_take, length_drop, Hsize; lia).
  apply wp_bind, wp_modify, wp_bind, wp_modify, wp_bind, wp_modify, wp_bind, wp_gets. cbn [dv set_vars set_cmdbuf set_cbs].
  rewrite !fupd_ne, (u_addr _ _ _ U) by done. apply ack_regs. intros l El. cbn [d_log set_vars set_cmdbuf set_cbs] in El.
  do 4 (apply wp_bind, wp_modify). apply wp_modify. cbn [d_log set_dlog].
  destruct (sent_four l (u32 DVD_FWWRITEMEM) (u32 (patch_addr + ppos i)) (u32 (SHIFTL (Z.of_nat (psize i)) 16 16))
    (u32 (Z.lor DVD_DI_DMA DVD_DI_START))) as (h & Eh & Eh1 & Eh2 & Eh3).
  split; [split; [|split] |].
  - constructor; cbn [d_patch dv set_vars set_dlog set_cmdbuf set_cbs d_cmdbuf d_cb].
    + apply (u_patch _ _ _ U).
    + rewrite !fupd_ne by done. apply (u_size _ _ _ U).
    + rewrite fupd_ne, fupd_eq by done. unfold ppos. destruct (Z.leb_spec 448 (Z.min (12 * Z.of_nat (S i)) 448)); case_decide; lia.
    + rewrite !fupd_ne by done. apply fupd_eq.
    + rewrite fupd_eq. unfold patch_addr. rewrite wrap_small by lia. lia.
    + unfold buf. rewrite length_app, length_drop, (u_len _ _ _ U). lia.
    + unfold buf. apply Forall_app. split; [by apply Forall_take, Forall_drop|apply Forall_drop, (u_bytes _ _ _ U)].
    + rewrite fupd_ne by done. apply (u_fin _ _ _ U).
    + rewrite !fupd_ne by done. apply (u_stop _ _ _ U).
    + unfold list_ok. cbn. rewrite !fupd_ne by done. apply (u_list _ _ _ U).
    + rewrite fupd_ne by done. apply (u_rst _ _ _ U).
  - cbn [d_cmdbuf set_vars set_dlog set_cmdbuf]. unfold buf. rewrite take_app_le by lia. by rewrite take_ge by lia.
  - exists k, h. cbn [d_log set_vars set_dlog]. rewrite Eh, El, Ek, Eh1, Eh2, Eh3. split_and!; [by rewrite <- app_assoc|done|done| |].
    + apply wrap_small. unfold patch_addr. lia.
    + unfold SHIFTL. change (Z.shiftl 1 16 - 1) with (Z.ones 16). rewrite Z.land_ones, Z.mod_small by lia.
      rewrite wrap_wrap by lia. rewrite wrap_small by (rewrite Z.shiftl_mul_pow2; lia). by rewrite Z.shiftr_shiftl_l, Z.shiftl_0_r by lia.
  - cbn. apply fupd_eq.
Qed.

Lemma data_step i s : (i < 38)%nat -> head_sent i s -> wp dvd_patchdrivecb (fun _ s' => data_sent (S i) s' /\ armed s') s.
Proof.
  intros Hi (U & Hbuf & (k & h & Ek & [Hlen Hw] & Hop & Harg & Hcnt)). destruct (psize_head i Hi) as (Hnext & Hn & Hpos & H12). patch_stage U.
  set (st := if decide (i = 37%nat) then 2 else 1) in *. assert (Hst : st = 1 \/ st = 2) by (unfold st; case_decide; auto).
  assert (E3 : (st =? 3) = false) by (by destruct Hst as [-> | ->]). assert (E0 : (st =? 0) = false) by (by destruct Hst as [-> | ->]).
  rewrite E3, E0. cbn [negb]. apply wp_bind, wp_modify, wp_bind, wp_modify, wp_bind, wp_gets. cbn [d_cmdbuf set_vars set_cbs].
  apply ack_regs. intros l El. cbn [d_log set_vars set_cbs] in El. do 3 (apply wp_bind, wp_modify). apply wp_modify. cbn [d_log set_dlog].
  set (buf := d_cmdbuf s) in *.
  destruct (sent_four l (u32 (be_word buf 0)) (u32 (be_word buf 1)) (u32 (be_word buf 2)) (u32 DVD_DI_START)) as (d & Ed & Ed1 & Ed2 & Ed3).
  assert (Hd : cmd_bytes d = buf).
  { destruct d as [d1 d2 d3 d4 d5 d6]. cbn in Ed1, Ed2, Ed3. subst. apply words_buffer; [apply (u_len _ _ _ U)|apply (u_bytes _ _ _ U)]. }
  split; [split|].
  - constructor; cbn [d_patch dv set_vars set_dlog set_cbs d_cmdbuf d_cb].
    + apply (u_patch _ _ _ U).
    + rewrite fupd_ne by done. apply (u_size _ _ _ U).
    + rewrite fupd_eq. unfold st. destruct (decide (i = 37%nat)) as [->|]; [done|]. by rewrite decide_False by lia.
    + rewrite fupd_ne by done. apply (u_pos _ _ _ U).
    + rewrite fupd_ne by done. apply (u_addr _ _ _ U).
    + apply (u_len _ _ _ U).
    + apply (u_bytes _ _ _ U).
    + rewrite fupd_ne by done. apply (u_fin _ _ _ U).
    + rewrite fupd_ne by done. apply (u_stop _ _ _ U).
    + unfold list_ok. cbn. rewrite fupd_ne by done. apply (u_list _ _ _ U).
    + rewrite fupd_ne by done. apply (u_rst _ _ _ U).
  - exists (k ++ [h; d]). cbn [d_log set_dlog]. split.
    + rewrite Ed, El, Ek. by rewrite <- !app_assoc.
    + split; [rewrite length_app, Hlen; cbn; lia|]. rewrite written_app by (rewrite Hlen; apply Nat.even_even). cbn [written].
      rewrite Hop, Z.eqb_refl, app_nil_r, Hw, Harg, Hcnt, Hd.
      assert (Hz : zip (seqZ (patch_addr + ppos i) (Z.of_nat (psize i))) buf =
                   zip (seqZ (patch_addr + ppos i) (Z.of_nat (psize i))) (take (psize i) (drop (Z.to_nat (ppos i)) code))).
      { rewrite <- Hbuf. set (q := seqZ _ _). assert (Hq : length q = psize i) by (unfold q; rewrite length_seqZ; lia).
        rewrite <- (take_drop (psize i) buf) at 1. rewrite zip_with_app_r. rewrite length_take, Nat.min_l by (unfold buf; rewrite (u_len _ _ _ U); lia).
        rewrite (take_ge q), (drop_ge q) by lia. by rewrite app_nil_r. }
      rewrite Hz, <- zip_with_app by (rewrite length_seqZ, length_take, Hsize; lia). f_equal.
      * rewrite <- seqZ_app by lia. f_equal. lia.
      * replace (Z.to_nat (ppos (S i))) with (Z.to_nat (ppos i) + psize i)%nat by lia. apply take_take_drop.
  - cbn. apply fupd_eq.
Qed.

(** The code was sent and is called. *)
Definition uploaded (s : dvdst) : Prop :=
  d_patch s = None /\ d_cb s dvd_callback = fin /\ Z.land (dv s dvd_drivestate) DVD_INTEROPER <> 0 /\
  exists k c, sent (d_log s) = base ++ k ++ [c] /\ length k = 76%nat /\ written k = zip (seqZ patch_addr 448) code /\
    di_op c = DVD_FWFUNCCALL /\ di_arg c = patch_addr.

Lemma call_step s : data_sent 38 s -> wp dvd_patchdrivecb (fun _ s' => uploaded s') s.
Proof.
  intros [U (k & Ek & [Hlen Hw])]. rewrite decide_True in U by done. patch_stage U. cbn [Z.eqb Pos.eqb negb].
  apply wp_bind, wp_modify, wp_bind, wp_modify, wp_bind, wp_gets, wp_bind, wp_modify, wp_bind, wp_gets.
  cbn [d_cb set_vars set_patch set_cbs dv]. rewrite fupd_ne, (u_fin _ _ _ U) by done. unfold DVD_LowFuncCall, arm. apply wp_bind, wp_bind, wp_modify, wp_modify.
  do 3 (apply wp_bind, wp_modify). apply wp_modify. cbn [d_log set_dlog set_vars set_cbs set_patch].
  destruct (sent_four (d_log s) (u32 DVD_FWFUNCCALL) (u32 0x0040d000) (u32 0x66756E63) (u32 DVD_DI_START)) as (c & Ec & Ec1 & Ec2 & _).
  split_and!; [done|cbn; by rewrite fupd_eq| |exists k, c].
  - cbn. rewrite fupd_ne, fupd_eq by done. intros E. apply (f_equal (fun z => Z.testbit z 2)) in E.
    rewrite Z.land_spec, Z.lor_spec in E. by rewrite orb_true_r in E.
  - cbn [d_log set_dlog]. rewrite Ec, Ek, Ec1, Ec2, Hw, Hlen, <- app_assoc. split_and!; try done.
    change (Z.to_nat (ppos 38)) with 448%nat. by rewrite take_ge by (rewrite Hsize; lia).
Qed.

(** ** The interrupts of an upload *)

(** The drive reports the end of each of [n] commands. *)
Fixpoint tc_answers (n : nat) (s : dvdst) : Prop :=
  match n with
  | O => True
  | S n => reports_tc s /\ match dvd_step A con client DvIntr s with Ok (_, s') => tc_answers n s' | Fault _ => True end
  end.

Lemma patch_intr stage pos s (Q : dvdst -> Prop) :
  up stage pos s -> armed s -> reports_tc s -> (forall s' v, Q s' -> Q (set_vars (fupd (dv s') dvd_breaking v) s')) ->
  (forall s1, K s s1 -> wp dvd_patchdrivecb (fun _ s' => Q s') s1) ->
  wp (dvd_step A con client DvIntr) (fun _ s' => Q s') s.
Proof.
  intros U Ha Ht HQ Hk. apply (intr_calls A con client Fn_patchdrivecb s (fun _ s' => Q s'));
    [apply (u_list _ _ _ U)|apply (u_rst _ _ _ U)|done|apply (u_stop _ _ _ U)|done|].
  intros r s1 HK _ _. assert (Ht1 : exists n, turns s = S n) by (exists (3 * size (d_blk s) + 7)%nat; unfold turns; lia).
  destruct Ht1 as [n ->]. cbn [exec body low]. eapply wp_mono; [by apply Hk|]. cbv beta. intros [] s' Hs'. by apply HQ.
Qed.

Lemma K_breaking s v : K s (set_vars (fupd (dv s) dvd_breaking v) s).
Proof.
  constructor; try done; [|exists []; by rewrite app_nil_r]. intros x Hx. cbn. apply fupd_ne. by intros ->.
Qed.

Lemma upload_run m i s :
  (i + m = 37)%nat -> head_sent i s -> armed s -> tc_answers (2 * m + 2) s ->
  wp (dvd_run A con client (replicate (2 * m + 2) DvIntr)) (fun _ s' => uploaded s') s.
Proof.
  revert i s. induction m as [|m IH]; intros i s Hi Hh Ha Ht.
  - assert (i = 37%nat) as -> by lia. cbn [Nat.mul Nat.add replicate dvd_run]. destruct Ht as [Ht1 Ht2].
    pose proof (patch_intr _ _ s (fun s' => data_sent 38 s' /\ armed s') (proj1 Hh) Ha Ht1) as H1. apply wp_bind.
    assert (Hw : wp (dvd_step A con client DvIntr) (fun _ s' => data_sent 38 s' /\ armed s') s).
    { apply H1; [intros s' v [? ?]; split; [by eapply data_sent_K; [|apply K_breaking]|done]|].
      intros s1 HK. apply (data_step 37); [lia|by eapply head_sent_K]. }
    clear H1. unfold wp in Hw |- *. destruct (dvd_step A con client DvIntr s) as [ [[] s1]|]; [|done]. destruct Hw as [Hd1 Ha1].
    destruct Ht2 as [Ht2 _]. pose proof Hd1 as [U1 _].
    change (wp (dvd_step A con client DvIntr;; ret tt) (fun _ s' => uploaded s') s1). apply wp_bind.
    eapply wp_mono; [apply (patch_intr _ _ s1 uploaded U1 Ha1 Ht2)|].
    + intros s' v (E1 & E2 & E3 & E4). split_and!; try done.
    + intros s2 HK. apply call_step. by eapply data_sent_K.
    + cbv beta. intros [] s' Hs'. by apply wp_ret.
  - replace (2 * S m + 2)%nat with (S (S (2 * m + 2))) in * by lia. cbn [replicate dvd_run]. destruct Ht as [Ht1 Ht2].
    apply wp_bind. assert (Hw : wp (dvd_step A con client DvIntr) (fun _ s' => data_sent (S i) s' /\ armed s') s).
    { apply (patch_intr _ _ s (fun s' => data_sent (S i) s' /\ armed s') (proj1 Hh) Ha Ht1);
        [intros s' v [? ?]; split; [by eapply data_sent_K; [|apply K_breaking]|done]|].
      intros s1 HK. apply (data_step i); [lia|by eapply head_sent_K]. }
    unfold wp in Hw |- *. destruct (dvd_step A con client DvIntr s) as [ [[] s1]|]; [|done]. destruct Hw as [Hd1 Ha1].
    destruct Ht2 as [Ht2 Ht3]. pose proof Hd1 as [U1 _].
    change (wp (dvd_step A con client DvIntr;; dvd_run A con client (replicate (2 * m + 2) DvIntr)) (fun _ s' => uploaded s') s1). apply wp_bind.
    assert (Hw : wp (dvd_step A con client DvIntr) (fun _ s' => head_sent (S i) s' /\ armed s') s1).
    { apply (patch_intr _ _ s1 (fun s' => head_sent (S i) s' /\ armed s') U1 Ha1 Ht2);
        [intros s' v [? ?]; split; [by eapply head_sent_K; [|apply K_breaking]|done]|].
      intros s2 HK. apply (head_step (S i)); [lia|by eapply data_sent_K]. }
    unfold wp in Hw |- *. destruct (dvd_step A con client DvIntr s1) as [ [[] s2]|]; [|done]. destruct Hw as [Hh2 Ha2].
    apply (IH (S i) s2); [lia|done|done|done].
Qed.
End Upload.

(** The code for a drive. *)
Definition patch_for (date : Z) : option (list Z) :=
  if date =? DVD_MODEL04 then Some dvd_patchcode04
  else if date =? DVD_MODEL06 then Some dvd_patchcode06
  else if date =? DVD_MODEL08 then Some dvd_patchcode08
  else if date =? DVD_MODEL08Q then Some dvd_patchcodeQ08
  else None.

Lemma patch_for_ok date code : patch_for date = Some code -> length code = 448%nat /\ Forall (fun z => is_byte z = true) code.
Proof.
  unfold patch_for. intros E. assert (Hall : Forall (fun c => length c = 448%nat /\ forallb is_byte c = true)
    [dvd_patchcode04; dvd_patchcode06; dvd_patchcode08; dvd_patchcodeQ08]).
  { repeat (apply Forall_cons; split; [by split; vm_compute|]). apply Forall_nil_2. }
  assert (Hin : code ∈ [dvd_patchcode04; dvd_patchcode06; dvd_patchcode08; dvd_patchcodeQ08]).
  { repeat (destruct (_ =? _); [injection E as <-; set_solver|]). done. }
  destruct (proj1 (Forall_forall _ _) Hall code Hin) as [H1 H2]. split; [done|]. apply Forall_forall. intros z Hz.
  by apply (proj1 (forallb_forall _ _) H2), list_elem_of_In.
Qed.

Section Theorem_.
Context `{DvdHw} (A : dvdmap) (con : console) (client : Z -> Z -> Z -> list dvdreq).

(** The variables of the upload as they are before the first. *)
Definition upload_fresh (s : dvdst) : Prop :=
  dv s dvd_patch_stage = 0 /\ dv s dvd_patch_pos = 0 /\ dv s dvd_patch_addr = patch_addr /\
  length (d_cmdbuf s) = 12%nat /\ Forall (fun z => is_byte z = true) (d_cmdbuf s).

End Theorem_.
