(* ===== verification/DvdDemo.v ===== *)
(** * The optical drive: concrete instances

    Drives that answer by how many commands they were given, a memory with three
    blocks, and the witnesses of the theorems. The conditions on a run are
    checked by a function, so that a run is evaluated and never its states. *)

From stdpp Require Import base gmap list.
From Stdlib Require Import ZArith Lia.
From S2P Require Import Prelude Chain LwpQueue Devices KState Clock Irq DspDev DvdPatch DvdState Dvd DvdSpec DvdProofs DvdInv DvdSafe DvdCircle DvdTheorems DvdFatal DvdBus DvdRead DvdUpload.

Open Scope Z_scope.

(** A drive: its status register, what is missing of a transfer, its last error,
    by the number of commands so far; and its date. *)
Definition demo_hw (stat left_ : nat -> Z) (err date : Z) : DvdHw := {|
  di_read l r := if r =? 0 then stat (length (sent l)) else if r =? 6 then left_ (length (sent l)) else if r =? 8 then err else 0;
  id_dma _ := replicate 32 0;
  rel_date _ := date;
  sys_time _ := 0 |}.

(** The end of a transfer, and an error, each with its mask. *)
Definition stat_tc : Z := Z.lor DVD_TC_INT DVD_TC_MSK.
Definition stat_de : Z := Z.lor DVD_DE_INT DVD_DE_MSK.

Definition demo_map : dvdmap :=
  mk_map 0x1000 0x2000 0x2010 0x3000 0x3100 0x4000 0x4010 0x4020 0x4030 0x4040 0x4050 0x4060 0x4070 0x4080 0x4090.
Definition demo_P : list Z := [0x2000; 0x2010; 0x2020; 0x2030].
Definition demo_mem : mem :=
  list_to_map (map (fun a => (a, 0)) (map (fun i => 0x1000 + 4 * Z.of_nat i) (seq 0 12) ++ map node_next demo_P ++ map node_prev demo_P)).
Definition demo_blks : gmap Z cmdblk := list_to_map (map (fun b => (b, mk_blk 0 0 0 0 0 0 0 0 0 0)) demo_P).
Definition demo_irq : irqst := mk_irqst (mk_regs 0 0 0 0 0 0 0 0 0) (fun _ => 0) (fun _ => 0).
Definition demo_boot : dvdst := dvd_boot demo_blks demo_mem demo_irq (replicate 32 0).
(** Clients that ask for nothing in their callbacks. *)
Definition demo_client (cb r b : Z) : list dvdreq := [].

Lemma demo_in x : x ∈ demo_P -> x = 0x2000 \/ x = 0x2010 \/ x = 0x2020 \/ x = 0x2030.
Proof. unfold demo_P. rewrite !elem_of_cons, elem_of_nil. tauto. Qed.

Lemma demo_dummy : a_dummycmdblk demo_map ∈ demo_P.
Proof. by left. Qed.
Lemma demo_null : NULL ∉ demo_P.
Proof. intros H%demo_in. unfold NULL in H. lia. Qed.
Lemma demo_client_ok : client_ok demo_client.
Proof. intros cb r b. split; [done|by left]. Qed.

Lemma demo_mapped a : negb (match demo_mem !! a with Some _ => false | None => true end) = true -> is_Some (demo_mem !! a).
Proof. destruct (demo_mem !! a); [by eexists|done]. Qed.

Lemma demo_fresh : dvd_fresh demo_map demo_P demo_blks demo_mem.
Proof.
  split; [split|].
  - intros i Hi. split_and!.
    + intros x Hx%demo_in. split; apply demo_mapped; destruct Hx as [->|[->|[-> | ->] ] ]; by vm_compute.
    + intros x y Hx%demo_in Hy%demo_in. lia.
    + intros x Hx%demo_in. unfold waitq. cbn. lia.
  - intros i k Hi Hk. apply demo_mapped. assert (Hc : i = 0 \/ i = 1 \/ i = 2 \/ i = 3) by lia.
    destruct Hc as [->|[->|[-> | ->] ] ], Hk as [->|[-> | ->] ]; by vm_compute.
  - intros b. split.
    + intros Hb%demo_in. destruct Hb as [->|[->|[-> | ->] ] ]; eexists; by vm_compute.
    + intros Hb. apply elem_of_dom in Hb. unfold demo_blks in Hb. rewrite dom_list_to_map_L in Hb.
      apply elem_of_list_to_set in Hb. exact Hb.
Qed.

(** ** Checking a run *)

#[export] Instance op_ok_dec op : Decision (op_ok op).
Proof. destruct op; apply _. Defined.
#[export] Instance dvd_ev_ok_dec A e s g : Decision (dvd_ev_ok A e s g).
Proof. destruct e; cbn; apply _. Defined.

Section Check_.
Context `{DvdHw} (A : dvdmap) (con : console) (client : Z -> Z -> Z -> list dvdreq).

Fixpoint run_okb (l : list dvd_event) (s : dvdst) : bool :=
  match l with
  | [] => true
  | e :: l =>
      match sched_run sched0 (d_out s) with Some g => bool_decide (dvd_ev_ok A e s g) | None => false end &&
      match dvd_step A con client e s with Ok (_, s') => run_okb l s' | Fault _ => true end
  end.
Lemma run_okb_ok l s : run_okb l s = true -> dvd_run_ok A con client l s.
Proof.
  revert s. induction l as [|e l IH]; intros s Hs; [done|]. cbn in Hs |- *. apply andb_prop in Hs as [H1 H2].
  destruct (sched_run sched0 (d_out s)) as [g|] eqn:Eg; [|done]. apply bool_decide_eq_true in H1. split; [by exists g|].
  destruct (dvd_step A con client e s) as [ [u s']|]; [|done]. by apply IH.
Qed.
End Check_.

(** Where a computation that returns ends. *)
Definition final {X} (c : M dvdst X) (s : dvdst) : dvdst := match c s with Ok (_, s') => s' | Fault _ => s end.
Definition returns {X} (c : M dvdst X) (s : dvdst) : bool := match c s with Ok _ => true | Fault _ => false end.
Lemma final_eq (c : M dvdst unit) s : returns c s = true -> c s = Ok (tt, final c s).
Proof. unfold returns, final. by destruct (c s) as [ [[] s']|]. Qed.

(** ** The scheduler *)

Definition hw_tc : DvdHw := demo_hw (fun _ => stat_tc) (fun _ => 0) 0 DVD_MODEL06.
Definition demo_start : dvdst := final (DVD_Init demo_map GameCube) demo_boot.
Definition req_read (b prio : Z) : dvdreq := mk_req b (OpReadAbs 0x100000 0x800 0 prio) 0x5000.
(** Two reads, the second of which waits, then a spin-up; the interrupts of the
    reads; a reset and a poll. *)
Definition demo_events : list dvd_event :=
  [DvRequest (req_read 0x2010 2); DvRequest (req_read 0x2020 2); DvRequest (mk_req 0x2030 (OpSeekAbs 0x8000 0) 0);
   DvIntr; DvIntr; DvPoll sync_tx 7 0x2020; DvReset DVD_RESETNONE; DvIntr].

Lemma dvd_refines_scheduler_witness :
  exists s s' g, DVD_Init demo_map GameCube demo_boot = Ok (tt, s) /\
    dvd_run (H := hw_tc) demo_map GameCube demo_client demo_events s = Ok (tt, s') /\
    sched_run sched0 (d_out s') = Some g /\ dvd_shows demo_map s' g.
Proof.
  destruct (@dvd_refines_scheduler hw_tc demo_map GameCube demo_client demo_P demo_blks demo_mem demo_irq (replicate 32 0) demo_events
    demo_dummy demo_null demo_client_ok demo_fresh) as (s & E & Hr).
  assert (Hok : run_okb (H := hw_tc) demo_map GameCube demo_client demo_events demo_start = true) by by vm_compute.
  unfold demo_start, final in Hok. unfold demo_boot in Hok. rewrite E in Hok.
  destruct (Hr (run_okb_ok _ _ _ _ _ Hok)) as (s' & g & H1 & H2 & H3). exists s, s', g. by split; [|split; [|split] ].
Defined.

(** What the run did: the seek, which is more urgent, before the second read. *)
Lemma reads_history :
  d_out (final (dvd_run (H := hw_tc) demo_map GameCube demo_client demo_events) demo_start) =
  [EvIssue 2 0x2010; EvStart 0x2010; EvIssue 2 0x2020; EvIssue 0 0x2030; EvDone 0x2010 0x800; EvCall 0x5000 0x800 0x2010;
   EvStart 0x2030; EvDone 0x2030 0; EvStart 0x2020; EvDone 0x2020 0x800; EvCall 0x5000 0x800 0x2020].
Proof. by vm_compute. Qed.

Lemma demo_init : DVD_Init demo_map GameCube demo_boot = Ok (tt, demo_start).
Proof. apply final_eq. by vm_compute. Qed.

Definition is_drop (e : dvdev) : bool := match e with EvDrop => true | _ => false end.
Lemma no_drop l : forallb (fun e => negb (is_drop e)) l = true -> EvDrop ∉ l.
Proof. intros Hl Hd. by pose proof (proj1 (forallb_forall _ _) Hl EvDrop (proj1 (list_elem_of_In _ _) Hd)). Qed.

Lemma dvd_completes_once_witness :
  exists g, dvd_shows demo_map (final (dvd_run (H := hw_tc) demo_map GameCube demo_client demo_events) demo_start) g /\
    forall b, let l := d_out (final (dvd_run (H := hw_tc) demo_map GameCube demo_client demo_events) demo_start) in
      (count (is_done b) l + (if decide (pending g b) then 1 else 0))%nat = count (is_issue b) l.
Proof.
  apply (@dvd_completes_once hw_tc demo_map GameCube demo_client demo_P demo_blks demo_mem demo_irq (replicate 32 0) demo_events demo_start).
  - exact demo_dummy.
  - exact demo_null.
  - exact demo_client_ok.
  - exact demo_fresh.
  - exact demo_init.
  - apply run_okb_ok. by vm_compute.
  - apply final_eq. by vm_compute.
  - apply no_drop. by vm_compute.
Defined.

(** ** A fatal error *)

(** The first command ends with an error; asked for it, the drive says 0x020400. *)
Definition hw_bad : DvdHw := demo_hw (fun n => if (n =? 1)%nat then stat_de else stat_tc) (fun _ => 0x800) 0x00020400 DVD_MODEL06.
Definition demo_failing : list dvd_event := [DvRequest (req_read 0x2010 2); DvRequest (req_read 0x2020 2); DvIntr; DvIntr; DvIntr].
Definition demo_failed : dvdst := final (dvd_run (H := hw_bad) demo_map GameCube demo_client demo_failing) demo_start.
Definition demo_after : list dvd_event :=
  [DvRequest (req_read 0x2020 0); DvIntr; DvReset DVD_RESETHARD; DvMount 0x2030 0x6000; DvIntr; DvPoll sync_tx 7 0x2020].

Lemma dvd_fatal_is_final_witness :
  exists s' l k, dvd_run (H := hw_bad) demo_map GameCube demo_client demo_after demo_failed = Ok (tt, s') /\
    dv s' dvd_fatalerror <> 0 /\ dvd_shows demo_map s' sched0 /\ d_out s' = d_out demo_failed ++ l /\ Forall ev_dead l /\
    (forall b, count (is_done b) l = count (is_issue b) l) /\ d_log s' = d_log demo_failed ++ k /\ Forall reg_dead k.
Proof.
  apply (@dvd_fatal_is_final hw_bad demo_map GameCube demo_client demo_P demo_blks demo_mem demo_irq (replicate 32 0) demo_failing demo_after demo_start).
  - exact demo_dummy.
  - exact demo_null.
  - exact demo_client_ok.
  - exact demo_fresh.
  - exact demo_init.
  - apply run_okb_ok. by vm_compute.
  - apply final_eq. by vm_compute.
  - assert (E : (dv demo_failed dvd_fatalerror =? 1) = true) by by vm_compute. apply Z.eqb_eq in E. by rewrite E.
  - apply run_okb_ok. by vm_compute.
Defined.

(** Both reads failed, and what was asked for afterwards. *)
Lemma demo_failed_history :
  d_out (final (dvd_run (H := hw_bad) demo_map GameCube demo_client demo_after) demo_failed) =
  [EvIssue 2 0x2010; EvStart 0x2010; EvIssue 2 0x2020; EvDone 0x2010 (-1); EvCall 0x5000 (-1) 0x2010;
   EvStart 0x2020; EvDone 0x2020 (-1); EvCall 0x5000 (-1) 0x2020;
   EvIssue 0 0x2020; EvStart 0x2020; EvDone 0x2020 (-1); EvCall 0x5000 (-1) 0x2020;
   EvIssue 1 0x2030; EvStart 0x2030; EvDone 0x2030 (-1); EvCall 0x6000 (-1) 0x2030].
Proof. by vm_compute. Qed.

(** ** A read in two parts *)

(** Of the first part 32 bytes are missing. *)
Definition left_over (n : nat) : Z := if (n =? 1)%nat then 32 else 0.
Definition hw_short : DvdHw := demo_hw (fun _ => stat_tc) left_over 0 DVD_MODEL06.

Section Answers.
Context (stat left_ : nat -> Z) (err date : Z) (client : Z -> Z -> Z -> list dvdreq).
Local Instance this_hw : DvdHw := demo_hw stat left_ err date.

Definition reports_tcb (s : dvdst) : bool :=
  let ir := irq_bits (u32 (stat (length (sent (d_log s))))) in negb (Z.land ir DVD_TC_INT =? 0) && (Z.land ir DVD_BRK_INT =? 0).
Lemma reports_tcb_ok s : reports_tcb s = true -> reports_tc s.
Proof. intros [H1%negb_true_iff H2]%andb_prop. apply Z.eqb_neq in H1. apply Z.eqb_eq in H2. by split. Qed.

Fixpoint drive_answersb (rs : list Z) (s : dvdst) : bool :=
  match rs with
  | [] => true
  | r :: rs => reports_tcb s && (u32 (left_ (length (sent (d_log s)))) =? r) &&
      match dvd_step demo_map GameCube client DvIntr s with Ok (_, s') => drive_answersb rs s' | Fault _ => true end
  end.
Lemma drive_answersb_ok rs s : drive_answersb rs s = true -> drive_answers demo_map GameCube client rs s.
Proof.
  revert s. induction rs as [|r rs IH]; intros s Hs; [done|]. cbn [drive_answersb drive_answers] in Hs |- *. apply andb_prop in Hs as [ [H1 H2]%andb_prop H3].
  apply Z.eqb_eq in H2. split.
  - split; [by apply reports_tcb_ok|]. intros k Hk. cbn. by rewrite sent_calm.
  - destruct (dvd_step demo_map GameCube client DvIntr s) as [ [u s']|]; [|done]. by apply IH.
Qed.

Fixpoint tc_answersb (n : nat) (s : dvdst) : bool :=
  match n with
  | O => true
  | S n => reports_tcb s && match dvd_step demo_map GameCube client DvIntr s with Ok (_, s') => tc_answersb n s' | Fault _ => true end
  end.
Lemma tc_answersb_ok n s : tc_answersb n s = true -> tc_answers demo_map GameCube client n s.
Proof.
  revert s. induction n as [|n IH]; intros s Hs; [done|]. cbn [tc_answersb tc_answers] in Hs |- *. apply andb_prop in Hs as [H1 H3].
  split; [by apply reports_tcb_ok|]. destruct (dvd_step demo_map GameCube client DvIntr s) as [ [u s']|]; [|done]. by apply IH.
Qed.
End Answers.

Lemma dvd_read_covers_witness :
  exists s1 s2, dvd_step (H := hw_short) demo_map GameCube demo_client (DvRequest (req_read 0x2010 2)) demo_start = Ok (tt, s1) /\
    dvd_run (H := hw_short) demo_map GameCube demo_client [DvIntr; DvIntr] s1 = Ok (tt, s2) /\
    sent (d_log s2) = sent (d_log demo_start) ++ map (read_cmd 0x100000 0) [(0, 0x800, 32); (0x7e0, 32, 0)] /\
    d_out s2 = d_out demo_start ++ [EvIssue 2 0x2010; EvStart 0x2010; EvDone 0x2010 0x800; EvCall 0x5000 0x800 0x2010] /\
    dvd_poll sync_tx 7 0x2010 s2 = Ok (Some 0x800, s2).
Proof.
  destruct (@dvd_read_covers hw_short demo_map GameCube demo_client demo_P demo_blks demo_mem demo_irq (replicate 32 0) [] demo_start demo_start
    0x2010 0x100000 0 0x800 2 0x5000 [32; 0] [(0, 0x800, 32); (0x7e0, 32, 0)] 7) as (s1 & E1 & Hr).
  - exact demo_dummy.
  - exact demo_null.
  - exact demo_client_ok.
  - exact demo_fresh.
  - exact demo_init.
  - exact I.
  - reflexivity.
  - by vm_compute.
  - by vm_compute.
  - by vm_compute.
  - right. left.
  - discriminate.
  - lia.
  - lia.
  - lia.
  - lia.
  - discriminate.
  - by right.
  - by vm_compute.
  - assert (Hok : match dvd_step (H := hw_short) demo_map GameCube demo_client (DvRequest (req_read 0x2010 2)) demo_start with
                  | Ok (_, s1) => drive_answersb (fun _ => stat_tc) left_over 0 DVD_MODEL06 demo_client [32; 0] s1 | Fault _ => false end = true) by by vm_compute.
    unfold req_read in Hok. rewrite E1 in Hok. destruct (Hr (drive_answersb_ok _ _ _ _ _ _ _ Hok)) as (s2 & H1 & H2 & _ & H3 & _ & H4).
    exists s1, s2. by split; [|split; [|split; [|split] ] ].
Defined.

(** ** The patch of a drive of model 06 *)

